(* ===== verification/_CoqProject ===== *)
-Q . S2P
Prelude.v
ListSpec.v
KList.v
ListTheorems.v
Bitmap.v
Thread.v
FixedPoint.v
BaseTheorems.v
Places.v
Kernel.v
Invariant.v
KernelSafe.v
KernelSpec.v
Holders.v
KernelTheorems.v
Inode.v
FileSys.v
FileSpec.v
DirSpec.v
FileTheorems.v
Memory.v
CString.v
Arith.v
Random.v
CStdlib.v
LibTheorems.v
Hash.v
HashTheorems.v
Vaddr.v
Palloc.v
Malloc.v
MallocSpec.v
Pagedir.v
MemTheorems.v
Process.v
ProcessSpec.v
ProcessTheorems.v
Stdio.v
StdioSpec.v
StdioTheorems.v
Ustar.v
UstarSpec.v
UstarTheorems.v
Block.v
BlockSpec.v
Partition.v
Paging.v
Init.v
InitSpec.v
InitTheorems.v
Descriptors.v
DescriptorTheorems.v
Trap.v
Intq.v
IntqTheorems.v
Kbd.v
Vga.v
Rtc.v
Serial.v
Console.v
PrintTheorems.v
Ata.v
Ide.v
IdeTheorems.v
X86.v
Switch.v
Stubs.v
Start.v
Loader.v
FsUtil.v
FsUtilTheorems.v
Timer.v
UserLib.v
Examples.v
ExampleTheorems.v
Dump.v
Execute.v
Listing.v
Debug.v
