(* ===== verification/Prelude.v ===== *)
(** * Verification of the Pintos kernel of this repository

    A shallow embedding of the C code under src/pintos-anon/src/ (paths below
    are relative to it) with the theorems that make it correct.

    ** Conventions

    This file has what every component uses.  A routine that cannot fail is a
    function; one that can returns [res]; one that changes state is a
    computation [ST S A] on the state [S] of its component.  [EPanic] is a
    failed ASSERT or a PANIC, [EFault] is undefined behaviour (a null or stale
    pointer, an index outside an array), [EFuel] is a loop bound of the model.
    C integers are numbers of type [Z] with the wrap-around of their width
    written out ([u32], [s32], [u64], [s64]).  Pointers are addresses.  Names
    are those of the source; where one C function is several definitions, the
    others are its loops and the pieces between two points where a thread can
    be switched out.

    ** The parts of the system and their models

    - Lists (lib/kernel/list.c): KList.v has every routine on a store of list
      cells, link by link.  ListSpec.v has the operations on sequences that
      they are proved to compute.  The other components keep a [struct list] as
      the sequence of its elements.  ListTheorems.v has the properties.
    - Bitmaps (lib/kernel/bitmap.c): Bitmap.v, on arrays of 32-bit elements.
    - Threads, scheduler, synchronisation, timer (threads/thread.c,
      threads/synch.c, devices/timer.c, the interrupt levels of
      threads/interrupt.c): Thread.v has [struct thread] and the donation
      stacks, FixedPoint.v the arithmetic of the advanced scheduler, Kernel.v
      the kernel as a machine.  Its state has all threads, lists, semaphores,
      locks and condition variables; each thread has a stack of frames, the
      kernel code it still has to run; the step relation runs one call, one
      frame or one timer interrupt.  An interrupt can occur between any two
      steps with interrupts on, so a theorem about reachable states covers all
      interleavings.  Places.v is the abstract specification (a thread is in
      exactly the list that its status says), Invariant.v the invariant,
      KernelSafe.v that every step keeps it, KernelSpec.v what each operation
      does, Holders.v who changes a lock's holder.  KernelTheorems.v and
      BaseTheorems.v have the properties.
    - The file system (filesys/*.c, the sector accesses of devices/block.c):
      Inode.v has the device as a flat array of bytes, inodes and their data;
      FileSys.v the free map, files, directories and the names.  FileSpec.v
      specifies the free map, creation and closing, DirSpec.v directories as
      maps from names to sectors, FileTheorems.v has the properties.
    - Memory (Memory.v): the bytes that C code reads and writes through
      pointers.  The C library works on it: CString.v (lib/string.c), CStdlib.v
      (lib/stdlib.c); Arith.v (lib/arithmetic.c) and Random.v (lib/random.c)
      have their own state.  LibTheorems.v has the properties.
    - Hash tables (lib/kernel/hash.c): Hash.v, with HashTheorems.v.
    - Memory management: Vaddr.v (threads/vaddr.h, threads/pte.h), Palloc.v
      (threads/palloc.c, on the bitmaps of Bitmap.v), Malloc.v and MallocSpec.v
      (threads/malloc.c, on Palloc.v), Pagedir.v (userprog/pagedir.c, on
      Palloc.v), with MemTheorems.v.
    - Processes (userprog/process.c): Process.v has loading, on page directories
      and the file system, ProcessSpec.v what a process sees of its memory, with
      ProcessTheorems.v; Execute.v has process_execute, start_process and the
      entry to user mode.
    - Formatted output (lib/stdio.c): Stdio.v has __vprintf for any output
      function, StdioSpec.v the text of formats as lists of directives, with
      StdioTheorems.v; Dump.v has hex_dump and print_human_readable_size.
    - Archives and the utilities on them: Ustar.v, UstarSpec.v, UstarTheorems.v
      (lib/ustar.c); FsUtil.v and FsUtilTheorems.v (filesys/fsutil.c).
    - Block devices: Block.v and BlockSpec.v (devices/block.c) have the registry
      and the drivers, Partition.v (devices/partition.c) the partition tables,
      Ide.v and IdeTheorems.v (devices/ide.c) the disk driver, on the disk
      controller of Ata.v.
    - Boot: Loader.v (threads/loader.S), Start.v (threads/start.S), Paging.v,
      Init.v and InitSpec.v (threads/init.c: page tables, command line, options,
      actions, the choice of devices), each with its theorems.
    - Interrupts and system calls: Descriptors.v (userprog/gdt.c, tss.c, the
      tables and the controller of threads/interrupt.c, devices/pit.c, and the
      registrations of all parts), Stubs.v (threads/intr-stubs.S), Trap.v
      (userprog/syscall.c, exception.c), UserLib.v (lib/user/*.c: the stubs of
      the system calls and printf of programs), each with its theorems.
    - The context switch (threads/switch.S and the stacks that thread_create
      makes): Switch.v; Debug.v has the backtraces of lib/debug.c and
      lib/kernel/debug.c on these stacks.
    - Devices: Intq.v (devices/intq.c), Kbd.v (devices/kbd.c, input.c), Vga.v
      (devices/vga.c), Serial.v (devices/serial.c), Rtc.v (devices/rtc.c),
      Timer.v (the calibration and the delays of devices/timer.c), each with its
      theorems.  Console.v (lib/kernel/console.c) uses the devices through the
      class [Device]; PrintTheorems.v connects it to them.
    - Example programs (examples/*.c): Examples.v with ExampleTheorems.v, and
      Listing.v, against classes of system calls.

    The theorems on a part are in the file named after it with Theorems, or, for
    the smaller parts, at the end of its own file.

    Assembly code is a computation on the processor of X86.v, instruction by
    instruction.  The chips that drivers work with (the controller of Ata.v, the
    uart of Serial.v, the registers of the display in Vga.v, the clocks of Rtc.v
    and Timer.v, the BIOS services of Loader.v and Start.v) are models of their
    documented behaviour.

    ** What the theorems show

    - Lists: list_sort is a stable sort; ordered insertion, splicing, reversal
      and list_unique compute their sequence operations, and end.
    - Threads: in every reachable state each thread is in exactly one place and
      the ready and alarm lists are sorted; a lock's holder changes only from
      nobody to the running thread and back, and its semaphore agrees with the
      holder; yielding runs a thread of the highest priority, sema_up wakes one,
      the timer wakes exactly the due sleepers; releasing a lock returns
      exactly its donations.  The arithmetic of the advanced scheduler is exact
      and in range where stated.
    - File system: reads and writes address exactly their bytes and leave other
      files alone; the free map is first fit and its copy on disk agrees;
      directories are maps that dir_add, dir_remove and lookup update and read;
      removal of an open file waits for its last close.
    - Library: qsort sorts and bsearch searches for every comparison function
      with the documented contract; strtok_r, strlcpy, strlcat, memmove and
      atoi do what their comments say, inside their buffers; division is exact
      and never traps; the random generator's state stays a permutation.
    - Hash tables return what a set returns, for every sequence of calls.
    - Memory management: pages and blocks that are handed out are disjoint from
      all others in use and freed exactly once; realloc keeps the contents; a
      page directory is a map from pages to frames, with no stale translation.

    - Processes: loading the program headers gives the process exactly the
      segments of the file, or fails for the stated reasons; the frame of a new
      process makes intr_exit enter user mode at its entry point; and the
      arguments destroy this frame.
    - Output: snprintf, printf of the kernel on its devices and printf of user
      programs write exactly the text of their directives; a hex dump can be
      read back.
    - Archives: headers round trip; extract does to the file system what storing
      the members of the archive in order does, append adds a member.
    - Block devices: a write is read back and changes nothing that another device
      sees, through nested partitions; the IDE driver on its controller returns
      what the disks of the block layer return, for any sequence of calls.
    - Boot: the loader finds and reads the kernel; start.S reaches main in
      protected mode with the first 64 MB mapped; paging_init maps physical
      memory; the command line is carried out in order; the devices get their
      roles.
    - Interrupts: after boot each vector has the right gate; an interrupt saves
      and restores the interrupted program; a system call of the user library
      gives the handler its number and arguments and returns what the handler
      leaves; the handler of this kernel ends the program.
    - The context switch gives each thread back its registers and its stack.
    - Devices: interrupt queues lose and reorder nothing; typed text arrives;
      the display shows the text, the serial line carries it; calibration and
      delays are within their bounds.
    - Programs: cat, cp, cmp, lineup, rm, the line editor of the shell, ls and
      pwd do what their comments say, where the findings do not say otherwise.

    Theorems that are not properties of correct behaviour (an execution in
    which the code faults or differs from its comment) follow the component's
    properties in the same file.

    ** Interfaces

    Clients are proved against classes: [StrictWeak] (orders of lists),
    [Comparison] (qsort, bsearch), [HashFuncs] (hash tables), [Device] and
    [DeviceLaws] (what the console needs of a display and a serial port), [Sys]
    with [SysLaws] and [DirSys] with [DirLaws] (the system calls, as the manual
    of the project describes them, since the handler of this kernel ends every
    program).  Each class has an instance in the development.

    ** Bounds

    Loops are structural recursion on a number that the code itself computes
    (a count, a size) or on fuel that is enough by a theorem: the number of
    cells of the store for lists, the number of mapped bytes for strings, 32
    for the loops that clear or double a 32-bit number, the length of the list
    or array for the others; the length of the format and of its text for
    printf; the number of drives for the loader; the number of sectors of the
    archive for extract; one more than the blocks of 1024 bytes of a file for
    the programs.  Loops that wait for hardware have the number of turns of the
    source where it counts them (ide.c, loop counts of start.S), and otherwise
    fuel for the turns that the chip needs in the model (the transmitter of the
    uart, the clock's update, the period of the timer).  Partitions are nested
    to any depth [depth] that is given.  The theorems state that the routine
    returns, so none of them depends on running out of fuel.

    ** Assumptions

    Outcomes of memory allocation inside the file system and the hash table are
    inputs.  The pool and descriptor locks of palloc.c and malloc.c, and the
    absence of locks in the file system, make each operation of these components
    one atomic step in the model.  C routines that assembly code calls are
    parameters that keep the calling convention; thread_create is a parameter of
    process_execute.  A memory access of the processor model is to memory that
    exists: segments and page tables are the subject of the theorems on
    Descriptors.v, Start.v, Paging.v and Pagedir.v.

    ** Not modelled

    - main of threads/init.c as a whole: its steps are modelled on the states of
      their components, which are not combined into one machine.
    - The speaker, and the ports that switch the machine off (devices/speaker.c,
      shutdown.c): a fixed sequence of port writes each.
    - Statistics, and debug_panic: they print numbers or a message and change
      nothing else; a panic is the error [EPanic].
    - sema_self_test of threads/synch.c, and the tests: programs that exercise
      the code that is modelled.
    - Of the examples, hex-dump (cat with hex_dump), mcat and mcp (mapped
      memory, which this kernel does not have), insult and recursor (random
      sentences and a chain of processes) and halt.
    - Host utilities (utils/): programs on the developer's machine, which are
      calls of its operating system. *)

From stdpp Require Export prelude gmap list sorting strings.
From Stdlib Require Export ZArith Lia.

Declare Scope pintos_scope.
Delimit Scope pintos_scope with pintos.

(** ** Outcomes of kernel code

    [EPanic] is a failed [ASSERT] or a call of [PANIC] (lib/debug.h), [EFault]
    is undefined behaviour of the C program (a dereference of NULL or of memory
    that does not hold the object, an index outside an array), and [EFuel] is
    the model's own loop bound: theorems that a routine returns show that it
    does not occur. *)
Inductive error := EPanic | EFault | EFuel.

Inductive res (A : Type) :=
| Ok (a : A)
| Err (e : error).
Arguments Ok {A} a.
Arguments Err {A} e.

#[export] Instance error_eq_dec : EqDecision error.
Proof. solve_decision. Defined.

#[export] Instance res_eq_dec {A} `{EqDecision A} : EqDecision (res A).
Proof. solve_decision. Defined.

#[export] Instance res_ret : MRet res := fun A a => Ok a.
#[export] Instance res_bind : MBind res := fun A B k m =>
  match m with Ok a => k a | Err e => Err e end.
#[export] Instance res_fmap : FMap res := fun A B f m =>
  match m with Ok a => Ok (f a) | Err e => Err e end.

(** Code that mutates a store [S]. *)
Definition ST (S A : Type) : Type := S → res (A * S).

#[export] Instance ST_ret {S} : MRet (ST S) := fun A a s => Ok (a, s).
#[export] Instance ST_bind {S} : MBind (ST S) := fun A B k m s =>
  match m s with Ok (a, s') => k a s' | Err e => Err e end.

Definition st_get {S} : ST S S := fun s => Ok (s, s).
Definition st_put {S} (s' : S) : ST S () := fun _ => Ok ((), s').
Definition st_modify {S} (f : S → S) : ST S () := fun s => Ok ((), f s).
Definition st_gets {S A} (f : S → A) : ST S A := fun s => Ok (f s, s).
Definition st_fail {S A} (e : error) : ST S A := fun _ => Err e.
(** [ASSERT (b)] of lib/debug.h. *)
Definition ASSERT {S} (b : bool) : ST S () := fun s => if b then Ok ((), s) else Err EPanic.
Definition st_opt {S A} (e : error) (o : option A) : ST S A := fun s =>
  match o with Some a => Ok (a, s) | None => Err e end.

Definition st_res {S A} (r : res A) : ST S A := fun s =>
  match r with Ok a => Ok (a, s) | Err e => Err e end.

(** [m ≫= k] on a computation whose first part is known. *)
Section monad_lemmas.
Context {S : Type}.

Lemma st_bind_ok {A B} (m : ST S A) (k : A → ST S B) s a s1 :
  m s = Ok (a, s1) → (m ≫= k) s = k a s1.
Proof. intros H. unfold mbind, ST_bind. by rewrite H. Qed.

Lemma st_bind_err {A B} (m : ST S A) (k : A → ST S B) s e :
  m s = Err e → (m ≫= k) s = Err e.
Proof. intros H. unfold mbind, ST_bind. by rewrite H. Qed.

Lemma st_bind_assoc {A B C} (c : ST S A) (f : A → ST S B) (g : B → ST S C) s : (c ≫= λ a, f a ≫= g) s = ((c ≫= f) ≫= g) s.
Proof. unfold mbind, ST_bind. by destruct (c s) as [[]|]. Qed.

Lemma st_bind_inv {A B} (m : ST S A) (k : A → ST S B) s r :
  (m ≫= k) s = Ok r → ∃ a s1, m s = Ok (a, s1) ∧ k a s1 = Ok r.
Proof. unfold mbind, ST_bind. destruct (m s) as [[a s1]|e]; [|done]. eauto. Qed.

Lemma assert_ok (b : bool) s : b = true → ASSERT (S:=S) b s = Ok ((), s).
Proof. by intros ->. Qed.

Lemma assert_inv (b : bool) (s s' : S) u : ASSERT b s = Ok (u, s') → b = true ∧ s' = s.
Proof. unfold ASSERT. destruct b; naive_solver. Qed.
End monad_lemmas.

Lemma res_bind_inv {A B} (m : res A) (k : A → res B) b :
  (m ≫= k) = Ok b → ∃ a, m = Ok a ∧ k a = Ok b.
Proof. destruct m; simpl; [eauto|done]. Qed.

(** Computes with the primitive actions. *)
Ltac st_unfold := unfold mbind, ST_bind, mret, ST_ret, st_get, st_put, st_modify, st_gets, st_fail, st_opt, ASSERT in *.
Ltac st_simpl := st_unfold; simpl.

(** ** Machine integers; pointers are addresses and 0 is NULL *)
Definition NULL : Z := 0.

Definition u32 (x : Z) : Z := x `mod` 2^32.
Definition s32 (x : Z) : Z := (x + 2^31) `mod` 2^32 - 2^31.
Definition u64 (x : Z) : Z := x `mod` 2^64.
Definition s64 (x : Z) : Z := (x + 2^63) `mod` 2^64 - 2^63.

Definition in_u32 (x : Z) : Prop := (0 ≤ x < 2^32)%Z.
Definition in_s32 (x : Z) : Prop := (-2^31 ≤ x < 2^31)%Z.
Definition in_s64 (x : Z) : Prop := (-2^63 ≤ x < 2^63)%Z.

(** Linear arithmetic with [/], [mod], [÷] and [rem] by constants. *)
Ltac dlia := Z.to_euclidean_division_equations; lia.

Section ints.
Local Open Scope Z_scope.

Lemma u32_id x : in_u32 x → u32 x = x.
Proof. unfold in_u32, u32. intros. by apply Z.mod_small. Qed.
Lemma s32_id x : in_s32 x → s32 x = x.
Proof. unfold in_s32, s32. intros. rewrite Z.mod_small; lia. Qed.
Lemma s64_id x : in_s64 x → s64 x = x.
Proof. unfold in_s64, s64. intros. rewrite Z.mod_small; lia. Qed.
Lemma u32_range x : in_u32 (u32 x).
Proof. unfold in_u32, u32. apply Z.mod_pos_bound. lia. Qed.
Lemma s32_range x : in_s32 (s32 x).
Proof. unfold in_s32, s32. pose proof (Z.mod_pos_bound (x + 2^31) (2^32)). lia. Qed.
Lemma s64_range x : in_s64 (s64 x).
Proof. unfold in_s64, s64. pose proof (Z.mod_pos_bound (x + 2^63) (2^64)). lia. Qed.
Lemma u32_add_l x y : u32 (u32 x + y) = u32 (x + y).
Proof. unfold u32. by rewrite Z.add_mod_idemp_l. Qed.
End ints.

(** ** Lists *)
Lemma filter_none {A} (P : A → Prop) `{∀ x, Decision (P x)} (l : list A) :
  Forall (λ x, ¬ P x) l → filter P l = [].
Proof. induction 1; [done|]. by rewrite filter_cons_False. Qed.

Lemma filter_all {A} (P : A → Prop) `{∀ x, Decision (P x)} (l : list A) :
  Forall P l → filter P l = l.
Proof. induction 1; [done|]. rewrite filter_cons_True by done. by f_equal. Qed.

Lemma fmap_id_forall {A} (f : A → A) (l : list A) : Forall (λ x, f x = x) l → f <$> l = l.
Proof. induction 1 as [|x l Hx _ IH]; [done|]. cbn. by rewrite Hx, IH. Qed.

Lemma zip_fst_snd {A B} (es : list (A * B)) : zip es.*1 es.*2 = es.
Proof. induction es as [|[a b] es IH]; [done|]. cbn. f_equal. exact IH. Qed.

Lemma filter_partition {A} (P : A → Prop) `{∀ x, Decision (P x)} (l : list A) :
  (length (filter P l) + length (filter (λ x, ¬ P x) l) = length l)%nat.
Proof.
  induction l as [|x l IH]; [done|]. rewrite !filter_cons. repeat case_decide; simpl; try tauto; lia.
Qed.

Lemma forall_filter {A} (P Q : A → Prop) `{∀ x, Decision (Q x)} (l : list A) :
  Forall P l → Forall P (filter Q l).
Proof. rewrite !Forall_forall. intros Hl x [_ ?]%list_elem_of_filter. auto. Qed.

Lemma sorted_filter {A} (R : A → A → Prop) (Q : A → Prop) `{∀ x, Decision (Q x)} (l : list A) :
  StronglySorted R l → StronglySorted R (filter Q l).
Proof.
  induction 1 as [|x l _ IH Hx]; [constructor|]. rewrite filter_cons.
  case_decide; [|done]. constructor; [done|]. by apply forall_filter.
Qed.

Lemma filter_ne_perm {A} `{EqDecision A} (x : A) (l : list A) :
  NoDup l → x ∈ l → x :: filter (.≠ x) l ≡ₚ l.
Proof.
  induction 1 as [|y l Hy Hnd IH]; [by intros ?%elem_of_nil|]. intros [->|Hx]%elem_of_cons.
  - rewrite filter_cons_False by naive_solver. rewrite filter_all; [done|].
    apply Forall_forall. congruence.
  - rewrite filter_cons_True by congruence. rewrite Permutation_swap. by rewrite IH.
Qed.

(** A block in the middle of a sequence without repetitions. *)
Lemma nodup_mid {A} (X F Y : list A) :
  NoDup (X ++ F ++ Y) ↔ NoDup F ∧ (∀ x, x ∈ F → x ∉ X ++ Y) ∧ NoDup (X ++ Y).
Proof. rewrite (Permutation_app_swap_app X F Y). apply NoDup_app. Qed.

Lemma elem_of_mid {A} (x : A) (X F Y : list A) : x ∈ X ++ F ++ Y ↔ x ∈ F ∨ x ∈ X ++ Y.
Proof. rewrite (Permutation_app_swap_app X F Y). apply elem_of_app. Qed.

(** Exchange of two elements by index. *)
Definition swap_at {A} (i j : nat) (l : list A) : list A :=
  match l !! i, l !! j with Some x, Some y => <[j := x]> (<[i := y]> l) | _, _ => l end.

Section swap.
Context {A : Type}.
Implicit Types (l : list A).

Lemma swap_at_length i j l : length (swap_at i j l) = length l.
Proof. unfold swap_at. destruct (l !! i), (l !! j); by rewrite ?length_insert. Qed.

Lemma swap_at_lookup i j l k :
  (i < length l)%nat → (j < length l)%nat →
  swap_at i j l !! k = if decide (k = i) then l !! j else if decide (k = j) then l !! i else l !! k.
Proof.
  intros Hi Hj. unfold swap_at. destruct (lookup_lt_is_Some_2 l i Hi) as [x Ex], (lookup_lt_is_Some_2 l j Hj) as [y Ey].
  rewrite Ex, Ey. destruct (decide (k = j)) as [->|Hkj].
  - rewrite list_lookup_insert_eq by (by rewrite length_insert). case_decide; congruence.
  - rewrite list_lookup_insert_ne by done. destruct (decide (k = i)) as [->|Hki].
    + by rewrite list_lookup_insert_eq.
    + by rewrite list_lookup_insert_ne.
Qed.

Lemma swap_at_twice i j l : swap_at i j (swap_at i j l) = l.
Proof.
  assert (Hout : (length l ≤ i ∨ length l ≤ j)%nat → swap_at i j l = l).
  { unfold swap_at. intros [H|H]; rewrite (lookup_ge_None_2 l _ H); [done|by destruct (l !! i)]. }
  destruct (decide (i < length l ∧ j < length l)%nat) as [[Hi Hj]|Hn]; [|by rewrite !Hout by lia].
  apply list_eq. intros k. rewrite !swap_at_lookup by (rewrite ?swap_at_length; done).
  repeat case_decide; congruence.
Qed.

Lemma swap_at_perm i j l : swap_at i j l ≡ₚ l.
Proof.
  unfold swap_at. destruct (l !! i) as [x|] eqn:Ei; [|done]. destruct (l !! j) as [y|] eqn:Ej; [|done].
  by apply Permutation_insert_swap.
Qed.
End swap.

(** ** The sequences held in the values of a finite map, one after the other *)
Definition collect {V A} (f : V → list A) (m : gmap Z V) : list A :=
  concat (f <$> (map_to_list m).*2).

Section collect.
Context {V A : Type} (f : V → list A).
Implicit Types (m : gmap Z V).

Lemma collect_insert m i v : m !! i = None → collect f (<[i := v]> m) ≡ₚ f v ++ collect f m.
Proof. intros H. unfold collect. by rewrite (map_to_list_insert _ _ _ H). Qed.

Lemma collect_delete m i v : m !! i = Some v → collect f m ≡ₚ f v ++ collect f (delete i m).
Proof. intros H. unfold collect. by rewrite <- (map_to_list_delete _ _ _ H). Qed.

Lemma collect_update m i v v' :
  m !! i = Some v → collect f (<[i := v']> m) ≡ₚ f v' ++ collect f (delete i m).
Proof. intros H. rewrite <- insert_delete_eq. apply collect_insert, lookup_delete_eq. Qed.

(** Replacing a value by one that holds the same sequence. *)
Lemma collect_same m i v v' :
  m !! i = Some v → f v' ≡ₚ f v → collect f (<[i := v']> m) ≡ₚ collect f m.
Proof. intros H E. by rewrite (collect_update _ _ _ _ H), (collect_delete _ _ _ H), E. Qed.

(** The same with a default for a key that is not there. *)
Lemma collect_default d m i :
  f d = [] → ∃ rest, collect f m ≡ₚ f (default d (m !! i)) ++ rest ∧
    ∀ v, collect f (<[i := v]> m) ≡ₚ f v ++ rest.
Proof.
  intros Hd. destruct (m !! i) as [v0|] eqn:E; simpl.
  - exists (collect f (delete i m)). split; [by apply collect_delete|]. intros v. by eapply collect_update.
  - exists (collect f m). rewrite Hd. split; [done|]. intros v. by apply collect_insert.
Qed.

Lemma collect_fmap (g : V → V) (Q : A → Prop) `{∀ x, Decision (Q x)} m :
  (∀ v, f (g v) = filter Q (f v)) → collect f (g <$> m) ≡ₚ filter Q (collect f m).
Proof.
  intros E. unfold collect. rewrite map_to_list_fmap, <- list_fmap_compose.
  induction (map_to_list m) as [|[i v] l IH]; [done|]. simpl. by rewrite filter_app, E, IH.
Qed.

Lemma elem_of_collect m x : x ∈ collect f m ↔ ∃ i v, m !! i = Some v ∧ x ∈ f v.
Proof.
  unfold collect. rewrite list_elem_of_In, in_concat. setoid_rewrite <- list_elem_of_In.
  setoid_rewrite list_elem_of_fmap. setoid_rewrite list_elem_of_fmap. split.
  - intros (l & (v & -> & [i v'] & -> & Hin%elem_of_map_to_list) & Hx). eauto.
  - intros (i & v & Hin%elem_of_map_to_list & Hx). exists (f v). split; [|done].
    exists v. split; [done|]. by exists (i, v).
Qed.
End collect.

(** Membership in explicit sequences, as a proposition. *)
Ltac elem_simpl :=
  repeat first [rewrite elem_of_app | rewrite elem_of_cons | rewrite elem_of_nil].

(** ** Propositions decided by evaluation *)
Lemma by_computation P `{Decision P} : bool_decide P = true → P.
Proof. apply bool_decide_eq_true. Qed.

(** Discharges a hypothesis about a state that evaluates. *)
Ltac compute_hyp := match goal with |- ?P => apply (by_computation P) end; vm_compute; reflexivity.

Create HintDb pintos.
#[export] Hint Resolve u32_range s32_range s64_range : pintos.
