(* ===== verification/ListSpec.v ===== *)
(** * Abstract sequences for lib/kernel/list.c

    The operations of list.c on the sequence of elements a list holds: what the
    pointer routines of KList.v are proved to compute, and what the components
    that keep a [struct list] (threads, semaphores, timer, inodes) use. *)

From S2P Require Import Prelude.

Section spec.
Context {A : Type} (less : A → A → bool).

(** The order of adjacent elements the code asks for: not [less y x]. *)
Definition le_of (x y : A) : Prop := less y x = false.

#[export] Instance le_of_dec x y : Decision (le_of x y).
Proof. unfold le_of. apply _. Defined.

(** list_insert_ordered: before the first element that [x] is less than. *)
Fixpoint insert_ordered (x : A) (xs : list A) : list A :=
  match xs with
  | [] => [x]
  | y :: ys => if less x y then x :: y :: ys else y :: insert_ordered x ys
  end.

(** The first run found by find_end_of_run, and what follows it. *)
Fixpoint run (x : A) (xs : list A) : list A * list A :=
  match xs with
  | [] => ([x], [])
  | y :: ys => if less y x then ([x], y :: ys) else
      let '(r, rest) := run y ys in (x :: r, rest)
  end.

(** inplace_merge on two runs. *)
Fixpoint merge_runs (xs : list A) : list A → list A :=
  fix go ys :=
  match xs, ys with
  | [], _ => ys
  | _, [] => xs
  | x :: xs', y :: ys' =>
      if less y x then y :: go ys' else x :: merge_runs xs' ys
  end.

(** is_sorted past a first element. *)
Fixpoint sorted_from (x : A) (xs : list A) : bool :=
  match xs with [] => true | y :: ys => if less y x then false else sorted_from y ys end.

(** One pass of the do-while of list_sort: the new sequence and
    output_run_cnt.  [n] bounds the number of elements. *)
Fixpoint sort_pass (n : nat) (xs : list A) : list A * nat :=
  match n, xs with
  | O, _ => (xs, 0)
  | _, [] => ([], 0)
  | S n', x :: xs' =>
      let '(r1, rest) := run x xs' in
      match rest with
      | [] => (r1, 1)
      | y :: rest' =>
          let '(r2, rest2) := run y rest' in
          let '(out, c) := sort_pass n' rest2 in
          (merge_runs r1 r2 ++ out, S c)
      end
  end.

(** The do-while of list_sort, at most [k] passes. *)
Fixpoint sort_loop (k : nat) (xs : list A) : option (list A) :=
  match k with
  | O => None
  | S k' => let '(out, c) := sort_pass (length xs) xs in
            if decide (1 < c) then sort_loop k' out else Some out
  end.

(** The number of maximal runs of a sequence. *)
Fixpoint runs_after (x : A) (xs : list A) : nat :=
  match xs with
  | [] => 1
  | y :: ys => (if less y x then 1 else 0) + runs_after y ys
  end.
Definition runs (xs : list A) : nat :=
  match xs with [] => 0 | x :: xs' => runs_after x xs' end.

(** list_unique: the kept elements and the removed ones, in order. *)
Fixpoint unique_after (x : A) (xs : list A) : list A * list A :=
  match xs with
  | [] => ([x], [])
  | y :: ys =>
      if negb (less x y) && negb (less y x) then
        let '(k, d) := unique_after x ys in (k, y :: d)
      else let '(k, d) := unique_after y ys in (x :: k, d)
  end.
Definition unique (xs : list A) : list A * list A :=
  match xs with [] => ([], []) | x :: xs' => unique_after x xs' end.

(** list_max and list_min past a current candidate. *)
Fixpoint max_after (m : A) (xs : list A) : A :=
  match xs with [] => m | y :: ys => max_after (if less m y then y else m) ys end.
Fixpoint min_after (m : A) (xs : list A) : A :=
  match xs with [] => m | y :: ys => min_after (if less y m then y else m) ys end.

(** Two elements neither of which is less than the other. *)
Definition same_rank (k x : A) : Prop := less k x = false ∧ less x k = false.

#[export] Instance same_rank_dec k x : Decision (same_rank k x).
Proof. unfold same_rank. apply _. Defined.
End spec.

(** What list.c expects of a [list_less_func]. *)
Class StrictWeak {A} (less : A → A → bool) : Prop := {
  sw_asym : ∀ x y, less x y = true → less y x = false;
  sw_trans : ∀ x y z, less y x = false → less z y = false → less z x = false;
}.

Section facts.
Context {A : Type} (less : A → A → bool).

Lemma insert_ordered_perm x xs : insert_ordered less x xs ≡ₚ x :: xs.
Proof.
  induction xs as [|y ys IH]; simpl; [done|].
  destruct (less x y); [done|]. rewrite IH. apply Permutation_swap.
Qed.

Lemma insert_ordered_elem x y xs : y ∈ insert_ordered less x xs ↔ y = x ∨ y ∈ xs.
Proof. rewrite insert_ordered_perm. apply elem_of_cons. Qed.

Lemma insert_ordered_nodup x xs : NoDup (insert_ordered less x xs) ↔ x ∉ xs ∧ NoDup xs.
Proof. rewrite insert_ordered_perm. apply NoDup_cons. Qed.

Lemma insert_ordered_length x xs : length (insert_ordered less x xs) = S (length xs).
Proof. by rewrite insert_ordered_perm. Qed.

(** The element goes before the first one it is less than. *)
Lemma insert_ordered_split x xs :
  ∃ l r, xs = l ++ r ∧ insert_ordered less x xs = l ++ x :: r ∧
    Forall (λ y, less x y = false) l ∧ (∀ y r', r = y :: r' → less x y = true).
Proof.
  induction xs as [|y ys (l & r & -> & IH & Hl & Hr)]; simpl.
  - exists [], []. repeat split; naive_solver.
  - destruct (less x y) eqn:E.
    + exists [], (y :: l ++ r). repeat split; naive_solver.
    + exists (y :: l), r. rewrite IH. repeat split; eauto.
Qed.

Lemma sorted_from_spec x xs : sorted_from less x xs = true ↔ Sorted (le_of less) (x :: xs).
Proof.
  revert x. induction xs as [|y ys IH]; intros x; simpl; [split; by repeat constructor|].
  destruct (less y x) eqn:E.
  - split; [done|]. intros H. inversion H as [|? ? ? Hhd]. inversion Hhd as [|? ? Hle].
    unfold le_of in Hle. congruence.
  - rewrite IH. split; intros H; [constructor; [done|by constructor]|by inversion H].
Qed.

Lemma merge_runs_nil_l ys : merge_runs less [] ys = ys.
Proof. by destruct ys. Qed.
Lemma merge_runs_nil_r xs : merge_runs less xs [] = xs.
Proof. by destruct xs. Qed.
Lemma merge_runs_cons x xs y ys :
  merge_runs less (x :: xs) (y :: ys) =
    if less y x then y :: merge_runs less (x :: xs) ys else x :: merge_runs less xs (y :: ys).
Proof. done. Qed.

(** Induction that follows the merge. *)
Lemma merge_ind (P : list A → list A → Prop) :
  (∀ ys, P [] ys) → (∀ xs, P xs []) →
  (∀ x xs y ys, less y x = true → P (x :: xs) ys → P (x :: xs) (y :: ys)) →
  (∀ x xs y ys, less y x = false → P xs (y :: ys) → P (x :: xs) (y :: ys)) →
  ∀ xs ys, P xs ys.
Proof.
  intros H1 H2 H3 H4 xs. induction xs as [|x xs IHx]; [done|].
  intros ys. induction ys as [|y ys IHy]; [done|].
  destruct (less y x) eqn:E; auto.
Qed.

Lemma merge_runs_perm xs ys : merge_runs less xs ys ≡ₚ xs ++ ys.
Proof.
  revert xs ys. apply merge_ind; intros *.
  - by rewrite merge_runs_nil_l.
  - by rewrite merge_runs_nil_r, app_nil_r.
  - intros E IH. rewrite merge_runs_cons, E, IH. simpl. solve_Permutation.
  - intros E IH. by rewrite merge_runs_cons, E, IH.
Qed.

(** A run and what follows it make up the sequence; the run is in order. *)
Lemma run_spec x xs r rest :
  run less x xs = (r, rest) →
  r ++ rest = x :: xs ∧ Sorted (le_of less) r ∧ (∃ r', r = x :: r') ∧
  runs_after less x xs = S (runs less rest).
Proof.
  revert x r rest. induction xs as [|y ys IH]; simpl; intros x r rest.
  - intros [= <- <-]. repeat split; eauto.
  - destruct (less y x) eqn:E.
    + intros [= <- <-]. repeat split; eauto.
    + destruct (run less y ys) as [r0 rest0] eqn:Er. intros [= <- <-].
      destruct (IH _ _ _ Er) as (Happ & Hs & [r' ->] & Hn).
      simpl in *. split_and!; [congruence| |eauto|done].
      constructor; [done|]. by constructor.
Qed.

Lemma run_length x xs r rest : run less x xs = (r, rest) → length rest ≤ length xs.
Proof.
  intros (Happ & _ & [r' ->] & _)%run_spec. simplify_eq/=. rewrite length_app. lia.
Qed.

Lemma sort_pass_perm n xs : length xs ≤ n → (sort_pass less n xs).1 ≡ₚ xs.
Proof.
  revert xs. induction n as [|n IH]; intros [|x xs] Hn; simpl in *; [done|lia|done|].
  destruct (run less x xs) as [r1 [|y rest]] eqn:E1.
  - destruct (run_spec _ _ _ _ E1) as (<- & _). by rewrite app_nil_r.
  - destruct (run less y rest) as [r2 rest2] eqn:E2.
    pose proof (run_length _ _ _ _ E1). pose proof (run_length _ _ _ _ E2). simpl in *.
    destruct (run_spec _ _ _ _ E1) as (<- & _).
    destruct (run_spec _ _ _ _ E2) as (<- & _).
    destruct (sort_pass less n rest2) as [out c] eqn:Ep.
    specialize (IH rest2). rewrite Ep in IH. simpl in *.
    rewrite merge_runs_perm, IH by lia. by rewrite app_assoc.
Qed.

Lemma sort_pass_count n xs out c : sort_pass less n xs = (out, c) → c ≤ length xs.
Proof.
  revert xs out c. induction n as [|n IH]; intros [|x xs] out c; simpl; try (intros; simplify_eq; lia).
  destruct (run less x xs) as [r1 [|y rest]] eqn:E1; [intros; simplify_eq; lia|].
  destruct (run less y rest) as [r2 rest2] eqn:E2.
  pose proof (run_length _ _ _ _ E1). pose proof (run_length _ _ _ _ E2). simpl in *.
  destruct (sort_pass less n rest2) as [o c'] eqn:Ep. intros [= <- <-]. apply IH in Ep. lia.
Qed.

Lemma sort_loop_perm k xs out : sort_loop less k xs = Some out → out ≡ₚ xs.
Proof.
  revert xs. induction k as [|k IH]; intros xs; simpl; [done|].
  pose proof (sort_pass_perm (length xs) xs) as Hp.
  destruct (sort_pass less (length xs) xs) as [o c]. simpl in Hp.
  case_decide; [intros ->%IH; by apply Hp | intros [= <-]; by apply Hp].
Qed.

(** ** Sequences in order, for a strict weak [less] *)
Context `{!StrictWeak less}.

#[export] Instance le_of_trans : Transitive (le_of less).
Proof. intros x y z. unfold le_of. eauto using sw_trans. Qed.

Lemma sw_irrefl x : less x x = false.
Proof. destruct (less x x) eqn:E; [|done]. rewrite <- E. by apply sw_asym. Qed.

Lemma insert_ordered_sorted x xs :
  Sorted (le_of less) xs → Sorted (le_of less) (insert_ordered less x xs).
Proof.
  induction 1 as [|y ys Hs IH Hhd]; simpl; [by repeat constructor|].
  destruct (less x y) eqn:E.
  - constructor; [by constructor|]. constructor. unfold le_of. by apply sw_asym.
  - constructor; [done|]. destruct ys as [|z ys]; simpl in *.
    + by constructor.
    + inversion_clear Hhd. destruct (less x z); by constructor.
Qed.

Lemma sorted_cons_forall x xs :
  Sorted (le_of less) (x :: xs) → Forall (le_of less x) xs.
Proof.
  intros H. apply Sorted_StronglySorted in H; [|apply _]. by inversion H.
Qed.

Lemma merge_runs_sorted xs ys :
  Sorted (le_of less) xs → Sorted (le_of less) ys → Sorted (le_of less) (merge_runs less xs ys).
Proof.
  revert xs ys. apply (merge_ind (λ xs ys, _ → _ → Sorted _ (merge_runs less xs ys))); intros *.
  - by rewrite merge_runs_nil_l.
  - by rewrite merge_runs_nil_r.
  - intros E IH Hx Hy. rewrite merge_runs_cons, E.
    inversion Hy as [|? ? Hys Hhd]; subst. constructor; [auto|].
    destruct ys as [|y' ys]; [rewrite merge_runs_nil_r|rewrite merge_runs_cons; destruct (less y' x)];
      constructor; try (by inversion Hhd); unfold le_of; by apply sw_asym.
  - intros E IH Hx Hy. rewrite merge_runs_cons, E.
    inversion Hx as [|? ? Hxs Hhd]; subst. constructor; [auto|].
    destruct xs as [|x' xs]; [rewrite merge_runs_nil_l|rewrite merge_runs_cons; destruct (less y x')];
      constructor; try (by inversion Hhd); done.
Qed.

(** Merging keeps elements of the same rank in their order. *)
Lemma merge_runs_stable k xs ys :
  Sorted (le_of less) xs →
  filter (same_rank less k) (merge_runs less xs ys) =
  filter (same_rank less k) xs ++ filter (same_rank less k) ys.
Proof.
  revert xs ys. apply (merge_ind (λ xs ys, _ → filter _ (merge_runs less xs ys) = _)); intros *.
  - by rewrite merge_runs_nil_l.
  - by rewrite merge_runs_nil_r, filter_nil, app_nil_r.
  - intros E IH Hs. rewrite merge_runs_cons, E, filter_cons, IH by done.
    rewrite (filter_cons _ y). case_decide as Hk; [|done].
    assert (filter (same_rank less k) (x :: xs) = []) as ->; [|done].
    apply filter_none. constructor.
    + intros [H1 H2]. destruct Hk as [H3 H4].
      rewrite (sw_trans x k y) in E; done.
    + pose proof (sorted_cons_forall _ _ Hs) as Hall. rewrite Forall_forall in *.
      intros z Hz [H1 H2]. destruct Hk as [H3 H4]. specialize (Hall _ Hz).
      rewrite (sw_trans x z y) in E; [done|done|]. by apply (sw_trans z k y).
  - intros E IH Hs. rewrite merge_runs_cons, E, !filter_cons, IH by (by inversion Hs).
    rewrite filter_cons. by case_decide.
Qed.

Lemma runs_after_sorted x xs : Sorted (le_of less) (x :: xs) → runs_after less x xs = 1.
Proof.
  revert x. induction xs as [|y ys IH]; intros x H; [done|]. simpl.
  inversion H as [|? ? Hs Hhd]; subst. inversion Hhd as [|? ? Hle]; subst.
  unfold le_of in Hle. rewrite Hle, IH by done. done.
Qed.

Lemma runs_after_app x xs y ys :
  runs_after less x (xs ++ y :: ys) ≤ runs_after less x xs + runs_after less y ys.
Proof.
  revert x. induction xs as [|z zs IH]; intros x; simpl.
  - destruct (less y x); lia.
  - specialize (IH z). lia.
Qed.

Lemma runs_app_sorted xs ys : Sorted (le_of less) xs → runs less (xs ++ ys) ≤ S (runs less ys).
Proof.
  destruct xs as [|x xs]; simpl; [lia|]. intros Hs. destruct ys as [|y ys]; simpl.
  - rewrite app_nil_r, runs_after_sorted by done. lia.
  - pose proof (runs_after_app x xs y ys). rewrite (runs_after_sorted x xs Hs) in *. lia.
Qed.

Lemma runs_le_1_sorted xs : runs less xs ≤ 1 → Sorted (le_of less) xs.
Proof.
  destruct xs as [|x xs]; [constructor|]. simpl. revert x.
  induction xs as [|y ys IH]; intros x; simpl; [by repeat constructor|].
  intros H. assert (1 ≤ runs_after less y ys) by (destruct ys; simpl; [lia|clear; revert y a; induction ys; simpl; intros; [lia|]; specialize (IHys a0 a); lia]).
  destruct (less y x) eqn:E; [lia|]. constructor; [apply IH; lia|by constructor].
Qed.

(** A pass halves the number of runs and leaves at most as many runs as it counted. *)
Lemma sort_pass_runs n xs out c :
  length xs ≤ n → sort_pass less n xs = (out, c) →
  runs less out ≤ c ∧ runs less xs ≤ 2 * c ∧ 2 * c ≤ S (runs less xs).
Proof.
  revert xs out c. induction n as [|n IH]; intros [|x xs] out c Hn; simpl in *;
    [intros [= <- <-]; simpl; lia|lia|intros [= <- <-]; simpl; lia|].
  destruct (run less x xs) as [r1 [|y rest]] eqn:E1.
  - intros [= <- <-]. destruct (run_spec _ _ _ _ E1) as (_ & Hs & [r' ->] & ->).
    simpl. rewrite runs_after_sorted by done. lia.
  - destruct (run less y rest) as [r2 rest2] eqn:E2.
    destruct (sort_pass less n rest2) as [out2 c2] eqn:Ep. intros [= <- <-].
    pose proof (run_length _ _ _ _ E1). pose proof (run_length _ _ _ _ E2). simpl in *.
    destruct (run_spec _ _ _ _ E1) as (_ & Hs1 & _ & ->).
    destruct (run_spec _ _ _ _ E2) as (_ & Hs2 & _ & Hr2).
    destruct (IH rest2 _ _ ltac:(lia) Ep) as (? & ? & ?). simpl. rewrite Hr2.
    pose proof (runs_app_sorted (merge_runs less r1 r2) out2 (merge_runs_sorted _ _ Hs1 Hs2)). lia.
Qed.

Lemma sort_pass_stable k n xs :
  length xs ≤ n → filter (same_rank less k) (sort_pass less n xs).1 = filter (same_rank less k) xs.
Proof.
  revert xs. induction n as [|n IH]; intros [|x xs] Hn; simpl in *; [done|lia|done|].
  destruct (run less x xs) as [r1 [|y rest]] eqn:E1.
  - destruct (run_spec _ _ _ _ E1) as (<- & _). by rewrite app_nil_r.
  - destruct (run less y rest) as [r2 rest2] eqn:E2.
    pose proof (run_length _ _ _ _ E1). pose proof (run_length _ _ _ _ E2). simpl in *.
    destruct (run_spec _ _ _ _ E1) as (<- & Hs & _).
    destruct (run_spec _ _ _ _ E2) as (<- & _).
    destruct (sort_pass less n rest2) as [out c] eqn:Ep.
    specialize (IH rest2). rewrite Ep in IH. simpl in *.
    rewrite !filter_app, merge_runs_stable, IH by (done || lia). by rewrite app_assoc.
Qed.

(** list_sort on sequences: it ends, in order, with equal elements in their order. *)
Lemma sort_loop_spec k xs :
  runs less xs < k →
  ∃ out, sort_loop less k xs = Some out ∧ Sorted (le_of less) out ∧ out ≡ₚ xs ∧
    ∀ x, filter (same_rank less x) out = filter (same_rank less x) xs.
Proof.
  revert xs. induction k as [|k IH]; intros xs Hk; [lia|]. simpl.
  pose proof (sort_pass_perm (length xs) xs) as Hp.
  pose proof (λ x, sort_pass_stable x (length xs) xs) as Hst.
  destruct (sort_pass less (length xs) xs) as [o c] eqn:E. simpl in *.
  destruct (sort_pass_runs _ _ _ _ (le_n _) E) as (? & ? & ?). case_decide.
  - destruct (IH o) as (out & -> & ? & Hperm & Hs); [lia|]. exists out. split_and!; [done..| |].
    + rewrite Hperm. by apply Hp.
    + intros x. rewrite Hs. by apply Hst.
  - exists o. split_and!; [done| |by apply Hp|intros; by apply Hst]. apply runs_le_1_sorted. lia.
Qed.

(** list_max: no element is above the result, and those before it are below. *)
Lemma max_after_spec m xs :
  let r := max_after less m xs in
  r ∈ m :: xs ∧ Forall (λ y, less r y = false) (m :: xs) ∧
  (r = m ∨ ∃ us vs, xs = us ++ r :: vs ∧ Forall (λ y, less y r = true) (m :: us)).
Proof.
  revert m. induction xs as [|y ys IH]; intros m; simpl.
  - split_and!; [left|repeat constructor; apply sw_irrefl|by left].
  - destruct (less m y) eqn:E; simpl.
    + destruct (IH y) as (Hin & Hall & Hfirst). set (r := max_after less y ys) in *.
      apply Forall_cons in Hall as [Hy Hall].
      assert (less m r = true) as Hmr.
      { destruct (less m r) eqn:F; [done|]. rewrite (sw_trans y r m) in E; done. }
      split_and!; [by right|constructor; [by apply sw_asym|by constructor]|]. right.
      destruct Hfirst as [Hr|(us & vs & Hys & Hus)].
      * exists [], ys. simpl. split; [by rewrite Hr|by repeat constructor].
      * exists (y :: us), vs. simpl. split; [by rewrite <- Hys|by constructor].
    + destruct (IH m) as (Hin & Hall & Hfirst). set (r := max_after less m ys) in *.
      apply Forall_cons in Hall as [Hm Hall].
      split_and!; [set_solver|constructor; [done|constructor; [|done]]|].
      * by apply (sw_trans y m r).
      * destruct Hfirst as [Hr|(us & vs & Hys & Hus)]; [by left|]. right.
        exists (y :: us), vs. simpl. split; [by rewrite <- Hys|]. apply Forall_cons in Hus as [Hmr Hus].
        constructor; [done|constructor; [|done]].
        destruct (less y r) eqn:F; [done|]. exfalso.
        assert (less m r = false) by (apply (sw_trans r y m); done). congruence.
Qed.

Lemma runs_le_length xs : runs less xs ≤ length xs.
Proof.
  destruct xs as [|x xs]; [done|]. simpl. revert x.
  induction xs as [|y ys IH]; intros x; simpl; [lia|]. specialize (IH y). destruct (less y x); lia.
Qed.
End facts.
