(* ===== verification/KList.v ===== *)
(** * lib/kernel/list.c: doubly linked lists in memory

    The store is the memory that holds [struct list_elem]s, by address.  A
    [struct list] at address [l] has its [head] at [l] and its [tail] at
    [l + 8] (two 4-byte pointers each).  Every routine reads and writes the
    links one by one in the order of the source.  [dlist h l xs] says that the
    store [h] holds a well-formed list at [l] with the elements [xs]; each
    routine is proved to compute the corresponding operation on sequences of
    ListSpec.v and to leave every other address as it was. *)

From S2P Require Import Prelude ListSpec.

Local Open Scope Z_scope.

(** ** Data *)

Record list_elem := ListElem { prev : Z; next : Z }.

Abbreviation heap := (gmap Z list_elem).

(** [&list->head] and [&list->tail]. *)
Definition head_of (l : Z) : Z := l.
Definition tail_of (l : Z) : Z := l + 8.

(** Loads and stores of the two fields; NULL and unmapped addresses fault. *)
Definition load (p : Z) : ST heap list_elem := λ h,
  if decide (p = NULL) then Err EFault else
  match h !! p with Some e => Ok (e, h) | None => Err EFault end.

Definition with_prev (v : Z) (e : list_elem) : list_elem := ListElem v (next e).
Definition with_next (v : Z) (e : list_elem) : list_elem := ListElem (prev e) v.

Definition get_prev (p : Z) : ST heap Z := e ← load p; mret (prev e).
Definition get_next (p : Z) : ST heap Z := e ← load p; mret (next e).
Definition set_prev (p v : Z) : ST heap () := _ ← load p; st_modify (alter (with_prev v) p).
Definition set_next (p v : Z) : ST heap () := _ ← load p; st_modify (alter (with_next v) p).

(** ** Element tests *)

Definition is_head (elem : Z) : ST heap bool :=
  if decide (elem = NULL) then mret false else
  p ← get_prev elem; n ← get_next elem;
  mret (bool_decide (p = NULL) && bool_decide (n ≠ NULL)).

Definition is_interior (elem : Z) : ST heap bool :=
  if decide (elem = NULL) then mret false else
  p ← get_prev elem; n ← get_next elem;
  mret (bool_decide (p ≠ NULL) && bool_decide (n ≠ NULL)).

Definition is_tail (elem : Z) : ST heap bool :=
  if decide (elem = NULL) then mret false else
  p ← get_prev elem; n ← get_next elem;
  mret (bool_decide (p ≠ NULL) && bool_decide (n = NULL)).

Definition st_or {S} (a b : ST S bool) : ST S bool :=
  x ← a; if (x : bool) then mret true else b.

(** ** Creation and traversal *)

Definition list_init (list : Z) : ST heap () :=
  ASSERT (bool_decide (list ≠ NULL));;
  set_prev (head_of list) NULL;;
  set_next (head_of list) (tail_of list);;
  set_prev (tail_of list) (head_of list);;
  set_next (tail_of list) NULL.

Definition list_begin (list : Z) : ST heap Z :=
  ASSERT (bool_decide (list ≠ NULL));; get_next (head_of list).

Definition list_next (elem : Z) : ST heap Z :=
  b ← st_or (is_head elem) (is_interior elem); ASSERT b;; get_next elem.

Definition list_end (list : Z) : ST heap Z :=
  ASSERT (bool_decide (list ≠ NULL));; mret (tail_of list).

Definition list_rbegin (list : Z) : ST heap Z :=
  ASSERT (bool_decide (list ≠ NULL));; get_prev (tail_of list).

Definition list_prev (elem : Z) : ST heap Z :=
  b ← st_or (is_interior elem) (is_tail elem); ASSERT b;; get_prev elem.

Definition list_rend (list : Z) : ST heap Z :=
  ASSERT (bool_decide (list ≠ NULL));; mret (head_of list).

Definition list_head (list : Z) : ST heap Z :=
  ASSERT (bool_decide (list ≠ NULL));; mret (head_of list).

Definition list_tail (list : Z) : ST heap Z :=
  ASSERT (bool_decide (list ≠ NULL));; mret (tail_of list).

(** ** Insertion and removal *)

Definition list_insert (before elem : Z) : ST heap () :=
  b ← st_or (is_interior before) (is_tail before); ASSERT b;;
  ASSERT (bool_decide (elem ≠ NULL));;
  bp ← get_prev before; set_prev elem bp;;
  set_next elem before;;
  bp ← get_prev before; set_next bp elem;;
  set_prev before elem.

Definition list_splice (before first last : Z) : ST heap () :=
  b ← st_or (is_interior before) (is_tail before); ASSERT b;;
  if decide (first = last) then mret () else
  last ← list_prev last;
  b ← is_interior first; ASSERT b;;
  b ← is_interior last; ASSERT b;;
  (* Cleanly remove FIRST...LAST from its current list. *)
  fp ← get_prev first; ln ← get_next last; set_next fp ln;;
  ln ← get_next last; fp ← get_prev first; set_prev ln fp;;
  (* Splice FIRST...LAST into new list. *)
  bp ← get_prev before; set_prev first bp;;
  set_next last before;;
  bp ← get_prev before; set_next bp first;;
  set_prev before last.

Definition list_push_front (list elem : Z) : ST heap () :=
  b ← list_begin list; list_insert b elem.

Definition list_push_back (list elem : Z) : ST heap () :=
  b ← list_end list; list_insert b elem.

Definition list_remove (elem : Z) : ST heap Z :=
  b ← is_interior elem; ASSERT b;;
  p ← get_prev elem; n ← get_next elem; set_next p n;;
  n ← get_next elem; p ← get_prev elem; set_prev n p;;
  get_next elem.

Definition list_empty (list : Z) : ST heap bool :=
  b ← list_begin list; e ← list_end list; mret (bool_decide (b = e)).

Definition list_front (list : Z) : ST heap Z :=
  b ← list_empty list; ASSERT (negb b);; get_next (head_of list).

Definition list_back (list : Z) : ST heap Z :=
  b ← list_empty list; ASSERT (negb b);; get_prev (tail_of list).

Definition list_pop_front (list : Z) : ST heap Z :=
  front ← list_front list; list_remove front;; mret front.

Definition list_pop_back (list : Z) : ST heap Z :=
  back ← list_back list; list_remove back;; mret back.

(** ** Loops.  [fuel] bounds the iterations; the callers start with the number
    of cells of the store, which no list exceeds. *)

Definition cells : ST heap nat := st_gets (λ h, S (size h)).

(** [for (e = list_begin (list); e != list_end (list); e = list_next (e)) cnt++;] *)
Fixpoint list_size_loop (fuel : nat) (list e cnt : Z) : ST heap Z :=
  match fuel with
  | O => st_fail EFuel
  | S fuel =>
      en ← list_end list;
      if decide (e = en) then mret cnt else
      n ← list_next e; list_size_loop fuel list n (u32 (cnt + 1))
  end.

Definition list_size (list : Z) : ST heap Z :=
  b ← list_begin list; n ← cells; list_size_loop n list b 0.

(** [swap] takes the addresses of two link fields. *)
Inductive link := PrevOf (p : Z) | NextOf (p : Z).
Definition get_link (a : link) : ST heap Z :=
  match a with PrevOf p => get_prev p | NextOf p => get_next p end.
Definition set_link (a : link) (v : Z) : ST heap () :=
  match a with PrevOf p => set_prev p v | NextOf p => set_next p v end.

Definition swap (a b : link) : ST heap () :=
  t ← get_link a; v ← get_link b; set_link a v;; set_link b t.

Fixpoint list_reverse_loop (fuel : nat) (list e : Z) : ST heap () :=
  match fuel with
  | O => st_fail EFuel
  | S fuel =>
      en ← list_end list;
      if decide (e = en) then mret () else
      swap (PrevOf e) (NextOf e);; n ← get_prev e; list_reverse_loop fuel list n
  end.

Definition list_reverse (list : Z) : ST heap () :=
  b ← list_empty list;
  if (b : bool) then mret () else
  e ← list_begin list; n ← cells; list_reverse_loop n list e;;
  swap (NextOf (head_of list)) (PrevOf (tail_of list));;
  hn ← get_next (head_of list); tp ← get_prev (tail_of list);
  swap (PrevOf hn) (NextOf tp).

(** ** Operations on lists with ordered elements *)
Section ordered.
Context (less : Z → Z → bool).

Fixpoint is_sorted_loop (fuel : nat) (a b : Z) : ST heap bool :=
  match fuel with
  | O => st_fail EFuel
  | S fuel =>
      a ← list_next a;
      if decide (a = b) then mret true else
      p ← list_prev a;
      if less a p then mret false else is_sorted_loop fuel a b
  end.

Definition is_sorted (a b : Z) : ST heap bool :=
  if decide (a = b) then mret true else n ← cells; is_sorted_loop n a b.

Fixpoint find_end_of_run_loop (fuel : nat) (a b : Z) : ST heap Z :=
  match fuel with
  | O => st_fail EFuel
  | S fuel =>
      a ← list_next a;
      if decide (a = b) then mret a else
      p ← list_prev a;
      if less a p then mret a else find_end_of_run_loop fuel a b
  end.

Definition find_end_of_run (a b : Z) : ST heap Z :=
  ASSERT (bool_decide (a ≠ NULL));;
  ASSERT (bool_decide (b ≠ NULL));;
  ASSERT (bool_decide (a ≠ b));;
  n ← cells; find_end_of_run_loop n a b.

Fixpoint inplace_merge_loop (fuel : nat) (a0 a1b0 b1 : Z) : ST heap () :=
  match fuel with
  | O => st_fail EFuel
  | S fuel =>
      if decide (a0 = a1b0) then mret () else
      if decide (a1b0 = b1) then mret () else
      if negb (less a1b0 a0) then
        a0 ← list_next a0; inplace_merge_loop fuel a0 a1b0 b1
      else
        a1b0 ← list_next a1b0;
        p ← list_prev a1b0;
        list_splice a0 p a1b0;;
        inplace_merge_loop fuel a0 a1b0 b1
  end.

Definition inplace_merge (a0 a1b0 b1 : Z) : ST heap () :=
  ASSERT (bool_decide (a0 ≠ NULL));;
  ASSERT (bool_decide (a1b0 ≠ NULL));;
  ASSERT (bool_decide (b1 ≠ NULL));;
  s ← is_sorted a0 a1b0; ASSERT s;;
  s ← is_sorted a1b0 b1; ASSERT s;;
  n ← cells; inplace_merge_loop n a0 a1b0 b1.

(** The [for] loop of one pass; the result is [output_run_cnt]. *)
Fixpoint list_sort_pass (fuel : nat) (list a0 cnt : Z) : ST heap Z :=
  match fuel with
  | O => st_fail EFuel
  | S fuel =>
      en ← list_end list;
      if decide (a0 = en) then mret cnt else
      let cnt := u32 (cnt + 1) in
      a1b0 ← find_end_of_run a0 en;
      if decide (a1b0 = en) then mret cnt else
      b1 ← find_end_of_run a1b0 en;
      inplace_merge a0 a1b0 b1;;
      list_sort_pass fuel list b1 cnt
  end.

(** The [do ... while (output_run_cnt > 1)]. *)
Fixpoint list_sort_loop (fuel : nat) (list : Z) : ST heap () :=
  match fuel with
  | O => st_fail EFuel
  | S fuel =>
      a0 ← list_begin list; n ← cells;
      output_run_cnt ← list_sort_pass n list a0 0;
      if decide (output_run_cnt > 1) then list_sort_loop fuel list else mret ()
  end.

Definition list_sort (list : Z) : ST heap () :=
  ASSERT (bool_decide (list ≠ NULL));;
  n ← cells; list_sort_loop n list;;
  b ← list_begin list; e ← list_end list; s ← is_sorted b e; ASSERT s.

(** The search of list_insert_ordered: the element to insert before. *)
Fixpoint insert_pos_loop (fuel : nat) (list elem e : Z) : ST heap Z :=
  match fuel with
  | O => st_fail EFuel
  | S fuel =>
      en ← list_end list;
      if decide (e = en) then mret e else
      if (less elem e : bool) then mret e else
      n ← list_next e; insert_pos_loop fuel list elem n
  end.

Definition list_insert_ordered (list elem : Z) : ST heap () :=
  ASSERT (bool_decide (list ≠ NULL));;
  ASSERT (bool_decide (elem ≠ NULL));;
  b ← list_begin list; n ← cells;
  e ← insert_pos_loop n list elem b;
  list_insert e elem.

Fixpoint list_unique_loop (fuel : nat) (list duplicates elem : Z) : ST heap () :=
  match fuel with
  | O => st_fail EFuel
  | S fuel =>
      nxt ← list_next elem; en ← list_end list;
      if decide (nxt = en) then mret () else
      if negb (less elem nxt) && negb (less nxt elem) then
        list_remove nxt;;
        (if decide (duplicates = NULL) then mret () else list_push_back duplicates nxt);;
        list_unique_loop fuel list duplicates elem
      else list_unique_loop fuel list duplicates nxt
  end.

Definition list_unique (list duplicates : Z) : ST heap () :=
  ASSERT (bool_decide (list ≠ NULL));;
  b ← list_empty list;
  if (b : bool) then mret () else
  elem ← list_begin list; n ← cells; list_unique_loop n list duplicates elem.

Fixpoint list_max_loop (fuel : nat) (list max e : Z) : ST heap Z :=
  match fuel with
  | O => st_fail EFuel
  | S fuel =>
      en ← list_end list;
      if decide (e = en) then mret max else
      let max := if less max e then e else max in
      n ← list_next e; list_max_loop fuel list max n
  end.

Definition list_max (list : Z) : ST heap Z :=
  max ← list_begin list; en ← list_end list;
  if decide (max = en) then mret max else
  e ← list_next max; n ← cells; list_max_loop n list max e.

Fixpoint list_min_loop (fuel : nat) (list min e : Z) : ST heap Z :=
  match fuel with
  | O => st_fail EFuel
  | S fuel =>
      en ← list_end list;
      if decide (e = en) then mret min else
      let min := if less e min then e else min in
      n ← list_next e; list_min_loop fuel list min n
  end.

Definition list_min (list : Z) : ST heap Z :=
  min ← list_begin list; en ← list_end list;
  if decide (min = en) then mret min else
  e ← list_next min; n ← cells; list_min_loop n list min e.
End ordered.

(** ** Well-formed lists in the store *)

Definition hdz (n : Z) (xs : list Z) : Z := match xs with [] => n | x :: _ => x end.
Fixpoint lastz (p : Z) (xs : list Z) : Z := match xs with [] => p | x :: xs' => lastz x xs' end.

(** The cells [xs] are linked in this order, after [p] and before [n]. *)
Fixpoint seg (h : heap) (p : Z) (xs : list Z) (n : Z) : Prop :=
  match xs with
  | [] => True
  | x :: xs' => h !! x = Some (ListElem p (hdz n xs')) ∧ seg h x xs' n
  end.

Definition nodes (l : Z) (xs : list Z) : list Z := head_of l :: xs ++ [tail_of l].

Definition dlist (h : heap) (l : Z) (xs : list Z) : Prop :=
  NoDup (nodes l xs) ∧ NULL ∉ nodes l xs ∧ seg h NULL (nodes l xs) NULL.

(** Two stores hold the same cells and agree outside the cells [ns]. *)
Definition agree_off (ns : list Z) (h h' : heap) : Prop :=
  dom h' = dom h ∧ ∀ p, p ∉ ns → h' !! p = h !! p.

(** ** Loads and stores *)
Section memory.
Implicit Types (h : heap) (p v : Z).

Lemma load_ok h p e : p ≠ NULL → h !! p = Some e → load p h = Ok (e, h).
Proof. intros ? E. unfold load. rewrite decide_False by done. by rewrite E. Qed.

Lemma get_prev_ok h p e : p ≠ NULL → h !! p = Some e → get_prev p h = Ok (prev e, h).
Proof. intros. unfold get_prev. by erewrite st_bind_ok by eauto using load_ok. Qed.

Lemma get_next_ok h p e : p ≠ NULL → h !! p = Some e → get_next p h = Ok (next e, h).
Proof. intros. unfold get_next. by erewrite st_bind_ok by eauto using load_ok. Qed.

Lemma set_prev_ok h p v :
  p ≠ NULL → is_Some (h !! p) → set_prev p v h = Ok ((), alter (with_prev v) p h).
Proof. intros ? [e E]. unfold set_prev. by erewrite st_bind_ok by eauto using load_ok. Qed.

Lemma set_next_ok h p v :
  p ≠ NULL → is_Some (h !! p) → set_next p v h = Ok ((), alter (with_next v) p h).
Proof. intros ? [e E]. unfold set_next. by erewrite st_bind_ok by eauto using load_ok. Qed.

Lemma is_head_ok h x e :
  x ≠ NULL → h !! x = Some e →
  is_head x h = Ok (bool_decide (prev e = NULL) && bool_decide (next e ≠ NULL), h).
Proof.
  intros. unfold is_head. rewrite decide_False by done.
  erewrite st_bind_ok by eauto using get_prev_ok. by erewrite st_bind_ok by eauto using get_next_ok.
Qed.

Lemma is_interior_ok h x e :
  x ≠ NULL → h !! x = Some e →
  is_interior x h = Ok (bool_decide (prev e ≠ NULL) && bool_decide (next e ≠ NULL), h).
Proof.
  intros. unfold is_interior. rewrite decide_False by done.
  erewrite st_bind_ok by eauto using get_prev_ok. by erewrite st_bind_ok by eauto using get_next_ok.
Qed.

Lemma is_tail_ok h x e :
  x ≠ NULL → h !! x = Some e →
  is_tail x h = Ok (bool_decide (prev e ≠ NULL) && bool_decide (next e = NULL), h).
Proof.
  intros. unfold is_tail. rewrite decide_False by done.
  erewrite st_bind_ok by eauto using get_prev_ok. by erewrite st_bind_ok by eauto using get_next_ok.
Qed.

Lemma insertable_ok h x e :
  x ≠ NULL → h !! x = Some e → prev e ≠ NULL →
  st_or (is_interior x) (is_tail x) h = Ok (true, h).
Proof.
  intros. unfold st_or. erewrite st_bind_ok by eauto using is_interior_ok.
  rewrite (bool_decide_true (prev e ≠ NULL)) by done. simpl.
  case_bool_decide; [done|]. erewrite is_tail_ok by eauto.
  rewrite (bool_decide_true (prev e ≠ NULL)) by done. rewrite bool_decide_true; [done|lia].
Qed.

Lemma has_next_ok h x e :
  x ≠ NULL → h !! x = Some e → next e ≠ NULL →
  st_or (is_head x) (is_interior x) h = Ok (true, h).
Proof.
  intros. unfold st_or. erewrite st_bind_ok by eauto using is_head_ok.
  rewrite (bool_decide_true (next e ≠ NULL)), andb_true_r by done.
  case_bool_decide; [done|]. erewrite is_interior_ok by eauto.
  by rewrite !bool_decide_true.
Qed.

Lemma alter_some (f : list_elem → list_elem) h p q : is_Some (h !! q) → is_Some (alter f p h !! q).
Proof.
  intros [e E]. destruct (decide (p = q)) as [->|].
  - rewrite lookup_alter_eq, E. eauto.
  - rewrite lookup_alter_ne by done. eauto.
Qed.

Lemma dom_alter_size (f : list_elem → list_elem) h p : size (alter f p h) = size h.
Proof. by rewrite <- !size_dom, dom_alter_L. Qed.
End memory.

#[export] Hint Resolve alter_some : pintos.

(** ** Segments *)
Section segments.
Implicit Types (h : heap) (p n x v : Z) (xs ys : list Z).

Lemma hdz_app n xs ys : hdz n (xs ++ ys) = hdz (hdz n ys) xs.
Proof. by destruct xs. Qed.

Lemma lastz_app p xs ys : lastz p (xs ++ ys) = lastz (lastz p xs) ys.
Proof. revert p. induction xs; simpl; auto. Qed.

Lemma lastz_snoc p xs x : lastz p (xs ++ [x]) = x.
Proof. by rewrite lastz_app. Qed.

Lemma lastz_cons p xs : ∃ xs', p :: xs = xs' ++ [lastz p xs].
Proof.
  revert p. induction xs as [|x xs IH]; intros p; simpl; [by exists []|].
  destruct (IH x) as [xs' ->]. by exists (p :: xs').
Qed.

Lemma hdz_snoc xs n : ∃ xs', xs ++ [n] = hdz n xs :: xs'.
Proof. destruct xs; simpl; eauto. Qed.

Lemma seg_app h p xs ys n :
  seg h p (xs ++ ys) n ↔ seg h p xs (hdz n ys) ∧ seg h (lastz p xs) ys n.
Proof.
  revert p. induction xs as [|x xs IH]; intros p; simpl; [tauto|].
  rewrite IH, hdz_app. tauto.
Qed.

Lemma seg_alter_ne f h p xs n x : x ∉ xs → seg (alter f x h) p xs n ↔ seg h p xs n.
Proof.
  revert p. induction xs as [|y ys IH]; intros p; simpl; [done|].
  rewrite not_elem_of_cons. intros [? ?]. by rewrite IH, lookup_alter_ne.
Qed.

Lemma seg_prev_head v h p x xs n :
  x ∉ xs → seg h p (x :: xs) n → seg (alter (with_prev v) x h) v (x :: xs) n.
Proof.
  simpl. intros Hx [E Hs]. by rewrite lookup_alter_eq, E, seg_alter_ne.
Qed.

Lemma seg_next_last v h p xs x n :
  x ∉ xs → seg h p (xs ++ [x]) n → seg (alter (with_next v) x h) p (xs ++ [x]) v.
Proof.
  rewrite !seg_app. simpl. intros Hx [Hs [E _]]. by rewrite lookup_alter_eq, E, seg_alter_ne.
Qed.

Lemma seg_agree h h' p xs n :
  (∀ q, q ∈ xs → h' !! q = h !! q) → seg h p xs n → seg h' p xs n.
Proof.
  revert p. induction xs as [|x xs IH]; intros p Hag; simpl; [done|].
  intros [E Hs]. split; [rewrite Hag; [done|left]|]. apply IH; [|done].
  intros q Hq. apply Hag. by right.
Qed.

Lemma seg_dom h p xs n : seg h p xs n → ∀ x, x ∈ xs → is_Some (h !! x).
Proof.
  revert p. induction xs as [|y ys IH]; intros p; simpl; [by intros _ x ?%elem_of_nil|].
  intros [E Hs] x [->|Hx]%elem_of_cons; eauto.
Qed.

(** The stores that unlink what is between [a] and [b], and that link [f .. l]
    between [a] and [b]. *)
Definition unlink (a b : Z) (h : heap) : heap := alter (with_prev a) b (alter (with_next b) a h).
Definition link_in (a f l b : Z) (h : heap) : heap :=
  alter (with_prev l) b (alter (with_next f) a (alter (with_next b) l (alter (with_prev a) f h))).

Lemma unlink_lookup a b h q : q ≠ a → q ≠ b → unlink a b h !! q = h !! q.
Proof. intros. unfold unlink. by rewrite !lookup_alter_ne by done. Qed.

Lemma unlink_some a b h q : is_Some (unlink a b h !! q) ↔ is_Some (h !! q).
Proof. unfold unlink. by rewrite <- !elem_of_dom, !dom_alter_L. Qed.

Lemma link_in_lookup a f l b h q :
  q ≠ a → q ≠ b → q ≠ f → q ≠ l → link_in a f l b h !! q = h !! q.
Proof. intros. unfold link_in. by rewrite !lookup_alter_ne by done. Qed.

Lemma seg_unlink h A a F b B :
  NoDup ((A ++ [a]) ++ F ++ b :: B) →
  seg h NULL ((A ++ [a]) ++ F ++ b :: B) NULL →
  seg (unlink a b h) NULL ((A ++ [a]) ++ b :: B) NULL ∧ seg (unlink a b h) a F b.
Proof.
  intros Hnd. rewrite !NoDup_app, (NoDup_cons b) in Hnd.
  destruct Hnd as ((_ & HAa & _) & HAFB & _ & HFB & HbB & _).
  assert (a ∉ A) by (intros Ha; specialize (HAa a Ha); set_solver).
  assert (a ∉ F ++ b :: B) by (apply HAFB; set_solver).
  assert (b ∉ A ++ [a]) by (intros Hb; apply (HAFB b); set_solver).
  assert (b ∉ F) by (intros Hb; apply (HFB b); set_solver).
  rewrite !(seg_app _ _ (A ++ [a])), lastz_snoc, (seg_app _ _ F). intros (HsA & HsF & HsB).
  unfold unlink. split_and!.
  - rewrite seg_alter_ne by done. by eapply seg_next_last.
  - eapply seg_prev_head; [done|]. apply seg_alter_ne; [set_solver|]. done.
  - by rewrite !seg_alter_ne by set_solver.
Qed.

Lemma seg_link_in h A a F f l b B p n F1 F2 :
  F = f :: F1 → F = F2 ++ [l] →
  NoDup ((A ++ [a]) ++ F ++ b :: B) →
  seg h NULL ((A ++ [a]) ++ b :: B) NULL → seg h p F n →
  seg (link_in a f l b h) NULL ((A ++ [a]) ++ F ++ b :: B) NULL.
Proof.
  intros HF1 HF2 Hnd. rewrite !NoDup_app, (NoDup_cons b) in Hnd.
  destruct Hnd as ((_ & HAa & _) & HAFB & HndF & HFB & HbB & _).
  assert (f ∈ F) by (rewrite HF1; set_solver). assert (l ∈ F) by (rewrite HF2, elem_of_app; right; left).
  assert (f ∉ F1) by (rewrite HF1, NoDup_cons in HndF; tauto).
  assert (l ∉ F2) by (rewrite HF2, NoDup_app in HndF; set_solver).
  assert (a ∉ A) by (intros Ha; specialize (HAa a Ha); set_solver).
  assert (a ∉ F ++ b :: B) as [HaF HaB]%not_elem_of_app by (apply HAFB; set_solver).
  assert (b ∉ A ++ [a]) by (intros Hb; apply (HAFB b); set_solver).
  assert (b ∉ F) by (intros Hb; apply (HFB b); set_solver).
  assert (f ∉ A ++ [a]) by (intros Hb; apply (HAFB f); set_solver).
  assert (l ∉ A ++ [a]) by (intros Hb; apply (HAFB l); set_solver).
  assert (f ∉ b :: B) by (apply HFB; set_solver).
  assert (l ∉ b :: B) by (apply HFB; set_solver).
  rewrite !(seg_app _ _ (A ++ [a])), lastz_snoc, (seg_app _ _ F).
  intros [HsA HsB] HsF. unfold link_in. split_and!.
  - rewrite seg_alter_ne by done. replace (hdz NULL (F ++ b :: B)) with f by (by rewrite HF1).
    eapply seg_next_last; [done|]. by rewrite !seg_alter_ne by done.
  - rewrite 2!seg_alter_ne by done. rewrite HF2. eapply seg_next_last; [done|].
    rewrite <- HF2, HF1. eapply seg_prev_head; [done|]. rewrite <- HF1. done.
  - rewrite HF2, lastz_snoc. eapply seg_prev_head; [done|]. by rewrite !seg_alter_ne by done.
Qed.
End segments.

(** ** Lookups in a well-formed list *)
Section lookups.
Implicit Types (h : heap) (l x y : Z) (xs ys : list Z).

(** A list cut in two: the nodes on each side of the cut. *)
Lemma nodes_cut l xs ys :
  ∃ A B, nodes l (xs ++ ys) = (A ++ [lastz l xs]) ++ hdz (tail_of l) ys :: B ∧
    l :: xs = A ++ [lastz l xs] ∧ ys ++ [tail_of l] = hdz (tail_of l) ys :: B.
Proof.
  destruct (lastz_cons l xs) as [A HA]. destruct (hdz_snoc ys (tail_of l)) as [B HB].
  exists A, B. split_and!; [|done..]. rewrite <- HA, <- HB. unfold nodes, head_of.
  by rewrite <- app_assoc.
Qed.

Lemma dlist_not_null h l xs : dlist h l xs → l ≠ NULL.
Proof. intros (_ & Hn & _) ->. apply Hn. left. Qed.

Lemma dlist_head h l xs : dlist h l xs → h !! head_of l = Some (ListElem NULL (hdz (tail_of l) xs)).
Proof. intros (_ & _ & Hs). simpl in Hs. rewrite hdz_app in Hs. naive_solver. Qed.

Lemma dlist_tail h l xs : dlist h l xs → h !! tail_of l = Some (ListElem (lastz l xs) NULL).
Proof.
  intros (_ & _ & Hs). unfold nodes in Hs. rewrite app_comm_cons in Hs.
  apply seg_app in Hs as [_ [Hs _]]. done.
Qed.

Lemma dlist_interior h l xs y ys :
  dlist h l (xs ++ y :: ys) →
  h !! y = Some (ListElem (lastz l xs) (hdz (tail_of l) ys)) ∧ y ≠ NULL.
Proof.
  intros (_ & Hn & Hs). unfold nodes in *. rewrite <- app_assoc, app_comm_cons in Hs.
  apply seg_app in Hs as [_ [Hs _]]. split.
  - rewrite Hs. by rewrite hdz_app.
  - intros ->. apply Hn. set_solver.
Qed.

Lemma dlist_last_not_null h l xs ys : dlist h l (xs ++ ys) → lastz l xs ≠ NULL.
Proof.
  intros (_ & Hn & _) E. destruct (nodes_cut l xs ys) as (A & B & Hc & _). rewrite Hc, E in Hn. set_solver.
Qed.

Lemma dlist_hd_not_null h l xs ys : dlist h l (xs ++ ys) → hdz (tail_of l) ys ≠ NULL.
Proof.
  intros (_ & Hn & _) E. destruct (nodes_cut l xs ys) as (A & B & Hc & _). rewrite Hc, E in Hn. set_solver.
Qed.

(** The element after the cut points back to the one before it. *)
Lemma dlist_hd h l xs ys :
  dlist h l (xs ++ ys) → ∃ n, h !! hdz (tail_of l) ys = Some (ListElem (lastz l xs) n).
Proof.
  intros H. destruct ys as [|y ys]; simpl.
  - rewrite app_nil_r in H. rewrite (dlist_tail _ _ _ H). eauto.
  - rewrite (proj1 (dlist_interior _ _ _ _ _ H)). eauto.
Qed.

Lemma dlist_last h l xs ys :
  dlist h l (xs ++ ys) → ∃ p, h !! lastz l xs = Some (ListElem p (hdz (tail_of l) ys)).
Proof.
  intros (_ & _ & Hs). unfold nodes in Hs. rewrite <- app_assoc in Hs.
  destruct (lastz_cons l xs) as [A HA]. rewrite app_comm_cons in Hs.
  unfold head_of in Hs. rewrite HA in Hs. apply seg_app in Hs as [Hs _]. apply seg_app in Hs as [_ [Hs _]].
  rewrite Hs, hdz_app. eauto.
Qed.

Lemma dlist_tail_not_in h l xs : dlist h l xs → tail_of l ∉ xs.
Proof.
  intros (Hnd & _ & _). unfold nodes in Hnd. rewrite NoDup_cons, NoDup_app in Hnd. set_solver.
Qed.

Lemma dlist_hd_ne h l xs y ys : dlist h l (xs ++ y :: ys) → y ≠ tail_of l.
Proof. intros H%dlist_tail_not_in ->. set_solver. Qed.

(** A list keeps its contents when other addresses change. *)
Lemma dlist_frame ns h h' l xs :
  agree_off ns h h' → (∀ x, x ∈ nodes l xs → x ∉ ns) → dlist h l xs → dlist h' l xs.
Proof.
  intros Ha Hdis (? & ? & Hs). split_and!; [done..|]. eapply seg_agree; [|done].
  intros q Hq. apply Ha. auto.
Qed.

(** No list is longer than the store: the loops have fuel enough. *)
Lemma dlist_size h l xs : dlist h l xs → (length xs + 2 ≤ size h)%nat.
Proof.
  intros (Hnd & _ & Hs).
  assert (length (nodes l xs) ≤ size h)%nat as Hl; [|unfold nodes in Hl; simpl in Hl; rewrite length_app in Hl; simpl in Hl; lia].
  rewrite <- size_dom, <- (size_list_to_set (C:=gset Z)) by done.
  apply subseteq_size. intros x Hx%elem_of_list_to_set. apply elem_of_dom. by eapply seg_dom.
Qed.
End lookups.

(** ** Relinking a well-formed list *)
Section relink.
Implicit Types (h : heap) (l x y : Z) (xs ys us vs F ns : list Z).

Lemma agree_off_refl ns h : agree_off ns h h.
Proof. done. Qed.

Lemma agree_off_trans ns h1 h2 h3 : agree_off ns h1 h2 → agree_off ns h2 h3 → agree_off ns h1 h3.
Proof. intros [? H1] [? H2]. split; [congruence|]. intros p Hp. by rewrite H2, H1. Qed.

Lemma agree_off_mono ns ns' h h' : ns ⊆ ns' → agree_off ns h h' → agree_off ns' h h'.
Proof. intros ? [? Ha]. split; [done|]. intros p Hp. apply Ha. set_solver. Qed.

Lemma agree_off_alter ns f x h h' :
  x ∈ ns → agree_off ns h h' → agree_off ns h (alter f x h').
Proof.
  intros Hx [Hd Ha]. split; [by rewrite dom_alter_L|]. intros p Hp.
  rewrite lookup_alter_ne by set_solver. auto.
Qed.

Lemma agree_off_size ns h h' : agree_off ns h h' → size h' = size h.
Proof. intros [Hd _]. by rewrite <- !size_dom, Hd. Qed.

Lemma agree_off_some ns h h' x : agree_off ns h h' → is_Some (h !! x) → is_Some (h' !! x).
Proof. intros [Hd _]. by rewrite <- !elem_of_dom, Hd. Qed.

Lemma unlink_agree a b h ns : a ∈ ns → b ∈ ns → agree_off ns h (unlink a b h).
Proof. intros. unfold unlink. auto using agree_off_alter, agree_off_refl. Qed.

Lemma link_in_agree a f l b h ns :
  a ∈ ns → b ∈ ns → f ∈ ns → l ∈ ns → agree_off ns h (link_in a f l b h).
Proof. intros. unfold link_in. auto 10 using agree_off_alter, agree_off_refl. Qed.

Lemma nodes_app l xs ys : nodes l (xs ++ ys) = (l :: xs) ++ ys ++ [tail_of l].
Proof. unfold nodes, head_of. simpl. by rewrite <- app_assoc. Qed.

Lemma lastz_in_nodes l xs ys : lastz l xs ∈ nodes l (xs ++ ys).
Proof. destruct (nodes_cut l xs ys) as (A & B & -> & _). set_solver. Qed.

Lemma hdz_in_nodes l xs ys : hdz (tail_of l) ys ∈ nodes l (xs ++ ys).
Proof. destruct (nodes_cut l xs ys) as (A & B & -> & _). set_solver. Qed.

Lemma dlist_unlink h l xs F ys :
  dlist h l (xs ++ F ++ ys) →
  let h' := unlink (lastz l xs) (hdz (tail_of l) ys) h in
  dlist h' l (xs ++ ys) ∧ seg h' (lastz l xs) F (hdz (tail_of l) ys).
Proof.
  intros (Hnd & Hn & Hs). simpl. destruct (nodes_cut l xs ys) as (A & B & Hc & HA & HB).
  rewrite nodes_app, <- app_assoc, HA, HB in Hnd, Hn, Hs.
  destruct (seg_unlink _ _ _ _ _ _ Hnd Hs) as [Hs' HF]. split; [|done].
  unfold dlist. rewrite Hc. rewrite elem_of_mid in Hn. apply nodup_mid in Hnd as (_ & _ & Hnd).
  split_and!; [done|tauto|done].
Qed.

Lemma dlist_link_in h l us vs F F1 F2 f m p n :
  dlist h l (us ++ vs) → F = f :: F1 → F = F2 ++ [m] → seg h p F n →
  NoDup F → NULL ∉ F → (∀ x, x ∈ F → x ∉ nodes l (us ++ vs)) →
  dlist (link_in (lastz l us) f m (hdz (tail_of l) vs) h) l (us ++ F ++ vs).
Proof.
  intros (Hnd & Hn & Hs) HF1 HF2 HsF HndF HnF Hdis.
  destruct (nodes_cut l us vs) as (A & B & Hc & HA & HB).
  rewrite Hc in Hnd, Hn, Hs, Hdis. unfold dlist. rewrite nodes_app, <- app_assoc, HA, HB.
  assert (NoDup ((A ++ [lastz l us]) ++ F ++ hdz (tail_of l) vs :: B)).
  { by apply nodup_mid. }
  split_and!; [done|rewrite elem_of_mid; tauto|]. by eapply seg_link_in.
Qed.

(** Every node but the head has a predecessor. *)
Lemma dlist_pred h l xs x :
  dlist h l xs → x ∈ xs ++ [tail_of l] → ∃ e, h !! x = Some e ∧ prev e ≠ NULL ∧ x ≠ NULL.
Proof.
  intros H. rewrite elem_of_app, list_elem_of_singleton. intros [Hx| ->].
  - apply list_elem_of_split in Hx as (us & vs & ->).
    destruct (dlist_interior _ _ _ _ _ H) as [E ?]. rewrite E. eexists. split_and!; [done| |done].
    simpl. eapply dlist_last_not_null. exact H.
  - rewrite (dlist_tail _ _ _ H). eexists. split_and!; [done| |].
    + simpl. apply (dlist_last_not_null h l xs []). by rewrite app_nil_r.
    + apply (dlist_hd_not_null h l xs []). by rewrite app_nil_r.
Qed.
End relink.

(** [run_st] executes the next action of a computation by a lemma. *)
Ltac run_st tac := erewrite st_bind_ok; [|solve [tac]]; cbv beta.

(** ** Traversal *)
Section traversal.
Implicit Types (h : heap) (l x y : Z) (xs ys : list Z).

Lemma list_begin_ok h l xs : dlist h l xs → list_begin l h = Ok (hdz (tail_of l) xs, h).
Proof.
  intros H. unfold list_begin. pose proof (dlist_not_null _ _ _ H).
  run_st ltac:(apply assert_ok; by apply bool_decide_true).
  by erewrite get_next_ok by eauto using dlist_head.
Qed.

Lemma list_end_ok h l : l ≠ NULL → list_end l h = Ok (tail_of l, h).
Proof.
  intros H. unfold list_end. by run_st ltac:(apply assert_ok; by apply bool_decide_true).
Qed.

(** [list_next] steps over a cut. *)
Lemma list_next_cut h l xs ys :
  dlist h l (xs ++ ys) → list_next (lastz l xs) h = Ok (hdz (tail_of l) ys, h).
Proof.
  intros H. pose proof (dlist_last_not_null _ _ _ _ H) as Hn. destruct (dlist_last _ _ _ _ H) as [p E].
  unfold list_next. run_st ltac:(eapply has_next_ok; [done|exact E|]; simpl; eapply dlist_hd_not_null; eauto).
  run_st ltac:(by apply assert_ok). by rewrite (get_next_ok _ _ _ Hn E).
Qed.

Lemma list_next_ok h l xs y ys :
  dlist h l (xs ++ y :: ys) → list_next y h = Ok (hdz (tail_of l) ys, h).
Proof.
  intros H. pose proof (list_next_cut h l (xs ++ [y]) ys) as Hc. rewrite lastz_snoc in Hc.
  apply Hc. by rewrite <- app_assoc.
Qed.

Lemma list_prev_cut h l xs ys :
  dlist h l (xs ++ ys) → list_prev (hdz (tail_of l) ys) h = Ok (lastz l xs, h).
Proof.
  intros H. pose proof (dlist_hd_not_null _ _ _ _ H) as Hn. destruct (dlist_hd _ _ _ _ H) as [n E].
  unfold list_prev. run_st ltac:(eapply insertable_ok; [done|exact E|]; simpl; eapply dlist_last_not_null; eauto).
  run_st ltac:(by apply assert_ok). by rewrite (get_prev_ok _ _ _ Hn E).
Qed.

Lemma list_empty_ok h l xs : dlist h l xs → list_empty l h = Ok (bool_decide (xs = []), h).
Proof.
  intros H. unfold list_empty. run_st ltac:(by eapply list_begin_ok).
  run_st ltac:(eapply list_end_ok, dlist_not_null; eauto). st_simpl.
  destruct xs as [|x xs]; simpl; [by rewrite bool_decide_true|].
  rewrite bool_decide_false; [done|]. by apply (dlist_hd_ne _ _ [] _ _ H).
Qed.
End traversal.

(** ** Insertion and removal *)
Section updates.
Implicit Types (h : heap) (l x y : Z) (xs ys us vs F : list Z).

Lemma list_init_ok h l :
  l ≠ NULL → tail_of l ≠ NULL → is_Some (h !! head_of l) → is_Some (h !! tail_of l) →
  ∃ h', list_init l h = Ok ((), h') ∧ dlist h' l [] ∧ agree_off (nodes l []) h h'.
Proof.
  intros Hn Hnt Hh Ht. unfold list_init. run_st ltac:(apply assert_ok; by apply bool_decide_true).
  do 3 run_st ltac:(apply set_prev_ok || apply set_next_ok; auto with pintos).
  rewrite set_next_ok by auto with pintos. eexists. split_and!; [done| |].
  - assert (l ≠ tail_of l) by (unfold tail_of; lia). unfold dlist, nodes, head_of in *. simpl.
    destruct Hh as [eh Eh], Ht as [et Et]. split_and!.
    + repeat constructor; set_solver.
    + set_solver.
    + rewrite !lookup_alter_ne, lookup_alter_eq, lookup_alter_eq, Eh by done. done.
    + rewrite lookup_alter_eq, lookup_alter_eq, !lookup_alter_ne, Et by done. done.
    + done.
  - unfold nodes. repeat (apply agree_off_alter; [set_solver|]). apply agree_off_refl.
Qed.

Lemma list_insert_ok h l xs ys x :
  dlist h l (xs ++ ys) → x ≠ NULL → x ∉ nodes l (xs ++ ys) → is_Some (h !! x) →
  ∃ h', list_insert (hdz (tail_of l) ys) x h = Ok ((), h') ∧
    dlist h' l (xs ++ x :: ys) ∧ agree_off (x :: nodes l (xs ++ ys)) h h'.
Proof.
  intros H Hxn Hx [e Ex].
  pose proof (dlist_last_not_null _ _ _ _ H) as Ha. destruct (dlist_last _ _ _ _ H) as [p Ea].
  pose proof (dlist_hd_not_null _ _ _ _ H) as Hb. destruct (dlist_hd _ _ _ _ H) as [n Eb].
  pose proof (lastz_in_nodes l xs ys) as Hain. pose proof (hdz_in_nodes l xs ys) as Hbin.
  set (a := lastz l xs) in *. set (b := hdz (tail_of l) ys) in *.
  assert (x ≠ a ∧ x ≠ b) as [Hxa Hxb] by (split; intros ->; done).
  exists (link_in a x x b h). split_and!.
  - unfold list_insert. run_st ltac:(eapply insertable_ok; eauto).
    run_st ltac:(by apply assert_ok). run_st ltac:(apply assert_ok; by apply bool_decide_true).
    run_st ltac:(eapply get_prev_ok; eauto). simpl.
    run_st ltac:(apply set_prev_ok; eauto). run_st ltac:(apply set_next_ok; eauto with pintos).
    run_st ltac:(eapply get_prev_ok; [done|]; by rewrite !lookup_alter_ne by done). simpl.
    run_st ltac:(apply set_next_ok; [done|]; auto 10 with pintos).
    rewrite set_prev_ok by auto 10 with pintos. done.
  - apply (dlist_link_in h l xs ys [x] [] [] x x (prev e) (next e)); try done.
    + simpl. rewrite Ex. by destruct e.
    + apply NoDup_singleton.
    + by rewrite list_elem_of_singleton.
    + by intros ? ->%list_elem_of_singleton.
  - apply link_in_agree; rewrite elem_of_cons; auto.
Qed.
Lemma list_remove_ok h l xs x ys :
  dlist h l (xs ++ x :: ys) →
  ∃ h', list_remove x h = Ok (hdz (tail_of l) ys, h') ∧
    dlist h' l (xs ++ ys) ∧ agree_off (nodes l (xs ++ ys)) h h'.
Proof.
  intros H. destruct (dlist_interior _ _ _ _ _ H) as [Ex Hxn].
  pose proof (dlist_last_not_null _ _ _ _ H) as Ha. destruct (dlist_last _ _ _ _ H) as [p Ea].
  assert (dlist h l ((xs ++ [x]) ++ ys)) as H2 by (by rewrite <- app_assoc).
  pose proof (dlist_hd_not_null _ _ _ _ H2) as Hb. destruct (dlist_hd _ _ _ _ H2) as [n Eb].
  destruct (dlist_unlink h l xs [x] ys H) as [Hd _].
  assert (x ∉ nodes l (xs ++ ys)) as Hx.
  { destruct H as (Hnd & _ & _). change (x :: ys) with ([x] ++ ys) in Hnd.
    rewrite nodes_app, <- app_assoc in Hnd. apply nodup_mid in Hnd as (_ & Hnd & _).
    rewrite nodes_app. apply Hnd. left. }
  pose proof (lastz_in_nodes l xs ys) as Hain. pose proof (hdz_in_nodes l xs ys) as Hbin.
  set (a := lastz l xs) in *. set (b := hdz (tail_of l) ys) in *.
  assert (x ≠ a ∧ x ≠ b) as [Hxa Hxb] by (split; intros ->; done).
  exists (unlink a b h). split_and!; [|done|by apply unlink_agree].
  unfold list_remove. run_st ltac:(eapply is_interior_ok; eauto). simpl.
  rewrite !bool_decide_true by done. run_st ltac:(by apply assert_ok).
  run_st ltac:(eapply get_prev_ok; eauto). run_st ltac:(eapply get_next_ok; eauto). simpl.
  run_st ltac:(apply set_next_ok; eauto).
  run_st ltac:(eapply get_next_ok; [done|]; by rewrite lookup_alter_ne by done).
  run_st ltac:(eapply get_prev_ok; [done|]; by rewrite lookup_alter_ne by done). simpl.
  run_st ltac:(apply set_prev_ok; eauto with pintos).
  by erewrite get_next_ok; [|done|rewrite !lookup_alter_ne by done; exact Ex].
Qed.

Lemma list_push_front_ok h l xs x :
  dlist h l xs → x ≠ NULL → x ∉ nodes l xs → is_Some (h !! x) →
  ∃ h', list_push_front l x h = Ok ((), h') ∧ dlist h' l (x :: xs) ∧ agree_off (x :: nodes l xs) h h'.
Proof.
  intros H ???. unfold list_push_front. run_st ltac:(by eapply list_begin_ok).
  by apply (list_insert_ok h l [] xs x).
Qed.

Lemma list_push_back_ok h l xs x :
  dlist h l xs → x ≠ NULL → x ∉ nodes l xs → is_Some (h !! x) →
  ∃ h', list_push_back l x h = Ok ((), h') ∧ dlist h' l (xs ++ [x]) ∧ agree_off (x :: nodes l xs) h h'.
Proof.
  intros H ???. unfold list_push_back. run_st ltac:(eapply list_end_ok, dlist_not_null; eauto).
  rewrite <- (app_nil_r xs) in H |- *. rewrite <- app_assoc. simpl.
  apply (list_insert_ok h l xs [] x); rewrite ?app_nil_r in *; done.
Qed.

Lemma list_front_ok h l x xs : dlist h l (x :: xs) → list_front l h = Ok (x, h).
Proof.
  intros H. unfold list_front. run_st ltac:(by eapply list_empty_ok).
  rewrite bool_decide_false by done. run_st ltac:(by apply assert_ok).
  by erewrite get_next_ok by eauto using dlist_head, dlist_not_null.
Qed.

Lemma list_back_ok h l xs x : dlist h l (xs ++ [x]) → list_back l h = Ok (x, h).
Proof.
  intros H. unfold list_back. run_st ltac:(by eapply list_empty_ok).
  rewrite bool_decide_false by (by destruct xs). run_st ltac:(by apply assert_ok).
  assert (tail_of l ≠ NULL) by (apply (dlist_hd_not_null h l (xs ++ [x]) []); by rewrite app_nil_r).
  rewrite (get_prev_ok _ _ _ H0 (dlist_tail _ _ _ H)). simpl. by rewrite lastz_snoc.
Qed.

Lemma list_front_empty h l : dlist h l [] → list_front l h = Err EPanic.
Proof. intros H. unfold list_front. by run_st ltac:(by eapply list_empty_ok). Qed.

Lemma list_back_empty h l : dlist h l [] → list_back l h = Err EPanic.
Proof. intros H. unfold list_back. by run_st ltac:(by eapply list_empty_ok). Qed.

Lemma list_pop_front_ok h l x xs :
  dlist h l (x :: xs) →
  ∃ h', list_pop_front l h = Ok (x, h') ∧ dlist h' l xs ∧ agree_off (nodes l xs) h h'.
Proof.
  intros H. destruct (list_remove_ok h l [] x xs H) as (h' & Hr & ? & ?). exists h'.
  unfold list_pop_front. run_st ltac:(by eapply list_front_ok). by run_st ltac:(exact Hr).
Qed.

Lemma list_pop_back_ok h l x xs :
  dlist h l (xs ++ [x]) →
  ∃ h', list_pop_back l h = Ok (x, h') ∧ dlist h' l xs ∧ agree_off (nodes l xs) h h'.
Proof.
  intros H. destruct (list_remove_ok h l xs x [] H) as (h' & Hr & ? & ?). exists h'.
  rewrite app_nil_r in *.
  unfold list_pop_back. run_st ltac:(by eapply list_back_ok). by run_st ltac:(exact Hr).
Qed.

(** The memory effect of list_splice on cells [first .. m] (with [last] the
    cell after [m]) moved in front of [before]. *)
Lemma list_splice_run h before first last m p n a b n' :
  before ≠ NULL → first ≠ NULL → m ≠ NULL → p ≠ NULL → n ≠ NULL → a ≠ NULL →
  first ≠ last → before ≠ first → before ≠ m → first ≠ p → first ≠ n → m ≠ p → m ≠ n →
  h !! before = Some b → prev b ≠ NULL →
  list_prev last h = Ok (m, h) →
  (∃ nf, h !! first = Some (ListElem p nf) ∧ nf ≠ NULL) →
  (∃ pm, h !! m = Some (ListElem pm n) ∧ pm ≠ NULL) →
  is_Some (h !! p) → is_Some (h !! n) → is_Some (h !! a) →
  unlink p n h !! before = Some (ListElem a n') →
  list_splice before first last h = Ok ((), link_in a first m before (unlink p n h)).
Proof.
  intros ????????????? Eb ? Hprev (nf & Ef & ?) (pm & Em & ?) Hp Hn Ha Eb'.
  unfold list_splice. run_st ltac:(eapply insertable_ok; eauto). run_st ltac:(by apply assert_ok).
  rewrite decide_False by done. run_st ltac:(exact Hprev).
  run_st ltac:(eapply is_interior_ok; eauto). simpl. rewrite !bool_decide_true by done.
  run_st ltac:(by apply assert_ok).
  run_st ltac:(eapply is_interior_ok; eauto). simpl. rewrite !bool_decide_true by done.
  run_st ltac:(by apply assert_ok).
  run_st ltac:(eapply get_prev_ok; eauto). run_st ltac:(eapply get_next_ok; eauto). simpl.
  run_st ltac:(apply set_next_ok; eauto).
  run_st ltac:(eapply get_next_ok; [done|]; by rewrite lookup_alter_ne by done).
  run_st ltac:(eapply get_prev_ok; [done|]; by rewrite lookup_alter_ne by done). simpl.
  run_st ltac:(apply set_prev_ok; eauto with pintos). fold (unlink p n h).
  assert (∀ q, is_Some (h !! q) → is_Some (unlink p n h !! q)) as Hsome.
  { intros. unfold unlink. auto with pintos. }
  run_st ltac:(eapply get_prev_ok; eauto). simpl.
  run_st ltac:(apply set_prev_ok; eauto). run_st ltac:(apply set_next_ok; eauto with pintos).
  run_st ltac:(eapply get_prev_ok; [done|]; by rewrite !lookup_alter_ne by done). simpl.
  run_st ltac:(apply set_next_ok; eauto 10 with pintos).
  by rewrite set_prev_ok by eauto 10 with pintos.
Qed.

Lemma hdz_cut_in t xs F ys us vs : xs ++ ys = us ++ vs → hdz t vs ∈ (xs ++ F ++ ys) ++ [t].
Proof.
  destruct vs as [|v vs]; simpl; intros H; [set_solver|].
  assert (v ∈ xs ++ ys) by (rewrite H; set_solver). set_solver.
Qed.

(** list_splice within one list: the block [F] moves in front of [vs]. *)
Lemma list_splice_ok h l xs F ys us vs f F1 :
  dlist h l (xs ++ F ++ ys) → F = f :: F1 → xs ++ ys = us ++ vs →
  ∃ h', list_splice (hdz (tail_of l) vs) f (hdz (tail_of l) ys) h = Ok ((), h') ∧
    dlist h' l (us ++ F ++ vs) ∧ agree_off (nodes l (xs ++ F ++ ys)) h h'.
Proof.
  intros H HF Huv. destruct (lastz_cons f F1) as [F2 HF2]. rewrite <- HF in HF2.
  set (m := lastz f F1) in *.
  destruct (dlist_unlink _ _ _ _ _ H) as [Hd HsF].
  assert (NoDup F ∧ (∀ x, x ∈ F → x ∉ nodes l (xs ++ ys)) ∧ NULL ∉ F) as (HndF & Hdis & HnF).
  { destruct H as (Hnd & Hn & _). rewrite nodes_app, <- app_assoc in Hnd, Hn.
    apply nodup_mid in Hnd as (? & ? & _). rewrite elem_of_mid in Hn. rewrite nodes_app. tauto. }
  pose proof (lastz_in_nodes l xs ys) as Hp. pose proof (hdz_in_nodes l xs ys) as Hn.
  pose proof Hd as Hd'. rewrite Huv in Hd', Hdis, Hp, Hn.
  pose proof (lastz_in_nodes l us vs) as Ha. pose proof (hdz_in_nodes l us vs) as Hb.
  assert (∀ x y, x ∈ F → y ∈ nodes l (us ++ vs) → x ≠ y) as Hne by (intros x y ?? ->; by eapply Hdis).
  assert (f ∈ F) as Hf by (rewrite HF; left).
  assert (m ∈ F) as Hm by (rewrite HF2, elem_of_app; right; left).
  assert (dlist h l ((xs ++ F) ++ ys)) as H2 by (by rewrite <- app_assoc).
  assert (lastz l (xs ++ F) = m) as Hlm by (by rewrite lastz_app, HF2, lastz_snoc).
  eexists. split_and!.
  - destruct (dlist_hd _ _ _ _ Hd') as [n' Eb'].
    assert (hdz (tail_of l) vs ∈ (xs ++ F ++ ys) ++ [tail_of l]) as Hbin.
    { by apply hdz_cut_in with us. }
    destruct (dlist_pred _ _ _ _ H Hbin) as (eb & Eb & Hpb & Hbn).
    eapply (list_splice_run h _ f _ m (lastz l xs) (hdz (tail_of l) ys) (lastz l us) eb n');
      eauto using dlist_last_not_null, dlist_hd_not_null, (not_eq_sym (A:=Z)).
    + intros E. by rewrite E in Hf.
    + intros E. by rewrite E in Hm.
    + apply not_eq_sym. auto.
    + apply not_eq_sym. auto.
    + rewrite <- Hlm. by apply list_prev_cut.
    + rewrite HF in H. destruct (dlist_interior _ _ _ _ _ H) as [Ef _]. rewrite Ef. eexists.
      split; [done|]. eapply (dlist_hd_not_null h l (xs ++ [f]) (F1 ++ ys)). by rewrite <- app_assoc.
    + rewrite HF2, <- app_assoc, app_assoc in H. destruct (dlist_interior _ _ _ _ _ H) as [Em _].
      rewrite Em. eexists. split; [done|]. by eapply dlist_last_not_null.
    + destruct (dlist_last _ _ _ _ H) as [? ->]. eauto.
    + destruct (dlist_hd _ _ _ _ H2) as [? ->]. eauto.
    + apply (unlink_some (lastz l xs) (hdz (tail_of l) ys)). destruct (dlist_last _ _ _ _ Hd') as [? ->]. eauto.
  - eapply dlist_link_in; eauto.
  - assert (∀ q, q ∈ F ∨ q ∈ nodes l (us ++ vs) → q ∈ nodes l (xs ++ F ++ ys)) as Hin.
    { intros q. rewrite <- Huv, !nodes_app, <- app_assoc, (elem_of_mid q (l :: xs) F). done. }
    eapply agree_off_trans; [apply unlink_agree|apply link_in_agree]; auto.
Qed.
End updates.

(** ** Loops *)
Section loops.
Implicit Types (h : heap) (l x y : Z) (xs ys us vs P Q : list Z).

Lemma run_cells {A} (k : nat → ST heap A) h : (cells ≫= k) h = k (S (size h)) h.
Proof. done. Qed.

Lemma list_end_dlist h l xs : dlist h l xs → list_end l h = Ok (tail_of l, h).
Proof. intros H. by eapply list_end_ok, dlist_not_null. Qed.

(** The elements of a block differ from the cell that follows it. *)
Lemma dlist_block_ne h l P y ys Q :
  dlist h l (P ++ (y :: ys) ++ Q) → y ≠ hdz (tail_of l) Q.
Proof.
  intros (Hnd & _ & _) ->. rewrite nodes_app, <- app_assoc in Hnd.
  destruct (hdz_snoc Q (tail_of l)) as [B HB]. rewrite HB in Hnd.
  apply nodup_mid in Hnd as (_ & Hnd & _). eapply Hnd; [left|]. apply elem_of_app. right. left.
Qed.

Lemma dlist_len_fuel h l xs : dlist h l xs → (length xs < S (size h))%nat.
Proof. intros H%dlist_size. lia. Qed.

Lemma list_size_loop_ok fuel h l xs ys cnt :
  dlist h l (xs ++ ys) → (length ys < fuel)%nat → in_u32 cnt →
  list_size_loop fuel l (hdz (tail_of l) ys) cnt h = Ok (u32 (cnt + Z.of_nat (length ys)), h).
Proof.
  revert xs ys cnt. induction fuel as [|fuel IH]; intros xs ys cnt H Hf Hc; [lia|]. simpl.
  run_st ltac:(by eapply list_end_dlist). destruct ys as [|y ys]; simpl in *.
  - rewrite decide_True by done. rewrite Z.add_0_r, u32_id by done. done.
  - rewrite decide_False by (by eapply dlist_hd_ne). run_st ltac:(by eapply list_next_ok).
    rewrite (IH (xs ++ [y])); [|by rewrite <- app_assoc|lia|apply u32_range].
    rewrite u32_add_l. do 3 f_equal. lia.
Qed.

Lemma list_size_ok h l xs : dlist h l xs → list_size l h = Ok (u32 (Z.of_nat (length xs)), h).
Proof.
  intros H. unfold list_size. run_st ltac:(by eapply list_begin_ok). rewrite run_cells.
  rewrite (list_size_loop_ok _ _ _ []); [done|done|by eapply dlist_len_fuel|by apply (conj (Z.le_refl 0))].
Qed.

Context (less : Z → Z → bool).

Lemma insert_pos_loop_ok fuel h l xs ys x :
  dlist h l (xs ++ ys) → (length ys < fuel)%nat →
  ∃ us vs, ys = us ++ vs ∧ insert_ordered less x ys = us ++ x :: vs ∧
    insert_pos_loop less fuel l x (hdz (tail_of l) ys) h = Ok (hdz (tail_of l) vs, h).
Proof.
  revert xs ys. induction fuel as [|fuel IH]; intros xs ys H Hf; [lia|]. simpl.
  destruct ys as [|y ys]; simpl in *.
  - exists [], []. run_st ltac:(by eapply list_end_dlist). by rewrite decide_True.
  - destruct (less x y) eqn:E.
    + exists [], (y :: ys). run_st ltac:(by eapply list_end_dlist).
      rewrite decide_False by (by eapply dlist_hd_ne). done.
    + destruct (IH (xs ++ [y]) ys) as (us & vs & -> & -> & Hl); [by rewrite <- app_assoc|lia|].
      exists (y :: us), vs. split_and!; [done..|]. run_st ltac:(by eapply list_end_dlist).
      rewrite decide_False by (by eapply dlist_hd_ne). by run_st ltac:(by eapply list_next_ok).
Qed.

Lemma list_insert_ordered_ok h l xs x :
  dlist h l xs → x ≠ NULL → x ∉ nodes l xs → is_Some (h !! x) →
  ∃ h', list_insert_ordered less l x h = Ok ((), h') ∧
    dlist h' l (insert_ordered less x xs) ∧ agree_off (x :: nodes l xs) h h'.
Proof.
  intros H Hx Hin Hs. destruct (insert_pos_loop_ok (S (size h)) h l [] xs x) as (us & vs & -> & -> & Hl);
    [done|by eapply dlist_len_fuel|]. unfold list_insert_ordered.
  run_st ltac:(eapply assert_ok, bool_decide_true, dlist_not_null; eauto).
  run_st ltac:(by apply assert_ok, bool_decide_true).
  run_st ltac:(by eapply list_begin_ok). rewrite run_cells. run_st ltac:(exact Hl).
  by apply list_insert_ok.
Qed.

Lemma is_sorted_loop_ok fuel h l xs a M ys :
  dlist h l (xs ++ (a :: M) ++ ys) → (length M < fuel)%nat →
  is_sorted_loop less fuel a (hdz (tail_of l) ys) h = Ok (sorted_from less a M, h).
Proof.
  revert xs a M. induction fuel as [|fuel IH]; intros xs a M H Hf; [lia|]. simpl.
  run_st ltac:(by eapply (list_next_ok h l xs a (M ++ ys))).
  destruct M as [|m M]; simpl in *; [by rewrite decide_True|].
  assert (dlist h l ((xs ++ [a]) ++ (m :: M) ++ ys)) as H' by (by rewrite <- app_assoc).
  rewrite decide_False by (by eapply dlist_block_ne).
  pose proof (list_prev_cut _ _ _ _ H') as Hp. rewrite lastz_snoc in Hp. run_st ltac:(exact Hp).
  destruct (less m a); [done|]. apply (IH (xs ++ [a])); [done|lia].
Qed.

Lemma is_sorted_ok h l xs M ys :
  dlist h l (xs ++ M ++ ys) →
  is_sorted less (hdz (tail_of l) (M ++ ys)) (hdz (tail_of l) ys) h =
    Ok (match M with [] => true | a :: M' => sorted_from less a M' end, h).
Proof.
  intros H. unfold is_sorted. destruct M as [|a M]; simpl; [by rewrite decide_True|].
  rewrite decide_False by (by eapply dlist_block_ne). rewrite run_cells. eapply is_sorted_loop_ok; [done|].
  apply dlist_len_fuel in H. rewrite !length_app in H. simpl in H. lia.
Qed.

Lemma is_sorted_true h l xs M ys :
  dlist h l (xs ++ M ++ ys) → Sorted (le_of less) M →
  is_sorted less (hdz (tail_of l) (M ++ ys)) (hdz (tail_of l) ys) h = Ok (true, h).
Proof.
  intros H Hs. rewrite (is_sorted_ok _ _ _ _ _ H). destruct M; [done|]. by rewrite (proj2 (sorted_from_spec _ _ _) Hs).
Qed.

Lemma find_end_of_run_loop_ok fuel h l xs a ys r rest :
  dlist h l (xs ++ a :: ys) → (length ys < fuel)%nat → run less a ys = (r, rest) →
  find_end_of_run_loop less fuel a (tail_of l) h = Ok (hdz (tail_of l) rest, h).
Proof.
  revert xs a ys r rest. induction fuel as [|fuel IH]; intros xs a ys r rest H Hf; [lia|]. simpl.
  intros Hr. run_st ltac:(by eapply list_next_ok).
  assert (dlist h l ((xs ++ [a]) ++ ys)) as H' by (by rewrite <- app_assoc).
  destruct ys as [|y ys]; simpl in *; [by rewrite decide_True; simplify_eq|].
  rewrite decide_False by (by eapply dlist_hd_ne).
  pose proof (list_prev_cut _ _ _ _ H') as Hp. rewrite lastz_snoc in Hp. run_st ltac:(exact Hp).
  destruct (less y a); [by simplify_eq|]. destruct (run less y ys) as [r0 rest0] eqn:Er. simplify_eq.
  eapply (IH (xs ++ [a])); [done|lia|done].
Qed.

Lemma find_end_of_run_ok h l xs a ys r rest :
  dlist h l (xs ++ a :: ys) → run less a ys = (r, rest) →
  find_end_of_run less a (tail_of l) h = Ok (hdz (tail_of l) rest, h).
Proof.
  intros H Hr. unfold find_end_of_run.
  run_st ltac:(apply assert_ok, bool_decide_true; by eapply dlist_interior).
  run_st ltac:(apply assert_ok, bool_decide_true; eapply (dlist_hd_not_null h l (xs ++ a :: ys) []); by rewrite app_nil_r).
  run_st ltac:(apply assert_ok, bool_decide_true; by eapply dlist_hd_ne). rewrite run_cells.
  eapply find_end_of_run_loop_ok; [done| |done].
  apply dlist_len_fuel in H. rewrite length_app in H. simpl in H. lia.
Qed.
End loops.

(** ** Sorting *)
Section sorting.
Implicit Types (h : heap) (l x y : Z) (xs ys us vs P Q As Bs : list Z).
Context (less : Z → Z → bool).

Lemma inplace_merge_loop_ok fuel h l P As Bs Q :
  dlist h l (P ++ As ++ Bs ++ Q) → (length As + length Bs < fuel)%nat →
  ∃ h', inplace_merge_loop less fuel (hdz (tail_of l) (As ++ Bs ++ Q))
          (hdz (tail_of l) (Bs ++ Q)) (hdz (tail_of l) Q) h = Ok ((), h') ∧
    dlist h' l (P ++ merge_runs less As Bs ++ Q) ∧
    agree_off (nodes l (P ++ As ++ Bs ++ Q)) h h'.
Proof.
  revert h P As Bs. induction fuel as [|fuel IH]; intros h P As Bs H Hf; [lia|]. simpl.
  destruct As as [|a As].
  { simpl. rewrite decide_True by done. exists h. by destruct Bs. }
  cbn [hdz app]. rewrite decide_False by (by eapply dlist_block_ne).
  destruct Bs as [|b Bs].
  { simpl. rewrite decide_True by done. by exists h. }
  assert (dlist h l ((P ++ a :: As) ++ (b :: Bs) ++ Q)) as Hb by (by rewrite <- app_assoc).
  cbn [hdz app]. rewrite decide_False by (by eapply dlist_block_ne).
  rewrite merge_runs_cons. destruct (less b a) eqn:E; cbn [length negb] in Hf |- *.
  - run_st ltac:(by eapply list_next_ok).
    assert (dlist h l (((P ++ a :: As) ++ [b]) ++ Bs ++ Q)) as Hb' by (by rewrite <- app_assoc).
    pose proof (list_prev_cut _ _ _ _ Hb') as Hp. rewrite lastz_snoc in Hp. run_st ltac:(exact Hp).
    destruct (list_splice_ok h l (P ++ a :: As) [b] (Bs ++ Q) P (a :: As ++ Bs ++ Q) b []) as (h1 & Hs & Hd & Ha);
      [done|done|by rewrite <- app_assoc|]. cbn [hdz] in Hs. run_st ltac:(exact Hs).
    destruct (IH h1 (P ++ [b]) (a :: As) Bs) as (h2 & Hl & Hd2 & Ha2);
      [by rewrite <- app_assoc|simpl; lia|].
    exists h2. split_and!; [exact Hl|by rewrite <- app_assoc in Hd2|].
    eapply agree_off_trans; [|eapply agree_off_mono; [|exact Ha2]]; [by rewrite <- app_assoc in Ha|].
    intros q. rewrite !nodes_app. clear. set_solver.
  - run_st ltac:(by eapply list_next_ok).
    destruct (IH h (P ++ [a]) As (b :: Bs)) as (h2 & Hl & Hd2 & Ha2);
      [by rewrite <- app_assoc|simpl; lia|].
    exists h2. rewrite <- app_assoc in Hd2, Ha2. done.
Qed.

Lemma inplace_merge_ok h l P As Bs Q :
  dlist h l (P ++ As ++ Bs ++ Q) → Sorted (le_of less) As → Sorted (le_of less) Bs →
  ∃ h', inplace_merge less (hdz (tail_of l) (As ++ Bs ++ Q))
          (hdz (tail_of l) (Bs ++ Q)) (hdz (tail_of l) Q) h = Ok ((), h') ∧
    dlist h' l (P ++ merge_runs less As Bs ++ Q) ∧
    agree_off (nodes l (P ++ As ++ Bs ++ Q)) h h'.
Proof.
  intros H HA HB. destruct (inplace_merge_loop_ok (S (size h)) h l P As Bs Q) as (h' & Hl & ?); [done| |].
  { apply dlist_len_fuel in H. rewrite !length_app in H. lia. }
  exists h'. split; [|done]. unfold inplace_merge.
  assert (dlist h l ((P ++ As) ++ Bs ++ Q)) as H1 by (by rewrite <- app_assoc).
  assert (dlist h l ((P ++ As ++ Bs) ++ Q)) as H2 by (by rewrite <- !app_assoc).
  do 3 run_st ltac:(eapply assert_ok, bool_decide_true; by eapply dlist_hd_not_null).
  run_st ltac:(by eapply is_sorted_true). run_st ltac:(by apply assert_ok).
  run_st ltac:(by eapply is_sorted_true). run_st ltac:(by apply assert_ok).
  by rewrite run_cells.
Qed.

Lemma list_sort_pass_ok n fuel h l P xs out c cnt :
  dlist h l (P ++ xs) → (length xs ≤ n)%nat → (n < fuel)%nat →
  sort_pass less n xs = (out, c) → in_u32 cnt →
  ∃ h', list_sort_pass less fuel l (hdz (tail_of l) xs) cnt h = Ok (u32 (cnt + Z.of_nat c), h') ∧
    dlist h' l (P ++ out) ∧ agree_off (nodes l (P ++ xs)) h h'.
Proof.
  revert fuel h P xs out c cnt.
  induction n as [|n IH]; intros fuel h P xs out c cnt H Hn Hf Hp Hc; destruct fuel as [|fuel]; try lia; simpl;
    (run_st ltac:(by eapply list_end_dlist)); destruct xs as [|x xs]; simpl in Hn, Hp; try lia.
  1,2: simplify_eq; simpl; rewrite decide_True by done; exists h; by rewrite Z.add_0_r, u32_id.
  cbn [hdz]. rewrite decide_False by (by eapply dlist_hd_ne).
  destruct (run less x xs) as [r1 rest] eqn:E1.
  run_st ltac:(by eapply find_end_of_run_ok). destruct (run_spec _ _ _ _ _ E1) as (Hx & Hs1 & _ & _).
  destruct rest as [|y rest].
  { rewrite app_nil_r in Hx. simplify_eq. rewrite decide_True by done. exists h. done. }
  rewrite <- Hx in H. assert (dlist h l ((P ++ r1) ++ y :: rest)) as H1 by (by rewrite <- app_assoc).
  cbn [hdz]. rewrite decide_False by (by eapply dlist_hd_ne).
  destruct (run less y rest) as [r2 rest2] eqn:E2.
  run_st ltac:(by eapply find_end_of_run_ok). destruct (run_spec _ _ _ _ _ E2) as (Hy & Hs2 & [r2' Er2] & _).
  rewrite <- Hy in H. destruct (run_spec _ _ _ _ _ E1) as (_ & _ & [r1' Er1] & _).
  destruct (inplace_merge_ok h l P r1 r2 rest2 H Hs1 Hs2) as (h1 & Hm & Hd1 & Ha1).
  replace (hdz (tail_of l) (r1 ++ r2 ++ rest2)) with x in Hm by (by rewrite Er1).
  replace (hdz (tail_of l) (r2 ++ rest2)) with y in Hm by (by rewrite Er2).
  run_st ltac:(exact Hm). destruct (sort_pass less n rest2) as [out2 c2] eqn:Ep. simplify_eq.
  pose proof (run_length _ _ _ _ _ E1). pose proof (run_length _ _ _ _ _ E2). simpl in *.
  destruct (IH fuel h1 (P ++ merge_runs less (x :: r1') (y :: r2')) rest2 out2 c2 (u32 (cnt + 1)))
    as (h2 & Hl & Hd2 & Ha2); [by rewrite <- app_assoc|lia|lia|done|apply u32_range|].
  exists h2. split_and!.
  - rewrite Hl, u32_add_l. do 3 f_equal. lia.
  - by rewrite <- app_assoc in Hd2.
  - rewrite <- Hx, <- Hy. eapply agree_off_trans; [exact Ha1|]. eapply agree_off_mono; [|exact Ha2].
    intros q. rewrite <- !app_assoc. unfold nodes. simpl. elem_simpl.
    rewrite (merge_runs_perm less (x :: r1') (y :: r2')). simpl. elem_simpl. tauto.
Qed.

Lemma list_sort_loop_ok fuel h l xs out :
  dlist h l xs → Z.of_nat (length xs) < 2^32 → sort_loop less fuel xs = Some out →
  ∃ h', list_sort_loop less fuel l h = Ok ((), h') ∧ dlist h' l out ∧ agree_off (nodes l xs) h h'.
Proof.
  revert h xs. induction fuel as [|fuel IH]; intros h xs H Hn; [done|]. simpl.
  run_st ltac:(by eapply list_begin_ok). rewrite run_cells.
  pose proof (sort_pass_perm less (length xs) xs) as Hperm.
  destruct (sort_pass less (length xs) xs) as [o c] eqn:Ep.
  assert (c ≤ length xs)%nat as Hc by (by eapply sort_pass_count).
  destruct (list_sort_pass_ok (length xs) (S (size h)) h l [] xs o c 0)
    as (h1 & Hl & Hd & Ha); [done|done|by eapply dlist_len_fuel|done|by apply (conj (Z.le_refl 0))|].
  run_st ltac:(exact Hl). rewrite u32_id by (unfold in_u32; lia). simpl in *.
  case_decide; [rewrite decide_True by lia|rewrite decide_False by lia].
  - intros Hs. destruct (IH h1 o Hd) as (h2 & ? & ? & Ha2); [by rewrite Hperm|done|].
    exists h2. split_and!; [done..|]. eapply agree_off_trans; [exact Ha|].
    eapply agree_off_mono; [|exact Ha2]. intros q. unfold nodes. by rewrite Hperm.
  - intros [= <-]. exists h1. done.
Qed.

Lemma list_sort_ok h l xs `{!StrictWeak less} :
  dlist h l xs → Z.of_nat (length xs) < 2^32 →
  ∃ h' out, list_sort less l h = Ok ((), h') ∧ dlist h' l out ∧ agree_off (nodes l xs) h h' ∧
    Sorted (le_of less) out ∧ out ≡ₚ xs ∧
    ∀ x, filter (same_rank less x) out = filter (same_rank less x) xs.
Proof.
  intros H Hn. destruct (sort_loop_spec less (S (size h)) xs) as (out & Hs & Hsort & ? & ?).
  { pose proof (runs_le_length less xs). apply dlist_len_fuel in H. lia. }
  destruct (list_sort_loop_ok _ _ _ _ _ H Hn Hs) as (h' & Hl & Hd & Ha).
  exists h', out. split_and!; [|done..]. unfold list_sort.
  run_st ltac:(eapply assert_ok, bool_decide_true, dlist_not_null; eauto).
  rewrite run_cells. run_st ltac:(exact Hl).
  run_st ltac:(by eapply list_begin_ok). run_st ltac:(by eapply list_end_dlist).
  pose proof (is_sorted_true less h' l [] out []) as Ht. rewrite !app_nil_r in Ht.
  run_st ltac:(by apply Ht). done.
Qed.
End sorting.

(** ** Extrema *)
Section extrema.
Implicit Types (h : heap) (l x y m : Z) (xs ys : list Z).
Context (less : Z → Z → bool).

Lemma list_max_loop_ok fuel h l xs ys m :
  dlist h l (xs ++ ys) → (length ys < fuel)%nat →
  list_max_loop less fuel l m (hdz (tail_of l) ys) h = Ok (max_after less m ys, h).
Proof.
  revert xs ys m. induction fuel as [|fuel IH]; intros xs ys m H Hf; [lia|]. simpl.
  run_st ltac:(by eapply list_end_dlist). destruct ys as [|y ys]; simpl in *; [by rewrite decide_True|].
  rewrite decide_False by (by eapply dlist_hd_ne). run_st ltac:(by eapply list_next_ok).
  apply (IH (xs ++ [y])); [by rewrite <- app_assoc|lia].
Qed.

Lemma list_max_ok h l xs :
  dlist h l xs →
  list_max less l h = Ok (match xs with [] => tail_of l | x :: xs' => max_after less x xs' end, h).
Proof.
  intros H. unfold list_max. run_st ltac:(by eapply list_begin_ok). run_st ltac:(by eapply list_end_dlist).
  destruct xs as [|x xs]; simpl; [by rewrite decide_True|].
  rewrite decide_False by (by apply (dlist_hd_ne h l [] x xs)).
  run_st ltac:(by apply (list_next_ok h l [] x xs)). rewrite run_cells.
  apply (list_max_loop_ok _ h l [x]); [done|]. apply dlist_len_fuel in H. simpl in H. lia.
Qed.

Lemma list_min_loop_ok fuel h l xs ys m :
  dlist h l (xs ++ ys) → (length ys < fuel)%nat →
  list_min_loop less fuel l m (hdz (tail_of l) ys) h = Ok (min_after less m ys, h).
Proof.
  revert xs ys m. induction fuel as [|fuel IH]; intros xs ys m H Hf; [lia|]. simpl.
  run_st ltac:(by eapply list_end_dlist). destruct ys as [|y ys]; simpl in *; [by rewrite decide_True|].
  rewrite decide_False by (by eapply dlist_hd_ne). run_st ltac:(by eapply list_next_ok).
  apply (IH (xs ++ [y])); [by rewrite <- app_assoc|lia].
Qed.

Lemma list_min_ok h l xs :
  dlist h l xs →
  list_min less l h = Ok (match xs with [] => tail_of l | x :: xs' => min_after less x xs' end, h).
Proof.
  intros H. unfold list_min. run_st ltac:(by eapply list_begin_ok). run_st ltac:(by eapply list_end_dlist).
  destruct xs as [|x xs]; simpl; [by rewrite decide_True|].
  rewrite decide_False by (by apply (dlist_hd_ne h l [] x xs)).
  run_st ltac:(by apply (list_next_ok h l [] x xs)). rewrite run_cells.
  apply (list_min_loop_ok _ h l [x]); [done|]. apply dlist_len_fuel in H. simpl in H. lia.
Qed.
End extrema.

(** ** Reversal and removal of duplicates *)
Section reversal.
Implicit Types (h : heap) (l x y d : Z) (xs ys ds : list Z).

Definition swap_cell (e : list_elem) : list_elem := ListElem (next e) (prev e).

Lemma swap_self_ok h x :
  x ≠ NULL → is_Some (h !! x) → swap (PrevOf x) (NextOf x) h = Ok ((), alter swap_cell x h).
Proof.
  intros Hn [e E]. unfold swap. simpl.
  run_st ltac:(eapply get_prev_ok; eauto). run_st ltac:(eapply get_next_ok; eauto). simpl.
  run_st ltac:(apply set_prev_ok; eauto).
  rewrite set_next_ok by eauto with pintos. do 2 f_equal. apply map_eq. intros q.
  destruct (decide (q = x)) as [->|]; [by rewrite !lookup_alter_eq, E|by rewrite !lookup_alter_ne].
Qed.

(** Exchanging the links of every cell reverses a segment. *)
Fixpoint swap_all xs h : heap :=
  match xs with [] => h | x :: xs' => swap_all xs' (alter swap_cell x h) end.

Lemma swap_all_lookup xs h q : q ∉ xs → swap_all xs h !! q = h !! q.
Proof.
  revert h. induction xs as [|x xs IH]; intros h; simpl; [done|].
  rewrite not_elem_of_cons. intros [? ?]. rewrite IH, lookup_alter_ne by done. done.
Qed.

Lemma swap_all_dom xs h : dom (swap_all xs h) = dom h.
Proof. revert h. induction xs; intros h; simpl; [done|]. by rewrite IHxs, dom_alter_L. Qed.

Lemma swap_all_seg xs h p n :
  NoDup xs → seg h p xs n → seg (swap_all xs h) n (reverse xs) p.
Proof.
  revert h p. induction xs as [|x xs IH]; intros h p; simpl; [done|].
  rewrite NoDup_cons. intros [Hx Hnd] [E Hs]. rewrite reverse_cons, seg_app. split.
  - apply IH; [done|]. by apply seg_alter_ne.
  - simpl. split; [|done]. rewrite swap_all_lookup, lookup_alter_eq, E by done. simpl.
    f_equal. f_equal. destruct xs as [|y xs]; [done|]. simpl. by rewrite reverse_cons, lastz_snoc.
Qed.

Lemma list_reverse_loop_ok fuel h l p ys :
  l ≠ NULL → NoDup ys → NULL ∉ ys → tail_of l ∉ ys → seg h p ys (tail_of l) →
  (length ys < fuel)%nat →
  list_reverse_loop fuel l (hdz (tail_of l) ys) h = Ok ((), swap_all ys h).
Proof.
  revert h p ys. induction fuel as [|fuel IH]; intros h p ys Hl Hnd Hn Ht Hs Hf; [lia|]. simpl.
  run_st ltac:(by eapply list_end_ok). destruct ys as [|y ys]; simpl in *; [by rewrite decide_True|].
  rewrite NoDup_cons, !not_elem_of_cons in *. destruct Hs as [E Hs].
  rewrite decide_False by naive_solver. run_st ltac:(apply swap_self_ok; naive_solver).
  run_st ltac:(eapply get_prev_ok; [naive_solver|]; by rewrite lookup_alter_eq, E). simpl.
  apply (IH _ y); [done|tauto|tauto|tauto| |lia]. apply seg_alter_ne; tauto.
Qed.

Lemma nodes_not_null h l xs : dlist h l xs → NULL ∉ xs.
Proof. intros (_ & Hn & _) H. apply Hn. unfold nodes. elem_simpl. tauto. Qed.

(** The two exchanges after the loop, on the cells next to the ends. *)
Definition swap_ends (l x z : Z) (h : heap) : heap :=
  alter (with_next (tail_of l)) x (alter (with_prev l) z
    (alter (with_prev x) (tail_of l) (alter (with_next z) l h))).

Section ends.
Context h l x z nz px (Hl : l ≠ NULL) (Ht : tail_of l ≠ NULL) (Hx : x ≠ NULL) (Hz : z ≠ NULL)
  (Hlt : l ≠ tail_of l) (Hlx : l ≠ x) (Hlz : l ≠ z) (Htx : tail_of l ≠ x) (Htz : tail_of l ≠ z)
  (Eh : h !! l = Some (ListElem NULL x)) (Et : h !! tail_of l = Some (ListElem z NULL))
  (Ez : h !! z = Some (ListElem (tail_of l) nz)) (Ex : h !! x = Some (ListElem px l)).

Lemma swap_ends_run :
  (swap (NextOf l) (PrevOf (tail_of l));;
   f ← get_next l; b ← get_prev (tail_of l); swap (PrevOf f) (NextOf b)) h = Ok ((), swap_ends l x z h).
Proof.
  set (h2 := alter (with_prev x) (tail_of l) (alter (with_next z) l h)).
  assert (swap (NextOf l) (PrevOf (tail_of l)) h = Ok ((), h2)) as Hsw.
  { unfold swap. simpl. run_st ltac:(eapply get_next_ok; eauto). run_st ltac:(eapply get_prev_ok; eauto). simpl.
    run_st ltac:(apply set_next_ok; eauto). apply set_prev_ok; eauto with pintos. }
  assert (h2 !! l = Some (ListElem NULL z) ∧ h2 !! tail_of l = Some (ListElem x NULL)) as [E3 E4].
  { unfold h2. rewrite lookup_alter_ne, !lookup_alter_eq, Eh by done. rewrite lookup_alter_ne, Et by done. done. }
  assert (h2 !! z = h !! z ∧ h2 !! x = h !! x) as [E5 E6] by (unfold h2; by rewrite !lookup_alter_ne by auto).
  rewrite Ez in E5. rewrite Ex in E6. run_st ltac:(exact Hsw).
  run_st ltac:(eapply get_next_ok; eauto). run_st ltac:(eapply get_prev_ok; eauto). simpl.
  unfold swap. simpl. run_st ltac:(eapply get_prev_ok; eauto). run_st ltac:(eapply get_next_ok; eauto). simpl.
  run_st ltac:(apply set_prev_ok; eauto). apply set_next_ok; eauto with pintos.
Qed.

Lemma swap_ends_seg xs R R' :
  xs = z :: R → xs = R' ++ [x] → NoDup xs → l ∉ xs → tail_of l ∉ xs → seg h (tail_of l) xs l →
  seg (swap_ends l x z h) NULL (nodes l xs) NULL.
Proof.
  intros HR HR' Hnd Hlxs Htxs Hs.
  assert (z ∉ R) by (rewrite HR, NoDup_cons in Hnd; tauto).
  assert (x ∉ R') by (rewrite HR', NoDup_app in Hnd; intros Hin; destruct Hnd as (_ & Hd & _); apply (Hd x Hin); left).
  unfold nodes, swap_ends. change (head_of l :: ?r) with ([l] ++ r). rewrite !seg_app. simpl. split_and!.
  - rewrite !lookup_alter_ne by auto. rewrite lookup_alter_eq, Eh, HR. done.
  - done.
  - rewrite HR'. eapply seg_next_last; [done|]. rewrite <- HR', HR. eapply seg_prev_head; [done|].
    rewrite <- HR. by rewrite !seg_alter_ne.
  - rewrite HR', lastz_snoc, !lookup_alter_ne by auto. rewrite lookup_alter_eq, lookup_alter_ne, Et by done. done.
  - done.
Qed.
End ends.

(** The cells of a list that is not empty are apart from its ends. *)
Lemma dlist_apart h l xs :
  dlist h l xs → l ≠ NULL ∧ tail_of l ≠ NULL ∧ l ≠ tail_of l ∧ NoDup xs ∧ NULL ∉ xs ∧ l ∉ xs ∧ tail_of l ∉ xs ∧
  seg h l xs (tail_of l).
Proof.
  intros H. pose proof (dlist_not_null _ _ _ H). pose proof (nodes_not_null _ _ _ H).
  pose proof (dlist_tail_not_in _ _ _ H).
  assert (tail_of l ≠ NULL) by (apply (dlist_hd_not_null h l xs []); by rewrite app_nil_r).
  destruct H as (Hnd & _ & Hs). unfold nodes in Hnd, Hs. apply NoDup_cons in Hnd as [Hlx Hnd].
  apply NoDup_app in Hnd as (Hnd & _ & _). change (head_of l) with l in *.
  apply (seg_app h NULL [l]) in Hs as [_ Hs]. apply seg_app in Hs as [Hs _].
  split_and!; try done; intros Hin; apply Hlx; rewrite elem_of_app, list_elem_of_singleton; tauto.
Qed.

Lemma list_reverse_ok h l xs :
  dlist h l xs →
  ∃ h', list_reverse l h = Ok ((), h') ∧ dlist h' l (reverse xs) ∧ agree_off (nodes l xs) h h'.
Proof.
  intros H. unfold list_reverse. run_st ltac:(by eapply list_empty_ok).
  destruct xs as [|x xs]; [by exists h|]. rewrite bool_decide_false by done.
  destruct (lastz_cons x xs) as [xs2 Hxs]. set (z := lastz x xs) in *.
  pose proof (dlist_head _ _ _ H) as Eh. pose proof (dlist_tail _ _ _ H) as Et.
  destruct (dlist_apart _ _ _ H) as (Hl & Htn & Hlt & Hnd & Hn & Hlx & Htx & Hs).
  assert (x ∈ x :: xs ∧ z ∈ x :: xs) as [Hx Hz] by (split; [left|rewrite Hxs; elem_simpl; tauto]).
  run_st ltac:(by eapply list_begin_ok). rewrite run_cells.
  run_st ltac:(eapply list_reverse_loop_ok; eauto using dlist_len_fuel).
  pose proof (swap_all_seg _ _ _ _ Hnd Hs) as Hr. set (h1 := swap_all (x :: xs) h) in *.
  assert (h1 !! l = h !! l ∧ h1 !! tail_of l = h !! tail_of l) as [E1 E2] by (split; by apply swap_all_lookup).
  change (head_of l) with l in Eh. rewrite Eh in E1. rewrite Et in E2. simpl in E1, E2. fold z in E2.
  assert (reverse (x :: xs) = z :: reverse xs2) as HR by (by rewrite Hxs, reverse_app).
  assert (reverse (x :: xs) = reverse xs ++ [x]) as HR' by (by rewrite reverse_cons).
  assert (∃ nz, h1 !! z = Some (ListElem (tail_of l) nz)) as [nz Ez] by (rewrite HR in Hr; destruct Hr; eauto).
  assert (∃ px, h1 !! x = Some (ListElem px l)) as [px Ex].
  { rewrite HR' in Hr. apply seg_app in Hr as [_ [Hr _]]. eauto. }
  assert (∀ y w, y ∈ x :: xs → w ∉ x :: xs → w ≠ y) as Hne by (intros y w ?? ->; done).
  exists (swap_ends l x z h1). split_and!.
  - eapply swap_ends_run; eauto using (not_eq_sym (A:=Z)); intros E; rewrite E in *; done.
  - destruct H as (Hd1 & Hd2 & _). split; [|split]; [unfold nodes in *; by rewrite (reverse_Permutation (x :: xs))..|].
    eapply swap_ends_seg; eauto; rewrite ?elem_of_reverse; try done. by rewrite (reverse_Permutation (x :: xs)).
  - unfold swap_ends. repeat (apply agree_off_alter; [unfold nodes, head_of; elem_simpl; rewrite elem_of_cons in *; tauto|]).
    split; [apply swap_all_dom|]. intros q Hq. apply swap_all_lookup. intros Hin. apply Hq.
    unfold nodes. elem_simpl. rewrite elem_of_cons in Hin. tauto.
Qed.
End reversal.

(** ** Two lists in one store *)
Section unique.
Implicit Types (h : heap) (l x y d e : Z) (xs ys ds : list Z).
Context (less : Z → Z → bool).

Definition disjoint_nodes l xs d ds : Prop := ∀ q, q ∈ nodes l xs → q ∉ nodes d ds.

(** What list_unique keeps of its DUPLICATES argument, which may be NULL. *)
Definition dup_list h l xs d ds : Prop :=
  d = NULL ∨ (d ≠ NULL ∧ dlist h d ds ∧ disjoint_nodes l xs d ds).

(** Moving an element from one list to the other. *)
Lemma move_dup_ok h l xs y ys d ds :
  dlist h l (xs ++ y :: ys) → dup_list h l (xs ++ y :: ys) d ds →
  ∃ h1 h2 n, list_remove y h = Ok (n, h1) ∧
    (if decide (d = NULL) then mret () else list_push_back d y) h1 = Ok ((), h2) ∧
    dlist h2 l (xs ++ ys) ∧ dup_list h2 l (xs ++ ys) d (ds ++ [y]) ∧ size h2 = size h ∧
    (d = NULL → agree_off (nodes l (xs ++ ys)) h h2) ∧
    (d ≠ NULL → agree_off (nodes l (xs ++ y :: ys) ++ nodes d ds) h h2).
Proof.
  intros H Hd. destruct (list_remove_ok _ _ _ _ _ H) as (h1 & Hr & Hd1 & Ha1).
  destruct (dlist_interior _ _ _ _ _ H) as [Ey Hyn].
  assert (∀ q, q ∈ nodes l (xs ++ y :: ys) ↔ q = y ∨ q ∈ nodes l (xs ++ ys)) as Hnodes.
  { intros q. unfold nodes. elem_simpl. tauto. }
  assert (y ∉ nodes l (xs ++ ys)) as Hy.
  { destruct H as (Hnd & _). change (y :: ys) with ([y] ++ ys) in Hnd.
    rewrite nodes_app, <- app_assoc in Hnd. apply nodup_mid in Hnd as (_ & Hnd & _).
    rewrite nodes_app. apply Hnd. left. }
  destruct Hd as [->|(Hn & Hdd & Hdis)].
  - exists h1, h1, (hdz (tail_of l) ys). rewrite decide_True by done. split_and!; try done.
    + by left.
    + by eapply agree_off_size.
  - assert (dlist h1 d ds) as Hdd1.
    { eapply dlist_frame; [exact Ha1| |done]. intros q Hq Hq'. eapply Hdis; [|exact Hq].
      apply Hnodes. by right. }
    destruct (list_push_back_ok h1 d ds y) as (h2 & Hp & Hd2 & Ha2); [done|done| | |].
    { apply Hdis, Hnodes. by left. }
    { eapply agree_off_some; [exact Ha1|]. rewrite Ey. eauto. }
    exists h1, h2, (hdz (tail_of l) ys). rewrite decide_False by done. split_and!; try done.
    + eapply dlist_frame; [exact Ha2| |done]. intros q Hq [->|Hq']%elem_of_cons; [done|].
      eapply Hdis; [|exact Hq']. apply Hnodes. by right.
    + right. split_and!; [done..|]. intros q Hq. unfold nodes.
      assert (q ∉ nodes d ds) as Hq' by (apply Hdis, Hnodes; by right). unfold nodes in Hq'.
      assert (q ≠ y) by (intros ->; done). revert Hq'. elem_simpl. tauto.
    + rewrite (agree_off_size _ _ _ Ha2). by eapply agree_off_size.
    + intros _. eapply agree_off_trans.
      * eapply agree_off_mono; [|exact Ha1]. intros q Hq. apply elem_of_app. left. apply Hnodes. by right.
      * eapply agree_off_mono; [|exact Ha2]. intros q [->|Hq]%elem_of_cons; apply elem_of_app; [left; apply Hnodes; by left|by right].
Qed.

Lemma list_unique_loop_ok fuel h l xs e ys d ds k dups :
  dlist h l (xs ++ e :: ys) → dup_list h l (xs ++ e :: ys) d ds → (length ys < fuel)%nat →
  unique_after less e ys = (k, dups) →
  ∃ h', list_unique_loop less fuel l d e h = Ok ((), h') ∧
    dlist h' l (xs ++ k) ∧ dup_list h' l (xs ++ k) d (ds ++ dups).
Proof.
  revert h xs e ys ds k dups. induction fuel as [|fuel IH]; intros h xs e ys ds k dups H Hd Hf Hu; [lia|].
  simpl. run_st ltac:(by eapply list_next_ok). run_st ltac:(by eapply list_end_dlist).
  destruct ys as [|y ys]; simpl in Hu, Hf |- *.
  { simplify_eq. rewrite decide_True by done. exists h. by rewrite app_nil_r. }
  assert (dlist h l ((xs ++ [e]) ++ y :: ys)) as H' by (by rewrite <- app_assoc).
  rewrite decide_False by (by eapply dlist_hd_ne).
  destruct (negb (less e y) && negb (less y e)).
  - destruct (unique_after less e ys) as [k0 d0] eqn:Eu. simplify_eq.
    destruct (move_dup_ok h l (xs ++ [e]) y ys d ds) as (h1 & h2 & n & Hr & Hp & Hd2 & Hdup & _ & _); [done|by rewrite <- app_assoc|].
    run_st ltac:(exact Hr). run_st ltac:(exact Hp). rewrite <- app_assoc in Hd2, Hdup.
    destruct (IH h2 xs e ys (ds ++ [y]) k d0) as (h' & ? & ? & Hdd); [done|done|lia|done|].
    exists h'. rewrite <- app_assoc in Hdd. done.
  - destruct (unique_after less y ys) as [k0 d0] eqn:Eu. simplify_eq.
    destruct (IH h (xs ++ [e]) y ys ds k0 dups) as (h' & ? & Hd1 & Hd2); [done|by rewrite <- app_assoc|lia|done|].
    exists h'. rewrite <- app_assoc in Hd1, Hd2. done.
Qed.

Lemma list_unique_ok h l xs d ds k dups :
  dlist h l xs → dup_list h l xs d ds → unique less xs = (k, dups) →
  ∃ h', list_unique less l d h = Ok ((), h') ∧ dlist h' l k ∧ dup_list h' l k d (ds ++ dups).
Proof.
  intros H Hd Hu. unfold list_unique.
  run_st ltac:(eapply assert_ok, bool_decide_true, dlist_not_null; eauto).
  run_st ltac:(by eapply list_empty_ok). destruct xs as [|x xs]; simpl in Hu.
  { simplify_eq. exists h. by rewrite app_nil_r. }
  rewrite bool_decide_false by done. run_st ltac:(by eapply list_begin_ok). rewrite run_cells.
  apply (list_unique_loop_ok _ h l [] x xs d ds k dups); [done|done| |done].
  apply dlist_len_fuel in H. simpl in H. lia.
Qed.
End unique.
