(* ===== verification/ListTheorems.v ===== *)
(** * Properties of lib/kernel/list.c

    The pointer routines of KList on well-formed lists, with a store of eight
    cells on which they run. *)

From S2P Require Import Prelude ListSpec KList.

Local Open Scope Z_scope.

(** ** Deciding well-formedness *)

#[export] Instance list_elem_eq_dec : EqDecision list_elem.
Proof. solve_decision. Defined.

#[export] Instance seg_dec h p xs n : Decision (seg h p xs n).
Proof. revert p. induction xs as [|x xs IH]; intros p; simpl; apply _. Defined.

#[export] Instance dlist_dec h l xs : Decision (dlist h l xs).
Proof. unfold dlist. apply _. Defined.

(** ** A store *)

(** The list at 100 holds 30, 10, 20; the one at 200 is empty; 40 is in
    neither. *)
Definition demo : heap :=
  let h : heap := list_to_map ((λ p, (p, ListElem 0 0)) <$> [100; 108; 200; 208; 10; 20; 30; 40]) in
  match (list_init 100;; list_init 200;; list_push_back 100 30;; list_push_back 100 10;; list_push_back 100 20) h with
  | Ok (_, h') => h' | Err _ => h
  end.

Definition by_address (x y : Z) : bool := bool_decide (x < y).

#[export] Instance by_address_sw : StrictWeak by_address.
Proof. split; unfold by_address; intros; repeat case_bool_decide; done || lia. Qed.

Lemma demo_ok : dlist demo 100 [30; 10; 20].
Proof. compute_hyp. Qed.

(** ** Theorems *)

(** C3: list_sort returns, for every list and every strict weak order; the
    list then holds the same elements in order, those that compare equal in
    the order they had, and no cell outside the list is written. *)
Theorem list_sort_sorts less h l xs `{!StrictWeak less} :
  dlist h l xs → Z.of_nat (length xs) < 2^32 →
  ∃ h' out, list_sort less l h = Ok ((), h') ∧ dlist h' l out ∧ agree_off (nodes l xs) h h' ∧
    StronglySorted (le_of less) out ∧ out ≡ₚ xs ∧ ∀ x, filter (same_rank less x) out = filter (same_rank less x) xs.
Proof.
  intros H Hn. destruct (list_sort_ok less h l xs H Hn) as (h' & out & ? & ? & ? & Hs & ? & ?).
  exists h', out. split_and!; try done. apply Sorted_StronglySorted; [apply _|done].
Qed.

Lemma list_sort_sorts_witness :
  ∃ h' out, list_sort by_address 100 demo = Ok ((), h') ∧ dlist h' 100 out ∧ out ≡ₚ [30; 10; 20].
Proof.
  destruct (list_sort_sorts by_address demo 100 [30; 10; 20] demo_ok) as (h' & out & E & Hd & _ & _ & Hp & _); [vm_compute; reflexivity|].
  exists h', out. split_and!; [exact E|exact Hd|exact Hp].
Defined.

(** List_insert_ordered into an ordered list keeps it ordered: the
    element goes after every one it is not less than and before the others,
    and only the list's cells and the element are written. *)
Theorem list_insert_ordered_inserts less h l xs x `{!StrictWeak less} :
  dlist h l xs → StronglySorted (le_of less) xs → x ≠ NULL → x ∉ nodes l xs → is_Some (h !! x) →
  ∃ h' us vs, list_insert_ordered less l x h = Ok ((), h') ∧ xs = us ++ vs ∧ dlist h' l (us ++ x :: vs) ∧
    StronglySorted (le_of less) (us ++ x :: vs) ∧ Forall (λ y, less x y = false) us ∧
    Forall (λ y, less x y = true) vs ∧ agree_off (x :: nodes l xs) h h'.
Proof.
  intros H Hs Hx Hin Hm. destruct (list_insert_ordered_ok less h l xs x H Hx Hin Hm) as (h' & E & Hd & Ha).
  destruct (insert_ordered_split less x xs) as (us & vs & -> & Ei & Hus & Hvs). rewrite Ei in Hd.
  exists h', us, vs. split_and!; try done.
  - rewrite <- Ei. apply Sorted_StronglySorted; [apply _|]. apply insert_ordered_sorted; [done|].
    by apply StronglySorted_Sorted.
  - destruct vs as [|y vs]; [done|]. pose proof (Hvs y vs eq_refl) as Hy.
    apply StronglySorted_app_1_r in Hs. apply StronglySorted_inv in Hs as [_ Hs]. constructor; [done|].
    eapply Forall_impl; [exact Hs|]. intros w Hw. destruct (less x w) eqn:Ew; [done|]. exfalso.
    unfold le_of in Hw. assert (less x y = false) by (by apply (sw_trans y w x)). congruence.
Qed.

Lemma list_insert_ordered_inserts_witness :
  ∃ h' us vs, list_insert_ordered by_address 200 40 demo = Ok ((), h') ∧ dlist h' 200 (us ++ 40 :: vs).
Proof.
  destruct (list_insert_ordered_inserts by_address demo 200 [] 40) as (h' & us & vs & E & _ & Hd & _).
  - compute_hyp.
  - constructor.
  - discriminate.
  - compute_hyp.
  - compute_hyp.
  - exists h', us, vs. split; [exact E|exact Hd].
Defined.

(** List_splice moves a block of elements, kept in order, in front of any
    element of the rest of its list or to its end. *)
Theorem list_splice_moves h l xs f F ys us vs :
  dlist h l (xs ++ (f :: F) ++ ys) → xs ++ ys = us ++ vs →
  ∃ h', list_splice (hdz (tail_of l) vs) f (hdz (tail_of l) ys) h = Ok ((), h') ∧
    dlist h' l (us ++ (f :: F) ++ vs) ∧ agree_off (nodes l (xs ++ (f :: F) ++ ys)) h h'.
Proof. intros H Huv. by eapply list_splice_ok. Qed.

Lemma list_splice_moves_witness :
  ∃ h', list_splice 30 10 108 demo = Ok ((), h') ∧ dlist h' 100 [10; 20; 30].
Proof.
  destruct (list_splice_moves demo 100 [30] 10 [20] [] [] [30] demo_ok eq_refl) as (h' & E & Hd & _).
  exists h'. split; [exact E|exact Hd].
Defined.

(** An element put into a list with list_insert and taken out again with
    list_remove leaves the list as it was; list_remove returns the element
    after it. *)
Theorem list_insert_remove h l xs ys x :
  dlist h l (xs ++ ys) → x ≠ NULL → x ∉ nodes l (xs ++ ys) → is_Some (h !! x) →
  ∃ h1 h2, list_insert (hdz (tail_of l) ys) x h = Ok ((), h1) ∧ dlist h1 l (xs ++ x :: ys) ∧
    list_remove x h1 = Ok (hdz (tail_of l) ys, h2) ∧ dlist h2 l (xs ++ ys) ∧
    agree_off (x :: nodes l (xs ++ ys)) h h2.
Proof.
  intros H Hx Hin Hm. destruct (list_insert_ok h l xs ys x H Hx Hin Hm) as (h1 & E1 & Hd1 & Ha1).
  destruct (list_remove_ok h1 l xs x ys Hd1) as (h2 & E2 & Hd2 & Ha2). exists h1, h2. split_and!; try done.
  eapply agree_off_trans; [exact Ha1|]. eapply agree_off_mono; [|exact Ha2]. intros q Hq. by right.
Qed.

Lemma list_insert_remove_witness :
  ∃ h1 h2, list_insert 10 40 demo = Ok ((), h1) ∧ list_remove 40 h1 = Ok (10, h2) ∧ dlist h2 100 [30; 10; 20].
Proof.
  destruct (list_insert_remove demo 100 [30] [10; 20] 40 demo_ok) as (h1 & h2 & E1 & _ & E2 & Hd & _).
  - discriminate.
  - compute_hyp.
  - compute_hyp.
  - exists h1, h2. split_and!; [exact E1|exact E2|exact Hd].
Defined.

(** List_reverse turns the sequence around. *)
Theorem list_reverse_reverses h l xs :
  dlist h l xs →
  ∃ h', list_reverse l h = Ok ((), h') ∧ dlist h' l (reverse xs) ∧ agree_off (nodes l xs) h h'.
Proof. apply list_reverse_ok. Qed.

Lemma list_reverse_reverses_witness :
  ∃ h', list_reverse 100 demo = Ok ((), h') ∧ dlist h' 100 [20; 10; 30].
Proof.
  destruct (list_reverse_reverses demo 100 [30; 10; 20] demo_ok) as (h' & E & Hd & _).
  exists h'. split; [exact E|exact Hd].
Defined.

(** List_unique keeps the first of every group of adjacent elements that
    compare equal and moves the others, in order, to the end of the list of
    duplicates if there is one. *)
Theorem list_unique_splits less h l xs d ds k dups :
  dlist h l xs → dup_list h l xs d ds → unique less xs = (k, dups) →
  ∃ h', list_unique less l d h = Ok ((), h') ∧ dlist h' l k ∧ dup_list h' l k d (ds ++ dups).
Proof. apply list_unique_ok. Qed.

(** Elements below 25 compare equal. *)
Definition by_quarter (x y : Z) : bool := bool_decide (x / 25 < y / 25).

Lemma list_unique_splits_witness :
  ∃ h', list_unique by_quarter 100 200 demo = Ok ((), h') ∧ dlist h' 100 [30; 10].
Proof.
  destruct (list_unique_splits by_quarter demo 100 [30; 10; 20] 200 [] [30; 10] [20] demo_ok) as (h' & E & Hd & _).
  - right. split_and!; [discriminate|compute_hyp|].
    intros q Hq. apply (proj1 (Forall_forall (λ q, q ∉ nodes 200 []) (nodes 100 [30; 10; 20]))); [|exact Hq].
    compute_hyp.
  - vm_compute. reflexivity.
  - exists h'. split; [exact E|exact Hd].
Defined.
