(* ===== verification/Bitmap.v ===== *)
(** * lib/kernel/bitmap.c: bitmaps

    A bitmap is an array of 32-bit elements ([elem_type] is [unsigned long] on
    i386) and a bit count, as in the source; [size_t] arithmetic is modulo
    2^32.  The theorems give each routine in terms of the bits [bit_at]. *)

From S2P Require Import Prelude.

Local Open Scope Z_scope.

Definition ELEM_BITS : Z := 32.
(** [SIZE_MAX]. *)
Definition BITMAP_ERROR : Z := 2^32 - 1.

Record bitmap := Bitmap { bit_cnt : Z; bits : list Z }.

(** [DIV_ROUND_UP] and [ROUND_UP] of lib/round.h on [size_t]. *)
Definition DIV_ROUND_UP (x step : Z) : Z := u32 (u32 (x + step) - 1) / step.
Definition ROUND_UP (x step : Z) : Z := u32 (u32 (u32 (x + step) - 1) / step * step).

Definition elem_idx (bit_idx : Z) : Z := bit_idx / ELEM_BITS.
Definition bit_mask (bit_idx : Z) : Z := u32 (Z.shiftl 1 (bit_idx `mod` ELEM_BITS)).
Definition elem_cnt (n : Z) : Z := DIV_ROUND_UP n ELEM_BITS.
Definition byte_cnt (n : Z) : Z := u32 (4 * elem_cnt n).
Definition last_mask (b : bitmap) : Z :=
  let last_bits := bit_cnt b `mod` ELEM_BITS in
  if decide (last_bits ≠ 0) then u32 (u32 (Z.shiftl 1 last_bits) - 1) else u32 (-1).

(** [b->bits[idx]] read and written. *)
Definition get_elem (b : bitmap) (idx : Z) : res Z :=
  match bits b !! Z.to_nat idx with Some w => Ok w | None => Err EFault end.
Definition set_elem (b : bitmap) (idx w : Z) : bitmap :=
  Bitmap (bit_cnt b) (<[Z.to_nat idx := w]> (bits b)).

Definition assert (c : bool) : res () := if c then Ok () else Err EPanic.

Definition bitmap_size (b : bitmap) : Z := bit_cnt b.

(** ** Single bits *)

Definition bitmap_mark (b : bitmap) (bit_idx : Z) : res bitmap :=
  let idx := elem_idx bit_idx in
  let mask := bit_mask bit_idx in
  w ← get_elem b idx; mret (set_elem b idx (Z.lor w mask)).

Definition bitmap_reset (b : bitmap) (bit_idx : Z) : res bitmap :=
  let idx := elem_idx bit_idx in
  let mask := bit_mask bit_idx in
  w ← get_elem b idx; mret (set_elem b idx (Z.land w (u32 (Z.lnot mask)))).

Definition bitmap_flip (b : bitmap) (bit_idx : Z) : res bitmap :=
  let idx := elem_idx bit_idx in
  let mask := bit_mask bit_idx in
  w ← get_elem b idx; mret (set_elem b idx (Z.lxor w mask)).

Definition bitmap_set (b : bitmap) (idx : Z) (value : bool) : res bitmap :=
  _ ← assert (bool_decide (idx < bit_cnt b));
  if value then bitmap_mark b idx else bitmap_reset b idx.

Definition bitmap_test (b : bitmap) (idx : Z) : res bool :=
  _ ← assert (bool_decide (idx < bit_cnt b));
  w ← get_elem b (elem_idx idx); mret (bool_decide (Z.land w (bit_mask idx) ≠ 0)).

(** ** Several bits *)

(** [for (i = 0; i < cnt; i++)], [n] iterations left. *)
Fixpoint set_loop (n : nat) (b : bitmap) (start i : Z) (value : bool) : res bitmap :=
  match n with
  | O => mret b
  | S n => b' ← bitmap_set b (u32 (start + i)) value; set_loop n b' start (i + 1) value
  end.

Definition bitmap_set_multiple (b : bitmap) (start cnt : Z) (value : bool) : res bitmap :=
  _ ← assert (bool_decide (start ≤ bit_cnt b));
  _ ← assert (bool_decide (u32 (start + cnt) ≤ bit_cnt b));
  set_loop (Z.to_nat cnt) b start 0 value.

Definition bitmap_set_all (b : bitmap) (value : bool) : res bitmap :=
  bitmap_set_multiple b 0 (bitmap_size b) value.

Fixpoint count_loop (n : nat) (b : bitmap) (start i : Z) (value : bool) (value_cnt : Z) : res Z :=
  match n with
  | O => mret value_cnt
  | S n =>
      t ← bitmap_test b (u32 (start + i));
      count_loop n b start (i + 1) value (if Bool.eqb t value then value_cnt + 1 else value_cnt)
  end.

Definition bitmap_count (b : bitmap) (start cnt : Z) (value : bool) : res Z :=
  _ ← assert (bool_decide (start ≤ bit_cnt b));
  _ ← assert (bool_decide (u32 (start + cnt) ≤ bit_cnt b));
  count_loop (Z.to_nat cnt) b start 0 value 0.

Fixpoint contains_loop (n : nat) (b : bitmap) (start i : Z) (value : bool) : res bool :=
  match n with
  | O => mret false
  | S n =>
      t ← bitmap_test b (u32 (start + i));
      if Bool.eqb t value then mret true else contains_loop n b start (i + 1) value
  end.

Definition bitmap_contains (b : bitmap) (start cnt : Z) (value : bool) : res bool :=
  _ ← assert (bool_decide (start ≤ bit_cnt b));
  _ ← assert (bool_decide (u32 (start + cnt) ≤ bit_cnt b));
  contains_loop (Z.to_nat cnt) b start 0 value.

Definition bitmap_any (b : bitmap) (start cnt : Z) : res bool := bitmap_contains b start cnt true.
Definition bitmap_none (b : bitmap) (start cnt : Z) : res bool :=
  c ← bitmap_contains b start cnt true; mret (negb c).
Definition bitmap_all (b : bitmap) (start cnt : Z) : res bool :=
  c ← bitmap_contains b start cnt false; mret (negb c).

(** ** Searching *)

(** [for (i = start; i <= last; i++)], [n] iterations left. *)
Fixpoint scan_loop (n : nat) (b : bitmap) (i cnt : Z) (value : bool) : res Z :=
  match n with
  | O => mret BITMAP_ERROR
  | S n =>
      c ← bitmap_contains b i cnt (negb value);
      if (negb c : bool) then mret i else scan_loop n b (i + 1) cnt value
  end.

Definition bitmap_scan (b : bitmap) (start cnt : Z) (value : bool) : res Z :=
  _ ← assert (bool_decide (start ≤ bit_cnt b));
  if decide (cnt ≤ bit_cnt b) then
    let last := bit_cnt b - cnt in
    scan_loop (Z.to_nat (last - start + 1)) b start cnt value
  else mret BITMAP_ERROR.

Definition bitmap_scan_and_flip (b : bitmap) (start cnt : Z) (value : bool) : res (Z * bitmap) :=
  idx ← bitmap_scan b start cnt value;
  if decide (idx ≠ BITMAP_ERROR) then
    b' ← bitmap_set_multiple b idx cnt (negb value); mret (idx, b')
  else mret (idx, b).

(** ** Creation *)

(** The two calls of [malloc] are [malloc_b] (whether the descriptor was
    allocated) and [malloc_bits] (the elements of the block, if allocated). *)
Definition bitmap_create (malloc_b : bool) (malloc_bits : option (list Z)) (n : Z)
  : res (option bitmap) :=
  if malloc_b then
    match malloc_bits with
    | Some ws => b ← bitmap_set_all (Bitmap n ws) false; mret (Some b)
    | None => if decide (n = 0) then b ← bitmap_set_all (Bitmap n []) false; mret (Some b)
              else mret None
    end
  else mret None.

Definition bitmap_buf_size (n : Z) : Z := u32 (8 + byte_cnt n).

(** [block] is the buffer after the 8-byte descriptor. *)
Definition bitmap_create_in_buf (n : Z) (block : list Z) (block_size : Z) : res bitmap :=
  _ ← assert (bool_decide (bitmap_buf_size n ≤ block_size));
  bitmap_set_all (Bitmap n block) false.

(** ** Bytes of a bitmap in a file (bitmap_read and bitmap_write) *)

Definition bitmap_file_size (b : bitmap) : Z := byte_cnt (bit_cnt b).

Fixpoint le_bytes (n : nat) (w : Z) : list Z :=
  match n with O => [] | S n => w `mod` 256 :: le_bytes n (w / 256) end.
Fixpoint le_word (bs : list Z) : Z :=
  match bs with [] => 0 | b :: bs => b + 256 * le_word bs end.

Definition elems_to_bytes (ws : list Z) : list Z := ws ≫= le_bytes 4.
Fixpoint bytes_to_elems (n : nat) (bs : list Z) : list Z :=
  match n with
  | O => []
  | S n => le_word (take 4 bs) :: bytes_to_elems n (drop 4 bs)
  end.

(** The last assignment of bitmap_read: bits past the end are cleared. *)
Definition mask_last (b : bitmap) : res bitmap :=
  let idx := elem_cnt (bit_cnt b) - 1 in
  w ← get_elem b idx; mret (set_elem b idx (Z.land w (last_mask b))).

(** ** Bits and well-formedness *)

Definition bit_at (b : bitmap) (i : Z) : bool :=
  match bits b !! Z.to_nat (elem_idx i) with
  | Some w => Z.testbit w (i `mod` ELEM_BITS)
  | None => false
  end.

Record wf (b : bitmap) : Prop := {
  wf_cnt : 0 ≤ bit_cnt b ≤ 2^32 - 32;
  wf_len : elem_cnt (bit_cnt b) ≤ Z.of_nat (length (bits b));
  wf_elems : Forall in_u32 (bits b);
}.

(** ** Bits of words *)
Section words.

Lemma testbit_pow2 k j : 0 ≤ k → Z.testbit (Z.shiftl 1 k) j = bool_decide (j = k).
Proof.
  intros. rewrite Z.shiftl_1_l, Z.pow2_bits_eqb by lia.
  case_bool_decide; [by apply Z.eqb_eq|apply Z.eqb_neq; lia].
Qed.

Lemma land_pow2_zero w k : 0 ≤ k → Z.land w (Z.shiftl 1 k) = 0 ↔ Z.testbit w k = false.
Proof.
  intros Hk. split; intros H.
  - apply (f_equal (λ x, Z.testbit x k)) in H.
    by rewrite Z.land_spec, testbit_pow2, bool_decide_true, Z.bits_0, andb_true_r in H.
  - apply Z.bits_inj'. intros j Hj. rewrite Z.bits_0, Z.land_spec, testbit_pow2 by lia.
    case_bool_decide as E; [by rewrite E, H|apply andb_false_r].
Qed.

Lemma u32_testbit x j : 0 ≤ j < 32 → Z.testbit (u32 x) j = Z.testbit x j.
Proof. intros. unfold u32. by rewrite Z.mod_pow2_bits_low by lia. Qed.

Lemma u32_bound x : 0 ≤ x → (∀ j, 32 ≤ j → Z.testbit x j = false) → in_u32 x.
Proof.
  intros Hx H. unfold in_u32. split; [done|]. destruct (decide (x = 0)) as [->|]; [lia|].
  apply Z.log2_lt_pow2; [lia|]. destruct (decide (Z.log2 x < 32)); [done|].
  specialize (H (Z.log2 x) ltac:(lia)). rewrite Z.bit_log2 in H by lia. done.
Qed.

Lemma u32_high x j : in_u32 x → 32 ≤ j → Z.testbit x j = false.
Proof.
  intros H ?. rewrite <- (u32_id x H). unfold u32. apply Z.mod_pow2_bits_high. lia.
Qed.

Lemma bit_mask_eq i : bit_mask i = Z.shiftl 1 (i `mod` ELEM_BITS).
Proof.
  unfold bit_mask, ELEM_BITS. apply u32_id. pose proof (Z.mod_pos_bound i 32 ltac:(lia)).
  unfold in_u32. rewrite Z.shiftl_1_l. split; [apply Z.pow_nonneg; lia|]. apply Z.pow_lt_mono_r; lia.
Qed.

Lemma in_u32_lor x y : in_u32 x → in_u32 y → in_u32 (Z.lor x y).
Proof.
  intros Hx Hy. apply u32_bound; [apply Z.lor_nonneg; unfold in_u32 in *; lia|].
  intros j Hj. by rewrite Z.lor_spec, !u32_high.
Qed.
Lemma in_u32_land x y : in_u32 x → in_u32 (Z.land x y).
Proof.
  intros Hx. apply u32_bound; [apply Z.land_nonneg; unfold in_u32 in *; lia|].
  intros j Hj. by rewrite Z.land_spec, u32_high.
Qed.
Lemma in_u32_lxor x y : in_u32 x → in_u32 y → in_u32 (Z.lxor x y).
Proof.
  intros Hx Hy. apply u32_bound; [apply Z.lxor_nonneg; unfold in_u32 in *; lia|].
  intros j Hj. by rewrite Z.lxor_spec, !u32_high.
Qed.
End words.

(** ** Single bits *)
Section single.
Implicit Types (b : bitmap) (i j : Z).

Lemma elem_cnt_eq n : 0 ≤ n ≤ 2^32 - 32 → elem_cnt n = (n + 31) / 32.
Proof.
  intros. unfold elem_cnt, DIV_ROUND_UP, ELEM_BITS.
  change (u32 (n + 32) - 1) with (u32 (n + 32) + -1). rewrite u32_add_l, u32_id by (unfold in_u32; lia).
  f_equal. lia.
Qed.

(** The element of a bit in range exists. *)
Lemma get_elem_ok b i : wf b → 0 ≤ i < bit_cnt b →
  ∃ w, bits b !! Z.to_nat (elem_idx i) = Some w ∧ get_elem b (elem_idx i) = Ok w ∧ in_u32 w.
Proof.
  intros [Hc Hl He] Hi. assert (0 ≤ elem_idx i < Z.of_nat (length (bits b))).
  { rewrite elem_cnt_eq in Hl by lia. unfold elem_idx, ELEM_BITS in *. dlia. }
  destruct (lookup_lt_is_Some_2 (bits b) (Z.to_nat (elem_idx i))) as [w Hw]; [lia|].
  exists w. unfold get_elem. rewrite Hw. split_and!; [done..|]. by eapply Forall_lookup_1.
Qed.

Lemma bit_at_set_elem b i w j :
  0 ≤ i → 0 ≤ j → is_Some (bits b !! Z.to_nat (elem_idx i)) →
  bit_at (set_elem b (elem_idx i) w) j =
    if decide (elem_idx j = elem_idx i) then Z.testbit w (j `mod` ELEM_BITS) else bit_at b j.
Proof.
  intros Hi Hj Hs. unfold bit_at, set_elem. simpl. case_decide as E.
  - rewrite E, list_lookup_insert_eq; [done|]. by apply lookup_lt_is_Some.
  - rewrite list_lookup_insert_ne; [done|]. intros E'. apply E.
    assert (0 ≤ elem_idx i) by (unfold elem_idx, ELEM_BITS; dlia).
    assert (0 ≤ elem_idx j) by (unfold elem_idx, ELEM_BITS; dlia). lia.
Qed.

Lemma wf_set_elem b idx w : wf b → in_u32 w → wf (set_elem b idx w).
Proof.
  intros [Hc Hl He] Hw. split; simpl; [done|by rewrite length_insert|].
  by apply Forall_insert.
Qed.

Lemma same_bit i j : elem_idx j = elem_idx i → j `mod` ELEM_BITS = i `mod` ELEM_BITS → j = i.
Proof. unfold elem_idx, ELEM_BITS in *. dlia. Qed.

(** [bitmap_mark], [bitmap_reset] and [bitmap_flip] change one bit. *)
Lemma bitmap_mark_ok b i :
  wf b → 0 ≤ i < bit_cnt b →
  ∃ b', bitmap_mark b i = Ok b' ∧ wf b' ∧ bit_cnt b' = bit_cnt b ∧
    ∀ j, 0 ≤ j → bit_at b' j = if decide (j = i) then true else bit_at b j.
Proof.
  intros Hwf Hi. destruct (get_elem_ok b i Hwf Hi) as (w & Hl & Hg & Hw).
  unfold bitmap_mark. rewrite Hg. simpl. eexists. split_and!; [done| |done|].
  - apply wf_set_elem; [done|]. apply in_u32_lor; [done|apply u32_range].
  - intros j Hj. rewrite bit_at_set_elem by (eauto || lia). rewrite bit_mask_eq.
    pose proof (Z.mod_pos_bound i ELEM_BITS ltac:(done)). case_decide as E.
    + rewrite Z.lor_spec, testbit_pow2 by lia. case_bool_decide as E2.
      * rewrite (same_bit i j) by done. by rewrite decide_True, orb_true_r.
      * rewrite decide_False by (intros ->; done). rewrite orb_false_r. unfold bit_at. by rewrite E, Hl.
    + by rewrite decide_False by (intros ->; done).
Qed.

Lemma bitmap_reset_ok b i :
  wf b → 0 ≤ i < bit_cnt b →
  ∃ b', bitmap_reset b i = Ok b' ∧ wf b' ∧ bit_cnt b' = bit_cnt b ∧
    ∀ j, 0 ≤ j → bit_at b' j = if decide (j = i) then false else bit_at b j.
Proof.
  intros Hwf Hi. destruct (get_elem_ok b i Hwf Hi) as (w & Hl & Hg & Hw).
  unfold bitmap_reset. rewrite Hg. simpl. eexists. split_and!; [done| |done|].
  - apply wf_set_elem; [done|]. by apply in_u32_land.
  - intros j Hj. rewrite bit_at_set_elem by (eauto || lia). rewrite bit_mask_eq.
    pose proof (Z.mod_pos_bound i ELEM_BITS ltac:(done)). pose proof (Z.mod_pos_bound j ELEM_BITS ltac:(done)).
    case_decide as E.
    + rewrite Z.land_spec, u32_testbit, Z.lnot_spec, testbit_pow2 by (unfold ELEM_BITS in *; lia).
      case_bool_decide as E2.
      * rewrite (same_bit i j) by done. by rewrite decide_True, andb_false_r.
      * rewrite decide_False by (intros ->; done). rewrite andb_true_r. unfold bit_at. by rewrite E, Hl.
    + by rewrite decide_False by (intros ->; done).
Qed.

Lemma bitmap_flip_ok b i :
  wf b → 0 ≤ i < bit_cnt b →
  ∃ b', bitmap_flip b i = Ok b' ∧ wf b' ∧ bit_cnt b' = bit_cnt b ∧
    ∀ j, 0 ≤ j → bit_at b' j = if decide (j = i) then negb (bit_at b j) else bit_at b j.
Proof.
  intros Hwf Hi. destruct (get_elem_ok b i Hwf Hi) as (w & Hl & Hg & Hw).
  unfold bitmap_flip. rewrite Hg. simpl. eexists. split_and!; [done| |done|].
  - apply wf_set_elem; [done|]. apply in_u32_lxor; [done|apply u32_range].
  - intros j Hj. rewrite bit_at_set_elem by (eauto || lia). rewrite bit_mask_eq.
    pose proof (Z.mod_pos_bound i ELEM_BITS ltac:(done)). case_decide as E.
    + rewrite Z.lxor_spec, testbit_pow2 by lia. case_bool_decide as E2.
      * rewrite (same_bit i j) by done. rewrite decide_True, xorb_true_r by done. unfold bit_at. by rewrite Hl.
      * rewrite decide_False by (intros ->; done). rewrite xorb_false_r. unfold bit_at. by rewrite E, Hl.
    + by rewrite decide_False by (intros ->; done).
Qed.

Lemma bitmap_test_ok b i : wf b → 0 ≤ i < bit_cnt b → bitmap_test b i = Ok (bit_at b i).
Proof.
  intros Hwf Hi. destruct (get_elem_ok b i Hwf Hi) as (w & Hl & Hg & Hw).
  unfold bitmap_test, assert. rewrite bool_decide_true by lia. simpl. rewrite Hg. simpl. f_equal.
  unfold bit_at. rewrite Hl, bit_mask_eq. pose proof (Z.mod_pos_bound i ELEM_BITS ltac:(done)).
  case_bool_decide as E; rewrite land_pow2_zero in E by lia;
    destruct (Z.testbit w (i `mod` ELEM_BITS)); naive_solver.
Qed.

Lemma bitmap_set_ok b i v :
  wf b → 0 ≤ i < bit_cnt b →
  ∃ b', bitmap_set b i v = Ok b' ∧ wf b' ∧ bit_cnt b' = bit_cnt b ∧
    ∀ j, 0 ≤ j → bit_at b' j = if decide (j = i) then v else bit_at b j.
Proof.
  intros Hwf Hi. unfold bitmap_set, assert. rewrite bool_decide_true by lia. simpl.
  destruct v; [by apply bitmap_mark_ok|by apply bitmap_reset_ok].
Qed.

Lemma bitmap_set_oob b i v : bit_cnt b ≤ i → bitmap_set b i v = Err EPanic.
Proof. intros. unfold bitmap_set, assert. by rewrite bool_decide_false by lia. Qed.
Lemma bitmap_test_oob b i : bit_cnt b ≤ i → bitmap_test b i = Err EPanic.
Proof. intros. unfold bitmap_test, assert. by rewrite bool_decide_false by lia. Qed.
End single.

(** ** Ranges of bits *)
Section ranges.
Implicit Types (b : bitmap) (i j : Z) (v : bool).

Lemma set_loop_ok n b start i v :
  wf b → 0 ≤ start → 0 ≤ i → start + i + Z.of_nat n ≤ bit_cnt b →
  ∃ b', set_loop n b start i v = Ok b' ∧ wf b' ∧ bit_cnt b' = bit_cnt b ∧
    ∀ j, 0 ≤ j → bit_at b' j =
      if decide (start + i ≤ j < start + i + Z.of_nat n) then v else bit_at b j.
Proof.
  revert b i. induction n as [|n IH]; intros b i Hwf Hs Hi Hr; simpl.
  - exists b. split_and!; [done..|]. intros j Hj. by rewrite decide_False by lia.
  - rewrite u32_id by (destruct Hwf; unfold in_u32; lia).
    destruct (bitmap_set_ok b (start + i) v Hwf) as (b1 & -> & Hwf1 & Hc1 & Hb1); [lia|]. simpl.
    destruct (IH b1 (i + 1)) as (b2 & -> & Hwf2 & Hc2 & Hb2); [done|lia|lia|lia|].
    exists b2. split_and!; [done|done|congruence|]. intros j Hj. rewrite Hb2, Hb1 by done.
    repeat case_decide; (done || lia).
Qed.

Lemma bitmap_set_multiple_ok b start cnt v :
  wf b → 0 ≤ start → 0 ≤ cnt → start + cnt ≤ bit_cnt b →
  ∃ b', bitmap_set_multiple b start cnt v = Ok b' ∧ wf b' ∧ bit_cnt b' = bit_cnt b ∧
    ∀ j, 0 ≤ j → bit_at b' j = if decide (start ≤ j < start + cnt) then v else bit_at b j.
Proof.
  intros Hwf Hs Hc Hr. unfold bitmap_set_multiple, assert.
  rewrite u32_id by (destruct Hwf; unfold in_u32; lia). rewrite !bool_decide_true by lia. simpl.
  destruct (set_loop_ok (Z.to_nat cnt) b start 0 v) as (b' & ? & ? & ? & Hb); [done|lia|lia|lia|].
  exists b'. split_and!; [done..|]. intros j Hj. rewrite Hb by done.
  by rewrite Z.add_0_r, Z2Nat.id by lia.
Qed.

Lemma contains_loop_ok n b start i v :
  wf b → 0 ≤ start → 0 ≤ i → start + i + Z.of_nat n ≤ bit_cnt b →
  ∃ r, contains_loop n b start i v = Ok r ∧
    (r = true ↔ ∃ j, start + i ≤ j < start + i + Z.of_nat n ∧ bit_at b j = v).
Proof.
  revert i. induction n as [|n IH]; intros i Hwf Hs Hi Hr; simpl.
  - exists false. split; [done|]. split; [done|]. intros (j & ? & _). lia.
  - rewrite u32_id by (destruct Hwf; unfold in_u32; lia). rewrite bitmap_test_ok by (done || lia). simpl.
    destruct (Bool.eqb (bit_at b (start + i)) v) eqn:E.
    + apply eqb_prop in E. exists true. split; [done|]. split; [|done]. intros _. exists (start + i). split; [lia|done].
    + apply eqb_false_iff in E. destruct (IH (i + 1)) as (r & -> & Hr'); [done|lia|lia|lia|].
      exists r. split; [done|]. rewrite Hr'. split; intros (j & ? & Hj); exists j; (split; [|done]); [lia|].
      assert (j ≠ start + i) by (intros ->; done). lia.
Qed.

Lemma bitmap_contains_ok b start cnt v :
  wf b → 0 ≤ start → 0 ≤ cnt → start + cnt ≤ bit_cnt b →
  ∃ r, bitmap_contains b start cnt v = Ok r ∧
    (r = true ↔ ∃ j, start ≤ j < start + cnt ∧ bit_at b j = v).
Proof.
  intros Hwf Hs Hc Hr. unfold bitmap_contains, assert.
  rewrite u32_id by (destruct Hwf; unfold in_u32; lia). rewrite !bool_decide_true by lia. simpl.
  destruct (contains_loop_ok (Z.to_nat cnt) b start 0 v) as (r & ? & Hr'); [done|lia|lia|lia|].
  exists r. by rewrite Z.add_0_r, Z2Nat.id in Hr' by lia.
Qed.

(** All bits of a range have a value. *)
Definition all_bits b start cnt v : Prop := ∀ j, start ≤ j < start + cnt → bit_at b j = v.

Lemma bitmap_contains_all b start cnt v :
  wf b → 0 ≤ start → 0 ≤ cnt → start + cnt ≤ bit_cnt b →
  ∃ r, bitmap_contains b start cnt (negb v) = Ok r ∧ (r = false ↔ all_bits b start cnt v).
Proof.
  intros Hwf Hs Hc Hr. destruct (bitmap_contains_ok b start cnt (negb v)) as (r & -> & Hr'); [done..|].
  exists r. split; [done|]. unfold all_bits. destruct r.
  - split; [done|]. destruct (proj1 Hr' eq_refl) as (j & Hj & E). intros H. rewrite H in E by done. by destruct v.
  - split; [|done]. intros _ j Hj. destruct (bit_at b j) eqn:E, v; try done; exfalso;
      assert (false = true); try done; apply Hr'; exists j; by rewrite E.
Qed.

Lemma bitmap_all_ok b start cnt :
  wf b → 0 ≤ start → 0 ≤ cnt → start + cnt ≤ bit_cnt b →
  ∃ r, bitmap_all b start cnt = Ok r ∧ (r = true ↔ all_bits b start cnt true).
Proof.
  intros Hwf Hs Hc Hr. destruct (bitmap_contains_all b start cnt true) as (r & Hb & Hr'); [done..|].
  unfold bitmap_all. simpl in Hb. rewrite Hb. simpl. exists (negb r). split; [done|]. rewrite <- Hr'. by destruct r.
Qed.

Lemma count_loop_ok n b start i v c :
  wf b → 0 ≤ start → 0 ≤ i → start + i + Z.of_nat n ≤ bit_cnt b →
  count_loop n b start i v c =
    Ok (c + Z.of_nat (length (filter (λ j, bit_at b j = v) (seqZ (start + i) (Z.of_nat n))))).
Proof.
  revert i c. induction n as [|n IH]; intros i c Hwf Hs Hi Hr; cbn [count_loop].
  - simpl. by rewrite Z.add_0_r.
  - rewrite u32_id by (destruct Hwf; unfold in_u32; lia). rewrite bitmap_test_ok by (done || lia). cbn -[seqZ].
    rewrite IH by (done || lia). rewrite (seqZ_cons (start + i)) by lia. rewrite filter_cons.
    replace (Z.succ (start + i)) with (start + (i + 1)) by lia.
    replace (Z.pred (Z.of_nat (S n))) with (Z.of_nat n) by lia. f_equal.
    destruct (Bool.eqb (bit_at b (start + i)) v) eqn:E.
    + apply eqb_prop in E. rewrite decide_True by done. cbn [length]. lia.
    + apply eqb_false_iff in E. by rewrite decide_False by done.
Qed.

Lemma scan_loop_ok n b i cnt v :
  wf b → 0 ≤ i → 0 ≤ cnt → i + Z.of_nat n + cnt ≤ bit_cnt b + 1 →
  (∃ r, scan_loop n b i cnt v = Ok r ∧ i ≤ r < i + Z.of_nat n ∧ all_bits b r cnt v ∧
     ∀ k, i ≤ k < r → ¬ all_bits b k cnt v) ∨
  (scan_loop n b i cnt v = Ok BITMAP_ERROR ∧ ∀ k, i ≤ k < i + Z.of_nat n → ¬ all_bits b k cnt v).
Proof.
  revert i. induction n as [|n IH]; intros i Hwf Hi Hc Hr; cbn [scan_loop].
  - right. split; [done|]. lia.
  - destruct (bitmap_contains_all b i cnt v) as (r & -> & Hr'); [done|lia|lia|lia|]. simpl.
    destruct r; simpl.
    + assert (¬ all_bits b i cnt v) as Hn by (rewrite <- Hr'; done).
      destruct (IH (i + 1)) as [(r & -> & ? & ? & Hk)|[-> Hk]]; [done|lia|lia|lia| |].
      * left. exists r. split_and!; [done|lia|lia|done|]. intros k ?.
        destruct (decide (k = i)) as [->|]; [done|]. apply Hk. lia.
      * right. split; [done|]. intros k ?. destruct (decide (k = i)) as [->|]; [done|]. apply Hk. lia.
    + left. exists i. split_and!; [done|lia|lia|by apply Hr'|lia].
Qed.

Lemma bitmap_scan_ok b start cnt v :
  wf b → 0 ≤ start ≤ bit_cnt b → 0 ≤ cnt →
  (∃ r, bitmap_scan b start cnt v = Ok r ∧ start ≤ r ∧ r + cnt ≤ bit_cnt b ∧ all_bits b r cnt v ∧
     ∀ k, start ≤ k < r → ¬ all_bits b k cnt v) ∨
  (bitmap_scan b start cnt v = Ok BITMAP_ERROR ∧
     ∀ k, start ≤ k → k + cnt ≤ bit_cnt b → ¬ all_bits b k cnt v).
Proof.
  intros Hwf Hs Hc. unfold bitmap_scan, assert. rewrite bool_decide_true by lia. simpl.
  case_decide; [|right; split; [done|lia]].
  destruct (decide (start ≤ bit_cnt b - cnt)).
  - destruct (scan_loop_ok (Z.to_nat (bit_cnt b - cnt - start + 1)) b start cnt v)
      as [(r & -> & ? & ? & ?)|[-> Hk]]; [done|lia|lia|lia| |].
    + left. exists r. split_and!; [done|lia|lia|done|done].
    + right. split; [done|]. intros k ??. apply Hk. lia.
  - rewrite Z2Nat.nonpos by lia. right. split; [done|]. lia.
Qed.

Lemma bitmap_scan_not_error b r cnt : wf b → r + cnt ≤ bit_cnt b → 0 ≤ cnt → r ≠ BITMAP_ERROR.
Proof. intros [Hc _ _] ?? ->. unfold BITMAP_ERROR in *. lia. Qed.

Lemma bitmap_scan_and_flip_ok b start cnt v :
  wf b → 0 ≤ start ≤ bit_cnt b → 0 ≤ cnt →
  (∃ r b', bitmap_scan_and_flip b start cnt v = Ok (r, b') ∧ wf b' ∧ bit_cnt b' = bit_cnt b ∧
     start ≤ r ∧ r + cnt ≤ bit_cnt b ∧ r ≠ BITMAP_ERROR ∧ all_bits b r cnt v ∧
     (∀ k, start ≤ k < r → ¬ all_bits b k cnt v) ∧
     ∀ j, 0 ≤ j → bit_at b' j = if decide (r ≤ j < r + cnt) then negb v else bit_at b j) ∨
  (bitmap_scan_and_flip b start cnt v = Ok (BITMAP_ERROR, b) ∧
     ∀ k, start ≤ k → k + cnt ≤ bit_cnt b → ¬ all_bits b k cnt v).
Proof.
  intros Hwf Hs Hc. unfold bitmap_scan_and_flip.
  destruct (bitmap_scan_ok b start cnt v) as [(r & -> & ? & ? & ? & ?)|[-> Hk]]; [done..| |]; simpl.
  - left. assert (r ≠ BITMAP_ERROR) as Hne by (by eapply bitmap_scan_not_error).
    rewrite decide_True by done.
    destruct (bitmap_set_multiple_ok b r cnt (negb v)) as (b' & -> & ? & ? & ?); [done|lia|lia|lia|].
    simpl. exists r, b'. split_and!; done.
  - right. split; [reflexivity|done].
Qed.
End ranges.

(** ** Words as bytes *)
Section bytes.

Lemma length_le_bytes n w : length (le_bytes n w) = n.
Proof. revert w. induction n as [|n IH]; intros w; simpl; [done|]. by rewrite IH. Qed.

Lemma le_bytes_range n w : Forall (λ b, 0 ≤ b < 256) (le_bytes n w).
Proof. revert w. induction n as [|n IH]; intros w; constructor; [|done]. by apply Z.mod_pos_bound. Qed.

Lemma le_word_bytes n w : 0 ≤ w < 256 ^ Z.of_nat n → le_word (le_bytes n w) = w.
Proof.
  revert w. induction n as [|n IH]; intros w Hw; simpl; [lia|].
  rewrite IH; [pose proof (Z.div_mod w 256); lia|].
  rewrite Nat2Z.inj_succ, Z.pow_succ_r in Hw by lia.
  split; [apply Z.div_pos; lia|apply Z.div_lt_upper_bound; lia].
Qed.

(** Writing the elements to a file and reading them back. *)
Lemma elems_bytes_roundtrip ws :
  Forall in_u32 ws → bytes_to_elems (length ws) (elems_to_bytes ws) = ws.
Proof.
  induction 1 as [|w ws Hw _ IH]; [done|]. cbn [length elems_to_bytes bytes_to_elems mbind list_bind].
  rewrite take_app_length', drop_app_length' by (by rewrite length_le_bytes).
  rewrite (le_word_bytes 4) by (unfold in_u32 in Hw; lia). f_equal. exact IH.
Qed.

Lemma length_elems_to_bytes ws : length (elems_to_bytes ws) = (4 * length ws)%nat.
Proof.
  induction ws as [|w ws IH]; [done|]. unfold elems_to_bytes in *. cbn [mbind list_bind].
  rewrite length_app, length_le_bytes, IH. simpl. lia.
Qed.

Lemma byte_cnt_eq n : 0 ≤ n ≤ 2^32 - 32 → byte_cnt n = 4 * ((n + 31) / 32).
Proof. intros. unfold byte_cnt. rewrite elem_cnt_eq by done. apply u32_id. unfold in_u32. dlia. Qed.
End bytes.

(** ** The mask of bitmap_read *)
Section mask.
Implicit Types (b : bitmap) (j k : Z).

(** The bits of the last element that are in the bitmap. *)
Lemma last_mask_bit b k :
  0 ≤ bit_cnt b → 0 ≤ k < 32 →
  Z.testbit (last_mask b) k = bool_decide (bit_cnt b `mod` 32 = 0 ∨ k < bit_cnt b `mod` 32).
Proof.
  intros Hn Hk. unfold last_mask, ELEM_BITS. pose proof (Z.mod_pos_bound (bit_cnt b) 32 ltac:(lia)). case_decide.
  - rewrite (u32_id (Z.shiftl 1 _)), Z.shiftl_1_l.
    2:{ unfold in_u32. rewrite Z.shiftl_1_l. split; [apply Z.pow_nonneg; lia|apply Z.pow_lt_mono_r; lia]. }
    assert (1 ≤ 2 ^ (bit_cnt b `mod` 32) < 2^32).
    { split; [apply (Z.pow_le_mono_r 2 0); lia|apply Z.pow_lt_mono_r; lia]. }
    rewrite u32_id by (unfold in_u32; lia). rewrite Z.sub_1_r, <- Z.ones_equiv.
    rewrite Z.testbit_ones_nonneg by lia. 
    destruct (Z.ltb_spec k (bit_cnt b `mod` 32)); [rewrite bool_decide_true|rewrite bool_decide_false]; done || lia.
  - change (u32 (-1)) with (Z.ones 32). rewrite Z.testbit_ones_nonneg by lia. rewrite bool_decide_true by lia. apply Z.ltb_lt. lia.
Qed.

(** The mask keeps the bits of the bitmap and clears the ones after it. *)
Lemma mask_last_ok b :
  wf b → 0 < bit_cnt b →
  ∃ b', mask_last b = Ok b' ∧ wf b' ∧ bit_cnt b' = bit_cnt b ∧ length (bits b') = length (bits b) ∧
    ∀ j, 0 ≤ j → j < 32 * elem_cnt (bit_cnt b) → bit_at b' j = bool_decide (j < bit_cnt b) && bit_at b j.
Proof.
  intros Hwf Hpos. pose proof Hwf as [Hc _ _]. unfold mask_last. rewrite elem_cnt_eq by done.
  replace ((bit_cnt b + 31) / 32 - 1) with (elem_idx (bit_cnt b - 1)) by (unfold elem_idx, ELEM_BITS; dlia).
  destruct (get_elem_ok b (bit_cnt b - 1) Hwf) as (w & Hw & -> & Hu); [lia|]. simpl. eexists. split_and!; try done.
  - apply wf_set_elem; [done|]. by apply in_u32_land.
  - apply length_insert.
  - intros j Hj Hr. rewrite bit_at_set_elem by (eauto || lia).
    pose proof (Z.mod_pos_bound j 32 ltac:(lia)). case_decide as E.
    + rewrite Z.land_spec, last_mask_bit by (unfold ELEM_BITS; lia). unfold bit_at. rewrite E, Hw, andb_comm. f_equal.
      unfold elem_idx, ELEM_BITS in *. apply bool_decide_ext. dlia.
    + rewrite bool_decide_true; [done|]. unfold elem_idx, ELEM_BITS in *. dlia.
Qed.
End mask.

#[export] Instance all_bits_dec b a n v : Decision (all_bits b a n v).
Proof.
  refine (cast_if (decide (Forall (λ j, bit_at b j = v) (seqZ a n)))).
  - intros j Hj. eapply Forall_forall in f; [exact f|]. apply elem_of_seqZ. lia.
  - intros H. apply n0, Forall_forall. intros j Hj%elem_of_seqZ. apply H. lia.
Defined.

#[export] Instance wf_dec b : Decision (wf b).
Proof.
  refine (cast_if (decide ((0 ≤ bit_cnt b ∧ bit_cnt b ≤ 2^32 - 32) ∧ elem_cnt (bit_cnt b) ≤ Z.of_nat (length (bits b)) ∧
    Forall (λ w, 0 ≤ w ∧ w < 2^32) (bits b)))).
  - destruct a as (? & ? & ?). by split.
  - intros []. tauto.
Defined.
