(* ===== verification/Thread.v ===== *)
(** * threads/thread.h: struct thread, and priority donation

    The thread structure with its donation stack (the two parallel arrays
    [stored_priority] and [stored_lock_master] of 30 slots and their
    [stored_index]), and the parts of [lock_acquire], [lock_release] and
    [thread_set_priority] that work on one thread's structure.  [donations]
    is the abstract view, a list of (priority, lock) pairs, lowest first. *)

From S2P Require Import Prelude.

Local Open Scope Z_scope.

(** ** Data *)

Inductive thread_status := THREAD_RUNNING | THREAD_READY | THREAD_BLOCKED | THREAD_DYING.

#[export] Instance thread_status_eq_dec : EqDecision thread_status.
Proof. solve_decision. Defined.

Definition PRI_MIN : Z := 0.
Definition PRI_DEFAULT : Z := 31.
Definition PRI_MAX : Z := 63.
Definition TID_ERROR : Z := -1.

Record thread := Thread {
  tid : Z;
  status : thread_status;
  wake_up_time : Z;
  priority : Z;
  priority_lock_master : Z;
  stored_priority : list Z;
  stored_lock_master : list Z;
  stored_index : Z;
  nice : Z;
  recent_cpu : Z;
}.

Definition set_tid (v : Z) (t : thread) : thread :=
  Thread v (status t) (wake_up_time t) (priority t) (priority_lock_master t)
    (stored_priority t) (stored_lock_master t) (stored_index t) (nice t) (recent_cpu t).
Definition set_status (v : thread_status) (t : thread) : thread :=
  Thread (tid t) v (wake_up_time t) (priority t) (priority_lock_master t)
    (stored_priority t) (stored_lock_master t) (stored_index t) (nice t) (recent_cpu t).
Definition set_wake_up_time (v : Z) (t : thread) : thread :=
  Thread (tid t) (status t) v (priority t) (priority_lock_master t)
    (stored_priority t) (stored_lock_master t) (stored_index t) (nice t) (recent_cpu t).
Definition set_priority_field (v : Z) (t : thread) : thread :=
  Thread (tid t) (status t) (wake_up_time t) v (priority_lock_master t)
    (stored_priority t) (stored_lock_master t) (stored_index t) (nice t) (recent_cpu t).
Definition set_master (v : Z) (t : thread) : thread :=
  Thread (tid t) (status t) (wake_up_time t) (priority t) v
    (stored_priority t) (stored_lock_master t) (stored_index t) (nice t) (recent_cpu t).
Definition set_stored (ps ls : list Z) (n : Z) (t : thread) : thread :=
  Thread (tid t) (status t) (wake_up_time t) (priority t) (priority_lock_master t)
    ps ls n (nice t) (recent_cpu t).
Definition set_nice (v : Z) (t : thread) : thread :=
  Thread (tid t) (status t) (wake_up_time t) (priority t) (priority_lock_master t)
    (stored_priority t) (stored_lock_master t) (stored_index t) v (recent_cpu t).
Definition set_recent_cpu (v : Z) (t : thread) : thread :=
  Thread (tid t) (status t) (wake_up_time t) (priority t) (priority_lock_master t)
    (stored_priority t) (stored_lock_master t) (stored_index t) (nice t) v.

(** The length of the two arrays. *)
Definition STORED_MAX : nat := 30.

(** init_thread on a zeroed page: [nice] and [recent_cpu] are 0 whether or not
    [thread_mlfqs] stores them again. *)
Definition init_thread (prio : Z) : res thread :=
  if bool_decide (PRI_MIN ≤ prio) && bool_decide (prio ≤ PRI_MAX) then
    Ok (Thread 0 THREAD_BLOCKED 0 prio NULL
         (replicate STORED_MAX 0) (replicate STORED_MAX 0) 0 0 0)
  else Err EPanic.

(** ** Array accesses: an index outside the array is undefined behaviour *)

Definition rd (a : list Z) (i : Z) : res Z :=
  if decide (i < 0) then Err EFault else
  match a !! Z.to_nat i with Some v => Ok v | None => Err EFault end.
Definition wr (a : list Z) (i v : Z) : res (list Z) :=
  if decide (0 ≤ i < Z.of_nat (length a)) then Ok (<[Z.to_nat i := v]> a) else Err EFault.

(** ** lock_acquire: the donation of [prio] through [lock] to its holder [t] *)

Definition donate (prio lock : Z) (t : thread) : res thread :=
  ps ← wr (stored_priority t) (stored_index t) (priority t);
  ls ← wr (stored_lock_master t) (stored_index t) (priority_lock_master t);
  mret (set_master lock (set_priority_field prio (set_stored ps ls (stored_index t + 1) t))).

(** ** lock_release: taking back what [lock] brought *)

(** The first [for]: entries of [lock] become (-1, NULL); [co] counts them. *)
Fixpoint drop_loop (n : nat) (i lock co : Z) (ps ls : list Z) : res (Z * list Z * list Z) :=
  match n with
  | O => mret (co, ps, ls)
  | S n =>
      m ← rd ls i;
      if decide (m = lock) then
        ls' ← wr ls i NULL; ps' ← wr ps i (-1); drop_loop n (i + 1) lock (co + 1) ps' ls'
      else drop_loop n (i + 1) lock co ps ls
  end.

(** The inner [for] of the second loop: the next live entry moves to slot [i]. *)
Fixpoint pull_loop (n : nat) (i j : Z) (ps ls : list Z) : res (list Z * list Z) :=
  match n with
  | O => mret (ps, ls)
  | S n =>
      p ← rd ps j;
      if decide (p = -1) then pull_loop n i (j + 1) ps ls else
      m ← rd ls j;
      ls1 ← wr ls i m; ps1 ← wr ps i p;
      ls2 ← wr ls1 j NULL; ps2 ← wr ps1 j (-1);
      mret (ps2, ls2)
  end.

(** The outer [for], [n] iterations left before [stored_index]. *)
Fixpoint compact_loop (n : nat) (i : Z) (ps ls : list Z) : res (list Z * list Z) :=
  match n with
  | O => mret (ps, ls)
  | S n =>
      p ← rd ps i;
      if decide (p = -1) then
        r ← pull_loop n i (i + 1) ps ls; compact_loop n (i + 1) r.1 r.2
      else compact_loop n (i + 1) ps ls
  end.

Definition release_donations (lock : Z) (t : thread) : res thread :=
  if decide (stored_index t = 0) then mret t else
  let n := Z.to_nat (stored_index t) in
  r ← drop_loop n 0 lock 0 (stored_priority t) (stored_lock_master t);
  let '(co, ps, ls) := r in
  t1 ← (if decide (co = 0) then mret (set_stored ps ls (stored_index t) t) else
        c ← compact_loop n 0 ps ls; mret (set_stored c.1 c.2 (stored_index t - co) t));
  if decide (priority_lock_master t1 = lock) then
    let k := stored_index t1 - 1 in
    p ← rd (stored_priority t1) k;
    m ← rd (stored_lock_master t1) k;
    mret (set_master m (set_priority_field p
            (set_stored (stored_priority t1) (stored_lock_master t1) k t1)))
  else mret t1.

(** ** thread_set_priority on the current thread's structure: the new
    structure and [yield_if_necessary] *)

Definition set_priority (new_priority : Z) (t : thread) : res (thread * bool) :=
  if decide (stored_index t ≠ 0) then
    ps ← wr (stored_priority t) 0 new_priority;
    mret (set_stored ps (stored_lock_master t) (stored_index t) t, false)
  else mret (set_priority_field new_priority t, true).

(** ** The abstract donation stack *)

(** The stored pairs below [stored_index], then the current one. *)
Definition stored_pairs (t : thread) : list (Z * Z) :=
  take (Z.to_nat (stored_index t)) (zip (stored_priority t) (stored_lock_master t)).
Definition donations (t : thread) : list (Z * Z) :=
  stored_pairs t ++ [(priority t, priority_lock_master t)].

(** The structure's own invariant: arrays of the declared size, an index within
    them, a base entry for no lock below entries for locks, increasing
    nonnegative priorities. *)
Record thread_wf (t : thread) : Prop := {
  tw_ps : length (stored_priority t) = STORED_MAX;
  tw_ls : length (stored_lock_master t) = STORED_MAX;
  tw_index : 0 ≤ stored_index t ≤ Z.of_nat STORED_MAX;
  tw_base : ∃ b rest, donations t = (b, NULL) :: rest ∧ Forall (λ e, e.2 ≠ NULL) rest;
  tw_nonneg : Forall (λ e, 0 ≤ e.1) (donations t);
  tw_increasing : StronglySorted (λ e f, e.1 < f.1) (donations t);
}.

(** ** Array lemmas *)
Section arrays.
Implicit Types (es pre mid post holes dead rest : list (Z * Z)).

Lemma rd_mid (pre suf : list Z) x i : i = Z.of_nat (length pre) → rd (pre ++ x :: suf) i = Ok x.
Proof.
  intros ->. unfold rd. rewrite decide_False by lia. by rewrite Nat2Z.id, list_lookup_middle.
Qed.

Lemma wr_mid (pre suf : list Z) x i v :
  i = Z.of_nat (length pre) → wr (pre ++ x :: suf) i v = Ok (pre ++ v :: suf).
Proof.
  intros ->. unfold wr. rewrite decide_True by (rewrite length_app; simpl; lia).
  rewrite Nat2Z.id. by rewrite <- (Nat.add_0_r (length pre)), insert_app_r.
Qed.

Definition mark (lock : Z) (e : Z * Z) : Z * Z := if decide (e.2 = lock) then (-1, NULL) else e.

Lemma drop_loop_ok pre mid post lock co i :
  i = Z.of_nat (length pre) →
  drop_loop (length mid) i lock co (pre ++ mid ++ post).*1 (pre ++ mid ++ post).*2 =
    Ok (co + Z.of_nat (length (filter (λ e, e.2 = lock) mid)),
        (pre ++ (mark lock <$> mid) ++ post).*1, (pre ++ (mark lock <$> mid) ++ post).*2).
Proof.
  revert pre co i. induction mid as [|e mid IH]; intros pre co i Hi; simpl.
  - by rewrite Z.add_0_r.
  - rewrite !fmap_app. simpl. rewrite rd_mid by (by rewrite length_fmap). simpl.
    unfold mark at 1 3. rewrite filter_cons. case_decide as E.
    + rewrite !wr_mid by (by rewrite length_fmap). simpl.
      specialize (IH (pre ++ [(-1, NULL)]) (co + 1) (i + 1)). rewrite <- !app_assoc in IH. simpl in IH.
      rewrite !fmap_app in IH. simpl in IH. rewrite IH by (rewrite length_app; simpl; lia).
      rewrite !fmap_app. do 3 f_equal. simpl. lia.
    + specialize (IH (pre ++ [e]) co (i + 1)). rewrite <- !app_assoc in IH. simpl in IH.
      rewrite !fmap_app in IH. simpl in IH. rewrite IH by (rewrite length_app; simpl; lia).
      by rewrite !fmap_app.
Qed.

(** Reads past a block [pre ++ h :: holes]. *)
Lemma rd_past1 pre h holes e rest j :
  j = Z.of_nat (length (pre ++ h :: holes)) → rd (pre ++ h :: holes ++ e :: rest).*1 j = Ok e.1.
Proof.
  intros ->. rewrite (app_comm_cons holes), app_assoc, fmap_app. simpl. apply rd_mid. by rewrite length_fmap.
Qed.
Lemma rd_past2 pre h holes e rest j :
  j = Z.of_nat (length (pre ++ h :: holes)) → rd (pre ++ h :: holes ++ e :: rest).*2 j = Ok e.2.
Proof.
  intros ->. rewrite (app_comm_cons holes), app_assoc, fmap_app. simpl. apply rd_mid. by rewrite length_fmap.
Qed.

(** A pair written to slot [i], and one to slot [j] past the block. *)
Lemma wr_pair_at pre h rest i p m :
  i = Z.of_nat (length pre) →
  wr (pre ++ h :: rest).*2 i m = Ok (pre ++ (p, m) :: rest).*2 ∧
  wr (pre ++ h :: rest).*1 i p = Ok (pre ++ (p, m) :: rest).*1.
Proof. intros ->. rewrite !fmap_app. simpl. by rewrite !wr_mid by (by rewrite length_fmap). Qed.

Lemma wr_pair_past pre h holes e rest j p m :
  j = Z.of_nat (length (pre ++ h :: holes)) →
  wr (pre ++ h :: holes ++ e :: rest).*2 j m = Ok (pre ++ h :: holes ++ (p, m) :: rest).*2 ∧
  wr (pre ++ h :: holes ++ e :: rest).*1 j p = Ok (pre ++ h :: holes ++ (p, m) :: rest).*1.
Proof. intros Hj. rewrite !(app_comm_cons holes), !(app_assoc pre). by apply wr_pair_at. Qed.

Definition hole : Z * Z := (-1, NULL).
Definition live (e : Z * Z) : Prop := e.1 ≠ -1.

(** The inner loop takes the first live entry after [i], if there is one. *)
Lemma pull_loop_dead pre h holes rest post i j :
  i = Z.of_nat (length pre) → j = Z.of_nat (length (pre ++ h :: holes)) →
  Forall (λ e, ¬ live e) rest →
  let es := pre ++ h :: holes ++ rest ++ post in
  pull_loop (length rest) i j es.*1 es.*2 = Ok (es.*1, es.*2).
Proof.
  intros Hi. revert holes j. induction rest as [|e rest IH]; intros holes j Hj Hd; simpl; [done|].
  apply Forall_cons in Hd as [He Hd].
  assert (e.1 = -1) as E by (unfold live in He; lia).
  specialize (IH (holes ++ [e]) (j + 1)). rewrite <- !app_assoc in IH. simpl in IH.
  rewrite rd_past1 by done. simpl. rewrite decide_True by done.
  apply IH; [|done]. rewrite Hj, !length_app. simpl. rewrite length_app. simpl. lia.
Qed.

Lemma pull_loop_live pre h holes dead y rest post i j :
  i = Z.of_nat (length pre) → j = Z.of_nat (length (pre ++ h :: holes)) →
  Forall (λ e, ¬ live e) dead → live y →
  let es := pre ++ h :: holes ++ dead ++ y :: rest ++ post in
  let es' := pre ++ y :: holes ++ dead ++ hole :: rest ++ post in
  pull_loop (length (dead ++ y :: rest)) i j es.*1 es.*2 = Ok (es'.*1, es'.*2).
Proof.
  intros Hi. revert holes j. induction dead as [|e dead IH]; intros holes j Hj Hd Hy; simpl.
  - rewrite rd_past1 by done. simpl. rewrite decide_False by done.
    rewrite rd_past2 by done. simpl.
    destruct (wr_pair_at pre h (holes ++ y :: rest ++ post) i y.1 y.2 Hi) as [-> ->]. simpl.
    destruct (wr_pair_past pre (y.1, y.2) holes y (rest ++ post) j (-1) NULL) as [-> ->]; [by rewrite Hj, !length_app|].
    simpl. by destruct y.
  - apply Forall_cons in Hd as [He Hd]. assert (e.1 = -1) as E by (unfold live in He; lia).
    specialize (IH (holes ++ [e]) (j + 1)). rewrite <- !app_assoc in IH. simpl in IH.
    rewrite rd_past1 by done. simpl. rewrite decide_True by done. apply IH; [|done..].
    rewrite Hj, !length_app. simpl. rewrite length_app. simpl. lia.
Qed.

(** The first live entry of a list. *)
Lemma first_live es :
  Forall (λ e, ¬ live e) es ∨ ∃ dead y rest, es = dead ++ y :: rest ∧ Forall (λ e, ¬ live e) dead ∧ live y.
Proof.
  induction es as [|e es IH]; [by left|]. destruct (decide (e.1 = -1)).
  - destruct IH as [IH|(dead & y & rest & -> & Hd & Hy)].
    + left. constructor; [by intros H|done].
    + right. exists (e :: dead), y, rest. split_and!; [done| |done]. constructor; [by intros H|done].
  - right. exists [], e, es. split_and!; [done|constructor|done].
Qed.

#[export] Instance live_dec e : Decision (live e).
Proof. unfold live. apply _. Defined.

(** The two nested loops move the live entries to the front, in order. *)
Lemma compact_loop_ok n pre mid post i :
  length mid = n → i = Z.of_nat (length pre) →
  Forall (λ e, ¬ live e → e = hole) mid →
  ∃ dead, Forall (λ e, e = hole) dead ∧ length (filter live mid ++ dead) = length mid ∧
    compact_loop n i (pre ++ mid ++ post).*1 (pre ++ mid ++ post).*2 =
      Ok ((pre ++ (filter live mid ++ dead) ++ post).*1, (pre ++ (filter live mid ++ dead) ++ post).*2).
Proof.
  revert pre mid i. induction n as [|n IH]; intros pre mid i Hn Hi Hh.
  { destruct mid; [|done]. exists []. split_and!; [constructor|done|done]. }
  destruct mid as [|e mid]; [done|]. simpl in Hn. injection Hn as <-. apply Forall_cons in Hh as [He Hh].
  cbn [compact_loop app]. rewrite fmap_app. cbn [fmap list_fmap]. rewrite rd_mid by (by rewrite length_fmap). cbn [mbind res_bind].
  replace (pre.*1 ++ e.1 :: (mid ++ post).*1) with (pre ++ e :: mid ++ post).*1 by (by rewrite fmap_app).
  rewrite filter_cons. destruct (decide (e.1 = -1)) as [E|E].
  - rewrite decide_False by (intros H; by apply H).
    destruct (first_live mid) as [Hd|(dead & y & rest & -> & Hd & Hy)].
    + rewrite (pull_loop_dead pre e [] mid post) by (done || (rewrite ?length_app; simpl; lia)).
      simpl. specialize (IH (pre ++ [e]) mid (i + 1) eq_refl). rewrite <- !app_assoc in IH. simpl in IH.
      destruct IH as (dd & Hdd & Hl & ->); [rewrite length_app; simpl; lia|done|].
      assert (filter live mid = []) as Hf by (by apply filter_none).
      rewrite Hf in *. simpl in *. assert (e = hole) as -> by (apply He; intros H; by apply H).
      exists (hole :: dd). split_and!; [by constructor|simpl; lia|]. by rewrite <- !app_assoc.
    + rewrite <- app_assoc. cbn [app]. rewrite (pull_loop_live pre e [] dead y rest post) by (done || (rewrite ?length_app; simpl; lia)).
      simpl. specialize (IH (pre ++ [y]) (dead ++ hole :: rest) (i + 1)). rewrite <- !app_assoc in IH. simpl in IH.
      apply Forall_app in Hh as [Hh1 Hh2]. apply Forall_cons in Hh2 as [_ Hh2].
      destruct IH as (dd & Hdd & Hl & Hc);
        [rewrite !length_app; done|rewrite length_app; simpl; lia
        |apply Forall_app; split; [done|constructor; [done|done]]|].
      rewrite Hc.
      exists dd. rewrite !filter_app in *. rewrite filter_cons_True by done. rewrite filter_cons_False in * by (intros H; by apply H).
      rewrite (filter_none live dead) in * by done. simpl in *. split_and!; [done| |].
      * rewrite !length_app in *. simpl in *. lia.
      * by rewrite <- !app_assoc.
  - rewrite decide_True by done.
    specialize (IH (pre ++ [e]) mid (i + 1) eq_refl). rewrite <- !app_assoc in IH. simpl in IH.
    destruct IH as (dd & Hdd & Hl & ->); [rewrite length_app; simpl; lia|done|].
    exists dd. split_and!; [done|simpl; lia|]. by rewrite <- !app_assoc.
Qed.
End arrays.

(** ** Donation: the arrays implement the abstract stack *)
Section donation.
Implicit Types (t : thread) (lock prio : Z).

(** The two arrays as one list of slots. *)
Definition slots t : list (Z * Z) := zip (stored_priority t) (stored_lock_master t).

Lemma slots_split t : slots t = stored_pairs t ++ drop (Z.to_nat (stored_index t)) (slots t).
Proof. unfold stored_pairs. by rewrite take_drop. Qed.

Lemma slots_1 t : thread_wf t → (slots t).*1 = stored_priority t.
Proof. intros [H1 H2 _ _ _ _]. apply fst_zip. lia. Qed.
Lemma slots_2 t : thread_wf t → (slots t).*2 = stored_lock_master t.
Proof. intros [H1 H2 _ _ _ _]. apply snd_zip. lia. Qed.

Lemma stored_pairs_length t : thread_wf t → length (stored_pairs t) = Z.to_nat (stored_index t).
Proof.
  intros [H1 H2 H3 _ _ _]. unfold stored_pairs. rewrite length_take, length_zip_with. lia.
Qed.

Lemma donate_ok prio lock t :
  thread_wf t → stored_index t < Z.of_nat STORED_MAX → lock ≠ NULL → priority t < prio →
  ∃ t', donate prio lock t = Ok t' ∧ thread_wf t' ∧
    donations t' = donations t ++ [(prio, lock)] ∧
    t' = set_master lock (set_priority_field prio
           (set_stored (stored_priority t') (stored_lock_master t') (stored_index t + 1) t)).
Proof.
  intros Hwf Hi Hl Hp. destruct Hwf as [H1 H2 H3 Hb Hn Hs]. unfold donate, wr.
  rewrite !decide_True by lia. simpl. eexists. split; [done|].
  set (n := Z.to_nat (stored_index t)) in *.
  assert (n < STORED_MAX)%nat by lia.
  set (t' := set_master _ _).
  assert (stored_pairs t' = donations t) as Hsp.
  { unfold stored_pairs, donations, t'. simpl. replace (Z.to_nat (stored_index t + 1)) with (S n) by lia.
    unfold stored_pairs. fold n. rewrite <- (insert_zip_with pair).
    erewrite take_S_r; [|by apply list_lookup_insert_eq; rewrite length_zip_with; lia].
    by rewrite take_insert_ge by lia. }
  assert (donations t' = donations t ++ [(prio, lock)]) as Hd by (unfold donations at 1; by rewrite Hsp).
  split_and!; [|done|done]. split; simpl.
  - by rewrite length_insert.
  - by rewrite length_insert.
  - lia.
  - destruct Hb as (b & rest & Hb & Hr). exists b, (rest ++ [(prio, lock)]). rewrite Hd, Hb. split; [done|].
    apply Forall_app. split; [done|by repeat constructor].
  - rewrite Hd. apply Forall_app. split; [done|]. repeat constructor. simpl.
    unfold donations in Hn. apply Forall_app in Hn as [_ Hn]. apply Forall_cons in Hn as [Hn _]. simpl in Hn. lia.
  - rewrite Hd. apply StronglySorted_app. split_and!; [|done|by repeat constructor].
    intros x1 x2 Hx1 ->%list_elem_of_singleton. simpl.
    unfold donations in Hs, Hx1. apply elem_of_app in Hx1 as [Hx1| ->%list_elem_of_singleton]; [|done].
    apply StronglySorted_app in Hs as (Hs & _ & _). specialize (Hs x1 (priority t, priority_lock_master t) Hx1).
    simpl in Hs. specialize (Hs ltac:(left)). lia.
Qed.

Lemma filter_live_mark lock (es : list (Z * Z)) :
  Forall (λ e, 0 ≤ e.1) es → filter live (mark lock <$> es) = filter (λ e, e.2 ≠ lock) es.
Proof.
  induction 1 as [|e es He Hes IH]; [done|]. cbn [fmap list_fmap]. rewrite !filter_cons, IH.
  unfold mark. destruct (decide (e.2 = lock)) as [E|E].
  - rewrite decide_False by (intros H; by apply H). by rewrite decide_False by (intros H; done).
  - rewrite (decide_True (P:=live e)) by (unfold live; lia). by rewrite decide_True.
Qed.

(** The stored entries of [lock] are removed; the arrays keep their size. *)
Lemma release_stored lock t :
  thread_wf t →
  ∃ co ps ls ps' ls',
    drop_loop (Z.to_nat (stored_index t)) 0 lock 0 (stored_priority t) (stored_lock_master t) = Ok (co, ps, ls) ∧
    (if decide (co = 0) then mret (ps, ls) else compact_loop (Z.to_nat (stored_index t)) 0 ps ls) = Ok (ps', ls') ∧
    co = Z.of_nat (length (filter (λ e, e.2 = lock) (stored_pairs t))) ∧
    length ps' = STORED_MAX ∧ length ls' = STORED_MAX ∧
    take (Z.to_nat (stored_index t - co)) (zip ps' ls') = filter (λ e, e.2 ≠ lock) (stored_pairs t).
Proof.
  intros Hwf. pose proof (stored_pairs_length t Hwf) as Hlen.
  pose proof (slots_1 t Hwf) as E1. pose proof (slots_2 t Hwf) as E2. rewrite (slots_split t) in E1, E2.
  destruct Hwf as [H1 H2 H3 _ Hn _]. set (mid := stored_pairs t) in *. set (post := drop _ _) in *.
  assert (Forall (λ e, 0 ≤ e.1) mid) as Hmid by (unfold donations in Hn; by apply Forall_app in Hn as [Hn _]).
  assert (length (mid ++ post) = STORED_MAX) as HL by (by rewrite <- H1, <- E1, length_fmap).
  pose proof (drop_loop_ok [] mid post lock 0 0 eq_refl) as Hd. cbn [app] in Hd. rewrite Z.add_0_l in Hd.
  pose proof (filter_partition (λ e : Z * Z, e.2 = lock) mid) as Hpart. cbn beta in Hpart.
  rewrite <- Hlen, <- E1, <- E2, Hd.
  set (co := Z.of_nat (length (filter (λ e : Z * Z, e.2 = lock) mid))) in *.
  assert (filter live (mark lock <$> mid) = filter (λ e, e.2 ≠ lock) mid) as Hlive by (by apply filter_live_mark).
  destruct (decide (co = 0)) as [Hco|Hco].
  - do 5 eexists. split_and!; [done|by rewrite decide_True by lia|lia| | |].
    + by rewrite length_fmap, length_app, length_fmap, <- length_app.
    + by rewrite length_fmap, length_app, length_fmap, <- length_app.
    + rewrite zip_fst_snd. replace (Z.to_nat (stored_index t - co)) with (length (mark lock <$> mid)) by (rewrite length_fmap; lia).
      rewrite take_app_length. assert (filter (λ e, e.2 = lock) mid = []) as Hnil by (apply length_zero_iff_nil; lia).
      assert (Forall (λ e, e.2 ≠ lock) mid) as Hne.
      { apply Forall_forall. intros e He E. by apply (filter_nil_not_elem_of _ _ e Hnil E). }
      rewrite filter_all by done. apply fmap_id_forall. eapply Forall_impl; [exact Hne|].
      intros e He. unfold mark. by rewrite decide_False.
  - destruct (compact_loop_ok (length mid) [] (mark lock <$> mid) post 0) as (dead & Hdead & Hl & Hc);
      [by rewrite length_fmap|done| |].
    { apply Forall_fmap, Forall_forall. intros e He. simpl. unfold mark. case_decide; [done|].
      intros Hnl. exfalso. apply Hnl. unfold live. rewrite Forall_forall in Hmid. specialize (Hmid e He). lia. }
    cbn [app] in Hc. do 5 eexists. split_and!; [done|by rewrite decide_False by lia|lia| | |].
    + by rewrite length_fmap, length_app, Hl, length_fmap, <- length_app.
    + by rewrite length_fmap, length_app, Hl, length_fmap, <- length_app.
    + rewrite zip_fst_snd, Hlive, <- app_assoc.
      replace (Z.to_nat (stored_index t - co)) with (length (filter (λ e : Z * Z, e.2 ≠ lock) mid)) by lia.
      by rewrite take_app_length.
Qed.

(** The top stored entry. *)
Lemma stored_last t init pl ml :
  length (stored_priority t) = STORED_MAX → length (stored_lock_master t) = STORED_MAX →
  0 ≤ stored_index t ≤ Z.of_nat STORED_MAX → stored_pairs t = init ++ [(pl, ml)] →
  rd (stored_priority t) (stored_index t - 1) = Ok pl ∧
  rd (stored_lock_master t) (stored_index t - 1) = Ok ml ∧
  take (Z.to_nat (stored_index t - 1)) (slots t) = init ∧ 1 ≤ stored_index t.
Proof.
  intros H1 H2 H3 Hs. assert (length (stored_pairs t) = Z.to_nat (stored_index t)) as Hlen.
  { unfold stored_pairs. rewrite length_take, length_zip_with. lia. }
  rewrite Hs, length_app in Hlen. simpl in Hlen.
  assert (Z.to_nat (stored_index t - 1) = length init) as Hk by lia.
  assert (slots t !! length init = Some (pl, ml)) as Hl.
  { rewrite (slots_split t), Hs, <- app_assoc. by apply list_lookup_middle. }
  assert (take (length init) (slots t) = init) as Ht.
  { rewrite (slots_split t), Hs, <- app_assoc. by apply take_app_length. }
  unfold slots in Hl. apply lookup_zip_with_Some in Hl as (p & m & [= <- <-] & Hp & Hm).
  unfold rd. rewrite !decide_False by lia. rewrite Hk, Hp, Hm. split_and!; [done..|lia].
Qed.

(** lock_release gives back exactly what came through [lock]. *)
Lemma release_donations_ok lock t :
  thread_wf t → lock ≠ NULL →
  ∃ t', release_donations lock t = Ok t' ∧ thread_wf t' ∧
    donations t' = filter (λ e, e.2 ≠ lock) (donations t) ∧
    status t' = status t ∧ tid t' = tid t ∧ wake_up_time t' = wake_up_time t ∧
    nice t' = nice t ∧ recent_cpu t' = recent_cpu t.
Proof.
  intros Hwf Hlock.
  assert (∀ t', length (stored_priority t') = STORED_MAX → length (stored_lock_master t') = STORED_MAX →
    0 ≤ stored_index t' ≤ Z.of_nat STORED_MAX →
    donations t' = filter (λ e, e.2 ≠ lock) (donations t) → thread_wf t') as Hwf'.
  { intros t' ??? Hd. destruct Hwf as [_ _ _ (b & rest & Hb & Hr) Hn Hs]. split; [done..| | |]; rewrite Hd.
    - rewrite Hb, filter_cons_True by done. eexists _, _. split; [done|]. by apply forall_filter.
    - by apply forall_filter.
    - by apply sorted_filter. }
  unfold release_donations. destruct (decide (stored_index t = 0)) as [E0|E0].
  - exists t. split_and!; try done. destruct Hwf as [_ _ _ (b & rest & Hb & Hr) _ _].
    assert (donations t = [(priority t, priority_lock_master t)]) as Hd.
    { unfold donations, stored_pairs. by rewrite E0. }
    rewrite Hd in Hb |- *. injection Hb as -> -> <-. by rewrite filter_cons_True.
  - destruct (release_stored lock t Hwf) as (co & ps & ls & ps' & ls' & -> & Hc & Hco & Hp & Hl & Ht). simpl.
    pose proof (filter_partition (λ e : Z * Z, e.2 = lock) (stored_pairs t)) as Hpart. cbn beta in Hpart.
    pose proof (stored_pairs_length t Hwf) as Hlen. destruct Hwf as [_ _ Hidx (b & rest & Hb & Hr) _ _].
    set (t1 := set_stored ps' ls' (stored_index t - co) t).
    assert ((if decide (co = 0) then mret (set_stored ps ls (stored_index t) t) else
        c ← compact_loop (Z.to_nat (stored_index t)) 0 ps ls; mret (set_stored c.1 c.2 (stored_index t - co) t)) = Ok t1) as ->.
    { destruct (decide (co = 0)) as [Hc0|Hc0]; [|by rewrite Hc].
      injection Hc as -> ->. unfold t1. by rewrite Hc0, Z.sub_0_r. }
    simpl. assert (stored_pairs t1 = filter (λ e, e.2 ≠ lock) (stored_pairs t)) as Hsp by exact Ht.
    unfold donations in Hb. unfold donations at 2. rewrite filter_app.
    destruct (decide (priority_lock_master t = lock)) as [Hm|Hm].
    + assert (∃ init pl ml, stored_pairs t1 = init ++ [(pl, ml)]) as (init & pl & ml & Hlast).
      { destruct (stored_pairs t) as [|e0 es] eqn:Es; [simpl in Hlen; lia|]. simpl in Hb. injection Hb as -> Hb.
        rewrite Hsp, filter_cons_True by done.
        destruct (exists_last (l := (b, NULL) :: filter (λ e, e.2 ≠ lock) es)) as (init & [pl ml] & Hlast); [done|].
        rewrite Hlast. eauto. }
      destruct (stored_last t1 init pl ml) as (Hrp & Hrm & Htk & Hk1); [done|done|simpl; lia|done|].
      simpl in Hrp, Hrm, Htk, Hk1. rewrite Hrp. simpl. rewrite Hrm. simpl. eexists. split; [done|].
      assert (donations (set_master ml (set_priority_field pl (set_stored ps' ls' (stored_index t - co - 1) t1))) =
        filter (λ e, e.2 ≠ lock) (stored_pairs t)) as Hd.
      { unfold donations, stored_pairs at 1. simpl. unfold slots in Htk. simpl in Htk. by rewrite Htk, <- Hsp. }
      rewrite (filter_cons_False _ (priority t, _)), filter_nil, app_nil_r by (simpl; tauto).
      split_and!; try done. apply Hwf'; [done|done|simpl; lia|].
      rewrite Hd. unfold donations. rewrite filter_app, (filter_cons_False _ (priority t, _)), filter_nil, app_nil_r by (simpl; tauto). done.
    + exists t1. split; [done|]. rewrite (filter_cons_True _ (priority t, _)), filter_nil by done.
      assert (donations t1 = filter (λ e, e.2 ≠ lock) (stored_pairs t) ++ [(priority t, priority_lock_master t)]) as Hd
        by (unfold donations; by rewrite Hsp).
      split_and!; try done. apply Hwf'; [done|done|simpl; lia|].
      rewrite Hd. unfold donations. by rewrite filter_app, (filter_cons_True _ (priority t, _)), filter_nil by done.
Qed.

Lemma priority_is_last t : last (donations t) = Some (priority t, priority_lock_master t).
Proof. unfold donations. by rewrite last_snoc. Qed.

(** In a well-formed structure the current priority is the highest entry. *)
Lemma priority_is_max t e : thread_wf t → e ∈ donations t → e.1 ≤ priority t.
Proof.
  intros [_ _ _ _ _ Hs]. unfold donations in *. rewrite elem_of_app, list_elem_of_singleton.
  intros [He| ->]; [|done]. apply StronglySorted_app in Hs as (Hs & _ & _).
  specialize (Hs e (priority t, priority_lock_master t) He). simpl in Hs. specialize (Hs ltac:(left)). lia.
Qed.

Lemma init_thread_wf prio t : init_thread prio = Ok t → thread_wf t ∧ donations t = [(prio, NULL)].
Proof.
  unfold init_thread. destruct (bool_decide (PRI_MIN ≤ prio)) eqn:E1; [|done].
  destruct (bool_decide (prio ≤ PRI_MAX)); [|done]. simpl. intros [= <-].
  apply bool_decide_eq_true in E1. unfold PRI_MIN in E1. split; [|done].
  split; simpl; try done.
  - exists prio, []. done.
  - by repeat constructor.
  - by repeat constructor.
Qed.
End donation.
