(* ===== verification/FixedPoint.v ===== *)
(** * threads/fixed-point.h and the 4.4BSD scheduler's arithmetic

    17.14 fixed point on 32-bit [int], with the 64-bit intermediates of the
    source, and the per-thread formulas of threads/thread.c.  Arithmetic wraps
    at the width of the C type; the theorems give the ranges where it is exact. *)

From S2P Require Import Prelude Thread.

Local Open Scope Z_scope.

Definition Q : Z := 14.
Definition F : Z := Z.shiftl 1 Q.

Definition INT_TO_FP (n : Z) : Z := s32 (n * F).
Definition FP_TO_INT_TRUNC (x : Z) : Z := x ÷ F.
Definition FP_TO_INT_ROUND (x : Z) : Z :=
  if decide (x >= 0) then s32 (x + F ÷ 2) ÷ F else s32 (x - F ÷ 2) ÷ F.
Definition FP_ADD_FP (x y : Z) : Z := s32 (x + y).
Definition FP_SUB_FP (x y : Z) : Z := s32 (x - y).
Definition FP_ADD_INT (x n : Z) : Z := s32 (x + s32 (n * F)).
Definition FP_SUB_INT (x n : Z) : Z := s32 (x - s32 (n * F)).
(** The product and the shifted dividend are [int64_t]; the result is stored
    in an [int]. *)
Definition FP_MUL_FP (x y : Z) : Z := s32 (s64 (x * y) ÷ F).
Definition FP_MUL_INT (x n : Z) : Z := s32 (x * n).
Definition FP_DIV_FP (x y : Z) : Z := s32 (s64 (x * F) ÷ y).
Definition FP_DIV_INT (x n : Z) : Z := x ÷ n.

(** ** Formulas of thread.c *)

(** thread_update_priority_with_nice, for a thread other than the idle one. *)
Definition nice_priority (recent_cpu nice : Z) : Z :=
  let p := s32 (s32 (PRI_MAX - FP_TO_INT_TRUNC (FP_DIV_INT recent_cpu 4)) - s32 (nice * 2)) in
  let p := if decide (p > PRI_MAX) then PRI_MAX else p in
  if decide (p < PRI_MIN) then PRI_MIN else p.

(** thread_update_recent_cpu, for a thread other than the idle one. *)
Definition next_recent_cpu (load_avg recent_cpu nice : Z) : Z :=
  let a := FP_MUL_INT load_avg 2 in
  let b := FP_DIV_FP a (FP_ADD_INT a 1) in
  FP_ADD_INT (FP_MUL_FP b recent_cpu) nice.

(** update_load_avg, [co] ready or running threads. *)
Definition next_load_avg (load_avg co : Z) : Z :=
  let a := FP_MUL_FP (FP_DIV_INT (INT_TO_FP 59) 60) load_avg in
  let b := FP_MUL_INT (FP_DIV_INT (INT_TO_FP 1) 60) co in
  FP_ADD_FP a b.

(** thread_get_load_avg and thread_get_recent_cpu. *)
Definition get_load_avg (load_avg : Z) : Z := FP_TO_INT_ROUND (FP_MUL_INT load_avg 100).
Definition get_recent_cpu (recent_cpu : Z) : Z := FP_TO_INT_ROUND (FP_MUL_INT recent_cpu 100).

(** ** Bounds and exactness *)

Lemma F_val : F = 16384.
Proof. done. Qed.

Lemma fp_round_exact x :
  - 2^31 + 8192 ≤ x < 2^31 - 8192 →
  let r := FP_TO_INT_ROUND x in - 8192 ≤ x - r * F ≤ 8192.
Proof.
  intros Hx. unfold FP_TO_INT_ROUND. rewrite F_val. change (16384 ÷ 2) with 8192.
  case_decide; rewrite s32_id by (unfold in_s32; lia); simpl.
  - rewrite Z.quot_div_nonneg by lia. dlia.
  - dlia.
Qed.

Lemma nice_priority_range recent_cpu nice :
  PRI_MIN ≤ nice_priority recent_cpu nice ≤ PRI_MAX.
Proof. unfold nice_priority, PRI_MIN, PRI_MAX. cbv zeta. repeat case_decide; lia. Qed.

(** Without overflow: PRI_MAX - recent_cpu / 4 - 2 nice, cut to the range. *)
Lemma nice_priority_exact recent_cpu nice :
  in_s32 recent_cpu → -20 ≤ nice ≤ 20 →
  nice_priority recent_cpu nice =
    Z.max PRI_MIN (Z.min PRI_MAX (PRI_MAX - (recent_cpu ÷ 4) ÷ F - 2 * nice)).
Proof.
  intros Hr Hn. unfold nice_priority, FP_TO_INT_TRUNC, FP_DIV_INT, PRI_MAX, PRI_MIN, in_s32 in *. rewrite F_val.
  assert (-131072 ≤ recent_cpu ÷ 4 ÷ 16384 ≤ 131072) by dlia.
  rewrite (s32_id (nice * 2)), (s32_id (63 - _)) by (unfold in_s32; lia).
  rewrite s32_id by (unfold in_s32; lia). cbv zeta. repeat case_decide; lia.
Qed.

(** A thread that has used more CPU, or is nicer, has no higher priority. *)
Lemma nice_priority_mono r1 r2 n1 n2 :
  in_s32 r1 → in_s32 r2 → -20 ≤ n1 ≤ 20 → -20 ≤ n2 ≤ 20 → r1 ≤ r2 → n1 ≤ n2 →
  nice_priority r2 n2 ≤ nice_priority r1 n1.
Proof.
  intros. rewrite !nice_priority_exact by done.
  assert (r1 ÷ 4 ÷ F ≤ r2 ÷ 4 ÷ F).
  { apply Z.quot_le_mono; [done|]. apply Z.quot_le_mono; lia. }
  lia.
Qed.

(** The load average of a system of at most [n] threads never exceeds [n]. *)
Lemma next_load_avg_bound n load_avg co :
  0 ≤ n < 131072 → 0 ≤ load_avg ≤ n * F → 0 ≤ co ≤ n →
  next_load_avg load_avg co = (16110 * load_avg) / F + 273 * co ∧
  0 ≤ next_load_avg load_avg co ≤ n * F.
Proof.
  intros Hn Hl Hc. unfold next_load_avg.
  change (FP_DIV_INT (INT_TO_FP 59) 60) with 16110. change (FP_DIV_INT (INT_TO_FP 1) 60) with 273.
  unfold FP_MUL_FP, FP_MUL_INT, FP_ADD_FP. rewrite F_val in *.
  rewrite s64_id by (unfold in_s64; lia). rewrite Z.quot_div_nonneg by lia.
  assert (0 ≤ 16110 * load_avg / 16384 ≤ 16110 * n) by dlia.
  rewrite (s32_id (_ / _)), (s32_id (273 * _)) by (unfold in_s32; lia).
  rewrite s32_id by (unfold in_s32; lia). lia.
Qed.

(** The decay factor 2 load / (2 load + 1) is below one. *)
Lemma decay_factor load_avg :
  0 ≤ load_avg < 2^29 →
  let a := FP_MUL_INT load_avg 2 in
  let b := FP_DIV_FP a (FP_ADD_INT a 1) in 0 ≤ b < F.
Proof.
  intros Hl. unfold FP_MUL_INT, FP_DIV_FP, FP_ADD_INT. rewrite F_val.
  rewrite (s32_id (load_avg * 2)) by (unfold in_s32; lia). change (s32 (1 * 16384)) with 16384.
  rewrite (s32_id (load_avg * 2 + 16384)) by (unfold in_s32; lia).
  rewrite s64_id by (unfold in_s64; lia). rewrite Z.quot_div_nonneg by lia.
  assert (0 ≤ load_avg * 2 * 16384 / (load_avg * 2 + 16384) < 16384).
  { split; [apply Z.div_pos; lia|]. apply Z.div_lt_upper_bound; lia. }
  rewrite s32_id by (unfold in_s32; lia). done.
Qed.

(** recent_cpu decays: with nice 0 its magnitude does not grow. *)
Lemma next_recent_cpu_decay load_avg recent_cpu :
  0 ≤ load_avg < 2^29 → - 2^31 < recent_cpu < 2^31 →
  Z.abs (next_recent_cpu load_avg recent_cpu 0) ≤ Z.abs recent_cpu ∧
  0 ≤ next_recent_cpu load_avg recent_cpu 0 * Z.sgn recent_cpu.
Proof.
  intros Hl Hr. unfold next_recent_cpu. pose proof (decay_factor load_avg Hl) as Hb. cbv zeta in Hb |- *.
  set (b := FP_DIV_FP _ _) in *. rewrite F_val in Hb. unfold FP_ADD_INT, FP_MUL_FP. rewrite F_val.
  change (s32 (0 * 16384)) with 0. rewrite Z.add_0_r.
  assert (- 2^31 * 16384 < b * recent_cpu < 2^31 * 16384) by nia.
  rewrite s64_id by (unfold in_s64; lia).
  assert (- 2^31 < b * recent_cpu ÷ 16384 < 2^31) by dlia.
  rewrite (s32_id (_ ÷ _)) by (unfold in_s32; lia). rewrite s32_id by (unfold in_s32; lia).
  destruct (Z.lt_trichotomy recent_cpu 0) as [Hn|[->|Hp]].
  - assert (recent_cpu * 16383 ≤ b * recent_cpu ≤ 0) by nia.
    assert (recent_cpu ≤ b * recent_cpu ÷ 16384 ≤ 0) by dlia. lia.
  - by rewrite Z.mul_0_r.
  - assert (0 ≤ b * recent_cpu ≤ recent_cpu * 16383) by nia.
    assert (0 ≤ b * recent_cpu ÷ 16384 ≤ recent_cpu) by dlia. lia.
Qed.

(** The value returned to the user is within half a unit of 100 times the
    fixed-point value, as long as that product fits an [int]. *)
Lemma get_recent_cpu_exact recent_cpu :
  -21474000 ≤ recent_cpu ≤ 21474000 →
  - 8192 ≤ 100 * recent_cpu - get_recent_cpu recent_cpu * F ≤ 8192.
Proof.
  intros H. unfold get_recent_cpu, FP_MUL_INT. rewrite (s32_id (recent_cpu * 100)) by (unfold in_s32; lia).
  rewrite (Z.mul_comm 100). apply fp_round_exact. lia.
Qed.
