(* ===== verification/BaseTheorems.v ===== *)
(** * Properties of bitmaps, donation stacks and the scheduler's arithmetic *)

From S2P Require Import Prelude Bitmap Thread FixedPoint.

Local Open Scope Z_scope.

(** ** lib/kernel/bitmap.c *)

(** Bitmap_scan_and_flip finds the first group of [cnt] bits with the
    value at or after [start], flips exactly that group and returns its index;
    it returns BITMAP_ERROR and changes nothing only if there is none. *)
Theorem scan_and_flip_first b start cnt v :
  wf b → 0 ≤ start ≤ bit_cnt b → 0 ≤ cnt →
  (∃ r b', bitmap_scan_and_flip b start cnt v = Ok (r, b') ∧ wf b' ∧ bit_cnt b' = bit_cnt b ∧
     start ≤ r ∧ r + cnt ≤ bit_cnt b ∧ r ≠ BITMAP_ERROR ∧ all_bits b r cnt v ∧
     (∀ k, start ≤ k < r → ¬ all_bits b k cnt v) ∧
     ∀ j, 0 ≤ j → bit_at b' j = if decide (r ≤ j < r + cnt) then negb v else bit_at b j) ∨
  (bitmap_scan_and_flip b start cnt v = Ok (BITMAP_ERROR, b) ∧
     ∀ k, start ≤ k → k + cnt ≤ bit_cnt b → ¬ all_bits b k cnt v).
Proof. apply bitmap_scan_and_flip_ok. Qed.

(** Bits 0, 1, 3 of 40 are set. *)
Definition demo_bitmap : bitmap := Bitmap 40 [11; 0].

Lemma scan_and_flip_first_witness :
  ∃ b', bitmap_scan_and_flip demo_bitmap 0 2 false = Ok (4, b') ∧ bit_at b' 5 = true.
Proof.
  destruct (scan_and_flip_first demo_bitmap 0 2 false) as [(r & b' & E & _ & _ & _ & _ & _ & _ & _ & Hb)|[E _]];
    [compute_hyp..| |].
  - assert (r = 4) as Hr by (assert (fst <$> bitmap_scan_and_flip demo_bitmap 0 2 false = Ok 4) as E4
      by (vm_compute; reflexivity); rewrite E in E4; by injection E4).
    exists b'. rewrite Hr in E. split; [exact E|]. rewrite Hb, Hr by lia. vm_compute. reflexivity.
  - vm_compute in E. discriminate E.
Defined.

(** bitmap_count returns the number of bits of the group that have the
    value; out of range, bitmap_set and bitmap_test panic. *)
Theorem bitmap_count_counts b start cnt v :
  wf b → 0 ≤ start → 0 ≤ cnt → start + cnt ≤ bit_cnt b →
  bitmap_count b start cnt v = Ok (Z.of_nat (length (filter (λ j, bit_at b j = v) (seqZ start cnt)))) ∧
  ∀ i, bit_cnt b ≤ i → bitmap_set b i v = Err EPanic ∧ bitmap_test b i = Err EPanic.
Proof.
  intros Hwf Hs Hc Hr. split; [|intros; split; [by apply bitmap_set_oob|by apply bitmap_test_oob]].
  unfold bitmap_count, assert. rewrite u32_id by (destruct Hwf; unfold in_u32; lia).
  rewrite !bool_decide_true by lia. simpl. rewrite count_loop_ok by (done || lia).
  by rewrite Z.add_0_l, Z.add_0_r, Z2Nat.id.
Qed.

Lemma bitmap_count_counts_witness : bitmap_count demo_bitmap 0 40 true = Ok 3.
Proof.
  destruct (bitmap_count_counts demo_bitmap 0 40 true) as [E _]; [compute_hyp|lia|lia|compute_hyp|].
  rewrite E. vm_compute. reflexivity.
Defined.

(** Bitmap_scan_and_flip with a count of zero returns [start], not 0, and
    changes nothing. *)
Theorem scan_and_flip_zero b start v :
  wf b → 0 ≤ start ≤ bit_cnt b → bitmap_scan_and_flip b start 0 v = Ok (start, b).
Proof.
  intros Hwf Hs. unfold bitmap_scan_and_flip.
  destruct (bitmap_scan_ok b start 0 v) as [(r & -> & ? & ? & _ & Hk)|[_ Hk]]; [done|done|lia| |].
  - assert (r = start) as ->.
    { destruct (decide (r = start)); [done|]. exfalso. apply (Hk start); [lia|]. intros j Hj. lia. }
    simpl. rewrite decide_True by (destruct Hwf; unfold BITMAP_ERROR; lia).
    unfold bitmap_set_multiple, assert. rewrite u32_id by (destruct Hwf; unfold in_u32; lia).
    by rewrite !bool_decide_true by lia.
  - exfalso. apply (Hk start); [lia|lia|]. intros j Hj. lia.
Qed.

Lemma scan_and_flip_zero_witness : bitmap_scan_and_flip demo_bitmap 7 0 true = Ok (7, demo_bitmap).
Proof. apply scan_and_flip_zero; [compute_hyp|vm_compute; split; discriminate]. Defined.

(** ** Priority donation *)


(** A thread of priority 31 with donations of 40 and 50 through two locks. *)
Definition demo_thread : thread :=
  match init_thread 31 with
  | Ok t => match donate 40 8 t with
            | Ok t => match donate 50 9 t with Ok t => t | Err _ => t end | Err _ => t end
  | Err _ => Thread 0 THREAD_BLOCKED 0 0 0 [] [] 0 0 0
  end.

Lemma demo_thread_wf : thread_wf demo_thread.
Proof.
  split; try (vm_compute; reflexivity).
  - vm_compute. split; discriminate.
  - exists 31, [(40, 8); (50, 9)]. split; [reflexivity|]. repeat constructor; discriminate.
  - repeat constructor; discriminate.
  - repeat constructor.
Qed.


(** A donation through a lock of more than the holder's priority becomes
    its priority, on top of the stack, as long as fewer than 30 are stored. *)
Theorem donate_pushes prio lock t :
  thread_wf t → priority t < prio → lock ≠ NULL → stored_index t < Z.of_nat STORED_MAX →
  ∃ t', donate prio lock t = Ok t' ∧ thread_wf t' ∧ donations t' = donations t ++ [(prio, lock)] ∧ priority t' = prio.
Proof.
  intros Hwf Hp Hl Hi. destruct (donate_ok prio lock t) as (t' & E & Hwf' & Hd & _); try done.
  exists t'. split_and!; try done. pose proof (priority_is_last t') as Hlast. rewrite Hd, last_snoc in Hlast.
  by injection Hlast.
Qed.

Lemma donate_pushes_witness : ∃ t', donate 60 10 demo_thread = Ok t' ∧ priority t' = 60.
Proof.
  destruct (donate_pushes 60 10 demo_thread demo_thread_wf) as (t' & E & _ & _ & Hp);
    [vm_compute; reflexivity|discriminate|vm_compute; reflexivity|]. exists t'. split; [exact E|exact Hp].
Defined.

(** Thread_set_priority to 60 by a thread that runs on a donation of 50
    leaves its priority at 50, although its own priority is now the higher
    one, and the donation stack is no longer ordered. *)
Theorem set_priority_ignores_higher :
  ∃ t', set_priority 60 demo_thread = Ok (t', false) ∧ priority t' = 50 ∧
    donations t' = [(60, NULL); (40, 8); (50, 9)] ∧ ¬ thread_wf t'.
Proof.
  eexists. split_and!; [vm_compute; reflexivity..|]. intros [_ _ _ _ _ Hs]. vm_compute in Hs.
  apply StronglySorted_inv in Hs as [_ Hs]. by inversion Hs.
Qed.

(** ** The 4.4BSD scheduler *)

(** The computed priority is PRI_MAX - recent_cpu / 4 - 2 nice cut to the
    priority range, so a thread that used more CPU or is nicer never gets a
    higher one. *)
Theorem nice_priority_formula r1 r2 n1 n2 :
  in_s32 r1 → in_s32 r2 → -20 ≤ n1 ≤ 20 → -20 ≤ n2 ≤ 20 → r1 ≤ r2 → n1 ≤ n2 →
  nice_priority r1 n1 = Z.max PRI_MIN (Z.min PRI_MAX (PRI_MAX - (r1 ÷ 4) ÷ F - 2 * n1)) ∧
  PRI_MIN ≤ nice_priority r2 n2 ≤ nice_priority r1 n1 ∧ nice_priority r1 n1 ≤ PRI_MAX.
Proof.
  intros. pose proof (nice_priority_range r1 n1). pose proof (nice_priority_range r2 n2).
  split; [by apply nice_priority_exact|]. split; [|tauto]. split; [tauto|by apply nice_priority_mono].
Qed.

Lemma nice_priority_formula_witness : nice_priority 655360 5 = 43 ∧ nice_priority 655360 5 ≤ PRI_MAX.
Proof.
  destruct (nice_priority_formula 655360 655360 5 5) as [E [_ Hm]];
    [vm_compute; split; discriminate || reflexivity..|lia|lia|].
  split; [rewrite E; vm_compute; reflexivity|exact Hm].
Defined.

(** With at most [n] threads the load average stays between 0 and [n], and
    every second's update decays recent_cpu: with nice 0 its magnitude does
    not grow and its sign does not change.  Neither computation overflows. *)
Theorem load_avg_and_decay n load_avg co recent_cpu :
  0 ≤ n < 32768 → 0 ≤ load_avg ≤ n * F → 0 ≤ co ≤ n → - 2^31 < recent_cpu < 2^31 →
  next_load_avg load_avg co = (16110 * load_avg) / F + 273 * co ∧ 0 ≤ next_load_avg load_avg co ≤ n * F ∧
  Z.abs (next_recent_cpu load_avg recent_cpu 0) ≤ Z.abs recent_cpu ∧
  0 ≤ next_recent_cpu load_avg recent_cpu 0 * Z.sgn recent_cpu.
Proof.
  intros Hn Hl Hc Hr. destruct (next_load_avg_bound n load_avg co); [lia|done|done|].
  destruct (next_recent_cpu_decay load_avg recent_cpu); [rewrite F_val in *; lia|done|]. done.
Qed.

Lemma load_avg_and_decay_witness :
  0 ≤ next_load_avg 16384 2 ≤ 2 * F ∧ Z.abs (next_recent_cpu 16384 100000 0) ≤ 100000.
Proof.
  destruct (load_avg_and_decay 2 16384 2 100000) as (_ & Hl & Hr & _);
    [lia|rewrite F_val; lia|lia|lia|]. split; [exact Hl|exact Hr].
Defined.

(** Thread_get_recent_cpu rounds 100 times recent_cpu to the nearest
    integer while that product fits an int, but a thread with 1311 ticks of
    recent_cpu is reported with a negative value. *)
Theorem recent_cpu_report :
  (∀ recent_cpu, -21474000 ≤ recent_cpu ≤ 21474000 →
     - 8192 ≤ 100 * recent_cpu - get_recent_cpu recent_cpu * F ≤ 8192) ∧
  get_recent_cpu (INT_TO_FP 1311) = -131044.
Proof. split; [apply get_recent_cpu_exact|vm_compute; reflexivity]. Qed.
