(* ===== verification/Places.v ===== *)
(** * Where every thread is: the scheduler's abstract state

    The contract between the thread structures, the ready list and the lists of
    blocked threads: [places] relates the status of every thread to the list it
    is in.  One lemma per transition of threads/thread.c; Invariant.v shows that
    the operations of Kernel.v make only these. *)

From S2P Require Import Prelude Thread.

(** [σ] holds the status of the live threads, [run] the running one (none
    while a thread switch is under way), [blocked] the members of all lists
    other than the ready list.  A donation can put a blocked thread in the
    ready list; the idle thread is in no list. *)
Record places (σ : gmap Z thread_status) (run : option Z) (idle : Z) (ready blocked : list Z) : Prop := {
  pl_null : σ !! NULL = None;
  pl_nodup : NoDup (ready ++ blocked);
  pl_ready : ∀ x, x ∈ ready → σ !! x = Some THREAD_READY ∨ σ !! x = Some THREAD_BLOCKED;
  pl_blocked : ∀ x, x ∈ blocked → σ !! x = Some THREAD_BLOCKED;
  pl_run : ∀ x, σ !! x = Some THREAD_RUNNING ↔ run = Some x;
  pl_queued : ∀ x, σ !! x = Some THREAD_READY → x ∈ ready ∨ x = idle;
  pl_waiting : ∀ x, σ !! x = Some THREAD_BLOCKED → x ∈ ready ++ blocked ∨ x = idle;
  pl_idle : idle ∉ ready ++ blocked;
}.

#[export] Instance places_proper σ run idle :
  Proper ((≡ₚ) ==> (≡ₚ) ==> iff) (places σ run idle).
Proof.
  enough (∀ r1 r2 b1 b2, r1 ≡ₚ r2 → b1 ≡ₚ b2 → places σ run idle r1 b1 → places σ run idle r2 b2)
    as H by (intros r1 r2 Hr b1 b2 Hb; split; apply H; done).
  intros r1 r2 b1 b2 Hr Hb []. split; intros *; rewrite <- ?Hr, <- ?Hb; auto.
Qed.

Section transitions.
Context (σ : gmap Z thread_status) (idle : Z).
Implicit Types (ready blocked : list Z) (run : option Z) (x c : Z).

Lemma places_run_off c ready blocked :
  places σ (Some c) idle ready blocked → c ∉ ready ++ blocked.
Proof.
  intros P [H|H]%elem_of_app.
  - destruct (pl_ready _ _ _ _ _ P c H); rewrite (proj2 (pl_run _ _ _ _ _ P c)) in *; done.
  - pose proof (pl_blocked _ _ _ _ _ P c H). rewrite (proj2 (pl_run _ _ _ _ _ P c)) in *; done.
Qed.

(** Case analysis on lookups in an updated map. *)
Ltac upd :=
  repeat match goal with
  | H : context [<[?i := _]> _ !! ?i] |- _ => rewrite lookup_insert_eq in H
  | |- context [<[?i := _]> _ !! ?i] => rewrite lookup_insert_eq
  end;
  try match goal with
  | H : context [<[?i := _]> _ !! ?j] |- _ =>
      destruct (decide (i = j)) as [->|]; [rewrite lookup_insert_eq in H|rewrite lookup_insert_ne in H by done]
  | |- context [<[?i := _]> _ !! ?j] =>
      destruct (decide (i = j)) as [->|]; [rewrite lookup_insert_eq|rewrite lookup_insert_ne by done]
  end.

(** The running thread stops running and joins a list of blocked threads. *)
Lemma places_block c ready blocked :
  places σ (Some c) idle ready blocked → c ≠ idle →
  places (<[c := THREAD_BLOCKED]> σ) None idle ready (c :: blocked).
Proof.
  intros P Hc. pose proof (places_run_off _ _ _ P) as Hoff. destruct P as [? ? Hr Hb Hrun Hq Hw Hi].
  assert (σ !! c = Some THREAD_RUNNING) as Hcr by by apply Hrun.
  rewrite elem_of_app in Hoff. split.
  - rewrite lookup_insert_ne; [done|congruence].
  - rewrite <- Permutation_middle, (NoDup_cons c). rewrite elem_of_app. done.
  - intros x Hx. upd; [tauto|auto].
  - intros x [->|Hx]%elem_of_cons; upd; auto.
  - intros x. upd; [done|]. rewrite Hrun. naive_solver.
  - intros x. upd; [done|auto].
  - intros x. upd; [intros _; left; elem_simpl; tauto|].
    intros [?|?]%Hw; [|auto]. left. rewrite <- Permutation_middle. by right.
  - rewrite <- Permutation_middle, elem_of_cons. naive_solver.
Qed.

(** The idle thread stops running: it is in no list. *)
Lemma places_idle_off ready blocked s :
  s ≠ THREAD_RUNNING → places σ (Some idle) idle ready blocked →
  places (<[idle := s]> σ) None idle ready blocked.
Proof.
  intros Hs P. destruct P as [? ? Hr Hb Hrun Hq Hw Hi].
  assert (σ !! idle = Some THREAD_RUNNING) as Hcr by by apply Hrun.
  rewrite elem_of_app in Hi. split; [..|by rewrite elem_of_app].
  - rewrite lookup_insert_ne; [done|congruence].
  - done.
  - intros x Hx. upd; [tauto|auto].
  - intros x Hx. upd; [tauto|auto].
  - intros x. upd; [naive_solver|]. rewrite Hrun. naive_solver.
  - intros x. upd; auto.
  - intros x. upd; auto.
Qed.

(** The running thread goes back to the ready list. *)
Lemma places_yield c ready blocked :
  places σ (Some c) idle ready blocked → c ≠ idle →
  places (<[c := THREAD_READY]> σ) None idle (c :: ready) blocked.
Proof.
  intros P Hc. pose proof (places_run_off _ _ _ P) as Hoff. destruct P as [? ? Hr Hb Hrun Hq Hw Hi].
  assert (σ !! c = Some THREAD_RUNNING) as Hcr by by apply Hrun.
  rewrite elem_of_app in Hoff. split; simpl.
  - rewrite lookup_insert_ne; [done|congruence].
  - rewrite (NoDup_cons c). by rewrite elem_of_app.
  - intros x [->|Hx]%elem_of_cons; upd; auto.
  - intros x Hx. upd; [tauto|auto].
  - intros x. upd; [done|]. rewrite Hrun. naive_solver.
  - intros x. upd; [intros _; left; by left|]. intros [?|?]%Hq; [left; by right|auto].
  - intros x. upd; [done|]. intros [?|?]%Hw; [left; by right|auto].
  - rewrite elem_of_cons. naive_solver.
Qed.

(** The running thread exits. *)
Lemma places_exit c ready blocked :
  places σ (Some c) idle ready blocked → places (<[c := THREAD_DYING]> σ) None idle ready blocked.
Proof.
  intros P. pose proof (places_run_off _ _ _ P) as Hoff. destruct P as [? ? Hr Hb Hrun Hq Hw Hi].
  assert (σ !! c = Some THREAD_RUNNING) as Hcr by by apply Hrun.
  rewrite elem_of_app in Hoff. split; [|done|..|done].
  - rewrite lookup_insert_ne; [done|congruence].
  - intros x Hx. upd; [tauto|auto].
  - intros x Hx. upd; [tauto|auto].
  - intros x. upd; [done|]. rewrite Hrun. naive_solver.
  - intros x. upd; [done|auto].
  - intros x. upd; [done|auto].
Qed.

(** A blocked thread is made ready. *)
Lemma places_unblock run x ready blocked :
  places σ run idle ready (x :: blocked) →
  places (<[x := THREAD_READY]> σ) run idle (x :: ready) blocked.
Proof.
  intros [? Hnd Hr Hb Hrun Hq Hw Hi]. rewrite <- Permutation_middle in Hnd, Hi.
  apply (NoDup_cons x) in Hnd as [Hx Hnd]. rewrite elem_of_app in Hx.
  assert (σ !! x = Some THREAD_BLOCKED) as Hxb by (apply Hb; by left).
  split; simpl; [..|done].
  - rewrite lookup_insert_ne; [done|congruence].
  - rewrite (NoDup_cons x). by rewrite elem_of_app.
  - intros y [->|Hy]%elem_of_cons; upd; auto.
  - intros y Hy. upd; [tauto|]. apply Hb. by right.
  - intros y. upd; [|done]. rewrite <- Hrun. naive_solver.
  - intros y. upd; [intros _; left; by left|]. intros [?|?]%Hq; [left; by right|auto].
  - intros y. upd; [done|]. intros [Hy|?]%Hw; [|auto]. left. by rewrite Permutation_middle.
Qed.

(** A donation moves a blocked thread to the ready list. *)
Lemma places_promote run x ready blocked :
  places σ run idle ready (x :: blocked) → places σ run idle (x :: ready) blocked.
Proof.
  intros [? Hnd Hr Hb Hrun Hq Hw Hi].
  assert ((x :: ready) ++ blocked ≡ₚ ready ++ x :: blocked) as E by apply Permutation_middle.
  split; rewrite ?E; try done.
  - intros y [->|Hy]%elem_of_cons; [|auto]. right. apply Hb. by left.
  - intros y Hy. apply Hb. by right.
  - intros y [?|?]%Hq; [left; by right|auto].
  - intros y. rewrite E. apply Hw.
Qed.

(** The scheduler runs a thread of the ready list. *)
Lemma places_dispatch x ready blocked :
  places σ None idle (x :: ready) blocked →
  places (<[x := THREAD_RUNNING]> σ) (Some x) idle ready blocked.
Proof.
  intros [? Hnd Hr Hb Hrun Hq Hw Hi]. simpl in Hnd. apply (NoDup_cons x) in Hnd as [Hx Hnd].
  rewrite elem_of_app in Hx. simpl in Hi. apply not_elem_of_cons in Hi as [Hix Hi].
  assert (σ !! x ≠ None) as Hxs by (destruct (Hr x) as [->| ->]; [by left|done..]).
  split; [|done|..|done].
  - rewrite lookup_insert_ne; [done|congruence].
  - intros y Hy. upd; [tauto|]. apply Hr. by right.
  - intros y Hy. upd; [tauto|auto].
  - intros y. upd; [done|]. rewrite Hrun. naive_solver.
  - intros y. upd; [done|]. intros [[?|?]%elem_of_cons| ?]%Hq; naive_solver.
  - intros y. upd; [done|]. simpl in Hw. intros [[?|?]%elem_of_cons| ?]%Hw; naive_solver.
Qed.

(** The scheduler runs the idle thread. *)
Lemma places_dispatch_idle ready blocked :
  is_Some (σ !! idle) → places σ None idle ready blocked →
  places (<[idle := THREAD_RUNNING]> σ) (Some idle) idle ready blocked.
Proof.
  intros [s Hs] [? Hnd Hr Hb Hrun Hq Hw Hi]. rewrite elem_of_app in Hi.
  split; [|done|..|by rewrite elem_of_app].
  - rewrite lookup_insert_ne; [done|congruence].
  - intros y Hy. upd; [tauto|auto].
  - intros y Hy. upd; [tauto|auto].
  - intros y. upd; [done|]. rewrite Hrun. naive_solver.
  - intros y. upd; [done|auto].
  - intros y. upd; [done|auto].
Qed.

(** The page of a thread that has exited is freed. *)
Lemma places_free run x ready blocked :
  σ !! x = Some THREAD_DYING → places σ run idle ready blocked →
  places (delete x σ) run idle ready blocked.
Proof.
  intros Hx [? Hnd Hr Hb Hrun Hq Hw Hi].
  assert (∀ y s, s ≠ THREAD_DYING → delete x σ !! y = Some s ↔ σ !! y = Some s) as E.
  { intros y s Hs. rewrite lookup_delete_Some. split; [tauto|]. intros. split; [congruence|done]. }
  split; [rewrite lookup_delete_None; auto|done|..|done]; intros y; rewrite ?E by done; auto.
Qed.

(** thread_create makes a blocked thread on a fresh page. *)
Lemma places_create run x ready blocked :
  σ !! x = None → x ≠ NULL → x ≠ idle → places σ run idle ready blocked →
  places (<[x := THREAD_BLOCKED]> σ) run idle ready (x :: blocked).
Proof.
  intros Hx Hn Hxi [? Hnd Hr Hb Hrun Hq Hw Hi].
  assert (x ∉ ready) as Hxr by (intros E; destruct (Hr x E); congruence).
  assert (x ∉ blocked) as Hxb by (intros E; specialize (Hb x E); congruence).
  split.
  - by rewrite lookup_insert_ne.
  - rewrite <- Permutation_middle, (NoDup_cons x), elem_of_app. tauto.
  - intros y Hy. upd; [done|auto].
  - intros y [->|Hy]%elem_of_cons; upd; auto.
  - intros y. upd; [|done]. rewrite <- Hrun. naive_solver.
  - intros y. upd; [done|auto].
  - intros y. rewrite <- Permutation_middle. upd; [intros _; left; by left|].
    intros [?|?]%Hw; [left; by right|auto].
  - rewrite <- Permutation_middle, elem_of_cons. naive_solver.
Qed.

(** The running thread declares itself the idle thread. *)
Lemma places_become_idle c ready blocked :
  places σ (Some c) idle ready blocked → σ !! idle = None →
  places σ (Some c) c ready blocked.
Proof.
  intros P Hn. pose proof (places_run_off _ _ _ P) as Hoff. destruct P as [? ? Hr Hb Hrun Hq Hw Hi].
  split; auto; intros x Hx; [destruct (Hq x Hx)|destruct (Hw x Hx)]; subst; [auto|congruence|auto|congruence].
Qed.
End transitions.

(** A thread in a list is not running, and a running one is in none. *)
Lemma places_listed_not_running σ c idle ready blocked x :
  places σ (Some c) idle ready blocked → x ∈ ready ++ blocked → x ≠ c.
Proof. intros P Hx ->. by apply places_run_off in P. Qed.
