(* ===== verification/Kernel.v ===== *)
(** * threads/thread.c, threads/synch.c, devices/timer.c: the kernel as a machine

    The kernel's state holds the thread structures, the scheduler's lists, the
    semaphores, locks and condition variables by address, and the interrupt
    state.  A [struct lock] at [l] has its [holder] at [l] and its semaphore at
    [l + 4]; a [struct semaphore_elem] at [w] has its semaphore at [w + 8].

    A thread that is switched out resumes inside the kernel function that
    called [schedule]: each thread has a stack of [frame]s, the pieces of
    kernel code it has still to run.  [exec] runs one frame; it runs with
    interrupts off or between two points where an interrupt may arrive, so
    that an interrupt happens between frames only.  [kstep] is one step of the
    machine: the current thread's next frame, a call made by its own code, or a
    timer interrupt when interrupts are on.

    Lists of threads are the sequences of ListSpec.v, which KList.v proves the
    pointer lists implement. *)

From S2P Require Import Prelude ListSpec Thread FixedPoint.

Local Open Scope Z_scope.

(** ** Data *)

Record semaphore := Semaphore { value : Z; waiters : list Z }.

(** [&lock->semaphore], and the semaphore of a [struct semaphore_elem]. *)
Definition lock_sema (lock : Z) : Z := lock + 4.
Definition elem_sema (w : Z) : Z := w + 8.

(** Pieces of kernel code that a thread has still to run. *)
Inductive frame :=
| FSetLevel (on : bool)               (* intr_set_level (old_level) *)
| FYield                              (* thread_yield () *)
| FSemaInit (s v : Z)
| FSemaDown (s : Z)
| FSemaLoop (s : Z) (old : bool)      (* the while of sema_down and what follows *)
| FSemaTryDown (s : Z)
| FSemaUp (s : Z)
| FLockInit (l : Z)
| FLockAcquire (l : Z)
| FLockLoop (l : Z) (old : bool)      (* the while of lock_acquire and what follows *)
| FLockTryAcquire (l : Z)
| FTryHolder (l : Z)                  (* lock_try_acquire after a successful sema_try_down *)
| FLockRelease (l : Z)
| FCondInit (c : Z)
| FCondWait (c l w : Z)               (* w: the caller's struct semaphore_elem *)
| FCondSignal (c l : Z)
| FCondBroadcast (c l : Z)
| FSleep (t : Z)                      (* timer_sleep *)
| FSleepUntil (t : Z)                 (* timer_sleep after reading ticks *)
| FSetPriority (p : Z)
| FSetNice (n : Z)
| FNiceYield                          (* the last if of thread_set_nice *)
| FCreate (prio page : Z) (pos : nat) (body : list frame)
| FAllocTid (page : Z) (body : list frame)      (* allocate_tid, the lock held *)
| FCreateTail (page t : Z) (body : list frame)  (* thread_create after allocate_tid *)
| FCreateYield (page : Z)             (* the last if of thread_create *)
| FExit
| FIdleInit (s : Z)                   (* idle () up to its loop *)
| FIdleLoop                           (* intr_disable (); thread_block () *)
| FIdleWait.                          (* sti; hlt *)

Record kernel := Kernel {
  threads : gmap Z thread;
  stacks : gmap Z (list frame);
  all_list : list Z;
  ready_list : list Z;
  alarm_list : list Z;
  semas : gmap Z semaphore;
  holders : gmap Z Z;
  conds : gmap Z (list Z);
  cur : Z;
  idle_thread : Z;
  initial_thread : Z;
  intr_on : bool;
  in_external_intr : bool;
  yield_on_return : bool;
  ticks : Z;
  thread_ticks : Z;
  idle_ticks : Z;
  kernel_ticks : Z;
  load_avg : Z;
  next_tid : Z;
  thread_mlfqs : bool;
}.

(** Assignments to one field. *)
Definition with_threads (v : gmap Z thread) (k : kernel) : kernel :=
  Kernel v (stacks k) (all_list k) (ready_list k) (alarm_list k) (semas k) (holders k) (conds k)
    (cur k) (idle_thread k) (initial_thread k) (intr_on k) (in_external_intr k)
    (yield_on_return k) (ticks k) (thread_ticks k) (idle_ticks k) (kernel_ticks k) (load_avg k)
    (next_tid k) (thread_mlfqs k).
Definition with_stacks (v : gmap Z (list frame)) (k : kernel) : kernel :=
  Kernel (threads k) v (all_list k) (ready_list k) (alarm_list k) (semas k) (holders k)
    (conds k) (cur k) (idle_thread k) (initial_thread k) (intr_on k) (in_external_intr k)
    (yield_on_return k) (ticks k) (thread_ticks k) (idle_ticks k) (kernel_ticks k) (load_avg k)
    (next_tid k) (thread_mlfqs k).
Definition with_all_list (v : list Z) (k : kernel) : kernel :=
  Kernel (threads k) (stacks k) v (ready_list k) (alarm_list k) (semas k) (holders k) (conds k)
    (cur k) (idle_thread k) (initial_thread k) (intr_on k) (in_external_intr k)
    (yield_on_return k) (ticks k) (thread_ticks k) (idle_ticks k) (kernel_ticks k) (load_avg k)
    (next_tid k) (thread_mlfqs k).
Definition with_ready_list (v : list Z) (k : kernel) : kernel :=
  Kernel (threads k) (stacks k) (all_list k) v (alarm_list k) (semas k) (holders k) (conds k)
    (cur k) (idle_thread k) (initial_thread k) (intr_on k) (in_external_intr k)
    (yield_on_return k) (ticks k) (thread_ticks k) (idle_ticks k) (kernel_ticks k) (load_avg k)
    (next_tid k) (thread_mlfqs k).
Definition with_alarm_list (v : list Z) (k : kernel) : kernel :=
  Kernel (threads k) (stacks k) (all_list k) (ready_list k) v (semas k) (holders k) (conds k)
    (cur k) (idle_thread k) (initial_thread k) (intr_on k) (in_external_intr k)
    (yield_on_return k) (ticks k) (thread_ticks k) (idle_ticks k) (kernel_ticks k) (load_avg k)
    (next_tid k) (thread_mlfqs k).
Definition with_semas (v : gmap Z semaphore) (k : kernel) : kernel :=
  Kernel (threads k) (stacks k) (all_list k) (ready_list k) (alarm_list k) v (holders k)
    (conds k) (cur k) (idle_thread k) (initial_thread k) (intr_on k) (in_external_intr k)
    (yield_on_return k) (ticks k) (thread_ticks k) (idle_ticks k) (kernel_ticks k) (load_avg k)
    (next_tid k) (thread_mlfqs k).
Definition with_holders (v : gmap Z Z) (k : kernel) : kernel :=
  Kernel (threads k) (stacks k) (all_list k) (ready_list k) (alarm_list k) (semas k) v (conds k)
    (cur k) (idle_thread k) (initial_thread k) (intr_on k) (in_external_intr k)
    (yield_on_return k) (ticks k) (thread_ticks k) (idle_ticks k) (kernel_ticks k) (load_avg k)
    (next_tid k) (thread_mlfqs k).
Definition with_conds (v : gmap Z (list Z)) (k : kernel) : kernel :=
  Kernel (threads k) (stacks k) (all_list k) (ready_list k) (alarm_list k) (semas k) (holders k)
    v (cur k) (idle_thread k) (initial_thread k) (intr_on k) (in_external_intr k)
    (yield_on_return k) (ticks k) (thread_ticks k) (idle_ticks k) (kernel_ticks k) (load_avg k)
    (next_tid k) (thread_mlfqs k).
Definition with_cur (v : Z) (k : kernel) : kernel :=
  Kernel (threads k) (stacks k) (all_list k) (ready_list k) (alarm_list k) (semas k) (holders k)
    (conds k) v (idle_thread k) (initial_thread k) (intr_on k) (in_external_intr k)
    (yield_on_return k) (ticks k) (thread_ticks k) (idle_ticks k) (kernel_ticks k) (load_avg k)
    (next_tid k) (thread_mlfqs k).
Definition with_idle_thread (v : Z) (k : kernel) : kernel :=
  Kernel (threads k) (stacks k) (all_list k) (ready_list k) (alarm_list k) (semas k) (holders k)
    (conds k) (cur k) v (initial_thread k) (intr_on k) (in_external_intr k) (yield_on_return k)
    (ticks k) (thread_ticks k) (idle_ticks k) (kernel_ticks k) (load_avg k) (next_tid k)
    (thread_mlfqs k).
Definition with_intr_on (v : bool) (k : kernel) : kernel :=
  Kernel (threads k) (stacks k) (all_list k) (ready_list k) (alarm_list k) (semas k) (holders k)
    (conds k) (cur k) (idle_thread k) (initial_thread k) v (in_external_intr k)
    (yield_on_return k) (ticks k) (thread_ticks k) (idle_ticks k) (kernel_ticks k) (load_avg k)
    (next_tid k) (thread_mlfqs k).
Definition with_in_external_intr (v : bool) (k : kernel) : kernel :=
  Kernel (threads k) (stacks k) (all_list k) (ready_list k) (alarm_list k) (semas k) (holders k)
    (conds k) (cur k) (idle_thread k) (initial_thread k) (intr_on k) v (yield_on_return k)
    (ticks k) (thread_ticks k) (idle_ticks k) (kernel_ticks k) (load_avg k) (next_tid k)
    (thread_mlfqs k).
Definition with_yield_on_return (v : bool) (k : kernel) : kernel :=
  Kernel (threads k) (stacks k) (all_list k) (ready_list k) (alarm_list k) (semas k) (holders k)
    (conds k) (cur k) (idle_thread k) (initial_thread k) (intr_on k) (in_external_intr k) v
    (ticks k) (thread_ticks k) (idle_ticks k) (kernel_ticks k) (load_avg k) (next_tid k)
    (thread_mlfqs k).
Definition with_ticks (v : Z) (k : kernel) : kernel :=
  Kernel (threads k) (stacks k) (all_list k) (ready_list k) (alarm_list k) (semas k) (holders k)
    (conds k) (cur k) (idle_thread k) (initial_thread k) (intr_on k) (in_external_intr k)
    (yield_on_return k) v (thread_ticks k) (idle_ticks k) (kernel_ticks k) (load_avg k)
    (next_tid k) (thread_mlfqs k).
Definition with_thread_ticks (v : Z) (k : kernel) : kernel :=
  Kernel (threads k) (stacks k) (all_list k) (ready_list k) (alarm_list k) (semas k) (holders k)
    (conds k) (cur k) (idle_thread k) (initial_thread k) (intr_on k) (in_external_intr k)
    (yield_on_return k) (ticks k) v (idle_ticks k) (kernel_ticks k) (load_avg k) (next_tid k)
    (thread_mlfqs k).
Definition with_idle_ticks (v : Z) (k : kernel) : kernel :=
  Kernel (threads k) (stacks k) (all_list k) (ready_list k) (alarm_list k) (semas k) (holders k)
    (conds k) (cur k) (idle_thread k) (initial_thread k) (intr_on k) (in_external_intr k)
    (yield_on_return k) (ticks k) (thread_ticks k) v (kernel_ticks k) (load_avg k) (next_tid k)
    (thread_mlfqs k).
Definition with_kernel_ticks (v : Z) (k : kernel) : kernel :=
  Kernel (threads k) (stacks k) (all_list k) (ready_list k) (alarm_list k) (semas k) (holders k)
    (conds k) (cur k) (idle_thread k) (initial_thread k) (intr_on k) (in_external_intr k)
    (yield_on_return k) (ticks k) (thread_ticks k) (idle_ticks k) v (load_avg k) (next_tid k)
    (thread_mlfqs k).
Definition with_load_avg (v : Z) (k : kernel) : kernel :=
  Kernel (threads k) (stacks k) (all_list k) (ready_list k) (alarm_list k) (semas k) (holders k)
    (conds k) (cur k) (idle_thread k) (initial_thread k) (intr_on k) (in_external_intr k)
    (yield_on_return k) (ticks k) (thread_ticks k) (idle_ticks k) (kernel_ticks k) v
    (next_tid k) (thread_mlfqs k).
Definition with_next_tid (v : Z) (k : kernel) : kernel :=
  Kernel (threads k) (stacks k) (all_list k) (ready_list k) (alarm_list k) (semas k) (holders k)
    (conds k) (cur k) (idle_thread k) (initial_thread k) (intr_on k) (in_external_intr k)
    (yield_on_return k) (ticks k) (thread_ticks k) (idle_ticks k) (kernel_ticks k) (load_avg k)
    v (thread_mlfqs k).

(** ** Reading the state *)

Notation KM := (ST kernel).

(** The priority of thread [x], as the comparison functions read it. *)
Definition prio (ths : gmap Z thread) (x : Z) : Z :=
  match ths !! x with Some t => priority t | None => 0 end.

Definition wake (ths : gmap Z thread) (x : Z) : Z :=
  match ths !! x with Some t => wake_up_time t | None => 0 end.

Definition thread_priority_large_func (ths : gmap Z thread) (a b : Z) : bool :=
  bool_decide (prio ths a > prio ths b).

Definition alarm_less_func (ths : gmap Z thread) (a b : Z) : bool :=
  bool_decide (wake ths a < wake ths b).

(** list_sort as a total function: KList.v and ListSpec.v show that
    [S (length xs)] passes are enough. *)
Definition list_sort {A} (less : A → A → bool) (xs : list A) : list A :=
  default xs (sort_loop less (S (length xs)) xs).

(** A dereference of a [struct thread *], a [struct semaphore *], a
    [struct lock *] and a [struct condition *]. *)
Definition get_thread (x : Z) : KM thread := k ← st_get; st_opt EFault (threads k !! x).
Definition get_sema (s : Z) : KM semaphore := k ← st_get; st_opt EFault (semas k !! s).
Definition get_holder (l : Z) : KM Z := k ← st_get; st_opt EFault (holders k !! l).
Definition get_cond (c : Z) : KM (list Z) := k ← st_get; st_opt EFault (conds k !! c).

Definition put_thread (x : Z) (t : thread) : KM () :=
  st_modify (λ k, with_threads (<[x := t]> (threads k)) k).
Definition put_sema (s : Z) (v : semaphore) : KM () :=
  st_modify (λ k, with_semas (<[s := v]> (semas k)) k).
Definition put_holder (l h : Z) : KM () :=
  st_modify (λ k, with_holders (<[l := h]> (holders k)) k).
Definition put_cond (c : Z) (ws : list Z) : KM () :=
  st_modify (λ k, with_conds (<[c := ws]> (conds k)) k).
Definition mod_thread (x : Z) (f : thread → thread) : KM () :=
  t ← get_thread x; put_thread x (f t).

(** The current thread will run [fs] before what it had to run. *)
Definition push (fs : list frame) : KM () :=
  st_modify (λ k, with_stacks (<[cur k := fs ++ default [] (stacks k !! cur k)]> (stacks k)) k).

(** A fallible computation on one structure. *)
Definition lift {A} (r : res A) : KM A := λ k, match r with Ok a => Ok (a, k) | Err e => Err e end.

(** ** threads/interrupt.c *)

Definition intr_set_level (on : bool) : KM () :=
  k ← st_get;
  ASSERT (negb (on && in_external_intr k));;
  st_modify (with_intr_on on).

Definition intr_disable : KM bool :=
  old ← st_gets intr_on; st_modify (with_intr_on false);; mret old.

Definition intr_yield_on_return : KM () :=
  k ← st_get; ASSERT (in_external_intr k);; st_modify (with_yield_on_return true).

(** ** threads/thread.c: the scheduler *)

(** running_thread and the checks of thread_current. *)
Definition thread_current : KM Z :=
  k ← st_get;
  t ← get_thread (cur k);
  ASSERT (bool_decide (status t = THREAD_RUNNING));;
  mret (cur k).

Definition ready_insert (x : Z) : KM () :=
  st_modify (λ k, with_ready_list
    (insert_ordered (thread_priority_large_func (threads k)) x (ready_list k)) k).

Definition next_thread_to_run : KM Z :=
  k ← st_get;
  match ready_list k with
  | [] => mret (idle_thread k)
  | x :: r => st_modify (with_ready_list r);; mret x
  end.

(** The dying thread's page goes back to the allocator. *)
Definition palloc_free_page (page : Z) : KM () :=
  st_modify (λ k, with_stacks (delete page (stacks k)) (with_threads (delete page (threads k)) k)).

Definition thread_schedule_tail (prev : Z) : KM () :=
  k ← st_get;
  ASSERT (negb (intr_on k));;
  mod_thread (cur k) (set_status THREAD_RUNNING);;
  st_modify (with_thread_ticks 0);;
  if decide (prev = NULL) then mret () else
  p ← get_thread prev;
  if decide (status p = THREAD_DYING ∧ prev ≠ initial_thread k) then
    ASSERT (bool_decide (prev ≠ cur k));; palloc_free_page prev
  else mret ().

(** switch_threads makes [next] the running thread. *)
Definition schedule : KM () :=
  c ← st_gets cur;
  next ← next_thread_to_run;
  k ← st_get;
  ASSERT (negb (intr_on k));;
  t ← get_thread c;
  ASSERT (bool_decide (status t ≠ THREAD_RUNNING));;
  ASSERT (bool_decide (is_Some (threads k !! next)));;
  if decide (c = next) then thread_schedule_tail NULL
  else st_modify (with_cur next);; thread_schedule_tail c.

Definition thread_block : KM () :=
  k ← st_get;
  ASSERT (negb (in_external_intr k));;
  ASSERT (negb (intr_on k));;
  c ← thread_current;
  mod_thread c (set_status THREAD_BLOCKED);;
  schedule.

Definition thread_unblock (x : Z) : KM () :=
  k ← st_get;
  ASSERT (bool_decide (is_Some (threads k !! x)));;
  old ← intr_disable;
  t ← get_thread x;
  ASSERT (bool_decide (status t = THREAD_BLOCKED));;
  ready_insert x;;
  mod_thread x (set_status THREAD_READY);;
  intr_set_level old.

(** What follows [schedule] is the frame [FSetLevel]. *)
Definition thread_yield : KM () :=
  c ← thread_current;
  k ← st_get;
  ASSERT (negb (in_external_intr k));;
  old ← intr_disable;
  (if decide (c = idle_thread k) then mret () else ready_insert c);;
  mod_thread c (set_status THREAD_READY);;
  push [FSetLevel old];;
  schedule.

Definition thread_exit : KM () :=
  k ← st_get;
  ASSERT (negb (in_external_intr k));;
  intr_disable;;
  c ← thread_current;
  (if decide (c ∈ all_list k) then st_modify (with_all_list (filter (.≠ c) (all_list k)))
   else st_fail EFault);;
  mod_thread c (set_status THREAD_DYING);;
  schedule.

(** ** threads/synch.c: semaphores *)

Definition sema_init (s v : Z) : KM () :=
  ASSERT (bool_decide (s ≠ NULL));; put_sema s (Semaphore v []).

(** The thread [x] joins the waiters of [s], by priority. *)
Definition wait_insert (s x : Z) : KM () :=
  k ← st_get;
  sem ← get_sema s;
  put_sema s (Semaphore (value sem)
    (insert_ordered (thread_priority_large_func (threads k)) x (waiters sem))).

(** The [while] of sema_down and what follows it, interrupts off: a thread that
    blocks starts here again when it is scheduled. *)
Definition sema_down_loop (s : Z) (old : bool) : KM () :=
  sem ← get_sema s;
  if decide (value sem = 0) then
    c ← thread_current;
    wait_insert s c;;
    push [FSemaLoop s old];;
    thread_block
  else
    put_sema s (Semaphore (u32 (value sem - 1)) (waiters sem));;
    intr_set_level old.

Definition sema_down (s : Z) : KM () :=
  ASSERT (bool_decide (s ≠ NULL));;
  k ← st_get;
  ASSERT (negb (in_external_intr k));;
  old ← intr_disable;
  sema_down_loop s old.

Definition sema_try_down (s : Z) : KM bool :=
  ASSERT (bool_decide (s ≠ NULL));;
  old ← intr_disable;
  sem ← get_sema s;
  success ← (if decide (value sem > 0) then
               put_sema s (Semaphore (u32 (value sem - 1)) (waiters sem));; mret true
             else mret false);
  intr_set_level old;;
  mret success.

(** The final thread_yield, if any, is the frame [FYield]. *)
Definition sema_up (s : Z) : KM () :=
  ASSERT (bool_decide (s ≠ NULL));;
  old ← intr_disable;
  sem ← get_sema s;
  yield_if_necessary ←
    (match waiters sem with
     | [] => mret false
     | next :: ws =>
         put_sema s (Semaphore (value sem) ws);;
         t ← get_thread next;
         c ← thread_current;
         tc ← get_thread c;
         thread_unblock next;;
         mret (bool_decide (priority t > priority tc))
     end);
  sem ← get_sema s;
  put_sema s (Semaphore (u32 (value sem + 1)) (waiters sem));;
  intr_set_level old;;
  k ← st_get;
  if yield_if_necessary && negb (in_external_intr k) then push [FYield] else mret ().

(** ** threads/synch.c: locks *)

Definition lock_init (l : Z) : KM () :=
  ASSERT (bool_decide (l ≠ NULL));;
  put_holder l NULL;;
  sema_init (lock_sema l) 1.

Definition lock_held_by_current_thread (l : Z) : KM bool :=
  ASSERT (bool_decide (l ≠ NULL));;
  h ← get_holder l;
  c ← thread_current;
  mret (bool_decide (h = c)).

Definition without (x : Z) (sem : semaphore) : semaphore :=
  Semaphore (value sem) (filter (.≠ x) (waiters sem)).

(** list_remove (&x->elem): [elem] links a thread into the ready list or into
    the waiters of one semaphore.  On an element of no list, list_remove
    follows stale or null links. *)
Definition elem_remove (x : Z) : KM () :=
  k ← st_get;
  if decide (x ∈ ready_list k) then st_modify (with_ready_list (filter (.≠ x) (ready_list k)))
  else if decide (Exists (λ p, x ∈ waiters p.2) (map_to_list (semas k)))
  then st_modify (with_semas (without x <$> semas k))
  else st_fail EFault.

(** The donation inside the [while] of lock_acquire. *)
Definition donate_to_holder (l c : Z) : KM () :=
  h ← get_holder l;
  th ← get_thread h;
  tc ← get_thread c;
  if decide (priority th < priority tc) then
    th' ← lift (donate (priority tc) l th);
    put_thread h th';;
    elem_remove h;;
    ready_insert h
  else mret ().

(** The [while] of lock_acquire and what follows it. *)
Definition lock_acquire_loop (l : Z) (old : bool) : KM () :=
  k ← st_get;
  sem ← get_sema (lock_sema l);
  if decide (value sem = 0) then
    donate_to_holder l (cur k);;
    wait_insert (lock_sema l) (cur k);;
    push [FLockLoop l old];;
    thread_block
  else
    put_sema (lock_sema l) (Semaphore (u32 (value sem - 1)) (waiters sem));;
    c ← thread_current;
    put_holder l c;;
    intr_set_level old.

Definition lock_acquire (l : Z) : KM () :=
  ASSERT (bool_decide (l ≠ NULL));;
  k ← st_get;
  ASSERT (negb (in_external_intr k));;
  held ← lock_held_by_current_thread l;
  ASSERT (negb held);;
  old ← intr_disable;
  thread_current;;
  lock_acquire_loop l old.

(** The assignment of the holder is the frame [FTryHolder]: sema_try_down has
    restored the interrupt level. *)
Definition lock_try_acquire (l : Z) : KM () :=
  held ← lock_held_by_current_thread l;
  ASSERT (negb held);;
  success ← sema_try_down (lock_sema l);
  if success : bool then push [FTryHolder l] else mret ().

(** The last intr_set_level is the frame [FSetLevel], after the thread_yield
    of sema_up. *)
Definition lock_release (l : Z) : KM () :=
  held ← lock_held_by_current_thread l;
  ASSERT held;;
  old ← intr_disable;
  c ← thread_current;
  t ← get_thread c;
  t' ← lift (release_donations l t);
  put_thread c t';;
  put_holder l NULL;;
  push [FSetLevel old];;
  sema_up (lock_sema l).

(** ** threads/synch.c: condition variables *)

Definition cond_init (c : Z) : KM () := ASSERT (bool_decide (c ≠ NULL));; put_cond c [].

Definition front_waiter (k : kernel) (w : Z) : option Z :=
  match semas k !! elem_sema w with Some sem => head (waiters sem) | None => None end.

(** On elements whose semaphores have waiters. *)
Definition cond_thread_priority_large_func (k : kernel) (a b : Z) : bool :=
  match front_waiter k a, front_waiter k b with
  | Some x, Some y => bool_decide (prio (threads k) x > prio (threads k) y)
  | _, _ => false
  end.

(** The rest of cond_wait, after the semaphore is listed, is three calls. *)
Definition cond_wait (c l w : Z) : KM () :=
  ASSERT (bool_decide (c ≠ NULL));;
  k ← st_get;
  ASSERT (negb (in_external_intr k));;
  held ← lock_held_by_current_thread l;
  ASSERT held;;
  sema_init (elem_sema w) 0;;
  ws ← get_cond c;
  put_cond c (w :: ws);;
  push [FLockRelease l; FSemaDown (elem_sema w); FLockAcquire l].

(** Sorting two elements or more compares each of them, and the comparison
    takes the front of each semaphore's waiters, which list_front asserts to
    exist. *)
Definition cond_signal (c l : Z) : KM () :=
  ASSERT (bool_decide (c ≠ NULL));;
  k ← st_get;
  ASSERT (negb (in_external_intr k));;
  held ← lock_held_by_current_thread l;
  ASSERT held;;
  ws ← get_cond c;
  if decide (ws = []) then mret () else
  ASSERT (bool_decide (length ws = 1%nat) ||
          bool_decide (Forall (λ w, is_Some (front_waiter k w)) ws));;
  match list_sort (cond_thread_priority_large_func k) ws with
  | [] => mret ()
  | w :: ws' => put_cond c ws';; sema_up (elem_sema w)
  end.

(** One test of the [while] of cond_broadcast. *)
Definition cond_broadcast (c l : Z) : KM () :=
  ASSERT (bool_decide (c ≠ NULL) && bool_decide (l ≠ NULL));;
  ws ← get_cond c;
  if decide (ws = []) then mret () else push [FCondSignal c l; FCondBroadcast c l].

(** ** threads/thread.c: priorities and the advanced scheduler *)

Definition thread_set_priority (p : Z) : KM () :=
  k ← st_get;
  if thread_mlfqs k then mret () else
  old ← intr_disable;
  c ← thread_current;
  t ← get_thread c;
  r ← lift (set_priority p t);
  put_thread c r.1;;
  intr_set_level old;;
  if r.2 : bool then push [FYield] else mret ().

Definition thread_update_priority_with_nice (x : Z) : KM () :=
  k ← st_get;
  ASSERT (thread_mlfqs k);;
  if decide (x = idle_thread k) then mret () else
  mod_thread x (λ t, set_priority_field (nice_priority (recent_cpu t) (nice t)) t).

Definition thread_update_recent_cpu (x : Z) : KM () :=
  k ← st_get;
  ASSERT (thread_mlfqs k);;
  if decide (x = idle_thread k) then mret () else
  mod_thread x (λ t, set_recent_cpu (next_recent_cpu (load_avg k) (recent_cpu t) (nice t)) t).

(** thread_foreach on the elements [xs] of all_list. *)
Fixpoint foreach (func : Z → KM ()) (xs : list Z) : KM () :=
  match xs with [] => mret () | x :: xs => func x;; foreach func xs end.

Definition thread_foreach (func : Z → KM ()) : KM () :=
  k ← st_get; ASSERT (negb (intr_on k));; foreach func (all_list k).

Definition thread_update_priority_with_nice_all : KM () :=
  k ← st_get;
  ASSERT (thread_mlfqs k);;
  thread_foreach thread_update_priority_with_nice.

Definition thread_update_recent_cpu_all : KM () :=
  k ← st_get;
  ASSERT (thread_mlfqs k);;
  thread_foreach thread_update_recent_cpu;;
  thread_update_priority_with_nice_all;;
  st_modify (λ k, with_ready_list (list_sort (thread_priority_large_func (threads k)) (ready_list k)) k).

Definition update_load_avg : KM () :=
  k ← st_get;
  ASSERT (thread_mlfqs k);;
  c ← thread_current;
  let co := Z.of_nat (length (ready_list k)) in
  let co := if decide (c ≠ idle_thread k) then co + 1 else co in
  st_modify (with_load_avg (next_load_avg (load_avg k) co)).

Definition thread_ins_recent_cpu : KM () :=
  k ← st_get;
  ASSERT (thread_mlfqs k);;
  c ← thread_current;
  if decide (c = idle_thread k) then mret ()
  else mod_thread c (λ t, set_recent_cpu (FP_ADD_INT (recent_cpu t) 1) t).

(** The test of the ready list and the yield are the frame [FNiceYield]. *)
Definition thread_set_nice (n : Z) : KM () :=
  k ← st_get;
  ASSERT (thread_mlfqs k);;
  c ← thread_current;
  mod_thread c (set_nice n);;
  thread_update_priority_with_nice c;;
  push [FNiceYield].

Definition nice_yield : KM () :=
  k ← st_get;
  match ready_list k with
  | x :: _ => if decide (prio (threads k) x > prio (threads k) (cur k)) then push [FYield] else mret ()
  | [] => mret ()
  end.

Definition TIME_SLICE : Z := 4.

Definition thread_tick : KM () :=
  t ← thread_current;
  k ← st_get;
  st_modify (if decide (t = idle_thread k) then with_idle_ticks (s64 (idle_ticks k + 1))
             else with_kernel_ticks (s64 (kernel_ticks k + 1)));;
  st_modify (with_thread_ticks (u32 (thread_ticks k + 1)));;
  if decide (u32 (thread_ticks k + 1) >= TIME_SLICE) then intr_yield_on_return else mret ().

(** ** threads/thread.c: creation *)

(** The address of the static lock. *)
Definition tid_lock : Z := 4096.

Definition list_insert_at {A} (pos : nat) (x : A) (xs : list A) : list A :=
  take pos xs ++ x :: drop pos xs.

(** thread_create up to allocate_tid: [page] is what palloc_get_page returned.
    init_thread inserts [allelem] with a comparison function made for [elem],
    which reads other fields: the place [pos] it gets is not specified.
    [body] is what [function] runs first in the kernel. *)
Definition thread_create (p page : Z) (pos : nat) (body : list frame) : KM () :=
  if decide (page = NULL) then mret () else
  t ← lift (init_thread p);
  put_thread page t;;
  st_modify (λ k, with_all_list (list_insert_at pos page (all_list k)) k);;
  push [FLockAcquire tid_lock; FAllocTid page body].

Definition allocate_tid_body (page : Z) (body : list frame) : KM () :=
  k ← st_get;
  st_modify (with_next_tid (s32 (next_tid k + 1)));;
  push [FLockRelease tid_lock; FCreateTail page (next_tid k) body].

(** kernel_thread enables interrupts and calls the function. *)
Definition thread_create_tail (page t : Z) (body : list frame) : KM () :=
  mod_thread page (set_tid t);;
  st_modify (λ k, with_stacks (<[page := FSetLevel true :: body]> (stacks k)) k);;
  thread_unblock page;;
  push [FCreateYield page].

(** [thread_current()->priority < t->priority], interrupts on: [page] is a
    dangling pointer if the new thread has already exited. *)
Definition create_yield (page : Z) : KM () :=
  c ← thread_current;
  tc ← get_thread c;
  t ← get_thread page;
  if decide (priority tc < priority t) then push [FYield] else mret ().

(** idle up to its loop. *)
Definition idle_init (s : Z) : KM () :=
  c ← thread_current;
  st_modify (with_idle_thread c);;
  push [FIdleLoop];;
  sema_up s.

(** intr_disable and thread_block; the halted processor is [FIdleWait]. *)
Definition idle_loop : KM () := intr_disable;; push [FIdleWait];; thread_block.

Definition idle_wait : KM () := intr_set_level true;; push [FIdleLoop].

(** ** devices/timer.c *)

Definition TIMER_FREQ : Z := 100.

Definition timer_sleep (n : Z) : KM () :=
  if decide (n ≤ 0) then mret () else
  k ← st_get; push [FSleepUntil (s64 (n + ticks k))].

(** timer_sleep from its ASSERT on; the level it restores was on. *)
Definition timer_sleep_until (t : Z) : KM () :=
  k ← st_get;
  ASSERT (intr_on k);;
  old ← intr_disable;
  c ← thread_current;
  mod_thread c (set_wake_up_time t);;
  st_modify (λ k, with_alarm_list (insert_ordered (alarm_less_func (threads k)) c (alarm_list k)) k);;
  push [FSetLevel old];;
  thread_block.

(** The [while] of timer_interrupt; each iteration but the last removes an
    element of the alarm list. *)
Fixpoint alarm_loop (n : nat) : KM () :=
  k ← st_get;
  match alarm_list k with
  | [] => mret ()
  | x :: _ =>
      t ← get_thread x;
      if decide (wake_up_time t > ticks k) then mret () else
      match n with
      | O => st_fail EFuel
      | S n =>
          thread_unblock x;;
          st_modify (λ k, with_alarm_list (tail (alarm_list k)) k);;
          alarm_loop n
      end
  end.

Definition mlfqs_tick : KM () :=
  k ← st_get;
  if thread_mlfqs k then
    thread_ins_recent_cpu;;
    (if decide (ticks k `rem` TIMER_FREQ = 0) then update_load_avg;; thread_update_recent_cpu_all
     else mret ());;
    (if decide (ticks k `rem` 4 = 0) then c ← thread_current; thread_update_priority_with_nice c
     else mret ())
  else mret ().

Definition timer_interrupt : KM () :=
  st_modify (λ k, with_ticks (s64 (ticks k + 1)) k);;
  thread_tick;;
  k ← st_get;
  alarm_loop (length (alarm_list k));;
  mlfqs_tick.

(** intr_handler on an external interrupt: the processor has turned interrupts
    off, and turns them on when the handler returns. *)
Definition intr_handler (handler : KM ()) : KM () :=
  st_modify (with_intr_on false);;
  k ← st_get;
  ASSERT (negb (in_external_intr k));;
  st_modify (with_in_external_intr true);;
  st_modify (with_yield_on_return false);;
  handler;;
  k ← st_get;
  ASSERT (negb (intr_on k));;
  ASSERT (in_external_intr k);;
  st_modify (with_in_external_intr false);;
  if yield_on_return k then push [FYield; FSetLevel true] else st_modify (with_intr_on true).

(** ** The machine *)

Definition exec (f : frame) : KM () :=
  match f with
  | FSetLevel on => intr_set_level on
  | FYield => thread_yield
  | FSemaInit s v => sema_init s v
  | FSemaDown s => sema_down s
  | FSemaLoop s old => sema_down_loop s old
  | FSemaTryDown s => sema_try_down s;; mret ()
  | FSemaUp s => sema_up s
  | FLockInit l => lock_init l
  | FLockAcquire l => lock_acquire l
  | FLockLoop l old => lock_acquire_loop l old
  | FLockTryAcquire l => lock_try_acquire l
  | FTryHolder l => c ← thread_current; put_holder l c
  | FLockRelease l => lock_release l
  | FCondInit c => cond_init c
  | FCondWait c l w => cond_wait c l w
  | FCondSignal c l => cond_signal c l
  | FCondBroadcast c l => cond_broadcast c l
  | FSleep n => timer_sleep n
  | FSleepUntil t => timer_sleep_until t
  | FSetPriority p => thread_set_priority p
  | FSetNice n => thread_set_nice n
  | FNiceYield => nice_yield
  | FCreate p page pos body => thread_create p page pos body
  | FAllocTid page body => allocate_tid_body page body
  | FCreateTail page t body => thread_create_tail page t body
  | FCreateYield page => create_yield page
  | FExit => thread_exit
  | FIdleInit s => idle_init s
  | FIdleLoop => idle_loop
  | FIdleWait => idle_wait
  end.

(** A semaphore that is not part of a lock. *)
Definition plain (k : kernel) (s : Z) : Prop :=
  is_Some (semas k !! s) ∧ holders k !! (s - 4) = None.

Definition is_lock (k : kernel) (l : Z) : Prop := is_Some (holders k !! l).

(** The calls a thread's own code makes: on objects of the right type, each
    initialised once at an address of its own; a new thread gets a page that
    is not in use. *)
Definition legal (k : kernel) (f : frame) : Prop :=
  match f with
  | FYield | FSleep _ | FSetPriority _ | FSetNice _ | FExit => True
  | FSemaInit s _ => semas k !! s = None ∧ holders k !! (s - 4) = None
  | FSemaDown s | FSemaTryDown s | FSemaUp s => plain k s
  | FLockInit l => holders k !! l = None ∧ semas k !! lock_sema l = None
  | FLockAcquire l | FLockRelease l => is_lock k l
  | FCondInit c => conds k !! c = None
  | FCondWait c l w =>
      is_Some (conds k !! c) ∧ is_lock k l ∧
      semas k !! elem_sema w = None ∧ holders k !! (elem_sema w - 4) = None
  | FCondSignal c l | FCondBroadcast c l => is_Some (conds k !! c) ∧ is_lock k l
  | FCreate _ page _ body => threads k !! page = None ∧ body = []
  | _ => False
  end.

Definition stack_of (k : kernel) (x : Z) : list frame := default [] (stacks k !! x).

Definition set_stack (x : Z) (st : list frame) (k : kernel) : kernel :=
  with_stacks (<[x := st]> (stacks k)) k.

(** One step, or the failure of one: [may] are the calls thread code makes. *)
Inductive kstep (may : kernel → frame → Prop) (k : kernel) : res ((() * kernel)) → Prop :=
| step_frame f st :
    stack_of k (cur k) = f :: st → kstep may k (exec f (set_stack (cur k) st k))
| step_call f :
    stack_of k (cur k) = [] → may k f → kstep may k (exec f k)
| step_timer :
    intr_on k = true → kstep may k (intr_handler timer_interrupt k)
| step_device s :
    intr_on k = true → plain k s → kstep may k (intr_handler (sema_up s) k).

Definition knext (may : kernel → frame → Prop) (k k' : kernel) : Prop := kstep may k (Ok ((), k')).

(** ** Booting *)

(** thread_init, run on the page [main] with interrupts off: the tid lock is
    taken and released without waiting. *)
Definition thread_init (main : Z) (mlfqs : bool) : res kernel :=
  t ← init_thread PRI_DEFAULT;
  mret (Kernel {[ main := set_tid 1 (set_status THREAD_RUNNING t) ]} {[ main := [] ]}
    [main] [] [] {[ lock_sema tid_lock := Semaphore 1 [] ]} {[ tid_lock := NULL ]} ∅
    main NULL main false false false 0 0 0 0 (INT_TO_FP 0) 2 mlfqs).

(** thread_start, [idle_started] at [s] and the idle thread's page at [page]. *)
Definition thread_start (s page : Z) : KM () :=
  sema_init s 0;;
  push [FCreate PRI_MIN page 0 [FIdleInit s]; FSetLevel true; FSemaDown s].

(** The current thread's frames up to the one that turns interrupts on: until
    then no interrupt arrives, and no other step is possible. *)
Fixpoint run_off (n : nat) (k : kernel) : res kernel :=
  match n, stack_of k (cur k) with
  | S n, FSetLevel true :: _ => Ok k
  | S n, f :: st => r ← exec f (set_stack (cur k) st k); run_off n r.2
  | _, _ => Ok k
  end.

(** The state in which thread_start is about to enable interrupts. *)
Definition boot (main s page : Z) (mlfqs : bool) : res kernel :=
  k ← thread_init main mlfqs;
  r ← thread_start s page k;
  run_off 10 r.2.
