(* ===== verification/Invariant.v ===== *)
(** * Invariants of the kernel machine

    What holds in every state that Kernel.v's machine reaches: every thread is
    where its status says (Places.v), the lists are sorted, a lock's semaphore
    agrees with its holder, and pending frames name objects of the right
    type. *)

From S2P Require Import Prelude ListSpec Thread FixedPoint Places Kernel.

Local Open Scope Z_scope.

(** ** Statement *)

(** A thread that thread_create has made and not yet unblocked. *)
Definition frame_embryos (f : frame) : list Z :=
  match f with FAllocTid page _ | FCreateTail page _ _ => [page] | _ => [] end.
Definition embryos (st : list frame) : list Z := concat (frame_embryos <$> st).

(** The blocked threads, by the list that holds them. *)
Definition blocked (sems : gmap Z semaphore) (alarm : list Z) (stk : gmap Z (list frame)) : list Z :=
  collect waiters sems ++ alarm ++ collect embryos stk.

Definition stack_in (stk : gmap Z (list frame)) (x : Z) : list frame := default [] (stk !! x).

(** The lists are sorted; in MLFQS mode priorities change under the waiters. *)
Record sorts (ths : gmap Z thread) (ready alarm : list Z) (sems : gmap Z semaphore) (mlfqs : bool) : Prop := {
  o_ready : Sorted (le_of (thread_priority_large_func ths)) ready;
  o_alarm : Sorted (le_of (alarm_less_func ths)) alarm;
  o_waiters : mlfqs = false → ∀ s sem, sems !! s = Some sem →
    Sorted (le_of (thread_priority_large_func ths)) (waiters sem);
}.

(** Threads that have not started or have exited have nothing to run. *)
Record stacks_wf (ths : gmap Z thread) (stk : gmap Z (list frame)) : Prop := {
  k_dom : ∀ x, ths !! x = None → stk !! x = None;
  k_fresh : ∀ x, x ∈ collect embryos stk → stack_in stk x = [];
  k_dying : ∀ x t, ths !! x = Some t → status t = THREAD_DYING → stack_in stk x = [];
}.

(** [run] and [extra] describe a state inside an operation: the running
    thread if there is one, and blocked threads that are in no list. *)
Record sched_wf (run : option Z) (extra : list Z) (ths : gmap Z thread)
    (stk : gmap Z (list frame)) (ready alarm : list Z) (sems : gmap Z semaphore)
    (idle : Z) (mlfqs : bool) : Prop := {
  s_places : places (status <$> ths) run idle ready (extra ++ blocked sems alarm stk);
  s_sorts : sorts ths ready alarm sems mlfqs;
  s_stacks : stacks_wf ths stk;
}.

Definition plain_in (sems : gmap Z semaphore) (hold : gmap Z Z) (s : Z) : Prop :=
  is_Some (sems !! s) ∧ hold !! (s - 4) = None.

(** The frames of a thread other than the idle one. *)
Definition frame_ok (sems : gmap Z semaphore) (hold : gmap Z Z) (cnds : gmap Z (list Z)) (f : frame) : Prop :=
  match f with
  | FSetLevel _ | FYield | FNiceYield | FSleepUntil _ | FCreateYield _ => True
  | FSemaDown s | FSemaLoop s _ => plain_in sems hold s
  | FLockAcquire l | FLockLoop l _ | FLockRelease l => is_Some (hold !! l)
  | FCondSignal c l | FCondBroadcast c l => is_Some (cnds !! c) ∧ is_Some (hold !! l)
  | FAllocTid _ b | FCreateTail _ _ b => b = []
  | _ => False
  end.

(** The idle thread's frames: a pending switch on top of its loop. *)
Definition switch_frame (f : frame) : Prop := match f with FYield | FSetLevel _ => True | _ => False end.

Section inv.
(** The page of the idle thread. *)
Context (ip : Z).

(** [ex] is a lock whose holder and semaphore are being changed. *)
Record types_wf (ex : option Z) (stk : gmap Z (list frame)) (sems : gmap Z semaphore)
    (hold : gmap Z Z) (cnds : gmap Z (list Z)) : Prop := {
  t_locks : ∀ l h, hold !! l = Some h → ∃ sem, sems !! lock_sema l = Some sem ∧
    (ex ≠ Some l → value sem = if decide (h = NULL) then 1 else 0);
  t_conds : ∀ c ws w, cnds !! c = Some ws → w ∈ ws → plain_in sems hold (elem_sema w);
  t_tid : is_Some (hold !! tid_lock);
  t_frames : ∀ x, x ≠ ip → Forall (frame_ok sems hold cnds) (stack_in stk x);
}.

Definition idle_ok (sems : gmap Z semaphore) (hold : gmap Z Z) (idle : Z) (st : list frame) : Prop :=
  ∃ pre f, st = pre ++ [f] ∧ Forall switch_frame pre ∧
    (idle = NULL ∧ (∃ s, f = FIdleInit s ∧ plain_in sems hold s) ∨
     idle = ip ∧ (f = FIdleLoop ∨ f = FIdleWait)).

Record idle_wf (run : option Z) (ths : gmap Z thread) (stk : gmap Z (list frame))
    (sems : gmap Z semaphore) (hold : gmap Z Z) (idle : Z) : Prop := {
  i_idle : idle = NULL ∨ idle = ip;
  i_thread : is_Some (ths !! ip);
  i_stack : run ≠ Some ip → idle_ok sems hold idle (stack_in stk ip);
}.

Definition kwf (run : option Z) (extra : list Z) (ex : option Z) (k : kernel) : Prop :=
  sched_wf run extra (threads k) (stacks k) (ready_list k) (alarm_list k) (semas k)
    (idle_thread k) (thread_mlfqs k) ∧
  types_wf ex (stacks k) (semas k) (holders k) (conds k) ∧
  idle_wf run (threads k) (stacks k) (semas k) (holders k) (idle_thread k).

(** The invariant between steps. *)
Definition kinv (k : kernel) : Prop :=
  kwf (Some (cur k)) [] None k ∧ in_external_intr k = false ∧
  idle_ok (semas k) (holders k) (idle_thread k) (stack_of k ip).
End inv.

(** ** Sorted lists under changes of the threads *)

#[export] Instance larger_sw ths : StrictWeak (thread_priority_large_func ths).
Proof.
  unfold thread_priority_large_func. split; intros *; rewrite ?bool_decide_eq_true, ?bool_decide_eq_false; lia.
Qed.
#[export] Instance earlier_sw ths : StrictWeak (alarm_less_func ths).
Proof.
  unfold alarm_less_func. split; intros *; rewrite ?bool_decide_eq_true, ?bool_decide_eq_false; lia.
Qed.

Lemma sorted_ext (f g : Z → Z → bool) xs :
  (∀ x y, x ∈ xs → y ∈ xs → f x y = g x y) → Sorted (le_of f) xs → Sorted (le_of g) xs.
Proof.
  intros E Hs. induction Hs as [|x xs Hs IH Hhd]; constructor.
  - apply IH. intros. apply E; by right.
  - destruct Hhd as [|y ys Hle]; constructor. unfold le_of in *.
    rewrite <- E; [done|right; left|left].
Qed.

Lemma larger_ext ths ths' xs :
  (∀ x, x ∈ xs → prio ths' x = prio ths x) →
  Sorted (le_of (thread_priority_large_func ths)) xs →
  Sorted (le_of (thread_priority_large_func ths')) xs.
Proof.
  intros E. apply sorted_ext. intros x y Hx Hy. unfold thread_priority_large_func. by rewrite !E.
Qed.
Lemma earlier_ext ths ths' xs :
  (∀ x, x ∈ xs → wake ths' x = wake ths x) →
  Sorted (le_of (alarm_less_func ths)) xs → Sorted (le_of (alarm_less_func ths')) xs.
Proof.
  intros E. apply sorted_ext. intros x y Hx Hy. unfold alarm_less_func. by rewrite !E.
Qed.

Lemma insert_ordered_ext (f g : Z → Z → bool) x xs :
  (∀ y, y ∈ xs → f x y = g x y) → insert_ordered f x xs = insert_ordered g x xs.
Proof.
  intros E. induction xs as [|y ys IH]; simpl; [done|]. rewrite E by left.
  destruct (g x y); [done|]. f_equal. apply IH. intros. apply E. by right.
Qed.

Lemma prio_ne ths x t y : y ≠ x → prio (<[x := t]> ths) y = prio ths y.
Proof. intros. unfold prio. by rewrite lookup_insert_ne. Qed.
Lemma wake_ne ths x t y : y ≠ x → wake (<[x := t]> ths) y = wake ths y.
Proof. intros. unfold wake. by rewrite lookup_insert_ne. Qed.
Lemma prio_same ths x t t' y :
  ths !! x = Some t → priority t' = priority t → prio (<[x := t']> ths) y = prio ths y.
Proof.
  intros Hx E. destruct (decide (y = x)) as [->|]; [|by apply prio_ne].
  unfold prio. by rewrite lookup_insert_eq, Hx.
Qed.
Lemma wake_same ths x t t' y :
  ths !! x = Some t → wake_up_time t' = wake_up_time t → wake (<[x := t']> ths) y = wake ths y.
Proof.
  intros Hx E. destruct (decide (y = x)) as [->|]; [|by apply wake_ne].
  unfold wake. by rewrite lookup_insert_eq, Hx.
Qed.

Lemma status_same (ths : gmap Z thread) x t t' :
  ths !! x = Some t → status t' = status t → status <$> <[x := t']> ths = status <$> ths.
Proof. intros Hx E. rewrite fmap_insert. apply insert_id. by rewrite lookup_fmap, Hx, E. Qed.

Lemma status_lookup (ths : gmap Z thread) x s :
  (status <$> ths) !! x = Some s ↔ ∃ t, ths !! x = Some t ∧ status t = s.
Proof. rewrite lookup_fmap, fmap_Some. naive_solver. Qed.

(** ** The scheduler's part, transition by transition *)

Section sched.
Context (idle : Z) (mlfqs : bool).
Implicit Types (run : option Z) (extra ready alarm : list Z) (ths : gmap Z thread)
  (stk : gmap Z (list frame)) (sems : gmap Z semaphore).

Lemma sorts_ext ths ths' ready alarm sems :
  (∀ x, x ∈ ready ++ collect waiters sems → prio ths' x = prio ths x) →
  (∀ x, x ∈ alarm → wake ths' x = wake ths x) →
  sorts ths ready alarm sems mlfqs → sorts ths' ready alarm sems mlfqs.
Proof.
  intros Hp Hw [Hr Ha Hs]. split.
  - revert Hr. apply larger_ext. intros. apply Hp. apply elem_of_app. by left.
  - by revert Ha; apply earlier_ext.
  - intros E s sem Hsem. generalize (Hs E s sem Hsem). apply larger_ext. intros x Hx. apply Hp.
    apply elem_of_app. right. apply elem_of_collect. eauto.
Qed.

(** A thread's structure changes without its priority or wake-up time. *)
Lemma sorts_thread ths x t t' ready alarm sems :
  ths !! x = Some t → priority t' = priority t → wake_up_time t' = wake_up_time t →
  sorts ths ready alarm sems mlfqs → sorts (<[x := t']> ths) ready alarm sems mlfqs.
Proof. intros Hx Hp Hw. apply sorts_ext; intros; [by eapply prio_same|by eapply wake_same]. Qed.

(** A thread in no list changes. *)
Lemma sorts_off ths x t' ready alarm sems :
  x ∉ ready ++ collect waiters sems → x ∉ alarm →
  sorts ths ready alarm sems mlfqs → sorts (<[x := t']> ths) ready alarm sems mlfqs.
Proof. intros H1 H2. apply sorts_ext; intros; [apply prio_ne|apply wake_ne]; naive_solver. Qed.

Lemma stacks_thread ths stk x t t' :
  ths !! x = Some t → (status t' = THREAD_DYING → status t = THREAD_DYING) →
  stacks_wf ths stk → stacks_wf (<[x := t']> ths) stk.
Proof.
  intros Hx Hd [H1 H2 H3]. split; [|done|].
  - intros y. rewrite lookup_insert_None. naive_solver.
  - intros y t0 [[-> ->]|[? ?]]%lookup_insert_Some; eauto.
Qed.

Lemma sched_thread run extra ths stk ready alarm sems x t t' :
  ths !! x = Some t → status t' = status t → priority t' = priority t → wake_up_time t' = wake_up_time t →
  sched_wf run extra ths stk ready alarm sems idle mlfqs →
  sched_wf run extra (<[x := t']> ths) stk ready alarm sems idle mlfqs.
Proof.
  intros Hx Hs Hp Hw [P O K]. split.
  - by erewrite status_same.
  - by eapply sorts_thread.
  - eapply stacks_thread; [done|congruence|done].
Qed.

(** The running thread is in no list. *)
Lemma sched_run_off c extra ths stk ready alarm sems :
  sched_wf (Some c) extra ths stk ready alarm sems idle mlfqs →
  c ∉ ready ++ collect waiters sems ∧ c ∉ alarm ∧ c ∉ collect embryos stk.
Proof.
  intros [P _ _]. pose proof (places_run_off _ _ _ _ _ P) as H. unfold blocked in H.
  revert H. rewrite !elem_of_app. tauto.
Qed.

Lemma sched_run c extra ths stk ready alarm sems :
  sched_wf (Some c) extra ths stk ready alarm sems idle mlfqs →
  ∃ t, ths !! c = Some t ∧ status t = THREAD_RUNNING.
Proof. intros [P _ _]. apply status_lookup. by apply (pl_run _ _ _ _ _ P). Qed.

Lemma sched_run_thread c extra ths stk ready alarm sems t t' :
  ths !! c = Some t → status t' = status t →
  sched_wf (Some c) extra ths stk ready alarm sems idle mlfqs →
  sched_wf (Some c) extra (<[c := t']> ths) stk ready alarm sems idle mlfqs.
Proof.
  intros Hx Hs H. pose proof (sched_run_off _ _ _ _ _ _ _ H) as (H1 & H2 & _). destruct H as [P O K]. split.
  - by erewrite status_same.
  - by apply sorts_off.
  - eapply stacks_thread; [done|congruence|done].
Qed.

(** The running thread's stack changes; threads on their way move between its
    frames and [extra]. *)
Lemma sched_stack c extra extra' ths stk ready alarm sems st :
  extra' ++ embryos st ≡ₚ extra ++ embryos (stack_in stk c) →
  (∀ x, x ∈ extra → x ∈ embryos st → stack_in stk x = []) →
  sched_wf (Some c) extra ths stk ready alarm sems idle mlfqs →
  sched_wf (Some c) extra' ths (<[c := st]> stk) ready alarm sems idle mlfqs.
Proof.
  intros E Hex H. pose proof (sched_run _ _ _ _ _ _ _ H) as (t & Ht & Hrun).
  destruct H as [P O K].
  destruct (collect_default embryos [] stk c) as (rest & E1 & E2); [done|]. fold (stack_in stk c) in E1.
  assert (extra' ++ blocked sems alarm (<[c := st]> stk) ≡ₚ extra ++ blocked sems alarm stk) as EB.
  { unfold blocked. rewrite E1, E2. rewrite !(Permutation_app_comm (collect waiters sems)), <- !app_assoc.
    rewrite !(Permutation_app_comm alarm), <- !app_assoc. by rewrite !(app_assoc extra), !(app_assoc extra'), E. }
  assert (∀ x, x ∈ collect embryos (<[c := st]> stk) → x ≠ c) as Hne.
  { intros x Hx. eapply places_listed_not_running; [exact P|]. rewrite <- EB. unfold blocked. elem_simpl. tauto. }
  destruct K as [K1 K2 K3]. split; [by rewrite EB|done|]. split.
  - intros x Hx. rewrite lookup_insert_ne by congruence. auto.
  - intros x Hx. unfold stack_in. rewrite lookup_insert_ne by (symmetry; auto). fold (stack_in stk x).
    rewrite E2 in Hx. apply elem_of_app in Hx as [Hx|Hx].
    + assert (x ∈ extra ++ embryos (stack_in stk c)) as [?|?]%elem_of_app
        by (rewrite <- E; apply elem_of_app; by right); [by apply Hex|].
      apply K2. rewrite E1. apply elem_of_app. by left.
    + apply K2. rewrite E1. apply elem_of_app. by right.
  - intros x t' Hx Hd. unfold stack_in. rewrite lookup_insert_ne by congruence. eauto.
Qed.

Lemma blocked_sema sems s sem sem' X Y alarm stk :
  sems !! s = Some sem → X ++ waiters sem' ≡ₚ Y ++ waiters sem →
  X ++ blocked (<[s := sem']> sems) alarm stk ≡ₚ Y ++ blocked sems alarm stk.
Proof.
  intros Hs E. unfold blocked. rewrite (collect_update _ _ _ _ _ Hs), (collect_delete _ _ _ _ Hs).
  by rewrite <- !app_assoc, (app_assoc X), (app_assoc Y), E.
Qed.

Lemma blocked_alarm sems alarm alarm' X Y stk :
  X ++ alarm' ≡ₚ Y ++ alarm → X ++ blocked sems alarm' stk ≡ₚ Y ++ blocked sems alarm stk.
Proof.
  intros E. unfold blocked. rewrite !(Permutation_app_comm (collect waiters sems)), <- !app_assoc.
  by rewrite (app_assoc X), (app_assoc Y), E.
Qed.

Lemma sorts_sema ths ready alarm sems s v ws :
  (mlfqs = false → Sorted (le_of (thread_priority_large_func ths)) ws) →
  sorts ths ready alarm sems mlfqs → sorts ths ready alarm (<[s := Semaphore v ws]> sems) mlfqs.
Proof.
  intros Hws [? ? Hw]. split; [done..|]. intros E s' sem [[-> <-]|[_ ?]]%lookup_insert_Some; eauto.
Qed.

(** The waiters of one semaphore change, threads moving to or from [extra]. *)
Lemma sched_sema run extra extra' ths stk ready alarm sems s sem v ws :
  sems !! s = Some sem → extra' ++ ws ≡ₚ extra ++ waiters sem →
  (mlfqs = false → Sorted (le_of (thread_priority_large_func ths)) ws) →
  sched_wf run extra ths stk ready alarm sems idle mlfqs →
  sched_wf run extra' ths stk ready alarm (<[s := Semaphore v ws]> sems) idle mlfqs.
Proof.
  intros Hs E Hws [P O K]. split; [|by apply sorts_sema|done].
  by rewrite (blocked_sema _ _ _ (Semaphore v ws) _ extra alarm stk Hs E).
Qed.

Lemma sched_sema_value run extra ths stk ready alarm sems s sem v :
  sems !! s = Some sem → sched_wf run extra ths stk ready alarm sems idle mlfqs →
  sched_wf run extra ths stk ready alarm (<[s := Semaphore v (waiters sem)]> sems) idle mlfqs.
Proof.
  intros Hs H. eapply sched_sema; [done..| |exact H]. intros E.
  destruct H as [_ [_ _ Hw] _]. eauto.
Qed.

Lemma sched_pop_waiter run extra ths stk ready alarm sems s v v' x ws :
  sems !! s = Some (Semaphore v (x :: ws)) → sched_wf run extra ths stk ready alarm sems idle mlfqs →
  sched_wf run (x :: extra) ths stk ready alarm (<[s := Semaphore v' ws]> sems) idle mlfqs.
Proof.
  intros Hs H. eapply sched_sema; [done| | |exact H].
  - simpl. apply Permutation_middle.
  - intros E. destruct H as [_ [_ _ Hw] _]. specialize (Hw E _ _ Hs). by inversion Hw.
Qed.

Lemma sched_pop_alarm run extra ths stk ready alarm sems x :
  sched_wf run extra ths stk ready (x :: alarm) sems idle mlfqs →
  sched_wf run (x :: extra) ths stk ready alarm sems idle mlfqs.
Proof.
  intros [P [? Ha ?] K]. split; [|split; [done|by inversion Ha|done]|done].
  rewrite (blocked_alarm sems (x :: alarm) alarm (x :: extra) extra); [done|]. simpl. apply Permutation_middle.
Qed.

Lemma sched_new_sema run extra ths stk ready alarm sems s v :
  sems !! s = None → sched_wf run extra ths stk ready alarm sems idle mlfqs →
  sched_wf run extra ths stk ready alarm (<[s := Semaphore v []]> sems) idle mlfqs.
Proof.
  intros Hs [P O K]. split; [|apply sorts_sema; [constructor|done]|done].
  unfold blocked in *. by rewrite collect_insert.
Qed.

(** A blocked thread joins the ready list. *)
Lemma sched_unblock run extra ths stk ready alarm sems x t :
  ths !! x = Some t → sched_wf run (x :: extra) ths stk ready alarm sems idle mlfqs →
  sched_wf run extra (<[x := set_status THREAD_READY t]> ths) stk
    (insert_ordered (thread_priority_large_func ths) x ready) alarm sems idle mlfqs.
Proof.
  intros Hx [P O K]. split.
  - rewrite fmap_insert, insert_ordered_perm. by apply places_unblock.
  - eapply sorts_thread; [done..|]. destruct O as [Hr ? ?]. split; [|done..]. apply insert_ordered_sorted; [apply _|done].
  - eapply stacks_thread; [done..|]. done.
Qed.

(** The running thread joins the waiters of a semaphore. *)
Lemma sched_block_sema c ths stk ready alarm sems s sem t :
  sems !! s = Some sem → c ≠ idle → ths !! c = Some t →
  sched_wf (Some c) [] ths stk ready alarm sems idle mlfqs →
  sched_wf None [] (<[c := set_status THREAD_BLOCKED t]> ths) stk ready alarm
    (<[s := Semaphore (value sem) (insert_ordered (thread_priority_large_func ths) c (waiters sem))]> sems)
    idle mlfqs.
Proof.
  intros Hs Hc Ht [P O K]. split.
  - rewrite fmap_insert. rewrite (blocked_sema _ _ _ _ [] [c] alarm stk Hs) by (simpl; apply insert_ordered_perm).
    by apply places_block.
  - eapply sorts_thread; [done..|]. apply sorts_sema; [|done]. intros E. apply insert_ordered_sorted; [apply _|].
    by eapply o_waiters.
  - eapply stacks_thread; [done..|]. done.
Qed.

(** The running thread goes to sleep until [w]. *)
Lemma sched_block_alarm c ths stk ready alarm sems t w :
  c ≠ idle → ths !! c = Some t → sched_wf (Some c) [] ths stk ready alarm sems idle mlfqs →
  let ths' := <[c := set_wake_up_time w t]> ths in
  sched_wf None [] (<[c := set_status THREAD_BLOCKED (set_wake_up_time w t)]> ths') stk ready
    (insert_ordered (alarm_less_func ths') c alarm) sems idle mlfqs.
Proof.
  intros Hc Ht H ths'. pose proof (sched_run_thread _ _ _ _ _ _ _ t (set_wake_up_time w t) Ht eq_refl H) as [P O K].
  fold ths' in P, O, K. assert (ths' !! c = Some (set_wake_up_time w t)) as Ht' by apply lookup_insert_eq.
  split.
  - rewrite fmap_insert. rewrite (blocked_alarm sems alarm _ [] [c]) by (simpl; apply insert_ordered_perm).
    by apply places_block.
  - eapply sorts_thread; [done..|]. destruct O as [? Ha ?]. split; [done| |done]. apply insert_ordered_sorted; [apply _|done].
  - eapply stacks_thread; [done..|]. done.
Qed.

(** The running thread yields. *)
Lemma sched_yield c extra ths stk ready alarm sems t :
  c ≠ idle → ths !! c = Some t → sched_wf (Some c) extra ths stk ready alarm sems idle mlfqs →
  sched_wf None extra (<[c := set_status THREAD_READY t]> ths) stk
    (insert_ordered (thread_priority_large_func ths) c ready) alarm sems idle mlfqs.
Proof.
  intros Hc Ht [P O K]. split.
  - rewrite fmap_insert, insert_ordered_perm. by apply places_yield.
  - eapply sorts_thread; [done..|]. destruct O as [Hr ? ?]. split; [|done..]. apply insert_ordered_sorted; [apply _|done].
  - eapply stacks_thread; [done..|]. done.
Qed.

Lemma sched_idle_off c extra ths stk ready alarm sems t s :
  c = idle → s = THREAD_READY ∨ s = THREAD_BLOCKED → ths !! c = Some t →
  sched_wf (Some c) extra ths stk ready alarm sems idle mlfqs →
  sched_wf None extra (<[c := set_status s t]> ths) stk ready alarm sems idle mlfqs.
Proof.
  intros -> Hs Ht [P O K]. split.
  - rewrite fmap_insert. apply places_idle_off; [by destruct Hs as [->| ->]|done].
  - by eapply sorts_thread.
  - eapply stacks_thread; [done| |done]. simpl. by destruct Hs as [->| ->].
Qed.

Lemma sched_exit c extra ths stk ready alarm sems t :
  ths !! c = Some t → stack_in stk c = [] → sched_wf (Some c) extra ths stk ready alarm sems idle mlfqs →
  sched_wf None extra (<[c := set_status THREAD_DYING t]> ths) stk ready alarm sems idle mlfqs.
Proof.
  intros Ht Hst [P O [K1 K2 K3]]. split.
  - rewrite fmap_insert. by apply places_exit.
  - by eapply sorts_thread.
  - split; [|done|].
    + intros x Hx. apply K1. by apply lookup_insert_None in Hx as [? _].
    + intros x t0 [[<- ?]|[? ?]]%lookup_insert_Some; eauto.
Qed.

(** The scheduler's choice starts to run. *)
Lemma sched_dispatch x extra ths stk ready alarm sems t :
  ths !! x = Some t → sched_wf None extra ths stk (x :: ready) alarm sems idle mlfqs →
  sched_wf (Some x) extra (<[x := set_status THREAD_RUNNING t]> ths) stk ready alarm sems idle mlfqs.
Proof.
  intros Ht [P O K]. split.
  - rewrite fmap_insert. by apply places_dispatch.
  - eapply sorts_thread; [done..|]. destruct O as [Hr ? ?]. split; [by inversion Hr|done..].
  - eapply stacks_thread; [done..|]. done.
Qed.

Lemma sched_dispatch_idle extra ths stk ready alarm sems t :
  ths !! idle = Some t → sched_wf None extra ths stk ready alarm sems idle mlfqs →
  sched_wf (Some idle) extra (<[idle := set_status THREAD_RUNNING t]> ths) stk ready alarm sems idle mlfqs.
Proof.
  intros Ht [P O K]. split.
  - rewrite fmap_insert. apply places_dispatch_idle; [|done]. rewrite lookup_fmap, Ht. by eexists.
  - by eapply sorts_thread.
  - eapply stacks_thread; [done..|]. done.
Qed.

Lemma sched_free run extra ths stk ready alarm sems x t :
  ths !! x = Some t → status t = THREAD_DYING → sched_wf run extra ths stk ready alarm sems idle mlfqs →
  sched_wf run extra (delete x ths) (delete x stk) ready alarm sems idle mlfqs.
Proof.
  intros Hx Hd [P O [K1 K2 K3]].
  assert ((status <$> ths) !! x = Some THREAD_DYING) as Hσ by (apply status_lookup; eauto).
  assert (∀ y, y ∈ ready ++ extra ++ blocked sems alarm stk → y ≠ x) as Hne.
  { intros y [Hy|Hy]%elem_of_app ->; [destruct (pl_ready _ _ _ _ _ P x Hy)|pose proof (pl_blocked _ _ _ _ _ P x Hy)]; congruence. }
  assert (collect embryos (delete x stk) ≡ₚ collect embryos stk) as E.
  { destruct (stk !! x) as [st|] eqn:Hst; [|by rewrite delete_id].
    rewrite (collect_delete _ _ _ _ Hst). pose proof (K3 x t Hx Hd) as E. unfold stack_in in E. rewrite Hst in E. simpl in E. by subst. }
  split.
  - rewrite fmap_delete. unfold blocked. rewrite E. by apply places_free.
  - revert O. apply sorts_ext; intros y Hy; [unfold prio|unfold wake]; rewrite lookup_delete_ne; auto;
      symmetry; apply Hne; unfold blocked; revert Hy; elem_simpl; tauto.
  - split.
    + intros y. rewrite !lookup_delete_None. intros [?|?]; auto.
    + intros y Hy. unfold stack_in. rewrite lookup_delete_ne by (symmetry; apply Hne; unfold blocked; rewrite E in Hy; elem_simpl; tauto).
      apply K2. by rewrite <- E.
    + intros y t' [? ?]%lookup_delete_Some ?. unfold stack_in. rewrite lookup_delete_ne by done. eauto.
Qed.

Lemma sched_create run extra ths stk ready alarm sems x t :
  ths !! x = None → x ≠ NULL → x ≠ idle → status t = THREAD_BLOCKED →
  sched_wf run extra ths stk ready alarm sems idle mlfqs →
  sched_wf run (x :: extra) (<[x := t]> ths) stk ready alarm sems idle mlfqs.
Proof.
  intros Hx Hn Hi Ht [P O [K1 K2 K3]]. split.
  - rewrite fmap_insert, Ht. apply places_create; [|done..]. by rewrite lookup_fmap, Hx.
  - assert (x ∉ ready ++ extra ++ blocked sems alarm stk) as Hoff.
    { intros [Hy|Hy]%elem_of_app; [destruct (pl_ready _ _ _ _ _ P x Hy) as [E|E]|pose proof (pl_blocked _ _ _ _ _ P x Hy) as E];
        rewrite lookup_fmap, Hx in E; done. }
    unfold blocked in Hoff. revert Hoff. rewrite !elem_of_app. intros Hoff.
    apply sorts_off; [rewrite elem_of_app; tauto|tauto|done].
  - split; [|done|].
    + intros y [? ?]%lookup_insert_None. auto.
    + intros y t' [[<- <-]|[? ?]]%lookup_insert_Some; [congruence|eauto].
Qed.

Lemma sorted_remove ths ths' h xs :
  (∀ x, x ≠ h → prio ths' x = prio ths x) →
  Sorted (le_of (thread_priority_large_func ths)) xs →
  Sorted (le_of (thread_priority_large_func ths')) (filter (.≠ h) xs).
Proof.
  intros E Hs. apply (larger_ext ths).
  - intros x [? _]%list_elem_of_filter. auto.
  - apply StronglySorted_Sorted, sorted_filter, Sorted_StronglySorted; [apply _|done].
Qed.

(** A donation changes the priority of a thread in the ready list. *)
Lemma sched_donate_ready run extra ths stk ready alarm sems h t t' :
  ths !! h = Some t → status t' = status t → wake_up_time t' = wake_up_time t → h ∈ ready →
  sched_wf run extra ths stk ready alarm sems idle mlfqs →
  let ths' := <[h := t']> ths in
  sched_wf run extra ths' stk
    (insert_ordered (thread_priority_large_func ths') h (filter (.≠ h) ready)) alarm sems idle mlfqs.
Proof.
  intros Ht Hs Hw Hin [P O K] ths'.
  pose proof (pl_nodup _ _ _ _ _ P) as (Hnd & Hdis & _)%NoDup_app.
  assert (∀ x, x ≠ h → prio ths' x = prio ths x) as Hp by (intros; by apply prio_ne).
  split.
  - unfold ths'. erewrite status_same by done. by rewrite insert_ordered_perm, filter_ne_perm.
  - destruct O as [Hr Ha Hws]. split.
    + apply insert_ordered_sorted; [apply _|]. by apply (sorted_remove ths).
    + revert Ha. apply earlier_ext. intros. by eapply wake_same.
    + intros E s sem Hsem. generalize (Hws E s sem Hsem). apply larger_ext. intros x Hx. apply Hp. intros ->.
      apply (Hdis h Hin). unfold blocked. elem_simpl. right; left. apply elem_of_collect. eauto.
  - eapply stacks_thread; [done|congruence|done].
Qed.

(** A donation moves a waiting thread to the ready list. *)
Lemma sched_donate_waiter run extra ths stk ready alarm sems h t t' :
  ths !! h = Some t → status t' = status t → wake_up_time t' = wake_up_time t →
  h ∈ collect waiters sems → sched_wf run extra ths stk ready alarm sems idle mlfqs →
  let ths' := <[h := t']> ths in
  sched_wf run extra ths' stk
    (insert_ordered (thread_priority_large_func ths') h ready) alarm (without h <$> sems) idle mlfqs.
Proof.
  intros Ht Hs Hw Hin [P O K] ths'.
  pose proof (pl_nodup _ _ _ _ _ P) as Hnd. unfold blocked in Hnd.
  assert (h ∉ ready ∧ NoDup (collect waiters sems)) as [Hr Hndw].
  { apply NoDup_app in Hnd as (_ & Hd & (_ & _ & (? & _ & _)%NoDup_app)%NoDup_app). split; [|done].
    intros Hr. apply (Hd h Hr). elem_simpl. tauto. }
  assert (∀ x, x ≠ h → prio ths' x = prio ths x) as Hp by (intros; by apply prio_ne).
  split.
  - unfold ths'. erewrite status_same by done. rewrite insert_ordered_perm. apply places_promote.
    unfold blocked in *. rewrite (collect_fmap _ (without h) (.≠ h)) by done.
    enough (extra ++ collect waiters sems ++ alarm ++ collect embryos stk ≡ₚ
      h :: extra ++ filter (.≠ h) (collect waiters sems) ++ alarm ++ collect embryos stk) as <- by done.
    rewrite <- (filter_ne_perm h (collect waiters sems)) at 1 by done. simpl. symmetry. apply Permutation_middle.
  - destruct O as [Hr' Ha Hws]. split.
    + apply insert_ordered_sorted; [apply _|]. revert Hr'. apply larger_ext. intros x Hx. apply Hp. congruence.
    + revert Ha. apply earlier_ext. intros. by eapply wake_same.
    + intros E s sem. rewrite lookup_fmap. destruct (sems !! s) as [sem0|] eqn:Hsem; [|done].
      intros [= <-]. apply (sorted_remove ths); eauto.
  - eapply stacks_thread; [done|congruence|done].
Qed.

(** MLFQS: the priorities of all threads change and the ready list is sorted. *)
Lemma sched_mlfqs run extra ths ths' stk ready ready' alarm sems :
  status <$> ths' = status <$> ths → (∀ x, wake ths' x = wake ths x) → mlfqs = true →
  ready' ≡ₚ ready → Sorted (le_of (thread_priority_large_func ths')) ready' →
  sched_wf run extra ths stk ready alarm sems idle mlfqs →
  sched_wf run extra ths' stk ready' alarm sems idle mlfqs.
Proof.
  intros Hs Hw E Hp Hr [P [? Ha ?] [K1 K2 K3]]. split.
  - by rewrite Hs, Hp.
  - split; [done| |congruence]. revert Ha. apply earlier_ext. auto.
  - split; [|done|].
    + intros x Hx. apply K1. apply (f_equal (λ m : gmap Z thread_status, m !! x)) in Hs.
      rewrite !lookup_fmap, Hx in Hs. by destruct (ths !! x).
    + intros x t Hx Hd. apply (f_equal (λ m : gmap Z thread_status, m !! x)) in Hs.
      rewrite !lookup_fmap, Hx in Hs. destruct (ths !! x) as [t0|] eqn:E0; [|done]. simpl in Hs. eapply K3; [done|congruence].
Qed.

(** A thread of [extra] gets its first frames. *)
Lemma sched_start run extra ths stk ready alarm sems x st :
  x ∈ extra → stack_in stk x = [] → embryos st = [] →
  sched_wf run extra ths stk ready alarm sems idle mlfqs →
  sched_wf run extra ths (<[x := st]> stk) ready alarm sems idle mlfqs.
Proof.
  intros Hx Hst He [P O [K1 K2 K3]].
  destruct (collect_default embryos [] stk x) as (rest & E1 & E2); [done|].
  fold (stack_in stk x) in E1. rewrite Hst in E1. specialize (E2 st). rewrite He in E2. rewrite <- E1 in E2.
  assert (status <$> ths !! x = Some THREAD_BLOCKED) as Hb.
  { rewrite <- lookup_fmap. apply (pl_blocked _ _ _ _ _ P). elem_simpl. by left. }
  split; [|done|split].
  - unfold blocked. by rewrite E2.
  - intros y Hy. rewrite lookup_insert_None. split; [auto|]. intros ->. by rewrite Hy in Hb.
  - intros y Hy. rewrite E2 in Hy. unfold stack_in. rewrite lookup_insert_ne; [by apply K2|]. intros ->.
    pose proof (pl_nodup _ _ _ _ _ P) as (_ & _ & (_ & Hd & _)%NoDup_app)%NoDup_app.
    apply (Hd y Hx). unfold blocked. elem_simpl. tauto.
  - intros y t Hy Hd. unfold stack_in. rewrite lookup_insert_ne; [by eapply K3|]. intros ->.
    rewrite Hy in Hb. simpl in Hb. congruence.
Qed.

Lemma sched_become_idle c extra ths stk ready alarm sems :
  ths !! idle = None → sched_wf (Some c) extra ths stk ready alarm sems idle mlfqs →
  sched_wf (Some c) extra ths stk ready alarm sems c mlfqs.
Proof.
  intros Hi [P O K]. split; [|done..]. eapply places_become_idle; [done|]. by rewrite lookup_fmap, Hi.
Qed.
End sched.
