(* ===== verification/KernelSafe.v ===== *)
(** * The invariant is kept by every step

    The typing and idle-thread parts of the invariant, the result of each
    operation of Kernel.v, and the theorem that [kinv] is kept by every step. *)

From S2P Require Import Prelude ListSpec Thread FixedPoint Places Kernel Invariant.

Local Open Scope Z_scope.

(** ** Running operations backwards *)

(** What a successful run of a sequence of actions says of its parts. *)
Ltac minv_prim H :=
  lazymatch type of H with
  | st_get _ = _ => unfold st_get in H; injection H as <- <-
  | st_gets _ _ = _ => unfold st_gets in H; injection H as <- <-
  | st_modify _ _ = Ok (?u, _) => unfold st_modify in H; (first [injection H as <- <- | injection H as <-])
  | mret _ _ = _ => unfold mret, ST_ret in H; (first [injection H as <- <- | injection H as <-])
  | ASSERT _ _ = _ => let E := fresh "Ha" in apply assert_inv in H as [E ->]
  | st_fail _ _ = _ => discriminate H
  | st_opt _ ?o _ = _ =>
      let E := fresh "Hl" in unfold st_opt in H; destruct o eqn:E; [injection H as <- <-|discriminate H]
  | put_thread _ _ _ = _ => unfold put_thread in H; minv_prim H
  | put_sema _ _ _ = _ => unfold put_sema in H; minv_prim H
  | put_holder _ _ _ = _ => unfold put_holder in H; minv_prim H
  | put_cond _ _ _ = _ => unfold put_cond in H; minv_prim H
  | push _ _ = _ => unfold push in H; minv_prim H
  | _ => idtac
  end.

(** Case analysis on the test that a run starts with. *)
Ltac minv_if H :=
  match type of H with (match ?d with _ => _ end) _ = _ => destruct d end.

Ltac minv H :=
  lazymatch type of H with
  | (_ ≫= _) _ = Ok _ =>
      let E := fresh "E" in
      apply st_bind_inv in H as (? & ? & E & H); minv_prim E; minv H
  | _ => minv_prim H
  end.

(** The primitive actions, inverted where they occur. *)
Ltac minv_all :=
  repeat match goal with
  | H : st_modify _ _ = Ok _ |- _ => minv_prim H
  | H : st_fail _ _ = Ok _ |- _ => minv_prim H
  | H : mret _ _ = Ok _ |- _ => minv_prim H
  | H : (_ ≫= _) _ = Ok _ |- _ => minv H
  end.

Lemma get_thread_inv x k t k' : get_thread x k = Ok (t, k') → threads k !! x = Some t ∧ k' = k.
Proof. unfold get_thread. intros H. by minv H. Qed.
Lemma get_sema_inv s k sem k' : get_sema s k = Ok (sem, k') → semas k !! s = Some sem ∧ k' = k.
Proof. unfold get_sema. intros H. by minv H. Qed.
Lemma get_holder_inv l k h k' : get_holder l k = Ok (h, k') → holders k !! l = Some h ∧ k' = k.
Proof. unfold get_holder. intros H. by minv H. Qed.
Lemma get_cond_inv c k ws k' : get_cond c k = Ok (ws, k') → conds k !! c = Some ws ∧ k' = k.
Proof. unfold get_cond. intros H. by minv H. Qed.
Lemma lift_inv {A} (r : res A) k a k' : lift r k = Ok (a, k') → r = Ok a ∧ k' = k.
Proof. unfold lift. destruct r; [|done]. by intros [= -> ->]. Qed.
Lemma intr_disable_inv k old k' :
  intr_disable k = Ok (old, k') → old = intr_on k ∧ k' = with_intr_on false k.
Proof. unfold intr_disable. intros H. by minv H. Qed.
Lemma intr_set_level_inv on k u k' :
  intr_set_level on k = Ok (u, k') → k' = with_intr_on on k.
Proof. unfold intr_set_level. intros H. by minv H. Qed.
Lemma thread_current_inv k c k' :
  thread_current k = Ok (c, k') →
  c = cur k ∧ k' = k ∧ ∃ t, threads k !! cur k = Some t ∧ status t = THREAD_RUNNING.
Proof.
  unfold thread_current. intros H. minv H.
  apply get_thread_inv in E as [Ht ->]. apply bool_decide_eq_true in Ha. eauto.
Qed.
Lemma mod_thread_inv x f k u k' :
  mod_thread x f k = Ok (u, k') →
  ∃ t, threads k !! x = Some t ∧ k' = with_threads (<[x := f t]> (threads k)) k.
Proof. unfold mod_thread. intros H. minv H. apply get_thread_inv in E as [Ht ->]. eauto. Qed.

(** The accessors, inverted where they occur. *)
Ltac minv_ops :=
  repeat match goal with
  | H : get_thread _ _ = Ok _ |- _ => apply get_thread_inv in H as [? ->]
  | H : get_sema _ _ = Ok _ |- _ => apply get_sema_inv in H as [? ->]
  | H : get_holder _ _ = Ok _ |- _ => apply get_holder_inv in H as [? ->]
  | H : get_cond _ _ = Ok _ |- _ => apply get_cond_inv in H as [? ->]
  | H : lift _ _ = Ok _ |- _ => apply lift_inv in H as [? ->]
  | H : intr_disable _ = Ok _ |- _ => apply intr_disable_inv in H as [-> ->]
  | H : intr_set_level _ _ = Ok _ |- _ => apply intr_set_level_inv in H as ->
  | H : thread_current _ = Ok _ |- _ => apply thread_current_inv in H as (-> & -> & ? & ? & ?)
  | H : mod_thread _ _ _ = Ok _ |- _ => apply mod_thread_inv in H as (? & ? & ->)
  | H : bool_decide _ = true |- _ => apply bool_decide_eq_true in H
  | H : negb _ = true |- _ => apply negb_true_iff in H
  end.

Lemma lock_held_inv l k b k' :
  lock_held_by_current_thread l k = Ok (b, k') →
  k' = k ∧ ∃ h, holders k !! l = Some h ∧ b = bool_decide (h = cur k).
Proof. unfold lock_held_by_current_thread. intros H. minv H. minv_ops. eauto. Qed.

Ltac minv_held :=
  minv_ops;
  repeat match goal with
  | H : lock_held_by_current_thread _ _ = Ok _ |- _ => apply lock_held_inv in H as (-> & ? & ? & ->)
  end; minv_ops.

Ltac ksimpl := cbn [threads stacks all_list ready_list alarm_list semas holders conds cur
  idle_thread initial_thread intr_on in_external_intr yield_on_return ticks thread_ticks
  idle_ticks kernel_ticks load_avg next_tid thread_mlfqs with_threads with_stacks with_all_list
  with_ready_list with_alarm_list with_semas with_holders with_conds with_cur with_idle_thread
  with_intr_on with_in_external_intr with_yield_on_return with_ticks with_thread_ticks
  with_idle_ticks with_kernel_ticks with_load_avg with_next_tid fst snd] in *.

(** ** Results of the scheduler's operations *)

Lemma thread_unblock_inv x k u k' :
  thread_unblock x k = Ok (u, k') →
  ∃ t, threads k !! x = Some t ∧ status t = THREAD_BLOCKED ∧
    k' = with_threads (<[x := set_status THREAD_READY t]> (threads k))
           (with_ready_list (insert_ordered (thread_priority_large_func (threads k)) x (ready_list k)) k).
Proof.
  unfold thread_unblock, ready_insert. intros H. minv H. minv_ops. ksimpl.
  simplify_eq. eexists. split; [done|]. split; [done|]. by destruct k.
Qed.

Lemma thread_block_inv k u k' :
  thread_block k = Ok (u, k') →
  ∃ t, threads k !! cur k = Some t ∧ status t = THREAD_RUNNING ∧ in_external_intr k = false ∧
    schedule (with_threads (<[cur k := set_status THREAD_BLOCKED t]> (threads k)) k) = Ok (u, k').
Proof. unfold thread_block. intros H. minv H. minv_ops. simplify_eq. eauto. Qed.

Lemma next_thread_to_run_inv k next k' :
  next_thread_to_run k = Ok (next, k') →
  ∃ r, k' = with_ready_list r k ∧
    (ready_list k = next :: r ∨ ready_list k = [] ∧ r = [] ∧ next = idle_thread k).
Proof.
  unfold next_thread_to_run. intros H. minv H. destruct (ready_list k) as [|x r] eqn:E; minv H; [|eauto].
  exists []. split; [|auto]. destruct k. ksimpl. by subst.
Qed.

Lemma thread_schedule_tail_inv prev k u k' :
  thread_schedule_tail prev k = Ok (u, k') →
  ∃ t, threads k !! cur k = Some t ∧
    let k1 := with_thread_ticks 0 (with_threads (<[cur k := set_status THREAD_RUNNING t]> (threads k)) k) in
    (k' = k1 ∨ ∃ tp, threads k1 !! prev = Some tp ∧ status tp = THREAD_DYING ∧ prev ≠ NULL ∧
       k' = with_stacks (delete prev (stacks k1)) (with_threads (delete prev (threads k1)) k1)).
Proof.
  unfold thread_schedule_tail, palloc_free_page. intros H. minv H. minv_ops. ksimpl.
  eexists. split; [done|]. case_decide; minv H; [by left|]. minv_ops. ksimpl.
  case_decide as Hd; minv H; [|by left]. minv_ops. right. destruct Hd. eauto 10.
Qed.

(** A thread switch: the next thread runs, and a dying one is freed. *)
Lemma schedule_inv k u k' :
  schedule k = Ok (u, k') →
  ∃ next r t,
    (ready_list k = next :: r ∨ ready_list k = [] ∧ r = [] ∧ next = idle_thread k) ∧
    threads k !! next = Some t ∧
    let k1 := with_thread_ticks 0 (with_threads (<[next := set_status THREAD_RUNNING t]> (threads k))
                (with_cur next (with_ready_list r k))) in
    (k' = k1 ∨ ∃ tp, threads k1 !! cur k = Some tp ∧ status tp = THREAD_DYING ∧
       k' = with_stacks (delete (cur k) (stacks k1)) (with_threads (delete (cur k) (threads k1)) k1)).
Proof.
  unfold schedule. intros H. minv H. apply next_thread_to_run_inv in E as (r & -> & Hr). minv_ops. ksimpl.
  rename x into next. exists next, r. destruct (decide (cur k = next)) as [Ec|Ec].
  - apply thread_schedule_tail_inv in H as (t & Ht & H). ksimpl. exists t.
    rewrite Ec in *. split; [done|]. split; [done|].
    assert (with_ready_list r k = with_cur next (with_ready_list r k)) as Ek by (destruct k; ksimpl; by subst).
    rewrite <- Ek. destruct H as [->|(tp & ? & ? & ? & ->)]; [eauto|done].
  - minv H. apply thread_schedule_tail_inv in H as (t & Ht & H). ksimpl. exists t.
    split; [done|]. split; [done|]. destruct H as [->|(tp & ? & ? & ? & ->)]; eauto.
Qed.

(** What sema_up does before its last line: it wakes the first waiter, if any. *)
Definition woken (s : Z) (k k1 : kernel) : Prop :=
  ∃ v ws, semas k !! s = Some (Semaphore v ws) ∧
  match ws with
  | [] => k1 = with_semas (<[s := Semaphore (u32 (v + 1)) []]> (semas k)) k
  | x :: ws' => ∃ t, threads k !! x = Some t ∧ status t = THREAD_BLOCKED ∧
      k1 = with_semas (<[s := Semaphore (u32 (v + 1)) ws']> (semas k))
             (with_threads (<[x := set_status THREAD_READY t]> (threads k))
               (with_ready_list
                 (insert_ordered (thread_priority_large_func (threads k)) x (ready_list k)) k))
  end.

(** Whether sema_up yields: the thread it wakes outranks the running one. *)
Definition up_yields (s : Z) (k : kernel) : bool :=
  match semas k !! s with
  | Some (Semaphore _ (x :: _)) =>
      bool_decide (prio (threads k) x > prio (threads k) (cur k)) && negb (in_external_intr k)
  | _ => false
  end.

Lemma sema_up_inv s k u k' :
  sema_up s k = Ok (u, k') →
  ∃ k1, woken s k k1 ∧
    k' = if up_yields s k then set_stack (cur k) (FYield :: stack_of k (cur k)) k1 else k1.
Proof.
  unfold sema_up. intros H. minv H. minv_ops. ksimpl.
  destruct x2 as [v [|x' ws]]; cbn [waiters value] in *; minv E1.
  - ksimpl. simplify_eq. cbn [waiters value] in *.
    unfold woken, up_yields. rewrite H1. eexists. split; [exists v, []; split; done|].
    simpl in H. minv H. by destruct k.
  - minv_ops. apply thread_unblock_inv in E3 as (t & Ht & Hst & ->). ksimpl.
    rewrite lookup_insert_eq in H0. simplify_eq. cbn [waiters value] in *.
    unfold woken, up_yields. rewrite H1. eexists. split; [exists v, (x' :: ws); split; [done|]; eauto|].
    unfold prio. rewrite H3, H4. unfold set_stack, stack_of.
    destruct (_ && _); minv H; destruct k; ksimpl; by rewrite insert_insert_eq.
Qed.

(** ** The typing part *)

Section safe.
Context (ip : Z).
Implicit Types (ths : gmap Z thread) (stk : gmap Z (list frame)) (sems : gmap Z semaphore)
  (hold : gmap Z Z) (cnds : gmap Z (list Z)) (k : kernel) (ex : option Z).

(** Semaphores, locks and conditions keep their type. *)
Definition grows sems hold cnds sems' hold' cnds' : Prop :=
  (∀ s, plain_in sems hold s → plain_in sems' hold' s) ∧
  (∀ l, is_Some (hold !! l) → is_Some (hold' !! l)) ∧
  (∀ c, is_Some (cnds !! c) → is_Some (cnds' !! c)).

Lemma frame_ok_grows sems hold cnds sems' hold' cnds' f :
  grows sems hold cnds sems' hold' cnds' → frame_ok sems hold cnds f → frame_ok sems' hold' cnds' f.
Proof. intros (H1 & H2 & H3). destruct f; simpl; naive_solver. Qed.

Lemma grows_sema sems hold cnds s sem' : grows sems hold cnds (<[s := sem']> sems) hold cnds.
Proof.
  split; [|done]. intros s' [? ?]. split; [|done]. destruct (decide (s = s')) as [->|].
  - rewrite lookup_insert_eq. by eexists.
  - by rewrite lookup_insert_ne.
Qed.

Lemma grows_holder sems hold cnds l h h0 :
  hold !! l = Some h0 → grows sems hold cnds sems (<[l := h]> hold) cnds.
Proof.
  intros Hl. split; [|split; [|done]].
  - intros s [? E]. split; [done|]. rewrite lookup_insert_ne by congruence. done.
  - intros l' ?. destruct (decide (l = l')) as [->|].
    + rewrite lookup_insert_eq. by eexists.
    + by rewrite lookup_insert_ne.
Qed.

Lemma grows_cond sems hold cnds c ws : grows sems hold cnds sems hold (<[c := ws]> cnds).
Proof.
  split; [done|split; [done|]]. intros c' ?. destruct (decide (c = c')) as [->|].
  - rewrite lookup_insert_eq. by eexists.
  - by rewrite lookup_insert_ne.
Qed.

Lemma grows_trans a1 b1 c1 a2 b2 c2 a3 b3 c3 :
  grows a1 b1 c1 a2 b2 c2 → grows a2 b2 c2 a3 b3 c3 → grows a1 b1 c1 a3 b3 c3.
Proof. unfold grows. naive_solver. Qed.

Lemma stack_in_insert stk x st y :
  stack_in (<[x := st]> stk) y = if decide (x = y) then st else stack_in stk y.
Proof.
  unfold stack_in. case_decide; [subst; by rewrite lookup_insert_eq|by rewrite lookup_insert_ne].
Qed.

Lemma types_stack ex stk sems hold cnds x st :
  (x ≠ ip → Forall (frame_ok sems hold cnds) st) → types_wf ip ex stk sems hold cnds →
  types_wf ip ex (<[x := st]> stk) sems hold cnds.
Proof.
  intros Hst [T1 T2 T3 T4]. split; [done..|]. intros y Hy. rewrite stack_in_insert.
  case_decide; subst; auto.
Qed.

Lemma types_delete_stack ex stk sems hold cnds x :
  types_wf ip ex stk sems hold cnds → types_wf ip ex (delete x stk) sems hold cnds.
Proof.
  intros [T1 T2 T3 T4]. split; [done..|]. intros y Hy. unfold stack_in. destruct (decide (x = y)) as [->|].
  - rewrite lookup_delete_eq. constructor.
  - rewrite lookup_delete_ne by done. by apply T4.
Qed.

(** A semaphore that is no lock's, or that of the lock being changed. *)
Lemma types_sema ex stk sems hold cnds s sem sem' :
  sems !! s = Some sem → value sem' = value sem ∨ hold !! (s - 4) = None ∨ ex = Some (s - 4) →
  types_wf ip ex stk sems hold cnds → types_wf ip ex stk (<[s := sem']> sems) hold cnds.
Proof.
  intros Hs Hv [T1 T2 T3 T4]. pose proof (grows_sema sems hold cnds s sem') as G. split; [|..|done|].
  - intros l h Hl. destruct (T1 l h Hl) as (sem0 & Hs0 & E). destruct (decide (s = lock_sema l)) as [->|].
    + rewrite lookup_insert_eq. exists sem'. split; [done|]. intros Hne. simplify_eq.
      unfold lock_sema in Hv. replace (l + 4 - 4) with l in Hv by lia.
      destruct Hv as [->|[?|?]]; [auto|congruence|congruence].
    + rewrite lookup_insert_ne by done. eauto.
  - intros c ws w Hc Hw. apply G. eauto.
  - intros x Hx. eapply Forall_impl; [by apply T4|]. intros f. by apply frame_ok_grows.
Qed.

Lemma types_without ex stk sems hold cnds x :
  types_wf ip ex stk sems hold cnds → types_wf ip ex stk (without x <$> sems) hold cnds.
Proof.
  intros [T1 T2 T3 T4].
  assert (grows sems hold cnds (without x <$> sems) hold cnds) as G.
  { split; [|done]. intros s [? ?]. split; [|done]. by rewrite lookup_fmap, fmap_is_Some. }
  split; [|..|done|].
  - intros l h Hl. destruct (T1 l h Hl) as (sem0 & Hs0 & E). exists (without x sem0).
    by rewrite lookup_fmap, Hs0.
  - intros c ws w Hc Hw. apply G. eauto.
  - intros y Hy. eapply Forall_impl; [by apply T4|]. intros f. by apply frame_ok_grows.
Qed.

(** A new plain semaphore, a new lock, a new or changed condition. *)
Lemma types_new_sema ex stk sems hold cnds s sem :
  sems !! s = None → hold !! (s - 4) = None → types_wf ip ex stk sems hold cnds →
  types_wf ip ex stk (<[s := sem]> sems) hold cnds.
Proof.
  intros Hs Hh [T1 T2 T3 T4]. pose proof (grows_sema sems hold cnds s sem) as G. split; [|..|done|].
  - intros l h Hl. destruct (T1 l h Hl) as (sem0 & Hs0 & E). rewrite lookup_insert_ne by congruence. eauto.
  - intros c ws w Hc Hw. apply G. eauto.
  - intros x Hx. eapply Forall_impl; [by apply T4|]. intros f. by apply frame_ok_grows.
Qed.

Lemma types_new_lock ex stk sems hold cnds l :
  hold !! l = None → sems !! lock_sema l = None → types_wf ip ex stk sems hold cnds →
  types_wf ip ex stk (<[lock_sema l := Semaphore 1 []]> sems) (<[l := NULL]> hold) cnds.
Proof.
  intros Hl Hs [T1 T2 T3 T4].
  assert (grows sems hold cnds (<[lock_sema l := Semaphore 1 []]> sems) (<[l := NULL]> hold) cnds) as G.
  { split; [|split; [|done]].
    - intros s [Hs' E]. assert (s ≠ lock_sema l) by (intros ->; rewrite Hs in Hs'; by destruct Hs').
      split; [by rewrite lookup_insert_ne|]. rewrite lookup_insert_ne; [done|]. unfold lock_sema in *. lia.
    - intros l' ?. destruct (decide (l = l')) as [->|]; [rewrite lookup_insert_eq; by eexists|by rewrite lookup_insert_ne]. }
  split.
  - intros l' h [[-> <-]|[? Hl']]%lookup_insert_Some.
    + rewrite lookup_insert_eq. eexists. split; [done|]. by rewrite decide_True.
    + rewrite lookup_insert_ne by (unfold lock_sema; lia). eauto.
  - intros c ws w Hc Hw. apply G. eauto.
  - by apply G.
  - intros x Hx. eapply Forall_impl; [by apply T4|]. intros f. by apply frame_ok_grows.
Qed.

Lemma types_cond ex stk sems hold cnds c ws :
  (∀ w, w ∈ ws → plain_in sems hold (elem_sema w)) → types_wf ip ex stk sems hold cnds →
  types_wf ip ex stk sems hold (<[c := ws]> cnds).
Proof.
  intros Hws [T1 T2 T3 T4]. split; [done| |done|].
  - intros c' ws' w [[-> <-]|[? ?]]%lookup_insert_Some; eauto.
  - intros x Hx. eapply Forall_impl; [by apply T4|]. intros f. apply frame_ok_grows, grows_cond.
Qed.

(** Acquiring and releasing a lock. *)
Lemma types_acquire stk sems hold cnds l h sem c ws :
  hold !! l = Some h → sems !! lock_sema l = Some sem → c ≠ NULL →
  types_wf ip None stk sems hold cnds →
  types_wf ip None stk (<[lock_sema l := Semaphore 0 ws]> sems) (<[l := c]> hold) cnds.
Proof.
  intros Hl Hs Hc [T1 T2 T3 T4].
  assert (grows sems hold cnds (<[lock_sema l := Semaphore 0 ws]> sems) (<[l := c]> hold) cnds) as G
    by (eapply grows_trans; [apply grows_sema|by eapply grows_holder]).
  split.
  - intros l' h' [[-> <-]|[? Hl']]%lookup_insert_Some.
    + rewrite lookup_insert_eq. eexists. split; [done|]. by rewrite decide_False.
    + rewrite lookup_insert_ne by (unfold lock_sema; lia). eauto.
  - intros c' ws' w Hc' Hw. apply G. eauto.
  - by apply G.
  - intros x Hx. eapply Forall_impl; [by apply T4|]. intros f. by apply frame_ok_grows.
Qed.

Lemma types_release_begin stk sems hold cnds l h :
  hold !! l = Some h → types_wf ip None stk sems hold cnds →
  types_wf ip (Some l) stk sems (<[l := NULL]> hold) cnds.
Proof.
  intros Hl [T1 T2 T3 T4]. pose proof (grows_holder sems hold cnds l NULL h Hl) as G. split.
  - intros l' h' [[-> <-]|[? Hl']]%lookup_insert_Some.
    + destruct (T1 l' h Hl) as (sem & ? & _). eauto. exists sem. split; [done|congruence].
    + destruct (T1 l' h' Hl') as (sem & ? & E). exists sem. split; [done|]. intros _. by apply E.
  - intros c ws w Hc Hw. apply G. eauto.
  - by apply G.
  - intros x Hx. eapply Forall_impl; [by apply T4|]. intros f. by apply frame_ok_grows.
Qed.

Lemma types_release_end stk sems hold cnds l sem :
  hold !! l = Some NULL → sems !! lock_sema l = Some sem → value sem = 1 →
  types_wf ip (Some l) stk sems hold cnds → types_wf ip None stk sems hold cnds.
Proof.
  intros Hl Hs Hv [T1 T2 T3 T4]. split; [|done..]. intros l' h' Hl'. destruct (T1 l' h' Hl') as (sem' & Hs' & E).
  exists sem'. split; [done|]. intros _. destruct (decide (l' = l)) as [->|].
  - rewrite Hl in Hl'. simplify_eq. by rewrite decide_True.
  - apply E. congruence.
Qed.

(** ** The idle thread's part *)

Lemma idle_ok_grows sems hold cnds sems' hold' cnds' idle st :
  grows sems hold cnds sems' hold' cnds' → idle_ok ip sems hold idle st → idle_ok ip sems' hold' idle st.
Proof.
  intros (G & _) (pre & f & -> & Hpre & H). exists pre, f. split; [done|]. split; [done|].
  destruct H as [(-> & s & -> & Hs)|H]; [left|by right]. eauto.
Qed.

Lemma idle_ok_push sems hold idle fs st :
  Forall switch_frame fs → idle_ok ip sems hold idle st → idle_ok ip sems hold idle (fs ++ st).
Proof.
  intros Hfs (pre & f & -> & Hpre & H). exists (fs ++ pre), f. rewrite app_assoc.
  split; [done|]. split; [by apply Forall_app|done].
Qed.

(** A pending switch on top of the idle thread's stack. *)
Lemma idle_ok_pop sems hold idle f st :
  switch_frame f → idle_ok ip sems hold idle (f :: st) → idle_ok ip sems hold idle st.
Proof.
  intros Hf ([|f' pre] & g & E & Hpre & H); simplify_eq/=.
  - destruct H as [(? & s & -> & ?)|(? & [->| ->])]; done.
  - exists pre, g. split; [done|]. apply Forall_cons in Hpre as [_ ?]. done.
Qed.

Lemma idle_ok_ne sems hold idle : ¬ idle_ok ip sems hold idle [].
Proof. by intros ([|? ?] & g & E & _). Qed.

Lemma idle_wf_grows run ths stk sems hold cnds sems' hold' cnds' idle :
  grows sems hold cnds sems' hold' cnds' → idle_wf ip run ths stk sems hold idle →
  idle_wf ip run ths stk sems' hold' idle.
Proof. intros G [H1 H2 H3]. split; [done..|]. intros Hr. eapply idle_ok_grows; eauto. Qed.

Lemma idle_wf_thread run ths stk sems hold idle x t :
  idle_wf ip run ths stk sems hold idle → idle_wf ip run (<[x := t]> ths) stk sems hold idle.
Proof.
  intros [H1 H2 H3]. split; [done| |done]. destruct (decide (x = ip)) as [->|].
  - rewrite lookup_insert_eq. by eexists.
  - by rewrite lookup_insert_ne.
Qed.

Lemma idle_wf_stack c ths stk sems hold idle st :
  idle_wf ip (Some c) ths stk sems hold idle → idle_wf ip (Some c) ths (<[c := st]> stk) sems hold idle.
Proof.
  intros [H1 H2 H3]. split; [done..|]. intros Hne. rewrite stack_in_insert, decide_False by congruence. auto.
Qed.

Lemma idle_wf_run run run' ths stk sems hold idle :
  idle_ok ip sems hold idle (stack_in stk ip) →
  idle_wf ip run ths stk sems hold idle → idle_wf ip run' ths stk sems hold idle.
Proof. intros H [H1 H2 H3]. by split. Qed.

(** ** Thread switches *)

Lemma kinv_dispatch next r t k :
  kwf ip None [] None k → in_external_intr k = false → threads k !! next = Some t →
  (ready_list k = next :: r ∨ ready_list k = [] ∧ r = [] ∧ next = idle_thread k) →
  kinv ip (with_thread_ticks 0 (with_threads (<[next := set_status THREAD_RUNNING t]> (threads k))
            (with_cur next (with_ready_list r k)))).
Proof.
  intros (S & T & I) Hctx Ht Hn. assert (idle_ok ip (semas k) (holders k) (idle_thread k) (stack_of k ip)) as Hi
    by by apply (i_stack _ _ _ _ _ _ _ I).
  split; [|done]. split; [|split; [done|]]; ksimpl.
  - destruct Hn as [E|(E & -> & ->)]; rewrite E in S; [by apply sched_dispatch|by apply sched_dispatch_idle].
  - apply idle_wf_thread. by eapply idle_wf_run.
Qed.

Lemma kinv_free x t k :
  kinv ip k → threads k !! x = Some t → status t = THREAD_DYING →
  kinv ip (with_stacks (delete x (stacks k)) (with_threads (delete x (threads k)) k)).
Proof.
  intros ((S & T & I) & Hctx & Hi) Hx Hd.
  assert (x ≠ ip) as Hne.
  { intros ->. pose proof (k_dying _ _ (s_stacks _ _ _ _ _ _ _ _ _ S) _ _ Hx Hd) as E.
    unfold stack_of in Hi. unfold stack_in in E. rewrite E in Hi. by apply idle_ok_ne in Hi. }
  assert (stack_in (delete x (stacks k)) ip = stack_of k ip) as E
    by (unfold stack_in, stack_of; by rewrite lookup_delete_ne).
  split; [|split; [done|]]; [|by unfold stack_of; ksimpl; unfold stack_in in E; rewrite E].
  split; [|split]; ksimpl.
  - by eapply sched_free.
  - by apply types_delete_stack.
  - destruct I as [I1 I2 I3]. split; [done|by rewrite lookup_delete_ne|]. by rewrite E.
Qed.

Lemma schedule_kinv k u k' :
  kwf ip None [] None k → in_external_intr k = false → schedule k = Ok (u, k') → kinv ip k'.
Proof.
  intros W Hctx (next & r & t & Hn & Ht & H)%schedule_inv.
  pose proof (kinv_dispatch next r t k W Hctx Ht Hn) as K.
  destruct H as [->|(tp & Htp & Hd & ->)]; [done|]. by apply (kinv_free (cur k) tp).
Qed.

(** ** Facts of a state that satisfies the invariant *)

Lemma kwf_cur c extra ex k :
  kwf ip (Some c) extra ex k → ∃ t, threads k !! c = Some t ∧ status t = THREAD_RUNNING ∧ c ≠ NULL.
Proof.
  intros (S & _). destruct (sched_run _ _ _ _ _ _ _ _ _ S) as (t & Ht & Hr). exists t.
  split; [done|]. split; [done|]. intros ->.
  pose proof (pl_null _ _ _ _ _ (s_places _ _ _ _ _ _ _ _ _ S)) as E. by rewrite lookup_fmap, Ht in E.
Qed.

Lemma kwf_not_idle c extra ex k : kwf ip (Some c) extra ex k → c ≠ ip → c ≠ idle_thread k.
Proof.
  intros W Hne. destruct (kwf_cur _ _ _ _ W) as (_ & _ & _ & Hnull). destruct W as (_ & _ & I).
  destruct (i_idle _ _ _ _ _ _ _ I) as [->| ->]; done.
Qed.

(** ** Changes that involve no thread switch *)

Lemma kwf_stack c extra extra' ex k st :
  extra' ++ embryos st ≡ₚ extra ++ embryos (stack_of k c) →
  (∀ x, x ∈ extra → x ∈ embryos st → stack_of k x = []) →
  (c ≠ ip → Forall (frame_ok (semas k) (holders k) (conds k)) st) →
  kwf ip (Some c) extra ex k → kwf ip (Some c) extra' ex (set_stack c st k).
Proof.
  intros E Hx Hf (S & T & I). split; [|split]; unfold set_stack; ksimpl.
  - by eapply sched_stack.
  - by apply types_stack.
  - by apply idle_wf_stack.
Qed.

Lemma stack_of_set k x st y : stack_of (set_stack x st k) y = if decide (x = y) then st else stack_of k y.
Proof. apply stack_in_insert. Qed.

Lemma kinv_push fs k :
  kinv ip k → embryos fs = [] → (cur k ≠ ip → Forall (frame_ok (semas k) (holders k) (conds k)) fs) →
  (cur k = ip → Forall switch_frame fs) → kinv ip (set_stack (cur k) (fs ++ stack_of k (cur k)) k).
Proof.
  intros (W & Hctx & Hi) He Hf Hs. split; [|split; [done|]].
  - eapply kwf_stack; [| | |exact W].
    + unfold embryos in *. by rewrite fmap_app, concat_app, He.
    + by intros x ?%elem_of_nil.
    + intros Hne. apply Forall_app. split; [auto|]. destruct W as (_ & T & _). by apply (t_frames _ _ _ _ _ _ T).
  - rewrite stack_of_set. case_decide as E; [|done]. rewrite E. by apply idle_ok_push; [apply Hs|].
Qed.

Lemma kinv_pop f st k :
  kinv ip k → stack_of k (cur k) = f :: st → cur k ≠ ip → frame_embryos f = [] →
  kinv ip (set_stack (cur k) st k) ∧ frame_ok (semas k) (holders k) (conds k) f.
Proof.
  intros (W & Hctx & Hi) Hst Hne He.
  assert (Forall (frame_ok (semas k) (holders k) (conds k)) (f :: st)) as [Hf Hfs]%Forall_cons.
  { rewrite <- Hst. destruct W as (_ & T & _). by apply (t_frames _ _ _ _ _ _ T). }
  split; [|done]. split; [|split; [done|]].
  - eapply kwf_stack; [| | |exact W]; [|by intros x ?%elem_of_nil|auto].
    rewrite Hst. unfold embryos. simpl. by rewrite He.
  - rewrite stack_of_set. by rewrite decide_False.
Qed.

(** The running thread's structure changes, its status apart. *)
Lemma kinv_cur_thread k t t' :
  kinv ip k → threads k !! cur k = Some t → status t' = status t →
  kinv ip (with_threads (<[cur k := t']> (threads k)) k).
Proof.
  intros ((S & T & I) & Hctx & Hi) Ht Hs. split; [|done]. split; [|split; [done|]]; ksimpl.
  - by eapply sched_run_thread.
  - by apply idle_wf_thread.
Qed.

(** The value of a semaphore that is no lock's changes. *)
Lemma kinv_sema_value k s sem v :
  kinv ip k → semas k !! s = Some sem → holders k !! (s - 4) = None →
  kinv ip (with_semas (<[s := Semaphore v (waiters sem)]> (semas k)) k).
Proof.
  intros ((S & T & I) & Hctx & Hi) Hs Hh. split; [|split; [done|]]; ksimpl.
  - split; [|split]; ksimpl.
    + by apply sched_sema_value.
    + eapply types_sema; eauto.
    + by eapply idle_wf_grows; [apply (grows_sema _ _ ∅)|].
  - by eapply idle_ok_grows; [apply (grows_sema _ _ ∅)|].
Qed.

(** ** sema_up *)

Lemma woken_kwf s ex k k1 :
  woken s k k1 → holders k !! (s - 4) = None ∨ ex = Some (s - 4) →
  kwf ip (Some (cur k)) [] ex k → kwf ip (Some (cur k)) [] ex k1.
Proof.
  intros (v & ws & Hs & H) Hh (S & T & I).
  assert (∀ sem', idle_wf ip (Some (cur k)) (threads k) (stacks k) (<[s := sem']> (semas k)) (holders k) (idle_thread k)) as I'.
  { intros. by eapply idle_wf_grows; [apply (grows_sema _ _ ∅)|]. }
  destruct ws as [|x ws]; [subst k1|destruct H as (t & Ht & Hst & ->)]; (split; [|split]); ksimpl.
  - change (Semaphore (u32 (v + 1)) []) with (Semaphore (u32 (v + 1)) (waiters (Semaphore v []))).
    by apply sched_sema_value.
  - eapply types_sema; eauto.
  - apply I'.
  - apply sched_unblock; [done|]. by eapply sched_pop_waiter.
  - eapply types_sema; eauto.
  - apply idle_wf_thread, I'.
Qed.

(** The fields that waking a thread leaves alone. *)
Lemma woken_same s k k1 :
  woken s k k1 → cur k1 = cur k ∧ stacks k1 = stacks k ∧ holders k1 = holders k ∧ conds k1 = conds k ∧
    in_external_intr k1 = in_external_intr k ∧ idle_thread k1 = idle_thread k ∧
    ∃ sem, semas k1 = <[s := sem]> (semas k) ∧ ∃ sem0, semas k !! s = Some sem0 ∧ value sem = u32 (value sem0 + 1).
Proof.
  intros (v & ws & Hs & H). destruct ws as [|x ws]; [subst k1|destruct H as (t & Ht & Hst & ->)]; ksimpl;
    (repeat split; [..|eexists; split; [done|]; eexists; split; [done|]; done]).
Qed.

Lemma sema_up_kinv s k u k' :
  kinv ip k → holders k !! (s - 4) = None → sema_up s k = Ok (u, k') → kinv ip k'.
Proof.
  intros (W & Hctx & Hi) Hh (k1 & Hw & ->)%sema_up_inv.
  pose proof (woken_kwf _ _ _ _ Hw (or_introl Hh) W) as W1.
  destruct (woken_same _ _ _ Hw) as (Ec & Es & Eh & _ & Ex & Ei & sem & Esem & _).
  assert (kinv ip k1) as K1.
  { split; [by rewrite Ec|]. split; [by rewrite Ex|]. unfold stack_of. rewrite Es, Eh, Ei, Esem.
    by eapply idle_ok_grows; [apply (grows_sema _ _ ∅)|]. }
  destruct (up_yields s k); [|done].
  assert (stack_of k (cur k) = stack_of k1 (cur k1)) as -> by (unfold stack_of; by rewrite Es, Ec).
  rewrite <- Ec. apply (kinv_push [FYield]); [done|done|intros _; by repeat constructor..].
Qed.

(** ** Blocking *)

(** The running thread leaves the processor: the state before the switch. *)
Lemma kwf_switch k k1 :
  kinv ip k → stacks k1 = stacks k → idle_thread k1 = idle_thread k →
  grows (semas k) (holders k) (conds k) (semas k1) (holders k1) (conds k1) →
  sched_wf None [] (threads k1) (stacks k1) (ready_list k1) (alarm_list k1) (semas k1)
    (idle_thread k1) (thread_mlfqs k1) →
  types_wf ip None (stacks k1) (semas k1) (holders k1) (conds k1) → is_Some (threads k1 !! ip) →
  kwf ip None [] None k1.
Proof.
  intros ((S & T & I) & Hctx & Hi) Es Ei G S' T' Hip. split; [done|]. split; [done|].
  split; [rewrite Ei; by eapply i_idle|done|]. intros _. rewrite Es, Ei. by eapply idle_ok_grows.
Qed.

(** The running thread waits on semaphore [s] and will resume at frame [f]. *)
Lemma wait_block_kinv s f k u k' :
  kinv ip k → cur k ≠ ip → frame_ok (semas k) (holders k) (conds k) f → frame_embryos f = [] →
  (wait_insert s (cur k);; push [f];; thread_block) k = Ok (u, k') → kinv ip k'.
Proof.
  intros K Hne Hf He H. unfold wait_insert in H. minv H. minv E. minv_ops. ksimpl.
  rename x1 into sem, H0 into Hs. apply thread_block_inv in H as (t & Ht & Hrun & Hctx & H). ksimpl.
  assert (kinv ip (set_stack (cur k) ([f] ++ stack_of k (cur k)) k)) as K1.
  { apply kinv_push; [done| |by repeat constructor|done]. unfold embryos. simpl. by rewrite He. }
  pose proof K1 as ((S & T & I) & _).
  refine (schedule_kinv _ _ _ _ _ H); [|exact Hctx].
  apply (kwf_switch _ _ K1); [done|done|apply grows_sema|ksimpl..].
  - apply sched_block_sema; [done| |done|done]. by eapply kwf_not_idle; [apply K|].
  - eapply types_sema; [done|by left|done].
  - by eapply i_thread, (idle_wf_thread _ _ _ _ _ _ _ _ I).
Qed.

Lemma sema_down_loop_kinv s old k u k' :
  kinv ip k → cur k ≠ ip → plain k s → sema_down_loop s old k = Ok (u, k') → kinv ip k'.
Proof.
  intros K Hne Hp H. unfold sema_down_loop in H. minv H. minv_ops. case_decide.
  - apply st_bind_inv in H as (c & k1 & E & H). minv_ops.
    by apply (wait_block_kinv s (FSemaLoop s old) k u k').
  - minv H. minv_ops. destruct Hp as [_ Hp]. by apply kinv_sema_value.
Qed.

Lemma sema_down_kinv s k u k' :
  kinv ip k → cur k ≠ ip → plain k s → sema_down s k = Ok (u, k') → kinv ip k'.
Proof.
  intros K Hne Hp H. unfold sema_down in H. minv H. minv_ops.
  by apply (sema_down_loop_kinv s (intr_on k) (with_intr_on false k) u k').
Qed.

Lemma sema_try_down_kinv s k b k' :
  kinv ip k → plain k s → sema_try_down s k = Ok (b, k') → kinv ip k'.
Proof.
  intros K [_ Hp] H. unfold sema_try_down in H. minv H. minv_ops.
  case_decide; minv E1; minv_ops; minv H; [|done]. by apply (kinv_sema_value k).
Qed.

Lemma insert_is_some (ths : gmap Z thread) x t : is_Some (ths !! ip) → is_Some (<[x := t]> ths !! ip).
Proof.
  intros. destruct (decide (x = ip)) as [->|]; [rewrite lookup_insert_eq; by eexists|by rewrite lookup_insert_ne].
Qed.

Lemma thread_yield_kinv k u k' : kinv ip k → thread_yield k = Ok (u, k') → kinv ip k'.
Proof.
  intros K H. unfold thread_yield, ready_insert in H. minv H. minv_ops.
  set (k0 := set_stack (cur k) ([FSetLevel (intr_on k)] ++ stack_of k (cur k)) k).
  assert (kinv ip k0) as K0 by (apply kinv_push; [done|done|intros _; by repeat constructor..]).
  pose proof K0 as ((S & T & I) & _).
  assert (is_Some (threads k !! ip)) as Hip by apply I.
  destruct (decide (cur k = idle_thread k)) as [Eid|Eid]; minv E1; ksimpl; simplify_eq;
    (refine (schedule_kinv _ _ _ _ _ H); [apply (kwf_switch k0); [done..| | |]|done]; ksimpl);
    [|done|by apply insert_is_some| |done|by apply insert_is_some].
  - apply sched_idle_off; auto.
  - by apply sched_yield.
Qed.

(** ** Locks *)

Lemma donate_same p l t t' :
  donate p l t = Ok t' → status t' = status t ∧ wake_up_time t' = wake_up_time t.
Proof.
  unfold donate. intros (ps & _ & H)%res_bind_inv. apply res_bind_inv in H as (ls & _ & H). by injection H as <-.
Qed.

Lemma release_donations_same l t t' : release_donations l t = Ok t' → status t' = status t.
Proof.
  unfold release_donations. destruct (decide _); [by intros [= ->]|].
  intros ([[co ps] ls] & _ & H)%res_bind_inv. apply res_bind_inv in H as (t1 & H1 & H).
  assert (status t1 = status t) as <-.
  { destruct (decide (co = 0)); [by injection H1 as <-|]. apply res_bind_inv in H1 as (c & _ & H1). by injection H1 as <-. }
  destruct (decide (priority_lock_master t1 = l)); [|by injection H as <-]. apply res_bind_inv in H as (p & _ & H).
  apply res_bind_inv in H as (m & _ & H). by injection H as <-.
Qed.

Lemma donate_to_holder_kinv l k u k' :
  kinv ip k → donate_to_holder l (cur k) k = Ok (u, k') →
  kinv ip k' ∧ cur k' = cur k ∧ holders k' = holders k ∧ intr_on k' = intr_on k.
Proof.
  intros ((S & T & I) & Hctx & Hi) H. unfold donate_to_holder in H. minv H. minv_ops.
  case_decide; [|by minv H]. minv H. minv_ops.
  match goal with D : donate _ _ _ = Ok _ |- _ => apply donate_same in D as [Hst Hwk] end.
  unfold elem_remove in E0. minv E0. unfold ready_insert in H. minv H. ksimpl.
  repeat case_decide; minv E0; ksimpl; (split; [|done]).
  - split; [|done]. split; [|split; [done|by apply idle_wf_thread]]; ksimpl. by eapply sched_donate_ready.
  - assert (grows (semas k) (holders k) (conds k) (without x <$> semas k) (holders k) (conds k)) as G.
    { split; [|done]. intros s [? ?]. split; [|done]. by rewrite lookup_fmap, fmap_is_Some. }
    split; [|split; [done|by eapply idle_ok_grows]].
    split; [|split; [by apply types_without|apply idle_wf_thread; by eapply idle_wf_grows]]; ksimpl.
    eapply sched_donate_waiter; [done..| |done]. apply elem_of_collect.
    match goal with E : Exists _ _ |- _ => apply Exists_exists in E as ([s sem] & Hin%elem_of_map_to_list & Hx) end. eauto.
Qed.

Lemma lock_acquire_loop_kinv l old k u k' :
  kinv ip k → cur k ≠ ip → is_lock k l → lock_acquire_loop l old k = Ok (u, k') → kinv ip k'.
Proof.
  intros K Hne Hl H. unfold lock_acquire_loop in H. minv H. minv_ops.
  match goal with E : semas k !! _ = Some ?s |- _ => rename s into sem end. case_decide as Hv.
  - apply st_bind_inv in H as (u0 & k1 & E & H).
    apply donate_to_holder_kinv in E as (K1 & Ec & Eh & _); [|done].
    rewrite <- Ec in H, Hne. apply (wait_block_kinv _ _ _ _ _ K1 Hne) in H; [done| |done].
    simpl. by rewrite Eh.
  - minv H. minv_ops. ksimpl. destruct K as ((S & T & I) & Hctx & Hi). destruct Hl as [h Hl].
    destruct (t_locks _ _ _ _ _ _ T l h Hl) as (sem' & Hs & Hval). simplify_eq.
    assert (value sem = 1) as Hv1 by (rewrite Hval in * by done; by case_decide). rewrite Hv1.
    assert (grows (semas k) (holders k) (conds k) (<[lock_sema l := Semaphore (u32 (1 - 1)) (waiters sem)]> (semas k))
      (<[l := cur k]> (holders k)) (conds k)) as G by (eapply grows_trans; [apply grows_sema|by eapply grows_holder]).
    split; [|split; [done|by eapply idle_ok_grows]]. split; [|split]; ksimpl.
    + by apply sched_sema_value.
    + change (u32 (1 - 1)) with 0. eapply types_acquire; [done|done| |done].
      edestruct kwf_cur as (_ & _ & _ & Hn); [exact (conj S (conj T I))|exact Hn].
    + by eapply idle_wf_grows.
Qed.

Lemma lock_acquire_kinv l k u k' :
  kinv ip k → cur k ≠ ip → is_lock k l → lock_acquire l k = Ok (u, k') → kinv ip k'.
Proof.
  intros K Hne Hl H. unfold lock_acquire in H. minv H. minv_held. by apply (lock_acquire_loop_kinv l (intr_on k) (with_intr_on false k) u k').
Qed.

(** sema_up on the semaphore of a lock whose holder has just been reset. *)
Lemma release_up_kinv l k u k' :
  kwf ip (Some (cur k)) [] (Some l) k → in_external_intr k = false →
  idle_ok ip (semas k) (holders k) (idle_thread k) (stack_of k ip) →
  holders k !! l = Some NULL → (∃ sem, semas k !! lock_sema l = Some sem ∧ value sem = 0) →
  sema_up (lock_sema l) k = Ok (u, k') → kinv ip k'.
Proof.
  intros W Hctx Hi Hl (sem0 & Hs0 & Hv0) (k1 & Hw & ->)%sema_up_inv.
  assert (lock_sema l - 4 = l) as El by (unfold lock_sema; lia).
  pose proof (woken_kwf _ (Some l) _ _ Hw (or_intror (eq_sym (f_equal Some El))) W) as (S & T & I).
  destruct (woken_same _ _ _ Hw) as (Ec & Es & Eh & _ & Ex & Ei & sem & Esem & sem0' & Hs0' & Hv). simplify_eq.
  assert (kinv ip k1) as K1.
  { split; [split; [by rewrite Ec|split; [|by rewrite Ec]]|split; [by rewrite Ex|]].
    - eapply (types_release_end _ _ _ _ l sem); [by rewrite Eh|by rewrite Esem, lookup_insert_eq| |done].
      by rewrite Hv, Hv0.
    - unfold stack_of. rewrite Es, Eh, Ei, Esem. by eapply idle_ok_grows; [apply (grows_sema _ _ ∅)|]. }
  destruct (up_yields _ k); [|done].
  assert (stack_of k (cur k) = stack_of k1 (cur k1)) as -> by (unfold stack_of; by rewrite Es, Ec).
  rewrite <- Ec. apply (kinv_push [FYield]); [done|done|intros _; by repeat constructor..].
Qed.

Lemma lock_release_kinv l k u k' :
  kinv ip k → lock_release l k = Ok (u, k') → kinv ip k'.
Proof.
  intros K H. unfold lock_release in H. minv H. minv_held. ksimpl. simplify_eq.
  match goal with D : release_donations _ _ = Ok _ |- _ => apply release_donations_same in D end.
  assert (kinv ip (set_stack (cur k) ([FSetLevel (intr_on k)] ++ stack_of k (cur k)) k)) as K1
    by (apply kinv_push; [done|done|intros _; by repeat constructor..]).
  pose proof K1 as K2. eapply kinv_cur_thread in K2; [|done..]. destruct K2 as ((S & T & I) & Hctx & Hi).
  pose proof K as (W & _). destruct (kwf_cur _ _ _ _ W) as (_ & _ & _ & Hn).
  eapply release_up_kinv; [| | | | |exact H]; ksimpl.
  - split; [done|split; [by eapply types_release_begin|]]. by eapply idle_wf_grows; [by eapply (grows_holder _ _ ∅)|].
  - done.
  - by eapply idle_ok_grows; [by eapply (grows_holder _ _ ∅)|].
  - by rewrite lookup_insert_eq.
  - destruct (t_locks _ _ _ _ _ _ T l (cur k)) as (sem & Hs & E); [done|]. exists sem. split; [done|].
    rewrite E by done. by rewrite decide_False.
Qed.

(** ** Condition variables and initialisation *)

Lemma sema_init_kinv s v k u k' :
  kinv ip k → semas k !! s = None → holders k !! (s - 4) = None →
  sema_init s v k = Ok (u, k') → kinv ip k' ∧ k' = with_semas (<[s := Semaphore v []]> (semas k)) k.
Proof.
  intros ((S & T & I) & Hctx & Hi) Hs Hh H. unfold sema_init in H. minv H. split; [|done].
  split; [split; [|split]|split; [done|]]; ksimpl.
  - by apply sched_new_sema.
  - by apply types_new_sema.
  - by eapply idle_wf_grows; [apply (grows_sema _ _ ∅)|].
  - by eapply idle_ok_grows; [apply (grows_sema _ _ ∅)|].
Qed.

Lemma lock_init_kinv l k u k' :
  kinv ip k → holders k !! l = None → semas k !! lock_sema l = None →
  lock_init l k = Ok (u, k') → kinv ip k'.
Proof.
  intros ((S & T & I) & Hctx & Hi) Hh Hs H. unfold lock_init, sema_init in H. minv H. ksimpl.
  assert (grows (semas k) (holders k) (∅ : gmap Z (list Z)) (<[lock_sema l := Semaphore 1 []]> (semas k))
    (<[l := NULL]> (holders k)) ∅) as G.
  { split; [|split; [|done]].
    - intros s [Hs' E]. assert (s ≠ lock_sema l) by (intros ->; rewrite Hs in Hs'; by destruct Hs').
      split; [by rewrite lookup_insert_ne|]. rewrite lookup_insert_ne; [done|]. unfold lock_sema in *. lia.
    - intros l' ?. destruct (decide (l = l')) as [->|]; [rewrite lookup_insert_eq; by eexists|by rewrite lookup_insert_ne]. }
  split; [split; [|split]|split; [done|]]; ksimpl.
  - by apply sched_new_sema.
  - by apply types_new_lock.
  - by eapply idle_wf_grows.
  - by eapply idle_ok_grows.
Qed.

Lemma kinv_cond c ws k :
  kinv ip k → (∀ w, w ∈ ws → plain k (elem_sema w)) → kinv ip (with_conds (<[c := ws]> (conds k)) k).
Proof.
  intros ((S & T & I) & Hctx & Hi) Hws. split; [|done]. split; [done|split; [|done]]; ksimpl.
  by apply types_cond.
Qed.

Lemma kinv_cond_plain c ws w k : kinv ip k → conds k !! c = Some ws → w ∈ ws → plain k (elem_sema w).
Proof. intros ((_ & T & _) & _) Hc Hw. by apply (t_conds _ _ _ _ _ _ T c ws). Qed.

Lemma cond_wait_kinv c l w k u k' :
  kinv ip k → cur k ≠ ip → is_lock k l → semas k !! elem_sema w = None →
  holders k !! (elem_sema w - 4) = None → cond_wait c l w k = Ok (u, k') → kinv ip k'.
Proof.
  intros K Hne Hl Hs Hh H. unfold cond_wait in H. minv H. minv_held.
  match goal with E : sema_init _ _ _ = _ |- _ => apply sema_init_kinv in E as [K1 ->]; [|done..] end. ksimpl.
  assert (plain (with_semas (<[elem_sema w := Semaphore 0 []]> (semas k)) k) (elem_sema w)) as Hp
    by (split; [ksimpl; rewrite lookup_insert_eq; by eexists|done]).
  eapply (kinv_cond c (w :: _)) in K1 as K2;
    [|intros w' [->|Hw]%elem_of_cons; [exact Hp|by eapply kinv_cond_plain]].
  apply (kinv_push [FLockRelease l; FSemaDown (elem_sema w); FLockAcquire l]) in K2; [done|done| |done].
  intros _. repeat constructor; simpl; ksimpl; try done. rewrite lookup_insert_eq. by eexists.
Qed.

Lemma list_sort_perm {A} (less : A → A → bool) (xs : list A) : list_sort less xs ≡ₚ xs.
Proof.
  unfold list_sort. destruct (sort_loop less (S (length xs)) xs) eqn:E; [|done]. simpl. by eapply sort_loop_perm.
Qed.

Lemma cond_signal_kinv c l k u k' : kinv ip k → cond_signal c l k = Ok (u, k') → kinv ip k'.
Proof.
  intros K H. unfold cond_signal in H. minv H. minv_held. case_decide; [by minv H|]. minv H.
  rename x4 into ws. pose proof (list_sort_perm (cond_thread_priority_large_func k) ws) as Hp.
  destruct (list_sort (cond_thread_priority_large_func k) ws) as [|w ws']; [by minv H|]. minv H.
  assert (∀ w', w' ∈ w :: ws' → plain k (elem_sema w')) as Hpl
    by (intros w'; rewrite Hp; by apply (kinv_cond_plain c)).
  apply (kinv_cond c ws') in K; [|intros; apply Hpl; by right].
  refine (sema_up_kinv _ _ _ _ K _ H). apply Hpl. by left.
Qed.

Lemma cond_broadcast_kinv c l k u k' :
  kinv ip k → cur k ≠ ip → is_lock k l → cond_broadcast c l k = Ok (u, k') → kinv ip k'.
Proof.
  intros K Hne Hl H. unfold cond_broadcast in H. minv H. minv_ops. case_decide; [by minv H|]. minv H.
  apply (kinv_push [FCondSignal c l; FCondBroadcast c l]); [done|done| |done].
  intros _. by repeat constructor.
Qed.

(** ** Priorities, sleeping, creation and exit *)

Lemma set_priority_same p t r : set_priority p t = Ok r → status r.1 = status t.
Proof.
  unfold set_priority. destruct (decide _).
  - intros (ps & _ & H)%res_bind_inv. by injection H as <-.
  - by intros [= <-].
Qed.

Lemma thread_set_priority_kinv p k u k' : kinv ip k → thread_set_priority p k = Ok (u, k') → kinv ip k'.
Proof.
  intros K H. unfold thread_set_priority in H. minv H. destruct (thread_mlfqs k); [by minv H|].
  minv H. minv_ops. ksimpl. match goal with D : set_priority _ _ = Ok _ |- _ => apply set_priority_same in D end.
  eapply kinv_cur_thread in K as K1; [|done..].
  match type of H with (if ?b then _ else _) _ = _ => destruct b end; minv H; [|exact K1].
  apply (kinv_push [FYield]) in K1; [done|done|intros _; by repeat constructor..].
Qed.

Lemma update_nice_kinv c k u k' :
  kinv ip k → c = cur k → thread_update_priority_with_nice c k = Ok (u, k') →
  kinv ip k' ∧ cur k' = cur k ∧ in_external_intr k' = in_external_intr k.
Proof.
  intros K -> H. unfold thread_update_priority_with_nice in H. minv H. case_decide; [by minv H|].
  minv_ops. split; [|done]. by eapply kinv_cur_thread.
Qed.

Lemma thread_set_nice_kinv n k u k' :
  kinv ip k → cur k ≠ ip → thread_set_nice n k = Ok (u, k') → kinv ip k'.
Proof.
  intros K Hne H. unfold thread_set_nice in H. minv H. minv_ops.
  match goal with E : thread_update_priority_with_nice _ _ = _ |- _ =>
    apply update_nice_kinv in E as (K1 & Ec & _); [|by eapply kinv_cur_thread|done] end.
  apply (kinv_push [FNiceYield]) in K1; [done|done|intros _; by repeat constructor|]. ksimpl. congruence.
Qed.

Lemma nice_yield_kinv k u k' : kinv ip k → nice_yield k = Ok (u, k') → kinv ip k'.
Proof.
  intros K H. unfold nice_yield in H. minv H. destruct (ready_list k); [by minv H|].
  case_decide; minv H; [|done]. apply (kinv_push [FYield]); [done|done|intros _; by repeat constructor..].
Qed.

Lemma timer_sleep_kinv n k u k' : kinv ip k → cur k ≠ ip → timer_sleep n k = Ok (u, k') → kinv ip k'.
Proof.
  intros K Hne H. unfold timer_sleep in H. case_decide; minv H; [done|].
  apply (kinv_push [FSleepUntil _]); [done|done|intros _; by repeat constructor|done].
Qed.

Lemma timer_sleep_until_kinv t k u k' :
  kinv ip k → cur k ≠ ip → timer_sleep_until t k = Ok (u, k') → kinv ip k'.
Proof.
  intros K Hne H. unfold timer_sleep_until in H. minv H. minv_ops. ksimpl.
  apply thread_block_inv in H as (t0 & Ht0 & Hrun & Hctx & H). ksimpl.
  assert (kinv ip (set_stack (cur k) ([FSetLevel (intr_on k)] ++ stack_of k (cur k)) k)) as K1
    by (apply kinv_push; [done|done|intros _; by repeat constructor..]).
  pose proof K1 as ((S & T & I) & _). rewrite lookup_insert_eq in Ht0. simplify_eq.
  refine (schedule_kinv _ _ _ _ _ H); [|exact Hctx].
  apply (kwf_switch _ _ K1); [done|done|done|ksimpl..].
  - apply sched_block_alarm; [|done|done]. by eapply kwf_not_idle; [apply K|].
  - done.
  - apply insert_is_some, insert_is_some, I.
Qed.

Lemma thread_exit_kinv k u k' :
  kinv ip k → stack_of k (cur k) = [] → thread_exit k = Ok (u, k') → kinv ip k'.
Proof.
  intros K Hst H. unfold thread_exit in H. minv H. minv_ops. case_decide; minv_all; ksimpl.
  pose proof K as ((S & T & I) & Hctx & _).
  refine (schedule_kinv _ _ _ _ _ H); [|exact Hctx].
  apply (kwf_switch _ _ K); [done|done|done|ksimpl..].
  - by apply sched_exit.
  - done.
  - apply insert_is_some, I.
Qed.

(** The invariant with threads that are being created. *)
Definition kinvx (extra : list Z) k : Prop :=
  kwf ip (Some (cur k)) extra None k ∧ in_external_intr k = false ∧
  idle_ok ip (semas k) (holders k) (idle_thread k) (stack_of k ip) ∧
  ∀ x, x ∈ extra → stack_of k x = [].

Lemma kinvx_pop page f st k :
  kinv ip k → stack_of k (cur k) = f :: st → cur k ≠ ip → frame_embryos f = [page] →
  kinvx [page] (set_stack (cur k) st k) ∧ frame_ok (semas k) (holders k) (conds k) f.
Proof.
  intros (W & Hctx & Hi) Hst Hne He. pose proof W as (S & T & _).
  assert (Forall (frame_ok (semas k) (holders k) (conds k)) (f :: st)) as [Hf Hfs]%Forall_cons.
  { rewrite <- Hst. by apply (t_frames _ _ _ _ _ _ T). }
  assert (page ∈ collect embryos (stacks k)) as Hp.
  { apply elem_of_collect. unfold stack_of in Hst. destruct (stacks k !! cur k) as [st0|] eqn:E; [|done].
    simpl in Hst. subst. exists (cur k), (f :: st). split; [done|]. unfold embryos. simpl. rewrite He. by left. }
  split; [|done]. split; [|split; [done|split]].
  - eapply kwf_stack; [| | |exact W]; [|by intros x ?%elem_of_nil|auto].
    rewrite Hst. unfold embryos. simpl. by rewrite He.
  - rewrite stack_of_set. by rewrite decide_False.
  - intros x ->%list_elem_of_singleton. rewrite stack_of_set, decide_False.
    + by apply (k_fresh _ _ (s_stacks _ _ _ _ _ _ _ _ _ S)).
    + intros <-. by apply sched_run_off in S as (_ & _ & ?).
Qed.

Lemma kinvx_push page fs k :
  kinvx [page] k → cur k ≠ ip → embryos fs = [page] →
  Forall (frame_ok (semas k) (holders k) (conds k)) fs →
  kinv ip (set_stack (cur k) (fs ++ stack_of k (cur k)) k).
Proof.
  intros (W & Hctx & Hi & Hx) Hne He Hf. pose proof W as (_ & T & _). split; [|split; [done|]].
  - eapply kwf_stack; [| | |exact W].
    + unfold embryos in *. by rewrite fmap_app, concat_app, He.
    + auto.
    + intros _. apply Forall_app. split; [done|]. by apply (t_frames _ _ _ _ _ _ T).
  - rewrite stack_of_set. by rewrite decide_False.
Qed.

Lemma thread_create_kinv p page pos body k u k' :
  kinv ip k → cur k ≠ ip → threads k !! page = None → body = [] →
  thread_create p page pos body k = Ok (u, k') → kinv ip k'.
Proof.
  intros ((S & T & I) & Hctx & Hi) Hne Hpage -> H. unfold thread_create in H. case_decide as Hn; [by minv H|].
  minv H. minv_ops. ksimpl. rename x into t.
  assert (status t = THREAD_BLOCKED) as Ht.
  { match goal with D : init_thread _ = Ok _ |- _ => unfold init_thread in D; destruct (_ && _); [by injection D as <-|done] end. }
  assert (stacks k !! page = None) as Hst by by apply (k_dom _ _ (s_stacks _ _ _ _ _ _ _ _ _ S)).
  destruct (i_thread _ _ _ _ _ _ _ I) as [tip Hip].
  eapply (kinvx_push page [FLockAcquire tid_lock; FAllocTid page []]
    (with_all_list _ (with_threads (<[page := t]> (threads k)) k))); [|done|done|].
  - split; [split; [|split]|split; [done|split; [done|]]]; ksimpl.
    + apply sched_create; [done|done| |done|done].
      destruct (i_idle _ _ _ _ _ _ _ I) as [->| ->]; congruence.
    + done.
    + by apply idle_wf_thread.
    + intros x ->%list_elem_of_singleton. unfold stack_of. ksimpl. by rewrite Hst.
  - apply Forall_cons. split; [apply (t_tid _ _ _ _ _ _ T)|by repeat constructor].
Qed.

Lemma allocate_tid_kinv page body k u k' :
  kinvx [page] k → cur k ≠ ip → body = [] → allocate_tid_body page body k = Ok (u, k') → kinv ip k'.
Proof.
  intros K Hne -> H. unfold allocate_tid_body in H. minv H. ksimpl.
  eapply (kinvx_push page [FLockRelease tid_lock; FCreateTail page (next_tid k) []] (with_next_tid _ k));
    [exact K|done|done|]. apply Forall_cons.
  split; [|by repeat constructor]. destruct K as ((_ & T & _) & _). apply (t_tid _ _ _ _ _ _ T).
Qed.

Lemma thread_create_tail_kinv page t body k u k' :
  kinvx [page] k → cur k ≠ ip → body = [] → thread_create_tail page t body k = Ok (u, k') → kinv ip k'.
Proof.
  intros ((S & T & I) & Hctx & Hi & Hx) Hne -> H. unfold thread_create_tail in H. minv H. minv_ops.
  match goal with E : thread_unblock _ _ = Ok _ |- _ => apply thread_unblock_inv in E as (t1 & Ht1 & Hb & ->) end.
  ksimpl. rewrite lookup_insert_eq in Ht1. simplify_eq. specialize (Hx page (list_elem_of_here _ _)).
  assert (page ≠ ip) as Hpi by (intros ->; rewrite Hx in Hi; by apply idle_ok_ne in Hi).
  match goal with E : threads k !! page = Some ?t0 |- _ =>
    pose proof (sched_thread _ _ _ _ _ _ _ _ _ _ _ (set_tid t t0) E eq_refl eq_refl eq_refl S) as S1 end.
  eapply (sched_start _ _ _ _ _ _ _ _ _ page [FSetLevel true]) in S1; [|by left|done|done].
  eapply sched_unblock in S1; [|by rewrite lookup_insert_eq].
  assert (stack_in (<[page := [FSetLevel true]]> (stacks k)) ip = stack_of k ip) as Eip
    by (rewrite stack_in_insert, decide_False; done).
  eapply (kinv_push [FCreateYield page] (with_threads _ (with_ready_list _ (with_stacks _ (with_threads _ k)))));
    [|done|intros _; by repeat constructor|done].
  split; [|split; [done|]]; ksimpl.
  - split; [exact S1|split]; ksimpl.
    + apply types_stack; [|done]. intros _. by repeat constructor.
    + do 2 apply idle_wf_thread. destruct I as [I1 I2 I3]. split; [done..|]. by rewrite Eip.
  - unfold stack_of. ksimpl. unfold stack_in in Eip. by rewrite Eip.
Qed.

Lemma create_yield_kinv page k u k' : kinv ip k → create_yield page k = Ok (u, k') → kinv ip k'.
Proof.
  intros K H. unfold create_yield in H. minv H. minv_ops. case_decide; minv H; [|done].
  apply (kinv_push [FYield]); [done|done|intros _; by repeat constructor..].
Qed.

(** ** The idle thread *)

Lemma kinv_idle_push f k :
  kwf ip (Some (cur k)) [] None k → in_external_intr k = false → cur k = ip → idle_thread k = ip →
  stack_of k (cur k) = [] → f = FIdleLoop ∨ f = FIdleWait →
  kinv ip (set_stack (cur k) (f :: stack_of k (cur k)) k).
Proof.
  intros W Hctx Hc Hid Hst Hf. rewrite Hst. split; [|split; [done|]].
  - eapply kwf_stack; [| | |exact W]; [|by intros x ?%elem_of_nil|done].
    rewrite Hst. by destruct Hf as [->| ->].
  - rewrite stack_of_set, decide_True by done. exists [], f. split; [done|]. split; [done|]. right. done.
Qed.

Lemma idle_init_kinv s k u k' :
  kwf ip (Some (cur k)) [] None k → in_external_intr k = false → cur k = ip → idle_thread k = NULL →
  stack_of k (cur k) = [] → plain k s → idle_init s k = Ok (u, k') → kinv ip k'.
Proof.
  intros (S & T & I) Hctx Hc Hid Hst Hp H. unfold idle_init in H. minv H. minv_ops. ksimpl.
  assert (kwf ip (Some (cur k)) [] None (with_idle_thread (cur k) k)) as W.
  { split; [|split; [done|]]; ksimpl.
    - eapply sched_become_idle; [|done]. rewrite Hid.
      pose proof (pl_null _ _ _ _ _ (s_places _ _ _ _ _ _ _ _ _ S)) as E.
      rewrite lookup_fmap in E. by destruct (threads k !! NULL).
    - destruct I as [_ I2 _]. split; [by right|done|]. by rewrite Hc. }
  pose proof (kinv_idle_push FIdleLoop (with_idle_thread (cur k) k) W Hctx Hc Hc Hst (or_introl eq_refl)) as K1.
  refine (sema_up_kinv _ _ _ _ K1 _ H). apply Hp.
Qed.

Lemma idle_loop_kinv k u k' :
  kwf ip (Some (cur k)) [] None k → in_external_intr k = false → cur k = ip → idle_thread k = ip →
  stack_of k (cur k) = [] → idle_loop k = Ok (u, k') → kinv ip k'.
Proof.
  intros W Hctx Hc Hid Hst H. unfold idle_loop in H. minv H. minv_ops.
  apply (kinv_idle_push FIdleWait) in W as K1; [|done|done|done|done|by right].
  apply thread_block_inv in H as (t & Ht & Hrun & _ & H). ksimpl.
  pose proof K1 as ((S & T & I) & _).
  refine (schedule_kinv _ _ _ _ _ H); [|exact Hctx].
  apply (kwf_switch _ _ K1); [done|done|done|ksimpl..].
  - apply sched_idle_off; [congruence|by right|done|done].
  - done.
  - apply insert_is_some, I.
Qed.

Lemma idle_wait_kinv k u k' :
  kwf ip (Some (cur k)) [] None k → in_external_intr k = false → cur k = ip → idle_thread k = ip →
  stack_of k (cur k) = [] → idle_wait k = Ok (u, k') → kinv ip k'.
Proof.
  intros W Hctx Hc Hid Hst H. unfold idle_wait in H. minv H. minv_ops.
  by apply (kinv_idle_push FIdleLoop) in W; [|done|done|done|done|by left].
Qed.

(** ** Interrupt handlers *)

(** The invariant while a handler runs. *)
Definition kmid k : Prop :=
  kwf ip (Some (cur k)) [] None k ∧ idle_ok ip (semas k) (holders k) (idle_thread k) (stack_of k ip).

(** What a handler may do besides waking threads. *)
Definition same_ctx k k' : Prop :=
  cur k' = cur k ∧ in_external_intr k' = in_external_intr k ∧ stacks k' = stacks k.

Lemma kmid_cur_thread k t t' :
  kmid k → threads k !! cur k = Some t → status t' = status t →
  kmid (with_threads (<[cur k := t']> (threads k)) k).
Proof.
  intros ((S & T & I) & Hi) Ht Hs. split; [|done]. split; [|split; [done|]]; ksimpl.
  - by eapply sched_run_thread.
  - by apply idle_wf_thread.
Qed.

Lemma alarm_loop_kmid n k u k' : kmid k → alarm_loop n k = Ok (u, k') → kmid k' ∧ same_ctx k k'.
Proof.
  revert k. induction n as [|n IH]; intros k K H; simpl in H; minv H;
    (destruct (alarm_list k) as [|x al] eqn:Ea; [by minv H|]); minv H; minv_ops;
    (case_decide; [by minv H|]); minv H.
  match goal with E : thread_unblock _ _ = Ok _ |- _ => apply thread_unblock_inv in E as (t1 & Ht1 & Hb & ->) end.
  apply IH in H as [K' C]; [by split|]. ksimpl. rewrite Ea. simpl.
  destruct K as ((S & T & I) & Hi). split; [|done]. split; [|split; [done|]]; ksimpl.
  - apply sched_unblock; [done|]. rewrite Ea in S. by apply sched_pop_alarm.
  - by apply idle_wf_thread.
Qed.

Lemma thread_tick_kmid k u k' : kmid k → thread_tick k = Ok (u, k') → kmid k' ∧ same_ctx k k'.
Proof.
  intros K H. unfold thread_tick, intr_yield_on_return in H. minv H. minv_ops.
  repeat case_decide; minv H; by split.
Qed.

(** The MLFQS updates of all threads: only priorities and recent_cpu change. *)
Definition retuned k k' : Prop :=
  ∃ ths, k' = with_threads ths k ∧ status <$> ths = status <$> threads k ∧
    ∀ x, wake ths x = wake (threads k) x.

Lemma retuned_refl k : retuned k k.
Proof. exists (threads k). by destruct k. Qed.

Lemma retuned_trans k1 k2 k3 : retuned k1 k2 → retuned k2 k3 → retuned k1 k3.
Proof.
  intros (t1 & -> & E1 & W1) (t2 & -> & E2 & W2). ksimpl. exists t2. split; [done|].
  split; [congruence|]. intros. by rewrite W2.
Qed.

Lemma retuned_thread k x t t' :
  threads k !! x = Some t → status t' = status t → wake_up_time t' = wake_up_time t →
  retuned k (with_threads (<[x := t']> (threads k)) k).
Proof.
  intros Hx Hs Hw. eexists. split; [done|]. split; [by eapply status_same|]. intros. by eapply wake_same.
Qed.

Lemma foreach_retuned func xs k u k' :
  (∀ x k u k', func x k = Ok (u, k') → retuned k k') → foreach func xs k = Ok (u, k') → retuned k k'.
Proof.
  intros Hf. revert k. induction xs as [|x xs IH]; intros k H; simpl in H; [minv H; apply retuned_refl|].
  apply st_bind_inv in H as (u0 & k1 & E & H). eapply retuned_trans; [by eapply Hf|by apply IH].
Qed.

Lemma update_priority_retuned x k u k' :
  thread_update_priority_with_nice x k = Ok (u, k') → retuned k k'.
Proof.
  intros H. unfold thread_update_priority_with_nice in H. minv H.
  case_decide; [minv H; apply retuned_refl|]. minv_ops. by eapply retuned_thread.
Qed.

Lemma update_recent_cpu_retuned x k u k' :
  thread_update_recent_cpu x k = Ok (u, k') → retuned k k'.
Proof.
  intros H. unfold thread_update_recent_cpu in H. minv H.
  case_decide; [minv H; apply retuned_refl|]. minv_ops. by eapply retuned_thread.
Qed.

Lemma list_sort_sorted ths xs :
  Sorted (le_of (thread_priority_large_func ths)) (list_sort (thread_priority_large_func ths) xs).
Proof.
  unfold list_sort. pose proof (runs_le_length (thread_priority_large_func ths) xs) as Hr.
  destruct (sort_loop_spec (thread_priority_large_func ths) (S (length xs)) xs) as (out & -> & Hs & _); [lia|done].
Qed.

Lemma recent_cpu_all_kmid k u k' :
  kmid k → thread_mlfqs k = true → thread_update_recent_cpu_all k = Ok (u, k') → kmid k' ∧ same_ctx k k'.
Proof.
  intros ((S & T & I) & Hi) Hm H.
  unfold thread_update_recent_cpu_all, thread_update_priority_with_nice_all, thread_foreach in H.
  minv H. minv E0. minv E.
  match goal with E1 : foreach _ _ k = Ok _, E2 : foreach _ _ ?k1 = Ok _ |- _ =>
    apply (foreach_retuned _ _ _ _ _ update_recent_cpu_retuned) in E1;
    apply (foreach_retuned _ _ _ _ _ update_priority_retuned) in E2;
    pose proof (retuned_trans _ _ _ E1 E2) as (ths & -> & Es & Ew) end.
  ksimpl. split; [|done]. split; [|done]. split; [|split; [done|]]; ksimpl.
  - rewrite Hm in *. eapply sched_mlfqs; [done..| |apply list_sort_sorted|exact S]. apply list_sort_perm.
  - destruct I as [I1 [t It] I3]. split; [done| |done].
    apply (f_equal (λ m : gmap Z thread_status, m !! ip)) in Es. rewrite !lookup_fmap, It in Es.
    by destruct (ths !! ip).
Qed.

Lemma same_ctx_trans k1 k2 k3 : same_ctx k1 k2 → same_ctx k2 k3 → same_ctx k1 k3.
Proof. unfold same_ctx. intuition congruence. Qed.

Lemma ins_recent_cpu_kmid k u k' :
  kmid k → thread_ins_recent_cpu k = Ok (u, k') →
  kmid k' ∧ same_ctx k k' ∧ thread_mlfqs k' = thread_mlfqs k.
Proof.
  intros K H. unfold thread_ins_recent_cpu in H. minv H. minv_ops. case_decide; [by minv H|].
  minv_ops. split; [|done]. by eapply kmid_cur_thread.
Qed.

Lemma update_load_avg_kmid k u k' :
  kmid k → update_load_avg k = Ok (u, k') → kmid k' ∧ same_ctx k k' ∧ thread_mlfqs k' = thread_mlfqs k.
Proof. intros K H. unfold update_load_avg in H. minv H. minv_ops. done. Qed.

Lemma update_cur_priority_kmid k u k' :
  kmid k → (c ← thread_current; thread_update_priority_with_nice c) k = Ok (u, k') →
  kmid k' ∧ same_ctx k k'.
Proof.
  intros K H. minv H. minv_ops. unfold thread_update_priority_with_nice in H. minv H.
  case_decide; [by minv H|]. minv_ops. split; [|done]. by eapply kmid_cur_thread.
Qed.

Lemma mlfqs_tick_kmid k u k' : kmid k → mlfqs_tick k = Ok (u, k') → kmid k' ∧ same_ctx k k'.
Proof.
  intros K H. unfold mlfqs_tick in H. minv H. destruct (thread_mlfqs k) eqn:Hm; [|by minv H].
  apply st_bind_inv in H as (u1 & k1 & E1 & H). apply ins_recent_cpu_kmid in E1 as (K1 & C1 & M1); [|done].
  apply st_bind_inv in H as (u2 & k2 & E2 & H).
  assert (kmid k2 ∧ same_ctx k1 k2) as [K2 C2].
  { minv_if E2; [|by minv E2]. apply st_bind_inv in E2 as (u3 & k3 & E2 & E3).
    apply update_load_avg_kmid in E2 as (K2 & C2 & M2); [|done].
    apply recent_cpu_all_kmid in E3 as (K3 & C3); [|done|congruence].
    split; [done|]. by eapply same_ctx_trans. }
  pose proof (same_ctx_trans _ _ _ C1 C2) as C.
  minv_if H; [|by minv H]. apply update_cur_priority_kmid in H as [K3 C3]; [|done].
  split; [done|]. by eapply same_ctx_trans.
Qed.

Lemma timer_interrupt_kmid k u k' : kmid k → timer_interrupt k = Ok (u, k') → kmid k' ∧ same_ctx k k'.
Proof.
  intros K H. unfold timer_interrupt in H. minv H.
  match goal with E : thread_tick _ = _ |- _ => apply thread_tick_kmid in E as [K1 C1]; [|done] end.
  match goal with E : alarm_loop _ _ = _ |- _ => apply alarm_loop_kmid in E as [K2 C2]; [|done] end.
  apply mlfqs_tick_kmid in H as [K3 C3]; [|done]. split; [done|].
  eapply same_ctx_trans; [exact C1|]. by eapply same_ctx_trans.
Qed.

Lemma sema_up_kmid s k u k' :
  kmid k → in_external_intr k = true → holders k !! (s - 4) = None → sema_up s k = Ok (u, k') →
  kmid k' ∧ same_ctx k k'.
Proof.
  intros (W & Hi) Hx Hh (k1 & Hw & ->)%sema_up_inv.
  assert (up_yields s k = false) as ->
    by (unfold up_yields; rewrite Hx; destruct (semas k !! s) as [[? []]|]; by rewrite ?andb_false_r).
  pose proof (woken_kwf _ _ _ _ Hw (or_introl Hh) W) as W1.
  destruct (woken_same _ _ _ Hw) as (Ec & Es & Eh & _ & Ex & Ei & sem & Esem & _).
  split; [|done]. split; [by rewrite Ec|]. unfold stack_of. rewrite Es, Eh, Ei, Esem.
  by eapply idle_ok_grows; [apply (grows_sema _ _ ∅)|].
Qed.

Lemma intr_handler_kinv (handler : KM ()) k u k' :
  (∀ k0 u0 k1, kmid k0 → in_external_intr k0 = true → holders k0 = holders k →
     handler k0 = Ok (u0, k1) → kmid k1 ∧ same_ctx k0 k1) →
  kinv ip k → intr_handler handler k = Ok (u, k') → kinv ip k'.
Proof.
  intros Hh (W & Hctx & Hi) H. unfold intr_handler in H. minv H.
  match goal with E : handler _ = _ |- _ => apply Hh in E as [[K1 Hi1] C1]; [|done..] end.
  destruct C1 as (Ec & Ex & Es). ksimpl.
  match type of H with (if ?b then _ else _) ?k2 = _ => 
    assert (kinv ip k2) as K2 by done; destruct b; minv H; [|done] end.
  apply (kinv_push [FYield; FSetLevel true]) in K2; [done|done|intros _; by repeat constructor..].
Qed.

(** ** Steps *)

Lemma exec_frame_kinv f k u k' :
  kinv ip k → cur k ≠ ip → frame_ok (semas k) (holders k) (conds k) f → frame_embryos f = [] →
  exec f k = Ok (u, k') → kinv ip k'.
Proof.
  intros K Hne Hf He H. destruct f; simpl in Hf, He, H; try done.
  - by apply intr_set_level_inv in H as ->.
  - by eapply thread_yield_kinv.
  - by eapply sema_down_kinv.
  - by eapply sema_down_loop_kinv.
  - by eapply lock_acquire_kinv.
  - by eapply lock_acquire_loop_kinv.
  - by eapply lock_release_kinv.
  - by eapply cond_signal_kinv.
  - eapply cond_broadcast_kinv; [done..| |done]. apply Hf.
  - by eapply timer_sleep_until_kinv.
  - by eapply nice_yield_kinv.
  - by eapply create_yield_kinv.
Qed.

Lemma exec_call_kinv f k u k' :
  kinv ip k → cur k ≠ ip → stack_of k (cur k) = [] → legal k f → exec f k = Ok (u, k') → kinv ip k'.
Proof.
  intros K Hne Hst Hl H. destruct f; simpl in Hl, H; try done.
  - by eapply thread_yield_kinv.
  - destruct Hl. by eapply sema_init_kinv.
  - by eapply sema_down_kinv.
  - minv H. by eapply sema_try_down_kinv.
  - eapply sema_up_kinv; [done|apply Hl|done].
  - destruct Hl. by eapply lock_init_kinv.
  - by eapply lock_acquire_kinv.
  - by eapply lock_release_kinv.
  - unfold cond_init in H. minv H. apply kinv_cond; [done|]. by intros w ?%elem_of_nil.
  - destruct Hl as (_ & ? & ? & ?). by eapply cond_wait_kinv.
  - by eapply cond_signal_kinv.
  - eapply cond_broadcast_kinv; [done..| |done]. apply Hl.
  - by eapply timer_sleep_kinv.
  - by eapply thread_set_priority_kinv.
  - by eapply thread_set_nice_kinv.
  - destruct Hl. by eapply thread_create_kinv.
  - by eapply thread_exit_kinv.
Qed.

(** The idle thread runs its next frame. *)
Lemma exec_idle_kinv f st k u k' :
  kinv ip k → cur k = ip → stack_of k (cur k) = f :: st →
  exec f (set_stack (cur k) st k) = Ok (u, k') → kinv ip k'.
Proof.
  intros (W & Hctx & Hi) Hc Hst H. set (k1 := set_stack (cur k) st k) in *.
  assert (frame_embryos f = [] → kwf ip (Some (cur k1)) [] None k1) as W1.
  { intros He. eapply kwf_stack; [| | |exact W]; [|by intros x ?%elem_of_nil|done].
    rewrite Hst. unfold embryos. simpl. by rewrite He. }
  assert (stack_of k1 (cur k1) = st) as Est by (unfold k1; rewrite stack_of_set; by rewrite decide_True).
  rewrite <- Hc in Hi. rewrite Hst in Hi. pose proof Hi as ([|f' pre] & g & E & Hpre & Hg);
    cbn [app] in E; injection E as Ef Est0; rewrite Ef in *.
  - rewrite Est0 in Est. destruct Hg as [(Hid & s & -> & Hp)|(Hid & [->| ->])]; simpl in H.
    + by eapply (idle_init_kinv s k1); [apply W1|..].
    + rewrite Hc in Hid. by eapply (idle_loop_kinv k1); [apply W1|..].
    + rewrite Hc in Hid. by eapply (idle_wait_kinv k1); [apply W1|..].
  - apply Forall_cons in Hpre as [Hf _].
    assert (kinv ip k1) as K1.
    { split; [apply W1; by destruct f'|]. split; [done|].
      rewrite Hc in Hi. apply idle_ok_pop in Hi; [|done]. assert (stack_of k1 ip = st) as -> by by rewrite <- Hc. done. }
    destruct f'; try done; simpl in H;  [by apply intr_set_level_inv in H as ->|by eapply thread_yield_kinv].
Qed.

(** Every step of the machine keeps the invariant. *)
Lemma kinv_step k k' : kinv ip k → knext legal k k' → kinv ip k'.
Proof.
  intros K H. unfold knext in H. remember (Ok ((), k')) as r eqn:Er. destruct H as [f st Hst|f Hst Hl|Hon|s Hon Hp].
  - destruct (decide (cur k = ip)) as [Hc|Hc]; [by eapply exec_idle_kinv|].
    destruct (frame_embryos f) as [|page [|? ?]] eqn:He; [|..|by destruct f].
    + destruct (kinv_pop f st k K Hst Hc He) as [K1 Hf]. by eapply exec_frame_kinv in Er.
    + destruct (kinvx_pop page f st k K Hst Hc He) as [K1 Hf].
      destruct f; simplify_eq/=; [by eapply allocate_tid_kinv|by eapply thread_create_tail_kinv].
  - eapply exec_call_kinv; [done| |done..]. intros Hc. destruct K as (_ & _ & Hi). rewrite Hc in Hst.
    rewrite Hst in Hi. by apply idle_ok_ne in Hi.
  - eapply intr_handler_kinv; [|done..]. intros k0 u0 k1 K0 _ _. by apply timer_interrupt_kmid.
  - eapply intr_handler_kinv; [|done..]. intros k0 u0 k1 K0 Hx Hh. apply sema_up_kmid; [done..|].
    rewrite Hh. apply Hp.
Qed.

Lemma kinv_reach k k' : kinv ip k → rtc (knext legal) k k' → kinv ip k'.
Proof. intros K. by induction 1; eauto using kinv_step. Qed.
End safe.
