(* ===== verification/KernelSpec.v ===== *)
(** * What the kernel operations do

    Results of operations in states that satisfy the invariant: the operations
    return (no assertion fails) and what they change.  The boot state satisfies
    the invariant, so every reachable state does. *)

From S2P Require Import Prelude ListSpec Thread FixedPoint Places Kernel Invariant KernelSafe.

Local Open Scope Z_scope.

(** ** Running operations forwards *)

(** Unfold the accessors and evaluate with the equations that [tac] rewrites. *)
Ltac kunfold := unfold thread_current, ready_insert, mod_thread, put_thread, put_sema, put_holder,
  put_cond, push, lift, intr_disable, intr_set_level, intr_yield_on_return,
  get_thread, get_sema, get_holder, get_cond; st_unfold.
Tactic Notation "krun" tactic3(tac) :=
  repeat (progress (ksimpl; cbn [value waiters negb andb orb]; tac)).

Lemma thread_unblock_ok x k t :
  threads k !! x = Some t → status t = THREAD_BLOCKED → intr_on k && in_external_intr k = false →
  thread_unblock x k = Ok ((), with_threads (<[x := set_status THREAD_READY t]> (threads k))
    (with_ready_list (insert_ordered (thread_priority_large_func (threads k)) x (ready_list k)) k)).
Proof.
  intros Ht Hs Hl. unfold thread_unblock. kunfold.
  krun (rewrite ?Ht, ?Hl, ?bool_decide_true by eauto). by destruct k.
Qed.

Lemma lock_acquire_free l k t ws :
  l ≠ NULL → cur k ≠ NULL → in_external_intr k = false →
  threads k !! cur k = Some t → status t = THREAD_RUNNING →
  holders k !! l = Some NULL → semas k !! lock_sema l = Some (Semaphore 1 ws) →
  lock_acquire l k = Ok ((), with_holders (<[l := cur k]> (holders k))
    (with_semas (<[lock_sema l := Semaphore 0 ws]> (semas k)) k)).
Proof.
  intros Hl Hc Hx Ht Hr Hh Hs.
  unfold lock_acquire, lock_held_by_current_thread, lock_acquire_loop. kunfold.
  krun (rewrite ?Hx, ?Ht, ?Hr, ?Hh, ?Hs, ?bool_decide_true, ?(bool_decide_false (NULL = cur k)) by congruence).
  rewrite decide_False by done.
  krun (rewrite ?Hx, ?Ht, ?Hr, ?Hh, ?Hs, ?bool_decide_true by congruence).
  rewrite andb_false_r. by destruct k.
Qed.

(** sema_up with the running thread [c] in [threads]. *)
Lemma sema_up_nowait s k v :
  s ≠ NULL → semas k !! s = Some (Semaphore v []) → intr_on k && in_external_intr k = false →
  sema_up s k = Ok ((), with_semas (<[s := Semaphore (u32 (v + 1)) []]> (semas k)) k).
Proof.
  intros Hs Hv Hl. unfold sema_up. kunfold.
  krun (rewrite ?Hv, ?Hl, ?bool_decide_true by done). by destruct k.
Qed.

Lemma sema_up_wake s k v x ws t c :
  s ≠ NULL → semas k !! s = Some (Semaphore v (x :: ws)) → intr_on k && in_external_intr k = false →
  threads k !! x = Some t → status t = THREAD_BLOCKED →
  threads k !! cur k = Some c → status c = THREAD_RUNNING →
  ∃ k1, woken s k k1 ∧
    sema_up s k = Ok ((), if up_yields s k then set_stack (cur k) (FYield :: stack_of k (cur k)) k1 else k1).
Proof.
  intros Hs Hv Hl Ht Hst Hc Hr. eexists. split; [exists v, (x :: ws); split; [done|]; eauto|].
  unfold sema_up, thread_unblock, up_yields. kunfold.
  krun (rewrite ?Hv, ?Hl, ?Ht, ?Hc, ?Hr, ?lookup_insert_eq, ?bool_decide_true by eauto).
  unfold prio. rewrite Ht, Hc. unfold set_stack, stack_of.
  destruct (bool_decide (priority t > priority c) && negb (in_external_intr k)); destruct k; ksimpl;
    by rewrite insert_insert_eq.
Qed.

(** lock_release by a thread that was given nothing, when no thread waits. *)
Lemma lock_release_nowait l k t :
  l ≠ NULL → lock_sema l ≠ NULL → in_external_intr k = false →
  threads k !! cur k = Some t → status t = THREAD_RUNNING →
  stored_index t = 0 → holders k !! l = Some (cur k) → semas k !! lock_sema l = Some (Semaphore 0 []) →
  lock_release l k = Ok ((), set_stack (cur k) (FSetLevel (intr_on k) :: stack_of k (cur k))
    (with_intr_on false (with_semas (<[lock_sema l := Semaphore 1 []]> (semas k))
      (with_holders (<[l := NULL]> (holders k)) k)))).
Proof.
  intros Hl Hls Hx Ht Hr Hi Hh Hs. unfold lock_release, lock_held_by_current_thread.
  kunfold. krun (rewrite ?Ht, ?Hr, ?Hh, ?bool_decide_true by congruence).
  unfold release_donations. rewrite decide_True by done. cbn [mret res_ret].
  rewrite (sema_up_nowait _ _ 0); [|done|done|done]. change (u32 (0 + 1)) with 1.
  ksimpl. rewrite (insert_id (threads k)) by done. by destruct k.
Qed.

(** ** Booting *)

Lemma run_off_step n k f st u k' :
  stack_of k (cur k) = f :: st → f ≠ FSetLevel true → exec f (set_stack (cur k) st k) = Ok (u, k') →
  run_off (S n) k = run_off n k'.
Proof.
  intros Hst Hf He. cbn [run_off]. rewrite Hst.
  assert ((r ← exec f (set_stack (cur k) st k); run_off n r.2) = run_off n k') as E
    by (unfold mbind, res_bind; by rewrite He).
  destruct f; try done. by destruct on.
Qed.

Lemma run_off_done n k st : stack_of k (cur k) = FSetLevel true :: st → run_off (S n) k = Ok k.
Proof. intros Hst. cbn [run_off]. by rewrite Hst. Qed.

(** Lookups in maps whose keys are known to differ. *)
Ltac lk := repeat first [rewrite lookup_insert_eq | rewrite lookup_insert_ne by congruence
  | rewrite lookup_singleton_eq | rewrite lookup_singleton_ne by congruence
  | rewrite insert_insert_eq | rewrite insert_singleton_eq].

Ltac kcbv := cbv beta iota delta [threads stacks all_list ready_list alarm_list semas holders conds cur
  idle_thread initial_thread intr_on in_external_intr yield_on_return ticks thread_ticks
  idle_ticks kernel_ticks load_avg next_tid thread_mlfqs with_threads with_stacks with_all_list
  with_ready_list with_alarm_list with_semas with_holders with_conds with_cur with_idle_thread
  with_intr_on with_in_external_intr with_yield_on_return with_ticks with_thread_ticks
  with_idle_ticks with_kernel_ticks with_load_avg with_next_tid set_stack stack_of].
Ltac flat := repeat (progress (kcbv; lk; cbn [app default id snd fst res_bind mbind ST_bind mret ST_ret negb andb])).

Definition fresh_thread (p : Z) : thread :=
  Thread 0 THREAD_BLOCKED 0 p NULL (replicate STORED_MAX 0) (replicate STORED_MAX 0) 0 0 0.

(** The state in which the kernel turns interrupts on. *)
Definition booted (main s page : Z) (m : bool) : kernel :=
  Kernel (<[page := set_status THREAD_READY (set_tid 2 (fresh_thread PRI_MIN))]>
           {[main := set_tid 1 (set_status THREAD_RUNNING (fresh_thread PRI_DEFAULT))]})
    (<[page := [FSetLevel true; FIdleInit s]]> {[main := [FSetLevel true; FSemaDown s]]})
    [page; main] [page] [] (<[s := Semaphore 0 []]> {[lock_sema tid_lock := Semaphore 1 []]})
    {[tid_lock := NULL]} ∅ main NULL main false false false 0 0 0 0 (INT_TO_FP 0) 3 m.

Lemma boot_ok main s page m :
  main ≠ NULL → page ≠ NULL → s ≠ NULL → page ≠ main → s ≠ lock_sema tid_lock →
  boot main s page m = Ok (booted main s page m).
Proof.
  intros H1 H2 H3 H4 H5. unfold boot.
  assert (thread_init main m = Ok (Kernel {[main := set_tid 1 (set_status THREAD_RUNNING (fresh_thread PRI_DEFAULT))]}
    {[main := []]} [main] [] [] {[lock_sema tid_lock := Semaphore 1 []]} {[tid_lock := NULL]} ∅ main NULL main
    false false false 0 0 0 0 (INT_TO_FP 0) 2 m)) as -> by done.
  cbn [mbind res_bind]. unfold thread_start, sema_init. kunfold. rewrite bool_decide_true by done. flat.
  (* thread_create *)
  erewrite run_off_step; [|unfold stack_of; by flat|done|].
  2: { unfold set_stack. flat. unfold exec, thread_create. rewrite decide_False by done. kunfold.
    change (init_thread PRI_MIN) with (Ok (fresh_thread PRI_MIN)). flat. reflexivity. }
  (* allocate_tid *)
  erewrite run_off_step; [|unfold stack_of; by flat|done|].
  2: { unfold set_stack. flat. eapply lock_acquire_free; ksimpl; [done|done|done|by lk|done|by lk|by lk]. }
  flat.
  erewrite run_off_step; [|unfold stack_of; by flat|done|].
  2: { unfold set_stack. flat. unfold exec, allocate_tid_body. kunfold. flat. reflexivity. }
  erewrite run_off_step; [|unfold stack_of; by flat|done|].
  2: { unfold set_stack. flat. eapply lock_release_nowait; ksimpl; [done|done|done|by lk|done|done|by lk|by lk]. }
  unfold set_stack, stack_of. flat.
  erewrite run_off_step; [|unfold stack_of; by flat|done|].
  2: { unfold set_stack. flat. unfold exec. kunfold. flat. reflexivity. }
  (* the rest of thread_create *)
  erewrite run_off_step; [|unfold stack_of; by flat|done|].
  2: { unfold set_stack. flat. unfold exec, thread_create_tail. kunfold. flat.
    erewrite thread_unblock_ok; [|ksimpl; by lk|done|done]. flat. reflexivity. }
  erewrite run_off_step; [|unfold stack_of; by flat|done|].
  2: { unfold set_stack. flat. unfold exec, create_yield. kunfold. flat.
    rewrite bool_decide_true by done. flat. rewrite decide_False by done. reflexivity. }
  erewrite run_off_done; [|unfold stack_of; by flat].
  unfold booted. flat. do 2 f_equal; apply insert_id; by lk.
Qed.

(** The invariant of the boot state. *)
Lemma booted_places main page :
  main ≠ NULL → page ≠ NULL → page ≠ main →
  places (<[page := THREAD_READY]> {[main := THREAD_RUNNING]}) (Some main) NULL [page] [].
Proof.
  intros H1 H2 H3. split; simpl.
  - by lk.
  - repeat constructor. apply not_elem_of_nil.
  - intros x ->%list_elem_of_singleton. left. by lk.
  - by intros x ?%elem_of_nil.
  - intros x. rewrite lookup_insert_Some, lookup_singleton_Some. naive_solver.
  - intros x. rewrite lookup_insert_Some, lookup_singleton_Some.
    intros [[-> _]|(? & -> & ?)]; [left; by left|done].
  - intros x. rewrite lookup_insert_Some, lookup_singleton_Some. naive_solver.
  - rewrite list_elem_of_singleton. congruence.
Qed.

Lemma booted_kinv main s page m :
  main ≠ NULL → page ≠ NULL → s ≠ NULL → page ≠ main → s ≠ lock_sema tid_lock →
  kinv page (booted main s page m).
Proof.
  intros H1 H2 H3 H4 H5. split; [split; [|split]|split; [done|]]; unfold booted; ksimpl.
  - split; [..|split].
    + rewrite fmap_insert, map_fmap_singleton. unfold blocked.
      rewrite collect_insert by by lk. unfold collect. rewrite map_to_list_singleton.
      rewrite map_to_list_insert by by lk. rewrite map_to_list_singleton. simpl. by apply booted_places.
    + split; [by repeat constructor..|]. intros _ s' sem [[_ <-]|[_ [_ <-]%lookup_singleton_Some]]%lookup_insert_Some; constructor.
    + intros x. rewrite lookup_insert_None, lookup_singleton_None. intros [? ?]. by lk.
    + intros x Hx. rewrite collect_insert in Hx by by lk. unfold collect in Hx. rewrite map_to_list_singleton in Hx.
      simpl in Hx. by apply elem_of_nil in Hx.
    + intros x t [[_ <-]|[_ [_ <-]%lookup_singleton_Some]]%lookup_insert_Some; done.
  - split.
    + intros l h [<- <-]%lookup_singleton_Some. exists (Semaphore 1 []). lk. done.
    + intros c ws w Hc. by rewrite lookup_empty in Hc.
    + lk. by eexists.
    + intros x Hx. unfold stack_in. rewrite lookup_insert_ne by done.
      destruct (decide (x = main)) as [->|]; lk; simpl; [|constructor].
      repeat constructor; simpl; [lk; by eexists|]. rewrite lookup_singleton_ne; [done|]. unfold lock_sema in H5. lia.
  - split; [by left|lk; by eexists|]. intros _. exists [FSetLevel true], (FIdleInit s). unfold stack_in. lk.
    split; [done|]. split; [by repeat constructor|]. left. split; [done|]. exists s. split; [done|].
    split; [lk; by eexists|]. rewrite lookup_singleton_ne; [done|]. unfold lock_sema in H5. lia.
  - exists [FSetLevel true], (FIdleInit s). unfold stack_of. ksimpl. lk.
    split; [done|]. split; [by repeat constructor|]. left. split; [done|]. exists s. split; [done|].
    split; [lk; by eexists|]. rewrite lookup_singleton_ne; [done|]. unfold lock_sema in H5. lia.
Qed.

(** ** Reachable states *)

(** The addresses of the boot objects differ. *)
Definition layout (main s page : Z) : Prop :=
  main ≠ NULL ∧ page ≠ NULL ∧ s ≠ NULL ∧ page ≠ main ∧ s ≠ lock_sema tid_lock.

#[export] Instance layout_dec main s page : Decision (layout main s page).
Proof. unfold layout. apply _. Defined.

(** States reached from the boot state, [main] the initial thread's page,
    [page] the idle thread's, [s] the semaphore of thread_start. *)
Definition reachable (may : kernel → frame → Prop) (main s page : Z) (m : bool) (k : kernel) : Prop :=
  ∃ k0, boot main s page m = Ok k0 ∧ rtc (knext may) k0 k.

Lemma reachable_kinv main s page m k :
  layout main s page → reachable legal main s page m k → kinv page k.
Proof.
  intros (? & ? & ? & ? & ?) (k0 & Hb & Hr). rewrite boot_ok in Hb by done. injection Hb as <-.
  apply (kinv_reach page (booted main s page m)); [by apply booted_kinv|done].
Qed.

(** ** Waking and yielding *)

Section ops.
Context (ip : Z).

Lemma kwf_waiter_blocked run extra ex k s sem x :
  kwf ip run extra ex k → semas k !! s = Some sem → x ∈ waiters sem →
  ∃ t, threads k !! x = Some t ∧ status t = THREAD_BLOCKED.
Proof.
  intros (S & _) Hs Hx. apply status_lookup. apply (pl_blocked _ _ _ _ _ (s_places _ _ _ _ _ _ _ _ _ S)).
  unfold blocked. elem_simpl. right; left. apply elem_of_collect. eauto.
Qed.

(** sema_up returns, whatever the state. *)
Lemma sema_up_returns s sem k :
  kinv ip k → s ≠ NULL → semas k !! s = Some sem →
  ∃ k1, woken s k k1 ∧
    sema_up s k = Ok ((), if up_yields s k then set_stack (cur k) (FYield :: stack_of k (cur k)) k1 else k1).
Proof.
  intros (W & Hx & _) Hn Hs. destruct (kwf_cur _ _ _ _ _ W) as (tc & Htc & Hr & _).
  assert (intr_on k && in_external_intr k = false) as Hl by (by rewrite Hx, andb_false_r).
  destruct sem as [v [|x ws]].
  - eexists. split; [exists v, []; split; [done|reflexivity]|]. unfold up_yields. rewrite Hs.
    by rewrite (sema_up_nowait _ _ v).
  - destruct (kwf_waiter_blocked _ _ _ _ _ _ x W Hs) as (t & Ht & Hb); [by left|].
    by eapply sema_up_wake.
Qed.

(** The first of a list sorted by priority has the highest one. *)
Lemma sorted_head_highest ths x xs y :
  Sorted (le_of (thread_priority_large_func ths)) (x :: xs) → y ∈ x :: xs → prio ths y ≤ prio ths x.
Proof.
  intros Hs [->|Hy]%elem_of_cons; [lia|].
  pose proof (sorted_cons_forall (thread_priority_large_func ths) x xs Hs) as Hf.
  rewrite Forall_forall in Hf. specialize (Hf y Hy). unfold le_of, thread_priority_large_func in Hf.
  apply bool_decide_eq_false in Hf. lia.
Qed.

Lemma schedule_ready k x r t tc :
  intr_on k = false → ready_list k = x :: r → threads k !! x = Some t →
  threads k !! cur k = Some tc → status tc = THREAD_READY ∨ status tc = THREAD_BLOCKED →
  schedule k = Ok ((), with_thread_ticks 0 (with_threads (<[x := set_status THREAD_RUNNING t]> (threads k))
    (with_cur x (with_ready_list r k)))).
Proof.
  intros Hi Hr Ht Hc Hs. assert (status tc ≠ THREAD_RUNNING) as Hnr by (destruct Hs; congruence).
  unfold schedule, next_thread_to_run, thread_schedule_tail. kunfold. ksimpl. rewrite Hr.
  krun (rewrite ?Hi, ?Hc, ?Ht, ?bool_decide_true by eauto).
  destruct (decide (cur k = x)) as [E|E].
  - krun (rewrite ?Hi, ?E, ?Ht, ?bool_decide_true by eauto). rewrite decide_True by done. destruct k. ksimpl. by subst.
  - krun (rewrite ?Hi, ?Ht, ?bool_decide_true by eauto). destruct (decide (cur k = NULL)); [done|].
    ksimpl. rewrite lookup_insert_ne, Hc by done. rewrite decide_False; [done|]. intros [Hd _].
    destruct Hs; congruence.
Qed.

Lemma thread_yield_returns k :
  kinv ip k → cur k ≠ idle_thread k →
  ∃ x r t tc, insert_ordered (thread_priority_large_func (threads k)) (cur k) (ready_list k) = x :: r ∧
    threads k !! cur k = Some tc ∧
    let ths := <[cur k := set_status THREAD_READY tc]> (threads k) in
    ths !! x = Some t ∧
    thread_yield k = Ok ((), with_thread_ticks 0 (with_threads (<[x := set_status THREAD_RUNNING t]> ths)
      (with_cur x (with_ready_list r (set_stack (cur k) (FSetLevel (intr_on k) :: stack_of k (cur k))
        (with_intr_on false k)))))).
Proof.
  intros K Hne. pose proof K as (W & Hx & _). destruct (kwf_cur _ _ _ _ _ W) as (tc & Htc & Hr & _).
  set (l := insert_ordered _ (cur k) (ready_list k)).
  destruct l as [|x r] eqn:El.
  { apply (f_equal length) in El. unfold l in El. by rewrite insert_ordered_length in El. }
  set (ths := <[cur k := set_status THREAD_READY tc]> (threads k)).
  assert (is_Some (ths !! x)) as [t Ht].
  { assert (x ∈ l) as Hin by (rewrite El; left). unfold l in Hin. apply insert_ordered_elem in Hin as [->|Hin].
    - unfold ths. rewrite lookup_insert_eq. by eexists.
    - destruct W as (S & _). unfold ths. destruct (decide (cur k = x)) as [->|]; [rewrite lookup_insert_eq; by eexists|].
      rewrite lookup_insert_ne by done.
      destruct (pl_ready _ _ _ _ _ (s_places _ _ _ _ _ _ _ _ _ S) x Hin) as [E|E];
        apply status_lookup in E as (t & -> & _); by eexists. }
  exists x, r, t, tc. split; [done|]. split; [done|]. split; [done|].
  unfold thread_yield. kunfold. krun (rewrite ?Htc, ?Hr, ?Hx, ?bool_decide_true by done).
  rewrite decide_False by done. krun (rewrite ?Htc). fold l. rewrite El.
  erewrite schedule_ready; ksimpl; [|done|done|exact Ht|apply lookup_insert_eq|by left]. done.
Qed.
End ops.

(** ** The timer interrupt *)

Section timer.
Context (ip : Z).

Lemma sorted_alarm_rest ths x xs t :
  Sorted (le_of (alarm_less_func ths)) (x :: xs) → wake ths x > t → Forall (λ y, wake ths y > t) (x :: xs).
Proof.
  intros Hs Hx. constructor; [done|].
  pose proof (sorted_cons_forall (alarm_less_func ths) x xs Hs) as Hf. eapply Forall_impl; [exact Hf|].
  intros y Hy. unfold le_of, alarm_less_func in Hy. apply bool_decide_eq_false in Hy. lia.
Qed.

Lemma kmid_alarm_head x al k :
  kmid ip k → alarm_list k = x :: al → ∃ t, threads k !! x = Some t ∧ status t = THREAD_BLOCKED.
Proof.
  intros ((S & _) & _) Ha. apply status_lookup. apply (pl_blocked _ _ _ _ _ (s_places _ _ _ _ _ _ _ _ _ S)).
  unfold blocked. rewrite Ha. elem_simpl. tauto.
Qed.

(** What one run of the alarm loop does: the due threads, a prefix of the
    sorted alarm list, become ready, and nothing else changes. *)
Definition alarm_done (k k' : kernel) : Prop :=
  ∃ due rest, alarm_list k = due ++ rest ∧ alarm_list k' = rest ∧
    Forall (λ x, wake (threads k) x ≤ ticks k) due ∧ Forall (λ x, wake (threads k) x > ticks k) rest ∧
    ready_list k' ≡ₚ due ++ ready_list k ∧
    (∀ x, x ∈ due → ∃ t, threads k !! x = Some t ∧ status t = THREAD_BLOCKED ∧
        threads k' !! x = Some (set_status THREAD_READY t)) ∧
    (∀ x, x ∉ due → threads k' !! x = threads k !! x).

Lemma alarm_done_nil k :
  Forall (λ x, wake (threads k) x > ticks k) (alarm_list k) → alarm_done k k.
Proof.
  intros H. exists [], (alarm_list k). repeat split; try done. by intros ? ?%elem_of_nil.
Qed.

(** One iteration followed by the others. *)
Lemma alarm_done_cons x al t k k' :
  kmid ip k → alarm_list k = x :: al → threads k !! x = Some t → status t = THREAD_BLOCKED →
  wake (threads k) x ≤ ticks k →
  alarm_done (with_alarm_list al (with_threads (<[x := set_status THREAD_READY t]> (threads k))
    (with_ready_list (insert_ordered (thread_priority_large_func (threads k)) x (ready_list k)) k))) k' →
  alarm_done k k'.
Proof.
  intros ((S & _) & _) Ea Ht Hb Hw (due & rest & H1 & H2 & H3 & H4 & H5 & H6 & H7). ksimpl.
  assert (∀ y, wake (<[x := set_status THREAD_READY t]> (threads k)) y = wake (threads k) y) as Ew
    by (intros; by eapply wake_same).
  assert (x ∉ due) as Hxd.
  { intros Hxd. pose proof (pl_nodup _ _ _ _ _ (s_places _ _ _ _ _ _ _ _ _ S)) as (_ & _ & Hnd)%NoDup_app.
    unfold blocked in Hnd. rewrite Ea in Hnd. apply NoDup_app in Hnd as (_ & _ & (_ & _ & Hnd)%NoDup_app).
    rewrite <- app_comm_cons in Hnd. apply NoDup_cons in Hnd as [Hnx _].
    apply Hnx. rewrite H1. elem_simpl. tauto. }
  exists (x :: due), rest. rewrite Ea, H1. repeat split.
  - done.
  - constructor; [done|]. eapply Forall_impl; [exact H3|]. intros y Hy. by rewrite <- Ew.
  - eapply Forall_impl; [exact H4|]. intros y Hy. by rewrite <- Ew.
  - rewrite H5, insert_ordered_perm. simpl. by rewrite Permutation_middle.
  - intros y [->|Hy]%elem_of_cons.
    + exists t. rewrite H7 by done. rewrite lookup_insert_eq. done.
    + destruct (H6 y Hy) as (t' & Ht' & Hb' & Hr'). exists t'. split; [|done].
      rewrite lookup_insert_ne in Ht'; [done|]. congruence.
  - intros y Hy. apply not_elem_of_cons in Hy as [? ?]. rewrite H7 by done. by apply lookup_insert_ne.
Qed.

Lemma alarm_loop_returns n k :
  kmid ip k → intr_on k = false → (length (alarm_list k) ≤ n)%nat →
  ∃ k', alarm_loop n k = Ok ((), k') ∧ alarm_done k k' ∧
    intr_on k' = false ∧ thread_mlfqs k' = thread_mlfqs k ∧ cur k' = cur k ∧ ticks k' = ticks k.
Proof.
  revert k. induction n as [|n IH]; intros k K Hi Hn; destruct (alarm_list k) as [|x al] eqn:Ea; simpl in Hn; try lia.
  1-2: exists k; split; [simpl; kunfold; by rewrite Ea|];
    (split; [apply alarm_done_nil; rewrite Ea; constructor|done]).
  destruct (kmid_alarm_head x al k K Ea) as (t & Ht & Hb).
  pose proof K as ((S & T & I) & Hid). pose proof (o_alarm _ _ _ _ _ (s_sorts _ _ _ _ _ _ _ _ _ S)) as Hs.
  assert (wake (threads k) x = wake_up_time t) as Ew by (unfold wake; by rewrite Ht).
  simpl. kunfold. krun (rewrite ?Ea, ?Ht).
  destruct (decide (wake_up_time t > ticks k)) as [Hd|Hd].
  - exists k. split; [done|]. split; [|done]. apply alarm_done_nil. rewrite Ea in Hs |- *.
    apply sorted_alarm_rest; [done|]. by rewrite Ew.
  - erewrite thread_unblock_ok; [|done|done|by rewrite Hi]. ksimpl. rewrite Ea. cbn [tail].
    match goal with |- ∃ k', alarm_loop n ?k1 = _ ∧ _ => set (k1' := k1) end.
    assert (kmid ip k1') as K1.
    { split; [|done]. split; [|split; [done|by apply idle_wf_thread]]. apply sched_unblock; [done|].
      rewrite Ea in S. by apply sched_pop_alarm. }
    destruct (IH k1' K1) as (k' & Hk' & Hdone & Hctx); [done|change (alarm_list k1') with al; lia|].
    exists k'. split; [done|]. split; [|done]. eapply (alarm_done_cons x al t); try done. rewrite Ew. lia.
Qed.

Lemma thread_tick_returns k t :
  threads k !! cur k = Some t → status t = THREAD_RUNNING → in_external_intr k = true →
  ∃ k', thread_tick k = Ok ((), k') ∧ threads k' = threads k ∧ ready_list k' = ready_list k ∧
    alarm_list k' = alarm_list k ∧ ticks k' = ticks k ∧ intr_on k' = intr_on k ∧
    thread_mlfqs k' = thread_mlfqs k ∧ in_external_intr k' = true.
Proof.
  intros Ht Hr Hx. unfold thread_tick. kunfold. krun (rewrite ?Ht, ?Hr, ?bool_decide_true by done).
  destruct (decide (cur k = idle_thread k)), (decide (u32 (thread_ticks k + 1) >= TIME_SLICE));
    ksimpl; rewrite ?Hx; eexists; (split; [reflexivity|]); ksimpl; done.
Qed.

Lemma alarm_done_ext k1 k1' k k' :
  alarm_done k1 k1' → threads k = threads k1 → ready_list k = ready_list k1 → alarm_list k = alarm_list k1 →
  ticks k = ticks k1 → threads k' = threads k1' → ready_list k' = ready_list k1' →
  alarm_list k' = alarm_list k1' → alarm_done k k'.
Proof.
  intros (due & rest & H) E1 E2 E3 E4 E5 E6 E7. exists due, rest. by rewrite E1, E2, E3, E4, E5, E6, E7.
Qed.

(** A timer interrupt, priority scheduler. *)
Lemma timer_returns k :
  kinv ip k → thread_mlfqs k = false →
  ∃ k', intr_handler timer_interrupt k = Ok ((), k') ∧ ticks k' = s64 (ticks k + 1) ∧
    alarm_done (with_ticks (s64 (ticks k + 1)) k) k'.
Proof.
  intros (W & Hctx & Hi) Hm. destruct (kwf_cur _ _ _ _ _ W) as (t & Ht & Hr & _).
  set (k1 := with_ticks (s64 (ticks k + 1)) (with_yield_on_return false (with_in_external_intr true (with_intr_on false k)))).
  assert (kmid ip k1) as K1 by done.
  destruct (thread_tick_returns k1 t) as (k2 & E2 & Eth & Erd & Eal & Etk & Eint & Emf & Ext); [done..|].
  destruct (thread_tick_kmid ip _ _ _ K1 E2) as [K2 (Ec2 & Ex2 & _)].
  destruct (alarm_loop_returns (length (alarm_list k2)) k2) as (k3 & E3 & Hdone & Hint & Hm3 & Ec3 & Etk3);
    [done|by rewrite Eint|lia|].
  destruct (alarm_loop_kmid ip _ _ _ _ K2 E3) as [K3 (_ & Ex3 & _)].
  assert (timer_interrupt (with_yield_on_return false (with_in_external_intr true (with_intr_on false k))) = Ok ((), k3)) as E.
  { unfold timer_interrupt. erewrite st_bind_ok; [|reflexivity]. erewrite st_bind_ok; [|exact E2].
    erewrite st_bind_ok; [|reflexivity]. erewrite st_bind_ok; [|exact E3]. unfold mlfqs_tick.
    erewrite st_bind_ok; [|reflexivity]. rewrite Hm3, Emf. change (thread_mlfqs k1) with (thread_mlfqs k). by rewrite Hm. }
  assert (ticks k3 = s64 (ticks k + 1)) as Etick by by rewrite Etk3, Etk.
  unfold intr_handler. erewrite st_bind_ok; [|reflexivity]. kunfold. ksimpl. rewrite Hctx. cbn [negb]. rewrite E.
  rewrite Hint, Ex3, Ext. cbn [negb]. destruct (yield_on_return k3);
    (eexists; split; [reflexivity|]); ksimpl; (split; [done|]); by eapply alarm_done_ext.
Qed.
End timer.
