(* ===== verification/Holders.v ===== *)
(** * Who changes the holder of a lock

    Every operation of Kernel.v but the lock operations leaves all holders
    alone; lock_acquire gives a free lock to the running thread and
    lock_release takes a lock from the running thread. *)

From S2P Require Import Prelude ListSpec Thread FixedPoint Places Kernel Invariant KernelSafe KernelSpec.

Local Open Scope Z_scope.

(** [m] leaves the holders alone. *)
Definition keeps {A} (m : KM A) : Prop := ∀ k a k', m k = Ok (a, k') → holders k' = holders k.

Lemma keeps_ret {A} (a : A) : keeps (mret a).
Proof. intros k b k' H. by minv H. Qed.
Lemma keeps_bind {A B} (m : KM A) (f : A → KM B) : keeps m → (∀ a, keeps (f a)) → keeps (m ≫= f).
Proof. intros Hm Hf k b k' (a & k1 & E1 & E2)%st_bind_inv. rewrite (Hf _ _ _ _ E2). by eapply Hm. Qed.
Lemma keeps_get : keeps st_get.
Proof. intros k a k' H. by minv H. Qed.
Lemma keeps_gets {A} (f : kernel → A) : keeps (st_gets f).
Proof. intros k a k' H. by minv H. Qed.
Lemma keeps_assert b : keeps (ASSERT b).
Proof. intros k a k' H. by minv H. Qed.
Lemma keeps_fail {A} e : keeps (A := A) (st_fail e).
Proof. intros k a k' H. by minv H. Qed.
Lemma keeps_opt {A} e (o : option A) : keeps (st_opt e o).
Proof. intros k a k' H. by minv H. Qed.
Lemma keeps_lift {A} (r : res A) : keeps (lift r).
Proof. intros k a k' H. by minv_ops. Qed.
Lemma keeps_modify f : (∀ k, holders (f k) = holders k) → keeps (st_modify f).
Proof. intros Hf k a k' H. minv H. apply Hf. Qed.
Lemma keeps_if {A} (P : Prop) `{Decision P} (m1 m2 : KM A) : keeps m1 → keeps m2 → keeps (if decide P then m1 else m2).
Proof. by case_decide. Qed.
Lemma keeps_bool {A} (b : bool) (m1 m2 : KM A) : keeps m1 → keeps m2 → keeps (if b then m1 else m2).
Proof. by destruct b. Qed.

Create HintDb keeps.
#[export] Hint Resolve keeps_ret keeps_get keeps_gets keeps_assert keeps_fail keeps_opt keeps_lift : keeps.

(** Structural proof that an operation keeps the holders. *)
Ltac keep :=
  repeat first
    [ apply keeps_bind; [|intros ?] | apply keeps_if | apply keeps_bool
    | apply keeps_modify; by intros []
    | by eauto with keeps
    | match goal with |- keeps (match ?x with _ => _ end) => destruct x end ].

Lemma keeps_get_thread x : keeps (get_thread x).
Proof. unfold get_thread. keep. Qed.
Lemma keeps_get_sema s : keeps (get_sema s).
Proof. unfold get_sema. keep. Qed.
Lemma keeps_get_holder l : keeps (get_holder l).
Proof. unfold get_holder. keep. Qed.
Lemma keeps_get_cond c : keeps (get_cond c).
Proof. unfold get_cond. keep. Qed.
Lemma keeps_put_thread x t : keeps (put_thread x t).
Proof. unfold put_thread. keep. Qed.
Lemma keeps_put_sema s v : keeps (put_sema s v).
Proof. unfold put_sema. keep. Qed.
Lemma keeps_put_cond c ws : keeps (put_cond c ws).
Proof. unfold put_cond. keep. Qed.
Lemma keeps_push fs : keeps (push fs).
Proof. unfold push. keep. Qed.
#[export] Hint Resolve keeps_get_thread keeps_get_sema keeps_get_holder keeps_get_cond
  keeps_put_thread keeps_put_sema keeps_put_cond keeps_push : keeps.
Lemma keeps_mod_thread x f : keeps (mod_thread x f).
Proof. unfold mod_thread. keep. Qed.
Lemma keeps_intr_set_level on : keeps (intr_set_level on).
Proof. unfold intr_set_level. keep. Qed.
Lemma keeps_intr_disable : keeps intr_disable.
Proof. unfold intr_disable. keep. Qed.
Lemma keeps_intr_yield : keeps intr_yield_on_return.
Proof. unfold intr_yield_on_return. keep. Qed.
Lemma keeps_thread_current : keeps thread_current.
Proof. unfold thread_current. keep. Qed.
Lemma keeps_ready_insert x : keeps (ready_insert x).
Proof. unfold ready_insert. keep. Qed.
#[export] Hint Resolve keeps_mod_thread keeps_intr_set_level keeps_intr_disable keeps_intr_yield
  keeps_thread_current keeps_ready_insert : keeps.
Lemma keeps_next_thread_to_run : keeps next_thread_to_run.
Proof. unfold next_thread_to_run. keep. Qed.
Lemma keeps_palloc_free_page x : keeps (palloc_free_page x).
Proof. unfold palloc_free_page. keep. Qed.
#[export] Hint Resolve keeps_next_thread_to_run keeps_palloc_free_page : keeps.
Lemma keeps_tail x : keeps (thread_schedule_tail x).
Proof. unfold thread_schedule_tail. keep. Qed.
#[export] Hint Resolve keeps_tail : keeps.
Lemma keeps_schedule : keeps schedule.
Proof. unfold schedule. keep. Qed.
#[export] Hint Resolve keeps_schedule : keeps.
Lemma keeps_thread_block : keeps thread_block.
Proof. unfold thread_block. keep. Qed.
Lemma keeps_thread_unblock x : keeps (thread_unblock x).
Proof. unfold thread_unblock. keep. Qed.
Lemma keeps_thread_yield : keeps thread_yield.
Proof. unfold thread_yield. keep. Qed.
Lemma keeps_thread_exit : keeps thread_exit.
Proof. unfold thread_exit. keep. Qed.
Lemma keeps_sema_init s v : keeps (sema_init s v).
Proof. unfold sema_init. keep. Qed.
Lemma keeps_wait_insert s x : keeps (wait_insert s x).
Proof. unfold wait_insert. keep. Qed.
Lemma keeps_elem_remove x : keeps (elem_remove x).
Proof. unfold elem_remove. keep. Qed.
#[export] Hint Resolve keeps_thread_block keeps_thread_unblock keeps_thread_yield keeps_thread_exit
  keeps_sema_init keeps_wait_insert keeps_elem_remove : keeps.
Lemma keeps_sema_down_loop s old : keeps (sema_down_loop s old).
Proof. unfold sema_down_loop. keep. Qed.
#[export] Hint Resolve keeps_sema_down_loop : keeps.
Lemma keeps_sema_down s : keeps (sema_down s).
Proof. unfold sema_down. keep. Qed.
Lemma keeps_sema_try_down s : keeps (sema_try_down s).
Proof. unfold sema_try_down. keep. Qed.
Lemma keeps_sema_up s : keeps (sema_up s).
Proof. unfold sema_up. keep. Qed.
Lemma keeps_lock_held l : keeps (lock_held_by_current_thread l).
Proof. unfold lock_held_by_current_thread. keep. Qed.
Lemma keeps_donate l c : keeps (donate_to_holder l c).
Proof. unfold donate_to_holder. keep. Qed.
#[export] Hint Resolve keeps_sema_down keeps_sema_try_down keeps_sema_up keeps_lock_held keeps_donate : keeps.
Lemma keeps_cond_init c : keeps (cond_init c).
Proof. unfold cond_init. keep. Qed.
Lemma keeps_cond_wait c l w : keeps (cond_wait c l w).
Proof. unfold cond_wait. keep. Qed.
Lemma keeps_cond_signal c l : keeps (cond_signal c l).
Proof. unfold cond_signal. keep. Qed.
Lemma keeps_cond_broadcast c l : keeps (cond_broadcast c l).
Proof. unfold cond_broadcast. keep. Qed.
Lemma keeps_set_priority p : keeps (thread_set_priority p).
Proof. unfold thread_set_priority. keep. Qed.
Lemma keeps_update_priority x : keeps (thread_update_priority_with_nice x).
Proof. unfold thread_update_priority_with_nice. keep. Qed.
Lemma keeps_update_recent_cpu x : keeps (thread_update_recent_cpu x).
Proof. unfold thread_update_recent_cpu. keep. Qed.
#[export] Hint Resolve keeps_cond_init keeps_cond_wait keeps_cond_signal keeps_cond_broadcast
  keeps_set_priority keeps_update_priority keeps_update_recent_cpu : keeps.
Lemma keeps_set_nice n : keeps (thread_set_nice n).
Proof. unfold thread_set_nice. keep. Qed.
Lemma keeps_nice_yield : keeps nice_yield.
Proof. unfold nice_yield. keep. Qed.
Lemma keeps_thread_create p page pos body : keeps (thread_create p page pos body).
Proof. unfold thread_create. keep. Qed.
Lemma keeps_allocate_tid page body : keeps (allocate_tid_body page body).
Proof. unfold allocate_tid_body. keep. Qed.
Lemma keeps_create_tail page t body : keeps (thread_create_tail page t body).
Proof. unfold thread_create_tail. keep. Qed.
Lemma keeps_create_yield page : keeps (create_yield page).
Proof. unfold create_yield. keep. Qed.
Lemma keeps_idle_init s : keeps (idle_init s).
Proof. unfold idle_init. keep. Qed.
Lemma keeps_idle_loop : keeps idle_loop.
Proof. unfold idle_loop. keep. Qed.
Lemma keeps_idle_wait : keeps idle_wait.
Proof. unfold idle_wait. keep. Qed.
Lemma keeps_timer_sleep n : keeps (timer_sleep n).
Proof. unfold timer_sleep. keep. Qed.
Lemma keeps_timer_sleep_until t : keeps (timer_sleep_until t).
Proof. unfold timer_sleep_until. keep. Qed.
#[export] Hint Resolve keeps_set_nice keeps_nice_yield keeps_thread_create keeps_allocate_tid
  keeps_create_tail keeps_create_yield keeps_idle_init keeps_idle_loop keeps_idle_wait
  keeps_timer_sleep keeps_timer_sleep_until : keeps.

Lemma keeps_foreach f xs : (∀ x, keeps (f x)) → keeps (foreach f xs).
Proof. intros Hf. induction xs; simpl; keep. Qed.
Lemma keeps_alarm_loop n : keeps (alarm_loop n).
Proof. induction n; simpl; keep. Qed.
#[export] Hint Resolve keeps_foreach keeps_alarm_loop : keeps.
Lemma keeps_mlfqs_tick : keeps mlfqs_tick.
Proof.
  unfold mlfqs_tick, thread_ins_recent_cpu, update_load_avg, thread_update_recent_cpu_all,
    thread_update_priority_with_nice_all, thread_foreach. keep.
Qed.
#[export] Hint Resolve keeps_mlfqs_tick : keeps.
Lemma keeps_timer_interrupt : keeps timer_interrupt.
Proof.
  unfold timer_interrupt, thread_tick. keep.
  apply keeps_modify. intros []. by case_decide.
Qed.
Lemma keeps_intr_handler h : keeps h → keeps (intr_handler h).
Proof. intros. unfold intr_handler. keep. Qed.

(** ** Steps *)

(** The only ways in which a step changes a holder. *)
Definition holder_change (k k' : kernel) (l : Z) : Prop :=
  holders k' !! l = holders k !! l ∨
  (holders k !! l = Some NULL ∧ holders k' !! l = Some (cur k)) ∨
  (holders k !! l = Some (cur k) ∧ holders k' !! l = Some NULL) ∨
  (holders k !! l = None ∧ holders k' !! l = Some NULL).

Lemma insert_change (k k' : kernel) l0 h0 h l :
  holders k !! l0 = h0 → holders k' = <[l0 := h]> (holders k) →
  (h0 = Some NULL ∧ h = cur k) ∨ (h0 = Some (cur k) ∧ h = NULL) ∨ (h0 = None ∧ h = NULL) →
  holder_change k k' l.
Proof.
  intros H0 E Hc. unfold holder_change. rewrite E. destruct (decide (l0 = l)) as [->|].
  - rewrite lookup_insert_eq, H0. naive_solver.
  - rewrite lookup_insert_ne by done. by left.
Qed.

Lemma acquire_loop_change ip l0 old k u k' l :
  kinv ip k → is_lock k l0 → lock_acquire_loop l0 old k = Ok (u, k') → holder_change k k' l.
Proof.
  intros ((_ & T & _) & _) [h Hh] H. unfold lock_acquire_loop in H. minv H. minv_ops. case_decide as Hv.
  - left. f_equal. revert H. assert (keeps (donate_to_holder l0 (cur k);; wait_insert (lock_sema l0) (cur k);;
      push [FLockLoop l0 old];; thread_block)) as Hk by keep. apply Hk.
  - minv H. minv_ops. ksimpl. destruct (t_locks _ _ _ _ _ _ T l0 h Hh) as (sem & Hs & Hval). simplify_eq.
    eapply (insert_change _ _ l0); [exact Hh|done|]. left. split; [|done].
    rewrite Hval in Hv by done. by case_decide; subst.
Qed.

Lemma acquire_change ip l0 k u k' l :
  kinv ip k → is_lock k l0 → lock_acquire l0 k = Ok (u, k') → holder_change k k' l.
Proof.
  intros K Hl H. unfold lock_acquire in H. minv H. minv_held.
  eapply (acquire_loop_change ip l0 _ (with_intr_on false k)); done.
Qed.

Lemma release_change l0 k u k' l : lock_release l0 k = Ok (u, k') → holder_change k k' l.
Proof.
  intros H. unfold lock_release in H. minv H. minv_held. ksimpl. subst.
  apply keeps_sema_up in H. ksimpl. eapply (insert_change _ _ l0); [done|exact H|]. auto.
Qed.

Lemma exec_change ip f k u k' l :
  kinv ip k → frame_ok (semas k) (holders k) (conds k) f ∨ legal k f → exec f k = Ok (u, k') → holder_change k k' l.
Proof.
  intros K Hf H. destruct f; simpl in Hf, H;
    try (left; f_equal; revert H; match goal with |- ?m _ = _ → _ => assert (keeps m) as Hk by keep; apply Hk end).
  - destruct Hf as [?|[? ?]]; [done|]. unfold lock_init in H. minv H. apply keeps_sema_init in H. ksimpl.
    eapply (insert_change _ _ l0); [done|exact H|]. auto.
  - eapply acquire_change; [done| |done]. by destruct Hf.
  - eapply acquire_loop_change; [done| |done]. by destruct Hf.
  - by destruct Hf.
  - by eapply release_change.
Qed.

Lemma step_change ip k k' l :
  kinv ip k → knext legal k k' → holder_change k k' l.
Proof.
  intros K H. unfold knext in H. remember (Ok ((), k')) as r eqn:Er. destruct H as [f st Hst|f Hst Hl|Hon|s Hon Hp].
  - assert (holder_change (set_stack (cur k) st k) k' l) as Hc; [|exact Hc].
    destruct (decide (cur k = ip)) as [Hc|Hc].
    + (* the idle thread's frames keep the holders *)
      left. f_equal. destruct K as (_ & _ & Hi). rewrite <- Hc in Hi. rewrite Hst in Hi.
      destruct Hi as ([|f' pre] & g & E & Hpre & Hg); cbn [app] in E; injection E as Ef _; rewrite Ef in *.
      * destruct Hg as [(_ & s & -> & _)|(_ & [->| ->])]; simpl in Er; revert Er;
          [apply keeps_idle_init|apply keeps_idle_loop|apply keeps_idle_wait].
      * apply Forall_cons in Hpre as [Hf _]. destruct f'; try done; simpl in Er; revert Er;
          [apply keeps_intr_set_level|apply keeps_thread_yield].
    + destruct (frame_embryos f) as [|page [|? ?]] eqn:He; [|..|by destruct f].
      * destruct (kinv_pop ip f st k K Hst Hc He) as [K1 Hf]. eapply exec_change; [exact K1|by left|exact Er].
      * left. f_equal. destruct f; simplify_eq/=; [by apply keeps_allocate_tid in Er|by apply keeps_create_tail in Er].
  - eapply exec_change; [done|by right|done].
  - left. f_equal. revert Er. apply keeps_intr_handler, keeps_timer_interrupt.
  - left. f_equal. revert Er. apply keeps_intr_handler, keeps_sema_up.
Qed.
