(* ===== verification/KernelTheorems.v ===== *)
(** * Theorems about the thread system

    The correctness properties of threads/thread.c, threads/synch.c and
    devices/timer.c over all interleavings, and executions that show what the
    code gets wrong. *)

From S2P Require Import Prelude ListSpec Thread FixedPoint Places Kernel Invariant KernelSafe KernelSpec Holders.

Local Open Scope Z_scope.

(** ** Executions *)

#[export] Instance plain_dec k s : Decision (plain k s).
Proof. unfold plain. apply _. Defined.

#[export] Instance legal_dec k f : Decision (legal k f).
Proof. destruct f; simpl; unfold is_lock; try apply _; apply and_dec; try apply _; destruct body; (by left) || (by right). Defined.

(** What happens next: the running thread goes on in the kernel, or makes a
    call, or an interrupt arrives. *)
Inductive event := Frame | Call (f : frame) | Tick | Device (s : Z).

Section play.
Context (may : kernel → frame → Prop) `{!∀ k f, Decision (may k f)}.

Definition fire (e : event) (k : kernel) : option (res (() * kernel)) :=
  match e with
  | Frame => match stack_of k (cur k) with
             | f :: st => Some (exec f (set_stack (cur k) st k))
             | [] => None
             end
  | Call f => match stack_of k (cur k) with
              | [] => if decide (may k f) then Some (exec f k) else None
              | _ => None
              end
  | Tick => if intr_on k then Some (intr_handler timer_interrupt k) else None
  | Device s => if intr_on k then if decide (plain k s) then Some (intr_handler (sema_up s) k) else None else None
  end.

(** A sequence of events; a failure ends it. *)
Fixpoint play (es : list event) (k : kernel) : option (res (() * kernel)) :=
  match es with
  | [] => Some (Ok ((), k))
  | e :: es =>
      match fire e k with
      | Some (Ok (_, k')) => play es k'
      | Some (Err err) => if decide (es = []) then Some (Err err) else None
      | None => None
      end
  end.

Lemma fire_step e k r : fire e k = Some r → kstep may k r.
Proof.
  destruct e; simpl; repeat case_match; intros; simplify_eq; by econstructor.
Qed.

Lemma play_reach es k u k' : play es k = Some (Ok (u, k')) → rtc (knext may) k k'.
Proof.
  revert k. induction es as [|e es IH]; intros k; simpl; [by intros [= _ ->]|].
  destruct (fire e k) as [[[[] k1]|err]|] eqn:E; [|by case_decide|done].
  intros Hp%IH. eapply rtc_l; [|done]. by apply fire_step in E.
Qed.

Lemma play_fails es k err :
  play es k = Some (Err err) → ∃ k', rtc (knext may) k k' ∧ kstep may k' (Err err).
Proof.
  revert k. induction es as [|e es IH]; intros k; simpl; [done|].
  destruct (fire e k) as [[[[] k1]|err']|] eqn:E; [|case_decide; [|done]|done].
  - intros (k' & Hr & Hf)%IH. exists k'. split; [|done]. eapply rtc_l; [|done]. by apply fire_step in E.
  - intros [= ->]. exists k. split; [done|]. by apply fire_step in E.
Qed.
End play.

(** [n] frames in a row. *)
Definition frames (n : nat) : list event := replicate n Frame.

(** A boot with the initial thread at [MAIN] and the idle thread at [IDLE]. *)
Definition MAIN : Z := 65536.
Definition IDLE : Z := 131072.
Definition STARTED : Z := 8192.

Lemma play_reachable may `{!∀ k f, Decision (may k f)} es m u k :
  play may es (booted MAIN STARTED IDLE m) = Some (Ok (u, k)) → reachable may MAIN STARTED IDLE m k.
Proof. intros Hp%play_reach. eexists. split; [by apply boot_ok|done]. Qed.

Lemma play_reachable_fails may `{!∀ k f, Decision (may k f)} es m err :
  play may es (booted MAIN STARTED IDLE m) = Some (Err err) →
  ∃ k, reachable may MAIN STARTED IDLE m k ∧ kstep may k (Err err).
Proof.
  intros (k & Hr & Hf)%play_fails. exists k. split; [|done]. eexists. split; [by apply boot_ok|done].
Qed.

(** The initial thread waits until the idle thread has started. *)
Definition start : list event := frames 6.

(** Addresses used by the executions below. *)
Definition P2 : Z := 196608.
Definition P3 : Z := 262144.
Definition P4 : Z := 327680.
Definition LOCK : Z := 16384.
Definition COND : Z := 20480.

(** A thread of priority [p] at [page] is created; it runs at once if it
    outranks the running one. *)
Definition create_lower (p page : Z) : list event := Call (FCreate p page 0 []) :: frames 6.
Definition create_higher (p page : Z) : list event := Call (FCreate p page 0 []) :: frames 8.

(** The state after [es]; the boot state if they are not an execution. *)
Definition after (es : list event) : kernel :=
  match play legal (start ++ es) (booted MAIN STARTED IDLE false) with
  | Some (Ok (_, k)) => k
  | _ => booted MAIN STARTED IDLE false
  end.

Lemma after_reachable es : reachable legal MAIN STARTED IDLE false (after es).
Proof.
  unfold after. destruct (play _ _ _) as [[[u k]|]|] eqn:E; [by eapply play_reachable|..];
    (eexists; split; [by apply boot_ok|apply rtc_refl]).
Qed.

Lemma boot_layout : layout MAIN STARTED IDLE.
Proof. by vm_compute; repeat split. Qed.

(** ** The scheduler *)



(** C6: thread_yield returns (no assertion fails) and switches to a thread of
    the highest priority among the ready threads and the running one; the
    running thread stays only if it outranks every ready thread, so that
    threads of equal priority take turns. *)
Theorem yield_runs_highest main s page m k :
  layout main s page → reachable legal main s page m k → cur k ≠ idle_thread k →
  ∃ k', thread_yield k = Ok ((), k') ∧ cur k' ∈ cur k :: ready_list k ∧
    (∀ x, x ∈ cur k :: ready_list k → prio (threads k) x ≤ prio (threads k) (cur k')) ∧
    (cur k' = cur k → ∀ x, x ∈ ready_list k → prio (threads k) x < prio (threads k) (cur k)) ∧
    (∃ t, threads k' !! cur k' = Some t ∧ status t = THREAD_RUNNING).
Proof.
  intros Hl Hr Hid. pose proof (reachable_kinv _ _ _ _ _ Hl Hr) as K.
  destruct (thread_yield_returns page k K Hid) as (x & r & t & tc & El & Htc & Ht & Hy).
  eexists. split; [exact Hy|]. ksimpl.
  pose proof K as ((S & _) & _). destruct S as [P [Hs _ _] _].
  assert (∀ y, y ∈ cur k :: ready_list k ↔ y ∈ x :: r) as Hin.
  { intros y. rewrite <- El. rewrite insert_ordered_elem. apply elem_of_cons. }
  split; [rewrite Hin; left|]. split; [|split].
  - intros y Hy'%Hin. apply (sorted_head_highest _ _ r); [|done]. rewrite <- El.
    apply insert_ordered_sorted; [apply _|done].
  - intros -> y Hy'. destruct (ready_list k) as [|z zs] eqn:Ez; [by apply elem_of_nil in Hy'|].
    pose proof (sorted_head_highest _ _ _ y Hs Hy'). simpl in El.
    destruct (thread_priority_large_func (threads k) (cur k) z) eqn:Eq.
    + unfold thread_priority_large_func in Eq. apply bool_decide_eq_true in Eq. lia.
    + injection El as -> _. apply places_run_off in P. exfalso. apply P. by left.
  - eexists. split; [apply lookup_insert_eq|done].
Qed.

Lemma yield_runs_highest_witness :
  let k := after (create_lower 31 P2) in
  cur k = MAIN ∧ ready_list k = [P2] ∧
  ∃ k', thread_yield k = Ok ((), k') ∧ cur k' ∈ cur k :: ready_list k.
Proof.
  intros k. split; [by vm_compute|]. split; [by vm_compute|].
  destruct (yield_runs_highest _ _ _ _ k boot_layout (after_reachable _)) as (k' & H1 & H2 & _); [by vm_compute|eauto].
Defined.

(** A list split at the first element that satisfies [P] and all later ones. *)
Lemma filter_split {A} (P : A → Prop) `{∀ x, Decision (P x)} (due rest : list A) :
  Forall (λ x, ¬ P x) due → Forall P rest →
  filter P (due ++ rest) = rest ∧ filter (λ x, ¬ P x) (due ++ rest) = due.
Proof.
  intros Hd Hr. rewrite !filter_app. split.
  - by rewrite filter_none, filter_all.
  - rewrite filter_all by done. rewrite filter_none; [by rewrite app_nil_r|].
    eapply Forall_impl; [exact Hr|]. naive_solver.
Qed.

(** C7: A timer interrupt at a reachable state (priority scheduler) returns and
    wakes exactly the sleeping threads whose wake-up time has come: they become
    ready, the others stay blocked in the alarm list, and no other thread
    changes. *)
Theorem timer_wakes_due main s page m k :
  layout main s page → reachable legal main s page m k → thread_mlfqs k = false →
  ∃ k', intr_handler timer_interrupt k = Ok ((), k') ∧ ticks k' = s64 (ticks k + 1) ∧
    let due := filter (λ x, ¬ wake (threads k) x > ticks k') (alarm_list k) in
    alarm_list k' = filter (λ x, wake (threads k) x > ticks k') (alarm_list k) ∧
    ready_list k' ≡ₚ due ++ ready_list k ∧
    (∀ x t, threads k !! x = Some t →
       threads k' !! x = Some (if decide (x ∈ due) then set_status THREAD_READY t else t)).
Proof.
  intros Hl Hr Hm. pose proof (reachable_kinv _ _ _ _ _ Hl Hr) as K.
  destruct (timer_returns page k K Hm) as (k' & Hk & Ht & due & rest & H1 & H2 & H3 & H4 & H5 & H6 & H7). ksimpl.
  exists k'. split; [done|]. split; [done|]. rewrite Ht, H1.
  destruct (filter_split (λ x, wake (threads k) x > s64 (ticks k + 1)) due rest) as [-> ->];
    [eapply Forall_impl; [exact H3|]; simpl; lia|done|].
  split; [done|]. split; [done|]. intros x t Hx. case_decide as Hd.
  - destruct (H6 x Hd) as (t' & Ht' & _ & ->). congruence.
  - by rewrite H7.
Qed.

Lemma timer_wakes_due_witness :
  let k := after (create_higher 40 P2 ++ [Call (FSleep 1); Frame; Frame]) in
  alarm_list k = [P2] ∧ wake (threads k) P2 = 1 ∧
  ∃ k', intr_handler timer_interrupt k = Ok ((), k') ∧ ticks k' = s64 (ticks k + 1).
Proof.
  intros k. split; [by vm_compute|]. split; [by vm_compute|].
  destruct (timer_wakes_due _ _ _ _ k boot_layout (after_reachable _)) as (k' & H1 & H2 & _); [by vm_compute|eauto].
Defined.

(** ** Semaphores and locks *)



(** C5: Mutual exclusion: in every reachable state the semaphore of a lock has
    value 1 if no thread holds the lock and value 0 if one does. *)
Theorem lock_value_holder main s page m k l h :
  layout main s page → reachable legal main s page m k → holders k !! l = Some h →
  ∃ ws, semas k !! lock_sema l = Some (Semaphore (if decide (h = NULL) then 1 else 0) ws).
Proof.
  intros Hl Hr Hh. destruct (reachable_kinv _ _ _ _ _ Hl Hr) as ((_ & T & _) & _).
  destruct (t_locks _ _ _ _ _ _ T l h Hh) as ([v ws] & Hs & Hv). exists ws. by rewrite <- Hv.
Qed.

Lemma lock_value_holder_witness :
  let k := after [Call (FLockInit LOCK); Call (FLockAcquire LOCK)] in
  holders k !! LOCK = Some MAIN ∧ ∃ ws, semas k !! lock_sema LOCK = Some (Semaphore 0 ws).
Proof.
  intros k. assert (Hh : holders k !! LOCK = Some MAIN) by by vm_compute. split; [exact Hh|].
  exact (lock_value_holder _ _ _ _ k LOCK MAIN boot_layout (after_reachable _) Hh).
Defined.

(** C4: A step changes the holder of a lock only from nobody to the running
    thread or from the running thread to nobody: no thread takes a lock that
    another holds, and no thread releases another's lock. *)
Theorem lock_handover main s page m k k' l h :
  layout main s page → reachable legal main s page m k → knext legal k k' → holders k !! l = Some h →
  ∃ h', holders k' !! l = Some h' ∧
    (h' = h ∨ (h = NULL ∧ h' = cur k) ∨ (h = cur k ∧ h' = NULL)).
Proof.
  intros Hl Hr Hs Hh. pose proof (reachable_kinv _ _ _ _ _ Hl Hr) as K.
  destruct (step_change page k k' l K Hs) as [E|[[E1 E2]|[[E1 E2]|[E1 E2]]]]; rewrite Hh in *; simplify_eq; eauto 10.
Qed.

Lemma lock_handover_witness :
  let k := after [Call (FLockInit LOCK)] in
  let k' := after [Call (FLockInit LOCK); Call (FLockAcquire LOCK)] in
  holders k !! LOCK = Some NULL ∧ knext legal k k' ∧
  ∃ h', holders k' !! LOCK = Some h' ∧ (h' = NULL ∨ (NULL = NULL ∧ h' = cur k) ∨ (NULL = cur k ∧ h' = NULL)).
Proof.
  intros k k'. assert (Hh : holders k !! LOCK = Some NULL) by by vm_compute.
  assert (Hn : knext legal k k').
  { unfold knext. replace (Ok ((), k')) with (exec (FLockAcquire LOCK) k) by by vm_compute.
    apply step_call; [by vm_compute|]. by apply (bool_decide_unpack _); vm_compute. }
  split; [exact Hh|]. split; [exact Hn|].
  exact (lock_handover _ _ _ _ k k' LOCK NULL boot_layout (after_reachable _) Hn Hh).
Defined.

(** ** What the code gets wrong *)

(** A thread that waits for a lock whose holder sleeps in timer_sleep makes
    lock_acquire call list_remove on an element that is in no list: the
    donation takes for granted that the holder is ready or waits on a
    semaphore. *)
Theorem donation_to_sleeper_faults :
  ∃ k, reachable legal MAIN STARTED IDLE false k ∧ kstep legal k (Err EFault) ∧
    stack_of k (cur k) = [] ∧ is_lock k LOCK ∧ exec (FLockAcquire LOCK) k = Err EFault ∧
    holders k !! LOCK = Some MAIN ∧ MAIN ∈ alarm_list k.
Proof.
  set (k := after ([Call (FLockInit LOCK); Call (FLockAcquire LOCK)] ++ create_higher 40 P2 ++
    [Call (FSleep 2); Frame; Frame; Call (FSleep 10)] ++ frames 4 ++ [Tick; Tick; Frame; Frame])).
  exists k. split; [apply after_reachable|].
  assert (E : exec (FLockAcquire LOCK) k = Err EFault) by by vm_compute.
  split; [rewrite <- E; apply step_call; [by vm_compute|by apply (bool_decide_unpack _); vm_compute]|].
  split; [by vm_compute|]. split; [by apply (bool_decide_unpack _); vm_compute|]. split; [exact E|].
  split; [by vm_compute|by apply (bool_decide_unpack _); vm_compute].
Qed.

(** Thirty-one donations to one holder, each of a higher priority, write
    past the thirty slots of stored_priority. *)
Theorem donation_overflow_faults :
  ∃ k t, reachable legal MAIN STARTED IDLE false k ∧ threads k !! MAIN = Some t ∧
    holders k !! LOCK = Some MAIN ∧ stored_index t = Z.of_nat STORED_MAX ∧
    stack_of k (cur k) = [] ∧ is_lock k LOCK ∧ exec (FLockAcquire LOCK) k = Err EFault.
Proof.
  set (page p := P2 + 65536 * Z.of_nat p).
  set (k := after ([Call (FSetPriority 0); Frame; Frame; Call (FLockInit LOCK); Call (FLockAcquire LOCK)] ++
    concat ((λ p, create_higher (Z.of_nat p) (page p) ++ [Call (FLockAcquire LOCK); Frame]) <$> seq 1 30) ++
    create_higher 31 (page 31%nat))).
  destruct (threads k !! MAIN) as [t|] eqn:Ht; [|by vm_compute in Ht].
  exists k, t. split; [apply after_reachable|]. split; [done|]. split; [by vm_compute|].
  split; [by vm_compute in Ht; injection Ht as <-|].
  split; [by vm_compute|]. split; [by apply (bool_decide_unpack _); vm_compute|by vm_compute].
Qed.

(** A new thread can run and exit between the thread_unblock and the last
    test of thread_create, which then reads the priority of a freed page. *)
Theorem create_reads_freed_page :
  ∃ k, reachable legal MAIN STARTED IDLE false k ∧ kstep legal k (Err EFault) ∧
    head (stack_of k (cur k)) = Some (FCreateYield P2) ∧ threads k !! P2 = None.
Proof.
  set (k := after (Call (FCreate 31 P2 0 []) :: frames 5 ++ [Tick; Tick; Tick; Tick; Frame; Frame; Call FExit; Frame; Frame])).
  exists k. split; [apply after_reachable|]. split; [|by vm_compute].
  replace (Err EFault) with (exec (FCreateYield P2) (set_stack (cur k) [] k)) by by vm_compute.
  apply step_frame. by vm_compute.
Qed.

(** Cond_signal fails an assertion of list_front when one of two waiters
    has released the lock but has not yet reached sema_down. *)
Theorem cond_signal_panics :
  ∃ k, reachable legal MAIN STARTED IDLE false k ∧ kstep legal k (Err EPanic) ∧
    stack_of k (cur k) = [] ∧ legal k (FCondSignal COND LOCK) ∧
    holders k !! LOCK = Some (cur k) ∧ exec (FCondSignal COND LOCK) k = Err EPanic.
Proof.
  set (k := after ([Call (FLockInit LOCK); Call (FCondInit COND)] ++ create_higher 32 P3 ++
    [Call (FLockAcquire LOCK); Call (FCondWait COND LOCK 30000)] ++ frames 4 ++
    [Call (FLockAcquire LOCK)] ++ create_higher 40 P4 ++ [Call (FLockAcquire LOCK); Frame] ++
    Call (FCondWait COND LOCK 31000) :: frames 3)).
  exists k. split; [apply after_reachable|].
  assert (E : exec (FCondSignal COND LOCK) k = Err EPanic) by by vm_compute.
  assert (Hl : legal k (FCondSignal COND LOCK)) by by apply (bool_decide_unpack _); vm_compute.
  split; [rewrite <- E; apply step_call; [by vm_compute|done]|].
  split; [by vm_compute|]. split; [done|]. split; [by vm_compute|exact E].
Qed.

(** A timer interrupt that wakes a thread of higher priority does not
    preempt the running thread: no yield is pending, and the lower-priority
    thread goes on with interrupts on. *)
Theorem alarm_does_not_preempt :
  ∃ k k' x, reachable legal MAIN STARTED IDLE false k ∧ intr_handler timer_interrupt k = Ok ((), k') ∧
    x ∈ alarm_list k ∧ x ∈ ready_list k' ∧ cur k' = cur k ∧ stack_of k' (cur k') = [] ∧ intr_on k' = true ∧
    prio (threads k') x > prio (threads k') (cur k').
Proof.
  set (k := after (create_higher 40 P2 ++ [Call (FSleep 1); Frame; Frame])).
  destruct (intr_handler timer_interrupt k) as [[[] k']|] eqn:E; [|by vm_compute in E].
  exists k, k', P2. split; [apply after_reachable|]. split; [done|].
  split; [by apply (bool_decide_unpack _); vm_compute|].
  vm_compute in E. injection E as <-. vm_compute. repeat split. left.
Qed.

(** lock_try_acquire as a call. *)
Definition legal_try (k : kernel) (f : frame) : Prop :=
  match f with FLockTryAcquire l => is_lock k l | _ => legal k f end.

#[export] Instance legal_try_dec k f : Decision (legal_try k f).
Proof. destruct f; try (unfold legal_try; apply _); simpl; unfold is_lock; apply _. Defined.

(** Lock_try_acquire lets interrupts in between taking the semaphore and
    setting the holder; a lock_acquire in that window dereferences the null
    holder. *)
Theorem try_acquire_race_faults :
  ∃ k, reachable legal_try MAIN STARTED IDLE false k ∧ kstep legal_try k (Err EFault) ∧
    is_lock k LOCK ∧ exec (FLockAcquire LOCK) k = Err EFault ∧ holders k !! LOCK = Some NULL.
Proof.
  destruct (play legal_try (start ++ Call (FLockInit LOCK) :: create_lower 31 P2 ++
    [Call (FLockTryAcquire LOCK); Tick; Tick; Tick; Tick; Frame; Frame]) (booted MAIN STARTED IDLE false))
    as [[[u k]|]|] eqn:E; [|by vm_compute in E..].
  exists k. split; [by eapply play_reachable|].
  vm_compute in E. injection E as _ <-.
  match goal with |- kstep _ ?k _ ∧ _ => set (k0 := k) end.
  assert (E : exec (FLockAcquire LOCK) k0 = Err EFault) by by vm_compute.
  assert (Hl : is_lock k0 LOCK) by by apply (bool_decide_unpack _); vm_compute.
  split; [rewrite <- E; by apply step_call; vm_compute|]. split; [done|]. split; [exact E|by vm_compute].
Qed.
