(* ===== verification/Inode.v ===== *)
(** * devices/block.c and filesys/inode.c: sectors and inode data

    The file system's state: the bytes of the device [fs_device], the in-memory
    inodes, files and directories by address, the free map, and the outcomes of
    the coming memory allocations.  This file has the block device accesses,
    the on-disk inode, and reading and writing an inode's bytes; FileSys.v has
    the free map, creation, files, directories and the file system proper.

    The data of an inode is [content]; inode_read_at and inode_write_at are
    proved to be a slice and an update of it. *)

From S2P Require Import Prelude Bitmap.

Local Open Scope Z_scope.

(** ** Data *)

Definition BLOCK_SECTOR_SIZE : Z := 512.
Definition INODE_MAGIC : Z := 1229868868.

(** [struct inode_disk], the unused words apart. *)
Record inode_disk := InodeDisk { start : Z; length_ : Z; magic : Z }.

Record inode := Inode {
  sector : Z;
  open_cnt : Z;
  removed : bool;
  deny_write_cnt : Z;
  data : inode_disk;
}.

#[export] Instance inode_disk_eq_dec : EqDecision inode_disk.
Proof. solve_decision. Defined.
#[export] Instance inode_eq_dec : EqDecision inode.
Proof. solve_decision. Defined.

Record file := File { file_inode : Z; file_pos : Z; deny_write : bool }.
Record dir := Dir { dir_inode : Z; dir_pos : Z }.

Record fs := Fs {
  disk : list Z;                (* the bytes of the device *)
  dev_size : Z;                 (* its size in sectors *)
  inodes : gmap Z inode;
  open_inodes : list Z;         (* addresses, first to last *)
  files : gmap Z file;
  dirs : gmap Z dir;
  free_map : bitmap;
  free_map_file : Z;
  brk : Z;                      (* the next address malloc returns *)
  oom : list bool;              (* whether the next allocations fail *)
}.

Definition set_disk (v : list Z) (s : fs) : fs :=
  Fs v (dev_size s) (inodes s) (open_inodes s) (files s) (dirs s) (free_map s) (free_map_file s) (brk s) (oom s).
Definition set_inodes (v : gmap Z inode) (s : fs) : fs :=
  Fs (disk s) (dev_size s) v (open_inodes s) (files s) (dirs s) (free_map s) (free_map_file s) (brk s) (oom s).
Definition set_open_inodes (v : list Z) (s : fs) : fs :=
  Fs (disk s) (dev_size s) (inodes s) v (files s) (dirs s) (free_map s) (free_map_file s) (brk s) (oom s).
Definition set_files (v : gmap Z file) (s : fs) : fs :=
  Fs (disk s) (dev_size s) (inodes s) (open_inodes s) v (dirs s) (free_map s) (free_map_file s) (brk s) (oom s).
Definition set_dirs (v : gmap Z dir) (s : fs) : fs :=
  Fs (disk s) (dev_size s) (inodes s) (open_inodes s) (files s) v (free_map s) (free_map_file s) (brk s) (oom s).
Definition set_free_map (v : bitmap) (s : fs) : fs :=
  Fs (disk s) (dev_size s) (inodes s) (open_inodes s) (files s) (dirs s) v (free_map_file s) (brk s) (oom s).
Definition set_free_map_file (v : Z) (s : fs) : fs :=
  Fs (disk s) (dev_size s) (inodes s) (open_inodes s) (files s) (dirs s) (free_map s) v (brk s) (oom s).
Definition set_heap (b : Z) (o : list bool) (s : fs) : fs :=
  Fs (disk s) (dev_size s) (inodes s) (open_inodes s) (files s) (dirs s) (free_map s) (free_map_file s) b o.

Notation FM := (ST fs).

(** ** Memory allocation *)

(** Whether an allocation succeeds. *)
Definition malloc_ok : FM bool :=
  s ← st_get;
  match oom s with
  | [] => mret true
  | b :: o => st_modify (set_heap (brk s) o);; mret (negb b)
  end.

(** malloc and calloc of an object: a fresh address, or NULL. *)
Definition malloc : FM Z :=
  ok ← malloc_ok;
  if ok : bool then s ← st_get; st_modify (set_heap (brk s + 1) (oom s));; mret (brk s) else mret NULL.

(** Dereferences. *)
Definition get_inode (i : Z) : FM inode := s ← st_get; st_opt EFault (inodes s !! i).
Definition put_inode (i : Z) (v : inode) : FM () := st_modify (λ s, set_inodes (<[i := v]> (inodes s)) s).

(** ** Bytes *)

(** Bytes [ofs, ofs + n) of a buffer, and a buffer with bytes replaced. *)
Definition slice (ofs n : Z) (bs : list Z) : list Z := take (Z.to_nat n) (drop (Z.to_nat ofs) bs).
Definition splice (ofs : Z) (new bs : list Z) : list Z :=
  take (Z.to_nat ofs) bs ++ new ++ drop (Z.to_nat ofs + length new) bs.

Arguments slice : simpl never.
Arguments splice : simpl never.

(** memcpy out of and into a buffer, within its bounds. *)
Definition copy_out (ofs n : Z) (bs : list Z) : FM (list Z) :=
  if decide (0 ≤ ofs ∧ 0 ≤ n ∧ ofs + n ≤ Z.of_nat (length bs)) then mret (slice ofs n bs) else st_fail EFault.
Definition copy_in (ofs : Z) (new bs : list Z) : FM (list Z) :=
  if decide (0 ≤ ofs ∧ ofs + Z.of_nat (length new) ≤ Z.of_nat (length bs))
  then mret (splice ofs new bs) else st_fail EFault.

(** ** devices/block.c *)

Definition check_sector (sec : Z) : FM () := s ← st_get; ASSERT (bool_decide (sec < dev_size s)).

Definition block_read (sec : Z) : FM (list Z) :=
  check_sector sec;;
  s ← st_get; mret (slice (BLOCK_SECTOR_SIZE * sec) BLOCK_SECTOR_SIZE (disk s)).

Definition block_write (sec : Z) (buffer : list Z) : FM () :=
  check_sector sec;;
  st_modify (λ s, set_disk (splice (BLOCK_SECTOR_SIZE * sec) buffer (disk s)) s).

(** ** filesys/inode.c *)

Definition bytes_to_sectors (size : Z) : Z := u32 (s32 (size + BLOCK_SECTOR_SIZE - 1) ÷ BLOCK_SECTOR_SIZE).

Definition byte_to_sector (ino : inode) (pos : Z) : Z :=
  if decide (pos < length_ (data ino)) then u32 (start (data ino) + pos ÷ BLOCK_SECTOR_SIZE) else u32 (-1).

(** The sector image of an on-disk inode, and the inode read from one. *)
Definition encode_inode (d : inode_disk) : list Z :=
  le_bytes 4 (start d) ++ le_bytes 4 (u32 (length_ d)) ++ le_bytes 4 (magic d) ++ replicate 500 0.
Definition decode_inode (bs : list Z) : inode_disk :=
  InodeDisk (le_word (slice 0 4 bs)) (s32 (le_word (slice 4 4 bs))) (le_word (slice 8 4 bs)).

Definition inode_length (ino : inode) : Z := length_ (data ino).

Definition inode_reopen (i : Z) : FM Z :=
  if decide (i = NULL) then mret NULL else
  ino ← get_inode i;
  put_inode i (Inode (sector ino) (s32 (open_cnt ino + 1)) (removed ino) (deny_write_cnt ino) (data ino));;
  mret i.

(** The search of inode_open through the open inodes. *)
Fixpoint find_open (sec : Z) (l : list Z) : FM Z :=
  match l with
  | [] => mret NULL
  | i :: l => ino ← get_inode i; if decide (sector ino = sec) then mret i else find_open sec l
  end.

Definition inode_open (sec : Z) : FM Z :=
  s ← st_get;
  i ← find_open sec (open_inodes s);
  if decide (i ≠ NULL) then inode_reopen i else
  i ← malloc;
  if decide (i = NULL) then mret NULL else
  st_modify (λ s, set_open_inodes (i :: open_inodes s) s);;
  bs ← block_read sec;
  put_inode i (Inode sec 1 false 0 (decode_inode bs));;
  mret i.

Definition inode_get_inumber (i : Z) : FM Z := ino ← get_inode i; mret (sector ino).

Definition inode_remove (i : Z) : FM () :=
  ASSERT (bool_decide (i ≠ NULL));;
  ino ← get_inode i;
  put_inode i (Inode (sector ino) (open_cnt ino) true (deny_write_cnt ino) (data ino)).

(** The [chunk_size] of an iteration of inode_read_at or inode_write_at. *)
Definition chunk (ino : inode) (size offset : Z) : Z :=
  let sector_ofs := offset `rem` BLOCK_SECTOR_SIZE in
  let inode_left := s32 (inode_length ino - offset) in
  let sector_left := BLOCK_SECTOR_SIZE - sector_ofs in
  let min_left := if decide (inode_left < sector_left) then inode_left else sector_left in
  if decide (size < min_left) then size else min_left.

(** The [while] of inode_read_at: [out] has been copied to the caller's
    buffer, [bounce] is whether the bounce buffer is allocated.  Every
    iteration takes at least one byte off [size]. *)
Fixpoint read_loop (n : nat) (ino : inode) (size offset : Z) (bounce : bool) (out : list Z) : FM (list Z) :=
  if decide (size > 0) then
    match n with
    | O => st_fail EFuel
    | S n =>
        let sector_idx := byte_to_sector ino offset in
        let sector_ofs := offset `rem` BLOCK_SECTOR_SIZE in
        let chunk_size := chunk ino size offset in
        if decide (chunk_size ≤ 0) then mret out else
        if decide (sector_ofs = 0 ∧ chunk_size = BLOCK_SECTOR_SIZE) then
          bs ← block_read sector_idx;
          read_loop n ino (size - chunk_size) (offset + chunk_size) bounce (out ++ bs)
        else
          ok ← (if bounce then mret true else malloc_ok);
          if negb ok : bool then mret out else
          bs ← block_read sector_idx;
          piece ← copy_out sector_ofs chunk_size bs;
          read_loop n ino (size - chunk_size) (offset + chunk_size) true (out ++ piece)
    end
  else mret out.

(** The bytes read; their number is the result. *)
Definition inode_read_at (i size offset : Z) : FM (list Z) :=
  ino ← get_inode i; read_loop (Z.to_nat size) ino size offset false [].

(** The [while] of inode_write_at: [written] bytes are done. *)
Fixpoint write_loop (n : nat) (ino : inode) (buffer : list Z) (size offset written : Z) (bounce : bool) : FM Z :=
  if decide (size > 0) then
    match n with
    | O => st_fail EFuel
    | S n =>
        let sector_idx := byte_to_sector ino offset in
        let sector_ofs := offset `rem` BLOCK_SECTOR_SIZE in
        let sector_left := BLOCK_SECTOR_SIZE - sector_ofs in
        let chunk_size := chunk ino size offset in
        if decide (chunk_size ≤ 0) then mret written else
        if decide (sector_ofs = 0 ∧ chunk_size = BLOCK_SECTOR_SIZE) then
          piece ← copy_out written chunk_size buffer;
          block_write sector_idx piece;;
          write_loop n ino buffer (size - chunk_size) (offset + chunk_size) (written + chunk_size) bounce
        else
          ok ← (if bounce then mret true else malloc_ok);
          if negb ok : bool then mret written else
          old ← (if decide (sector_ofs > 0 ∨ chunk_size < sector_left) then block_read sector_idx
                 else mret (replicate (Z.to_nat BLOCK_SECTOR_SIZE) 0));
          piece ← copy_out written chunk_size buffer;
          new ← copy_in sector_ofs piece old;
          block_write sector_idx new;;
          write_loop n ino buffer (size - chunk_size) (offset + chunk_size) (written + chunk_size) true
    end
  else mret written.

Definition inode_write_at (i : Z) (buffer : list Z) (size offset : Z) : FM Z :=
  ino ← get_inode i;
  if decide (deny_write_cnt ino ≠ 0) then mret 0 else
  write_loop (Z.to_nat size) ino buffer size offset 0 false.

Definition inode_deny_write (i : Z) : FM () :=
  ino ← get_inode i;
  let n := s32 (deny_write_cnt ino + 1) in
  put_inode i (Inode (sector ino) (open_cnt ino) (removed ino) n (data ino));;
  ASSERT (bool_decide (n ≤ open_cnt ino)).

Definition inode_allow_write (i : Z) : FM () :=
  ino ← get_inode i;
  ASSERT (bool_decide (deny_write_cnt ino > 0));;
  ASSERT (bool_decide (deny_write_cnt ino ≤ open_cnt ino));;
  put_inode i (Inode (sector ino) (open_cnt ino) (removed ino) (s32 (deny_write_cnt ino - 1)) (data ino)).

(** ** Slices *)

Section slices.
Implicit Types (bs new old x y : list Z) (a b n m o : Z).

Lemma slice_lookup a n bs i :
  0 ≤ a → slice a n bs !! i = if decide (Z.of_nat i < n) then bs !! (Z.to_nat a + i)%nat else None.
Proof.
  intros. unfold slice. rewrite lookup_take. case_decide as E1; case_decide as E2; try lia; [|done].
  apply lookup_drop.
Qed.

Lemma splice_lookup a new bs i :
  0 ≤ a ≤ Z.of_nat (length bs) →
  splice a new bs !! i =
    if decide (a ≤ Z.of_nat i < a + Z.of_nat (length new)) then new !! (i - Z.to_nat a)%nat else bs !! i.
Proof.
  intros. unfold splice. destruct (decide (Z.of_nat i < a)).
  - rewrite decide_False by lia. rewrite lookup_app_l by (rewrite length_take; lia).
    rewrite lookup_take. by rewrite decide_True by lia.
  - rewrite lookup_app_r by (rewrite length_take; lia). rewrite length_take, Nat.min_l by lia.
    case_decide.
    + by rewrite lookup_app_l by lia.
    + rewrite lookup_app_r by lia. rewrite lookup_drop. f_equal. lia.
Qed.

Lemma slice_length a n bs :
  0 ≤ a → 0 ≤ n → a + n ≤ Z.of_nat (length bs) → length (slice a n bs) = Z.to_nat n.
Proof. intros. unfold slice. rewrite length_take, length_drop. lia. Qed.

Lemma splice_length a new bs :
  0 ≤ a → a + Z.of_nat (length new) ≤ Z.of_nat (length bs) → length (splice a new bs) = length bs.
Proof. intros. unfold splice. rewrite !length_app, length_take, length_drop. lia. Qed.

(** Equality of buffers position by position. *)
Ltac by_lookup :=
  intros; apply list_eq; intros i;
  repeat (rewrite ?slice_lookup, ?splice_lookup by (rewrite ?splice_length by lia; lia); repeat case_decide);
  first [done | lia | f_equal; lia | symmetry; apply lookup_ge_None_2; lia | apply lookup_ge_None_2; lia | idtac].

Lemma slice_all bs : slice 0 (Z.of_nat (length bs)) bs = bs.
Proof. by_lookup. Qed.

(** A slice of a slice, clipped at its end. *)
Lemma slice_slice a n b m bs :
  0 ≤ a → 0 ≤ b → 0 ≤ n → slice a n (slice b m bs) = slice (b + a) (Z.min n (m - a)) bs.
Proof. by_lookup. Qed.

Lemma slice_app a n m bs :
  0 ≤ a → 0 ≤ n → a + n ≤ Z.of_nat (length bs) → slice a n bs ++ slice (a + n) m bs = slice a (n + Z.max 0 m) bs.
Proof.
  intros. apply list_eq. intros i. rewrite slice_lookup by done. destruct (decide (Z.of_nat i < n)).
  - rewrite lookup_app_l by (rewrite slice_length by lia; lia). rewrite slice_lookup by done.
    repeat case_decide; done || lia.
  - rewrite lookup_app_r by (rewrite slice_length by lia; lia). rewrite slice_length, slice_lookup by lia.
    repeat case_decide; first [done|lia|f_equal; lia].
Qed.

Lemma splice_nil a bs : splice a [] bs = bs.
Proof. unfold splice. simpl. rewrite Nat.add_0_r. apply take_drop. Qed.

(** Writing two adjacent pieces. *)
Lemma splice_app a x y bs :
  0 ≤ a → a + Z.of_nat (length x) ≤ Z.of_nat (length bs) →
  splice (a + Z.of_nat (length x)) y (splice a x bs) = splice a (x ++ y) bs.
Proof.
  intros. apply list_eq. intros i. rewrite !splice_lookup, length_app by (rewrite ?splice_length by lia; lia).
  destruct (decide (Z.of_nat i < a + Z.of_nat (length x))).
  - repeat case_decide; try done; try lia. by rewrite lookup_app_l by lia.
  - repeat case_decide; try done; try lia. rewrite lookup_app_r by lia. f_equal. lia.
Qed.

(** Updating a part of a sector and writing the sector back. *)
Lemma splice_sector a n o new bs :
  0 ≤ a → 0 ≤ o → o + Z.of_nat (length new) ≤ n → a + n ≤ Z.of_nat (length bs) →
  splice a (splice o new (slice a n bs)) bs = splice (a + o) new bs.
Proof.
  intros. pose proof (slice_length a n bs) as Hl. apply list_eq. intros i.
  rewrite !splice_lookup by (rewrite ?Hl by lia; lia). rewrite splice_length, Hl by (rewrite ?Hl by lia; lia).
  rewrite slice_lookup by lia.
  repeat case_decide; first [done|lia|f_equal; lia].
Qed.

(** Reading back, and reading elsewhere. *)
Lemma slice_splice_same a new bs :
  0 ≤ a → a + Z.of_nat (length new) ≤ Z.of_nat (length bs) → slice a (Z.of_nat (length new)) (splice a new bs) = new.
Proof.
  intros. apply list_eq. intros i. rewrite slice_lookup, splice_lookup by lia.
  repeat case_decide; first [lia|f_equal; lia|symmetry; apply lookup_ge_None_2; lia].
Qed.

Lemma slice_splice_other a n b new bs :
  0 ≤ a → 0 ≤ b → b + Z.of_nat (length new) ≤ Z.of_nat (length bs) →
  a + n ≤ b ∨ b + Z.of_nat (length new) ≤ a → slice a n (splice b new bs) = slice a n bs.
Proof. intros. apply list_eq. intros i. rewrite !slice_lookup, splice_lookup by lia. repeat case_decide; first [done|lia]. Qed.

(** An update seen through a slice that contains it. *)
Lemma slice_splice_in a n b new bs :
  0 ≤ a → 0 ≤ b → b + Z.of_nat (length new) ≤ n → a + n ≤ Z.of_nat (length bs) →
  slice a n (splice (a + b) new bs) = splice b new (slice a n bs).
Proof.
  intros. apply list_eq. intros i. rewrite slice_lookup, !splice_lookup by (rewrite ?slice_length by lia; lia).
  rewrite slice_lookup by lia. repeat case_decide; first [done|lia|f_equal; lia].
Qed.
End slices.

(** ** The data of an inode *)

(** The extent of an inode lies on the device. *)
Record extent_ok (s : fs) (d : inode_disk) : Prop := {
  e_start : 0 ≤ start d;
  e_length : 0 ≤ length_ d ≤ 2^31 - 512;
  e_fits : start d + (length_ d + 511) / 512 ≤ dev_size s;
  e_disk : Z.of_nat (length (disk s)) = 512 * dev_size s;
  e_size : dev_size s < 2^32;
}.

(** The bytes of the file. *)
Definition content (s : fs) (d : inode_disk) : list Z := slice (512 * start d) (length_ d) (disk s).

Section data.
Implicit Types (s : fs) (ino : inode) (size offset : Z).

Lemma content_length s d : extent_ok s d → Z.of_nat (length (content s d)) = length_ d.
Proof. intros [? ? ? Hd ?]. unfold content. rewrite slice_length; lia || dlia. Qed.

Lemma chunk_eq s ino size offset :
  extent_ok s (data ino) → 0 ≤ offset < 2^31 → size > 0 →
  chunk ino size offset = Z.min size (Z.min (length_ (data ino) - offset) (512 - offset `mod` 512)).
Proof.
  intros [? ? ? ? ?] Ho Hs. unfold chunk, inode_length, BLOCK_SECTOR_SIZE.
  rewrite s32_id by (unfold in_s32; lia). rewrite Z.rem_mod_nonneg by lia.
  repeat case_decide; lia.
Qed.

(** The sector that holds byte [offset], as a position on the device. *)
Lemma byte_to_sector_eq s ino offset :
  extent_ok s (data ino) → 0 ≤ offset < length_ (data ino) →
  byte_to_sector ino offset = start (data ino) + offset / 512 ∧
  0 ≤ byte_to_sector ino offset < dev_size s ∧
  512 * byte_to_sector ino offset + offset `mod` 512 = 512 * start (data ino) + offset.
Proof.
  intros [? ? ? ? ?] Ho. unfold byte_to_sector, BLOCK_SECTOR_SIZE. rewrite decide_True by lia.
  rewrite Z.quot_div_nonneg by lia.
  assert (0 ≤ start (data ino) + offset / 512 < dev_size s) by dlia.
  rewrite u32_id by (unfold in_u32; lia). split; [done|]. split; [done|]. dlia.
Qed.

Lemma block_read_ok s sec :
  0 ≤ sec < dev_size s → block_read sec s = Ok (slice (512 * sec) 512 (disk s), s).
Proof.
  intros. unfold block_read, check_sector. st_unfold. by rewrite bool_decide_true by lia.
Qed.

Lemma block_write_ok s sec bs :
  0 ≤ sec < dev_size s → block_write sec bs s = Ok ((), set_disk (splice (512 * sec) bs (disk s)) s).
Proof.
  intros. unfold block_write, check_sector. st_unfold. by rewrite bool_decide_true by lia.
Qed.

Lemma malloc_ok_true s : oom s = [] → malloc_ok s = Ok (true, s).
Proof. intros H. unfold malloc_ok. st_unfold. by rewrite H. Qed.

Lemma copy_out_ok ofs n bs s :
  0 ≤ ofs → 0 ≤ n → ofs + n ≤ Z.of_nat (length bs) → copy_out ofs n bs s = Ok (slice ofs n bs, s).
Proof. intros. unfold copy_out. by rewrite decide_True by lia. Qed.

Lemma copy_in_ok ofs new bs s :
  0 ≤ ofs → ofs + Z.of_nat (length new) ≤ Z.of_nat (length bs) → copy_in ofs new bs s = Ok (splice ofs new bs, s).
Proof. intros. unfold copy_in. by rewrite decide_True by lia. Qed.

(** A chunk of the file is a part of one sector. *)
Lemma sector_piece s ino offset c :
  extent_ok s (data ino) → 0 ≤ offset < length_ (data ino) → 0 ≤ c → c ≤ length_ (data ino) - offset →
  offset `mod` 512 + c ≤ 512 →
  slice (offset `mod` 512) c (slice (512 * byte_to_sector ino offset) 512 (disk s)) = slice offset c (content s (data ino)).
Proof.
  intros He Ho Hc Hl Hm. destruct (byte_to_sector_eq s ino offset He Ho) as (_ & Hr & E).
  pose proof (Z.mod_pos_bound offset 512 ltac:(lia)). unfold content.
  rewrite !slice_slice by (destruct He; lia). rewrite E. f_equal. lia.
Qed.

(** Reading returns the part of the file from [offset] on, at most [size]
    bytes of it, and changes nothing. *)
Lemma read_loop_ok n s ino size offset bounce out :
  extent_ok s (data ino) → oom s = [] → 0 ≤ offset < 2^31 → size ≤ Z.of_nat n →
  read_loop n ino size offset bounce out s = Ok (out ++ slice offset size (content s (data ino)), s).
Proof.
  intros He Hm. revert size offset bounce out. induction n as [|n IH]; intros size offset bounce out Ho Hn; simpl;
    (destruct (decide (size > 0)) as [Hs|Hs]; [|unfold slice; rewrite Z2Nat.nonpos by lia; by rewrite app_nil_r]); [lia|].
  rewrite (chunk_eq s) by done. rewrite Z.rem_mod_nonneg by (unfold BLOCK_SECTOR_SIZE; lia).
  change BLOCK_SECTOR_SIZE with 512. set (c := Z.min size _).
  pose proof (Z.mod_pos_bound offset 512 ltac:(lia)). pose proof (content_length s _ He) as Hcl.
  destruct (decide (c ≤ 0)) as [Hc|Hc].
  { assert (slice offset size (content s (data ino)) = []) as ->; [|by rewrite app_nil_r].
    unfold slice. rewrite drop_ge; [by rewrite take_nil|]. lia. }
  destruct (byte_to_sector_eq s ino offset He) as (_ & Hr & E); [lia|].
  assert (∀ b, read_loop n ino (size - c) (offset + c) b (out ++ slice offset c (content s (data ino))) s =
    Ok (out ++ slice offset size (content s (data ino)), s)) as Hrec.
  { intros b. rewrite IH by (destruct He; lia). rewrite <- app_assoc, slice_app by lia.
    by replace (c + Z.max 0 (size - c)) with size by lia. }
  rewrite <- (sector_piece s) in Hrec by (done || lia).
  destruct (decide (offset `mod` 512 = 0 ∧ c = 512)) as [[E0 Ec]|_].
  - erewrite st_bind_ok by by apply block_read_ok. rewrite <- (Hrec bounce). rewrite E0, Ec.
    by rewrite slice_slice, Z.min_l, Z.add_0_r by lia.
  - rewrite (st_bind_ok _ _ s true s) by (destruct bounce; [done|by apply malloc_ok_true]). cbn [negb].
    erewrite st_bind_ok by by apply block_read_ok.
    erewrite st_bind_ok by (apply copy_out_ok; rewrite ?slice_length by (destruct He; lia); lia). apply Hrec.
Qed.

Lemma extent_set_disk s d bs :
  extent_ok s d → length bs = length (disk s) → extent_ok (set_disk bs s) d.
Proof. intros [? ? ? ? ?] E. split; simpl; try done. by rewrite E. Qed.

(** One iteration of inode_write_at writes [c] bytes of the buffer at
    [offset]. *)
Lemma write_chunk s ino buffer offset written bounce c :
  extent_ok s (data ino) → oom s = [] → 0 ≤ offset < length_ (data ino) → 0 < c →
  c ≤ length_ (data ino) - offset → offset `mod` 512 + c ≤ 512 →
  0 ≤ written → written + c ≤ Z.of_nat (length buffer) → ∀ (k : bool → FM Z),
  (if decide (offset `mod` 512 = 0 ∧ c = 512) then
     piece ← copy_out written c buffer; block_write (byte_to_sector ino offset) piece;; k bounce
   else
     ok ← (if bounce then mret true else malloc_ok);
     if negb ok : bool then mret written else
     old ← (if decide (offset `mod` 512 > 0 ∨ c < 512 - offset `mod` 512) then block_read (byte_to_sector ino offset)
            else mret (replicate (Z.to_nat 512) 0));
     piece ← copy_out written c buffer;
     new ← copy_in (offset `mod` 512) piece old;
     block_write (byte_to_sector ino offset) new;; k true) s =
  k (if decide (offset `mod` 512 = 0 ∧ c = 512) then bounce else true)
    (set_disk (splice (512 * start (data ino) + offset) (slice written c buffer) (disk s)) s).
Proof.
  intros He Hm Ho Hc Hl Hmod Hw Hb k. destruct (byte_to_sector_eq s ino offset He Ho) as (_ & Hr & E).
  pose proof (Z.mod_pos_bound offset 512 ltac:(lia)).
  assert (length (slice written c buffer) = Z.to_nat c) as Hlen by (apply slice_length; lia).
  case_decide as Hd.
  - erewrite st_bind_ok by (apply copy_out_ok; lia). erewrite st_bind_ok by by apply block_write_ok.
    do 3 f_equal. lia.
  - rewrite (st_bind_ok _ _ s true s) by (destruct bounce; [done|by apply malloc_ok_true]). cbn [negb].
    rewrite decide_True by lia. erewrite st_bind_ok by by apply block_read_ok.
    erewrite st_bind_ok by (apply copy_out_ok; lia).
    erewrite st_bind_ok by (apply copy_in_ok; rewrite ?Hlen, ?slice_length by (destruct He; lia); lia).
    erewrite st_bind_ok by by apply block_write_ok.
    rewrite splice_sector by (rewrite ?Hlen; destruct He; lia). by rewrite E.
Qed.

(** Writing updates the part of the file from [offset] on, as far as the
    file and the buffer reach. *)
Lemma write_loop_ok n s ino buffer size offset written bounce :
  extent_ok s (data ino) → oom s = [] → 0 ≤ offset < 2^31 → size ≤ Z.of_nat n →
  0 ≤ written → written + Z.max 0 size ≤ Z.of_nat (length buffer) →
  let w := Z.max 0 (Z.min size (length_ (data ino) - offset)) in
  write_loop n ino buffer size offset written bounce s =
    Ok (written + w, set_disk (splice (512 * start (data ino) + offset) (slice written w buffer) (disk s)) s).
Proof.
  revert s size offset written bounce. induction n as [|n IH]; intros s size offset written bounce He Hm Ho Hn Hw Hb w; simpl;
    (destruct (decide (size > 0)) as [Hs|Hs];
     [|unfold w, slice; rewrite Z.max_l, Z.add_0_r by lia; rewrite splice_nil; by destruct s]); [lia|].
  rewrite (chunk_eq s) by done. rewrite Z.rem_mod_nonneg by (unfold BLOCK_SECTOR_SIZE; lia).
  change BLOCK_SECTOR_SIZE with 512. set (c := Z.min size _).
  pose proof (Z.mod_pos_bound offset 512 ltac:(lia)).
  destruct (decide (c ≤ 0)) as [Hc|Hc].
  { assert (w = 0) as -> by lia. rewrite Z.add_0_r. unfold slice. simpl. rewrite splice_nil. by destruct s. }
  rewrite (write_chunk s ino buffer offset written bounce c) by (done || lia).
  set (b' := if decide _ then _ else _).
  assert (length (slice written c buffer) = Z.to_nat c) as Hlen by (apply slice_length; lia).
  set (p := 512 * start (data ino) + offset).
  assert (0 ≤ p ∧ p + c ≤ Z.of_nat (length (disk s))) as [Hp0 Hp] by (unfold p; destruct He; dlia).
  rewrite IH; [|apply extent_set_disk; [done|apply splice_length; lia]|done|destruct He; lia|lia..].
  set (w' := Z.max 0 _). assert (w = c + w') as -> by lia. rewrite <- Z.add_assoc. do 2 f_equal. simpl.
  replace (512 * start (data ino) + (offset + c)) with (p + Z.of_nat (length (slice written c buffer))) by (rewrite Hlen; lia).
  rewrite splice_app by lia. rewrite slice_app by lia. rewrite Z.max_r by lia. done.
Qed.
End data.
