(* ===== verification/FileSys.v ===== *)
(** * filesys/free-map.c, file.c, directory.c and filesys.c

    The free map with its copy on disk, creation and closing of inodes, open
    files, directories and the operations on names.  A directory's file is an
    array of 20-byte entries; uninitialised stack memory is an argument. *)

From S2P Require Import Prelude Bitmap Inode.

Local Open Scope Z_scope.

Definition FREE_MAP_SECTOR : Z := 0.
Definition ROOT_DIR_SECTOR : Z := 1.

(** ** filesys/file.c *)

Definition get_file (f : Z) : FM file := s ← st_get; st_opt EFault (files s !! f).
Definition put_file (f : Z) (v : file) : FM () := st_modify (λ s, set_files (<[f := v]> (files s)) s).

Definition file_write_at (f : Z) (buffer : list Z) (size ofs : Z) : FM Z :=
  fl ← get_file f; inode_write_at (file_inode fl) buffer size ofs.

Definition file_read_at (f size ofs : Z) : FM (list Z) :=
  fl ← get_file f; inode_read_at (file_inode fl) size ofs.

(** ** lib/kernel/bitmap.c: reading and writing a bitmap's file *)

Definition bitmap_write (b : bitmap) (f : Z) : FM bool :=
  let size := byte_cnt (bit_cnt b) in
  n ← file_write_at f (elems_to_bytes (bits b)) size 0;
  mret (bool_decide (n = size)).

Definition of_res {A} (r : res A) : FM A := λ s, match r with Ok a => Ok (a, s) | Err e => Err e end.

(** The words of [b] after [bs] has been read over their first bytes. *)
Definition overlay (bs : list Z) (b : bitmap) : bitmap :=
  Bitmap (bit_cnt b) (bytes_to_elems (length (bits b)) (splice 0 bs (elems_to_bytes (bits b)))).

Definition bitmap_read (b : bitmap) (f : Z) : FM (bool * bitmap) :=
  if decide (bit_cnt b > 0) then
    let size := byte_cnt (bit_cnt b) in
    bs ← file_read_at f size 0;
    b' ← of_res (mask_last (overlay bs b));
    mret (bool_decide (Z.of_nat (length bs) = size), b')
  else mret (true, b).

(** ** filesys/free-map.c *)

(** [elems] is what malloc returned for the bitmap's words. *)
Definition free_map_init (elems : list Z) : FM () :=
  s ← st_get;
  b ← of_res (bitmap_create true (Some elems) (dev_size s));
  match b with
  | None => st_fail EPanic
  | Some b =>
      b ← of_res (bitmap_mark b FREE_MAP_SECTOR);
      b ← of_res (bitmap_mark b ROOT_DIR_SECTOR);
      st_modify (set_free_map b)
  end.

Definition free_map_allocate (cnt : Z) : FM (option Z) :=
  s ← st_get;
  r ← of_res (bitmap_scan_and_flip (free_map s) 0 cnt false);
  let '(sec, b) := r in
  st_modify (set_free_map b);;
  failed ← (if decide (sec ≠ BITMAP_ERROR ∧ free_map_file s ≠ NULL)
            then ok ← bitmap_write b (free_map_file s); mret (negb ok) else mret false);
  sec ← (if failed : bool then
           b' ← of_res (bitmap_set_multiple b sec cnt false); st_modify (set_free_map b');; mret BITMAP_ERROR
         else mret sec);
  mret (if decide (sec ≠ BITMAP_ERROR) then Some sec else None).

Definition free_map_release (sec cnt : Z) : FM () :=
  s ← st_get;
  all ← of_res (bitmap_all (free_map s) sec cnt);
  ASSERT all;;
  b ← of_res (bitmap_set_multiple (free_map s) sec cnt false);
  st_modify (set_free_map b);;
  bitmap_write b (free_map_file s);;
  mret ().

(** ** filesys/inode.c: creation and closing *)

(** The zeros written after the inode, [n] sectors left. *)
Fixpoint zero_sectors (n : nat) (sec : Z) : FM () :=
  match n with
  | O => mret ()
  | S n => block_write (u32 sec) (replicate 512 0);; zero_sectors n (sec + 1)
  end.

Definition inode_create (sec len : Z) : FM bool :=
  ASSERT (bool_decide (len >= 0));;
  ok ← malloc_ok;
  if negb ok : bool then mret false else
  let sectors := bytes_to_sectors len in
  a ← free_map_allocate sectors;
  match a with
  | None => mret false
  | Some st =>
      block_write sec (encode_inode (InodeDisk st len INODE_MAGIC));;
      zero_sectors (Z.to_nat sectors) st;;
      mret true
  end.

Definition inode_close (i : Z) : FM () :=
  if decide (i = NULL) then mret () else
  ino ← get_inode i;
  let n := s32 (open_cnt ino - 1) in
  put_inode i (Inode (sector ino) n (removed ino) (deny_write_cnt ino) (data ino));;
  if decide (n = 0) then
    st_modify (λ s, set_open_inodes (filter (.≠ i) (open_inodes s)) s);;
    (if removed ino then
       free_map_release (sector ino) 1;;
       free_map_release (start (data ino)) (bytes_to_sectors (length_ (data ino)))
     else mret ());;
    st_modify (λ s, set_inodes (delete i (inodes s)) s)
  else mret ().

(** ** filesys/file.c *)

Definition file_open (i : Z) : FM Z :=
  f ← malloc;
  if decide (i ≠ NULL ∧ f ≠ NULL) then put_file f (File i 0 false);; mret f
  else inode_close i;; mret NULL.

Definition file_reopen (f : Z) : FM Z :=
  fl ← get_file f; i ← inode_reopen (file_inode fl); file_open i.

Definition file_allow_write (f : Z) : FM () :=
  ASSERT (bool_decide (f ≠ NULL));;
  fl ← get_file f;
  if deny_write fl then
    put_file f (File (file_inode fl) (file_pos fl) false);; inode_allow_write (file_inode fl)
  else mret ().

Definition file_deny_write (f : Z) : FM () :=
  ASSERT (bool_decide (f ≠ NULL));;
  fl ← get_file f;
  if deny_write fl then mret ()
  else put_file f (File (file_inode fl) (file_pos fl) true);; inode_deny_write (file_inode fl).

Definition file_close (f : Z) : FM () :=
  if decide (f = NULL) then mret () else
  file_allow_write f;;
  fl ← get_file f;
  inode_close (file_inode fl);;
  st_modify (λ s, set_files (delete f (files s)) s).

Definition file_get_inode (f : Z) : FM Z := fl ← get_file f; mret (file_inode fl).

Definition file_read (f size : Z) : FM (list Z) :=
  fl ← get_file f;
  bs ← inode_read_at (file_inode fl) size (file_pos fl);
  put_file f (File (file_inode fl) (s32 (file_pos fl + Z.of_nat (length bs))) (deny_write fl));;
  mret bs.

Definition file_write (f : Z) (buffer : list Z) (size : Z) : FM Z :=
  fl ← get_file f;
  n ← inode_write_at (file_inode fl) buffer size (file_pos fl);
  put_file f (File (file_inode fl) (s32 (file_pos fl + n)) (deny_write fl));;
  mret n.

Definition file_length (f : Z) : FM Z :=
  ASSERT (bool_decide (f ≠ NULL));; fl ← get_file f; ino ← get_inode (file_inode fl); mret (inode_length ino).

Definition file_seek (f new_pos : Z) : FM () :=
  ASSERT (bool_decide (f ≠ NULL));;
  ASSERT (bool_decide (new_pos >= 0));;
  fl ← get_file f;
  put_file f (File (file_inode fl) new_pos (deny_write fl)).

Definition file_tell (f : Z) : FM Z :=
  ASSERT (bool_decide (f ≠ NULL));; fl ← get_file f; mret (file_pos fl).

Definition free_map_open : FM () :=
  i ← inode_open FREE_MAP_SECTOR;
  f ← file_open i;
  st_modify (set_free_map_file f);;
  if decide (f = NULL) then st_fail EPanic else
  s ← st_get;
  r ← bitmap_read (free_map s) f;
  st_modify (set_free_map r.2);;
  ASSERT r.1.

Definition free_map_close : FM () := s ← st_get; file_close (free_map_file s).

Definition free_map_create : FM () :=
  s ← st_get;
  ok ← inode_create FREE_MAP_SECTOR (s32 (bitmap_file_size (free_map s)));
  ASSERT ok;;
  i ← inode_open FREE_MAP_SECTOR;
  f ← file_open i;
  st_modify (set_free_map_file f);;
  if decide (f = NULL) then st_fail EPanic else
  s ← st_get;
  ok ← bitmap_write (free_map s) f;
  ASSERT ok.

(** ** filesys/directory.c *)

Definition NAME_MAX : Z := 14.

(** sizeof (struct dir_entry), and its fields in an entry's bytes. *)
Definition ENTRY_SIZE : Z := 20.
Definition entry_sector (e : list Z) : Z := le_word (slice 0 4 e).
Definition entry_in_use (e : list Z) : bool := bool_decide (slice 19 1 e ≠ [0]).

(** A C string in a buffer. *)
Fixpoint cstr (bs : list Z) : list Z :=
  match bs with [] => [] | b :: bs => if decide (b = 0) then [] else b :: cstr bs end.
Definition entry_name (e : list Z) : list Z := cstr (slice 4 15 e).

(** strlcpy (e.name, name, sizeof e.name): what follows the terminator stays. *)
Definition set_name (name e : list Z) : list Z := splice 4 (take 14 name ++ [0]) e.

Definition get_dir (d : Z) : FM dir := s ← st_get; st_opt EFault (dirs s !! d).
Definition put_dir (d : Z) (v : dir) : FM () := st_modify (λ s, set_dirs (<[d := v]> (dirs s)) s).

Definition dir_create (sec entry_cnt : Z) : FM bool := inode_create sec (s32 (entry_cnt * ENTRY_SIZE)).

Definition dir_open (i : Z) : FM Z :=
  d ← malloc;
  if decide (i ≠ NULL ∧ d ≠ NULL) then put_dir d (Dir i 0);; mret d
  else inode_close i;; mret NULL.

Definition dir_open_root : FM Z := i ← inode_open ROOT_DIR_SECTOR; dir_open i.

Definition dir_reopen (d : Z) : FM Z := dr ← get_dir d; i ← inode_reopen (dir_inode dr); dir_open i.

Definition dir_close (d : Z) : FM () :=
  if decide (d = NULL) then mret () else
  dr ← get_dir d;
  inode_close (dir_inode dr);;
  st_modify (λ s, set_dirs (delete d (dirs s)) s).

Definition dir_get_inode (d : Z) : FM Z := dr ← get_dir d; mret (dir_inode dr).

(** The iterations an entry loop can make: one more than the entries. *)
Definition entry_fuel (i : Z) : FM nat := ino ← get_inode i; mret (S (Z.to_nat (inode_length ino))).

(** The [for] of lookup from offset [ofs]. *)
Fixpoint lookup_loop (n : nat) (i : Z) (name : list Z) (ofs : Z) : FM (option (list Z * Z)) :=
  match n with
  | O => st_fail EFuel
  | S n =>
      e ← inode_read_at i ENTRY_SIZE (s32 ofs);
      if decide (Z.of_nat (length e) = ENTRY_SIZE) then
        if entry_in_use e && bool_decide (name = entry_name e) then mret (Some (e, ofs))
        else lookup_loop n i name (u32 (ofs + ENTRY_SIZE))
      else mret None
  end.

Definition lookup (d : Z) (name : list Z) : FM (option (list Z * Z)) :=
  ASSERT (bool_decide (d ≠ NULL));;
  dr ← get_dir d;
  n ← entry_fuel (dir_inode dr);
  lookup_loop n (dir_inode dr) name 0.

(** The inode found, or NULL. *)
Definition dir_lookup (d : Z) (name : list Z) : FM Z :=
  r ← lookup d name;
  match r with Some (e, _) => inode_open (entry_sector e) | None => mret NULL end.

(** The search for a free slot: its offset, and the entry buffer, [e] before. *)
Fixpoint free_slot_loop (n : nat) (i ofs : Z) (e : list Z) : FM (Z * list Z) :=
  match n with
  | O => st_fail EFuel
  | S n =>
      bs ← inode_read_at i ENTRY_SIZE ofs;
      let e := splice 0 bs e in
      if decide (Z.of_nat (length bs) = ENTRY_SIZE) then
        if entry_in_use e then free_slot_loop n i (s32 (ofs + ENTRY_SIZE)) e else mret (ofs, e)
      else mret (ofs, e)
  end.

(** [stale] is the uninitialised entry [e]. *)
Definition dir_add (stale : list Z) (d : Z) (name : list Z) (inode_sector : Z) : FM bool :=
  ASSERT (bool_decide (d ≠ NULL));;
  if decide (name = [] ∨ Z.of_nat (length name) > NAME_MAX) then mret false else
  r ← lookup d name;
  match r with
  | Some _ => mret false
  | None =>
      dr ← get_dir d;
      n ← entry_fuel (dir_inode dr);
      p ← free_slot_loop n (dir_inode dr) 0 stale;
      let '(ofs, e) := p in
      let e := splice 19 [1] e in
      let e := set_name name e in
      let e := splice 0 (le_bytes 4 inode_sector) e in
      w ← inode_write_at (dir_inode dr) e ENTRY_SIZE ofs;
      mret (bool_decide (w = ENTRY_SIZE))
  end.

Definition dir_remove (d : Z) (name : list Z) : FM bool :=
  ASSERT (bool_decide (d ≠ NULL));;
  r ← lookup d name;
  match r with
  | None => inode_close NULL;; mret false
  | Some (e, ofs) =>
      i ← inode_open (entry_sector e);
      if decide (i = NULL) then inode_close i;; mret false else
      dr ← get_dir d;
      w ← inode_write_at (dir_inode dr) (splice 19 [0] e) ENTRY_SIZE (s32 ofs);
      if decide (w ≠ ENTRY_SIZE) then inode_close i;; mret false else
      inode_remove i;;
      inode_close i;;
      mret true
  end.

(** The [while] of dir_readdir: the name of the next entry in use. *)
Fixpoint readdir_loop (n : nat) (d : Z) : FM (option (list Z)) :=
  match n with
  | O => st_fail EFuel
  | S n =>
      dr ← get_dir d;
      e ← inode_read_at (dir_inode dr) ENTRY_SIZE (dir_pos dr);
      if decide (Z.of_nat (length e) = ENTRY_SIZE) then
        put_dir d (Dir (dir_inode dr) (s32 (dir_pos dr + ENTRY_SIZE)));;
        if entry_in_use e then mret (Some (take 14 (entry_name e))) else readdir_loop n d
      else mret None
  end.

Definition dir_readdir (d : Z) : FM (option (list Z)) :=
  dr ← get_dir d; n ← entry_fuel (dir_inode dr); readdir_loop n d.

(** ** filesys/fsutil.c: listing the root directory *)

(** The [while] of fsutil_ls: the names printed after [out]. *)
Fixpoint ls_loop (n : nat) (d : Z) (out : list (list Z)) : FM (list (list Z)) :=
  match n with
  | O => st_fail EFuel
  | S n => r ← dir_readdir d; match r with Some name => ls_loop n d (out ++ [name]) | None => mret out end
  end.

(** The lines between the first and the last. *)
Definition fsutil_ls : FM (list (list Z)) :=
  d ← dir_open_root;
  if decide (d = NULL) then st_fail EPanic else
  dr ← get_dir d;
  n ← entry_fuel (dir_inode dr);
  out ← ls_loop n d [];
  dir_close d;;
  mret out.

(** ** filesys/filesys.c *)

Definition filesys_create (stale name : list Z) (initial_size : Z) : FM bool :=
  d ← dir_open_root;
  r ← (if decide (d = NULL) then mret (false, 0) else
       a ← free_map_allocate 1;
       match a with
       | None => mret (false, 0)
       | Some sec =>
           ok ← inode_create sec initial_size;
           if ok : bool then ok ← dir_add stale d name sec; mret (ok, sec) else mret (false, sec)
       end);
  let '(success, inode_sector) := r in
  (if decide (success = false ∧ inode_sector ≠ 0) then free_map_release inode_sector 1 else mret ());;
  dir_close d;;
  mret success.

Definition filesys_open (name : list Z) : FM Z :=
  d ← dir_open_root;
  i ← (if decide (d = NULL) then mret NULL else dir_lookup d name);
  dir_close d;;
  file_open i.

Definition filesys_remove (name : list Z) : FM bool :=
  d ← dir_open_root;
  success ← (if decide (d = NULL) then mret false else dir_remove d name);
  dir_close d;;
  mret success.

Definition do_format : FM () :=
  free_map_create;;
  ok ← dir_create ROOT_DIR_SECTOR 16;
  ASSERT ok;;
  free_map_close.

(** [fs_device] is the device of the state; [elems] as for free_map_init. *)
Definition filesys_init (elems : list Z) (format : bool) : FM () :=
  st_modify (set_open_inodes []);;
  free_map_init elems;;
  (if format then do_format else mret ());;
  free_map_open.

Definition filesys_done : FM () := free_map_close.

(** A device of [n] sectors of zeros before filesys_init. *)
Definition blank (n : Z) : fs :=
  Fs (replicate (Z.to_nat (512 * n)) 0) n ∅ [] ∅ ∅ (Bitmap 0 []) NULL 1 [].
