(* ===== verification/FileSpec.v ===== *)
(** * Free map, inode creation and closing

    The free map in memory, its copy in the free-map file, and the sectors that
    inode_create and inode_close take and give back.  [fm_ok] is the invariant
    of the free map: it is proved to survive every operation that changes it. *)

From S2P Require Import Prelude Bitmap Inode FileSys.

Local Open Scope Z_scope.

(** The number of sectors of an extent. *)
Definition sectors (d : inode_disk) : Z := (length_ d + 511) / 512.

(** The free map has a bit per sector, and the free-map file, open and
    writable, holds its words; the sectors of the file are in use. *)
Record fm_ok (s : fs) (ino : inode) : Prop := {
  fm_wf : wf (free_map s);
  fm_cnt : bit_cnt (free_map s) = dev_size s;
  fm_len : Z.of_nat (length (bits (free_map s))) = elem_cnt (dev_size s);
  fm_file : ∃ fl, files s !! free_map_file s = Some fl ∧ inodes s !! file_inode fl = Some ino;
  fm_open : free_map_file s ≠ NULL;
  fm_allow : deny_write_cnt ino = 0;
  fm_size : length_ (data ino) = byte_cnt (dev_size s);
  fm_extent : extent_ok s (data ino);
  fm_used : all_bits (free_map s) (start (data ino)) (sectors (data ino)) true;
  fm_saved : content s (data ino) = elems_to_bytes (bits (free_map s));
}.

(** A new free map, in memory and on disk. *)
Definition save (b : bitmap) (ino : inode) (s : fs) : fs :=
  set_disk (splice (512 * start (data ino)) (elems_to_bytes (bits b)) (disk s)) (set_free_map b s).

Section inode_io.
Implicit Types (s : fs) (ino : inode).

Lemma get_inode_ok s i ino : inodes s !! i = Some ino → get_inode i s = Ok (ino, s).
Proof. intros H. unfold get_inode. st_unfold. by rewrite H. Qed.

Lemma get_file_ok s f fl : files s !! f = Some fl → get_file f s = Ok (fl, s).
Proof. intros H. unfold get_file. st_unfold. by rewrite H. Qed.

Lemma inode_read_at_ok s i ino size offset :
  inodes s !! i = Some ino → extent_ok s (data ino) → oom s = [] → 0 ≤ offset < 2^31 →
  inode_read_at i size offset s = Ok (slice offset size (content s (data ino)), s).
Proof.
  intros Hi He Hm Ho. unfold inode_read_at. erewrite st_bind_ok by by apply get_inode_ok.
  rewrite read_loop_ok by (done || lia). done.
Qed.

(** The bytes that a write of [size] bytes at [offset] transfers. *)
Definition room ino size offset : Z := Z.max 0 (Z.min size (length_ (data ino) - offset)).

Lemma inode_write_at_ok s i ino buffer size offset :
  inodes s !! i = Some ino → extent_ok s (data ino) → oom s = [] → deny_write_cnt ino = 0 →
  0 ≤ offset < 2^31 → size ≤ Z.of_nat (length buffer) →
  inode_write_at i buffer size offset s =
    Ok (room ino size offset,
        set_disk (splice (512 * start (data ino) + offset) (slice 0 (room ino size offset) buffer) (disk s)) s).
Proof.
  intros Hi He Hm Hd Ho Hb. unfold inode_write_at. erewrite st_bind_ok by by apply get_inode_ok.
  rewrite decide_False by (rewrite Hd; intros []; done). rewrite write_loop_ok by (done || lia). done.
Qed.

(** Seen through the file. *)
Lemma content_write s d new offset :
  extent_ok s d → 0 ≤ offset → offset + Z.of_nat (length new) ≤ length_ d →
  content (set_disk (splice (512 * start d + offset) new (disk s)) s) d = splice offset new (content s d).
Proof. intros [? ? ? Hd ?] ??. unfold content. simpl. apply slice_splice_in; dlia. Qed.

(** Writes to one extent do not show in another. *)
Lemma content_other s d d2 new offset :
  extent_ok s d → extent_ok s d2 → 0 ≤ offset → offset + Z.of_nat (length new) ≤ length_ d →
  start d + sectors d ≤ start d2 ∨ start d2 + sectors d2 ≤ start d →
  content (set_disk (splice (512 * start d + offset) new (disk s)) s) d2 = content s d2.
Proof.
  unfold sectors. intros [? ? ? Hd ?] [? ? ? _ _] ???. unfold content. simpl.
  apply slice_splice_other; dlia.
Qed.

Lemma room_bounds ino size offset :
  0 ≤ room ino size offset ∧ room ino size offset ≤ Z.max 0 size ∧
  offset + room ino size offset ≤ Z.max offset (length_ (data ino)).
Proof. unfold room. lia. Qed.
End inode_io.

(** ** The free map and its file *)
Section free_map.
Implicit Types (s : fs) (ino : inode) (b : bitmap).

Lemma set_elem_len b idx w : length (bits (set_elem b idx w)) = length (bits b).
Proof. apply length_insert. Qed.

Lemma bitmap_set_len b i v b' : bitmap_set b i v = Ok b' → length (bits b') = length (bits b).
Proof.
  unfold bitmap_set, bitmap_mark, bitmap_reset. intros (? & _ & H)%res_bind_inv.
  destruct v; apply res_bind_inv in H as (w & _ & [= <-]); apply set_elem_len.
Qed.

Lemma set_loop_len n b start i v b' : set_loop n b start i v = Ok b' → length (bits b') = length (bits b).
Proof.
  revert b i. induction n as [|n IH]; intros b i; simpl; [by intros [= ->]|].
  intros (b1 & E%bitmap_set_len & ->%IH)%res_bind_inv. done.
Qed.

Lemma bitmap_set_multiple_len b start cnt v b' :
  bitmap_set_multiple b start cnt v = Ok b' → length (bits b') = length (bits b).
Proof.
  unfold bitmap_set_multiple. intros (? & _ & (? & _ & ?%set_loop_len)%res_bind_inv)%res_bind_inv. done.
Qed.

Lemma bitmap_scan_and_flip_len b start cnt v r b' :
  bitmap_scan_and_flip b start cnt v = Ok (r, b') → length (bits b') = length (bits b).
Proof.
  unfold bitmap_scan_and_flip. intros (idx & _ & H)%res_bind_inv. case_decide; [|by injection H as <- <-].
  apply res_bind_inv in H as (b1 & ?%bitmap_set_multiple_len & [= <- <-]). done.
Qed.

Lemma elems_bytes_size n ws :
  0 ≤ n ≤ 2^32 - 32 → Z.of_nat (length ws) = elem_cnt n → Z.of_nat (length (elems_to_bytes ws)) = byte_cnt n.
Proof.
  intros Hn H. rewrite length_elems_to_bytes, Nat2Z.inj_mul, H, elem_cnt_eq, byte_cnt_eq by done. done.
Qed.

Lemma fm_dev s ino : fm_ok s ino → 0 ≤ dev_size s ≤ 2^32 - 32.
Proof. intros [[Hc _ _] E _ _ _ _ _ _ _ _]. by rewrite E in Hc. Qed.

Lemma bitmap_write_ok s ino b :
  fm_ok s ino → oom s = [] → bit_cnt b = dev_size s → Z.of_nat (length (bits b)) = elem_cnt (dev_size s) →
  bitmap_write b (free_map_file s) (set_free_map b s) = Ok (true, save b ino s).
Proof.
  intros Hf Hm Hc Hl. pose proof (fm_dev _ _ Hf) as Hd. pose proof (elems_bytes_size _ _ Hd Hl) as Hs.
  destruct Hf as [_ _ _ (fl & Hfl & Hi) _ Ha Hz He _ _].
  unfold bitmap_write, file_write_at. rewrite Hc. st_unfold. rewrite (get_file_ok (set_free_map b s) _ fl Hfl).
  assert (extent_ok (set_free_map b s) (data ino)) by (by destruct He).
  rewrite (inode_write_at_ok _ _ ino) by (done || lia).
  unfold room. rewrite Hz, Z.sub_0_r, Z.min_id, Z.max_r by lia.
  rewrite bool_decide_true by done. unfold save. rewrite <- Hs, slice_all, Z.add_0_r. by destruct s.
Qed.

(** Saving a map that keeps the file's sectors keeps the invariant. *)
Lemma fm_save s ino b :
  fm_ok s ino → wf b → bit_cnt b = dev_size s → Z.of_nat (length (bits b)) = elem_cnt (dev_size s) →
  all_bits b (start (data ino)) (sectors (data ino)) true → fm_ok (save b ino s) ino.
Proof.
  intros Hf Hwf Hc Hl Hu. pose proof (fm_dev _ _ Hf) as Hd. pose proof (elems_bytes_size _ _ Hd Hl) as Hs.
  destruct Hf as [_ _ _ Hfl Ho Ha Hz He _ _].
  assert (512 * start (data ino) + length_ (data ino) ≤ Z.of_nat (length (disk s))) by (destruct He; dlia).
  split; try done.
  - unfold save. apply extent_set_disk; [by destruct He; split|]. simpl. rewrite splice_length by (destruct He; lia). done.
  - unfold save, content. simpl. rewrite Hz, <- Hs. apply slice_splice_same; destruct He; lia.
Qed.

Lemma set_free_map_id s : set_free_map (free_map s) s = s.
Proof. by destruct s. Qed.

(** Allocation is first fit, and what it returns is what it marks and
    saves. *)
Lemma free_map_allocate_ok s ino cnt :
  fm_ok s ino → oom s = [] → 0 ≤ cnt →
  (∃ sec b', free_map_allocate cnt s = Ok (Some sec, save b' ino s) ∧ fm_ok (save b' ino s) ino ∧
     0 ≤ sec ∧ sec + cnt ≤ dev_size s ∧ all_bits (free_map s) sec cnt false ∧
     (∀ k, 0 ≤ k < sec → ¬ all_bits (free_map s) k cnt false) ∧
     ∀ j, 0 ≤ j → bit_at b' j = if decide (sec ≤ j < sec + cnt) then true else bit_at (free_map s) j) ∨
  (free_map_allocate cnt s = Ok (None, s) ∧
     ∀ k, 0 ≤ k → k + cnt ≤ dev_size s → ¬ all_bits (free_map s) k cnt false).
Proof.
  intros Hf Hm Hc. pose proof (fm_dev _ _ Hf) as Hd. pose proof Hf as [Hwf E Hl _ Ho _ _ [He0 _ _ _ _] Hu _].
  unfold free_map_allocate, of_res. st_unfold.
  destruct (bitmap_scan_and_flip_ok (free_map s) 0 cnt false) as [(r & b' & Hs & Hwf' & E' & ? & ? & Hne & Hall & Hk & Hb)|[Hs Hk]];
    [done|lia|done| |]; rewrite Hs.
  - left. exists r, b'. rewrite decide_True by done. simpl.
    rewrite (bitmap_write_ok s ino) by (rewrite ?(bitmap_scan_and_flip_len _ _ _ _ _ _ Hs); done || congruence).
    simpl. rewrite decide_True by done. split_and!; try done; try lia.
    apply fm_save; try done; [congruence|by rewrite (bitmap_scan_and_flip_len _ _ _ _ _ _ Hs)|].
    intros j Hj. rewrite Hb by lia. case_decide; [done|by apply Hu].
  - right. rewrite E in Hk. split; [|done]. simpl. by rewrite set_free_map_id.
Qed.

Lemma free_map_release_ok s ino sec cnt :
  fm_ok s ino → oom s = [] → 0 ≤ sec → 0 ≤ cnt → sec + cnt ≤ dev_size s →
  all_bits (free_map s) sec cnt true →
  sec + cnt ≤ start (data ino) ∨ start (data ino) + sectors (data ino) ≤ sec →
  ∃ b', free_map_release sec cnt s = Ok ((), save b' ino s) ∧ fm_ok (save b' ino s) ino ∧
    ∀ j, 0 ≤ j → bit_at b' j = if decide (sec ≤ j < sec + cnt) then false else bit_at (free_map s) j.
Proof.
  intros Hf Hm Hs Hc Hr Hall Hdis. pose proof Hf as [Hwf E Hl _ _ _ _ [He0 _ _ _ _] Hu _].
  unfold free_map_release, of_res. st_unfold.
  destruct (bitmap_all_ok (free_map s) sec cnt) as (r & -> & Hr'); [done|lia..|].
  rewrite (proj2 Hr') by done.
  destruct (bitmap_set_multiple_ok (free_map s) sec cnt false) as (b' & Hb' & Hwf' & E' & Hb); [done|lia..|].
  rewrite Hb'. rewrite (bitmap_write_ok s ino) by (rewrite ?(bitmap_set_multiple_len _ _ _ _ _ Hb'); done || congruence).
  exists b'. split_and!; try done.
  apply fm_save; try done; [congruence|by rewrite (bitmap_set_multiple_len _ _ _ _ _ Hb')|].
  intros j Hj. rewrite Hb by lia. rewrite decide_False by lia. by apply Hu.
Qed.
End free_map.

(** ** Creating an inode *)

(** The state after inode_create with the new map [b]. *)
Definition created (b : bitmap) (ino : inode) (sec : Z) (d : inode_disk) (s : fs) : fs :=
  set_disk (splice (512 * start d) (replicate (Z.to_nat (512 * sectors d)) 0)
              (splice (512 * sec) (encode_inode d) (disk (save b ino s)))) (save b ino s).

(** Sectors [a, a + n) are in use, and are neither [sec] nor the free-map
    file's. *)
Record spared (s : fs) (ino : inode) (sec a n : Z) : Prop := {
  sp_nonneg : 0 ≤ a ∧ 0 ≤ n;
  sp_used : all_bits (free_map s) a n true;
  sp_sec : sec < a ∨ a + n ≤ sec;
  sp_fm : start (data ino) + sectors (data ino) ≤ a ∨ a + n ≤ start (data ino);
}.

Section create.
Implicit Types (s : fs) (ino : inode) (b : bitmap) (d : inode_disk).

Lemma encode_inode_length d : length (encode_inode d) = 512%nat.
Proof. unfold encode_inode. rewrite !length_app, !length_le_bytes, length_replicate. done. Qed.

Lemma slice_app_l a n (x y : list Z) :
  0 ≤ a → 0 ≤ n → a + n ≤ Z.of_nat (length x) → slice a n (x ++ y) = slice a n x.
Proof.
  intros. unfold slice. rewrite drop_app_le by lia. apply take_app_le. rewrite length_drop. lia.
Qed.

Lemma slice_app_r a n (x y : list Z) :
  Z.of_nat (length x) ≤ a → slice a n (x ++ y) = slice (a - Z.of_nat (length x)) n y.
Proof. intros. unfold slice. rewrite drop_app_ge by lia. do 2 f_equal. lia. Qed.

Lemma slice_full n (x : list Z) : Z.of_nat (length x) = n → slice 0 n x = x.
Proof. intros <-. apply slice_all. Qed.

(** The on-disk inode is read back as it was written. *)
Lemma decode_encode d :
  in_u32 (start d) → in_s32 (length_ d) → in_u32 (magic d) → decode_inode (encode_inode d) = d.
Proof.
  intros Hs Hl Hm. destruct d as [st len mg]. simpl in *. unfold decode_inode, encode_inode. cbn [start length_ magic].
  rewrite (slice_app_l 0) by (rewrite ?length_le_bytes; lia).
  do 2 rewrite (slice_app_r _ _ (le_bytes 4 st)) by (rewrite ?length_le_bytes; lia).
  rewrite (slice_app_l (4 - _)) by (rewrite ?length_le_bytes; lia).
  rewrite (slice_app_r _ _ (le_bytes 4 (u32 len))) by (rewrite ?length_le_bytes; lia).
  rewrite slice_app_l by (rewrite ?length_le_bytes; lia). rewrite !length_le_bytes.
  rewrite !slice_full, !(le_word_bytes 4) by (rewrite ?length_le_bytes; unfold in_u32 in *; pose proof (u32_range len) as []; lia).
  f_equal. unfold s32, u32. rewrite Z.add_mod_idemp_l by lia. by apply s32_id.
Qed.

(** [slice_splice_other] where one of the two may be empty. *)
Lemma slice_splice_off a m o (new bs : list Z) :
  0 ≤ a → 0 ≤ o → o + Z.of_nat (length new) ≤ Z.of_nat (length bs) →
  (0 < m → 0 < Z.of_nat (length new) → a + m ≤ o ∨ o + Z.of_nat (length new) ≤ a) →
  slice a m (splice o new bs) = slice a m bs.
Proof.
  intros ??? Hd. destruct (decide (0 < m)) as [Hm|Hm]; [|unfold slice; by rewrite Z2Nat.nonpos by lia].
  destruct new as [|z new]; [by rewrite splice_nil|]. apply slice_splice_other; try done. apply Hd; simpl; lia.
Qed.

Lemma bits_disjoint b x n y m :
  all_bits b x n false → all_bits b y m true → 0 < n → 0 < m → x + n ≤ y ∨ y + m ≤ x.
Proof.
  intros Hx Hy ??. destruct (decide (x + n ≤ y ∨ y + m ≤ x)) as [|Hn]; [done|].
  assert (bit_at b (Z.max x y) = false) as E by (apply Hx; lia). rewrite Hy in E by lia. done.
Qed.

Lemma zero_sectors_ok n s st :
  0 ≤ st → st + Z.of_nat n ≤ dev_size s → dev_size s < 2^32 → Z.of_nat (length (disk s)) = 512 * dev_size s →
  zero_sectors n st s = Ok ((), set_disk (splice (512 * st) (replicate (Z.to_nat (512 * Z.of_nat n)) 0) (disk s)) s).
Proof.
  revert s st. induction n as [|n IH]; intros s st Hs Hn Hd Hl.
  - simpl. unfold mret, ST_ret. by rewrite splice_nil; destruct s.
  - cbn [zero_sectors]. rewrite u32_id by (unfold in_u32; lia).
    erewrite st_bind_ok by (apply block_write_ok; lia). rewrite IH; cbn [set_disk disk dev_size].
    + do 2 f_equal. unfold set_disk. cbn [dev_size inodes open_inodes files dirs free_map free_map_file brk oom]. f_equal.
      replace (512 * (st + 1)) with (512 * st + Z.of_nat (length (replicate 512 0))) by (rewrite length_replicate; lia).
      rewrite splice_app by (rewrite ?length_replicate; lia). rewrite <- replicate_add. do 2 f_equal. lia.
    + lia.
    + lia.
    + done.
    + by rewrite splice_length by (rewrite ?length_replicate; lia).
Qed.

Lemma bytes_to_sectors_eq len : 0 ≤ len ≤ 2^31 - 512 → bytes_to_sectors len = (len + 511) / 512.
Proof.
  intros. unfold bytes_to_sectors, BLOCK_SECTOR_SIZE. rewrite s32_id by (unfold in_s32; lia).
  rewrite Z.quot_div_nonneg by lia. rewrite u32_id by (unfold in_u32; dlia). f_equal. lia.
Qed.

(** What inode_create writes: [sec] and the run of [d] lie apart, on the
    device, and off the free-map file. *)
Record apart s ino sec d : Prop := {
  ap_sec : 0 ≤ sec < dev_size s;
  ap_start : 0 ≤ start d ∧ start d + sectors d ≤ dev_size s;
  ap_len : 0 ≤ length_ d ≤ 2^31 - 512;
  ap_magic : in_u32 (magic d);
  ap_run : ¬ (start d ≤ sec < start d + sectors d);
  ap_sec_fm : ¬ (start (data ino) ≤ sec < start (data ino) + sectors (data ino));
  ap_run_fm : 0 < sectors d → 0 < sectors (data ino) →
    start d + sectors d ≤ start (data ino) ∨ start (data ino) + sectors (data ino) ≤ start d;
}.

Section creation.
Context s ino b sec d (Hf : fm_ok (save b ino s) ino) (Ha : apart s ino sec d).

Let D := disk (save b ino s).
Let run := replicate (Z.to_nat (512 * sectors d)) 0.

Lemma created_disk_len : Z.of_nat (length D) = 512 * dev_size s.
Proof. by destruct (fm_extent _ _ Hf). Qed.

Lemma sectors_nonneg d0 : 0 ≤ length_ d0 → 0 ≤ sectors d0.
Proof. unfold sectors. intros. apply Z.div_pos; lia. Qed.

Lemma run_len : Z.of_nat (length run) = 512 * sectors d.
Proof. unfold run. rewrite length_replicate. pose proof (sectors_nonneg d). destruct Ha; lia. Qed.

(** Bytes outside what is written. *)
Lemma created_slice a m :
  0 ≤ a → (0 < m → a + m ≤ 512 * sec ∨ 512 * sec + 512 ≤ a) →
  (0 < m → 0 < sectors d → a + m ≤ 512 * start d ∨ 512 * start d + 512 * sectors d ≤ a) →
  slice a m (disk (created b ino sec d s)) = slice a m D.
Proof.
  intros ? Hs Hr. unfold created. cbn [disk set_disk]. fold D run. pose proof run_len as Hl. pose proof created_disk_len.
  pose proof (sectors_nonneg d). destruct Ha.
  assert (Z.of_nat (length (splice (512 * sec) (encode_inode d) D)) = 512 * dev_size s) as Hl2.
  { rewrite splice_length by (rewrite ?encode_inode_length; lia). lia. }
  rewrite slice_splice_off; [|lia|lia|lia|]; [|intros; rewrite Hl; apply Hr; lia].
  apply slice_splice_off; [lia|lia|rewrite encode_inode_length; lia|]. intros. rewrite encode_inode_length. by apply Hs.
Qed.

Lemma created_len : length (disk (created b ino sec d s)) = length D.
Proof.
  unfold created. cbn [disk set_disk]. fold D run. pose proof run_len. pose proof created_disk_len.
  pose proof (sectors_nonneg d). destruct Ha.
  rewrite !splice_length; rewrite ?splice_length; rewrite ?encode_inode_length; lia.
Qed.

Lemma created_fm : fm_ok (created b ino sec d s) ino.
Proof.
  pose proof Hf as [? ? ? ? ? ? ? He ? Hs]. split; try done.
  - apply extent_set_disk; [done|]. apply created_len.
  - etrans; [|exact Hs]. unfold content. destruct He, Ha as [? ? ? ? ? ? Hr].
    assert (length_ (data ino) ≤ 512 * sectors (data ino)) by (unfold sectors; dlia).
    apply created_slice; [lia|lia|]. intros. destruct Hr; lia.
Qed.

Lemma created_extent : extent_ok (created b ino sec d s) d.
Proof.
  destruct (fm_extent _ _ Hf) as [_ _ _ He Hd]. destruct Ha. unfold sectors in *. 
  split; try done; [lia| |].
  - change (start d + (length_ d + 511) / 512 ≤ dev_size s). lia.
  - by rewrite created_len.
Qed.

(** The new file is zeros, and its inode is the one on disk. *)
Lemma created_content : content (created b ino sec d s) d = replicate (Z.to_nat (length_ d)) 0.
Proof.
  pose proof run_len as Hl. pose proof created_disk_len. destruct Ha. unfold content.
  assert (length_ d ≤ 512 * sectors d) by (unfold sectors; dlia).
  replace (slice _ _ _) with (slice 0 (length_ d) (slice (512 * start d) (512 * sectors d) (disk (created b ino sec d s)))).
  2:{ rewrite slice_slice by lia. by rewrite Z.add_0_r, Z.min_l by lia. }
  unfold created. cbn [disk set_disk]. fold D run. rewrite <- Hl, slice_splice_same.
  - unfold slice, run. rewrite drop_0, take_replicate. f_equal. lia.
  - lia.
  - rewrite splice_length; rewrite ?encode_inode_length; lia.
Qed.

Lemma created_inode : decode_inode (slice (512 * sec) 512 (disk (created b ino sec d s))) = d.
Proof.
  pose proof run_len as Hl. pose proof created_disk_len. pose proof (sectors_nonneg d).
  pose proof (fm_extent _ _ Hf) as [_ _ _ _ Hd]. unfold save in Hd. cbn [dev_size set_disk set_free_map] in Hd.
  destruct Ha. unfold created. cbn [disk set_disk]. fold D run. rewrite slice_splice_off.
  - replace (slice (512 * sec) 512) with (slice (512 * sec) (Z.of_nat (length (encode_inode d)))) by (by rewrite encode_inode_length).
    rewrite slice_splice_same by (rewrite ?encode_inode_length; lia).
    apply decode_encode; unfold in_u32, in_s32; try lia. done.
  - lia.
  - lia.
  - rewrite splice_length; rewrite ?encode_inode_length; lia.
  - lia.
Qed.
End creation.
End create.

Section create_ok.
Implicit Types (s : fs) (ino : inode) (b : bitmap) (d : inode_disk).

(** inode_create, when a run of free sectors is found and when not. *)
Lemma inode_create_ok s ino sec len :
  fm_ok s ino → oom s = [] → 0 ≤ len ≤ 2^31 - 512 → 0 ≤ sec < dev_size s → bit_at (free_map s) sec = true →
  ¬ (start (data ino) ≤ sec < start (data ino) + sectors (data ino)) →
  (∃ st b, let d := InodeDisk st len INODE_MAGIC in
     inode_create sec len s = Ok (true, created b ino sec d s) ∧ fm_ok (save b ino s) ino ∧ apart s ino sec d ∧
     all_bits (free_map s) st (sectors d) false ∧
     ∀ j, 0 ≤ j → bit_at b j = if decide (st ≤ j < st + sectors d) then true else bit_at (free_map s) j) ∨
  (inode_create sec len s = Ok (false, s) ∧
     ∀ k, 0 ≤ k → k + (len + 511) / 512 ≤ dev_size s → ¬ all_bits (free_map s) k ((len + 511) / 512) false).
Proof.
  intros Hf Hm Hlen Hsec Hbit Hfm. pose proof (fm_dev _ _ Hf) as Hdev.
  unfold inode_create. rewrite (st_bind_ok _ _ s () s) by (apply assert_ok, bool_decide_eq_true; lia).
  erewrite st_bind_ok by by apply malloc_ok_true. cbn [negb]. rewrite bytes_to_sectors_eq by done.
  set (c := (len + 511) / 512). assert (0 ≤ c) by (unfold c; dlia).
  destruct (free_map_allocate_ok s ino c) as [(st & b & Hal & Hf' & ? & ? & Hfree & _ & Hb)|[Hal Hno]]; [done..| |].
  2:{ right. by erewrite st_bind_ok by exact Hal. }
  left. exists st, b. set (d := InodeDisk st len INODE_MAGIC). cbn zeta. erewrite st_bind_ok by exact Hal.
  assert (sectors d = c) as Hsd by done.
  assert (apart s ino sec d) as Hap.
  { split; rewrite ?Hsd; simpl; try done.
    - intros Hr. rewrite Hfree in Hbit by done. done.
    - intros. eapply bits_disjoint; [done|by apply (fm_used _ _ Hf)|done..]. }
  split_and!; try done. pose proof (created_disk_len s ino b Hf') as Hl.
  erewrite st_bind_ok by by apply block_write_ok. fold d.
  erewrite st_bind_ok; [|apply zero_sectors_ok].
  - unfold created. cbn [start d]. rewrite Hsd. rewrite Z2Nat.id by lia. done.
  - done.
  - cbn. lia.
  - cbn. lia.
  - cbn [disk set_disk dev_size]. rewrite splice_length; rewrite ?encode_inode_length; simpl in *; lia.
Qed.

(** The sectors of other files are not written. *)
Lemma created_spared s ino b sec d a n m :
  fm_ok (save b ino s) ino → extent_ok s (data ino) → apart s ino sec d →
  all_bits (free_map s) (start d) (sectors d) false →
  spared s ino sec a n → m ≤ 512 * n → slice (512 * a) m (disk (created b ino sec d s)) = slice (512 * a) m (disk s).
Proof.
  intros Hf He Ha Hfree [? Hu ? ?] Hm. rewrite created_slice by
    (done || lia || (intros; destruct (bits_disjoint _ _ _ _ _ Hfree Hu); lia)).
  pose proof (fm_saved _ _ Hf) as Hs. apply (f_equal length) in Hs. rewrite <- Nat2Z.inj_iff in Hs.
  rewrite content_length in Hs by apply (fm_extent _ _ Hf). cbn [save free_map set_disk set_free_map] in Hs.
  unfold save. cbn [disk set_disk]. destruct He. unfold sectors in *.
  apply slice_splice_off; dlia.
Qed.
End create_ok.

(** ** The open inodes *)

(** The in-memory inodes are the listed ones, one per sector, each counting
    its openers. *)
Record itab_ok (s : fs) : Prop := {
  it_nodup : NoDup (open_inodes s);
  it_dom : ∀ i, i ∈ open_inodes s ↔ is_Some (inodes s !! i);
  it_cnt : ∀ i ino, inodes s !! i = Some ino → 0 < open_cnt ino ∧ in_s32 (open_cnt ino);
  it_sector : ∀ i j a b, inodes s !! i = Some a → inodes s !! j = Some b → sector a = sector b → i = j;
  it_fresh : 0 < brk s ∧ ∀ i, is_Some (inodes s !! i) → 0 < i < brk s;
}.

Definition with_open_cnt (n : Z) (ino : inode) : inode :=
  Inode (sector ino) n (removed ino) (deny_write_cnt ino) (data ino).

Section itab.
Implicit Types (s : fs) (ino : inode) (l : list Z).

(** Changing an inode other than in its sector. *)
Lemma itab_update s i ino ino' :
  itab_ok s → inodes s !! i = Some ino → sector ino' = sector ino → 0 < open_cnt ino' → in_s32 (open_cnt ino') →
  itab_ok (set_inodes (<[i := ino']> (inodes s)) s).
Proof.
  intros [? Hd Hc Hs [? Hf]] Hi E Hp Hr. split; simpl; try done.
  - intros j. rewrite Hd. destruct (decide (j = i)) as [->|].
    + rewrite lookup_insert_eq, Hi. split; eauto.
    + by rewrite lookup_insert_ne.
  - intros j ?. rewrite lookup_insert_Some. intros [[<- <-]|[_ ?]]; [done|eauto].
  - intros j k a b. rewrite !lookup_insert_Some. intros [[<- <-]|[? ?]] [[<- <-]|[? ?]] Hsec; try done;
      eapply Hs; eauto; congruence.
  - split; [done|]. intros j. destruct (decide (j = i)) as [->|]; [intros _; apply Hf; eauto|].
    rewrite lookup_insert_ne by done. apply Hf.
Qed.

Lemma find_open_ok s sec l :
  (∀ i, i ∈ l → is_Some (inodes s !! i) ∧ i ≠ NULL) →
  (∃ i ino, i ∈ l ∧ inodes s !! i = Some ino ∧ sector ino = sec ∧ find_open sec l s = Ok (i, s)) ∨
  ((∀ i ino, i ∈ l → inodes s !! i = Some ino → sector ino ≠ sec) ∧ find_open sec l s = Ok (NULL, s)).
Proof.
  induction l as [|i l IH]; intros Hl.
  { right. split; [by intros ?? ?%elem_of_nil|done]. }
  destruct (Hl i) as [[ino Hi] _]; [left|]. simpl. erewrite st_bind_ok by by apply get_inode_ok.
  case_decide as Es.
  - left. exists i, ino. split_and!; [left|done..].
  - destruct IH as [(j & jno & ? & ? & ? & E)|[Hn E]]; [intros; apply Hl; by right| |].
    + left. exists j, jno. split_and!; [by right|done..].
    + right. split; [|done]. intros j jno [->|?]%elem_of_cons ?; [congruence|eauto].
Qed.

Lemma inode_reopen_ok s i ino :
  inodes s !! i = Some ino → i ≠ NULL →
  inode_reopen i s = Ok (i, set_inodes (<[i := with_open_cnt (s32 (open_cnt ino + 1)) ino]> (inodes s)) s).
Proof.
  intros Hi Hn. unfold inode_reopen. rewrite decide_False by done. erewrite st_bind_ok by by apply get_inode_ok. done.
Qed.

(** inode_open of a sector that is open, and of one that is not. *)
Lemma inode_open_shared s sec i ino :
  itab_ok s → inodes s !! i = Some ino → sector ino = sec →
  inode_open sec s = Ok (i, set_inodes (<[i := with_open_cnt (s32 (open_cnt ino + 1)) ino]> (inodes s)) s).
Proof.
  intros Ht Hi E. unfold inode_open. rewrite (st_bind_ok _ _ s s s) by done.
  destruct (find_open_ok s sec (open_inodes s)) as [(j & jno & Hj & Hjno & Ej & Hfo)|[Hno _]].
  - intros j Hj. apply (it_dom _ Ht) in Hj. split; [done|]. intros ->. apply (it_fresh _ Ht) in Hj. unfold NULL in Hj. lia.
  - assert (j = i) as -> by (eapply (it_sector _ Ht); eauto; congruence).
    assert (i ≠ NULL) by (intros ->; assert (0 < NULL < brk s) as [] by (apply (it_fresh _ Ht); eauto); done).
    erewrite st_bind_ok by exact Hfo. rewrite decide_True by done. by apply inode_reopen_ok.
  - exfalso. eapply Hno; [|done|done]. apply (it_dom _ Ht). eauto.
Qed.

(** The inode that inode_open reads from disk. *)
Definition read_inode s sec : inode := Inode sec 1 false 0 (decode_inode (slice (512 * sec) 512 (disk s))).

Definition opened s sec : fs :=
  set_inodes (<[brk s := read_inode s sec]> (inodes s))
    (set_open_inodes (brk s :: open_inodes s) (set_heap (brk s + 1) [] s)).

Lemma inode_open_fresh s sec :
  itab_ok s → oom s = [] → 0 ≤ sec < dev_size s → (∀ i ino, inodes s !! i = Some ino → sector ino ≠ sec) →
  inode_open sec s = Ok (brk s, opened s sec) ∧ itab_ok (opened s sec).
Proof.
  intros Ht Hm Hsec Hno. pose proof Ht as [Hnd Hd Hc Hs [Hb Hf]].
  assert (inodes s !! brk s = None) as Hnew.
  { apply eq_None_not_Some. intros ?%Hf. lia. }
  split.
  - unfold inode_open. rewrite (st_bind_ok _ _ s s s) by done.
    destruct (find_open_ok s sec (open_inodes s)) as [(j & jno & Hj & Hjno & Ej & Hfo)|[_ Hfo]].
    + intros j Hj. apply Hd in Hj. split; [done|]. intros ->. apply Hf in Hj. unfold NULL in Hj. lia.
    + exfalso. by eapply Hno.
    + erewrite st_bind_ok by exact Hfo. rewrite decide_False by (intros []; done).
      unfold malloc. rewrite (st_bind_ok _ _ s (brk s) (set_heap (brk s + 1) [] s)).
      2:{ erewrite st_bind_ok by by apply malloc_ok_true. st_unfold. by rewrite Hm. }
      rewrite decide_False by (unfold NULL; lia). unfold block_read, check_sector, put_inode. st_unfold.
      by rewrite bool_decide_true by (simpl; lia).
  - unfold opened. split; simpl.
    + apply NoDup_cons. split; [|done]. rewrite Hd, Hnew. by intros [].
    + intros i. rewrite elem_of_cons, Hd, lookup_insert_is_Some'. naive_solver.
    + intros j ?. rewrite lookup_insert_Some. intros [[<- <-]|[_ ?]]; [done|eauto].
    + intros j k a b. rewrite !lookup_insert_Some. intros [[<- <-]|[? Ha]] [[<- <-]|[? Hb']] Hsec'; try done.
      * simpl in Hsec'. by destruct (Hno _ _ Hb').
      * simpl in Hsec'. by destruct (Hno _ _ Ha).
      * by eapply Hs.
    + split; [lia|]. intros i. rewrite lookup_insert_is_Some'. intros [<-|Hi]; [lia|]. apply Hf in Hi. lia.
Qed.
End itab.

(** ** Closing an inode *)

(** The inode is off the list and its memory is freed. *)
Definition unlisted (i : Z) (s : fs) : fs :=
  set_inodes (delete i (inodes s)) (set_open_inodes (filter (.≠ i) (open_inodes s)) s).

Section close.
Implicit Types (s : fs) (ino fino : inode).

Lemma itab_unlisted s i : itab_ok s → itab_ok (unlisted i s).
Proof.
  intros [Hnd Hd Hc Hs [Hb Hf]]. split; simpl.
  - by apply NoDup_filter.
  - intros j. rewrite list_elem_of_filter, Hd, lookup_delete_is_Some. naive_solver.
  - intros j ?. rewrite lookup_delete_Some. intros [_ ?]; eauto.
  - intros j k a b. rewrite !lookup_delete_Some. intros [_ ?] [_ ?]. eauto.
  - split; [done|]. intros j. rewrite lookup_delete_is_Some. intros [_ ?]. eauto.
Qed.

Lemma inode_close_shared s i ino :
  itab_ok s → inodes s !! i = Some ino → open_cnt ino ≠ 1 →
  inode_close i s = Ok ((), set_inodes (<[i := with_open_cnt (open_cnt ino - 1) ino]> (inodes s)) s) ∧
  itab_ok (set_inodes (<[i := with_open_cnt (open_cnt ino - 1) ino]> (inodes s)) s).
Proof.
  intros Ht Hi Hc. pose proof (it_cnt _ Ht _ _ Hi) as [Hp Hr]. unfold in_s32 in Hr.
  assert (0 < i < brk s) by (apply (it_fresh _ Ht); eauto). split.
  - unfold inode_close. rewrite decide_False by (unfold NULL; lia). erewrite st_bind_ok by by apply get_inode_ok.
    rewrite s32_id by (unfold in_s32; lia). unfold put_inode. st_unfold. rewrite decide_False by lia. done.
  - apply (itab_update _ _ ino); simpl; try done; [lia|unfold in_s32; lia].
Qed.

Lemma inode_close_last s i ino :
  itab_ok s → inodes s !! i = Some ino → open_cnt ino = 1 → removed ino = false →
  inode_close i s = Ok ((), unlisted i s) ∧ itab_ok (unlisted i s).
Proof.
  intros Ht Hi Hc Hr. assert (0 < i < brk s) by (apply (it_fresh _ Ht); eauto).
  split; [|by apply itab_unlisted].
  unfold inode_close. rewrite decide_False by (unfold NULL; lia). erewrite st_bind_ok by by apply get_inode_ok.
  rewrite Hc, Hr. unfold put_inode, unlisted. st_unfold. simpl. by rewrite delete_insert_eq.
Qed.

(** The free map does not depend on other inodes. *)
Lemma fm_frame s s' fino :
  fm_ok s fino → free_map s' = free_map s → dev_size s' = dev_size s → disk s' = disk s →
  free_map_file s' = free_map_file s →
  (∃ fl, files s' !! free_map_file s = Some fl ∧ inodes s' !! file_inode fl = Some fino) → fm_ok s' fino.
Proof.
  intros [? ? ? _ ? ? ? [? ? ? ? ?] ? ?] Em Es Ed Ef Hfl. split; rewrite ?Em, ?Es, ?Ef; try done.
  - by split; rewrite ?Es, ?Ed.
  - by unfold content in *; rewrite Ed.
Qed.

Lemma splice_splice a (x y bs : list Z) :
  0 ≤ a → a + Z.of_nat (length x) ≤ Z.of_nat (length bs) → length x = length y →
  splice a y (splice a x bs) = splice a y bs.
Proof.
  intros ?? E. apply list_eq. intros i.
  rewrite !splice_lookup by (rewrite ?splice_length by lia; lia). rewrite E. by repeat case_decide.
Qed.

Lemma save_save s fino b b' :
  fm_ok (save b fino s) fino → fm_ok (save b' fino (save b fino s)) fino → extent_ok s (data fino) →
  save b' fino (save b fino s) = save b' fino s.
Proof.
  intros H1 H2 He. pose proof (fm_dev _ _ H1) as Hd.
  pose proof (elems_bytes_size _ _ Hd (fm_len _ _ H1)) as E1.
  pose proof (elems_bytes_size _ _ (fm_dev _ _ H2) (fm_len _ _ H2)) as E2.
  pose proof (fm_size _ _ H1) as E3. cbn in E1, E2, E3, Hd. unfold save. cbn [disk set_disk set_free_map].
  rewrite splice_splice; [done|destruct He; lia| |lia].
  change (bits _) with (bits b) in E1. destruct He; dlia.
Qed.

(** Sectors [a, a + n) of the device are in use by a file other than the
    free-map file. *)
Record owned s fino (a n : Z) : Prop := {
  ow_range : 0 ≤ a ∧ 0 ≤ n ∧ a + n ≤ dev_size s;
  ow_used : all_bits (free_map s) a n true;
  ow_fm : a + n ≤ start (data fino) ∨ start (data fino) + sectors (data fino) ≤ a;
}.

Lemma free_map_release_owned s fino a n :
  fm_ok s fino → oom s = [] → owned s fino a n →
  ∃ b, free_map_release a n s = Ok ((), save b fino s) ∧ fm_ok (save b fino s) fino ∧
    ∀ j, 0 ≤ j → bit_at b j = if decide (a ≤ j < a + n) then false else bit_at (free_map s) j.
Proof. intros Hf Hm [(? & ? & ?) ? ?]. by apply free_map_release_ok. Qed.

(** The last close of a removed inode gives back its sectors, no others. *)
Lemma inode_close_removed s fino i ino :
  fm_ok s fino → itab_ok s → oom s = [] → inodes s !! i = Some ino → open_cnt ino = 1 → removed ino = true →
  sector ino ≠ sector fino → 0 ≤ length_ (data ino) ≤ 2^31 - 512 →
  owned s fino (sector ino) 1 → owned s fino (start (data ino)) (sectors (data ino)) →
  ¬ (start (data ino) ≤ sector ino < start (data ino) + sectors (data ino)) →
  ∃ b, inode_close i s = Ok ((), unlisted i (save b fino s)) ∧ fm_ok (unlisted i (save b fino s)) fino ∧
    itab_ok (unlisted i (save b fino s)) ∧
    ∀ j, 0 ≤ j → bit_at b j =
      if decide (j = sector ino ∨ start (data ino) ≤ j < start (data ino) + sectors (data ino)) then false
      else bit_at (free_map s) j.
Proof.
  intros Hf Ht Hm Hi Hc Hr Hne Hlen Ho1 Ho2 Hap. assert (0 < i < brk s) by (apply (it_fresh _ Ht); eauto).
  set (s1 := set_open_inodes (filter (.≠ i) (open_inodes s)) (set_inodes (<[i := with_open_cnt 0 ino]> (inodes s)) s)).
  pose proof (fm_file _ _ Hf) as (fl & Hfl & Hfi).
  assert (file_inode fl ≠ i) as Hfne by congruence.
  assert (fm_ok s1 fino) as Hf1.
  { apply (fm_frame s); try done. exists fl. split; [done|]. simpl. by rewrite lookup_insert_ne. }
  destruct (free_map_release_owned s1 fino (sector ino) 1) as (b1 & E1 & Hf2 & Hb1);
    [done|done|by destruct Ho1|].
  destruct (free_map_release_owned (save b1 fino s1) fino (start (data ino)) (sectors (data ino)))
    as (b2 & E2 & Hf3 & Hb2); [done|done| |].
  { destruct Ho2 as [? Hu ?]. split; try done. intros j Hj. simpl. rewrite Hb1, decide_False by lia. by apply Hu. }
  rewrite save_save in E2, Hf3 by (done || by destruct (fm_extent _ _ Hf)).
  exists b2. split_and!.
  - unfold inode_close. rewrite decide_False by (unfold NULL; lia). erewrite st_bind_ok by by apply get_inode_ok.
    rewrite Hc. change (s32 (1 - 1)) with 0.
    rewrite (st_bind_ok _ _ s () (set_inodes (<[i := with_open_cnt 0 ino]> (inodes s)) s)) by done.
    rewrite decide_True by done. erewrite (st_bind_ok (st_modify _)) by done. rewrite Hr.
    rewrite (st_bind_ok _ _ s1 () (save b2 fino s1)).
    2:{ erewrite st_bind_ok by exact E1. rewrite bytes_to_sectors_eq by done. exact E2. }
    unfold st_modify, unlisted, save. simpl. by rewrite delete_insert_eq.
  - apply (fm_frame (save b2 fino s1)); try done. exists fl. split; [done|]. simpl. by rewrite lookup_delete_ne.
  - apply itab_unlisted. by destruct Ht.
  - intros j Hj. rewrite Hb2 by done. simpl. rewrite Hb1 by done. repeat case_decide; done || lia.
Qed.
End close.

(** ** Reading the free map back *)

(** bitmap_read into any bitmap of the right size gives the saved map. *)
Lemma bitmap_read_ok s ino b0 :
  fm_ok s ino → oom s = [] → bit_cnt b0 = dev_size s → Z.of_nat (length (bits b0)) = elem_cnt (dev_size s) →
  0 < dev_size s →
  ∃ b, bitmap_read b0 (free_map_file s) s = Ok ((true, b), s) ∧ wf b ∧ bit_cnt b = dev_size s ∧
    length (bits b) = length (bits (free_map s)) ∧ ∀ j, 0 ≤ j < dev_size s → bit_at b j = bit_at (free_map s) j.
Proof.
  intros Hf Hm Hc Hl Hpos. pose proof (fm_dev _ _ Hf) as Hd.
  pose proof Hf as [Hwf Hcnt Hlen (fl & Hfl & Hi) _ _ Hz He _ Hs].
  unfold bitmap_read. rewrite decide_True by lia.
  rewrite (st_bind_ok _ _ s (elems_to_bytes (bits (free_map s))) s).
  2:{ unfold file_read_at. erewrite st_bind_ok by by apply get_file_ok. rewrite (inode_read_at_ok _ _ ino) by (done || lia).
      rewrite Hs, Hc. by rewrite slice_full by by apply elems_bytes_size. }
  assert (overlay (elems_to_bytes (bits (free_map s))) b0 = free_map s) as ->.
  { unfold overlay. assert (length (bits b0) = length (bits (free_map s))) as El by lia.
    unfold splice. simpl. rewrite drop_ge by (rewrite !length_elems_to_bytes; lia). rewrite app_nil_r, El.
    rewrite elems_bytes_roundtrip by apply Hwf. rewrite Hc, <- Hcnt. by destruct (free_map s). }
  destruct (mask_last_ok (free_map s)) as (b & Hb & ? & Eb & ? & Hbits); [done|lia|].
  rewrite (st_bind_ok _ _ s b s) by (unfold of_res; by rewrite Hb).
  exists b. split_and!; try done; [|congruence|].
  - rewrite Hc, (elems_bytes_size _ _ Hd Hlen). by rewrite bool_decide_true.
  - intros j Hj. rewrite Hbits; [|lia|rewrite Hcnt, elem_cnt_eq by done; dlia].
    by rewrite bool_decide_true by lia.
Qed.

(** ** Deciding the invariants on a given state *)
Section decide.

#[export] Instance extent_ok_dec s d : Decision (extent_ok s d).
Proof.
  refine (cast_if (decide ((0 ≤ start d ∧ (0 ≤ length_ d ∧ length_ d ≤ 2^31 - 512)) ∧
    start d + (length_ d + 511) / 512 ≤ dev_size s ∧ Z.of_nat (length (disk s)) = 512 * dev_size s ∧ dev_size s < 2^32))).
  - destruct a as ((? & ?) & ? & ? & ?). by split.
  - intros []. tauto.
Defined.

#[export] Instance fm_ok_dec s ino : Decision (fm_ok s ino).
Proof.
  refine (cast_if (decide ((wf (free_map s) ∧ bit_cnt (free_map s) = dev_size s ∧
    Z.of_nat (length (bits (free_map s))) = elem_cnt (dev_size s)) ∧
    (files s !! free_map_file s ≫= (λ fl, inodes s !! file_inode fl) = Some ino ∧ free_map_file s ≠ NULL ∧
     deny_write_cnt ino = 0 ∧ length_ (data ino) = byte_cnt (dev_size s)) ∧ extent_ok s (data ino) ∧
    all_bits (free_map s) (start (data ino)) (sectors (data ino)) true ∧
    content s (data ino) = elems_to_bytes (bits (free_map s))))).
  - destruct a as ((? & ? & ?) & (Hb & ? & ? & ?) & ? & ? & ?). split; try done.
    apply bind_Some in Hb as (fl & ? & ?). eauto.
  - intros [? ? ? (fl & Hfl & Hi) ? ? ? ? ? ?]. apply n. rewrite Hfl. simpl. tauto.
Defined.

#[export] Instance owned_dec s fino a n : Decision (owned s fino a n).
Proof.
  refine (cast_if (decide ((0 ≤ a ∧ 0 ≤ n ∧ a + n ≤ dev_size s) ∧ all_bits (free_map s) a n true ∧
    (a + n ≤ start (data fino) ∨ start (data fino) + sectors (data fino) ≤ a)))).
  - destruct a0 as (? & ? & ?). by split.
  - intros []. tauto.
Defined.

#[export] Instance itab_ok_dec s : Decision (itab_ok s).
Proof.
  refine (cast_if (decide ((NoDup (open_inodes s) ∧ Forall (λ i, is_Some (inodes s !! i)) (open_inodes s)) ∧
    map_Forall (λ i ino, i ∈ open_inodes s ∧ (0 < open_cnt ino ∧ -2^31 ≤ open_cnt ino ∧ open_cnt ino < 2^31) ∧
      0 < i ∧ i < brk s ∧ map_Forall (λ j jno, sector ino = sector jno → i = j) (inodes s)) (inodes s) ∧ 0 < brk s))).
  - destruct a as ((Hnd & Hl) & Hm & Hb). rewrite Forall_forall in Hl. split; try done.
    + intros i. split; [apply Hl|]. intros [ino Hi]. apply (Hm _ _ Hi).
    + intros i ino Hi. apply Hm in Hi as (_ & (? & ? & ?) & _). by split.
    + intros i j x y Hi Hj E. apply Hm in Hi as (_ & _ & _ & _ & Hu). by apply (Hu _ _ Hj).
    + split; [done|]. intros i [ino Hi]. apply Hm in Hi as (_ & _ & ? & ? & _). done.
  - intros [Hnd Hd Hc Hs [Hb Hf]]. apply n. split_and!; try done.
    + apply Forall_forall. apply Hd.
    + intros i ino Hi. assert (0 < i < brk s) as [] by (apply Hf; eauto). destruct (Hc _ _ Hi) as [? []].
      split_and!; try done; [apply Hd; eauto|]. intros j jno Hj. by apply Hs.
Defined.
End decide.
