(* ===== verification/DirSpec.v ===== *)
(** * Directories as finite maps from names to inode sectors

    The entries of a directory are the 20-byte pieces of its file; those in use
    give the abstract directory [names], a sequence of names with sectors in
    which no name is twice.  lookup, dir_add, dir_remove and dir_readdir are
    proved to search, extend, reduce and enumerate it. *)

From S2P Require Import Prelude Bitmap Inode FileSys FileSpec.

Local Open Scope Z_scope.

Definition entries (c : list Z) : list (list Z) :=
  (λ k, slice (20 * k) 20 c) <$> seqZ 0 (Z.of_nat (length c) / 20).

Definition names (es : list (list Z)) : list (list Z * Z) :=
  (λ e, (entry_name e, entry_sector e)) <$> filter (λ e, entry_in_use e = true) es.

(** What lookup returns for the entries from offset [ofs] on. *)
Fixpoint find_entry (name : list Z) (es : list (list Z)) (ofs : Z) : option (list Z * Z) :=
  match es with
  | [] => None
  | e :: es => if entry_in_use e && bool_decide (name = entry_name e) then Some (e, ofs) else find_entry name es (ofs + 20)
  end.

(** The index of the first entry that is not in use, or the number of
    entries. *)
Fixpoint free_slot (es : list (list Z)) : nat :=
  match es with [] => O | e :: es => if entry_in_use e then S (free_slot es) else O end.

(** A directory's bytes: whole entries, names that fit, and no name twice. *)
Record dir_ok (c : list Z) : Prop := {
  do_whole : (20 | Z.of_nat (length c));
  do_short : Forall (λ name, (length name ≤ 14)%nat) (names (entries c)).*1;
  do_nodup : NoDup (names (entries c)).*1;
}.

(** A name that dir_add accepts. *)
Definition good_name (name : list Z) : Prop :=
  name ≠ [] ∧ Z.of_nat (length name) ≤ 14 ∧ Forall (.≠ 0) name.

(** ** Entries *)
Section entries.
Implicit Types (c e name : list Z) (es : list (list Z)).

Lemma length_entries c : Z.of_nat (length (entries c)) = Z.of_nat (length c) / 20.
Proof. unfold entries. rewrite length_fmap, length_seqZ. assert (0 ≤ Z.of_nat (length c) / 20) by dlia. lia. Qed.

Lemma entries_lookup c k e :
  entries c !! k = Some e ↔ e = slice (20 * Z.of_nat k) 20 c ∧ 20 * Z.of_nat k + 20 ≤ Z.of_nat (length c).
Proof.
  unfold entries. rewrite list_lookup_fmap, fmap_Some. setoid_rewrite lookup_seqZ. split.
  - intros (x & [-> ?] & ->). split; [done|dlia].
  - intros [-> ?]. exists (Z.of_nat k). split; [split; [lia|dlia]|done].
Qed.

Lemma entry_length c k e : entries c !! k = Some e → length e = 20%nat.
Proof. intros [-> ?]%entries_lookup. rewrite slice_length; lia. Qed.

(** Writing one entry. *)
Lemma entries_splice c k e :
  (k < length (entries c))%nat → length e = 20%nat → entries (splice (20 * Z.of_nat k) e c) = <[k := e]> (entries c).
Proof.
  intros Hk Hl. pose proof (length_entries c) as Hn. assert (20 * Z.of_nat k + 20 ≤ Z.of_nat (length c)) by dlia.
  assert (length (splice (20 * Z.of_nat k) e c) = length c) as Hlen by (apply splice_length; lia).
  apply list_eq. intros j. destruct (entries c !! j) as [ej|] eqn:Ej.
  - pose proof Ej as [-> ?]%entries_lookup. destruct (decide (j = k)) as [->|].
    + rewrite list_lookup_insert_eq by done. apply entries_lookup. rewrite Hlen. split; [|lia].
      change 20 with (Z.of_nat 20) at 2. rewrite <- Hl, slice_splice_same; done || lia.
    + rewrite list_lookup_insert_ne, Ej by done. apply entries_lookup. rewrite Hlen. split; [|lia].
      rewrite slice_splice_other; done || lia.
  - apply lookup_ge_None in Ej. rewrite !lookup_ge_None_2; [done|by rewrite length_insert|].
    pose proof (length_entries (splice (20 * Z.of_nat k) e c)) as E. rewrite Hlen in E. lia.
Qed.

Lemma find_entry_None name es ofs : find_entry name es ofs = None ↔ name ∉ (names es).*1.
Proof.
  revert ofs. induction es as [|e es IH]; intros ofs; simpl; [split; [intros _ ?%elem_of_nil|]; done|].
  unfold names in *. rewrite filter_cons. destruct (entry_in_use e) eqn:E; simpl.
  - rewrite elem_of_cons. case_bool_decide; [naive_solver|]. rewrite IH. naive_solver.
  - apply IH.
Qed.

Lemma find_entry_Some name es ofs e o :
  find_entry name es ofs = Some (e, o) →
  ∃ k, es !! k = Some e ∧ o = ofs + 20 * Z.of_nat k ∧ entry_in_use e = true ∧ entry_name e = name.
Proof.
  revert ofs. induction es as [|e' es IH]; intros ofs; simpl; [done|].
  destruct (entry_in_use e') eqn:E; simpl.
  - case_bool_decide.
    + intros [= -> ->]. exists O. split_and!; try done. lia.
    + intros (k & ? & -> & ?)%IH. exists (S k). split_and!; try naive_solver. lia.
  - intros (k & ? & -> & ?)%IH. exists (S k). split_and!; try naive_solver. lia.
Qed.

Lemma free_slot_spec es :
  (free_slot es ≤ length es)%nat ∧ (∀ e, es !! free_slot es = Some e → entry_in_use e = false) ∧
  (free_slot es = length es → Forall (λ e, entry_in_use e = true) es).
Proof.
  induction es as [|e es (? & IH1 & IH2)]; [done|]. simpl. destruct (entry_in_use e) eqn:E.
  - split_and!; [simpl; lia|done|]. intros. constructor; [done|]. apply IH2. simpl in *; lia.
  - split_and!; [lia| |done]. by intros ? [= <-].
Qed.

(** The abstract directory when one entry is replaced. *)
Lemma names_app es1 es2 : names (es1 ++ es2) = names es1 ++ names es2.
Proof. unfold names. by rewrite filter_app, fmap_app. Qed.

Lemma names_split es k e : es !! k = Some e → names es ≡ₚ names [e] ++ names (take k es ++ drop (S k) es).
Proof.
  intros H. rewrite <- (take_drop_middle _ _ _ H) at 1. change (e :: drop (S k) es) with ([e] ++ drop (S k) es).
  rewrite !names_app. by rewrite Permutation_app_swap_app.
Qed.

Lemma names_insert es k e :
  (k < length es)%nat → names (<[k := e]> es) ≡ₚ names [e] ++ names (take k es ++ drop (S k) es).
Proof.
  intros. rewrite insert_take_drop by done. change (e :: drop (S k) es) with ([e] ++ drop (S k) es).
  rewrite !names_app. by rewrite Permutation_app_swap_app.
Qed.
End entries.

(** ** The fields of an entry that dir_add writes *)

Definition new_entry (name : list Z) (sec : Z) (e : list Z) : list Z :=
  splice 0 (le_bytes 4 sec) (set_name name (splice 19 [1] e)).

Section fields.
Implicit Types (e name : list Z) (sec : Z).

Lemma cstr_app name l : Forall (.≠ 0) name → cstr (name ++ 0 :: l) = name.
Proof. induction 1 as [|b name Hb _ IH]; [done|]. simpl. rewrite decide_False by done. by f_equal. Qed.

Context name sec e (Hn : good_name name) (Hs : in_u32 sec) (He : length e = 20%nat).

Let Y := splice 19 [1] e.
Let X := set_name name Y.

Lemma take_name : take 14 name = name.
Proof. apply take_ge. destruct Hn as (_ & ? & _). lia. Qed.

Lemma len_Y : length Y = 20%nat.
Proof. unfold Y. rewrite splice_length; simpl; lia. Qed.

Lemma len_X : length X = 20%nat.
Proof.
  unfold X, set_name. rewrite take_name. pose proof len_Y. destruct Hn as (_ & ? & _).
  rewrite splice_length; rewrite ?length_app; simpl; lia.
Qed.

Lemma new_entry_length : length (new_entry name sec e) = 20%nat.
Proof. unfold new_entry. fold Y X. pose proof len_X. rewrite splice_length; rewrite ?length_le_bytes; lia. Qed.

Lemma new_entry_in_use : entry_in_use (new_entry name sec e) = true.
Proof.
  unfold entry_in_use, new_entry. fold Y X. pose proof len_X. pose proof len_Y. apply bool_decide_eq_true.
  destruct Hn as (_ & ? & _). rewrite slice_splice_other by (rewrite ?length_le_bytes; lia).
  unfold X, set_name. rewrite take_name. rewrite slice_splice_other by (rewrite ?length_app; simpl; lia).
  unfold Y. change 1 with (Z.of_nat (length [1])) at 1. rewrite slice_splice_same by (simpl; lia). done.
Qed.

Lemma new_entry_sector : entry_sector (new_entry name sec e) = sec.
Proof.
  unfold entry_sector, new_entry. fold Y X. pose proof len_X.
  replace (slice 0 4) with (slice 0 (Z.of_nat (length (le_bytes 4 sec)))) by (by rewrite length_le_bytes).
  rewrite slice_splice_same by (rewrite ?length_le_bytes; lia). by apply le_word_bytes.
Qed.

Lemma new_entry_name : entry_name (new_entry name sec e) = name.
Proof.
  unfold entry_name, new_entry. fold Y X. pose proof len_X. pose proof len_Y. destruct Hn as (_ & ? & Hz).
  rewrite slice_splice_other by (rewrite ?length_le_bytes; lia).
  unfold X, set_name. rewrite take_name. rewrite <- (Z.add_0_r 4) at 2.
  rewrite slice_splice_in by (rewrite ?length_app; simpl; lia).
  unfold splice. simpl. rewrite <- app_assoc. by apply cstr_app.
Qed.

Lemma names_new_entry : names [new_entry name sec e] = [(name, sec)].
Proof.
  unfold names. rewrite filter_cons_True by apply new_entry_in_use. simpl.
  by rewrite new_entry_name, new_entry_sector.
Qed.
End fields.

Lemma names_unused e : entry_in_use e = false → names [e] = [].
Proof. intros H. unfold names. rewrite filter_cons_False; [done|]. by rewrite H. Qed.

Lemma names_used e : entry_in_use e = true → names [e] = [(entry_name e, entry_sector e)].
Proof. intros H. unfold names. by rewrite filter_cons_True. Qed.

Lemma erased_in_use e : length e = 20%nat → entry_in_use (splice 19 [0] e) = false.
Proof.
  intros H. unfold entry_in_use. apply bool_decide_eq_false. intros E. apply E.
  apply (slice_splice_same 19 [0]); simpl; lia.
Qed.

(** ** The loops over a directory's file *)

(** [d] is an open directory, with its inode. *)
Record dir_at (s : fs) (d : Z) (dr : dir) (dino : inode) : Prop := {
  da_null : d ≠ NULL;
  da_dir : dirs s !! d = Some dr;
  da_inode : inodes s !! dir_inode dr = Some dino;
  da_extent : extent_ok s (data dino);
  da_mem : oom s = [];
}.

Section loops.
Context s d dr dino (Hd : dir_at s d dr dino).
Implicit Types (name : list Z) (k n : nat).

Notation c := (content s (data dino)).

Lemma get_dir_ok : get_dir d s = Ok (dr, s).
Proof. unfold get_dir. st_unfold. by rewrite (da_dir _ _ _ _ Hd). Qed.

Lemma entries_bound : 20 * Z.of_nat (length (entries c)) ≤ length_ (data dino) ≤ 2^31 - 512.
Proof.
  rewrite length_entries, (content_length _ _ (da_extent _ _ _ _ Hd)). destruct (da_extent _ _ _ _ Hd). dlia.
Qed.

Lemma entry_fuel_ok : ∃ n, entry_fuel (dir_inode dr) s = Ok (n, s) ∧ (length (entries c) < n)%nat.
Proof.
  unfold entry_fuel. erewrite st_bind_ok by apply get_inode_ok, (da_inode _ _ _ _ Hd).
  eexists. split; [done|]. unfold inode_length. pose proof entries_bound. lia.
Qed.

(** Reading the entry at [20 * k], or less than an entry at the end. *)
Lemma read_entry k :
  (k ≤ length (entries c))%nat →
  inode_read_at (dir_inode dr) ENTRY_SIZE (20 * Z.of_nat k) s = Ok (slice (20 * Z.of_nat k) 20 c, s).
Proof.
  intros. pose proof entries_bound. destruct Hd. by apply inode_read_at_ok; try lia.
Qed.

Lemma read_full k :
  Z.of_nat (length (slice (20 * Z.of_nat k) 20 c)) = ENTRY_SIZE ↔ (k < length (entries c))%nat.
Proof.
  unfold slice, ENTRY_SIZE. rewrite length_take, length_drop. pose proof (length_entries c). dlia.
Qed.

Lemma lookup_loop_ok n k name :
  (length (entries c) - k < n)%nat → (k ≤ length (entries c))%nat →
  lookup_loop n (dir_inode dr) name (20 * Z.of_nat k) s =
    Ok (find_entry name (drop k (entries c)) (20 * Z.of_nat k), s).
Proof.
  revert k. induction n as [|n IH]; intros k Hn Hk; [lia|]. cbn [lookup_loop]. pose proof entries_bound.
  rewrite s32_id by (unfold in_s32; lia). erewrite st_bind_ok by by apply read_entry.
  destruct (decide (_ = ENTRY_SIZE)) as [Hf|Hf]; rewrite read_full in Hf.
  - destruct (lookup_lt_is_Some_2 (entries c) k Hf) as [e He]. rewrite (drop_S _ _ _ He).
    pose proof He as [<- _]%entries_lookup. cbn [find_entry]. destruct (entry_in_use e && _); [done|].
    rewrite u32_id by (unfold in_u32, ENTRY_SIZE; lia). unfold ENTRY_SIZE.
    replace (20 * Z.of_nat k + 20) with (20 * Z.of_nat (S k)) by lia. apply IH; lia.
  - by rewrite drop_ge by lia.
Qed.

Lemma lookup_ok name : lookup d name s = Ok (find_entry name (entries c) 0, s).
Proof.
  unfold lookup. rewrite (st_bind_ok _ _ s () s) by (apply assert_ok, bool_decide_eq_true, (da_null _ _ _ _ Hd)).
  erewrite st_bind_ok by apply get_dir_ok. destruct entry_fuel_ok as (n & E & ?). erewrite st_bind_ok by exact E.
  apply (lookup_loop_ok n 0); lia.
Qed.

(** The free slot, with the entry read last in the buffer. *)
Lemma free_slot_loop_ok n k e0 :
  length e0 = 20%nat → (length (entries c) - k < n)%nat → (k ≤ length (entries c))%nat →
  ∃ e, free_slot_loop n (dir_inode dr) (20 * Z.of_nat k) e0 s =
    Ok ((20 * Z.of_nat (k + free_slot (drop k (entries c))), e), s) ∧ length e = 20%nat.
Proof.
  revert k e0. induction n as [|n IH]; intros k e0 H0 Hn Hk; [lia|]. cbn [free_slot_loop]. pose proof entries_bound.
  erewrite st_bind_ok by by apply read_entry.
  assert (length (slice (20 * Z.of_nat k) 20 c) ≤ 20)%nat by (unfold slice; rewrite length_take; lia).
  assert (length (splice 0 (slice (20 * Z.of_nat k) 20 c) e0) = 20%nat) by (rewrite splice_length; lia).
  destruct (decide (_ = ENTRY_SIZE)) as [Hf|Hf].
  - assert (splice 0 (slice (20 * Z.of_nat k) 20 c) e0 = slice (20 * Z.of_nat k) 20 c) as ->.
    { unfold splice. unfold ENTRY_SIZE in Hf. rewrite (drop_ge e0) by lia. by rewrite app_nil_r. }
    rewrite read_full in Hf. destruct (lookup_lt_is_Some_2 (entries c) k Hf) as [e He]. rewrite (drop_S _ _ _ He).
    pose proof (entry_length _ _ _ He). pose proof He as [<- _]%entries_lookup. cbn [free_slot].
    destruct (entry_in_use e).
    + unfold ENTRY_SIZE. rewrite s32_id by (unfold in_s32; lia).
      replace (20 * Z.of_nat k + 20) with (20 * Z.of_nat (S k)) by lia.
      destruct (IH (S k) e) as (e' & -> & ?); [done|lia|lia|]. exists e'. split; [|done]. do 4 f_equal. lia.
    + exists e. split; [|done]. rewrite Nat.add_0_r. done.
  - rewrite read_full in Hf. rewrite drop_ge by lia. eexists. split; [|done]. cbn [free_slot]. by rewrite Nat.add_0_r.
Qed.
End loops.

(** ** dir_add *)

(** The state with entry [k] of a directory replaced. *)
Definition with_entry (dino : inode) (k : nat) (e : list Z) (s : fs) : fs :=
  set_disk (splice (512 * start (data dino) + 20 * Z.of_nat k) e (disk s)) s.

Section add.
Context s d dr dino (Hd : dir_at s d dr dino) (Hdo : dir_ok (content s (data dino))).
Implicit Types (name e : list Z) (k : nat).

Notation c := (content s (data dino)).
Notation es := (entries c).

Lemma with_entry_content k e :
  (k < length es)%nat → length e = 20%nat →
  entries (content (with_entry dino k e s) (data dino)) = <[k := e]> es ∧
  length (content (with_entry dino k e s) (data dino)) = length c.
Proof.
  intros Hk He. pose proof (entries_bound _ _ _ _ Hd). pose proof (da_extent _ _ _ _ Hd) as Hx.
  pose proof (content_length _ _ Hx). unfold with_entry. rewrite content_write by (done || lia).
  split; [by apply entries_splice|apply splice_length; lia].
Qed.

(** Erasing an entry, and writing a new one over an unused one. *)
Lemma with_entry_ok k e old :
  es !! k = Some old → length e = 20%nat →
  let rest := names (take k es ++ drop (S k) es) in
  names (entries (content (with_entry dino k e s) (data dino))) ≡ₚ names [e] ++ rest ∧
  names es ≡ₚ names [old] ++ rest ∧
  (NoDup ((names [e]).*1 ++ rest.*1) → Forall (λ name, (length name ≤ 14)%nat) (names [e]).*1 →
   dir_ok (content (with_entry dino k e s) (data dino))).
Proof.
  intros Hold He rest. assert (k < length es)%nat as Hk by (by eapply lookup_lt_Some).
  destruct (with_entry_content k e Hk He) as [E El].
  pose proof (names_insert es k e Hk) as Hp. split_and!.
  - by rewrite E.
  - by apply names_split.
  - intros Hnd Hs. split; [rewrite El; apply Hdo| |]; rewrite E, Hp, fmap_app; [|done].
    apply Forall_app. split; [done|]. pose proof (do_short _ Hdo) as Ha.
    rewrite (names_split _ _ _ Hold), fmap_app in Ha. by apply Forall_app in Ha as [_ ?].
Qed.

Lemma write_entry k e :
  deny_write_cnt dino = 0 → (k ≤ length es)%nat → length e = 20%nat →
  inode_write_at (dir_inode dr) e ENTRY_SIZE (20 * Z.of_nat k) s =
    if decide (k < length es)%nat then Ok (ENTRY_SIZE, with_entry dino k e s) else Ok (0, s).
Proof.
  intros Hdeny Hk He. pose proof (entries_bound _ _ _ _ Hd). destruct Hd as [_ _ Hi Hx Hm].
  rewrite (inode_write_at_ok _ _ dino) by (done || unfold ENTRY_SIZE; lia).
  pose proof (content_length _ _ Hx) as Hl. pose proof (length_entries c) as Hn. destruct Hdo as [[q Hq] _ _].
  unfold room, ENTRY_SIZE. case_decide.
  - rewrite Z.min_l, Z.max_r by dlia. unfold with_entry. rewrite slice_full by lia. done.
  - rewrite Z.min_r, Z.max_l by dlia. unfold slice. simpl. rewrite splice_nil. by destruct s.
Qed.

Lemma dir_add_ok stale name sec :
  deny_write_cnt dino = 0 → length stale = 20%nat → in_u32 sec → Forall (.≠ 0) name →
  (∃ k old e, dir_add stale d name sec s = Ok (true, with_entry dino k (new_entry name sec e) s) ∧
     good_name name ∧ name ∉ (names es).*1 ∧ es !! k = Some old ∧ entry_in_use old = false ∧ length e = 20%nat) ∨
  (dir_add stale d name sec s = Ok (false, s) ∧
     (¬ good_name name ∨ name ∈ (names es).*1 ∨ Forall (λ e, entry_in_use e = true) es)).
Proof.
  intros Hdeny Hst Hsec Hz. unfold dir_add.
  rewrite (st_bind_ok _ _ s () s) by (apply assert_ok, bool_decide_eq_true, (da_null _ _ _ _ Hd)).
  case_decide as Hbad; unfold NAME_MAX in Hbad.
  { right. split; [done|]. left. intros (? & ? & _). destruct Hbad; [done|lia]. }
  assert (good_name name) as Hg by (split_and!; [tauto|lia|done]).
  erewrite st_bind_ok by by eapply lookup_ok. destruct (find_entry name es 0) as [[e o]|] eqn:Ef.
  { right. split; [done|]. right; left. destruct (decide (name ∈ (names es).*1)) as [|Hni]; [done|].
    by rewrite (proj2 (find_entry_None name es 0) Hni) in Ef. }
  apply find_entry_None in Ef. erewrite st_bind_ok by by eapply get_dir_ok.
  destruct (entry_fuel_ok _ _ _ _ Hd) as (n & E & ?). erewrite st_bind_ok by exact E.
  destruct (free_slot_loop_ok _ _ _ _ Hd n 0 stale) as (e & El & He); [done|lia|lia|].
  erewrite st_bind_ok by exact El. rewrite drop_0. cbn [Nat.add]. fold (new_entry name sec e).
  destruct (free_slot_spec es) as (Hk & Hfree & Hfull).
  pose proof (new_entry_length name sec e Hg He) as Hlen.
  rewrite (st_bind_ok _ _ s (if decide (free_slot es < length es)%nat then ENTRY_SIZE else 0)
    (if decide (free_slot es < length es)%nat then with_entry dino (free_slot es) (new_entry name sec e) s else s))
    by (rewrite write_entry by done; by case_decide).
  case_decide as Hlt.
  - left. destruct (lookup_lt_is_Some_2 es _ Hlt) as [old Hold].
    exists (free_slot es), old, e. split_and!; try done. by apply Hfree.
  - right. split; [done|]. right; right. apply Hfull. lia.
Qed.
End add.

(** ** dir_remove *)

Definition mark_removed (ino : inode) : inode :=
  Inode (sector ino) (open_cnt ino) true (deny_write_cnt ino) (data ino).

Section remove.
Implicit Types (s : fs) (dr : dir) (ino dino fino : inode) (name e : list Z) (k : nat).

Lemma inode_remove_ok s i ino :
  i ≠ NULL → inodes s !! i = Some ino →
  inode_remove i s = Ok ((), set_inodes (<[i := mark_removed ino]> (inodes s)) s).
Proof.
  intros Hn Hi. unfold inode_remove. rewrite (st_bind_ok _ _ s () s) by (by apply assert_ok, bool_decide_eq_true).
  by erewrite st_bind_ok by by apply get_inode_ok.
Qed.

(** The common part: once the file's inode [i] is open in [s1]. *)
Lemma dir_remove_steps s d dr dino s1 i ino k e :
  dir_at s d dr dino → dir_at s1 d dr dino → dir_ok (content s (data dino)) → disk s1 = disk s →
  deny_write_cnt dino = 0 → entries (content s (data dino)) !! k = Some e → i ≠ NULL → inodes s1 !! i = Some ino →
  find_entry (entry_name e) (entries (content s (data dino))) 0 = Some (e, 20 * Z.of_nat k) →
  inode_open (entry_sector e) s = Ok (i, s1) →
  dir_remove d (entry_name e) s =
    (inode_close i;; mret true) (set_inodes (<[i := mark_removed ino]> (inodes s1)) (with_entry dino k (splice 19 [0] e) s1)).
Proof.
  intros Hd Hd1 Hdo Ed Hdeny Hk Hi0 Hi Hf Ho. unfold dir_remove.
  pose proof (entries_bound _ _ _ _ Hd). pose proof (lookup_lt_Some _ _ _ Hk). pose proof (entry_length _ _ _ Hk).
  rewrite (st_bind_ok _ _ s () s) by (apply assert_ok, bool_decide_eq_true, (da_null _ _ _ _ Hd)).
  erewrite st_bind_ok by (eapply lookup_ok, Hd). rewrite Hf. erewrite st_bind_ok by exact Ho.
  rewrite decide_False by done. erewrite st_bind_ok by (eapply get_dir_ok, Hd1).
  rewrite s32_id by (unfold in_s32; lia).
  assert (content s1 (data dino) = content s (data dino)) as Ec by (unfold content; by rewrite Ed).
  erewrite st_bind_ok.
  2:{ rewrite (write_entry s1 d dr dino); [|done|by rewrite Ec|done|rewrite Ec; lia|rewrite splice_length; simpl; lia].
      rewrite Ec. by rewrite decide_True by done. }
  rewrite decide_False by tauto. by erewrite st_bind_ok by by apply inode_remove_ok.
Qed.

(** The file is open elsewhere: its inode stays, marked. *)
Lemma dir_remove_shared s d dr dino k e i ino :
  dir_at s d dr dino → itab_ok s → dir_ok (content s (data dino)) → deny_write_cnt dino = 0 →
  entries (content s (data dino)) !! k = Some e →
  find_entry (entry_name e) (entries (content s (data dino))) 0 = Some (e, 20 * Z.of_nat k) →
  inodes s !! i = Some ino → sector ino = entry_sector e → i ≠ dir_inode dr → open_cnt ino < 2^31 - 1 →
  dir_remove d (entry_name e) s =
    Ok (true, set_inodes (<[i := mark_removed ino]> (inodes s)) (with_entry dino k (splice 19 [0] e) s)).
Proof.
  intros Hd Ht Hdo Hdeny Hk Hf Hi Hs Hne Hc. pose proof (it_cnt _ Ht _ _ Hi) as [? Hr]. unfold in_s32 in Hr.
  assert (i ≠ NULL) as Hi0 by (assert (0 < i < brk s) by (apply (it_fresh _ Ht); eauto); unfold NULL; lia).
  rewrite (dir_remove_steps s d dr dino (set_inodes (<[i := with_open_cnt (open_cnt ino + 1) ino]> (inodes s)) s)
    i (with_open_cnt (open_cnt ino + 1) ino) k e); try done.
  - unfold inode_close. rewrite decide_False by done. st_unfold.
    rewrite (get_inode_ok _ i (mark_removed (with_open_cnt (open_cnt ino + 1) ino))) by (simpl; by rewrite lookup_insert_eq).
    cbn [open_cnt mark_removed with_open_cnt]. rewrite s32_id by (unfold in_s32; lia).
    rewrite decide_False by lia. unfold put_inode. st_unfold. do 2 f_equal.
    unfold mark_removed, with_open_cnt, with_entry, set_inodes, set_disk. simpl.
    rewrite !insert_insert_eq. replace (open_cnt ino + 1 - 1) with (open_cnt ino) by lia. done.
  - destruct Hd as [? ? ? [? ? ? ? ?] ?]. split; try done. simpl. by rewrite lookup_insert_ne.
  - simpl. by rewrite lookup_insert_eq.
  - rewrite (inode_open_shared _ _ i ino) by done. by rewrite s32_id by (unfold in_s32; lia).
Qed.

(** Erasing an entry in use takes its name, and no other, out of the
    directory. *)
Lemma erase_entry s d dr dino :
  dir_at s d dr dino → dir_ok (content s (data dino)) → ∀ k e,
  entries (content s (data dino)) !! k = Some e → entry_in_use e = true →
  let c' := content (with_entry dino k (splice 19 [0] e) s) (data dino) in
  (entry_name e, entry_sector e) :: names (entries c') ≡ₚ names (entries (content s (data dino))) ∧ dir_ok c'.
Proof.
  intros Hd Hdo k e Hk Hu c'. pose proof (entry_length _ _ _ Hk) as He.
  assert (length (splice 19 [0] e) = 20%nat) as He' by (rewrite splice_length; simpl; lia).
  destruct (with_entry_ok s d dr dino Hd Hdo k (splice 19 [0] e) e Hk He') as (Hp & Hq & Hdo').
  rewrite (names_unused _ (erased_in_use e He)) in Hp, Hdo'. rewrite (names_used e Hu) in Hq. split.
  - fold c' in Hp. rewrite Hp, Hq. done.
  - apply Hdo'; [|done]. pose proof (do_nodup _ Hdo) as Hnd. rewrite Hq in Hnd. by apply NoDup_cons in Hnd as [_ ?].
Qed.

(** Extents that share no sector. *)
Definition disjoint_ext (x y : inode_disk) : Prop := start x + sectors x ≤ start y ∨ start y + sectors y ≤ start x.

Lemma fm_set_disk s fino bs :
  fm_ok s fino → length bs = length (disk s) → content (set_disk bs s) (data fino) = content s (data fino) →
  fm_ok (set_disk bs s) fino.
Proof.
  intros [? ? ? ? ? ? ? He ? Hs] Hl Hc. split; try done; [by apply extent_set_disk|]. by rewrite Hc.
Qed.

Lemma with_entry_fm s d dr dino fino k e :
  dir_at s d dr dino → fm_ok s fino → disjoint_ext (data dino) (data fino) →
  (k < length (entries (content s (data dino))))%nat → length e = 20%nat → fm_ok (with_entry dino k e s) fino.
Proof.
  intros Hd Hf Hdis Hk He. pose proof (entries_bound _ _ _ _ Hd). pose proof (da_extent _ _ _ _ Hd) as Hx.
  apply fm_set_disk; [done| |].
  - apply splice_length; destruct Hx; dlia.
  - apply content_other; try done; [apply Hf|lia|lia].
Qed.

Lemma save_content s fino b d :
  fm_ok (save b fino s) fino → extent_ok s d → extent_ok s (data fino) → disjoint_ext d (data fino) →
  content (save b fino s) d = content s d.
Proof.
  intros Hf He Hef Hdis. pose proof (elems_bytes_size _ _ (fm_dev _ _ Hf) (fm_len _ _ Hf)) as E.
  pose proof (fm_size _ _ Hf) as Ez. cbn in E, Ez. change (bits _) with (bits b) in E.
  unfold content, save. cbn [disk set_disk]. destruct He, Hef. unfold disjoint_ext, sectors in Hdis.
  apply slice_splice_other; dlia.
Qed.

(** The file is not open: it is deleted, and its sectors are given back. *)
Lemma dir_remove_fresh s d dr dino fino k e :
  let sec := entry_sector e in
  let f := decode_inode (slice (512 * sec) 512 (disk s)) in
  dir_at s d dr dino → itab_ok s → fm_ok s fino → dir_ok (content s (data dino)) → deny_write_cnt dino = 0 →
  disjoint_ext (data dino) (data fino) →
  entries (content s (data dino)) !! k = Some e →
  find_entry (entry_name e) (entries (content s (data dino))) 0 = Some (e, 20 * Z.of_nat k) →
  (∀ i ino, inodes s !! i = Some ino → sector ino ≠ sec) →
  owned s fino sec 1 → owned s fino (start f) (sectors f) → 0 ≤ length_ f ≤ 2^31 - 512 →
  ¬ (start f ≤ sec < start f + sectors f) →
  ∃ s', dir_remove d (entry_name e) s = Ok (true, s') ∧ inodes s' = inodes s ∧ open_inodes s' = open_inodes s ∧
    fm_ok s' fino ∧ itab_ok s' ∧
    content s' (data dino) = content (with_entry dino k (splice 19 [0] e) s) (data dino) ∧
    ∀ j, 0 ≤ j → bit_at (free_map s') j =
      if decide (j = sec ∨ start f ≤ j < start f + sectors f) then false else bit_at (free_map s) j.
Proof.
  intros sec f Hd Ht Hf Hdo Hdeny Hdis Hk Hfe Hno Ho1 Ho2 Hlen Hap.
  pose proof (fm_file _ _ Hf) as (fl & Hfl & Hfi). pose proof (ow_range _ _ _ _ Ho1) as Hsec.
  destruct (inode_open_fresh s sec) as [Eo Hto]; [done|by destruct Hd|lia|done|].
  pose proof (proj1 (it_fresh _ Ht)) as Hb.
  assert (inodes s !! brk s = None) as Hnew by (apply eq_None_not_Some; intros ?%(it_fresh _ Ht); lia).
  set (r := read_inode s sec).
  set (s3 := set_inodes (<[brk s := mark_removed r]> (inodes (opened s sec))) (with_entry dino k (splice 19 [0] e) (opened s sec))).
  pose proof (entry_length _ _ _ Hk) as He. pose proof (lookup_lt_Some _ _ _ Hk) as Hkl.
  assert (length (splice 19 [0] e) = 20%nat) as He' by (rewrite splice_length; simpl; lia).
  assert (fm_ok s3 fino) as Hf3.
  { apply (fm_frame (with_entry dino k (splice 19 [0] e) s)); try done; [by eapply with_entry_fm|].
    exists fl. split; [done|]. simpl. rewrite !lookup_insert_ne by congruence. done. }
  assert (itab_ok s3) as Ht3.
  { assert (inodes (opened s sec) !! brk s = Some r) as Hr by (simpl; by rewrite lookup_insert_eq).
    destruct (itab_update _ _ r (mark_removed r) Hto Hr); done. }
  destruct (inode_close_removed s3 fino (brk s) (mark_removed r)) as (b & Ec & Hf4 & Ht4 & Hb4); try done.
  { simpl. by rewrite lookup_insert_eq. }
  { simpl. intros E. by eapply Hno. }
  { by destruct Ho1. }
  { by destruct Ho2. }
  exists (unlisted (brk s) (save b fino s3)). split_and!; try done.
  - rewrite (dir_remove_steps s d dr dino (opened s sec) (brk s) r k e); try done.
    + by erewrite st_bind_ok by exact Ec.
    + destruct Hd as [? ? Hdi [? ? ? ? ?] ?]. split; try done. simpl. rewrite lookup_insert_ne by congruence. done.
    + unfold NULL. lia.
    + simpl. by rewrite lookup_insert_eq.
  - simpl. by rewrite insert_insert_eq, delete_insert_id.
  - simpl. rewrite filter_cons_False by tauto. apply filter_all, Forall_forall. intros j Hj ->.
    apply (it_dom _ Ht) in Hj. rewrite Hnew in Hj. by destruct Hj.
  - change (content (save b fino s3) (data dino) = content (with_entry dino k (splice 19 [0] e) s) (data dino)).
    rewrite save_content; [done| | |by destruct (fm_extent _ _ Hf3)|done].
    + apply (fm_frame (unlisted (brk s) (save b fino s3))); try done.
      exists fl. split; [done|]. simpl. rewrite !lookup_insert_ne by congruence. done.
    + apply (extent_set_disk (set_inodes (inodes s3) (opened s sec))); [by destruct (da_extent _ _ _ _ Hd)|].
      simpl. pose proof (entries_bound _ _ _ _ Hd). apply splice_length; destruct (da_extent _ _ _ _ Hd); dlia.
Qed.
End remove.

(** ** dir_readdir and fsutil_ls *)

(** The next entry in use, with its index. *)
Fixpoint next_used (es : list (list Z)) : option (nat * list Z) :=
  match es with
  | [] => None
  | e :: es => if entry_in_use e then Some (O, e) else (λ p, (S p.1, p.2)) <$> next_used es
  end.

(** The directory [d] at offset [p]. *)
Definition at_pos (d i p : Z) (s : fs) : fs := set_dirs (<[d := Dir i p]> (dirs s)) s.

Section readdir.
Context (d i : Z) (dino : inode).
Implicit Types (s : fs) (k n j : nat) (e : list Z) (es : list (list Z)).

Lemma next_used_None es : next_used es = None ↔ names es = [].
Proof.
  induction es as [|e es IH]; [done|]. unfold names in *. simpl. rewrite filter_cons.
  destruct (entry_in_use e); [done|]. rewrite fmap_None. apply IH.
Qed.

Lemma next_used_Some es j e :
  next_used es = Some (j, e) → (j < length es)%nat ∧ names es = (entry_name e, entry_sector e) :: names (drop (S j) es).
Proof.
  revert j. induction es as [|e' es IH]; intros j; [done|]. unfold names in *. simpl. rewrite filter_cons.
  destruct (entry_in_use e') eqn:E.
  - intros [= <- ->]. split; [lia|]. rewrite decide_True by done. done.
  - intros ([j' e''] & E' & [= -> ->])%fmap_Some. apply IH in E' as [? ?]. split; [lia|]. rewrite decide_False by done. done.
Qed.

Lemma at_pos_dir_at s p q : dir_at s d (Dir i p) dino → dir_at (at_pos d i q s) d (Dir i q) dino.
Proof. intros [? ? ? [? ? ? ? ?] ?]. split; try done. simpl. by rewrite lookup_insert_eq. Qed.

Lemma at_pos_at_pos s p q : at_pos d i q (at_pos d i p s) = at_pos d i q s.
Proof. unfold at_pos, set_dirs. simpl. by rewrite insert_insert_eq. Qed.

Lemma at_pos_id s p : dirs s !! d = Some (Dir i p) → at_pos d i p s = s.
Proof. intros H. unfold at_pos, set_dirs. rewrite insert_id by done. by destruct s. Qed.

Lemma readdir_loop_ok n k s :
  let es := entries (content s (data dino)) in
  dir_at s d (Dir i (20 * Z.of_nat k)) dino → (length es - k < n)%nat → (k ≤ length es)%nat →
  readdir_loop n d s =
    match next_used (drop k es) with
    | Some (j, e) => Ok (Some (take 14 (entry_name e)), at_pos d i (20 * Z.of_nat (k + S j)) s)
    | None => Ok (None, at_pos d i (20 * Z.of_nat (length es)) s)
    end.
Proof.
  revert k s. induction n as [|n IH]; intros k s es Hd Hn Hk; [lia|]. cbn [readdir_loop].
  pose proof (entries_bound _ _ _ _ Hd) as Hb. fold es in Hb.
  erewrite st_bind_ok by (eapply get_dir_ok, Hd). erewrite st_bind_ok by (eapply (read_entry _ _ _ _ Hd), Hk).
  cbn [dir_inode dir_pos]. destruct (decide (_ = ENTRY_SIZE)) as [Hf|Hf]; rewrite read_full in Hf; fold es in Hf.
  - destruct (lookup_lt_is_Some_2 es k Hf) as [e He]. rewrite (drop_S _ _ _ He).
    pose proof He as [<- _]%entries_lookup. unfold ENTRY_SIZE. rewrite s32_id by (unfold in_s32; lia).
    replace (20 * Z.of_nat k + 20) with (20 * Z.of_nat (S k)) by lia.
    erewrite (st_bind_ok (put_dir _ _)) by done. fold (at_pos d i (20 * Z.of_nat (S k)) s). cbn [next_used].
    destruct (entry_in_use e); [by rewrite Nat.add_1_r|].
    rewrite (IH (S k)); [|by eapply at_pos_dir_at|change (length es - S k < n)%nat; lia|change (S k ≤ length es)%nat; lia].
    change (content (at_pos d i (20 * Z.of_nat (S k)) s)) with (content s). fold es.
    destruct (next_used (drop (S k) es)) as [[j e']|]; simpl; rewrite at_pos_at_pos; do 3 f_equal; lia.
  - rewrite drop_ge by lia. simpl. replace (length es) with k by lia. rewrite at_pos_id; [done|apply Hd].
Qed.

Lemma dir_readdir_ok k s :
  let es := entries (content s (data dino)) in
  dir_at s d (Dir i (20 * Z.of_nat k)) dino → (k ≤ length es)%nat →
  dir_readdir d s =
    match next_used (drop k es) with
    | Some (j, e) => Ok (Some (take 14 (entry_name e)), at_pos d i (20 * Z.of_nat (k + S j)) s)
    | None => Ok (None, at_pos d i (20 * Z.of_nat (length es)) s)
    end.
Proof.
  intros es Hd Hk. unfold dir_readdir. erewrite st_bind_ok by (eapply get_dir_ok, Hd).
  destruct (entry_fuel_ok _ _ _ _ Hd) as (n & E & ?). erewrite st_bind_ok by exact E.
  apply readdir_loop_ok; try done. lia.
Qed.

(** The loop prints the names from entry [k] on, in order. *)
Lemma ls_loop_ok n k s out :
  let es := entries (content s (data dino)) in
  dir_at s d (Dir i (20 * Z.of_nat k)) dino → (length es - k < n)%nat → (k ≤ length es)%nat →
  ls_loop n d out s = Ok (out ++ (take 14 <$> (names (drop k es)).*1), at_pos d i (20 * Z.of_nat (length es)) s).
Proof.
  revert k s out. induction n as [|n IH]; intros k s out es Hd Hn Hk; [lia|]. cbn [ls_loop].
  unfold mbind, ST_bind at 1. rewrite (dir_readdir_ok k s Hd Hk). fold es.
  destruct (next_used (drop k es)) as [[j e]|] eqn:En.
  - apply next_used_Some in En as [Hj ->]. rewrite length_drop in Hj.
    rewrite (IH (k + S j)%nat); [|by eapply at_pos_dir_at|change (length es - (k + S j) < n)%nat; lia|change (k + S j ≤ length es)%nat; lia].
    change (content (at_pos d i (20 * Z.of_nat (k + S j)) s)) with (content s). fold es.
    rewrite at_pos_at_pos, <- app_assoc, drop_drop. done.
  - apply next_used_None in En as ->. by rewrite app_nil_r.
Qed.
End readdir.

(** ** Names found by lookup *)
Section found.
Implicit Types (c e name : list Z).

Lemma names_elem es p : p ∈ names es ↔ ∃ e, e ∈ es ∧ entry_in_use e = true ∧ p = (entry_name e, entry_sector e).
Proof.
  unfold names. rewrite list_elem_of_fmap. setoid_rewrite list_elem_of_filter. naive_solver.
Qed.

Lemma nodup_fst_eq {A B} (l : list (A * B)) x y z : NoDup l.*1 → (x, y) ∈ l → (x, z) ∈ l → y = z.
Proof.
  induction l as [|[a b] l IH]; simpl; [by intros _ ?%elem_of_nil|]. intros [Ha Hnd]%NoDup_cons.
  assert (∀ v, (a, v) ∈ l → False) as Hn by (intros v Hv; apply Ha, list_elem_of_fmap; by exists (a, v)).
  intros [E1|H1]%elem_of_cons [E2|H2]%elem_of_cons; try (by simplify_eq); try (simplify_eq; exfalso; eauto; done). by apply IH.
Qed.

Lemma find_entry_names c name sec :
  dir_ok c → (name, sec) ∈ names (entries c) →
  ∃ k e, find_entry name (entries c) 0 = Some (e, 20 * Z.of_nat k) ∧ entries c !! k = Some e ∧ entry_sector e = sec ∧
    entry_in_use e = true ∧ entry_name e = name.
Proof.
  intros Hd Hin. destruct (find_entry name (entries c) 0) as [[e o]|] eqn:E.
  - destruct (find_entry_Some _ _ _ _ _ E) as (k & Hk & -> & Hu & Hn). exists k, e. rewrite Z.add_0_l. split_and!; try done.
    eapply (nodup_fst_eq (names (entries c)) name); [apply Hd| |done]. apply names_elem. exists e. split_and!; try done.
    + by eapply list_elem_of_lookup_2.
    + by rewrite Hn.
  - apply find_entry_None in E. destruct E. apply list_elem_of_fmap. by exists (name, sec).
Qed.
End found.

(** ** Opening and closing the root directory *)
Section root.
Context (s : fs) (Ht : itab_ok s) (Hm : oom s = []) (Hsize : 1 < dev_size s)
  (Hno : ∀ i ino, inodes s !! i = Some ino → sector ino ≠ ROOT_DIR_SECTOR).

Notation i := (brk s).
Notation d := (brk s + 1).
Notation rd := (decode_inode (slice 512 512 (disk s))).

(** The state with the root directory open as [d]. *)
Definition rooted : fs := set_dirs (<[d := Dir i 0]> (dirs s)) (set_heap (d + 1) [] (opened s ROOT_DIR_SECTOR)).

Lemma malloc_fresh s0 : oom s0 = [] → malloc s0 = Ok (brk s0, set_heap (brk s0 + 1) [] s0).
Proof. intros H. unfold malloc. erewrite st_bind_ok by by apply malloc_ok_true. st_unfold. by rewrite H. Qed.

Lemma dir_open_root_ok :
  dir_open_root s = Ok (d, rooted) ∧ itab_ok rooted ∧
  (extent_ok s rd → dir_at rooted d (Dir i 0) (read_inode s ROOT_DIR_SECTOR)).
Proof.
  destruct (inode_open_fresh s ROOT_DIR_SECTOR Ht Hm) as [Eo Hto]; [unfold ROOT_DIR_SECTOR; lia|done|].
  pose proof (proj1 (it_fresh _ Ht)) as Hb. split_and!.
  - unfold dir_open_root. erewrite st_bind_ok by exact Eo. unfold dir_open. erewrite st_bind_ok by by apply malloc_fresh.
    rewrite decide_True by (simpl; unfold NULL; lia). done.
  - destruct Hto as [? ? ? ? [? Hf]]. split; try done. simpl in *. split; [lia|]. intros j Hj. apply Hf in Hj. lia.
  - intros [? ? ? ? ?]. split; try done.
    + unfold NULL. lia.
    + simpl. by rewrite lookup_insert_eq.
    + simpl. by rewrite lookup_insert_eq.
Qed.

(** Closing it leaves the state as it was, the addresses used apart. *)
Lemma dir_close_root p s1 ino :
  dirs s !! d = None → inodes s1 = <[i := ino]> (inodes s) → open_inodes s1 = i :: open_inodes s →
  itab_ok s1 → dirs s1 = <[d := Dir i p]> (dirs s) → open_cnt ino = 1 → removed ino = false →
  dir_close d s1 = Ok ((), set_dirs (dirs s) (set_inodes (inodes s) (set_open_inodes (open_inodes s) s1))).
Proof.
  intros Hd Ei Eo Ht1 Ed Hc Hr. pose proof (proj1 (it_fresh _ Ht)) as Hb.
  assert (inodes s !! i = None) as Hnew by (apply eq_None_not_Some; intros ?%(it_fresh _ Ht); lia).
  unfold dir_close. rewrite decide_False by (unfold NULL; lia).
  rewrite (st_bind_ok _ _ s1 (Dir i p) s1) by (unfold get_dir; st_unfold; by rewrite Ed, lookup_insert_eq).
  destruct (inode_close_last s1 i ino) as [E _]; [done|by rewrite Ei, lookup_insert_eq|done..|].
  erewrite st_bind_ok by exact E. unfold st_modify, unlisted. simpl. rewrite Ei, Eo, Ed.
  rewrite !delete_insert_id by done. rewrite filter_cons_False by tauto. rewrite filter_all; [done|].
  apply Forall_forall. intros j Hj ->. apply (it_dom _ Ht) in Hj. rewrite Hnew in Hj. by destruct Hj.
Qed.

(** fsutil_ls prints the names of the root directory, in entry order. *)
Lemma fsutil_ls_ok :
  extent_ok s rd → dir_ok (content s rd) → dirs s !! d = None →
  fsutil_ls s = Ok ((names (entries (content s rd))).*1, set_heap (d + 1) [] s).
Proof.
  intros He Hdo Hdd. destruct dir_open_root_ok as (Eo & Ht1 & Hat). specialize (Hat He).
  unfold fsutil_ls. erewrite st_bind_ok by exact Eo. pose proof (proj1 (it_fresh _ Ht)) as Hb.
  rewrite decide_False by (unfold NULL; lia). erewrite st_bind_ok by (eapply get_dir_ok, Hat).
  destruct (entry_fuel_ok _ _ _ _ Hat) as (n & En & Hn). erewrite st_bind_ok by exact En.
  assert (content rooted (data (read_inode s ROOT_DIR_SECTOR)) = content s rd) as Ec by reflexivity.
  pose proof (ls_loop_ok d i _ n 0 rooted [] Hat) as Hls. cbn zeta in Hls. rewrite Ec in Hn, Hls.
  erewrite st_bind_ok by (apply Hls; lia).
  set (p := 20 * Z.of_nat _). assert (itab_ok (at_pos d i p rooted)) as Ht2 by (by destruct Ht1).
  rewrite (st_bind_ok _ _ _ _ _ (dir_close_root p (at_pos d i p rooted) (read_inode s ROOT_DIR_SECTOR) Hdd
    eq_refl eq_refl Ht2 (insert_insert_eq _ _ _ _) eq_refl eq_refl)).
  rewrite drop_0, app_nil_l. unfold mret, ST_ret. do 2 f_equal.
  apply fmap_id_forall. eapply Forall_impl; [apply (do_short _ Hdo)|]. intros x Hx. by apply take_ge.
Qed.
End root.
