(* ===== verification/FileTheorems.v ===== *)
(** * The file system's properties

    The theorems of the file system, from the lemmas of Inode, FileSpec and
    DirSpec, and runs of the model from a blank device that show their
    hypotheses at work. *)

From S2P Require Import Prelude Bitmap Inode FileSys FileSpec DirSpec.

Local Open Scope Z_scope.

(** ** Runs from a blank device *)

(** The state after an operation, and its result. *)
Definition after {A} (m : FM A) (s : fs) : fs := match m s with Ok (_, s') => s' | Err _ => s end.
Definition result {A} (m : FM A) (s : fs) : option A := match m s with Ok (a, _) => Some a | Err _ => None end.

(** A formatted device of 24 sectors, the same with a file ab of 600 bytes,
    the same with the file open, and with the root directory open. *)
Definition formatted : fs := after (filesys_init [0] true) (blank 24).
Definition ab : list Z := [97; 98].
Definition one_file : fs := after (filesys_create (replicate 20 7) ab 600) formatted.
Definition file_opened : fs := after (filesys_open ab) one_file.
Definition root_opened : fs := after dir_open_root one_file.

(** The inode at an address, the free-map file's inode, and an open
    directory's inode. *)
Definition inode_at (s : fs) (i : Z) : inode := default (Inode 0 0 false 0 (InodeDisk 0 0 0)) (inodes s !! i).
Definition fm_inode (s : fs) : inode := inode_at s (default 0 (file_inode <$> files s !! free_map_file s)).
Definition dir_of (s : fs) (d : Z) : dir := default (Dir 0 0) (dirs s !! d).

#[export] Instance dir_at_dec s d dr dino : Decision (dir_at s d dr dino).
Proof.
  refine (cast_if (decide ((d ≠ NULL ∧ option_map (λ x, (dir_inode x, dir_pos x)) (dirs s !! d) = Some (dir_inode dr, dir_pos dr) ∧
    inodes s !! dir_inode dr = Some dino) ∧ extent_ok s (data dino) ∧ oom s = []))).
  - destruct a as ((? & Hd & ?) & ? & ?). split; try done. destruct (dirs s !! d) as [[]|]; [|done].
    injection Hd as -> ->. by destruct dr.
  - intros [? Hd ? ? ?]. apply n. rewrite Hd. done.
Defined.

#[export] Instance dir_ok_dec c : Decision (dir_ok c).
Proof.
  refine (cast_if (decide (Z.of_nat (length c) `mod` 20 = 0 ∧
    Forall (λ name, (length name ≤ 14)%nat) (names (entries c)).*1 ∧ NoDup (names (entries c)).*1))).
  - destruct a as (? & ? & ?). split; try done. by apply Z.mod_divide.
  - intros [?%Z.mod_divide ? ?]; [|done]. tauto.
Defined.

(** ** Reading and writing *)

(** Inode_read_at returns the bytes of the file from the offset on, as
    many as were asked for and as the file has, and changes nothing. *)
Theorem inode_read_at_content s i ino size offset :
  inodes s !! i = Some ino → extent_ok s (data ino) → oom s = [] → 0 ≤ offset < 2^31 →
  inode_read_at i size offset s = Ok (slice offset size (content s (data ino)), s).
Proof. apply inode_read_at_ok. Qed.

Lemma inode_read_at_content_witness :
  inode_read_at 9 700 510 file_opened = Ok (replicate 90 0, file_opened).
Proof.
  rewrite (inode_read_at_content file_opened 9 (inode_at file_opened 9)); [vm_compute; reflexivity|compute_hyp..|lia].
Defined.

(** C2: inode_write_at changes the bytes of the file from the offset on, as
    far as the buffer and the file reach (nothing while writes are denied),
    returns their number, and reading them back gives them; no other inode
    field and no file whose sectors are disjoint changes. *)
Theorem inode_write_at_content s i ino buffer size offset :
  inodes s !! i = Some ino → extent_ok s (data ino) → oom s = [] → 0 ≤ offset < 2^31 →
  0 ≤ size ≤ Z.of_nat (length buffer) →
  let w := if decide (deny_write_cnt ino = 0) then room ino size offset else 0 in
  ∃ s', inode_write_at i buffer size offset s = Ok (w, s') ∧ inodes s' = inodes s ∧
    content s' (data ino) = splice offset (slice 0 w buffer) (content s (data ino)) ∧
    inode_read_at i w offset s' = Ok (slice 0 w buffer, s') ∧
    ∀ d, extent_ok s d → disjoint_ext (data ino) d → content s' d = content s d.
Proof.
  intros Hi He Hm Ho Hb w. pose proof (room_bounds ino size offset) as (? & ? & ?). pose proof (content_length _ _ He) as Hcl.
  set (x := slice 0 w buffer). set (s' := set_disk (splice (512 * start (data ino) + offset) x (disk s)) s).
  assert (0 ≤ w ≤ size ∧ (w ≠ 0 → offset + w ≤ length_ (data ino))) as [? Hfit].
  { unfold w, room in *. case_decide; lia. }
  assert (Z.of_nat (length x) = w) as Hlen by (unfold x; rewrite slice_length; lia).
  assert (inode_write_at i buffer size offset s = Ok (w, s')) as Hw.
  { unfold s', x, w. case_decide; [apply inode_write_at_ok; done || lia|]. unfold inode_write_at.
    erewrite st_bind_ok by by apply get_inode_ok. rewrite decide_True by done. unfold slice. simpl.
    rewrite splice_nil. by destruct s. }
  exists s'. destruct (decide (w = 0)) as [E|Hw0].
  - assert (x = []) as Ex by (destruct x; [done|simpl in Hlen; lia]).
    assert (s' = s) as Es by (unfold s'; rewrite Ex, splice_nil; by destruct s).
    rewrite Es, Ex, splice_nil in *. split_and!; try done. rewrite E. by rewrite (inode_read_at_ok _ _ ino).
  - assert (content s' (data ino) = splice offset x (content s (data ino))) as Ec by (apply content_write; done || lia).
    split_and!; try done.
    + rewrite (inode_read_at_ok _ _ ino); try done.
      * rewrite Ec, <- Hlen, slice_splice_same by lia. done.
      * apply extent_set_disk; [done|]. apply splice_length; destruct He; dlia.
    + intros d Hd Hdis. apply content_other; done || lia.
Qed.

Lemma inode_write_at_content_witness :
  ∃ s', inode_write_at 9 (replicate 100 5) 100 505 file_opened = Ok (95, s') ∧
    inode_read_at 9 95 505 s' = Ok (replicate 95 5, s').
Proof.
  destruct (inode_write_at_content file_opened 9 (inode_at file_opened 9) (replicate 100 5) 100 505)
    as (s' & Hw & _ & _ & Hr & _); [compute_hyp..|lia|vm_compute; split; discriminate|].
  exists s'. split; [exact Hw|exact Hr].
Defined.

(** ** The free map *)

(** C11: free_map_allocate returns the first run of free sectors that is long
    enough, which was free and is now in use, changes no other bit, and fails
    only if there is no such run; the free-map file holds the new map, and
    reading it into any bitmap of the device's size gives the same bits. *)
Theorem free_map_allocate_first_fit s ino cnt :
  fm_ok s ino → oom s = [] → 0 ≤ cnt → 0 < dev_size s →
  (∃ sec s', free_map_allocate cnt s = Ok (Some sec, s') ∧ fm_ok s' ino ∧ 0 ≤ sec ∧ sec + cnt ≤ dev_size s ∧
     all_bits (free_map s) sec cnt false ∧ (∀ k, 0 ≤ k < sec → ¬ all_bits (free_map s) k cnt false) ∧
     (∀ j, 0 ≤ j → bit_at (free_map s') j = if decide (sec ≤ j < sec + cnt) then true else bit_at (free_map s) j) ∧
     ∀ b0, bit_cnt b0 = dev_size s → Z.of_nat (length (bits b0)) = elem_cnt (dev_size s) →
       ∃ b, bitmap_read b0 (free_map_file s) s' = Ok ((true, b), s') ∧
         ∀ j, 0 ≤ j < dev_size s → bit_at b j = bit_at (free_map s') j) ∨
  (free_map_allocate cnt s = Ok (None, s) ∧
     ∀ k, 0 ≤ k → k + cnt ≤ dev_size s → ¬ all_bits (free_map s) k cnt false).
Proof.
  intros Hf Hm Hc Hp. destruct (free_map_allocate_ok s ino cnt Hf Hm Hc) as [(sec & b & E & Hf' & ? & ? & ? & ? & ?)|?];
    [left|by right].
  exists sec, (save b ino s). split_and!; try done. intros b0 Hc0 Hl0.
  destruct (bitmap_read_ok (save b ino s) ino b0) as (b' & ? & _ & _ & _ & ?); try done. eauto.
Qed.

Lemma free_map_allocate_first_fit_witness :
  ∃ sec s', free_map_allocate 2 formatted = Ok (Some sec, s') ∧ all_bits (free_map formatted) sec 2 false.
Proof.
  destruct (free_map_allocate_first_fit formatted (fm_inode formatted) 2)
    as [(sec & s' & E & _ & _ & _ & Hb & _)|[E _]]; [compute_hyp..|lia|compute_hyp| |].
  - exists sec, s'. split; [exact E|exact Hb].
  - exfalso. vm_compute in E. discriminate E.
Defined.

(** Free_map_release makes the given sectors free, and no others, in
    memory and in the free-map file; it panics if one of them is free
    already. *)
Theorem free_map_release_frees s ino sec cnt :
  fm_ok s ino → oom s = [] → 0 ≤ sec → 0 ≤ cnt → sec + cnt ≤ dev_size s →
  sec + cnt ≤ start (data ino) ∨ start (data ino) + sectors (data ino) ≤ sec →
  (all_bits (free_map s) sec cnt true ∧ ∃ s', free_map_release sec cnt s = Ok ((), s') ∧ fm_ok s' ino ∧
     ∀ j, 0 ≤ j → bit_at (free_map s') j = if decide (sec ≤ j < sec + cnt) then false else bit_at (free_map s) j) ∨
  (¬ all_bits (free_map s) sec cnt true ∧ free_map_release sec cnt s = Err EPanic).
Proof.
  intros Hf Hm Hs Hc Hr Hd. destruct (decide (all_bits (free_map s) sec cnt true)) as [Hb|Hb]; [left|right]; split; try done.
  - destruct (free_map_release_ok s ino sec cnt) as (b & ? & ? & ?); try done. eexists. eauto.
  - unfold free_map_release, of_res. st_unfold.
    destruct (bitmap_all_ok (free_map s) sec cnt) as (r & -> & Hr'); [apply Hf|done|done|by rewrite (fm_cnt _ _ Hf)|].
    destruct r; [|done]. by destruct Hb; apply Hr'.
Qed.

Lemma free_map_release_frees_witness :
  free_map_release 4 1 formatted = Err EPanic ∧ ∃ s', free_map_release 4 1 one_file = Ok ((), s').
Proof.
  split.
  - destruct (free_map_release_frees formatted (fm_inode formatted) 4 1) as [[Hb _]|[_ E]];
      [compute_hyp..| |exact E]. specialize (Hb 4 ltac:(lia)). vm_compute in Hb. discriminate Hb.
  - destruct (free_map_release_frees one_file (fm_inode one_file) 4 1) as [[_ (s' & E & _)]|[_ E]];
      [compute_hyp..|exists s'; exact E|]. vm_compute in E. discriminate E.
Defined.

(** ** Inodes *)

(** C10: inode_create in a sector in use makes a file of the given length
    that inode_open finds there, all zeros; its sectors were free and are now
    in use; sectors in use by other files keep their bytes.  It fails, and
    changes nothing, only if no run of free sectors is long enough. *)
Theorem inode_create_zero_filled s ino sec len :
  fm_ok s ino → itab_ok s → oom s = [] → 0 ≤ len ≤ 2^31 - 512 → 0 ≤ sec < dev_size s →
  bit_at (free_map s) sec = true → ¬ (start (data ino) ≤ sec < start (data ino) + sectors (data ino)) →
  (∀ i f, inodes s !! i = Some f → sector f ≠ sec) →
  (∃ s' i s'' f, inode_create sec len s = Ok (true, s') ∧ fm_ok s' ino ∧ inode_open sec s' = Ok (i, s'') ∧
     inodes s'' !! i = Some f ∧ extent_ok s'' (data f) ∧ content s'' (data f) = replicate (Z.to_nat len) 0 ∧
     all_bits (free_map s) (start (data f)) (sectors (data f)) false ∧
     all_bits (free_map s') (start (data f)) (sectors (data f)) true ∧
     ∀ a n m, spared s ino sec a n → m ≤ 512 * n → slice (512 * a) m (disk s') = slice (512 * a) m (disk s)) ∨
  (inode_create sec len s = Ok (false, s) ∧
     ∀ k, 0 ≤ k → k + (len + 511) / 512 ≤ dev_size s → ¬ all_bits (free_map s) k ((len + 511) / 512) false).
Proof.
  intros Hf Ht Hm Hlen Hsec Hbit Hfm Hno.
  destruct (inode_create_ok s ino sec len) as [(st & b & E & Hs & Ha & Hfree & Hb)|?]; try done; [left|by right].
  set (d := InodeDisk st len INODE_MAGIC) in *. set (s' := created b ino sec d s).
  destruct (inode_open_fresh s' sec) as [Eo _]; [by destruct Ht|done|apply Ha|done|].
  pose proof (created_inode s ino b sec d Hs Ha) as Hd. fold s' in Hd.
  exists s', (brk s'), (opened s' sec), (read_inode s' sec). unfold read_inode. rewrite Hd. cbn [data].
  split_and!; try done.
  - by apply created_fm.
  - simpl. rewrite lookup_insert_eq. unfold read_inode. by rewrite Hd.
  - destruct (created_extent s ino b sec d Hs Ha). by split.
  - by apply created_content.
  - intros j Hj. change (bit_at b j = true). rewrite Hb by (destruct Ha; lia). by rewrite decide_True.
  - intros a n m Hsp Hmn. eapply created_spared; try done. apply Hf.
Qed.

(** A sector is allocated for an inode. *)
Definition inode_reserved : fs := after (free_map_allocate 1) formatted.

Lemma inode_create_zero_filled_witness :
  ∃ s' i s'' f, inode_create 4 1025 inode_reserved = Ok (true, s') ∧ inode_open 4 s' = Ok (i, s'') ∧
    inodes s'' !! i = Some f ∧ content s'' (data f) = replicate 1025 0.
Proof.
  destruct (inode_create_zero_filled inode_reserved (fm_inode inode_reserved) 4 1025)
    as [(s' & i & s'' & f & E & _ & Eo & Ef & _ & Ec & _)|[E _]];
    [compute_hyp..| |].
  - exists s', i, s'', f. split_and!; [exact E|exact Eo|exact Ef|exact Ec].
  - vm_compute in E. discriminate E.
Defined.

(** Closing an inode that others have open only counts down; the last
    close frees it, and gives its sectors back if it was removed: its own and
    its data's become free in memory and in the free-map file, no others. *)
Theorem inode_close_frees s fino i ino :
  fm_ok s fino → itab_ok s → oom s = [] → inodes s !! i = Some ino → sector ino ≠ sector fino →
  0 ≤ length_ (data ino) ≤ 2^31 - 512 → owned s fino (sector ino) 1 →
  owned s fino (start (data ino)) (sectors (data ino)) →
  ¬ (start (data ino) ≤ sector ino < start (data ino) + sectors (data ino)) →
  ∃ s', inode_close i s = Ok ((), s') ∧ itab_ok s' ∧ fm_ok s' fino ∧
    inodes s' = (if decide (open_cnt ino = 1) then delete i (inodes s)
                 else <[i := with_open_cnt (open_cnt ino - 1) ino]> (inodes s)) ∧
    ∀ j, 0 ≤ j → bit_at (free_map s') j =
      if decide (open_cnt ino = 1 ∧ removed ino = true ∧
                 (j = sector ino ∨ start (data ino) ≤ j < start (data ino) + sectors (data ino)))
      then false else bit_at (free_map s) j.
Proof.
  intros Hf Ht Hm Hi Hne Hlen Ho1 Ho2 Hap. pose proof (fm_file _ _ Hf) as (fl & Hfl & Hfi).
  assert (file_inode fl ≠ i) as Hfne by congruence.
  destruct (decide (open_cnt ino = 1)) as [Hc|Hc].
  - destruct (removed ino) eqn:Hr.
    + destruct (inode_close_removed s fino i ino) as (b & E & Hf' & Ht' & Hb); try done.
      eexists. split_and!; try done. intros j Hj. change (free_map (unlisted i (save b fino s))) with b. rewrite (Hb j Hj).
      repeat case_decide; tauto.
    + destruct (inode_close_last s i ino) as [E Ht']; try done. exists (unlisted i s). split_and!; try done.
      * apply (fm_frame s); try done. exists fl. split; [done|]. simpl. by rewrite lookup_delete_ne.
      * intros j Hj. by rewrite decide_False by naive_solver.
  - destruct (inode_close_shared s i ino) as [E Ht']; try done. eexists. split_and!; try done.
    + apply (fm_frame s); try done. exists fl. split; [done|]. simpl. by rewrite lookup_insert_ne.
    + intros j Hj. by rewrite decide_False by naive_solver.
Qed.

(** The open file of [file_opened] is removed. *)
Definition file_removed : fs := after (inode_remove 9) file_opened.

Lemma inode_close_frees_witness :
  ∃ s', inode_close 9 file_removed = Ok ((), s') ∧ bit_at (free_map s') 5 = false ∧ bit_at (free_map file_removed) 5 = true.
Proof.
  destruct (inode_close_frees file_removed (fm_inode file_removed) 9 (inode_at file_removed 9))
    as (s' & E & _ & _ & _ & Hb); [compute_hyp..|].
  exists s'. split_and!; [exact E|rewrite Hb by lia; vm_compute; reflexivity|vm_compute; reflexivity].
Defined.

(** ** Directories *)



(** C13: dir_remove of a name whose file nobody has open deletes the file:
    exactly that name leaves the directory, the inode's sector and the data
    sectors become free, in memory and in the free-map file, no other bit of
    the free map changes, and no inode stays open for it. *)
Theorem dir_remove_deletes s d dr dino fino name sec :
  let f := decode_inode (slice (512 * sec) 512 (disk s)) in
  let es := entries (content s (data dino)) in
  dir_at s d dr dino → itab_ok s → fm_ok s fino → dir_ok (content s (data dino)) → deny_write_cnt dino = 0 →
  disjoint_ext (data dino) (data fino) → (name, sec) ∈ names es →
  (∀ i ino, inodes s !! i = Some ino → sector ino ≠ sec) →
  owned s fino sec 1 → owned s fino (start f) (sectors f) → 0 ≤ length_ f ≤ 2^31 - 512 →
  ¬ (start f ≤ sec < start f + sectors f) →
  ∃ s', dir_remove d name s = Ok (true, s') ∧ (name, sec) :: names (entries (content s' (data dino))) ≡ₚ names es ∧
    dir_ok (content s' (data dino)) ∧ inodes s' = inodes s ∧ open_inodes s' = open_inodes s ∧ fm_ok s' fino ∧
    ∀ j, 0 ≤ j → bit_at (free_map s') j =
      if decide (j = sec ∨ start f ≤ j < start f + sectors f) then false else bit_at (free_map s) j.
Proof.
  intros f es Hd Ht Hf Hdo Hdeny Hdis Hin Hno Ho1 Ho2 Hlen Hap.
  destruct (find_entry_names _ name sec Hdo Hin) as (k & e & Hfe & Hk & <- & Hu & <-).
  destruct (dir_remove_fresh s d dr dino fino k e) as (s' & E & Ei & Eo & Hf' & _ & Ec & Hb); try done.
  destruct (erase_entry s d dr dino Hd Hdo k e Hk Hu) as [Hp Hdo']. rewrite <- Ec in Hp, Hdo'. exists s'. by split_and!.
Qed.

Lemma dir_remove_deletes_witness :
  ∃ s', dir_remove 8 ab root_opened = Ok (true, s') ∧ bit_at (free_map s') 4 = false ∧ bit_at (free_map s') 3 = true.
Proof.
  destruct (dir_remove_deletes root_opened 8 (dir_of root_opened 8) (inode_at root_opened 7) (fm_inode root_opened) ab 4)
    as (s' & E & _ & _ & _ & _ & _ & Hb); [compute_hyp..|].
  exists s'. split_and!; [exact E|rewrite Hb by lia; vm_compute; reflexivity..].
Defined.

(** Dir_remove of a name whose file is open elsewhere takes the name out
    of the directory and marks the inode removed, but keeps it open with the
    same number of openers and keeps all its sectors. *)
Theorem dir_remove_keeps_open s d dr dino name i ino :
  let es := entries (content s (data dino)) in
  dir_at s d dr dino → itab_ok s → dir_ok (content s (data dino)) → deny_write_cnt dino = 0 →
  inodes s !! i = Some ino → (name, sector ino) ∈ names es → i ≠ dir_inode dr → open_cnt ino < 2^31 - 1 →
  ∃ s', dir_remove d name s = Ok (true, s') ∧
    (name, sector ino) :: names (entries (content s' (data dino))) ≡ₚ names es ∧ dir_ok (content s' (data dino)) ∧
    inodes s' = <[i := mark_removed ino]> (inodes s) ∧ free_map s' = free_map s ∧
    ∀ f, extent_ok s f → disjoint_ext (data dino) f → content s' f = content s f.
Proof.
  intros es Hd Ht Hdo Hdeny Hi Hin Hne Hc.
  destruct (find_entry_names _ name _ Hdo Hin) as (k & e & Hfe & Hk & Hs & Hu & <-).
  destruct (erase_entry s d dr dino Hd Hdo k e Hk Hu) as [Hp Hdo']. rewrite Hs in Hp.
  exists (set_inodes (<[i := mark_removed ino]> (inodes s)) (with_entry dino k (splice 19 [0] e) s)). split_and!; try done.
  - by eapply dir_remove_shared.
  - intros f Hf0 Hdis. pose proof (lookup_lt_Some _ _ _ Hk). pose proof (entries_bound _ _ _ _ Hd).
    pose proof (entry_length _ _ _ Hk).
    assert (length (splice 19 [0] e) = 20%nat) by (rewrite splice_length; simpl; lia).
    refine (content_other s (data dino) f _ (20 * Z.of_nat k) _ _ _ _ _); try done; [apply Hd|lia|lia].
Qed.

(** The root directory is open, and so is the file. *)
Definition both_opened : fs := after dir_open_root file_opened.

Lemma dir_remove_keeps_open_witness :
  ∃ s', dir_remove 12 ab both_opened = Ok (true, s') ∧ free_map s' = free_map both_opened ∧
    inodes s' !! 9 = Some (mark_removed (inode_at both_opened 9)).
Proof.
  destruct (dir_remove_keeps_open both_opened 12 (dir_of both_opened 12) (inode_at both_opened 11) ab 9 (inode_at both_opened 9))
    as (s' & E & _ & _ & Ei & Ef & _); [compute_hyp..|].
  exists s'. split_and!; [exact E|exact Ef|]. rewrite Ei. apply lookup_insert_eq.
Defined.

(** Fsutil_ls prints the names of the root directory, each once, in the
    order of its entries, and leaves the file system as it was, the addresses
    it allocated apart. *)
Theorem fsutil_ls_lists s :
  let rd := decode_inode (slice 512 512 (disk s)) in
  itab_ok s → oom s = [] → 1 < dev_size s → (∀ i ino, inodes s !! i = Some ino → sector ino ≠ ROOT_DIR_SECTOR) →
  extent_ok s rd → dir_ok (content s rd) → dirs s !! (brk s + 1) = None →
  fsutil_ls s = Ok ((names (entries (content s rd))).*1, set_heap (brk s + 1 + 1) [] s).
Proof. intros rd Ht Hm Hs Hno. by apply fsutil_ls_ok. Qed.

#[export] Instance dir_eq_dec : EqDecision dir.
Proof. solve_decision. Defined.

Lemma fsutil_ls_lists_witness : fsutil_ls one_file = Ok ([ab], set_heap (brk one_file + 1 + 1) [] one_file).
Proof.
  rewrite (fsutil_ls_lists one_file); [vm_compute; reflexivity|compute_hyp..].
Defined.

(** Filesys_create of a name that exists fails, but the data sectors that
    inode_create allocated for it stay allocated: sectors 8 and 9 are in use
    afterwards, and no inode or directory entry refers to them. *)
Theorem create_existing_leaks :
  result (filesys_create (replicate 20 7) ab 600) one_file = Some false ∧
  (let s := after (filesys_create (replicate 20 7) ab 600) one_file in
   all_bits (free_map one_file) 8 2 false ∧ all_bits (free_map s) 8 2 true ∧ bit_at (free_map s) 7 = false ∧
   names (entries (content s (data (read_inode s ROOT_DIR_SECTOR)))) = [(ab, 4)]).
Proof. cbn zeta. split_and!; compute_hyp. Qed.
