(* ===== verification/Memory.v ===== *)
(** * Byte-addressed memory

    The memory that C code reads and writes through pointers, as a finite map
    from addresses to bytes: an access to an address outside it faults.  A
    [size_t] or a pointer is a number below 2^32 and its arithmetic wraps
    around; words are little-endian.  [write p bs m] is the memory [m] with the
    block [bs] at [p]: the specifications give the final memory of a routine in
    these terms. *)

From S2P Require Import Prelude Bitmap.

Local Open Scope Z_scope.

Abbreviation mem := (gmap Z Z).
Abbreviation MM := (ST mem).

Definition load (p : Z) : MM Z := λ m,
  match m !! p with Some b => Ok (b, m) | None => Err EFault end.

Definition store (p b : Z) : MM () := λ m,
  match m !! p with Some _ => Ok ((), <[p := b]> m) | None => Err EFault end.

(** The 32-bit word at [p], byte by byte. *)
Definition loadw (p : Z) : MM Z :=
  b0 ← load p; b1 ← load (u32 (p + 1)); b2 ← load (u32 (p + 2)); b3 ← load (u32 (p + 3));
  mret (le_word [b0; b1; b2; b3]).

Fixpoint store_bytes (p : Z) (bs : list Z) : MM () :=
  match bs with
  | [] => mret tt
  | b :: bs => store p b;; store_bytes (u32 (p + 1)) bs
  end.

Fixpoint load_bytes (n : nat) (p : Z) : MM (list Z) :=
  match n with
  | O => mret []
  | S n => b ← load p; bs ← load_bytes n (u32 (p + 1)); mret (b :: bs)
  end.

Definition storew (p w : Z) : MM () := store_bytes p (le_bytes 4 w).

(** A bound for loops that read a new address in each iteration. *)
Definition steps (m : mem) : nat := S (size m).

(** ** Blocks of memory *)

(** The memory with the block [bs] written at [p]. *)
Fixpoint write (p : Z) (bs : list Z) (m : mem) : mem :=
  match bs with [] => m | b :: bs => <[p := b]> (write (p + 1) bs m) end.

(** [m] holds the block [bs] at [p]. *)
Definition holds (m : mem) (p : Z) (bs : list Z) : Prop :=
  (0 < p ∧ p + Z.of_nat (length bs) < 2^32) ∧
  ∀ i, (i < length bs)%nat → m !! (p + Z.of_nat i) = bs !! i.

(** [m] has memory for a block of [n] bytes at [p]. *)
Definition mapped (m : mem) (p : Z) (n : nat) : Prop :=
  (0 < p ∧ p + Z.of_nat n < 2^32) ∧
  ∀ i, (i < n)%nat → is_Some (m !! (p + Z.of_nat i)).

(** Two blocks that do not overlap. *)
Definition disjoint_blocks (p : Z) (n : nat) (q : Z) (k : nat) : Prop :=
  p + Z.of_nat n ≤ q ∨ q + Z.of_nat k ≤ p.

#[export] Instance holds_dec m p bs : Decision (holds m p bs).
Proof.
  refine (cast_if (decide ((0 < p ∧ p + Z.of_nat (length bs) < 2^32) ∧
    Forall (λ i, m !! (p + Z.of_nat i) = bs !! i) (seq 0 (length bs)))));
  abstract (unfold holds; rewrite Forall_seq in *; naive_solver lia).
Defined.

#[export] Instance mapped_dec m p n : Decision (mapped m p n).
Proof.
  refine (cast_if (decide ((0 < p ∧ p + Z.of_nat n < 2^32) ∧
    Forall (λ i, is_Some (m !! (p + Z.of_nat i))) (seq 0 n))));
  abstract (unfold mapped; rewrite Forall_seq in *; naive_solver lia).
Defined.

#[export] Instance disjoint_blocks_dec p n q k : Decision (disjoint_blocks p n q k).
Proof. unfold disjoint_blocks. apply _. Defined.

Lemma lookup_write p bs m a :
  write p bs m !! a =
    if decide (p ≤ a < p + Z.of_nat (length bs)) then bs !! Z.to_nat (a - p) else m !! a.
Proof.
  revert p. induction bs as [|b bs IH]; intros p; cbn [write length].
  - by rewrite decide_False by lia.
  - destruct (decide (a = p)) as [->|Hne].
    + rewrite lookup_insert_eq, decide_True by lia. by replace (Z.to_nat (p - p)) with 0%nat by lia.
    + rewrite lookup_insert_ne, IH by done. do 2 case_decide; try lia; [|done].
      by replace (Z.to_nat (a - p)) with (S (Z.to_nat (a - (p + 1)))) by lia.
Qed.

(** Proves that two memories made of [write]s and insertions agree. *)
Ltac mem_eq :=
  apply map_eq; intros ?; repeat (rewrite lookup_write || rewrite lookup_insert);
  repeat case_decide; try lia; try done.

Lemma write_app p xs ys m : write p (xs ++ ys) m = write p xs (write (p + Z.of_nat (length xs)) ys m).
Proof.
  revert p. induction xs as [|x xs IH]; intros p; cbn [write app length].
  - by rewrite Z.add_0_r.
  - rewrite IH. do 3 f_equal. lia.
Qed.

Lemma write_insert p bs b m :
  <[p + Z.of_nat (length bs) := b]> (write p bs m) = write p (bs ++ [b]) m.
Proof.
  apply map_eq. intros a. rewrite lookup_write, length_app. cbn [length].
  destruct (decide (a = p + Z.of_nat (length bs))) as [->|Hne].
  - rewrite lookup_insert_eq, decide_True by lia.
    rewrite lookup_app_r by lia. by replace (Z.to_nat _ - _)%nat with 0%nat by lia.
  - rewrite lookup_insert_ne, lookup_write by done. do 2 case_decide; try lia; [|done].
    by rewrite lookup_app_l by lia.
Qed.

Lemma write_comm p xs q ys m :
  disjoint_blocks p (length xs) q (length ys) → write p xs (write q ys m) = write q ys (write p xs m).
Proof. unfold disjoint_blocks. intros H. mem_eq. Qed.

Lemma write_write p xs ys m :
  length xs = length ys → write p xs (write p ys m) = write p xs m.
Proof. intros H. mem_eq. Qed.

Lemma holds_lookup m p bs i b :
  holds m p bs → bs !! i = Some b → m !! (p + Z.of_nat i) = Some b.
Proof. intros [_ H] E. rewrite H; [done|]. by eapply lookup_lt_Some. Qed.

Lemma holds_write m p bs : 0 < p → p + Z.of_nat (length bs) < 2^32 → holds (write p bs m) p bs.
Proof.
  intros. split; [done|]. intros i Hi. rewrite lookup_write, decide_True by lia. f_equal. lia.
Qed.

Lemma holds_write_other m p bs q ys :
  holds m p bs → disjoint_blocks p (length bs) q (length ys) → holds (write q ys m) p bs.
Proof.
  intros [Hr H] Hd. split; [done|]. intros i Hi. rewrite lookup_write, decide_False.
  - by apply H.
  - unfold disjoint_blocks in Hd. lia.
Qed.

Lemma holds_mapped m p bs : holds m p bs → mapped m p (length bs).
Proof.
  intros [Hr H]. split; [done|]. intros i Hi. rewrite H by done. by apply lookup_lt_is_Some_2.
Qed.

Lemma mapped_holds m p n : mapped m p n → ∃ bs, holds m p bs ∧ length bs = n.
Proof.
  intros [Hr Hm]. set (bs := (λ i, default 0 (m !! (p + Z.of_nat i))) <$> seq 0 n).
  assert (Hl : length bs = n) by (unfold bs; by rewrite length_fmap, length_seq). exists bs. split; [|done].
  split; [by rewrite Hl|]. intros i Hi. rewrite Hl in Hi. unfold bs.
  rewrite list_lookup_fmap, lookup_seq_lt by done. cbn. by destruct (Hm i Hi) as [b ->].
Qed.

Lemma write_some (m : mem) p bs a : is_Some (m !! a) → is_Some (write p bs m !! a).
Proof. intros H. rewrite lookup_write. case_decide; [apply lookup_lt_is_Some_2; lia|done]. Qed.

Lemma mapped_write m p n q ys : mapped m p n → mapped (write q ys m) p n.
Proof.
  intros [Hr H]. split; [done|]. intros i Hi. rewrite lookup_write. case_decide; [|by apply H].
  apply lookup_lt_is_Some_2. lia.
Qed.

Lemma holds_app m p xs ys :
  holds m p (xs ++ ys) → holds m p xs ∧ holds m (p + Z.of_nat (length xs)) ys.
Proof.
  intros [Hr H]. rewrite length_app in *. split; (split; [lia|]); intros i Hi.
  - rewrite H by lia. by apply lookup_app_l.
  - specialize (H (length xs + i)%nat). rewrite lookup_app_r in H by lia.
    replace (length xs + i - length xs)%nat with i in H by lia. rewrite <- H by lia. f_equal. lia.
Qed.

Lemma holds_tail m p b bs : holds m p (b :: bs) → holds m (p + 1) bs.
Proof. by intros [_ ?]%(holds_app m p [b] bs). Qed.

Lemma holds_head m p b bs : holds m p (b :: bs) → m !! p = Some b.
Proof. intros H. rewrite <- (Z.add_0_r p). by apply (holds_lookup m p (b :: bs) 0). Qed.

Lemma holds_prefix m p xs ys : holds m p (xs ++ ys) → holds m p xs.
Proof. by intros [? _]%holds_app. Qed.

Lemma holds_suffix m p xs ys : holds m p (xs ++ ys) → holds m (p + Z.of_nat (length xs)) ys.
Proof. by intros [_ ?]%holds_app. Qed.

(** Writing over a part of a block that is held. *)
Lemma holds_overwrite m p xs ys zs :
  holds m p (xs ++ ys) → length ys = length zs →
  holds (write (p + Z.of_nat (length xs)) zs m) p (xs ++ zs).
Proof.
  intros H E. pose proof H as [Hr H']. rewrite length_app in Hr. split; [rewrite length_app; lia|].
  intros i Hi. rewrite length_app in Hi. rewrite lookup_write. case_decide.
  - rewrite lookup_app_r by lia. f_equal. lia.
  - rewrite H' by (rewrite length_app; lia). by rewrite !lookup_app_l by lia.
Qed.

(** ** Accesses *)

Lemma load_byte_ok p b m : m !! p = Some b → load p m = Ok (b, m).
Proof. unfold load. by intros ->. Qed.

Lemma store_ok p b m : is_Some (m !! p) → store p b m = Ok ((), <[p := b]> m).
Proof. unfold store. by intros [? ->]. Qed.

Lemma load_holds m p b bs : holds m p (b :: bs) → load p m = Ok (b, m).
Proof. intros H. by apply load_byte_ok, (holds_head m p b bs). Qed.

Lemma store_bytes_ok p bs m : mapped m p (length bs) → store_bytes p bs m = Ok ((), write p bs m).
Proof.
  revert p m. induction bs as [|b bs IH]; intros p m [Hr H]; [done|]. cbn [store_bytes length] in *.
  erewrite st_bind_ok by (apply store_ok; rewrite <- (Z.add_0_r p); apply (H 0%nat); lia).
  rewrite u32_id by (unfold in_u32; lia).
  change (<[p := b]> m) with (write p [b] m). rewrite IH.
  - f_equal. f_equal. cbn [write]. mem_eq.
  - apply mapped_write. split; [lia|]. intros i Hi.
    replace (p + 1 + Z.of_nat i) with (p + Z.of_nat (S i)) by lia. apply H. lia.
Qed.

Lemma load_bytes_ok m p bs : holds m p bs → load_bytes (length bs) p m = Ok (bs, m).
Proof.
  revert p. induction bs as [|b bs IH]; intros p H; [done|]. cbn [length load_bytes].
  erewrite st_bind_ok by (by eapply load_holds). pose proof H as [Hr _]. cbn [length] in Hr. rewrite u32_id by (unfold in_u32; lia).
  by erewrite st_bind_ok by (by eapply IH, holds_tail).
Qed.

Lemma storew_ok p w m : mapped m p 4 → storew p w m = Ok ((), write p (le_bytes 4 w) m).
Proof. intros H. apply store_bytes_ok. by rewrite length_le_bytes. Qed.

Lemma le_word_range bs : Forall (λ b, 0 ≤ b < 256) bs → 0 ≤ le_word bs < 256 ^ Z.of_nat (length bs).
Proof.
  induction 1 as [|b bs Hb _ IH]; cbn [le_word length]; [lia|].
  rewrite Nat2Z.inj_succ, Z.pow_succ_r by lia. lia.
Qed.

Lemma loadw_ok p bs m :
  holds m p bs → length bs = 4%nat → loadw p m = Ok (le_word bs, m).
Proof.
  intros H E. destruct bs as [|b0 [|b1 [|b2 [|b3 [|]]]]]; try done. pose proof H as [Hr H'].
  cbn [length] in Hr. unfold loadw. rewrite !u32_id by (unfold in_u32; lia).
  do 4 (erewrite st_bind_ok; [|apply load_byte_ok;
    first [rewrite <- (Z.add_0_r p); apply (H' 0%nat) | apply (H' 1%nat) | apply (H' 2%nat) | apply (H' 3%nat)];
    cbn; lia]). done.
Qed.

(** A word read back. *)
Lemma loadw_word p w m : holds m p (le_bytes 4 w) → in_u32 w → loadw p m = Ok (w, m).
Proof.
  intros H Hw. rewrite (loadw_ok p _ m H) by apply length_le_bytes.
  by rewrite (le_word_bytes 4) by (unfold in_u32 in Hw; lia).
Qed.

(** The word at an address. *)
Definition word (m : mem) (p : Z) : Z :=
  le_word ((λ i, default 0 (m !! (p + i))) <$> [0; 1; 2; 3]).

(** The word that four bytes make. *)
Lemma word_bytes m p bs :
  length bs = 4%nat → (∀ i b, bs !! i = Some b → m !! (p + Z.of_nat i) = Some b) → word m p = le_word bs.
Proof.
  intros Hl H. destruct bs as [|b0 [|b1 [|b2 [|b3 [|]]]]]; try done. unfold word. cbn [fmap list_fmap].
  assert (E0 : m !! (p + 0) = Some b0) by exact (H 0%nat b0 eq_refl).
  assert (E1 : m !! (p + 1) = Some b1) by exact (H 1%nat b1 eq_refl).
  assert (E2 : m !! (p + 2) = Some b2) by exact (H 2%nat b2 eq_refl).
  assert (E3 : m !! (p + 3) = Some b3) by exact (H 3%nat b3 eq_refl).
  by rewrite E0, E1, E2, E3.
Qed.

Lemma loadw_mapped p m : mapped m p 4 → loadw p m = Ok (word m p, m).
Proof.
  intros Hm. destruct (mapped_holds m p 4 Hm) as (bs & Hb & Hl). rewrite (loadw_ok p bs m Hb Hl).
  rewrite (word_bytes m p bs Hl); [done|]. intros i b. by apply holds_lookup.
Qed.

Lemma word_write m p w : in_u32 w → word (write p (le_bytes 4 w) m) p = w.
Proof.
  intros Hw. rewrite (word_bytes _ p (le_bytes 4 w)); [|apply length_le_bytes|].
  - apply (le_word_bytes 4). unfold in_u32 in Hw. lia.
  - intros i b E. apply lookup_lt_Some in E as Hi. rewrite length_le_bytes in Hi.
    rewrite lookup_write, length_le_bytes, decide_True by lia. by replace (Z.to_nat _) with i by lia.
Qed.

Lemma word_write_other m p q bs :
  disjoint_blocks p 4 q (length bs) → word (write q bs m) p = word m p.
Proof.
  unfold disjoint_blocks, word. intros Hd. f_equal. apply list_fmap_ext. intros i x Hx.
  assert (0 ≤ x < 4) by (apply list_elem_of_lookup_2 in Hx; rewrite !elem_of_cons, elem_of_nil in Hx; lia).
  rewrite lookup_write. by rewrite decide_False by lia.
Qed.

(** The words of a block of zeros. *)
Lemma word_zeros m p n q :
  q ≤ p → p + 4 ≤ q + Z.of_nat n → word (write q (replicate n 0) m) p = 0.
Proof.
  intros H1 H2. unfold word. cbn [fmap list_fmap].
  assert (Hz : ∀ i, 0 ≤ i < 4 → write q (replicate n 0) m !! (p + i) = Some 0).
  { intros i Hi. rewrite lookup_write, length_replicate, decide_True by lia. apply lookup_replicate_2. lia. }
  by rewrite !Hz by lia.
Qed.
