(* ===== verification/CString.v ===== *)
(** * lib/string.c: memory blocks and C strings

    Every routine of string.c on the memory of Memory.v, byte by byte in the
    order of the source.  [while (size-- > 0)] is recursion on [size]; a loop
    over a string has the number of mapped addresses as its bound, which the
    theorems show to be enough.  [cstr m p s] says that memory holds the string
    [s] and its terminator at [p]. *)

From S2P Require Import Prelude Bitmap Memory.

Local Open Scope Z_scope.

(** ** Blocks *)

(** [*dst++ = *src++], [n] times; the final [dst]. *)
Fixpoint copy_up (n : nat) (dst src : Z) : MM Z :=
  match n with
  | O => mret dst
  | S n => b ← load src; store dst b;; copy_up n (u32 (dst + 1)) (u32 (src + 1))
  end.

(** [*--dst = *--src], [n] times; the final [dst]. *)
Fixpoint copy_down (n : nat) (dst src : Z) : MM Z :=
  match n with
  | O => mret dst
  | S n => b ← load (u32 (src - 1)); store (u32 (dst - 1)) b;; copy_down n (u32 (dst - 1)) (u32 (src - 1))
  end.

Definition nonnull_or_empty (p size : Z) : bool := bool_decide (p ≠ NULL ∨ size = 0).

Definition memcpy (dst_ src_ size : Z) : MM Z :=
  ASSERT (nonnull_or_empty dst_ size);;
  ASSERT (nonnull_or_empty src_ size);;
  _ ← copy_up (Z.to_nat size) dst_ src_;
  mret dst_.

(** The source returns its variable [dst], which the loops have moved. *)
Definition memmove (dst_ src_ size : Z) : MM Z :=
  ASSERT (nonnull_or_empty dst_ size);;
  ASSERT (nonnull_or_empty src_ size);;
  if decide (dst_ < src_) then copy_up (Z.to_nat size) dst_ src_
  else copy_down (Z.to_nat size) (u32 (dst_ + size)) (u32 (src_ + size)).

Fixpoint memcmp_loop (n : nat) (a b : Z) : MM Z :=
  match n with
  | O => mret 0
  | S n =>
      x ← load a; y ← load b;
      if decide (x ≠ y) then mret (if decide (y < x) then 1 else -1)
      else memcmp_loop n (u32 (a + 1)) (u32 (b + 1))
  end.

Definition memcmp (a_ b_ size : Z) : MM Z :=
  ASSERT (nonnull_or_empty a_ size);;
  ASSERT (nonnull_or_empty b_ size);;
  memcmp_loop (Z.to_nat size) a_ b_.

Fixpoint memchr_loop (n : nat) (block ch : Z) : MM Z :=
  match n with
  | O => mret NULL
  | S n => b ← load block; if decide (b = ch) then mret block else memchr_loop n (u32 (block + 1)) ch
  end.

Definition memchr (block_ ch_ size : Z) : MM Z :=
  ASSERT (nonnull_or_empty block_ size);;
  memchr_loop (Z.to_nat size) block_ (ch_ `mod` 256).

Fixpoint memset_loop (n : nat) (dst value : Z) : MM () :=
  match n with
  | O => mret tt
  | S n => store dst (value `mod` 256);; memset_loop n (u32 (dst + 1)) value
  end.

Definition memset (dst_ value size : Z) : MM Z :=
  ASSERT (nonnull_or_empty dst_ size);;
  memset_loop (Z.to_nat size) dst_ value;;
  mret dst_.

(** ** Strings *)

Fixpoint strcmp_loop (fuel : nat) (a b : Z) : MM (Z * Z) :=
  match fuel with
  | O => st_fail EFuel
  | S fuel =>
      x ← load a;
      if decide (x = 0) then mret (a, b) else
      y ← load b;
      if decide (x = y) then strcmp_loop fuel (u32 (a + 1)) (u32 (b + 1)) else mret (a, b)
  end.

Definition strcmp (a_ b_ : Z) : MM Z :=
  ASSERT (bool_decide (a_ ≠ NULL));;
  ASSERT (bool_decide (b_ ≠ NULL));;
  m ← st_get;
  ab ← strcmp_loop (steps m) a_ b_;
  x ← load ab.1; y ← load ab.2;
  mret (if decide (x < y) then -1 else if decide (y < x) then 1 else 0).

Fixpoint strchr_loop (fuel : nat) (string c : Z) : MM Z :=
  match fuel with
  | O => st_fail EFuel
  | S fuel =>
      b ← load string;
      if decide (b = c) then mret string
      else if decide (b = 0) then mret NULL
      else strchr_loop fuel (u32 (string + 1)) c
  end.

Definition strchr (string c_ : Z) : MM Z :=
  ASSERT (bool_decide (string ≠ NULL));;
  m ← st_get;
  strchr_loop (steps m) string (c_ `mod` 256).

Fixpoint strcspn_loop (fuel : nat) (string stop length : Z) : MM Z :=
  match fuel with
  | O => st_fail EFuel
  | S fuel =>
      b ← load (u32 (string + length));
      if decide (b = 0) then mret length else
      q ← strchr stop b;
      if decide (q ≠ NULL) then mret length else strcspn_loop fuel string stop (u32 (length + 1))
  end.

Definition strcspn (string stop : Z) : MM Z :=
  m ← st_get; strcspn_loop (steps m) string stop 0.

Fixpoint strpbrk_loop (fuel : nat) (string stop : Z) : MM Z :=
  match fuel with
  | O => st_fail EFuel
  | S fuel =>
      b ← load string;
      if decide (b = 0) then mret NULL else
      q ← strchr stop b;
      if decide (q ≠ NULL) then mret string else strpbrk_loop fuel (u32 (string + 1)) stop
  end.

Definition strpbrk (string stop : Z) : MM Z :=
  m ← st_get; strpbrk_loop (steps m) string stop.

Fixpoint strrchr_loop (fuel : nat) (string c p : Z) : MM Z :=
  match fuel with
  | O => st_fail EFuel
  | S fuel =>
      b ← load string;
      if decide (b = 0) then mret p
      else strrchr_loop fuel (u32 (string + 1)) c (if decide (b = c) then string else p)
  end.

Definition strrchr (string c_ : Z) : MM Z :=
  m ← st_get; strrchr_loop (steps m) string (c_ `mod` 256) NULL.

Fixpoint strspn_loop (fuel : nat) (string skip length : Z) : MM Z :=
  match fuel with
  | O => st_fail EFuel
  | S fuel =>
      b ← load (u32 (string + length));
      if decide (b = 0) then mret length else
      q ← strchr skip b;
      if decide (q = NULL) then mret length else strspn_loop fuel string skip (u32 (length + 1))
  end.

Definition strspn (string skip : Z) : MM Z :=
  m ← st_get; strspn_loop (steps m) string skip 0.

Fixpoint strlen_loop (fuel : nat) (p : Z) : MM Z :=
  match fuel with
  | O => st_fail EFuel
  | S fuel => b ← load p; if decide (b = 0) then mret p else strlen_loop fuel (u32 (p + 1))
  end.

Definition strlen (string : Z) : MM Z :=
  ASSERT (bool_decide (string ≠ NULL));;
  m ← st_get;
  p ← strlen_loop (steps m) string;
  mret (u32 (p - string)).

(** The source tests [string[length]] before [length < maxlen]. *)
Fixpoint strnlen_loop (fuel : nat) (string maxlen length : Z) : MM Z :=
  match fuel with
  | O => st_fail EFuel
  | S fuel =>
      b ← load (u32 (string + length));
      if decide (b ≠ 0 ∧ length < maxlen) then strnlen_loop fuel string maxlen (u32 (length + 1))
      else mret length
  end.

Definition strnlen (string maxlen : Z) : MM Z :=
  m ← st_get; strnlen_loop (steps m) string maxlen 0.

Fixpoint strstr_loop (n : nat) (haystack needle needle_len i : Z) : MM Z :=
  match n with
  | O => mret NULL
  | S n =>
      c ← memcmp (u32 (haystack + i)) needle needle_len;
      if decide (c = 0) then mret (u32 (haystack + i))
      else strstr_loop n haystack needle needle_len (i + 1)
  end.

Definition strstr (haystack needle : Z) : MM Z :=
  haystack_len ← strlen haystack;
  needle_len ← strlen needle;
  if decide (needle_len ≤ haystack_len) then
    strstr_loop (Z.to_nat (haystack_len - needle_len + 1)) haystack needle needle_len 0
  else mret NULL.

(** The two [while]s of strtok_r: past the delimiters ([None] at the end of the
    string, with the position), then past the token. *)
Fixpoint skip_delimiters (fuel : nat) (s delimiters : Z) : MM (bool * Z) :=
  match fuel with
  | O => st_fail EFuel
  | S fuel =>
      b ← load s;
      q ← strchr delimiters b;
      if decide (q ≠ NULL) then
        if decide (b = 0) then mret (false, s) else skip_delimiters fuel (u32 (s + 1)) delimiters
      else mret (true, s)
  end.

Fixpoint skip_token (fuel : nat) (s delimiters : Z) : MM Z :=
  match fuel with
  | O => st_fail EFuel
  | S fuel =>
      b ← load s;
      q ← strchr delimiters b;
      if decide (q = NULL) then skip_token fuel (u32 (s + 1)) delimiters else mret s
  end.

Definition strtok_r (s delimiters save_ptr : Z) : MM Z :=
  ASSERT (bool_decide (delimiters ≠ NULL));;
  ASSERT (bool_decide (save_ptr ≠ NULL));;
  s ← (if decide (s = NULL) then loadw save_ptr else mret s);
  ASSERT (bool_decide (s ≠ NULL));;
  m ← st_get;
  r ← skip_delimiters (steps m) s delimiters;
  if (r.1 : bool) then
    let token := r.2 in
    s ← skip_token (steps m) token delimiters;
    b ← load s;
    (if decide (b ≠ 0) then store s 0;; storew save_ptr (u32 (s + 1)) else storew save_ptr s);;
    mret token
  else storew save_ptr r.2;; mret NULL.

Definition strlcpy (dst src size : Z) : MM Z :=
  ASSERT (bool_decide (dst ≠ NULL));;
  ASSERT (bool_decide (src ≠ NULL));;
  src_len ← strlen src;
  (if decide (0 < size) then
    let dst_len := if decide (src_len < size - 1) then src_len else size - 1 in
    _ ← memcpy dst src dst_len;
    store (u32 (dst + dst_len)) 0
  else mret tt);;
  mret src_len.

Definition strlcat (dst src size : Z) : MM Z :=
  ASSERT (bool_decide (dst ≠ NULL));;
  ASSERT (bool_decide (src ≠ NULL));;
  src_len ← strlen src;
  dst_len ← strlen dst;
  (if decide (0 < size ∧ dst_len < size) then
    let copy_cnt := if decide (src_len < size - dst_len - 1) then src_len else size - dst_len - 1 in
    _ ← memcpy (u32 (dst + dst_len)) src copy_cnt;
    store (u32 (dst + dst_len + copy_cnt)) 0
  else mret tt);;
  mret (u32 (src_len + dst_len)).

(** ** Correctness of the block routines *)

Lemma nonnull_ok p size : 0 < p → nonnull_or_empty p size = true.
Proof. intros. apply bool_decide_eq_true. left. unfold NULL. lia. Qed.

Lemma mapped_offset m p n i : mapped m p n → (i < n)%nat → is_Some (m !! (p + Z.of_nat i)).
Proof. intros [_ H] ?. by apply H. Qed.

(** A forward copy that has done its first [length xs] bytes: the source is
    not overwritten when it is apart from the destination or above it. *)
Lemma copy_up_ok m dst src xs ys :
  holds m src (xs ++ ys) → mapped m dst (length (xs ++ ys)) →
  dst ≤ src ∨ disjoint_blocks dst (length (xs ++ ys)) src (length (xs ++ ys)) →
  copy_up (length ys) (dst + Z.of_nat (length xs)) (src + Z.of_nat (length xs)) (write dst xs m) =
    Ok (dst + Z.of_nat (length (xs ++ ys)), write dst (xs ++ ys) m).
Proof.
  revert xs. induction ys as [|y ys IH]; intros xs Hs Hd Hsep.
  { by rewrite app_nil_r. }
  pose proof Hs as [Hrs _]. pose proof Hd as [Hrd _]. unfold disjoint_blocks in Hsep.
  rewrite length_app in *. cbn [length] in *. cbn [copy_up].
  erewrite st_bind_ok.
  2:{ apply load_byte_ok. rewrite lookup_write, decide_False by lia. apply (holds_lookup _ _ _ _ _ Hs).
      by apply list_lookup_middle. }
  erewrite st_bind_ok.
  2:{ apply store_ok. rewrite lookup_write, decide_False by lia.
      apply (mapped_offset _ _ _ _ Hd). lia. }
  rewrite write_insert, !u32_id by (unfold in_u32; lia).
  specialize (IH (xs ++ [y])). rewrite <- app_assoc in IH. cbn [app] in IH.
  rewrite !length_app in IH. cbn [length] in IH.
  replace (Z.of_nat (length xs + 1)) with (Z.of_nat (length xs) + 1) in IH by lia.
  rewrite !Z.add_assoc in IH. by rewrite IH by auto.
Qed.

(** A backward copy that has done the last [length ys] bytes. *)
Lemma copy_down_ok m dst src xs ys :
  holds m src (xs ++ ys) → mapped m dst (length (xs ++ ys)) → src ≤ dst →
  copy_down (length xs) (dst + Z.of_nat (length xs)) (src + Z.of_nat (length xs))
    (write (dst + Z.of_nat (length xs)) ys m) = Ok (dst, write dst (xs ++ ys) m).
Proof.
  revert ys. induction xs as [|x xs IH] using rev_ind; intros ys Hs Hd Hle.
  { cbn [length copy_down app]. by rewrite !Z.add_0_r. }
  pose proof Hs as [Hrs _]. pose proof Hd as [Hrd _].
  rewrite !length_app in *. cbn [length] in *. rewrite Nat.add_comm. cbn [copy_down Nat.add].
  replace (dst + Z.of_nat (S (length xs))) with (dst + Z.of_nat (length xs) + 1) by lia.
  replace (src + Z.of_nat (S (length xs))) with (src + Z.of_nat (length xs) + 1) by lia.
  rewrite !Z.add_simpl_r, !u32_id by (unfold in_u32; lia).
  rewrite <- app_assoc in Hs. cbn [app] in Hs.
  erewrite st_bind_ok.
  2:{ apply load_byte_ok. rewrite lookup_write, decide_False by lia. apply (holds_lookup _ _ _ _ _ Hs).
      by apply list_lookup_middle. }
  erewrite st_bind_ok.
  2:{ apply store_ok. rewrite lookup_write, decide_False by lia.
      apply (mapped_offset _ _ _ _ Hd). lia. }
  change (<[?a := ?b]> (write (?a + 1) ?l ?m')) with (write a (b :: l) m').
  rewrite IH, <- app_assoc; auto. rewrite length_app. cbn [length].
  by replace (length xs + S (length ys))%nat with (length xs + 1 + length ys)%nat by lia.
Qed.

Lemma memcpy_ok m dst src bs :
  holds m src bs → mapped m dst (length bs) →
  disjoint_blocks dst (length bs) src (length bs) →
  memcpy dst src (Z.of_nat (length bs)) m = Ok (dst, write dst bs m).
Proof.
  intros Hs Hd Hsep. pose proof Hs as [[] _]. pose proof Hd as [[] _]. unfold memcpy.
  do 2 erewrite st_bind_ok by (by apply assert_ok, nonnull_ok).
  rewrite Nat2Z.id. erewrite st_bind_ok; [done|].
  pose proof (copy_up_ok m dst src [] bs Hs Hd (or_intror Hsep)) as E.
  cbn [app length write] in E. by rewrite !Z.add_0_r in E.
Qed.

Lemma memmove_ok m dst src bs :
  holds m src bs → mapped m dst (length bs) →
  memmove dst src (Z.of_nat (length bs)) m =
    Ok (if decide (dst < src) then dst + Z.of_nat (length bs) else dst, write dst bs m).
Proof.
  intros Hs Hd. pose proof Hs as [[] _]. pose proof Hd as [[] _]. unfold memmove.
  do 2 erewrite st_bind_ok by (by apply assert_ok, nonnull_ok). rewrite Nat2Z.id. case_decide as Hlt.
  - pose proof (copy_up_ok m dst src [] bs Hs Hd (or_introl (Z.lt_le_incl _ _ Hlt))) as H'.
    cbn [app length write] in H'. by rewrite !Z.add_0_r in H'.
  - rewrite !u32_id by (unfold in_u32; lia).
    pose proof (copy_down_ok m dst src bs []) as H'. rewrite !app_nil_r in H'. apply H'; auto. lia.
Qed.

Lemma memset_loop_ok m p v n xs :
  mapped m p (length xs + n) →
  memset_loop n (p + Z.of_nat (length xs)) v (write p xs m) =
    Ok ((), write p (xs ++ replicate n (v `mod` 256)) m).
Proof.
  revert xs. induction n as [|n IH]; intros xs Hm; [by rewrite app_nil_r|].
  pose proof Hm as [Hr _]. cbn [memset_loop replicate].
  erewrite st_bind_ok.
  2:{ apply store_ok. rewrite lookup_write, decide_False by lia. apply (mapped_offset _ _ _ _ Hm). lia. }
  rewrite write_insert, u32_id by (unfold in_u32; lia).
  specialize (IH (xs ++ [v `mod` 256])). rewrite length_app in IH. cbn [length] in IH.
  replace (Z.of_nat (length xs + 1)) with (Z.of_nat (length xs) + 1) in IH by lia.
  rewrite Z.add_assoc, <- app_assoc in IH. apply IH.
  by replace (length xs + 1 + n)%nat with (length xs + S n)%nat by lia.
Qed.

Lemma memset_ok m p v n :
  mapped m p n → memset p v (Z.of_nat n) m = Ok (p, write p (replicate n (v `mod` 256)) m).
Proof.
  intros Hm. pose proof Hm as [[] _]. unfold memset.
  erewrite st_bind_ok by (by apply assert_ok, nonnull_ok). rewrite Nat2Z.id.
  pose proof (memset_loop_ok m p v n [] Hm) as H'. cbn [app length write] in H'.
  rewrite Z.add_0_r in H'. by erewrite st_bind_ok by done.
Qed.

(** ** Correctness of the string routines *)

(** The string [s] and its terminator at [p]. *)
Definition cstr (m : mem) (p : Z) (s : list Z) : Prop :=
  holds m p (s ++ [0]) ∧ Forall (λ b, 0 < b < 256) s.

#[export] Instance cstr_dec m p s : Decision (cstr m p s).
Proof. unfold cstr. apply _. Defined.

(** A block that memory holds is no longer than memory. *)
Lemma holds_size m p bs : holds m p bs → (length bs ≤ size m)%nat.
Proof.
  intros [_ H]. set (addrs := (λ i, p + Z.of_nat i) <$> seq 0 (length bs)).
  assert (Hnd : NoDup addrs) by (apply NoDup_fmap_2; [intros ???; lia|apply NoDup_seq]).
  replace (length bs) with (size (list_to_set addrs : gset Z)).
  - rewrite <- (size_dom (D:=gset Z)). apply subseteq_size. intros a.
    rewrite elem_of_list_to_set, elem_of_dom. intros (i & -> & Hi%elem_of_seq)%list_elem_of_fmap.
    rewrite H by lia. apply lookup_lt_is_Some_2. lia.
  - rewrite size_list_to_set by done. unfold addrs. by rewrite length_fmap, length_seq.
Qed.

Lemma cstr_steps m p s : cstr m p s → (length s < steps m)%nat.
Proof. intros [H%holds_size _]. rewrite length_app in H. cbn [length] in H. unfold steps. lia. Qed.

Lemma cstr_cons m p b s : cstr m p (b :: s) → load p m = Ok (b, m) ∧ b ≠ 0 ∧ 0 < b < 256 ∧
  u32 (p + 1) = p + 1 ∧ cstr m (p + 1) s.
Proof.
  intros [H Hb]. inversion Hb; subst. pose proof H as [Hr _]. cbn [app length] in *.
  rewrite length_app in Hr. split_and!; [by eapply load_holds|lia|lia|lia| |split; [|done]].
  - apply u32_id. unfold in_u32. lia.
  - by eapply holds_tail.
Qed.

Lemma cstr_nil m p : cstr m p [] → load p m = Ok (0, m).
Proof. intros [H _]. by eapply load_holds. Qed.

Lemma cstr_range m p s : cstr m p s → 0 < p ∧ p + Z.of_nat (length s) + 1 < 2^32.
Proof. intros [[Hr _] _]. rewrite length_app in Hr. cbn [length] in Hr. lia. Qed.

Lemma cstr_suffix m p s t : cstr m p (s ++ t) → cstr m (p + Z.of_nat (length s)) t.
Proof.
  intros [H Hb]. apply Forall_app in Hb as [_ Hb]. split; [|done].
  rewrite <- app_assoc in H. by apply holds_suffix in H.
Qed.

Lemma cstr_write m p s q ys :
  cstr m p s → disjoint_blocks p (S (length s)) q (length ys) → cstr (write q ys m) p s.
Proof.
  intros [H Hb] Hd. split; [|done]. apply holds_write_other; [done|].
  rewrite length_app. cbn [length]. by rewrite Nat.add_1_r.
Qed.

Lemma strlen_loop_ok m p s fuel :
  cstr m p s → (length s < fuel)%nat → strlen_loop fuel p m = Ok (p + Z.of_nat (length s), m).
Proof.
  revert p fuel. induction s as [|b s IH]; intros p [|fuel] Hs Hf; try (cbn in Hf; lia); cbn [strlen_loop].
  - erewrite st_bind_ok by (by apply cstr_nil). cbn [length]. by rewrite Z.add_0_r.
  - apply cstr_cons in Hs as (E & Hne & _ & Eu & Hs). erewrite st_bind_ok by done.
    rewrite decide_False, Eu, IH by (done || (cbn in Hf; lia)). cbn [length]. do 2 f_equal. lia.
Qed.

Lemma strlen_ok m p s : cstr m p s → strlen p m = Ok (Z.of_nat (length s), m).
Proof.
  intros Hs. pose proof (cstr_range _ _ _ Hs). unfold strlen.
  erewrite st_bind_ok by (apply assert_ok, bool_decide_eq_true; unfold NULL; lia).
  change (st_get ≫= ?k) with (λ m', k m' m'). cbn beta.
  erewrite st_bind_ok by (apply strlen_loop_ok; [done|by eapply cstr_steps]).
  unfold mret, ST_ret. do 2 f_equal. rewrite u32_id; [lia|unfold in_u32; lia].
Qed.

(** The place of the first element that satisfies [P]. *)
Fixpoint position (P : Z → Prop) `{∀ x, Decision (P x)} (l : list Z) : option nat :=
  match l with
  | [] => None
  | x :: l => if decide (P x) then Some 0%nat else S <$> position P l
  end.

(** A place as a pointer, NULL when there is none. *)
Definition pointer (p : Z) (o : option nat) : Z :=
  match o with Some i => p + Z.of_nat i | None => NULL end.

Lemma position_none P `{∀ x, Decision (P x)} l : position P l = None ↔ Forall (λ x, ¬ P x) l.
Proof.
  induction l as [|x l IH]; cbn [position]; [by repeat constructor|].
  rewrite Forall_cons, <- IH. case_decide; [naive_solver|].
  destruct (position P l); naive_solver.
Qed.

Lemma pointer_shift p o : pointer (p + 1) o = pointer p (S <$> o).
Proof. destruct o; cbn; lia. Qed.

Lemma strchr_loop_ok m p s c fuel :
  cstr m p s → (length s < fuel)%nat →
  strchr_loop fuel p c m = Ok (pointer p (position (.= c) (s ++ [0])), m).
Proof.
  revert p fuel. induction s as [|b s IH]; intros p [|fuel] Hs Hf; try (cbn in Hf; lia); cbn [strchr_loop app position].
  - erewrite st_bind_ok by (by apply cstr_nil). case_decide; [|done]. cbn. by rewrite Z.add_0_r.
  - apply cstr_cons in Hs as (E & Hne & _ & Eu & Hs). erewrite st_bind_ok by done.
    case_decide as Ec; [cbn; by rewrite Z.add_0_r|].
    rewrite decide_False, Eu, IH by (done || (cbn in Hf; lia)). by rewrite pointer_shift.
Qed.

Lemma strchr_ok m p s c :
  cstr m p s → 0 ≤ c < 256 → strchr p c m = Ok (pointer p (position (.= c) (s ++ [0])), m).
Proof.
  intros Hs Hc. pose proof (cstr_range _ _ _ Hs). unfold strchr.
  erewrite st_bind_ok by (apply assert_ok, bool_decide_eq_true; unfold NULL; lia).
  change (st_get ≫= ?k) with (λ m', k m' m'). cbn beta. rewrite Z.mod_small by done.
  apply strchr_loop_ok; [done|by eapply cstr_steps].
Qed.

(** strchr as a membership test. *)
Lemma strchr_member m p s c :
  cstr m p s → 0 ≤ c < 256 →
  ∃ q, strchr p c m = Ok (q, m) ∧ (q ≠ NULL ↔ c ∈ s ++ [0]).
Proof.
  intros Hs Hc. eexists. split; [by apply strchr_ok|]. pose proof (cstr_range _ _ _ Hs).
  destruct (position (.= c) (s ++ [0])) as [i|] eqn:E.
  - split; [intros _|cbn; unfold NULL; lia]. apply dec_stable. intros Hn.
    rewrite (proj2 (position_none _ _)) in E; [done|]. apply Forall_forall. by intros x Hx ->.
  - split; [done|]. apply position_none in E. rewrite Forall_forall in E. intros Hin. by destruct (E c Hin).
Qed.

(** The sign of the first difference of two blocks. *)
Fixpoint lex (xs ys : list Z) : Z :=
  match xs, ys with
  | x :: xs, y :: ys => if decide (x ≠ y) then if decide (y < x) then 1 else -1 else lex xs ys
  | _, _ => 0
  end.

Lemma lex_zero xs ys : length xs = length ys → lex xs ys = 0 ↔ xs = ys.
Proof.
  revert ys. induction xs as [|x xs IH]; intros [|y ys] E; try done. cbn [lex].
  case_decide as Hne; [|subst y; injection E as E; rewrite IH by done; naive_solver].
  split; [by case_decide|]. intros [= -> _]. done.
Qed.

(** Strings are equal when their bytes up to the first terminator are. *)
Lemma lex_strings s t :
  Forall (λ b, 0 < b < 256) s → Forall (λ b, 0 < b < 256) t → lex (s ++ [0]) (t ++ [0]) = 0 ↔ s = t.
Proof.
  intros Hs. revert t. induction Hs as [|x s Hx Hs IH]; intros t Ht; destruct Ht as [|y t Hy Ht]; cbn [app lex].
  - done.
  - rewrite decide_True by lia. case_decide; [lia|done].
  - rewrite decide_True by lia. case_decide; [done|lia].
  - case_decide as Hne; [|subst y; rewrite IH by done; naive_solver].
    split; [by case_decide|]. intros [= -> _]. done.
Qed.

Lemma memcmp_loop_ok m p q xs ys :
  holds m p xs → holds m q ys → length xs = length ys →
  memcmp_loop (length xs) p q m = Ok (lex xs ys, m).
Proof.
  revert p q ys. induction xs as [|x xs IH]; intros p q [|y ys] Hp Hq E; try done. cbn [memcmp_loop lex length].
  erewrite st_bind_ok by (by eapply load_holds). erewrite st_bind_ok by (by eapply load_holds).
  case_decide as Hne; [done|]. pose proof Hp as [[] _]. pose proof Hq as [[] _]. cbn [length] in *.
  rewrite !u32_id by (unfold in_u32; lia). apply IH; [by eapply holds_tail..|lia].
Qed.

Lemma memcmp_ok m p q xs ys :
  holds m p xs → holds m q ys → length xs = length ys →
  memcmp p q (Z.of_nat (length xs)) m = Ok (lex xs ys, m).
Proof.
  intros Hp Hq E. pose proof Hp as [[] _]. pose proof Hq as [[] _]. unfold memcmp.
  do 2 erewrite st_bind_ok by (by apply assert_ok, nonnull_ok). rewrite Nat2Z.id. by apply memcmp_loop_ok.
Qed.

Lemma strcmp_loop_ok m p q s t fuel :
  cstr m p s → cstr m q t → (length s < fuel)%nat →
  ∃ a b x y, strcmp_loop fuel p q m = Ok ((a, b), m) ∧ load a m = Ok (x, m) ∧ load b m = Ok (y, m) ∧
    lex (s ++ [0]) (t ++ [0]) = (if decide (x < y) then -1 else if decide (y < x) then 1 else 0).
Proof.
  revert p q t fuel. induction s as [|x s IH]; intros p q t [|fuel] Hp Hq Hf; try (cbn in Hf; lia);
    cbn [strcmp_loop app lex].
  - pose proof (cstr_nil _ _ Hp) as Ep. erewrite st_bind_ok by done. rewrite decide_True by done.
    destruct t as [|y t].
    + exists p, q, 0, 0. split_and!; [done|done|by apply cstr_nil|]. by repeat case_decide.
    + apply cstr_cons in Hq as (Eq & Hy & Hy' & _). exists p, q, 0, y. split_and!; [done..|].
      cbn [app]. repeat case_decide; lia.
  - apply cstr_cons in Hp as (Ep & Hx & Hx' & Eu & Hp). erewrite st_bind_ok by done.
    rewrite decide_False by done. destruct t as [|y t].
    + pose proof (cstr_nil _ _ Hq) as Eq. erewrite st_bind_ok by done. rewrite decide_False by done.
      exists p, q, x, 0. split_and!; [done..|]. cbn [app]. repeat case_decide; lia.
    + apply cstr_cons in Hq as (Eq & Hy & Hy' & Eu' & Hq). erewrite st_bind_ok by done. cbn [app].
      case_decide as Exy.
      * subst y. rewrite Eu, Eu'. rewrite decide_False by (intros []; done).
        apply IH; [done..|cbn in Hf; lia].
      * exists p, q, x, y. split_and!; [done..|]. repeat case_decide; lia.
Qed.

Lemma strcmp_ok m p q s t :
  cstr m p s → cstr m q t → strcmp p q m = Ok (lex (s ++ [0]) (t ++ [0]), m).
Proof.
  intros Hp Hq. pose proof (cstr_range _ _ _ Hp). pose proof (cstr_range _ _ _ Hq). unfold strcmp.
  do 2 erewrite st_bind_ok by (apply assert_ok, bool_decide_eq_true; unfold NULL; lia).
  change (st_get ≫= ?k) with (λ m', k m' m'). cbn beta.
  destruct (strcmp_loop_ok m p q s t (steps m)) as (a & b & x & y & E & Ea & Eb & ->);
    [done|done|by eapply cstr_steps|].
  erewrite st_bind_ok by done. cbn [fst snd]. erewrite st_bind_ok by done. by erewrite st_bind_ok by done.
Qed.

(** ** Bounded copies *)

Lemma holds_mid m p xs ys zs : holds m p (xs ++ ys ++ zs) → holds m (p + Z.of_nat (length xs)) ys.
Proof. by intros ?%holds_suffix%holds_prefix. Qed.

Lemma take_zlen {A} (l : list A) (n : Z) :
  0 ≤ n ≤ Z.of_nat (length l) → n = Z.of_nat (length (take (Z.to_nat n) l)).
Proof. intros. rewrite length_take. lia. Qed.

(** Copying the first [n] bytes of a string and a terminator. *)
Lemma copy_prefix m dst src s n :
  cstr m src s → 0 ≤ n ≤ Z.of_nat (length s) → mapped m dst (S (Z.to_nat n)) →
  disjoint_blocks dst (S (Z.to_nat n)) src (S (length s)) →
  (_ ← memcpy dst src n; store (u32 (dst + n)) 0) m =
    Ok ((), write dst (take (Z.to_nat n) s ++ [0]) m).
Proof.
  intros [Hs _] Hn Hd Hsep. pose proof Hd as [Hr Hd']. unfold disjoint_blocks in Hsep.
  assert (El : length (take (Z.to_nat n) s) = Z.to_nat n) by (rewrite length_take; lia).
  assert (Ecpy : memcpy dst src n m = Ok (dst, write dst (take (Z.to_nat n) s) m)).
  { rewrite (take_zlen s n Hn) at 1. apply memcpy_ok.
    - rewrite <- (take_drop (Z.to_nat n) s), <- app_assoc in Hs. by apply holds_prefix in Hs.
    - rewrite El. split; [lia|]. intros i Hi. apply Hd'. lia.
    - rewrite El. unfold disjoint_blocks. lia. }
  erewrite st_bind_ok by done. rewrite u32_id by (unfold in_u32; lia).
  replace (dst + n) with (dst + Z.of_nat (length (take (Z.to_nat n) s))) by lia.
  rewrite store_ok, write_insert; [done|]. rewrite lookup_write, decide_False by lia.
  rewrite El. apply Hd'. lia.
Qed.

Lemma strlcpy_ok m dst src s size :
  cstr m src s → 0 < size < 2^32 → mapped m dst (Z.to_nat size) →
  disjoint_blocks dst (Z.to_nat size) src (S (length s)) →
  strlcpy dst src size m =
    Ok (Z.of_nat (length s), write dst (take (Z.to_nat (size - 1)) s ++ [0]) m).
Proof.
  intros Hs Hsz Hd Hsep. pose proof (cstr_range _ _ _ Hs). pose proof Hd as [Hr Hd'].
  unfold disjoint_blocks in Hsep. unfold strlcpy.
  do 2 erewrite st_bind_ok by (apply assert_ok, bool_decide_eq_true; unfold NULL; lia).
  erewrite st_bind_ok by (by apply strlen_ok). rewrite (decide_True _ _ (proj1 Hsz)).
  set (n := if decide _ then _ else _).
  assert (Hn : 0 ≤ n ≤ Z.of_nat (length s) ∧ n ≤ size - 1 ∧ take (Z.to_nat n) s = take (Z.to_nat (size - 1)) s).
  { unfold n. case_decide; [|auto with lia]. split_and!; [lia..|]. rewrite !take_ge by lia. done. }
  destruct Hn as (Hn & Hle & <-). erewrite st_bind_ok; [done|]. apply copy_prefix; [done|done| |].
  - split; [lia|]. intros i Hi. apply Hd'. lia.
  - unfold disjoint_blocks. lia.
Qed.

Lemma strlcat_ok m dst src d s size :
  cstr m src s → cstr m dst d → Z.of_nat (length d) < size < 2^32 → mapped m dst (Z.to_nat size) →
  disjoint_blocks dst (Z.to_nat size) src (S (length s)) →
  strlcat dst src size m =
    Ok (Z.of_nat (length s) + Z.of_nat (length d),
      write (dst + Z.of_nat (length d)) (take (Z.to_nat (size - 1) - length d) s ++ [0]) m).
Proof.
  intros Hs Hd Hsz Hm Hsep. pose proof (cstr_range _ _ _ Hs). pose proof (cstr_range _ _ _ Hd).
  pose proof Hm as [Hr Hm']. unfold disjoint_blocks in Hsep. unfold strlcat.
  do 2 erewrite st_bind_ok by (apply assert_ok, bool_decide_eq_true; unfold NULL; lia).
  do 2 erewrite st_bind_ok by (by apply strlen_ok). rewrite decide_True by lia.
  set (n := if decide _ then _ else _).
  assert (Hn : 0 ≤ n ≤ Z.of_nat (length s) ∧ n ≤ size - Z.of_nat (length d) - 1 ∧
    take (Z.to_nat n) s = take (Z.to_nat (size - 1) - length d) s).
  { unfold n. case_decide; [split_and!; [lia..|]; rewrite !take_ge by lia; done|].
    split_and!; [lia..|]. f_equal. lia. }
  destruct Hn as (Hn & Hle & <-).
  rewrite (u32_id (dst + _)) by (unfold in_u32; lia).
  erewrite st_bind_ok; [unfold mret, ST_ret; rewrite u32_id by (unfold in_u32; lia); done|].
  apply copy_prefix; [done|done| |].
  - split; [lia|]. intros i Hi. rewrite <- Z.add_assoc, <- Nat2Z.inj_add. apply Hm'. lia.
  - unfold disjoint_blocks. lia.
Qed.

(** ** Searches *)

(** strchr on a character other than the terminator. *)
Lemma strchr_set m p s c :
  cstr m p s → 0 < c < 256 → ∃ q, strchr p c m = Ok (q, m) ∧ (q ≠ NULL ↔ c ∈ s).
Proof.
  intros Hs Hc. destruct (strchr_member m p s c) as (q & E & Hq); [done|lia|]. exists q. split; [done|].
  rewrite Hq, elem_of_app, list_elem_of_singleton. naive_solver lia.
Qed.

(** strspn and strcspn count the characters up to the first one outside [set],
    or inside it. *)
Lemma strspn_loop_ok m p q pre s set fuel :
  cstr m p (pre ++ s) → cstr m q set → (length s < fuel)%nat →
  strspn_loop fuel p q (Z.of_nat (length pre)) m =
    Ok (Z.of_nat (length pre + default (length s) (position (.∉ set) s)), m).
Proof.
  revert pre fuel. induction s as [|b s IH]; intros pre [|fuel] Hp Hq Hf; try (cbn in Hf; lia);
    pose proof (cstr_range _ _ _ Hp); rewrite length_app in *; cbn [strspn_loop length] in *;
    rewrite (u32_id (p + _)) by (unfold in_u32; lia); pose proof (cstr_suffix _ _ _ _ Hp) as Hs.
  - erewrite st_bind_ok by (by apply cstr_nil). cbn. by rewrite Nat.add_0_r.
  - apply cstr_cons in Hs as (E & Hne & Hb & _ & _). erewrite st_bind_ok by done.
    rewrite decide_False by done. destruct (strchr_set m q set b) as (r & Er & Hmem); [done|lia|].
    erewrite st_bind_ok by done. cbn [position].
    destruct (decide (r = NULL)) as [Er'|Er'].
    + rewrite decide_True by (rewrite <- Hmem; auto). cbn. by rewrite Nat.add_0_r.
    + rewrite decide_False by (rewrite <- Hmem; auto). rewrite u32_id by (unfold in_u32; lia).
      specialize (IH (pre ++ [b]) fuel). rewrite <- app_assoc, length_app in IH. cbn [app length] in IH.
      replace (Z.of_nat (length pre) + 1) with (Z.of_nat (length pre + 1)) by lia.
      rewrite IH by (done || lia). destruct (position _ s); cbn; do 2 f_equal; lia.
Qed.

Lemma strcspn_loop_ok m p q pre s set fuel :
  cstr m p (pre ++ s) → cstr m q set → (length s < fuel)%nat →
  strcspn_loop fuel p q (Z.of_nat (length pre)) m =
    Ok (Z.of_nat (length pre + default (length s) (position (.∈ set) s)), m).
Proof.
  revert pre fuel. induction s as [|b s IH]; intros pre [|fuel] Hp Hq Hf; try (cbn in Hf; lia);
    pose proof (cstr_range _ _ _ Hp); rewrite length_app in *; cbn [strcspn_loop length] in *;
    rewrite (u32_id (p + _)) by (unfold in_u32; lia); pose proof (cstr_suffix _ _ _ _ Hp) as Hs.
  - erewrite st_bind_ok by (by apply cstr_nil). cbn. by rewrite Nat.add_0_r.
  - apply cstr_cons in Hs as (E & Hne & Hb & _ & _). erewrite st_bind_ok by done.
    rewrite decide_False by done. destruct (strchr_set m q set b) as (r & Er & Hmem); [done|lia|].
    erewrite st_bind_ok by done. cbn [position].
    destruct (decide (r ≠ NULL)) as [Er'|Er'].
    + rewrite decide_True by (by apply Hmem). cbn. by rewrite Nat.add_0_r.
    + rewrite decide_False by (by rewrite <- Hmem). rewrite u32_id by (unfold in_u32; lia).
      specialize (IH (pre ++ [b]) fuel). rewrite <- app_assoc, length_app in IH. cbn [app length] in IH.
      replace (Z.of_nat (length pre) + 1) with (Z.of_nat (length pre + 1)) by lia.
      rewrite IH by (done || lia). destruct (position _ s); cbn; do 2 f_equal; lia.
Qed.

Lemma strpbrk_loop_ok m p q s set fuel :
  cstr m p s → cstr m q set → (length s < fuel)%nat →
  strpbrk_loop fuel p q m = Ok (pointer p (position (.∈ set) s), m).
Proof.
  revert p fuel. induction s as [|b s IH]; intros p [|fuel] Hp Hq Hf; try (cbn in Hf; lia);
    cbn [strpbrk_loop position].
  - by erewrite st_bind_ok by (by apply cstr_nil).
  - apply cstr_cons in Hp as (E & Hne & Hb & Eu & Hp). erewrite st_bind_ok by done.
    rewrite decide_False by done. destruct (strchr_set m q set b) as (r & Er & Hmem); [done|lia|].
    erewrite st_bind_ok by done.
    destruct (decide (r ≠ NULL)) as [Er'|Er'].
    + rewrite decide_True by (by apply Hmem). cbn. by rewrite Z.add_0_r.
    + rewrite decide_False by (by rewrite <- Hmem). rewrite Eu, IH by (done || (cbn in Hf; lia)).
      by rewrite pointer_shift.
Qed.

(** strstr finds the first place where [needle] occurs. *)
Definition occurs_at (needle h : list Z) (i : nat) : Prop := take (length needle) (drop i h) = needle.

Lemma strstr_loop_ok m p q h needle n i :
  cstr m p h → cstr m q needle → (i + n + length needle ≤ S (length h))%nat →
  ∃ r, strstr_loop n p q (Z.of_nat (length needle)) (Z.of_nat i) m = Ok (r, m) ∧
    ((∃ j, r = p + Z.of_nat j ∧ (i ≤ j < i + n)%nat ∧ occurs_at needle h j ∧
        ∀ k, (i ≤ k < j)%nat → ¬ occurs_at needle h k) ∨
     r = NULL ∧ ∀ k, (i ≤ k < i + n)%nat → ¬ occurs_at needle h k).
Proof.
  intros Hp Hq. pose proof (cstr_range _ _ _ Hp). pose proof Hp as [Hh _]. pose proof Hq as [Hn _].
  apply holds_prefix in Hh, Hn. revert i. induction n as [|n IH]; intros i Hi; cbn [strstr_loop].
  { exists NULL. split; [done|]. right. split; [done|]. lia. }
  rewrite (u32_id (p + _)) by (unfold in_u32; lia). set (w := take (length needle) (drop i h)).
  assert (Ew : length w = length needle) by (unfold w; rewrite length_take, length_drop; lia).
  assert (Hw : holds m (p + Z.of_nat i) w).
  { rewrite <- (take_drop i h), <- (take_drop (length needle) (drop i h)) in Hh. apply holds_mid in Hh.
    by rewrite length_take_le in Hh by lia. }
  erewrite st_bind_ok by (rewrite <- Ew; by apply memcmp_ok). case_decide as Ec.
  - apply lex_zero in Ec; [|done]. eexists. split; [done|]. left. exists i. split_and!; [done|lia..|done|lia].
  - assert (Hno : ¬ occurs_at needle h i).
    { intros Ho. apply Ec, lex_zero; [done|]. exact Ho. }
    destruct (IH (S i)) as (r & Er & Hr); [lia|]. replace (Z.of_nat i + 1) with (Z.of_nat (S i)) by lia.
    exists r. split; [done|].
    assert (Hstep : ∀ k, k = i → ¬ occurs_at needle h k) by (by intros k ->).
    destruct Hr as [(j & -> & Hj & Ho & Hk)|[-> Hk]]; [left; exists j|right]; split_and!; try done; try lia;
      intros k Hk'; destruct (decide (k = i)); auto; apply Hk; lia.
Qed.

(** ** Tokens *)

Section strtok.
Context (m : mem) (d : Z) (ds : list Z) (Hd : cstr m d ds).

(** The first loop: over [skip], up to the end or to another character. *)
Lemma skip_delimiters_ok p skip r fuel :
  cstr m p (skip ++ r) → Forall (.∈ ds) skip → (∀ b r', r = b :: r' → b ∉ ds) → (length skip < fuel)%nat →
  skip_delimiters fuel p d m = Ok ((bool_decide (r ≠ []), p + Z.of_nat (length skip)), m).
Proof.
  revert p fuel. induction skip as [|b skip IH]; intros p [|fuel] Hp Hs Hr Hf; try (cbn in Hf; lia);
    cbn [skip_delimiters app length] in *.
  - rewrite Z.add_0_r. destruct r as [|b r].
    + erewrite st_bind_ok by (by apply cstr_nil).
      destruct (strchr_member m d ds 0) as (q & E & Hq); [done|lia|]. erewrite st_bind_ok by done.
      rewrite decide_True, decide_True; [done|done|]. apply Hq, elem_of_app. right. by apply list_elem_of_singleton.
    + apply cstr_cons in Hp as (E & Hne & Hb & _). erewrite st_bind_ok by done.
      destruct (strchr_set m d ds b) as (q & Eq & Hq); [done|lia|]. erewrite st_bind_ok by done.
      rewrite decide_False; [done|]. rewrite Hq. by eapply Hr.
  - apply cstr_cons in Hp as (E & Hne & Hb & Eu & Hp). apply Forall_cons in Hs as [Hbs Hs].
    erewrite st_bind_ok by done. destruct (strchr_set m d ds b) as (q & Eq & Hq); [done|lia|].
    erewrite st_bind_ok by done. rewrite decide_True by (by apply Hq). rewrite decide_False by done.
    rewrite Eu, IH by (done || lia). do 3 f_equal. lia.
Qed.

(** The second loop: over the token, up to a delimiter or the end. *)
Lemma skip_token_ok p tok r fuel :
  cstr m p (tok ++ r) → Forall (.∉ ds) tok → (∀ b r', r = b :: r' → b ∈ ds) → (length tok < fuel)%nat →
  skip_token fuel p d m = Ok (p + Z.of_nat (length tok), m).
Proof.
  revert p fuel. induction tok as [|b tok IH]; intros p [|fuel] Hp Hs Hr Hf; try (cbn in Hf; lia);
    cbn [skip_token app length] in *.
  - rewrite Z.add_0_r. destruct r as [|b r].
    + erewrite st_bind_ok by (by apply cstr_nil).
      destruct (strchr_member m d ds 0) as (q & E & Hq); [done|lia|]. erewrite st_bind_ok by done.
      rewrite decide_False; [done|]. intros Hq'. apply Hq; [|done]. apply elem_of_app. right. by apply list_elem_of_singleton.
    + apply cstr_cons in Hp as (E & Hne & Hb & _). erewrite st_bind_ok by done.
      destruct (strchr_set m d ds b) as (q & Eq & Hq); [done|lia|]. erewrite st_bind_ok by done.
      rewrite decide_False; [done|]. apply Hq. by eapply Hr.
  - apply cstr_cons in Hp as (E & Hne & Hb & Eu & Hp). apply Forall_cons in Hs as [Hbs Hs].
    erewrite st_bind_ok by done. destruct (strchr_set m d ds b) as (q & Eq & Hq); [done|lia|].
    erewrite st_bind_ok by done. rewrite decide_True by (apply dec_stable; by rewrite Hq).
    rewrite Eu, IH by (done || lia). do 2 f_equal. lia.
Qed.
End strtok.

(** The tokens of a string: its maximal parts without delimiters. *)
Fixpoint words_from (ds cur t : list Z) : list (list Z) :=
  match t with
  | [] => match cur with [] => [] | _ => [cur] end
  | c :: t =>
      if decide (c ∈ ds) then
        match cur with [] => words_from ds [] t | _ => cur :: words_from ds [] t end
      else words_from ds (cur ++ [c]) t
  end.
Definition words (ds t : list Z) : list (list Z) := words_from ds [] t.

Lemma words_skip ds skip t : Forall (.∈ ds) skip → words ds (skip ++ t) = words ds t.
Proof. unfold words. induction 1; [done|]. cbn. by rewrite decide_True. Qed.

Lemma words_token ds cur tok t :
  Forall (.∉ ds) tok → words_from ds cur (tok ++ t) = words_from ds (cur ++ tok) t.
Proof.
  intros H. revert cur. induction H as [|c tok Hc _ IH]; intros cur; [by rewrite app_nil_r|].
  cbn. rewrite decide_False, IH by done. by rewrite <- app_assoc.
Qed.

Lemma words_step ds tok r :
  tok ≠ [] → Forall (.∉ ds) tok → (∀ b r', r = b :: r' → b ∈ ds) →
  words ds (tok ++ r) = tok :: words ds (tail r).
Proof.
  intros Hne H Hr. unfold words. rewrite words_token by done. cbn [app].
  destruct r as [|c r]; cbn; [by destruct tok|]. rewrite decide_True by (by eapply Hr). by destruct tok.
Qed.

(** A list splits where a property first fails. *)
Lemma span_split (P : Z → Prop) `{∀ x, Decision (P x)} (l : list Z) :
  ∃ a b, l = a ++ b ∧ Forall P a ∧ ∀ x b', b = x :: b' → ¬ P x.
Proof.
  induction l as [|x l (a & b & -> & Ha & Hb)]; [by exists [], []|].
  destruct (decide (P x)); [exists (x :: a), b; auto|]. exists [], (x :: a ++ b). split_and!; naive_solver.
Qed.

(** What a call of strtok_r finds: the rest [t] of the string at [s], given by
    the argument [s0] or saved at [sv], and the delimiters at [d], all apart. *)
Record tokenizing (m : mem) (s0 s d sv : Z) (t ds : list Z) : Prop := {
  tk_str : cstr m s t;
  tk_delims : cstr m d ds;
  tk_save : mapped m sv 4;
  tk_sv_s : disjoint_blocks sv 4 s (S (length t));
  tk_sv_d : disjoint_blocks sv 4 d (S (length ds));
  tk_d_s : disjoint_blocks d (S (length ds)) s (S (length t));
  tk_from : s0 = s ∨ s0 = NULL ∧ holds m sv (le_bytes 4 s);
}.

Section strtok_r.
Context (m : mem) (s0 s d sv : Z) (ds : list Z).

(** The call up to its first loop. *)
Lemma strtok_r_start t skip r :
  tokenizing m s0 s d sv t ds → t = skip ++ r → Forall (.∈ ds) skip → (∀ b r', r = b :: r' → b ∉ ds) →
  strtok_r s0 d sv m =
    if bool_decide (r ≠ []) then
      (let token := s + Z.of_nat (length skip) in
       s ← skip_token (steps m) token d;
       b ← load s;
       (if decide (b ≠ 0) then store s 0;; storew sv (u32 (s + 1)) else storew sv s);;
       mret token) m
    else (storew sv (s + Z.of_nat (length skip));; mret NULL) m.
Proof.
  intros [Hs Hd [Hsv _] _ _ _ Hfrom] -> Hsk Hr. pose proof (cstr_range _ _ _ Hs).
  pose proof (cstr_range _ _ _ Hd). unfold strtok_r.
  do 2 erewrite st_bind_ok by (apply assert_ok, bool_decide_eq_true; unfold NULL; lia).
  erewrite (st_bind_ok _ _ m s m).
  2:{ destruct Hfrom as [->|[-> Hw]]; [by rewrite decide_False by (unfold NULL; lia)|].
      rewrite decide_True by done. apply loadw_word; [done|]. unfold in_u32. lia. }
  erewrite st_bind_ok by (apply assert_ok, bool_decide_eq_true; unfold NULL; lia).
  change (st_get ≫= ?k) with (λ m', k m' m'). cbn beta.
  erewrite st_bind_ok.
  2:{ apply (skip_delimiters_ok m d ds Hd s skip r); [done..|].
      apply cstr_steps in Hs. rewrite length_app in Hs. lia. }
  cbn [fst snd]. by destruct (bool_decide (r ≠ [])).
Qed.

(** No token is left. *)
Lemma strtok_r_none t :
  tokenizing m s0 s d sv t ds → Forall (.∈ ds) t →
  strtok_r s0 d sv m = Ok (NULL, write sv (le_bytes 4 (s + Z.of_nat (length t))) m).
Proof.
  intros H Ht. rewrite (strtok_r_start t t []) by (done || by rewrite app_nil_r). cbn.
  erewrite st_bind_ok by (apply storew_ok, H). done.
Qed.

Lemma strtok_r_some t skip tok r :
  tokenizing m s0 s d sv t ds → t = skip ++ tok ++ r → Forall (.∈ ds) skip → Forall (.∉ ds) tok →
  tok ≠ [] → (∀ b r', r = b :: r' → b ∈ ds) →
  let e := s + Z.of_nat (length skip + length tok) in
  strtok_r s0 d sv m = Ok (s + Z.of_nat (length skip),
    match r with
    | [] => write sv (le_bytes 4 e) m
    | _ :: _ => write sv (le_bytes 4 (e + 1)) (write e [0] m)
    end).
Proof.
  intros H -> Hsk Htok Hne Hr e. pose proof (tk_str _ _ _ _ _ _ _ H) as Hs.
  pose proof (cstr_range _ _ _ Hs) as Hrg. pose proof (cstr_steps _ _ _ Hs) as Hst. rewrite !length_app in *.
  rewrite (strtok_r_start _ skip (tok ++ r) H) by
    (done || (intros b r' E; destruct tok; [done|]; by injection E as -> _; inversion Htok)).
  rewrite bool_decide_true by (by destruct tok). cbn zeta. apply cstr_suffix in Hs as Ht.
  erewrite st_bind_ok.
  2:{ apply (skip_token_ok m d ds (tk_delims _ _ _ _ _ _ _ H) _ tok r); [done..|lia]. }
  apply cstr_suffix in Ht.
  replace (s + Z.of_nat (length skip) + Z.of_nat (length tok)) with e in * by (unfold e; lia).
  destruct r as [|c r].
  - erewrite st_bind_ok by (by apply cstr_nil). cbn.
    by erewrite st_bind_ok by (apply storew_ok, H).
  - apply cstr_cons in Ht as (E & Hc & _ & Eu & _). erewrite st_bind_ok by done.
    rewrite decide_True by done. erewrite st_bind_ok; [done|].
    erewrite st_bind_ok.
    2:{ apply store_ok. unfold load in E. destruct (m !! e); naive_solver. }
    rewrite Eu. apply (storew_ok sv (e + 1) (write e [0] m)). apply mapped_write, H.
Qed.
End strtok_r.

(** The loop of the usage example of strtok_r: the pointers to all tokens. *)
Fixpoint strtok_all (fuel : nat) (s delimiters save_ptr : Z) : MM (list Z) :=
  match fuel with
  | O => st_fail EFuel
  | S fuel =>
      token ← strtok_r s delimiters save_ptr;
      if decide (token = NULL) then mret [] else
      rest ← strtok_all fuel NULL delimiters save_ptr; mret (token :: rest)
  end.

Lemma holds_agree m m' p bs :
  holds m p bs → (∀ a, p ≤ a < p + Z.of_nat (length bs) → m' !! a = m !! a) → holds m' p bs.
Proof. intros [Hr H] Ha. split; [done|]. intros i Hi. rewrite Ha by lia. by apply H. Qed.

Lemma cstr_agree m m' p s :
  cstr m p s → (∀ a, p ≤ a ≤ p + Z.of_nat (length s) → m' !! a = m !! a) → cstr m' p s.
Proof.
  intros [H Hb] Ha. split; [|done]. eapply holds_agree; [done|]. rewrite length_app. cbn [length].
  intros a Hr. apply Ha. lia.
Qed.

(** The memory after a call that found a token. *)
Definition cut (m : mem) (sv e : Z) (r : list Z) : mem :=
  match r with
  | [] => write sv (le_bytes 4 e) m
  | _ :: _ => write sv (le_bytes 4 (e + 1)) (write e [0] m)
  end.

Lemma cut_lookup m sv e r a :
  (r ≠ [] → a ≠ e) → ¬ (sv ≤ a < sv + 4) → cut m sv e r !! a = m !! a.
Proof.
  intros He Hsv. unfold cut. destruct r; [clear He|specialize (He ltac:(done))]; rewrite !lookup_write, !length_le_bytes;
    repeat (rewrite decide_False by (cbn [length]; lia)); done.
Qed.

(** The token is a string of its own after the call. *)
Lemma cut_token m s sv skip tok r :
  let e := s + Z.of_nat (length skip + length tok) in
  cstr m s (skip ++ tok ++ r) → disjoint_blocks sv 4 s (S (length (skip ++ tok ++ r))) →
  cstr (cut m sv e r) (s + Z.of_nat (length skip)) tok.
Proof.
  intros e Hs Hd. unfold disjoint_blocks in Hd. rewrite !length_app in Hd. apply cstr_suffix in Hs as [Hs Hb].
  apply Forall_app in Hb as [Hb _]. split; [|done].
  assert (Hw : ∀ m w, holds m (s + Z.of_nat (length skip)) (tok ++ [0]) →
    holds (write sv (le_bytes 4 w) m) (s + Z.of_nat (length skip)) (tok ++ [0])).
  { intros m' w H. apply holds_write_other; [done|]. unfold disjoint_blocks.
    rewrite length_app, length_le_bytes. cbn [length]. lia. }
  destruct r as [|c r]; cbn [cut]; apply Hw; [by rewrite app_nil_r in Hs|].
  rewrite <- app_assoc in Hs. change ((c :: r) ++ [0]) with ([c] ++ r ++ [0]) in Hs.
  rewrite app_assoc in Hs. apply holds_prefix in Hs.
  replace e with (s + Z.of_nat (length skip) + Z.of_nat (length tok)) by (unfold e; lia).
  by eapply holds_overwrite.
Qed.

(** Where the next call starts. *)
Definition resume (e : Z) (r : list Z) : Z := match r with [] => e | _ :: _ => e + 1 end.

Lemma cut_tokenizing m s0 s d sv skip tok r ds :
  tokenizing m s0 s d sv (skip ++ tok ++ r) ds →
  let e := s + Z.of_nat (length skip + length tok) in
  tokenizing (cut m sv e r) NULL (resume e r) d sv (tail r) ds.
Proof.
  intros [Hs Hd Hsv D1 D2 D3 _] e. pose proof (cstr_range _ _ _ Hs) as Hrg.
  unfold disjoint_blocks in *. rewrite !length_app in *.
  assert (Hframe : ∀ a, a ≠ e → ¬ (sv ≤ a < sv + 4) → cut m sv e r !! a = m !! a) by (intros; by apply cut_lookup; auto).
  split; unfold disjoint_blocks.
  - rewrite app_assoc in Hs. apply cstr_suffix in Hs. rewrite length_app in Hs. fold e in Hs. clear Hframe.
    destruct r as [|c r]; cbn [tail resume length cut] in *.
    + apply cstr_write; [done|]. unfold disjoint_blocks. rewrite length_le_bytes. cbn [length]. lia.
    + apply cstr_cons in Hs as (_ & _ & _ & _ & Hs).
      do 2 (apply cstr_write; [|unfold disjoint_blocks; rewrite ?length_le_bytes; cbn [length]; lia]). done.
  - apply (cstr_agree m); [done|]. intros a Ha. apply Hframe; lia.
  - unfold cut. destruct r; repeat apply mapped_write; done.
  - destruct r; cbn in *; lia.
  - done.
  - destruct r; cbn in *; lia.
  - right. split; [done|]. pose proof Hsv as [? _]. unfold cut, resume.
    destruct r; apply holds_write; rewrite ?length_le_bytes; lia.
Qed.

Lemma strtok_all_ok fuel m s0 s d sv t ds :
  tokenizing m s0 s d sv t ds → (length t < fuel)%nat →
  ∃ ps m', strtok_all fuel s0 d sv m = Ok (ps, m') ∧ Forall2 (cstr m') ps (words ds t) ∧
    ∀ a, ¬ (s ≤ a < s + Z.of_nat (length t)) → ¬ (sv ≤ a < sv + 4) → m' !! a = m !! a.
Proof.
  revert m s0 s t. induction fuel as [|fuel IH]; intros m s0 s t Htk Hf; [lia|]. cbn [strtok_all].
  pose proof (cstr_range _ _ _ (tk_str _ _ _ _ _ _ _ Htk)) as Hrg.
  destruct (span_split (.∈ ds) t) as (skip & t' & -> & Hsk & Ht').
  destruct (span_split (.∉ ds) t') as (tok & r & -> & Htok & Hr). rewrite (words_skip _ _ _ Hsk).
  destruct (decide (tok = [])) as [->|Hne].
  - assert (r = []) as -> by (destruct r as [|b r]; [done|]; exfalso; by apply (Hr b r), (Ht' b r)).
    rewrite !app_nil_r in *. erewrite st_bind_ok by (by eapply strtok_r_none).
    rewrite decide_True by done. eexists _, _. split; [done|]. split; [constructor|].
    intros a _ Ha. rewrite lookup_write, length_le_bytes. by rewrite decide_False.
  - erewrite st_bind_ok.
    2:{ eapply (strtok_r_some _ _ _ _ _ _ _ skip tok r); [done..|]. intros b r' E. apply dec_stable. by eapply Hr. }
    rewrite decide_False by (unfold NULL; lia).
    set (e := s + Z.of_nat (length skip + length tok)) in *. fold (cut m sv e r).
    pose proof (cut_tokenizing _ _ _ _ _ _ _ _ _ Htk) as Hnext. cbv zeta in Hnext. fold e in Hnext.
    rewrite !length_app in *. assert (0 < length tok)%nat by (destruct tok; [done|cbn; lia]).
    destruct (IH _ _ _ _ Hnext) as (ps & m' & E & Hps & Hfr); [destruct r; cbn in *; lia|].
    exists (s + Z.of_nat (length skip) :: ps), m'. erewrite st_bind_ok by done.
    assert (Hlen : resume e r + Z.of_nat (length (tail r)) = e + Z.of_nat (length r) ∧
      e ≤ resume e r ∧ (r = [] ∨ resume e r = e + 1)).
    { destruct r; cbn [tail resume length]; split_and!; auto; lia. }
    destruct Hlen as (Hend & Hge & Hres). split; [done|]. split.
    + rewrite words_step by (done || (intros b r' ?; apply dec_stable; by eapply Hr)).
      constructor; [|done]. eapply cstr_agree; [apply cut_token; apply Htk|]. fold e. cbn beta.
      destruct Htk as [_ _ _ D1 _ _ _]. unfold disjoint_blocks in D1. rewrite !length_app in D1.
      intros a Ha. apply Hfr; unfold e in *; [destruct Hres as [->|]; cbn in *|]; lia.
    + intros a Ha Hsv. rewrite Hfr, cut_lookup; unfold e in *; try done; [|lia]. destruct r; [done|cbn in *; lia].
Qed.
