(* ===== verification/Arith.v ===== *)
(** * lib/arithmetic.c: 64-bit division on a 32-bit processor

    The routines GCC calls for [/] and [%] on 64-bit integers.  [divl] is the
    x86 instruction, which traps ([EFault]) on a quotient above 32 bits; the
    theorems show that the routines never make it trap on a nonzero divisor. *)

From S2P Require Import Prelude.

Local Open Scope Z_scope.

Definition divl (n d : Z) : res Z :=
  let n1 := u32 (Z.shiftr n 32) in
  let n0 := u32 n in
  let dividend := n1 * 2^32 + n0 in
  if decide (d = 0) then Err EFault else
  if decide (dividend / d < 2^32) then Ok (dividend / d) else Err EFault.

Definition nlz (x : Z) : Z :=
  let n := 0 in
  let '(n, x) := if decide (x ≤ 65535) then (n + 16, u32 (Z.shiftl x 16)) else (n, x) in
  let '(n, x) := if decide (x ≤ 16777215) then (n + 8, u32 (Z.shiftl x 8)) else (n, x) in
  let '(n, x) := if decide (x ≤ 268435455) then (n + 4, u32 (Z.shiftl x 4)) else (n, x) in
  let '(n, x) := if decide (x ≤ 1073741823) then (n + 2, u32 (Z.shiftl x 2)) else (n, x) in
  if decide (x ≤ 2147483647) then n + 1 else n.

Definition udiv64 (n d : Z) : res Z :=
  if decide (Z.shiftr d 32 = 0) then
    let b := Z.shiftl 1 32 in
    let n1 := u32 (Z.shiftr n 32) in
    let n0 := u32 n in
    let d0 := u32 d in
    if decide (d0 = 0) then Err EFault else
    q ← divl (u64 (b * (n1 `mod` d0) + n0)) d0;
    mret (u64 (q + u64 (b * (n1 / d0))))
  else if decide (n < d) then mret 0
  else
    let d1 := u32 (Z.shiftr d 32) in
    let s := nlz d1 in
    q0 ← divl (Z.shiftr n 1) (u32 (Z.shiftr (u64 (Z.shiftl d s)) 32));
    let q := Z.shiftr q0 (31 - s) in
    mret (if decide (u64 (n - u64 (u64 (q - 1) * d)) < d) then u64 (q - 1) else q).

(** The result type is [uint32_t]. *)
Definition umod64 (n d : Z) : res Z :=
  q ← udiv64 n d; mret (u32 (u64 (n - u64 (d * q)))).

Definition abs64 (n : Z) : Z := if decide (0 ≤ n) then n else u64 (- u64 n).

Definition sdiv64 (n d : Z) : res Z :=
  let n_abs := abs64 n in
  let d_abs := abs64 d in
  q_abs ← udiv64 n_abs d_abs;
  mret (if decide ((n < 0) ↔ (d < 0)) then s64 q_abs else s64 (- s64 q_abs)).

(** The result type is [int32_t]. *)
Definition smod64 (n d : Z) : res Z :=
  q ← sdiv64 n d; mret (s32 (s64 (n - s64 (d * q)))).

Definition __divdi3 (n d : Z) : res Z := sdiv64 n d.
Definition __moddi3 (n d : Z) : res Z := smod64 n d.
Definition __udivdi3 (n d : Z) : res Z := udiv64 n d.
Definition __umoddi3 (n d : Z) : res Z := umod64 n d.

(** ** Correctness *)

Definition in_u64 (x : Z) : Prop := 0 ≤ x < 2^64.

Lemma u64_id x : in_u64 x → u64 x = x.
Proof. unfold in_u64, u64. intros. by apply Z.mod_small. Qed.

Lemma divl_ok n d : 0 ≤ n < 2^64 → 0 < d → n < d * 2^32 → divl n d = Ok (n / d).
Proof.
  intros Hn Hd Hq. unfold divl. rewrite Z.shiftr_div_pow2 by lia.
  rewrite (u32_id (n / 2^32)) by (unfold in_u32; split; [apply Z.div_pos|apply Z.div_lt_upper_bound]; lia).
  unfold u32. rewrite (Z.mul_comm _ (2^32)), <- Z.div_mod by lia.
  rewrite decide_False, decide_True; [done| |lia]. by apply Z.div_lt_upper_bound; lia.
Qed.

(** nlz normalises: it shifts the highest set bit to bit 31. *)
Lemma nlz_spec x : 0 < x < 2^32 → 0 ≤ nlz x ≤ 31 ∧ 2^31 ≤ x * 2^(nlz x) < 2^32.
Proof.
  intros Hx. unfold nlz, u32. rewrite !Z.shiftl_mul_pow2 by lia.
  repeat (case_decide; rewrite ?Z.shiftl_mul_pow2 by lia; rewrite ?Z.mod_small by lia); cbn; lia.
Qed.

(** A divisor of 32 bits: schoolbook division with two digits. *)
Lemma udiv64_short n d : in_u64 n → 0 < d < 2^32 → udiv64 n d = Ok (n / d).
Proof.
  unfold in_u64. intros Hn Hd. unfold udiv64. rewrite !Z.shiftr_div_pow2, Z.shiftl_mul_pow2 by lia.
  rewrite decide_True by (apply Z.div_small; lia). rewrite Z.mul_1_l.
  assert (H1 : 0 ≤ n / 2^32 < 2^32) by (split; [apply Z.div_pos|apply Z.div_lt_upper_bound]; lia).
  rewrite (u32_id (n / 2^32)), (u32_id d) by (unfold in_u32; lia). rewrite decide_False by lia.
  assert (Hsplit : n = 2^32 * (n / 2^32) + u32 n) by (unfold u32; apply Z.div_mod; lia).
  pose proof (u32_range n) as H0. unfold in_u32 in H0.
  set (n1 := n / 2^32) in *. set (n0 := u32 n) in *.
  pose proof (Z.mod_pos_bound n1 d ltac:(lia)) as Hr. pose proof (Z.div_mod n1 d ltac:(lia)) as Ed.
  assert (Hk : 0 ≤ n1 / d) by (apply Z.div_pos; lia).
  assert (Hk' : 2^32 * (n1 / d) ≤ 2^32 * n1) by nia.
  rewrite (u64_id (2^32 * (n1 `mod` d) + n0)) by (unfold in_u64; nia).
  rewrite divl_ok by nia. cbn [mbind res_bind].
  assert (Hq : (2^32 * (n1 `mod` d) + n0) / d + 2^32 * (n1 / d) = n / d).
  { rewrite <- Z.div_add by lia. f_equal. lia. }
  rewrite (u64_id (2^32 * (n1 / d))) by (unfold in_u64; lia). rewrite Hq.
  unfold mret, res_ret. f_equal. apply u64_id. unfold in_u64. split; [apply Z.div_pos; lia|].
  apply Z.div_lt_upper_bound; nia.
Qed.

(** The estimate of the quotient from the high half [h] of the normalised
    divisor is exact or one too large. *)
Lemma quotient_estimate n d h s :
  0 ≤ s ≤ 31 → d ≤ n < 2^64 → 2^63 ≤ d * 2^s < 2^64 → h = d * 2^s / 2^32 →
  2^31 ≤ h < 2^32 ∧ n / d ≤ n / (h * 2^(32 - s)) ≤ n / d + 1.
Proof.
  intros Hs Hn Hd ->. set (h := d * 2^s / 2^32).
  assert (Hh : 2^31 ≤ h < 2^32).
  { unfold h. split; [apply Z.div_le_lower_bound|apply Z.div_lt_upper_bound]; lia. }
  split; [done|].
  pose proof (Z.div_mod (d * 2^s) (2^32) ltac:(lia)) as Ed. fold h in Ed.
  pose proof (Z.mod_pos_bound (d * 2^s) (2^32) ltac:(lia)) as Hm.
  assert (E32 : 2^32 = 2^(32 - s) * 2^s) by (rewrite <- Z.pow_add_r by lia; f_equal; lia).
  assert (Hps : 0 < 2^s) by (apply Z.pow_pos_nonneg; lia).
  assert (He : 0 < 2^(32 - s)) by (apply Z.pow_pos_nonneg; lia).
  set (e := 2^(32 - s)) in *. set (p := 2^s) in *.
  assert (Hlow : h * e ≤ d).
  { apply (Z.mul_le_mono_pos_r _ _ p); [done|]. rewrite <- Z.mul_assoc, <- E32. lia. }
  assert (Hhigh : d < h * e + e).
  { apply (Z.mul_lt_mono_pos_r p); [done|]. rewrite Z.mul_add_distr_r, <- Z.mul_assoc, <- E32. lia. }
  assert (Hv : 0 < h * e) by nia.
  split; [apply Z.div_le_compat_l; lia|].
  set (q := n / d). pose proof (Z.div_mod n d ltac:(lia)) as En. fold q in En.
  pose proof (Z.mod_pos_bound n d ltac:(lia)) as Hr.
  assert (Hq : 0 ≤ q) by (apply Z.div_pos; lia).
  assert (Hq2 : q + 1 ≤ 2 * p).
  { assert (q * 2^63 < 2 * p * 2^63) by nia. lia. }
  assert (Hbound : (q + 1) * (e - 1) ≤ h * e).
  { apply (Z.le_trans _ (2 * p * (e - 1))); [apply Z.mul_le_mono_nonneg_r; lia|].
    assert (2 * p * e = 2 * 2^32) by (rewrite E32; ring).
    assert (Hcase : s = 31 ∨ s ≤ 30) by lia. destruct Hcase as [->|Hs30].
    - unfold p, e in *. lia.
    - assert (2^2 ≤ e) by (apply Z.pow_le_mono_r; lia).
      assert (2^31 * e ≤ h * e) by (apply Z.mul_le_mono_nonneg_r; lia). lia. }
  assert (n < h * e * (q + 2)).
  { assert ((q + 1) * d ≤ (q + 1) * (h * e + (e - 1))) by (apply Z.mul_le_mono_nonneg_l; lia). lia. }
  assert (n / (h * e) < q + 2) by (apply Z.div_lt_upper_bound; lia). lia.
Qed.

Lemma normalised d s :
  0 ≤ s ≤ 31 → 2^31 ≤ d / 2^32 * 2^s < 2^32 → 2^63 ≤ d * 2^s < 2^64.
Proof.
  intros Hs Hd. pose proof (Z.div_mod d (2^32) ltac:(lia)) as E.
  pose proof (Z.mod_pos_bound d (2^32) ltac:(lia)) as Hm. set (d1 := d / 2^32) in *.
  assert (Hps : 0 < 2^s) by (apply Z.pow_pos_nonneg; lia).
  assert (E32 : 2^32 = 2^(32 - s) * 2^s) by (rewrite <- Z.pow_add_r by lia; f_equal; lia).
  assert (Hd1 : d1 + 1 ≤ 2^(32 - s)).
  { apply Z.le_succ_l. apply (Z.mul_lt_mono_pos_r (2^s)); lia. }
  assert (H1 : 2^32 * (d1 * 2^s) ≤ d * 2^s) by nia.
  assert (H2 : d * 2^s < 2^32 * ((d1 + 1) * 2^s)) by nia.
  assert (H3 : (d1 + 1) * 2^s ≤ 2^32) by (rewrite E32; apply Z.mul_le_mono_nonneg_r; lia).
  lia.
Qed.

(** A divisor above 32 bits. *)
Lemma udiv64_long n d : in_u64 n → 2^32 ≤ d < 2^64 → udiv64 n d = Ok (n / d).
Proof.
  unfold in_u64. intros Hn Hd. unfold udiv64. rewrite !Z.shiftr_div_pow2 by lia.
  assert (H1 : 0 < d / 2^32 < 2^32) by (split; [apply Z.div_str_pos|apply Z.div_lt_upper_bound]; lia).
  rewrite decide_False by lia. case_decide as Hlt; [by rewrite Z.div_small by lia|].
  rewrite (u32_id (d / 2^32)) by (unfold in_u32; lia).
  destruct (nlz_spec (d / 2^32) H1) as [Hs Hnorm]. set (s := nlz (d / 2^32)) in *.
  apply normalised in Hnorm; [|done].
  destruct (quotient_estimate n d (d * 2^s / 2^32) s) as [Hh Hq]; [lia..|done|].
  rewrite Z.shiftl_mul_pow2, (u64_id (d * 2^s)) by (unfold in_u64; lia).
  set (h := d * 2^s / 2^32) in *. rewrite (u32_id h) by (unfold in_u32; lia).
  rewrite divl_ok by (rewrite ?Z.div_lt_upper_bound by lia; dlia). cbn [mbind res_bind].
  rewrite Z.shiftr_div_pow2, Z.div_div, Z.div_div by (try apply Z.pow_nonzero; try apply Z.pow_pos_nonneg; lia).
  replace (2^1 * (h * 2^(31 - s))) with (h * 2^(32 - s)).
  2:{ replace (32 - s) with (Z.succ (31 - s)) by lia. rewrite Z.pow_succ_r by lia. ring. }
  set (q := n / (h * 2^(32 - s))) in *.
  assert (Hq1 : 1 ≤ n / d) by (apply Z.div_le_lower_bound; lia).
  pose proof (Z.div_mod n d ltac:(lia)) as En. pose proof (Z.mod_pos_bound n d ltac:(lia)) as Hr.
  assert (Hqb : q ≤ 2^64 - 1) by (assert (n / d < 2^32) by (apply Z.div_lt_upper_bound; lia); lia).
  unfold mret, res_ret. f_equal. rewrite (u64_id (q - 1)) by (unfold in_u64; lia).
  destruct (decide (q = n / d)) as [Eq|Eq].
  - rewrite Eq in *. rewrite (u64_id ((n / d - 1) * d)), u64_id by (unfold in_u64; nia).
    rewrite decide_False by nia. done.
  - assert (q - 1 = n / d) as -> by lia.
    rewrite (u64_id (n / d * d)), u64_id by (unfold in_u64; nia).
    rewrite decide_True by nia. done.
Qed.

Lemma udiv64_ok n d : in_u64 n → 0 < d < 2^64 → udiv64 n d = Ok (n / d).
Proof. intros Hn Hd. destruct (decide (d < 2^32)); [apply udiv64_short|apply udiv64_long]; done || lia. Qed.

Lemma umod64_ok n d : in_u64 n → 0 < d < 2^64 → umod64 n d = Ok (u32 (n `mod` d)).
Proof.
  intros Hn Hd. unfold umod64. rewrite udiv64_ok by done. cbn. do 2 f_equal.
  pose proof (Z.div_mod n d ltac:(lia)) as En. pose proof (Z.mod_pos_bound n d ltac:(lia)).
  unfold in_u64 in *. assert (0 ≤ n / d) by (apply Z.div_pos; lia).
  rewrite (u64_id (d * _)), u64_id by (unfold in_u64; nia). lia.
Qed.

Lemma abs64_ok n : in_s64 n → abs64 n = Z.abs n.
Proof.
  unfold in_s64, abs64. intros. case_decide; [lia|]. unfold u64.
  rewrite <- (Z_mod_plus_full n 1), (Z.mod_small (n + _)), <- (Z_mod_plus_full (- _) 1), Z.mod_small; lia.
Qed.

Lemma s64_wrap x k : s64 (x + k * 2^64) = s64 x.
Proof. unfold s64. replace (x + k * 2^64 + 2^63) with (x + 2^63 + k * 2^64) by lia. by rewrite Z_mod_plus_full. Qed.

Lemma sdiv64_ok n d : in_s64 n → in_s64 d → d ≠ 0 → sdiv64 n d = Ok (s64 (n ÷ d)).
Proof.
  intros Hn Hd Hne. unfold sdiv64. rewrite !abs64_ok by done.
  unfold in_s64 in *. rewrite udiv64_ok by (unfold in_u64; lia). cbn. f_equal.
  pose proof (Z.quot_div n d Hne) as Eq. set (q := Z.abs n / Z.abs d) in *.
  assert (Hq : 0 ≤ q ≤ Z.abs n) by (unfold q; split; [apply Z.div_pos|apply Z.div_le_upper_bound]; nia).
  destruct (decide (n = 0)) as [->|Hn0].
  { assert (q = 0) as -> by (unfold q; by apply Z.div_0_l; lia). rewrite Z.quot_0_l by done. by case_decide. }
  case_decide as Hsg.
  - rewrite Eq. f_equal. destruct (decide (n < 0)); destruct (decide (d < 0)); try tauto;
      rewrite ?(Z.sgn_neg n), ?(Z.sgn_neg d), ?(Z.sgn_pos n), ?(Z.sgn_pos d) by lia; lia.
  - assert (E : n ÷ d = - q).
    { rewrite Eq. destruct (decide (n < 0)); destruct (decide (d < 0)); try tauto;
      rewrite ?(Z.sgn_neg n), ?(Z.sgn_neg d), ?(Z.sgn_pos n), ?(Z.sgn_pos d) by lia; lia. }
    rewrite E. destruct (decide (q < 2^63)); [by rewrite (s64_id q) by (unfold in_s64; lia)|].
    assert (q = 2^63) as -> by lia. done.
Qed.

Lemma smod64_ok n d : in_s64 n → in_s64 d → d ≠ 0 → smod64 n d = Ok (s32 (Z.rem n d)).
Proof.
  intros Hn Hd Hne. unfold smod64. rewrite sdiv64_ok by done. cbn. do 2 f_equal.
  pose proof (Z.quot_rem n d Hne) as E. pose proof (Z.rem_bound_abs n d Hne).
  assert (Hm : ∃ k, d * s64 (n ÷ d) = d * (n ÷ d) + k * 2^64).
  { unfold s64. rewrite Z.mod_eq by lia. eexists (- d * ((n ÷ d + 2^63) / 2^64)). ring. }
  destruct Hm as [k ->]. rewrite s64_wrap. unfold in_s64 in *.
  assert (Hw : ∃ j, s64 (d * (n ÷ d)) = d * (n ÷ d) + j * 2^64).
  { unfold s64. rewrite Z.mod_eq by lia. eexists (- ((d * (n ÷ d) + 2^63) / 2^64)). ring. }
  destruct Hw as [j ->]. replace (n - (d * (n ÷ d) + j * 2^64)) with (Z.rem n d + (- j) * 2^64) by lia.
  rewrite s64_wrap. apply s64_id. unfold in_s64. lia.
Qed.
