(* ===== verification/Random.v ===== *)
(** * lib/random.c: the RC4 generator

    The state is the source's static variables; [uint8_t] arithmetic is modulo
    256.  The generator's array stays a permutation of the 256 bytes, no access
    leaves it, and a step loses no information: the state before it can be
    computed from the state after it. *)

From S2P Require Import Prelude Bitmap.

Local Open Scope Z_scope.

Record rng := Rng { s : list Z; s_i : Z; s_j : Z; inited : bool }.

Abbreviation RM := (ST rng).

Definition u8 (x : Z) : Z := x `mod` 256.

(** [s[i]] read and written. *)
Definition get_s (i : Z) : RM Z := r ← st_get; st_opt EFault (s r !! Z.to_nat i).
Definition set_s (i v : Z) : RM () :=
  _ ← get_s i; st_modify (λ r, Rng (<[Z.to_nat i := v]> (s r)) (s_i r) (s_j r) (inited r)).

(** swap_byte (s + a, s + b). *)
Definition swap_byte (a b : Z) : RM () :=
  t ← get_s a; y ← get_s b; set_s a y;; set_s b t.

Fixpoint fill_loop (n : nat) (i : Z) : RM () :=
  match n with O => mret tt | S n => set_s i (u8 i);; fill_loop n (i + 1) end.

Fixpoint key_loop (n : nat) (seedp : list Z) (i j : Z) : RM () :=
  match n with
  | O => mret tt
  | S n =>
      si ← get_s i;
      k ← st_opt EFault (seedp !! Z.to_nat (i `mod` 4));
      let j := u8 (j + (si + k)) in
      swap_byte i j;; key_loop n seedp (i + 1) j
  end.

Definition random_init (seed : Z) : RM () :=
  let seedp := le_bytes 4 seed in
  fill_loop 256 0;;
  key_loop 256 seedp 0 0;;
  st_modify (λ r, Rng (s r) 0 0 true).

(** One iteration of random_bytes: the byte it writes. *)
Definition random_byte : RM Z :=
  st_modify (λ r, Rng (s r) (u8 (s_i r + 1)) (s_j r) (inited r));;
  r ← st_get;
  v ← get_s (s_i r);
  st_modify (λ r, Rng (s r) (s_i r) (u8 (s_j r + v)) (inited r));;
  r ← st_get;
  swap_byte (s_i r) (s_j r);;
  x ← get_s (s_i r); y ← get_s (s_j r);
  get_s (u8 (x + y)).

Fixpoint bytes_loop (size : nat) : RM (list Z) :=
  match size with
  | O => mret []
  | S size => b ← random_byte; bs ← bytes_loop size; mret (b :: bs)
  end.

(** The bytes written into BUF. *)
Definition random_bytes (size : Z) : RM (list Z) :=
  r ← st_get;
  (if inited r then mret tt else random_init 0);;
  bytes_loop (Z.to_nat size).

Definition random_ulong : RM Z := bs ← random_bytes 4; mret (le_word bs).

(** ** Correctness *)

Definition identity : list Z := Z.of_nat <$> seq 0 256.

(** What holds of the state: before the first use the array is all there is. *)
Record rng_ok (r : rng) : Prop := {
  ro_len : length (s r) = 256%nat;
  ro_perm : inited r = true → s r ≡ₚ identity ∧ 0 ≤ s_i r < 256 ∧ 0 ≤ s_j r < 256;
}.

Lemma u8_range x : 0 ≤ u8 x < 256.
Proof. apply Z.mod_pos_bound. lia. Qed.

Lemma length_identity : length identity = 256%nat.
Proof. done. Qed.

Lemma elem_of_identity x : x ∈ identity ↔ 0 ≤ x < 256.
Proof.
  unfold identity. rewrite list_elem_of_fmap. setoid_rewrite elem_of_seq. split.
  - intros (i & -> & Hi). lia.
  - intros Hx. exists (Z.to_nat x). lia.
Qed.

Lemma perm_byte (l : list Z) i :
  l ≡ₚ identity → 0 ≤ i < 256 → ∃ v, l !! Z.to_nat i = Some v ∧ 0 ≤ v < 256.
Proof.
  intros Hl Hi. destruct (lookup_lt_is_Some_2 l (Z.to_nat i)) as [v Ev].
  { rewrite Hl, length_identity. lia. }
  exists v. split; [done|]. apply elem_of_identity. rewrite <- Hl. by eapply list_elem_of_lookup_2.
Qed.

Lemma get_s_ok r i v : s r !! Z.to_nat i = Some v → get_s i r = Ok (v, r).
Proof. intros E. unfold get_s. st_simpl. by rewrite E. Qed.

Lemma set_s_ok r i v :
  0 ≤ i < Z.of_nat (length (s r)) →
  set_s i v r = Ok ((), Rng (<[Z.to_nat i := v]> (s r)) (s_i r) (s_j r) (inited r)).
Proof.
  intros Hi. destruct (lookup_lt_is_Some_2 (s r) (Z.to_nat i)) as [x Ex]; [lia|]. unfold set_s.
  by erewrite st_bind_ok by (by apply get_s_ok).
Qed.

Lemma swap_byte_ok r a b :
  0 ≤ a < Z.of_nat (length (s r)) → 0 ≤ b < Z.of_nat (length (s r)) →
  swap_byte a b r = Ok ((), Rng (swap_at (Z.to_nat a) (Z.to_nat b) (s r)) (s_i r) (s_j r) (inited r)).
Proof.
  intros Ha Hb. destruct (lookup_lt_is_Some_2 (s r) (Z.to_nat a)) as [x Ex]; [lia|].
  destruct (lookup_lt_is_Some_2 (s r) (Z.to_nat b)) as [y Ey]; [lia|]. unfold swap_byte, swap_at.
  rewrite Ex, Ey. erewrite st_bind_ok by (by apply get_s_ok). erewrite st_bind_ok by (by apply get_s_ok).
  erewrite st_bind_ok by (by apply set_s_ok). rewrite set_s_ok; [done|]. cbn. by rewrite length_insert.
Qed.

Lemma fill_loop_ok n r i :
  length (s r) = (i + n)%nat → take i (s r) = take i identity → (i + n ≤ 256)%nat →
  fill_loop n (Z.of_nat i) r = Ok ((), Rng (take (i + n) identity) (s_i r) (s_j r) (inited r)).
Proof.
  revert r i. induction n as [|n IH]; intros r i Hl Ht Hn; cbn [fill_loop].
  { rewrite Nat.add_0_r in *. rewrite <- Ht, <- Hl, firstn_all. by destruct r. }
  erewrite st_bind_ok by (apply set_s_ok; lia). rewrite Nat2Z.id.
  replace (Z.of_nat i + 1) with (Z.of_nat (S i)) by lia. rewrite IH; cbn [s s_i s_j inited].
  - do 3 f_equal. f_equal. lia.
  - rewrite length_insert. lia.
  - erewrite !take_S_r; [rewrite take_insert_ge, Ht by lia; reflexivity| |].
    + unfold identity. rewrite list_lookup_fmap, lookup_seq_lt by lia. done.
    + rewrite list_lookup_insert_eq by lia. do 2 f_equal. unfold u8. apply Z.mod_small. lia.
  - lia.
Qed.

(** The array after the loop depends only on the array before it. *)
Lemma key_loop_ok n seedp l0 i j :
  l0 ≡ₚ identity → length seedp = 4%nat → 0 ≤ i → i + Z.of_nat n ≤ 256 → 0 ≤ j < 256 →
  ∃ l, l ≡ₚ identity ∧ ∀ a b c, key_loop n seedp i j (Rng l0 a b c) = Ok ((), Rng l a b c).
Proof.
  revert l0 i j. induction n as [|n IH]; intros l0 i j Hp Hs Hi Hn Hj; cbn [key_loop]; [by exists l0|].
  destruct (perm_byte l0 i) as (v & Ev & _); [done|lia|].
  destruct (lookup_lt_is_Some_2 seedp (Z.to_nat (i `mod` 4))) as [k Ek].
  { pose proof (Z.mod_pos_bound i 4). lia. }
  pose proof (u8_range (j + (v + k))) as Hj'. assert (Hlen : length l0 = 256%nat) by (by rewrite Hp).
  destruct (IH (swap_at (Z.to_nat i) (Z.to_nat (u8 (j + (v + k)))) l0) (i + 1) (u8 (j + (v + k)))) as (l & Hl & E);
    [by rewrite swap_at_perm|done|lia..|].
  exists l. split; [done|]. intros a b c. erewrite st_bind_ok by (by apply get_s_ok).
  assert (Eopt : st_opt EFault (seedp !! Z.to_nat (i `mod` 4)) (Rng l0 a b c) = Ok (k, Rng l0 a b c)) by (by rewrite Ek).
  erewrite st_bind_ok by exact Eopt. erewrite st_bind_ok by (apply swap_byte_ok; cbn; lia). apply E.
Qed.

(** random_init forgets the state before it. *)
Lemma random_init_state seed :
  ∃ g, rng_ok g ∧ inited g = true ∧ ∀ r, rng_ok r → random_init seed r = Ok ((), g).
Proof.
  destruct (key_loop_ok 256 (le_bytes 4 seed) identity 0 0) as (l & Hl & E); [done|by rewrite length_le_bytes|lia..|].
  exists (Rng l 0 0 true). split_and!; [|done|].
  - split; cbn; [by rewrite Hl|]. intros _. split; [done|lia].
  - intros r Hr. unfold random_init. erewrite st_bind_ok by (apply (fill_loop_ok 256 r 0); [apply Hr|done|lia]).
    by erewrite st_bind_ok by apply E.
Qed.

Lemma random_init_ok r seed :
  rng_ok r → ∃ r', random_init seed r = Ok ((), r') ∧ rng_ok r' ∧ inited r' = true.
Proof. intros Hr. destruct (random_init_state seed) as (g & Hg & Hi & E). exists g. by rewrite E. Qed.

(** The state after a step, and the one before it. *)
Definition next_state (r : rng) : rng :=
  let i := u8 (s_i r + 1) in
  let j := u8 (s_j r + default 0 (s r !! Z.to_nat i)) in
  Rng (swap_at (Z.to_nat i) (Z.to_nat j) (s r)) i j (inited r).

Definition prev_state (r : rng) : rng :=
  let l := swap_at (Z.to_nat (s_i r)) (Z.to_nat (s_j r)) (s r) in
  Rng l (u8 (s_i r - 1)) (u8 (s_j r - default 0 (l !! Z.to_nat (s_i r)))) (inited r).

Lemma prev_next r :
  0 ≤ s_i r < 256 → 0 ≤ s_j r < 256 → prev_state (next_state r) = r.
Proof.
  intros Hi Hj. unfold prev_state, next_state. cbn [s s_i s_j inited]. rewrite swap_at_twice.
  destruct r as [l i j b]. cbn [s s_i s_j inited] in *. f_equal.
  - unfold u8. rewrite Zminus_mod_idemp_l, Z.add_simpl_r. by apply Z.mod_small.
  - unfold u8. rewrite Zminus_mod_idemp_l, Z.add_simpl_r. by apply Z.mod_small.
Qed.

Lemma random_byte_ok r :
  rng_ok r → inited r = true →
  ∃ b, random_byte r = Ok (b, next_state r) ∧ 0 ≤ b < 256 ∧ rng_ok (next_state r).
Proof.
  intros [Hl Hp] Hin. destruct (Hp Hin) as (Hperm & Hi & Hj). pose proof (u8_range (s_i r + 1)) as Hi'.
  destruct (perm_byte (s r) (u8 (s_i r + 1))) as (v & Ev & Hv); [done..|].
  unfold random_byte. erewrite st_bind_ok by done. unfold st_get. erewrite st_bind_ok by done. cbn [s_i].
  erewrite st_bind_ok by (apply get_s_ok; exact Ev). erewrite st_bind_ok by done. erewrite st_bind_ok by done.
  cbn [s s_i s_j inited]. pose proof (u8_range (s_j r + v)) as Hj'.
  erewrite st_bind_ok by (apply swap_byte_ok; cbn [s]; lia). cbn [s s_i s_j inited].
  assert (En : Rng (swap_at (Z.to_nat (u8 (s_i r + 1))) (Z.to_nat (u8 (s_j r + v))) (s r)) (u8 (s_i r + 1))
    (u8 (s_j r + v)) (inited r) = next_state r) by (unfold next_state; by rewrite Ev).
  rewrite En. assert (Hs' : s (next_state r) ≡ₚ identity) by (rewrite <- En; cbn; by rewrite swap_at_perm).
  destruct (perm_byte (s (next_state r)) (u8 (s_i r + 1))) as (x & Ex & _); [done..|].
  destruct (perm_byte (s (next_state r)) (u8 (s_j r + v))) as (y & Ey & _); [done..|].
  destruct (perm_byte (s (next_state r)) (u8 (x + y))) as (b & Eb & Hb); [done|apply u8_range|].
  do 2 erewrite st_bind_ok by (by apply get_s_ok). rewrite (get_s_ok _ _ _ Eb).
  exists b. split; [done|]. split; [done|]. split; [by rewrite Hs'|]. intros _. split; [done|].
  unfold next_state. cbn. split; apply u8_range.
Qed.

Lemma rng_ok_iter n r : rng_ok r → inited r = true → rng_ok (Nat.iter n next_state r) ∧ inited (Nat.iter n next_state r) = true.
Proof.
  intros Hr Hi. induction n as [|n [IH1 IH2]]; [done|]. rewrite Nat.iter_succ. split; [|done].
  by destruct (random_byte_ok _ IH1 IH2) as (_ & _ & _ & ?).
Qed.

Lemma iter_next_inj n r1 r2 :
  rng_ok r1 → rng_ok r2 → inited r1 = true → inited r2 = true →
  Nat.iter n next_state r1 = Nat.iter n next_state r2 → r1 = r2.
Proof.
  intros H1 H2 I1 I2. induction n as [|n IH]; [done|]. rewrite !Nat.iter_succ. intros E. apply IH.
  destruct (rng_ok_iter n r1 H1 I1) as [K1 J1], (rng_ok_iter n r2 H2 I2) as [K2 J2].
  destruct (ro_perm _ K1 J1) as (_ & ? & ?), (ro_perm _ K2 J2) as (_ & ? & ?).
  rewrite <- (prev_next (Nat.iter n next_state r1)), E, prev_next; done.
Qed.

Lemma bytes_loop_ok n r :
  rng_ok r → inited r = true →
  ∃ bs, bytes_loop n r = Ok (bs, Nat.iter n next_state r) ∧ length bs = n ∧
    Forall (λ b, 0 ≤ b < 256) bs ∧ rng_ok (Nat.iter n next_state r).
Proof.
  revert r. induction n as [|n IH]; intros r Hr Hin; [by exists []|].
  cbn [bytes_loop]. destruct (random_byte_ok r Hr Hin) as (b & E & Hb & Hr'). erewrite st_bind_ok by done.
  destruct (IH (next_state r) Hr') as (bs & E' & Hl & Hbs & Hok); [done|].
  rewrite <- Nat.iter_succ_r in *. erewrite st_bind_ok by done. exists (b :: bs).
  split_and!; [done|by rewrite <- Hl|by constructor|done].
Qed.
