(* ===== verification/CStdlib.v ===== *)
(** * lib/stdlib.c and lib/ctype.h: conversion, sorting and searching

    atoi, heap sort and binary search on the memory of Memory.v.  A comparison
    function is a computation on two addresses; the theorems assume of it what
    the comments of stdlib.c ask for, a strcmp-type result that orders the
    elements.  The bytes of an array of [cnt] elements of [size] bytes are the
    concatenation of its elements, and the sort is proved on the sequence of
    elements that the bytes represent. *)

From S2P Require Import Prelude Bitmap Memory CString.

Local Open Scope Z_scope.

(** ** Character classes *)

Definition isdigit (c : Z) : bool := bool_decide (48 ≤ c ∧ c ≤ 57).
Definition isspace (c : Z) : bool :=
  bool_decide (c = 32 ∨ c = 12 ∨ c = 10 ∨ c = 13 ∨ c = 9 ∨ c = 11).

(** A [char] is signed. *)
Definition char (b : Z) : Z := if decide (b < 128) then b else b - 256.

(** ** atoi *)

Fixpoint skip_space (fuel : nat) (s : Z) : MM Z :=
  match fuel with
  | O => st_fail EFuel
  | S fuel => b ← load s; if isspace b then skip_space fuel (u32 (s + 1)) else mret s
  end.

Fixpoint parse_digits (fuel : nat) (s value : Z) : MM Z :=
  match fuel with
  | O => st_fail EFuel
  | S fuel =>
      b ← load s;
      if isdigit (char b) then parse_digits fuel (u32 (s + 1)) (s32 (s32 (value * 10) - (char b - 48)))
      else mret value
  end.

Definition atoi (s : Z) : MM Z :=
  ASSERT (bool_decide (s ≠ NULL));;
  m ← st_get;
  s ← skip_space (steps m) s;
  b ← load s;
  let '(negative, s) :=
    if decide (char b = 43) then (false, u32 (s + 1))
    else if decide (char b = 45) then (true, u32 (s + 1)) else (false, s) in
  value ← parse_digits (steps m) s 0;
  mret (if (negative : bool) then value else s32 (- value)).

(** ** Sorting and searching *)

(** The bytes of two elements, exchanged one by one. *)
Fixpoint swap_loop (n : nat) (a b i : Z) : MM () :=
  match n with
  | O => mret tt
  | S n =>
      t ← load (u32 (a + i)); y ← load (u32 (b + i));
      store (u32 (a + i)) y;; store (u32 (b + i)) t;; swap_loop n a b (i + 1)
  end.

Definition do_swap (array a_idx b_idx size : Z) : MM () :=
  let a := u32 (array + (a_idx - 1) * size) in
  let b := u32 (array + (b_idx - 1) * size) in
  swap_loop (Z.to_nat size) a b 0.

Definition do_compare (array a_idx b_idx size : Z) (compare : Z → Z → MM Z) : MM Z :=
  compare (u32 (array + (a_idx - 1) * size)) (u32 (array + (b_idx - 1) * size)).

(** The index of the larger of the element [max] and the element [child]. *)
Definition pick (array child max cnt size : Z) (compare : Z → Z → MM Z) : MM Z :=
  if decide (child ≤ cnt) then
    c ← do_compare array child max size compare;
    mret (if decide (0 < c) then child else max)
  else mret max.

Fixpoint heapify (fuel : nat) (array i cnt size : Z) (compare : Z → Z → MM Z) : MM () :=
  match fuel with
  | O => st_fail EFuel
  | S fuel =>
      let left := u32 (2 * i) in
      let right := u32 (2 * i + 1) in
      max ← pick array left i cnt size compare;
      max ← pick array right max cnt size compare;
      if decide (max = i) then mret tt else
      do_swap array i max size;; heapify fuel array max cnt size compare
  end.

(** [for (i = cnt / 2; i > 0; i--)]. *)
Fixpoint build_loop (i : nat) (array cnt size : Z) (compare : Z → Z → MM Z) : MM () :=
  match i with
  | O => mret tt
  | S i' => heapify (S (Z.to_nat cnt)) array (Z.of_nat i) cnt size compare;; build_loop i' array cnt size compare
  end.

(** [for (i = cnt; i > 1; i--)]. *)
Fixpoint sort_loop (i : nat) (array size : Z) (compare : Z → Z → MM Z) : MM () :=
  match i with
  | S (S _ as i') =>
      do_swap array 1 (Z.of_nat i) size;;
      heapify (S i') array 1 (Z.of_nat i') size compare;;
      sort_loop i' array size compare
  | _ => mret tt
  end.

Definition sort (array cnt size : Z) (compare : Z → Z → MM Z) : MM () :=
  ASSERT (nonnull_or_empty array cnt);;
  ASSERT (bool_decide (0 < size));;
  build_loop (Z.to_nat (cnt / 2)) array cnt size compare;;
  sort_loop (Z.to_nat cnt) array size compare.

(** compare_thunk calls the function its auxiliary argument points to. *)
Definition compare_thunk (compare : Z → Z → MM Z) (a b : Z) : MM Z := compare a b.

Definition qsort (array cnt size : Z) (compare : Z → Z → MM Z) : MM () :=
  sort array cnt size (compare_thunk compare).

Fixpoint search_loop (fuel : nat) (key first last size : Z) (compare : Z → Z → MM Z) : MM Z :=
  match fuel with
  | O => st_fail EFuel
  | S fuel =>
      if decide (first < last) then
        let range := (last - first) / size in
        let middle := u32 (first + range / 2 * size) in
        cmp ← compare key middle;
        if decide (cmp < 0) then search_loop fuel key first middle size compare
        else if decide (0 < cmp) then search_loop fuel key (u32 (middle + size)) last size compare
        else mret middle
      else mret NULL
  end.

Definition binary_search (key array cnt size : Z) (compare : Z → Z → MM Z) : MM Z :=
  search_loop (S (Z.to_nat cnt)) key array (u32 (array + size * cnt)) size compare.

Definition bsearch (key array cnt size : Z) (compare : Z → Z → MM Z) : MM Z :=
  binary_search key array cnt size (compare_thunk compare).

(** ** Heap sort on sequences *)

Section heap.
Context {A : Type} `{!Inhabited A} (cmp : A → A → Z).
Implicit Types (l : list A).

Definition le (x y : A) : Prop := cmp x y ≤ 0.

(** The element with the 1-based index [k]. *)
Definition el l (k : nat) : A := l !!! (k - 1)%nat.
Definition swap_el (i j : nat) l : list A := swap_at (i - 1) (j - 1) l.

Definition pick_el (child max cnt : nat) l : nat :=
  if decide (child ≤ cnt)%nat then if decide (0 < cmp (el l child) (el l max)) then child else max else max.

Fixpoint sift (fuel i cnt : nat) l : list A :=
  match fuel with
  | O => l
  | S fuel =>
      let max := pick_el (2 * i + 1) (pick_el (2 * i) i cnt l) cnt l in
      if decide (max = i) then l else sift fuel max cnt (swap_el i max l)
  end.

Fixpoint build (i cnt : nat) l : list A :=
  match i with O => l | S i' => build i' cnt (sift (S cnt) i cnt l) end.

Fixpoint sort_down (i : nat) l : list A :=
  match i with
  | S (S _ as i') => sort_down i' (sift (S i') 1 i' (swap_el 1 i l))
  | _ => l
  end.

Definition heap_sort l : list A := sort_down (length l) (build (length l / 2) (length l) l).
End heap.

(** What the comments of stdlib.c ask of a comparison function. *)
Class Comparison {A} (cmp : A → A → Z) : Prop := {
  cmp_flip : ∀ x y, 0 < cmp x y ↔ cmp y x < 0;
  cmp_trans : ∀ x y z, cmp x y ≤ 0 → cmp y z ≤ 0 → cmp x z ≤ 0;
}.

Section heap_facts.
Context {A : Type} `{!Inhabited A} (cmp : A → A → Z) `{!Comparison cmp}.
Implicit Types (l : list A).
Local Abbreviation le := (le cmp).

Lemma le_refl x : le x x.
Proof. unfold CStdlib.le. destruct (decide (0 < cmp x x)) as [H|]; [|lia]. pose proof (proj1 (cmp_flip x x) H). lia. Qed.

Lemma gt_le x y : 0 < cmp x y → le y x.
Proof. intros H%cmp_flip. unfold CStdlib.le. lia. Qed.

Lemma not_gt_le x y : ¬ 0 < cmp x y → le x y.
Proof. unfold CStdlib.le. lia. Qed.

Lemma le_trans x y z : le x y → le y z → le x z.
Proof. apply cmp_trans. Qed.

Lemma lt_le_trans x y z : cmp x y < 0 → le y z → cmp x z < 0.
Proof.
  intros Hxy Hyz. apply Z.nle_gt. intros Hn. assert (Hzx : le z x).
  { unfold CStdlib.le. destruct (decide (0 < cmp z x)) as [H%cmp_flip|]; lia. }
  pose proof (le_trans _ _ _ Hyz Hzx) as H. unfold CStdlib.le in H. apply cmp_flip in Hxy. lia.
Qed.

Lemma le_lt_trans x y z : le x y → 0 < cmp z y → 0 < cmp z x.
Proof.
  intros Hxy Hzy. apply Z.nle_gt. intros Hn. pose proof (le_trans _ _ _ Hn Hxy) as H. unfold CStdlib.le in H. lia.
Qed.

Lemma el_swap l i j k :
  (1 ≤ i ≤ length l)%nat → (1 ≤ j ≤ length l)%nat → (1 ≤ k)%nat →
  el (swap_el i j l) k = if decide (k = i) then el l j else if decide (k = j) then el l i else el l k.
Proof.
  intros Hi Hj Hk. unfold el, swap_el. rewrite !list_lookup_total_alt, swap_at_lookup by lia.
  repeat case_decide; try lia; done.
Qed.

(** [l'] is [l] with its first [cnt] elements permuted. *)
Record within (cnt : nat) l l' : Prop := {
  wi_perm : l' ≡ₚ l;
  wi_high : ∀ k, (cnt < k)%nat → el l' k = el l k;
  wi_low : ∀ k, (1 ≤ k ≤ cnt)%nat → ∃ j, (1 ≤ j ≤ cnt)%nat ∧ el l' k = el l j;
}.

Lemma within_refl cnt l : within cnt l l.
Proof. split; eauto. Qed.

Lemma within_trans cnt l1 l2 l3 : within cnt l1 l2 → within cnt l2 l3 → within cnt l1 l3.
Proof.
  intros [P1 H1 L1] [P2 H2 L2]. split.
  - by rewrite P2.
  - intros k Hk. by rewrite H2, H1.
  - intros k Hk. destruct (L2 k Hk) as (j & Hj & ->). apply L1, Hj.
Qed.

Lemma within_length cnt l l' : within cnt l l' → length l' = length l.
Proof. by intros [-> _ _]. Qed.

Lemma within_swap cnt l i j :
  (cnt ≤ length l)%nat → (1 ≤ i ≤ cnt)%nat → (1 ≤ j ≤ cnt)%nat → within cnt l (swap_el i j l).
Proof.
  intros Hc Hi Hj. split.
  - apply swap_at_perm.
  - intros k Hk. rewrite el_swap by lia. by rewrite !decide_False by lia.
  - intros k Hk. rewrite el_swap by lia. repeat case_decide; (eexists; split; [|reflexivity]; lia).
Qed.

(** Every child of a node from [lo] on, within the first [cnt] elements, is at
    most its parent. *)
Definition heap_from (lo cnt : nat) l : Prop :=
  ∀ k, (2 ≤ k ≤ cnt)%nat → (lo ≤ k / 2)%nat → le (el l k) (el l (k / 2)%nat).

(** The same but for the node [i], whose children are at most its parent. *)
Definition heap_but (lo i cnt : nat) l : Prop :=
  (∀ k, (2 ≤ k ≤ cnt)%nat → (lo ≤ k / 2)%nat → (k / 2 ≠ i)%nat → le (el l k) (el l (k / 2)%nat)) ∧
  (∀ k, (2 ≤ k ≤ cnt)%nat → (k / 2 = i)%nat → (lo ≤ i / 2)%nat → le (el l k) (el l (i / 2)%nat)).

(** What heapify chooses. *)
Lemma pick_spec i cnt l :
  (1 ≤ i ≤ cnt)%nat →
  let max := pick_el cmp (2 * i + 1) (pick_el cmp (2 * i) i cnt l) cnt l in
  (max = i ∨ (max / 2 = i ∧ 2 ≤ max ≤ cnt)%nat) ∧ le (el l i) (el l max) ∧
  ∀ k, (2 ≤ k ≤ cnt)%nat → (k / 2 = i)%nat → le (el l k) (el l max).
Proof.
  intros Hi. cbv zeta.
  assert (Hk : ∀ k, (k / 2 = i)%nat → k = (2 * i)%nat ∨ k = (2 * i + 1)%nat).
  { intros k E. pose proof (Nat.div_mod_eq k 2). pose proof (Nat.mod_upper_bound k 2). lia. }
  assert (D0 : (2 * i / 2 = i)%nat) by (rewrite Nat.mul_comm, Nat.div_mul; lia).
  assert (D1 : ((2 * i + 1) / 2 = i)%nat) by (rewrite Nat.mul_comm, Nat.div_add_l; cbn; lia).
  unfold pick_el. repeat case_decide; (split; [lia|]);
    (split; [eauto using le_refl, gt_le, le_trans|]);
    intros k Hkc Hk2; destruct (Hk k Hk2) as [->| ->]; try lia; eauto using le_refl, gt_le, not_gt_le, le_trans.
Qed.

(** Moving the larger child up leaves only the child's node to repair. *)
Lemma heap_but_swap lo i m cnt l :
  (1 ≤ lo ≤ i)%nat → (cnt ≤ length l)%nat → (m / 2 = i)%nat → (2 ≤ m ≤ cnt)%nat → heap_but lo i cnt l →
  le (el l i) (el l m) → (∀ k, (2 ≤ k ≤ cnt)%nat → (k / 2 = i)%nat → le (el l k) (el l m)) →
  heap_but lo m cnt (swap_el i m l).
Proof.
  intros Hlo Hc Hm Hmc [Hedge Hgrand] Him Hmax.
  assert (Hhalf : ∀ k, (2 ≤ k)%nat → (k / 2 < k)%nat ∧ (1 ≤ k / 2)%nat).
  { intros k Hk. split; [apply Nat.div_lt; lia|]. by apply (Nat.div_le_mono 2 k 2). }
  pose proof (Hhalf m ltac:(lia)) as Hm2. split.
  - intros k Hk Hlk Hkm. pose proof (Hhalf k ltac:(lia)) as Hk2. rewrite !el_swap by lia.
    destruct (decide (k = i)) as [->|Hki].
    + rewrite decide_False, decide_False by lia. apply Hgrand; lia.
    + destruct (decide (k = m)) as [->|Hkm'].
      * rewrite Hm. by rewrite decide_True.
      * destruct (decide (k / 2 = i)%nat) as [E|E]; [by apply Hmax|].
        rewrite decide_False by done. apply Hedge; done.
  - intros k Hk Hkm Hlm. pose proof (Hhalf k ltac:(lia)) as Hk2. rewrite Hm, !el_swap by lia.
    rewrite (decide_False (P := k = i)), (decide_False (P := k = m)), decide_True by lia.
    rewrite <- Hkm. apply Hedge; lia.
Qed.

Lemma sift_ok fuel lo i cnt l :
  (1 ≤ lo ≤ i)%nat → (i ≤ cnt ≤ length l)%nat → (cnt - i < fuel)%nat → heap_but lo i cnt l →
  heap_from lo cnt (sift cmp fuel i cnt l) ∧ within cnt l (sift cmp fuel i cnt l).
Proof.
  revert i l. induction fuel as [|fuel IH]; intros i l Hlo Hc Hf Hb; [lia|]. cbn [sift].
  destruct (pick_spec i cnt l) as (Hm & Him & Hmax); [lia|].
  set (m := pick_el cmp (2 * i + 1) _ cnt l) in *. case_decide as E.
  - split; [|apply within_refl]. rewrite E in Hmax. intros k Hk Hlk.
    destruct (decide (k / 2 = i)%nat) as [E2|E2]; [rewrite E2; by apply Hmax|]. by apply Hb.
  - destruct Hm as [|[Hm Hmc]]; [done|].
    assert (Hlt : (i < m)%nat) by (rewrite <- Hm; apply Nat.div_lt; lia).
    destruct (IH m (swap_el i m l)) as [Hh Hw].
    + lia.
    + unfold swap_el. rewrite swap_at_length. lia.
    + lia.
    + by apply heap_but_swap; try lia.
    + split; [done|]. eapply within_trans; [|done]. apply within_swap; lia.
Qed.

Lemma heap_from_but lo cnt l : (1 ≤ lo)%nat → heap_from (S lo) cnt l → heap_but lo lo cnt l.
Proof.
  intros Hlo H. split; [|intros k _ _ Hl; pose proof (Nat.div_lt lo 2); lia].
  intros k Hk Hl Hne. apply H; lia.
Qed.

Lemma build_ok i cnt l :
  (i ≤ cnt ≤ length l)%nat → heap_from (S i) cnt l →
  heap_from 1 cnt (build cmp i cnt l) ∧ within cnt l (build cmp i cnt l).
Proof.
  revert l. induction i as [|i IH]; intros l Hi Hh; cbn [build]; [split; [done|apply within_refl]|].
  destruct (sift_ok (S cnt) (S i) (S i) cnt l) as [Hh' Hw]; [lia..|by apply heap_from_but; [lia|]|].
  destruct (IH (sift cmp (S cnt) (S i) cnt l)) as [H1 H2]; [rewrite (within_length _ _ _ Hw); lia|done|].
  split; [done|]. by eapply within_trans.
Qed.

(** The root of a heap is its largest element. *)
Lemma heap_root cnt l k : heap_from 1 cnt l → (1 ≤ k ≤ cnt)%nat → le (el l k) (el l 1).
Proof.
  intros Hh. induction k as [k IH] using lt_wf_ind. intros Hk.
  destruct (decide (k = 1)%nat) as [->|Hne]; [apply le_refl|].
  assert (Hd : (k / 2 < k ∧ 1 ≤ k / 2)%nat) by (split; [apply Nat.div_lt; lia|apply (Nat.div_le_mono 2 k 2); lia]).
  eapply le_trans; [apply Hh; lia|]. apply IH; lia.
Qed.

(** The elements above the first [i] are in their final places. *)
Definition final_above (i : nat) l : Prop :=
  ∀ a b, (1 ≤ a < b)%nat → (i < b ≤ length l)%nat → le (el l a) (el l b).

Lemma final_within i l l' : within i l l' → final_above i l → final_above i l'.
Proof.
  intros Hw Hf a b Hab Hb. rewrite (within_length _ _ _ Hw) in Hb. rewrite (wi_high _ _ _ Hw b) by lia.
  destruct (decide (a ≤ i)%nat).
  - destruct (wi_low _ _ _ Hw a) as (j & Hj & ->); [lia|]. apply Hf; lia.
  - rewrite (wi_high _ _ _ Hw a) by lia. apply Hf; lia.
Qed.

Lemma sort_down_ok i l :
  (i ≤ length l)%nat → heap_from 1 i l → final_above i l →
  final_above 1 (sort_down cmp i l) ∧ sort_down cmp i l ≡ₚ l.
Proof.
  revert l. induction i as [|[|i] IH]; intros l Hi Hh Hf.
  - split; [|done]. cbn [sort_down]. intros a b Hab Hb. apply Hf; lia.
  - by split.
  - change (sort_down cmp (S (S i)) l) with (sort_down cmp (S i) (sift cmp (S (S i)) 1 (S i) (swap_el 1 (S (S i)) l))).
    set (n := S (S i)) in *. pose proof (within_swap n l 1 n Hi ltac:(lia) ltac:(lia)) as Hw.
    set (l1 := swap_el 1 n l) in *. pose proof (within_length _ _ _ Hw) as Hl1.
    assert (Hf1 : final_above (S i) l1).
    { intros a b Hab Hb. destruct (decide (b = n)) as [->|Hbn].
      - destruct (wi_low _ _ _ Hw a) as (j & Hj & ->); [lia|].
        unfold l1. rewrite el_swap by lia. rewrite decide_False, decide_True by lia. by apply (heap_root n).
      - apply (final_within n l l1 Hw Hf); lia. }
    assert (Hh1 : heap_from 2 (S i) l1).
    { intros k Hk Hk2. assert (k / 2 < k)%nat by (apply Nat.div_lt; lia). unfold l1. rewrite !el_swap by lia.
      rewrite !decide_False by lia. apply Hh; lia. }
    destruct (sift_ok (S (S i)) 1 1 (S i) l1) as [Hh2 Hw2]; [lia..|by apply heap_from_but|].
    destruct (IH _ ltac:(rewrite (within_length _ _ _ Hw2); lia) Hh2 (final_within _ _ _ Hw2 Hf1)) as [H1 H2].
    split; [done|]. etrans; [exact H2|]. by rewrite (wi_perm _ _ _ Hw2), (wi_perm _ _ _ Hw).
Qed.

Lemma final_sorted l : final_above 1 l → StronglySorted le l.
Proof.
  assert (He : ∀ x l' k, (1 ≤ k)%nat → el (x :: l') (S k) = el l' k).
  { intros x l' k Hk. unfold el. by replace (S k - 1)%nat with (S (k - 1)) by lia. }
  induction l as [|x l IH]; intros Hf; constructor.
  - apply IH. intros a b Hab Hb. rewrite <- (He x l a), <- (He x l b) by lia. apply Hf; cbn [length]; lia.
  - apply Forall_lookup. intros k y Hy. pose proof (lookup_lt_Some _ _ _ Hy).
    specialize (Hf 1 (S (S k)))%nat. rewrite (He x l (S k)) in Hf by lia. unfold el in Hf. cbn [length Nat.sub] in Hf.
    rewrite Nat.sub_0_r, (list_lookup_total_correct _ _ _ Hy) in Hf. apply Hf; lia.
Qed.

(** Heap sort ends with a sorted permutation. *)
Lemma heap_sort_ok l : StronglySorted le (heap_sort cmp l) ∧ heap_sort cmp l ≡ₚ l.
Proof.
  unfold heap_sort. set (n := length l).
  assert (Hn : (n / 2 ≤ n)%nat) by (apply Nat.Div0.div_le_upper_bound; lia).
  destruct (build_ok (n / 2) n l) as [Hh Hw]; [lia| |].
  { intros k Hk Hk2. pose proof (Nat.Div0.div_le_mono k n 2). lia. }
  destruct (sort_down_ok n (build cmp (n / 2) n l)) as [H1 H2].
  - by rewrite (within_length _ _ _ Hw).
  - done.
  - intros a b Hab Hb. rewrite (within_length _ _ _ Hw) in Hb. unfold n in Hb. lia.
  - split; [by apply final_sorted|]. by rewrite H2, (wi_perm _ _ _ Hw).
Qed.
End heap_facts.

(** ** Arrays of equal-sized elements in memory *)

Definition uniform (sz : nat) (es : list (list Z)) : Prop := Forall (λ e, length e = sz) es.

#[export] Instance uniform_dec sz es : Decision (uniform sz es).
Proof. unfold uniform. apply _. Defined.

Lemma write_set p bs j v m :
  (j < length bs)%nat → <[p + Z.of_nat j := v]> (write p bs m) = write p (<[j := v]> bs) m.
Proof.
  intros Hj. apply map_eq. intros a. rewrite lookup_write, length_insert.
  destruct (decide (a = p + Z.of_nat j)) as [->|Hne].
  - rewrite lookup_insert_eq, decide_True by lia. replace (Z.to_nat _) with j by lia.
    by rewrite list_lookup_insert_eq.
  - rewrite lookup_insert_ne, lookup_write by done. case_decide; [|done].
    rewrite list_lookup_insert_ne; [done|]. lia.
Qed.

Section concat.
Context (sz : nat).
Implicit Types (es : list (list Z)).

Lemma uniform_lookup es k e : uniform sz es → es !! k = Some e → length e = sz.
Proof. intros H E. by eapply (Forall_lookup_1 _ _ _ _ H). Qed.

Lemma concat_length es : uniform sz es → length (concat es) = (length es * sz)%nat.
Proof. induction 1 as [|e es He _ IH]; [done|]. cbn. by rewrite length_app, He, IH. Qed.

Lemma concat_lookup es k e i :
  uniform sz es → es !! k = Some e → (i < sz)%nat → concat es !! (k * sz + i)%nat = e !! i.
Proof.
  intros H. revert k. induction H as [|e' es He _ IH]; intros k E Hi; [done|]. cbn [concat].
  destruct k as [|k]; cbn in E.
  - injection E as ->. rewrite lookup_app_l by lia. done.
  - rewrite lookup_app_r by lia. replace (S k * sz + i - length e')%nat with (k * sz + i)%nat by lia. by apply IH.
Qed.

Lemma concat_insert es k e i v :
  uniform sz es → es !! k = Some e → (i < sz)%nat →
  <[(k * sz + i)%nat := v]> (concat es) = concat (<[k := <[i := v]> e]> es).
Proof.
  intros H. revert k. induction H as [|e' es He _ IH]; intros k E Hi; [done|]. destruct k as [|k]; cbn in E.
  - injection E as ->. cbn. by rewrite insert_app_l by lia.
  - replace (S k * sz + i)%nat with (length e' + (k * sz + i))%nat by lia. cbn [concat].
    rewrite insert_app_r. change (<[S k := ?x]> (e' :: es)) with (e' :: <[k := x]> es). cbn [concat].
    by rewrite (IH k).
Qed.

Lemma uniform_insert es k e : uniform sz es → length e = sz → uniform sz (<[k := e]> es).
Proof. intros H He. by apply Forall_insert. Qed.

Lemma uniform_perm es es' : es' ≡ₚ es → uniform sz es → uniform sz es'.
Proof. intros HP H. unfold uniform. by rewrite HP. Qed.

(** [x] with its first [i] bytes taken from [y]. *)
Definition mix (i : nat) (x y : list Z) : list Z := take i y ++ drop i x.

Lemma mix_next i x y b :
  length x = length y → y !! i = Some b → <[i := b]> (mix i x y) = mix (S i) x y.
Proof.
  intros El Hb. pose proof (lookup_lt_Some _ _ _ Hb). unfold mix.
  destruct (lookup_lt_is_Some_2 x i) as [a Ha]; [lia|].
  rewrite (drop_S _ _ _ Ha), (take_S_r _ _ _ Hb), <- app_assoc.
  replace i with (length (take i y) + 0)%nat at 1 by (rewrite length_take; lia).
  by rewrite insert_app_r.
Qed.

Lemma mix_lookup i x y : length x = length y → mix i x y !! i = x !! i.
Proof.
  intros El. unfold mix. destruct (decide (i < length x)%nat) as [Hi|Hi].
  - rewrite lookup_app_r by (rewrite length_take; lia). rewrite length_take, Nat.min_l, Nat.sub_diag by lia.
    by rewrite lookup_drop, Nat.add_0_r.
  - rewrite (lookup_ge_None_2 x) by lia. apply lookup_ge_None_2. rewrite length_app, length_take, length_drop. lia.
Qed.

Lemma mix_length i x y : length x = length y → length (mix i x y) = length x.
Proof. intros El. unfold mix. rewrite length_app, length_take, length_drop. lia. Qed.
End concat.

Section array.
Context (m : mem) (array : Z) (n sz : nat) (Hm : mapped m array (n * sz)) (Hsz : (0 < sz)%nat).
Implicit Types (es : list (list Z)).

(** Memory with the elements [es] in the array. *)
Definition arr es : mem := write array (concat es) m.
Definition fits es : Prop := uniform sz es ∧ length es = n.

(** The address of an element, 0-based. *)
Definition slot (k : nat) : Z := array + Z.of_nat (k * sz).

Lemma slot_range k i : (k < n)%nat → (i < sz)%nat → (k * sz + i < n * sz)%nat.
Proof. nia. Qed.

Lemma slot_u32 k i : (k < n)%nat → (i < sz)%nat → u32 (slot k + Z.of_nat i) = slot k + Z.of_nat i.
Proof.
  intros Hk Hi. pose proof (slot_range k i Hk Hi). destruct Hm as [Hr _]. unfold slot.
  apply u32_id. unfold in_u32. lia.
Qed.

(** The address the source computes for a 1-based index. *)
Lemma slot_index k : (1 ≤ k ≤ n)%nat → u32 (array + (Z.of_nat k - 1) * Z.of_nat sz) = slot (k - 1).
Proof.
  intros Hk. pose proof (slot_u32 (k - 1) 0 ltac:(lia) Hsz) as E. rewrite Z.add_0_r in E. etrans; [|exact E].
  unfold slot. rewrite Nat2Z.inj_mul, Nat2Z.inj_sub by lia. f_equal.
Qed.

Lemma arr_lookup es k e i : fits es → es !! k = Some e → (i < sz)%nat → arr es !! (slot k + Z.of_nat i) = e !! i.
Proof.
  intros [Hu Hl] E Hi. pose proof (lookup_lt_Some _ _ _ E) as Hk. pose proof (slot_range k i ltac:(lia) Hi).
  unfold arr, slot. rewrite lookup_write, decide_True by (rewrite (concat_length sz) by done; lia).
  replace (Z.to_nat _) with (k * sz + i)%nat by lia. by apply concat_lookup.
Qed.

Lemma arr_store es k e i v :
  fits es → es !! k = Some e → (i < sz)%nat →
  store (slot k + Z.of_nat i) v (arr es) = Ok ((), arr (<[k := <[i := v]> e]> es)).
Proof.
  intros Hf E Hi. pose proof Hf as [Hu Hl]. pose proof (lookup_lt_Some _ _ _ E) as Hk.
  pose proof (slot_range k i ltac:(lia) Hi). rewrite store_ok.
  - unfold arr, slot. rewrite <- Z.add_assoc, <- Nat2Z.inj_add.
    rewrite write_set by (rewrite (concat_length sz) by done; lia). by rewrite (concat_insert sz es k e).
  - rewrite (arr_lookup es k e) by done. apply lookup_lt_is_Some_2.
    by rewrite (uniform_lookup sz es k e).
Qed.

Lemma fits_insert es k e : fits es → length e = sz → fits (<[k := e]> es).
Proof. intros [Hu Hl] He. split; [by apply uniform_insert|by rewrite length_insert]. Qed.

Lemma arr_holds es k e : fits es → es !! k = Some e → holds (arr es) (slot k) e.
Proof.
  intros Hf E. pose proof Hf as [Hu Hl]. pose proof (uniform_lookup sz es k e Hu E) as He.
  pose proof (lookup_lt_Some _ _ _ E). destruct Hm as [Hr _]. split.
  - unfold slot. rewrite He. nia.
  - intros i Hi. apply arr_lookup; [done..|lia].
Qed.

(** The state of the exchange of [x] at [ia] and [y] at [ib] after [i] bytes. *)
Definition swapping (ia ib i : nat) (x y : list Z) es : list (list Z) :=
  <[ib := mix i y x]> (<[ia := mix i x y]> es).

Lemma swap_loop_ok es ia ib x y rem i :
  fits es → es !! ia = Some x → es !! ib = Some y → ia ≠ ib → (i + rem = sz)%nat →
  swap_loop rem (slot ia) (slot ib) (Z.of_nat i) (arr (swapping ia ib i x y es)) =
    Ok ((), arr (swapping ia ib sz x y es)).
Proof.
  intros Hf Ex Ey Hne. pose proof Hf as [Hu Hl].
  pose proof (uniform_lookup _ _ _ _ Hu Ex) as Lx. pose proof (uniform_lookup _ _ _ _ Hu Ey) as Ly.
  pose proof (lookup_lt_Some _ _ _ Ex) as Ha. pose proof (lookup_lt_Some _ _ _ Ey) as Hb.
  revert i. induction rem as [|rem IH]; intros i Hi; cbn [swap_loop].
  { by replace i with sz by lia. }
  destruct (lookup_lt_is_Some_2 x i) as [u Eu]; [lia|]. destruct (lookup_lt_is_Some_2 y i) as [v Ev]; [lia|].
  assert (Hfi : fits (swapping ia ib i x y es)).
  { unfold swapping. repeat apply fits_insert; [done|rewrite mix_length; lia..]. }
  assert (Eia : swapping ia ib i x y es !! ia = Some (mix i x y)).
  { unfold swapping. by rewrite list_lookup_insert_ne, list_lookup_insert_eq. }
  assert (Eib : swapping ia ib i x y es !! ib = Some (mix i y x)).
  { unfold swapping. by rewrite list_lookup_insert_eq by (by rewrite length_insert). }
  rewrite !slot_u32 by lia.
  erewrite st_bind_ok by (apply load_byte_ok; rewrite (arr_lookup _ _ _ _ Hfi Eia), mix_lookup by lia; exact Eu).
  erewrite st_bind_ok by (apply load_byte_ok; rewrite (arr_lookup _ _ _ _ Hfi Eib), mix_lookup by lia; exact Ev).
  erewrite st_bind_ok by (apply (arr_store _ _ _ _ _ Hfi Eia); lia). rewrite mix_next by (done || lia).
  erewrite st_bind_ok.
  2:{ apply (arr_store _ ib (mix i y x)); [|by rewrite list_lookup_insert_ne|lia].
      apply fits_insert; [done|]. rewrite mix_length; lia. }
  rewrite mix_next by (done || lia). replace (Z.of_nat i + 1) with (Z.of_nat (S i)) by lia.
  replace (<[ib := mix (S i) y x]> _) with (swapping ia ib (S i) x y es); [apply IH; lia|].
  unfold swapping. rewrite (list_insert_insert_ne _ ia ib) by done.
  by rewrite !list_insert_insert_eq.
Qed.

Lemma do_swap_ok es a b :
  fits es → (1 ≤ a ≤ n)%nat → (1 ≤ b ≤ n)%nat → a ≠ b →
  do_swap array (Z.of_nat a) (Z.of_nat b) (Z.of_nat sz) (arr es) = Ok ((), arr (swap_el a b es)).
Proof.
  intros Hf Ha Hb Hne. pose proof Hf as [Hu Hl].
  destruct (lookup_lt_is_Some_2 es (a - 1)) as [x Ex]; [lia|].
  destruct (lookup_lt_is_Some_2 es (b - 1)) as [y Ey]; [lia|].
  unfold do_swap. rewrite !slot_index, Nat2Z.id by done.
  pose proof (swap_loop_ok es (a - 1) (b - 1) x y sz 0 Hf Ex Ey ltac:(lia) ltac:(lia)) as E.
  unfold swapping, mix in E. rewrite !take_0, !drop_0 in E. cbn [app] in E.
  rewrite (list_insert_id es (a - 1)), (list_insert_id es (b - 1)) in E by done. etrans; [exact E|].
  pose proof (uniform_lookup _ _ _ _ Hu Ex). pose proof (uniform_lookup _ _ _ _ Hu Ey).
  rewrite !take_ge, !drop_ge, !app_nil_r by lia. unfold swap_el, swap_at. by rewrite Ex, Ey.
Qed.

(** ** The sort on memory computes the sort on sequences *)

Context (compare : Z → Z → MM Z) (cmp : list Z → list Z → Z).
Hypothesis compare_ok : ∀ m p q x y,
  holds m p x → holds m q y → length x = sz → length y = sz → compare p q m = Ok (cmp x y, m).
Hypothesis n_bound : Z.of_nat (2 * n + 1) < 2^32.

Lemma do_compare_ok es a b :
  fits es → (1 ≤ a ≤ n)%nat → (1 ≤ b ≤ n)%nat →
  do_compare array (Z.of_nat a) (Z.of_nat b) (Z.of_nat sz) compare (arr es) = Ok (cmp (el es a) (el es b), arr es).
Proof.
  intros Hf Ha Hb. pose proof Hf as [Hu Hl]. unfold do_compare. rewrite !slot_index by done.
  assert (He : ∀ k, (1 ≤ k ≤ n)%nat → es !! (k - 1)%nat = Some (el es k)).
  { intros k Hk. apply list_lookup_lookup_total_lt. lia. }
  apply compare_ok; try (eapply uniform_lookup; [done|by apply He]); by apply arr_holds, He.
Qed.

Lemma pick_ok es child max cnt :
  fits es → (1 ≤ child)%nat → (1 ≤ max ≤ n)%nat → (cnt ≤ n)%nat →
  pick array (Z.of_nat child) (Z.of_nat max) (Z.of_nat cnt) (Z.of_nat sz) compare (arr es) =
    Ok (Z.of_nat (pick_el cmp child max cnt es), arr es).
Proof.
  intros Hf Hc Hx Hn. unfold pick, pick_el. destruct (decide (child ≤ cnt)%nat).
  - rewrite decide_True by lia. erewrite st_bind_ok by (apply do_compare_ok; [done|lia..]). by case_decide.
  - by rewrite decide_False by lia.
Qed.

Lemma pick_el_range es child max cnt :
  (max ≤ cnt)%nat → let r := pick_el cmp child max cnt es in (r = child ∨ r = max) ∧ (r ≤ cnt)%nat.
Proof. intros H. unfold pick_el. repeat case_decide; auto. Qed.

Lemma heapify_ok fuel i cnt es :
  fits es → (1 ≤ i ≤ cnt)%nat → (cnt ≤ n)%nat → (cnt - i < fuel)%nat →
  heapify fuel array (Z.of_nat i) (Z.of_nat cnt) (Z.of_nat sz) compare (arr es) =
    Ok ((), arr (sift cmp fuel i cnt es)) ∧ fits (sift cmp fuel i cnt es).
Proof.
  revert i es. induction fuel as [|fuel IH]; intros i es Hf Hi Hc Hfu; [lia|]. cbn [heapify sift].
  rewrite !u32_id by (unfold in_u32; lia).
  replace (2 * Z.of_nat i) with (Z.of_nat (2 * i)) by lia.
  replace (Z.of_nat (2 * i) + 1) with (Z.of_nat (2 * i + 1)) by lia.
  erewrite st_bind_ok by (apply pick_ok; [done|lia..]).
  destruct (pick_el_range es (2 * i) i cnt) as [H1 H1']; [lia|].
  set (m1 := pick_el cmp (2 * i) i cnt es) in *.
  erewrite st_bind_ok by (apply pick_ok; [done|lia..]).
  destruct (pick_el_range es (2 * i + 1) m1 cnt) as [H2 H2']; [lia|].
  set (m2 := pick_el cmp (2 * i + 1) m1 cnt es) in *.
  destruct (decide (m2 = i)) as [E|E]; [by rewrite decide_True by lia|]. rewrite decide_False by lia.
  erewrite st_bind_ok by (apply do_swap_ok; [done|lia..]). apply IH; try lia.
  destruct Hf as [Hu Hl]. split; [|unfold swap_el; by rewrite swap_at_length].
  eapply uniform_perm; [apply swap_at_perm|done].
Qed.

Lemma build_loop_ok i cnt es :
  fits es → (i ≤ cnt)%nat → (cnt ≤ n)%nat →
  build_loop i array (Z.of_nat cnt) (Z.of_nat sz) compare (arr es) = Ok ((), arr (build cmp i cnt es)) ∧
  fits (build cmp i cnt es).
Proof.
  revert es. induction i as [|i IH]; intros es Hf Hi Hc; [done|]. cbn [build_loop build]. rewrite Nat2Z.id.
  destruct (heapify_ok (S cnt) (S i) cnt es) as [E Hf']; [done|lia..|].
  erewrite st_bind_ok by exact E. apply IH; [done|lia..].
Qed.

Lemma sort_loop_ok i es :
  fits es → (i ≤ n)%nat →
  sort_loop i array (Z.of_nat sz) compare (arr es) = Ok ((), arr (sort_down cmp i es)).
Proof.
  revert es. induction i as [|[|i] IH]; intros es Hf Hi; [done..|].
  change (sort_loop (S (S i)) array (Z.of_nat sz) compare) with
    (do_swap array (Z.of_nat 1) (Z.of_nat (S (S i))) (Z.of_nat sz);;
     heapify (S (S i)) array (Z.of_nat 1) (Z.of_nat (S i)) (Z.of_nat sz) compare;;
     sort_loop (S i) array (Z.of_nat sz) compare).
  erewrite st_bind_ok by (apply do_swap_ok; [done|lia..]).
  assert (Hf1 : fits (swap_el 1 (S (S i)) es)).
  { destruct Hf as [Hu Hl]. split; [|unfold swap_el; by rewrite swap_at_length].
    eapply uniform_perm; [apply swap_at_perm|done]. }
  destruct (heapify_ok (S (S i)) 1 (S i) _ Hf1) as [E Hf2]; [lia..|].
  erewrite st_bind_ok by exact E. apply (IH _ Hf2). lia.
Qed.

Lemma sort_ok es :
  fits es → sort array (Z.of_nat n) (Z.of_nat sz) compare (arr es) = Ok ((), arr (heap_sort cmp es)).
Proof.
  intros Hf. pose proof Hf as [_ Hl]. pose proof Hm as [[] _]. unfold sort, heap_sort. rewrite Hl.
  erewrite st_bind_ok by (by apply assert_ok, nonnull_ok).
  erewrite st_bind_ok by (apply assert_ok, bool_decide_eq_true; lia).
  assert (Hn : (n / 2 ≤ n)%nat) by (apply Nat.Div0.div_le_upper_bound; lia).
  destruct (build_loop_ok (n / 2) n es Hf Hn ltac:(lia)) as [E Hf'].
  replace (Z.to_nat (Z.of_nat n / 2)) with (n / 2)%nat by (pose proof (Nat2Z.inj_div n 2) as En; cbn [Z.of_nat] in En; rewrite <- (Nat2Z.id (n / 2)), En; done).
  erewrite st_bind_ok by exact E. rewrite Nat2Z.id. by apply sort_loop_ok.
Qed.

(** ** Binary search *)

Lemma sorted_lookup {A} (R : A → A → Prop) l i j x y :
  StronglySorted R l → l !! i = Some x → l !! j = Some y → (i < j)%nat → R x y.
Proof.
  intros Hs. revert i j. induction Hs as [|z l _ IH Hz]; intros i j Hi Hj Hij; [done|].
  destruct j as [|j]; [lia|]. destruct i as [|i]; cbn in *.
  - injection Hi as ->. by eapply (Forall_lookup_1 _ _ _ _ Hz).
  - eapply IH; [done..|lia].
Qed.

Lemma search_loop_ok `{!Comparison cmp} mm key kp es fuel lo hi :
  fits es → StronglySorted (le cmp) es → holds mm kp key → length key = sz →
  (∀ k e, es !! k = Some e → holds mm (slot k) e) → (lo ≤ hi ≤ n)%nat → (hi - lo < fuel)%nat →
  (∀ k e, es !! k = Some e → (k < lo)%nat → 0 < cmp key e) →
  (∀ k e, es !! k = Some e → (hi ≤ k)%nat → cmp key e < 0) →
  (∃ k e, search_loop fuel kp (slot lo) (slot hi) (Z.of_nat sz) compare mm = Ok (slot k, mm) ∧
     es !! k = Some e ∧ cmp key e = 0) ∨
  search_loop fuel kp (slot lo) (slot hi) (Z.of_nat sz) compare mm = Ok (NULL, mm) ∧
    Forall (λ e, cmp key e ≠ 0) es.
Proof.
  intros Hf Hs Hk Lk Hes. pose proof Hf as [Hu Hl]. revert lo hi.
  induction fuel as [|fuel IH]; intros lo hi Hr Hfu Hlo Hhi; [lia|]. cbn [search_loop].
  assert (Hlt : slot lo < slot hi ↔ (lo < hi)%nat) by (unfold slot; nia).
  destruct (decide (lo < hi)%nat) as [H|H].
  2:{ right. rewrite decide_False by tauto. split; [done|]. apply Forall_lookup. intros k e E.
      destruct (decide (k < lo)%nat); [pose proof (Hlo k e E)|pose proof (Hhi k e E)]; lia. }
  rewrite decide_True by tauto. set (mid := (lo + (hi - lo) / 2)%nat).
  assert (Hhalf : ((hi - lo) / 2 < hi - lo)%nat) by (apply Nat.div_lt; lia).
  assert (Emid : u32 (slot lo + (slot hi - slot lo) / Z.of_nat sz / 2 * Z.of_nat sz) = slot mid).
  { replace (slot hi - slot lo) with (Z.of_nat (hi - lo) * Z.of_nat sz) by (unfold slot; nia).
    rewrite Z.div_mul by lia. pose proof (Nat2Z.inj_div (hi - lo) 2) as E2. cbn [Z.of_nat] in E2. 
    change (Z.of_nat 2) with 2 in E2. rewrite <- E2.
    pose proof (slot_u32 mid 0 ltac:(unfold mid; lia) Hsz) as E. rewrite Z.add_0_r in E. etrans; [|exact E].
    f_equal. unfold slot, mid. nia. }
  rewrite Emid. destruct (lookup_lt_is_Some_2 es mid) as [e Ee]; [unfold mid; lia|].
  erewrite st_bind_ok by (apply compare_ok; [done|by apply Hes|done|by eapply uniform_lookup]).
  case_decide as C1; [|case_decide as C2].
  - apply IH; [unfold mid; lia..|done|]. intros k e' E' Hk'.
    destruct (decide (k = mid)) as [->|]; [congruence|].
    apply (lt_le_trans cmp key e e'); [done|]. by apply (sorted_lookup _ es mid k); [..|lia].
  - replace (u32 (slot mid + Z.of_nat sz)) with (slot (S mid)).
    2:{ rewrite u32_id; [unfold slot; lia|]. destruct Hm as [Hr' _]. unfold in_u32, slot, mid. nia. }
    apply IH; [unfold mid; lia..| |done]. intros k e' E' Hk'.
    destruct (decide (k = mid)) as [->|]; [congruence|].
    apply (le_lt_trans cmp e' e key); [|done]. by apply (sorted_lookup _ es k mid); [..|lia].
  - left. exists mid, e. split_and!; [done..|lia].
Qed.

Lemma binary_search_ok `{!Comparison cmp} mm key kp es :
  fits es → StronglySorted (le cmp) es → holds mm kp key → length key = sz → holds mm array (concat es) →
  (∃ k e, binary_search kp array (Z.of_nat n) (Z.of_nat sz) compare mm = Ok (slot k, mm) ∧
     es !! k = Some e ∧ cmp key e = 0) ∨
  binary_search kp array (Z.of_nat n) (Z.of_nat sz) compare mm = Ok (NULL, mm) ∧
    Forall (λ e, cmp key e ≠ 0) es.
Proof.
  intros Hf Hs Hk Lk Ha. pose proof Hf as [Hu Hl]. pose proof Hm as [Hr _]. unfold binary_search.
  replace (u32 (array + Z.of_nat sz * Z.of_nat n)) with (slot n).
  2:{ rewrite u32_id; [unfold slot; lia|unfold in_u32; lia]. }
  replace array with (slot 0) by (unfold slot; lia). rewrite Nat2Z.id. apply search_loop_ok; try done; [|lia..|].
  - intros k e E. pose proof (lookup_lt_Some _ _ _ E). pose proof (uniform_lookup _ _ _ _ Hu E) as He. split.
    + unfold slot. rewrite He. nia.
    + intros i Hi. unfold slot. rewrite <- Z.add_assoc, <- Nat2Z.inj_add. destruct Ha as [_ Ha].
      rewrite Ha by (rewrite (concat_length sz) by done; nia). apply concat_lookup; [done..|lia].
  - intros k e E Hk'. apply lookup_lt_Some in E. lia.
Qed.
End array.

(** ** Decimal conversion *)

(** The number that decimal digits stand for, after [v]. *)
Definition decimal (v : Z) (ds : list Z) : Z := fold_left (λ v c, 10 * v + (c - 48)) ds v.

Definition is_digit (c : Z) : Prop := 48 ≤ c ≤ 57.

#[export] Instance is_digit_dec c : Decision (is_digit c).
Proof. unfold is_digit. apply _. Defined.

Lemma decimal_ge v ds : 0 ≤ v → Forall is_digit ds → v ≤ decimal v ds.
Proof.
  intros Hv H. revert v Hv. induction H as [|c ds Hc _ IH]; intros v Hv; cbn; [lia|].
  unfold is_digit in Hc. etrans; [|apply IH; lia]. lia.
Qed.

(** The sum stays negative and so does not overflow, also for the smallest [int]. *)
Lemma parse_digits_ok m p ds rest v fuel :
  cstr m p (ds ++ rest) → Forall is_digit ds → (∀ c r, rest = c :: r → ¬ is_digit c) →
  0 ≤ v → decimal v ds ≤ 2^31 → (length ds < fuel)%nat →
  parse_digits fuel p (- v) m = Ok (- decimal v ds, m).
Proof.
  intros Hp Hd Hr. revert p v fuel Hp. induction Hd as [|c ds Hc Hd IH]; intros p v [|fuel] Hp Hv Hb Hf;
    try (cbn in Hf; lia); cbn [parse_digits app] in *.
  - destruct rest as [|b rest]; [by erewrite st_bind_ok by (by apply cstr_nil)|].
    apply cstr_cons in Hp as (E & _ & Hb' & _). erewrite st_bind_ok by done.
    replace (isdigit (char b)) with false; [done|]. symmetry. apply bool_decide_eq_false.
    specialize (Hr b rest eq_refl). unfold is_digit, char in *. case_decide; lia.
  - apply cstr_cons in Hp as (E & _ & _ & Eu & Hp). erewrite st_bind_ok by done. unfold is_digit in Hc.
    assert (Ec : char c = c) by (unfold char; rewrite decide_True by lia; done). rewrite Ec.
    replace (isdigit c) with true by (symmetry; apply bool_decide_eq_true; lia).
    cbn [decimal fold_left] in Hb. pose proof (decimal_ge (10 * v + (c - 48)) ds ltac:(lia) Hd) as Hge.
    unfold decimal in Hge. rewrite (s32_id (- v * 10)), s32_id by (unfold in_s32; lia).
    replace (- v * 10 - (c - 48)) with (- (10 * v + (c - 48))) by lia. rewrite Eu. cbn [length] in Hf.
    apply IH; [done|lia|done|lia].
Qed.

Lemma skip_space_ok m p sp rest fuel :
  cstr m p (sp ++ rest) → Forall (λ c, isspace c = true) sp → (∀ c r, rest = c :: r → isspace c = false) →
  (length sp < fuel)%nat → skip_space fuel p m = Ok (p + Z.of_nat (length sp), m).
Proof.
  intros Hp Hs Hr. revert p fuel Hp. induction Hs as [|c sp Hc Hs IH]; intros p [|fuel] Hp Hf;
    try (cbn in Hf; lia); cbn [skip_space app length] in *.
  - rewrite Z.add_0_r. destruct rest as [|b rest]; [by erewrite st_bind_ok by (by apply cstr_nil)|].
    apply cstr_cons in Hp as (E & _). erewrite st_bind_ok by done. by rewrite (Hr b rest).
  - apply cstr_cons in Hp as (E & _ & _ & Eu & Hp). erewrite st_bind_ok by done. rewrite Hc, Eu, IH by (done || lia).
    do 2 f_equal. lia.
Qed.

(** The sign a number is written with. *)
Inductive sign := SNone | SPlus | SMinus.
Definition sign_bytes (g : sign) : list Z := match g with SNone => [] | SPlus => [43] | SMinus => [45] end.
Definition signed (g : sign) (v : Z) : Z := match g with SMinus => - v | _ => v end.

Lemma atoi_ok m p sp g ds rest :
  cstr m p (sp ++ sign_bytes g ++ ds ++ rest) → Forall (λ c, isspace c = true) sp →
  Forall is_digit ds → ds ≠ [] → (∀ c r, rest = c :: r → ¬ is_digit c) →
  in_s32 (signed g (decimal 0 ds)) → atoi p m = Ok (signed g (decimal 0 ds), m).
Proof.
  intros Hp Hsp Hds Hne Hr Hin. pose proof (cstr_range _ _ _ Hp) as Hrg. pose proof (cstr_steps _ _ _ Hp) as Hst.
  rewrite !length_app in Hst. unfold atoi.
  erewrite st_bind_ok by (apply assert_ok, bool_decide_eq_true; unfold NULL; lia).
  change (st_get ≫= ?k) with (λ m', k m' m'). cbn beta.
  destruct ds as [|d ds]; [done|]. apply Forall_cons in Hds as Hd; destruct Hd as [Hd _]. unfold is_digit in Hd.
  erewrite st_bind_ok.
  2:{ apply (skip_space_ok m p sp (sign_bytes g ++ (d :: ds) ++ rest)); [done..| |lia].
      intros c r E. apply bool_decide_eq_false. destruct g; cbn in E; injection E as <- _; lia. }
  apply cstr_suffix in Hp. set (q := p + Z.of_nat (length sp)) in *.
  assert (Hge : 0 ≤ decimal 0 (d :: ds)) by (by apply decimal_ge).
  assert (Hle : decimal 0 (d :: ds) ≤ 2^31) by (unfold in_s32 in Hin; destruct g; cbn [signed] in Hin; lia).
  destruct g; cbn [sign_bytes app signed length] in *; pose proof Hp as Hp';
    apply cstr_cons in Hp as (E & _ & _ & Eu & Hp); erewrite st_bind_ok by done.
  - assert (Ec : char d = d) by (unfold char; rewrite decide_True by lia; done). rewrite Ec, !decide_False by lia.
    erewrite st_bind_ok by (apply (parse_digits_ok m q (d :: ds) rest 0); [done..|lia|cbn; lia]).
    unfold mret, ST_ret. by rewrite Z.opp_involutive, s32_id.
  - change (char 43) with 43. rewrite decide_True by done. rewrite Eu.
    erewrite st_bind_ok by (apply (parse_digits_ok m (q + 1) (d :: ds) rest 0); [done..|lia|cbn; lia]).
    unfold mret, ST_ret. by rewrite Z.opp_involutive, s32_id.
  - change (char 45) with 45. rewrite decide_False, decide_True by done. rewrite Eu.
    erewrite st_bind_ok by (apply (parse_digits_ok m (q + 1) (d :: ds) rest 0); [done..|lia|cbn; lia]). done.
Qed.
