(* ===== verification/LibTheorems.v ===== *)
(** * Theorems about lib/: strings, conversion, sorting, division, random numbers

    The properties of string.c, stdlib.c, arithmetic.c and random.c, each with
    an instance on concrete data. *)

From S2P Require Import Prelude Bitmap Memory CString CStdlib Arith Random.

Local Open Scope Z_scope.

(** A memory with the given blocks. *)
Definition memory (blocks : list (Z * list Z)) : mem :=
  foldr (λ b m, write b.1 b.2 m) ∅ blocks.

(** ** Blocks and strings *)

(** Memmove returns and leaves the bytes of the source in the destination,
    also when the two overlap, and no other byte changes.  Its result is not
    always DST as its comment says: after a forward copy it points behind the
    copied bytes. *)
Theorem memmove_moves m dst src bs :
  holds m src bs → mapped m dst (length bs) →
  ∃ m', memmove dst src (Z.of_nat (length bs)) m =
      Ok (if decide (dst < src) then dst + Z.of_nat (length bs) else dst, m') ∧
    holds m' dst bs ∧
    ∀ a, a < dst ∨ dst + Z.of_nat (length bs) ≤ a → m' !! a = m !! a.
Proof.
  intros Hs Hd. exists (write dst bs m). split; [by apply memmove_ok|]. destruct Hd as [[] _]. split.
  - by apply holds_write.
  - intros a Ha. rewrite lookup_write. by rewrite decide_False by lia.
Qed.

Definition demo_block : mem := memory [(100, [1; 2; 3; 4; 5; 6; 7; 8])].

Lemma memmove_moves_witness :
  ∃ m', memmove 100 102 5 demo_block = Ok (105, m') ∧ holds m' 100 [3; 4; 5; 6; 7].
Proof.
  destruct (memmove_moves demo_block 100 102 [3; 4; 5; 6; 7]) as (m' & E & H & _); [compute_hyp..|].
  exists m'. split; [exact E|exact H].
Defined.

(** C18: Calling strtok_r until it returns a null pointer, first with the string
    and then with a null pointer, ends and returns one pointer per token, in
    order: in the final memory they are the strings of the maximal parts of the
    string without delimiters.  Only the string and the saved pointer are
    modified. *)
Theorem strtok_r_tokens m s d sv t ds :
  cstr m s t → cstr m d ds → mapped m sv 4 →
  disjoint_blocks sv 4 s (S (length t)) → disjoint_blocks sv 4 d (S (length ds)) →
  disjoint_blocks d (S (length ds)) s (S (length t)) →
  ∃ ps m', strtok_all (S (length t)) s d sv m = Ok (ps, m') ∧
    Forall2 (cstr m') ps (words ds t) ∧
    ∀ a, ¬ (s ≤ a < s + Z.of_nat (length t)) → ¬ (sv ≤ a < sv + 4) → m' !! a = m !! a.
Proof. intros Hs Hd Hsv D1 D2 D3. apply strtok_all_ok; [|lia]. split; auto. Qed.

(** The string " ls -l" and the delimiter " ". *)
Definition demo_args : mem := memory [(100, [32; 108; 115; 32; 45; 108; 0]); (200, [32; 0]); (300, [0; 0; 0; 0])].

Lemma strtok_r_tokens_witness :
  ∃ ps m', strtok_all 7 100 200 300 demo_args = Ok (ps, m') ∧
    Forall2 (cstr m') ps [[108; 115]; [45; 108]].
Proof.
  destruct (strtok_r_tokens demo_args 100 200 300 [32; 108; 115; 32; 45; 108] [32]) as (ps & m' & E & H & _);
    [compute_hyp..|]. exists ps, m'. split; [exact E|exact H].
Defined.

(** Strlcpy and strlcat always leave a terminated string in a destination
    of [size > 0] bytes: as much of the source, or of the source behind the
    string already there, as fits.  They write nowhere else and return the
    length the result would have without the limit. *)
Theorem strlcpy_strlcat_truncate m dst src old s size :
  cstr m src s → cstr m dst old → Z.of_nat (length old) < size < 2^32 → mapped m dst (Z.to_nat size) →
  disjoint_blocks dst (Z.to_nat size) src (S (length s)) →
  let cpy := take (Z.to_nat (size - 1)) s in
  let cat := take (Z.to_nat (size - 1)) (old ++ s) in
  (∃ m', strlcpy dst src size m = Ok (Z.of_nat (length s), m') ∧ cstr m' dst cpy ∧
     ∀ a, a < dst ∨ dst + size ≤ a → m' !! a = m !! a) ∧
  (∃ m', strlcat dst src size m = Ok (Z.of_nat (length (old ++ s)), m') ∧ cstr m' dst cat ∧
     ∀ a, a < dst ∨ dst + size ≤ a → m' !! a = m !! a).
Proof.
  intros Hs Ho Hsz Hm Hd. cbv zeta. pose proof Hm as [Hr _]. split; eexists; split.
  - apply strlcpy_ok; [done|lia|done..].
  - split; [split|].
    + apply holds_write; [lia|]. rewrite length_app, length_take. cbn [length]. lia.
    + apply Forall_take, Hs.
    + intros a Ha. rewrite lookup_write, length_app, length_take. cbn [length]. by rewrite decide_False by lia.
  - rewrite (strlcat_ok _ _ _ old s) by done. rewrite length_app, Nat.add_comm, Nat2Z.inj_add. reflexivity.
  - rewrite take_app, (take_ge old) by lia. destruct Ho as [Ho Hob]. split; [split|].
    + rewrite <- app_assoc. apply holds_prefix in Ho as [Hr' Ho'].
      apply (holds_agree (write dst (old ++ take (Z.to_nat (size - 1) - length old) s ++ [0]) m)).
      * apply holds_write; [lia|]. rewrite !length_app, length_take. cbn [length]. lia.
      * intros a Ha. rewrite (write_app dst old), (lookup_write dst old). case_decide; [|done].
        rewrite lookup_write, decide_False by lia.
        replace a with (dst + Z.of_nat (Z.to_nat (a - dst))) at 1 by lia. apply Ho'. lia.
    + apply Forall_app. split; [done|]. apply Forall_take, Hs.
    + intros a Ha. rewrite lookup_write, length_app, length_take. cbn [length]. by rewrite decide_False by lia.
Qed.

Lemma strlcpy_strlcat_truncate_witness :
  let m := memory [(100, [97; 98; 0; 9; 9; 9]); (200, [49; 50; 51; 0])] in
  ∃ m', strlcat 100 200 5 m = Ok (5, m') ∧ cstr m' 100 [97; 98; 49; 50].
Proof.
  intros m. destruct (strlcpy_strlcat_truncate m 100 200 [97; 98] [49; 50; 51] 5) as [_ (m' & E & H & _)];
    [compute_hyp..|]. exists m'. split; [exact E|exact H].
Defined.

(** Atoi returns the value of a number written in decimal, for every value
    of type [int], the smallest one included: white space, an optional sign and
    at least one digit, up to the first character that is not a digit. *)
Theorem atoi_parses m p sp g ds rest :
  cstr m p (sp ++ sign_bytes g ++ ds ++ rest) → Forall (λ c, isspace c = true) sp →
  Forall is_digit ds → ds ≠ [] → (∀ c r, rest = c :: r → ¬ is_digit c) →
  in_s32 (signed g (decimal 0 ds)) → atoi p m = Ok (signed g (decimal 0 ds), m).
Proof. apply atoi_ok. Qed.

(** " -2147483648;" *)
Lemma atoi_parses_witness :
  let m := memory [(100, [32; 45; 50; 49; 52; 55; 52; 56; 51; 54; 52; 56; 59; 0])] in
  atoi 100 m = Ok (-2147483648, m).
Proof.
  intros m. apply (atoi_parses m 100 [32] SMinus [50; 49; 52; 55; 52; 56; 51; 54; 52; 56] [59]);
    [compute_hyp..| |unfold in_s32; by vm_compute]. intros c r [= <- _]. unfold is_digit. lia.
Defined.

(** ** Sorting and searching *)

Lemma write_held m p bs : holds m p bs → write p bs m = m.
Proof.
  intros [Hr H]. apply map_eq. intros a. rewrite lookup_write. case_decide as Ha; [|done].
  rewrite <- H by lia. f_equal. lia.
Qed.

(** C17: qsort (heap sort) returns and leaves a sorted permutation of the array's
    elements and the rest of memory as it was, for every comparison function
    that returns strcmp-type results of an order.  On the sorted array bsearch
    returns the address of an element equal to the key, and a null pointer if
    and only if there is none. *)
Theorem qsort_bsearch m array sz es compare cmp :
  (0 < sz)%nat → uniform sz es → Z.of_nat (2 * length es + 1) < 2^32 → holds m array (concat es) →
  Comparison cmp →
  (∀ m p q x y, holds m p x → holds m q y → length x = sz → length y = sz → compare p q m = Ok (cmp x y, m)) →
  let n := Z.of_nat (length es) in
  ∃ es' m', qsort array n (Z.of_nat sz) compare m = Ok ((), m') ∧
    es' ≡ₚ es ∧ StronglySorted (le cmp) es' ∧ holds m' array (concat es') ∧
    (∀ a, a < array ∨ array + n * Z.of_nat sz ≤ a → m' !! a = m !! a) ∧
    ∀ kp key, holds m' kp key → length key = sz →
      (∃ k e, bsearch kp array n (Z.of_nat sz) compare m' = Ok (array + Z.of_nat (k * sz), m') ∧
         es' !! k = Some e ∧ cmp key e = 0) ∨
      bsearch kp array n (Z.of_nat sz) compare m' = Ok (NULL, m') ∧ Forall (λ e, cmp key e ≠ 0) es.
Proof.
  intros Hsz Hu Hn Ha Hcmp Hc. cbv zeta. pose proof (concat_length sz es Hu) as Hlen.
  assert (Hm : mapped m array (length es * sz)) by (rewrite <- Hlen; by apply holds_mapped).
  assert (Hf : fits (length es) sz es) by done.
  destruct (heap_sort_ok cmp es) as [Hs HP]. set (es' := heap_sort cmp es) in *.
  assert (Hf' : fits (length es) sz es') by (split; [by eapply uniform_perm|by rewrite HP]).
  assert (Hlen' : length (concat es') = (length es * sz)%nat) by (rewrite (concat_length sz) by apply Hf'; by rewrite HP).
  pose proof Hm as [Hr _].
  assert (Ha' : holds (write array (concat es') m) array (concat es')) by (apply holds_write; lia).
  exists es', (write array (concat es') m). split_and!; try done.
  - rewrite <- (write_held _ _ _ Ha) at 1. by apply (sort_ok m array (length es) sz Hm Hsz compare cmp Hc).
  - intros x Hx. rewrite lookup_write. by rewrite decide_False by lia.
  - intros kp key Hk Lk. unfold bsearch, compare_thunk.
    destruct (binary_search_ok m array (length es) sz Hm Hsz compare cmp Hc Hn (write array (concat es') m) key kp es')
      as [H|[E H]]; [done..|by left|right]. split; [done|]. by rewrite <- HP.
Qed.

(** Elements of two bytes, compared by the first one as [*a - *b]. *)
Definition demo_compare (p q : Z) : MM Z := x ← load p; y ← load q; mret (x - y).
Definition demo_cmp (x y : list Z) : Z := hd 0 x - hd 0 y.
Definition demo_array : mem := memory [(100, [9; 1; 4; 2; 7; 3]); (200, [7; 0])].

Lemma qsort_bsearch_witness :
  ∃ es' m', qsort 100 3 2 demo_compare demo_array = Ok ((), m') ∧ StronglySorted (le demo_cmp) es' ∧
    es' ≡ₚ [[9; 1]; [4; 2]; [7; 3]].
Proof.
  destruct (qsort_bsearch demo_array 100 2 [[9; 1]; [4; 2]; [7; 3]] demo_compare demo_cmp)
    as (es' & m' & E & HP & Hs & _); [lia|compute_hyp|done|compute_hyp| | |].
  - split; unfold demo_cmp; intros; lia.
  - intros m p q x y Hp Hq Lx Ly. destruct x as [|u x]; [done|]. destruct y as [|v y]; [done|].
    unfold demo_compare. erewrite st_bind_ok by (by eapply load_holds). by erewrite st_bind_ok by (by eapply load_holds).
  - exists es', m'. split; [exact E|split; [exact Hs|exact HP]].
Defined.

(** ** Division *)

(** The 64-bit division routines never trap on a nonzero divisor.  The
    quotients are those of C, truncated towards zero, for all operands (the one
    quotient that does not fit wraps around).  The remainders are those of C
    reduced to 32 bits, since umod64 and smod64 return 32-bit integers. *)
Theorem division_correct n d :
  (in_u64 n → 0 < d < 2^64 →
    __udivdi3 n d = Ok (n / d) ∧ __umoddi3 n d = Ok (u32 (n `mod` d))) ∧
  (in_s64 n → in_s64 d → d ≠ 0 →
    __divdi3 n d = Ok (s64 (n ÷ d)) ∧ __moddi3 n d = Ok (s32 (Z.rem n d))).
Proof.
  split; intros; (split; [by apply udiv64_ok || by apply sdiv64_ok|by apply umod64_ok || by apply smod64_ok]).
Qed.

Lemma division_correct_witness :
  __udivdi3 18446744073709551615 4294967297 = Ok 4294967295 ∧ __divdi3 (-7) 2 = Ok (-3) ∧ __moddi3 (-7) 2 = Ok (-1).
Proof.
  destruct (division_correct 18446744073709551615 4294967297) as [[H1 _] _]; [unfold in_u64; lia|lia|].
  destruct (division_correct (-7) 2) as [_ [H2 H3]]; [unfold in_s64; lia|unfold in_s64; lia|lia|].
  split; [exact H1|split; [exact H2|exact H3]].
Defined.

(** 2^33 % 2^34 is computed as 0. *)
Theorem umoddi3_truncates : __umoddi3 (2^33) (2^34) = Ok 0 ∧ 2^33 `mod` 2^34 = 2^33.
Proof. split; vm_compute; reflexivity. Qed.

(** ** Random numbers *)

(** Random_bytes returns the number of bytes asked for, from any state of
    the generator, initialised or not, and leaves a state in which the array is
    a permutation of the 256 byte values.  Once initialised, no two states lead
    to the same state: a call loses no information about the seed. *)
Theorem random_bytes_ok r n :
  rng_ok r →
  ∃ bs r', random_bytes (Z.of_nat n) r = Ok (bs, r') ∧ length bs = n ∧ Forall (λ b, 0 ≤ b < 256) bs ∧
    rng_ok r' ∧ inited r' = true ∧ s r' ≡ₚ identity ∧
    ∀ r2 bs2, rng_ok r2 → inited r = true → inited r2 = true →
      random_bytes (Z.of_nat n) r2 = Ok (bs2, r') → r2 = r.
Proof.
  intros Hr.
  assert (Hinit : ∃ r1, (if inited r then mret tt else random_init 0) r = Ok ((), r1) ∧ rng_ok r1 ∧
    inited r1 = true ∧ (inited r = true → r1 = r)).
  { destruct (inited r) eqn:E; [by exists r|]. destruct (random_init_ok r 0 Hr) as (r1 & ? & ? & ?). by exists r1. }
  destruct Hinit as (r1 & E1 & Hr1 & Hi1 & Hsame).
  destruct (bytes_loop_ok n r1 Hr1 Hi1) as (bs & E2 & Hl & Hb & Hok).
  assert (Hi : inited (Nat.iter n next_state r1) = true) by (clear - Hi1; induction n; done).
  exists bs, (Nat.iter n next_state r1). unfold random_bytes. change (st_get ≫= ?k) with (λ r, k r r). cbn beta.
  split_and!; try done.
  - erewrite st_bind_ok by exact E1. by rewrite Nat2Z.id.
  - by apply (ro_perm _ Hok).
  - intros r2 bs2 Hr2 Hir Hir2 E. rewrite (Hsame Hir) in *. rewrite Hir2, Nat2Z.id in E.
    change ((mret tt ≫= λ _, bytes_loop n) r2) with (bytes_loop n r2) in E.
    destruct (bytes_loop_ok n r2 Hr2 Hir2) as (bs' & E' & _). rewrite E' in E. injection E as _ E.
    by apply (iter_next_inj n).
Qed.

(** The generator before the first call. *)
Lemma random_bytes_ok_witness :
  ∃ bs r', random_bytes 3 (Rng (replicate 256 0) 0 0 false) = Ok (bs, r') ∧ length bs = 3%nat ∧ s r' ≡ₚ identity.
Proof.
  destruct (random_bytes_ok (Rng (replicate 256 0) 0 0 false) 3) as (bs & r' & E & Hl & _ & _ & _ & HP & _).
  - split; [apply length_replicate|discriminate].
  - exists bs, r'. split; [exact E|split; [exact Hl|exact HP]].
Defined.
