(* ===== verification/Hash.v ===== *)
(** * lib/kernel/hash.c: hash tables

    A table is its counters and its array of buckets; a bucket is the sequence
    of the elements on its list (ListSpec.v, KList.v), and an element is the
    address of its [struct hash_elem].  The hash and comparison functions are
    the table's; [malloc_ok] says whether a call of malloc succeeds.  The table
    is proved to be a set up to the equality of the comparison function:
    [elems] are its members. *)

From S2P Require Import Prelude ListSpec Bitmap Memory.

Local Open Scope Z_scope.

(** ** Hash functions for data in memory *)

Definition FNV_32_PRIME : Z := 16777619.
Definition FNV_32_BASIS : Z := 2166136261.

Fixpoint bytes_loop (size : nat) (buf hash : Z) : MM Z :=
  match size with
  | O => mret hash
  | S size => b ← load buf; bytes_loop size (u32 (buf + 1)) (Z.lxor (u32 (hash * FNV_32_PRIME)) b)
  end.

Definition hash_bytes (buf_ size : Z) : MM Z :=
  ASSERT (bool_decide (buf_ ≠ NULL));; bytes_loop (Z.to_nat size) buf_ FNV_32_BASIS.

Fixpoint string_loop (fuel : nat) (s hash : Z) : MM Z :=
  match fuel with
  | O => st_fail EFuel
  | S fuel =>
      b ← load s;
      if decide (b ≠ 0) then string_loop fuel (u32 (s + 1)) (Z.lxor (u32 (hash * FNV_32_PRIME)) b)
      else mret hash
  end.

Definition hash_string (s_ : Z) : MM Z :=
  ASSERT (bool_decide (s_ ≠ NULL));; m ← st_get; string_loop (steps m) s_ FNV_32_BASIS.

(** The argument is in memory at [i_addr] while its bytes are hashed. *)
Definition hash_int (i i_addr : Z) : MM Z := storew i_addr (u32 i);; hash_bytes i_addr 4.

(** ** Tables *)

Record table := Table { elem_cnt : Z; bucket_cnt : Z; buckets : list (list Z) }.

Abbreviation HM := (ST table).

Definition MIN_ELEMS_PER_BUCKET : Z := 1.
Definition BEST_ELEMS_PER_BUCKET : Z := 2.
Definition MAX_ELEMS_PER_BUCKET : Z := 4.

Definition turn_off_least_1bit (x : Z) : Z := Z.land x (u32 (x - 1)).
Definition is_power_of_2 (x : Z) : bool := bool_decide (x ≠ 0 ∧ turn_off_least_1bit x = 0).

(** [while (!is_power_of_2 (new_bucket_cnt))]; an iteration clears a bit. *)
Fixpoint power_loop (fuel : nat) (new_bucket_cnt : Z) : HM Z :=
  match fuel with
  | O => st_fail EFuel
  | S fuel =>
      if is_power_of_2 new_bucket_cnt then mret new_bucket_cnt
      else power_loop fuel (turn_off_least_1bit new_bucket_cnt)
  end.

Section hash.
Context (hash : Z → Z) (less : Z → Z → bool).

(** [&h->buckets[bucket_idx]], as an index. *)
Definition find_bucket (e : Z) : HM nat :=
  h ← st_get;
  let bucket_idx := Z.land (hash e) (bucket_cnt h - 1) in
  mret (Z.to_nat bucket_idx).

Definition get_bucket (b : nat) : HM (list Z) := h ← st_get; st_opt EFault (buckets h !! b).
Definition put_bucket (b : nat) (es : list Z) : HM () :=
  _ ← get_bucket b; st_modify (λ h, Table (elem_cnt h) (bucket_cnt h) (<[b := es]> (buckets h))).

(** Neither is less than the other. *)
Definition equal (x y : Z) : bool := negb (less x y) && negb (less y x).

Fixpoint find_loop (es : list Z) (e : Z) : option Z :=
  match es with
  | [] => None
  | hi :: es => if equal hi e then Some hi else find_loop es e
  end.

Definition find_elem (b : nat) (e : Z) : HM (option Z) := es ← get_bucket b; mret (find_loop es e).

Definition insert_elem (b : nat) (e : Z) : HM () :=
  st_modify (λ h, Table (u32 (elem_cnt h + 1)) (bucket_cnt h) (buckets h));;
  es ← get_bucket b; put_bucket b (e :: es).

(** list_remove takes the element out of the list it is on. *)
Definition remove_elem (e : Z) : HM () :=
  st_modify (λ h, Table (u32 (elem_cnt h - 1)) (bucket_cnt h) (filter (.≠ e) <$> buckets h)).

(** One element after the other of an old bucket to the front of its new one. *)
Fixpoint move_loop (es : list Z) : HM () :=
  match es with
  | [] => mret tt
  | elem :: es =>
      b ← find_bucket elem; old ← get_bucket b;
      put_bucket b (elem :: old);; move_loop es
  end.

Fixpoint move_buckets (old_buckets : list (list Z)) : HM () :=
  match old_buckets with
  | [] => mret tt
  | es :: old_buckets => move_loop es;; move_buckets old_buckets
  end.

Definition rehash (malloc_ok : bool) : HM () :=
  h ← st_get;
  let old_buckets := buckets h in
  let old_bucket_cnt := bucket_cnt h in
  let new_bucket_cnt := elem_cnt h / BEST_ELEMS_PER_BUCKET in
  let new_bucket_cnt := if decide (new_bucket_cnt < 4) then 4 else new_bucket_cnt in
  new_bucket_cnt ← power_loop 32 new_bucket_cnt;
  if decide (new_bucket_cnt = old_bucket_cnt) then mret tt
  else if (malloc_ok : bool) then
    st_modify (λ h, Table (elem_cnt h) new_bucket_cnt (replicate (Z.to_nat new_bucket_cnt) []));;
    move_buckets old_buckets
  else mret tt.

Definition hash_insert (malloc_ok : bool) (new : Z) : HM (option Z) :=
  bucket ← find_bucket new;
  old ← find_elem bucket new;
  (if decide (old = None) then insert_elem bucket new else mret tt);;
  rehash malloc_ok;;
  mret old.

Definition hash_replace (malloc_ok : bool) (new : Z) : HM (option Z) :=
  bucket ← find_bucket new;
  old ← find_elem bucket new;
  (if old is Some o then remove_elem o else mret tt);;
  insert_elem bucket new;;
  rehash malloc_ok;;
  mret old.

Definition hash_find (e : Z) : HM (option Z) := b ← find_bucket e; find_elem b e.

Definition hash_delete (malloc_ok : bool) (e : Z) : HM (option Z) :=
  b ← find_bucket e;
  found ← find_elem b e;
  (if found is Some x then remove_elem x;; rehash malloc_ok else mret tt);;
  mret found.

Definition hash_size : HM Z := st_gets elem_cnt.
Definition hash_empty : HM bool := h ← st_get; mret (bool_decide (elem_cnt h = 0)).
End hash.

(** ** Life cycle; a destructor or an action is code on the client's state *)

Section clients.
Context {C : Type}.

Fixpoint pop_loop (destructor : Z → ST C ()) (es : list Z) : ST C () :=
  match es with [] => mret tt | e :: es => destructor e;; pop_loop destructor es end.

Fixpoint clear_loop (destructor : option (Z → ST C ())) (bs : list (list Z)) : ST C (list (list Z)) :=
  match bs with
  | [] => mret []
  | b :: bs =>
      (if destructor is Some d then pop_loop d b else mret tt);;
      bs' ← clear_loop destructor bs; mret ([] :: bs')
  end.

Definition hash_clear (destructor : option (Z → ST C ())) (h : table) : ST C table :=
  bs ← clear_loop destructor (buckets h); mret (Table 0 (bucket_cnt h) bs).

(** Frees the buckets: no table is left. *)
Definition hash_destroy (destructor : option (Z → ST C ())) (h : table) : ST C () :=
  if destructor is Some d then _ ← hash_clear (Some d) h; mret tt else mret tt.

Definition hash_init (malloc_ok : bool) : ST C (option table) :=
  if malloc_ok then h ← hash_clear None (Table 0 4 (replicate 4 [])); mret (Some h) else mret None.

Fixpoint apply_loop (action : Z → ST C ()) (es : list Z) : ST C () :=
  match es with [] => mret tt | e :: es => action e;; apply_loop action es end.

Fixpoint apply_buckets (action : Z → ST C ()) (bs : list (list Z)) : ST C () :=
  match bs with [] => mret tt | b :: bs => apply_loop action b;; apply_buckets action bs end.

Definition hash_apply (action : Z → ST C ()) (h : table) : ST C () := apply_buckets action (buckets h).
End clients.

(** ** Iteration *)

(** [i->elem]: the head of the current bucket, an element, or NULL. *)
Inductive position := PHead | PElem (e : Z) | PNull.
Record hash_iterator := Iterator { it_bucket : nat; it_elem : position }.

Definition hash_first : hash_iterator := Iterator 0 PHead.

(** list_next in a bucket; [None] is list_end. *)
Definition next_in (es : list Z) (p : position) : res (option Z) :=
  match p with
  | PHead => Ok (head es)
  | PElem e =>
      match list_find (.= e) es with Some (k, _) => Ok (es !! S k) | None => Err EFault end
  | PNull => Err EFault
  end.

(** The [while] of hash_next, entered with the element at [o]. *)
Fixpoint next_loop (fuel : nat) (h : table) (b : nat) (o : option Z) : res hash_iterator :=
  match fuel with
  | O => Err EFuel
  | S fuel =>
      match o with
      | Some e => Ok (Iterator b (PElem e))
      | None =>
          if decide (bucket_cnt h ≤ Z.of_nat (S b)) then Ok (Iterator (S b) PNull) else
          match buckets h !! S b with
          | Some es => next_loop fuel h (S b) (head es)
          | None => Err EFault
          end
      end
  end.

Definition hash_next (h : table) (i : hash_iterator) : res hash_iterator :=
  match buckets h !! it_bucket i with
  | Some es =>
      o ← next_in es (it_elem i); next_loop (S (length (buckets h))) h (it_bucket i) o
  | None => Err EFault
  end.

Definition hash_cur (i : hash_iterator) : option Z := if it_elem i is PElem e then Some e else None.

(** ** The number of buckets *)

(** The lowest [j] bits of [x] are clear. *)
Definition low_clear (j x : Z) : Prop := ∀ i, 0 ≤ i < j → Z.testbit x i = false.

Lemma turn_off_low j x :
  0 < x < 2^32 → 0 ≤ j → low_clear j x → low_clear (j + 1) (turn_off_least_1bit x).
Proof.
  intros Hx Hj Hl i Hi. unfold turn_off_least_1bit. rewrite u32_id by (unfold in_u32; lia).
  rewrite Z.land_spec. destruct (decide (i < j)) as [Hij|Hij]; [by rewrite Hl by lia|].
  assert (i = j) as -> by lia. clear Hi Hij.
  assert (Hm : x `mod` 2^j = 0).
  { apply Z.bits_inj'. intros k Hk. rewrite Z.testbit_0_l. destruct (decide (k < j)).
    - rewrite Z.mod_pow2_bits_low by lia. apply Hl. lia.
    - apply Z.mod_pow2_bits_high. lia. }
  assert (Hp : 0 < 2^j) by (apply Z.pow_pos_nonneg; lia).
  rewrite !Z.testbit_odd, !Z.shiftr_div_pow2 by lia.
  pose proof (Z.div_mod x (2^j) ltac:(lia)) as E. rewrite Hm, Z.add_0_r in E.
  assert (E1 : (x - 1) / 2^j = x / 2^j - 1).
  { rewrite E at 1. replace (2^j * (x / 2^j) - 1) with ((x / 2^j - 1) * 2^j + (2^j - 1)) by ring.
    rewrite Z.div_add_l by lia. rewrite (Z.div_small (2^j - 1)) by lia. lia. }
  rewrite E1, Z.odd_sub. cbn. by destruct (Z.odd (x / 2^j)).
Qed.

Lemma testbit_top x k : 0 ≤ k → 2^k ≤ x < 2^(k + 1) → Z.testbit x k = true.
Proof.
  intros Hk Hx. rewrite Z.testbit_odd, Z.shiftr_div_pow2 by lia. rewrite Z.pow_add_r in Hx by lia.
  replace (x / 2^k) with 1; [done|]. apply Z.div_unique with (x - 2^k); lia.
Qed.

(** Clearing the lowest bit keeps the highest one if there are two. *)
Lemma turn_off_top x k :
  0 ≤ k < 32 → 2^k < x < 2^(k + 1) → 2^k ≤ turn_off_least_1bit x < 2^(k + 1).
Proof.
  intros Hk Hx. assert (Hp : 0 < 2^k) by (apply Z.pow_pos_nonneg; lia).
  assert (Hb : 2^(k + 1) ≤ 2^32) by (apply Z.pow_le_mono_r; lia).
  unfold turn_off_least_1bit. rewrite u32_id by (unfold in_u32; lia).
  assert (Hn : 0 ≤ Z.land x (x - 1)) by (apply Z.land_nonneg; lia). split.
  - destruct (decide (2^k ≤ Z.land x (x - 1))) as [|Hlt]; [done|]. exfalso.
    assert (Hf : Z.testbit (Z.land x (x - 1)) k = false).
    { rewrite Z.testbit_odd, Z.shiftr_div_pow2, Z.div_small by lia. done. }
    rewrite Z.land_spec, !testbit_top in Hf by lia. done.
  - destruct (decide (Z.land x (x - 1) = 0)) as [->|Hne]; [lia|]. apply Z.log2_lt_pow2; [lia|].
    pose proof (Z.log2_land x (x - 1) ltac:(lia) ltac:(lia)).
    assert (Z.log2 x < k + 1) by (apply Z.log2_lt_pow2; lia). lia.
Qed.

Lemma is_power_of_2_spec x k :
  0 ≤ k < 32 → 2^k ≤ x < 2^(k + 1) → is_power_of_2 x = bool_decide (x = 2^k).
Proof.
  intros Hk Hx. assert (Hp : 0 < 2^k) by (apply Z.pow_pos_nonneg; lia). unfold is_power_of_2.
  apply bool_decide_ext. split.
  - intros [_ H0]. destruct (decide (x = 2^k)) as [|Hne]; [done|].
    pose proof (turn_off_top x k Hk ltac:(lia)). lia.
  - intros ->. split; [lia|]. unfold turn_off_least_1bit.
    assert (2^k < 2^32) by (apply Z.pow_lt_mono_r; lia). rewrite u32_id by (unfold in_u32; lia).
    replace (2^k - 1) with (Z.ones k) by (by rewrite Z.ones_equiv, Z.sub_1_r).
    rewrite Z.land_ones by lia. apply Z.mod_same. lia.
Qed.

(** The loop ends at the largest power of 2 that is not above the start. *)
Lemma power_loop_ok fuel j x k h :
  0 ≤ k < 32 → 2^k ≤ x < 2^(k + 1) → 0 ≤ j → low_clear j x → k - j < Z.of_nat fuel →
  power_loop fuel x h = Ok (2^k, h).
Proof.
  intros Hk. revert j x. induction fuel as [|fuel IH]; intros j x Hx Hj Hl Hf; cbn [power_loop];
    assert (Hp : 0 < 2^k) by (apply Z.pow_pos_nonneg; lia).
  - exfalso. assert (Hb : Z.testbit x k = false) by (apply Hl; lia). rewrite testbit_top in Hb by lia. done.
  - rewrite (is_power_of_2_spec x k) by done. case_bool_decide as E; [by subst|].
    apply (IH (j + 1)); [apply turn_off_top; lia|lia| |lia].
    assert (2^(k + 1) ≤ 2^32) by (apply Z.pow_le_mono_r; lia). apply turn_off_low; [lia..|done].
Qed.

(** The bucket count rehash settles on. *)
Definition best_log (n : Z) : Z := Z.log2 (Z.max 4 (n / 2)).

Lemma best_log_range n : 0 ≤ n < 2^32 → 2 ≤ best_log n < 32.
Proof.
  intros Hn. unfold best_log. split.
  - change 2 with (Z.log2 4) at 1. apply Z.log2_le_mono. lia.
  - apply Z.log2_lt_pow2; dlia.
Qed.

Lemma power_best n h :
  0 ≤ n < 2^32 →
  power_loop 32 (if decide (n / BEST_ELEMS_PER_BUCKET < 4) then 4 else n / BEST_ELEMS_PER_BUCKET) h =
    Ok (2^(best_log n), h).
Proof.
  intros Hn. pose proof (best_log_range n Hn).
  replace (if decide _ then _ else _) with (Z.max 4 (n / 2)) by (unfold BEST_ELEMS_PER_BUCKET; case_decide; lia).
  apply (power_loop_ok 32 0); [lia| |lia|intros i; lia|lia].
  unfold best_log. rewrite Z.add_1_r. apply Z.log2_spec. lia.
Qed.

(** ** The table as a set *)

Definition elems (h : table) : list Z := concat (buckets h).

Lemma concat_push (bs : list (list Z)) b es e :
  bs !! b = Some es → concat (<[b := e :: es]> bs) ≡ₚ e :: concat bs.
Proof.
  revert b. induction bs as [|x bs IH]; intros [|b] E; try done; cbn in *.
  - by injection E as ->.
  - rewrite (IH b E). by rewrite <- Permutation_middle.
Qed.

Lemma concat_filter (P : Z → Prop) `{∀ x, Decision (P x)} (bs : list (list Z)) :
  concat (filter P <$> bs) = filter P (concat bs).
Proof. induction bs as [|x bs IH]; [done|]. cbn. by rewrite IH, filter_app. Qed.

Lemma elem_of_buckets (bs : list (list Z)) e : e ∈ concat bs ↔ ∃ b es, bs !! b = Some es ∧ e ∈ es.
Proof.
  rewrite list_elem_of_In, in_concat. setoid_rewrite <- list_elem_of_In. split.
  - intros (es & [b Hb]%list_elem_of_lookup & He). eauto.
  - intros (b & es & Hb & He). exists es. split; [by eapply list_elem_of_lookup_2|done].
Qed.

Section facts.
Context (hash : Z → Z) (less : Z → Z → bool).
Local Abbreviation equal := (equal less).

Definition bucket_of (h : table) (e : Z) : nat := Z.to_nat (Z.land (hash e) (bucket_cnt h - 1)).

(** The buckets are a power of 2 many and every element is in the bucket of its
    hash value. *)
Record shape (h : table) : Prop := {
  sh_cnt : ∃ k, 2 ≤ k < 32 ∧ bucket_cnt h = 2^k;
  sh_len : Z.of_nat (length (buckets h)) = bucket_cnt h;
  sh_place : ∀ b es e, buckets h !! b = Some es → e ∈ es → b = bucket_of h e;
}.

(** ... and no two elements are equal. *)
Record hash_ok (h : table) : Prop := {
  ho_shape : shape h;
  ho_nodup : NoDup (elems h);
  ho_distinct : ∀ x y, x ∈ elems h → y ∈ elems h → equal x y = true → x = y;
  ho_size : elem_cnt h = Z.of_nat (length (elems h)) ∧ elem_cnt h < 2^32;
}.

Lemma bucket_get h e : shape h → ∃ es, get_bucket (bucket_of h e) h = Ok (es, h) ∧ buckets h !! bucket_of h e = Some es.
Proof.
  intros [(k & Hk & Ek) Hl _]. unfold bucket_of. rewrite Ek.
  assert (Hp : 0 < 2^k) by (apply Z.pow_pos_nonneg; lia).
  replace (2^k - 1) with (Z.ones k) by (by rewrite Z.ones_equiv, Z.sub_1_r).
  rewrite Z.land_ones by lia. pose proof (Z.mod_pos_bound (hash e) (2^k) Hp).
  destruct (lookup_lt_is_Some_2 (buckets h) (Z.to_nat (hash e `mod` 2^k))) as [es E]; [lia|].
  exists es. split; [|done]. unfold get_bucket. st_simpl. by rewrite E.
Qed.

Lemma find_bucket_ok h e : find_bucket hash e h = Ok (bucket_of h e, h).
Proof. done. Qed.

Lemma put_bucket_ok h b es es' :
  buckets h !! b = Some es → put_bucket b es' h = Ok ((), Table (elem_cnt h) (bucket_cnt h) (<[b := es']> (buckets h))).
Proof. intros E. unfold put_bucket, get_bucket. st_simpl. by rewrite E. Qed.

(** An element pushed on its bucket. *)
Definition pushed (h : table) (n e : Z) (es : list Z) : table :=
  Table n (bucket_cnt h) (<[bucket_of h e := e :: es]> (buckets h)).

Lemma pushed_shape h n e es : shape h → buckets h !! bucket_of h e = Some es → shape (pushed h n e es).
Proof.
  intros [Hc Hl Hp] E. split; [done|cbn; by rewrite length_insert|]. intros b es' e' Eb He'. cbn in Eb.
  change (bucket_of (pushed h n e es) e') with (bucket_of h e').
  destruct (decide (b = bucket_of h e)) as [->|Hne].
  - rewrite list_lookup_insert_eq in Eb by (by eapply lookup_lt_Some). injection Eb as <-.
    apply elem_of_cons in He' as [->|He']; [done|]. by eapply Hp.
  - rewrite list_lookup_insert_ne in Eb by done. by eapply Hp.
Qed.

Lemma pushed_elems h n e es : buckets h !! bucket_of h e = Some es → elems (pushed h n e es) ≡ₚ e :: elems h.
Proof. apply concat_push. Qed.

Lemma move_loop_ok h es :
  shape h → ∃ h', move_loop hash es h = Ok ((), h') ∧ shape h' ∧ elems h' ≡ₚ es ++ elems h ∧
    elem_cnt h' = elem_cnt h ∧ bucket_cnt h' = bucket_cnt h.
Proof.
  revert h. induction es as [|e es IH]; intros h Hs; cbn [move_loop]; [by exists h|].
  rewrite (st_bind_ok _ _ _ _ _ (find_bucket_ok h e)). destruct (bucket_get h e Hs) as (old & E & Eb).
  erewrite st_bind_ok by done. erewrite st_bind_ok by (by eapply put_bucket_ok).
  fold (pushed h (elem_cnt h) e old).
  destruct (IH (pushed h (elem_cnt h) e old)) as (h' & E' & Hs' & HP & Hn & Hc); [by apply pushed_shape|].
  exists h'. split_and!; try done. rewrite HP, pushed_elems by done. cbn. by rewrite <- Permutation_middle.
Qed.

Lemma move_buckets_ok h bs :
  shape h → ∃ h', move_buckets hash bs h = Ok ((), h') ∧ shape h' ∧ elems h' ≡ₚ concat bs ++ elems h ∧
    elem_cnt h' = elem_cnt h.
Proof.
  revert h. induction bs as [|es bs IH]; intros h Hs; cbn [move_buckets]; [by exists h|].
  destruct (move_loop_ok h es Hs) as (h1 & E1 & Hs1 & HP1 & Hn1 & _). erewrite st_bind_ok by done.
  destruct (IH h1 Hs1) as (h2 & E2 & Hs2 & HP2 & Hn2). exists h2. split_and!; [done|done| |congruence].
  rewrite HP2, HP1. cbn. rewrite app_assoc, (Permutation_app_comm (concat bs)). by rewrite <- app_assoc.
Qed.

Lemma concat_empty n : concat (replicate n ([] : list Z)) = [].
Proof. induction n; [done|]. cbn. done. Qed.

Lemma rehash_ok ok h :
  hash_ok h → ∃ h', rehash hash ok h = Ok ((), h') ∧ hash_ok h' ∧ elems h' ≡ₚ elems h.
Proof.
  intros Hh. pose proof Hh as [Hs Hnd Hd [Hn Hb]].
  unfold rehash. change (st_get ≫= ?k) with (λ h, k h h). cbn beta zeta.
  erewrite st_bind_ok by (apply power_best; lia). pose proof (best_log_range (elem_cnt h) ltac:(lia)) as Hk.
  case_decide; [by exists h|]. destruct ok; [|by exists h]. erewrite st_bind_ok by done.
  set (h0 := Table (elem_cnt h) (2^best_log (elem_cnt h)) (replicate (Z.to_nat (2^best_log (elem_cnt h))) [])).
  destruct (move_buckets_ok h0 (buckets h)) as (h' & E & Hs' & HP & Hn').
  { split; [by exists (best_log (elem_cnt h))| |].
    - cbn. rewrite length_replicate. apply Z2Nat.id. apply Z.pow_nonneg. lia.
    - intros b es e [-> _]%lookup_replicate He. by apply elem_of_nil in He. }
  unfold elems in HP at 2. cbn [h0 buckets] in HP. rewrite concat_empty, app_nil_r in HP. fold (elems h) in HP.
  exists h'. split; [done|]. split; [|done]. split; [done|by rewrite HP| |rewrite HP, Hn'; done].
  intros x y. rewrite HP. apply Hd.
Qed.

(** What a search for [e] returns: an element equal to it, if there is one. *)
Definition found (e : Z) (l : list Z) (o : option Z) : Prop :=
  match o with
  | Some x => x ∈ l ∧ equal x e = true
  | None => ∀ x, x ∈ l → equal x e = false
  end.

Definition drop_old (o : option Z) (l : list Z) : list Z := if o is Some x then filter (.≠ x) l else l.

Lemma find_loop_ok es e : found e es (find_loop less es e).
Proof.
  induction es as [|x es IH]; cbn [find_loop]; [by intros x ?%elem_of_nil|].
  destruct (equal x e) eqn:E; [split; [apply elem_of_cons; by left|done]|].
  destruct (find_loop less es e) as [y|]; cbn in *.
  - destruct IH. split; [apply elem_of_cons; by right|done].
  - intros y [->|Hy]%elem_of_cons; [done|by apply IH].
Qed.

Context (hash_equal : ∀ x y, equal x y = true → hash x = hash y).

(** The bucket of [e] has every element equal to [e]. *)
Lemma find_elem_ok h e :
  shape h → ∃ o, find_elem less (bucket_of h e) e h = Ok (o, h) ∧ found e (elems h) o.
Proof.
  intros Hs. destruct (bucket_get h e Hs) as (es & E & Eb). unfold find_elem. erewrite st_bind_ok by done.
  exists (find_loop less es e). split; [done|]. pose proof (find_loop_ok es e) as Hf.
  destruct (find_loop less es e) as [x|]; cbn in *.
  - destruct Hf. split; [|done]. apply elem_of_buckets. eauto.
  - intros x Hx. destruct (equal x e) eqn:Ex; [|done].
    apply elem_of_buckets in Hx as (b & es' & Eb' & Hx). pose proof (sh_place _ Hs _ _ _ Eb' Hx) as ->.
    assert (bucket_of h x = bucket_of h e) as Eq by (unfold bucket_of; by rewrite (hash_equal x e Ex)).
    rewrite Eq, Eb in Eb'. injection Eb' as <-. rewrite <- (Hf x Hx). done.
Qed.

Lemma insert_elem_ok h e :
  hash_ok h → elem_cnt h + 1 < 2^32 → found e (elems h) None → (∀ x, equal x x = true) →
  (∀ x y, equal x y = equal y x) →
  ∃ h', insert_elem (bucket_of h e) e h = Ok ((), h') ∧ hash_ok h' ∧ elems h' ≡ₚ e :: elems h.
Proof.
  intros [Hs Hnd Hd [Hn Hb]] Hb' Hf Hrefl Hsym. unfold insert_elem. erewrite st_bind_ok by done.
  set (h1 := Table (u32 (elem_cnt h + 1)) (bucket_cnt h) (buckets h)).
  assert (Hs1 : shape h1) by (destruct Hs; by split).
  destruct (bucket_get h1 e Hs1) as (es & E & Eb). erewrite st_bind_ok by exact E.
  exists (pushed h1 (elem_cnt h1) e es). split; [by rewrite (put_bucket_ok h1 _ es)|].
  assert (HP : elems (pushed h1 (elem_cnt h1) e es) ≡ₚ e :: elems h) by (by apply (pushed_elems h1)).
  assert (He : e ∉ elems h) by (intros He; specialize (Hf e He); by rewrite Hrefl in Hf).
  split; [|done]. split; [by apply pushed_shape|rewrite HP; by constructor| |].
  - intros x y. rewrite HP, !elem_of_cons. intros [->|Hx] [->|Hy] Exy; auto.
    + rewrite Hsym in Exy. specialize (Hf y Hy). congruence.
    + specialize (Hf x Hx). congruence.
  - rewrite HP. cbn [pushed elem_cnt h1 length]. rewrite u32_id by (unfold in_u32; lia). lia.
Qed.

Lemma remove_elem_ok h x :
  hash_ok h → x ∈ elems h →
  ∃ h', remove_elem x h = Ok ((), h') ∧ hash_ok h' ∧ elems h' = filter (.≠ x) (elems h) ∧
    bucket_cnt h' = bucket_cnt h ∧ elem_cnt h' + 1 = elem_cnt h.
Proof.
  intros [Hs Hnd Hd [Hn Hb]] Hx. eexists. split; [done|].
  assert (HE : elems (Table (u32 (elem_cnt h - 1)) (bucket_cnt h) (filter (.≠ x) <$> buckets h)) =
    filter (.≠ x) (elems h)) by apply concat_filter.
  pose proof (filter_ne_perm x (elems h) Hnd Hx) as HP. apply Permutation_length in HP. cbn [length] in HP.
  rewrite u32_id in HE |- * by (unfold in_u32; lia). cbn [elem_cnt bucket_cnt].
  split_and!; [|exact HE|done|lia].
  split; rewrite ?HE.
  - destruct Hs as [Hc Hl Hp]. split; [done|cbn; by rewrite length_fmap|]. intros b es e Eb He. cbn in Eb.
    rewrite list_lookup_fmap in Eb. destruct (buckets h !! b) as [es0|] eqn:E0; [|done]. injection Eb as <-.
    apply list_elem_of_filter in He as [_ He]. by eapply (Hp b es0).
  - by apply NoDup_filter.
  - intros y z [_ Hy]%list_elem_of_filter [_ Hz]%list_elem_of_filter. by apply Hd.
  - cbn [elem_cnt]. lia.
Qed.
End facts.

(** What hash.h asks of the functions of a table: an order, and equal elements
    with equal hash values. *)
Class HashFuncs (hash : Z → Z) (less : Z → Z → bool) : Prop := {
  hf_order :: StrictWeak less;
  hf_equal : ∀ x y, equal less x y = true → hash x = hash y;
}.

Section operations.
Context (hash : Z → Z) (less : Z → Z → bool) `{!HashFuncs hash less}.
Local Abbreviation equal := (equal less).
Local Abbreviation hash_ok := (hash_ok hash less).

Lemma equal_refl x : equal x x = true.
Proof.
  unfold Hash.equal. destruct (less x x) eqn:E; [|done]. pose proof (sw_asym x x E). congruence.
Qed.

Lemma equal_sym x y : equal x y = equal y x.
Proof. unfold Hash.equal. apply andb_comm. Qed.

Lemma equal_trans x y z : equal x y = true → equal y z = true → equal x z = true.
Proof.
  unfold Hash.equal. rewrite !andb_true_iff, !negb_true_iff. intros [H1 H2] [H3 H4].
  split; eapply sw_trans; eassumption.
Qed.

Lemma hash_find_ok h e : hash_ok h → ∃ o, hash_find hash less e h = Ok (o, h) ∧ found less e (elems h) o.
Proof. intros [Hs _ _ _]. by apply find_elem_ok; [apply hf_equal|]. Qed.

Lemma hash_insert_ok ok h e :
  hash_ok h → elem_cnt h + 1 < 2^32 →
  ∃ o h', hash_insert hash less ok e h = Ok (o, h') ∧ found less e (elems h) o ∧ hash_ok h' ∧
    elems h' ≡ₚ (if o is Some _ then elems h else e :: elems h).
Proof.
  intros Hh Hb. unfold hash_insert. rewrite (st_bind_ok _ _ _ _ _ (find_bucket_ok hash h e)).
  destruct (find_elem_ok hash less hf_equal h e) as (o & E & Hf); [apply Hh|]. erewrite st_bind_ok by done.
  destruct o as [x|].
  - erewrite st_bind_ok by done. destruct (rehash_ok hash less ok h Hh) as (h' & E' & Hh' & HP).
    erewrite st_bind_ok by done. by exists (Some x), h'.
  - destruct (insert_elem_ok hash less h e Hh Hb Hf equal_refl equal_sym) as (h1 & E1 & Hh1 & HP1).
    erewrite st_bind_ok by exact E1. destruct (rehash_ok hash less ok h1 Hh1) as (h' & E' & Hh' & HP).
    erewrite st_bind_ok by done. exists None, h'. split_and!; try done. by rewrite HP.
Qed.

Lemma hash_delete_ok ok h e :
  hash_ok h →
  ∃ o h', hash_delete hash less ok e h = Ok (o, h') ∧ found less e (elems h) o ∧ hash_ok h' ∧
    elems h' ≡ₚ drop_old o (elems h).
Proof.
  intros Hh. unfold hash_delete. rewrite (st_bind_ok _ _ _ _ _ (find_bucket_ok hash h e)).
  destruct (find_elem_ok hash less hf_equal h e) as (o & E & Hf); [apply Hh|]. erewrite st_bind_ok by done.
  destruct o as [x|]; [|erewrite st_bind_ok by done; by exists None, h].
  destruct (remove_elem_ok hash less h x Hh (proj1 Hf)) as (h1 & E1 & Hh1 & HP1 & _).
  destruct (rehash_ok hash less ok h1 Hh1) as (h' & E' & Hh' & HP).
  erewrite st_bind_ok by (erewrite st_bind_ok by exact E1; exact E').
  exists (Some x), h'. split_and!; try done. cbn. by rewrite HP, HP1.
Qed.

Lemma hash_replace_ok ok h e :
  hash_ok h → elem_cnt h + 1 < 2^32 →
  ∃ o h', hash_replace hash less ok e h = Ok (o, h') ∧ found less e (elems h) o ∧ hash_ok h' ∧
    elems h' ≡ₚ e :: drop_old o (elems h).
Proof.
  intros Hh Hb. unfold hash_replace. rewrite (st_bind_ok _ _ _ _ _ (find_bucket_ok hash h e)).
  destruct (find_elem_ok hash less hf_equal h e) as (o & E & Hf); [apply Hh|]. erewrite st_bind_ok by done.
  assert (Hrem : ∃ h1, (if o is Some x then remove_elem x else mret tt) h = Ok ((), h1) ∧ hash_ok h1 ∧
    elems h1 = drop_old o (elems h) ∧ bucket_cnt h1 = bucket_cnt h ∧ elem_cnt h1 ≤ elem_cnt h ∧
    found less e (elems h1) None).
  { destruct o as [x|]; [|exists h; by split_and!].
    destruct (remove_elem_ok hash less h x Hh (proj1 Hf)) as (h1 & E1 & Hh1 & HP1 & Hc & Hn).
    exists h1. split_and!; try done; [lia|]. rewrite HP1. intros y [Hyx Hy]%list_elem_of_filter.
    destruct (equal y e) eqn:Ey; [|done]. exfalso. apply Hyx, (ho_distinct _ _ _ Hh); [done|apply Hf|].
    apply (equal_trans y e x); [done|]. rewrite equal_sym. apply Hf. }
  destruct Hrem as (h1 & E1 & Hh1 & HE & Hc & Hn & Hno). erewrite st_bind_ok by exact E1.
  replace (bucket_of hash h e) with (bucket_of hash h1 e) by (unfold bucket_of; by rewrite Hc).
  destruct (insert_elem_ok hash less h1 e Hh1 ltac:(lia) Hno equal_refl equal_sym) as (h2 & E2 & Hh2 & HP2).
  erewrite st_bind_ok by exact E2. destruct (rehash_ok hash less ok h2 Hh2) as (h' & E' & Hh' & HP).
  erewrite st_bind_ok by done. exists o, h'. split_and!; try done. by rewrite HP, HP2, HE.
Qed.
End operations.

(** ** Iteration visits every element once *)

(** The loop of the iteration idiom of hash_first's comment. *)
Fixpoint iterate (fuel : nat) (h : table) (i : hash_iterator) : res (list Z) :=
  match fuel with
  | O => Err EFuel
  | S fuel =>
      i ← hash_next h i;
      match hash_cur i with
      | Some e => es ← iterate fuel h i; mret (e :: es)
      | None => mret []
      end
  end.

(** The elements an iterator has still to visit. *)
Definition remaining (bs : list (list Z)) (i : hash_iterator) (rem : list Z) : Prop :=
  ∃ past rest, bs !! it_bucket i = Some (past ++ rest) ∧ rem = rest ++ concat (drop (S (it_bucket i)) bs) ∧
    match it_elem i with
    | PHead => past = []
    | PElem e => ∃ past', past = past' ++ [e]
    | PNull => False
    end.

(** Where an iterator is after a step. *)
Definition visits (bs : list (list Z)) (i : hash_iterator) (rem : list Z) : Prop :=
  match rem with
  | [] => it_elem i = PNull
  | e :: rem' => it_elem i = PElem e ∧ remaining bs i rem'
  end.

Lemma next_loop_ok h fuel b past rest :
  Z.of_nat (length (buckets h)) = bucket_cnt h → buckets h !! b = Some (past ++ rest) →
  (length (buckets h) - b < fuel)%nat →
  ∃ i, next_loop fuel h b (head rest) = Ok i ∧ visits (buckets h) i (rest ++ concat (drop (S b) (buckets h))).
Proof.
  intros Hl. revert b past rest. induction fuel as [|fuel IH]; intros b past rest Eb Hf; [lia|]. cbn [next_loop].
  pose proof (lookup_lt_Some _ _ _ Eb) as Hb. destruct rest as [|e rest]; cbn [head hd_error].
  - case_decide as Hc.
    + eexists. split; [done|]. rewrite drop_ge by lia. done.
    + destruct (lookup_lt_is_Some_2 (buckets h) (S b)) as [es Ees]; [lia|]. rewrite Ees.
      rewrite (drop_S _ _ _ Ees). cbn [app concat]. apply (IH (S b) [] es); [done|lia].
  - eexists. split; [done|]. cbn [app visits it_elem]. split; [done|]. exists (past ++ [e]), rest. cbn [it_bucket it_elem].
    split_and!; [by rewrite <- app_assoc|done|by exists past].
Qed.

Lemma list_find_last (past rest : list Z) e :
  NoDup ((past ++ [e]) ++ rest) → list_find (.= e) ((past ++ [e]) ++ rest) = Some (length past, e).
Proof.
  intros Hnd. apply list_find_Some. rewrite <- app_assoc. split_and!; [by apply list_lookup_middle|done|].
  intros j y Hj Hlt ->. assert (j = length past); [|lia].
  rewrite <- app_assoc in Hnd. eapply NoDup_lookup; [exact Hnd|exact Hj|]. by apply list_lookup_middle.
Qed.

Lemma NoDup_bucket (bs : list (list Z)) b es : NoDup (concat bs) → bs !! b = Some es → NoDup es.
Proof.
  revert b. induction bs as [|x bs IH]; intros [|b] Hnd E; try done; cbn in *; apply NoDup_app in Hnd as (H1 & _ & H2).
  - by injection E as ->.
  - by eapply IH.
Qed.

Lemma hash_next_ok h i rem :
  Z.of_nat (length (buckets h)) = bucket_cnt h → NoDup (elems h) → remaining (buckets h) i rem →
  ∃ i', hash_next h i = Ok i' ∧ visits (buckets h) i' rem.
Proof.
  intros Hl Hnd (past & rest & Eb & -> & Hp). unfold hash_next. rewrite Eb.
  assert (En : next_in (past ++ rest) (it_elem i) = Ok (head rest)).
  { destruct (it_elem i) as [|e|]; cbn [next_in]; [by subst| |done]. destruct Hp as [past' ->].
    rewrite list_find_last by (by eapply NoDup_bucket). rewrite <- app_assoc, lookup_app_r by lia.
    replace (S (length past') - length past')%nat with 1%nat by lia. by destruct rest. }
  rewrite En. cbn [mbind res_bind]. eapply next_loop_ok; [done|done|lia].
Qed.

Lemma iterate_ok h fuel i rem :
  Z.of_nat (length (buckets h)) = bucket_cnt h → NoDup (elems h) → remaining (buckets h) i rem →
  (length rem < fuel)%nat → iterate fuel h i = Ok rem.
Proof.
  intros Hl Hnd. revert i rem. induction fuel as [|fuel IH]; intros i rem Hr Hf; [lia|]. cbn [iterate].
  destruct (hash_next_ok h i rem Hl Hnd Hr) as (i' & -> & Hv). cbn [mbind res_bind]. unfold hash_cur.
  destruct rem as [|e rem]; cbn [visits] in Hv; [by rewrite Hv|]. destruct Hv as [-> Hr'].
  rewrite (IH i' rem Hr') by (cbn in Hf; lia). done.
Qed.

Lemma iterate_first h fuel :
  Z.of_nat (length (buckets h)) = bucket_cnt h → 0 < bucket_cnt h → NoDup (elems h) →
  (length (elems h) < fuel)%nat → iterate fuel h hash_first = Ok (elems h).
Proof.
  intros Hl Hc Hnd Hf. apply iterate_ok; [done..| |done]. unfold remaining. cbn [hash_first it_bucket it_elem].
  destruct (buckets h) as [|es bs] eqn:E; [cbn in Hl; lia|]. exists [], es. split; [done|]. split; [|done].
  unfold elems. rewrite E. done.
Qed.

(** hash_apply calls the action on every element in the same order. *)
Lemma hash_apply_elems {C} (action : Z → ST C ()) h s : hash_apply action h s = apply_loop action (elems h) s.
Proof.
  unfold hash_apply, elems. revert s. induction (buckets h) as [|es bs IH]; intros s; [done|]. cbn [apply_buckets concat].
  revert s. induction es as [|e es IHe]; intros s; cbn [apply_loop app].
  - unfold mbind, ST_bind, mret, ST_ret. apply IH.
  - revert IHe. unfold mbind, ST_bind. destruct (action e s) as [[? s1]|]; [|done]. auto.
Qed.
