(* ===== verification/HashTheorems.v ===== *)
(** * Theorems about lib/kernel/hash.c

    A client's calls on a new table give the results of the same calls on a
    set, and iterating over the table visits the set's elements. *)

From S2P Require Import Prelude ListSpec Bitmap Memory Hash.

Local Open Scope Z_scope.

(** A call; the flag says whether malloc would succeed in it. *)
Inductive hash_op :=
  | OInsert (malloc_ok : bool) (e : Z)
  | OReplace (malloc_ok : bool) (e : Z)
  | OFind (e : Z)
  | ODelete (malloc_ok : bool) (e : Z)
  | OSize.

(** What a call returns: an element or a null pointer, or a number. *)
Inductive hash_result := RElem (o : option Z) | RSize (n : Z).

Section refinement.
Context (hash : Z → Z) (less : Z → Z → bool).

Definition hash_call (op : hash_op) : HM hash_result :=
  match op with
  | OInsert ok e => o ← hash_insert hash less ok e; mret (RElem o)
  | OReplace ok e => o ← hash_replace hash less ok e; mret (RElem o)
  | OFind e => o ← hash_find hash less e; mret (RElem o)
  | ODelete ok e => o ← hash_delete hash less ok e; mret (RElem o)
  | OSize => n ← hash_size; mret (RSize n)
  end.

Fixpoint hash_calls (ops : list hash_op) : HM (list hash_result) :=
  match ops with
  | [] => mret []
  | op :: ops => r ← hash_call op; rs ← hash_calls ops; mret (r :: rs)
  end.

(** The same calls on a set of elements, given as a list. *)
Definition set_call (op : hash_op) (l : list Z) : hash_result * list Z :=
  match op with
  | OInsert _ e => let o := find_loop less l e in (RElem o, if o is Some _ then l else e :: l)
  | OReplace _ e => let o := find_loop less l e in (RElem o, e :: drop_old o l)
  | OFind e => (RElem (find_loop less l e), l)
  | ODelete _ e => let o := find_loop less l e in (RElem o, drop_old o l)
  | OSize => (RSize (Z.of_nat (length l)), l)
  end.

Fixpoint set_calls (ops : list hash_op) (l : list Z) : list hash_result * list Z :=
  match ops with
  | [] => ([], l)
  | op :: ops =>
      let '(r, l) := set_call op l in let '(rs, l) := set_calls ops l in (r :: rs, l)
  end.

Context `{!HashFuncs hash less}.

(** Equal elements of a table are the same one. *)
Lemma found_unique h l e o :
  hash_ok hash less h → elems h ≡ₚ l → found less e (elems h) o → o = find_loop less l e.
Proof.
  intros Hh HP Hf. pose proof (find_loop_ok less l e) as Hl.
  destruct o as [x|], (find_loop less l e) as [y|]; cbn in *; [|exfalso..|done].
  - destruct Hf as [Hx Ex], Hl as [Hy Ey]. f_equal. apply (ho_distinct _ _ _ Hh); [done|by rewrite HP|].
    rewrite equal_sym in Ey. by eapply equal_trans.
  - destruct Hf as [Hx Ex]. rewrite Hl in Ex; [done|by rewrite <- HP].
  - destruct Hl as [Hy Ey]. rewrite Hf in Ey; [done|by rewrite HP].
Qed.

Lemma drop_old_perm o l l' : l ≡ₚ l' → drop_old o l ≡ₚ drop_old o l'.
Proof. intros HP. destruct o; [|done]. cbn. by rewrite HP. Qed.

Lemma hash_call_refines op h l :
  hash_ok hash less h → elem_cnt h + 1 < 2^32 → elems h ≡ₚ l →
  ∃ h', hash_call op h = Ok ((set_call op l).1, h') ∧ hash_ok hash less h' ∧ elems h' ≡ₚ (set_call op l).2 ∧
    elem_cnt h' ≤ elem_cnt h + 1.
Proof.
  intros Hh Hn HP.
  assert (Hcnt : ∀ h', hash_ok hash less h' → elems h' ≡ₚ (set_call op l).2 → elem_cnt h' ≤ elem_cnt h + 1).
  { intros h' Hh' HP'. rewrite (proj1 (ho_size _ _ _ Hh')), (proj1 (ho_size _ _ _ Hh)).
    rewrite HP', HP. assert (∀ o, (length (drop_old o l) ≤ length l)%nat) as Hd.
    { intros [x|]; [apply length_filter|done]. }
    destruct op; cbn; [destruct (find_loop less l e)|pose proof (Hd (find_loop less l e))| |
      pose proof (Hd (find_loop less l e))|]; cbn; lia. }
  assert (Hgo : ∃ h', hash_call op h = Ok ((set_call op l).1, h') ∧ hash_ok hash less h' ∧ elems h' ≡ₚ (set_call op l).2).
  2: { destruct Hgo as (h' & E & Hh' & HP'). exists h'. auto. }
  destruct op as [ok e|ok e|e|ok e|]; cbn [hash_call set_call fst snd].
  - destruct (hash_insert_ok hash less ok h e Hh Hn) as (o & h' & E & Hf & Hh' & HP'). erewrite st_bind_ok by exact E.
    rewrite <- (found_unique h l e o) by done. exists h'. split_and!; [done|done|]. rewrite HP'. destruct o; by rewrite HP.
  - destruct (hash_replace_ok hash less ok h e Hh Hn) as (o & h' & E & Hf & Hh' & HP'). erewrite st_bind_ok by exact E.
    rewrite <- (found_unique h l e o) by done. exists h'. split_and!; [done|done|]. by rewrite HP', (drop_old_perm o _ _ HP).
  - destruct (hash_find_ok hash less h e Hh) as (o & E & Hf). erewrite st_bind_ok by exact E.
    rewrite <- (found_unique h l e o) by done. by exists h.
  - destruct (hash_delete_ok hash less ok h e Hh) as (o & h' & E & Hf & Hh' & HP'). erewrite st_bind_ok by exact E.
    rewrite <- (found_unique h l e o) by done. exists h'. split_and!; [done|done|]. by rewrite HP', (drop_old_perm o _ _ HP).
  - exists h. split_and!; [|done|done]. unfold hash_size. erewrite st_bind_ok by done.
    by rewrite (proj1 (ho_size _ _ _ Hh)), HP.
Qed.

Lemma hash_calls_refine ops h l :
  hash_ok hash less h → elem_cnt h + Z.of_nat (length ops) < 2^32 → elems h ≡ₚ l →
  ∃ h', hash_calls ops h = Ok ((set_calls ops l).1, h') ∧ hash_ok hash less h' ∧ elems h' ≡ₚ (set_calls ops l).2.
Proof.
  revert h l. induction ops as [|op ops IH]; intros h l Hh Hn HP; [by exists h|]. cbn [hash_calls set_calls length] in *.
  destruct (hash_call_refines op h l Hh) as (h1 & E1 & Hh1 & HP1 & Hn1); [lia|done|].
  destruct (set_call op l) as [r l1]. cbn [fst snd] in *. erewrite st_bind_ok by exact E1.
  destruct (IH h1 l1 Hh1) as (h2 & E2 & Hh2 & HP2); [lia|done|]. destruct (set_calls ops l1) as [rs l2]. cbn [fst snd] in *.
  erewrite st_bind_ok by exact E2. by exists h2.
Qed.

Lemma init_hash_ok : hash_ok hash less (Table 0 4 (replicate 4 [])).
Proof.
  split.
  - split; [by exists 2|done|]. intros b es e Eb He. apply lookup_replicate_1 in Eb as [-> _]. by apply elem_of_nil in He.
  - constructor.
  - intros x y Hx. by apply elem_of_nil in Hx.
  - by split.
Qed.

End refinement.

(** C16: Any sequence of calls of hash_insert, hash_replace, hash_find,
    hash_delete and hash_size on a new table returns what the same calls on a
    set of elements return, where elements that compare equal are the same
    member, whether or not malloc succeeds when the table rehashes.  Afterwards
    the table has the set's elements, and a loop with hash_next from hash_first
    visits each of them once. *)
Theorem hash_refines_set hash less ops :
  HashFuncs hash less → Z.of_nat (length ops) < 2^32 →
  ∃ h0 h es, hash_init true () = Ok (Some h0, ()) ∧
    hash_calls hash less ops h0 = Ok ((set_calls less ops []).1, h) ∧
    iterate (S (length es)) h hash_first = Ok es ∧ NoDup es ∧ es ≡ₚ (set_calls less ops []).2.
Proof.
  intros Hf Hn. pose proof (init_hash_ok hash less) as H0.
  destruct (hash_calls_refine hash less ops _ [] H0) as (h & E & Hh & HP); [cbn [elem_cnt]; lia|done|].
  exists (Table 0 4 (replicate 4 [])), h, (elems h). pose proof Hh as [[(k & Hk & Ek) Hl _] Hnd _ _].
  split_and!; try done. apply iterate_first; [done| |done|lia]. rewrite Ek. apply Z.pow_pos_nonneg; lia.
Qed.

(** Numbers hashed by their last digit and compared by value. *)
Lemma demo_hash_funcs : HashFuncs (λ x, x `mod` 10) Z.ltb.
Proof.
  split; [split|].
  - intros x y. rewrite Z.ltb_lt, Z.ltb_ge. lia.
  - intros x y z. rewrite !Z.ltb_ge. lia.
  - intros x y. unfold equal. rewrite andb_true_iff, !negb_true_iff, !Z.ltb_ge. intros. by replace x with y by lia.
Qed.

Lemma hash_refines_set_witness :
  let ops := [OInsert true 3; OInsert true 13; OInsert false 3; ODelete true 3; OFind 3; OReplace true 13; OSize] in
  ∃ h0 h, hash_init true () = Ok (Some h0, ()) ∧
    hash_calls (λ x, x `mod` 10) Z.ltb ops h0 =
      Ok ([RElem None; RElem None; RElem (Some 3); RElem (Some 3); RElem None; RElem (Some 13); RSize 1], h) ∧
    iterate 2 h hash_first = Ok [13].
Proof.
  intros ops. destruct (hash_refines_set (λ x, x `mod` 10) Z.ltb ops demo_hash_funcs) as (h0 & h & es & E0 & E & Hi & _ & HP);
    [done|]. exists h0, h. assert (es = [13]) as -> by (apply Permutation_singleton_r; exact HP).
  split; [exact E0|split; [exact E|exact Hi]].
Defined.
