(* ===== verification/Vaddr.v ===== *)
(** * threads/vaddr.h and threads/pte.h: virtual addresses and page table entries

    Addresses are 32-bit numbers.  The functions that assert their argument
    return a [res]. *)

From S2P Require Import Prelude Bitmap.

Local Open Scope Z_scope.

Definition BITMASK (shift cnt : Z) : Z := u32 (Z.shiftl (u32 (Z.shiftl 1 cnt) - 1) shift).
Definition PGSHIFT : Z := 0.
Definition PGBITS : Z := 12.
Definition PGSIZE : Z := 4096.
Definition PGMASK : Z := BITMASK PGSHIFT PGBITS.

Definition pg_ofs (va : Z) : Z := Z.land va PGMASK.
Definition pg_no (va : Z) : Z := Z.shiftr va PGBITS.
Definition pg_round_up (va : Z) : Z := Z.land (u32 (va + PGSIZE - 1)) (u32 (Z.lnot PGMASK)).
Definition pg_round_down (va : Z) : Z := Z.land va (u32 (Z.lnot PGMASK)).

(** LOADER_PHYS_BASE. *)
Definition PHYS_BASE : Z := 3221225472.

Definition is_user_vaddr (vaddr : Z) : bool := bool_decide (vaddr < PHYS_BASE).
Definition is_kernel_vaddr (vaddr : Z) : bool := bool_decide (PHYS_BASE ≤ vaddr).

Definition ptov (paddr : Z) : res Z :=
  _ ← assert (bool_decide (paddr < PHYS_BASE)); mret (u32 (paddr + PHYS_BASE)).
Definition vtop (vaddr : Z) : res Z :=
  _ ← assert (is_kernel_vaddr vaddr); mret (u32 (vaddr - PHYS_BASE)).

(** ** Page table entries *)

Definition PTSHIFT : Z := PGBITS.
Definition PTBITS : Z := 10.
Definition PTMASK : Z := BITMASK PTSHIFT PTBITS.
Definition PDSHIFT : Z := PTSHIFT + PTBITS.

Definition pt_no (va : Z) : Z := Z.shiftr (Z.land va PTMASK) PTSHIFT.
Definition pd_no (va : Z) : Z := Z.shiftr va PDSHIFT.

Definition PTE_ADDR : Z := 4294963200.
Definition PTE_P : Z := 1.
Definition PTE_W : Z := 2.
Definition PTE_U : Z := 4.
Definition PTE_A : Z := 32.
Definition PTE_D : Z := 64.

Definition pde_create (pt : Z) : res Z :=
  _ ← assert (bool_decide (pg_ofs pt = 0));
  p ← vtop pt; mret (Z.lor (Z.lor (Z.lor p PTE_U) PTE_P) PTE_W).

Definition pde_get_pt (pde : Z) : res Z :=
  _ ← assert (bool_decide (Z.land pde PTE_P ≠ 0)); ptov (Z.land pde PTE_ADDR).

Definition pte_create_kernel (page : Z) (writable : bool) : res Z :=
  _ ← assert (bool_decide (pg_ofs page = 0));
  p ← vtop page; mret (Z.lor (Z.lor p PTE_P) (if writable then PTE_W else 0)).

Definition pte_create_user (page : Z) (writable : bool) : res Z :=
  e ← pte_create_kernel page writable; mret (Z.lor e PTE_U).

Definition pte_get_page (pte : Z) : res Z := ptov (Z.land pte PTE_ADDR).

(** ** Facts *)

Lemma pg_ofs_mod va : pg_ofs va = va `mod` 4096.
Proof. unfold pg_ofs. change PGMASK with (Z.ones 12). by rewrite Z.land_ones. Qed.

Lemma pg_no_div va : pg_no va = va / 4096.
Proof. unfold pg_no. change PGBITS with 12. by rewrite Z.shiftr_div_pow2. Qed.

Lemma land_page_mask x : in_u32 x → Z.land x 4294963200 = x - x `mod` 4096.
Proof.
  intros Hx. change 4294963200 with (Z.ldiff (Z.ones 32) (Z.ones 12)).
  assert (E : Z.land x (Z.ldiff (Z.ones 32) (Z.ones 12)) = Z.ldiff x (Z.ones 12)).
  { rewrite !Z.ldiff_land, Z.land_assoc, Z.land_ones by lia. unfold in_u32 in Hx. by rewrite Z.mod_small. }
  rewrite E, Z.ldiff_ones_r, Z.shiftl_mul_pow2, Z.shiftr_div_pow2 by lia. rewrite Z.mod_eq by lia.
  change (2^12) with 4096. lia.
Qed.

Lemma pg_round_down_eq va : in_u32 va → pg_round_down va = va - va `mod` 4096.
Proof. intros H. unfold pg_round_down. change (u32 (Z.lnot PGMASK)) with 4294963200. by apply land_page_mask. Qed.

Lemma pd_no_div va : pd_no va = va / 4194304.
Proof. unfold pd_no. change PDSHIFT with 22. by rewrite Z.shiftr_div_pow2. Qed.

Lemma pt_no_eq va : 0 ≤ va → pt_no va = (va / 4096) `mod` 1024.
Proof.
  intros Hva. unfold pt_no. change PTMASK with (Z.shiftl (Z.ones 10) 12). change PTSHIFT with 12.
  rewrite Z.shiftr_land, Z.shiftr_shiftl_l by lia.
  change (12 - 12) with 0. rewrite Z.shiftl_0_r, Z.land_ones, Z.shiftr_div_pow2 by lia. done.
Qed.

(** ** Entries are an aligned address plus flags *)

Lemma lor_flags a f : a `mod` 4096 = 0 → 0 ≤ f < 4096 → Z.lor a f = a + f.
Proof.
  intros Ha Hf. assert (E : Z.land a f = 0).
  { apply Z.bits_inj'. intros i Hi. rewrite Z.land_spec, Z.testbit_0_l. destruct (decide (i < 12)).
    - rewrite <- (Z.mod_pow2_bits_low a 12 i) by lia. change (2^12) with 4096. by rewrite Ha, Z.testbit_0_l.
    - rewrite (Z.bits_above_log2 f i), andb_false_r; [done|lia|].
      destruct (decide (f = 0)) as [->|]; [cbn; lia|]. assert (Z.log2 f < 12) by (apply Z.log2_lt_pow2; lia). lia. }
  rewrite <- Z.lxor_lor, Z.add_nocarry_lxor; done.
Qed.

Lemma entry_address a f : a `mod` 4096 = 0 → 0 ≤ f < 4096 → in_u32 (a + f) → Z.land (a + f) PTE_ADDR = a.
Proof. intros Ha Hf Hr. unfold PTE_ADDR. rewrite land_page_mask by done. dlia. Qed.

Lemma land_present e : Z.land e PTE_P = e `mod` 2.
Proof. unfold PTE_P. change 1 with (Z.ones 1). by rewrite Z.land_ones. Qed.

Lemma pte_create_user_ok page writable :
  page `mod` 4096 = 0 → PHYS_BASE ≤ page < 2^32 →
  pte_create_user page writable = Ok (page - PHYS_BASE + (if writable then 7 else 5)).
Proof.
  intros Hp Hr. unfold pte_create_user, pte_create_kernel, vtop, is_kernel_vaddr, PHYS_BASE in *.
  rewrite pg_ofs_mod, !bool_decide_true by (done || lia). cbn [mbind res_bind assert mret res_ret].
  rewrite u32_id by (unfold in_u32; lia). f_equal. unfold PTE_P, PTE_W, PTE_U.
  destruct writable; rewrite <- !Z.lor_assoc; (rewrite lor_flags; [done|dlia|vm_compute; split; congruence]).
Qed.

Lemma pde_create_ok pt :
  pt `mod` 4096 = 0 → PHYS_BASE ≤ pt < 2^32 → pde_create pt = Ok (pt - PHYS_BASE + 7).
Proof.
  intros Hp Hr. unfold pde_create, vtop, is_kernel_vaddr, PHYS_BASE in *.
  rewrite pg_ofs_mod, !bool_decide_true by (done || lia). cbn [mbind res_bind assert mret res_ret].
  rewrite u32_id by (unfold in_u32; lia). f_equal. unfold PTE_P, PTE_W, PTE_U.
  rewrite <- !Z.lor_assoc, lor_flags; [done|dlia|vm_compute; split; congruence].
Qed.

(** The page an entry points to. *)
Definition frame (e : Z) : Z := e - e `mod` 4096 + PHYS_BASE.

Lemma pte_get_page_ok e : in_u32 e → frame e < 2^32 → pte_get_page e = Ok (frame e).
Proof.
  intros He Hf. unfold pte_get_page, ptov, PTE_ADDR. rewrite land_page_mask by done. unfold frame, in_u32, PHYS_BASE in *.
  rewrite bool_decide_true by dlia. cbn. rewrite u32_id by (unfold in_u32; dlia). done.
Qed.

Lemma pde_get_pt_ok e : in_u32 e → e `mod` 2 = 1 → frame e < 2^32 → pde_get_pt e = Ok (frame e).
Proof.
  intros He Hp Hf. unfold pde_get_pt. rewrite land_present, Hp, bool_decide_true by done. cbn.
  by apply pte_get_page_ok.
Qed.

Lemma frame_entry a f : a `mod` 4096 = 0 → 0 ≤ f < 4096 → frame (a - PHYS_BASE + f) = a.
Proof. intros Ha Hf. unfold frame, PHYS_BASE. dlia. Qed.
