(* ===== verification/Palloc.v ===== *)
(** * threads/palloc.c: the page allocator

    The two pools with their bitmaps of used pages, and the memory of the
    machine.  The bitmap of a pool is kept apart from the memory (the pages at
    the start of the pool that hold it are never given out).  A pool's lock
    makes the search for free pages atomic; it is not part of the state here. *)

From S2P Require Import Prelude Bitmap Memory CString Vaddr.

Local Open Scope Z_scope.

Definition PAL_ASSERT : Z := 1.
Definition PAL_ZERO : Z := 2.
Definition PAL_USER : Z := 4.

Record pool := Pool { used_map : bitmap; base : Z }.
Record pages := Pages { kernel_pool : pool; user_pool : pool; ram : mem }.

Abbreviation PM := (ST pages).

(** A routine of Memory.v or CString.v on the machine's memory. *)
Definition on_ram {A} (c : MM A) : PM A := λ s,
  match c (ram s) with
  | Ok (a, m) => Ok (a, Pages (kernel_pool s) (user_pool s) m)
  | Err e => Err e
  end.

(** One of the two pools. *)
Definition pool_of (user : bool) (s : pages) : pool := if user then user_pool s else kernel_pool s.
Definition set_pool (user : bool) (p : pool) (s : pages) : pages :=
  if user then Pages (kernel_pool s) p (ram s) else Pages p (user_pool s) (ram s).

(** The words of the buffer a bitmap is created in. *)
Fixpoint load_words (n : nat) (p : Z) : MM (list Z) :=
  match n with O => mret [] | S n => w ← loadw p; ws ← load_words n (u32 (p + 4)); mret (w :: ws) end.

Definition init_pool (user : bool) (base page_cnt : Z) : PM () :=
  let bm_pages := DIV_ROUND_UP (bitmap_buf_size page_cnt) PGSIZE in
  if decide (page_cnt < bm_pages) then st_fail EPanic else
  let page_cnt := page_cnt - bm_pages in
  block ← on_ram (load_words (Z.to_nat (elem_cnt page_cnt)) (u32 (base + 8)));
  b ← st_res (bitmap_create_in_buf page_cnt block (u32 (bm_pages * PGSIZE)));
  st_modify (set_pool user (Pool b (u32 (base + bm_pages * PGSIZE)))).

Definition palloc_init (init_ram_pages user_page_limit : Z) : PM () :=
  free_start ← st_res (ptov (1024 * 1024));
  free_end ← st_res (ptov (u32 (init_ram_pages * PGSIZE)));
  let free_pages := (free_end - free_start) / PGSIZE in
  let user_pages := free_pages / 2 in
  let user_pages := if decide (user_page_limit < user_pages) then user_page_limit else user_pages in
  let kernel_pages := free_pages - user_pages in
  init_pool false free_start kernel_pages;;
  init_pool true (u32 (free_start + kernel_pages * PGSIZE)) user_pages.

Definition palloc_get_multiple (flags page_cnt : Z) : PM Z :=
  let user := bool_decide (Z.land flags PAL_USER ≠ 0) in
  if decide (page_cnt = 0) then mret NULL else
  pool ← st_gets (pool_of user);
  r ← st_res (bitmap_scan_and_flip (used_map pool) 0 page_cnt false);
  let page_idx := r.1 in
  st_modify (set_pool user (Pool r.2 (base pool)));;
  let pages := if decide (page_idx ≠ BITMAP_ERROR) then u32 (base pool + PGSIZE * page_idx) else NULL in
  (if decide (pages ≠ NULL) then
     if decide (Z.land flags PAL_ZERO ≠ 0) then _ ← on_ram (memset pages 0 (u32 (PGSIZE * page_cnt))); mret tt
     else mret tt
   else if decide (Z.land flags PAL_ASSERT ≠ 0) then st_fail EPanic else mret tt);;
  mret pages.

Definition palloc_get_page (flags : Z) : PM Z := palloc_get_multiple flags 1.

Definition page_from_pool (pool : pool) (page : Z) : bool :=
  let page_no := pg_no page in
  let start_page := pg_no (base pool) in
  let end_page := start_page + bitmap_size (used_map pool) in
  bool_decide (start_page ≤ page_no ∧ page_no < end_page).

Definition palloc_free_multiple (pages page_cnt : Z) : PM () :=
  ASSERT (bool_decide (pg_ofs pages = 0));;
  if decide (pages = NULL ∨ page_cnt = 0) then mret tt else
  s ← st_get;
  user ← (if page_from_pool (kernel_pool s) pages then mret false
          else if page_from_pool (user_pool s) pages then mret true
          else st_fail EPanic);
  let pool := pool_of user s in
  let page_idx := pg_no pages - pg_no (base pool) in
  _ ← on_ram (memset pages 204 (u32 (PGSIZE * page_cnt)));
  all ← st_res (bitmap_all (used_map pool) page_idx page_cnt);
  ASSERT all;;
  b ← st_res (bitmap_set_multiple (used_map pool) page_idx page_cnt false);
  st_modify (set_pool user (Pool b (base pool))).

Definition palloc_free_page (page : Z) : PM () := palloc_free_multiple page 1.

(** ** Correctness *)

(** The bytes of [n] pages. *)
Definition page_bytes (n : Z) : nat := Z.to_nat (4096 * n).

Record pool_ok (p : pool) (m : mem) : Prop := {
  po_map : wf (used_map p);
  po_base : base p `mod` 4096 = 0;
  po_ram : mapped m (base p) (page_bytes (bit_cnt (used_map p)));
}.

Record pages_ok (s : pages) : Prop := {
  pk_kernel : pool_ok (kernel_pool s) (ram s);
  pk_user : pool_ok (user_pool s) (ram s);
  pk_apart : base (kernel_pool s) + 4096 * bit_cnt (used_map (kernel_pool s)) ≤ base (user_pool s);
}.

#[export] Instance pool_ok_dec p m : Decision (pool_ok p m).
Proof.
  refine (cast_if (decide (wf (used_map p) ∧ base p `mod` 4096 = 0 ∧
    mapped m (base p) (page_bytes (bit_cnt (used_map p))))));
  [abstract (destruct_and?; by split)|abstract (intros []; tauto)].
Defined.

#[export] Instance pages_ok_dec s : Decision (pages_ok s).
Proof.
  refine (cast_if (decide (pool_ok (kernel_pool s) (ram s) ∧ pool_ok (user_pool s) (ram s) ∧
    base (kernel_pool s) + 4096 * bit_cnt (used_map (kernel_pool s)) ≤ base (user_pool s))));
  [abstract (destruct_and?; by split)|abstract (intros []; tauto)].
Defined.

Lemma pool_of_ok user s : pages_ok s → pool_ok (pool_of user s) (ram s).
Proof. intros [? ? _]. by destruct user. Qed.

(** The block of memory of pages [i] to [i + cnt - 1] of a pool. *)
Lemma pages_mapped p m i cnt :
  pool_ok p m → 0 ≤ i → 0 ≤ cnt → i + cnt ≤ bit_cnt (used_map p) →
  mapped m (base p + 4096 * i) (page_bytes cnt) ∧ Z.of_nat (page_bytes cnt) = 4096 * cnt ∧ 0 < base p ∧
  base p + 4096 * (i + cnt) < 2^32.
Proof.
  intros [Hw _ [Hr Hm]] Hi Hc Hb. unfold page_bytes in *. split_and!; [|lia..]. split; [lia|]. intros k Hk.
  replace (base p + 4096 * i + Z.of_nat k) with (base p + Z.of_nat (Z.to_nat (4096 * i) + k)) by lia.
  apply Hm. lia.
Qed.

Lemma on_ram_ok {A} (c : MM A) s a m :
  c (ram s) = Ok (a, m) → on_ram c s = Ok (a, Pages (kernel_pool s) (user_pool s) m).
Proof. intros E. unfold on_ram. by rewrite E. Qed.

Lemma st_res_ok {S A} (r : res A) a (s : S) : r = Ok a → st_res r s = Ok (a, s).
Proof. by intros ->. Qed.

(** The pools after a change of one bitmap and of the contents of memory. *)
Lemma pages_ok_update user s b m :
  pages_ok s → wf b → bit_cnt b = bit_cnt (used_map (pool_of user s)) →
  (∀ a, is_Some (ram s !! a) → is_Some (m !! a)) →
  pages_ok (set_pool user (Pool b (base (pool_of user s))) (Pages (kernel_pool s) (user_pool s) m)).
Proof.
  intros [Hk Hu Ha] Hb Hc Hm.
  assert (Hmap : ∀ p n, mapped (ram s) p n → mapped m p n) by (intros p n [Hr H]; split; [done|]; auto).
  assert (Hp : ∀ p, pool_ok p (ram s) → pool_ok p m) by (intros p []; split; auto).
  assert (Hnew : pool_ok (Pool b (base (pool_of user s))) m).
  { destruct (pool_of_ok user s) as [? ? ?]; [by split|]. split; cbn; [done|done|]. rewrite Hc. auto. }
  destruct user; split; cbn in *; auto; rewrite ?Hc; done.
Qed.

(** Allocation: the first group of free pages that is long enough. *)
Definition allocates (user : bool) (s : pages) (cnt i : Z) (b : bitmap) : Prop :=
  let p := pool_of user s in
  (0 ≤ i ∧ i + cnt ≤ bit_cnt (used_map p)) ∧ all_bits (used_map p) i cnt false ∧
  (∀ k, 0 ≤ k < i → ¬ all_bits (used_map p) k cnt false) ∧ wf b ∧ bit_cnt b = bit_cnt (used_map p) ∧
  ∀ j, 0 ≤ j → bit_at b j = if decide (i ≤ j < i + cnt) then true else bit_at (used_map p) j.

Definition full (user : bool) (s : pages) (cnt : Z) : Prop :=
  ∀ k, 0 ≤ k → k + cnt ≤ bit_cnt (used_map (pool_of user s)) → ¬ all_bits (used_map (pool_of user s)) k cnt false.

Definition wants (flags flag : Z) : bool := bool_decide (Z.land flags flag ≠ 0).

Lemma palloc_get_ok flags cnt s :
  pages_ok s → 0 < cnt →
  let user := wants flags PAL_USER in
  (∃ i b, allocates user s cnt i b ∧
     palloc_get_multiple flags cnt s = Ok (base (pool_of user s) + 4096 * i,
       set_pool user (Pool b (base (pool_of user s))) (Pages (kernel_pool s) (user_pool s)
         (if wants flags PAL_ZERO then write (base (pool_of user s) + 4096 * i) (replicate (page_bytes cnt) 0) (ram s)
          else ram s)))) ∨
  full user s cnt ∧
    palloc_get_multiple flags cnt s = (if wants flags PAL_ASSERT then Err EPanic else Ok (NULL, s)).
Proof.
  intros Hs Hc user. pose proof (pool_of_ok user s Hs) as Hp. unfold palloc_get_multiple.
  rewrite decide_False by lia. fold (wants flags PAL_USER). fold user. erewrite st_bind_ok by done.
  destruct (bitmap_scan_and_flip_ok (used_map (pool_of user s)) 0 cnt false) as
    [(i & b & E & Hw & Hn & Hi & Hr & He & Hall & Hfirst & Hbits)|[E Hno]]; [apply Hp|destruct Hp as [[] ? ?]; lia|lia|left|right].
  - exists i, b. split; [unfold allocates; split_and!; auto|].
    destruct (pages_mapped _ _ i cnt Hp ltac:(lia) ltac:(lia) Hr) as (Hm & Hz & Hb0 & Hb).
    erewrite st_bind_ok by (by apply st_res_ok). cbn [fst snd]. erewrite st_bind_ok by done.
    rewrite (decide_True (P := i ≠ BITMAP_ERROR)) by done. change PGSIZE with 4096.
    rewrite !u32_id by (unfold in_u32; lia). rewrite decide_True by (unfold NULL; lia). unfold wants.
    case_bool_decide as Ez.
    + rewrite decide_True by done.
      erewrite st_bind_ok; [|erewrite st_bind_ok; [reflexivity|]; apply on_ram_ok;
        replace (ram (set_pool _ _ _)) with (ram s) by (by destruct user); rewrite <- Hz; by apply memset_ok].
      by destruct user.
    + rewrite decide_False by lia. erewrite st_bind_ok by done. by destruct user, s.
  - split; [unfold full; eauto|]. erewrite st_bind_ok by (by apply st_res_ok). cbn [fst snd].
    erewrite st_bind_ok by done. rewrite (decide_False (P := BITMAP_ERROR ≠ BITMAP_ERROR)) by auto.
    rewrite decide_False by auto. unfold wants. case_bool_decide as Ea.
    + by rewrite decide_True by done.
    + rewrite decide_False by lia. erewrite st_bind_ok by done.
      by destruct user, s as [[] [] ?].
Qed.

Lemma pg_no_page b i : b `mod` 4096 = 0 → pg_no (b + 4096 * i) = pg_no b + i.
Proof. intros H. rewrite !pg_no_div, (Z.mul_comm 4096), Z.div_add by lia. done. Qed.

(** The pool a page belongs to. *)
Lemma page_pool user s i :
  pages_ok s → 0 ≤ i < bit_cnt (used_map (pool_of user s)) →
  page_from_pool (kernel_pool s) (base (pool_of user s) + 4096 * i) = negb user ∧
  page_from_pool (user_pool s) (base (pool_of user s) + 4096 * i) = user.
Proof.
  intros [[Hkw Hk _] [Huw Hu _] Ha] Hi. unfold page_from_pool, bitmap_size.
  rewrite pg_no_page by (by destruct user). rewrite !pg_no_div.
  destruct user; cbn [pool_of negb] in *; split;
    first [apply bool_decide_eq_true|apply bool_decide_eq_false]; dlia.
Qed.

Definition releases (user : bool) (s : pages) (cnt i : Z) (b : bitmap) : Prop :=
  wf b ∧ bit_cnt b = bit_cnt (used_map (pool_of user s)) ∧
  ∀ j, 0 ≤ j → bit_at b j = if decide (i ≤ j < i + cnt) then false else bit_at (used_map (pool_of user s)) j.

(** Freeing pages: panics unless all of them are in use. *)
Lemma palloc_free_ok user s i cnt :
  pages_ok s → 0 ≤ i → 0 < cnt → i + cnt ≤ bit_cnt (used_map (pool_of user s)) →
  let p := pool_of user s in
  (all_bits (used_map p) i cnt true →
   ∃ b, releases user s cnt i b ∧
     palloc_free_multiple (base p + 4096 * i) cnt s = Ok ((), set_pool user (Pool b (base p))
       (Pages (kernel_pool s) (user_pool s) (write (base p + 4096 * i) (replicate (page_bytes cnt) 204) (ram s))))) ∧
  (¬ all_bits (used_map p) i cnt true → palloc_free_multiple (base p + 4096 * i) cnt s = Err EPanic).
Proof.
  intros Hs Hi Hc Hr p. pose proof (pool_of_ok user s Hs) as Hp. fold p in Hp, Hr.
  destruct (pages_mapped p _ i cnt Hp Hi ltac:(lia) Hr) as (Hm & Hz & Hb0 & Hb).
  destruct (page_pool user s i Hs ltac:(fold p; lia)) as [Hk Hu]. fold p in Hk, Hu.
  destruct (bitmap_all_ok (used_map p) i cnt) as (all & Eall & Hall); [apply Hp|lia..|].
  destruct (bitmap_set_multiple_ok (used_map p) i cnt false) as (b & Eset & Hw & Hn & Hbits); [apply Hp|lia..|].
  assert (E : palloc_free_multiple (base p + 4096 * i) cnt s =
    (ASSERT all;; b ← st_res (bitmap_set_multiple (used_map p) i cnt false); st_modify (set_pool user (Pool b (base p))))
      (Pages (kernel_pool s) (user_pool s) (write (base p + 4096 * i) (replicate (page_bytes cnt) 204) (ram s)))).
  { unfold palloc_free_multiple.
    erewrite st_bind_ok by (apply assert_ok, bool_decide_eq_true; rewrite pg_ofs_mod; destruct Hp as [_ ? _]; dlia).
    rewrite decide_False by (unfold NULL; lia). erewrite st_bind_ok by done. rewrite Hk, Hu.
    erewrite (st_bind_ok _ _ s user s) by (by destruct user). fold p.
    rewrite pg_no_page by apply Hp. rewrite Z.add_simpl_l. change PGSIZE with 4096.
    rewrite u32_id by (unfold in_u32; lia).
    erewrite st_bind_ok by (apply on_ram_ok; rewrite <- Hz; by apply memset_ok).
    by erewrite st_bind_ok by (by apply st_res_ok). }
  rewrite E. split; intros H.
  - apply Hall in H as ->. exists b. split; [done|]. erewrite st_bind_ok by done.
    by erewrite st_bind_ok by (by apply st_res_ok).
  - destruct all; [|done]. exfalso. by apply H, Hall.
Qed.

(** ** Initialisation *)

(** Memory holds bytes. *)
Definition bytes_ok (m : mem) : Prop := ∀ a b, m !! a = Some b → 0 ≤ b < 256.

Lemma mapped_bytes m p n :
  bytes_ok m → mapped m p n → ∃ bs, holds m p bs ∧ length bs = n ∧ Forall (λ b, 0 ≤ b < 256) bs.
Proof.
  intros Hb Hm. destruct (mapped_holds m p n Hm) as (bs & Hh & Hl). exists bs. split_and!; [done|done|].
  apply Forall_lookup. intros i b E. eapply Hb. by eapply holds_lookup.
Qed.

Lemma load_words_ok n p m :
  bytes_ok m → mapped m p (4 * n) → ∃ ws, load_words n p m = Ok (ws, m) ∧ length ws = n ∧ Forall in_u32 ws.
Proof.
  intros Hb. revert p. induction n as [|n IH]; intros p Hm; [by exists []|]. pose proof Hm as [Hr Hm'].
  cbn [load_words]. destruct (mapped_bytes m p 4 Hb) as (bs & Hbs & Hl & Hby).
  { split; [lia|]. intros i Hi. apply Hm'. lia. }
  erewrite st_bind_ok by (by apply loadw_ok). rewrite u32_id by (unfold in_u32; lia).
  destruct (IH (p + 4)) as (ws & E & Hw & Hf).
  { split; [lia|]. intros i Hi. replace (p + 4 + Z.of_nat i) with (p + Z.of_nat (4 + i)) by lia. apply Hm'. lia. }
  erewrite st_bind_ok by done. exists (le_word bs :: ws). split_and!; [done|cbn; by rewrite Hw|].
  constructor; [|done]. pose proof (le_word_range bs Hby) as Hrange. rewrite Hl in Hrange. exact Hrange.
Qed.

(** The pages that a pool of [n] pages uses for its bitmap. *)
Definition map_pages (n : Z) : Z := (8 + 4 * ((n + 31) / 32) + 4095) / 4096.

Lemma init_pool_ok user b n s :
  bytes_ok (ram s) → b `mod` 4096 = 0 → 0 < n ≤ 2^20 → mapped (ram s) b (page_bytes n) →
  ∃ bm, init_pool user b n s = Ok ((), set_pool user (Pool bm (b + 4096 * map_pages n)) s) ∧
    pool_ok (Pool bm (b + 4096 * map_pages n)) (ram s) ∧ bit_cnt bm = n - map_pages n ∧
    all_bits bm 0 (n - map_pages n) false ∧ 1 ≤ map_pages n ≤ n.
Proof.
  intros Hby Hb Hn Hm. pose proof Hm as [Hr Hm']. unfold page_bytes in Hr, Hm'.
  assert (Hmp : 1 ≤ map_pages n ≤ n) by (unfold map_pages; dlia).
  assert (Edr : DIV_ROUND_UP (bitmap_buf_size n) PGSIZE = map_pages n).
  { unfold DIV_ROUND_UP, bitmap_buf_size. rewrite byte_cnt_eq by lia. change PGSIZE with 4096.
    rewrite (u32_id (8 + _)) by (unfold in_u32; dlia). rewrite (u32_id (_ + 4096)), u32_id by (unfold in_u32; dlia). unfold map_pages. f_equal. lia. }
  unfold init_pool. rewrite Edr, decide_False by lia. set (k := n - map_pages n) in *.
  assert (Ek : elem_cnt k = (k + 31) / 32) by (apply elem_cnt_eq; lia).
  assert (Hk : 8 + 4 * ((k + 31) / 32) ≤ 4096 * map_pages n) by (unfold k, map_pages; dlia).
  rewrite (u32_id (b + 8)) by (unfold in_u32; lia).
  destruct (load_words_ok (Z.to_nat (elem_cnt k)) (b + 8) (ram s) Hby) as (ws & Ews & Hl & Hws).
  { rewrite Ek. split; [dlia|]. intros i Hi.
    replace (b + 8 + Z.of_nat i) with (b + Z.of_nat (8 + i)) by lia. apply Hm'. dlia. }
  erewrite st_bind_ok by (apply on_ram_ok; exact Ews).
  assert (Hwf : wf (Bitmap k ws)) by (split; cbn; [lia|rewrite Hl; lia|done]).
  destruct (bitmap_set_multiple_ok (Bitmap k ws) 0 k false Hwf) as (bm & Ebm & Hw & Hc & Hbits); [lia|lia|cbn; lia|].
  assert (Ecr : bitmap_create_in_buf k ws (u32 (map_pages n * PGSIZE)) = Ok bm).
  { unfold bitmap_create_in_buf, bitmap_buf_size. rewrite byte_cnt_eq by lia. change PGSIZE with 4096.
    rewrite !u32_id by (unfold in_u32; dlia). rewrite bool_decide_true by lia. exact Ebm. }
  erewrite st_bind_ok by (apply st_res_ok; exact Ecr). change PGSIZE with 4096.
  rewrite (Z.mul_comm (map_pages n)), u32_id by (unfold in_u32; lia).
  exists bm. split_and!; [by destruct s| |done| |lia..].
  - split; cbn [used_map base]; [done|dlia|]. rewrite Hc. cbn [bit_cnt]. split; [unfold page_bytes; lia|]. intros i Hi.
    replace (b + 4096 * map_pages n + Z.of_nat i) with (b + Z.of_nat (Z.to_nat (4096 * map_pages n) + i)) by lia.
    apply Hm'. unfold page_bytes in Hi. lia.
  - intros j Hj. rewrite Hbits by lia. by rewrite decide_True by lia.
Qed.

(** The pages of the user pool. *)
Definition user_share (ram_pages limit : Z) : Z := Z.min limit ((ram_pages - 256) / 2).

Lemma palloc_init_ok n limit s :
  bytes_ok (ram s) → 258 ≤ n < 2^18 → 0 < limit < 2^32 → mapped (ram s) 3222274048 (page_bytes (n - 256)) →
  let u := user_share n limit in
  let k := n - 256 - u in
  ∃ s', palloc_init n limit s = Ok ((), s') ∧ pages_ok s' ∧ ram s' = ram s ∧
    bit_cnt (used_map (kernel_pool s')) = k - map_pages k ∧ bit_cnt (used_map (user_pool s')) = u - map_pages u ∧
    all_bits (used_map (kernel_pool s')) 0 (k - map_pages k) false ∧
    all_bits (used_map (user_pool s')) 0 (u - map_pages u) false.
Proof.
  intros Hby Hn Hl Hm u k. pose proof Hm as [Hr Hm']. unfold page_bytes in Hr, Hm'.
  assert (Hu : 0 < u ≤ n - 256 - u) by (unfold u, user_share; dlia). unfold palloc_init.
  assert (E1 : ptov (1024 * 1024) = Ok 3222274048) by done.
  assert (E2 : ptov (u32 (n * PGSIZE)) = Ok (3221225472 + n * 4096)).
  { unfold ptov, PHYS_BASE. change PGSIZE with 4096. rewrite (u32_id (n * 4096)) by (unfold in_u32; lia).
    rewrite bool_decide_true by lia. cbn. rewrite u32_id by (unfold in_u32; lia). f_equal. lia. }
  erewrite st_bind_ok by (apply st_res_ok; exact E1). erewrite st_bind_ok by (apply st_res_ok; exact E2).
  change PGSIZE with 4096.
  replace ((3221225472 + n * 4096 - 3222274048) / 4096) with (n - 256) by dlia.
  replace (if decide _ then _ else _) with u by (unfold u, user_share; case_decide; lia). fold k.
  assert (Hsub : ∀ i c, 0 ≤ i → 0 ≤ c → i + c ≤ n - 256 → mapped (ram s) (3222274048 + 4096 * i) (page_bytes c)).
  { intros i c Hi Hc Hic. unfold page_bytes. split; [lia|]. intros j Hj.
    replace (3222274048 + 4096 * i + Z.of_nat j) with (3222274048 + Z.of_nat (Z.to_nat (4096 * i) + j)) by lia.
    apply Hm'. lia. }
  destruct (init_pool_ok false 3222274048 k s Hby) as (b1 & Ea & Hp1 & Hc1 & Hf1 & Hk1); [done|lia| |].
  { rewrite <- (Z.add_0_r 3222274048). apply (Hsub 0 k); lia. }
  erewrite st_bind_ok by exact Ea. set (s1 := set_pool false _ s).
  rewrite (Z.mul_comm k), u32_id by (unfold in_u32; lia).
  destruct (init_pool_ok true (3222274048 + 4096 * k) u s1 Hby) as (b2 & Eb & Hp2 & Hc2 & Hf2 & Hk2); [dlia|lia|apply Hsub; lia|].
  rewrite Eb. eexists. split; [done|]. split_and!; try done. split; cbn [kernel_pool user_pool s1 set_pool ram base used_map];
    [done|done|lia].
Qed.
