(* ===== verification/Malloc.v ===== *)
(** * threads/malloc.c: the block allocator

    The state is the page allocator's, the descriptors with their free lists,
    and the arena headers by page address.  A header exists from the moment
    malloc writes it until the page allocator overwrites the freed page; a page
    without one fails the test of its magic number.  Blocks on a free list are
    their addresses, in the order of the list (ListSpec.v).  A descriptor's
    lock makes an operation on its free list atomic and is not part of the
    state. *)

From S2P Require Import Prelude Bitmap Memory CString Vaddr Palloc.

Local Open Scope Z_scope.

Record desc := Desc { block_size : Z; blocks_per_arena : Z; free_list : list Z }.

(** [desc] is the index of the owning descriptor, [None] for a big block. *)
Record arena := Arena { owner : option nat; free_cnt : Z }.

Record heap := Heap { mpages : pages; descs : list desc; arenas : gmap Z arena }.

Abbreviation HM := (ST heap).

(** sizeof (struct arena). *)
Definition ARENA_SIZE : Z := 12.

Definition on_pages {A} (c : PM A) : HM A := λ h,
  match c (mpages h) with
  | Ok (a, p) => Ok (a, Heap p (descs h) (arenas h))
  | Err e => Err e
  end.

Definition get_desc (d : nat) : HM desc := h ← st_get; st_opt EFault (descs h !! d).
Definition put_desc (d : nat) (x : desc) : HM () :=
  _ ← get_desc d; st_modify (λ h, Heap (mpages h) (<[d := x]> (descs h)) (arenas h)).
Definition set_free_list (d : nat) (fl : list Z) : HM () :=
  x ← get_desc d; put_desc d (Desc (block_size x) (blocks_per_arena x) fl).
(** The header of the arena at [a], after the test of its magic number. *)
Definition get_arena (a : Z) : HM arena := h ← st_get; st_opt EPanic (arenas h !! a).
Definition put_arena (a : Z) (x : arena) : HM () :=
  st_modify (λ h, Heap (mpages h) (descs h) (<[a := x]> (arenas h))).
(** The page allocator has overwritten the header. *)
Definition drop_arena (a : Z) : HM () :=
  st_modify (λ h, Heap (mpages h) (descs h) (delete a (arenas h))).

(** [for (block_size = 16; block_size < PGSIZE / 2; block_size *= 2)]. *)
Fixpoint init_loop (fuel : nat) (block_size : Z) (ds : list desc) : res (list desc) :=
  match fuel with
  | O => Err EFuel
  | S fuel =>
      if decide (block_size < PGSIZE / 2) then
        let ds := ds ++ [Desc block_size ((PGSIZE - ARENA_SIZE) / block_size) []] in
        _ ← assert (bool_decide (length ds ≤ 10)%nat);
        init_loop fuel (block_size * 2) ds
      else mret ds
  end.

Definition malloc_init : HM () :=
  ds ← st_res (init_loop 32 16 []); st_modify (λ h, Heap (mpages h) ds (arenas h)).

Definition block_to_arena (b : Z) : HM Z :=
  let a := pg_round_down b in
  ASSERT (bool_decide (a ≠ NULL));;
  x ← get_arena a;
  (match owner x with
   | Some d =>
       y ← get_desc d;
       ASSERT (bool_decide (u32 (pg_ofs b - ARENA_SIZE) `mod` block_size y = 0))
   | None => ASSERT (bool_decide (pg_ofs b = ARENA_SIZE))
   end);;
  mret a.

Definition arena_to_block (a idx : Z) : HM Z :=
  ASSERT (bool_decide (a ≠ NULL));;
  x ← get_arena a;
  d ← st_opt EFault (owner x);
  y ← get_desc d;
  ASSERT (bool_decide (idx < blocks_per_arena y));;
  mret (u32 (a + ARENA_SIZE + idx * block_size y)).

(** The smallest descriptor for [size] bytes. *)
Fixpoint find_desc (ds : list desc) (size : Z) (d : nat) : option nat :=
  match ds with
  | [] => None
  | x :: ds => if decide (size ≤ block_size x) then Some d else find_desc ds size (S d)
  end.

(** The blocks of a new arena to the end of the free list. *)
Fixpoint add_loop (n : nat) (a : Z) (d : nat) (i : Z) : HM () :=
  match n with
  | O => mret tt
  | S n =>
      b ← arena_to_block a i;
      x ← get_desc d;
      set_free_list d (free_list x ++ [b]);;
      add_loop n a d (i + 1)
  end.

Definition malloc_big (size : Z) : HM Z :=
  let page_cnt := DIV_ROUND_UP (u32 (size + ARENA_SIZE)) PGSIZE in
  a ← on_pages (palloc_get_multiple 0 page_cnt);
  if decide (a = NULL) then mret NULL else
  put_arena a (Arena None page_cnt);;
  mret (u32 (a + ARENA_SIZE)).

(** A new arena for an empty free list; [false] if there is no page. *)
Definition new_arena (d : nat) : HM bool :=
  x ← get_desc d;
  match free_list x with
  | [] =>
      a ← on_pages (palloc_get_page 0);
      if decide (a = NULL) then mret false else
      put_arena a (Arena (Some d) (blocks_per_arena x));;
      add_loop (Z.to_nat (blocks_per_arena x)) a d 0;;
      mret true
  | _ => mret true
  end.

Definition malloc (size : Z) : HM Z :=
  if decide (size = 0) then mret NULL else
  h ← st_get;
  match find_desc (descs h) size 0 with
  | None => malloc_big size
  | Some d =>
      ok ← new_arena d;
      if (ok : bool) then
        x ← get_desc d;
        match free_list x with
        | [] => st_fail EPanic
        | b :: fl =>
            set_free_list d fl;;
            a ← block_to_arena b;
            y ← get_arena a;
            put_arena a (Arena (owner y) (u32 (free_cnt y - 1)));;
            mret b
        end
      else mret NULL
  end.

Definition calloc (a b : Z) : HM Z :=
  let size := u32 (a * b) in
  if decide (size < a ∨ size < b) then mret NULL else
  p ← malloc size;
  (if decide (p ≠ NULL) then _ ← on_pages (on_ram (memset p 0 size)); mret tt else mret tt);;
  mret p.

Definition size_of_block (block : Z) : HM Z :=
  a ← block_to_arena block;
  x ← get_arena a;
  match owner x with
  | Some d => y ← get_desc d; mret (block_size y)
  | None => mret (u32 (PGSIZE * free_cnt x - pg_ofs block))
  end.

(** list_remove of a block from the free list. *)
Definition unlist (d : nat) (b : Z) : HM () :=
  x ← get_desc d;
  if decide (b ∈ free_list x) then set_free_list d (filter (.≠ b) (free_list x)) else st_fail EFault.

Fixpoint remove_loop (n : nat) (a : Z) (d : nat) (i : Z) : HM () :=
  match n with
  | O => mret tt
  | S n => b ← arena_to_block a i; unlist d b;; remove_loop n a d (i + 1)
  end.

Definition free_small (p a : Z) (d : nat) : HM () :=
  x ← get_desc d;
  _ ← on_pages (on_ram (memset p 204 (block_size x)));
  set_free_list d (p :: free_list x);;
  y ← get_arena a;
  let free_cnt := u32 (free_cnt y + 1) in
  put_arena a (Arena (owner y) free_cnt);;
  if decide (blocks_per_arena x ≤ free_cnt) then
    ASSERT (bool_decide (free_cnt = blocks_per_arena x));;
    remove_loop (Z.to_nat (blocks_per_arena x)) a d 0;;
    on_pages (palloc_free_page a);; drop_arena a
  else mret tt.

Definition free (p : Z) : HM () :=
  if decide (p = NULL) then mret tt else
  a ← block_to_arena p;
  y ← get_arena a;
  match owner y with
  | Some d => free_small p a d
  | None => on_pages (palloc_free_multiple a (free_cnt y));; drop_arena a
  end.

Definition realloc (old_block new_size : Z) : HM Z :=
  if decide (new_size = 0) then free old_block;; mret NULL
  else
    new_block ← malloc new_size;
    (if decide (old_block ≠ NULL ∧ new_block ≠ NULL) then
      old_size ← size_of_block old_block;
      let min_size := if decide (new_size < old_size) then new_size else old_size in
      _ ← on_pages (on_ram (memcpy new_block old_block min_size));
      free old_block
    else mret tt);;
    mret new_block.
