(* ===== verification/MallocSpec.v ===== *)
(** * The block allocator hands out disjoint blocks

    The invariant of malloc.c: what the free lists, the arena headers and the
    page allocator's bitmap say about each other, the set of blocks in use, and
    that malloc and free preserve the invariant and add or remove exactly one
    block. *)

From S2P Require Import Prelude Bitmap Memory CString Vaddr Palloc Malloc.

Local Open Scope Z_scope.

(** ** Geometry of arenas *)

(** The block size and the blocks per arena of descriptor [d]. *)
Definition bsz (d : nat) : Z := 16 * 2 ^ Z.of_nat d.
Definition bpa (d : nat) : Z := 4084 / bsz d.

Definition blk (a : Z) (d : nat) (i : Z) : Z := a + 12 + i * bsz d.
Definition page_of (b : Z) : Z := b - b `mod` 4096.
Definition arena_blocks (a : Z) (d : nat) : list Z := blk a d <$> seqZ 0 (bpa d).

Lemma bsz_bounds d : (d < 7)%nat → 16 ≤ bsz d ≤ 1024 ∧ 3 ≤ bpa d ≤ 255 ∧ bpa d * bsz d ≤ 4084.
Proof. intros H. unfold bpa, bsz. do 7 (destruct d as [|d]; [vm_compute; split_and!; congruence|]). lia. Qed.

Lemma blk_range a d i :
  (d < 7)%nat → 0 ≤ i < bpa d → a + 12 ≤ blk a d i ∧ blk a d i + bsz d ≤ a + 4096.
Proof. intros Hd Hi. pose proof (bsz_bounds d Hd). unfold blk. nia. Qed.

Lemma page_of_blk a d i : (d < 7)%nat → 0 ≤ i < bpa d → a `mod` 4096 = 0 → page_of (blk a d i) = a.
Proof.
  intros Hd Hi Ha. pose proof (blk_range a d i Hd Hi). pose proof (bsz_bounds d Hd). unfold page_of.
  assert ((blk a d i) `mod` 4096 = blk a d i - a); [|lia].
  symmetry. apply Z.mod_unique with (a / 4096); [lia|]. dlia.
Qed.

Lemma page_of_big a : a `mod` 4096 = 0 → page_of (a + 12) = a.
Proof.
  intros Ha. unfold page_of. assert ((a + 12) `mod` 4096 = 12); [|lia].
  symmetry. apply Z.mod_unique with (a / 4096); dlia.
Qed.

Lemma blk_inj a d i j : (d < 7)%nat → blk a d i = blk a d j → i = j.
Proof. intros Hd. pose proof (bsz_bounds d Hd). unfold blk. nia. Qed.

Lemma blk_apart a d i j :
  (d < 7)%nat → i ≠ j → blk a d i + bsz d ≤ blk a d j ∨ blk a d j + bsz d ≤ blk a d i.
Proof. intros Hd Hne. pose proof (bsz_bounds d Hd) as [Hb _]. unfold blk. clear - Hb Hne. nia. Qed.

Lemma arena_blocks_nodup a d : (d < 7)%nat → NoDup (arena_blocks a d).
Proof. intros Hd. apply NoDup_fmap_2; [|apply NoDup_seqZ]. intros i j. by apply blk_inj. Qed.

Lemma elem_of_arena_blocks a d b : b ∈ arena_blocks a d ↔ ∃ i, 0 ≤ i < bpa d ∧ b = blk a d i.
Proof.
  unfold arena_blocks. rewrite list_elem_of_fmap. setoid_rewrite elem_of_seqZ. split.
  - intros (i & -> & Hi). exists i. split; [lia|done].
  - intros (i & Hi & ->). exists i. split; [done|lia].
Qed.

Lemma arena_blocks_length a d : (d < 7)%nat → Z.of_nat (length (arena_blocks a d)) = bpa d.
Proof. intros Hd. pose proof (bsz_bounds d Hd). unfold arena_blocks. rewrite length_fmap, length_seqZ. lia. Qed.

(** ** The invariant *)

(** The number of pages of an arena. *)
Definition npages (x : arena) : Z := match owner x with Some _ => 1 | None => free_cnt x end.

(** The free blocks of the arena at [a]. *)
Definition free_in (a : Z) (fl : list Z) : list Z := filter (λ b, page_of b = a) fl.

(** The pages of the arena at [a] are pages in use of the kernel pool. *)
Definition placed (p : pool) (a n : Z) : Prop :=
  ∃ i, a = base p + 4096 * i ∧ 0 ≤ i ∧ 0 < n ∧ i + n ≤ bit_cnt (used_map p) ∧ all_bits (used_map p) i n true.

Record list_ok (h : heap) (d : nat) (x : desc) : Prop := {
  lo_size : block_size x = bsz d ∧ blocks_per_arena x = bpa d;
  lo_nodup : NoDup (free_list x);
  lo_blocks : ∀ b, b ∈ free_list x →
    ∃ fc i, arenas h !! page_of b = Some (Arena (Some d) fc) ∧ 0 ≤ i < bpa d ∧ b = blk (page_of b) d i;
}.

(** [ex] is an arena all of whose blocks may be free, as during malloc and free. *)
Record arena_ok (ex : option Z) (h : heap) (a : Z) (y : arena) : Prop := {
  ao_placed : placed (kernel_pool (mpages h)) a (npages y);
  ao_owner : ∀ d, owner y = Some d →
    ∃ x, descs h !! d = Some x ∧ free_cnt y = Z.of_nat (length (free_in a (free_list x))) ∧
      free_cnt y ≤ bpa d ∧ (free_cnt y < bpa d ∨ ex = Some a);
}.

Record heap_inv (ex : option Z) (h : heap) : Prop := {
  hp_pages : pages_ok (mpages h);
  hp_descs : length (descs h) = 7%nat;
  hp_lists : ∀ d x, descs h !! d = Some x → list_ok h d x;
  hp_arenas : ∀ a y, arenas h !! a = Some y → arena_ok ex h a y;
  hp_apart : ∀ a y a' y', arenas h !! a = Some y → arenas h !! a' = Some y' → a < a' → a + 4096 * npages y ≤ a';
}.
Abbreviation heap_ok := (heap_inv None).

Definition free_blocks (h : heap) (d : nat) : list Z :=
  match descs h !! d with Some x => free_list x | None => [] end.

(** [p] is a block in use of [n] bytes: a block of a small arena that is not on
    the free list, or the block behind the header of a big one. *)
Definition live (h : heap) (p n : Z) : Prop :=
  match arenas h !! page_of p with
  | Some (Arena (Some d) _) =>
      n = bsz d ∧ (∃ i, 0 ≤ i < bpa d ∧ p = blk (page_of p) d i) ∧ p ∉ free_blocks h d
  | Some (Arena None k) => n = 4096 * k - 12 ∧ p = page_of p + 12
  | None => False
  end.

Lemma desc_index ex h d x : heap_inv ex h → descs h !! d = Some x → (d < 7)%nat.
Proof. intros Hh E. rewrite <- (hp_descs _ _ Hh). by eapply lookup_lt_Some. Qed.

Lemma arena_desc ex h a y d : heap_inv ex h → arenas h !! a = Some y → owner y = Some d → (d < 7)%nat.
Proof.
  intros Hh Ea Ed. destruct (ao_owner _ _ _ _ (hp_arenas _ _ Hh a y Ea) d Ed) as (x & Ex & _). by eapply desc_index.
Qed.

Lemma arena_addr ex h a y :
  heap_inv ex h → arenas h !! a = Some y → a `mod` 4096 = 0 ∧ 0 < a ∧ a + 4096 * npages y < 2^32 ∧ 0 < npages y ∧
    mapped (ram (mpages h)) a (page_bytes (npages y)).
Proof.
  intros Hh Ea. destruct (hp_arenas _ _ Hh a y Ea) as [(i & -> & Hi & Hn & Hr & _) _].
  destruct (hp_pages _ _ Hh) as [Hk _ _].
  destruct (pages_mapped _ _ i (npages y) Hk Hi ltac:(lia) Hr) as (Hm & _ & H0 & H1).
  destruct Hk as [_ Hb _]. split_and!; [dlia|lia|lia|lia|done].
Qed.

(** Where a live block is: inside the pages of its arena, behind the header. *)
Lemma live_inside ex h p n :
  heap_inv ex h → live h p n →
  ∃ y, arenas h !! page_of p = Some y ∧ page_of p + 12 ≤ p ∧ p + n ≤ page_of p + 4096 * npages y ∧ 0 < n.
Proof.
  intros Hh Hl. unfold live in Hl. destruct (arenas h !! page_of p) as [[[d|] k]|] eqn:Ea; [| |done].
  - destruct Hl as (-> & (i & Hi & Ep) & _). pose proof (arena_desc _ _ _ _ d Hh Ea eq_refl) as Hd.
    pose proof (blk_range (page_of p) d i Hd Hi). pose proof (bsz_bounds d Hd). rewrite <- Ep in *.
    eexists. split; [done|]. cbn [npages owner]. lia.
  - destruct Hl as (-> & Ep). destruct (arena_addr _ _ _ _ Hh Ea) as (_ & _ & _ & Hn & _).
    eexists. split; [done|]. cbn [npages owner free_cnt] in *. lia.
Qed.

Lemma live_size h p n n' : live h p n → live h p n' → n = n'.
Proof. unfold live. destruct (arenas h !! page_of p) as [[[d|] k]|]; naive_solver. Qed.

(** Two blocks in use do not overlap. *)
Lemma live_disjoint ex h p n q k :
  heap_inv ex h → live h p n → live h q k → p ≠ q → p + n ≤ q ∨ q + k ≤ p.
Proof.
  intros Hh Hp Hq Hne. destruct (live_inside ex h p n Hh Hp) as (y & Ea & Hp1 & Hp2 & _).
  destruct (live_inside ex h q k Hh Hq) as (y' & Ea' & Hq1 & Hq2 & _).
  destruct (Z.lt_trichotomy (page_of p) (page_of q)) as [Hlt|[Heq|Hlt]].
  - pose proof (hp_apart _ _ Hh _ _ _ _ Ea Ea' Hlt). lia.
  - unfold live in Hp, Hq. rewrite Heq in *. rewrite Ea in *. destruct y as [[d|] fc].
    + destruct Hp as (-> & (i & Hi & Epi) & _), Hq as (-> & (j & Hj & Eqj) & _).
      pose proof (arena_desc _ _ _ _ d Hh Ea eq_refl) as Hd. set (r := page_of q) in *. clearbody r. subst p q.
      apply blk_apart; [done|congruence].
    + exfalso. destruct Hp, Hq. congruence.
  - pose proof (hp_apart _ _ Hh _ _ _ _ Ea' Ea Hlt). lia.
Qed.

(** ** Changes of a free list and its arena's count *)

Definition upd (h : heap) (d : nat) (fl : list Z) (a fc : Z) : heap :=
  Heap (mpages h) (<[d := Desc (bsz d) (bpa d) fl]> (descs h)) (<[a := Arena (Some d) fc]> (arenas h)).

Lemma free_in_nil a fl : (∀ b, b ∈ fl → page_of b ≠ a) → free_in a fl = [].
Proof. intros H. apply filter_none, Forall_forall. auto. Qed.

Lemma upd_inv ex ex' h d x fl a fc fc' :
  heap_inv ex h → descs h !! d = Some x → arenas h !! a = Some (Arena (Some d) fc) →
  NoDup fl → (∀ b, b ∈ fl → b ∈ free_list x ∨ b ∈ arena_blocks a d) →
  (∀ a', a' ≠ a → free_in a' fl = free_in a' (free_list x)) →
  fc' = Z.of_nat (length (free_in a fl)) → fc' ≤ bpa d → fc' < bpa d ∨ ex' = Some a →
  (∀ e, ex = Some e → e = a) →
  heap_inv ex' (upd h d fl a fc').
Proof.
  intros Hh Ex Ea Hnd Hin Hother Hfc Hle Hlt Hex. pose proof (desc_index _ _ _ _ Hh Ex) as Hd.
  destruct (arena_addr _ _ _ _ Hh Ea) as (Hal & _).
  assert (Hlook : ∀ d', <[d := Desc (bsz d) (bpa d) fl]> (descs h) !! d' =
    if decide (d' = d) then Some (Desc (bsz d) (bpa d) fl) else descs h !! d').
  { intros d'. case_decide as E; [subst d'; apply list_lookup_insert_eq; by rewrite (hp_descs _ _ Hh)|].
    by apply list_lookup_insert_ne. }
  assert (Hsame : ∀ b d' fc2 i, arenas h !! page_of b = Some (Arena (Some d') fc2) → 0 ≤ i < bpa d' →
    b = blk (page_of b) d' i → ∃ fc3 i, <[a := Arena (Some d) fc']> (arenas h) !! page_of b = Some (Arena (Some d') fc3) ∧
      0 ≤ i < bpa d' ∧ b = blk (page_of b) d' i).
  { intros b d' fc2 i E Hi Eb. destruct (decide (page_of b = a)) as [Ep|Ep].
    - rewrite Ep, Ea in E. injection E as <- <-. exists fc', i. rewrite Ep at 1. by rewrite lookup_insert_eq.
    - exists fc2, i. by rewrite lookup_insert_ne by congruence. }
  split; cbn [upd mpages descs arenas].
  - apply Hh.
  - rewrite length_insert. apply Hh.
  - intros d' x' E'. rewrite Hlook in E'. case_decide as Ed.
    + subst d'. injection E' as <-. split; [done|done|]. cbn [upd arenas free_list]. intros b [Hb|Hb]%Hin.
      * destruct (lo_blocks _ _ _ (hp_lists _ _ Hh _ _ Ex) b Hb) as (fc2 & i & E & Hi & Eb). eauto.
      * apply elem_of_arena_blocks in Hb as (i & Hi & ->). rewrite page_of_blk by done.
        exists fc', i. by rewrite lookup_insert_eq.
    + destruct (hp_lists _ _ Hh _ _ E') as [Hs Hn Hb]. split; [done|done|]. intros b Hbin. cbn [upd arenas].
      destruct (Hb b Hbin) as (fc2 & i & E & Hi & Eb). eauto.
  - intros a' y' E'. destruct (decide (a' = a)) as [->|Hne].
    + rewrite lookup_insert_eq in E'. injection E' as <-. split; [apply (ao_placed _ _ _ _ (hp_arenas _ _ Hh _ _ Ea))|].
      cbn [owner free_cnt upd descs]. intros d' [= <-]. eexists. split; [by rewrite Hlook, decide_True|]. cbn [free_list]. auto.
    + rewrite lookup_insert_ne in E' by done. destruct (hp_arenas _ _ Hh _ _ E') as [Hp Ho]. split; [done|].
      cbn [upd descs]. intros d' Ed'. destruct (Ho d' Ed') as (x' & Ex' & Hc & Hle' & Hlt'). rewrite Hlook.
      case_decide as Ed; [subst d'; assert (x' = x) as -> by congruence|]; eexists; (split; [done|]); cbn [free_list];
        rewrite ?Hother by done; (split; [done|]); (split; [done|]);
        (destruct Hlt' as [|Hxe]; [by left|]); by destruct (Hne (Hex _ Hxe)).
  - assert (Hnp : ∀ a1 y1, <[a := Arena (Some d) fc']> (arenas h) !! a1 = Some y1 →
      ∃ y2, arenas h !! a1 = Some y2 ∧ npages y2 = npages y1).
    { intros a1 y1 E1. destruct (decide (a1 = a)) as [->|Hne].
      - rewrite lookup_insert_eq in E1. injection E1 as <-. eauto.
      - rewrite lookup_insert_ne in E1 by done. eauto. }
    intros a1 y1 a2 y2 (z1 & E1 & <-)%Hnp (z2 & E2 & _)%Hnp Hlt12. by eapply (hp_apart _ _ Hh a1 z1 a2 z2).
Qed.

(** Blocks outside the arena stay as they were; in the arena the free list
    decides. *)
Lemma upd_live ex h d x fl a fc fc' p n :
  heap_inv ex h → descs h !! d = Some x → arenas h !! a = Some (Arena (Some d) fc) →
  (∀ b, page_of b ≠ a → b ∈ fl ↔ b ∈ free_list x) →
  live (upd h d fl a fc') p n ↔
    if decide (page_of p = a) then n = bsz d ∧ p ∈ arena_blocks a d ∧ p ∉ fl else live h p n.
Proof.
  intros Hh Ex Ea Hother. unfold live. cbn [upd arenas].
  assert (Hfb : ∀ d', free_blocks (upd h d fl a fc') d' = if decide (d' = d) then fl else free_blocks h d').
  { intros d'. unfold free_blocks. cbn [upd descs]. case_decide as E; [|by rewrite list_lookup_insert_ne].
    subst d'. rewrite list_lookup_insert_eq; [done|]. by eapply lookup_lt_Some. }
  destruct (decide (page_of p = a)) as [Ep|Ep].
  - rewrite Ep, lookup_insert_eq, Hfb, decide_True, elem_of_arena_blocks by done. done.
  - rewrite lookup_insert_ne by congruence. destruct (arenas h !! page_of p) as [[[d'|] k]|]; [|done|done].
    rewrite Hfb. case_decide as Ed; [|done]. subst d'. rewrite Hother by done. unfold free_blocks. by rewrite Ex.
Qed.

(** Every block of an arena is live or free. *)
Lemma live_in_arena ex h d x a fc p n :
  heap_inv ex h → descs h !! d = Some x → arenas h !! a = Some (Arena (Some d) fc) → page_of p = a →
  live h p n ↔ n = bsz d ∧ p ∈ arena_blocks a d ∧ p ∉ free_list x.
Proof.
  intros Hh Ex Ea Ep. unfold live. rewrite Ep, Ea, elem_of_arena_blocks. unfold free_blocks. by rewrite Ex.
Qed.

(** The first block of a free list is taken. *)
Lemma take_block ex h d x b fl :
  heap_inv ex h → descs h !! d = Some x → free_list x = b :: fl → (∀ e, ex = Some e → e = page_of b) →
  ∃ fc, arenas h !! page_of b = Some (Arena (Some d) fc) ∧ 0 < fc ≤ bpa d ∧ b ∈ arena_blocks (page_of b) d ∧
    heap_ok (upd h d fl (page_of b) (fc - 1)) ∧ (∀ n, ¬ live h b n) ∧
    ∀ p n, live (upd h d fl (page_of b) (fc - 1)) p n ↔ live h p n ∨ p = b ∧ n = bsz d.
Proof.
  intros Hh Ex Efl Hex. destruct (hp_lists _ _ Hh _ _ Ex) as [_ Hnd Hb]. rewrite Efl in Hnd, Hb.
  apply NoDup_cons in Hnd as [Hbfl Hnd].
  destruct (Hb b) as (fc & i & Ea & Hi & Eb); [apply elem_of_cons; by left|]. set (a := page_of b) in *.
  destruct (ao_owner _ _ _ _ (hp_arenas _ _ Hh _ _ Ea) d eq_refl) as (x' & Ex' & Hfc & Hle & _).
  assert (x' = x) as -> by congruence. cbn [free_cnt] in *. rewrite Efl in Hfc.
  assert (Hin : b ∈ arena_blocks a d) by (apply elem_of_arena_blocks; eauto).
  assert (Ecount : free_in a (b :: fl) = b :: free_in a fl) by (unfold free_in; by rewrite filter_cons_True).
  rewrite Ecount in Hfc. cbn [length] in Hfc. exists fc. split_and!; [done|lia|lia|done| | |].
  - eapply (upd_inv ex None); try done; try lia.
    + intros b' Hb'. left. rewrite Efl. apply elem_of_cons. by right.
    + intros a' Ha'. rewrite Efl. unfold free_in. by rewrite filter_cons_False by (fold a; congruence).
  - intros n. rewrite (live_in_arena ex h d x a fc) by done. rewrite Efl, elem_of_cons. tauto.
  - intros p n. rewrite (upd_live ex h d x) by (done || (intros b' Hb'; rewrite Efl, elem_of_cons; naive_solver)).
    case_decide as Ep; [|split; [by left|intros [?|[-> _]]; done]].
    rewrite (live_in_arena ex h d x a fc) by done. rewrite Efl, elem_of_cons.
    destruct (decide (p = b)) as [->|]; naive_solver.
Qed.

(** A live block is put on its free list. *)
Lemma give_block h d x a fc b n :
  heap_ok h → descs h !! d = Some x → arenas h !! a = Some (Arena (Some d) fc) → page_of b = a → live h b n →
  let h' := upd h d (b :: free_list x) a (fc + 1) in
  0 ≤ fc < bpa d ∧ heap_inv (Some a) h' ∧ (fc + 1 < bpa d → heap_ok h') ∧
  ∀ p k, live h' p k ↔ live h p k ∧ p ≠ b.
Proof.
  intros Hh Ex Ea Ep Hl h'. rewrite (live_in_arena None h d x a fc) in Hl by done. destruct Hl as (-> & Hb & Hnf).
  destruct (ao_owner _ _ _ _ (hp_arenas _ _ Hh _ _ Ea) d eq_refl) as (x' & Ex' & Hfc & Hle & Hlt).
  assert (x' = x) as -> by congruence. cbn [free_cnt] in *. destruct Hlt as [Hlt|]; [|done].
  assert (Ecount : free_in a (b :: free_list x) = b :: free_in a (free_list x)) by (unfold free_in; by rewrite filter_cons_True).
  assert (Hinv : ∀ ex', fc + 1 < bpa d ∨ ex' = Some a → heap_inv ex' h').
  { intros ex' Hex'. eapply (upd_inv None ex'); try done; try lia.
    - constructor; [done|]. apply (hp_lists _ _ Hh _ _ Ex).
    - intros b' [->|Hb']%elem_of_cons; [by right|by left].
    - intros a' Ha'. unfold free_in. by rewrite filter_cons_False by congruence.
    - rewrite Ecount. cbn [length]. lia. }
  split_and!; [lia|lia|by apply Hinv; right|by intros; apply Hinv; left|].
  intros p k. unfold h'. rewrite (upd_live None h d x) by (done || (intros b' Hb'; rewrite elem_of_cons; naive_solver)).
  case_decide as Ep'.
  - rewrite (live_in_arena None h d x a fc) by done. rewrite elem_of_cons. naive_solver.
  - split; [|tauto]. intros Hk. split; [done|]. congruence.
Qed.

(** ** New and freed arenas *)

(** Another bitmap for the kernel pool, with other arenas and contents of memory. *)
Definition with_map (h : heap) (b : bitmap) (m : mem) (ars : gmap Z arena) : heap :=
  Heap (Pages (Pool b (base (kernel_pool (mpages h)))) (user_pool (mpages h)) m) (descs h) ars.

Definition kbase (h : heap) : Z := base (kernel_pool (mpages h)).

Lemma pages_with_map h b m ars :
  pages_ok (mpages h) → wf b → bit_cnt b = bit_cnt (used_map (kernel_pool (mpages h))) →
  (∀ a, is_Some (ram (mpages h) !! a) → is_Some (m !! a)) → pages_ok (mpages (with_map h b m ars)).
Proof. intros Hp Hw Hc Hm. by apply (pages_ok_update false (mpages h) b m). Qed.

(** An arena is apart from pages that were free. *)
Lemma arena_apart ex h a y n i :
  heap_inv ex h → arenas h !! a = Some y → 0 < n → all_bits (used_map (kernel_pool (mpages h))) i n false →
  a + 4096 * npages y ≤ kbase h + 4096 * i ∨ kbase h + 4096 * (i + n) ≤ a.
Proof.
  intros Hh Ea Hn Hfree. destruct (hp_arenas _ _ Hh _ _ Ea) as [(j & -> & Hj & Hy & Hr & Hused) _]. fold (kbase h).
  destruct (decide (j + npages y ≤ i)); [left; lia|]. destruct (decide (i + n ≤ j)); [right; lia|]. exfalso.
  pose proof (Hfree (Z.max i j) ltac:(lia)). pose proof (Hused (Z.max i j) ltac:(lia)). congruence.
Qed.

Lemma placed_more p b a n :
  placed p a n → bit_cnt b = bit_cnt (used_map p) → (∀ j, 0 ≤ j → bit_at (used_map p) j = true → bit_at b j = true) →
  placed (Pool b (base p)) a n.
Proof.
  intros (i & -> & Hi & Hn & Hr & Hu) Hc Hb. exists i. cbn. rewrite Hc. split_and!; try done.
  intros j Hj. apply Hb; [lia|]. by apply Hu.
Qed.

Lemma block_page ex h d x b : heap_inv ex h → descs h !! d = Some x → b ∈ free_list x → is_Some (arenas h !! page_of b).
Proof. intros Hh Ex Hb. destruct (lo_blocks _ _ _ (hp_lists _ _ Hh _ _ Ex) b Hb) as (fc & i & -> & _). eauto. Qed.

Lemma add_arena h n i b y :
  heap_ok h → 0 < n → allocates false (mpages h) n i b → npages y = n →
  (∀ d, owner y = Some d → (d < 7)%nat ∧ free_cnt y = 0) →
  let a := kbase h + 4096 * i in
  heap_ok (with_map h b (ram (mpages h)) (<[a := y]> (arenas h))) ∧ arenas h !! a = None ∧
  ∀ p k, page_of p ≠ a → live (with_map h b (ram (mpages h)) (<[a := y]> (arenas h))) p k ↔ live h p k.
Proof.
  intros Hh Hn (Hi & Hfree & _ & Hw & Hc & Hbits) Hy Ho a. cbn [pool_of] in *.
  assert (Hnone : arenas h !! a = None).
  { destruct (arenas h !! a) as [y'|] eqn:E; [|done]. exfalso. destruct (arena_addr _ _ _ _ Hh E) as (_ & _ & _ & Hnp & _).
    destruct (arena_apart _ _ _ _ n i Hh E Hn Hfree); unfold a in *; lia. }
  split_and!; [|done|].
  - split; cbn [with_map mpages descs arenas].
    + apply (pages_with_map h b _ (arenas h)); [apply Hh|done..].
    + apply Hh.
    + intros d x Ex. destruct (hp_lists _ _ Hh _ _ Ex) as [Hs Hnd Hb]. split; [done|done|]. intros b' Hb'.
      destruct (Hb b' Hb') as (fc & j & E & Hj & Eb). exists fc, j. cbn [with_map arenas].
      rewrite lookup_insert_ne by congruence. done.
    + intros a' y' E'. destruct (decide (a' = a)) as [->|Hne].
      * rewrite lookup_insert_eq in E'. injection E' as <-. split.
        -- cbn. exists i. cbn. rewrite Hy, Hc. split_and!; try done; try lia.
           intros j Hj. rewrite Hbits by lia. by rewrite decide_True by lia.
        -- intros d Ed. destruct (Ho d Ed) as [Hd Hf]. cbn [with_map descs].
           destruct (lookup_lt_is_Some_2 (descs h) d) as [x Ex]; [by rewrite (hp_descs _ _ Hh)|]. exists x.
           rewrite (free_in_nil a (free_list x)), Hf; [pose proof (bsz_bounds d Hd); split_and!; [done|done|lia|left; lia]|].
           intros b' Hb' Ep. destruct (block_page _ _ _ _ _ Hh Ex Hb') as [z Ez]. congruence.
      * rewrite lookup_insert_ne in E' by done. destruct (hp_arenas _ _ Hh _ _ E') as [Hp Ho']. split; [|done].
        apply placed_more; [done|done|]. intros j Hj Hb. rewrite Hbits by done. by case_decide.
    + intros a1 y1 a2 y2 E1 E2 Hlt.
      destruct (decide (a1 = a)) as [->|H1], (decide (a2 = a)) as [->|H2]; try lia.
      * rewrite lookup_insert_eq in E1. injection E1 as <-. rewrite lookup_insert_ne in E2 by done.
        destruct (arena_apart _ _ _ _ n i Hh E2 Hn Hfree); [destruct (arena_addr _ _ _ _ Hh E2)|]; unfold a in *; lia.
      * rewrite lookup_insert_ne in E1 by done.
        destruct (arena_apart _ _ _ _ n i Hh E1 Hn Hfree); unfold a in *; lia.
      * rewrite lookup_insert_ne in E1, E2 by done. by eapply (hp_apart _ _ Hh).
  - intros p k Hp. unfold live, free_blocks. cbn [with_map arenas descs]. by rewrite lookup_insert_ne by congruence.
Qed.

Lemma remove_arena h a y n i b m :
  heap_ok h → arenas h !! a = Some y → a = kbase h + 4096 * i → npages y = n →
  (∀ d x, descs h !! d = Some x → free_in a (free_list x) = []) →
  releases false (mpages h) n i b → (∀ a, is_Some (ram (mpages h) !! a) → is_Some (m !! a)) →
  heap_ok (with_map h b m (delete a (arenas h))) ∧
  ∀ p k, live (with_map h b m (delete a (arenas h))) p k ↔ live h p k ∧ page_of p ≠ a.
Proof.
  intros Hh Ea Eai Hn Hempty (Hw & Hc & Hbits) Hm. cbn [pool_of] in *.
  assert (Hne : ∀ d x b', descs h !! d = Some x → b' ∈ free_list x → page_of b' ≠ a).
  { intros d x b' Ex Hb' Ep. assert (b' ∈ free_in a (free_list x)) as Hin by (by apply list_elem_of_filter).
    rewrite (Hempty d x Ex) in Hin. by apply elem_of_nil in Hin. }
  split.
  - split; cbn [with_map mpages descs arenas].
    + apply (pages_with_map h b m (arenas h)); [apply Hh|done..].
    + apply Hh.
    + intros d x Ex. destruct (hp_lists _ _ Hh _ _ Ex) as [Hs Hnd Hb]. split; [done|done|]. intros b' Hb'.
      destruct (Hb b' Hb') as (fc & j & E & Hj & Eb). exists fc, j. cbn [with_map arenas].
      rewrite lookup_delete_ne; [done|]. intros Ep. by eapply Hne.
    + intros a' y' E'. apply lookup_delete_Some in E' as [Haa' E'].
      destruct (hp_arenas _ _ Hh _ _ E') as [(j & Ej & Hj & Hy' & Hr & Hu) Ho]. split; [|done].
      exists j. cbn. rewrite Hc. split_and!; try done. intros k Hk. rewrite Hbits by lia. rewrite decide_False; [by apply Hu|].
      fold (kbase h) in Ej. intros Hik.
      destruct (Z.lt_trichotomy a a') as [Hlt|[?|Hlt]]; [|done|].
      * pose proof (hp_apart _ _ Hh _ _ _ _ Ea E' Hlt). lia.
      * pose proof (hp_apart _ _ Hh _ _ _ _ E' Ea Hlt). lia.
    + intros a1 y1 a2 y2 [_ E1]%lookup_delete_Some [_ E2]%lookup_delete_Some. by eapply (hp_apart _ _ Hh).
  - intros p k. unfold live, free_blocks. cbn [with_map arenas descs]. destruct (decide (page_of p = a)) as [->|Hp].
    + rewrite lookup_delete_eq. tauto.
    + rewrite lookup_delete_ne by done. tauto.
Qed.

(** ** The steps of malloc and free *)

(** What the steps rely on: the arena at [a] belongs to descriptor [d], whose
    free list is [fl]. *)
Record arena_at (h : heap) (a : Z) (d : nat) (fc : Z) (fl : list Z) : Prop := {
  aa_arena : arenas h !! a = Some (Arena (Some d) fc);
  aa_desc : descs h !! d = Some (Desc (bsz d) (bpa d) fl);
  aa_index : (d < 7)%nat;
  aa_addr : a `mod` 4096 = 0 ∧ 0 < a ∧ a + 4096 < 2^32;
}.

Definition set_fl (h : heap) (d : nat) (fl : list Z) : heap :=
  Heap (mpages h) (<[d := Desc (bsz d) (bpa d) fl]> (descs h)) (arenas h).

Lemma arena_at_set h a d fc fl fl' : arena_at h a d fc fl → arena_at (set_fl h d fl') a d fc fl'.
Proof. intros [Ha Hd Hi Hr]. split; cbn; try done. apply list_lookup_insert_eq. by eapply lookup_lt_Some. Qed.

Lemma set_fl_twice h d fl fl' : set_fl (set_fl h d fl) d fl' = set_fl h d fl'.
Proof. unfold set_fl. cbn. by rewrite list_insert_insert_eq. Qed.

Lemma get_desc_ok h d x : descs h !! d = Some x → get_desc d h = Ok (x, h).
Proof. intros E. unfold get_desc. st_simpl. by rewrite E. Qed.

Lemma get_arena_ok h a y : arenas h !! a = Some y → get_arena a h = Ok (y, h).
Proof. intros E. unfold get_arena. st_simpl. by rewrite E. Qed.

Lemma set_free_list_ok h d fl fl' :
  descs h !! d = Some (Desc (bsz d) (bpa d) fl) → set_free_list d fl' h = Ok ((), set_fl h d fl').
Proof.
  intros E. unfold set_free_list, put_desc. erewrite st_bind_ok by (by apply get_desc_ok).
  by erewrite st_bind_ok by (by apply get_desc_ok).
Qed.

Lemma on_pages_ok {A} (c : PM A) h v p :
  c (mpages h) = Ok (v, p) → on_pages c h = Ok (v, Heap p (descs h) (arenas h)).
Proof. intros E. unfold on_pages. by rewrite E. Qed.

Lemma page_round a b : a `mod` 4096 = 0 → 0 ≤ a → a ≤ b < a + 4096 → b < 2^32 → pg_round_down b = a ∧ pg_ofs b = b - a.
Proof.
  intros Ha H0 Hb Hlt. rewrite pg_round_down_eq, pg_ofs_mod by (unfold in_u32; lia).
  assert (b `mod` 4096 = b - a); [|lia]. symmetry. apply Z.mod_unique with (a / 4096); [lia|]. dlia.
Qed.

Lemma block_to_arena_small h a d fc fl i :
  arena_at h a d fc fl → 0 ≤ i < bpa d → block_to_arena (blk a d i) h = Ok (a, h).
Proof.
  intros [Ha Hd Hi (Hal & H0 & H1)] Hib. pose proof (blk_range a d i Hi Hib). pose proof (bsz_bounds d Hi).
  destruct (page_round a (blk a d i) Hal) as [Er Eo]; [lia..|]. unfold block_to_arena. rewrite Er, Eo.
  erewrite st_bind_ok by (apply assert_ok, bool_decide_eq_true; unfold NULL; lia).
  erewrite st_bind_ok by (by apply get_arena_ok). cbn [owner].
  erewrite st_bind_ok; [done|]. erewrite st_bind_ok by (by apply get_desc_ok). cbn [block_size]. unfold ARENA_SIZE.
  apply assert_ok, bool_decide_eq_true. unfold blk in *. rewrite u32_id by (unfold in_u32; lia).
  replace (a + 12 + i * bsz d - a - 12) with (i * bsz d) by lia. apply Z.mod_mul. lia.
Qed.

Lemma block_to_arena_big h a k :
  arenas h !! a = Some (Arena None k) → a `mod` 4096 = 0 → 0 < a → a + 4096 < 2^32 →
  block_to_arena (a + 12) h = Ok (a, h).
Proof.
  intros Ha Hal H0 H1. destruct (page_round a (a + 12) Hal) as [Er Eo]; [lia..|]. unfold block_to_arena. rewrite Er, Eo.
  erewrite st_bind_ok by (apply assert_ok, bool_decide_eq_true; unfold NULL; lia).
  erewrite st_bind_ok by (by apply get_arena_ok). cbn [owner]. erewrite st_bind_ok; [done|].
  apply assert_ok, bool_decide_eq_true. unfold ARENA_SIZE. lia.
Qed.

Lemma arena_to_block_ok h a d fc fl i :
  arena_at h a d fc fl → 0 ≤ i < bpa d → arena_to_block a i h = Ok (blk a d i, h).
Proof.
  intros [Ha Hd Hi (Hal & H0 & H1)] Hib. pose proof (blk_range a d i Hi Hib). pose proof (bsz_bounds d Hi).
  unfold arena_to_block. erewrite st_bind_ok by (apply assert_ok, bool_decide_eq_true; unfold NULL; lia).
  erewrite st_bind_ok by (by apply get_arena_ok). cbn [owner]. erewrite st_bind_ok by done.
  erewrite st_bind_ok by (by apply get_desc_ok). cbn [block_size blocks_per_arena].
  erewrite st_bind_ok by (apply assert_ok, bool_decide_eq_true; lia). unfold ARENA_SIZE. fold (blk a d i).
  by rewrite u32_id by (unfold in_u32; lia).
Qed.

Lemma add_loop_ok h a d fc fl n i :
  arena_at h a d fc fl → 0 ≤ i → i + Z.of_nat n ≤ bpa d →
  add_loop n a d i h = Ok ((), set_fl h d (fl ++ (blk a d <$> seqZ i (Z.of_nat n)))).
Proof.
  revert h fl i. induction n as [|n IH]; intros h fl i Ha Hi Hn; cbn [add_loop].
  - rewrite app_nil_r. unfold set_fl. rewrite list_insert_id by apply Ha. by destruct h.
  - erewrite st_bind_ok by (eapply arena_to_block_ok; [done|lia]).
    erewrite st_bind_ok by (apply get_desc_ok, Ha). cbn [free_list].
    erewrite st_bind_ok by (eapply set_free_list_ok, Ha).
    rewrite (IH _ (fl ++ [blk a d i])) by first [by eapply arena_at_set|lia]. rewrite set_fl_twice.
    rewrite <- app_assoc. cbn [app]. rewrite (seqZ_cons i (Z.of_nat (S n))) by lia. cbn [fmap list_fmap].
    by replace (Z.pred (Z.of_nat (S n))) with (Z.of_nat n) by lia.
Qed.

Lemma remove_loop_ok h a d fc fl n i :
  arena_at h a d fc fl → NoDup fl → 0 ≤ i → i + Z.of_nat n ≤ bpa d →
  (∀ j, i ≤ j < i + Z.of_nat n → blk a d j ∈ fl) →
  remove_loop n a d i h = Ok ((), set_fl h d (filter (.∉ (blk a d <$> seqZ i (Z.of_nat n))) fl)).
Proof.
  revert h fl i. induction n as [|n IH]; intros h fl i Ha Hnd Hi Hn Hin; cbn [remove_loop].
  - rewrite filter_all by (apply Forall_forall; intros x _ Hx; by apply elem_of_nil in Hx).
    unfold set_fl. rewrite list_insert_id by apply Ha. by destruct h.
  - erewrite st_bind_ok by (eapply arena_to_block_ok; [done|lia]). unfold unlist.
    erewrite st_bind_ok.
    2:{ erewrite st_bind_ok by (apply get_desc_ok, Ha). cbn [free_list].
        rewrite decide_True by (apply Hin; lia). eapply set_free_list_ok, Ha. }
    rewrite (IH _ (filter (.≠ blk a d i) fl)); [|by eapply arena_at_set|by apply NoDup_filter|lia|lia|].
    + rewrite set_fl_twice. do 3 f_equal. rewrite list_filter_filter. apply list_filter_iff. intros b.
      rewrite (seqZ_cons i (Z.of_nat (S n))) by lia. cbn [fmap list_fmap].
      replace (Z.pred (Z.of_nat (S n))) with (Z.of_nat n) by lia. rewrite elem_of_cons.
      replace (i + 1) with (Z.succ i) by lia. tauto.
    + intros j Hj. apply list_elem_of_filter. split; [|apply Hin; lia].
      intros E%blk_inj; [lia|apply Ha].
Qed.

(** ** malloc *)

Lemma find_desc_spec ds size k :
  match find_desc ds size k with
  | Some d => (k ≤ d)%nat ∧ ∃ x, ds !! (d - k)%nat = Some x ∧ size ≤ block_size x
  | None => Forall (λ x, block_size x < size) ds
  end.
Proof.
  revert k. induction ds as [|x ds IH]; intros k; cbn [find_desc]; [done|]. case_decide as Hs.
  - split; [done|]. exists x. by rewrite Nat.sub_diag.
  - specialize (IH (S k)). destruct (find_desc ds size (S k)) as [d|].
    + destruct IH as (Hk & y & Ey & Hy). split; [lia|]. exists y. split; [|done].
      by replace (d - k)%nat with (S (d - S k)) by lia.
    + constructor; [lia|done].
Qed.

Lemma desc_form ex h d x : heap_inv ex h → descs h !! d = Some x → x = Desc (bsz d) (bpa d) (free_list x).
Proof. intros Hh Ex. destruct (hp_lists _ _ Hh _ _ Ex) as [[Hs Hb] _ _]. destruct x. cbn in *. by subst. Qed.

Lemma heap_arena_at ex h a d fc fl :
  heap_inv ex h → arenas h !! a = Some (Arena (Some d) fc) → descs h !! d = Some (Desc (bsz d) (bpa d) fl) →
  arena_at h a d fc fl.
Proof.
  intros Hh Ea Ed. destruct (arena_addr _ _ _ _ Hh Ea) as (H1 & H2 & H3 & _). split; try done.
  - by eapply desc_index.
Qed.

(** A page from the kernel pool. *)
Lemma get_kernel_pages h n :
  heap_ok h → 0 < n →
  (∃ i b, allocates false (mpages h) n i b ∧
     on_pages (palloc_get_multiple 0 n) h = Ok (kbase h + 4096 * i, with_map h b (ram (mpages h)) (arenas h))) ∨
  full false (mpages h) n ∧ on_pages (palloc_get_multiple 0 n) h = Ok (NULL, h).
Proof.
  intros Hh Hn. destruct (palloc_get_ok 0 n (mpages h)) as [(i & b & Hal & E)|[Hf E]]; [apply Hh|done|left|right].
  - exists i, b. split; [done|]. by erewrite on_pages_ok by exact E.
  - split; [done|]. erewrite on_pages_ok by exact E. by destruct h.
Qed.

(** The number of pages malloc asks for when it needs any. *)
Definition pages_needed (size : Z) : Z := if decide (size ≤ 1024) then 1 else (size + 12 + 4095) / 4096.

(** The outcomes of malloc: no memory and nothing changed, or one new block. *)
Definition malloc_post (h : heap) (size p : Z) (h' : heap) : Prop :=
  p = NULL ∧ h' = h ∧ full false (mpages h) (pages_needed size) ∨
  p ≠ NULL ∧ heap_ok h' ∧ ram (mpages h') = ram (mpages h) ∧
    ∃ n, size ≤ n ∧ (∀ k, ¬ live h p k) ∧ ∀ q k, live h' q k ↔ live h q k ∨ q = p ∧ k = n.

Lemma malloc_big_ok h size :
  heap_ok h → 1024 < size < 2^32 - 4108 → ∃ p h', malloc_big size h = Ok (p, h') ∧ malloc_post h size p h'.
Proof.
  intros Hh Hs. set (n := pages_needed size).
  assert (Hn : 0 < n ∧ size + 12 ≤ 4096 * n) by (unfold n, pages_needed; rewrite decide_False by lia; dlia).
  unfold malloc_big, DIV_ROUND_UP, ARENA_SIZE. change PGSIZE with 4096. rewrite (u32_id (size + 12)) by (unfold in_u32; lia).
  rewrite (u32_id (_ + 4096)), u32_id by (unfold in_u32; lia).
  replace ((size + 12 + 4096 - 1) / 4096) with n by (unfold n, pages_needed; rewrite decide_False by lia; f_equal; lia).
  destruct (get_kernel_pages h n Hh) as [(i & b & Hal & E)|[Hf E]]; [lia| |].
  2:{ erewrite st_bind_ok by exact E. rewrite decide_True by done. exists NULL, h. split; [done|]. by left. }
  destruct (add_arena h n i b (Arena None n) Hh) as (Hok & Hnone & Hlive); [lia|done|done|done|].
  erewrite st_bind_ok by exact E. set (a := kbase h + 4096 * i) in *.
  set (h' := with_map h b (ram (mpages h)) (<[a := Arena None n]> (arenas h))) in *.
  assert (Ea : arenas h' !! a = Some (Arena None n)) by apply lookup_insert_eq.
  destruct (arena_addr _ _ _ _ Hok Ea) as (Ha & H0 & H1 & _ & _). cbn [npages owner free_cnt] in H1.
  rewrite decide_False by (unfold NULL; lia). erewrite st_bind_ok by done. rewrite u32_id by (unfold in_u32; lia).
  exists (a + 12), h'. split; [done|]. right. split; [unfold NULL; lia|]. split; [done|]. split; [done|].
  exists (4096 * n - 12). pose proof (page_of_big a Ha) as Ep. split_and!; [lia| |].
  - intros k Hk. unfold live in Hk. by rewrite Ep, Hnone in Hk.
  - intros q k. destruct (decide (page_of q = a)) as [Eq|Eq].
    + unfold live. rewrite Eq, Ea, Hnone. naive_solver.
    + rewrite Hlive by done. split; [by left|]. intros [|[-> _]]; [done|]. by rewrite Ep in Eq.
Qed.

(** A free list with at least one block, all of them free. *)
Definition ready (h : heap) (d : nat) (h1 : heap) : Prop :=
  ∃ ex b fl, heap_inv ex h1 ∧ (∀ e, ex = Some e → e = page_of b) ∧
    descs h1 !! d = Some (Desc (bsz d) (bpa d) (b :: fl)) ∧ ram (mpages h1) = ram (mpages h) ∧
    ∀ p n, live h1 p n ↔ live h p n.

Lemma free_in_arena a d a' :
  (d < 7)%nat → a `mod` 4096 = 0 →
  free_in a' (arena_blocks a d) = if decide (a' = a) then arena_blocks a d else [].
Proof.
  intros Hd Ha. assert (Hp : ∀ b, b ∈ arena_blocks a d → page_of b = a).
  { intros b (i & Hi & ->)%elem_of_arena_blocks. by apply page_of_blk. }
  case_decide as E.
  - apply filter_all, Forall_forall. intros b Hb. by rewrite (Hp b Hb).
  - apply filter_none, Forall_forall. intros b Hb. rewrite (Hp b Hb). congruence.
Qed.

Lemma fill_arena h d x a :
  heap_ok h → descs h !! d = Some x → free_list x = [] → arenas h !! a = Some (Arena (Some d) 0) →
  heap_inv (Some a) (upd h d (arena_blocks a d) a (bpa d)) ∧
  ∀ p n, live (upd h d (arena_blocks a d) a (bpa d)) p n ↔ live h p n ∧ page_of p ≠ a.
Proof.
  intros Hh Ex Efl Ea. pose proof (desc_index _ _ _ _ Hh Ex) as Hd. destruct (arena_addr _ _ _ _ Hh Ea) as (Ha & _).
  split.
  - eapply (upd_inv None (Some a)); try done; auto.
    + by apply arena_blocks_nodup.
    + intros a' Ha'. rewrite free_in_arena, decide_False, Efl by done. done.
    + rewrite free_in_arena, decide_True by done. by rewrite arena_blocks_length.
  - intros p n. rewrite (upd_live None h d x _ a 0); try done.
    + case_decide; tauto.
    + intros b Hb. rewrite Efl, elem_of_nil. split; [|done].
      intros (i & Hi & ->)%elem_of_arena_blocks. apply Hb. by apply page_of_blk.
Qed.

Lemma arena_blocks_cons a d : (d < 7)%nat → ∃ b fl, arena_blocks a d = b :: fl ∧ (a `mod` 4096 = 0 → page_of b = a).
Proof.
  intros Hd. pose proof (bsz_bounds d Hd). unfold arena_blocks. rewrite seqZ_cons by lia. cbn [fmap list_fmap].
  eexists _, _. split; [done|]. intros Ha. apply page_of_blk; [done|lia|done].
Qed.

Lemma new_arena_ok h d x :
  heap_ok h → descs h !! d = Some x →
  (∃ h1, new_arena d h = Ok (true, h1) ∧ ready h d h1) ∨ new_arena d h = Ok (false, h) ∧ full false (mpages h) 1.
Proof.
  intros Hh Ex. pose proof (desc_index _ _ _ _ Hh Ex) as Hd. pose proof (desc_form _ _ _ _ Hh Ex) as Efx.
  unfold new_arena. erewrite st_bind_ok by (by apply get_desc_ok). destruct (free_list x) as [|b0 fl0] eqn:Efl.
  2:{ left. exists h. split; [done|]. exists None, b0, fl0. split_and!; try done. by rewrite Ex, Efx. }
  destruct (get_kernel_pages h 1 Hh) as [(i & b & Hal & E)|[Hf E]]; [lia|left|right].
  2:{ unfold palloc_get_page. erewrite st_bind_ok by exact E. by rewrite decide_True. }
  destruct (add_arena h 1 i b (Arena (Some d) 0) Hh) as (Hok & Hnone & Hlive); [lia|done|done|by intros ? [= <-]|].
  unfold palloc_get_page. erewrite st_bind_ok by exact E. set (a := kbase h + 4096 * i) in *.
  set (h0 := with_map h b (ram (mpages h)) (<[a := Arena (Some d) 0]> (arenas h))) in *.
  assert (Ea : arenas h0 !! a = Some (Arena (Some d) 0)) by apply lookup_insert_eq.
  destruct (arena_addr _ _ _ _ Hok Ea) as (Ha & H0 & H1 & _).
  rewrite decide_False by (unfold NULL; lia). erewrite st_bind_ok by done.
  pose proof (bsz_bounds d Hd) as (_ & Hbp & _). rewrite Efx. cbn [blocks_per_arena].
  set (h2 := Heap (mpages h0) (descs h) (<[a := Arena (Some d) (bpa d)]> (arenas h))).
  erewrite st_bind_ok.
  2:{ apply (add_loop_ok h2 a d (bpa d) []); [split; cbn; try done|lia|lia].
      - apply lookup_insert_eq.
      - by rewrite Ex, Efx. }
  destruct (fill_arena h0 d x a Hok Ex Efl Ea) as [Hinv Hl].
  replace (set_fl h2 d _) with (upd h0 d (arena_blocks a d) a (bpa d)).
  2:{ unfold upd, set_fl, h2, h0. cbn. rewrite insert_insert_eq, Z2Nat.id by lia. done. }
  eexists. split; [done|]. destruct (arena_blocks_cons a d Hd) as (b1 & fl & Ebl & Ep).
  exists (Some a), b1, fl. split_and!; [done| |cbn [upd descs]|done|].
  - intros e [= <-]. by rewrite Ep.
  - rewrite <- Ebl. apply list_lookup_insert_eq. cbn. by rewrite (hp_descs _ _ Hh).
  - intros p n. rewrite Hl. split.
    + intros [H Hp]. by apply Hlive.
    + intros H. assert (Hp : page_of p ≠ a) by (intros Hp; unfold live in H; by rewrite Hp, Hnone in H).
      split; [|done]. by apply Hlive.
Qed.

Lemma malloc_ok h size :
  heap_ok h → 0 < size < 2^32 - 4108 → ∃ p h', malloc size h = Ok (p, h') ∧ malloc_post h size p h'.
Proof.
  intros Hh Hs. unfold malloc. rewrite decide_False by lia. change (st_get ≫= ?k) with (λ h, k h h). cbn beta.
  pose proof (find_desc_spec (descs h) size 0) as Hf. destruct (find_desc (descs h) size 0) as [d|].
  2:{ apply malloc_big_ok; [done|]. destruct (lookup_lt_is_Some_2 (descs h) 6) as [x Ex]; [rewrite (hp_descs _ _ Hh); lia|].
      pose proof (Forall_lookup_1 _ _ _ _ Hf Ex) as Hlt. cbn beta in Hlt. rewrite (desc_form _ _ _ _ Hh Ex) in Hlt.
      cbn [block_size] in Hlt. change (bsz 6) with 1024 in Hlt. lia. }
  destruct Hf as (_ & x & Ex & Hsz). rewrite Nat.sub_0_r in Ex. pose proof (desc_index _ _ _ _ Hh Ex) as Hd.
  rewrite (desc_form _ _ _ _ Hh Ex) in Hsz. cbn [block_size] in Hsz. pose proof (bsz_bounds d Hd) as (Hb1 & Hb2 & _).
  destruct (new_arena_ok h d x Hh Ex) as [(h1 & E & ex & b & fl & Hinv & Hex & Ed & Hram & Hl)|[E Hf]].
  2:{ erewrite st_bind_ok by exact E. exists NULL, h. split; [done|]. left. unfold pages_needed.
      by rewrite decide_True by lia. }
  erewrite st_bind_ok by exact E. cbv beta iota. erewrite st_bind_ok by (by apply get_desc_ok). cbn [free_list].
  destruct (take_block ex h1 d _ b fl Hinv Ed eq_refl Hex) as (fc & Ea & Hfc & Hbin & Hok & Hnl & Hl').
  erewrite st_bind_ok by (by eapply set_free_list_ok).
  pose proof (arena_at_set _ _ _ _ _ fl (heap_arena_at _ _ _ _ _ _ Hinv Ea Ed)) as Hat.
  apply elem_of_arena_blocks in Hbin as (i & Hi & Eb).
  pose proof (block_to_arena_small _ _ _ _ _ i Hat Hi) as Eba. rewrite <- Eb in Eba.
  erewrite st_bind_ok by exact Eba. erewrite st_bind_ok by (apply get_arena_ok, Hat).
  cbn [owner free_cnt]. rewrite u32_id by (unfold in_u32; lia). erewrite st_bind_ok by done.
  eexists b, _. split; [done|]. right. destruct (arena_addr _ _ _ _ Hinv Ea) as (_ & H0 & _).
  pose proof (blk_range (page_of b) d i Hd Hi).
  split; [unfold NULL; lia|]. split; [exact Hok|]. split; [done|]. exists (bsz d). split_and!; [lia| |].
  - intros k Hk. apply (Hnl k). by apply Hl.
  - intros q k. rewrite <- Hl. apply Hl'.
Qed.

(** ** free *)

Definition set_ram (h : heap) (m : mem) : heap :=
  Heap (Pages (kernel_pool (mpages h)) (user_pool (mpages h)) m) (descs h) (arenas h).

Lemma set_ram_inv ex h m :
  heap_inv ex h → (∀ a, is_Some (ram (mpages h) !! a) → is_Some (m !! a)) → heap_inv ex (set_ram h m).
Proof.
  intros Hh Hm. split; cbn [set_ram mpages descs arenas]; [|apply Hh| | |apply Hh].
  - pose proof (hp_pages _ _ Hh) as Hp. pose proof (po_map _ _ (pk_kernel _ Hp)) as Hw.
    pose proof (pages_ok_update false (mpages h) _ m Hp Hw eq_refl Hm) as H. cbn in H.
    by destruct (kernel_pool (mpages h)).
  - intros d x E. by destruct (hp_lists _ _ Hh d x E).
  - intros a y E. by destruct (hp_arenas _ _ Hh a y E).
Qed.

(** The page allocator takes back the pages of an arena. *)
Lemma put_kernel_pages h a y :
  heap_ok h → arenas h !! a = Some y →
  ∃ i b, a = kbase h + 4096 * i ∧ releases false (mpages h) (npages y) i b ∧
    on_pages (palloc_free_multiple a (npages y)) h =
      Ok ((), with_map h b (write a (replicate (page_bytes (npages y)) 204) (ram (mpages h))) (arenas h)).
Proof.
  intros Hh Ea. destruct (hp_arenas _ _ Hh _ _ Ea) as [(i & Ei & Hi & Hn & Hr & Hu) _].
  destruct (palloc_free_ok false (mpages h) i (npages y)) as [Hfree _]; [apply Hh|done..|].
  destruct (Hfree Hu) as (b & Hb & E). exists i, b. split_and!; [done|done|]. rewrite Ei at 1.
  erewrite on_pages_ok by exact E. cbn [pool_of]. fold (kbase h). fold (kbase h) in Ei. by rewrite <- Ei.
Qed.

(** What free does: the block is gone and the contents of the others stay. *)
Definition free_post (h : heap) (p : Z) (h' : heap) : Prop :=
  heap_ok h' ∧ (∀ q k, live h' q k ↔ live h q k ∧ q ≠ p) ∧
  ∀ q k a, live h q k → q ≠ p → q ≤ a < q + k → ram (mpages h') !! a = ram (mpages h) !! a.

(** The bytes of a live block are outside the pages of another arena. *)
Lemma live_outside ex h q k a y c :
  heap_inv ex h → live h q k → arenas h !! a = Some y → page_of q ≠ a → q ≤ c < q + k →
  ¬ (a ≤ c < a + 4096 * npages y).
Proof.
  intros Hh Hq Ea Hne Hc. destruct (live_inside _ _ _ _ Hh Hq) as (y' & Eq & H1 & H2 & _).
  destruct (Z.lt_trichotomy a (page_of q)) as [Hlt|[?|Hlt]]; [|congruence|].
  - pose proof (hp_apart _ _ Hh _ _ _ _ Ea Eq Hlt). lia.
  - pose proof (hp_apart _ _ Hh _ _ _ _ Eq Ea Hlt). lia.
Qed.

Lemma lookup_write_out p bs (m : mem) a n :
  Z.of_nat (length bs) = n → ¬ (p ≤ a < p + n) → write p bs m !! a = m !! a.
Proof. intros <- H. rewrite lookup_write. by rewrite decide_False. Qed.

Lemma free_big_ok h a k :
  heap_ok h → arenas h !! a = Some (Arena None k) →
  ∃ h', free (a + 12) h = Ok ((), h') ∧ free_post h (a + 12) h'.
Proof.
  intros Hh Ea. destruct (arena_addr _ _ _ _ Hh Ea) as (Ha & H0 & H1 & Hn & _). cbn [npages owner free_cnt] in H1, Hn.
  destruct (put_kernel_pages h a _ Hh Ea) as (i & b & Ei & Hrel & E). cbn [npages owner free_cnt] in *.
  unfold free. rewrite decide_False by (unfold NULL; lia).
  erewrite st_bind_ok by (eapply block_to_arena_big; [done|done|lia..]).
  erewrite st_bind_ok by (by apply get_arena_ok). cbn [owner free_cnt].
  erewrite st_bind_ok by exact E. eexists. split; [done|].
  destruct (remove_arena h a (Arena None k) k i b (write a (replicate (page_bytes k) 204) (ram (mpages h))) Hh Ea Ei eq_refl)
    as [Hok Hl]; [|done|intros; by apply write_some|].
  { intros d x Ex. apply free_in_nil. intros b' Hb' Ep.
    destruct (lo_blocks _ _ _ (hp_lists _ _ Hh _ _ Ex) b' Hb') as (fc & j & Eb & _). congruence. }
  assert (Hsame : ∀ q m, live h q m → page_of q = a → q = a + 12).
  { intros q m Hq Ep. unfold live in Hq. rewrite Ep, Ea in Hq. naive_solver. }
  split_and!; [done| |].
  - intros q m. etrans; [apply Hl|]. split; intros [Hq Hne]; split; try done.
    + intros ->. by rewrite page_of_big in Hne.
    + intros Ep. by apply Hne, (Hsame q m).
  - intros q m c Hq Hne Hc. cbn [drop_arena with_map mpages ram]. apply (lookup_write_out _ _ _ _ (4096 * k)).
    + rewrite length_replicate. unfold page_bytes. lia.
    + apply (live_outside _ h q m a (Arena None k) c Hh Hq Ea); [|done]. intros Ep. by apply Hne, (Hsame q m).
Qed.

(** When all blocks of an arena are free, they are exactly its blocks. *)
Lemma all_free ex h d x a fc :
  heap_inv ex h → descs h !! d = Some x → arenas h !! a = Some (Arena (Some d) fc) → fc = bpa d →
  ∀ b, b ∈ arena_blocks a d → b ∈ free_list x.
Proof.
  intros Hh Ex Ea Efc b Hb. pose proof (desc_index _ _ _ _ Hh Ex) as Hd.
  destruct (ao_owner _ _ _ _ (hp_arenas _ _ Hh _ _ Ea) d eq_refl) as (x' & Ex' & Hfc & _).
  assert (x' = x) as -> by congruence. cbn [free_cnt] in Hfc. destruct (hp_lists _ _ Hh _ _ Ex) as [_ Hnd Hbl].
  assert (HP : free_in a (free_list x) ≡ₚ arena_blocks a d).
  { apply submseteq_length_Permutation.
    - apply NoDup_submseteq; [by apply NoDup_filter|]. intros c [Ep Hc]%list_elem_of_filter.
      destruct (Hbl c Hc) as (fc' & i & _ & Hi & Ec). apply elem_of_arena_blocks. exists i. rewrite <- Ep. done.
    - pose proof (arena_blocks_length a d Hd). lia. }
  rewrite <- HP in Hb. by apply list_elem_of_filter in Hb as [_ Hb].
Qed.

(** The blocks of an arena without live blocks leave the free list. *)
Definition without_arena (a : Z) (d : nat) (fl : list Z) : list Z := filter (.∉ arena_blocks a d) fl.

Lemma empty_arena h d x a fc :
  heap_inv (Some a) h → descs h !! d = Some x → arenas h !! a = Some (Arena (Some d) fc) → fc = bpa d →
  let h' := upd h d (without_arena a d (free_list x)) a 0 in
  heap_ok h' ∧ (∀ d' x', descs h' !! d' = Some x' → free_in a (free_list x') = []) ∧
  (∀ q k, page_of q ≠ a → live h' q k ↔ live h q k) ∧ ∀ q k, live h q k → page_of q ≠ a.
Proof.
  intros Hh Ex Ea Efc h'. pose proof (desc_index _ _ _ _ Hh Ex) as Hd. pose proof (bsz_bounds d Hd) as (_ & Hbp & _).
  destruct (arena_addr _ _ _ _ Hh Ea) as (Ha & _).
  assert (Hpage : ∀ d2 x2 b, descs h !! d2 = Some x2 → b ∈ free_list x2 → page_of b = a → b ∈ arena_blocks a d).
  { intros d2 x2 b Ex2 Hb Ep. destruct (lo_blocks _ _ _ (hp_lists _ _ Hh _ _ Ex2) b Hb) as (fc' & i & Eb & Hi & Ebk).
    rewrite Ep, Ea in Eb. injection Eb as <- _. apply elem_of_arena_blocks. rewrite Ep in Ebk. eauto. }
  assert (Hin : ∀ b, b ∈ arena_blocks a d → page_of b = a).
  { intros b (i & Hi & ->)%elem_of_arena_blocks. by apply page_of_blk. }
  assert (Hnil : free_in a (without_arena a d (free_list x)) = []).
  { apply free_in_nil. intros b [Hb1 Hb2]%list_elem_of_filter Ep. by apply Hb1, (Hpage d x). }
  split_and!.
  - eapply (upd_inv (Some a) None); try done; try (left; lia); try lia.
    + apply NoDup_filter, (hp_lists _ _ Hh _ _ Ex).
    + intros b [_ Hb]%list_elem_of_filter. by left.
    + intros a' Ha'. unfold free_in, without_arena. rewrite list_filter_filter. apply list_filter_iff. intros b.
      split; [tauto|]. intros <-. split; [done|]. intros Hb%Hin. congruence.
    + by rewrite Hnil.
    + by intros e [= <-].
  - intros d' x' E'. cbn [h' upd descs] in E'. destruct (decide (d' = d)) as [->|Hne].
    + rewrite list_lookup_insert_eq in E' by (by rewrite (hp_descs _ _ Hh)). by injection E' as <-.
    + rewrite list_lookup_insert_ne in E' by done. apply free_in_nil. intros b Hb Ep.
      destruct (lo_blocks _ _ _ (hp_lists _ _ Hh _ _ E') b Hb) as (fc' & i & Eb & _). congruence.
  - intros q k Hq. unfold h'. rewrite (upd_live (Some a) h d x _ a fc); try done; [by rewrite decide_False|].
    intros b Hb. unfold without_arena. rewrite list_elem_of_filter. split; [tauto|]. intros Hbf. split; [|done].
    by intros Hb'%Hin.
  - intros q k Hq Ep. rewrite (live_in_arena (Some a) h d x a fc) in Hq by done. destruct Hq as (_ & Hq & Hnf).
    by apply Hnf, (all_free (Some a) h d x a fc).
Qed.

(** The end of free when the arena is unused. *)
Lemma free_arena_ok h a d fl :
  heap_inv (Some a) h → arenas h !! a = Some (Arena (Some d) (bpa d)) →
  descs h !! d = Some (Desc (bsz d) (bpa d) fl) →
  ∃ h', (remove_loop (Z.to_nat (bpa d)) a d 0;; on_pages (palloc_free_page a);; drop_arena a) h = Ok ((), h') ∧
    heap_ok h' ∧ (∀ q k, live h' q k ↔ live h q k) ∧
    ∀ q k c, live h q k → q ≤ c < q + k → ram (mpages h') !! c = ram (mpages h) !! c.
Proof.
  intros Hh Ea Ex. pose proof (desc_index _ _ _ _ Hh Ex) as Hd. pose proof (bsz_bounds d Hd) as (_ & Hbp & _).
  destruct (empty_arena h d _ a (bpa d) Hh Ex Ea eq_refl) as (Hok3 & Hempty & Hl3 & Hnone). cbn [free_list] in *.
  set (h3 := upd h d (without_arena a d fl) a 0) in *.
  erewrite st_bind_ok.
  2:{ eapply (remove_loop_ok h a d (bpa d) fl _ 0); [by eapply heap_arena_at| |lia|lia|].
      - apply (hp_lists _ _ Hh _ _ Ex).
      - intros j Hj. apply (all_free _ h d _ a _ Hh Ex Ea eq_refl), elem_of_arena_blocks. exists j. split; [lia|done]. }
  assert (Ea3 : arenas h3 !! a = Some (Arena (Some d) 0)) by apply lookup_insert_eq.
  destruct (put_kernel_pages h3 a _ Hok3 Ea3) as (i & b & Ei & Hrel & Efree). cbn [npages owner] in *.
  set (m2 := write a (replicate (page_bytes 1) 204) (ram (mpages h3))) in *.
  destruct (remove_arena h3 a _ 1 i b m2 Hok3 Ea3 Ei eq_refl Hempty Hrel) as [Hok4 Hl4]; [intros; by apply write_some|].
  rewrite Z2Nat.id by lia. change (blk a d <$> seqZ 0 (bpa d)) with (arena_blocks a d).
  fold (without_arena a d fl).
  assert (Efree' : on_pages (palloc_free_page a) (set_fl h d (without_arena a d fl)) =
    Ok ((), with_map (set_fl h d (without_arena a d fl)) b m2 (arenas h))).
  { unfold on_pages, palloc_free_page in *. cbn [mpages h3 upd set_fl] in *.
    destruct (palloc_free_multiple a 1 (mpages h)) as [[[] pg]|]; [|done]. injection Efree as ->. done. }
  erewrite st_bind_ok by exact Efree'. eexists. split; [done|].
  assert (Hfinal : Heap (mpages (with_map (set_fl h d (without_arena a d fl)) b m2 (arenas h)))
    (descs (set_fl h d (without_arena a d fl))) (delete a (arenas h)) = with_map h3 b m2 (delete a (arenas h3))).
  { unfold with_map, h3, upd, set_fl. cbn. by rewrite delete_insert_eq. }
  cbn [with_map descs arenas] in Hfinal |- *. rewrite Hfinal. split_and!; [done| |].
  - intros q k. rewrite Hl4. split.
    + intros [Hq Hp]. by apply Hl3.
    + intros Hq. pose proof (Hnone q k Hq) as Hp. split; [|done]. by apply Hl3.
  - intros q k c Hq Hc. cbn [with_map mpages ram]. apply (lookup_write_out _ _ _ _ 4096).
    + rewrite length_replicate. done.
    + apply (live_outside _ h q k a _ c Hh Hq Ea); [by eapply Hnone|done].
Qed.

Lemma free_small_ok h p n a d fc x :
  heap_ok h → live h p n → page_of p = a → arenas h !! a = Some (Arena (Some d) fc) → descs h !! d = Some x →
  ∃ h', free_small p a d h = Ok ((), h') ∧ free_post h p h'.
Proof.
  intros Hh Hl Ep Ea Ex. pose proof (desc_index _ _ _ _ Hh Ex) as Hd. pose proof (bsz_bounds d Hd) as (Hb1 & Hb2 & _).
  destruct (arena_addr _ _ _ _ Hh Ea) as (Ha & H0 & H1 & _ & Hmap). cbn [npages owner] in H1, Hmap.
  destruct (live_inside _ _ _ _ Hh Hl) as (y & Ey & Hp1 & Hp2 & _). rewrite Ep, Ea in Ey. injection Ey as <-.
  rewrite Ep in Hp1, Hp2. cbn [npages owner] in Hp2. pose proof Hl as Hl0.
  rewrite (live_in_arena None h d x a fc) in Hl0 by done. destruct Hl0 as (-> & _ & _).
  set (m1 := write p (replicate (Z.to_nat (bsz d)) 204) (ram (mpages h))). set (h1 := set_ram h m1).
  assert (Hh1 : heap_ok h1) by (apply set_ram_inv; [done|]; intros; by apply write_some).
  destruct (give_block h1 d x a fc p (bsz d) Hh1 Ex Ea Ep Hl) as (Hfc & Hinv & Hok & Hlive).
  set (h2 := upd h1 d (p :: free_list x) a (fc + 1)) in *.
  assert (Hkeep1 : ∀ q k c, live h q k → q ≠ p → q ≤ c < q + k → m1 !! c = ram (mpages h) !! c).
  { intros q k c Hq Hne Hc. apply (lookup_write_out _ _ _ _ (bsz d)); [rewrite length_replicate; lia|].
    destruct (live_disjoint None h q k p (bsz d)); try done; lia. }
  pose proof (desc_form _ _ _ _ Hh Ex) as Efx. unfold free_small.
  erewrite st_bind_ok by (by apply get_desc_ok). rewrite Efx. cbn [block_size blocks_per_arena free_list].
  erewrite (st_bind_ok _ _ h p h1).
  2:{ apply on_pages_ok, on_ram_ok. replace (bsz d) with (Z.of_nat (Z.to_nat (bsz d))) at 1 by lia. apply memset_ok.
      split; [lia|]. intros j Hj. replace (p + Z.of_nat j) with (a + Z.of_nat (Z.to_nat (p - a) + j)) by lia.
      apply Hmap. unfold page_bytes. lia. }
  erewrite st_bind_ok by (eapply (set_free_list_ok h1 d (free_list x)); rewrite <- Efx; exact Ex).
  erewrite st_bind_ok by (apply get_arena_ok; exact Ea). cbn [owner free_cnt].
  rewrite u32_id by (unfold in_u32; lia).
  erewrite (st_bind_ok _ _ _ tt h2) by done.
  destruct (decide (bpa d ≤ fc + 1)) as [Hfull|Hfull].
  2:{ exists h2. split; [done|]. split_and!; [by apply Hok; lia|exact Hlive|exact Hkeep1]. }
  erewrite st_bind_ok by (apply assert_ok, bool_decide_eq_true; lia).
  destruct (free_arena_ok h2 a d (p :: free_list x) Hinv) as (h' & E & Hok' & Hl' & Hkeep).
  - cbn. rewrite lookup_insert_eq. do 2 f_equal. lia.
  - apply list_lookup_insert_eq. by rewrite (hp_descs _ _ Hh1).
  - exists h'. split; [exact E|]. split_and!; [done| |].
    + intros q k. rewrite Hl'. apply Hlive.
    + intros q k c Hq Hne Hc. rewrite (Hkeep q k c) by (done || by apply Hlive). by apply (Hkeep1 q k c).
Qed.

Lemma free_ok h p n : heap_ok h → live h p n → ∃ h', free p h = Ok ((), h') ∧ free_post h p h'.
Proof.
  intros Hh Hl. pose proof Hl as Hl0. unfold live in Hl0.
  destruct (arenas h !! page_of p) as [[[d|] fc]|] eqn:Ea; [| |done].
  - destruct Hl0 as (_ & (i & Hi & Ep) & _). pose proof (arena_desc _ _ _ _ d Hh Ea eq_refl) as Hd.
    destruct (lookup_lt_is_Some_2 (descs h) d) as [x Ex]; [by rewrite (hp_descs _ _ Hh)|].
    pose proof (desc_form _ _ _ _ Hh Ex) as Efx. rewrite Efx in Ex.
    destruct (arena_addr _ _ _ _ Hh Ea) as (_ & H0 & _). pose proof (blk_range (page_of p) d i Hd Hi).
    unfold free. rewrite decide_False by (unfold NULL; lia).
    pose proof (block_to_arena_small h _ d fc _ i (heap_arena_at _ _ _ _ _ _ Hh Ea Ex) Hi) as Eb. rewrite <- Ep in Eb.
    erewrite st_bind_ok by exact Eb. erewrite st_bind_ok by (by apply get_arena_ok). cbn [owner].
    by eapply free_small_ok.
  - destruct Hl0 as (_ & ->). destruct (arena_addr _ _ _ _ Hh Ea) as (Ha & _). by eapply free_big_ok.
Qed.

(** ** realloc *)

Lemma size_of_block_ok h p n : heap_ok h → live h p n → size_of_block p h = Ok (n, h).
Proof.
  intros Hh Hl. pose proof Hl as Hl0. unfold live in Hl0.
  destruct (arenas h !! page_of p) as [[[d|] fc]|] eqn:Ea; [| |done]; unfold size_of_block.
  - destruct Hl0 as (-> & (i & Hi & Ep) & _). pose proof (arena_desc _ _ _ _ d Hh Ea eq_refl) as Hd.
    destruct (lookup_lt_is_Some_2 (descs h) d) as [x Ex]; [by rewrite (hp_descs _ _ Hh)|].
    pose proof (desc_form _ _ _ _ Hh Ex) as Efx. rewrite Efx in Ex.
    pose proof (block_to_arena_small h _ d fc _ i (heap_arena_at _ _ _ _ _ _ Hh Ea Ex) Hi) as Eb. rewrite <- Ep in Eb.
    erewrite st_bind_ok by exact Eb. erewrite st_bind_ok by (by apply get_arena_ok). cbn [owner].
    by erewrite st_bind_ok by (by apply get_desc_ok).
  - destruct Hl0 as (-> & Ep). destruct (arena_addr _ _ _ _ Hh Ea) as (Ha & H0 & H1 & Hn & _).
    cbn [npages owner free_cnt] in *. set (a := page_of p) in *. clearbody a. subst p.
    erewrite st_bind_ok by (eapply block_to_arena_big; [done|done|lia..]).
    erewrite st_bind_ok by (by apply get_arena_ok). cbn [owner free_cnt].
    destruct (page_round a (a + 12) Ha) as [_ ->]; [lia..|]. change PGSIZE with 4096.
    unfold mret, ST_ret. rewrite u32_id by (unfold in_u32; lia). do 2 f_equal. lia.
Qed.

(** The memory of a live block. *)
Lemma live_mapped h p n : heap_ok h → live h p n → mapped (ram (mpages h)) p (Z.to_nat n).
Proof.
  intros Hh Hl. destruct (live_inside _ _ _ _ Hh Hl) as (y & Ea & H1 & H2 & H3).
  destruct (arena_addr _ _ _ _ Hh Ea) as (_ & Hp & Hr & _ & [_ Hm]). split; [lia|]. intros i Hi.
  replace (p + Z.of_nat i) with (page_of p + Z.of_nat (Z.to_nat (p - page_of p) + i)) by lia.
  apply Hm. unfold page_bytes. lia.
Qed.

(** The outcomes of realloc: the old block and nothing changed, or a new block
    with the contents of the old one, which is gone. *)
Definition realloc_post (h : heap) (p n size q : Z) (h' : heap) : Prop :=
  q = NULL ∧ h' = h ∨
  q ≠ NULL ∧ heap_ok h' ∧ ∃ k, size ≤ k ∧
    (∀ r j, live h' r j ↔ live h r j ∧ r ≠ p ∨ r = q ∧ j = k) ∧
    (∀ i, 0 ≤ i < Z.min size n → ram (mpages h') !! (q + i) = ram (mpages h) !! (p + i)) ∧
    ∀ r j c, live h r j → r ≠ p → r ≤ c < r + j → ram (mpages h') !! c = ram (mpages h) !! c.

Lemma realloc_ok h p n size :
  heap_ok h → live h p n → 0 < size < 2^32 - 4108 →
  ∃ q h', realloc p size h = Ok (q, h') ∧ realloc_post h p n size q h'.
Proof.
  intros Hh Hl Hs. unfold realloc. rewrite decide_False by lia.
  destruct (live_inside _ _ _ _ Hh Hl) as (y & Ey & Hp1 & Hp2 & Hn0).
  destruct (arena_addr _ _ _ _ Hh Ey) as (_ & Hpos & _).
  destruct (malloc_ok h size Hh Hs) as (q & h1 & E & [(-> & -> & _)|(Hq & Hh1 & Hram & k & Hk & Hfresh & Hl1)]);
    erewrite st_bind_ok by exact E.
  { rewrite decide_False by tauto. erewrite st_bind_ok by done. exists NULL, h. split; [done|]. by left. }
  rewrite decide_True by (unfold NULL in *; lia).
  assert (Hlp : live h1 p n) by (apply Hl1; by left). assert (Hlq : live h1 q k) by (apply Hl1; by right).
  assert (Hpq : p ≠ q) by (intros <-; by apply (Hfresh n)).
  set (mn := if decide (size < n) then size else n).
  assert (Hmn : mn = Z.min size n) by (unfold mn; case_decide; lia).
  pose proof (live_mapped h1 p n Hh1 Hlp) as [Hrp Hmp]. pose proof (live_mapped h1 q k Hh1 Hlq) as [Hrq Hmq].
  destruct (mapped_holds (ram (mpages h1)) p (Z.to_nat mn)) as (bs & Hbs & Hlen).
  { split; [lia|]. intros i Hi. apply Hmp. lia. }
  set (m2 := write q bs (ram (mpages h1))). set (h2 := set_ram h1 m2).
  assert (Hh2 : heap_ok h2) by (apply set_ram_inv; [done|]; intros; by apply write_some).
  destruct (free_ok h2 p n Hh2 Hlp) as (h3 & E3 & Hh3 & Hl3 & Hkeep).
  exists q, h3. split.
  - erewrite st_bind_ok; [done|]. erewrite st_bind_ok by (by apply size_of_block_ok). fold mn.
    erewrite (st_bind_ok _ _ h1 q h2); [exact E3|]. apply on_pages_ok, on_ram_ok.
    replace mn with (Z.of_nat (length bs)) by lia. apply memcpy_ok; [done| |].
    + split; [lia|]. intros i Hi. apply Hmq. lia.
    + pose proof (live_disjoint _ _ _ _ _ _ Hh1 Hlp Hlq Hpq). unfold disjoint_blocks. lia.
  - right. split; [done|]. split; [done|]. exists k. split; [done|]. split_and!.
    + intros r j. rewrite Hl3. change (live h2 r j) with (live h1 r j). rewrite Hl1. naive_solver.
    + intros i Hi. rewrite (Hkeep q k (q + i) Hlq) by (done || lia). cbn [h2 set_ram mpages ram].
      unfold m2. rewrite lookup_write, decide_True by lia. rewrite Z.add_simpl_l. destruct Hbs as [_ Hb].
      rewrite <- Hb by lia. rewrite Hram. f_equal. lia.
    + intros r j c Hr Hne Hc. rewrite (Hkeep r j c) by (done || (apply Hl1; by left)). cbn [h2 set_ram mpages ram].
      unfold m2. rewrite (lookup_write_out _ _ _ _ mn) by (lia ||
        (destruct (live_disjoint None h1 r j q k); try done; [apply Hl1; by left|intros ->; by apply (Hfresh j)|lia|lia])).
      by rewrite Hram.
Qed.

(** calloc: a zeroed block, unless the multiplication overflows unnoticed. *)
Lemma calloc_ok h a b :
  heap_ok h → 0 < a → 0 < b → a * b < 2^32 - 4108 →
  ∃ p h', calloc a b h = Ok (p, h') ∧
    (p = NULL ∧ h' = h ∨
     p ≠ NULL ∧ heap_ok h' ∧ (∀ i, 0 ≤ i < a * b → ram (mpages h') !! (p + i) = Some 0) ∧
       ∃ n, a * b ≤ n ∧ (∀ k, ¬ live h p k) ∧ ∀ q k, live h' q k ↔ live h q k ∨ q = p ∧ k = n).
Proof.
  intros Hh Ha Hb Hab. unfold calloc. rewrite u32_id by (unfold in_u32; nia). rewrite decide_False by nia.
  destruct (malloc_ok h (a * b) Hh) as (p & h1 & E & [(-> & -> & _)|(Hp & Hh1 & Hram & n & Hn & Hfresh & Hl1)]); [nia| |];
    erewrite st_bind_ok by exact E.
  { rewrite decide_False by auto. erewrite st_bind_ok by done. exists NULL, h. split; [done|]. by left. }
  rewrite decide_True by done. assert (Hlp : live h1 p n) by (apply Hl1; by right).
  pose proof (live_mapped h1 p n Hh1 Hlp) as [Hr Hm].
  set (m2 := write p (replicate (Z.to_nat (a * b)) 0) (ram (mpages h1))). set (h2 := set_ram h1 m2).
  exists p, h2. split.
  - erewrite st_bind_ok; [done|]. erewrite (st_bind_ok _ _ h1 p h2); [done|]. apply on_pages_ok, on_ram_ok.
    replace (a * b) with (Z.of_nat (Z.to_nat (a * b))) at 1 by nia. apply memset_ok.
    split; [lia|]. intros i Hi. apply Hm. lia.
  - right. split; [done|]. split; [apply set_ram_inv; [done|]; intros; by apply write_some|]. split.
    + intros i Hi. cbn [h2 set_ram mpages ram]. unfold m2. rewrite lookup_write, length_replicate, decide_True by lia.
      apply lookup_replicate_2. lia.
    + exists n. split; [done|]. split; [done|exact Hl1].
Qed.

(** ** Initialisation *)

Definition init_descs : list desc := (λ d, Desc (bsz d) (bpa d) []) <$> seq 0 7.

(** malloc_init makes the seven descriptors of blocks of 16 to 1024 bytes. *)
Lemma malloc_init_ok p :
  pages_ok p → malloc_init (Heap p [] ∅) = Ok ((), Heap p init_descs ∅) ∧ heap_ok (Heap p init_descs ∅).
Proof.
  intros Hp. split; [done|]. split; [done|done| |done|done]. intros d x Ex. cbn [descs] in Ex. unfold init_descs in Ex.
  apply list_lookup_fmap_Some in Ex as (k & -> & Ek). apply lookup_seq in Ek as [-> _].
  split; [done|constructor|]. intros b Hb. by apply elem_of_nil in Hb.
Qed.
