(* ===== verification/Pagedir.v ===== *)
(** * userprog/pagedir.c: page directories

    Page directories and page tables are pages of memory, read and written as
    32-bit words.  The state adds to the page allocator's the kernel's own page
    directory, the size of memory, and the processor's page directory base
    register and translation lookaside buffer (TLB); loading the register
    empties the buffer.  The directory is proved to be a partial map from the
    user's pages to frames. *)

From S2P Require Import Prelude Bitmap Memory CString Vaddr Palloc.

Local Open Scope Z_scope.

Record machine := Machine {
  vm : pages;
  init_page_dir : Z;
  init_ram_pages : Z;
  cr3 : Z;
  tlb : gmap Z Z;
}.

Abbreviation VM := (ST machine).

Definition with_vm (p : pages) (s : machine) : machine :=
  Machine p (init_page_dir s) (init_ram_pages s) (cr3 s) (tlb s).

Definition on_vm {A} (c : PM A) : VM A := λ s,
  match c (vm s) with Ok (a, p) => Ok (a, with_vm p s) | Err e => Err e end.

(** [*p] and [*p = w] for a [uint32_t *]. *)
Definition get_word (p : Z) : VM Z := on_vm (on_ram (loadw p)).
Definition set_word (p w : Z) : VM () := on_vm (on_ram (storew p w)).

(** [movl pd, %cr3] with the physical address, and its effect on the TLB. *)
Definition pagedir_activate (pd : Z) : VM () :=
  s ← st_get;
  p ← st_res (vtop (if decide (pd = NULL) then init_page_dir s else pd));
  st_modify (λ s, Machine (vm s) (init_page_dir s) (init_ram_pages s) p ∅).

Definition active_pd : VM Z := s ← st_get; st_res (ptov (cr3 s)).

Definition invalidate_pagedir (pd : Z) : VM () :=
  a ← active_pd; if decide (a = pd) then pagedir_activate pd else mret tt.

Definition pagedir_create : VM Z :=
  pd ← on_vm (palloc_get_page 0);
  (if decide (pd ≠ NULL) then s ← st_get; _ ← on_vm (on_ram (memcpy pd (init_page_dir s) PGSIZE)); mret tt
   else mret tt);;
  mret pd.

(** The page tables' entries, then the directory's. *)
Fixpoint destroy_table (n : nat) (pte : Z) : VM () :=
  match n with
  | O => mret tt
  | S n =>
      e ← get_word pte;
      (if decide (Z.land e PTE_P ≠ 0) then p ← st_res (pte_get_page e); on_vm (palloc_free_page p) else mret tt);;
      destroy_table n (u32 (pte + 4))
  end.

Fixpoint destroy_loop (n : nat) (pde : Z) : VM () :=
  match n with
  | O => mret tt
  | S n =>
      e ← get_word pde;
      (if decide (Z.land e PTE_P ≠ 0) then
         pt ← st_res (pde_get_pt e);
         destroy_table (Z.to_nat (PGSIZE / 4)) pt;; on_vm (palloc_free_page pt)
       else mret tt);;
      destroy_loop n (u32 (pde + 4))
  end.

Definition pagedir_destroy (pd : Z) : VM () :=
  if decide (pd = NULL) then mret tt else
  s ← st_get;
  ASSERT (bool_decide (pd ≠ init_page_dir s));;
  destroy_loop (Z.to_nat (pd_no PHYS_BASE)) pd;;
  on_vm (palloc_free_page pd).

Definition lookup_page (pd vaddr : Z) (create : bool) : VM Z :=
  ASSERT (bool_decide (pd ≠ NULL));;
  ASSERT (negb create || is_user_vaddr vaddr);;
  let pde := u32 (pd + 4 * pd_no vaddr) in
  e ← get_word pde;
  ok ← (if decide (e = 0) then
          if create then
            pt ← on_vm (palloc_get_page PAL_ZERO);
            if decide (pt = NULL) then mret false
            else w ← st_res (pde_create pt); set_word pde w;; mret true
          else mret false
        else mret true);
  if (ok : bool) then
    e ← get_word pde;
    pt ← st_res (pde_get_pt e);
    mret (u32 (pt + 4 * pt_no vaddr))
  else mret NULL.

Definition pagedir_set_page (pd upage kpage : Z) (writable : bool) : VM bool :=
  s ← st_get;
  ASSERT (bool_decide (pg_ofs upage = 0));;
  ASSERT (bool_decide (pg_ofs kpage = 0));;
  ASSERT (is_user_vaddr upage);;
  p ← st_res (vtop kpage);
  ASSERT (bool_decide (Z.shiftr p PTSHIFT < init_ram_pages s));;
  ASSERT (bool_decide (pd ≠ init_page_dir s));;
  pte ← lookup_page pd upage true;
  if decide (pte ≠ NULL) then
    e ← get_word pte;
    ASSERT (bool_decide (Z.land e PTE_P = 0));;
    w ← st_res (pte_create_user kpage writable);
    set_word pte w;; mret true
  else mret false.

Definition pagedir_get_page (pd uaddr : Z) : VM Z :=
  ASSERT (is_user_vaddr uaddr);;
  pte ← lookup_page pd uaddr false;
  if decide (pte ≠ NULL) then
    e ← get_word pte;
    if decide (Z.land e PTE_P ≠ 0) then p ← st_res (pte_get_page e); mret (u32 (p + pg_ofs uaddr))
    else mret NULL
  else mret NULL.

Definition pagedir_clear_page (pd upage : Z) : VM () :=
  ASSERT (bool_decide (pg_ofs upage = 0));;
  ASSERT (is_user_vaddr upage);;
  pte ← lookup_page pd upage false;
  if decide (pte ≠ NULL) then
    e ← get_word pte;
    if decide (Z.land e PTE_P ≠ 0) then
      set_word pte (Z.land e (u32 (Z.lnot PTE_P)));; invalidate_pagedir pd
    else mret tt
  else mret tt.

(** pagedir_is_dirty and pagedir_is_accessed test one bit ... *)
Definition test_bit (bit pd vpage : Z) : VM bool :=
  pte ← lookup_page pd vpage false;
  if decide (pte ≠ NULL) then e ← get_word pte; mret (bool_decide (Z.land e bit ≠ 0)) else mret false.

(** ... and pagedir_set_dirty and pagedir_set_accessed set it. *)
Definition set_bit (bit pd vpage : Z) (value : bool) : VM () :=
  pte ← lookup_page pd vpage false;
  if decide (pte ≠ NULL) then
    e ← get_word pte;
    if value then set_word pte (Z.lor e bit)
    else set_word pte (Z.land e (u32 (Z.lnot bit)));; invalidate_pagedir pd
  else mret tt.

Definition pagedir_is_dirty (pd vpage : Z) : VM bool := test_bit PTE_D pd vpage.
Definition pagedir_set_dirty (pd vpage : Z) (dirty : bool) : VM () := set_bit PTE_D pd vpage dirty.
Definition pagedir_is_accessed (pd vpage : Z) : VM bool := test_bit PTE_A pd vpage.
Definition pagedir_set_accessed (pd vpage : Z) (accessed : bool) : VM () := set_bit PTE_A pd vpage accessed.

(** ** Well-formed directories *)

(** A page in use of the kernel pool. *)
Definition used_page (p : pages) (a : Z) : Prop :=
  ∃ i, a = base (kernel_pool p) + 4096 * i ∧ 0 ≤ i < bit_cnt (used_map (kernel_pool p)) ∧
    bit_at (used_map (kernel_pool p)) i = true.

Definition mem_of (s : machine) : mem := ram (vm s).

(** Entry [i] of the directory. *)
Definition pde_at (s : machine) (pd i : Z) : Z := word (mem_of s) (pd + 4 * i).

Record dir_ok (s : machine) (pd : Z) : Prop := {
  dk_pages : pages_ok (vm s);
  dk_bytes : bytes_ok (mem_of s);
  dk_high : PHYS_BASE ≤ base (kernel_pool (vm s));
  dk_pd : used_page (vm s) pd;
  dk_tables : ∀ i, 0 ≤ i < 768 → pde_at s pd i ≠ 0 →
    pde_at s pd i `mod` 2 = 1 ∧ used_page (vm s) (frame (pde_at s pd i)) ∧ frame (pde_at s pd i) ≠ pd;
  dk_inj : ∀ i j, 0 ≤ i < 768 → 0 ≤ j < 768 → pde_at s pd i ≠ 0 → pde_at s pd j ≠ 0 →
    frame (pde_at s pd i) = frame (pde_at s pd j) → i = j;
}.

(** The address of the entry for [v] in its table, and the entry. *)
Definition pte_slot (e v : Z) : Z := frame e + 4 * ((v / 4096) `mod` 1024).
Definition entry (s : machine) (pd v : Z) : Z :=
  let e := pde_at s pd (v / 4194304) in
  if decide (e = 0) then 0 else word (mem_of s) (pte_slot e v).

(** The directory as a map from user addresses to the frames of their pages. *)
Definition mapping (s : machine) (pd v : Z) : option Z :=
  let w := entry s pd v in if decide (w `mod` 2 = 1) then Some (frame w) else None.

Lemma word_range m p : bytes_ok m → in_u32 (word m p).
Proof.
  intros Hb. unfold word. set (bs := _ <$> _). pose proof (le_word_range bs) as H.
  assert (length bs = 4%nat) as El by done. rewrite El in H. change (256 ^ Z.of_nat 4) with (2^32) in H. apply H.
  apply Forall_fmap, Forall_forall. intros i _. cbn. destruct (m !! (p + i)) as [b|] eqn:E; cbn; [|lia]. by eapply Hb.
Qed.

Lemma used_page_range s pd a :
  dir_ok s pd → used_page (vm s) a →
  a `mod` 4096 = 0 ∧ PHYS_BASE ≤ a ∧ a + 4096 < 2^32 ∧ mapped (mem_of s) a 4096.
Proof.
  intros [Hp _ Hh _ _ _] (i & -> & Hi & _). destruct (pk_kernel _ Hp) as [Hw Hb Hm].
  destruct (pages_mapped _ _ i 1 (pk_kernel _ Hp)) as (Hm' & _ & H0 & H1); [lia..|]. split_and!; [dlia|lia|lia|exact Hm'].
Qed.

Lemma user_index v : 0 ≤ v < PHYS_BASE → 0 ≤ v / 4194304 < 768.
Proof. unfold PHYS_BASE. dlia. Qed.

(** The word at [4 * i] bytes into a page. *)
Lemma page_word_mapped m a i : mapped m a 4096 → 0 ≤ i < 1024 → mapped m (a + 4 * i) 4.
Proof.
  intros [Hr Hm] Hi. split; [lia|]. intros k Hk.
  replace (a + 4 * i + Z.of_nat k) with (a + Z.of_nat (Z.to_nat (4 * i) + k)) by lia. apply Hm. lia.
Qed.

Lemma get_word_ok s p : mapped (mem_of s) p 4 → get_word p s = Ok (word (mem_of s) p, s).
Proof.
  intros Hm. unfold get_word, on_vm, on_ram, mem_of in *. rewrite (loadw_mapped p _ Hm). by destruct s as [[] ? ? ? ?].
Qed.

(** Memory with a word written. *)
Definition with_mem (m : mem) (s : machine) : machine :=
  with_vm (Pages (kernel_pool (vm s)) (user_pool (vm s)) m) s.

Lemma set_word_ok s p w :
  mapped (mem_of s) p 4 → set_word p w s = Ok ((), with_mem (write p (le_bytes 4 w) (mem_of s)) s).
Proof. intros Hm. unfold set_word, on_vm, on_ram, mem_of in *. by rewrite (storew_ok p w _ Hm). Qed.

(** Nothing outside the kernel pool's pages has changed. *)
Record apart (s s' : machine) : Prop := {
  ap_user : user_pool (vm s') = user_pool (vm s);
  ap_base : base (kernel_pool (vm s')) = base (kernel_pool (vm s));
  ap_cnt : bit_cnt (used_map (kernel_pool (vm s'))) = bit_cnt (used_map (kernel_pool (vm s)));
  ap_init : init_page_dir s' = init_page_dir s ∧ init_ram_pages s' = init_ram_pages s;
  ap_ram : ∀ a, ¬ (base (kernel_pool (vm s)) ≤ a < base (kernel_pool (vm s)) + 4096 * bit_cnt (used_map (kernel_pool (vm s)))) →
    mem_of s' !! a = mem_of s !! a;
}.

#[export] Instance apart_preorder : PreOrder apart.
Proof.
  split; [by split|]. intros s1 s2 s3 [Hu Hb Hc [Hi Hr] Hm] [Hu' Hb' Hc' [Hi' Hr'] Hm']. rewrite Hb, Hc in Hm'.
  split; [congruence..|split; congruence|]. intros a Ha. by rewrite Hm', Hm.
Qed.

(** A block inside a page in use. *)
Lemma used_block s a p (bs : list Z) x :
  used_page (vm s) a → a ≤ p → p + Z.of_nat (length bs) ≤ a + 4096 →
  ¬ (base (kernel_pool (vm s)) ≤ x < base (kernel_pool (vm s)) + 4096 * bit_cnt (used_map (kernel_pool (vm s)))) →
  write p bs (mem_of s) !! x = mem_of s !! x.
Proof. intros (i & -> & Hi & _) H1 H2 Hx. rewrite lookup_write. by rewrite decide_False by lia. Qed.

Lemma apart_write s a p bs :
  used_page (vm s) a → a ≤ p → p + Z.of_nat (length bs) ≤ a + 4096 →
  apart s (with_mem (write p bs (mem_of s)) s).
Proof. intros Hu H1 H2. split; try done. intros x Hx. by eapply used_block. Qed.

(** The table of a user address. *)
Lemma table_of s pd v :
  dir_ok s pd → 0 ≤ v < PHYS_BASE → pde_at s pd (v / 4194304) ≠ 0 →
  let e := pde_at s pd (v / 4194304) in
  pde_get_pt e = Ok (frame e) ∧ used_page (vm s) (frame e) ∧ frame e ≠ pd ∧
  mapped (mem_of s) (pte_slot e v) 4 ∧ frame e + 4096 < 2^32 ∧ PHYS_BASE ≤ frame e ∧ frame e `mod` 4096 = 0.
Proof.
  intros Hd Hv He. cbv zeta. destruct (dk_tables _ _ Hd _ (user_index v Hv) He) as (Hp & Hu & Hne).
  destruct (used_page_range _ _ _ Hd Hu) as (Ha & H0 & H1 & Hm). split_and!; try done.
  - apply pde_get_pt_ok; [apply word_range, Hd|done|lia].
  - apply page_word_mapped; [done|]. pose proof (Z.mod_pos_bound (v / 4096) 1024). lia.
Qed.

Lemma pde_mapped s pd v : dir_ok s pd → 0 ≤ v < PHYS_BASE →
  u32 (pd + 4 * pd_no v) = pd + 4 * (v / 4194304) ∧ mapped (mem_of s) (pd + 4 * (v / 4194304)) 4 ∧ pd ≠ NULL.
Proof.
  intros Hd Hv. pose proof (user_index v Hv). destruct (used_page_range _ _ _ Hd (dk_pd _ _ Hd)) as (Ha & H0 & H1 & Hm).
  unfold PHYS_BASE in H0. rewrite pd_no_div. split_and!.
  - apply u32_id. unfold in_u32. lia.
  - apply page_word_mapped; [done|lia].
  - unfold NULL. lia.
Qed.

(** The last lines of lookup_page. *)
Lemma slot_result s pd v :
  dir_ok s pd → 0 ≤ v < PHYS_BASE → pde_at s pd (v / 4194304) ≠ 0 →
  let e := pde_at s pd (v / 4194304) in
  (e ← get_word (pd + 4 * (v / 4194304)); pt ← st_res (pde_get_pt e); mret (u32 (pt + 4 * pt_no v))) s =
    Ok (pte_slot e v, s) ∧ pte_slot e v ≠ NULL.
Proof.
  intros Hd Hv He. cbv zeta. destruct (table_of s pd v Hd Hv He) as (Ept & _ & _ & [Hr _] & H1 & H0 & _).
  destruct (pde_mapped s pd v Hd Hv) as (_ & Hm & _).
  erewrite st_bind_ok by (by apply get_word_ok). fold (pde_at s pd (v / 4194304)).
  erewrite st_bind_ok by (by apply st_res_ok). rewrite pt_no_eq by lia. fold (pte_slot (pde_at s pd (v / 4194304)) v).
  unfold mret, ST_ret. rewrite u32_id by (unfold in_u32; lia). split; [done|]. unfold NULL. lia.
Qed.

Lemma lookup_page_find s pd v :
  dir_ok s pd → 0 ≤ v < PHYS_BASE →
  let e := pde_at s pd (v / 4194304) in
  lookup_page pd v false s = Ok (if decide (e = 0) then NULL else pte_slot e v, s).
Proof.
  intros Hd Hv e. destruct (pde_mapped s pd v Hd Hv) as (Eu & Hm & Hnn). unfold lookup_page.
  erewrite st_bind_ok by (by apply assert_ok, bool_decide_eq_true). erewrite st_bind_ok by done. rewrite Eu.
  erewrite st_bind_ok by (by apply get_word_ok). fold (pde_at s pd (v / 4194304)). fold e.
  destruct (decide (e = 0)) as [E|E]; erewrite st_bind_ok by done; cbv iota; [done|].
  by destruct (slot_result s pd v Hd Hv E) as [-> _].
Qed.

(** ** Writing one entry *)

Lemma aligned_apart a b : a `mod` 4096 = 0 → b `mod` 4096 = 0 → a ≠ b → a + 4096 ≤ b ∨ b + 4096 ≤ a.
Proof. intros. dlia. Qed.

Lemma pages_apart_words a b i j :
  a `mod` 4096 = 0 → b `mod` 4096 = 0 → a ≠ b → 0 ≤ i < 1024 → 0 ≤ j < 1024 →
  disjoint_blocks (a + 4 * i) 4 (b + 4 * j) 4.
Proof. intros Ha Hb Hne Hi Hj. destruct (aligned_apart a b Ha Hb Hne); unfold disjoint_blocks; lia. Qed.

Lemma bytes_ok_write m p bs : bytes_ok m → Forall (λ b, 0 ≤ b < 256) bs → bytes_ok (write p bs m).
Proof.
  intros Hm Hb a b. rewrite lookup_write. case_decide; [|by apply Hm]. intros E.
  by apply (Forall_lookup_1 _ _ _ _ Hb E).
Qed.

Lemma page_index v : v / 4194304 = v / 4096 / 1024.
Proof. by rewrite Z.div_div. Qed.

Lemma slot_index_range v : 0 ≤ (v / 4096) `mod` 1024 < 1024.
Proof. apply Z.mod_pos_bound. lia. Qed.

(** Other memory contents, the same directory. *)
Lemma dir_ok_mem s pd m :
  dir_ok s pd → bytes_ok m → (∀ a, is_Some (mem_of s !! a) → is_Some (m !! a)) →
  (∀ i, 0 ≤ i < 768 → pde_at (with_mem m s) pd i = pde_at s pd i) → dir_ok (with_mem m s) pd.
Proof.
  intros [Hp Hb Hh Hpd Ht Hi] Hm Hmap Hpde. split; try done.
  - pose proof (pages_ok_update false (vm s) _ m Hp (po_map _ _ (pk_kernel _ Hp)) eq_refl Hmap) as H. cbn in *.
    by destruct (kernel_pool (vm s)).
  - intros i Hi'. rewrite Hpde by done. by apply Ht.
  - intros i j Hi' Hj'. rewrite !Hpde by done. by apply Hi.
Qed.

Lemma slot_write s pd v w :
  dir_ok s pd → 0 ≤ v < PHYS_BASE → pde_at s pd (v / 4194304) ≠ 0 → in_u32 w →
  let s' := with_mem (write (pte_slot (pde_at s pd (v / 4194304)) v) (le_bytes 4 w) (mem_of s)) s in
  dir_ok s' pd ∧ (∀ i, 0 ≤ i < 768 → pde_at s' pd i = pde_at s pd i) ∧ apart s s' ∧
  ∀ v', 0 ≤ v' < PHYS_BASE → entry s' pd v' = if decide (v' / 4096 = v / 4096) then w else entry s pd v'.
Proof.
  intros Hd Hv He Hw. cbv zeta. set (e := pde_at s pd (v / 4194304)) in *. set (m := write _ _ _).
  destruct (table_of s pd v Hd Hv He) as (_ & Hu & Hne & Hslot & _ & _ & Hal). fold e in Hu, Hne, Hslot, Hal.
  destruct (used_page_range _ _ _ Hd (dk_pd _ _ Hd)) as (Hpa & _).
  assert (Hpde : ∀ i, 0 ≤ i < 768 → pde_at (with_mem m s) pd i = pde_at s pd i).
  { intros i Hi. unfold pde_at at 1. cbn [with_mem mem_of with_vm vm ram]. unfold m. apply word_write_other.
    rewrite length_le_bytes. apply pages_apart_words; [done|done|congruence|lia|apply slot_index_range]. }
  split_and!; [|done| |].
  - apply dir_ok_mem; [done| | |done].
    + apply bytes_ok_write; [apply Hd|apply le_bytes_range].
    + intros a. by apply write_some.
  - pose proof (slot_index_range v). apply apart_write with (frame e); [done|unfold pte_slot; lia|].
    rewrite length_le_bytes. unfold pte_slot. lia.
  - intros v' Hv'. unfold entry. rewrite Hpde by (by apply user_index).
    set (e' := pde_at s pd (v' / 4194304)). destruct (decide (v' / 4096 = v / 4096)) as [E|E].
    + assert (e' = e) as -> by (unfold e', e; by rewrite !page_index, E). rewrite decide_False by done.
      cbn [with_mem mem_of with_vm vm ram]. unfold m, pte_slot. rewrite E. by apply word_write.
    + destruct (decide (e' = 0)) as [|He']; [done|]. cbn [with_mem mem_of with_vm vm ram]. unfold m.
      apply word_write_other. rewrite length_le_bytes. unfold pte_slot.
      destruct (decide (v' / 4194304 = v / 4194304)) as [Ei|Ei].
      * assert (e' = e) as -> by (unfold e', e; by rewrite Ei).
        assert ((v' / 4096) `mod` 1024 ≠ (v / 4096) `mod` 1024) by (rewrite !page_index in Ei; dlia).
        unfold disjoint_blocks. lia.
      * destruct (dk_tables _ _ Hd _ (user_index v' Hv') He') as (_ & Hu' & _).
        destruct (used_page_range _ _ _ Hd Hu') as (Hal' & _). apply pages_apart_words; try apply slot_index_range; try done.
        intros Ef. apply Ei. by apply (dk_inj _ _ Hd); try apply user_index.
Qed.

(** ** A new page table *)

(** The state with page [t] taken from the kernel pool, filled with [zs],
    and entered in the directory at address [p]. *)
Definition with_table (b : bitmap) (zs : list Z) (t p : Z) (s : machine) : machine :=
  with_vm (Pages (Pool b (base (kernel_pool (vm s)))) (user_pool (vm s))
    (write p (le_bytes 4 (t - PHYS_BASE + 7)) (write t zs (mem_of s)))) s.

Lemma used_page_grows s t i b a :
  allocates false s 1 i b → kernel_pool t = Pool b (base (kernel_pool s)) → used_page s a → used_page t a.
Proof.
  intros (Hi & Hf & _ & _ & Hn & Hb) E (j & -> & Hj & Hu). exists j. rewrite E. cbn [pool_of used_map base] in *.
  rewrite Hn. split_and!; [done|lia..|]. rewrite Hb by lia. by case_decide.
Qed.

Section new_table.
Context (s : machine) (pd v i : Z) (b : bitmap) (zs : list Z) (Hzs : zs = replicate (page_bytes 1) 0).
Context (Hd : dir_ok s pd) (Hv : 0 ≤ v < PHYS_BASE) (Hal : allocates false (vm s) 1 i b).

Let t : Z := base (kernel_pool (vm s)) + 4096 * i.
Let s' : machine := with_table b zs t (pd + 4 * (v / 4194304)) s.
Let e : Z := t - PHYS_BASE + 7.

Lemma new_table_range : t `mod` 4096 = 0 ∧ PHYS_BASE ≤ t ∧ t + 4096 < 2^32.
Proof.
  destruct Hal as (Hi & _), Hd as [Hp _ Hh _ _ _]. cbn [pool_of] in Hi. pose proof (pk_kernel _ Hp) as Hk.
  destruct (pages_mapped _ _ i 1 Hk) as (_ & _ & _ & H1); [lia..|].
  destruct Hk as [_ Hb0 _]. unfold t. split_and!; [dlia|lia|lia].
Qed.

Lemma new_table_fresh a : used_page (vm s) a → a ≠ t.
Proof.
  intros (j & -> & Hj & Hu) E. assert (j = i) as -> by (unfold t in E; lia).
  destruct Hal as (_ & Hf & _). cbn [pool_of] in Hf. rewrite (Hf i) in Hu by lia. done.
Qed.

Lemma new_table_used : used_page (vm s') t.
Proof.
  destruct Hal as (Hi & _ & _ & _ & Hn & Hb). cbn [pool_of] in *.
  exists i. unfold s'. cbn [with_table with_vm vm kernel_pool used_map base].
  rewrite Hn, Hb, decide_True by lia. split_and!; try done; lia.
Qed.

Lemma new_table_frame : frame e = t ∧ e `mod` 2 = 1 ∧ e ≠ 0 ∧ in_u32 e.
Proof.
  destruct new_table_range as (H1 & H2 & H3). unfold e. rewrite frame_entry by lia.
  unfold in_u32, PHYS_BASE in *. clearbody t. dlia.
Qed.

(** The new page is apart from every page in use. *)
Lemma new_table_apart a k : used_page (vm s) a → 0 ≤ k < 1024 → disjoint_blocks (a + 4 * k) 4 t (length zs).
Proof.
  intros Hu Hk. rewrite Hzs, length_replicate. unfold page_bytes. destruct new_table_range as (H1 & _), (used_page_range _ _ _ Hd Hu) as (H2 & _).
  destruct (aligned_apart a t H2 H1) as [|]; [by apply new_table_fresh|unfold disjoint_blocks; lia..].
Qed.

Lemma with_table_pde j :
  0 ≤ j < 768 → pde_at s' pd j = if decide (j = v / 4194304) then e else pde_at s pd j.
Proof.
  intros Hj. unfold pde_at at 1, s'. cbn [with_table mem_of with_vm vm ram]. case_decide as Ej.
  - subst j. apply word_write, new_table_frame.
  - rewrite word_write_other by (rewrite length_le_bytes; unfold disjoint_blocks; lia).
    apply word_write_other, new_table_apart; [apply Hd|lia].
Qed.

Lemma with_table_ok : dir_ok s' pd.
Proof.
  destruct Hd as [Hp Hby Hh Hpd Ht Hinj]. destruct new_table_frame as (Hfe & Hodd & Hne & _).
  assert (Hgrow : ∀ a, used_page (vm s) a → used_page (vm s') a) by (intros a; by eapply used_page_grows).
  split; [| |done|auto| |].
  - destruct Hal as (_ & _ & _ & Hw & Hn & _).
    refine (pages_ok_update false (vm s) b (mem_of s') Hp Hw Hn _). intros a Ha. by apply write_some, write_some.
  - apply bytes_ok_write; [|apply le_bytes_range]. apply bytes_ok_write; [done|]. rewrite Hzs. apply Forall_replicate. lia.
  - intros j Hj. rewrite with_table_pde by done. case_decide.
    + intros _. rewrite Hfe. split_and!; [done|apply new_table_used|]. by apply not_eq_sym, new_table_fresh.
    + intros Hn. destruct (Ht j Hj Hn) as (? & ? & ?). auto.
  - intros j k Hj Hk. rewrite !with_table_pde by done. repeat case_decide; subst; try done; rewrite ?Hfe; intros H1 H2 Ef.
    + exfalso. destruct (Ht k Hk H2) as (_ & Hu & _). by apply new_table_fresh in Hu.
    + exfalso. destruct (Ht j Hj H1) as (_ & Hu & _). by apply new_table_fresh in Hu.
    + by apply Hinj.
Qed.

Lemma with_table_entry v' :
  pde_at s pd (v / 4194304) = 0 → 0 ≤ v' < PHYS_BASE → entry s' pd v' = entry s pd v'.
Proof.
  intros He Hv'. unfold entry. rewrite with_table_pde by (by apply user_index). pose proof (slot_index_range v').
  destruct new_table_frame as (Hfe & _ & Hne & _), new_table_range as (Hta & _).
  pose proof (user_index v Hv). destruct (used_page_range _ _ _ Hd (dk_pd _ _ Hd)) as (Hpa & _).
  destruct (decide (v' / 4194304 = v / 4194304)) as [Ei|Ei];
    [rewrite (decide_False (P := e = 0)), Ei, He, decide_True by done|case_decide as Ee; [done|]].
  - unfold pte_slot. rewrite Hfe. unfold s'. cbn [with_table mem_of with_vm vm ram].
    rewrite word_write_other by (rewrite length_le_bytes; apply pages_apart_words; [done|done|apply not_eq_sym, new_table_fresh, Hd|done|lia]).
    rewrite Hzs. apply word_zeros; unfold page_bytes; lia.
  - destruct (dk_tables _ _ Hd _ (user_index v' Hv') Ee) as (_ & Hu & Hnp). unfold s', pte_slot.
    cbn [with_table mem_of with_vm vm ram]. destruct (used_page_range _ _ _ Hd Hu) as (Hua & _).
    rewrite word_write_other by (rewrite length_le_bytes; apply pages_apart_words; [done..|lia]).
    by apply word_write_other, new_table_apart.
Qed.

Lemma with_table_apart : apart s s'.
Proof.
  destruct Hal as (Hi & _ & _ & _ & Hn & _), (dk_pd _ _ Hd) as (j & Ej & Hj & _). pose proof (user_index v Hv) as Hx.
  cbn [pool_of] in *. split; [done|done|exact Hn|done|]. intros a Ha. unfold s'. cbn [with_table mem_of with_vm vm ram].
  rewrite !lookup_write, length_le_bytes, Hzs, length_replicate. unfold page_bytes. unfold t in *.
  rewrite !decide_False by lia. done.
Qed.
End new_table.

Lemma palloc_zeroed s :
  pages_ok s →
  ∃ zs, zs = replicate (page_bytes 1) 0 ∧
  ((∃ i b, allocates false s 1 i b ∧
     palloc_get_page PAL_ZERO s = Ok (base (kernel_pool s) + 4096 * i,
       Pages (Pool b (base (kernel_pool s))) (user_pool s) (write (base (kernel_pool s) + 4096 * i) zs (ram s)))) ∨
   full false s 1 ∧ palloc_get_page PAL_ZERO s = Ok (NULL, s)).
Proof.
  intros Hs. pose proof (palloc_get_ok PAL_ZERO 1 s Hs ltac:(lia)) as H. cbv zeta in H.
  assert (Eu : wants PAL_ZERO PAL_USER = false) by done. assert (Ea : wants PAL_ZERO PAL_ASSERT = false) by done.
  assert (Ez : ∀ m1 m2 : mem, (if wants PAL_ZERO PAL_ZERO then m1 else m2) = m1) by done.
  assert (Es : ∀ p k u m, set_pool false p (Pages k u m) = Pages p u m) by done.
  setoid_rewrite Ez in H. rewrite Eu, Ea in H. setoid_rewrite Es in H. unfold palloc_get_page. exists (replicate (page_bytes 1) 0). split; [reflexivity|]. revert H. generalize (replicate (page_bytes 1) 0) as zs.
  intros zs H. exact H.
Qed.

(** lookup_page with CREATE: the entry's address and the same mappings, or no
    memory for a table. *)
Lemma lookup_page_create s pd v :
  dir_ok s pd → 0 ≤ v < PHYS_BASE →
  (∃ s', lookup_page pd v true s = Ok (pte_slot (pde_at s' pd (v / 4194304)) v, s') ∧ dir_ok s' pd ∧
     pde_at s' pd (v / 4194304) ≠ 0 ∧ cr3 s' = cr3 s ∧ tlb s' = tlb s ∧ apart s s' ∧
     ∀ v', 0 ≤ v' < PHYS_BASE → entry s' pd v' = entry s pd v') ∨
  full false (vm s) 1 ∧ lookup_page pd v true s = Ok (NULL, s).
Proof.
  intros Hd Hv. destruct (pde_mapped s pd v Hd Hv) as (Eu & Hm & Hnn). unfold lookup_page.
  erewrite st_bind_ok by (by apply assert_ok, bool_decide_eq_true).
  erewrite st_bind_ok by (apply assert_ok, bool_decide_eq_true; lia). rewrite Eu.
  erewrite st_bind_ok by (by apply get_word_ok). fold (pde_at s pd (v / 4194304)).
  destruct (decide (pde_at s pd (v / 4194304) = 0)) as [E|E]; cbv iota.
  2: { erewrite st_bind_ok by done. cbv iota. left. exists s. by destruct (slot_result s pd v Hd Hv E) as [-> _]. }
  destruct (palloc_zeroed (vm s) (dk_pages _ _ Hd)) as (zs & Hzs & [(i & b & Hal & Eg)|[Hf Eg]]).
  - left. destruct (new_table_range s pd v i b Hd Hv Hal) as (Ht & Hh & Hr).
    pose proof (with_table_ok s pd v i b zs Hzs Hd Hv Hal) as Hok.
    pose proof (λ v', with_table_entry s pd v i b zs Hzs Hd Hv Hal v' E) as Hen.
    pose proof (with_table_pde s pd v i b zs Hzs Hd Hv Hal (v / 4194304) (user_index v Hv)) as Hpde.
    pose proof (with_table_apart s pd v i b zs Hzs Hd Hv Hal) as Hap.
    cbn [pool_of] in *. set (t := base (kernel_pool (vm s)) + 4096 * i) in *.
    set (s' := with_table b zs t (pd + 4 * (v / 4194304)) s) in *. rewrite decide_True in Hpde by done.
    assert (Hne : pde_at s' pd (v / 4194304) ≠ 0) by (rewrite Hpde; unfold PHYS_BASE in *; lia).
    rewrite (st_bind_ok _ _ s true s').
    + cbv iota. exists s'. by destruct (slot_result s' pd v Hok Hv Hne) as [-> _].
    + erewrite st_bind_ok by (unfold on_vm; by rewrite Eg).
      rewrite decide_False by (unfold NULL, PHYS_BASE in *; lia).
      erewrite st_bind_ok by (apply st_res_ok, pde_create_ok; [done|lia]).
      erewrite st_bind_ok; [reflexivity|]. apply set_word_ok. unfold mem_of. cbn. by apply mapped_write.
  - right. split; [exact Hf|]. erewrite (st_bind_ok _ _ s false s); [done|].
    erewrite st_bind_ok by (unfold on_vm; rewrite Eg; reflexivity). by destruct s.
Qed.

(** ** The directory as a map *)

Definition user_page (v : Z) : Prop := 0 ≤ v < PHYS_BASE.

(** Every frame is an address of the kernel's. *)
Definition frames_ok (s : machine) (pd : Z) : Prop :=
  ∀ v f, user_page v → mapping s pd v = Some f → f < 2^32.

(** While [pd] is active, every cached translation is one of its mappings. *)
Definition tlb_ok (s : machine) (pd : Z) : Prop :=
  0 ≤ cr3 s < 2^30 ∧
  (cr3 s + PHYS_BASE = pd → ∀ v f, user_page v → tlb s !! (v / 4096) = Some f → mapping s pd v = Some f).

Lemma mapping_present s pd v : mapping s pd v = None ↔ Z.land (entry s pd v) PTE_P = 0.
Proof.
  unfold mapping. rewrite land_present. pose proof (Z.mod_pos_bound (entry s pd v) 2).
  case_decide; split; intros; first [done|lia].
Qed.

(** Reading the entry of an address. *)
Lemma entry_word s pd v :
  dir_ok s pd → user_page v → pde_at s pd (v / 4194304) ≠ 0 →
  pte_slot (pde_at s pd (v / 4194304)) v ≠ NULL ∧
  get_word (pte_slot (pde_at s pd (v / 4194304)) v) s = Ok (entry s pd v, s).
Proof.
  intros Hd Hv He. destruct (table_of s pd v Hd Hv He) as (_ & _ & _ & Hm & _).
  split; [by destruct (slot_result s pd v Hd Hv He)|]. rewrite get_word_ok by done. unfold entry. by rewrite decide_False.
Qed.

Lemma entry_none s pd v : pde_at s pd (v / 4194304) = 0 → mapping s pd v = None.
Proof. intros E. unfold mapping, entry. by rewrite E. Qed.

Lemma pagedir_get_page_ok s pd v :
  dir_ok s pd → frames_ok s pd → user_page v →
  pagedir_get_page pd v s =
    Ok (match mapping s pd v with Some f => f + v `mod` 4096 | None => NULL end, s).
Proof.
  intros Hd Hf Hv. unfold pagedir_get_page. erewrite st_bind_ok by (apply assert_ok, bool_decide_eq_true, Hv).
  erewrite st_bind_ok by (by apply lookup_page_find). destruct (decide (pde_at s pd (v / 4194304) = 0)) as [E|E].
  - rewrite (decide_False (P := NULL ≠ NULL)) by auto. by rewrite entry_none.
  - destruct (entry_word s pd v Hd Hv E) as [Hn Hg]. rewrite decide_True by done. erewrite st_bind_ok by exact Hg.
    case_decide as Hp; destruct (mapping s pd v) as [f|] eqn:Em.
    + pose proof (Hf v f Hv Em) as Hr. unfold mapping in Em. case_decide; [|done]. injection Em as <-.
      assert (He : in_u32 (entry s pd v)) by (unfold entry; rewrite decide_False by done; apply word_range, Hd).
      erewrite st_bind_ok by (by apply st_res_ok, pte_get_page_ok). rewrite pg_ofs_mod.
      unfold mret, ST_ret. rewrite u32_id; [done|]. unfold frame, in_u32, PHYS_BASE in *. dlia.
    + by apply mapping_present in Em.
    + exfalso. assert (mapping s pd v = None) by (apply mapping_present; lia). congruence.
    + done.
Qed.

(** A new mapping replaces none. *)
Definition adds (s s' : machine) (pd u k : Z) : Prop :=
  dir_ok s' pd ∧ apart s s' ∧
  (∀ v, user_page v → mapping s' pd v = if decide (v / 4096 = u / 4096) then Some k else mapping s pd v) ∧
  (tlb_ok s pd → tlb_ok s' pd).

Lemma mapping_page s pd v v' : v / 4096 = v' / 4096 → mapping s pd v = mapping s pd v'.
Proof. intros E. unfold mapping, entry, pte_slot. by rewrite !page_index, E. Qed.

Lemma pagedir_set_page_ok s pd u k w :
  dir_ok s pd → pd ≠ init_page_dir s → user_page u → u `mod` 4096 = 0 → k `mod` 4096 = 0 → PHYS_BASE ≤ k < 2^32 →
  (k - PHYS_BASE) / 4096 < init_ram_pages s → mapping s pd u = None →
  (∃ s', pagedir_set_page pd u k w s = Ok (true, s') ∧ adds s s' pd u k) ∨
  full false (vm s) 1 ∧ pagedir_set_page pd u k w s = Ok (false, s).
Proof.
  intros Hd Hi Hu Hua Hka Hk Hram Hn. unfold pagedir_set_page. erewrite st_bind_ok by done.
  assert (Ev : vtop k = Ok (k - PHYS_BASE)).
  { unfold vtop, is_kernel_vaddr. rewrite bool_decide_true by lia. cbn. rewrite u32_id; [done|]. unfold in_u32, PHYS_BASE in *. lia. }
  do 3 (erewrite st_bind_ok by (apply assert_ok, bool_decide_eq_true; rewrite ?pg_ofs_mod; first [done|apply Hu])).
  erewrite st_bind_ok by (by apply st_res_ok).
  erewrite st_bind_ok by (apply assert_ok, bool_decide_eq_true; change PTSHIFT with 12; by rewrite Z.shiftr_div_pow2).
  erewrite st_bind_ok by (by apply assert_ok, bool_decide_eq_true).
  destruct (lookup_page_create s pd u Hd Hu) as [(s1 & El & Hd1 & He & Hc & Ht & Hap1 & Hent)|[Hf El]];
    [left|right; split; [done|]; by erewrite st_bind_ok by exact El].
  erewrite st_bind_ok by exact El. destruct (entry_word s1 pd u Hd1 Hu He) as [Hnn Hg]. rewrite decide_True by done.
  erewrite st_bind_ok by exact Hg.
  assert (Hz : Z.land (entry s1 pd u) PTE_P = 0) by (rewrite Hent by done; by apply mapping_present).
  erewrite st_bind_ok by (by apply assert_ok, bool_decide_eq_true).
  erewrite st_bind_ok by (by apply st_res_ok, pte_create_user_ok).
  set (e := k - PHYS_BASE + _). assert (Hel : frame e = k ∧ e `mod` 2 = 1 ∧ in_u32 e).
  { unfold e. rewrite frame_entry by (by destruct w). unfold in_u32, PHYS_BASE in *. destruct w; dlia. }
  destruct (table_of s1 pd u Hd1 Hu He) as (_ & _ & _ & Hm & _).
  erewrite st_bind_ok by (by apply set_word_ok). eexists. split; [reflexivity|].
  destruct (slot_write s1 pd u e Hd1 Hu He) as (Hd2 & _ & Hap2 & Hw); [apply Hel|]. set (s2 := with_mem _ s1) in *.
  assert (Hmap : ∀ v, user_page v → mapping s2 pd v = if decide (v / 4096 = u / 4096) then Some k else mapping s pd v).
  { intros v Hv. unfold mapping. rewrite Hw by done. destruct (decide (v / 4096 = u / 4096)); [|by rewrite Hent].
    destruct Hel as (-> & -> & _). by rewrite decide_True. }
  split_and!; [done|by transitivity s1|done|]. intros [Hcr Htlb]. split; [by rewrite <- Hc in Hcr|]. cbn [s2 with_mem with_vm cr3 tlb].
  rewrite Hc, Ht. intros Ea v f Hv Ef. rewrite Hmap by done. apply Htlb in Ef; [|done..].
  case_decide as Ep; [|done]. rewrite (mapping_page _ _ _ _ Ep) in Ef. congruence.
Qed.

(** ** Removing a mapping *)

Lemma clear_present e : in_u32 e → Z.land e PTE_P ≠ 0 → Z.land e (u32 (Z.lnot PTE_P)) = e - 1.
Proof.
  intros He Hp. rewrite land_present in Hp. change (u32 (Z.lnot PTE_P)) with (Z.ldiff (Z.ones 32) (Z.ones 1)).
  rewrite Z.ldiff_land, Z.land_assoc, Z.land_ones by lia. unfold in_u32 in He. rewrite Z.mod_small by lia.
  rewrite <- Z.ldiff_land, Z.ldiff_ones_r, Z.shiftl_mul_pow2, Z.shiftr_div_pow2 by lia. change (2^1) with 2. dlia.
Qed.

Definition flushed (pd : Z) (s : machine) : machine :=
  if decide (cr3 s + PHYS_BASE = pd) then Machine (vm s) (init_page_dir s) (init_ram_pages s) (cr3 s) ∅ else s.

Lemma invalidate_ok s pd : 0 ≤ cr3 s < 2^30 → invalidate_pagedir pd s = Ok ((), flushed pd s).
Proof.
  intros Hc. unfold invalidate_pagedir, active_pd, flushed.
  assert (Ep : ptov (cr3 s) = Ok (cr3 s + PHYS_BASE)).
  { unfold ptov. rewrite bool_decide_true by (unfold PHYS_BASE; lia). cbn. rewrite u32_id; [done|].
    unfold in_u32, PHYS_BASE. lia. }
  erewrite st_bind_ok by (erewrite st_bind_ok by done; by apply st_res_ok).
  case_decide as E; [|done]. unfold pagedir_activate. erewrite st_bind_ok by done.
  rewrite decide_False by (unfold NULL, PHYS_BASE in *; lia). subst pd.
  assert (Ev : vtop (cr3 s + PHYS_BASE) = Ok (cr3 s)).
  { unfold vtop, is_kernel_vaddr. rewrite bool_decide_true by lia. cbn.
    rewrite u32_id; [f_equal; lia|]. unfold in_u32, PHYS_BASE. lia. }
  by erewrite st_bind_ok by (by apply st_res_ok).
Qed.

Lemma flushed_ok s pd :
  dir_ok s pd → dir_ok (flushed pd s) pd ∧ (∀ v, mapping (flushed pd s) pd v = mapping s pd v) ∧
  (0 ≤ cr3 s < 2^30 → tlb_ok (flushed pd s) pd).
Proof.
  intros Hd. unfold flushed, tlb_ok. case_decide; split_and!; try done.
  - by destruct Hd; split.
Qed.

(** No mapping for the page is left, in the directory or in the TLB. *)
Definition removes (s s' : machine) (pd u : Z) : Prop :=
  dir_ok s' pd ∧ apart s s' ∧
  (∀ v, user_page v → mapping s' pd v = if decide (v / 4096 = u / 4096) then None else mapping s pd v) ∧
  (tlb_ok s pd → tlb_ok s' pd).

Lemma removes_none s pd u : dir_ok s pd → mapping s pd u = None → removes s s pd u.
Proof.
  intros Hd Hn. split_and!; [done|done| |done]. intros v Hv. case_decide as E; [|done]. by rewrite (mapping_page _ _ _ _ E).
Qed.

Lemma pagedir_clear_page_ok s pd u :
  dir_ok s pd → user_page u → u `mod` 4096 = 0 → 0 ≤ cr3 s < 2^30 →
  ∃ s', pagedir_clear_page pd u s = Ok ((), s') ∧ removes s s' pd u.
Proof.
  intros Hd Hu Hua Hc. unfold pagedir_clear_page.
  do 2 (erewrite st_bind_ok by (apply assert_ok, bool_decide_eq_true; rewrite ?pg_ofs_mod; first [done|apply Hu])).
  erewrite st_bind_ok by (by apply lookup_page_find). destruct (decide (pde_at s pd (u / 4194304) = 0)) as [E|E].
  { rewrite (decide_False (P := NULL ≠ NULL)) by auto. exists s. split; [done|]. by apply removes_none, entry_none. }
  destruct (entry_word s pd u Hd Hu E) as [Hnn Hg]. rewrite decide_True by done. erewrite st_bind_ok by exact Hg.
  case_decide as Hp; [|exists s; split; [done|]; apply removes_none, mapping_present; [done|lia]].
  assert (He : in_u32 (entry s pd u)) by (unfold entry; rewrite decide_False by done; apply word_range, Hd).
  rewrite clear_present by done. destruct (table_of s pd u Hd Hu E) as (_ & _ & _ & Hm & _).
  erewrite st_bind_ok by (by apply set_word_ok). rewrite land_present in Hp.
  destruct (slot_write s pd u (entry s pd u - 1) Hd Hu E) as (Hd' & _ & Hap & Hw); [unfold in_u32 in *; dlia|].
  set (s' := with_mem _ s) in *. rewrite invalidate_ok by done. exists (flushed pd s'). split; [done|].
  destruct (flushed_ok s' pd Hd') as (Hf & Hmap & Ht). split_and!; [done| | |intros _; by apply Ht].
  { transitivity s'; [done|]. unfold flushed. by case_decide. }
  intros v Hv. rewrite Hmap. unfold mapping. rewrite Hw by done. destruct (decide (v / 4096 = u / 4096)); [|done].
  rewrite decide_False; [done|dlia].
Qed.

(** ** Accessed and dirty bits *)

(** A bit of an entry apart from its present bit and its address. *)
Definition flag_bit (bit : Z) : Prop := bit = PTE_A ∨ bit = PTE_D.

Definition with_bit (bit e : Z) (value : bool) : Z :=
  if value then Z.lor e bit else Z.land e (u32 (Z.lnot bit)).

Lemma with_bit_ok bit e value :
  flag_bit bit → in_u32 e →
  in_u32 (with_bit bit e value) ∧ with_bit bit e value `mod` 2 = e `mod` 2 ∧
  frame (with_bit bit e value) = frame e ∧ bool_decide (Z.land (with_bit bit e value) bit ≠ 0) = value.
Proof.
  intros Hb He. assert (Eo : Z.land e (Z.ones 32) = e) by (rewrite Z.land_ones by lia; by apply Z.mod_small).
  assert (Hr : in_u32 (with_bit bit e value)).
  { unfold in_u32. assert (E : Z.land (with_bit bit e value) (Z.ones 32) = with_bit bit e value).
    - unfold with_bit. destruct value; [rewrite Z.land_lor_distr_l, Eo|rewrite Z.land_comm, Z.land_assoc, (Z.land_comm _ e), Eo; done].
      by destruct Hb as [-> | ->].
    - rewrite <- E, Z.land_ones by lia. apply Z.mod_pos_bound. lia. }
  assert (Ea : ∀ x, in_u32 x → frame x = Z.land x 4294963200 + PHYS_BASE) by (intros x Hx; by rewrite land_page_mask).
  rewrite !Ea by done. rewrite <- !land_present. split; [done|]. unfold with_bit. destruct value.
  - rewrite !Z.land_lor_distr_l. split_and!; [| |apply bool_decide_eq_true; rewrite Z.lor_eq_0_iff];
      destruct Hb as [-> | ->]; rewrite ?Z.lor_0_r; try done; by intros [_ ?].
  - rewrite <- !Z.land_assoc. destruct Hb as [-> | ->]; (split_and!; [done..|]); apply bool_decide_eq_false;
      intros H; apply H; apply Z.land_0_r.
Qed.

(** Setting a bit changes no mapping; a later test reads it. *)
Lemma set_bit_ok bit s pd v value :
  flag_bit bit → dir_ok s pd → user_page v → 0 ≤ cr3 s < 2^30 → pde_at s pd (v / 4194304) ≠ 0 →
  ∃ s', set_bit bit pd v value s = Ok ((), s') ∧ dir_ok s' pd ∧
    (∀ v', user_page v' → mapping s' pd v' = mapping s pd v') ∧ test_bit bit pd v s' = Ok (value, s').
Proof.
  intros Hb Hd Hv Hc E. destruct (entry_word s pd v Hd Hv E) as [Hnn Hg].
  assert (He : in_u32 (entry s pd v)) by (unfold entry; rewrite decide_False by done; apply word_range, Hd).
  destruct (with_bit_ok bit (entry s pd v) value Hb He) as (Hr & H2 & Hfr & Ht).
  destruct (slot_write s pd v (with_bit bit (entry s pd v) value) Hd Hv E Hr) as (Hd' & Hpde & _ & Hw).
  destruct (table_of s pd v Hd Hv E) as (_ & _ & _ & Hm & _).
  pose proof (set_word_ok s _ (with_bit bit (entry s pd v) value) Hm) as Hs. set (s1 := with_mem _ s) in *.
  assert (Hmap : ∀ v', user_page v' → mapping s1 pd v' = mapping s pd v').
  { intros v' Hv'. unfold mapping. rewrite Hw by done. destruct (decide (v' / 4096 = v / 4096)) as [Ep|]; [|done].
    assert (Een : entry s pd v' = entry s pd v) by (unfold entry, pte_slot; by rewrite !page_index, Ep).
    by rewrite H2, Hfr, Een. }
  assert (Htest : ∀ s2, mem_of s2 = mem_of s1 → dir_ok s2 pd → test_bit bit pd v s2 = Ok (value, s2)).
  { intros s2 Em Hd2. assert (E2 : pde_at s2 pd (v / 4194304) ≠ 0).
    { unfold pde_at. rewrite Em. fold (pde_at s1 pd (v / 4194304)). by rewrite Hpde by (by apply user_index). }
    unfold test_bit. erewrite st_bind_ok by (by apply lookup_page_find). rewrite (decide_False (P := _ = 0)) by done.
    destruct (entry_word s2 pd v Hd2 Hv E2) as [Hn2 Hg2]. rewrite decide_True by done. erewrite st_bind_ok by exact Hg2.
    assert (entry s2 pd v = entry s1 pd v) as -> by (unfold entry, pde_at; by rewrite Em).
    rewrite Hw, decide_True by done. by rewrite Ht. }
  unfold set_bit. erewrite st_bind_ok by (by apply lookup_page_find). rewrite (decide_False (P := _ = 0)) by done.
  rewrite decide_True by done. erewrite st_bind_ok by exact Hg. destruct value; unfold with_bit in Hs.
  - exists s1. split_and!; [exact Hs|done|done|by apply Htest].
  - erewrite st_bind_ok by exact Hs. rewrite invalidate_ok by done. exists (flushed pd s1).
    destruct (flushed_ok s1 pd Hd') as (Hf & Hfm & _). split_and!; [done|done| |].
    + intros v' Hv'. rewrite Hfm. by apply Hmap.
    + apply Htest; [|done]. unfold flushed. destruct (decide _); done.
Qed.

(** ** Creating a directory *)

(** The kernel's own directory maps no user page. *)
Definition kernel_dir (s : machine) : Prop :=
  dir_ok s (init_page_dir s) ∧ ∀ i, 0 ≤ i < 768 → pde_at s (init_page_dir s) i = 0.

Lemma page_words m p q bs i :
  holds m q bs → length bs = page_bytes 1 → 0 ≤ i < 1024 → word (write p bs m) (p + 4 * i) = word m (q + 4 * i).
Proof.
  intros [_ Hh] Hl Hi. unfold page_bytes in Hl. unfold word. f_equal. apply list_fmap_ext. intros k x Hx.
  assert (Hxr : 0 ≤ x < 4) by (apply list_elem_of_lookup_2 in Hx; rewrite !elem_of_cons, elem_of_nil in Hx; lia).
  rewrite lookup_write, decide_True by lia. replace (Z.to_nat (p + 4 * i + x - p)) with (Z.to_nat (4 * i + x)) by lia.
  replace (q + 4 * i + x) with (q + Z.of_nat (Z.to_nat (4 * i + x))) by lia. by rewrite Hh by lia.
Qed.

Lemma pagedir_create_ok s :
  kernel_dir s →
  (∃ pd s', pagedir_create s = Ok (pd, s') ∧ ¬ used_page (vm s) pd ∧ dir_ok s' pd ∧
     (∀ i, 0 ≤ i < 1024 → pde_at s' pd i = pde_at s (init_page_dir s) i) ∧
     ∀ v, user_page v → mapping s' pd v = None) ∨
  full false (vm s) 1 ∧ pagedir_create s = Ok (NULL, s).
Proof.
  intros [Hd Hz]. pose proof (palloc_get_ok 0 1 (vm s) (dk_pages _ _ Hd) ltac:(lia)) as Hg.
  change (wants 0 PAL_USER) with false in Hg. change (wants 0 PAL_ZERO) with false in Hg. cbn [pool_of set_pool wants kernel_pool user_pool ram] in Hg.
  unfold pagedir_create, palloc_get_page. destruct Hg as [(i & b & Hal & Eg)|[Hf Eg]]; [left|right].
  2: { split; [done|]. erewrite st_bind_ok by (unfold on_vm; rewrite Eg; reflexivity).
       by destruct s as [[] ? ? ? ?]. }
  assert (Hv : 0 ≤ 0 < PHYS_BASE) by (unfold PHYS_BASE; lia).
  destruct (new_table_range s _ 0 i b Hd Hv Hal) as (Ht & Hh & Hr).
  pose proof (new_table_fresh s i b Hal) as Hfresh.
  set (t := base (kernel_pool (vm s)) + 4096 * i) in *. set (q := init_page_dir s) in *.
  destruct (used_page_range _ _ _ Hd (dk_pd _ _ Hd)) as (Hqa & _ & _ & Hqm).
  destruct (mapped_bytes _ _ _ (dk_bytes _ _ Hd) Hqm) as (bs & Hbs & Hl & Hby).
  assert (Hl1 : Z.of_nat (length bs) = PGSIZE) by (by rewrite Hl).
  assert (Htm : mapped (mem_of s) t (length bs)).
  { destruct Hal as (Hi & _). destruct (pages_mapped _ _ i 1 (pk_kernel _ (dk_pages _ _ Hd))) as (Hm & _); [cbn in Hi; lia..|].
    rewrite Hl. exact Hm. }
  set (s' := with_vm (Pages (Pool b (base (kernel_pool (vm s)))) (user_pool (vm s)) (write t bs (mem_of s))) s).
  exists t, s'.
  assert (Hpde : ∀ k, 0 ≤ k < 1024 → pde_at s' t k = pde_at s q k) by (intros k Hk; by apply page_words).
  assert (Ez : ∀ k, 0 ≤ k < 768 → pde_at s' t k = 0) by (intros k Hk; rewrite Hpde by lia; by apply Hz).
  split_and!; [|by intros Hu; apply Hfresh in Hu| |done|].
  - erewrite st_bind_ok by (unfold on_vm; rewrite Eg; reflexivity). rewrite decide_True by (unfold NULL, PHYS_BASE in *; lia).
    erewrite st_bind_ok; [reflexivity|]. erewrite st_bind_ok by done. erewrite st_bind_ok; [reflexivity|].
    unfold on_vm. rewrite <- Hl1. erewrite on_ram_ok; [reflexivity|]. apply memcpy_ok; [done|done|].
    change (disjoint_blocks t (length bs) q (length bs)). rewrite Hl. pose proof (Hfresh q (dk_pd _ _ Hd)).
    destruct (aligned_apart t q) as [|]; try done; unfold disjoint_blocks; lia.
  - split.
    + destruct Hal as (_ & _ & _ & Hw & Hn & _).
      refine (pages_ok_update false (vm s) b (mem_of s') (dk_pages _ _ Hd) Hw Hn _). intros a Ha. by apply write_some.
    + apply bytes_ok_write; [apply Hd|done].
    + apply Hd.
    + exact (new_table_used s q 0 i b [] Hal).
    + intros k Hk. by rewrite Ez.
    + intros j k Hj Hk. by rewrite Ez.
  - intros v Hu. apply entry_none, Ez, user_index, Hu.
Qed.
