(* ===== verification/MemTheorems.v ===== *)
(** * Theorems about memory: palloc.c, malloc.c, pagedir.c

    The properties of the page allocator, the block allocator and page
    directories, each with an instance on a small machine. *)

From S2P Require Import Prelude Bitmap Memory CString Vaddr Palloc Malloc MallocSpec Pagedir.

Local Open Scope Z_scope.

(** ** A small machine: a kernel pool of two pages, a user pool of one *)

Definition demo_ram : mem := write 3222274048 (replicate (page_bytes 3) 0) ∅.

(** The pages of the kernel pool that are in use, as a word of bits. *)
Definition demo_pages (used : Z) : pages :=
  Pages (Pool (Bitmap 2 [used]) 3222274048) (Pool (Bitmap 1 [0]) 3222282240) demo_ram.

Lemma demo_mapped p k :
  0 ≤ k → 3222274048 ≤ p → p + 4096 * k ≤ 3222286336 → mapped demo_ram p (page_bytes k).
Proof.
  intros Hk Hp Hpk. assert (H : mapped demo_ram 3222274048 (length (replicate (page_bytes 3) 0))).
  { apply holds_mapped, holds_write; rewrite ?length_replicate; unfold page_bytes; lia. }
  rewrite length_replicate in H. destruct H as [_ H]. split; [unfold page_bytes; lia|]. intros i Hi.
  replace (p + Z.of_nat i) with (3222274048 + Z.of_nat (Z.to_nat (p - 3222274048) + i)) by lia.
  apply H. unfold page_bytes in *. lia.
Qed.

Lemma demo_kernel used : in_u32 used → pool_ok (kernel_pool (demo_pages used)) (ram (demo_pages used)).
Proof.
  intros Hu. split; cbn [demo_pages kernel_pool base used_map bit_cnt ram].
  - split; cbn [bit_cnt bits]; [lia|by vm_compute|by constructor].
  - by vm_compute.
  - apply (demo_mapped 3222274048 2); lia.
Qed.

Lemma demo_user used : pool_ok (user_pool (demo_pages used)) (ram (demo_pages used)).
Proof.
  split; cbn [demo_pages user_pool base used_map bit_cnt ram].
  - compute_hyp.
  - by vm_compute.
  - apply (demo_mapped 3222282240 1); lia.
Qed.

Lemma demo_pages_ok used : in_u32 used → pages_ok (demo_pages used).
Proof.
  intros Hu. split; [by apply demo_kernel|apply demo_user|cbn [demo_pages kernel_pool user_pool base used_map bit_cnt]; lia].
Qed.

Lemma demo_bytes : bytes_ok demo_ram.
Proof. apply bytes_ok_write; [by intros a b ?|]. apply Forall_replicate. lia. Qed.

(** ** Pages *)

Lemma palloc_free_twice user s i cnt :
  pages_ok s → 0 ≤ i → 0 < cnt → i + cnt ≤ bit_cnt (used_map (pool_of user s)) →
  all_bits (used_map (pool_of user s)) i cnt true →
  let p := base (pool_of user s) + 4096 * i in
  ∃ s', palloc_free_multiple p cnt s = Ok ((), s') ∧ pages_ok s' ∧
    (∀ j, 0 ≤ j → bit_at (used_map (pool_of user s')) j =
       if decide (i ≤ j < i + cnt) then false else bit_at (used_map (pool_of user s)) j) ∧
    palloc_free_multiple p cnt s' = Err EPanic.
Proof.
  intros Hs Hi Hc Hr Hall p. destruct (palloc_free_ok user s i cnt Hs) as [Hf _]; [lia..|].
  destruct (Hf Hall) as (b & (Hw & Hn & Hb) & E). fold p in E. set (m := write p _ _) in E.
  assert (Hs' : pages_ok (set_pool user (Pool b (base (pool_of user s))) (Pages (kernel_pool s) (user_pool s) m))).
  { apply pages_ok_update; [done..|]. intros a Ha. by apply write_some. }
  clearbody m. set (s' := set_pool user _ _) in E, Hs'.
  assert (Ep : pool_of user s' = Pool b (base (pool_of user s))) by (by destruct user).
  exists s'. rewrite Ep. split_and!; [done..|].
  destruct (palloc_free_ok user s' i cnt Hs') as [_ Hf']; [lia|lia|rewrite Ep; cbn [used_map]; lia|].
  rewrite Ep in Hf'. apply Hf'. intros H. specialize (H i ltac:(lia)). cbn [used_map] in H.
  rewrite Hb, decide_True in H by lia. done.
Qed.

(** Palloc_get_multiple takes the first group of consecutive free pages that
    is long enough from the pool asked for, marks exactly these pages, and
    clears them if asked to; without such a group it returns a null pointer or
    panics, as asked.  palloc_free_multiple of these pages gives back exactly
    them, and freeing them again panics. *)
Theorem palloc_get_free flags cnt s :
  pages_ok s → 0 < cnt →
  let user := wants flags PAL_USER in
  (∃ i b s' s'', let p := base (pool_of user s) + 4096 * i in
     allocates user s cnt i b ∧ palloc_get_multiple flags cnt s = Ok (p, s') ∧ pages_ok s' ∧
     used_map (pool_of user s') = b ∧ pool_of (negb user) s' = pool_of (negb user) s ∧
     (∀ a, ¬ (p ≤ a < p + 4096 * cnt) → ram s' !! a = ram s !! a) ∧
     (wants flags PAL_ZERO = true → ∀ a, p ≤ a < p + 4096 * cnt → ram s' !! a = Some 0) ∧
     palloc_free_multiple p cnt s' = Ok ((), s'') ∧ pages_ok s'' ∧
     (∀ j, 0 ≤ j → bit_at (used_map (pool_of user s'')) j = bit_at (used_map (pool_of user s)) j) ∧
     palloc_free_multiple p cnt s'' = Err EPanic) ∨
  full user s cnt ∧ palloc_get_multiple flags cnt s = (if wants flags PAL_ASSERT then Err EPanic else Ok (NULL, s)).
Proof.
  intros Hs Hc user. destruct (palloc_get_ok flags cnt s Hs Hc) as [(i & b & Hal & E)|H]; [left|by right].
  fold user in Hal, E. pose proof Hal as (Hi & Hfree & _ & Hw & Hn & Hb).
  pose proof (pages_mapped _ _ i cnt (pool_of_ok user s Hs) ltac:(lia) ltac:(lia) ltac:(lia)) as (_ & Hz & _).
  set (p := base (pool_of user s) + 4096 * i) in *. set (m := if wants flags PAL_ZERO then _ else _) in E.
  assert (Hm : ∀ a, is_Some (ram s !! a) → is_Some (m !! a)).
  { intros a Ha. unfold m. destruct (wants flags PAL_ZERO); [by apply write_some|done]. }
  assert (Hout : ∀ a, ¬ (p ≤ a < p + 4096 * cnt) → m !! a = ram s !! a).
  { intros a Ha. unfold m. destruct (wants flags PAL_ZERO); [|done]. rewrite lookup_write, length_replicate.
    by rewrite decide_False by lia. }
  assert (Hzero : wants flags PAL_ZERO = true → ∀ a, p ≤ a < p + 4096 * cnt → m !! a = Some 0).
  { intros Ez a Ha. unfold m. rewrite Ez, lookup_write, length_replicate, decide_True by lia. apply lookup_replicate_2. lia. }
  clearbody m. pose proof (pages_ok_update user s b m Hs Hw Hn Hm) as Hs1.
  set (s1 := set_pool user _ _) in *.
  assert (Ep : pool_of user s1 = Pool b (base (pool_of user s))) by (by destruct user).
  destruct (palloc_free_twice user s1 i cnt Hs1) as (s2 & E2 & Hs2 & Hb2 & E3); [lia|lia| | |].
  - rewrite Ep. cbn [used_map]. lia.
  - rewrite Ep. cbn [used_map]. intros j Hj. rewrite Hb by lia. by rewrite decide_True by lia.
  - rewrite Ep in E2, Hb2, E3. cbn [used_map base] in *. exists i, b, s1, s2. cbv zeta. fold p.
    split_and!; [done|done|done|by rewrite Ep|by destruct user| | |done|done| |done].
    + intros a Ha. rewrite <- (Hout a Ha). by destruct user.
    + replace (ram s1) with m by (by destruct user). done.
    + intros j Hj. rewrite Hb2, Hb by lia. destruct (decide (i ≤ j < i + cnt)); [|done]. symmetry. by apply Hfree.
Qed.

(** Two zeroed pages of the kernel pool. *)
Lemma palloc_get_free_witness :
  ∃ s' s'', palloc_get_multiple PAL_ZERO 2 (demo_pages 0) = Ok (3222274048, s') ∧
    palloc_free_multiple 3222274048 2 s' = Ok ((), s'').
Proof.
  assert (Hf : all_bits (Bitmap 2 [0]) 0 2 false).
  { intros j Hj. assert (j = 0 ∨ j = 1) as [-> | ->] by lia; by vm_compute. }
  destruct (palloc_get_free PAL_ZERO 2 (demo_pages 0)) as
    [(i & b & s' & s'' & (Hi & _ & Hfirst & _) & E & _ & _ & _ & _ & _ & E' & _)|[Hfull _]].
  - apply demo_pages_ok. unfold in_u32. lia.
  - lia.
  - assert (i = 0) as -> by (change (0 ≤ i ∧ i + 2 ≤ 2) in Hi; lia). exists s', s''. split; [exact E|exact E'].
  - exfalso. by apply (Hfull 0).
Defined.

(** ** Blocks *)

(** The bytes of every block in use but [p] are the same. *)
Definition keeps (h h' : heap) (p : Z) : Prop :=
  ∀ q k a, live h q k → q ≠ p → q ≤ a < q + k → ram (mpages h') !! a = ram (mpages h) !! a.

(** C14: malloc returns a block of at least [size] bytes that overlaps no block in
    use and belongs to the blocks in use from then on, or a null pointer if the
    kernel pool has not enough consecutive free pages.  free of a block in use
    makes exactly that block unused, whether or not it gives the arena's page
    back.  Both keep the allocator's invariant and the contents of the blocks
    in use. *)
Theorem malloc_free_blocks h :
  heap_ok h →
  (∀ size, 0 < size < 2^32 - 4108 → ∃ p h', malloc size h = Ok (p, h') ∧
    (p = NULL ∧ h' = h ∧ full false (mpages h) (pages_needed size) ∨
     p ≠ NULL ∧ heap_ok h' ∧ keeps h h' p ∧ mapped (ram (mpages h')) p (Z.to_nat size) ∧
     ∃ n, size ≤ n ∧ (∀ q k, live h q k → p + n ≤ q ∨ q + k ≤ p) ∧
       ∀ q k, live h' q k ↔ live h q k ∨ q = p ∧ k = n)) ∧
  (∀ p n, live h p n → ∃ h', free p h = Ok ((), h') ∧ heap_ok h' ∧ keeps h h' p ∧
     ∀ q k, live h' q k ↔ live h q k ∧ q ≠ p).
Proof.
  intros Hh. split.
  - intros size Hs. destruct (malloc_ok h size Hh Hs) as (p & h' & E & [(-> & -> & Hf)|(Hp & Hh' & Hram & n & Hn & Hnew & Hl)]);
      [exists NULL, h; split; [done|by left]|].
    exists p, h'. split; [done|]. right. assert (Hlp : live h' p n) by (apply Hl; by right).
    split_and!; [done|done|by intros q k a; rewrite Hram| |].
    + destruct (live_mapped h' p n Hh' Hlp) as [Hr Hm]. split; [lia|]. intros i Hi. apply Hm. lia.
    + exists n. split_and!; [done| |done]. intros q k Hq. apply (live_disjoint None h'); [done|done|apply Hl; by left|].
      intros <-. by apply (Hnew k).
  - intros p n Hl. destruct (free_ok h p n Hh Hl) as (h' & E & Hh' & Hl' & Hk). by exists h'.
Qed.

(** The heap of the small machine after malloc_init. *)
Definition demo_heap : heap := Heap (demo_pages 0) init_descs ∅.

Lemma demo_heap_ok : heap_ok demo_heap.
Proof. apply malloc_init_ok, demo_pages_ok. unfold in_u32. lia. Qed.

Lemma demo_not_full : ¬ full false (demo_pages 0) 1.
Proof. intros H. apply (H 0); [done|vm_compute; discriminate|]. intros j Hj. assert (j = 0) as -> by lia. by vm_compute. Qed.

Lemma malloc_free_blocks_witness :
  ∃ p h', malloc 100 demo_heap = Ok (p, h') ∧ p ≠ NULL ∧ ∃ n, 100 ≤ n ∧ live h' p n.
Proof.
  destruct (malloc_free_blocks demo_heap demo_heap_ok) as [Hm _].
  destruct (Hm 100) as (p & h' & E & [(_ & _ & Hf)|(Hp & _ & _ & _ & n & Hn & _ & Hl)]); [lia| |].
  - exfalso. by apply demo_not_full.
  - exists p, h'. split; [exact E|]. split; [exact Hp|]. exists n. split; [exact Hn|]. apply Hl. right. split; reflexivity.
Defined.

(** Realloc of a block in use moves it to a block of at least the new size
    with the same contents up to the smaller of the sizes and frees the old
    one, or returns a null pointer and changes nothing; the contents of the
    other blocks are kept.  calloc returns a new block of zeros, if the number
    of bytes fits. *)
Theorem realloc_calloc_contents h :
  heap_ok h →
  (∀ p n size, live h p n → 0 < size < 2^32 - 4108 →
     ∃ q h', realloc p size h = Ok (q, h') ∧ realloc_post h p n size q h') ∧
  (∀ a b, 0 < a → 0 < b → a * b < 2^32 - 4108 → ∃ p h', calloc a b h = Ok (p, h') ∧
     (p = NULL ∧ h' = h ∨
      p ≠ NULL ∧ heap_ok h' ∧ (∀ i, 0 ≤ i < a * b → ram (mpages h') !! (p + i) = Some 0) ∧
      ∃ n, a * b ≤ n ∧ (∀ k, ¬ live h p k) ∧ ∀ q k, live h' q k ↔ live h q k ∨ q = p ∧ k = n)).
Proof. intros Hh. split; intros; [by apply realloc_ok|by apply calloc_ok]. Qed.

Lemma realloc_calloc_contents_witness :
  ∃ p n h q h', live h p n ∧ realloc p 200 h = Ok (q, h') ∧ realloc_post h p n 200 q h'.
Proof.
  destruct (malloc_ok demo_heap 100 demo_heap_ok) as (p & h & _ & [(_ & _ & Hf)|(_ & Hh & _ & n & _ & _ & Hl)]); [lia| |].
  - exfalso. by apply demo_not_full.
  - assert (Hp : live h p n) by (apply Hl; right; split; reflexivity).
    destruct (realloc_calloc_contents h Hh) as [Hr _]. destruct (Hr p n 200 Hp) as (q & h' & E & Hpost); [lia|].
    exists p, n, h, q, h'. split; [exact Hp|]. split; [exact E|exact Hpost].
Defined.

(** ** Page directories *)

Lemma adds_frames s s' pd u k : frames_ok s pd → k < 2^32 → adds s s' pd u k → frames_ok s' pd.
Proof.
  intros Hf Hk (_ & _ & Hm & _) v f Hv. rewrite Hm by done. case_decide; [by intros [= <-]|by apply Hf].
Qed.

Lemma removes_frames s s' pd u : frames_ok s pd → removes s s' pd u → frames_ok s' pd.
Proof. intros Hf (_ & _ & Hm & _) v f Hv. rewrite Hm by done. case_decide; [done|by apply Hf]. Qed.

(** C15: A page directory is a map from user pages to frames.  pagedir_get_page
    looks an address up in it; pagedir_set_page of an unmapped page adds exactly
    that page, or returns false and changes nothing if there is no memory for a
    page table; pagedir_clear_page removes exactly the page.  All keep the
    directory well formed, and no cached translation of the active directory is
    ever stale: clearing a page also removes it from the TLB. *)
Theorem pagedir_refines_map s pd :
  dir_ok s pd → frames_ok s pd → tlb_ok s pd → pd ≠ init_page_dir s →
  (∀ v, user_page v → pagedir_get_page pd v s =
     Ok (match mapping s pd v with Some f => f + v `mod` 4096 | None => NULL end, s)) ∧
  (∀ u k w, user_page u → u `mod` 4096 = 0 → k `mod` 4096 = 0 → PHYS_BASE ≤ k < 2^32 →
     (k - PHYS_BASE) / 4096 < init_ram_pages s → mapping s pd u = None →
     (∃ s', pagedir_set_page pd u k w s = Ok (true, s') ∧ dir_ok s' pd ∧ frames_ok s' pd ∧ tlb_ok s' pd ∧
        ∀ v, user_page v → mapping s' pd v = if decide (v / 4096 = u / 4096) then Some k else mapping s pd v) ∨
     full false (vm s) 1 ∧ pagedir_set_page pd u k w s = Ok (false, s)) ∧
  (∀ u, user_page u → u `mod` 4096 = 0 →
     ∃ s', pagedir_clear_page pd u s = Ok ((), s') ∧ dir_ok s' pd ∧ frames_ok s' pd ∧ tlb_ok s' pd ∧
       ∀ v, user_page v → mapping s' pd v = if decide (v / 4096 = u / 4096) then None else mapping s pd v).
Proof.
  intros Hd Hf Ht Hi. split_and!.
  - intros v Hv. by apply pagedir_get_page_ok.
  - intros u k w Hu Hua Hka Hk Hr Hn.
    destruct (pagedir_set_page_ok s pd u k w) as [(s' & E & Ha)|H]; try done; [left|by right].
    pose proof (adds_frames _ _ _ _ _ Hf (proj2 Hk) Ha). destruct Ha as (Hd' & _ & Hm & Ht'). exists s'. split_and!; auto.
  - intros u Hu Hua. destruct (pagedir_clear_page_ok s pd u) as (s' & E & Hr); try done; [apply Ht|].
    pose proof (removes_frames _ _ _ _ Hf Hr). destruct Hr as (Hd' & _ & Hm & Ht'). exists s'. split_and!; auto.
Qed.

(** An empty directory in the first page of the kernel pool. *)
Definition demo_pd : Z := 3222274048.
Definition demo_machine : machine := Machine (demo_pages 1) 3221225472 1024 0 ∅.

Lemma demo_pde i : 0 ≤ i < 1024 → pde_at demo_machine demo_pd i = 0.
Proof.
  intros Hi. unfold pde_at, mem_of. cbn [demo_machine vm demo_pages ram]. unfold demo_ram, demo_pd.
  apply word_zeros; unfold page_bytes; lia.
Qed.

Lemma demo_dir_ok : dir_ok demo_machine demo_pd.
Proof.
  split.
  - apply demo_pages_ok. unfold in_u32. lia.
  - apply demo_bytes.
  - vm_compute. discriminate.
  - exists 0. split; [reflexivity|]. split; [|reflexivity]. cbn [demo_machine vm demo_pages kernel_pool used_map bit_cnt]. lia.
  - intros i Hi. rewrite demo_pde by lia. congruence.
  - intros i j Hi Hj. rewrite demo_pde by lia. congruence.
Qed.

Lemma demo_unmapped v : user_page v → mapping demo_machine demo_pd v = None.
Proof. intros Hv. pose proof (user_index v Hv). apply entry_none, demo_pde. lia. Qed.

Lemma pagedir_refines_map_witness :
  ∃ s', pagedir_set_page demo_pd 4096 3222278144 true demo_machine = Ok (true, s') ∧
    mapping s' demo_pd 4100 = Some 3222278144.
Proof.
  destruct (pagedir_refines_map demo_machine demo_pd) as (_ & Hset & _).
  - exact demo_dir_ok.
  - intros v f Hv Hm. rewrite (demo_unmapped v Hv) in Hm. congruence.
  - split; [cbn [demo_machine cr3]; lia|]. intros E. exfalso. revert E. by vm_compute.
  - by vm_compute.
  - assert (Hu : ∀ v, 4096 ≤ v ≤ 4100 → user_page v) by (unfold user_page, PHYS_BASE; lia).
    destruct (Hset 4096 3222278144 true) as [(s' & E & _ & _ & _ & Hm)|[Hf _]].
    + apply Hu. lia.
    + reflexivity.
    + reflexivity.
    + unfold PHYS_BASE. lia.
    + reflexivity.
    + apply demo_unmapped, Hu. lia.
    + exists s'. split; [exact E|]. rewrite (Hm 4100 (Hu 4100 ltac:(lia))). reflexivity.
    + exfalso. apply (Hf 1); [lia|vm_compute; discriminate|]. intros j Hj. assert (j = 1) as -> by lia. reflexivity.
Defined.
