(* ===== verification/Process.v ===== *)
(** * userprog/process.c: loading user programs

    The state has the machine's memory and page tables (Pagedir.v), the file
    system (FileSys.v) and the running thread's page directory.  [load] reads
    an ELF executable from a file, maps its segments and a stack page, and
    writes the arguments where the source writes them.  An Elf32_Ehdr or
    Elf32_Phdr is decoded from the bytes read from the file.  Console output is
    left out; tss_update sets a register that only the processor reads. *)

From S2P Require Import Prelude Bitmap Inode FileSys Memory CString Vaddr Palloc Pagedir.

Local Open Scope Z_scope.

Record process := Process { cpu : machine; fsys : fs; pagedir : Z }.

Abbreviation PR := (ST process).

Definition on_cpu {A} (c : VM A) : PR A := λ s,
  match c (cpu s) with Ok (a, m) => Ok (a, Process m (fsys s) (pagedir s)) | Err e => Err e end.
Definition on_fs {A} (c : FM A) : PR A := λ s,
  match c (fsys s) with Ok (a, f) => Ok (a, Process (cpu s) f (pagedir s)) | Err e => Err e end.
Definition on_pages {A} (c : PM A) : PR A := on_cpu (on_vm c).
Definition on_mem {A} (c : MM A) : PR A := on_pages (on_ram c).

(** ** ELF headers *)

(** Fields of [n] bytes at offset [i] of a header. *)
Definition field (i n : Z) (bs : list Z) : Z := le_word (slice i n bs).

Definition EHDR_SIZE : Z := 52.
Definition e_ident (h : list Z) : list Z := slice 0 16 h.
Definition e_type := field 16 2.
Definition e_machine := field 18 2.
Definition e_version := field 20 4.
Definition e_entry := field 24 4.
Definition e_phoff := field 28 4.
Definition e_phentsize := field 42 2.
Definition e_phnum := field 44 2.

Definition PHDR_SIZE : Z := 32.
Definition p_type := field 0 4.
Definition p_offset := field 4 4.
Definition p_vaddr := field 8 4.
Definition p_filesz := field 16 4.
Definition p_memsz := field 20 4.
Definition p_flags := field 24 4.

Definition PT_LOAD : Z := 1.
Definition PT_DYNAMIC : Z := 2.
Definition PT_INTERP : Z := 3.
Definition PT_SHLIB : Z := 5.
Definition PF_W : Z := 2.

(** [true] if the header is not the one of an executable for this machine. *)
Definition bad_header (ehdr : list Z) : bool :=
  bool_decide (Z.of_nat (length ehdr) ≠ EHDR_SIZE
    ∨ take 7 (e_ident ehdr) ≠ [127; 69; 76; 70; 1; 1; 1]
    ∨ e_type ehdr ≠ 2 ∨ e_machine ehdr ≠ 3 ∨ e_version ehdr ≠ 1
    ∨ e_phentsize ehdr ≠ PHDR_SIZE ∨ 1024 < e_phnum ehdr).

(** ** load's helpers *)

(** The checks in the order of the source; [len] is file_length (file). *)
Definition valid_segment (phdr : list Z) (len : Z) : bool :=
  if decide (Z.land (p_offset phdr) PGMASK ≠ Z.land (p_vaddr phdr) PGMASK) then false else
  if decide (u32 len < p_offset phdr) then false else
  if decide (p_memsz phdr < p_filesz phdr) then false else
  if decide (p_memsz phdr = 0) then false else
  if negb (is_user_vaddr (p_vaddr phdr)) then false else
  if negb (is_user_vaddr (u32 (p_vaddr phdr + p_memsz phdr))) then false else
  if decide (u32 (p_vaddr phdr + p_memsz phdr) < p_vaddr phdr) then false else
  if decide (p_vaddr phdr < PGSIZE) then false else
  true.

Definition validate_segment (phdr : list Z) (file : Z) : PR bool :=
  len ← on_fs (file_length file); mret (valid_segment phdr len).

Definition install_page (upage kpage : Z) (writable : bool) : PR bool :=
  t ← st_gets pagedir;
  k ← on_cpu (pagedir_get_page t upage);
  if decide (k = NULL) then on_cpu (pagedir_set_page t upage kpage writable) else mret false.

(** One page of a segment. *)
Definition load_page (file upage page_read_bytes page_zero_bytes : Z) (writable : bool) : PR bool :=
  kpage ← on_pages (palloc_get_page PAL_USER);
  if decide (kpage = NULL) then mret false else
  bs ← on_fs (file_read file page_read_bytes);
  on_mem (store_bytes kpage bs);;
  if decide (Z.of_nat (length bs) ≠ page_read_bytes) then on_pages (palloc_free_page kpage);; mret false else
  _ ← on_mem (memset (u32 (kpage + page_read_bytes)) 0 page_zero_bytes);
  ok ← install_page upage kpage writable;
  if (ok : bool) then mret true
  else on_pages (palloc_free_page kpage);; mret false.

(** [while (read_bytes > 0 || zero_bytes > 0)]. *)
Fixpoint load_pages (fuel : nat) (file upage read_bytes zero_bytes : Z) (writable : bool) : PR bool :=
  if decide (0 < read_bytes ∨ 0 < zero_bytes) then
    match fuel with
    | O => st_fail EFuel
    | S fuel =>
        let page_read_bytes := if decide (read_bytes < PGSIZE) then read_bytes else PGSIZE in
        let page_zero_bytes := PGSIZE - page_read_bytes in
        ok ← load_page file upage page_read_bytes page_zero_bytes writable;
        if (ok : bool) then
          load_pages fuel file (u32 (upage + PGSIZE)) (u32 (read_bytes - page_read_bytes))
            (u32 (zero_bytes - page_zero_bytes)) writable
        else mret false
    end
  else mret true.

Definition load_segment (file ofs upage read_bytes zero_bytes : Z) (writable : bool) : PR bool :=
  ASSERT (bool_decide (u32 (read_bytes + zero_bytes) `mod` PGSIZE = 0));;
  ASSERT (bool_decide (pg_ofs upage = 0));;
  ASSERT (bool_decide (ofs `rem` PGSIZE = 0));;
  on_fs (file_seek file ofs);;
  load_pages (Z.to_nat ((read_bytes + zero_bytes) / PGSIZE)) file upage read_bytes zero_bytes writable.

(** [esp] is the address of the stack pointer to set. *)
Definition setup_stack (esp : Z) : PR bool :=
  kpage ← on_pages (palloc_get_page (Z.lor PAL_USER PAL_ZERO));
  if decide (kpage ≠ NULL) then
    success ← install_page (PHYS_BASE - PGSIZE) kpage true;
    (if (success : bool) then on_mem (storew esp PHYS_BASE) else on_pages (palloc_free_page kpage));;
    mret success
  else mret false.

(** ** load *)

(** The arguments of load_segment for a PT_LOAD header. *)
Definition load_phdr (file : Z) (phdr : list Z) : PR bool :=
  let writable := bool_decide (Z.land (p_flags phdr) PF_W ≠ 0) in
  let file_page := Z.land (p_offset phdr) (u32 (Z.lnot PGMASK)) in
  let mem_page := Z.land (p_vaddr phdr) (u32 (Z.lnot PGMASK)) in
  let page_offset := Z.land (p_vaddr phdr) PGMASK in
  let read_bytes := if decide (0 < p_filesz phdr) then u32 (page_offset + p_filesz phdr) else 0 in
  let zero_bytes := u32 (ROUND_UP (u32 (page_offset + p_memsz phdr)) PGSIZE - read_bytes) in
  load_segment file (s32 file_page) mem_page read_bytes zero_bytes writable.

(** The program headers, [n] of them left; [false] is [goto done]. *)
Fixpoint phdr_loop (n : nat) (file file_ofs : Z) : PR bool :=
  match n with
  | O => mret true
  | S n =>
      len ← on_fs (file_length file);
      if decide (file_ofs < 0 ∨ len < file_ofs) then mret false else
      on_fs (file_seek file file_ofs);;
      phdr ← on_fs (file_read file PHDR_SIZE);
      if decide (Z.of_nat (length phdr) ≠ PHDR_SIZE) then mret false else
      ok ← (if decide (p_type phdr = PT_DYNAMIC ∨ p_type phdr = PT_INTERP ∨ p_type phdr = PT_SHLIB) then mret false
            else if decide (p_type phdr = PT_LOAD) then
              ok ← validate_segment phdr file; if (ok : bool) then load_phdr file phdr else mret false
            else mret true);
      if (ok : bool) then phdr_loop n file (s32 (file_ofs + PHDR_SIZE)) else mret false
  end.

(** The loop over the arguments: the string of each is copied below [sp].
    [None] is [goto done]. *)
Fixpoint push_strings (fuel : nat) (delimiters save_ptr token sp size : Z) (argv : list Z) : PR (option (Z * list Z)) :=
  match fuel with
  | O => st_fail EFuel
  | S fuel =>
      if decide (token = NULL) then mret (Some (sp, argv)) else
      len ← on_mem (strlen token);
      let size := s32 (size + len + 1 + 4) in
      if decide (Z.of_nat (length argv) + 1 = 256 ∨ PGSIZE < size) then mret None else
      let sp := u32 (sp - (len + 1)) in
      _ ← on_mem (strlcpy sp token (len + 1));
      token ← on_mem (strtok_r NULL delimiters save_ptr);
      push_strings fuel delimiters save_ptr token sp size (argv ++ [sp])
  end.

(** [while ((int) sp % 4 != 0) sp--]. *)
Fixpoint align_down (fuel : nat) (sp : Z) : Z :=
  match fuel with
  | O => sp
  | S fuel => if decide (s32 sp `rem` 4 ≠ 0) then align_down fuel (u32 (sp - 1)) else sp
  end.

(** [sp -= 4; *sp = x] for a [char *]. *)
Definition push_char (x sp : Z) : PR Z := let sp := u32 (sp - 4) in on_mem (store sp (x `mod` 256));; mret sp.

Fixpoint push_pointers (argv : list Z) (sp : Z) : PR Z :=
  match argv with [] => mret sp | a :: argv => sp ← push_char a sp; push_pointers argv sp end.

(** The last part of load: [esp] is its argument, the address of the stack
    pointer, and [sp] starts there. *)
Definition pass_arguments (esp file_name delimiters save_ptr : Z) : PR bool :=
  token ← on_mem (strtok_r file_name delimiters save_ptr);
  r ← push_strings 257 delimiters save_ptr token esp (4 + 4 + 4 + 4) [];
  match r with
  | None => mret false
  | Some (sp, argv) =>
      sp ← push_char 0 (align_down 4 sp);
      sp ← push_pointers (reverse argv) sp;
      sp ← push_char sp sp;
      sp ← push_char (Z.of_nat (length argv)) sp;
      _ ← push_char 0 sp;
      mret true
  end.

(** What load does with the open file. *)
Definition load_file (file file_name eip esp delimiters save_ptr : Z) : PR bool :=
  ehdr ← on_fs (file_read file EHDR_SIZE);
  if bad_header ehdr then mret false else
  ok ← phdr_loop (Z.to_nat (e_phnum ehdr)) file (s32 (e_phoff ehdr));
  if negb ok then mret false else
  ok ← setup_stack esp;
  if negb ok then mret false else
  ok ← pass_arguments esp file_name delimiters save_ptr;
  if negb ok then mret false else
  on_mem (storew eip (e_entry ehdr));; mret true.

Definition process_activate : PR () := t ← st_gets pagedir; on_cpu (pagedir_activate t).

(** filesys_open of the string at [name]. *)
Definition open_name (name : Z) : PR Z :=
  n ← on_mem (strlen name); bs ← on_mem (load_bytes (Z.to_nat n) name); on_fs (filesys_open bs).

(** [delimiters] and [save_ptr] are the addresses of the string " " and of the
    local variable. *)
Definition load_program (input_cmd eip esp delimiters save_ptr : Z) : PR bool :=
  pd ← on_cpu pagedir_create;
  st_modify (λ s, Process (cpu s) (fsys s) pd);;
  if decide (pd = NULL) then on_fs (file_close NULL);; mret false else
  process_activate;;
  on_mem (storew save_ptr NULL);;
  file_name ← on_mem (strtok_r input_cmd delimiters save_ptr);
  file ← open_name file_name;
  if decide (file = NULL) then on_fs (file_close NULL);; mret false else
  success ← load_file file file_name eip esp delimiters save_ptr;
  on_fs (file_close file);;
  mret success.

Definition process_exit : PR () :=
  pd ← st_gets pagedir;
  if decide (pd ≠ NULL) then
    st_modify (λ s, Process (cpu s) (fsys s) NULL);;
    on_cpu (pagedir_activate NULL);;
    on_cpu (pagedir_destroy pd)
  else mret tt.

Definition process_wait (child_tid : Z) : PR Z := mret (-1).
