(* ===== verification/ProcessSpec.v ===== *)
(** * The loader builds the program's memory

    [view s pd v] is the byte a user program reads at the virtual address [v]
    under the page directory [pd].  The invariant [proc_ok] says that a
    directory maps distinct pages in use of the user pool; the steps of
    load_segment and setup_stack are proved to keep it, and load_segment to
    extend the view by exactly the bytes of the file and the zeros behind
    them. *)

From S2P Require Import Prelude Bitmap Inode FileSys FileSpec Memory CString Vaddr Palloc Pagedir Process.

Local Open Scope Z_scope.

(** A page in use of the user pool. *)
Definition user_used (p : pages) (a : Z) : Prop :=
  ∃ i, a = base (user_pool p) + 4096 * i ∧ 0 ≤ i < bit_cnt (used_map (user_pool p)) ∧
    bit_at (used_map (user_pool p)) i = true.

Record proc_ok (s : machine) (pd : Z) : Prop := {
  pr_dir : dir_ok s pd;
  pr_tlb : tlb_ok s pd;
  pr_init : pd ≠ init_page_dir s;
  pr_ram : base (user_pool (vm s)) + 4096 * bit_cnt (used_map (user_pool (vm s))) ≤ PHYS_BASE + 4096 * init_ram_pages s;
  pr_owned : ∀ v f, user_page v → mapping s pd v = Some f → user_used (vm s) f;
  pr_inj : ∀ v w f, user_page v → user_page w → mapping s pd v = Some f → mapping s pd w = Some f → v / 4096 = w / 4096;
}.

Definition view (s : machine) (pd v : Z) : option Z := f ← mapping s pd v; mem_of s !! (f + v `mod` 4096).

(** ** Changes outside the kernel pool's pages *)

Record kernel_same (s s' : machine) : Prop := {
  ks_pool : kernel_pool (vm s') = kernel_pool (vm s);
  ks_regs : cr3 s' = cr3 s ∧ tlb s' = tlb s ∧ init_page_dir s' = init_page_dir s ∧ init_ram_pages s' = init_ram_pages s;
  ks_ram : ∀ a, base (kernel_pool (vm s)) ≤ a < base (kernel_pool (vm s)) + 4096 * bit_cnt (used_map (kernel_pool (vm s))) →
    mem_of s' !! a = mem_of s !! a;
}.

Lemma word_agree (m m' : mem) p : (∀ i, 0 ≤ i < 4 → m' !! (p + i) = m !! (p + i)) → word m' p = word m p.
Proof. intros H. unfold word. cbn [fmap list_fmap]. by rewrite !H by lia. Qed.

Lemma kernel_same_word s s' pd a i :
  dir_ok s pd → kernel_same s s' → used_page (vm s) a → 0 ≤ i < 1024 →
  word (mem_of s') (a + 4 * i) = word (mem_of s) (a + 4 * i).
Proof.
  intros Hd [_ _ Hr] (j & -> & Hj & _) Hi. apply word_agree. intros k Hk. apply Hr. lia.
Qed.

Lemma kernel_same_entry s s' pd :
  dir_ok s pd → kernel_same s s' →
  (∀ i, 0 ≤ i < 1024 → pde_at s' pd i = pde_at s pd i) ∧ ∀ v, user_page v → entry s' pd v = entry s pd v.
Proof.
  intros Hd Hk. assert (Hpde : ∀ i, 0 ≤ i < 1024 → pde_at s' pd i = pde_at s pd i).
  { intros i Hi. eapply kernel_same_word; [done|done|apply Hd|done]. }
  split; [done|]. intros v Hv. pose proof (user_index v Hv) as Hx. unfold entry. rewrite Hpde by lia.
  case_decide as E; [done|]. eapply kernel_same_word; [done|done|by apply (dk_tables _ _ Hd)|apply slot_index_range].
Qed.

Lemma kernel_same_dir s s' pd :
  dir_ok s pd → kernel_same s s' → pages_ok (vm s') → bytes_ok (mem_of s') → dir_ok s' pd.
Proof.
  intros Hd Hk Hp Hb. destruct (kernel_same_entry s s' pd Hd Hk) as [Hpde _]. destruct Hd as [_ _ Hh Hpd Ht Hi].
  assert (Hu : ∀ a, used_page (vm s) a → used_page (vm s') a) by (intros a; unfold used_page; by rewrite (ks_pool _ _ Hk)).
  split; [done|done|by rewrite (ks_pool _ _ Hk)|by apply Hu| |].
  - intros i Hx. rewrite Hpde by lia. intros Hne. destruct (Ht i Hx Hne) as (? & ? & ?). auto.
  - intros i j Hx Hy. rewrite !Hpde by lia. by apply Hi.
Qed.

Lemma kernel_same_mapping s s' pd v :
  dir_ok s pd → kernel_same s s' → user_page v → mapping s' pd v = mapping s pd v.
Proof. intros Hd Hk Hv. unfold mapping. by rewrite (proj2 (kernel_same_entry s s' pd Hd Hk)). Qed.

(** The user pool's pages may change as long as the mapped ones stay in use. *)
Lemma proc_ok_user s s' pd :
  proc_ok s pd → kernel_same s s' → pages_ok (vm s') → bytes_ok (mem_of s') →
  base (user_pool (vm s')) = base (user_pool (vm s)) →
  bit_cnt (used_map (user_pool (vm s'))) = bit_cnt (used_map (user_pool (vm s))) →
  (∀ v f, user_page v → mapping s pd v = Some f → user_used (vm s') f) → proc_ok s' pd.
Proof.
  intros [Hd [Hc Ht] Hi Hr _ Hj] Hk Hp Hb Eb Ec Ho. pose proof (ks_regs _ _ Hk) as (E1 & E2 & E3 & E4).
  assert (Hm : ∀ v, user_page v → mapping s' pd v = mapping s pd v) by (intros v; by apply kernel_same_mapping).
  split.
  - by eapply kernel_same_dir.
  - split; rewrite E1; [done|]. intros Ea v f Hv. rewrite E2, Hm by done. by apply Ht.
  - by rewrite E3.
  - by rewrite Eb, Ec, E4.
  - intros v f Hv. rewrite Hm by done. by apply Ho.
  - intros v w f Hv Hw. rewrite !Hm by done. by apply Hj.
Qed.

(** ** A page of the user pool that is not mapped *)

(** The state with another bitmap of the user pool and other memory. *)
Definition user_step (b : bitmap) (m : mem) (s : machine) : machine :=
  with_vm (Pages (kernel_pool (vm s)) (Pool b (base (user_pool (vm s)))) m) s.

(** Page [i] of the user pool. *)
Definition upage_at (s : machine) (i : Z) : Z := base (user_pool (vm s)) + 4096 * i.
Definition unmapped (s : machine) (pd k : Z) : Prop := ∀ v f, user_page v → mapping s pd v = Some f → f ≠ k.

(** Only the page and its bit change. *)
Record page_change (s : machine) (i : Z) (b : bitmap) (m : mem) : Prop := {
  pc_index : 0 ≤ i < bit_cnt (used_map (user_pool (vm s)));
  pc_wf : wf b;
  pc_cnt : bit_cnt b = bit_cnt (used_map (user_pool (vm s)));
  pc_bits : ∀ j, 0 ≤ j → j ≠ i → bit_at b j = bit_at (used_map (user_pool (vm s))) j;
  pc_bytes : bytes_ok m;
  pc_some : ∀ a, is_Some (mem_of s !! a) → is_Some (m !! a);
  pc_out : ∀ a, ¬ (upage_at s i ≤ a < upage_at s i + 4096) → m !! a = mem_of s !! a;
}.

Lemma user_step_ok s pd i b m :
  proc_ok s pd → page_change s i b m → unmapped s pd (upage_at s i) →
  proc_ok (user_step b m s) pd ∧
  ∀ v, user_page v → mapping (user_step b m s) pd v = mapping s pd v ∧ view (user_step b m s) pd v = view s pd v.
Proof.
  intros Hs [Hi Hw Hc Hbits Hb Hsome Hout] Hun. pose proof Hs as [Hd _ _ _ Ho _]. pose proof (dk_pages _ _ Hd) as Hp.
  assert (Hk : kernel_same s (user_step b m s)).
  { split; [done|done|]. intros a Ha. apply Hout. pose proof (pk_apart _ Hp). unfold upage_at. lia. }
  assert (Hm : ∀ v, user_page v → mapping (user_step b m s) pd v = mapping s pd v) by (intros v; by apply kernel_same_mapping).
  split.
  - apply (proc_ok_user s); [done|done| |done|done|done|].
    + pose proof (pages_ok_update true (vm s) b m Hp Hw Hc Hsome) as H. exact H.
    + intros v f Hv Ef. destruct (Ho v f Hv Ef) as (j & -> & Hj & Hu). specialize (Hun v _ Hv Ef).
      exists j. cbn. rewrite Hc. split_and!; [done|lia..|]. rewrite Hbits; [done|lia|]. intros ->. by apply Hun.
  - intros v Hv. split; [by apply Hm|]. unfold view. rewrite Hm by done.
    destruct (mapping s pd v) as [f|] eqn:Ef; [|done]. cbn. apply Hout.
    destruct (Ho v f Hv Ef) as (j & -> & Hj & _). specialize (Hun v _ Hv Ef). unfold upage_at in *.
    pose proof (Z.mod_pos_bound v 4096). assert (j ≠ i) by (intros ->; by apply Hun). lia.
Qed.

Lemma user_used_range s pd a :
  dir_ok s pd → user_used (vm s) a →
  a `mod` 4096 = 0 ∧ PHYS_BASE ≤ a ∧ a + 4096 < 2^32 ∧ mapped (mem_of s) a 4096.
Proof.
  intros Hd (i & -> & Hi & _). pose proof (dk_pages _ _ Hd) as Hp. pose proof (pk_user _ Hp) as Hu.
  destruct (pages_mapped _ _ i 1 Hu) as (Hm & _ & H0 & H1); [lia..|]. pose proof (po_base _ _ Hu).
  pose proof (pk_apart _ Hp). pose proof (dk_high _ _ Hd). destruct (po_map _ _ (pk_kernel _ Hp)).
  split_and!; [dlia|lia|lia|exact Hm].
Qed.

(** ** palloc_get_page (PAL_USER), and palloc_free_page of the page *)

Lemma get_user_page s pd flags :
  proc_ok s pd → wants flags PAL_USER = true → wants flags PAL_ASSERT = false →
  (∃ i b m, page_change s i b m ∧ bit_at b i = true ∧ unmapped s pd (upage_at s i) ∧
     on_vm (palloc_get_page flags) s = Ok (upage_at s i, user_step b m s) ∧
     (wants flags PAL_ZERO = true → ∀ a, upage_at s i ≤ a < upage_at s i + 4096 → m !! a = Some 0)) ∨
  full true (vm s) 1 ∧ on_vm (palloc_get_page flags) s = Ok (NULL, s).
Proof.
  intros Hs Hu Ha. pose proof (pr_dir _ _ Hs) as Hd. pose proof (dk_pages _ _ Hd) as Hp.
  pose proof (palloc_get_ok flags 1 (vm s) Hp ltac:(lia)) as H. cbv zeta in H. rewrite Hu, Ha in H.
  destruct H as [(i & b & (Hi & Hf & _ & Hw & Hc & Hb) & E)|[Hfull E]]; [left|right].
  2: { split; [done|]. unfold on_vm, palloc_get_page. rewrite E. by destruct s. }
  revert E. set (z := replicate (page_bytes 1) 0). assert (Hz : length z = 4096%nat) by apply length_replicate.
  assert (Hz0 : Forall (λ x, x = 0) z) by (by apply Forall_replicate). clearbody z. cbn [pool_of] in *.
  set (m := if wants flags PAL_ZERO then write (base (user_pool (vm s)) + 4096 * i) z (ram (vm s)) else ram (vm s)). intros E.
  exists i, b, m. split_and!; [split|by rewrite Hb, decide_True by lia| | |].
  - lia.
  - done.
  - done.
  - intros j Hj Hne. rewrite Hb by lia. by rewrite decide_False by lia.
  - unfold m. destruct (wants flags PAL_ZERO); [|apply Hd]. apply bytes_ok_write; [apply Hd|].
    eapply Forall_impl; [exact Hz0|]. intros x ->. lia.
  - unfold m. intros a Hx. destruct (wants flags PAL_ZERO); [by apply write_some|done].
  - intros a Hx. unfold m. destruct (wants flags PAL_ZERO); [|done]. unfold upage_at in Hx.
    rewrite lookup_write, Hz. by rewrite decide_False by lia.
  - intros v f Hv Ef ->. destruct (pr_owned _ _ Hs v _ Hv Ef) as (j & Ej & _ & Hj).
    assert (j = i) as -> by (unfold upage_at in Ej; lia). rewrite (Hf i) in Hj by lia. done.
  - unfold on_vm, palloc_get_page. rewrite E. done.
  - intros Ez a Hx. unfold m, upage_at in *. rewrite Ez, lookup_write, Hz, decide_True by lia.
    destruct (lookup_lt_is_Some_2 z (Z.to_nat (a - (base (user_pool (vm s)) + 4096 * i)))) as [x Ex]; [lia|].
    by rewrite Ex, (Forall_lookup_1 _ _ _ _ Hz0 Ex).
Qed.

Lemma free_user_page s i :
  pages_ok (vm s) → bytes_ok (mem_of s) → 0 ≤ i < bit_cnt (used_map (user_pool (vm s))) →
  bit_at (used_map (user_pool (vm s))) i = true →
  ∃ b m, page_change s i b m ∧ on_vm (palloc_free_page (upage_at s i)) s = Ok ((), user_step b m s).
Proof.
  intros Hp Hby Hi Hbit. destruct (palloc_free_ok true (vm s) i 1 Hp) as [H _]; [lia|lia|cbn; lia|].
  destruct H as (b & (Hw & Hn & Hb) & E); [intros j Hj; by replace j with i by lia|].
  revert E. set (z := replicate (page_bytes 1) 204). assert (Hz : length z = 4096%nat) by apply length_replicate.
  assert (Hz0 : Forall (λ x, 0 ≤ x < 256) z) by (by apply Forall_replicate). clearbody z. cbn [pool_of] in *. intros E.
  exists b, (write (upage_at s i) z (mem_of s)). split; [split|].
  - lia.
  - done.
  - done.
  - intros j Hj Hne. rewrite Hb by lia. by rewrite decide_False by lia.
  - by apply bytes_ok_write.
  - intros a. by apply write_some.
  - intros a Ha. rewrite lookup_write, Hz. by rewrite decide_False by lia.
  - unfold on_vm, palloc_free_page, upage_at. rewrite E. done.
Qed.

(** Bytes written into the page. *)
Lemma write_change s i p bs :
  pages_ok (vm s) → bytes_ok (mem_of s) → 0 ≤ i < bit_cnt (used_map (user_pool (vm s))) → Forall (λ x, 0 ≤ x < 256) bs →
  upage_at s i ≤ p → p + Z.of_nat (length bs) ≤ upage_at s i + 4096 →
  page_change s i (used_map (user_pool (vm s))) (write p bs (mem_of s)).
Proof.
  intros Hp Hb Hi Hbs H1 H2. split; [done|apply (pk_user _ Hp)|done|done|by apply bytes_ok_write| |].
  - intros a. by apply write_some.
  - intros a Ha. rewrite lookup_write. by rewrite decide_False by lia.
Qed.

Lemma with_mem_user s m : with_mem m s = user_step (used_map (user_pool (vm s))) m s.
Proof. unfold with_mem, user_step. by destruct (user_pool (vm s)). Qed.

(** ** Mapping the page *)

Lemma owned_frames s pd : proc_ok s pd → frames_ok s pd.
Proof.
  intros Hs v f Hv Ef. destruct (user_used_range s pd f) as (_ & _ & H & _); [apply Hs|by eapply Hs|lia].
Qed.

(** The memory of a page of the user pool is outside the kernel pool. *)
Lemma user_page_apart s s' f x :
  pages_ok (vm s) → apart s s' → user_used (vm s) f → 0 ≤ x < 4096 → mem_of s' !! (f + x) = mem_of s !! (f + x).
Proof. intros Hp Ha (i & -> & Hi & _) Hx. apply (ap_ram _ _ Ha). pose proof (pk_apart _ Hp). lia. Qed.

Lemma adds_ok s s' pd u k :
  proc_ok s pd → user_used (vm s) k → unmapped s pd k → adds s s' pd u k →
  proc_ok s' pd ∧
  ∀ v, user_page v → view s' pd v = if decide (v / 4096 = u / 4096) then mem_of s !! (k + v `mod` 4096) else view s pd v.
Proof.
  intros Hs Hk Hun (Hd & Ha & Hm & Ht). pose proof Hs as [Hd0 Htl Hi Hr Ho Hj]. pose proof (ap_user _ _ Ha) as Eu.
  assert (Huu : ∀ f, user_used (vm s) f → user_used (vm s') f) by (intros f; unfold user_used; by rewrite Eu).
  split.
  - split.
    + done.
    + by apply Ht.
    + by rewrite (proj1 (ap_init _ _ Ha)).
    + by rewrite Eu, (proj2 (ap_init _ _ Ha)).
    + intros v f Hv. rewrite Hm by done. case_decide; [intros [= <-]; by apply Huu|]. intros Ef. by eapply Huu, Ho.
    + intros v w f Hv Hw. rewrite !Hm by done. repeat case_decide; try congruence.
      * intros [= <-] Ew. by apply Hun in Ew.
      * intros Ev [= <-]. by apply Hun in Ev.
      * by apply Hj.
  - intros v Hv. pose proof (Z.mod_pos_bound v 4096 ltac:(lia)). unfold view. rewrite Hm by done. case_decide; cbn.
    + apply user_page_apart; [apply Hd0|done..].
    + destruct (mapping s pd v) as [f|] eqn:Ef; [|done]. cbn.
      apply user_page_apart; [apply Hd0|done|by eapply Ho|done].
Qed.

(** install_page returns false if the page is mapped or there is no memory. *)
Lemma install_page_ok s f pd u k w :
  proc_ok s pd → user_page u → u `mod` 4096 = 0 → user_used (vm s) k → unmapped s pd k →
  (∃ s', install_page u k w (Process s f pd) = Ok (true, Process s' f pd) ∧ adds s s' pd u k ∧ mapping s pd u = None) ∨
  (mapping s pd u ≠ None ∨ full false (vm s) 1) ∧ install_page u k w (Process s f pd) = Ok (false, Process s f pd).
Proof.
  intros Hs Hu Hua Hk Hun. pose proof (pr_dir _ _ Hs) as Hd. destruct (user_used_range s pd k Hd Hk) as (Hka & Hk0 & Hk1 & _).
  unfold install_page. erewrite st_bind_ok by done.
  erewrite st_bind_ok by (unfold on_cpu; cbn [cpu pagedir];
    rewrite (pagedir_get_page_ok s pd u Hd (owned_frames s pd Hs) Hu); reflexivity).
  destruct (mapping s pd u) as [g|] eqn:Eg.
  - right. split; [by left|]. assert (PHYS_BASE ≤ g) by (by destruct (user_used_range s pd g) as (_ & ? & _); [|eapply Hs|]).
    rewrite decide_False; [done|]. pose proof (Z.mod_pos_bound u 4096). unfold NULL, PHYS_BASE in *. lia.
  - rewrite decide_True by done. destruct (pagedir_set_page_ok s pd u k w) as [(s' & E & Hadd)|[Hfull E]]; try done.
    + apply Hs.
    + lia.
    + destruct Hk as (i & -> & Hi & _). pose proof (pr_ram _ _ Hs). unfold PHYS_BASE in *. dlia.
    + left. exists s'. split_and!; [|done|done]. unfold on_cpu. cbn [cpu pagedir]. by rewrite E.
    + right. split; [by right|]. unfold on_cpu. cbn [cpu pagedir]. by rewrite E.
Qed.

(** ** Reading from the file *)

(** An open file with these contents, at this position. *)
Record file_at (f : fs) (file : Z) (contents : list Z) (pos : Z) : Prop := {
  fa_nonnull : file ≠ NULL;
  fa_pos : ∃ fl ino, files f !! file = Some fl ∧ inodes f !! file_inode fl = Some ino ∧ file_pos fl = pos ∧
    extent_ok f (data ino) ∧ content f (data ino) = contents;
  fa_oom : oom f = [];
  fa_range : 0 ≤ pos < 2^31;
  fa_bytes : Forall (λ x, 0 ≤ x < 256) contents;
}.

Lemma slice_length_le i n (l : list Z) : 0 ≤ i → 0 ≤ n → Z.of_nat (length (slice i n l)) = Z.min n (Z.max 0 (Z.of_nat (length l) - i)).
Proof. intros Hi Hn. unfold slice. rewrite length_take, length_drop. lia. Qed.

Lemma file_moved f file contents pos fl pos' :
  file_at f file contents pos → files f !! file = Some fl → 0 ≤ pos' < 2^31 →
  file_at (set_files (<[file := File (file_inode fl) pos' (deny_write fl)]> (files f)) f) file contents pos'.
Proof.
  intros [Hn (fl' & ino & Ef & Ei & _ & He & Ec) Ho _ Hb] Efl Hp. rewrite Efl in Ef. injection Ef as <-.
  split; try done. exists (File (file_inode fl) pos' (deny_write fl)), ino. cbn.
  split_and!; try done; [apply lookup_insert_eq|by destruct He].
Qed.

Lemma file_seek_ok f file contents pos new_pos :
  file_at f file contents pos → 0 ≤ new_pos < 2^31 →
  ∃ f', file_seek file new_pos f = Ok ((), f') ∧ file_at f' file contents new_pos.
Proof.
  intros Hf Hp. pose proof Hf as [Hn (fl & ino & Ef & _) _ _ _]. unfold file_seek.
  erewrite st_bind_ok by (by apply assert_ok, bool_decide_eq_true).
  erewrite st_bind_ok by (apply assert_ok, bool_decide_eq_true; lia).
  erewrite (st_bind_ok _ _ f fl f) by (unfold get_file, st_opt; st_simpl; by rewrite Ef).
  eexists. split; [done|]. by eapply file_moved.
Qed.

Lemma file_length_ok f file contents pos :
  file_at f file contents pos →
  file_length file f = Ok (Z.of_nat (length contents), f) ∧ Z.of_nat (length contents) ≤ 2^31 - 512.
Proof.
  intros [Hn (fl & ino & Ef & Ei & _ & He & Ec) _ _ _]. unfold file_length.
  erewrite st_bind_ok by (by apply assert_ok, bool_decide_eq_true).
  erewrite (st_bind_ok _ _ f fl f) by (unfold get_file, st_opt; st_simpl; by rewrite Ef).
  erewrite (st_bind_ok _ _ f ino f) by (unfold get_inode, st_opt; st_simpl; by rewrite Ei).
  unfold inode_length. rewrite <- Ec, (content_length f (data ino) He). destruct He. by split; [|lia].
Qed.

Lemma file_read_ok f file contents pos n :
  file_at f file contents pos → 0 ≤ n →
  let bs := slice pos n contents in
  ∃ f', file_read file n f = Ok (bs, f') ∧ file_at f' file contents (pos + Z.of_nat (length bs)).
Proof.
  intros Hf Hn bs. pose proof (file_length_ok _ _ _ _ Hf) as [_ Hlen].
  pose proof Hf as [Hnn (fl & ino & Ef & Ei & Ep & He & Ec) Ho Hr _]. unfold file_read.
  erewrite (st_bind_ok _ _ f fl f) by (unfold get_file, st_opt; st_simpl; by rewrite Ef).
  erewrite (st_bind_ok _ _ f bs f) by (rewrite Ep; unfold bs; rewrite <- Ec; by apply inode_read_at_ok).
  assert (Hl : 0 ≤ pos + Z.of_nat (length bs) < 2^31) by (unfold bs; rewrite slice_length_le by lia; lia).
  rewrite Ep, s32_id by (unfold in_s32; lia).
  eexists. split; [by erewrite st_bind_ok by done|]. by eapply file_moved.
Qed.

(** ** Filling a page *)

Lemma on_mem_ok {A} (c : MM A) s f pd a m :
  c (mem_of s) = Ok (a, m) → on_mem c (Process s f pd) = Ok (a, Process (with_mem m s) f pd).
Proof. intros E. unfold on_mem, on_pages, on_cpu, on_vm, on_ram, mem_of in *. cbn [cpu fsys pagedir]. by rewrite E. Qed.

(** The page at [k] with [bs] and zeros behind. *)
Definition filled (k : Z) (bs : list Z) (m : mem) : mem :=
  write (k + Z.of_nat (length bs)) (replicate (4096 - length bs) 0) (write k bs m).

Lemma filled_lookup k bs m x :
  (length bs ≤ 4096)%nat → 0 ≤ x < 4096 →
  filled k bs m !! (k + x) = Some (default 0 (bs !! Z.to_nat x)).
Proof.
  intros Hl Hx. unfold filled. rewrite lookup_write, length_replicate. case_decide.
  - rewrite (lookup_ge_None_2 bs) by lia. apply lookup_replicate_2. lia.
  - rewrite lookup_write, decide_True by lia. replace (k + x - k) with x by lia.
    destruct (lookup_lt_is_Some_2 bs (Z.to_nat x)) as [y ->]; [lia|done].
Qed.

Lemma fill_page s f pd k bs :
  mapped (mem_of s) k 4096 → k + 4096 < 2^32 → (length bs ≤ 4096)%nat →
  on_mem (store_bytes k bs) (Process s f pd) = Ok ((), Process (with_mem (write k bs (mem_of s)) s) f pd) ∧
  on_mem (memset (u32 (k + Z.of_nat (length bs))) 0 (4096 - Z.of_nat (length bs)))
      (Process (with_mem (write k bs (mem_of s)) s) f pd) =
    Ok (k + Z.of_nat (length bs), Process (with_mem (filled k bs (mem_of s)) s) f pd).
Proof.
  intros Hm Hk Hl. pose proof Hm as [Hr Hm']. split.
  - apply on_mem_ok, store_bytes_ok. split; [lia|]. intros i Hi. apply Hm'. lia.
  - rewrite u32_id by (unfold in_u32; lia).
    assert (E : memset (k + Z.of_nat (length bs)) 0 (Z.of_nat (4096 - length bs)) (write k bs (mem_of s)) =
      Ok (k + Z.of_nat (length bs), filled k bs (mem_of s))).
    { apply memset_ok, mapped_write. split; [lia|]. intros i Hi.
      replace (k + Z.of_nat (length bs) + Z.of_nat i) with (k + Z.of_nat (length bs + i)) by lia. apply Hm'. lia. }
    replace (4096 - Z.of_nat (length bs)) with (Z.of_nat (4096 - length bs)) by lia.
    by rewrite (on_mem_ok _ (with_mem (write k bs (mem_of s)) s) f pd _ _ E).
Qed.

Lemma filled_change s i bs :
  pages_ok (vm s) → bytes_ok (mem_of s) → 0 ≤ i < bit_cnt (used_map (user_pool (vm s))) →
  Forall (λ x, 0 ≤ x < 256) bs → (length bs ≤ 4096)%nat →
  page_change s i (used_map (user_pool (vm s))) (filled (upage_at s i) bs (mem_of s)).
Proof.
  intros Hp Hb Hi Hbs Hl. split; [done|apply (pk_user _ Hp)|done|done| | |].
  - apply bytes_ok_write; [by apply bytes_ok_write|]. by apply Forall_replicate.
  - intros a Ha. by apply write_some, write_some.
  - intros a Ha. unfold filled. rewrite !lookup_write, length_replicate. by rewrite !decide_False by lia.
Qed.

(** ** load_segment *)

(** The user's view is the same, with these bytes at [u]. *)
Definition extends (s s' : machine) (pd u n : Z) (byte : Z → Z) : Prop :=
  ∀ v, user_page v → view s' pd v = if decide (u ≤ v < u + n) then Some (byte (v - u)) else view s pd v.

(** A pool without a free page. *)
Definition no_memory (s : machine) : Prop := full true (vm s) 1 ∨ full false (vm s) 1.

(** A mapped page can be read. *)
Lemma view_mapped s pd v : proc_ok s pd → user_page v → view s pd v = None ↔ mapping s pd v = None.
Proof.
  intros Hs Hv. unfold view. split; [|by intros ->]. destruct (mapping s pd v) as [f|] eqn:Ef; [|done]. cbn. intros E. exfalso.
  destruct (user_used_range s pd f) as (_ & _ & _ & _ & Hm); [apply Hs|by eapply Hs|].
  pose proof (Z.mod_pos_bound v 4096 ltac:(lia)). destruct (Hm (Z.to_nat (v `mod` 4096))) as [x Hx]; [lia|].
  rewrite Z2Nat.id in Hx by lia. congruence.
Qed.

Lemma view_page s pd u v :
  proc_ok s pd → user_page u → user_page v → v / 4096 = u / 4096 → view s pd u = None → view s pd v = None.
Proof. intros Hs Hu Hv E. rewrite !view_mapped by done. by rewrite (mapping_page s pd v u E). Qed.

(** A page of the user pool that is in use and not mapped. *)
Record spare (s : machine) (pd i : Z) : Prop := {
  sp_proc : proc_ok s pd;
  sp_index : 0 ≤ i < bit_cnt (used_map (user_pool (vm s)));
  sp_used : bit_at (used_map (user_pool (vm s))) i = true;
  sp_free : unmapped s pd (upage_at s i);
}.

Lemma spare_used s pd i : spare s pd i → user_used (vm s) (upage_at s i).
Proof. intros [_ Hi Hb _]. by exists i. Qed.

Lemma spare_step s pd i b m :
  proc_ok s pd → page_change s i b m → bit_at b i = true → unmapped s pd (upage_at s i) → spare (user_step b m s) pd i.
Proof.
  intros Hs Hc Hb Hun. destruct (user_step_ok s pd i b m Hs Hc Hun) as [Hok Hv]. split; [done| |done|].
  - cbn. rewrite (pc_cnt _ _ _ _ Hc). apply Hc.
  - intros v f Hx. rewrite (proj1 (Hv v Hx)). by apply Hun.
Qed.

(** Writing into the page. *)
Lemma spare_write s pd i m :
  spare s pd i → page_change s i (used_map (user_pool (vm s))) m →
  spare (with_mem m s) pd i ∧ ∀ v, user_page v → view (with_mem m s) pd v = view s pd v.
Proof.
  intros [Hs Hi Hb Hun] Hc. rewrite with_mem_user. split; [by apply spare_step|].
  intros v Hv. by apply (user_step_ok s pd i _ m Hs Hc Hun).
Qed.

(** Freeing a page that could not be used. *)
Lemma drop_page s f pd i :
  spare s pd i →
  ∃ s', (on_pages (palloc_free_page (upage_at s i));; mret false) (Process s f pd) = Ok (false, Process s' f pd) ∧
    proc_ok s' pd ∧ kernel_pool (vm s') = kernel_pool (vm s) ∧ ∀ v, user_page v → view s' pd v = view s pd v.
Proof.
  intros [Hs Hi Hb Hun]. pose proof (pr_dir _ _ Hs) as Hd.
  destruct (free_user_page s i (dk_pages _ _ Hd) (dk_bytes _ _ Hd) Hi Hb) as (b & m & Hc & E).
  destruct (user_step_ok s pd i b m Hs Hc Hun) as [Hok Hv]. exists (user_step b m s).
  split_and!; [|done|done|intros v Hx; by apply Hv].
  by erewrite st_bind_ok by (unfold on_pages, on_cpu; cbn [cpu fsys pagedir]; rewrite E; reflexivity).
Qed.

Lemma page_of_address u v : u `mod` 4096 = 0 → v / 4096 = u / 4096 ↔ u ≤ v < u + 4096.
Proof. intros Hu. dlia. Qed.

Lemma page_offset_of u v : u `mod` 4096 = 0 → u ≤ v < u + 4096 → v `mod` 4096 = v - u.
Proof. intros Hu Hv. dlia. Qed.

(** What load_page does with the bytes read. *)
Lemma use_page s f pd i bs n u w :
  spare s pd i → Forall (λ x, 0 ≤ x < 256) bs → Z.of_nat (length bs) ≤ n ≤ 4096 → user_page u → u `mod` 4096 = 0 →
  let k := upage_at s i in
  ∃ r s',
    (on_mem (store_bytes k bs);;
     if decide (Z.of_nat (length bs) ≠ n) then on_pages (palloc_free_page k);; mret false else
     _ ← on_mem (memset (u32 (k + n)) 0 (4096 - n));
     ok ← install_page u k w;
     if (ok : bool) then mret true else on_pages (palloc_free_page k);; mret false) (Process s f pd) =
      Ok (r, Process s' f pd) ∧ proc_ok s' pd ∧
    if r then (Z.of_nat (length bs) = n ∧ view s pd u = None) ∧ extends s s' pd u 4096 (λ j, default 0 (bs !! Z.to_nat j))
    else (no_memory s' ∨ Z.of_nat (length bs) ≠ n ∨ view s pd u ≠ None) ∧ ∀ v, user_page v → view s' pd v = view s pd v.
Proof.
  intros Hsp Hby Hn Hu Hua k. pose proof Hsp as [Hs Hi _ _]. pose proof (pr_dir _ _ Hs) as Hd.
  destruct (user_used_range s pd k Hd (spare_used _ _ _ Hsp)) as (Hka & Hk0 & Hk1 & Hkm).
  destruct (fill_page s f pd k bs Hkm Hk1) as [Est Ems]; [lia|]. erewrite st_bind_ok by exact Est.
  destruct (decide (Z.of_nat (length bs) ≠ n)) as [Hl|Hl].
  - destruct (spare_write s pd i (write k bs (mem_of s)) Hsp) as [Hsp2 Hv2].
    { apply write_change; [apply Hd|apply Hd|done|done|done|lia]. }
    destruct (drop_page (with_mem (write k bs (mem_of s)) s) f pd i Hsp2) as (s' & E & Hs' & _ & Hv').
    exists false, s'. split_and!; [exact E|done|by right; left|]. intros v Hv. by rewrite Hv', Hv2.
  - assert (Hl' : Z.of_nat (length bs) = n) by lia. rewrite <- Hl' in *. clear Hl Hl'.
    erewrite st_bind_ok by exact Ems. set (s3 := with_mem (filled k bs (mem_of s)) s).
    destruct (spare_write s pd i (filled k bs (mem_of s)) Hsp) as [Hsp3 Hv3].
    { apply filled_change; [apply Hd|apply Hd|done|done|lia]. }
    fold s3 in Hsp3, Hv3. pose proof (sp_free _ _ _ Hsp3) as Hun. pose proof (sp_proc _ _ _ Hsp3) as Hs3.
    destruct (install_page_ok s3 f pd u k w Hs3 Hu Hua (spare_used _ _ _ Hsp3) Hun) as [(s4 & E & Hadd & Hnone)|[Hwhy E]];
      erewrite st_bind_ok by exact E; cbv iota.
    + destruct (adds_ok s3 s4 pd u k Hs3 (spare_used _ _ _ Hsp3) Hun Hadd) as [Hs4 Hv4].
      exists true, s4. split_and!; [done|done|done| |]; [by rewrite <- Hv3 by done; apply view_mapped|].
      intros v Hv. rewrite Hv4 by done.
      destruct (decide (u ≤ v < u + 4096)) as [Hin|Hin]; destruct (decide (v / 4096 = u / 4096)) as [Hp|Hp];
        rewrite page_of_address in Hp by done; try done; [|by apply Hv3].
      rewrite (page_offset_of u v) by done. apply filled_lookup; lia.
    + destruct (drop_page s3 f pd i Hsp3) as (s' & E' & Hs' & Hkp & Hv').
      exists false, s'. split_and!; [exact E'|done| |].
      { destruct Hwhy as [Hm|Hfull]; [right; right|left; right; unfold full; cbn [pool_of]; by rewrite Hkp].
        rewrite <- Hv3 by done. by rewrite view_mapped. }
      intros v Hv. by rewrite Hv', Hv3.
Qed.

Lemma load_page_ok s f pd file contents pos u n w :
  proc_ok s pd → file_at f file contents pos → user_page u → u `mod` 4096 = 0 → 0 ≤ n ≤ 4096 →
  let bs := slice pos n contents in
  ∃ r s' f', load_page file u n (4096 - n) w (Process s f pd) = Ok (r, Process s' f' pd) ∧ proc_ok s' pd ∧
    (∃ pos', file_at f' file contents pos' ∧ (r = true → pos' = pos + n)) ∧
    if r then (Z.of_nat (length bs) = n ∧ view s pd u = None) ∧ extends s s' pd u 4096 (λ j, default 0 (bs !! Z.to_nat j))
    else (no_memory s' ∨ Z.of_nat (length bs) ≠ n ∨ view s pd u ≠ None) ∧ ∀ v, user_page v → view s' pd v = view s pd v.
Proof.
  intros Hs Hf Hu Hua Hn bs. unfold load_page.
  destruct (get_user_page s pd PAL_USER Hs) as [(i & b & m & Hc & Hbit & Hun & E & _)|[Hfull E]]; [done|done| |].
  2: { exists false, s, f. erewrite st_bind_ok by (unfold on_pages, on_cpu; cbn [cpu fsys pagedir]; rewrite E; reflexivity).
       rewrite decide_True by done. split_and!; [done|done| |by left; left|done]. exists pos. by split. }
  pose proof (spare_step s pd i b m Hs Hc Hbit Hun) as Hsp. destruct (user_step_ok s pd i b m Hs Hc Hun) as [Hs1 Hv1].
  erewrite st_bind_ok by (unfold on_pages, on_cpu; cbn [cpu fsys pagedir]; rewrite E; reflexivity).
  change (upage_at s i) with (upage_at (user_step b m s) i). set (s1 := user_step b m s) in *.
  destruct (user_used_range s1 pd _ (pr_dir _ _ Hs1) (spare_used _ _ _ Hsp)) as (_ & Hk0 & _).
  rewrite decide_False by (unfold NULL, PHYS_BASE in *; lia).
  destruct (file_read_ok f file contents pos n Hf ltac:(lia)) as (f1 & Er & Hf1). fold bs in Er, Hf1.
  erewrite st_bind_ok by (unfold on_fs; cbn [cpu fsys pagedir]; rewrite Er; reflexivity).
  pose proof (fa_range _ _ _ _ Hf). pose proof (slice_length_le pos n contents ltac:(lia) ltac:(lia)) as Hlen. fold bs in Hlen.
  assert (Hby : Forall (λ x, 0 ≤ x < 256) bs) by (unfold bs, slice; apply Forall_take, Forall_drop, Hf).
  destruct (use_page s1 f1 pd i bs n u w Hsp Hby) as (r & s' & E' & Hs' & Hr); [lia|done|done|].
  exists r, s', f1. split_and!; [exact E'|done|exists (pos + Z.of_nat (length bs))|].
  - split; [done|]. intros ->. by destruct Hr as [[-> _] _].
  - destruct r.
    + destruct Hr as [Hl He]. split; [by rewrite <- (proj2 (Hv1 u Hu))|]. intros v Hv. rewrite He by done. destruct (decide (u ≤ v < u + 4096)); [done|]. by apply Hv1.
    + rewrite (proj2 (Hv1 u Hu)) in Hr. destruct Hr as [Hwhy Hr]. split; [done|]. intros v Hv. rewrite Hr by done. by apply Hv1.
Qed.

Lemma slice_at i n (l : list Z) j :
  0 ≤ i → 0 ≤ j → slice i n l !! Z.to_nat j = if decide (j < n) then l !! Z.to_nat (i + j) else None.
Proof.
  intros Hi Hj. unfold slice. case_decide.
  - rewrite lookup_take, decide_True by lia. rewrite lookup_drop. f_equal. lia.
  - rewrite lookup_take. by rewrite decide_False by lia.
Qed.

(** The first page and the rest of a segment's bytes. *)
Lemma slice_pages pos read p (l : list Z) j :
  0 ≤ pos → 0 ≤ p ≤ read → (p = read ∧ p ≤ 4096 ∨ p = 4096) → 0 ≤ j →
  slice pos read l !! Z.to_nat j =
    if decide (j < 4096) then slice pos p l !! Z.to_nat j else slice (pos + p) (read - p) l !! Z.to_nat (j - 4096).
Proof.
  intros Hpos Hp Hc Hj. rewrite (slice_at pos read) by lia. destruct (decide (j < 4096)).
  - rewrite slice_at by lia. repeat case_decide; try done; lia.
  - rewrite slice_at by lia. repeat case_decide; try done; try lia. f_equal. lia.
Qed.

(** No byte of the range is mapped. *)
Definition free_range (s : machine) (pd u n : Z) : Prop := ∀ v, u ≤ v < u + n → view s pd v = None.

(** A loaded page and the pages behind it. *)
Lemma pages_extend s s1 s2 pd u n pos p read (contents : list Z) :
  proc_ok s pd → user_page u → u `mod` 4096 = 0 → u + 4096 * Z.of_nat (S n) ≤ 3221225472 → 0 ≤ pos < 2^31 →
  0 ≤ p ≤ 4096 ∧ p ≤ read ∧ (p = read ∨ p = 4096) → Z.of_nat (length (slice pos p contents)) = p → view s pd u = None →
  extends s s1 pd u 4096 (λ j, default 0 (slice pos p contents !! Z.to_nat j)) →
  extends s1 s2 pd (u + 4096) (4096 * Z.of_nat n) (λ j, default 0 (slice (pos + p) (read - p) contents !! Z.to_nat j)) ∧
  Z.of_nat (length (slice (pos + p) (read - p) contents)) = read - p ∧ free_range s1 pd (u + 4096) (4096 * Z.of_nat n) →
  extends s s2 pd u (4096 * Z.of_nat (S n)) (λ j, default 0 (slice pos read contents !! Z.to_nat j)) ∧
  Z.of_nat (length (slice pos read contents)) = read ∧ free_range s pd u (4096 * Z.of_nat (S n)).
Proof.
  intros Hs Hu Hua Hu1 Hpos Hp Hl Hn0 He (He2 & Hl2 & Hfr). split_and!.
  - intros v Hv. rewrite He2, He by done. destruct (decide (u ≤ v < u + 4096 * Z.of_nat (S n))) as [Hin|Hin].
    + rewrite (slice_pages pos read p) by lia. repeat case_decide; try lia; do 3 f_equal; lia.
    + by rewrite !decide_False by lia.
  - rewrite slice_length_le in Hl, Hl2 |- * by lia. lia.
  - intros v Hv. assert (Hvu : user_page v) by (unfold user_page, PHYS_BASE in *; lia).
    destruct (decide (v < u + 4096)) as [Hlt|Hge].
    + apply (view_page s pd u v); [done..|apply page_of_address; [done|lia]|done].
    + rewrite <- (Hfr v) by lia. rewrite He by done. by rewrite decide_False by lia.
Qed.

(** The loop: [n] pages in all. *)
Lemma load_pages_ok n s f pd file contents pos u read zero w :
  proc_ok s pd → file_at f file contents pos → 0 ≤ u → u + 4096 * Z.of_nat n ≤ PHYS_BASE → u `mod` 4096 = 0 →
  0 ≤ read → 0 ≤ zero → read + zero = 4096 * Z.of_nat n →
  ∃ r s' f', load_pages n file u read zero w (Process s f pd) = Ok (r, Process s' f' pd) ∧ proc_ok s' pd ∧
    (∃ pos', file_at f' file contents pos') ∧
    if r then extends s s' pd u (4096 * Z.of_nat n) (λ j, default 0 (slice pos read contents !! Z.to_nat j)) ∧
      Z.of_nat (length (slice pos read contents)) = read ∧ free_range s pd u (4096 * Z.of_nat n)
    else no_memory s' ∨ Z.of_nat (length (slice pos read contents)) ≠ read ∨ ¬ free_range s pd u (4096 * Z.of_nat n).
Proof.
  revert s f pos u read zero. induction n as [|n IH]; intros s f pos u read zero Hs Hf Hu0 Hu1 Hua Hr Hz Ht; cbn [load_pages].
  - rewrite decide_False by lia. exists true, s, f. split_and!; [done|done|by exists pos| | |].
    + intros v Hv. by rewrite decide_False by lia.
    + assert (read = 0) as -> by lia. done.
    + intros v Hv. lia.
  - rewrite decide_True by lia. change PGSIZE with 4096. set (p := if decide (read < 4096) then read else 4096).
    assert (Hp : 0 ≤ p ≤ 4096 ∧ p ≤ read ∧ (p = read ∨ p = 4096)) by (unfold p; case_decide; lia).
    assert (Hup : user_page u) by (unfold user_page; lia). pose proof (fa_range _ _ _ _ Hf) as Hpr.
    destruct (load_page_ok s f pd file contents pos u p w Hs Hf) as (r & s1 & f1 & E & Hs1 & (pos1 & Hf1 & Ep) & Hpost);
      [done|done|lia|]. erewrite st_bind_ok by exact E. destruct r.
    + destruct Hpost as [[Hl Hn0] He]. rewrite (Ep eq_refl) in Hf1. unfold PHYS_BASE in Hu1.
      rewrite !u32_id by (unfold in_u32; lia).
      destruct (IH s1 f1 (pos + p) (u + 4096) (read - p) (zero - (4096 - p)) Hs1 Hf1)
        as (r & s2 & f2 & E2 & Hs2 & Hf2 & Hpost2); [lia|unfold PHYS_BASE; lia|dlia|lia|lia|lia|].
      exists r, s2, f2. split_and!; [exact E2|done|done|]. destruct r.
      * by apply (pages_extend s s1 s2 pd u n pos p read contents).
      * destruct Hpost2 as [Hm|[Hs2l|Hfr]]; [by left|right; left|right; right].
        -- rewrite slice_length_le in Hs2l, Hl |- * by lia. lia.
        -- contradict Hfr. intros v Hv. rewrite He by (unfold user_page, PHYS_BASE; lia). rewrite decide_False by lia. apply Hfr. lia.
    + exists false, s1, f1. split_and!; [done|done|by exists pos1|]. destruct Hpost as [[Hm|[Hl|Hv]] _]; [by left|right; left|right; right].
      * rewrite slice_length_le in Hl |- * by lia. lia.
      * contradict Hv. apply Hv. lia.
Qed.

Lemma load_segment_ok s f pd file contents pos ofs u read zero w :
  proc_ok s pd → file_at f file contents pos → 0 ≤ ofs < 2^31 → ofs `mod` 4096 = 0 →
  0 ≤ u → u + read + zero ≤ PHYS_BASE → u `mod` 4096 = 0 → 0 ≤ read → 0 ≤ zero → (read + zero) `mod` 4096 = 0 →
  ∃ r s' f', load_segment file ofs u read zero w (Process s f pd) = Ok (r, Process s' f' pd) ∧ proc_ok s' pd ∧
    (∃ pos', file_at f' file contents pos') ∧
    if r then extends s s' pd u (read + zero) (λ j, default 0 (slice ofs read contents !! Z.to_nat j)) ∧
      Z.of_nat (length (slice ofs read contents)) = read ∧ free_range s pd u (read + zero)
    else no_memory s' ∨ Z.of_nat (length (slice ofs read contents)) ≠ read ∨ ¬ free_range s pd u (read + zero).
Proof.
  intros Hs Hf Ho Hoa Hu0 Hu1 Hua Hr Hz Ht. unfold load_segment. change PGSIZE with 4096. unfold PHYS_BASE in Hu1.
  erewrite st_bind_ok by (apply assert_ok, bool_decide_eq_true; by rewrite u32_id by (unfold in_u32; lia)).
  erewrite st_bind_ok by (apply assert_ok, bool_decide_eq_true; by rewrite pg_ofs_mod).
  erewrite st_bind_ok by (apply assert_ok, bool_decide_eq_true; by rewrite Z.rem_mod_nonneg by lia).
  destruct (file_seek_ok f file contents pos ofs Hf Ho) as (f1 & E & Hf1).
  erewrite st_bind_ok by (unfold on_fs; cbn [cpu fsys pagedir]; rewrite E; reflexivity).
  set (n := Z.to_nat ((read + zero) / 4096)). assert (Hn : read + zero = 4096 * Z.of_nat n) by (unfold n; dlia).
  destruct (load_pages_ok n s f1 pd file contents ofs u read zero w Hs Hf1) as (r & s' & f' & E' & Hs' & Hf' & Hpost);
    [lia|unfold PHYS_BASE; lia|done|lia|lia|lia|].
  exists r, s', f'. split_and!; [exact E'|done|done|]. by rewrite <- Hn in Hpost.
Qed.

(** ** Program headers *)

Lemma field_range i n bs :
  Forall (λ x, 0 ≤ x < 256) bs → 0 ≤ n ≤ 4 → 0 ≤ field i n bs < 2^32.
Proof.
  intros Hb Hn. unfold field. assert (Hf : Forall (λ x, 0 ≤ x < 256) (slice i n bs)) by (apply Forall_take, Forall_drop, Hb).
  pose proof (le_word_range _ Hf) as Hr. assert (Hl : (length (slice i n bs) ≤ 4)%nat) by (unfold slice; rewrite length_take; lia).
  assert (256 ^ Z.of_nat (length (slice i n bs)) ≤ 256 ^ 4) by (apply Z.pow_le_mono_r; lia).
  change (256 ^ 4) with (2^32) in *. lia.
Qed.

(** What validate_segment checks. *)
Record segment_ok (h : list Z) (len : Z) : Prop := {
  so_aligned : p_offset h `mod` 4096 = p_vaddr h `mod` 4096;
  so_offset : 0 ≤ p_offset h ≤ len;
  so_size : 0 ≤ p_filesz h ≤ p_memsz h ∧ 0 < p_memsz h;
  so_user : 4096 ≤ p_vaddr h ∧ p_vaddr h + p_memsz h < PHYS_BASE;
}.

Lemma valid_segment_spec h len :
  Forall (λ x, 0 ≤ x < 256) h → 0 ≤ len < 2^31 → valid_segment h len = true ↔ segment_ok h len.
Proof.
  intros Hb Hl. assert (Hr : ∀ i, 0 ≤ field i 4 h < 2^32) by (intros i; apply field_range; [done|lia]).
  pose proof (Hr 4) as H1. pose proof (Hr 8) as H2. pose proof (Hr 16) as H3. pose proof (Hr 20) as H4.
  fold p_offset in H1. fold p_vaddr in H2. fold p_filesz in H3. fold p_memsz in H4.
  unfold valid_segment. fold (pg_ofs (p_offset h)) (pg_ofs (p_vaddr h)). rewrite !pg_ofs_mod. change PGSIZE with 4096.
  rewrite (u32_id len) by (unfold in_u32; lia).
  assert (Hw : p_vaddr h < PHYS_BASE → u32 (p_vaddr h + p_memsz h) < PHYS_BASE → p_vaddr h ≤ u32 (p_vaddr h + p_memsz h) →
    u32 (p_vaddr h + p_memsz h) = p_vaddr h + p_memsz h) by (unfold u32, PHYS_BASE; dlia).
  split.
  - intros H. unfold is_user_vaddr in H. repeat case_decide; try done.
    destruct (bool_decide_reflect (p_vaddr h < PHYS_BASE)); [|done].
    destruct (bool_decide_reflect (u32 (p_vaddr h + p_memsz h) < PHYS_BASE)); [|done]. cbn in H. repeat case_decide; try done.
    rewrite Hw in * by lia. split; lia.
  - intros [Ha Ho [Hf Hm] [Hv Hx]]. assert (Eu : u32 (p_vaddr h + p_memsz h) = p_vaddr h + p_memsz h) by (apply u32_id; unfold in_u32, PHYS_BASE in *; lia).
    rewrite Eu. unfold is_user_vaddr. rewrite !decide_False by lia. by rewrite !bool_decide_true by lia.
Qed.

(** The page, the pages' bytes and the file's bytes of a loadable segment. *)
Definition seg_start (h : list Z) : Z := p_vaddr h - p_vaddr h `mod` 4096.
Definition seg_size (h : list Z) : Z := (p_vaddr h `mod` 4096 + p_memsz h + 4095) / 4096 * 4096.
Definition seg_read (h : list Z) : Z := if decide (0 < p_filesz h) then p_vaddr h `mod` 4096 + p_filesz h else 0.
Definition seg_in_file (contents h : list Z) : Prop :=
  Z.of_nat (length (slice (p_offset h - p_offset h `mod` 4096) (seg_read h) contents)) = seg_read h.
Definition seg_byte (contents h : list Z) (j : Z) : Z :=
  default 0 (slice (p_offset h - p_offset h `mod` 4096) (seg_read h) contents !! Z.to_nat j).

Lemma load_phdr_ok s f pd file contents pos h :
  proc_ok s pd → file_at f file contents pos → Forall (λ x, 0 ≤ x < 256) h → segment_ok h (Z.of_nat (length contents)) →
  ∃ r s' f', load_phdr file h (Process s f pd) = Ok (r, Process s' f' pd) ∧ proc_ok s' pd ∧
    (∃ pos', file_at f' file contents pos') ∧
    if r then extends s s' pd (seg_start h) (seg_size h) (seg_byte contents h) ∧
      seg_in_file contents h ∧ free_range s pd (seg_start h) (seg_size h)
    else no_memory s' ∨ ¬ seg_in_file contents h ∨ ¬ free_range s pd (seg_start h) (seg_size h).
Proof.
  intros Hs Hf Hb [Ha Ho [Hfs Hm] [Hv Hx]]. pose proof (file_length_ok _ _ _ _ Hf) as [_ Hlen]. unfold load_phdr.
  fold (pg_round_down (p_offset h)) (pg_round_down (p_vaddr h)) (pg_ofs (p_vaddr h)).
  unfold PHYS_BASE in Hx. rewrite !pg_round_down_eq by (unfold in_u32; lia). rewrite pg_ofs_mod.
  set (o := p_vaddr h `mod` 4096) in *. assert (Hor : 0 ≤ o < 4096) by (apply Z.mod_pos_bound; lia).
  assert (Hvq : ∃ q, p_vaddr h = 4096 * q + o) by (exists (p_vaddr h / 4096); unfold o; dlia). destruct Hvq as [q Hvq].
  set (ofs := p_offset h - p_offset h `mod` 4096).
  assert (Hofs : 0 ≤ ofs < 2^31 ∧ ofs `mod` 4096 = 0) by (unfold ofs; dlia). rewrite (s32_id ofs) by (unfold in_s32; lia).
  assert (Hread : (if decide (0 < p_filesz h) then u32 (o + p_filesz h) else 0) = seg_read h).
  { unfold seg_read. fold o. case_decide; [|done]. apply u32_id. unfold in_u32. lia. }
  assert (Hsize : seg_read h ≤ seg_size h ∧ (seg_size h) `mod` 4096 = 0 ∧ 0 ≤ seg_read h ∧ seg_start h + seg_size h ≤ PHYS_BASE).
  { unfold seg_read, seg_size, seg_start, PHYS_BASE. fold o. clearbody o. case_decide; dlia. }
  assert (Hzero : u32 (ROUND_UP (u32 (o + p_memsz h)) PGSIZE - seg_read h) = seg_size h - seg_read h).
  { unfold ROUND_UP. change PGSIZE with 4096. unfold PHYS_BASE in Hsize. rewrite (u32_id (o + p_memsz h)) by (unfold in_u32; lia).
    rewrite (u32_id (o + p_memsz h + 4096)) by (unfold in_u32; lia).
    rewrite (u32_id (o + p_memsz h + 4096 - 1)) by (unfold in_u32; lia).
    replace ((o + p_memsz h + 4096 - 1) / 4096 * 4096) with (seg_size h) by (unfold seg_size; fold o; do 2 f_equal; lia).
    unfold seg_start in Hsize. rewrite (u32_id (seg_size h)) by (unfold in_u32; lia). apply u32_id. unfold in_u32. lia. }
  rewrite Hread, Hzero. fold (seg_start h).
  destruct (load_segment_ok s f pd file contents pos ofs (seg_start h) (seg_read h) (seg_size h - seg_read h)
    (bool_decide (Z.land (p_flags h) PF_W ≠ 0)) Hs Hf) as (r & s' & f' & E & Hs' & Hf' & Hpost);
    [lia|lia|unfold seg_start; lia|lia|unfold seg_start; dlia|lia|lia|replace (seg_read h + (seg_size h - seg_read h)) with (seg_size h) by lia; apply Hsize|].
  exists r, s', f'. split_and!; [exact E|done|done|].
  by replace (seg_read h + (seg_size h - seg_read h)) with (seg_size h) in Hpost by lia.
Qed.

(** ** The memory image of a program *)

(** The view with a header's segment, if it has one. *)
Definition overlay (contents h : list Z) (V : Z → option Z) (v : Z) : option Z :=
  if decide (p_type h = PT_LOAD ∧ seg_start h ≤ v < seg_start h + seg_size h)
  then Some (seg_byte contents h (v - seg_start h)) else V v.

Fixpoint image (contents : list Z) (hs : list (list Z)) (V : Z → option Z) : Z → option Z :=
  match hs with [] => V | h :: hs => image contents hs (overlay contents h V) end.

(** The [n] program headers at offset [ofs]. *)
Fixpoint headers (n : nat) (contents : list Z) (ofs : Z) : list (list Z) :=
  match n with O => [] | S n => slice ofs 32 contents :: headers n contents (ofs + 32) end.

Record header_ok (len : Z) (h : list Z) : Prop := {
  ho_length : length h = 32%nat;
  ho_type : p_type h ≠ PT_DYNAMIC ∧ p_type h ≠ PT_INTERP ∧ p_type h ≠ PT_SHLIB;
  ho_segment : p_type h = PT_LOAD → segment_ok h len;
}.

(** A header that can be loaded into the memory [V]: the bytes of its segment
    are in the file, and its pages are not mapped yet. *)
Record loadable (contents : list Z) (V : Z → option Z) (h : list Z) : Prop := {
  lo_header : header_ok (Z.of_nat (length contents)) h;
  lo_file : p_type h = PT_LOAD → seg_in_file contents h;
  lo_free : p_type h = PT_LOAD → ∀ v, seg_start h ≤ v < seg_start h + seg_size h → V v = None;
}.

(** Each of the headers can be loaded after the ones before it. *)
Fixpoint loads (contents : list Z) (hs : list (list Z)) (V : Z → option Z) : Prop :=
  match hs with [] => True | h :: hs => loadable contents V h ∧ loads contents hs (overlay contents h V) end.

Lemma image_ext contents hs V V' v :
  user_page v → (∀ x, user_page x → V x = V' x) → image contents hs V v = image contents hs V' v.
Proof.
  intros Hv. revert V V'. induction hs as [|h hs IH]; intros V V' HV; [by apply HV|]. cbn. apply IH.
  intros x Hx. unfold overlay. by rewrite HV.
Qed.

Lemma seg_user (contents h : list Z) v :
  segment_ok h (Z.of_nat (length contents)) → seg_start h ≤ v < seg_start h + seg_size h → user_page v.
Proof. intros [_ _ [_ Hm] [Hv Hx]]. unfold seg_start, seg_size, user_page, PHYS_BASE in *. dlia. Qed.

Lemma loads_ext contents hs V V' :
  (∀ x, user_page x → V x = V' x) → loads contents hs V → loads contents hs V'.
Proof.
  revert V V'. induction hs as [|h hs IH]; intros V V' HV; [done|]. intros [[Hh Hf Hn] Hl]. split.
  - split; [done..|]. intros Ht v Hv. rewrite <- HV; [by apply Hn|]. apply (seg_user contents h v); [by apply Hh|done].
  - eapply IH; [|exact Hl]. intros x Hx. unfold overlay. by rewrite HV.
Qed.

(** The switch on the header's type. *)
Lemma phdr_step_ok s f pd file contents pos h :
  proc_ok s pd → file_at f file contents pos → Forall (λ x, 0 ≤ x < 256) h → length h = 32%nat →
  ∃ r s' f',
    (if decide (p_type h = PT_DYNAMIC ∨ p_type h = PT_INTERP ∨ p_type h = PT_SHLIB) then mret false
     else if decide (p_type h = PT_LOAD) then
       ok ← validate_segment h file; if (ok : bool) then load_phdr file h else mret false
     else mret true) (Process s f pd) = Ok (r, Process s' f' pd) ∧ proc_ok s' pd ∧
    (∃ pos', file_at f' file contents pos') ∧
    if r then loadable contents (view s pd) h ∧ ∀ v, user_page v → view s' pd v = overlay contents h (view s pd) v
    else no_memory s' ∨ ¬ loadable contents (view s pd) h.
Proof.
  intros Hs Hf Hb Hl. destruct (file_length_ok _ _ _ _ Hf) as [El Hlen].
  destruct (decide (_ ∨ _ ∨ _)) as [Ht|Ht].
  { exists false, s, f. split_and!; [done|done|by eauto|]. right. intros [[_ Hty _] _ _]. tauto. }
  destruct (decide (p_type h = PT_LOAD)) as [Hld|Hld].
  - unfold validate_segment. rewrite (st_bind_ok _ _ _ (valid_segment h (Z.of_nat (length contents))) (Process s f pd)).
    2: { erewrite st_bind_ok by (unfold on_fs; cbn [cpu fsys pagedir]; rewrite El; reflexivity). done. }
    pose proof (valid_segment_spec h (Z.of_nat (length contents)) Hb ltac:(lia)) as Hvs.
    destruct (valid_segment h (Z.of_nat (length contents))) eqn:Ev.
    2: { exists false, s, f. split_and!; [done|done|by eauto|]. right. intros [[_ _ Hseg] _ _]. by apply Hseg, Hvs in Hld. }
    assert (Hseg : segment_ok h (Z.of_nat (length contents))) by (by apply Hvs).
    destruct (load_phdr_ok s f pd file contents pos h Hs Hf Hb Hseg) as (r & s' & f' & E & Hs' & Hf' & He).
    exists r, s', f'. split_and!; [exact E|done|done|]. destruct r.
    + destruct He as (He & Hin & Hfr). split; [split; [split; [done|tauto|done]|done|done]|].
      intros v Hv. rewrite He by done. unfold overlay. repeat case_decide; try done; tauto.
    + destruct He as [?|[Hin|Hfr]]; [by left|right..]; intros [_ Hf1 Hf2]; [by apply Hin, Hf1|by apply Hfr; intros v; apply Hf2].
  - exists true, s, f. split_and!; [done|done|by exists pos| |].
    + by split; [split; [done|tauto|]| |].
    + intros v Hv. unfold overlay. by rewrite decide_False by tauto.
Qed.

Lemma phdr_loop_ok n s f pd file contents pos ofs :
  proc_ok s pd → file_at f file contents pos → in_s32 ofs →
  ∃ r s' f', phdr_loop n file ofs (Process s f pd) = Ok (r, Process s' f' pd) ∧ proc_ok s' pd ∧
    (∃ pos', file_at f' file contents pos') ∧
    if r then loads contents (headers n contents ofs) (view s pd) ∧
      ∀ v, user_page v → view s' pd v = image contents (headers n contents ofs) (view s pd) v
    else ofs < 0 ∨ no_memory s' ∨ ¬ loads contents (headers n contents ofs) (view s pd).
Proof.
  revert s f pos ofs. induction n as [|n IH]; intros s f pos ofs Hs Hf Ho; cbn [phdr_loop headers image loads].
  { exists true, s, f. split_and!; [done|done|by exists pos|done|done]. }
  destruct (file_length_ok _ _ _ _ Hf) as [El Hlen].
  erewrite st_bind_ok by (unfold on_fs; cbn [cpu fsys pagedir]; rewrite El; reflexivity).
  destruct (decide (ofs < 0 ∨ Z.of_nat (length contents) < ofs)) as [Hbad|Hgood].
  { exists false, s, f. split_and!; [done|done|by eauto|]. destruct Hbad as [?|Hbad]; [by left|right; right].
    intros [[[Hl _ _] _ _] _]. unfold slice in Hl. rewrite length_take, length_drop in Hl. lia. }
  destruct (file_seek_ok f file contents pos ofs Hf) as (f1 & E1 & Hf1); [lia|].
  erewrite st_bind_ok by (unfold on_fs; cbn [cpu fsys pagedir]; rewrite E1; reflexivity).
  destruct (file_read_ok f1 file contents ofs PHDR_SIZE Hf1) as (f2 & E2 & Hf2); [done|].
  change (slice ofs PHDR_SIZE contents) with (slice ofs 32 contents) in *. set (h := slice ofs 32 contents) in *.
  erewrite st_bind_ok by (unfold on_fs; cbn [cpu fsys pagedir]; rewrite E2; reflexivity).
  destruct (decide (Z.of_nat (length h) ≠ PHDR_SIZE)) as [Hl|Hl].
  { exists false, s, f2. split_and!; [done|done|by eauto|]. right; right. intros [[[Hl' _ _] _ _] _]. unfold PHDR_SIZE in Hl. lia. }
  assert (Hb : Forall (λ x, 0 ≤ x < 256) h) by (unfold h, slice; apply Forall_take, Forall_drop, Hf).
  destruct (phdr_step_ok s f2 pd file contents _ h Hs Hf2 Hb) as (r & s1 & f3 & E3 & Hs1 & (pos3 & Hf3) & Hr);
    [unfold PHDR_SIZE in Hl; lia|]. erewrite st_bind_ok by exact E3. destruct r.
  2: { exists false, s1, f3. split_and!; [done|done|by eauto|]. right. destruct Hr as [?|Hr]; [by left|right; by intros [? _]]. }
  destruct Hr as [Hh Hv]. unfold PHDR_SIZE. rewrite s32_id by (unfold in_s32; lia).
  destruct (IH s1 f3 pos3 (ofs + 32) Hs1 Hf3) as (r & s' & f' & E & Hs' & Hf' & Hpost); [unfold in_s32; lia|].
  exists r, s', f'. split_and!; [exact E|done|done|]. destruct r.
  - destruct Hpost as [Hls Hv']. split_and!; [done| |].
    + by eapply loads_ext, Hls.
    + intros v Hx. rewrite Hv' by done. by apply image_ext.
  - right. destruct Hpost as [?|[?|Hn]]; [lia|by left|right]. intros [_ Hl2]. apply Hn.
    eapply loads_ext, Hl2. intros x Hx. by rewrite Hv.
Qed.
