(* ===== verification/ProcessTheorems.v ===== *)
(** * Theorems about userprog/process.c

    Loading the segments of an executable, with an instance on a small machine
    and a file of one sector, and where the arguments of a program end up. *)

From S2P Require Import Prelude Bitmap Inode FileSys FileSpec Memory CString Vaddr Palloc Pagedir Process ProcessSpec MemTheorems.

Local Open Scope Z_scope.

(** No segment reaches into page 0. *)
Lemma image_page_0 contents hs V v :
  loads contents hs V → 0 ≤ v < 4096 → image contents hs V v = V v.
Proof.
  intros Hl Hv. revert V Hl. induction hs as [|h hs IH]; intros V; [done|]. intros [[[_ _ Hs] _ _] Hl]. cbn.
  rewrite IH by done. unfold overlay. rewrite decide_False; [done|]. intros [Ht Hin].
  destruct (Hs Ht) as [_ _ _ [Hp _]]. unfold seg_start in Hin. dlia.
Qed.

(** C19: The loop of load over the program headers always returns.  If it
    succeeds, every header is acceptable, no segment overlaps another or a page
    that was mapped, and the process sees exactly its old memory with the
    loadable segments in it: in the pages of a segment the bytes of the file,
    and zeros behind them; page 0 is as before.  It fails only if the offset is
    negative, if some header is not acceptable in this sense, or if a page pool
    is exhausted.  In both cases the page directory stays well formed: it maps
    distinct pages in use of the user pool. *)
Theorem load_segments n s f pd file contents pos ofs :
  proc_ok s pd → file_at f file contents pos → in_s32 ofs →
  ∃ r s' f', phdr_loop n file ofs (Process s f pd) = Ok (r, Process s' f' pd) ∧ proc_ok s' pd ∧
    if r then loads contents (headers n contents ofs) (view s pd) ∧
       (∀ v, user_page v → view s' pd v = image contents (headers n contents ofs) (view s pd) v) ∧
       ∀ v, 0 ≤ v < 4096 → view s' pd v = view s pd v
    else ofs < 0 ∨ no_memory s' ∨ ¬ loads contents (headers n contents ofs) (view s pd).
Proof.
  intros Hs Hf Ho. destruct (phdr_loop_ok n s f pd file contents pos ofs Hs Hf Ho) as (r & s' & f' & E & Hs' & _ & Hr).
  exists r, s', f'. split_and!; [done|done|]. destruct r; [|done]. destruct Hr as [Hh Hv]. split_and!; [done|done|].
  intros v Hx. rewrite Hv by (unfold user_page, PHYS_BASE; lia). by apply image_page_0.
Qed.

(** A file of one sector with a program header at its start: a segment of 100
    bytes of the file and 200 bytes of memory at 0x8048000. *)
Definition demo_header : list Z := concat (le_bytes 4 <$> [1; 0; 134512640; 0; 100; 200; 0; 0]).
Definition demo_program : list Z := demo_header ++ replicate 480 7.
Definition demo_fs : fs :=
  Fs demo_program 1 {[8 := Inode 0 1 false 0 (InodeDisk 0 512 0)]} [8] {[4 := File 8 0 false]} ∅ (Bitmap 0 []) 0 100 [].

Lemma demo_file : file_at demo_fs 4 demo_program 0.
Proof.
  split; [done| |done|lia|compute_hyp].
  exists (File 8 0 false), (Inode 0 1 false 0 (InodeDisk 0 512 0)). split_and!; [done|done|done| |by vm_compute].
  split; cbn [data start length_ dev_size demo_fs]; try lia; by vm_compute.
Qed.

Lemma demo_proc_ok : proc_ok demo_machine demo_pd.
Proof.
  split.
  - exact demo_dir_ok.
  - split; [cbn [demo_machine cr3]; lia|]. intros E. exfalso. revert E. by vm_compute.
  - by vm_compute.
  - vm_compute. discriminate.
  - intros v f Hv Hm. rewrite (demo_unmapped v Hv) in Hm. congruence.
  - intros v w f Hv _ Hm. rewrite (demo_unmapped v Hv) in Hm. congruence.
Qed.

(** The first bytes of the segment are the header, and byte 150 is 0. *)
Lemma load_segments_witness :
  ∃ s' f', phdr_loop 1 4 0 (Process demo_machine demo_fs demo_pd) = Ok (true, Process s' f' demo_pd) ∧
    view s' demo_pd 134512648 = Some 0 ∧ view s' demo_pd 134512650 = Some 4 ∧ view s' demo_pd 134512790 = Some 0.
Proof.
  destruct (load_segments 1 demo_machine demo_fs demo_pd 4 demo_program 0 0 demo_proc_ok demo_file) as (r & s' & f' & E & _ & Hr);
    [unfold in_s32; lia|].
  assert (Hb : match phdr_loop 1 4 0 (Process demo_machine demo_fs demo_pd) with Ok (b, _) => b | _ => false end = true)
    by (vm_compute; reflexivity).
  rewrite E in Hb. subst r. destruct Hr as (_ & Hv & _). exists s', f'. split; [exact E|].
  assert (Hu : ∀ v, 134512640 ≤ v ≤ 134512800 → user_page v) by (unfold user_page, PHYS_BASE; lia).
  split; [|split]; rewrite Hv by (apply Hu; lia); vm_compute; reflexivity.
Defined.

(** ** Arguments *)

(** A kernel stack with the stack pointer of the new process at 2000, the
    command "ls -l x" at 1000, the local variable save_ptr at 3000 and the
    delimiter at 4000. *)
Definition command_ram : mem :=
  write 1900 (replicate 100 170) (write 2000 (le_bytes 4 PHYS_BASE)
    (write 1000 [108; 115; 32; 45; 108; 32; 120; 0] (write 3000 [0; 0; 0; 0] (write 4000 [32; 0] ∅)))).
Definition command_process : process :=
  Process (Machine (Pages (Pool (Bitmap 0 []) 0) (Pool (Bitmap 0 []) 0) command_ram) 0 0 0 ∅) demo_fs NULL.

(** The two steps of load that look at the command. *)
Definition split_and_pass : PR bool :=
  file_name ← on_mem (strtok_r 1000 4000 3000); pass_arguments 2000 file_name 4000 3000.

(** load returns success, but the stack pointer of the process is as before
    and only the name of the program is found, not its two arguments.  The
    words that should be on the user's stack are single bytes below the kernel
    variable that holds its stack pointer: argc is at 1980. *)
Theorem arguments_not_passed :
  ∃ s', split_and_pass command_process = Ok (true, s') ∧
    let m := mem_of (cpu s') in
    word m 2000 = PHYS_BASE ∧ m !! 1980 = Some 1 ∧ m !! 1981 = Some 170 ∧ m !! 1997 = Some 108 ∧ m !! 1998 = Some 115.
Proof.
  destruct (split_and_pass command_process) as [[ok s']|e] eqn:E.
  - assert (H : match split_and_pass command_process with
      | Ok (ok, s') => let m := mem_of (cpu s') in (ok, word m 2000, (λ a, m !! a) <$> [1980; 1981; 1997; 1998])
      | Err _ => (false, 0, []) end = (true, PHYS_BASE, [Some 1; Some 170; Some 108; Some 115])) by (vm_compute; reflexivity).
    rewrite E in H. cbn [fmap list_fmap] in H. injection H as Hok Hw H1 H2 H3 H4. exists s'. rewrite <- Hok. repeat split; assumption.
  - exfalso. revert E. vm_compute. discriminate.
Qed.
