(* ===== verification/Stdio.v ===== *)
(** * lib/stdio.c: formatted output

    The formatting core __vprintf for any state [C] with a way to read memory
    ([rd]) and an output function, and vsnprintf on byte memory.  A va_list is
    the list of the 32-bit words of the arguments.  [fuel] bounds the loops over
    the format and over strings: enough is the length of the longest of them.
    format_integer's local buffer of 64 characters is a list; a character past
    its end is a fault.  The kernel's printf gives the characters to the
    console. *)

From S2P Require Import Prelude Bitmap Memory CString CStdlib.

Local Open Scope Z_scope.

Definition MINUS : Z := 1.
Definition PLUS : Z := 2.
Definition SPACE : Z := 4.
Definition POUND : Z := 8.
Definition ZERO : Z := 16.
Definition GROUP : Z := 32.

Inductive arg_type := CHAR | SHORT | INT | INTMAX | LONG | LONGLONG | PTRDIFFT | SIZET.

Record printf_conversion := Conversion { flags : Z; width : Z; precision : Z; type : arg_type }.

Record integer_base := Base { base : Z; digits : list Z; x : Z; group : Z }.

Definition ascii_digits : list Z := [48; 49; 50; 51; 52; 53; 54; 55; 56; 57].
Definition base_d : integer_base := Base 10 ascii_digits 0 3.
Definition base_o : integer_base := Base 8 (take 8 ascii_digits) 0 3.
Definition base_x : integer_base := Base 16 (ascii_digits ++ [97; 98; 99; 100; 101; 102]) 120 4.
Definition base_X : integer_base := Base 16 (ascii_digits ++ [65; 66; 67; 68; 69; 70]) 88 4.

(** [c->flags & f]. *)
Definition has (c : printf_conversion) (f : Z) : bool := bool_decide (Z.land (flags c) f ≠ 0).
Definition clear_flag (f fl : Z) : Z := Z.land fl (u32 (Z.lnot f)).

(** va_arg of a word and of two words. *)
Definition va_word (args : list Z) : res (Z * list Z) :=
  match args with w :: args => Ok (u32 w, args) | [] => Err EFault end.
Definition va_double (args : list Z) : res (Z * list Z) :=
  match args with lo :: hi :: args => Ok (u32 lo + 2^32 * u32 hi, args) | _ => Err EFault end.

(** The digits of format_integer, least significant first, behind [buf]. *)
Fixpoint digit_loop (fuel : nat) (b : integer_base) (grouped : bool) (value digit_cnt : Z) (buf : list Z) : res (list Z) :=
  if decide (0 < value) then
    match fuel with
    | O => Err EFuel
    | S fuel =>
        let buf := if decide (grouped = true ∧ 0 < digit_cnt ∧ digit_cnt `mod` group b = 0) then buf ++ [44] else buf in
        match digits b !! Z.to_nat (value `mod` base b) with
        | Some d =>
            let buf := buf ++ [d] in
            if decide (64 < length buf)%nat then Err EFault else
            digit_loop fuel b grouped (value / base b) (digit_cnt + 1) buf
        | None => Err EFault
        end
    end
  else Ok buf.

(** [while (cp - buf < precision && cp < buf + sizeof buf - 1)]. *)
Fixpoint zero_loop (fuel : nat) (precision : Z) (buf : list Z) : list Z :=
  match fuel with
  | O => buf
  | S fuel =>
      if decide (Z.of_nat (length buf) < precision ∧ (length buf < 63)%nat) then zero_loop fuel precision (buf ++ [48])
      else buf
  end.

(** The characters in the buffer, before they are put out in reverse. *)
Definition integer_chars (value : Z) (b : integer_base) (c : printf_conversion) : res (list Z) :=
  buf ← digit_loop 64 b (has c GROUP) value 0 [];
  let precision := if decide (precision c < 0) then 1 else precision c in
  let buf := zero_loop 64 precision buf in
  if decide (has c POUND = true ∧ base b = 8 ∧ (buf = [] ∨ last buf ≠ Some 48)) then
    if decide (64 ≤ length buf)%nat then Err EFault else Ok (buf ++ [48])
  else Ok buf.

Definition sign_char (is_signed negative : bool) (c : printf_conversion) : Z :=
  if is_signed then
    if has c PLUS then if negative then 45 else 43
    else if has c SPACE then if negative then 45 else 32
    else if negative then 45 else 0
  else 0.

Section printf.
Context {C : Type} (rd : Z → ST C Z) (output : Z → ST C ()).

Fixpoint output_dup (ch : Z) (cnt : nat) : ST C () :=
  match cnt with O => mret tt | S cnt => output ch;; output_dup ch cnt end.

Fixpoint output_all (cs : list Z) : ST C () :=
  match cs with [] => mret tt | ch :: cs => output ch;; output_all cs end.

Definition format_integer (value : Z) (is_signed negative : bool) (b : integer_base) (c : printf_conversion) : ST C () :=
  let sign := sign_char is_signed negative c in
  let x := if decide (has c POUND = true ∧ value ≠ 0) then x b else 0 in
  buf ← st_res (integer_chars value b c);
  let pad_cnt := s32 (width c - Z.of_nat (length buf) - (if decide (x ≠ 0) then 2 else 0) - (if decide (sign ≠ 0) then 1 else 0)) in
  let pad_cnt := if decide (pad_cnt < 0) then 0 else pad_cnt in
  (if has c (Z.lor MINUS ZERO) then mret tt else output_dup 32 (Z.to_nat pad_cnt));;
  (if decide (sign ≠ 0) then output sign else mret tt);;
  (if decide (x ≠ 0) then output 48;; output x else mret tt);;
  (if has c ZERO then output_dup 48 (Z.to_nat pad_cnt) else mret tt);;
  output_all (reverse buf);;
  (if has c MINUS then output_dup 32 (Z.to_nat pad_cnt) else mret tt).

(** The characters of a string at an address, or of a literal. *)
Fixpoint string_loop (n : nat) (get : Z → ST C Z) (i : Z) : ST C () :=
  match n with O => mret tt | S n => ch ← get i; output ch;; string_loop n get (i + 1) end.

Definition format_string (get : Z → ST C Z) (length : Z) (c : printf_conversion) : ST C () :=
  (if decide (length < width c ∧ has c MINUS = false) then output_dup 32 (Z.to_nat (width c - length)) else mret tt);;
  string_loop (Z.to_nat length) get 0;;
  (if decide (length < width c ∧ has c MINUS = true) then output_dup 32 (Z.to_nat (width c - length)) else mret tt).

(** strnlen. *)
Fixpoint bounded_length (fuel : nat) (s maxlen length : Z) : ST C Z :=
  match fuel with
  | O => st_fail EFuel
  | S fuel =>
      b ← rd (u32 (s + length));
      if decide (b ≠ 0 ∧ length < maxlen) then bounded_length fuel s maxlen (length + 1) else mret length
  end.
(** ** parse_conversion *)

Definition flag_of (ch : Z) : Z :=
  if decide (ch = 45) then MINUS else if decide (ch = 43) then PLUS else if decide (ch = 32) then SPACE
  else if decide (ch = 35) then POUND else if decide (ch = 48) then ZERO else if decide (ch = 39) then GROUP else 0.

Fixpoint flag_loop (fuel : nat) (format fl : Z) : ST C (Z * Z) :=
  match fuel with
  | O => st_fail EFuel
  | S fuel =>
      ch ← rd format;
      let f := flag_of ch in
      if decide (f = 0) then mret (format, fl) else flag_loop fuel (u32 (format + 1)) (Z.lor fl f)
  end.

Fixpoint number_loop (fuel : nat) (format n : Z) : ST C (Z * Z) :=
  match fuel with
  | O => st_fail EFuel
  | S fuel =>
      ch ← rd format;
      if isdigit (char ch) then number_loop fuel (u32 (format + 1)) (s32 (n * 10 + ch - 48)) else mret (format, n)
  end.

(** A field width or precision: a number, or [*] for an argument. *)
Definition parse_number (fuel : nat) (format : Z) (args : list Z) : ST C (Z * Z * list Z) :=
  ch ← rd format;
  if decide (ch = 42) then
    a ← st_res (va_word args); mret (u32 (format + 1), s32 a.1, a.2)
  else r ← number_loop fuel format 0; mret (r.1, r.2, args).

Definition parse_type (format : Z) : ST C (Z * arg_type) :=
  ch ← rd format;
  let format' := u32 (format + 1) in
  if decide (ch = 104) then
    ch ← rd format'; mret (if decide (ch = 104) then (u32 (format' + 1), CHAR) else (format', SHORT))
  else if decide (ch = 106) then mret (format', INTMAX)
  else if decide (ch = 108) then
    ch ← rd format'; mret (if decide (ch = 108) then (u32 (format' + 1), LONGLONG) else (format', LONG))
  else if decide (ch = 116) then mret (format', PTRDIFFT)
  else if decide (ch = 122) then mret (format', SIZET)
  else mret (format, INT).

Definition parse_conversion (fuel : nat) (format : Z) (args : list Z) : ST C (Z * printf_conversion * list Z) :=
  r ← flag_loop fuel format 0;
  let '(format, fl) := r in
  let fl := if decide (Z.land fl MINUS ≠ 0) then clear_flag ZERO fl else fl in
  let fl := if decide (Z.land fl PLUS ≠ 0) then clear_flag SPACE fl else fl in
  r ← parse_number fuel format args;
  let '(format, w, args) := r in
  let fl := if decide (w < 0) then Z.lor fl MINUS else fl in
  let w := if decide (w < 0) then s32 (- w) else w in
  ch ← rd format;
  r ← (if decide (ch = 46) then parse_number fuel (u32 (format + 1)) args else mret (format, -1, args));
  let '(format, p, args) := r in
  let p := if decide (p < 0) then -1 else p in
  let fl := if decide (0 ≤ p) then clear_flag ZERO fl else fl in
  r ← parse_type format;
  mret (r.1, Conversion fl w p r.2, args).

(** ** __vprintf *)

(** The value of a signed argument, an intmax_t. *)
Definition signed_arg (ty : arg_type) (args : list Z) : res (Z * list Z) :=
  match ty with
  | CHAR => a ← va_word args; Ok (if decide (a.1 `mod` 256 < 128) then a.1 `mod` 256 else a.1 `mod` 256 - 256, a.2)
  | SHORT => a ← va_word args; Ok (if decide (a.1 `mod` 65536 < 32768) then a.1 `mod` 65536 else a.1 `mod` 65536 - 65536, a.2)
  | INT | LONG | PTRDIFFT => a ← va_word args; Ok (s32 a.1, a.2)
  | INTMAX | LONGLONG => a ← va_double args; Ok (s64 a.1, a.2)
  | SIZET => a ← va_word args; Ok (if decide (2147483647 < a.1) then a.1 - 4294967295 - 1 else a.1, a.2)
  end.

Definition unsigned_arg (ty : arg_type) (args : list Z) : res (Z * list Z) :=
  match ty with
  | CHAR => a ← va_word args; Ok (a.1 `mod` 256, a.2)
  | SHORT => a ← va_word args; Ok (a.1 `mod` 65536, a.2)
  | INT | LONG | PTRDIFFT | SIZET => va_word args
  | INTMAX | LONGLONG => va_double args
  end.

(** "(null)". *)
Definition null_string : list Z := [40; 110; 117; 108; 108; 41].
(** "<<no %", " in kernel>>" and " conversion>>". *)
Definition no_conversion : list Z := [60; 60; 110; 111; 32; 37].
Definition in_kernel : list Z := [32; 105; 110; 32; 107; 101; 114; 110; 101; 108; 62; 62].
Definition conversion_end : list Z := [32; 99; 111; 110; 118; 101; 114; 115; 105; 111; 110; 62; 62].

Definition from_list (l : list Z) (i : Z) : ST C Z := st_opt EFault (l !! Z.to_nat i).

(** The conversion for the character [ch]; returns the arguments left. *)
Definition convert (fuel : nat) (ch : Z) (c : printf_conversion) (args : list Z) : ST C (list Z) :=
  if decide (ch = 100 ∨ ch = 105) then
    a ← st_res (signed_arg (type c) args);
    format_integer (u64 (if decide (a.1 < 0) then - a.1 else a.1)) true (bool_decide (a.1 < 0)) base_d c;; mret a.2
  else if decide (ch = 111 ∨ ch = 117 ∨ ch = 120 ∨ ch = 88) then
    a ← st_res (unsigned_arg (type c) args);
    let b := if decide (ch = 111) then base_o else if decide (ch = 117) then base_d
             else if decide (ch = 120) then base_x else base_X in
    format_integer a.1 false false b c;; mret a.2
  else if decide (ch = 99) then
    a ← st_res (va_word args); format_string (from_list [a.1 `mod` 256]) 1 c;; mret a.2
  else if decide (ch = 115) then
    a ← st_res (va_word args);
    let maxlen := u32 (precision c) in
    (if decide (a.1 = NULL) then format_string (from_list null_string) (Z.min 6 maxlen) c
     else n ← bounded_length fuel a.1 maxlen 0; format_string (λ i, rd (u32 (a.1 + i))) (s32 n) c);;
    mret a.2
  else if decide (ch = 112) then
    a ← st_res (va_word args);
    format_integer a.1 false false base_x (Conversion POUND (width c) (precision c) (type c));; mret a.2
  else if decide (ch = 102 ∨ ch = 101 ∨ ch = 69 ∨ ch = 103 ∨ ch = 71 ∨ ch = 110) then
    output_all no_conversion;; output ch;; output_all in_kernel;; mret args
  else output_all no_conversion;; output ch;; output_all conversion_end;; mret args.

Fixpoint __vprintf (fuel : nat) (format : Z) (args : list Z) : ST C () :=
  match fuel with
  | O => st_fail EFuel
  | S fuel' =>
      ch ← rd format;
      if decide (ch = 0) then mret tt else
      let format := u32 (format + 1) in
      if decide (ch ≠ 37) then output ch;; __vprintf fuel' format args else
      ch ← rd format;
      if decide (ch = 37) then output 37;; __vprintf fuel' (u32 (format + 1)) args else
      r ← parse_conversion fuel' format args;
      let '(format, c, args) := r in
      ch ← rd format;
      args ← convert fuel' ch c args;
      __vprintf fuel' (u32 (format + 1)) args
  end.
End printf.

(** ** vsnprintf *)

Record vsnprintf_aux := Aux { p : Z; length_ : Z; max_length : Z }.

(** Memory and the aux structure. *)
Definition vstate : Type := mem * vsnprintf_aux.

Definition v_mem {A} (c : MM A) : ST vstate A := λ s,
  match c s.1 with Ok (a, m) => Ok (a, (m, s.2)) | Err e => Err e end.

Definition vsnprintf_helper (ch : Z) : ST vstate () :=
  s ← st_get;
  let aux := s.2 in
  st_modify (λ s, (s.1, Aux (p aux) (s32 (length_ aux + 1)) (max_length aux)));;
  if decide (length_ aux < max_length aux) then
    v_mem (store (p aux) ch);;
    st_modify (λ s, (s.1, Aux (u32 (p aux + 1)) (length_ s.2) (max_length s.2)))
  else mret tt.

Definition vsnprintf (fuel : nat) (buffer buf_size format : Z) (args : list Z) : MM Z := λ m,
  let aux := Aux buffer 0 (if decide (0 < buf_size) then s32 (buf_size - 1) else 0) in
  match (__vprintf (λ a, v_mem (load a)) vsnprintf_helper fuel format args;;
         s ← st_get;
         (if decide (0 < buf_size) then v_mem (store (p s.2) 0) else mret tt);;
         mret (length_ s.2)) (m, aux) with
  | Ok (n, s) => Ok (n, s.1)
  | Err e => Err e
  end.

Definition snprintf (fuel : nat) (buffer buf_size format : Z) (args : list Z) : MM Z :=
  vsnprintf fuel buffer buf_size format args.

(** ** Two runs of the same code *)

Section simulation.
Context {C1 C2 : Type} (rd1 : Z → ST C1 Z) (out1 : Z → ST C1 ()) (rd2 : Z → ST C2 Z) (out2 : Z → ST C2 ()).
Context (size : C1 → nat) (bound : Z) (R : C1 → C2 → Prop).

(** What [c1] does within the bound on the size, [c2] does in a related state;
    the size never shrinks. *)
Definition sim {A} (c1 : ST C1 A) (c2 : ST C2 A) : Prop :=
  ∀ s1 a s1', c1 s1 = Ok (a, s1') →
    (size s1 ≤ size s1')%nat ∧
    (Z.of_nat (size s1') < bound → ∀ s2, R s1 s2 → ∃ s2', c2 s2 = Ok (a, s2') ∧ R s1' s2').

Context (sim_rd : ∀ a, sim (rd1 a) (rd2 a)) (sim_out : ∀ ch, sim (out1 ch) (out2 ch)).

Lemma sim_ret {A} (a : A) : sim (mret a) (mret a).
Proof. intros s1 b s1' [= <- <-]. split; [done|]. intros _ s2 Hr. by exists s2. Qed.

Lemma sim_fail {A} e : sim (st_fail (A := A) e) (st_fail e).
Proof. by intros s1 a s1'. Qed.

Lemma sim_res {A} (r : res A) : sim (st_res r) (st_res r).
Proof. destruct r; intros s1 b s1' H; [|done]. injection H as <- <-. split; [done|]. intros _ s2 Hr. by exists s2. Qed.

Lemma sim_opt {A} e (o : option A) : sim (st_opt e o) (st_opt e o).
Proof. destruct o; [apply sim_ret|apply sim_fail]. Qed.

Lemma sim_bind {A B} (c1 : ST C1 A) (c2 : ST C2 A) (k1 : A → ST C1 B) (k2 : A → ST C2 B) :
  sim c1 c2 → (∀ a, sim (k1 a) (k2 a)) → sim (c1 ≫= k1) (c2 ≫= k2).
Proof.
  intros Hc Hk s1 b s1' H. unfold mbind, ST_bind in H. destruct (c1 s1) as [[a s]|e] eqn:E; [|done].
  destruct (Hc s1 a s E) as [Hs Hr], (Hk a s b s1' H) as [Hs' Hr']. split; [lia|]. intros Hb s2 HR.
  destruct (Hr ltac:(lia) s2 HR) as (s2' & E2 & HR2). destruct (Hr' Hb s2' HR2) as (s2'' & E3 & HR3).
  exists s2''. split; [|done]. by rewrite (st_bind_ok _ _ _ _ _ E2).
Qed.
End simulation.

(** Follows the structure of the code. *)
Ltac sim_tac :=
  repeat match goal with
  | |- sim _ _ _ (mret _) (mret _) => apply sim_ret
  | |- sim _ _ _ (st_fail _) (st_fail _) => apply sim_fail
  | |- sim _ _ _ (st_res _) (st_res _) => apply sim_res
  | |- sim _ _ _ (st_opt _ _) (st_opt _ _) => apply sim_opt
  | |- sim _ _ _ (_ ≫= _) (_ ≫= _) => apply sim_bind; [|intros ?]
  | |- sim _ _ _ (if ?b then _ else _) (if ?b then _ else _) => destruct b
  | |- sim _ _ _ (let '(_, _) := ?r in _) (let '(_, _) := ?r in _) => destruct r
  | H : ∀ _, sim _ _ _ _ _ |- _ => apply H
  | H : ∀ _ _, sim _ _ _ _ _ |- _ => apply H
  | H : ∀ _ _ _, sim _ _ _ _ _ |- _ => apply H
  end.

Section printf_simulation.
Context {C1 C2 : Type} (rd1 : Z → ST C1 Z) (out1 : Z → ST C1 ()) (rd2 : Z → ST C2 Z) (out2 : Z → ST C2 ()).
Context (size : C1 → nat) (bound : Z) (R : C1 → C2 → Prop).
Local Abbreviation sim := (sim size bound R).
Context (sim_rd : ∀ a, sim (rd1 a) (rd2 a)) (sim_out : ∀ ch, sim (out1 ch) (out2 ch)).

Lemma sim_output_dup ch n : sim (output_dup out1 ch n) (output_dup out2 ch n).
Proof using sim_out. induction n as [|n IH]; cbn [output_dup]; sim_tac. done. Qed.

Lemma sim_output_all cs : sim (output_all out1 cs) (output_all out2 cs).
Proof using sim_out. induction cs as [|c cs IH]; cbn [output_all]; sim_tac. done. Qed.

Lemma sim_format_integer v sg ng b c : sim (format_integer out1 v sg ng b c) (format_integer out2 v sg ng b c).
Proof using sim_out.
  unfold format_integer. cbv zeta. sim_tac; try apply sim_output_dup; apply sim_output_all.
Qed.

Lemma sim_string_loop n g1 g2 i : (∀ i, sim (g1 i) (g2 i)) → sim (string_loop out1 n g1 i) (string_loop out2 n g2 i).
Proof using sim_out. intros Hg. revert i. induction n as [|n IH]; intros i; cbn [string_loop]; sim_tac. Qed.

Lemma sim_format_string g1 g2 n c : (∀ i, sim (g1 i) (g2 i)) → sim (format_string out1 g1 n c) (format_string out2 g2 n c).
Proof using sim_out. intros Hg. unfold format_string. sim_tac; try apply sim_output_dup; by apply sim_string_loop. Qed.

Lemma sim_bounded_length fuel s m n : sim (bounded_length rd1 fuel s m n) (bounded_length rd2 fuel s m n).
Proof using sim_rd. revert n. induction fuel as [|fuel IH]; intros n; cbn [bounded_length]; sim_tac. Qed.

Lemma sim_flag_loop fuel fmt fl : sim (flag_loop rd1 fuel fmt fl) (flag_loop rd2 fuel fmt fl).
Proof using sim_rd. revert fmt fl. induction fuel as [|fuel IH]; intros fmt fl; cbn [flag_loop]; cbv zeta; sim_tac. Qed.

Lemma sim_number_loop fuel fmt n : sim (number_loop rd1 fuel fmt n) (number_loop rd2 fuel fmt n).
Proof using sim_rd. revert fmt n. induction fuel as [|fuel IH]; intros fmt n; cbn [number_loop]; sim_tac. Qed.

Lemma sim_parse_number fuel fmt args : sim (parse_number rd1 fuel fmt args) (parse_number rd2 fuel fmt args).
Proof using sim_rd. unfold parse_number. sim_tac. apply sim_number_loop. Qed.

Lemma sim_parse_type fmt : sim (parse_type rd1 fmt) (parse_type rd2 fmt).
Proof using sim_rd. unfold parse_type. cbv zeta. sim_tac. Qed.

Lemma sim_parse_conversion fuel fmt args : sim (parse_conversion rd1 fuel fmt args) (parse_conversion rd2 fuel fmt args).
Proof using sim_rd.
  unfold parse_conversion. sim_tac; try apply sim_flag_loop; cbv zeta; sim_tac; try apply sim_parse_number; sim_tac;
    apply sim_parse_type.
Qed.

Lemma sim_convert fuel ch c args : sim (convert rd1 out1 fuel ch c args) (convert rd2 out2 fuel ch c args).
Proof using sim_rd sim_out.
  unfold convert. cbv zeta. sim_tac; try apply sim_format_integer; try apply sim_output_all; try apply sim_bounded_length;
    apply sim_format_string; intros i; first [apply sim_opt|apply sim_rd].
Qed.

Lemma sim_vprintf fuel fmt args : sim (__vprintf rd1 out1 fuel fmt args) (__vprintf rd2 out2 fuel fmt args).
Proof using sim_rd sim_out.
  revert fmt args. induction fuel as [|fuel IH]; intros fmt args; cbn [__vprintf]; sim_tac; cbv zeta; sim_tac.
  - apply sim_parse_conversion.
  - apply sim_convert.
Qed.
End printf_simulation.

(** ** vsnprintf stores what is printed *)

(** The output as a list, and memory that only is read. *)
Definition record (ch : Z) : ST (list Z) () := st_modify (λ out, out ++ [ch]).
Definition rd_from (m : mem) (a : Z) : ST (list Z) Z := λ out,
  match load a m with Ok (b, _) => Ok (b, out) | Err e => Err e end.

(** The characters that a format prints. *)
Definition printed (m : mem) (fuel : nat) (format : Z) (args : list Z) : res (list Z) :=
  match __vprintf (rd_from m) record fuel format args [] with Ok (_, out) => Ok out | Err e => Err e end.

(** Memory without the [size] bytes at [buffer]. *)
Definition outside (buffer size : Z) (m : mem) : mem :=
  filter (λ kv, ¬ (buffer ≤ kv.1 < buffer + size)) m.

Section vsnprintf.
Context (m : mem) (buffer : Z) (n : nat) (Hbuf : mapped m buffer (S n)).

(** The state of vsnprintf after the output [out]. *)
Definition stored (out : list Z) (s : vstate) : Prop :=
  s = (write buffer (take n out) m, Aux (buffer + Z.of_nat (min (length out) n)) (Z.of_nat (length out)) (Z.of_nat n)).

Definition limit : Z := 2^31.

Lemma sim_stored_rd a :
  sim length limit stored (rd_from (outside buffer (Z.of_nat (S n)) m) a) (v_mem (load a)).
Proof.
  intros out b out' H. unfold rd_from, load in H.
  destruct (outside buffer (Z.of_nat (S n)) m !! a) as [y|] eqn:E; [|done].
  injection H as <- <-. split; [done|]. intros _ s ->.
  apply map_lookup_filter_Some in E as [Ea Hout]. cbn in Hout. eexists. split; [|done].
  unfold v_mem. cbn [fst snd]. rewrite (load_byte_ok a y); [done|].
  rewrite lookup_write, length_take. by rewrite decide_False by lia.
Qed.

Lemma sim_stored_out ch : sim length limit stored (record ch) (vsnprintf_helper ch).
Proof using Hbuf.
  intros out [] out' H. injection H as <-. rewrite length_app. cbn [length]. split; [lia|]. intros Hb s ->.
  destruct Hbuf as [Hr Hm]. unfold limit in Hb. unfold vsnprintf_helper. erewrite st_bind_ok by done.
  erewrite st_bind_ok by done. cbn [fst snd length_ max_length p]. rewrite s32_id by (unfold in_s32; lia).
  assert (El : Z.of_nat (length (out ++ [ch])) = Z.of_nat (length out) + 1) by (rewrite length_app; cbn [length]; lia).
  case_decide as Hlt.
  - rewrite Nat.min_l by lia. rewrite (take_ge out) by lia.
    erewrite st_bind_ok; [|unfold v_mem; cbn [fst snd]; rewrite store_ok; [reflexivity|]].
    2: { apply write_some, Hm. lia. }
    eexists. split; [done|]. unfold stored. cbn [fst snd]. rewrite write_insert, El, (take_ge (out ++ [ch])) by (rewrite length_app; cbn [length]; lia).
    rewrite length_app, Nat.min_l by (cbn [length]; lia). cbn [length]. rewrite u32_id by (unfold in_u32; lia). do 2 f_equal. lia.
  - eexists. split; [done|]. unfold stored. rewrite El, take_app_le by lia. rewrite length_app, !Nat.min_r by lia. done.
Qed.

Lemma vsnprintf_ok fuel format args out :
  Z.of_nat (S n) < 2^31 → printed (outside buffer (Z.of_nat (S n)) m) fuel format args = Ok out → Z.of_nat (length out) < 2^31 →
  vsnprintf fuel buffer (Z.of_nat (S n)) format args m =
    Ok (Z.of_nat (length out), write buffer (take n out ++ [0]) m).
Proof using Hbuf.
  intros Hn Hp Hl. unfold printed in Hp.
  destruct (__vprintf _ record fuel format args []) as [[[] o]|e] eqn:E; [|done]. injection Hp as ->.
  destruct (sim_vprintf _ _ _ _ length limit stored sim_stored_rd sim_stored_out fuel format args [] () out E) as [_ Hs].
  unfold vsnprintf. rewrite decide_True, s32_id by (unfold in_s32; lia). replace (Z.of_nat (S n) - 1) with (Z.of_nat n) by lia.
  destruct (Hs ltac:(unfold limit; lia) (m, Aux buffer 0 (Z.of_nat n))) as (s & Es & ->).
  { unfold stored. rewrite take_nil. cbn [write length]. by rewrite Z.add_0_r. }
  destruct Hbuf as [Hr Hm]. erewrite st_bind_ok by exact Es. erewrite st_bind_ok by done. cbn [fst snd p length_].
  rewrite decide_True by lia. assert (Et : length (take n out) = min (length out) n) by (rewrite length_take; lia).
  erewrite st_bind_ok; [|unfold v_mem; cbn [fst snd]; rewrite store_ok; [reflexivity|apply write_some, Hm; lia]].
  cbn. by rewrite <- Et, write_insert.
Qed.
End vsnprintf.

(** ** Integers *)

(** The digits of a number, least significant first. *)
Fixpoint low_digits (fuel : nat) (b v : Z) : list Z :=
  match fuel with O => [] | S fuel => if decide (0 < v) then v `mod` b :: low_digits fuel b (v / b) else [] end.

Record base_ok (b : integer_base) : Prop := {
  bo_base : 8 ≤ base b;
  bo_digits : Z.of_nat (length (digits b)) = base b;
}.

Lemma div_pow v b k : 2 ≤ b → 0 ≤ v < b ^ Z.of_nat (S k) → 0 ≤ v / b < b ^ Z.of_nat k.
Proof.
  intros Hb Hv. rewrite Nat2Z.inj_succ, Z.pow_succ_r in Hv by lia. split; [apply Z.div_pos; lia|].
  apply Z.div_lt_upper_bound; lia.
Qed.

(** The buffer is long enough for [k] digits, separators included. *)
Lemma digit_loop_ok fuel b g v cnt buf k :
  base_ok b → 0 ≤ v < base b ^ Z.of_nat k → (k ≤ fuel)%nat → (length buf + 2 * k ≤ 64)%nat →
  ∃ ds, digit_loop fuel b g v cnt buf = Ok (buf ++ ds) ∧ (length ds ≤ 2 * k)%nat ∧
    (g = false → ds = (λ i, default 0 (digits b !! Z.to_nat i)) <$> low_digits k (base b) v).
Proof.
  intros [Hb Hd]. revert v cnt buf fuel. induction k as [|k IH]; intros v cnt buf fuel Hv Hk Hl.
  - change (base b ^ Z.of_nat 0) with 1 in Hv. assert (v = 0) as -> by lia. exists []. rewrite app_nil_r.
    by destruct fuel.
  - destruct fuel as [|fuel]; [lia|]. cbn [digit_loop low_digits]. destruct (decide (0 < v)) as [Hpos|Hpos].
    2: { exists []. rewrite app_nil_r. split_and!; [done|cbn; lia|done]. }
    pose proof (Z.mod_pos_bound v (base b) ltac:(lia)) as Hm.
    destruct (lookup_lt_is_Some_2 (digits b) (Z.to_nat (v `mod` base b))) as [d Ed]; [lia|]. rewrite Ed.
    set (sep := if decide (g = true ∧ 0 < cnt ∧ cnt `mod` group b = 0) then [44] else []).
    replace (if decide _ then buf ++ [44] else buf) with (buf ++ sep) by (unfold sep; case_decide; [done|apply app_nil_r]).
    assert (Hsep : (length sep ≤ 1)%nat) by (unfold sep; case_decide; cbn; lia).
    rewrite decide_False by (rewrite !length_app; cbn [length]; lia).
    destruct (IH (v / base b) (cnt + 1) ((buf ++ sep) ++ [d]) fuel) as (ds & E & Hds & Hg);
      [apply div_pow; lia|lia|rewrite !length_app; cbn [length]; lia|].
    exists (sep ++ d :: ds). rewrite E. split_and!; [by rewrite <- !app_assoc|rewrite length_app; cbn [length]; lia|].
    intros Hgf. unfold sep. rewrite decide_False by (intros [? _]; congruence). cbn. by rewrite Ed, Hg.
Qed.

Lemma zero_loop_length fuel pr buf : (length (zero_loop fuel pr buf) ≤ max (length buf) 63)%nat.
Proof.
  revert buf. induction fuel as [|fuel IH]; intros buf; cbn [zero_loop]; [lia|]. case_decide as H; [|lia].
  pose proof (IH (buf ++ [48])) as Hi. rewrite length_app in Hi. cbn [length] in Hi. lia.
Qed.

(** format_integer's buffer is never overrun, whatever the conversion asks for. *)
Lemma integer_chars_fit v b c :
  base_ok b → 0 ≤ v < 2^64 → ∃ buf, integer_chars v b c = Ok buf ∧ (length buf ≤ 64)%nat.
Proof.
  intros Hb Hv. pose proof (bo_base _ Hb) as Hb8. unfold integer_chars.
  destruct (digit_loop_ok 64 b (has c GROUP) v 0 [] 22 Hb) as (ds & -> & Hl & _); [|lia|cbn; lia|].
  { split; [lia|]. assert (8 ^ 22 ≤ base b ^ 22) by (apply Z.pow_le_mono_l; lia).
    assert (2^64 ≤ 8^22) by (vm_compute; discriminate). change (Z.of_nat 22) with 22. lia. }
  cbn [mbind res_bind app]. set (buf := zero_loop 64 _ ds).
  assert (Hz : (length buf ≤ 63)%nat) by (pose proof (zero_loop_length 64 (if decide (precision c < 0) then 1 else precision c) ds) as H; fold buf in H; lia).
  case_decide; [|exists buf; split; [done|lia]]. rewrite decide_False by lia. eexists. split; [done|].
  rewrite length_app. cbn [length]. lia.
Qed.
