(* ===== verification/StdioSpec.v ===== *)
(** * What formats print

    Numerals, and formats as lists of directives: plain characters, [%%] and the
    conversions d, u, o, x, s and c with an optional [-] or [0] flag and field
    width.  [printed_directives] gives the characters that __vprintf puts out
    for such a format. *)

From S2P Require Import Prelude Bitmap Memory CString CStdlib Stdio.

Local Open Scope Z_scope.

(** A machine word read as an int. *)
Lemma s32_u32 n : s32 (u32 n) = s32 n.
Proof. unfold s32, u32. by rewrite Z.add_mod_idemp_l. Qed.

Lemma u64_small v : 0 ≤ v < 2^64 → u64 v = v.
Proof. apply Z.mod_small. Qed.

(** ** Numerals *)

Lemma bases_ok : base_ok base_d ∧ base_ok base_o ∧ base_ok base_x ∧ base_ok base_X.
Proof. by repeat split. Qed.

(** The numeral of [v] without leading zeros; 22 digits are enough for an uintmax_t in base 8. *)
Definition numeral (b : integer_base) (v : Z) : list Z :=
  if decide (v = 0) then [48]
  else (λ i, default 0 (digits b !! Z.to_nat i)) <$> reverse (low_digits 22 (base b) v).

(** The value that the digits of a base stand for, the most significant first. *)
Definition value_of (b : Z) (ds : list Z) : Z := fold_left (λ v d, b * v + d) ds 0.

Lemma value_low_digits b fuel v :
  2 ≤ b → 0 ≤ v < b ^ Z.of_nat fuel → value_of b (reverse (low_digits fuel b v)) = v.
Proof.
  intros Hb. revert v. induction fuel as [|fuel IH]; intros v Hv; cbn [low_digits]; [cbn in *; lia|].
  case_decide; [|cbn; lia]. rewrite reverse_cons. unfold value_of in *. rewrite fold_left_app. cbn [fold_left].
  rewrite IH by (by apply div_pow). pose proof (Z.div_mod v b). lia.
Qed.

Lemma low_digits_range b fuel v : 2 ≤ b → 0 ≤ v → Forall (λ i, 0 ≤ i < b) (low_digits fuel b v).
Proof.
  intros Hb. revert v. induction fuel as [|fuel IH]; intros v Hv; cbn [low_digits]; [done|]. case_decide; [|done].
  constructor; [apply Z.mod_pos_bound; lia|]. apply IH. apply Z.div_pos; lia.
Qed.

Lemma pow_22 b v : 8 ≤ b → v < 2^64 → v < b ^ Z.of_nat 22.
Proof.
  intros Hb Hv. assert (8 ^ 22 ≤ b ^ 22) by (apply Z.pow_le_mono_l; lia).
  assert (2^64 ≤ 8^22) by (vm_compute; discriminate). change (Z.of_nat 22) with 22. lia.
Qed.

Lemma low_digits_length b fuel v : (length (low_digits fuel b v) ≤ fuel)%nat.
Proof. revert v. induction fuel as [|fuel IH]; intros v; cbn; [lia|]. case_decide; cbn; [|lia]. specialize (IH (v / b)). lia. Qed.

Lemma numeral_length b v : (length (numeral b v) ≤ 22)%nat.
Proof.
  unfold numeral. case_decide; [cbn; lia|]. rewrite length_fmap, length_reverse. apply low_digits_length.
Qed.

Lemma low_digits_bound b k fuel v : 2 ≤ b → 0 ≤ v < b ^ Z.of_nat k → (length (low_digits fuel b v) ≤ k)%nat.
Proof.
  intros Hb. revert v fuel. induction k as [|k IH]; intros v fuel Hv; (destruct fuel as [|fuel]; [cbn; lia|]);
    cbn [low_digits]; case_decide; cbn [length]; try lia.
  pose proof (IH (v / b) fuel (div_pow v b k Hb Hv)). lia.
Qed.

Lemma low_digits_nonempty b v : 0 < v → low_digits 22 b v ≠ [].
Proof. intros Hv. cbn [low_digits]. by rewrite decide_True by lia. Qed.

Lemma integer_chars_numeral v b c :
  base_ok b → 0 ≤ v < 2^64 → has c GROUP = false → has c POUND = false → precision c = -1 →
  integer_chars v b c = Ok (reverse (numeral b v)).
Proof.
  intros Hb Hv Hg Hp Hpr. pose proof (bo_base _ Hb) as Hb8. unfold integer_chars. rewrite Hg, Hpr.
  destruct (digit_loop_ok 64 b false v 0 [] 22 Hb) as (ds & -> & _ & Hds); [|lia|cbn; lia|].
  { split; [lia|]. apply pow_22; lia. }
  cbn [mbind res_bind app]. rewrite (decide_True (P := -1 < 0)) by done.
  rewrite decide_False by (rewrite Hp; intros [? _]; congruence). f_equal. rewrite (Hds eq_refl). unfold numeral.
  destruct (decide (v = 0)) as [->|Hne]; [done|]. cbn [zero_loop]. rewrite decide_False.
  - by rewrite fmap_reverse, reverse_involutive.
  - rewrite length_fmap. pose proof (low_digits_nonempty (base b) v ltac:(lia)).
    destruct (low_digits 22 (base b) v); [done|cbn [length]; lia].
Qed.

Lemma ascii_digit i : 0 ≤ i < 10 → default 0 (ascii_digits !! Z.to_nat i) = 48 + i.
Proof.
  intros Hi. assert (Hc : i = 0 ∨ i = 1 ∨ i = 2 ∨ i = 3 ∨ i = 4 ∨ i = 5 ∨ i = 6 ∨ i = 7 ∨ i = 8 ∨ i = 9) by lia.
  naive_solver.
Qed.

Lemma numeral_dec v :
  0 < v → numeral base_d v = (λ i, 48 + i) <$> reverse (low_digits 22 10 v).
Proof.
  intros Hv. unfold numeral. rewrite decide_False by lia. cbn [base digits base_d]. apply list_fmap_ext. intros k i Hi.
  apply ascii_digit. assert (Hf : Forall (λ i, 0 ≤ i < 10) (reverse (low_digits 22 10 v))) by (apply Forall_reverse, low_digits_range; lia).
  apply (Forall_lookup_1 _ _ _ _ Hf Hi).
Qed.

(** A decimal numeral consists of digits and has the value of the number. *)
Lemma dec_digits v : 0 ≤ v → Forall is_digit (numeral base_d v) ∧ numeral base_d v ≠ [].
Proof.
  intros Hv. destruct (decide (v = 0)) as [->|Hne]; [by split; [constructor|]|]. rewrite numeral_dec by lia. split.
  - apply Forall_fmap, Forall_reverse. eapply Forall_impl; [apply (low_digits_range 10); lia|]. unfold is_digit. cbn. lia.
  - intros H%fmap_nil_inv. apply (f_equal reverse) in H. rewrite reverse_involutive in H.
    by apply low_digits_nonempty in H; [|lia].
Qed.

Lemma decimal_fmap v ds : decimal v ((λ i, 48 + i) <$> ds) = fold_left (λ v d, 10 * v + d) ds v.
Proof. revert v. induction ds as [|d ds IH]; intros v; cbn; [done|]. rewrite <- IH. unfold decimal. f_equal. lia. Qed.

Lemma decimal_dec v : 0 ≤ v < 2^64 → decimal 0 (numeral base_d v) = v.
Proof.
  intros Hv. destruct (decide (v = 0)) as [->|Hne]; [done|]. rewrite numeral_dec, decimal_fmap by lia.
  apply (value_low_digits 10); [lia|]. split; [lia|]. apply pow_22; lia.
Qed.

(** The most significant digit is not a zero. *)
Lemma low_digits_head b fuel v :
  2 ≤ b → 0 < v < b ^ Z.of_nat fuel → ∃ d ds, reverse (low_digits fuel b v) = d :: ds ∧ 0 < d.
Proof.
  intros Hb. revert v. induction fuel as [|fuel IH]; intros v Hv; [cbn in Hv; lia|].
  cbn [low_digits]. rewrite decide_True, reverse_cons by lia. pose proof (Z.div_mod v b ltac:(lia)) as Hdm.
  destruct (decide (v / b = 0)) as [Hz|Hz].
  - rewrite Hz in *. destruct fuel; cbn [low_digits]; rewrite ?decide_False by lia; do 2 eexists; (split; [done|lia]).
  - destruct (div_pow v b fuel Hb ltac:(lia)). destruct (IH (v / b)) as (d & ds & -> & Hd); [lia|].
    do 2 eexists. by split.
Qed.

Lemma dec_head v : 0 < v < 2^64 → ∃ d ds, numeral base_d v = d :: ds ∧ 49 ≤ d ≤ 57.
Proof.
  intros Hv. destruct (low_digits_head 10 22 v ltac:(lia)) as (d & ds & E & Hd); [split; [lia|apply pow_22; lia]|].
  pose proof (dec_digits v ltac:(lia)) as [Hf _]. rewrite numeral_dec in * by lia. rewrite E in *.
  do 2 eexists. split; [done|]. apply Forall_cons in Hf as [Hf _]. unfold is_digit in Hf. lia.
Qed.

(** ** Directives *)

(** Right-justified, left-justified, or padded with zeros. *)
Inductive just := Right | Left | Zeros.

(** The argument of a conversion: an int, an unsigned int in decimal, octal or
    hexadecimal, a string at an address, a character. *)
Inductive item := Dec (n : Z) | Unsigned (n : Z) | Octal (n : Z) | Hex (n : Z) | Str (p : Z) (s : list Z) | Chr (c : Z).

Inductive directive := Text (ch : Z) | Percent | Conv (j : just) (w : Z) (i : item).

Definition item_char (i : item) : Z :=
  match i with Dec _ => 100 | Unsigned _ => 117 | Octal _ => 111 | Hex _ => 120 | Str _ _ => 115 | Chr _ => 99 end.

Definition item_word (i : item) : Z :=
  match i with Dec n => u32 n | Unsigned n | Octal n | Hex n => n | Str p _ => p | Chr c => c end.

(** The sign of an int, and what follows it. *)
Definition item_sign (i : item) : list Z := match i with Dec n => if decide (n < 0) then [45] else [] | _ => [] end.

Definition item_body (i : item) : list Z :=
  match i with
  | Dec n => numeral base_d (Z.abs n)
  | Unsigned n => numeral base_d n
  | Octal n => numeral base_o n
  | Hex n => numeral base_x n
  | Str _ s => s
  | Chr c => [c]
  end.

Definition is_number (i : item) : bool := match i with Str _ _ | Chr _ => false | _ => true end.

(** A sign and a body in a field of [w] characters; zeros go behind the sign. *)
Definition pad (j : just) (w : Z) (sgn s : list Z) : list Z :=
  let n := Z.to_nat (w - Z.of_nat (length (sgn ++ s))) in
  match j with
  | Right => replicate n 32 ++ sgn ++ s
  | Left => sgn ++ s ++ replicate n 32
  | Zeros => sgn ++ replicate n 48 ++ s
  end.

Definition item_text (j : just) (w : Z) (i : item) : list Z :=
  pad (match j with Zeros => if is_number i then Zeros else Right | _ => j end) w (item_sign i) (item_body i).

Definition flag_bytes (j : just) : list Z := match j with Right => [] | Left => [45] | Zeros => [48] end.
Definition width_bytes (w : Z) : list Z := if decide (w = 0) then [] else numeral base_d w.

Definition format_of (d : directive) : list Z :=
  match d with
  | Text ch => [ch]
  | Percent => [37; 37]
  | Conv j w i => 37 :: flag_bytes j ++ width_bytes w ++ [item_char i]
  end.

Definition words_of (d : directive) : list Z := match d with Conv _ _ i => [item_word i] | _ => [] end.

Definition text_of (d : directive) : list Z :=
  match d with Text ch => [ch] | Percent => [37] | Conv j w i => item_text j w i end.

Definition item_ok (m : mem) (i : item) : Prop :=
  match i with
  | Dec n => in_s32 n
  | Unsigned n | Octal n | Hex n => in_u32 n
  | Str p s => cstr m p s ∧ Z.of_nat (length s) < 2^31
  | Chr c => 0 ≤ c < 256
  end.

Definition directive_ok (m : mem) (d : directive) : Prop :=
  match d with
  | Text ch => 0 < ch < 256 ∧ ch ≠ 37
  | Percent => True
  | Conv _ w i => 0 ≤ w < 2^31 ∧ item_ok m i
  end.

#[export] Instance directive_ok_dec m d : Decision (directive_ok m d).
Proof. destruct d as [ch| |j w [n|n|n|n|p s|c]]; cbn; unfold in_s32, in_u32; apply _. Defined.

(** ** Running the code on them *)

Lemma output_all_record cs out : output_all record cs out = Ok ((), out ++ cs).
Proof.
  revert out. induction cs as [|c cs IH]; intros out; cbn [output_all]; [by rewrite app_nil_r|].
  erewrite st_bind_ok by done. by rewrite IH, <- app_assoc.
Qed.

Lemma output_dup_record ch n out : output_dup record ch n out = Ok ((), out ++ replicate n ch).
Proof.
  revert out. induction n as [|n IH]; intros out; cbn [output_dup replicate]; [by rewrite app_nil_r|].
  erewrite st_bind_ok by done. by rewrite IH, <- app_assoc.
Qed.

Section run.
Context (m : mem).

Lemma rd_cons p b s out : cstr m p (b :: s) → rd_from m p out = Ok (b, out).
Proof. intros H. unfold rd_from. by destruct (cstr_cons _ _ _ _ H) as (-> & _). Qed.

Lemma rd_nil p out : cstr m p [] → rd_from m p out = Ok (0, out).
Proof. intros H. unfold rd_from. by rewrite (cstr_nil _ _ H). Qed.

Lemma number_loop_ok ds c s p n fuel out :
  cstr m p (ds ++ c :: s) → Forall is_digit ds → 57 < c < 128 → 0 ≤ n → decimal n ds < 2^31 → (length ds < fuel)%nat →
  number_loop (rd_from m) fuel p n out = Ok ((p + Z.of_nat (length ds), decimal n ds), out).
Proof.
  intros Hp Hd Hc. revert p n fuel Hp. induction Hd as [|d ds Hd Hds IH]; intros p n fuel Hp Hn Hlt Hf;
    (destruct fuel as [|fuel]; [cbn in Hf; lia|]); cbn [number_loop app] in *; erewrite st_bind_ok by (by apply (rd_cons _ _ _ _ Hp)).
  - unfold isdigit, char. rewrite decide_True, bool_decide_eq_false_2 by lia. cbn. by rewrite Z.add_0_r.
  - destruct (cstr_cons _ _ _ _ Hp) as (_ & _ & _ & -> & Hp'). unfold is_digit in Hd.
    unfold isdigit, char. rewrite decide_True, bool_decide_eq_true_2 by lia. cbn [length] in *.
    assert (Hge : 10 * n + (d - 48) ≤ decimal (10 * n + (d - 48)) ds) by (apply decimal_ge; [lia|done]).
    change (decimal n (d :: ds)) with (decimal (10 * n + (d - 48)) ds) in *.
    replace (n * 10 + d - 48) with (10 * n + (d - 48)) by lia.
    rewrite s32_id by (unfold in_s32; lia). rewrite IH by (done || lia). do 3 f_equal. lia.
Qed.
Definition type_char (c : Z) : Prop := c = 100 ∨ c = 117 ∨ c = 111 ∨ c = 120 ∨ c = 115 ∨ c = 99.

(** What follows the flags: a width that does not begin with a zero, or the conversion. *)
Lemma width_head w c s :
  0 ≤ w < 2^31 → type_char c → ∃ d s', width_bytes w ++ c :: s = d :: s' ∧ flag_of d = 0 ∧ d ≠ 42 ∧ d ≠ 37.
Proof.
  intros Hw Hc. unfold width_bytes. unfold type_char in Hc. case_decide.
  - exists c, s. split; [done|]. unfold flag_of. by destruct Hc as [->|[->|[->|[->|[->| ->]]]]].
  - destruct (dec_head w) as (d & ds & -> & Hd); [lia|]. exists d, (ds ++ c :: s). split; [done|].
    split; [|lia]. unfold flag_of. by rewrite !decide_False by lia.
Qed.

Lemma parse_width_ok w c s p fuel args out :
  cstr m p (width_bytes w ++ c :: s) → 0 ≤ w < 2^31 → type_char c → (length (width_bytes w) < fuel)%nat →
  parse_number (rd_from m) fuel p args out = Ok ((p + Z.of_nat (length (width_bytes w)), w, args), out).
Proof.
  intros Hp Hw Hc Hf. destruct (width_head w c s Hw Hc) as (d & s' & E & _ & Hd & _). unfold parse_number.
  erewrite st_bind_ok by (rewrite E in Hp; by apply (rd_cons _ _ _ _ Hp)). rewrite decide_False by done.
  assert (Hcr : 57 < c < 128) by (unfold type_char in Hc; lia).
  erewrite st_bind_ok; [|apply (number_loop_ok _ _ _ _ _ _ _ Hp); [| |lia| |done]]; [|unfold width_bytes; case_decide; [done|apply dec_digits; lia]|done|].
  - unfold width_bytes. case_decide; [by subst|]. cbn. by rewrite decimal_dec by lia.
  - unfold width_bytes. case_decide; [done|]. rewrite decimal_dec; lia.
Qed.

Lemma parse_type_ok c s p out : cstr m p (c :: s) → type_char c → parse_type (rd_from m) p out = Ok ((p, INT), out).
Proof.
  intros Hp Hc. unfold parse_type. erewrite st_bind_ok by (by apply (rd_cons _ _ _ _ Hp)).
  unfold type_char in Hc. by rewrite !decide_False by lia.
Qed.

Definition flag_bits (j : just) : Z := match j with Right => 0 | Left => MINUS | Zeros => ZERO end.

Lemma flag_loop_ok j d s p fuel out :
  cstr m p (flag_bytes j ++ d :: s) → flag_of d = 0 → (1 < fuel)%nat →
  flag_loop (rd_from m) fuel p 0 out = Ok ((p + Z.of_nat (length (flag_bytes j)), flag_bits j), out).
Proof.
  intros Hp Hd Hf. destruct fuel as [|[|fuel]]; [lia..|]. destruct j; cbn [flag_bytes app flag_loop] in *.
  - erewrite st_bind_ok by (by apply (rd_cons _ _ _ _ Hp)). rewrite decide_True by done. cbn. by rewrite Z.add_0_r.
  - erewrite st_bind_ok by (by apply (rd_cons _ _ _ _ Hp)). destruct (cstr_cons _ _ _ _ Hp) as (_ & _ & _ & -> & Hp').
    rewrite decide_False by done. erewrite st_bind_ok by (by apply (rd_cons _ _ _ _ Hp')). by rewrite decide_True.
  - erewrite st_bind_ok by (by apply (rd_cons _ _ _ _ Hp)). destruct (cstr_cons _ _ _ _ Hp) as (_ & _ & _ & -> & Hp').
    rewrite decide_False by done. erewrite st_bind_ok by (by apply (rd_cons _ _ _ _ Hp')). by rewrite decide_True.
Qed.

Definition plain (j : just) (w : Z) : printf_conversion := Conversion (flag_bits j) w (-1) INT.

Lemma parse_conversion_ok j w c s p fuel args out :
  cstr m p (flag_bytes j ++ width_bytes w ++ c :: s) → 0 ≤ w < 2^31 → type_char c →
  (length (flag_bytes j ++ width_bytes w) + 1 < fuel)%nat →
  parse_conversion (rd_from m) fuel p args out =
    Ok ((p + Z.of_nat (length (flag_bytes j ++ width_bytes w)), plain j w, args), out).
Proof.
  intros Hp Hw Hc Hf. rewrite length_app in Hf. destruct (width_head w c s Hw Hc) as (d & s' & E & Hd & _). unfold parse_conversion.
  erewrite st_bind_ok by (eapply flag_loop_ok; [by rewrite <- E|done|lia]). cbv beta iota zeta.
  apply cstr_suffix in Hp. erewrite st_bind_ok by (eapply parse_width_ok; [done..|lia]). cbv beta iota zeta.
  apply cstr_suffix in Hp. erewrite st_bind_ok by (by apply (rd_cons _ _ _ _ Hp)).
  rewrite (decide_False (P := c = 46)) by (unfold type_char in Hc; lia). erewrite st_bind_ok by done. cbv beta iota zeta.
  erewrite st_bind_ok by (eapply parse_type_ok; done).
  rewrite !(decide_False (P := w < 0)) by lia. unfold plain. rewrite length_app, Nat2Z.inj_add, Z.add_assoc. by destruct j.
Qed.

Lemma bounded_length_ok p s n k fuel out :
  cstr m (p + n) s → 0 < p → 0 ≤ n → n + Z.of_nat (length s) ≤ k → (length s < fuel)%nat →
  bounded_length (rd_from m) fuel p k n out = Ok (n + Z.of_nat (length s), out).
Proof.
  revert n fuel. induction s as [|b s IH]; intros n fuel Hp Hp0 Hn Hk Hf; (destruct fuel as [|fuel]; [cbn in Hf; lia|]);
    cbn [bounded_length length] in *; pose proof (cstr_range _ _ _ Hp) as Hr; rewrite u32_id by (unfold in_u32; lia).
  - erewrite st_bind_ok by (by apply rd_nil). rewrite decide_False by lia. cbn. by rewrite Z.add_0_r.
  - erewrite st_bind_ok by (by apply (rd_cons _ _ _ _ Hp)). destruct (cstr_cons _ _ _ _ Hp) as (_ & Hb & _ & _ & Hp').
    rewrite decide_True by lia. rewrite IH by (rewrite ?Z.add_assoc; done || lia). do 2 f_equal. lia.
Qed.

Lemma string_loop_ok (get : Z → ST (list Z) Z) s i out :
  (∀ k b o, s !! k = Some b → get (i + Z.of_nat k) o = Ok (b, o)) →
  string_loop record (length s) get i out = Ok ((), out ++ s).
Proof.
  revert i out. induction s as [|b s IH]; intros i out Hg; cbn [string_loop length]; [by rewrite app_nil_r|].
  erewrite st_bind_ok by (rewrite <- (Z.add_0_r i); by apply (Hg 0%nat)). erewrite st_bind_ok by done.
  rewrite IH; [by rewrite <- app_assoc|]. intros k b' o Hk. rewrite <- (Hg (S k) b' o Hk). f_equal. lia.
Qed.

Lemma replicate_none (n : Z) k (x : Z) : ¬ k < n → replicate (Z.to_nat (n - k)) x = [].
Proof. intros H. by replace (Z.to_nat (n - k)) with 0%nat by lia. Qed.

Lemma format_string_ok (get : Z → ST (list Z) Z) j w s out :
  (∀ k b o, s !! k = Some b → get (Z.of_nat k) o = Ok (b, o)) →
  format_string record get (Z.of_nat (length s)) (plain j w) out =
    Ok ((), out ++ pad (match j with Left => Left | _ => Right end) w [] s).
Proof.
  intros Hg. unfold format_string, pad. cbn [width plain app]. rewrite Nat2Z.id.
  pose proof (replicate_none w (Z.of_nat (length s)) 32) as Hz.
  assert (Hm : has (plain j w) MINUS = match j with Left => true | _ => false end) by (by destruct j). rewrite Hm.
  destruct j.
  1, 3: erewrite st_bind_ok;
      [erewrite st_bind_ok by (by apply string_loop_ok); rewrite (decide_False (P := _ ∧ false = true)) by (by intros [_ ?]);
       cbn; by rewrite <- app_assoc
      |case_decide as Hlt; [apply output_dup_record|]; rewrite Hz by (by intros ?; apply Hlt); by rewrite app_nil_r].
  rewrite (decide_False (P := _ ∧ true = false)) by (by intros [_ ?]).
  erewrite st_bind_ok by done. erewrite st_bind_ok by (by apply string_loop_ok).
  case_decide as Hlt; [by rewrite output_dup_record, <- app_assoc|]. rewrite Hz by (by intros ?; apply Hlt). by rewrite app_nil_r.
Qed.

Lemma format_integer_ok v sg ng b j w out :
  base_ok b → 0 ≤ v < 2^64 → 0 ≤ w < 2^31 →
  format_integer record v sg ng b (plain j w) out =
    Ok ((), out ++ pad j w (if sg && ng then [45] else []) (numeral b v)).
Proof.
  intros Hb Hv Hw. unfold format_integer. cbv zeta. set (sgn := if sg && ng then [45] else []).
  assert (Es : sign_char sg ng (plain j w) = if sg && ng then 45 else 0) by (by destruct sg, ng, j).
  rewrite (decide_False (P := has (plain j w) POUND = true ∧ v ≠ 0)) by (by destruct j; intros [? _]).
  erewrite st_bind_ok; [|unfold st_res; rewrite (integer_chars_numeral v b _ Hb Hv); [reflexivity|by destruct j..]].
  rewrite !(decide_False (P := 0 ≠ 0)) by lia. rewrite length_reverse, Es, reverse_involutive.
  pose proof (numeral_length b v) as Hl. set (num := numeral b v) in *. cbn [width plain].
  set (k := if decide (s32 _ < 0) then 0 else s32 _).
  assert (Hk : Z.to_nat k = Z.to_nat (w - Z.of_nat (length (sgn ++ num)))).
  { unfold k, sgn. rewrite length_app. destruct (sg && ng); cbn [length]; rewrite s32_id by (unfold in_s32; case_decide; lia);
      repeat case_decide; lia. }
  rewrite Hk. unfold pad. set (sp := Z.to_nat _).
  assert (Hsign : ∀ o, (if decide ((if sg && ng then 45 else 0) ≠ 0) then record (if sg && ng then 45 else 0) else mret tt) o = Ok ((), o ++ sgn)).
  { intros o. unfold sgn. destruct (sg && ng); cbn; [done|by rewrite app_nil_r]. }
  assert (Hf : has (plain j w) (Z.lor MINUS ZERO) = (match j with Right => false | _ => true end) ∧
    has (plain j w) MINUS = (match j with Left => true | _ => false end) ∧
    has (plain j w) ZERO = (match j with Zeros => true | _ => false end)) by (by destruct j).
  destruct Hf as (-> & -> & ->). destruct j.
  all: erewrite st_bind_ok by first [apply output_dup_record|done].
  all: erewrite st_bind_ok by apply Hsign; erewrite st_bind_ok by done.
  all: erewrite st_bind_ok by first [apply output_dup_record|done].
  all: erewrite st_bind_ok by apply output_all_record; rewrite ?output_dup_record; cbn; by rewrite <- ?app_assoc.
Qed.

(** The value of an unsigned conversion. *)
Lemma convert_unsigned fuel ch b j w n args out :
  (ch = 111 ∧ b = base_o ∨ ch = 117 ∧ b = base_d ∨ ch = 120 ∧ b = base_x) → 0 ≤ w < 2^31 → in_u32 n →
  convert (rd_from m) record fuel ch (plain j w) (n :: args) out = Ok (args, out ++ pad j w [] (numeral b n)).
Proof.
  intros Hch Hw Hn. pose proof bases_ok as (Bd & Bo & Bx & _). unfold in_u32 in Hn.
  destruct Hch as [[-> ->]|[[-> ->]|[-> ->]]]; unfold convert;
    repeat (first [rewrite decide_True by lia|rewrite decide_False by lia]);
    erewrite st_bind_ok by done; cbn [fst snd]; rewrite u32_id by done;
    erewrite st_bind_ok by (apply format_integer_ok; [done|lia|done]); done.
Qed.

Lemma convert_ok fuel j w i args out :
  0 ≤ w < 2^31 → item_ok m i → (length (item_body i) < fuel)%nat →
  convert (rd_from m) record fuel (item_char i) (plain j w) (item_word i :: args) out = Ok (args, out ++ item_text j w i).
Proof.
  intros Hw Hi Hf. pose proof bases_ok as (Bd & _). unfold item_text.
  assert (Ej : (match j with Zeros => Zeros | _ => j end) = j) by (by destruct j).
  destruct i as [n|n|n|n|p s|c]; cbn [item_ok item_char item_word item_sign item_body is_number] in *; rewrite ?Ej;
    try (apply convert_unsigned; [tauto|done|done]); unfold convert;
    repeat (first [rewrite decide_True by lia|rewrite decide_False by lia]).
  - erewrite st_bind_ok by done. cbn [fst snd]. rewrite (u32_id (u32 n)) by apply u32_range.
    rewrite s32_u32, s32_id by done. unfold in_s32 in Hi. replace (if decide (n < 0) then - n else n) with (Z.abs n) by (case_decide; lia).
    rewrite u64_small by lia. erewrite st_bind_ok by (apply format_integer_ok; [done|lia|done]).
    cbn [andb]. by destruct (decide (n < 0)); [rewrite bool_decide_eq_true_2|rewrite bool_decide_eq_false_2].
  - destruct Hi as [Hs Hl]. pose proof (cstr_range _ _ _ Hs) as Hr. erewrite st_bind_ok by done. cbn [fst snd].
    rewrite u32_id by (unfold in_u32; lia). rewrite decide_False by (unfold NULL; lia).
    erewrite st_bind_ok; [done|].
    erewrite st_bind_ok by (apply bounded_length_ok; [by rewrite Z.add_0_r|lia|lia|change (u32 (precision (plain j w))) with 4294967295; lia|done]).
    rewrite s32_id by (unfold in_s32; lia). replace (pad _ w [] s) with (pad (match j with Left => Left | _ => Right end) w [] s) by (by destruct j).
    apply format_string_ok. intros k b o Hk. unfold rd_from.
    destruct Hs as [Hs _]. rewrite u32_id; [|pose proof (lookup_lt_Some _ _ _ Hk); unfold in_u32; lia].
    rewrite (load_byte_ok (p + Z.of_nat k) b); [done|]. apply (holds_lookup _ _ _ _ _ Hs). by apply lookup_app_l_Some.
  - erewrite st_bind_ok by done. cbn [fst snd]. rewrite u32_id, Z.mod_small by (unfold in_u32; lia).
    erewrite st_bind_ok; [done|]. replace (pad _ w [] [c]) with (pad (match j with Left => Left | _ => Right end) w [] [c]) by (by destruct j).
    apply (format_string_ok _ j w [c]). intros k b o Hk. unfold from_list. rewrite Nat2Z.id. by rewrite Hk.
Qed.

Lemma item_text_length j w i : (length (item_body i) ≤ length (item_text j w i))%nat.
Proof. unfold item_text, pad. destruct (match j with Zeros => _ | _ => _ end); rewrite !length_app; lia. Qed.

Lemma item_type_char i : type_char (item_char i).
Proof. unfold type_char. destruct i; cbn; lia. Qed.

(** One conversion of the loop of __vprintf. *)
Lemma vprintf_conv fuel j w i s p args out :
  cstr m p (format_of (Conv j w i) ++ s) → directive_ok m (Conv j w i) →
  (length (format_of (Conv j w i)) + length (item_body i) < fuel)%nat →
  __vprintf (rd_from m) record (S fuel) p (item_word i :: args) out =
  __vprintf (rd_from m) record fuel (p + Z.of_nat (length (format_of (Conv j w i)))) args (out ++ item_text j w i).
Proof.
  intros Hp [Hw Hi] Hf. unfold format_of in Hp, Hf |- *. cbn [app length] in *.
  rewrite <- !app_assoc in Hp. cbn [app] in Hp. rewrite app_assoc, length_app in Hf |- *. cbn [length] in *.
  cbn [__vprintf]. erewrite st_bind_ok by (by apply (rd_cons _ _ _ _ Hp)).
  destruct (cstr_cons _ _ _ _ Hp) as (_ & _ & _ & Eu & Hp'). rewrite (decide_False (P := 37 = 0)), (decide_False (P := 37 ≠ 37)) by lia.
  rewrite Eu. assert (Hh : ∃ d s', flag_bytes j ++ width_bytes w ++ item_char i :: s = d :: s' ∧ d ≠ 37).
  { destruct j; cbn [flag_bytes app]; [|by eexists _, _..].
    destruct (width_head w (item_char i) s Hw (item_type_char i)) as (d & s' & E & _ & _ & Hd). by exists d, s'. }
  destruct Hh as (d & s' & Eh & Hd). erewrite st_bind_ok by (eapply rd_cons; by rewrite <- Eh).
  rewrite decide_False by done. erewrite st_bind_ok by (eapply parse_conversion_ok; [done|done|apply item_type_char|lia]).
  cbv beta iota zeta. rewrite app_assoc in Hp'. apply cstr_suffix in Hp'.
  erewrite st_bind_ok by (by apply (rd_cons _ _ _ _ Hp')). destruct (cstr_cons _ _ _ _ Hp') as (_ & _ & _ & -> & _).
  erewrite st_bind_ok by (apply convert_ok; [done..|lia]). f_equal. lia.
Qed.

(** The text of one directive. *)
Lemma vprintf_directive fuel d s p args out :
  cstr m p (format_of d ++ s) → directive_ok m d → (length (format_of d) + length (text_of d) < fuel)%nat →
  __vprintf (rd_from m) record (S fuel) p (words_of d ++ args) out =
  __vprintf (rd_from m) record fuel (p + Z.of_nat (length (format_of d))) args (out ++ text_of d).
Proof.
  intros Hp Hd Hf. destruct d as [ch| |j w i]; cbn [words_of app].
  - cbn [format_of app] in Hp. destruct (cstr_cons _ _ _ _ Hp) as (_ & _ & _ & Eu & _). destruct Hd as [Hc Hne].
    cbn [__vprintf]. erewrite st_bind_ok by (by apply (rd_cons _ _ _ _ Hp)). rewrite decide_False, decide_True by lia.
    erewrite st_bind_ok by done. by rewrite Eu.
  - cbn [format_of app] in Hp. destruct (cstr_cons _ _ _ _ Hp) as (_ & _ & _ & Eu & Hp').
    destruct (cstr_cons _ _ _ _ Hp') as (_ & _ & _ & Eu' & _).
    cbn [__vprintf]. erewrite st_bind_ok by (by apply (rd_cons _ _ _ _ Hp)).
    rewrite (decide_False (P := 37 = 0)), (decide_False (P := 37 ≠ 37)) by lia. rewrite Eu.
    erewrite st_bind_ok by (by apply (rd_cons _ _ _ _ Hp')). rewrite decide_True by done. erewrite st_bind_ok by done.
    rewrite Eu'. f_equal. cbn [format_of length]. lia.
  - eapply vprintf_conv; [done..|]. cbn [text_of] in Hf. pose proof (item_text_length j w i). lia.
Qed.

(** [__vprintf] prints the text of the directives. *)
Lemma vprintf_directives ds fuel p args out :
  cstr m p (concat (format_of <$> ds)) → Forall (directive_ok m) ds →
  (length (concat (format_of <$> ds)) + length (concat (text_of <$> ds)) + 1 < fuel)%nat →
  __vprintf (rd_from m) record fuel p (concat (words_of <$> ds) ++ args) out = Ok ((), out ++ concat (text_of <$> ds)).
Proof.
  intros Hp Hd. revert fuel p out Hp. induction Hd as [|d ds Hd Hds IH]; intros fuel p out Hp Hf;
    cbn [fmap list_fmap concat] in *; (destruct fuel as [|fuel]; [lia|]).
  - cbn [__vprintf]. erewrite st_bind_ok by (by apply rd_nil). cbn. by rewrite app_nil_r.
  - rewrite !length_app in Hf. rewrite <- app_assoc.
    assert (1 ≤ length (format_of d))%nat by (destruct d; cbn; lia).
    erewrite vprintf_directive; [|done..|lia]. rewrite IH; [by rewrite app_assoc|by apply cstr_suffix in Hp|lia].
Qed.

End run.

Lemma printed_directives m ds fuel p args :
  cstr m p (concat (format_of <$> ds)) → Forall (directive_ok m) ds →
  (length (concat (format_of <$> ds)) + length (concat (text_of <$> ds)) + 1 < fuel)%nat →
  printed m fuel p (concat (words_of <$> ds) ++ args) = Ok (concat (text_of <$> ds)).
Proof. intros Hp Hd Hf. unfold printed. by rewrite vprintf_directives. Qed.

(** snprintf stores what fits of the text. *)
Section snprintf.
Context (m : mem) (buffer : Z) (n : nat) (Hbuf : mapped m buffer (S n)) (Hn : Z.of_nat (S n) < 2^31).
Let m_out : mem := outside buffer (Z.of_nat (S n)) m.

Lemma snprintf_text ds format rest fuel :
  cstr m_out format (concat (format_of <$> ds)) → Forall (directive_ok m_out) ds →
  Z.of_nat (length (concat (text_of <$> ds))) < 2^31 →
  (length (concat (format_of <$> ds)) + length (concat (text_of <$> ds)) + 1 < fuel)%nat →
  snprintf fuel buffer (Z.of_nat (S n)) format (concat (words_of <$> ds) ++ rest) m =
    Ok (Z.of_nat (length (concat (text_of <$> ds))), write buffer (take n (concat (text_of <$> ds)) ++ [0]) m).
Proof using Hbuf Hn. intros Hf Hd Hl Hfu. apply vsnprintf_ok; [done..| |done]. by apply printed_directives. Qed.
End snprintf.

(** Strings that do not overlap the buffer. *)
Lemma cstr_outside m buffer (n : nat) p s :
  cstr m p s → disjoint_blocks buffer n p (S (length s)) → cstr (outside buffer (Z.of_nat n) m) p s.
Proof.
  intros Hp Hd. eapply cstr_agree; [done|]. intros a Ha. unfold outside, disjoint_blocks in *.
  destruct (m !! a) as [x|] eqn:E.
  - apply map_lookup_filter_Some. split; [done|]. cbn. lia.
  - apply map_lookup_filter_None. by left.
Qed.

(** ** Ints in decimal *)

Definition show_int (v : Z) : list Z := item_sign (Dec v) ++ item_body (Dec v).

(** An int has at most eleven characters. *)
Lemma show_int_length v : in_s32 v → (length (show_int v) ≤ 11)%nat.
Proof.
  unfold in_s32, show_int. intros Hv. rewrite length_app. cbn [item_sign item_body].
  assert (length (numeral base_d (Z.abs v)) ≤ 10)%nat; [|case_decide; cbn [length]; lia].
  unfold numeral. case_decide; [cbn; lia|]. rewrite length_fmap, length_reverse.
  apply (low_digits_bound 10 10); [lia|]. change (10 ^ Z.of_nat 10) with 10000000000. lia.
Qed.

Lemma show_int_bytes v : Forall (λ b, 0 < b < 256) (show_int v).
Proof.
  unfold show_int. apply Forall_app. split; cbn [item_sign item_body].
  - case_decide; repeat constructor; lia.
  - eapply Forall_impl; [by apply dec_digits; lia|]. unfold is_digit. lia.
Qed.

(** atoi reads back a printed int. *)
Lemma atoi_show_int m p v : cstr m p (show_int v) → in_s32 v → atoi p m = Ok (v, m).
Proof.
  intros Hp Hv. unfold in_s32 in Hv. destruct (dec_digits (Z.abs v) ltac:(lia)) as [Hd Hne].
  pose proof (decimal_dec (Z.abs v) ltac:(lia)) as Ev. set (g := if decide (v < 0) then SMinus else SNone).
  assert (Eg : signed g (Z.abs v) = v) by (unfold g; case_decide; cbn; lia).
  assert (Es : show_int v = sign_bytes g ++ numeral base_d (Z.abs v)) by (unfold show_int, g; cbn; by case_decide).
  rewrite (atoi_ok m p [] g (numeral base_d (Z.abs v)) []), Ev, Eg; [done|cbn [app]; by rewrite app_nil_r, <- Es|done..|].
  by rewrite Ev, Eg.
Qed.
