(* ===== verification/StdioTheorems.v ===== *)
(** * Theorems on formatted output *)

From S2P Require Import Prelude Bitmap Memory CString CStdlib Stdio StdioSpec.

Local Open Scope Z_scope.

(** C28: snprintf with a format made of plain characters, [%%] and the
    conversions %d, %u, %o, %x, %s and %c, each with an optional [-] or [0] flag
    and field width, returns the length of the whole text and stores the text in the
    buffer: all of it when it fits, otherwise as many characters as leave room
    for the terminator, which is always stored.  No byte outside the buffer
    changes.  The format and the strings lie outside the buffer. *)
Theorem snprintf_directives m buffer n format ds rest fuel :
  mapped m buffer (S n) → Z.of_nat (S n) < 2^31 →
  cstr (outside buffer (Z.of_nat (S n)) m) format (concat (format_of <$> ds)) →
  Forall (directive_ok (outside buffer (Z.of_nat (S n)) m)) ds →
  Z.of_nat (length (concat (text_of <$> ds))) < 2^31 →
  (length (concat (format_of <$> ds)) + length (concat (text_of <$> ds)) + 1 < fuel)%nat →
  snprintf fuel buffer (Z.of_nat (S n)) format (concat (words_of <$> ds) ++ rest) m =
    Ok (Z.of_nat (length (concat (text_of <$> ds))), write buffer (take n (concat (text_of <$> ds)) ++ [0]) m).
Proof. intros. by apply snprintf_text. Qed.

(** An int printed with %d into a buffer of at least 12 bytes is read back
    by atoi, for every int. *)
Theorem snprintf_atoi m buffer n format v fuel :
  mapped m buffer (S n) → Z.of_nat (S n) < 2^31 → (11 ≤ n)%nat → (15 ≤ fuel)%nat →
  cstr (outside buffer (Z.of_nat (S n)) m) format [37; 100] → in_s32 v →
  ∃ k m', snprintf fuel buffer (Z.of_nat (S n)) format [u32 v] m = Ok (k, m') ∧ atoi buffer m' = Ok (v, m').
Proof.
  intros Hbuf Hn H12 Hf Hfmt Hv. pose proof (show_int_length v Hv) as Hl.
  assert (Et : concat (text_of <$> [Conv Right 0 (Dec v)]) = show_int v).
  { cbn [fmap list_fmap concat text_of]. unfold item_text, pad. fold (show_int v). rewrite app_nil_r.
    by replace (Z.to_nat (0 - Z.of_nat (length (show_int v)))) with 0%nat by lia. }
  assert (Eq := snprintf_text m buffer n Hbuf Hn [Conv Right 0 (Dec v)] format [] fuel Hfmt).
  rewrite Et in Eq. rewrite take_ge in Eq by lia. do 2 eexists. split.
  - apply Eq; [|lia|change (length (concat (format_of <$> [Conv Right 0 (Dec v)]))) with 2%nat; lia].
    apply Forall_singleton. split; [lia|done].
  - destruct Hbuf as [Hr _]. apply atoi_show_int; [|done]. split; [|by apply show_int_bytes].
    apply holds_write; rewrite ?length_app; cbn [length]; lia.
Qed.

(** A memory with a buffer at 1000, formats at 2000 and 3000 and a string at 4000. *)
Definition demo_memory : mem :=
  write 1000 (replicate 16 0) (write 2000 [120; 61; 37; 45; 53; 100; 124; 37; 115; 37; 37; 0]
    (write 3000 [37; 100; 0] (write 4000 [97; 98; 99; 0] ∅))).

(** snprintf (buf, 8, "x=%-5d|%s%%", -42, "abc") stores "x=-42  " and returns 12. *)
Lemma snprintf_directives_witness :
  ∃ m', snprintf 50 1000 8 2000 [4294967254; 4000] demo_memory = Ok (12, m') ∧
    holds m' 1000 [120; 61; 45; 52; 50; 32; 32; 0].
Proof.
  set (ds := [Text 120; Text 61; Conv Left 5 (Dec (-42)); Text 124; Conv Right 0 (Str 4000 [97; 98; 99]); Percent]).
  eexists. split.
  - apply (snprintf_directives demo_memory 1000 7 2000 ds [] 50).
    + compute_hyp.
    + lia.
    + compute_hyp.
    + compute_hyp.
    + vm_compute. done.
    + vm_compute. lia.
  - compute_hyp.
Defined.

(** The smallest int, in a buffer of 12 bytes. *)
Lemma snprintf_atoi_witness :
  ∃ k m', snprintf 20 1000 12 3000 [2147483648] demo_memory = Ok (k, m') ∧ atoi 1000 m' = Ok (-2147483648, m').
Proof. apply (snprintf_atoi demo_memory 1000 11 3000 (-2147483648) 20); first [lia|compute_hyp]. Defined.
