(* ===== verification/Ustar.v ===== *)
(** * lib/ustar.c: headers of tar archives

    A header is a block of 512 bytes of memory with fields at the offsets of
    struct ustar_header.  [lit] gives the address of each string literal of the
    source.  Console output is left out. *)

From Stdlib Require Import Ascii String.
From S2P Require Import Prelude Bitmap Memory CString CStdlib Stdio.

Local Open Scope Z_scope.

(** The bytes of a literal. *)
Definition str (s : string) : list Z := (λ a, Z.of_nat (nat_of_ascii a)) <$> list_ascii_of_string s.
Arguments str _%_string.

Definition USTAR_REGULAR : Z := 48.
Definition USTAR_DIRECTORY : Z := 53.
Definition USTAR_EOF : Z := -1.
Definition USTAR_HEADER_SIZE : Z := 512.

(** Offsets of the fields used. *)
Definition o_name : Z := 0.
Definition o_mode : Z := 100.
Definition o_uid : Z := 108.
Definition o_gid : Z := 116.
Definition o_size : Z := 124.
Definition o_mtime : Z := 136.
Definition o_chksum : Z := 148.
Definition o_typeflag : Z := 156.
Definition o_magic : Z := 257.
Definition o_version : Z := 263.
Definition o_uname : Z := 265.
Definition o_gname : Z := 297.
Definition o_prefix : Z := 345.

(** [n] bytes left from byte [i] on. *)
Fixpoint chksum_loop (n : nat) (header i chksum : Z) : MM Z :=
  match n with
  | O => mret chksum
  | S n =>
      b ← load (u32 (header + i));
      let in_chksum_field := bool_decide (o_chksum ≤ i ∧ i < o_chksum + 8) in
      chksum_loop n header (i + 1) (u32 (chksum + if in_chksum_field then 32 else b))
  end.

Definition calculate_chksum (h : Z) : MM Z := chksum_loop (Z.to_nat USTAR_HEADER_SIZE) h 0 0.

Definition ULONG_MAX : Z := 4294967295.
Definition INT_MAX : Z := 2147483647.

(** The result, and the value stored. *)
Fixpoint octal_loop (n : nat) (s ofs value : Z) : MM (bool * Z) :=
  match n with
  | O => mret (false, value)
  | S n =>
      b ← load (u32 (s + ofs));
      let c := char b in
      if decide (48 ≤ c ∧ c ≤ 55) then
        if decide (ULONG_MAX / 8 < value) then mret (false, value)
        else octal_loop n s (ofs + 1) (u32 (c - 48 + value * 8))
      else if decide (c = 32 ∨ c = 0) then mret (bool_decide (0 < ofs), value)
      else mret (false, value)
  end.

Definition parse_octal_field (s size : Z) : MM (bool * Z) := octal_loop (Z.to_nat size) s 0 0.

Fixpoint is_all_zeros (cnt : nat) (block : Z) : MM bool :=
  match cnt with
  | O => mret true
  | S cnt => b ← load block; if decide (b ≠ 0) then mret false else is_all_zeros cnt (u32 (block + 1))
  end.

(** The messages that ustar_parse_header returns. *)
Inductive parse_error :=
  | NotUstar | InvalidVersion | CorruptChksum | ChecksumMismatch | NameTooLong | UnimplementedType
  | CorruptSize | FileTooLarge.

(** A message, or a null pointer and the values stored. *)
Inductive parse_result := Failed (e : parse_error) | Parsed (file_name type size : Z).

Section ustar.
Context (lit : list Z → Z).

(** The condition of the loop of strip_antisocial_prefixes. *)
Definition antisocial (file_name : Z) : MM bool :=
  c ← load file_name;
  if decide (c = 47) then mret true else
  r ← memcmp file_name (lit (str "./")) 2;
  if decide (r = 0) then mret true else
  r ← memcmp file_name (lit (str "../")) 3;
  mret (bool_decide (r = 0)).

(** [fuel] bounds the prefixes: enough is the length of the name. *)
Fixpoint strip_loop (fuel : nat) (file_name : Z) : MM Z :=
  match fuel with
  | O => st_fail EFuel
  | S fuel =>
      more ← antisocial file_name;
      if (more : bool) then slash ← strchr file_name 47; strip_loop fuel (u32 (slash + 1))
      else mret file_name
  end.

Definition strip_antisocial_prefixes (file_name : Z) : MM Z :=
  m ← st_get;
  file_name ← strip_loop (steps m) file_name;
  c ← load file_name;
  dot ← (if decide (c = 0) then mret true else r ← strcmp file_name (lit (str "..")); mret (bool_decide (r = 0)));
  mret (if (dot : bool) then lit (str ".") else file_name).

(** The header except for the checksum. *)
Definition fill_header (file_name type size h : Z) : MM () :=
  _ ← memset h 0 USTAR_HEADER_SIZE;
  _ ← strlcpy (u32 (h + o_name)) file_name 100;
  _ ← snprintf 64 (u32 (h + o_mode)) 8 (lit (str "%07o")) [if decide (type = USTAR_REGULAR) then 420 else 493];
  _ ← strlcpy (u32 (h + o_uid)) (lit (str "0000000")) 8;
  _ ← strlcpy (u32 (h + o_gid)) (lit (str "0000000")) 8;
  _ ← snprintf 64 (u32 (h + o_size)) 12 (lit (str "%011o")) [u32 size];
  _ ← snprintf 64 (u32 (h + o_mtime)) 12 (lit (str "%011o")) [1136102400];
  store (u32 (h + o_typeflag)) (type `mod` 256);;
  _ ← strlcpy (u32 (h + o_magic)) (lit (str "ustar")) 6;
  store (u32 (h + o_version + 1)) 48;;
  store (u32 (h + o_version)) 48;;
  _ ← strlcpy (u32 (h + o_gname)) (lit (str "root")) 32;
  _ ← strlcpy (u32 (h + o_uname)) (lit (str "root")) 32;
  mret tt.

Definition ustar_make_header (file_name type size header : Z) : MM bool :=
  ASSERT (bool_decide (type = USTAR_REGULAR ∨ type = USTAR_DIRECTORY));;
  file_name ← strip_antisocial_prefixes file_name;
  len ← strlen file_name;
  if decide (99 < len) then mret false else
  fill_header file_name type size header;;
  chksum ← calculate_chksum header;
  _ ← snprintf 64 (u32 (header + o_chksum)) 8 (lit (str "%07o")) [chksum];
  mret true.

(** The part of ustar_parse_header behind the checksum. *)
Definition parse_entry (header : Z) : MM parse_result :=
  last ← load (u32 (header + o_name + 99));
  prefix ← (if decide (last ≠ 0) then mret 0 else load (u32 (header + o_prefix)));
  if decide (last ≠ 0 ∨ prefix ≠ 0) then mret (Failed NameTooLong) else
  typeflag ← load (u32 (header + o_typeflag));
  if decide (typeflag ≠ USTAR_REGULAR ∧ typeflag ≠ USTAR_DIRECTORY) then mret (Failed UnimplementedType) else
  size ← (if decide (typeflag = USTAR_REGULAR) then parse_octal_field (u32 (header + o_size)) 12 else mret (true, 0));
  if negb size.1 then mret (Failed CorruptSize) else
  if decide (INT_MAX < size.2) then mret (Failed FileTooLarge) else
  file_name ← strip_antisocial_prefixes (u32 (header + o_name));
  mret (Parsed file_name typeflag size.2).

Definition ustar_parse_header (header : Z) : MM parse_result :=
  eof ← is_all_zeros (Z.to_nat USTAR_HEADER_SIZE) header;
  if (eof : bool) then mret (Parsed NULL USTAR_EOF 0) else
  magic ← memcmp (u32 (header + o_magic)) (lit (str "ustar")) 6;
  if decide (magic ≠ 0) then mret (Failed NotUstar) else
  v0 ← load (u32 (header + o_version));
  v1 ← (if decide (v0 ≠ 48) then mret v0 else load (u32 (header + o_version + 1)));
  if decide (v0 ≠ 48 ∨ v1 ≠ 48) then mret (Failed InvalidVersion) else
  chksum ← parse_octal_field (u32 (header + o_chksum)) 8;
  if negb chksum.1 then mret (Failed CorruptChksum) else
  sum ← calculate_chksum header;
  if decide (chksum.2 ≠ sum) then mret (Failed ChecksumMismatch) else
  parse_entry header.
End ustar.
