(* ===== verification/UstarSpec.v ===== *)
(** * Headers of tar archives as lists of fields

    What the routines of Ustar.v do, on the bytes of a header: the names with
    dangerous prefixes removed, octal fields, the checksum, and the header that
    ustar_make_header composes. *)

From Stdlib Require Import String.
From S2P Require Import Prelude Bitmap Memory CString CStdlib Stdio StdioSpec Ustar.

Local Open Scope Z_scope.

(** ** Names *)

(** The name without its leading "/", "./" and "../". *)
Fixpoint strip_prefixes (s : list Z) : list Z :=
  match s with
  | [] => []
  | a :: s1 =>
      if decide (a = 47) then strip_prefixes s1 else
      match s1 with
      | [] => s
      | b :: s2 =>
          if decide (a = 46 ∧ b = 47) then strip_prefixes s2 else
          match s2 with
          | [] => s
          | c :: s3 => if decide (a = 46 ∧ b = 46 ∧ c = 47) then strip_prefixes s3 else s
          end
      end
  end.

Definition strip (s : list Z) : list Z :=
  let t := strip_prefixes s in if decide (t = [] ∨ t = [46; 46]) then [46] else t.

(** No prefix is left. *)
Definition sociable (s : list Z) : Prop :=
  (∀ r, s ≠ 47 :: r) ∧ (∀ r, s ≠ 46 :: 47 :: r) ∧ (∀ r, s ≠ 46 :: 46 :: 47 :: r).

Lemma strip_prefixes_ind (P : list Z → list Z → Prop) :
  (∀ s, sociable s → P s s) →
  (∀ s, P s (strip_prefixes s) → P (47 :: s) (strip_prefixes s)) →
  (∀ s, P s (strip_prefixes s) → P (46 :: 47 :: s) (strip_prefixes s)) →
  (∀ s, P s (strip_prefixes s) → P (46 :: 46 :: 47 :: s) (strip_prefixes s)) →
  ∀ s, P s (strip_prefixes s).
Proof.
  intros H0 H1 H2 H3 s. remember (length s) as n eqn:E. revert s E. induction n as [n IH] using lt_wf_ind. intros s ->.
  destruct s as [|a s1]; [apply H0; by repeat split|]. cbn [strip_prefixes].
  destruct (decide (a = 47)) as [->|Ha]; [apply H1; by eapply IH; [|done]; cbn; lia|].
  destruct s1 as [|b s2]; [apply H0; repeat split; naive_solver|].
  destruct (decide (a = 46 ∧ b = 47)) as [[-> ->]|Hab]; [apply H2; by eapply IH; [|done]; cbn; lia|].
  destruct s2 as [|c s3]; [apply H0; repeat split; naive_solver|].
  destruct (decide (a = 46 ∧ b = 46 ∧ c = 47)) as [(-> & -> & ->)|Habc]; [apply H3; by eapply IH; [|done]; cbn; lia|].
  apply H0. repeat split; naive_solver.
Qed.

Lemma strip_prefixes_sociable s : sociable (strip_prefixes s).
Proof. by apply (strip_prefixes_ind (λ _ t, sociable t)). Qed.

Lemma strip_prefixes_id s : sociable s → strip_prefixes s = s.
Proof.
  intros (H1 & H2 & H3). destruct s as [|a s]; [done|]. cbn [strip_prefixes]. rewrite decide_False by (intros ->; by eapply H1).
  destruct s as [|b s]; [done|]. rewrite decide_False by (intros [-> ->]; by eapply H2).
  destruct s as [|c s]; [done|]. by rewrite decide_False by (intros (-> & -> & ->); by eapply H3).
Qed.

Lemma strip_sociable s : sociable (strip s) ∧ strip s ≠ [] ∧ strip s ≠ [46; 46].
Proof.
  unfold strip. case_decide as H; [split; [repeat split; naive_solver|naive_solver]|].
  split; [apply strip_prefixes_sociable|tauto].
Qed.

Lemma strip_idemp s : strip (strip s) = strip s.
Proof.
  destruct (strip_sociable s) as (Hs & H1 & H2). unfold strip at 1. rewrite strip_prefixes_id by done.
  by rewrite decide_False by tauto.
Qed.

(** memcmp with a string literal tests for a prefix. *)
Lemma memcmp_prefix m p q s t :
  cstr m p s → holds m q t → Forall (λ b, b ≠ 0) t →
  ∃ r, memcmp p q (Z.of_nat (length t)) m = Ok (r, m) ∧ (r = 0 ↔ ∃ u, s = t ++ u).
Proof.
  intros Hp Hq Hn. pose proof (cstr_range _ _ _ Hp) as H. pose proof Hq as [Hrq _].
  assert (E : memcmp p q (Z.of_nat (length t)) m = memcmp_loop (length t) p q m).
  { unfold memcmp. do 2 erewrite st_bind_ok by (apply assert_ok, nonnull_ok; lia). by rewrite Nat2Z.id. }
  rewrite E. clear E H Hrq.
  revert p q s Hp Hq. induction Hn as [|x t Hx Hn IH]; intros p q s Hp Hq; cbn [length memcmp_loop].
  { exists 0. split; [done|]. split; [by exists s|done]. }
  pose proof Hq as [Hrq _]. cbn [length] in Hrq.
  destruct s as [|y s].
  - erewrite st_bind_ok by (by apply cstr_nil). erewrite st_bind_ok by (by eapply load_holds).
    rewrite decide_True by done. eexists. split; [done|]. split; [case_decide; done|by intros [? ?]].
  - apply cstr_cons in Hp as (E & _ & _ & Eu & Hp). erewrite st_bind_ok by done. erewrite st_bind_ok by (by eapply load_holds).
    rewrite Eu, (u32_id (q + 1)) by (unfold in_u32; lia). destruct (decide (y ≠ x)) as [Hne|Hne].
    + eexists. split; [done|]. split; [case_decide; done|]. intros [u [= -> _]]. done.
    + assert (y = x) as -> by lia. destruct (IH (p + 1) (q + 1) s Hp) as (r & Er & Hr); [by eapply holds_tail|].
      exists r. split; [done|]. rewrite Hr. split; intros [u Hu]; exists u; [by rewrite Hu|by injection Hu].
Qed.

(** ** Octal fields *)

Definition octal (v : Z) (ds : list Z) : Z := fold_left (λ v c, 8 * v + (c - 48)) ds v.
Definition is_octal (c : Z) : Prop := 48 ≤ c ≤ 55.

Lemma octal_ge v ds : 0 ≤ v → Forall is_octal ds → v ≤ octal v ds.
Proof.
  intros Hv H. revert v Hv. induction H as [|c ds Hc _ IH]; intros v Hv; cbn; [lia|].
  unfold is_octal in Hc. etrans; [|apply IH; lia]. lia.
Qed.

(** The text of the conversions %07o and %011o. *)
Definition octal_text (w : Z) (v : Z) : list Z := pad Zeros w [] (numeral base_o v).

Lemma numeral_octal v : 0 < v → numeral base_o v = (λ i, 48 + i) <$> reverse (low_digits 22 8 v).
Proof.
  intros Hv. unfold numeral. rewrite decide_False by lia. cbn [base digits base_o]. apply list_fmap_ext. intros k i Hi.
  assert (Hf : Forall (λ i, 0 ≤ i < 8) (reverse (low_digits 22 8 v))) by (apply Forall_reverse, low_digits_range; lia).
  pose proof (Forall_lookup_1 _ _ _ _ Hf Hi) as Hr. cbn beta in Hr. rewrite <- ascii_digit by lia.
  rewrite lookup_take, decide_True by lia. done.
Qed.

Lemma octal_fmap v ds : octal v ((λ i, 48 + i) <$> ds) = fold_left (λ v d, 8 * v + d) ds v.
Proof. revert v. induction ds as [|d ds IH]; intros v; cbn; [done|]. rewrite <- IH. unfold octal. f_equal. lia. Qed.

Lemma octal_zeros n ds : octal 0 (replicate n 48 ++ ds) = octal 0 ds.
Proof. induction n as [|n IH]; [done|]. cbn. done. Qed.

Lemma octal_text_ok w v :
  (1 ≤ w)%nat → 0 ≤ v < 8 ^ Z.of_nat w → v < 2^64 →
  length (octal_text (Z.of_nat w) v) = w ∧ Forall is_octal (octal_text (Z.of_nat w) v) ∧ octal 0 (octal_text (Z.of_nat w) v) = v.
Proof.
  intros Hw Hv Hv'. unfold octal_text, pad. cbn [app].
  assert (Hn : (length (numeral base_o v) ≤ w)%nat ∧ Forall is_octal (numeral base_o v) ∧ octal 0 (numeral base_o v) = v).
  { destruct (decide (v = 0)) as [->|Hne]; [change (numeral base_o 0) with [48]; split_and!; [cbn [length]; lia|by repeat constructor|done]|]. rewrite numeral_octal by lia. split_and!.
    - rewrite length_fmap, length_reverse. by apply low_digits_bound.
    - apply Forall_fmap, Forall_reverse. eapply Forall_impl; [apply (low_digits_range 8); lia|]. unfold is_octal. cbn. lia.
    - rewrite octal_fmap. apply (value_low_digits 8); [lia|]. split; [lia|]. apply pow_22; lia. }
  destruct Hn as (Hl & Hf & Ho). split_and!.
  - rewrite length_app, length_replicate. lia.
  - apply Forall_app. split; [|done]. by apply Forall_replicate.
  - by rewrite octal_zeros.
Qed.

(** ** The checksum *)

Definition byte_sum (l : list Z) : Z := foldr Z.add 0 l.

(** The sum of the bytes of the header with spaces in the checksum field. *)
Definition header_sum (h : list Z) : Z := byte_sum (take 148 h) + 256 + byte_sum (drop 156 h).

Lemma byte_sum_app xs ys : byte_sum (xs ++ ys) = byte_sum xs + byte_sum ys.
Proof. induction xs as [|x xs IH]; cbn; [done|]. fold (byte_sum (xs ++ ys)) (byte_sum xs). lia. Qed.

Lemma byte_sum_range l : Forall (λ b, 0 ≤ b < 256) l → 0 ≤ byte_sum l ≤ 255 * Z.of_nat (length l).
Proof. induction 1 as [|b l Hb Hl IH]; cbn [byte_sum foldr length]; [lia|]. fold (byte_sum l). lia. Qed.

(** A part of the header that lies inside or outside the field. *)
Lemma chksum_loop_part m h l n i c inside :
  holds m (h + i) l → 0 < h → 0 ≤ i → Forall (λ b, 0 ≤ b < 256) l → 0 ≤ c → c + 255 * Z.of_nat (length l) < 2^32 →
  (∀ k, i ≤ k < i + Z.of_nat (length l) → bool_decide (o_chksum ≤ k ∧ k < o_chksum + 8) = inside) →
  chksum_loop (length l + n) h i c m =
  chksum_loop n h (i + Z.of_nat (length l)) (c + if inside then 32 * Z.of_nat (length l) else byte_sum l) m.
Proof.
  intros Hm Hh Hi Hb. revert i c Hm Hi. induction Hb as [|b l Hb Hl IH]; intros i c Hm Hi Hc Hs Hin; cbn [length Nat.add] in *.
  { destruct inside; cbn; by rewrite !Z.add_0_r. }
  pose proof Hm as [Hr _]. cbn [length chksum_loop] in *. rewrite u32_id by (unfold in_u32; lia).
  erewrite st_bind_ok by (by eapply load_holds). rewrite (Hin i) by lia.
  rewrite u32_id by (unfold in_u32; destruct inside; lia).
  rewrite IH; [|by rewrite Z.add_assoc; eapply holds_tail|lia|destruct inside; lia|destruct inside; lia|intros k Hk; apply Hin; lia].
  f_equal; [lia|]. destruct inside; cbn [byte_sum foldr]; fold (byte_sum l); lia.
Qed.

Lemma calculate_chksum_ok m p h :
  holds m p h → length h = 512%nat → Forall (λ b, 0 ≤ b < 256) h → calculate_chksum p m = Ok (header_sum h, m).
Proof.
  intros Hm Hl Hb. unfold calculate_chksum. change (Z.to_nat USTAR_HEADER_SIZE) with (148 + (8 + (356 + 0)))%nat.
  assert (L1 : length (take 148 h) = 148%nat) by (rewrite length_take; lia).
  assert (L2 : length (take 8 (drop 148 h)) = 8%nat) by (rewrite length_take, length_drop; lia).
  assert (L3 : length (drop 156 h) = 356%nat) by (rewrite length_drop; lia).
  assert (Eh : h = take 148 h ++ take 8 (drop 148 h) ++ drop 156 h).
  { change 156%nat with (148 + 8)%nat. rewrite <- drop_drop, !take_drop. done. }
  pose proof Hm as [Hr _]. rewrite Eh in Hm, Hb. apply holds_app in Hm as [H1 Hm]. apply holds_app in Hm as [H2 H3].
  apply Forall_app in Hb as [B1 Hb]. apply Forall_app in Hb as [B2 B3]. rewrite L1, L2 in *.
  pose proof (byte_sum_range _ B1). rewrite L1 in *. rewrite <- L1 at 1.
  rewrite (chksum_loop_part m p (take 148 h) _ 0 0 false); [|by rewrite Z.add_0_r|lia|lia|done|lia|lia|].
  2: { intros k Hk. apply bool_decide_eq_false_2. unfold o_chksum. lia. }
  rewrite L1, <- L2 at 1. cbn [Z.add].
  rewrite (chksum_loop_part m p (take 8 (drop 148 h)) _ _ _ true); [|done|lia|lia|done|lia|lia|].
  2: { intros k Hk. apply bool_decide_eq_true_2. unfold o_chksum. lia. }
  rewrite L2, <- L3 at 1.
  rewrite (chksum_loop_part m p (drop 156 h) _ _ _ false); [|by rewrite Z.add_assoc|lia|lia|done|lia|lia|].
  2: { intros k Hk. apply bool_decide_eq_false_2. unfold o_chksum. lia. }
  rewrite L2. cbn [chksum_loop]. unfold header_sum, mret, ST_ret. by do 2 f_equal.
Qed.

(** ** Fields *)

Definition sizes : list nat := [100; 8; 8; 8; 12; 12; 8; 1; 100; 6; 2; 32; 32; 8; 8; 155; 12]%nat.

(** The blocks of a header, of these sizes. *)
Definition shaped (fs : list (list Z)) : Prop := length <$> fs = sizes.

Definition offset (i : nat) : Z := Z.of_nat (sum_list (take i sizes)).

Lemma length_concat (fs : list (list Z)) : length (concat fs) = sum_list (length <$> fs).
Proof. induction fs as [|f fs IH]; cbn; [done|]. by rewrite length_app, IH. Qed.

Lemma shaped_split fs i f :
  shaped fs → fs !! i = Some f →
  concat fs = concat (take i fs) ++ f ++ concat (drop (S i) fs) ∧ Z.of_nat (length (concat (take i fs))) = offset i ∧
  sizes !! i = Some (length f) ∧ length (concat fs) = 512%nat.
Proof.
  intros Hs Hi. split_and!.
  - rewrite <- (take_drop_middle fs i f Hi) at 1. by rewrite concat_app.
  - unfold offset. by rewrite length_concat, fmap_take, Hs.
  - rewrite <- Hs, list_lookup_fmap, Hi. done.
  - by rewrite length_concat, Hs.
Qed.

Lemma field_holds m p fs i f :
  holds m p (concat fs) → shaped fs → fs !! i = Some f → holds m (p + offset i) f.
Proof.
  intros Hm Hs Hi. destruct (shaped_split fs i f Hs Hi) as (E & <- & _). rewrite E in Hm.
  apply holds_app in Hm as [_ Hm]. by eapply holds_prefix.
Qed.

Lemma shaped_insert fs i f g : shaped fs → fs !! i = Some f → length g = length f → shaped (<[i := g]> fs).
Proof.
  unfold shaped. intros Hs Hi Hl. rewrite list_fmap_insert, Hs, Hl. apply list_insert_id. by rewrite <- Hs, list_lookup_fmap, Hi.
Qed.

(** Writing the first bytes of a field. *)
Lemma field_write m p fs i f g :
  shaped fs → fs !! i = Some f → (length g ≤ length f)%nat →
  write (p + offset i) g (write p (concat fs) m) = write p (concat (<[i := g ++ drop (length g) f]> fs)) m.
Proof.
  intros Hs Hi Hl. destruct (shaped_split fs i f Hs Hi) as (E & Ho & _). pose proof (lookup_lt_Some _ _ _ Hi).
  assert (E2 : concat (<[i := g ++ drop (length g) f]> fs) =
    concat (take i fs) ++ (g ++ drop (length g) f) ++ concat (drop (S i) fs)).
  { rewrite insert_take_drop by done. by rewrite concat_app. }
  rewrite E, E2, <- Ho. rewrite <- (take_drop (length g) f) at 1. rewrite <- !app_assoc.
  rewrite !write_app, (write_comm (p + _)).
  2: { unfold disjoint_blocks. lia. }
  assert (Ht : length (take (length g) f) = length g) by (rewrite length_take; lia).
  f_equal. rewrite write_write by done. by rewrite Ht.
Qed.

(** The string literals of the source. *)
Definition literals : list (list Z) :=
  [str "./"; str "../"; str ".."; str "."; str "%07o"; str "0000000"; str "%011o"; str "ustar"; str "root"].

Ltac in_literals := unfold literals; rewrite !elem_of_cons; tauto.

Section literals.
Context (lit : list Z → Z).

(** They are in memory. *)
Definition lits_ok (m : mem) : Prop := Forall (λ s, cstr m (lit s) s) literals.

Lemma lits_lookup m s : lits_ok m → s ∈ literals → cstr m (lit s) s.
Proof. intros H. by apply (proj1 (Forall_forall _ _) H). Qed.

Lemma antisocial_ok m p s :
  lits_ok m → cstr m p s →
  (sociable s → antisocial lit p m = Ok (false, m)) ∧
  (∀ u, s = 47 :: u ∨ s = 46 :: 47 :: u ∨ s = 46 :: 46 :: 47 :: u → antisocial lit p m = Ok (true, m)).
Proof.
  intros Hl Hp.
  assert (Hd : ∀ t, t ∈ literals → Forall (λ b, b ≠ 0) t →
    ∃ r, memcmp p (lit t) (Z.of_nat (length t)) m = Ok (r, m) ∧ (r = 0 ↔ ∃ u, s = t ++ u)).
  { intros t Ht Hn. destruct (lits_lookup m t Hl Ht) as [Hh _]. apply memcmp_prefix; [done|by eapply holds_prefix|done]. }
  destruct (Hd (str "./")) as (r1 & E1 & H1); [in_literals|by repeat constructor|].
  destruct (Hd (str "../")) as (r2 & E2 & H2); [in_literals|by repeat constructor|].
  change (Z.of_nat (length (str "./"))) with 2 in E1. change (Z.of_nat (length (str "../"))) with 3 in E2.
  change (str "./") with [46; 47] in *. change (str "../") with [46; 46; 47] in *.
  assert (Hh : ∃ c, load p m = Ok (c, m) ∧ (c = 47 ↔ ∃ u, s = 47 :: u)).
  { destruct s as [|c s]; [exists 0; split; [by apply cstr_nil|]; split; [done|by intros [? ?]]|].
    exists c. destruct (cstr_cons _ _ _ _ Hp) as (E & _). split; [done|]. split; [intros ->; by exists s|by intros [? [= -> _]]]. }
  destruct Hh as (c & Ec & Hc). unfold antisocial. split.
  - intros (S1 & S2 & S3). erewrite st_bind_ok by exact Ec. rewrite decide_False by (rewrite Hc; intros [u ->]; by eapply S1).
    erewrite st_bind_ok by exact E1. rewrite decide_False by (rewrite H1; intros [u ->]; by eapply S2).
    erewrite st_bind_ok by exact E2. by rewrite bool_decide_eq_false_2 by (rewrite H2; intros [u ->]; by eapply S3).
  - intros u Hu. erewrite st_bind_ok by exact Ec. destruct (decide (c = 47)) as [|Hne]; [done|]. rewrite Hc in Hne.
    erewrite st_bind_ok by exact E1. destruct (decide (r1 = 0)) as [|Hn1]; [done|]. rewrite H1 in Hn1.
    erewrite st_bind_ok by exact E2. rewrite bool_decide_eq_true_2; [done|]. apply H2. exists u.
    destruct Hu as [->|[->| ->]]; [by exfalso; eauto..|done].
Qed.

Lemma strchr_slash m p pre u :
  cstr m p (pre ++ 47 :: u) → Forall (λ b, b ≠ 47) pre →
  strchr p 47 m = Ok (p + Z.of_nat (length pre), m) ∧ u32 (p + Z.of_nat (length pre) + 1) = p + Z.of_nat (length pre) + 1 ∧
  cstr m (p + Z.of_nat (length pre) + 1) u.
Proof.
  intros Hp Hn. pose proof (cstr_range _ _ _ Hp) as Hr. rewrite length_app in Hr. cbn [length] in Hr.
  apply cstr_suffix in Hp as Hq. apply cstr_cons in Hq as (_ & _ & _ & Eu & Hq). split_and!; [|done|done].
  rewrite (strchr_ok m p _ 47 Hp) by done. do 2 f_equal.
  assert (E : position (.= 47) ((pre ++ 47 :: u) ++ [0]) = Some (length pre)); [|by rewrite E].
  clear -Hn. induction Hn as [|b pre Hb _ IH]; cbn [app position length]; [by rewrite decide_True|].
  by rewrite decide_False, IH.
Qed.

(** What the loop does on a name, with the rest of the name that it returns. *)
Definition strips (m : mem) (s t : list Z) : Prop :=
  ∀ fuel p, cstr m p s → (length s < fuel)%nat →
    ∃ q, strip_loop lit fuel p m = Ok (q, m) ∧ cstr m q t ∧ (p ≤ q ∧ q + Z.of_nat (length t) = p + Z.of_nat (length s)) ∧ (sociable s → q = p).

Lemma strip_step m pre s t :
  lits_ok m → pre = [] ∨ pre = [46] ∨ pre = [46; 46] → strips m s t → strips m (pre ++ 47 :: s) t.
Proof.
  intros Hl Hpre IH [|fuel] p Hp Hf; [lia|]. cbn [strip_loop]. rewrite length_app in Hf. cbn [length] in Hf.
  destruct (antisocial_ok m p (pre ++ 47 :: s) Hl Hp) as [_ E]. erewrite st_bind_ok by (apply (E s); naive_solver).
  destruct (strchr_slash m p pre s Hp) as (Ec & Eu & Hq); [by destruct Hpre as [->|[->| ->]]; repeat constructor|]. erewrite st_bind_ok by exact Ec. rewrite Eu.
  destruct (IH fuel _ Hq) as (q & Eq & Hq' & Hr & _); [lia|]. exists q. split_and!; [done|done|lia|rewrite length_app; cbn [length]; lia|].
  intros (S1 & S2 & S3). exfalso. destruct Hpre as [->|[->| ->]]; naive_solver.
Qed.

Lemma strip_loop_ok m s : lits_ok m → strips m s (strip_prefixes s).
Proof.
  intros Hl. apply (strip_prefixes_ind (strips m)); clear s.
  - intros s Hs [|fuel] p Hp Hf; [lia|]. cbn [strip_loop]. destruct (antisocial_ok m p s Hl Hp) as [E _].
    erewrite st_bind_ok by (by apply E). exists p. split_and!; [done|done|lia|lia|done].
  - intros s. apply (strip_step m []); [done|tauto].
  - intros s. apply (strip_step m [46]); [done|tauto].
  - intros s. apply (strip_step m [46; 46]); [done|tauto].
Qed.

(** The stripped name: a suffix of the name or the literal ".". *)
Lemma strip_ok m p s :
  lits_ok m → cstr m p s →
  ∃ q, strip_antisocial_prefixes lit p m = Ok (q, m) ∧ cstr m q (strip s) ∧
    (q = lit (str ".") ∧ strip s = [46] ∨ p ≤ q ∧ q + Z.of_nat (length (strip s)) = p + Z.of_nat (length s)) ∧ (strip s = s → q = p).
Proof.
  intros Hl Hp. destruct (strip_loop_ok m s Hl (steps m) p Hp) as (q & E & Hq & Hr & Hs); [by eapply cstr_steps|].
  unfold strip_antisocial_prefixes. change (st_get ≫= ?k) with (λ m', k m' m'). cbn beta. erewrite st_bind_ok by exact E.
  assert (Hdot : cstr m (lit (str ".")) [46]) by (apply (lits_lookup m (str ".")); [done|in_literals]).
  assert (Hdd : cstr m (lit (str "..")) [46; 46]) by (apply (lits_lookup m (str "..")); [done|in_literals]).
  assert (Hid : strip s = s → q = p).
  { intros Hsid. apply Hs. rewrite <- Hsid. apply strip_sociable. }
  unfold strip in *. destruct (strip_prefixes s) as [|c t] eqn:Et.
  - erewrite st_bind_ok by (by apply cstr_nil). rewrite decide_True by done. erewrite st_bind_ok by done.
    exists (lit (str ".")). rewrite (decide_True (P := [] = [] ∨ _)) in * by tauto. split_and!; [done|done|by left|].
    intros Hs46. exfalso. subst s. cbn in Et. done.
  - destruct (cstr_cons _ _ _ _ Hq) as (Ec & Hc0 & _). erewrite st_bind_ok by exact Ec. rewrite decide_False by done.
    erewrite st_bind_ok by (by erewrite st_bind_ok by (by apply (strcmp_ok m q _ (c :: t) [46; 46]))).
    pose proof (lex_strings (c :: t) [46; 46] (proj2 Hq) (proj2 Hdd)) as Hlex.
    destruct (bool_decide_reflect (lex ((c :: t) ++ [0]) ([46; 46] ++ [0]) = 0)) as [H0|H0]; rewrite Hlex in H0.
    + exists (lit (str ".")). rewrite decide_True in * by (by right). split_and!; [done|done|by left|].
      intros Hs46. exfalso. subst s. rewrite H0 in Et. done.
    + exists q. rewrite decide_False in * by (intros [?|?]; done). split_and!; [done|done|by right|done].
Qed.

(** ** Composing a header *)

Section compose.
Context (m : mem) (h : Z) (Hl : lits_ok m) (Hh : mapped m h 512).
Context (Hd : Forall (λ s, disjoint_blocks h 512 (lit s) (S (length s))) literals).

(** Memory with these fields in the header. *)
Definition filled_with (fs : list (list Z)) : mem := write h (concat fs) m.

Lemma field_address fs i f :
  shaped fs → fs !! i = Some f → u32 (h + offset i) = h + offset i ∧ 0 ≤ offset i ∧ offset i + Z.of_nat (length f) ≤ 512.
Proof.
  intros Hs Hi. destruct (shaped_split fs i f Hs Hi) as (E & <- & _ & Hlen). rewrite E, !length_app in Hlen.
  destruct Hh as [Hr _]. rewrite u32_id by (unfold in_u32; lia). lia.
Qed.

Lemma field_mapped fs i f : shaped fs → fs !! i = Some f → mapped (filled_with fs) (h + offset i) (length f).
Proof.
  intros Hs Hi. destruct (field_address fs i f Hs Hi) as (_ & H0 & H1). apply mapped_write. destruct Hh as [Hr Hm].
  split; [lia|]. intros k Hk. replace (h + offset i + Z.of_nat k) with (h + Z.of_nat (Z.to_nat (offset i + Z.of_nat k))) by lia.
  apply Hm. lia.
Qed.

(** A string outside the header stays. *)
Lemma outside_string fs p s : shaped fs → cstr m p s → disjoint_blocks h 512 p (S (length s)) → cstr (filled_with fs) p s.
Proof.
  intros Hs Hp Hx. apply cstr_write; [done|]. rewrite length_concat, Hs. change (sum_list sizes) with 512%nat.
  unfold disjoint_blocks in *. lia.
Qed.

Lemma copy_field fs i f src s :
  shaped fs → fs !! i = Some f → cstr m src s → disjoint_blocks h 512 src (S (length s)) → (length s < length f)%nat →
  strlcpy (u32 (h + offset i)) src (Z.of_nat (length f)) (filled_with fs) =
    Ok (Z.of_nat (length s), filled_with (<[i := (s ++ [0]) ++ drop (S (length s)) f]> fs)).
Proof.
  intros Hs Hi Hp Hx Hlt. destruct (field_address fs i f Hs Hi) as (-> & H0 & H1). destruct Hh as [Hr _].
  rewrite (strlcpy_ok (filled_with fs) _ src s).
  - rewrite take_ge by lia. do 2 f_equal. unfold filled_with. rewrite (field_write m h fs i f (s ++ [0]) Hs Hi) by (rewrite length_app; cbn [length]; lia).
    rewrite length_app, Nat.add_1_r. done.
  - by apply outside_string.
  - lia.
  - rewrite Nat2Z.id. by apply field_mapped.
  - rewrite Nat2Z.id. unfold disjoint_blocks in *. lia.
Qed.

Lemma print_field fs i f (w : nat) fmt v :
  shaped fs → fs !! i = Some f → length f = S w → fmt ∈ literals →
  concat (format_of <$> [Conv Zeros (Z.of_nat w) (Octal v)]) = fmt → (1 ≤ w ≤ 11)%nat → 0 ≤ v < 8 ^ Z.of_nat w → v < 2^32 →
  snprintf 64 (u32 (h + offset i)) (Z.of_nat (S w)) (lit fmt) [v] (filled_with fs) =
    Ok (Z.of_nat w, filled_with (<[i := octal_text (Z.of_nat w) v ++ [0]]> fs)).
Proof.
  intros Hs Hi Hf Hfmt Ef Hw Hv Hv32. destruct (field_address fs i f Hs Hi) as (-> & H0 & H1). destruct Hh as [Hr _].
  destruct (octal_text_ok w v) as (Hlen & _); [lia|done|lia|].
  assert (Et : concat (text_of <$> [Conv Zeros (Z.of_nat w) (Octal v)]) = octal_text (Z.of_nat w) v) by (cbn; by rewrite app_nil_r).
  pose proof (field_mapped fs i f Hs Hi) as Hm. rewrite Hf in Hm.
  pose proof (proj1 (Forall_forall _ _) Hd fmt Hfmt) as Hx.
  pose proof (snprintf_text (filled_with fs) (h + offset i) w Hm ltac:(lia) [Conv Zeros (Z.of_nat w) (Octal v)] (lit fmt) [] 64) as E.
  rewrite Et, Ef in E. change (concat (words_of <$> [Conv Zeros (Z.of_nat w) (Octal v)]) ++ []) with [v] in E.
  rewrite E.
  - rewrite Hlen, take_ge by lia. do 2 f_equal. unfold filled_with. rewrite (field_write m h fs i f (octal_text (Z.of_nat w) v ++ [0]) Hs Hi) by (rewrite length_app, Hlen; cbn [length]; lia).
    do 2 f_equal. rewrite drop_ge by (rewrite length_app, Hlen; cbn [length]; lia). by rewrite app_nil_r.
  - apply cstr_outside; [|unfold disjoint_blocks in *; lia]. apply outside_string; [done|by apply lits_lookup|done].
  - apply Forall_singleton. split; [lia|]. unfold item_ok, in_u32. lia.
  - lia.
  - rewrite Hlen, <- Ef. cbn. rewrite !length_app. pose proof (numeral_length base_d (Z.of_nat w)).
    unfold width_bytes. case_decide; cbn [length]; lia.
Qed.
Lemma store_field fs i f (k : nat) b :
  shaped fs → fs !! i = Some f → (k < length f)%nat →
  store (u32 (h + offset i + Z.of_nat k)) b (filled_with fs) = Ok ((), filled_with (<[i := <[k := b]> f]> fs)).
Proof.
  intros Hs Hi Hk. destruct (field_address fs i f Hs Hi) as (_ & H0 & H1). pose proof (field_mapped fs i f Hs Hi) as [Hr Hm].
  rewrite u32_id by (unfold in_u32; lia). rewrite store_ok by (by apply Hm). do 2 f_equal. unfold filled_with.
  destruct (shaped_split fs i f Hs Hi) as (E & Ho & _). pose proof (lookup_lt_Some _ _ _ Hi).
  assert (E2 : concat (<[i := <[k := b]> f]> fs) = concat (take i fs) ++ <[k := b]> f ++ concat (drop (S i) fs)).
  { rewrite insert_take_drop by done. by rewrite concat_app. }
  rewrite E, E2, <- Ho. apply map_eq. intros a. destruct (decide (a = h + Z.of_nat (length (concat (take i fs))) + Z.of_nat k)) as [->|Hne].
  - rewrite lookup_insert_eq, lookup_write, decide_True by (rewrite !length_app, length_insert; lia).
    rewrite lookup_app_r by lia. rewrite lookup_app_l by (rewrite length_insert; lia).
    replace (_ - length (concat (take i fs)))%nat with k by lia. by rewrite list_lookup_insert_eq.
  - rewrite lookup_insert_ne, !lookup_write by done. rewrite !length_app, length_insert. case_decide as Hin; [|done].
    destruct (decide (a < h + Z.of_nat (length (concat (take i fs))))) as [Hlt|Hge]; [by rewrite !lookup_app_l by lia|].
    rewrite !(lookup_app_r (concat (take i fs))) by lia. set (j := (_ - length (concat (take i fs)))%nat).
    destruct (decide (j < length f)%nat) as [Hj|Hj].
    + rewrite !lookup_app_l by (rewrite ?length_insert; lia). rewrite list_lookup_insert_ne; [done|]. unfold j in *. lia.
    + rewrite !lookup_app_r by (rewrite ?length_insert; lia). by rewrite length_insert.
Qed.

(** The fields of the header for the stripped name [t]. *)
Definition header_fields (t : list Z) (type size : Z) (chksum : list Z) : list (list Z) :=
  [t ++ replicate (100 - length t) 0; octal_text 7 (if decide (type = USTAR_REGULAR) then 420 else 493) ++ [0];
   str "0000000" ++ [0]; str "0000000" ++ [0]; octal_text 11 (u32 size) ++ [0]; octal_text 11 1136102400 ++ [0];
   chksum; [type]; replicate 100 0; str "ustar" ++ [0]; [48; 48];
   (str "root" ++ [0]) ++ replicate 27 0; (str "root" ++ [0]) ++ replicate 27 0; replicate 8 0; replicate 8 0; replicate 155 0; replicate 12 0].

Lemma header_shaped t type size chksum :
  (length t ≤ 100)%nat → length chksum = 8%nat → shaped (header_fields t type size chksum).
Proof.
  intros Ht Hc. unfold shaped, header_fields. cbn [fmap list_fmap]. rewrite !length_app, !length_replicate, Hc.
  pose proof (u32_range size) as Hu. unfold in_u32 in Hu.
  destruct (octal_text_ok 11 (u32 size)) as [H1 _]; [lia|cbn; lia|lia|].
  destruct (octal_text_ok 11 1136102400) as [H2 _]; [lia|cbn; lia|lia|].
  destruct (octal_text_ok 7 (if decide (type = USTAR_REGULAR) then 420 else 493)) as [H3 _]; [lia|case_decide; cbn; lia|case_decide; lia|].
  change (Z.of_nat 11) with 11 in *. change (Z.of_nat 7) with 7 in *. rewrite H1, H2, H3.
  unfold sizes. cbn [length str]. repeat f_equal. lia.
Qed.

Definition zero_fields : list (list Z) :=
  [replicate 100 0; replicate 8 0; replicate 8 0; replicate 8 0; replicate 12 0; replicate 12 0; replicate 8 0; replicate 1 0;
   replicate 100 0; replicate 6 0; replicate 2 0; replicate 32 0; replicate 32 0; replicate 8 0; replicate 8 0; replicate 155 0; replicate 12 0].

(** The literal [s] copied into field [i], which holds zeros. *)
Lemma copy_literal fs i n s :
  shaped fs → fs !! i = Some (replicate n 0) → s ∈ literals → (length s < n)%nat →
  strlcpy (u32 (h + offset i)) (lit s) (Z.of_nat n) (filled_with fs) =
    Ok (Z.of_nat (length s), filled_with (<[i := (s ++ [0]) ++ replicate (n - S (length s)) 0]> fs)) ∧
  shaped (<[i := (s ++ [0]) ++ replicate (n - S (length s)) 0]> fs).
Proof.
  intros Hs Hi Hin Hlt. split.
  - pose proof (copy_field fs i (replicate n 0) (lit s) s Hs Hi (lits_lookup m s Hl Hin) (proj1 (Forall_forall _ _) Hd s Hin)) as E.
    rewrite length_replicate, drop_replicate in E. by apply E.
  - eapply shaped_insert; [done|done|]. rewrite !length_app, !length_replicate. cbn [length]. lia.
Qed.

Lemma print_octal fs i f (w : nat) fmt v :
  shaped fs → fs !! i = Some f → length f = S w → fmt ∈ literals →
  concat (format_of <$> [Conv Zeros (Z.of_nat w) (Octal v)]) = fmt → (1 ≤ w ≤ 11)%nat → 0 ≤ v < 8 ^ Z.of_nat w → v < 2^32 →
  snprintf 64 (u32 (h + offset i)) (Z.of_nat (S w)) (lit fmt) [v] (filled_with fs) =
    Ok (Z.of_nat w, filled_with (<[i := octal_text (Z.of_nat w) v ++ [0]]> fs)) ∧
  shaped (<[i := octal_text (Z.of_nat w) v ++ [0]]> fs).
Proof.
  intros Hs Hi Hf Hfmt Ef Hw Hv Hv32. split; [by eapply print_field|].
  destruct (octal_text_ok w v) as (Hlen & _); [lia|done|lia|].
  eapply shaped_insert; [done|done|]. rewrite length_app, Hlen, Hf. cbn [length]. lia.
Qed.

Lemma fill_header_ok file t type size :
  cstr m file t → disjoint_blocks h 512 file (S (length t)) → (length t ≤ 99)%nat →
  type = USTAR_REGULAR ∨ type = USTAR_DIRECTORY →
  fill_header lit file type size h m = Ok ((), filled_with (header_fields t type size (replicate 8 0))).
Proof.
  intros Hf Hfd Ht Hty. pose proof (u32_range size) as Hu. unfold in_u32 in Hu. unfold fill_header.
  assert (H0 : filled_with zero_fields = write h (replicate 512 0) m) by done.
  assert (S0 : shaped zero_fields) by done.
  erewrite st_bind_ok by (apply (memset_ok m h 0 512 Hh)). change (0 `mod` 256) with 0. rewrite <- H0. unfold zero_fields in *.
  pose proof (copy_field _ 0 (replicate 100 0) file t S0 eq_refl Hf Hfd ltac:(rewrite length_replicate; lia)) as E.
  erewrite st_bind_ok by exact E. clear E.
  assert (S1 : shaped (<[0%nat := (t ++ [0]) ++ drop (S (length t)) (replicate 100 0)]> zero_fields)).
  { eapply shaped_insert; [done|done|]. rewrite !length_app, length_drop, !length_replicate. cbn [length]. lia. }
  rewrite drop_replicate in *. cbn [insert list_insert zero_fields] in *.
  destruct (print_octal _ 1 _ 7 (str "%07o") (if decide (type = USTAR_REGULAR) then 420 else 493) S1 eq_refl) as [E S2];
    [done|in_literals|done|lia|case_decide; cbn; lia|case_decide; lia|]. erewrite st_bind_ok by exact E.
  destruct (copy_literal _ 2 8 (str "0000000") S2 eq_refl) as [E3 S3]; [in_literals|cbn; lia|]. erewrite st_bind_ok by exact E3.
  destruct (copy_literal _ 3 8 (str "0000000") S3 eq_refl) as [E4 S4]; [in_literals|cbn; lia|]. erewrite st_bind_ok by exact E4.
  destruct (print_octal _ 4 _ 11 (str "%011o") (u32 size) S4 eq_refl) as [E5 S5]; [done|in_literals|done|lia|cbn; lia|lia|].
  erewrite st_bind_ok by exact E5.
  destruct (print_octal _ 5 _ 11 (str "%011o") 1136102400 S5 eq_refl) as [E6 S6]; [done|in_literals|done|lia|cbn; lia|lia|].
  erewrite st_bind_ok by exact E6.
  assert (Em : type `mod` 256 = type) by (destruct Hty as [-> | ->]; done). rewrite Em.
  replace (u32 (h + o_typeflag)) with (u32 (h + offset 7 + Z.of_nat 0)) by (change (offset 7) with 156; unfold o_typeflag; f_equal; lia).
  erewrite st_bind_ok by (apply (store_field _ 7 (replicate 1 0) 0 type S6 eq_refl); rewrite length_replicate; lia).
  assert (S7 := shaped_insert _ 7 (replicate 1 0) [type] S6 eq_refl eq_refl). change (<[0%nat := type]> (replicate 1 0)) with [type].
  destruct (copy_literal _ 9 6 (str "ustar") S7 eq_refl) as [E9 S9]; [in_literals|cbn; lia|]. erewrite st_bind_ok by exact E9.
  erewrite st_bind_ok by (apply (store_field _ 10 (replicate 2 0) 1 48 S9 eq_refl); rewrite length_replicate; lia).
  assert (S10 := shaped_insert _ 10 (replicate 2 0) [0; 48] S9 eq_refl eq_refl).
  change (<[1%nat := 48]> (replicate 2 0)) with [0; 48].
  replace (u32 (h + o_version)) with (u32 (h + offset 10 + Z.of_nat 0)) by (change (offset 10) with 263; unfold o_version; f_equal; lia).
  erewrite st_bind_ok by (apply (store_field _ 10 [0; 48] 0 48 S10 eq_refl); cbn; lia).
  assert (S11 := shaped_insert _ 10 [0; 48] [48; 48] S10 eq_refl eq_refl). change (<[0%nat := 48]> [0; 48]) with [48; 48].
  destruct (copy_literal _ 12 32 (str "root") S11 eq_refl) as [E12 S12]; [in_literals|cbn; lia|]. erewrite st_bind_ok by exact E12.
  destruct (copy_literal _ 11 32 (str "root") S12 eq_refl) as [E13 S13]; [in_literals|cbn; lia|]. erewrite st_bind_ok by exact E13.
  unfold header_fields. cbn [insert list_insert]. do 4 f_equal. f_equal. rewrite <- app_assoc. f_equal. cbn [app].
  by replace (100 - length t)%nat with (S (100 - S (length t))) by lia.
Qed.
(** The header for the file: the checksum is the one of the other fields. *)
Definition header_for (t : list Z) (type size : Z) : list (list Z) :=
  header_fields t type size (octal_text 7 (header_sum (concat (header_fields t type size (replicate 8 0)))) ++ [0]).

Lemma header_bytes t type size chksum :
  Forall (λ b, 0 < b < 256) t → type = USTAR_REGULAR ∨ type = USTAR_DIRECTORY → Forall (λ b, 0 ≤ b < 256) chksum →
  Forall (λ b, 0 ≤ b < 256) (concat (header_fields t type size chksum)).
Proof.
  intros Ht Hty Hc. pose proof (u32_range size) as Hu. unfold in_u32 in Hu.
  assert (Ho : ∀ w v, (1 ≤ w)%nat → 0 ≤ v < 8 ^ Z.of_nat w → v < 2^64 → Forall (λ b, 0 ≤ b < 256) (octal_text (Z.of_nat w) v)).
  { intros w v Hw Hv Hv'. destruct (octal_text_ok w v Hw Hv Hv') as (_ & Hf & _). eapply Forall_impl; [done|]. unfold is_octal. lia. }
  apply Forall_concat. unfold header_fields. repeat (apply Forall_cons; split); try apply Forall_nil;
    repeat match goal with |- Forall _ (_ ++ _) => apply Forall_app; split end;
    try (apply Forall_replicate; lia); try (by repeat constructor); try done.
  - eapply Forall_impl; [done|]. cbn. lia.
  - apply (Ho 7%nat); [lia|case_decide; cbn; lia|case_decide; lia].
  - apply (Ho 11%nat); [lia|cbn; lia|lia].
  - by destruct Hty as [-> | ->].
Qed.

Lemma header_sum_range l : length l = 512%nat → Forall (λ b, 0 ≤ b < 256) l → 0 ≤ header_sum l < 2097152.
Proof.
  intros Hlen Hb. unfold header_sum. pose proof (byte_sum_range _ (Forall_take _ 148 _ Hb)) as H1.
  pose proof (byte_sum_range _ (Forall_drop _ 156 _ Hb)) as H2. rewrite length_take in H1. rewrite length_drop in H2. lia.
Qed.

Lemma make_header_ok file s type size :
  cstr m file s → disjoint_blocks h 512 file (S (length s)) → type = USTAR_REGULAR ∨ type = USTAR_DIRECTORY →
  ustar_make_header lit file type size h m =
    if decide (99 < length (strip s))%nat then Ok (false, m) else Ok (true, filled_with (header_for (strip s) type size)).
Proof.
  intros Hf Hfd Hty. unfold ustar_make_header. erewrite st_bind_ok by (by apply assert_ok, bool_decide_eq_true).
  destruct (strip_ok m file s Hl Hf) as (q & Eq & Hq & Hqr & _). erewrite st_bind_ok by exact Eq.
  erewrite st_bind_ok by (by apply strlen_ok). destruct (decide (99 < length (strip s))%nat) as [Hlong|Hshort]; [by rewrite decide_True by lia|].
  rewrite decide_False by lia.
  assert (Hqd : disjoint_blocks h 512 q (S (length (strip s)))).
  { destruct Hqr as [[-> ->]|Hqr]; [|unfold disjoint_blocks in *; lia].
    apply (proj1 (Forall_forall _ _) Hd (str ".")). in_literals. }
  erewrite st_bind_ok by (apply (fill_header_ok q (strip s)); [done|done|lia|done]). set (t := strip s) in *.
  pose proof (header_shaped t type size (replicate 8 0) ltac:(lia) eq_refl) as Hs.
  assert (Hb : Forall (λ b, 0 ≤ b < 256) (concat (header_fields t type size (replicate 8 0)))).
  { apply header_bytes; [apply Hq|done|by repeat constructor]. }
  assert (Hlen : length (concat (header_fields t type size (replicate 8 0))) = 512%nat) by (by rewrite length_concat, Hs).
  pose proof (header_sum_range _ Hlen Hb) as Hsum. destruct Hh as [Hr _].
  erewrite st_bind_ok by (apply calculate_chksum_ok; [apply holds_write; [lia|rewrite Hlen; lia]|done|done]).
  destruct (print_octal _ 6 (replicate 8 0) 7 (str "%07o") (header_sum (concat (header_fields t type size (replicate 8 0)))) Hs eq_refl eq_refl)
    as [E _]; [in_literals|done|lia|change (8 ^ Z.of_nat 7) with 2097152; lia|lia|]. by erewrite st_bind_ok by exact E.
Qed.
End compose.
End literals.
