(* ===== verification/UstarTheorems.v ===== *)
(** * Theorems on tar headers *)

From Stdlib Require Import String.
From S2P Require Import Prelude Bitmap Memory CString CStdlib Stdio StdioSpec Ustar UstarSpec.

Local Open Scope Z_scope.

(** ** What ustar_parse_header computes from the bytes of a header *)

Fixpoint octal_result (l : list Z) (ofs v : Z) : bool * Z :=
  match l with
  | [] => (false, v)
  | b :: l =>
      if decide (48 ≤ char b ∧ char b ≤ 55) then
        if decide (ULONG_MAX / 8 < v) then (false, v) else octal_result l (ofs + 1) (u32 (char b - 48 + v * 8))
      else if decide (char b = 32 ∨ char b = 0) then (bool_decide (0 < ofs), v)
      else (false, v)
  end.

Definition byte (h : list Z) (i : Z) : Z := default 0 (h !! Z.to_nat i).
Definition bytes_at (h : list Z) (i n : nat) : list Z := take n (drop i h).

(** The checks behind the checksum, and all of them. *)
Definition entry_spec (h : list Z) : parse_error + Z * Z :=
  if decide (byte h 99 ≠ 0 ∨ byte h 345 ≠ 0) then inl NameTooLong else
  if decide (byte h 156 ≠ USTAR_REGULAR ∧ byte h 156 ≠ USTAR_DIRECTORY) then inl UnimplementedType else
  let size := if decide (byte h 156 = USTAR_REGULAR) then octal_result (bytes_at h 124 12) 0 0 else (true, 0) in
  if negb size.1 then inl CorruptSize else
  if decide (INT_MAX < size.2) then inl FileTooLarge else inr (byte h 156, size.2).

Definition parse_spec (h : list Z) : parse_error + Z * Z :=
  if decide (bytes_at h 257 6 ≠ str "ustar" ++ [0]) then inl NotUstar else
  if decide (byte h 263 ≠ 48 ∨ byte h 264 ≠ 48) then inl InvalidVersion else
  let chksum := octal_result (bytes_at h 148 8) 0 0 in
  if negb chksum.1 then inl CorruptChksum else
  if decide (chksum.2 ≠ header_sum h) then inl ChecksumMismatch else entry_spec h.

(** The name field up to its first null byte. *)
Fixpoint until_null (l : list Z) : list Z :=
  match l with [] => [] | b :: l => if decide (b = 0) then [] else b :: until_null l end.

Lemma until_null_split l : 0 ∈ l → ∃ r, l = until_null l ++ 0 :: r.
Proof.
  induction l as [|b l IH]; [by intros ?%elem_of_nil|]. cbn. intros H. case_decide as E; [subst; by exists l|].
  apply elem_of_cons in H as [H|H]; [congruence|]. destruct (IH H) as [r Er]. exists r. cbn. by rewrite <- Er.
Qed.

Section header.
Context (lit : list Z → Z) (m : mem) (p : Z) (h : list Z).
Context (Hl : lits_ok lit m) (Hh : holds m p h) (Hlen : length h = 512%nat) (Hb : Forall (λ b, 0 ≤ b < 256) h).

Lemma bytes_at_holds i n : (i + n ≤ 512)%nat → holds m (p + Z.of_nat i) (bytes_at h i n) ∧ length (bytes_at h i n) = n.
Proof.
  intros Hi. unfold bytes_at. assert (E : h = take i h ++ take n (drop i h) ++ drop n (drop i h)) by (by rewrite !take_drop).
  assert (Li : length (take i h) = i) by (rewrite length_take; lia). rewrite E in Hh. apply holds_app in Hh as [_ H].
  rewrite Li in H. split; [by eapply holds_prefix|]. rewrite length_take, length_drop. lia.
Qed.

Lemma byte_load i : 0 ≤ i < 512 → load (u32 (p + i)) m = Ok (byte h i, m).
Proof.
  intros Hi. pose proof Hh as [Hr _]. rewrite u32_id by (unfold in_u32; lia).
  destruct (lookup_lt_is_Some_2 h (Z.to_nat i)) as [b Eb]; [lia|]. unfold byte. rewrite Eb. apply load_byte_ok.
  replace i with (Z.of_nat (Z.to_nat i)) by lia. by apply (holds_lookup m p h).
Qed.

Lemma octal_loop_result l s ofs v :
  holds m (s + ofs) l → 0 < s → 0 ≤ ofs → octal_loop (length l) s ofs v m = Ok (octal_result l ofs v, m).
Proof.
  revert ofs v. clear. induction l as [|b l IH]; intros ofs v Hm Hs Ho; [done|]. pose proof Hm as [Hr _]. cbn [length octal_loop octal_result] in *.
  rewrite u32_id by (unfold in_u32; lia). erewrite st_bind_ok by (by eapply load_holds). repeat case_decide; try done.
  rewrite IH; [done| |lia|lia]. rewrite Z.add_assoc. by eapply holds_tail.
Qed.

Lemma octal_field_result i n :
  (i + n ≤ 512)%nat → parse_octal_field (u32 (p + Z.of_nat i)) (Z.of_nat n) m = Ok (octal_result (bytes_at h i n) 0 0, m).
Proof.
  intros Hi. destruct (bytes_at_holds i n Hi) as [Hm E]. pose proof Hh as [Hr _]. rewrite u32_id by (unfold in_u32; lia).
  unfold parse_octal_field. rewrite Nat2Z.id. rewrite <- E at 1. apply octal_loop_result; [by rewrite Z.add_0_r|lia|lia].
Qed.

Lemma all_zeros_result l q : holds m q l → is_all_zeros (length l) q m = Ok (bool_decide (Forall (λ b, b = 0) l), m).
Proof.
  clear. revert q. induction l as [|b l IH]; intros q Hq; [done|]. pose proof Hq as [Hr _]. cbn [length is_all_zeros] in *.
  erewrite st_bind_ok by (by eapply load_holds). rewrite u32_id by (unfold in_u32; lia). case_decide as E.
  - rewrite bool_decide_eq_false_2; [done|]. by inversion 1.
  - rewrite IH by (by eapply holds_tail). do 2 f_equal. apply bool_decide_ext. rewrite Forall_cons. split; [|tauto].
    intros ?. split; [lia|done].
Qed.

Lemma name_string : byte h 99 = 0 → cstr m p (until_null (bytes_at h 0 100)).
Proof.
  intros H99. destruct (bytes_at_holds 0 100 ltac:(lia)) as [Hm _]. rewrite Z.add_0_r in Hm.
  destruct (until_null_split (bytes_at h 0 100)) as [r Er].
  { unfold byte in H99. destruct (lookup_lt_is_Some_2 h 99%nat) as [b Eb]; [lia|]. change (Z.to_nat 99) with 99%nat in H99.
    rewrite Eb in H99. cbn in H99. subst b. apply (list_elem_of_lookup_2 _ 99). unfold bytes_at. rewrite drop_0, lookup_take, decide_True by lia. done. }
  set (t := until_null (bytes_at h 0 100)) in *. split.
  - rewrite Er in Hm. change (t ++ 0 :: r) with (t ++ [0] ++ r) in Hm. rewrite app_assoc in Hm. by eapply holds_prefix.
  - assert (Hbt : Forall (λ b, 0 ≤ b < 256) (bytes_at h 0 100)) by (apply Forall_take, Forall_drop, Hb).
    subst t. clear -Hbt. induction Hbt as [|b l Hx _ IH]; cbn; [done|]. case_decide; [done|]. constructor; [lia|done].
Qed.

Definition field_name : list Z := until_null (bytes_at h 0 100).

Lemma parse_entry_ok :
  ∃ q, parse_entry lit p m =
      Ok (match entry_spec h with inl e => Failed e | inr (type, size) => Parsed q type size end, m) ∧
    (byte h 99 = 0 → cstr m q (strip field_name) ∧ (strip field_name = field_name → q = p)).
Proof.
  assert (Hq : ∃ q, byte h 99 = 0 → strip_antisocial_prefixes lit p m = Ok (q, m) ∧ cstr m q (strip field_name) ∧
    (strip field_name = field_name → q = p)).
  { destruct (decide (byte h 99 = 0)) as [E|E]; [|exists 0; done].
    destruct (strip_ok lit m p _ Hl (name_string E)) as (q & Eq & Hq & _ & Hid). by exists q. }
  destruct Hq as [q Hq]. exists q. split; [|intros E; apply Hq in E; tauto].
  unfold parse_entry, entry_spec. cbv zeta. pose proof Hh as [Hr _]. unfold o_name. rewrite Z.add_0_r.
  erewrite st_bind_ok by (apply byte_load; lia).
  assert (Ep : (if decide (byte h 99 ≠ 0) then mret 0 else load (u32 (p + o_prefix))) m =
    Ok (if decide (byte h 99 ≠ 0) then 0 else byte h 345, m)) by (case_decide; [done|apply byte_load; unfold o_prefix; lia]).
  erewrite st_bind_ok by exact Ep. clear Ep.
  destruct (decide (byte h 99 ≠ 0 ∨ byte h 345 ≠ 0)) as [Hn|Hn];
    [rewrite decide_True by (destruct (decide (byte h 99 ≠ 0)); tauto); done|].
  rewrite decide_False by (destruct (decide (byte h 99 ≠ 0)); tauto).
  erewrite st_bind_ok by (apply byte_load; unfold o_typeflag; lia). change o_typeflag with 156.
  destruct (decide (byte h 156 ≠ USTAR_REGULAR ∧ byte h 156 ≠ USTAR_DIRECTORY)); [done|].
  set (sz := if decide (byte h 156 = USTAR_REGULAR) then octal_result (bytes_at h 124 12) 0 0 else (true, 0)).
  assert (Es : (if decide (byte h 156 = USTAR_REGULAR) then parse_octal_field (u32 (p + o_size)) 12 else mret (true, 0)) m = Ok (sz, m)).
  { unfold sz. case_decide; [|done]. apply (octal_field_result 124 12). lia. }
  erewrite st_bind_ok by exact Es. destruct (negb sz.1); [done|]. destruct (decide (INT_MAX < sz.2)); [done|].
  destruct (Hq ltac:(lia)) as [Eq _]. rewrite u32_id by (unfold in_u32; lia). by erewrite st_bind_ok by exact Eq.
Qed.

(** ustar_parse_header computes [parse_spec] and the stripped name. *)
Lemma parse_refines :
  ∃ q, ustar_parse_header lit p m =
      Ok (if decide (Forall (λ b, b = 0) h) then Parsed NULL USTAR_EOF 0
          else match parse_spec h with inl e => Failed e | inr (type, size) => Parsed q type size end, m) ∧
    (byte h 99 = 0 → cstr m q (strip field_name) ∧ (strip field_name = field_name → q = p)).
Proof.
  destruct parse_entry_ok as (q & Eq & Hq). exists q. split; [|done].
  unfold ustar_parse_header, parse_spec. pose proof Hh as [Hr _].
  pose proof (all_zeros_result h p Hh) as Ez. rewrite Hlen in Ez. change (Z.to_nat USTAR_HEADER_SIZE) with 512%nat.
  erewrite st_bind_ok by exact Ez. destruct (decide (Forall (λ b, b = 0) h)) as [Hz|Hz]; [by rewrite bool_decide_eq_true_2|].
  rewrite bool_decide_eq_false_2 by done.
  destruct (bytes_at_holds 257 6 ltac:(lia)) as [Hm6 L6]. destruct (lits_lookup lit m (str "ustar") Hl) as [Hu _]; [in_literals|].
  assert (Em := memcmp_ok m _ _ _ _ Hm6 Hu L6). rewrite L6 in Em. change (Z.of_nat 6) with 6 in Em. change (Z.of_nat 257) with o_magic in Em.
  rewrite (u32_id (p + o_magic)) by (unfold in_u32, o_magic; lia). erewrite st_bind_ok by exact Em.
  pose proof (lex_zero (bytes_at h 257 6) (str "ustar" ++ [0]) L6) as Hlex.
  destruct (decide (bytes_at h 257 6 ≠ str "ustar" ++ [0])) as [Hmag|Hmag]; [rewrite decide_True by tauto; done|].
  rewrite decide_False by tauto.
  erewrite st_bind_ok by (apply byte_load; unfold o_version; lia). change o_version with 263.
  rewrite <- Z.add_assoc. change (263 + 1) with 264.
  assert (Ev : (if decide (byte h 263 ≠ 48) then mret (byte h 263) else load (u32 (p + 264))) m =
    Ok (if decide (byte h 263 ≠ 48) then byte h 263 else byte h 264, m)) by (case_decide; [done|apply byte_load; lia]).
  erewrite st_bind_ok by exact Ev. clear Ev.
  destruct (decide (byte h 263 ≠ 48 ∨ byte h 264 ≠ 48)) as [Hv|Hv]; [rewrite decide_True by (destruct (decide (byte h 263 ≠ 48)); tauto); done|].
  rewrite decide_False by (destruct (decide (byte h 263 ≠ 48)); tauto).
  erewrite st_bind_ok by (apply (octal_field_result 148 8); lia).
  destruct (octal_result (bytes_at h 148 8) 0 0) as [[] chk]; [|done]. cbn [negb fst snd].
  erewrite st_bind_ok by (by apply calculate_chksum_ok). by destruct (decide (chk ≠ header_sum h)).
Qed.
End header.

(** ** The header that ustar_make_header composes *)

Lemma octal_result_ok ds ofs v :
  Forall is_octal ds → 0 ≤ v → octal v ds < 2^32 →
  octal_result (ds ++ [0]) ofs v = (bool_decide (0 < ofs + Z.of_nat (length ds)), octal v ds).
Proof.
  intros Hds. revert ofs v. induction Hds as [|d ds Hd Hds IH]; intros ofs v Hv Ho; cbn [app octal_result length].
  - cbn. by rewrite Z.add_0_r.
  - unfold is_octal in Hd. unfold char. rewrite (decide_True (P := d < 128)), decide_True by lia.
    change (octal v (d :: ds)) with (octal (8 * v + (d - 48)) ds) in *.
    pose proof (octal_ge (8 * v + (d - 48)) ds ltac:(lia) Hds). change (ULONG_MAX / 8) with 536870911.
    rewrite decide_False by lia. replace (d - 48 + v * 8) with (8 * v + (d - 48)) by lia. rewrite u32_id by (unfold in_u32; lia).
    rewrite IH by lia. by replace (ofs + 1 + Z.of_nat (length ds)) with (ofs + Z.of_nat (S (length ds))) by lia.
Qed.

Lemma octal_text_result w v :
  (1 ≤ w)%nat → 0 ≤ v < 8 ^ Z.of_nat w → v < 2^32 → octal_result (octal_text (Z.of_nat w) v ++ [0]) 0 0 = (true, v).
Proof.
  intros Hw Hv Hv'. destruct (octal_text_ok w v Hw Hv) as (Hl & Hf & Ho); [lia|].
  rewrite octal_result_ok by (done || lia). rewrite Hl, Ho. by rewrite bool_decide_eq_true_2 by lia.
Qed.

Lemma bytes_at_field fs i f :
  shaped fs → fs !! i = Some f → bytes_at (concat fs) (Z.to_nat (offset i)) (length f) = f.
Proof.
  intros Hs Hi. destruct (shaped_split fs i f Hs Hi) as (E & Ho & _). unfold bytes_at. rewrite E, <- Ho, Nat2Z.id.
  by rewrite drop_app_length, take_app_length.
Qed.

Lemma byte_field fs i f k :
  shaped fs → fs !! i = Some f → 0 ≤ k < Z.of_nat (length f) → byte (concat fs) (offset i + k) = byte f k.
Proof.
  intros Hs Hi Hk. destruct (shaped_split fs i f Hs Hi) as (E & Ho & _). unfold byte. rewrite E, <- Ho.
  rewrite lookup_app_r by lia. rewrite lookup_app_l by lia. do 2 f_equal. lia.
Qed.

(** The checksum does not depend on its own field. *)
Lemma header_sum_chksum fs c c' :
  shaped fs → fs !! 6%nat = Some c → length c' = length c →
  header_sum (concat (<[6%nat := c']> fs)) = header_sum (concat fs).
Proof.
  intros Hs Hi Hl. pose proof (shaped_insert fs 6 c c' Hs Hi Hl) as Hs'. pose proof (lookup_lt_Some _ _ _ Hi).
  destruct (shaped_split fs 6 c Hs Hi) as (E & Ho & Hz & _).
  destruct (shaped_split _ 6 c' Hs' (list_lookup_insert_eq _ _ _ ltac:(done))) as (E' & _).
  rewrite E, E'. rewrite take_insert_ge, drop_insert_lt by lia. change (offset 6) with 148 in Ho. injection Hz as Hz.
  assert (Lp : length (concat (take 6 fs)) = 148%nat) by lia. unfold header_sum.
  rewrite !take_app_le by lia. rewrite !(drop_app_ge (concat (take 6 fs))) by lia. rewrite Lp. change (156 - 148)%nat with 8%nat.
  rewrite !drop_app_ge by lia. by rewrite Hl.
Qed.

Lemma until_null_zeros t n : Forall (λ b, 0 < b < 256) t → (0 < n)%nat → until_null (t ++ replicate n 0) = t.
Proof.
  intros Ht Hn. induction Ht as [|b t Hb _ IH]; cbn [app until_null]; [by destruct n; [lia|]|].
  rewrite decide_False by lia. by rewrite IH.
Qed.

Section composed.
Context (t : list Z) (type size : Z) (Ht : Forall (λ b, 0 < b < 256) t) (Hlt : (length t ≤ 99)%nat).
Context (Hty : type = USTAR_REGULAR ∨ type = USTAR_DIRECTORY).
Let fs : list (list Z) := header_for t type size.

Lemma composed_sum :
  shaped fs ∧ length (concat fs) = 512%nat ∧ Forall (λ b, 0 ≤ b < 256) (concat fs) ∧ 0 ≤ header_sum (concat fs) < 2097152 ∧
  fs = header_fields t type size (octal_text 7 (header_sum (concat fs)) ++ [0]).
Proof using Ht Hlt Hty.
  set (F0 := header_fields t type size (replicate 8 0)). assert (Hs0 : shaped F0) by (apply header_shaped; [lia|done]).
  assert (Hl0 : length (concat F0) = 512%nat) by (by rewrite length_concat, Hs0).
  assert (Hb0 : Forall (λ b, 0 ≤ b < 256) (concat F0)) by (apply header_bytes; [done|done|by repeat constructor]).
  pose proof (header_sum_range _ Hl0 Hb0) as Hsum. set (c := octal_text 7 (header_sum (concat F0)) ++ [0]).
  destruct (octal_text_ok 7 (header_sum (concat F0))) as (Hc & Ho & _); [lia|change (8 ^ Z.of_nat 7) with 2097152; lia|lia|].
  change (Z.of_nat 7) with 7 in *. assert (Hcl : length c = 8%nat) by (unfold c; rewrite length_app, Hc; done).
  assert (Efs : fs = <[6%nat := c]> F0) by done.
  assert (Esum : header_sum (concat fs) = header_sum (concat F0)) by (rewrite Efs; by apply (header_sum_chksum F0 (replicate 8 0))).
  assert (Hs : shaped fs) by (rewrite Efs; by eapply shaped_insert).
  split_and!; [done|by rewrite length_concat, Hs| |rewrite Esum; lia..|by rewrite Esum].
  apply header_bytes; [done|done|]. apply Forall_app. split; [|by repeat constructor]. eapply Forall_impl; [done|]. unfold is_octal. lia.
Qed.

Lemma composed_name : byte (concat fs) 99 = 0 ∧ field_name (concat fs) = t.
Proof using Ht Hlt Hty.
  destruct composed_sum as (Hs & _). assert (H0 : fs !! 0%nat = Some (t ++ replicate (100 - length t) 0)) by done.
  assert (L0 : length (t ++ replicate (100 - length t) 0) = 100%nat) by (rewrite length_app, length_replicate; lia). split.
  - change 99 with (offset 0 + 99). rewrite (byte_field fs 0 _ 99 Hs H0) by lia. unfold byte. rewrite lookup_app_r by lia.
    by rewrite lookup_replicate_2 by lia.
  - unfold field_name. pose proof (bytes_at_field fs 0 _ Hs H0) as E. rewrite L0 in E. change (Z.to_nat (offset 0)) with 0%nat in E.
    rewrite E. apply until_null_zeros; [done|lia].
Qed.

Lemma composed_parse :
  in_s32 size →
  parse_spec (concat fs) = if decide (type = USTAR_REGULAR ∧ size < 0) then inl FileTooLarge
                           else inr (type, if decide (type = USTAR_REGULAR) then size else 0).
Proof using Ht Hlt Hty.
  intros Hsz. destruct composed_sum as (Hs & Hl & Hb & Hsum & Efs). destruct composed_name as [H99 _]. unfold in_s32 in Hsz.
  pose proof (u32_range size) as Hu. unfold in_u32 in Hu. unfold parse_spec, entry_spec.
  rewrite decide_False by (intros H; apply H; apply (bytes_at_field fs 9 (str "ustar" ++ [0]) Hs eq_refl)).
  assert (B263 : byte (concat fs) 263 = byte [48; 48] 0) by (apply (byte_field fs 10 [48; 48] 0 Hs eq_refl); cbn; lia). rewrite B263.
  assert (B264 : byte (concat fs) 264 = byte [48; 48] 1) by (apply (byte_field fs 10 [48; 48] 1 Hs eq_refl); cbn; lia). rewrite B264.
  rewrite decide_False by (intros [H|H]; apply H; done).
  assert (Hc : octal_result (bytes_at (concat fs) 148 8) 0 0 = (true, header_sum (concat fs))).
  { destruct (octal_text_ok 7 (header_sum (concat fs))) as (Lc & _); [lia|change (8 ^ Z.of_nat 7) with 2097152; lia|lia|].
    assert (H6 : fs !! 6%nat = Some (octal_text 7 (header_sum (concat fs)) ++ [0])) by (rewrite Efs at 1; done).
    pose proof (bytes_at_field fs 6 _ Hs H6) as E. rewrite length_app in E. change (Z.of_nat 7) with 7 in Lc. rewrite Lc in E. change (bytes_at (concat fs) 148 8 = octal_text 7 (header_sum (concat fs)) ++ [0]) in E.
    rewrite E. apply (octal_text_result 7); [lia|change (8 ^ Z.of_nat 7) with 2097152; lia|lia]. }
  rewrite Hc. cbn [fst snd negb]. rewrite decide_False by (intros H; by apply H).
  rewrite H99. assert (B345 : byte (concat fs) 345 = byte (replicate 155 0) 0) by (apply (byte_field fs 15 (replicate 155 0) 0 Hs eq_refl); cbn; lia). rewrite B345.
  rewrite decide_False by (intros [H|H]; apply H; done).
  assert (B156 : byte (concat fs) 156 = byte [type] 0) by (apply (byte_field fs 7 [type] 0 Hs eq_refl); cbn; lia). rewrite B156. change (byte [type] 0) with type.
  rewrite decide_False by tauto.
  assert (Hz : octal_result (bytes_at (concat fs) 124 12) 0 0 = (true, u32 size)).
  { destruct (octal_text_ok 11 (u32 size)) as (Lc & _); [lia|change (8 ^ Z.of_nat 11) with 8589934592; lia|lia|].
    pose proof (bytes_at_field fs 4 (octal_text 11 (u32 size) ++ [0]) Hs eq_refl) as E. rewrite length_app in E. change (Z.of_nat 11) with 11 in Lc. rewrite Lc in E.
    change (bytes_at (concat fs) 124 12 = octal_text 11 (u32 size) ++ [0]) in E.
    rewrite E. apply (octal_text_result 11); [lia|change (8 ^ Z.of_nat 11) with 8589934592; lia|lia]. }
  destruct (decide (type = USTAR_REGULAR)) as [->|Hd]; [rewrite Hz|]; cbn [fst snd negb].
  - unfold INT_MAX. destruct (decide (size < 0)) as [Hn|Hn].
    + rewrite !decide_True; [done|by split|unfold u32; dlia].
    + rewrite u32_id by (unfold in_u32; lia). by rewrite !decide_False by lia.
  - rewrite !decide_False; [done|tauto|unfold INT_MAX; lia].
Qed.
End composed.

(** ** Theorems *)

Lemma not_all_zeros h : bytes_at h 257 6 = str "ustar" ++ [0] → ¬ Forall (λ b, b = 0) h.
Proof.
  intros E Hz. assert (Hf : Forall (λ b, b = 0) (bytes_at h 257 6)) by (apply Forall_take, Forall_drop, Hz).
  rewrite E in Hf. by inversion Hf.
Qed.

Lemma spec_magic h x : parse_spec h = inr x → bytes_at h 257 6 = str "ustar" ++ [0] ∧ octal_result (bytes_at h 148 8) 0 0 = (true, header_sum h).
Proof.
  unfold parse_spec. intros H. case_decide as H1; [done|]. case_decide; [done|]. destruct (octal_result (bytes_at h 148 8) 0 0) as [[] c]; [|done].
  cbn [negb fst snd] in H. case_decide as H3; [done|]. split; [|f_equal; lia].
  destruct (decide (bytes_at h 257 6 = str "ustar" ++ [0])); tauto.
Qed.

(** Ustar_make_header fails, without a change, exactly if the name is longer
    than 99 bytes after dangerous prefixes are removed.  Otherwise it writes the
    512 bytes of the header and nothing else, and ustar_parse_header reads from
    them the stripped name, the type and the size: 0 for a directory.  A negative
    size of a regular file is reported as too large.  The name never begins with
    "/", "./" or "../" and is not "..". *)
Theorem ustar_roundtrip lit m h file s type size :
  lits_ok lit m → mapped m h 512 → Forall (λ s, disjoint_blocks h 512 (lit s) (S (length s))) literals →
  cstr m file s → disjoint_blocks h 512 file (S (length s)) → type = USTAR_REGULAR ∨ type = USTAR_DIRECTORY → in_s32 size →
  if decide (99 < length (strip s))%nat then ustar_make_header lit file type size h m = Ok (false, m)
  else ∃ bytes, length bytes = 512%nat ∧ ustar_make_header lit file type size h m = Ok (true, write h bytes m) ∧
    ustar_parse_header lit h (write h bytes m) =
      Ok (if decide (type = USTAR_REGULAR ∧ size < 0) then Failed FileTooLarge
          else Parsed h type (if decide (type = USTAR_REGULAR) then size else 0), write h bytes m) ∧
    cstr (write h bytes m) h (strip s) ∧ sociable (strip s) ∧ strip s ≠ [46; 46].
Proof.
  intros Hl Hm Hd Hf Hfd Hty Hsz. pose proof (make_header_ok lit m h Hl Hm Hd file s type size Hf Hfd Hty) as Emk.
  case_decide as Hlong; [done|]. destruct (strip_sociable s) as (Hsoc & _ & Hdd).
  assert (Hbt : Forall (λ b, 0 < b < 256) (strip s)) by (by destruct (strip_ok lit m file s Hl Hf) as (q & _ & [_ ?] & _)).
  destruct (composed_sum (strip s) type size Hbt ltac:(lia) Hty) as (Hs & Hlen & Hb & _).
  destruct (composed_name (strip s) type size Hbt ltac:(lia) Hty) as [H99 Hname].
  pose proof (composed_parse (strip s) type size Hbt ltac:(lia) Hty Hsz) as Hp.
  set (fs := header_for (strip s) type size) in *. destruct Hm as [Hr Hm].
  assert (Hl' : lits_ok lit (filled_with m h fs)).
  { apply Forall_forall. intros x Hx. apply outside_string; [done|by apply lits_lookup|]. by apply (proj1 (Forall_forall _ _) Hd). }
  assert (Hh : holds (filled_with m h fs) h (concat fs)) by (apply holds_write; lia).
  destruct (parse_refines lit _ h (concat fs) Hl' Hh Hlen Hb) as (q & Eq & Hq). destruct (Hq H99) as [Hqs Hid].
  rewrite Hname, strip_idemp in Hqs, Hid. rewrite (Hid eq_refl) in *.
  exists (concat fs). split_and!; [done|exact Emk| |exact Hqs|done|done].
  rewrite Hp in Eq. rewrite decide_False in Eq; [|apply not_all_zeros, (bytes_at_field fs 9 (str "ustar" ++ [0]) Hs eq_refl)].
  unfold filled_with in Eq. rewrite Eq. by case_decide.
Qed.

(** A memory with the literals from 1000 on, a header at 2000 and the name
    "../a/b" at 4000. *)
Definition demo_lit (s : list Z) : Z :=
  1000 + 16 * Z.of_nat (default 0%nat (fst <$> list_find (s =.) literals)).
Definition demo_archive : mem :=
  write 4000 (str "../a/b" ++ [0]) (write 2000 (replicate 512 255) (foldr (λ s, write (demo_lit s) (s ++ [0])) ∅ literals)).

Lemma ustar_roundtrip_witness :
  ∃ bytes, ustar_make_header demo_lit 4000 USTAR_REGULAR 1234567 2000 demo_archive = Ok (true, write 2000 bytes demo_archive) ∧
    ustar_parse_header demo_lit 2000 (write 2000 bytes demo_archive) = Ok (Parsed 2000 USTAR_REGULAR 1234567, write 2000 bytes demo_archive) ∧
    cstr (write 2000 bytes demo_archive) 2000 (str "a/b").
Proof.
  destruct (ustar_roundtrip demo_lit demo_archive 2000 4000 (str "../a/b") USTAR_REGULAR 1234567) as (bytes & _ & E1 & E2 & E3 & _).
  - compute_hyp.
  - compute_hyp.
  - compute_hyp.
  - compute_hyp.
  - compute_hyp.
  - by left.
  - unfold in_s32. lia.
  - exists bytes. split; [exact E1|split; [exact E2|exact E3]].
Defined.

(** ** Damaged headers *)

Lemma byte_sum_insert l i b x :
  l !! i = Some x → byte_sum (<[i := b]> l) = byte_sum l + b - x.
Proof.
  intros E. pose proof (lookup_lt_Some _ _ _ E). rewrite insert_take_drop by done. rewrite <- (take_drop_middle l i x E) at 3.
  rewrite !byte_sum_app. cbn [byte_sum foldr]. fold (byte_sum (drop (S i) l)). lia.
Qed.

Lemma header_sum_insert h i b x :
  h !! i = Some x → ¬ (148 ≤ i < 156)%nat → (i < 512)%nat → length h = 512%nat → header_sum (<[i := b]> h) = header_sum h + b - x.
Proof.
  intros E Hi Hlt Hl. unfold header_sum. destruct (decide (i < 148)%nat) as [H|H].
  - rewrite take_insert_lt, (drop_insert_lt h) by lia.
    rewrite (byte_sum_insert _ i b x) by (rewrite lookup_take, decide_True by lia; done). lia.
  - rewrite take_insert_ge, drop_insert_ge by lia.
    rewrite (byte_sum_insert _ (i - 156) b x) by (rewrite lookup_drop, <- E; f_equal; lia). lia.
Qed.

Lemma bytes_at_insert h i b j n : ¬ (j ≤ i < j + n)%nat → bytes_at (<[i := b]> h) j n = bytes_at h j n.
Proof.
  intros Hi. apply list_eq. intros k. unfold bytes_at. rewrite !lookup_take, !lookup_drop. case_decide; [|done].
  apply list_lookup_insert_ne. lia.
Qed.

(** Two nonzero bytes cannot both be cleared. *)
Lemma insert_not_zeros h i b : bytes_at h 257 6 = str "ustar" ++ [0] → ¬ Forall (λ b, b = 0) (<[i := b]> h).
Proof.
  intros E Hz. assert (H1 : bytes_at h 257 6 !! 0%nat = Some 117) by (by rewrite E).
  assert (H2 : bytes_at h 257 6 !! 1%nat = Some 115) by (by rewrite E). unfold bytes_at in H1, H2.
  rewrite lookup_take, lookup_drop in H1, H2. cbn [decide] in *. change (257 + 0)%nat with 257%nat in H1. change (257 + 1)%nat with 258%nat in H2.
  destruct (decide (i = 257%nat)) as [->|Hne].
  - assert (H3 : <[257%nat := b]> h !! 258%nat = Some 115) by (by rewrite list_lookup_insert_ne).
    by apply (Forall_lookup_1 _ _ _ _ Hz) in H3.
  - assert (H3 : <[i := b]> h !! 257%nat = Some 117) by (by rewrite list_lookup_insert_ne).
    by apply (Forall_lookup_1 _ _ _ _ Hz) in H3.
Qed.

(** A header that is accepted is rejected after any change of one byte
    outside the checksum field: the sum of the bytes differs by less than 256
    and the stored checksum is the same. *)
Theorem damage_detected lit m m' p h i b x q type size :
  lits_ok lit m → lits_ok lit m' → holds m p h → holds m' p (<[i := b]> h) → length h = 512%nat → Forall (λ b, 0 ≤ b < 256) h →
  0 ≤ b < 256 → h !! i = Some x → b ≠ x → ¬ (148 ≤ i < 156)%nat → type ≠ USTAR_EOF →
  ustar_parse_header lit p m = Ok (Parsed q type size, m) →
  ∃ e, ustar_parse_header lit p m' = Ok (Failed e, m').
Proof.
  intros Hl Hl' Hh Hh' Hlen Hb Hbb Ei Hne Hi Hty E. pose proof (lookup_lt_Some _ _ _ Ei) as Hlt.
  destruct (parse_refines lit m p h Hl Hh Hlen Hb) as (q1 & E1 & _).
  assert (Hb' : Forall (λ b, 0 ≤ b < 256) (<[i := b]> h)) by (by apply Forall_insert).
  destruct (parse_refines lit m' p _ Hl' Hh' ltac:(by rewrite length_insert) Hb') as (q2 & E2 & _).
  rewrite E in E1. destruct (decide (Forall (λ b, b = 0) h)); [exfalso; congruence|].
  destruct (parse_spec h) as [e|[ty sz]] eqn:Es; [discriminate E1|].
  destruct (spec_magic h _ Es) as [Hmag Hoct]. rewrite decide_False in E2 by (by apply insert_not_zeros).
  destruct (parse_spec (<[i := b]> h)) as [e|y] eqn:Es'; [by exists e|]. exfalso.
  destruct (spec_magic _ _ Es') as [_ Hoct']. rewrite bytes_at_insert, Hoct in Hoct' by lia. injection Hoct' as Hs.
  rewrite (header_sum_insert h i b x) in Hs by (done || lia). lia.
Qed.

(** The archive with its header, and with the size field damaged. *)
Definition demo_header_bytes : list Z := concat (header_for (str "a/b") USTAR_REGULAR 1234567).

Lemma demo_parsed :
  ustar_parse_header demo_lit 2000 (write 2000 demo_header_bytes demo_archive) =
    Ok (Parsed 2000 USTAR_REGULAR 1234567, write 2000 demo_header_bytes demo_archive).
Proof.
  set (m := write 2000 demo_header_bytes demo_archive).
  destruct (parse_refines demo_lit m 2000 demo_header_bytes) as (q & E & _); [compute_hyp..|].
  assert (H : match ustar_parse_header demo_lit 2000 m with Ok (r, _) => r | Err _ => Failed NotUstar end =
    Parsed 2000 USTAR_REGULAR 1234567) by (vm_compute; reflexivity).
  rewrite E in H. by rewrite H in E.
Qed.

Lemma damage_detected_witness :
  ∃ e, ustar_parse_header demo_lit 2000 (write 2000 (<[130%nat := 55]> demo_header_bytes) demo_archive) =
    Ok (Failed e, write 2000 (<[130%nat := 55]> demo_header_bytes) demo_archive).
Proof.
  apply (damage_detected demo_lit (write 2000 demo_header_bytes demo_archive) _ 2000 demo_header_bytes 130 55 53 2000 USTAR_REGULAR 1234567).
  - compute_hyp.
  - compute_hyp.
  - compute_hyp.
  - compute_hyp.
  - reflexivity.
  - compute_hyp.
  - lia.
  - vm_compute. reflexivity.
  - lia.
  - lia.
  - discriminate.
  - exact demo_parsed.
Defined.
