(* ===== verification/Block.v ===== *)
(** * devices/block.c: the registry of block devices

    Block devices in probe order, the device of each role, and reads and writes
    through a device's driver.  A driver is a disk, whose sectors are part of
    the state, or a partition (devices/partition.c) of another block device.
    Sectors are lists of 512 bytes; [room] is the number of allocations for
    which memory is left.  Console output is left out. *)

From Stdlib Require Import String.
From S2P Require Import Prelude Bitmap Inode Memory CString CStdlib Stdio StdioSpec Ustar.

Local Open Scope Z_scope.

(** enum block_type; the first four are the roles. *)
Inductive block_type := BLOCK_KERNEL | BLOCK_FILESYS | BLOCK_SCRATCH | BLOCK_SWAP | BLOCK_RAW | BLOCK_FOREIGN.

#[export] Instance block_type_eq_dec : EqDecision block_type.
Proof. solve_decision. Defined.

Definition is_role (t : block_type) : bool := match t with BLOCK_RAW | BLOCK_FOREIGN => false | _ => true end.

Definition block_type_name (t : block_type) : list Z :=
  match t with
  | BLOCK_KERNEL => str "kernel"
  | BLOCK_FILESYS => str "filesys"
  | BLOCK_SCRATCH => str "scratch"
  | BLOCK_SWAP => str "swap"
  | BLOCK_RAW => str "raw"
  | BLOCK_FOREIGN => str "foreign"
  end.

(** [ops] and [aux] of a device: a disk, or struct partition. *)
Inductive driver := Disk (disk : Z) | Partition (block start : Z).

Record block := Block {
  name : list Z;
  type : block_type;
  size : Z;
  ops : driver;
  read_cnt : Z;
  write_cnt : Z;
}.

Record blocks := Blocks {
  all_blocks : list Z;                 (** in probe order *)
  block_of : gmap Z block;
  block_by_role : block_type → Z;
  disks : gmap Z (gmap Z (list Z));    (** the sectors of each disk *)
  brk : Z;                             (** the next address that malloc returns *)
  room : nat;
}.

Abbreviation BM := (ST blocks).

Definition get_block (b : Z) : BM block := s ← st_get; st_opt EFault (block_of s !! b).
Definition set_block (b : Z) (x : block) : BM () :=
  st_modify (λ s, Blocks (all_blocks s) (<[b := x]> (block_of s)) (block_by_role s) (disks s) (brk s) (room s)).

(** malloc, for callers that panic without memory, and free. *)
Definition alloc : BM Z :=
  s ← st_get;
  match room s with
  | O => st_fail EPanic
  | S n => st_modify (λ s, Blocks (all_blocks s) (block_of s) (block_by_role s) (disks s) (brk s + 1) n);; mret (brk s)
  end.
Definition dealloc : BM () :=
  st_modify (λ s, Blocks (all_blocks s) (block_of s) (block_by_role s) (disks s) (brk s) (S (room s))).

Definition block_get_role (role : block_type) : BM Z := ASSERT (is_role role);; s ← st_get; mret (block_by_role s role).

Definition block_set_role (role : block_type) (b : Z) : BM () :=
  ASSERT (is_role role);;
  st_modify (λ s, Blocks (all_blocks s) (block_of s)
    (λ r, if decide (r = role) then b else block_by_role s r) (disks s) (brk s) (room s)).

Definition block_first : BM Z := s ← st_get; mret (default NULL (head (all_blocks s))).

(** The device behind [b] in the list. *)
Fixpoint after (b : Z) (l : list Z) : option Z :=
  match l with [] => None | x :: l => if decide (x = b) then head l else after b l end.

Definition block_next (b : Z) : BM Z := s ← st_get; mret (default NULL (after b (all_blocks s))).

Fixpoint name_loop (n : list Z) (l : list Z) : BM Z :=
  match l with
  | [] => mret NULL
  | b :: l => x ← get_block b; if decide (n = name x) then mret b else name_loop n l
  end.

Definition block_get_by_name (n : list Z) : BM Z := s ← st_get; name_loop n (all_blocks s).

Definition block_size (b : Z) : BM Z := x ← get_block b; mret (size x).
Definition block_name (b : Z) : BM (list Z) := x ← get_block b; mret (name x).
Definition block_type_of (b : Z) : BM block_type := x ← get_block b; mret (type x).

Definition check_sector (b sector : Z) : BM () :=
  x ← get_block b; if decide (size x ≤ sector) then st_fail EPanic else mret tt.

(** Sectors of a disk, as its driver reads and writes them. *)
Definition disk_read (d sector : Z) : BM (list Z) :=
  s ← st_get; st_opt EFault (disks s !! d ≫= (.!! sector)).
Definition disk_write (d sector : Z) (buffer : list Z) : BM () :=
  s ← st_get;
  ss ← st_opt EFault (disks s !! d);
  st_modify (λ s, Blocks (all_blocks s) (block_of s) (block_by_role s) (<[d := <[sector := buffer]> ss]> (disks s)) (brk s) (room s)).

(** [fuel] bounds the partitions of partitions: enough is the number of devices. *)
Fixpoint block_read (fuel : nat) (b sector : Z) : BM (list Z) :=
  match fuel with
  | O => st_fail EFuel
  | S fuel =>
      check_sector b sector;;
      x ← get_block b;
      buffer ← match ops x with
               | Disk d => disk_read d sector
               | Partition p start => block_read fuel p (u32 (start + sector))
               end;
      x ← get_block b;
      set_block b (Block (name x) (type x) (size x) (ops x) (u64 (read_cnt x + 1)) (write_cnt x));;
      mret buffer
  end.

Fixpoint block_write (fuel : nat) (b sector : Z) (buffer : list Z) : BM () :=
  match fuel with
  | O => st_fail EFuel
  | S fuel =>
      check_sector b sector;;
      x ← get_block b;
      ASSERT (bool_decide (type x ≠ BLOCK_FOREIGN));;
      match ops x with
      | Disk d => disk_write d sector buffer
      | Partition p start => block_write fuel p (u32 (start + sector)) buffer
      end;;
      x ← get_block b;
      set_block b (Block (name x) (type x) (size x) (ops x) (read_cnt x) (u64 (write_cnt x + 1)))
  end.

Definition block_register (n : list Z) (t : block_type) (sz : Z) (o : driver) : BM Z :=
  new ← alloc;
  st_modify (λ s, Blocks (all_blocks s ++ [new]) (<[new := Block (take 15 n) t sz o 0 0]> (block_of s))
    (block_by_role s) (disks s) (brk s) (room s));;
  mret new.
