(* ===== verification/BlockSpec.v ===== *)
(** * Reads and writes through block devices

    [located s n w b d base] says that device [b] is the part of disk [d] from
    sector [base] on, through [n] devices, and whether it may be written.
    block_read and block_write are proved to read and write exactly the sector
    of the disk behind a sector of the device. *)

From S2P Require Import Prelude Bitmap Inode Memory CString CStdlib Stdio StdioSpec Ustar Block.

Local Open Scope Z_scope.

(** A device without its counters. *)
Definition device (x : block) : list Z * block_type * Z * driver := (name x, type x, size x, ops x).

(** Only counters differ. *)
Record same (s s' : blocks) : Prop := {
  sm_list : all_blocks s' = all_blocks s;
  sm_roles : block_by_role s' = block_by_role s;
  sm_heap : brk s' = brk s ∧ room s' = room s;
  sm_device : ∀ b, device <$> block_of s' !! b = device <$> block_of s !! b;
}.

#[export] Instance same_preorder : PreOrder same.
Proof.
  split; [by split|]. intros s1 s2 s3 [A1 A2 [A3 A4] A5] [B1 B2 [B3 B4] B5]. split; [congruence|congruence|split; congruence|].
  intros b. by rewrite B5, A5.
Qed.

Definition may_write (x : block) : bool := bool_decide (type x ≠ BLOCK_FOREIGN).

Inductive located (s : blocks) : nat → bool → Z → Z → Z → Prop :=
  | located_disk b x d ss :
      block_of s !! b = Some x → ops x = Disk d → disks s !! d = Some ss →
      (∀ i, 0 ≤ i < size x → is_Some (ss !! i)) → size x ≤ 2^32 →
      located s 1 (may_write x) b d 0
  | located_part n w b x p start y d base :
      block_of s !! b = Some x → ops x = Partition p start → block_of s !! p = Some y →
      0 ≤ start → 0 ≤ size x → start + size x ≤ size y → located s n w p d base →
      located s (S n) (may_write x && w) b d (base + start).

Lemma device_lookup s s' b x :
  same s s' → block_of s !! b = Some x →
  ∃ x', block_of s' !! b = Some x' ∧ name x' = name x ∧ type x' = type x ∧ size x' = size x ∧ ops x' = ops x.
Proof.
  intros Hs E. pose proof (sm_device _ _ Hs b) as H. rewrite E in H. destruct (block_of s' !! b) as [x'|]; [|done].
  exists x'. unfold device in H. cbn in H. injection H. done.
Qed.

(** Data of sectors may change, too. *)
Lemma located_same s s' n w b d base :
  same s s' → (∀ e, (λ ss : gmap Z (list Z), dom ss) <$> disks s' !! e = (λ ss : gmap Z (list Z), dom ss) <$> disks s !! e) →
  located s n w b d base → located s' n w b d base.
Proof.
  intros Hs Hd. induction 1 as [b x d ss E Eo Ed Hi Hz|n w b x p start y d base E Eo Ep H0 H1 H2 _ IH].
  - destruct (device_lookup s s' b x Hs E) as (x' & E' & _ & Et & Esz & Eo'). pose proof (Hd d) as Hdd. rewrite Ed in Hdd.
    destruct (disks s' !! d) as [ss'|] eqn:Ed'; [|done]. cbn in Hdd. injection Hdd as Hdd.
    replace (may_write x) with (may_write x') by (unfold may_write; by rewrite Et).
    eapply located_disk; [done|by rewrite Eo'|done| |by rewrite Esz].
    intros i Hix. rewrite Esz in Hix. apply elem_of_dom. rewrite Hdd. apply elem_of_dom. by apply Hi.
  - destruct (device_lookup s s' b x Hs E) as (x' & E' & _ & Et & Esz & Eo').
    destruct (device_lookup s s' p y Hs Ep) as (y' & Ep' & _ & _ & Esy & _).
    replace (may_write x) with (may_write x') by (unfold may_write; by rewrite Et).
    eapply located_part; [done|by rewrite Eo'|done|done|by rewrite Esz|by rewrite Esz, Esy|done].
Qed.

Lemma located_range s n w b d base :
  located s n w b d base →
  ∃ x, block_of s !! b = Some x ∧ 0 ≤ base ∧ base + size x ≤ 2^32 ∧
    ∃ ss, disks s !! d = Some ss ∧ ∀ i, 0 ≤ i < size x → is_Some (ss !! (base + i)).
Proof.
  induction 1 as [b x d ss E Eo Ed Hi Hz|n w b x p start y d base E Eo Ep H0 H1 H2 _ IH].
  - exists x. split_and!; [done|lia|lia|]. exists ss. by split.
  - destruct IH as (y' & Ep' & Hb & Hs & ss & Ed & Hi). assert (y' = y) as -> by congruence. exists x. split_and!; [done|lia|lia|].
    exists ss. split; [done|]. intros i Hx. rewrite <- Z.add_assoc. apply Hi. lia.
Qed.

Lemma check_sector_ok s b x sector :
  block_of s !! b = Some x → sector < size x → check_sector b sector s = Ok ((), s).
Proof.
  intros E H. unfold check_sector, get_block. erewrite st_bind_ok by (change (st_get ≫= ?k) with (λ s, k s s); cbn beta; by rewrite E).
  by rewrite decide_False by lia.
Qed.

Lemma get_block_ok s b x : block_of s !! b = Some x → get_block b s = Ok (x, s).
Proof. intros E. unfold get_block. change (st_get ≫= ?k) with (λ s, k s s). cbn beta. by rewrite E. Qed.

(** Counting an access. *)
Lemma set_block_same s b x x' :
  block_of s !! b = Some x → device x' = device x →
  ∃ s', set_block b x' s = Ok ((), s') ∧ same s s' ∧ disks s' = disks s.
Proof.
  intros E Ed. eexists. split; [done|]. split; [|done]. split; cbn; [done|done|done|].
  intros c. destruct (decide (c = b)) as [->|Hne]; [by rewrite lookup_insert_eq, E; cbn; rewrite Ed|by rewrite lookup_insert_ne].
Qed.

Lemma device_read_ok s n w b d base x sector fuel :
  located s n w b d base → (n ≤ fuel)%nat → block_of s !! b = Some x → 0 ≤ sector < size x →
  ∃ bs s', block_read fuel b sector s = Ok (bs, s') ∧ disks s !! d ≫= (.!! (base + sector)) = Some bs ∧
    same s s' ∧ disks s' = disks s.
Proof.
  intros Hloc. revert x sector fuel. induction Hloc as [b x0 d ss E Eo Ed Hi Hz|n w b x0 p start y d base E Eo Ep H0 H1 H2 Hp IH];
    intros x sector fuel Hf Ex Hs; assert (x0 = x) as -> by congruence; (destruct fuel as [|fuel]; [lia|]); cbn [block_read];
    erewrite st_bind_ok by (apply (check_sector_ok s b x); [done|lia]); erewrite st_bind_ok by (by apply get_block_ok); rewrite Eo.
  - destruct (Hi sector Hs) as [bs Ebs]. exists bs.
    erewrite st_bind_ok; [|unfold disk_read; change (st_get ≫= ?k) with (λ s, k s s); cbn beta; rewrite Ed; cbn; rewrite Ebs; reflexivity].
    erewrite st_bind_ok by (by apply get_block_ok).
    destruct (set_block_same s b x (Block (name x) (type x) (size x) (ops x) (u64 (read_cnt x + 1)) (write_cnt x)) E eq_refl)
      as (s' & Es & Hsm & Hd). erewrite st_bind_ok by exact Es. exists s'. split_and!; [done| |done|done]. rewrite Ed, Z.add_0_l. exact Ebs.
  - destruct (located_range _ _ _ _ _ _ Hp) as (y' & Ep' & Hb & Hy & _). assert (y' = y) as -> by congruence.
    rewrite u32_id by (unfold in_u32; lia).
    destruct (IH y (start + sector) fuel ltac:(lia) Ep ltac:(lia)) as (bs & s1 & E1 & Hbs & Hsm & Hd). erewrite st_bind_ok by exact E1.
    destruct (device_lookup s s1 b x Hsm E) as (x1 & Ex1 & _). erewrite st_bind_ok by (by apply get_block_ok).
    destruct (set_block_same s1 b x1 (Block (name x1) (type x1) (size x1) (ops x1) (u64 (read_cnt x1 + 1)) (write_cnt x1)) Ex1 eq_refl)
      as (s2 & Es & Hsm2 & Hd2). erewrite st_bind_ok by exact Es. exists bs, s2.
    split_and!; [done|by rewrite <- Z.add_assoc|by transitivity s1|by rewrite Hd2].
Qed.

(** A device that may not be written panics; otherwise exactly one sector of the
    disk changes. *)
Lemma device_write_ok s n w b d base x sector buffer fuel :
  located s n w b d base → (n ≤ fuel)%nat → block_of s !! b = Some x → 0 ≤ sector < size x →
  if w then ∃ s' ss, block_write fuel b sector buffer s = Ok ((), s') ∧ disks s !! d = Some ss ∧
    disks s' = <[d := <[base + sector := buffer]> ss]> (disks s) ∧ same s s'
  else block_write fuel b sector buffer s = Err EPanic.
Proof.
  intros Hloc. revert x sector fuel. induction Hloc as [b x0 d ss E Eo Ed Hi Hz|n w b x0 p start y d base E Eo Ep H0 H1 H2 Hp IH];
    intros x sector fuel Hf Ex Hs; assert (x0 = x) as -> by congruence; (destruct fuel as [|fuel]; [lia|]).
  - cbn [block_write]. destruct (may_write x) eqn:Ew.
    2: { erewrite st_bind_ok by (apply (check_sector_ok s b x); [done|lia]). erewrite st_bind_ok by (by apply get_block_ok).
         unfold may_write in Ew. by rewrite Ew. }
    exists (Blocks (all_blocks s) (<[b := Block (name x) (type x) (size x) (ops x) (read_cnt x) (u64 (write_cnt x + 1))]> (block_of s))
      (block_by_role s) (<[d := <[sector := buffer]> ss]> (disks s)) (brk s) (room s)), ss.
    erewrite st_bind_ok by (apply (check_sector_ok s b x); [done|lia]). erewrite st_bind_ok by (by apply get_block_ok).
    erewrite st_bind_ok by (by apply assert_ok). rewrite Eo.
    erewrite st_bind_ok; [|unfold disk_write; change (st_get ≫= ?k) with (λ s, k s s); cbn beta; rewrite Ed; reflexivity].
    erewrite st_bind_ok by (by apply get_block_ok). rewrite Z.add_0_l, Eo. split_and!; [done|done|done|]. split; cbn; [done..|].
    intros c. destruct (decide (c = b)) as [->|Hne]; [rewrite lookup_insert_eq, E; unfold device; cbn; by rewrite Eo|by rewrite lookup_insert_ne].
  - destruct (located_range _ _ _ _ _ _ Hp) as (y' & Ep' & Hb & Hy & _). assert (y' = y) as -> by congruence.
    specialize (IH y (start + sector) fuel ltac:(lia) Ep ltac:(lia)).
    destruct (may_write x) eqn:Ew; cbn [andb].
    2: { cbn [block_write]. erewrite st_bind_ok by (apply (check_sector_ok s b x); [done|lia]). erewrite st_bind_ok by (by apply get_block_ok).
         unfold may_write in Ew. by rewrite Ew. }
    assert (Hgo : block_write (S fuel) b sector buffer s = (block_write fuel p (start + sector) buffer;;
       x ← get_block b; set_block b (Block (name x) (type x) (size x) (ops x) (read_cnt x) (u64 (write_cnt x + 1)))) s).
    { cbn [block_write]. erewrite st_bind_ok by (apply (check_sector_ok s b x); [done|lia]). erewrite st_bind_ok by (by apply get_block_ok).
      erewrite st_bind_ok by (by apply assert_ok). by rewrite Eo, u32_id by (unfold in_u32; lia). }
    rewrite Hgo. clear Hgo.
    destruct w.
    + destruct IH as (s1 & ss & E1 & Ed & Hd & Hsm). destruct (device_lookup s s1 b x Hsm E) as (x1 & Ex1 & _).
      destruct (set_block_same s1 b x1 (Block (name x1) (type x1) (size x1) (ops x1) (read_cnt x1) (u64 (write_cnt x1 + 1))) Ex1 eq_refl)
        as (s2 & Es & Hsm2 & Hd2). exists s2, ss.
      split_and!; [|done|by rewrite Hd2, Hd, <- Z.add_assoc|by transitivity s1].
      erewrite st_bind_ok by exact E1. by erewrite st_bind_ok by (by apply get_block_ok).
    + unfold mbind at 1, ST_bind at 1. by rewrite IH.
Qed.

(** Writing keeps every device where it is. *)
Lemma located_write s s' n w b d base e ss i buffer :
  located s n w b d base → same s s' → disks s !! e = Some ss → is_Some (ss !! i) →
  disks s' = <[e := <[i := buffer]> ss]> (disks s) → located s' n w b d base.
Proof.
  intros Hl Hs Ee Hi Ed. apply (located_same s); [done| |done]. intros c. rewrite Ed.
  destruct (decide (c = e)) as [->|Hne]; [|by rewrite lookup_insert_ne].
  rewrite lookup_insert_eq, Ee. cbn. f_equal. rewrite dom_insert_L. apply elem_of_dom in Hi. set_solver.
Qed.
