(* ===== verification/Partition.v ===== *)
(** * devices/partition.c: partitions of a disk

    The partition table of a device is read and each partition in range is
    registered as a block device of its own (Block.v).  The format is the one
    of struct partition_table, with four entries of 16 bytes at offset 446.
    Console output is left out, so partition_type_name only names types. *)

From Stdlib Require Import String.
From S2P Require Import Prelude Bitmap Inode Memory CString CStdlib Stdio StdioSpec Ustar Block BlockSpec.

Local Open Scope Z_scope.

(** struct partition_table_entry: type, offset, size. *)
Record entry := Entry { e_type : Z; e_offset : Z; e_size : Z }.

Definition table_entry (pt : list Z) (i : Z) : entry :=
  let e := slice (446 + 16 * i) 16 pt in
  Entry (le_word (slice 4 1 e)) (le_word (slice 8 4 e)) (le_word (slice 12 4 e)).

Definition signature (pt : list Z) : Z := le_word (slice 510 2 pt).

Definition is_extended (t : Z) : bool := bool_decide (t = 5 ∨ t = 15 ∨ t = 133 ∨ t = 197).

Definition type_names : list (Z * string) :=
  [(0, "Empty"); (1, "FAT12"); (2, "XENIX root"); (3, "XENIX usr"); (4, "FAT16 <32M"); (5, "Extended");
   (6, "FAT16"); (7, "HPFS/NTFS"); (8, "AIX"); (9, "AIX bootable"); (10, "OS/2 Boot Manager");
   (11, "W95 FAT32"); (12, "W95 FAT32 (LBA)"); (14, "W95 FAT16 (LBA)"); (15, "W95 Ext'd (LBA)");
   (16, "OPUS"); (17, "Hidden FAT12"); (18, "Compaq diagnostics"); (20, "Hidden FAT16 <32M");
   (22, "Hidden FAT16"); (23, "Hidden HPFS/NTFS"); (24, "AST SmartSleep"); (27, "Hidden W95 FAT32");
   (28, "Hidden W95 FAT32 (LBA)"); (30, "Hidden W95 FAT16 (LBA)"); (32, "Pintos OS kernel");
   (33, "Pintos file system"); (34, "Pintos scratch"); (35, "Pintos swap"); (36, "NEC DOS"); (57, "Plan 9");
   (60, "PartitionMagic recovery"); (64, "Venix 80286"); (65, "PPC PReP Boot"); (66, "SFS"); (77, "QNX4.x");
   (78, "QNX4.x 2nd part"); (79, "QNX4.x 3rd part"); (80, "OnTrack DM"); (81, "OnTrack DM6 Aux1");
   (82, "CP/M"); (83, "OnTrack DM6 Aux3"); (84, "OnTrackDM6"); (85, "EZ-Drive"); (86, "Golden Bow");
   (92, "Priam Edisk"); (97, "SpeedStor"); (99, "GNU HURD or SysV"); (100, "Novell Netware 286");
   (101, "Novell Netware 386"); (112, "DiskSecure Multi-Boot"); (117, "PC/IX"); (128, "Old Minix");
   (129, "Minix / old Linux"); (130, "Linux swap / Solaris"); (131, "Linux"); (132, "OS/2 hidden C: drive");
   (133, "Linux extended"); (134, "NTFS volume set"); (135, "NTFS volume set"); (136, "Linux plaintext");
   (142, "Linux LVM"); (147, "Amoeba"); (148, "Amoeba BBT"); (159, "BSD/OS");
   (160, "IBM Thinkpad hibernation"); (165, "FreeBSD"); (166, "OpenBSD"); (167, "NeXTSTEP");
   (168, "Darwin UFS"); (169, "NetBSD"); (171, "Darwin boot"); (183, "BSDI fs"); (184, "BSDI swap");
   (187, "Boot Wizard hidden"); (190, "Solaris boot"); (191, "Solaris"); (193, "DRDOS/sec (FAT-12)");
   (196, "DRDOS/sec (FAT-16 < 32M)"); (198, "DRDOS/sec (FAT-16)"); (199, "Syrinx"); (218, "Non-FS data");
   (219, "CP/M / CTOS / ..."); (222, "Dell Utility"); (223, "BootIt"); (225, "DOS access"); (227, "DOS R/O");
   (228, "SpeedStor"); (235, "BeOS fs"); (238, "EFI GPT"); (239, "EFI (FAT-12/16/32)");
   (240, "Linux/PA-RISC boot"); (241, "SpeedStor"); (244, "SpeedStor"); (242, "DOS secondary");
   (253, "Linux raid autodetect"); (254, "LANstep"); (255, "BBT")].

Definition partition_type_name (t : Z) : list Z :=
  match list_find (λ x, x.1 = t) type_names with Some (_, (_, n)) => str n | None => str "Unknown" end.

Definition type_of_partition (t : Z) : block_type :=
  if decide (t = 32) then BLOCK_KERNEL else if decide (t = 33) then BLOCK_FILESYS
  else if decide (t = 34) then BLOCK_SCRATCH else if decide (t = 35) then BLOCK_SWAP else BLOCK_FOREIGN.

(** What snprintf stores of "%s%d" in a buffer of 16 bytes. *)
Definition partition_name (n : list Z) (part_nr : Z) : list Z :=
  take 15 (concat (text_of <$> [Conv Right 0 (Str NULL n); Conv Right 0 (Dec part_nr)])).

Definition found_partition (b part_type start sz part_nr : Z) : BM () :=
  bsize ← block_size b;
  if decide (bsize ≤ start) then mret tt else
  if decide (u32 (start + sz) < start ∨ bsize < u32 (start + sz)) then mret tt else
  _ ← alloc;
  n ← block_name b;
  _ ← block_register (partition_name n part_nr) (type_of_partition part_type) sz (Partition b start);
  mret tt.

(** The entries [idx] of the table [pt] in [sector]; [rec] reads another table. *)
Fixpoint entry_loop (rec : Z → Z → Z → BM Z) (b : Z) (pt : list Z) (sector primary : Z) (idx : list Z) (part_nr : Z) : BM Z :=
  match idx with
  | [] => mret part_nr
  | i :: idx =>
      let e := table_entry pt i in
      part_nr ← (if decide (e_size e = 0 ∨ e_type e = 0) then mret part_nr
                 else if is_extended (e_type e) then
                   if decide (sector = 0) then rec (e_offset e) (e_offset e) part_nr
                   else rec (u32 (e_offset e + primary)) primary part_nr
                 else
                   found_partition b (e_type e) (u32 (e_offset e + sector)) (e_size e) (s32 (part_nr + 1));;
                   mret (s32 (part_nr + 1)));
      entry_loop rec b pt sector primary idx part_nr
  end.

(** The source reads sector 0, whatever [sector] is.  [fuel] bounds the nested
    tables; the result is the number of partitions. *)
Fixpoint read_partition_table (fuel : nat) (b sector primary part_nr : Z) : BM Z :=
  match fuel with
  | O => st_fail EFuel
  | S fuel =>
      bsize ← block_size b;
      if decide (bsize ≤ sector) then mret part_nr else
      _ ← alloc;
      s ← st_get;
      pt ← block_read (S (base.size (block_of s))) b 0;
      if decide (signature pt ≠ 43605) then dealloc;; mret part_nr else
      part_nr ← entry_loop (read_partition_table fuel b) b pt sector primary [0; 1; 2; 3] part_nr;
      dealloc;;
      mret part_nr
  end.

Definition partition_scan (fuel : nat) (b : Z) : BM () := _ ← read_partition_table fuel b 0 0 0; mret tt.

(** * Theorems *)

(** ** Isolation *)

(** C24: two block devices that cover different sectors of the disks, at any depth
    of partitions of partitions, do not interfere.  A write to a sector within
    the first one succeeds, is read back from it, and changes nothing that is
    read from the second one. *)
Theorem devices_isolated s n1 n2 w2 b1 b2 d1 d2 base1 base2 x1 x2 i j buffer fuel :
  located s n1 true b1 d1 base1 → located s n2 w2 b2 d2 base2 →
  block_of s !! b1 = Some x1 → block_of s !! b2 = Some x2 →
  d1 ≠ d2 ∨ base1 + size x1 ≤ base2 ∨ base2 + size x2 ≤ base1 →
  0 ≤ i < size x1 → 0 ≤ j < size x2 → (n1 ≤ fuel)%nat → (n2 ≤ fuel)%nat →
  ∃ s' s1 s2 s3 bs, block_write fuel b1 i buffer s = Ok ((), s') ∧ block_read fuel b1 i s' = Ok (buffer, s1) ∧
    block_read fuel b2 j s = Ok (bs, s2) ∧ block_read fuel b2 j s' = Ok (bs, s3).
Proof.
  intros H1 H2 E1 E2 Hd Hi Hj Hf1 Hf2.
  destruct (device_write_ok s n1 true b1 d1 base1 x1 i buffer fuel H1 Hf1 E1 Hi) as (s' & ss & Ew & Ed & Ed' & Hs).
  destruct (located_range _ _ _ _ _ _ H1) as (x & Ex & _ & _ & ss' & Ess & Hsome). assert (x = x1) as -> by congruence.
  assert (ss' = ss) as -> by congruence.
  pose proof (located_write _ _ _ _ _ _ _ _ _ _ _ H1 Hs Ed (Hsome i Hi) Ed') as H1'.
  pose proof (located_write _ _ _ _ _ _ _ _ _ _ _ H2 Hs Ed (Hsome i Hi) Ed') as H2'.
  destruct (device_lookup s s' b1 x1 Hs E1) as (y1 & Ey1 & _ & _ & Sz1 & _).
  destruct (device_lookup s s' b2 x2 Hs E2) as (y2 & Ey2 & _ & _ & Sz2 & _).
  destruct (device_read_ok s' n1 true b1 d1 base1 y1 i fuel H1' Hf1 Ey1) as (bs1 & s1 & Er1 & Hb1 & _); [lia|].
  destruct (device_read_ok s n2 w2 b2 d2 base2 x2 j fuel H2 Hf2 E2 Hj) as (bs2 & s2 & Er2 & Hb2 & _).
  destruct (device_read_ok s' n2 w2 b2 d2 base2 y2 j fuel H2' Hf2 Ey2) as (bs3 & s3 & Er3 & Hb3 & _); [lia|].
  rewrite Ed' in Hb1, Hb3. rewrite lookup_insert_eq in Hb1. cbn in Hb1. rewrite lookup_insert_eq in Hb1.
  assert (bs3 = bs2) as ->.
  { destruct (decide (d2 = d1)) as [->|Hne]; [|rewrite lookup_insert_ne in Hb3 by done; congruence].
    rewrite lookup_insert_eq in Hb3. rewrite Ed in Hb2. cbn in Hb2, Hb3. rewrite lookup_insert_ne in Hb3 by lia. congruence. }
  exists s', s1, s2, s3, bs2. split_and!; [done| |done|done]. rewrite Er1. congruence.
Qed.

(** ** Scanning a partition table *)

(** Addresses that are not in use yet are not below [brk]. *)
Definition fresh (s : blocks) : Prop := ∀ a, is_Some (block_of s !! a) → a < brk s.

(** The list of devices: no address twice, each one of a device. *)
Definition registry (s : blocks) : Prop :=
  0 < brk s ∧ NoDup (all_blocks s) ∧ Forall (λ a, 0 < a < brk s ∧ is_Some (block_of s !! a)) (all_blocks s).

#[export] Instance registry_dec s : Decision (registry s).
Proof. unfold registry. apply _. Defined.

(** The devices in probe order. *)
Definition devices (s : blocks) : list (option (list Z * block_type * Z * driver)) :=
  (λ a, device <$> block_of s !! a) <$> all_blocks s.

(** The device for an entry with its number. *)
Definition partition_device (b : Z) (n : list Z) (p : Z * entry) : list Z * block_type * Z * driver :=
  (take 15 (partition_name n p.1), type_of_partition (e_type p.2), e_size p.2, Partition b (e_offset p.2)).

Definition is_empty (e : entry) : Prop := e_size e = 0 ∨ e_type e = 0.

(** The entries within the device, numbered from [nr + 1]: every entry that is
    not empty takes a number. *)
Fixpoint accepted (bsize : Z) (es : list entry) (nr : Z) : list (Z * entry) :=
  match es with
  | [] => []
  | e :: es =>
      if decide (e_size e = 0 ∨ e_type e = 0) then accepted bsize es nr
      else (if decide (e_offset e + e_size e ≤ bsize) then [(nr + 1, e)] else []) ++ accepted bsize es (nr + 1)
  end.

Record entry_ok (e : entry) : Prop := {
  eo_offset : in_u32 (e_offset e);
  eo_size : in_u32 (e_size e);
}.

(** The state while a device is scanned. *)
Record scanning (s0 s : blocks) (b : Z) (x : block) : Prop := {
  sc_block : device <$> block_of s !! b = Some (device x);
  sc_listed : registry s;
  sc_fresh : fresh s;
  sc_disks : disks s = disks s0;
  sc_old : ∀ a, is_Some (block_of s0 !! a) → device <$> block_of s !! a = device <$> block_of s0 !! a;
}.

Lemma found_partition_ok s0 s b x t start sz nr :
  scanning s0 s b x → size x < 2^32 → in_u32 start → in_u32 sz → sz ≠ 0 → (2 ≤ room s)%nat →
  ∃ s', found_partition b t start sz nr s = Ok ((), s') ∧ scanning s0 s' b x ∧ (room s ≤ 2 + room s')%nat ∧
    devices s' = devices s ++
      (if decide (start + sz ≤ size x) then [Some (partition_device b (name x) (nr, Entry t start sz))] else []).
Proof.
  intros [Hb Hli Hfr Hd Ho] Hx Hst Hsz Hne Hr. unfold in_u32 in *. unfold found_partition.
  destruct (block_of s !! b) as [y|] eqn:Ey; [|done]. unfold device in Hb. cbn in Hb. injection Hb as En Et Es Eo.
  assert (Hsc : scanning s0 s b x) by (split; [rewrite Ey; unfold device; cbn; congruence|done..]).
  erewrite st_bind_ok by (unfold block_size; by erewrite st_bind_ok by (by apply get_block_ok)). rewrite Es.
  destruct (decide (size x ≤ start)) as [Hout|Hin].
  { exists s. split_and!; [done|done|lia|]. rewrite decide_False by lia. by rewrite app_nil_r. }
  destruct (decide (u32 (start + sz) < start ∨ size x < u32 (start + sz))) as [Hout|Hfit].
  { exists s. split_and!; [done|done|lia|]. rewrite decide_False; [by rewrite app_nil_r|]. unfold u32 in Hout. dlia. }
  assert (Hle : start + sz ≤ size x) by (unfold u32 in Hfit; dlia). rewrite decide_True by done.
  destruct (room s) as [|[|rm]] eqn:Erm; [lia..|].
  set (new := Block (take 15 (partition_name (name x) nr)) (type_of_partition t) sz (Partition b start) 0 0).
  exists (Blocks (all_blocks s ++ [brk s + 1]) (<[brk s + 1 := new]> (block_of s)) (block_by_role s) (disks s) (brk s + 1 + 1) rm).
  assert (Hbb : b < brk s) by (apply Hfr; by rewrite Ey). split_and!.
  - unfold alloc at 1. erewrite st_bind_ok by (change (st_get ≫= ?k) with (λ s, k s s); cbn beta; rewrite Erm; reflexivity).
    erewrite st_bind_ok by (unfold block_name; by erewrite st_bind_ok by (by apply get_block_ok)). by rewrite En.
  - split; cbn.
    + rewrite lookup_insert_ne by lia. rewrite Ey. unfold device. cbn. congruence.
    + destruct Hli as (Hk & Hnd & Hli). split_and!; cbn; [lia| |].
      * apply NoDup_app. split_and!; [done| |apply NoDup_singleton]. intros a Ha ->%list_elem_of_singleton.
        apply (proj1 (Forall_forall _ _) Hli) in Ha. lia.
      * apply Forall_app. split; [|constructor; [|done]; split; [lia|by rewrite lookup_insert_eq]].
        eapply Forall_impl; [done|]. cbn. intros a [Ha Hs]. split; [lia|]. by rewrite lookup_insert_ne by lia.
    + intros a. destruct (decide (a = brk s + 1)) as [->|Ha]; [intros _; cbn; lia|]. cbn. rewrite lookup_insert_ne by done.
      intros H%Hfr. lia.
    + done.
    + intros a Ha. rewrite lookup_insert_ne; [by apply Ho|]. pose proof (Ho a Ha) as E. intros <-.
      assert (is_Some (block_of s !! (brk s + 1))) as H%Hfr; [|lia].
      destruct (block_of s !! (brk s + 1)); [done|]. destruct Ha as [z Hz]. by rewrite Hz in E.
  - cbn. lia.
  - unfold devices. cbn. rewrite fmap_app. cbn. rewrite lookup_insert_eq. f_equal. apply list_fmap_ext. intros k a Ha.
    rewrite lookup_insert_ne; [done|]. destruct Hli as (_ & _ & Hli). apply (Forall_lookup_1 _ _ _ _ Hli) in Ha. lia.
Qed.

(** The entries of a table in sector 0 without extended partitions. *)
Lemma entry_loop_ok s0 rec b x pt idx nr s :
  scanning s0 s b x → size x < 2^32 → Forall (λ i, entry_ok (table_entry pt i) ∧ is_extended (e_type (table_entry pt i)) = false) idx →
  0 ≤ nr → nr + Z.of_nat (length idx) < 2^31 → (2 * length idx ≤ room s)%nat →
  ∃ nr' s', entry_loop rec b pt 0 0 idx nr s = Ok (nr', s') ∧ scanning s0 s' b x ∧
    devices s' = devices s ++ ((λ p, Some (partition_device b (name x) p)) <$> accepted (size x) (table_entry pt <$> idx) nr).
Proof.
  intros Hs Hx Hi. revert nr s Hs. induction Hi as [|i idx [[He1 He2] Hext] Hi IH]; intros nr s Hs Hn Hn2 Hr.
  { exists nr, s. split_and!; [done|done|]. cbn. by rewrite app_nil_r. }
  cbn [entry_loop fmap list_fmap accepted length] in *. destruct (decide (e_size (table_entry pt i) = 0 ∨ _)) as [Hemp|Hemp].
  { erewrite st_bind_ok by done. apply IH; [done|lia..]. }
  rewrite Hext, Z.add_0_r, u32_id, s32_id by (done || (unfold in_s32; lia)).
  destruct (found_partition_ok s0 s b x (e_type (table_entry pt i)) (e_offset (table_entry pt i)) (e_size (table_entry pt i)) (nr + 1) Hs Hx)
    as (s1 & E1 & Hs1 & Hr1 & Hd1); [done|done|tauto|lia|].
  erewrite st_bind_ok by (erewrite st_bind_ok by exact E1; reflexivity).
  destruct (IH (nr + 1) s1 Hs1) as (nr' & s' & E & Hs' & Hd); [lia..|]. exists nr', s'. split_and!; [done|done|].
  rewrite Hd, Hd1, <- app_assoc. f_equal. rewrite fmap_app. f_equal. destruct (table_entry pt i). by case_decide.
Qed.

Lemma le_word_bound bs : Forall (λ x, 0 ≤ x < 256) bs → (length bs ≤ 4)%nat → in_u32 (le_word bs).
Proof.
  intros Hb Hl. pose proof (le_word_range bs Hb) as Hr. unfold in_u32. split; [lia|].
  assert (256 ^ Z.of_nat (length bs) ≤ 256 ^ 4) by (apply Z.pow_le_mono_r; lia). change (256 ^ 4) with (2^32) in *. lia.
Qed.

Lemma table_entry_ok pt i : Forall (λ x, 0 ≤ x < 256) pt → entry_ok (table_entry pt i).
Proof.
  intros Hb. assert (Hs : ∀ k n l, Forall (λ x, 0 ≤ x < 256) l → Forall (λ x, 0 ≤ x < 256) (slice k n l)).
  { intros k n l Hl. by apply Forall_take, Forall_drop. }
  split; apply le_word_bound; try (by apply Hs, Hs); unfold slice; rewrite length_take; lia.
Qed.

(** The scanned disk stays where it is. *)
Lemma located_scan s s' w b d x :
  located s 1 w b d 0 → block_of s !! b = Some x → device <$> block_of s' !! b = Some (device x) → disks s' = disks s →
  located s' 1 w b d 0 ∧ ∃ x', block_of s' !! b = Some x' ∧ size x' = size x.
Proof.
  intros Hl Eb Hdev Hd. destruct (block_of s' !! b) as [x'|] eqn:E'; [|done]. unfold device in Hdev. cbn in Hdev. injection Hdev as En Et Es Eo.
  split; [|by exists x']. inversion Hl as [? x0 ? ss H1 H2 H3 H4 H5|? ? ? ? ? ? ? ? ? ? ? ? ? ? ? H]; subst; [|inversion H].
  assert (x0 = x) as -> by congruence. replace (may_write x) with (may_write x') by (unfold may_write; by rewrite Et).
  eapply located_disk; [done|by rewrite Eo|by rewrite Hd| |by rewrite Es]. by rewrite Es.
Qed.

(** Reading the table in sector 0. *)
Lemma read_table s w b x d pt ss :
  located s 1 w b d 0 → block_of s !! b = Some x → disks s !! d = Some ss → ss !! 0 = Some pt → 0 < size x →
  fresh s → registry s → (1 ≤ room s)%nat →
  ∃ s', (∀ A (k : list Z → BM A), (_ ← alloc; s ← st_get; pt ← block_read (S (base.size (block_of s))) b 0; k pt) s = k pt s') ∧
    scanning s s' b x ∧ devices s' = devices s ∧ room s = S (room s').
Proof.
  intros Hl Eb Ed Es Hx Hfr Hli Hr. destruct (room s) as [|rm] eqn:Erm; [lia|].
  set (s1 := Blocks (all_blocks s) (block_of s) (block_by_role s) (disks s) (brk s + 1) rm).
  assert (Hl1 : located s1 1 w b d 0).
  { inversion Hl as [? ? ? ? H1 H2 H3 H4 H5|? ? ? ? ? ? ? ? ? ? ? ? ? ? ? H]; subst; [by eapply located_disk|inversion H]. }
  destruct (device_read_ok s1 1 w b d 0 x 0 (S (base.size (block_of s))) Hl1) as (bs & s2 & E2 & Hbs & Hsm & Hd); [lia|done|lia|].
  change (disks s1) with (disks s) in Hbs. rewrite Ed in Hbs. change (ss !! 0 = Some bs) in Hbs. assert (bs = pt) as -> by congruence. exists s2. split_and!.
  - intros A k. unfold alloc. erewrite st_bind_ok by (change (st_get ≫= ?k) with (λ s, k s s); cbn beta; rewrite Erm; reflexivity).
    fold s1. change (st_get ≫= ?k) with (λ s, k s s). cbn beta. by erewrite st_bind_ok by exact E2.
  - pose proof (sm_heap _ _ Hsm) as [Hbrk _]. cbn in Hbrk. split.
    + rewrite (sm_device _ _ Hsm). cbn. by rewrite Eb.
    + destruct Hli as (Hk & Hnd & Hli). unfold registry. rewrite (sm_list _ _ Hsm), Hbrk. split_and!; [lia|done|].
      eapply Forall_impl; [done|]. cbn. intros a [Ha Hs]. split; [lia|]. pose proof (sm_device _ _ Hsm a) as E. cbn in E.
      destruct Hs as [z Hz]. rewrite Hz in E. by destruct (block_of s2 !! a).
    + intros a Ha. rewrite Hbrk. assert (a < brk s); [|lia]. apply Hfr. pose proof (sm_device _ _ Hsm a) as E. cbn in E.
      destruct Ha as [z Hz]. rewrite Hz in E. destruct (block_of s !! a); [done|discriminate E].
    + done.
    + intros a _. by rewrite (sm_device _ _ Hsm).
  - unfold devices. rewrite (sm_list _ _ Hsm). cbn. apply list_fmap_ext. intros k' a _. by rewrite (sm_device _ _ Hsm).
  - f_equal. symmetry. apply (sm_heap _ _ Hsm).
Qed.

(** The scan of a disk whose partition table has no extended partition. *)
Lemma partition_scan_ok s w b x d pt ss fuel :
  located s 1 w b d 0 → block_of s !! b = Some x → disks s !! d = Some ss → ss !! 0 = Some pt →
  Forall (λ x, 0 ≤ x < 256) pt → 0 < size x < 2^32 → signature pt = 43605 →
  Forall (λ i, is_extended (e_type (table_entry pt i)) = false) [0; 1; 2; 3] →
  fresh s → registry s → (9 ≤ room s)%nat →
  ∃ s', partition_scan (S fuel) b s = Ok ((), s') ∧ disks s' = disks s ∧ registry s' ∧
    devices s' = devices s ++ ((λ p, Some (partition_device b (name x) p)) <$> accepted (size x) (table_entry pt <$> [0; 1; 2; 3]) 0) ∧
    ∀ a y off, block_of s' !! a = Some y → ops y = Partition b off → 0 ≤ off → 0 ≤ size y → off + size y ≤ size x →
      located s' 2 (may_write y && w) a d off.
Proof.
  intros Hl Eb Ed Es Hpt Hx Hsig Hext Hfr Hli Hr.
  destruct (read_table s w b x d pt ss Hl Eb Ed Es) as (s2 & E2 & Hs2 & Hd2 & Hr2); [lia|done|done|lia|].
  unfold partition_scan. cbn [read_partition_table].
  destruct (entry_loop_ok s (read_partition_table fuel b) b x pt [0; 1; 2; 3] 0 s2 Hs2) as (nr & s3 & E3 & Hs3 & Hd3);
    [lia| |lia|cbn; lia|cbn [length]; lia|].
  { eapply Forall_impl; [exact Hext|]. intros i Hi. split; [by apply table_entry_ok|done]. }
  exists (Blocks (all_blocks s3) (block_of s3) (block_by_role s3) (disks s3) (brk s3) (S (room s3))). split_and!.
  - erewrite st_bind_ok; [reflexivity|]. erewrite st_bind_ok by (unfold block_size; by erewrite st_bind_ok by (by apply get_block_ok)).
    rewrite decide_False by lia. rewrite E2. rewrite decide_False by lia. by erewrite st_bind_ok by exact E3.
  - cbn. apply (sc_disks _ _ _ _ Hs3).
  - apply Hs3.
  - unfold devices in *. cbn. by rewrite Hd3, Hd2.
  - intros a y off Ea Eo H0 H1 H2. cbn in Ea. set (s' := Blocks _ _ _ _ _ _).
    destruct (located_scan s s' w b d x Hl Eb) as (Hl' & x' & Ex' & Esz); [apply Hs3|apply Hs3|].
    replace off with (0 + off) by lia. eapply located_part; [exact Ea|done|exact Ex'|done|done|lia|done].
Qed.

(** A disk of 40 sectors: a Pintos kernel at sectors 1 to 10, an empty entry, a
    file system at 20 to 29, and a partition past the end. *)
Definition demo_entry (t off sz : Z) : list Z := [0; 0; 0; 0; t; 0; 0; 0] ++ le_bytes 4 off ++ le_bytes 4 sz.
Definition demo_table : list Z :=
  replicate 446 0 ++ demo_entry 32 1 10 ++ demo_entry 0 0 0 ++ demo_entry 33 20 10 ++ demo_entry 131 30 20 ++ [85; 170].
Definition demo_sectors : gmap Z (list Z) := list_to_map ((λ i, (i, demo_table)) <$> seqZ 0 40).
Definition demo_disk : block := Block (str "hda") BLOCK_RAW 40 (Disk 7) 0 0.
Definition demo_blocks : blocks := Blocks [100] {[100 := demo_disk]} (λ _, NULL) {[7 := demo_sectors]} 101 20.

Lemma demo_sectors_some i : 0 ≤ i < 40 → is_Some (demo_sectors !! i).
Proof.
  intros Hi. assert (H : Forall (λ i, is_Some (demo_sectors !! i)) (seqZ 0 40)) by compute_hyp.
  apply (proj1 (Forall_forall _ _) H), elem_of_seqZ. lia.
Qed.

Lemma demo_located : located demo_blocks 1 true 100 7 0.
Proof.
  apply (located_disk demo_blocks 100 demo_disk 7 demo_sectors); [reflexivity..|exact demo_sectors_some|cbn; lia].
Qed.

(** The disk with the two partitions. *)
Definition demo_part (n : string) (t : block_type) (start : Z) : block := Block (str n) t 10 (Partition 100 start) 0 0.
Definition demo_two : blocks :=
  Blocks [100; 101; 102] {[100 := demo_disk; 101 := demo_part "hda1" BLOCK_KERNEL 1; 102 := demo_part "hda2" BLOCK_FILESYS 20]}
    (λ _, NULL) {[7 := demo_sectors]} 103 20.

Lemma demo_two_located b n t start :
  block_of demo_two !! b = Some (demo_part n t start) → 0 ≤ start → start + 10 ≤ 40 → t ≠ BLOCK_FOREIGN →
  located demo_two 2 true b 7 (0 + start).
Proof.
  intros E H0 H1 Ht. replace true with (may_write (demo_part n t start) && true) by (unfold may_write; by rewrite bool_decide_eq_true_2).
  apply (located_part demo_two 1 true b (demo_part n t start) 100 start demo_disk 7 0); [exact E|reflexivity|reflexivity|lia|cbn; lia|cbn; lia|].
  apply (located_disk demo_two 100 demo_disk 7 demo_sectors); [reflexivity..|exact demo_sectors_some|cbn; lia].
Qed.

Lemma devices_isolated_witness :
  ∃ s' s1 s2 s3 bs, block_write 3 101 5 [1; 2] demo_two = Ok ((), s') ∧ block_read 3 101 5 s' = Ok ([1; 2], s1) ∧
    block_read 3 102 5 demo_two = Ok (bs, s2) ∧ block_read 3 102 5 s' = Ok (bs, s3).
Proof.
  apply (devices_isolated demo_two 2 2 true 101 102 7 7 (0 + 1) (0 + 20) (demo_part "hda1" BLOCK_KERNEL 1) (demo_part "hda2" BLOCK_FILESYS 20) 5 5).
  - apply (demo_two_located 101 "hda1" BLOCK_KERNEL 1); [reflexivity|lia|lia|discriminate].
  - apply (demo_two_located 102 "hda2" BLOCK_FILESYS 20); [reflexivity|lia|lia|discriminate].
  - reflexivity.
  - reflexivity.
  - right. left. cbn. lia.
  - cbn. lia.
  - cbn. lia.
  - lia.
  - lia.
Defined.

(** ** Extended partitions *)

Lemma scanning_trans s0 s s' b x : scanning s0 s b x → scanning s s' b x → scanning s0 s' b x.
Proof.
  intros [_ _ _ D1 O1] [B L F D2 O2]. split; [done..|by rewrite D2|]. intros a Ha. rewrite O2; [by apply O1|].
  pose proof (O1 a Ha) as E. destruct Ha as [z Hz]. rewrite Hz in E. destruct (block_of s !! a); [done|discriminate E].
Qed.

Lemma alloc_none s : room s = 0%nat → alloc s = Err EPanic.
Proof. unfold alloc. change (st_get ≫= ?k) with (λ s, k s s). cbn beta. by intros ->. Qed.

Lemma alloc_some s n :
  room s = S n → alloc s = Ok (brk s, Blocks (all_blocks s) (block_of s) (block_by_role s) (disks s) (brk s + 1) n).
Proof. unfold alloc. change (st_get ≫= ?k) with (λ s, k s s). cbn beta. by intros ->. Qed.

(** A partition that is found changes nothing else; there may be no memory. *)
Lemma found_keeps s0 s b x t start sz nr s' :
  scanning s0 s b x → size x < 2^32 → in_u32 start → in_u32 sz → sz ≠ 0 →
  found_partition b t start sz nr s = Ok ((), s') → scanning s0 s' b x.
Proof.
  intros Hs Hx Hst Hsz Hne E. destruct (decide (2 ≤ room s)%nat) as [Hr|Hr].
  { destruct (found_partition_ok s0 s b x t start sz nr Hs Hx Hst Hsz Hne Hr) as (s1 & E1 & Hs1 & _). congruence. }
  destruct (block_of s !! b) as [y|] eqn:Ey; [|by destruct Hs as [Hb _ _ _ _]; rewrite Ey in Hb]. revert E. unfold found_partition.
  erewrite st_bind_ok by (unfold block_size; by erewrite st_bind_ok by (by apply get_block_ok)).
  case_decide; [by intros [= <-]|]. case_decide; [by intros [= <-]|].
  destruct (room s) as [|[|rm]] eqn:Hrm; [by erewrite st_bind_err by (by apply alloc_none)| |lia].
  erewrite st_bind_ok by (by apply alloc_some). erewrite st_bind_ok by (unfold block_name; by erewrite st_bind_ok by (by apply get_block_ok)).
  by erewrite st_bind_err by (unfold block_register; by erewrite st_bind_err by (by apply alloc_none)).
Qed.

(** The loop does not return if reading an extended partition does not. *)
Lemma entry_loop_extended rec s0 s b x pt sector primary pre i rest nr :
  scanning s0 s b x → size x < 2^32 → in_u32 sector →
  Forall (λ k, entry_ok (table_entry pt k) ∧ is_extended (e_type (table_entry pt k)) = false) pre →
  ¬ is_empty (table_entry pt i) → is_extended (e_type (table_entry pt i)) = true →
  (∀ nr s r s', scanning s0 s b x →
     (if decide (sector = 0) then rec (e_offset (table_entry pt i)) (e_offset (table_entry pt i))
      else rec (u32 (e_offset (table_entry pt i) + primary)) primary) nr s ≠ Ok (r, s')) →
  ∀ r s', entry_loop rec b pt sector primary (pre ++ i :: rest) nr s ≠ Ok (r, s').
Proof.
  intros Hs Hx Hsec Hpre Hne Hext Hrec r s'. revert s nr Hs. induction Hpre as [|k pre [[Ho Hz] Hk] Hpre IH]; intros s nr Hs; cbn [app entry_loop].
  - unfold is_empty in Hne. rewrite decide_False, Hext by done. unfold mbind, ST_bind. specialize (Hrec nr s).
    destruct (decide (sector = 0)); (destruct (rec _ _ nr s) as [[r1 s1]|er]; [by destruct (Hrec r1 s1 Hs)|done]).
  - rewrite Hk. destruct (decide (e_size (table_entry pt k) = 0 ∨ _)) as [He|He].
    { erewrite st_bind_ok by done. by apply IH. }
    unfold mbind at 1, ST_bind at 1. unfold mbind at 1, ST_bind at 1.
    destruct (found_partition b _ _ _ _ s) as [[[] s1]|e] eqn:E; [|done]. cbn. apply IH.
    eapply found_keeps; [exact Hs|done|apply u32_range|exact Hz|tauto|exact E].
Qed.

(** The scan of a disk with an extended partition in range never returns:
    the source reads sector 0 again for every nested table, finds the same extended
    partition, and runs out of memory. *)
Theorem extended_partition_no_return s w b x d pt ss pre i rest fuel :
  located s 1 w b d 0 → block_of s !! b = Some x → disks s !! d = Some ss → ss !! 0 = Some pt →
  Forall (λ x, 0 ≤ x < 256) pt → signature pt = 43605 → size x < 2^32 →
  fresh s → registry s →
  [0; 1; 2; 3] = pre ++ i :: rest → Forall (λ k, is_extended (e_type (table_entry pt k)) = false) pre →
  ¬ is_empty (table_entry pt i) → is_extended (e_type (table_entry pt i)) = true →
  0 < e_offset (table_entry pt i) → 2 * e_offset (table_entry pt i) < size x →
  ¬ ∃ r s', partition_scan fuel b s = Ok (r, s').
Proof.
  intros Hl Eb Ed Es Hpt Hsig Hx Hfr Hli Hidx Hpre Hne Hext H0 H2 (r & s' & E). set (o := e_offset (table_entry pt i)) in *.
  assert (Hpre' : Forall (λ k, entry_ok (table_entry pt k) ∧ is_extended (e_type (table_entry pt k)) = false) pre).
  { eapply Forall_impl; [exact Hpre|]. intros k Hk. split; [by apply table_entry_ok|done]. }
  assert (Hmain : ∀ fuel sector primary nr s1 r s', scanning s s1 b x →
    (sector = 0 ∨ primary = o ∧ (sector = o ∨ sector = o + o)) → read_partition_table fuel b sector primary nr s1 ≠ Ok (r, s')).
  { clear fuel r s' E. induction fuel as [|fuel IH]; intros sector primary nr s1 r s' Hs1 Hsec; [done|]. cbn [read_partition_table].
    destruct (located_scan s s1 w b d x Hl Eb) as (Hl1 & x1 & Ex1 & Esz); [apply Hs1|apply Hs1|].
    erewrite st_bind_ok by (unfold block_size; by erewrite st_bind_ok by (by apply get_block_ok)).
    rewrite Esz. rewrite decide_False by lia. destruct (decide (1 ≤ room s1)%nat) as [Hr|Hr].
    2: { by erewrite st_bind_err by (apply alloc_none; lia). }
    destruct (read_table s1 w b x1 d pt ss Hl1 Ex1) as (s2 & E2 & Hs2 & _);
      [by rewrite (sc_disks _ _ _ _ Hs1)|done|lia|apply Hs1|apply Hs1|done|]. rewrite E2. rewrite decide_False by lia.
    assert (Hs2' : scanning s s2 b x).
    { eapply scanning_trans; [exact Hs1|]. destruct Hs2 as [B ? ? ? ?]. split; try done. rewrite B, <- (sc_block _ _ _ _ Hs1), Ex1. done. }
    unfold mbind at 1, ST_bind at 1.
    destruct (entry_loop _ b pt sector primary _ nr s2) as [[nr3 s3]|e] eqn:E3; [|done]. exfalso. revert E3. rewrite Hidx.
    eapply entry_loop_extended; [exact Hs2'|done|unfold in_u32; lia|done|done|done|].
    intros nr4 s4 r4 s4' Hs4. fold o. case_decide as Hz; [apply IH; [done|tauto]|].
    destruct Hsec as [?|[-> Hsec]]; [done|]. rewrite u32_id by (unfold in_u32; lia). apply IH; [done|tauto]. }
  unfold partition_scan in E. apply st_bind_inv in E as (nr & s1 & E & _). revert E. apply Hmain; [|by left]. split; [by rewrite Eb|done..].
Qed.

(** The demo disk with an extended partition at sector 5. *)
Definition extended_table : list Z :=
  replicate 446 0 ++ demo_entry 32 1 4 ++ demo_entry 5 5 10 ++ demo_entry 0 0 0 ++ demo_entry 0 0 0 ++ [85; 170].
Definition extended_sectors : gmap Z (list Z) := <[0 := extended_table]> demo_sectors.
Definition extended_blocks : blocks := Blocks [100] {[100 := demo_disk]} (λ _, NULL) {[7 := extended_sectors]} 101 20.

Lemma extended_partition_no_return_witness : ¬ ∃ r s', partition_scan 50 100 extended_blocks = Ok (r, s').
Proof.
  apply (extended_partition_no_return extended_blocks true 100 demo_disk 7 extended_table extended_sectors [0] 1 [2; 3] 50).
  - apply (located_disk extended_blocks 100 demo_disk 7 extended_sectors); [reflexivity..| |cbn; lia].
    intros i Hi. unfold extended_sectors. destruct (decide (i = 0)) as [->|Hne]; [by rewrite lookup_insert_eq; eexists|].
    rewrite lookup_insert_ne by done. by apply demo_sectors_some.
  - reflexivity.
  - reflexivity.
  - vm_compute. reflexivity.
  - compute_hyp.
  - vm_compute. reflexivity.
  - cbn. lia.
  - intros a [y Hy]. change (block_of extended_blocks) with ({[100 := demo_disk]} : gmap Z block) in Hy.
    apply lookup_singleton_Some in Hy as [<- _]. cbn. lia.
  - compute_hyp.
  - reflexivity.
  - compute_hyp.
  - intros [H|H]; vm_compute in H; discriminate H.
  - vm_compute. reflexivity.
  - vm_compute. reflexivity.
  - vm_compute. reflexivity.
Defined.
