(* ===== verification/Paging.v ===== *)
(** * threads/init.c: the kernel's page directory

    bss_init and paging_init, on the state of Pagedir.v.  paging_init builds the
    directory that maps every page of physical memory at PHYS_BASE, with the
    kernel's code read-only, and loads it into the processor.  The addresses the
    linker gives ([_start], [_end_kernel_text], [_start_bss] and [_end_bss]) are
    arguments. *)

From S2P Require Import Prelude Bitmap Memory CString Vaddr Palloc Pagedir.

Local Open Scope Z_scope.

Definition bss_init (start_bss end_bss : Z) : MM () :=
  _ ← memset start_bss 0 (u32 (end_bss - start_bss)); mret tt.

Section paging.
Context (start end_kernel_text : Z).

(** The body of the loop over the pages; the result is the new [pt]. *)
Definition paging_page (pd page pt : Z) : VM Z :=
  let paddr := u32 (page * PGSIZE) in
  vaddr ← st_res (ptov paddr);
  let pde_idx := pd_no vaddr in
  let pte_idx := pt_no vaddr in
  let in_kernel_text := bool_decide (start ≤ vaddr) && bool_decide (vaddr < end_kernel_text) in
  e ← get_word (u32 (pd + 4 * pde_idx));
  pt ← (if decide (e = 0) then
          pt ← on_vm (palloc_get_page (Z.lor PAL_ASSERT PAL_ZERO));
          w ← st_res (pde_create pt);
          set_word (u32 (pd + 4 * pde_idx)) w;; mret pt
        else mret pt);
  w ← st_res (pte_create_kernel vaddr (negb in_kernel_text));
  set_word (u32 (pt + 4 * pte_idx)) w;; mret pt.

(** [n] pages are left. *)
Fixpoint paging_loop (n : nat) (pd page pt : Z) : VM () :=
  match n with
  | O => mret tt
  | S n => pt ← paging_page pd page pt; paging_loop n pd (u32 (page + 1)) pt
  end.

Definition paging_init : VM () :=
  pd ← on_vm (palloc_get_page (Z.lor PAL_ASSERT PAL_ZERO));
  st_modify (λ s, Machine (vm s) pd (init_ram_pages s) (cr3 s) (tlb s));;
  s ← st_get;
  paging_loop (Z.to_nat (init_ram_pages s)) pd 0 NULL;;
  s ← st_get;
  p ← st_res (vtop (init_page_dir s));
  st_modify (λ s, Machine (vm s) (init_page_dir s) (init_ram_pages s) p ∅).
End paging.

(** ** Free pages of the kernel pool *)

Definition free_pages (p : pages) : nat :=
  length (filter (λ i, bit_at (used_map (kernel_pool p)) i = false) (seqZ 0 (bit_cnt (used_map (kernel_pool p))))).

Lemma filter_ext_elem (P Q : Z → Prop) `{!∀ x, Decision (P x), !∀ x, Decision (Q x)} (l : list Z) :
  (∀ x, x ∈ l → P x ↔ Q x) → filter P l = filter Q l.
Proof.
  induction l as [|x l IH]; intros Hpq; [done|]. rewrite !filter_cons, IH by (intros y Hy; apply Hpq; by right).
  pose proof (Hpq x ltac:(left)). do 2 case_decide; tauto.
Qed.

Lemma full_free p : wf (used_map (kernel_pool p)) → full false p 1 → free_pages p = O.
Proof.
  intros _ Hf. unfold free_pages. rewrite (filter_ext_elem _ (λ _, False)).
  { by induction (seqZ _ _). }
  intros i Hi%elem_of_seqZ. split; [|done]. intros Hb. apply (Hf i); cbn [pool_of]; [lia..|]. intros j Hj. by replace j with i by lia.
Qed.

Lemma allocates_free p p' i b :
  allocates false p 1 i b → kernel_pool p' = Pool b (base (kernel_pool p)) → free_pages p = S (free_pages p').
Proof.
  intros (Hi & Hf & _ & _ & Hn & Hb) E. unfold free_pages. rewrite E. cbn [pool_of used_map] in *. rewrite Hn.
  set (n := bit_cnt _) in *. replace n with (i + (1 + (n - i - 1))) by lia.
  rewrite !seqZ_app, !filter_app, !length_app by lia.
  assert (E1 : seqZ (0 + i) 1 = [i]) by (rewrite seqZ_cons by lia; rewrite seqZ_nil by lia; f_equal; lia). rewrite E1.
  rewrite !filter_cons, !filter_nil. rewrite (decide_True (P := bit_at (used_map (kernel_pool p)) i = false)) by (apply Hf; lia).
  rewrite (decide_False (P := bit_at b i = false)) by (rewrite Hb, decide_True by lia; done). cbn [length].
  assert (Ext : ∀ l : list Z, (∀ j, j ∈ l → 0 ≤ j ∧ j ≠ i) → filter (λ j, bit_at b j = false) l =
    filter (λ j, bit_at (used_map (kernel_pool p)) j = false) l).
  { intros l Hl. apply filter_ext_elem. intros j Hj. destruct (Hl j Hj). rewrite Hb, decide_False by lia. done. }
  rewrite !Ext; [lia|intros j Hj%elem_of_seqZ; lia..].
Qed.

(** A zeroed page, or a panic. *)
Lemma palloc_zeroed_assert p :
  pages_ok p →
  ∃ zs, zs = replicate (page_bytes 1) 0 ∧
  ((∃ i b, allocates false p 1 i b ∧
     palloc_get_page (Z.lor PAL_ASSERT PAL_ZERO) p = Ok (base (kernel_pool p) + 4096 * i,
       Pages (Pool b (base (kernel_pool p))) (user_pool p) (write (base (kernel_pool p) + 4096 * i) zs (ram p)))) ∨
   full false p 1 ∧ palloc_get_page (Z.lor PAL_ASSERT PAL_ZERO) p = Err EPanic).
Proof.
  intros Hs. pose proof (palloc_get_ok (Z.lor PAL_ASSERT PAL_ZERO) 1 p Hs ltac:(lia)) as H. cbv zeta in H.
  set (f := Z.lor PAL_ASSERT PAL_ZERO) in *.
  assert (Eu : wants f PAL_USER = false) by done. assert (Ea : wants f PAL_ASSERT = true) by done.
  assert (Ez : ∀ m1 m2 : mem, (if wants f PAL_ZERO then m1 else m2) = m1) by done.
  assert (Es : ∀ q k u m, set_pool false q (Pages k u m) = Pages q u m) by done.
  setoid_rewrite Ez in H. rewrite Eu, Ea in H. setoid_rewrite Es in H. unfold palloc_get_page.
  exists (replicate (page_bytes 1) 0). split; [reflexivity|]. revert H. generalize (replicate (page_bytes 1) 0) as zs.
  intros zs H. exact H.
Qed.

(** ** The directory while it is built *)

(** The entry of page [page] in its table. *)
Definition kernel_entry (start end_kernel_text page : Z) : Z :=
  4096 * page + (if decide (start ≤ PHYS_BASE + 4096 * page < end_kernel_text) then 1 else 3).

(** The directory [pd] with the tables [ts], of which the first [k] pages have
    been entered. *)
Record building (start end_kernel_text : Z) (s : machine) (pd : Z) (ts : list Z) (k : Z) : Prop := {
  bu_pages : pages_ok (vm s);
  bu_bytes : bytes_ok (mem_of s);
  bu_high : PHYS_BASE ≤ base (kernel_pool (vm s));
  bu_used : Forall (used_page (vm s)) (pd :: ts);
  bu_nodup : NoDup (pd :: ts);
  bu_low : ∀ i, 0 ≤ i < 768 → pde_at s pd i = 0;
  bu_pde : ∀ i, 0 ≤ i < 256 → pde_at s pd (768 + i) = from_option (λ t, t - PHYS_BASE + 7) 0 (ts !! Z.to_nat i);
  bu_pte : ∀ j t x, ts !! j = Some t → 0 ≤ x < 1024 →
    word (mem_of s) (t + 4 * x) =
      let page := 1024 * Z.of_nat j + x in
      if decide (page < k) then kernel_entry start end_kernel_text page else 0;
}.

Section build.
Context (start end_kernel_text : Z).

Lemma building_dir s pd ts k : building start end_kernel_text s pd ts k → dir_ok s pd.
Proof.
  intros [Hp Hb Hh Hu _ Hl _ _]. apply Forall_cons in Hu as [Hpd _]. split; try done.
  - intros i Hi. by rewrite Hl.
  - intros i j Hi Hj. by rewrite !Hl.
Qed.

Lemma pte_create_kernel_ok page writable :
  page `mod` 4096 = 0 → PHYS_BASE ≤ page < 2^32 →
  pte_create_kernel page writable = Ok (page - PHYS_BASE + (if writable then 3 else 1)).
Proof.
  intros Hp Hr. unfold pte_create_kernel, vtop, is_kernel_vaddr, PHYS_BASE in *.
  rewrite pg_ofs_mod, !bool_decide_true by (done || lia). cbn [mbind res_bind assert mret res_ret].
  rewrite u32_id by (unfold in_u32; lia). f_equal. unfold PTE_P, PTE_W.
  destruct writable; rewrite <- !Z.lor_assoc; (rewrite lor_flags; [done|dlia|vm_compute; split; congruence]).
Qed.

(** The page's addresses. *)
Lemma page_address page :
  0 ≤ page < 2^18 →
  u32 (page * PGSIZE) = 4096 * page ∧ ptov (4096 * page) = Ok (PHYS_BASE + 4096 * page) ∧
  pd_no (PHYS_BASE + 4096 * page) = 768 + page / 1024 ∧ pt_no (PHYS_BASE + 4096 * page) = page `mod` 1024.
Proof.
  intros Hp. unfold PGSIZE, ptov, PHYS_BASE. rewrite bool_decide_true by lia. cbn [mbind res_bind assert mret res_ret].
  rewrite pd_no_div, pt_no_eq by lia. rewrite !u32_id by (unfold in_u32; lia). split_and!; [lia|f_equal; lia|dlia|dlia].
Qed.

(** A page in use of the directory's. *)
Lemma building_page s pd ts k a :
  building start end_kernel_text s pd ts k → a ∈ pd :: ts →
  a `mod` 4096 = 0 ∧ PHYS_BASE ≤ a ∧ a + 4096 < 2^32 ∧ mapped (mem_of s) a 4096.
Proof.
  intros Hb Ha. apply (used_page_range s pd a); [by eapply building_dir|].
  pose proof (bu_used _ _ _ _ _ _ Hb) as Hu. rewrite Forall_forall in Hu. by apply Hu.
Qed.

(** Entering page [k] in its table. *)
Lemma enter_page s pd ts k t :
  building start end_kernel_text s pd ts k → 0 ≤ k < 2^18 → ts !! Z.to_nat (k / 1024) = Some t →
  building start end_kernel_text
    (with_mem (write (t + 4 * (k `mod` 1024)) (le_bytes 4 (kernel_entry start end_kernel_text k)) (mem_of s)) s) pd ts (k + 1).
Proof.
  intros Hb Hk Ht. pose proof (building_dir _ _ _ _ Hb) as Hd. set (w := kernel_entry _ _ k). set (m := write _ _ _).
  assert (Hx : 0 ≤ k `mod` 1024 < 1024) by (apply Z.mod_pos_bound; lia).
  assert (Htin : t ∈ pd :: ts) by (right; by eapply list_elem_of_lookup_2).
  destruct (building_page _ _ _ _ _ Hb Htin) as (Hta & _ & _ & _).
  destruct (building_page _ _ _ _ pd Hb ltac:(left)) as (Hpa & _ & _ & _).
  assert (Hw : in_u32 w) by (unfold w, kernel_entry, in_u32; case_decide; lia).
  assert (Hother : ∀ a x, a ∈ pd :: ts → a ≠ t → 0 ≤ x < 1024 → word m (a + 4 * x) = word (mem_of s) (a + 4 * x)).
  { intros a x Ha Hne Hx'. destruct (building_page _ _ _ _ a Hb Ha) as (Haa & _). unfold m. apply word_write_other.
    rewrite length_le_bytes. by apply pages_apart_words. }
  assert (Hne : pd ≠ t).
  { intros ->. pose proof (bu_nodup _ _ _ _ _ _ Hb) as Hn. apply NoDup_cons in Hn as [Hn _].
    apply Hn. by eapply list_elem_of_lookup_2. }
  assert (Hpde : ∀ i, 0 ≤ i < 1024 → pde_at (with_mem m s) pd i = pde_at s pd i).
  { intros i Hi. apply Hother; [left|done|done]. }
  assert (Hd' : dir_ok (with_mem m s) pd).
  { apply dir_ok_mem; [done| | |intros i Hi; apply Hpde; lia].
    - apply bytes_ok_write; [apply Hb|apply le_bytes_range].
    - intros a. by apply write_some. }
  destruct Hb as [Hp Hby Hh Hu Hn Hlow Hhi Hpte]. split; try done; try apply Hd'.
  - intros i Hi. rewrite Hpde by lia. by apply Hlow.
  - intros i Hi. rewrite Hpde by lia. by apply Hhi.
  - intros j t' x Ht' Hx'. cbn [with_mem mem_of with_vm vm ram]. destruct (decide (t' = t)) as [->|Hnt].
    + assert (j = Z.to_nat (k / 1024)) as ->.
      { apply NoDup_cons in Hn as [_ Hn]. by eapply NoDup_lookup. }
      destruct (decide (x = k `mod` 1024)) as [->|Hxk].
      * replace (1024 * Z.of_nat (Z.to_nat (k / 1024)) + k `mod` 1024) with k by dlia.
        cbv zeta. rewrite decide_True by lia. unfold m. by apply word_write.
      * unfold m. rewrite word_write_other by (rewrite length_le_bytes; unfold disjoint_blocks; lia).
        rewrite (Hpte _ _ _ Ht Hx'). cbv zeta. assert (1024 * Z.of_nat (Z.to_nat (k / 1024)) + x ≠ k) by dlia.
        do 2 case_decide; try done; lia.
    + rewrite Hother; [|right; by eapply list_elem_of_lookup_2|done|done]. rewrite (Hpte _ _ _ Ht' Hx'). cbv zeta.
      assert (1024 * Z.of_nat j + x ≠ k).
      { intros E. apply Hnt. assert (j = Z.to_nat (k / 1024)) as -> by dlia. congruence. }
      do 2 case_decide; try done; lia.
Qed.

(** A new table, empty, for the page [k] that is the first of its table. *)
Lemma add_table s pd ts k i b zs :
  building start end_kernel_text s pd ts k → Z.of_nat (length ts) = k / 1024 → k `mod` 1024 = 0 → 0 ≤ k < 2^18 →
  zs = replicate (page_bytes 1) 0 → allocates false (vm s) 1 i b →
  let t := base (kernel_pool (vm s)) + 4096 * i in
  building start end_kernel_text (with_table b zs t (pd + 4 * (768 + k / 1024)) s) pd (ts ++ [t]) k ∧
  PHYS_BASE ≤ t ∧ t + 4096 < 2^32 ∧ t `mod` 4096 = 0.
Proof.
  intros Hb Hl Hk0 Hk Hzs Hal t. pose proof (building_dir _ _ _ _ Hb) as Hd.
  assert (Hv : 0 ≤ 0 < PHYS_BASE) by (unfold PHYS_BASE; lia).
  destruct (new_table_range s pd 0 i b Hd Hv Hal) as (Hta & Hth & Htr). fold t in Hta, Hth, Htr.
  pose proof (new_table_fresh s i b Hal) as Hfresh. fold t in Hfresh.
  pose proof (new_table_apart s pd 0 i b zs Hzs Hd Hv Hal) as Hap. fold t in Hap.
  set (s' := with_table _ _ _ _ _).
  assert (Hmem : mem_of s' = write (pd + 4 * (768 + k / 1024)) (le_bytes 4 (t - PHYS_BASE + 7)) (write t zs (mem_of s))) by done.
  pose proof (bu_used _ _ _ _ _ _ Hb) as Hu. rewrite Forall_forall in Hu.
  assert (Hpd : pd ∈ pd :: ts) by left.
  assert (Hq : 0 ≤ k / 1024 < 256) by dlia.
  assert (Hpde : ∀ j, 0 ≤ j < 1024 → pde_at s' pd j = if decide (j = 768 + k / 1024) then t - PHYS_BASE + 7 else pde_at s pd j).
  { intros j Hj. unfold pde_at at 1. rewrite Hmem. case_decide as Ej.
    - subst j. apply word_write. unfold in_u32, PHYS_BASE in *. lia.
    - rewrite word_write_other by (rewrite length_le_bytes; unfold disjoint_blocks; lia).
      apply word_write_other, Hap; [by apply Hu|done]. }
  assert (Hgrow : ∀ a, used_page (vm s) a → used_page (vm s') a) by (intros a; by eapply used_page_grows).
  split; [|done]. split.
  - destruct Hal as (_ & _ & _ & Hw & Hn & _).
    refine (pages_ok_update false (vm s) b (mem_of s') (bu_pages _ _ _ _ _ _ Hb) Hw Hn _). intros a Ha. by apply write_some, write_some.
  - apply bytes_ok_write; [|apply le_bytes_range]. apply bytes_ok_write; [apply Hb|]. rewrite Hzs. apply Forall_replicate. lia.
  - apply Hb.
  - rewrite app_comm_cons. apply Forall_app. split.
    + apply Forall_forall. intros a Ha. by apply Hgrow, Hu.
    + apply Forall_singleton. exact (new_table_used s (pd + 4 * (768 + k / 1024) - 4 * (0 / 4194304)) 0 i b [] Hal).
  - rewrite app_comm_cons. apply NoDup_app. split_and!; [apply Hb| |apply NoDup_singleton].
    intros a Ha ->%list_elem_of_singleton. by apply (Hfresh t); [apply Hu|].
  - intros j Hj. rewrite Hpde, decide_False by lia. by apply Hb.
  - intros j Hj. rewrite Hpde by lia. case_decide as E.
    + rewrite list_lookup_middle by lia. done.
    + rewrite (bu_pde _ _ _ _ _ _ Hb) by done. destruct (decide (j < k / 1024)).
      * by rewrite lookup_app_l by lia.
      * rewrite !lookup_ge_None_2; [done|rewrite length_app; cbn; lia|lia].
  - intros j t' x Ht' Hx. rewrite Hmem. apply lookup_app_Some in Ht' as [Ht'|[Hj Ht']].
    + assert (Hin : t' ∈ pd :: ts) by (right; by eapply list_elem_of_lookup_2).
      destruct (building_page _ _ _ _ _ Hb Hin) as (Ha' & _), (building_page _ _ _ _ _ Hb Hpd) as (Hpa & _).
      rewrite word_write_other, word_write_other.
      * by apply Hb.
      * apply Hap; [by apply Hu|done].
      * rewrite length_le_bytes. apply pages_apart_words; try done; [|lia].
        intros ->. pose proof (bu_nodup _ _ _ _ _ _ Hb) as Hn. apply NoDup_cons in Hn as [Hn _].
        apply Hn. by eapply list_elem_of_lookup_2.
    + apply list_lookup_singleton_Some in Ht' as [Hj0 <-]. cbv zeta. rewrite decide_False by dlia.
      destruct (building_page _ _ _ _ _ Hb Hpd) as (Hpa & _).
      rewrite word_write_other by (rewrite length_le_bytes; apply pages_apart_words; [done|done|apply not_eq_sym, Hfresh, Hu, Hpd|done|lia]).
      rewrite Hzs. apply word_zeros; unfold page_bytes; lia.
Qed.

(** The last lines of the body. *)
Lemma enter_page_ok s pd ts k pt :
  building start end_kernel_text s pd ts k → 0 ≤ k < 2^18 → ts !! Z.to_nat (k / 1024) = Some pt →
  ∃ s', (w ← st_res (pte_create_kernel (PHYS_BASE + 4096 * k)
              (negb (bool_decide (start ≤ PHYS_BASE + 4096 * k) && bool_decide (PHYS_BASE + 4096 * k < end_kernel_text))));
         set_word (u32 (pt + 4 * (k `mod` 1024))) w;; mret pt) s = Ok (pt, s') ∧
    building start end_kernel_text s' pd ts (k + 1) ∧ kernel_pool (vm s') = kernel_pool (vm s) ∧
    init_page_dir s' = init_page_dir s ∧ init_ram_pages s' = init_ram_pages s.
Proof.
  intros Hb Hk Ht. pose proof (enter_page s pd ts k pt Hb Hk Ht) as Hb'.
  destruct (building_page _ _ _ _ pt Hb) as (Ha & Hh & Hr & Hm); [right; by eapply list_elem_of_lookup_2|].
  assert (Hx : 0 ≤ k `mod` 1024 < 1024) by (apply Z.mod_pos_bound; lia).
  eexists. split; [|split; [exact Hb'|done]].
  erewrite st_bind_ok by (apply st_res_ok, pte_create_kernel_ok; unfold PHYS_BASE in *; dlia).
  rewrite u32_id by (unfold in_u32, PHYS_BASE in *; lia).
  erewrite st_bind_ok by (apply set_word_ok; by apply page_word_mapped).
  assert (E : PHYS_BASE + 4096 * k - PHYS_BASE + (if negb (bool_decide (start ≤ PHYS_BASE + 4096 * k) &&
    bool_decide (PHYS_BASE + 4096 * k < end_kernel_text)) then 3 else 1) = kernel_entry start end_kernel_text k).
  { unfold kernel_entry. do 2 case_bool_decide; cbn [andb negb]; case_decide; lia. }
  by rewrite E.
Qed.

Lemma paging_page_ok s pd ts k pt :
  building start end_kernel_text s pd ts k → 0 ≤ k < 2^18 → Z.of_nat (length ts) = (k + 1023) / 1024 →
  (k `mod` 1024 ≠ 0 → last ts = Some pt) →
  (∃ s' ts' pt', paging_page start end_kernel_text pd k pt s = Ok (pt', s') ∧
     building start end_kernel_text s' pd ts' (k + 1) ∧ Z.of_nat (length ts') = (k + 1 + 1023) / 1024 ∧ last ts' = Some pt' ∧
     (free_pages (vm s') + length ts' = free_pages (vm s) + length ts)%nat ∧
     init_page_dir s' = init_page_dir s ∧ init_ram_pages s' = init_ram_pages s) ∨
  paging_page start end_kernel_text pd k pt s = Err EPanic ∧ free_pages (vm s) = 0%nat ∧ k `mod` 1024 = 0.
Proof.
  intros Hb Hk Hl Hpt. destruct (page_address k Hk) as (E1 & E2 & E3 & E4). unfold paging_page. rewrite E1.
  erewrite st_bind_ok by (by apply st_res_ok). rewrite E3, E4.
  destruct (building_page _ _ _ _ pd Hb ltac:(left)) as (_ & Hph & Hpr & Hpm). unfold PHYS_BASE in Hph.
  assert (Hq : 0 ≤ k / 1024 < 256) by dlia. rewrite (u32_id (pd + _)) by (unfold in_u32; lia).
  erewrite st_bind_ok by (apply get_word_ok, page_word_mapped; [done|lia]).
  change (word (mem_of s) (pd + 4 * (768 + k / 1024))) with (pde_at s pd (768 + k / 1024)).
  rewrite (bu_pde _ _ _ _ _ _ Hb) by done. destruct (decide (k `mod` 1024 = 0)) as [Hk0|Hk0].
  - rewrite lookup_ge_None_2 by dlia. cbn [from_option]. rewrite (decide_True (P := 0 = 0)) by done.
    destruct (palloc_zeroed_assert (vm s) (bu_pages _ _ _ _ _ _ Hb)) as (zs & Hzs & [(i & b & Hal & Eg)|[Hf Eg]]).
    + destruct (add_table s pd ts k i b zs Hb ltac:(dlia) Hk0 Hk Hzs Hal) as (Hb1 & Hth & Htr & Hta).
      set (t := base (kernel_pool (vm s)) + 4096 * i) in *. set (s1 := with_table _ _ _ _ _) in *.
      assert (Ht : (ts ++ [t]) !! Z.to_nat (k / 1024) = Some t) by (rewrite list_lookup_middle by dlia; done).
      destruct (enter_page_ok s1 pd (ts ++ [t]) k t Hb1 Hk Ht) as (s2 & E & Hb2 & Ek & Ei & Er).
      left. exists s2, (ts ++ [t]), t. split_and!; [|done|rewrite length_app; cbn; dlia|by rewrite last_snoc| |done|done].
      * erewrite (st_bind_ok _ _ s t s1); [exact E|].
        erewrite st_bind_ok by (unfold on_vm; by rewrite Eg).
        erewrite st_bind_ok by (apply st_res_ok, pde_create_ok; [done|lia]).
        erewrite st_bind_ok; [reflexivity|]. apply set_word_ok. unfold mem_of. cbn.
        apply mapped_write, page_word_mapped; [done|lia].
      * rewrite length_app, (allocates_free (vm s) (vm s2) i b Hal) by (rewrite Ek; done). cbn. lia.
    + right. split_and!; [|apply full_free; [apply Hb|done]|done]. apply st_bind_err, st_bind_err. unfold on_vm. by rewrite Eg.
  - assert (Hlast : ts !! Z.to_nat (k / 1024) = Some pt).
    { rewrite <- (Hpt Hk0), last_lookup. f_equal. dlia. }
    rewrite Hlast. cbn [from_option].
    destruct (building_page _ _ _ _ pt Hb) as (_ & Hth & _); [right; by eapply list_elem_of_lookup_2|].
    rewrite decide_False by lia. erewrite st_bind_ok by done.
    destruct (enter_page_ok s pd ts k pt Hb Hk Hlast) as (s2 & E & Hb2 & Ek & Ei & Er).
    left. exists s2, ts, pt. split_and!; try done; [dlia|by apply Hpt|]. unfold free_pages. by rewrite Ek.
Qed.

Lemma paging_loop_ok n : ∀ s pd ts k pt,
  building start end_kernel_text s pd ts k → 0 ≤ k → k + Z.of_nat n ≤ 2^18 → Z.of_nat (length ts) = (k + 1023) / 1024 →
  (k `mod` 1024 ≠ 0 → last ts = Some pt) →
  let tables := (k + Z.of_nat n + 1023) / 1024 in
  (∃ s' ts', paging_loop start end_kernel_text n pd k pt s = Ok ((), s') ∧
     building start end_kernel_text s' pd ts' (k + Z.of_nat n) ∧ Z.of_nat (length ts') = tables ∧
     (free_pages (vm s') + length ts' = free_pages (vm s) + length ts)%nat ∧
     init_page_dir s' = init_page_dir s ∧ init_ram_pages s' = init_ram_pages s) ∨
  paging_loop start end_kernel_text n pd k pt s = Err EPanic ∧ Z.of_nat (free_pages (vm s) + length ts) < tables.
Proof.
  induction n as [|n IH]; intros s pd ts k pt Hb Hk Hn Hl Hpt tables.
  { left. exists s, ts. unfold tables. rewrite Z.add_0_r. done. }
  cbn [paging_loop].
  destruct (paging_page_ok s pd ts k pt Hb ltac:(lia) Hl Hpt) as [(s1 & ts1 & pt1 & E & Hb1 & Hl1 & Hlast & Hf & Hi & Hr)|(E & Hf & Hk0)].
  - erewrite st_bind_ok by exact E. rewrite u32_id by (unfold in_u32; lia).
    destruct (IH s1 pd ts1 (k + 1) pt1) as [(s2 & ts2 & E2 & Hb2 & Hl2 & Hf2 & Hi2 & Hr2)|[E2 Hf2]]; try done; [lia..| |].
    + left. exists s2, ts2. replace (k + Z.of_nat (S n)) with (k + 1 + Z.of_nat n) by lia.
      split_and!; try done; [unfold tables; rewrite Hl2; f_equal; lia|lia|congruence..].
    + right. split; [done|]. rewrite <- Hf. unfold tables. replace (k + Z.of_nat (S n)) with (k + 1 + Z.of_nat n) by lia. done.
  - right. split; [by apply st_bind_err|]. unfold tables.
    rewrite Hf. clear - Hl Hk0 Hk. dlia.
Qed.

(** The empty directory. *)
Lemma start_building s i b zs :
  pages_ok (vm s) → bytes_ok (mem_of s) → PHYS_BASE ≤ base (kernel_pool (vm s)) →
  zs = replicate (page_bytes 1) 0 → allocates false (vm s) 1 i b →
  let pd := base (kernel_pool (vm s)) + 4096 * i in
  ∀ n c l, building start end_kernel_text
    (Machine (Pages (Pool b (base (kernel_pool (vm s)))) (user_pool (vm s)) (write pd zs (mem_of s))) pd n c l) pd [] 0.
Proof.
  intros Hp Hby Hh Hzs Hal pd n c l. set (s' := Machine _ _ _ _ _).
  assert (Hz : ∀ j, 0 ≤ j < 1024 → pde_at s' pd j = 0).
  { intros j Hj. unfold pde_at. cbn [s' mem_of vm ram]. rewrite Hzs. apply word_zeros; unfold page_bytes; lia. }
  split.
  - destruct Hal as (_ & _ & _ & Hw & Hn & _).
    refine (pages_ok_update false (vm s) b (mem_of s') Hp Hw Hn _). intros a Ha. by apply write_some.
  - apply bytes_ok_write; [done|]. rewrite Hzs. apply Forall_replicate. lia.
  - done.
  - apply Forall_singleton. exact (new_table_used s 0 0 i b [] Hal).
  - apply NoDup_singleton.
  - intros j Hj. apply Hz. lia.
  - intros j Hj. apply Hz. lia.
  - intros j t x Ht. by rewrite lookup_nil in Ht.
Qed.
End build.

(** ** The processor's translation *)

(** The physical address of [v], whether it may be written, and whether user
    programs may use it; None is a page fault.  Physical memory is seen at
    PHYS_BASE. *)
Definition translate (m : mem) (cr3 v : Z) : option (Z * bool * bool) :=
  let e := word m (PHYS_BASE + cr3 + 4 * (v / 4194304)) in
  if decide (e `mod` 2 = 1) then
    let w := word m (PHYS_BASE + (e - e `mod` 4096) + 4 * ((v / 4096) `mod` 1024)) in
    if decide (w `mod` 2 = 1) then
      Some (w - w `mod` 4096 + v `mod` 4096, Z.testbit e 1 && Z.testbit w 1, Z.testbit e 2 && Z.testbit w 2)
    else None
  else None.

Lemma flag_bits a f i : a `mod` 4096 = 0 → 0 ≤ f < 4096 → 0 ≤ i < 12 → Z.testbit (a + f) i = Z.testbit f i.
Proof.
  intros Ha Hf Hi. rewrite <- (Z.mod_pow2_bits_low (a + f) 12 i) by lia. change (2^12) with 4096.
  replace ((a + f) `mod` 4096) with f by dlia. done.
Qed.

Lemma translate_built start end_kernel_text s pd ts k v :
  building start end_kernel_text s pd ts k → Z.of_nat (length ts) = (k + 1023) / 1024 → 0 ≤ k ≤ 2^18 → 0 ≤ v < 2^32 →
  translate (mem_of s) (pd - PHYS_BASE) v =
    if decide (PHYS_BASE ≤ v < PHYS_BASE + 4096 * k)
    then Some (v - PHYS_BASE, bool_decide (¬ start ≤ v - v `mod` 4096 < end_kernel_text), false) else None.
Proof.
  intros Hb Hl Hk Hv. unfold translate. replace (PHYS_BASE + (pd - PHYS_BASE)) with pd by lia.
  fold (pde_at s pd (v / 4194304)). destruct (decide (PHYS_BASE ≤ v)) as [Hlo|Hlo].
  2: { rewrite (bu_low _ _ _ _ _ _ Hb) by (unfold PHYS_BASE in Hlo; dlia).
       rewrite decide_False by done. by rewrite decide_False by lia. }
  set (q := (v - PHYS_BASE) / 4096). assert (Hq : 0 ≤ q < 262144) by (unfold q, PHYS_BASE in *; clear - Hv Hlo; dlia).
  assert (Ev : v / 4194304 = 768 + q / 1024) by (unfold q, PHYS_BASE in *; clear - Hv Hlo; dlia).
  assert (Ex : (v / 4096) `mod` 1024 = q `mod` 1024) by (unfold q, PHYS_BASE in *; clear - Hv Hlo; dlia).
  assert (Epage : v - v `mod` 4096 = PHYS_BASE + 4096 * q) by (unfold q, PHYS_BASE in *; clear - Hv Hlo; dlia).
  assert (Eoff : v - PHYS_BASE = 4096 * q + v `mod` 4096) by lia.
  assert (Hiff : v < PHYS_BASE + 4096 * k ↔ q < k) by (pose proof (Z.mod_pos_bound v 4096); clear - Eoff H; lia).
  rewrite Ev, Ex, (bu_pde _ _ _ _ _ _ Hb) by (clear - Hq; dlia). destruct (ts !! Z.to_nat (q / 1024)) as [t|] eqn:Et; cbn [from_option].
  2: { apply lookup_ge_None in Et. rewrite (decide_False (P := 0 `mod` 2 = 1)) by done.
       rewrite decide_False; [done|]. rewrite Hiff. clear - Et Hl Hk Hq. dlia. }
  destruct (building_page _ _ _ _ _ _ t Hb) as (Hta & Hth & _); [right; by eapply list_elem_of_lookup_2|].
  assert (Hta' : (t - PHYS_BASE) `mod` 4096 = 0) by (unfold PHYS_BASE in *; clear - Hta; dlia).
  rewrite decide_True by (clear - Hta'; dlia).
  replace (PHYS_BASE + (t - PHYS_BASE + 7 - (t - PHYS_BASE + 7) `mod` 4096)) with t by (clear - Hta'; dlia).
  rewrite (bu_pte _ _ _ _ _ _ Hb _ _ _ Et) by (clear - Hq; dlia). cbv zeta.
  replace (1024 * Z.of_nat (Z.to_nat (q / 1024)) + q `mod` 1024) with q by (clear - Hq; dlia).
  destruct (decide (q < k)) as [Hqk|Hqk].
  - rewrite (decide_True (P := PHYS_BASE ≤ v < _)) by (split; [done|by apply Hiff]). rewrite Eoff. unfold kernel_entry.
    rewrite (flag_bits _ 7 1), (flag_bits _ 7 2) by done.
    assert (Ha : (4096 * q) `mod` 4096 = 0) by (clear; dlia).
    rewrite Epage. destruct (decide (start ≤ PHYS_BASE + 4096 * q < end_kernel_text)) as [Et'|Et']; rewrite decide_True by (clear; dlia).
    + rewrite (flag_bits _ 1 1), (flag_bits _ 1 2) by done. rewrite bool_decide_false by tauto.
      replace (4096 * q + 1 - (4096 * q + 1) `mod` 4096) with (4096 * q) by (clear; dlia). done.
    + rewrite (flag_bits _ 3 1), (flag_bits _ 3 2) by done. rewrite bool_decide_true by tauto.
      replace (4096 * q + 3 - (4096 * q + 3) `mod` 4096) with (4096 * q) by (clear; dlia). done.
  - rewrite (decide_False (P := 0 `mod` 2 = 1)) by done. rewrite decide_False; [done|]. rewrite Hiff. tauto.
Qed.
