(* ===== verification/Init.v ===== *)
(** * threads/init.c: the kernel command line

    read_command_line, parse_options, run_actions and locate_block_devices, with
    USERPROG and FILESYS defined.  The command line is in memory, as the loader
    leaves it; [lit] gives the address of each string literal, [argv] of the
    static array and [save_ptr] of the local variable.  The routines that
    carry out the actions are an argument of run_actions.  Console output is
    left out. *)

From Stdlib Require Import String.
From S2P Require Import Prelude Bitmap Inode Memory CString Random CStdlib Vaddr Stdio StdioSpec Ustar Block.

Local Open Scope Z_scope.

(** threads/loader.h. *)
Definition LOADER_END : Z := 32256.
Definition LOADER_SIG_LEN : Z := 2.
Definition LOADER_PARTS_LEN : Z := 64.
Definition LOADER_ARGS_LEN : Z := 128.
Definition LOADER_ARG_CNT_LEN : Z := 4.
Definition LOADER_SIG : Z := LOADER_END - LOADER_SIG_LEN.
Definition LOADER_PARTS : Z := LOADER_SIG - LOADER_PARTS_LEN.
Definition LOADER_ARGS : Z := LOADER_PARTS - LOADER_ARGS_LEN.
Definition LOADER_ARG_CNT : Z := LOADER_ARGS - LOADER_ARG_CNT_LEN.

(** [n] arguments are left. *)
Fixpoint read_loop (n : nat) (argv i p e : Z) : MM () :=
  match n with
  | O => mret tt
  | S n =>
      if decide (e ≤ p) then st_fail EPanic else
      storew (u32 (argv + 4 * i)) p;;
      len ← strnlen p (u32 (e - p));
      read_loop n argv (i + 1) (u32 (p + u32 (len + 1))) e
  end.

Definition read_command_line (argv : Z) : MM Z :=
  cnt ← st_res (ptov LOADER_ARG_CNT);
  argc ← loadw cnt;
  let argc := s32 argc in
  p ← st_res (ptov LOADER_ARGS);
  let e := u32 (p + LOADER_ARGS_LEN) in
  read_loop (Z.to_nat argc) argv 0 p e;;
  storew (u32 (argv + 4 * argc)) NULL;;
  mret argv.

(** ** Options *)

(** enum shutdown_type. *)
Inductive shutdown_type := SHUTDOWN_NONE | SHUTDOWN_POWER_OFF | SHUTDOWN_REBOOT.

(** The variables the options set; [cram] is memory. *)
Record booting := Booting {
  cram : mem;
  how : shutdown_type;
  format_filesys : bool;
  filesys_bdev_name : Z;
  scratch_bdev_name : Z;
  thread_mlfqs : bool;
  user_page_limit : Z;
  generator : rng;
}.

Abbreviation BOOT := (ST booting).

Definition set_cram (m : mem) (s : booting) : booting :=
  Booting m (how s) (format_filesys s) (filesys_bdev_name s) (scratch_bdev_name s) (thread_mlfqs s) (user_page_limit s) (generator s).
Definition set_generator (r : rng) (s : booting) : booting :=
  Booting (cram s) (how s) (format_filesys s) (filesys_bdev_name s) (scratch_bdev_name s) (thread_mlfqs s) (user_page_limit s) r.

Definition on_cram {A} (c : MM A) : BOOT A := λ s,
  match c (cram s) with Ok (a, m) => Ok (a, set_cram m s) | Err e => Err e end.
Definition on_generator {A} (c : RM A) : BOOT A := λ s,
  match c (generator s) with Ok (a, r) => Ok (a, set_generator r s) | Err e => Err e end.

Definition shutdown_configure (type : shutdown_type) : BOOT () :=
  st_modify (λ s, Booting (cram s) type (format_filesys s) (filesys_bdev_name s) (scratch_bdev_name s) (thread_mlfqs s)
    (user_page_limit s) (generator s)).

Section literals.
Context (lit : list Z → Z).

Definition option_case (name : Z) (s : string) (yes no : BOOT bool) : BOOT bool :=
  r ← on_cram (strcmp name (lit (str s))); if decide (r = 0) then yes else no.

(** The chain of comparisons; false when the machine is powered off (usage). *)
Definition set_option (name value : Z) : BOOT bool :=
  option_case name "-h" (mret false) $
  option_case name "-q" (shutdown_configure SHUTDOWN_POWER_OFF;; mret true) $
  option_case name "-r" (shutdown_configure SHUTDOWN_REBOOT;; mret true) $
  option_case name "-f"
    (st_modify (λ s, Booting (cram s) (how s) true (filesys_bdev_name s) (scratch_bdev_name s) (thread_mlfqs s)
       (user_page_limit s) (generator s));; mret true) $
  option_case name "-filesys"
    (st_modify (λ s, Booting (cram s) (how s) (format_filesys s) value (scratch_bdev_name s) (thread_mlfqs s)
       (user_page_limit s) (generator s));; mret true) $
  option_case name "-scratch"
    (st_modify (λ s, Booting (cram s) (how s) (format_filesys s) (filesys_bdev_name s) value (thread_mlfqs s)
       (user_page_limit s) (generator s));; mret true) $
  option_case name "-rs" (v ← on_cram (atoi value); on_generator (random_init (u32 v));; mret true) $
  option_case name "-mlfqs"
    (st_modify (λ s, Booting (cram s) (how s) (format_filesys s) (filesys_bdev_name s) (scratch_bdev_name s) true
       (user_page_limit s) (generator s));; mret true) $
  option_case name "-ul"
    (v ← on_cram (atoi value);
     st_modify (λ s, Booting (cram s) (how s) (format_filesys s) (filesys_bdev_name s) (scratch_bdev_name s) (thread_mlfqs s)
       (u32 v) (generator s));; mret true) $
  st_fail EPanic.

(** The body of the loop. *)
Definition parse_option (save_ptr arg : Z) : BOOT bool :=
  name ← on_cram (strtok_r arg (lit (str "=")) save_ptr);
  value ← on_cram (strtok_r NULL (lit (str "")) save_ptr);
  set_option name value.

(** The first argument that is not an option; None when the machine is powered off. *)
Fixpoint options_loop (fuel : nat) (save_ptr argv : Z) : BOOT (option Z) :=
  match fuel with
  | O => st_fail EFuel
  | S fuel =>
      arg ← on_cram (loadw argv);
      if decide (arg = NULL) then mret (Some argv) else
      c ← on_cram (load arg);
      if decide (c = 45) then
        on ← parse_option save_ptr arg;
        if (on : bool) then options_loop fuel save_ptr (u32 (argv + 4)) else mret None
      else mret (Some argv)
  end.

(** [now] is the real-time clock's time. *)
Definition parse_options (now save_ptr argv : Z) : BOOT (option Z) :=
  s ← st_get;
  r ← options_loop (steps (cram s)) save_ptr argv;
  match r with
  | None => mret None
  | Some argv => on_generator (random_init (u32 now));; mret (Some argv)
  end.

(** ** Actions *)

Inductive action := run_task | fsutil_ls | fsutil_cat | fsutil_rm | fsutil_extract | fsutil_append.

(** The table of actions: name, number of arguments with the name, function. *)
Definition actions : list (string * Z * action) :=
  [("run", 2, run_task); ("ls", 1, fsutil_ls); ("cat", 2, fsutil_cat); ("rm", 2, fsutil_rm);
   ("extract", 1, fsutil_extract); ("append", 2, fsutil_append)]%string.

Section actions.
Context {X : Type}.

(** Memory and the rest of the kernel's state. *)
Definition on_mem {A} (c : MM A) : ST (mem * X) A := λ s,
  match c s.1 with Ok (a, m) => Ok (a, (m, s.2)) | Err e => Err e end.

Context (function : action → Z → ST (mem * X) ()).

Fixpoint find_action (l : list (string * Z * action)) (name : Z) : ST (mem * X) (Z * action) :=
  match l with
  | [] => st_fail EPanic
  | (s, argc, a) :: l =>
      r ← on_mem (strcmp name (lit (str s))); if decide (r = 0) then mret (argc, a) else find_action l name
  end.

(** [n] required arguments are left to check. *)
Fixpoint check_arguments (n : nat) (argv i : Z) : ST (mem * X) () :=
  match n with
  | O => mret tt
  | S n =>
      arg ← on_mem (loadw (u32 (argv + 4 * i)));
      if decide (arg = NULL) then st_fail EPanic else check_arguments n argv (i + 1)
  end.

Fixpoint actions_loop (fuel : nat) (argv : Z) : ST (mem * X) () :=
  match fuel with
  | O => st_fail EFuel
  | S fuel =>
      arg ← on_mem (loadw argv);
      if decide (arg = NULL) then mret tt else
      a ← find_action actions arg;
      check_arguments (Z.to_nat (a.1 - 1)) argv 1;;
      function a.2 argv;;
      actions_loop fuel (u32 (argv + 4 * a.1))
  end.

Definition run_actions (argv : Z) : ST (mem * X) () := s ← st_get; actions_loop (steps s.1) argv.
End actions.
End literals.

(** ** Block devices *)

Fixpoint locate_loop (fuel : nat) (role : block_type) (b : Z) : BM Z :=
  match fuel with
  | O => st_fail EFuel
  | S fuel =>
      if decide (b = NULL) then mret NULL else
      t ← block_type_of b;
      if decide (t = role) then mret b else b ← block_next b; locate_loop fuel role b
  end.

Definition locate_block_device (role : block_type) (name : option (list Z)) : BM () :=
  b ← match name with
      | Some name =>
          b ← block_get_by_name name;
          if decide (b = NULL) then st_fail EPanic else mret b
      | None => b ← block_first; s ← st_get; locate_loop (S (length (all_blocks s))) role b
      end;
  if decide (b ≠ NULL) then block_set_role role b else mret tt.

Definition locate_block_devices (filesys_bdev_name scratch_bdev_name : option (list Z)) : BM () :=
  locate_block_device BLOCK_FILESYS filesys_bdev_name;;
  locate_block_device BLOCK_SCRATCH scratch_bdev_name.

(** The command line in main, up to the call of run_actions. *)
Definition command_line (lit : list Z → Z) (now save_ptr argv : Z) : BOOT (option Z) :=
  argv ← on_cram (read_command_line argv); parse_options lit now save_ptr argv.
