(* ===== verification/InitSpec.v ===== *)
(** * The kernel command line: specification

    The words of the command line as a list of strings, the options as names
    with values, and what each option does to the kernel's configuration.
    read_command_line is proved to find the words and parse_option to carry
    out one option. *)

From Stdlib Require Import String.
From S2P Require Import Prelude Bitmap Inode Memory CString Random CStdlib Vaddr Stdio StdioSpec Ustar Block Init.

Local Open Scope Z_scope.

(** ** Words in memory *)

(** The words, each with its terminator. *)
Definition line (ts : list (list Z)) : list Z := concat ((λ t, t ++ [0]) <$> ts).

(** The addresses of words that start at [p]. *)
Fixpoint addrs (p : Z) (ts : list (list Z)) : list Z :=
  match ts with [] => [] | t :: ts => p :: addrs (p + Z.of_nat (S (length t))) ts end.

(** An array of pointers. *)
Definition arr (ps : list Z) : list Z := concat (le_bytes 4 <$> ps).

(** [argv] is an array of pointers to the words [ts], which start at [base]. *)
Record arguments (m : mem) (argv base : Z) (ts : list (list Z)) : Prop := {
  ar_array : holds m argv (arr (addrs base ts ++ [NULL]));
  ar_line : holds m base (line ts);
  ar_bytes : Forall (Forall (λ b, 0 < b < 256)) ts;
}.

Lemma length_arr ps : length (arr ps) = (4 * length ps)%nat.
Proof. induction ps as [|p ps IH]; [done|]. unfold arr in *. cbn [fmap list_fmap concat length]. rewrite length_app, length_le_bytes, IH. lia. Qed.

Lemma arr_app xs ys : arr (xs ++ ys) = arr xs ++ arr ys.
Proof. unfold arr. by rewrite fmap_app, concat_app. Qed.

Lemma arr_cons x xs : arr (x :: xs) = le_bytes 4 x ++ arr xs.
Proof. done. Qed.

Lemma length_addrs p ts : length (addrs p ts) = length ts.
Proof. revert p. induction ts as [|t ts IH]; intros p; [done|]. cbn. by rewrite IH. Qed.

Lemma line_cons t ts : line (t :: ts) = (t ++ [0]) ++ line ts.
Proof. done. Qed.

Lemma length_line_cons t ts : length (line (t :: ts)) = (S (length t) + length (line ts))%nat.
Proof. rewrite line_cons, !length_app. cbn. lia. Qed.

Lemma line_app ts us : line (ts ++ us) = line ts ++ line us.
Proof. unfold line. by rewrite fmap_app, concat_app. Qed.

(** The first word, and the rest. *)
Lemma line_first m p t ts :
  holds m p (line (t :: ts)) → Forall (λ b, 0 < b < 256) t →
  cstr m p t ∧ holds m (p + Z.of_nat (S (length t))) (line ts).
Proof.
  rewrite line_cons. intros H Ht. split; [by split; [eapply holds_prefix|]|].
  apply holds_suffix in H. rewrite length_app in H. cbn [length] in H.
  by replace (Z.of_nat (length t + 1)) with (Z.of_nat (S (length t))) in H by lia.
Qed.

Lemma arguments_cons m argv base t ts :
  arguments m argv base (t :: ts) →
  loadw argv m = Ok (base, m) ∧ base ≠ NULL ∧ cstr m base t ∧ u32 (argv + 4) = argv + 4 ∧
  arguments m (argv + 4) (base + Z.of_nat (S (length t))) ts.
Proof.
  intros [Ha Hl Hb]. apply Forall_cons in Hb as [Ht Hb]. destruct (line_first _ _ _ _ Hl Ht) as [Hs Hl'].
  cbn [addrs app] in Ha. rewrite arr_cons in Ha. pose proof (cstr_range _ _ _ Hs) as Hr.
  pose proof Ha as [Har _]. rewrite length_app, length_le_bytes, length_arr, length_app in Har. cbn [length] in Har. split_and!.
  - apply loadw_word; [by eapply holds_prefix|]. unfold in_u32. lia.
  - unfold NULL. lia.
  - done.
  - apply u32_id. unfold in_u32. lia.
  - split; [|done|done]. apply holds_suffix in Ha. by rewrite length_le_bytes in Ha.
Qed.

Lemma arguments_nil m argv base : arguments m argv base [] → loadw argv m = Ok (NULL, m).
Proof. intros [Ha _ _]. apply loadw_word; [exact Ha|]. unfold in_u32, NULL. lia. Qed.

Lemma arguments_agree m m' argv base ts :
  arguments m argv base ts →
  (∀ a, argv ≤ a < argv + 4 * Z.of_nat (S (length ts)) → m' !! a = m !! a) →
  (∀ a, base ≤ a < base + Z.of_nat (length (line ts)) → m' !! a = m !! a) → arguments m' argv base ts.
Proof.
  intros [Ha Hl Hb] H1 H2. split; [|by eapply holds_agree|done]. eapply holds_agree; [done|].
  intros a Hx. apply H1. rewrite length_arr, length_app, length_addrs in Hx. cbn [length] in Hx. lia.
Qed.

(** ** read_command_line *)

Lemma strnlen_ok m p s n : cstr m p s → Z.of_nat (length s) ≤ n < 2^32 → strnlen p n m = Ok (Z.of_nat (length s), m).
Proof.
  intros Hs Hn. unfold strnlen. change (st_get ≫= ?k) with (λ m', k m' m'). cbn beta.
  pose proof (cstr_steps _ _ _ Hs) as Hst. pose proof (cstr_range _ _ _ Hs) as Hr.
  assert (H : ∀ fuel t k, s = t ++ k → (length k < fuel)%nat →
    strnlen_loop fuel p n (Z.of_nat (length t)) m = Ok (Z.of_nat (length s), m)).
  { induction fuel as [|fuel IH]; intros t k E Hf; [lia|]. cbn [strnlen_loop]. subst s. rewrite length_app in *.
    apply cstr_suffix in Hs as Hk. rewrite (u32_id (p + _)) by (unfold in_u32; lia). destruct k as [|b k].
    - erewrite st_bind_ok by (by apply cstr_nil). rewrite decide_False by tauto. unfold mret, ST_ret. cbn [length]. by rewrite Nat.add_0_r.
    - apply cstr_cons in Hk as (Eb & Hb & _). cbn [length] in *. erewrite st_bind_ok by exact Eb. rewrite decide_True by lia.
      rewrite u32_id by (unfold in_u32; lia). specialize (IH (t ++ [b]) k). rewrite <- app_assoc, length_app in IH. cbn [length app] in IH.
      rewrite <- IH by (done || lia). f_equal. lia. }
  by apply (H (steps m) [] s).
Qed.

Lemma command_words_ok ts : ∀ m argv i p e,
  holds m p (line ts) → Forall (Forall (λ b, 0 < b < 256)) ts →
  0 ≤ i → 0 < argv → mapped m (argv + 4 * i) (4 * length ts) → disjoint_blocks (argv + 4 * i) (4 * length ts) p (length (line ts)) →
  p + Z.of_nat (length (line ts)) ≤ e < 2^32 →
  read_loop (length ts) argv i p e m = Ok ((), write (argv + 4 * i) (arr (addrs p ts)) m).
Proof.
  induction ts as [|t ts IH]; intros m argv i p e Hl Hb Hi Hargv Hm Hd He; [done|].
  apply Forall_cons in Hb as [Ht Hb]. destruct (line_first _ _ _ _ Hl Ht) as [Hs Hl'].
  pose proof (cstr_range _ _ _ Hs) as Hr. rewrite length_line_cons in *. cbn [length read_loop addrs] in *.
  rewrite decide_False by lia. destruct Hm as [Hmr Hm]. unfold disjoint_blocks in Hd.
  rewrite (u32_id (argv + 4 * i)) by (unfold in_u32; lia).
  erewrite st_bind_ok by (apply storew_ok; split; [lia|]; intros k Hk; apply Hm; lia).
  set (m1 := write _ _ m).
  assert (Hs1 : cstr m1 p t) by (apply cstr_write; [done|]; rewrite length_le_bytes; unfold disjoint_blocks; lia).
  erewrite st_bind_ok by (apply strnlen_ok; [done|]; rewrite u32_id by (unfold in_u32; lia); lia).
  rewrite !u32_id by (unfold in_u32; try rewrite u32_id; unfold in_u32; lia).
  replace (p + (Z.of_nat (length t) + 1)) with (p + Z.of_nat (S (length t))) by lia.
  rewrite IH; [|  |done|lia|lia| | |lia].
  - rewrite arr_cons. replace (argv + 4 * (i + 1)) with (argv + 4 * i + Z.of_nat (length (le_bytes 4 p))) by (rewrite length_le_bytes; lia).
    rewrite write_app. unfold m1. do 2 f_equal. apply write_comm. rewrite length_le_bytes. unfold disjoint_blocks. lia.
  - apply holds_write_other; [done|]. rewrite length_le_bytes. unfold disjoint_blocks. lia.
  - apply mapped_write. split; [lia|]. intros k Hk. replace (argv + 4 * (i + 1) + Z.of_nat k) with (argv + 4 * i + Z.of_nat (4 + k)) by lia. apply Hm. lia.
  - unfold disjoint_blocks. lia.
Qed.

(** Words that are not empty take two bytes. *)
Lemma line_length ts : Forall (λ t, t ≠ []) ts → (2 * length ts ≤ length (line ts))%nat.
Proof.
  induction 1 as [|t ts Ht _ IH]; [done|]. rewrite length_line_cons. cbn [length]. destruct t; [done|]. cbn [length]. lia.
Qed.

(** The address of the words that the loader leaves. *)
Definition loader_args : Z := PHYS_BASE + LOADER_ARGS.

(** What the loader leaves: the number of words and the words. *)
Record loaded (m : mem) (ts : list (list Z)) : Prop := {
  ld_cnt : holds m (PHYS_BASE + LOADER_ARG_CNT) (le_bytes 4 (Z.of_nat (length ts)));
  ld_line : holds m loader_args (line ts);
  ld_bytes : Forall (Forall (λ b, 0 < b < 256)) ts;
  ld_words : Forall (λ t, t ≠ []) ts;
  ld_fit : Z.of_nat (length (line ts)) ≤ LOADER_ARGS_LEN;
}.

Lemma read_command_line_ok m argv ts :
  loaded m ts → mapped m argv 260 → disjoint_blocks argv 260 loader_args 128 →
  ∃ m', read_command_line argv m = Ok (argv, m') ∧ arguments m' argv loader_args ts ∧
    ∀ a, ¬ argv ≤ a < argv + 260 → m' !! a = m !! a.
Proof.
  intros [Hc Hl Hb Hw Hf] Hm Hd. pose proof (line_length ts Hw) as Hn. change LOADER_ARGS_LEN with 128 in Hf.
  unfold disjoint_blocks in Hd. pose proof Hm as [Hmr Hm']. unfold read_command_line.
  erewrite st_bind_ok by reflexivity.
  erewrite st_bind_ok.
  2: { apply loadw_word; [exact Hc|]. unfold in_u32. lia. }
  rewrite s32_id by (unfold in_s32; lia). erewrite st_bind_ok by reflexivity.
  change (u32 (LOADER_ARGS + PHYS_BASE)) with loader_args. change (u32 (loader_args + LOADER_ARGS_LEN)) with (loader_args + 128).
  rewrite Nat2Z.id. erewrite st_bind_ok.
  2: { apply command_words_ok; [done|done|lia|lia| | |change loader_args with 3221257534 in *; lia].
       - rewrite Z.add_0_r. split; [lia|]. intros k Hk. apply Hm'. lia.
       - unfold disjoint_blocks. lia. }
  rewrite Z.add_0_r, u32_id by (unfold in_u32; lia). set (m1 := write argv _ m).
  erewrite st_bind_ok.
  2: { apply storew_ok. apply mapped_write. split; [lia|]. intros k Hk.
       replace (argv + 4 * Z.of_nat (length ts) + Z.of_nat k) with (argv + Z.of_nat (4 * length ts + k)) by lia. apply Hm'. lia. }
  set (m2 := write _ _ m1). exists m2. split; [done|].
  assert (E : m2 = write argv (arr (addrs loader_args ts ++ [NULL])) m).
  { unfold m2, m1. rewrite arr_app, write_app, length_arr, length_addrs.
    replace (argv + Z.of_nat (4 * length ts)) with (argv + 4 * Z.of_nat (length ts)) by lia.
    change (arr [NULL]) with (le_bytes 4 NULL). apply write_comm. rewrite length_le_bytes, length_arr, length_addrs. unfold disjoint_blocks. lia. }
  assert (Hlen : length (arr (addrs loader_args ts ++ [NULL])) = (4 * length ts + 4)%nat)
    by (rewrite length_arr, length_app, length_addrs; cbn [length]; lia).
  rewrite E. split; [split|].
  - apply holds_write; rewrite ?Hlen; lia.
  - apply holds_write_other; [done|]. rewrite Hlen. unfold disjoint_blocks. lia.
  - done.
  - intros a Ha. rewrite lookup_write, Hlen. by rewrite decide_False by lia.
Qed.

(** ** Options *)

(** The value of an option: a string, or a number in decimal. *)
Inductive opt_value := NoValue | Text (s : list Z) | Number (v : Z).

#[export] Instance opt_value_eq_dec : EqDecision opt_value.
Proof. solve_decision. Defined.

Record opt := Opt { o_name : list Z; o_value : opt_value }.

Definition value_text (v : opt_value) : list Z :=
  match v with NoValue => [] | Text s => s | Number v => show_int v end.

(** The word of an option. *)
Definition opt_text (o : opt) : list Z :=
  o_name o ++ match o_value o with NoValue => [] | v => 61 :: value_text v end.

Definition value_ok (v : opt_value) : Prop :=
  match v with NoValue => True | Text s => s ≠ [] ∧ Forall (λ b, 0 < b < 256) s | Number v => in_s32 v end.

#[export] Instance value_ok_dec v : Decision (value_ok v).
Proof. destruct v; cbn; apply _. Defined.

(** A name starts with a dash and has no equals sign; a seed and a limit are numbers. *)
Record opt_ok (o : opt) : Prop := {
  ok_name : head (o_name o) = Some 45;
  ok_bytes : Forall (λ b, 0 < b < 256) (o_name o);
  ok_plain : 61 ∉ o_name o;
  ok_value : value_ok (o_value o);
  ok_number : o_name o = str "-rs" ∨ o_name o = str "-ul" → ∀ s, o_value o ≠ Text s;
}.

(** The configuration. *)
Record config := Config {
  c_how : shutdown_type;
  c_format : bool;
  c_filesys : option (list Z);
  c_scratch : option (list Z);
  c_mlfqs : bool;
  c_limit : Z;
}.

Definition bdev (v : opt_value) : option (list Z) :=
  match v with NoValue => None | v => Some (value_text v) end.

(** The effect of an option: None when the machine is powered off. *)
Definition apply_option (o : opt) (c : config) : res (option config) :=
  let n := o_name o in
  let '(Config h f fs sc q l) := c in
  if decide (n = str "-h") then Ok None
  else if decide (n = str "-q") then Ok (Some (Config SHUTDOWN_POWER_OFF f fs sc q l))
  else if decide (n = str "-r") then Ok (Some (Config SHUTDOWN_REBOOT f fs sc q l))
  else if decide (n = str "-f") then Ok (Some (Config h true fs sc q l))
  else if decide (n = str "-filesys") then Ok (Some (Config h f (bdev (o_value o)) sc q l))
  else if decide (n = str "-scratch") then Ok (Some (Config h f fs (bdev (o_value o)) q l))
  else if decide (n = str "-rs") then match o_value o with Number _ => Ok (Some c) | _ => Err EPanic end
  else if decide (n = str "-mlfqs") then Ok (Some (Config h f fs sc true l))
  else if decide (n = str "-ul") then match o_value o with Number v => Ok (Some (Config h f fs sc q (u32 v))) | _ => Err EPanic end
  else Err EPanic.

Fixpoint apply_options (os : list opt) (c : config) : res (option config) :=
  match os with
  | [] => Ok (Some c)
  | o :: os => match apply_option o c with Ok (Some c) => apply_options os c | r => r end
  end.

(** A device's name in memory, between [lo] and [hi]. *)
Definition named (m : mem) (lo hi p : Z) (n : option (list Z)) : Prop :=
  match n with
  | None => p = NULL
  | Some n => cstr m p n ∧ lo ≤ p ∧ p + Z.of_nat (length n) < hi
  end.

Record represents (lo hi : Z) (s : booting) (c : config) : Prop := {
  rp_how : how s = c_how c;
  rp_format : format_filesys s = c_format c;
  rp_filesys : named (cram s) lo hi (filesys_bdev_name s) (c_filesys c);
  rp_scratch : named (cram s) lo hi (scratch_bdev_name s) (c_scratch c);
  rp_mlfqs : thread_mlfqs s = c_mlfqs c;
  rp_limit : user_page_limit s = c_limit c;
}.

Lemma named_agree m m' lo hi hi' p n :
  named m lo hi p n → hi ≤ hi' → (∀ a, lo ≤ a < hi → m' !! a = m !! a) → named m' lo hi' p n.
Proof.
  destruct n as [n|]; [|done]. cbn. intros (Hs & H1 & H2) Hh Ha. split_and!; [|done|lia].
  eapply cstr_agree; [done|]. intros a Hx. apply Ha. lia.
Qed.

Lemma show_int_nonempty v : show_int v ≠ [].
Proof.
  unfold show_int. cbn [item_sign item_body]. destruct (dec_digits (Z.abs v) ltac:(lia)) as [_ H].
  intros [_ E]%app_eq_nil. by apply H.
Qed.

Lemma value_text_ok v : value_ok v → v ≠ NoValue → value_text v ≠ [] ∧ Forall (λ b, 0 < b < 256) (value_text v).
Proof. destruct v; cbn; [done|tauto|]. intros _ _. split; [apply show_int_nonempty|apply show_int_bytes]. Qed.

(** The two calls of strtok_r. *)
Lemma split_option m base o eq_ none save :
  cstr m base (opt_text o) → opt_ok o → cstr m eq_ [61] → cstr m none [] → mapped m save 4 →
  disjoint_blocks save 4 base (S (length (opt_text o))) →
  disjoint_blocks eq_ 2 base (S (length (opt_text o))) → disjoint_blocks eq_ 2 save 4 →
  disjoint_blocks none 1 base (S (length (opt_text o))) → disjoint_blocks none 1 save 4 →
  ∃ value m1 m2, strtok_r base eq_ save m = Ok (base, m1) ∧ strtok_r NULL none save m1 = Ok (value, m2) ∧
    cstr m2 base (o_name o) ∧
    (if decide (o_value o = NoValue) then value = NULL
     else value = base + Z.of_nat (length (o_name o)) + 1 ∧ cstr m2 value (value_text (o_value o))) ∧
    (∀ a, is_Some (m !! a) → is_Some (m2 !! a)) ∧
    ∀ a, ¬ base ≤ a ≤ base + Z.of_nat (length (opt_text o)) → ¬ save ≤ a < save + 4 → m2 !! a = m !! a.
Proof.
  intros Hs [Hn Hb Hp Hv _] Heq Hnone Hsv D1 D2 D3 D4 D5. set (n := o_name o) in *.
  set (r := match o_value o with NoValue => [] | v => 61 :: value_text v end).
  assert (Et : opt_text o = [] ++ n ++ r) by done. rewrite Et in Hs, D1, D2, D4 |- *.
  assert (Htk : tokenizing m base base eq_ save ([] ++ n ++ r) [61]).
  { split; try done; [|by left]. unfold disjoint_blocks in *. cbn [length] in *. lia. }
  assert (Hne : n ≠ []) by (by destruct n).
  assert (Hr : ∀ b r', r = b :: r' → b ∈ [61]) by (unfold r; destruct (o_value o); intros b r' [= <- _]; left).
  assert (Hplain : Forall (.∉ [61]) n).
  { apply Forall_forall. intros x Hx ->%list_elem_of_singleton. done. }
  pose proof (strtok_r_some m base base eq_ save [61] _ [] n r Htk eq_refl ltac:(done) Hplain Hne Hr) as E1.
  pose proof (cut_tokenizing _ _ _ _ _ [] n r _ Htk) as H2. cbv zeta in E1, H2.
  set (e := base + Z.of_nat (length (@nil Z) + length n)) in *. fold (cut m save e r) in E1. set (m1 := cut m save e r) in *.
  rewrite Z.add_0_r in E1.
  pose proof (cut_token m base save [] n r Hs D1) as Hname. cbv zeta in Hname. fold e m1 in Hname. rewrite Z.add_0_r in Hname.
  rewrite !app_nil_l, !length_app in *. unfold disjoint_blocks in *.
  assert (Hout : ∀ a, ¬ base ≤ a ≤ base + Z.of_nat (length n + length r) → ¬ save ≤ a < save + 4 → m1 !! a = m !! a).
  { intros a Ha Ha'. apply cut_lookup; [|done]. unfold e. cbn [length]. lia. }
  assert (Hnone1 : cstr m1 none []) by (eapply cstr_agree; [done|]; intros a Ha; cbn [length] in *; apply Hout; lia).
  assert (H3 : tokenizing m1 NULL (resume e r) none save (tail r) []).
  { destruct H2 as [A1 A2 A3 A4 A5 A6 A7]. split; try done; unfold disjoint_blocks, e in *;
    destruct r; cbn [tail resume length] in *; lia. }
  assert (Hw : ∀ w q t, cstr m1 q t → base ≤ q → q + Z.of_nat (length t) ≤ base + Z.of_nat (length n + length r) →
    cstr (write save (le_bytes 4 w) m1) q t).
  { intros w q t Hq H4 H5. apply cstr_write; [done|]. rewrite length_le_bytes. unfold disjoint_blocks. lia. }
  assert (Hframe : ∀ w a, ¬ base ≤ a ≤ base + Z.of_nat (length n + length r) → ¬ save ≤ a < save + 4 →
    write save (le_bytes 4 w) m1 !! a = m !! a).
  { intros w a Ha Ha'. rewrite lookup_write, length_le_bytes, decide_False by lia. by apply Hout. }
  assert (Hsome : ∀ w a, is_Some (m !! a) → is_Some (write save (le_bytes 4 w) m1 !! a)).
  { intros w a Ha. apply write_some. unfold m1, cut. destruct r; repeat apply write_some; done. }
  destruct (decide (o_value o = NoValue)) as [Env|Env].
  - assert (Er : r = []) by (unfold r; by rewrite Env). rewrite Er in H3. cbn [resume tail] in H3.
    eexists NULL, m1, _. split_and!; [done|by apply (strtok_r_none _ _ _ _ _ _ [] H3)| |done|apply Hsome|apply Hframe].
    apply Hw; [done|lia|lia].
  - assert (Er : r = 61 :: value_text (o_value o)) by (unfold r; by destruct (o_value o)).
    destruct (value_text_ok _ Hv Env) as [Hvn Hvb]. rewrite Er in H3, Hw. cbn [resume tail length] in H3, Hw.
    pose proof (strtok_r_some m1 NULL (e + 1) none save [] _ [] (value_text (o_value o)) [] H3) as E2.
    cbv zeta in E2. rewrite app_nil_r, Z.add_0_r in E2.
    eexists (e + 1), m1, _. split_and!; [done|apply E2; try done| | | |apply Hsome|].
    + apply Forall_forall. intros x _. apply not_elem_of_nil.
    + apply Hw; [done|lia|lia].
    + unfold e. cbn [length]. lia.
    + apply Hw; [apply H3|unfold e; lia|unfold e; cbn [length]; lia].
    + apply Hframe.
Qed.

(** ** One option *)

Section options.
Context (lit : list Z → Z).

(** The literals of parse_options are in memory, and apart from a block. *)
Definition option_literals : list string :=
  ["="; ""; "-h"; "-q"; "-r"; "-f"; "-filesys"; "-scratch"; "-rs"; "-mlfqs"; "-ul"]%string.
Definition literals_at (m : mem) (l : list string) : Prop := Forall (λ x, cstr m (lit (str x)) (str x)) l.
Definition literals_apart (l : list string) (p : Z) (n : nat) : Prop :=
  Forall (λ x, disjoint_blocks (lit (str x)) (S (length (str x))) p n) l.

Lemma literals_agree m m' l :
  literals_at m l → (∀ x a, x ∈ l → lit (str x) ≤ a ≤ lit (str x) + Z.of_nat (length (str x)) → m' !! a = m !! a) → literals_at m' l.
Proof.
  intros H Ha. apply Forall_forall. intros x Hx. unfold literals_at in H. rewrite Forall_forall in H.
  eapply cstr_agree; [by apply H|]. intros a Hr. by eapply Ha.
Qed.

Lemma on_cram_ok {A} (c : MM A) s a m : c (cram s) = Ok (a, m) → on_cram c s = Ok (a, set_cram m s).
Proof. intros E. unfold on_cram. by rewrite E. Qed.

Lemma set_cram_same s : set_cram (cram s) s = s.
Proof. by destruct s. Qed.

Lemma option_case_ok s name n x yes no :
  cstr (cram s) name n → cstr (cram s) (lit (str x)) (str x) →
  option_case lit name x yes no s = if decide (n = str x) then yes s else no s.
Proof.
  intros Hn Hx. unfold option_case. erewrite st_bind_ok by (apply on_cram_ok, strcmp_ok; done). rewrite set_cram_same.
  pose proof (lex_strings n (str x) (proj2 Hn) (proj2 Hx)) as E.
  destruct (decide (lex (n ++ [0]) (str x ++ [0]) = 0)), (decide (n = str x)); tauto.
Qed.

(** The outcome [x] of an option whose effect is [r]. *)
Definition carried_out (lo hi : Z) (m : mem) (r : res (option config)) (x : res (bool * booting)) : Prop :=
  match r with
  | Err e => x = Err e
  | Ok None => ∃ s', x = Ok (false, s')
  | Ok (Some c) => ∃ s', x = Ok (true, s') ∧ represents lo hi s' c ∧ rng_ok (generator s') ∧ cram s' = m
  end.

(** The chain of comparisons. *)
Lemma option_effect s o c lo hi name value :
  opt_ok o → cstr (cram s) name (o_name o) → literals_at (cram s) option_literals →
  represents lo hi s c → rng_ok (generator s) → named (cram s) lo hi value (bdev (o_value o)) →
  carried_out lo hi (cram s) (apply_option o c)
    (set_option lit name value s).
Proof.
  intros Ho Hn Hl [R1 R2 R3 R4 R5 R6] Hg Hv. destruct c as [h f fs sc q l]. cbn in R1, R2, R3, R4, R5, R6.
  unfold literals_at in Hl. rewrite Forall_forall in Hl.
  assert (Hnum : ∀ k, o_value o = Number k → atoi value (cram s) = Ok (k, cram s)).
  { intros k E. rewrite E in Hv. destruct Hv as [Hv _]. pose proof (ok_value _ Ho) as Hk. rewrite E in Hk.
    by apply atoi_show_int. }
  assert (Hnone : o_value o = NoValue → atoi value (cram s) = Err EPanic).
  { intros E. rewrite E in Hv. cbn in Hv. by rewrite Hv. }
  pose proof (ok_number _ Ho) as Htext. unfold apply_option, set_option.
  repeat (rewrite (option_case_ok s name (o_name o)); [|done|apply Hl; unfold option_literals; rewrite !elem_of_cons; tauto];
    match goal with |- context [decide (o_name o = ?x)] => destruct (decide (o_name o = x)) as [E|?] end; [|cbv iota]).
  all: unfold carried_out; try (eexists; split; [reflexivity|]; split; [by split|done]).
  - by eexists.
  - destruct (o_value o) as [|t|k] eqn:Ev.
    + apply st_bind_err. unfold on_cram. by rewrite Hnone.
    + by destruct (Htext (or_introl E) t).
    + destruct (random_init_ok (generator s) (u32 k) Hg) as (g & Eg & Hg' & _).
      exists (set_generator g s). split; [|split; [by split|done]].
      erewrite st_bind_ok by (apply on_cram_ok; by apply Hnum). rewrite set_cram_same.
      erewrite st_bind_ok; [reflexivity|]. unfold on_generator. by rewrite Eg.
  - destruct (o_value o) as [|t|k] eqn:Ev.
    + apply st_bind_err. unfold on_cram. by rewrite Hnone.
    + by destruct (Htext (or_intror E) t).
    + eexists. split; [erewrite st_bind_ok by (apply on_cram_ok; by apply Hnum); rewrite set_cram_same; reflexivity|].
      split; [by split|done].
  - done.
Qed.
(** What must not overlap. *)
Record layout (save argv base : Z) (ts : list (list Z)) : Prop := {
  ly_save_argv : disjoint_blocks save 4 argv (4 * S (length ts));
  ly_save_line : disjoint_blocks save 4 base (length (line ts));
  ly_argv_line : disjoint_blocks argv (4 * S (length ts)) base (length (line ts));
  ly_lit_save : literals_apart option_literals save 4;
  ly_lit_line : literals_apart option_literals base (length (line ts));
}.

Lemma layout_tail save argv base t ts :
  layout save argv base (t :: ts) → layout save (argv + 4) (base + Z.of_nat (S (length t))) ts.
Proof.
  intros [H1 H2 H3 H4 H5]. rewrite length_line_cons in *. cbn [length] in *. unfold disjoint_blocks in *. split; try done.
  - unfold disjoint_blocks. lia.
  - unfold disjoint_blocks. lia.
  - unfold disjoint_blocks. lia.
  - eapply Forall_impl; [exact H5|]. unfold disjoint_blocks. intros x Hx. lia.
Qed.

Lemma represents_agree lo hi hi' s m c :
  represents lo hi s c → hi ≤ hi' → (∀ a, lo ≤ a < hi → m !! a = cram s !! a) → represents lo hi' (set_cram m s) c.
Proof. intros [? ? H3 H4 ? ?] Hh Ha. split; try done; by eapply named_agree. Qed.

(** The option at [base]. *)
Lemma parse_option_ok s o c lo save argv base ts :
  cstr (cram s) base (opt_text o) → opt_ok o → literals_at (cram s) option_literals → mapped (cram s) save 4 →
  layout save argv base (opt_text o :: ts) → represents lo base s c → rng_ok (generator s) → lo ≤ base →
  (save + 4 ≤ lo ∨ base ≤ save) →
  ∃ m, carried_out lo (base + Z.of_nat (S (length (opt_text o)))) m (apply_option o c) (parse_option lit save base s) ∧
    literals_at m option_literals ∧ (∀ a, is_Some (cram s !! a) → is_Some (m !! a)) ∧
    ∀ a, ¬ base ≤ a < base + Z.of_nat (S (length (opt_text o))) → ¬ save ≤ a < save + 4 → m !! a = cram s !! a.
Proof.
  intros Hs Ho Hl Hsv [L1 L2 L3 L4 L5] Hr Hg Hlo Hsl. rewrite length_line_cons in L2, L5.
  unfold literals_apart in L4, L5. rewrite Forall_forall in L4, L5. unfold disjoint_blocks in L2, L4, L5.
  pose proof Hl as Hl'. unfold literals_at in Hl'. rewrite Forall_forall in Hl'.
  assert (Heq : "="%string ∈ option_literals) by (unfold option_literals; rewrite !elem_of_cons; tauto).
  assert (Hno : ""%string ∈ option_literals) by (unfold option_literals; rewrite !elem_of_cons; tauto).
  destruct (split_option (cram s) base o (lit (str "=")) (lit (str "")) save Hs Ho (Hl' _ Heq) (Hl' _ Hno) Hsv)
    as (value & m1 & m2 & E1 & E2 & Hn & Hv & Hsome & Hout); try (pose proof (L4 _ Heq); pose proof (L5 _ Heq);
      pose proof (L4 _ Hno); pose proof (L5 _ Hno); unfold disjoint_blocks; cbn [str length] in *; cbn in *; lia).
  assert (Hlit2 : literals_at m2 option_literals).
  { eapply literals_agree; [done|]. intros x a Hx Ha. pose proof (L4 x Hx). pose proof (L5 x Hx). apply Hout; lia. }
  exists m2. split_and!; [|done|done|intros a Ha Ha'; apply Hout; lia].
  unfold parse_option. erewrite st_bind_ok by (by apply on_cram_ok). erewrite st_bind_ok by (by apply on_cram_ok).
  apply option_effect; try done.
  - change (set_cram m2 (set_cram m1 s)) with (set_cram m2 s). apply (represents_agree lo base); [done|lia|].
    intros a Ha. apply Hout; lia.
  - cbn [cram set_cram]. destruct (decide (o_value o = NoValue)) as [Env|Env]; [by rewrite Hv, Env|].
    destruct Hv as [-> Hv]. assert (Eb : bdev (o_value o) = Some (value_text (o_value o))) by (by destruct (o_value o)).
    rewrite Eb. split_and!; [done|lia|]. unfold opt_text. rewrite length_app. destruct (o_value o); [done|cbn [length]; lia..].
Qed.

(** The word that follows the options is not an option. *)
Definition not_option (ts : list (list Z)) : Prop := match ts with [] => True | t :: _ => head t ≠ Some 45 end.

Lemma options_loop_ok os : ∀ s c lo save argv base ts fuel,
  let words := (opt_text <$> os) ++ ts in
  let n := Z.of_nat (length (line (opt_text <$> os))) in
  arguments (cram s) argv base words → Forall opt_ok os → not_option ts → literals_at (cram s) option_literals →
  mapped (cram s) save 4 → layout save argv base words → represents lo base s c → rng_ok (generator s) → lo ≤ base →
  (save + 4 ≤ lo ∨ base ≤ save) → (length os < fuel)%nat →
  match apply_options os c with
  | Err e => options_loop lit fuel save argv s = Err e
  | Ok None => ∃ s', options_loop lit fuel save argv s = Ok (None, s')
  | Ok (Some c') => ∃ s', options_loop lit fuel save argv s = Ok (Some (argv + 4 * Z.of_nat (length os)), s') ∧
      represents lo (base + n) s' c' ∧ rng_ok (generator s') ∧
      arguments (cram s') (argv + 4 * Z.of_nat (length os)) (base + n) ts ∧
      ∀ a, ¬ base ≤ a < base + n → ¬ save ≤ a < save + 4 → cram s' !! a = cram s !! a
  end.
Proof.
  induction os as [|o os IH]; intros s c lo save argv base ts fuel words n Ha Hos Hts Hl Hsv Hly Hr Hg Hlo Hsl Hf;
    destruct fuel as [|fuel]; try (cbn in Hf; lia).
  - cbn [apply_options]. unfold n. cbn [fmap list_fmap line concat length] in *. rewrite !Z.add_0_r. exists s. split_and!; try done.
    cbn [options_loop]. destruct ts as [|t ts].
    + erewrite st_bind_ok by (apply on_cram_ok; by eapply arguments_nil). by rewrite set_cram_same.
    + destruct (arguments_cons _ _ _ _ _ Ha) as (E & Hne & Hs & _). erewrite st_bind_ok by (by apply on_cram_ok).
      rewrite decide_False by done. rewrite set_cram_same.
      assert (Ec : ∃ x, load base (cram s) = Ok (x, cram s) ∧ x ≠ 45).
      { destruct t as [|x t]; [exists 0; split; [by apply cstr_nil|done]|]. apply cstr_cons in Hs as (E' & _). exists x. cbn in Hts. naive_solver. }
      destruct Ec as (x & Ex & Hx). erewrite st_bind_ok by (by apply on_cram_ok). rewrite set_cram_same. by rewrite decide_False.
  - apply Forall_cons in Hos as [Ho Hos]. unfold words in *. cbn [fmap list_fmap app] in *.
    destruct (arguments_cons _ _ _ _ _ Ha) as (E & Hne & Hs & Eu & Ha'). pose proof (layout_tail _ _ _ _ _ Hly) as Hly'.
    destruct (parse_option_ok s o c lo save argv base _ Hs Ho Hl Hsv Hly Hr Hg Hlo Hsl) as (m & Hc & Hl' & Hsome & Hout).
    cbn [options_loop apply_options]. erewrite st_bind_ok by (by apply on_cram_ok). rewrite set_cram_same, decide_False by done.
    assert (Ec : load base (cram s) = Ok (45, cram s)).
    { pose proof (ok_name _ Ho) as Hh. unfold opt_text in Hs. destruct (o_name o) as [|x nm]; [done|]. injection Hh as ->.
      by apply cstr_cons in Hs as (E' & _). }
    erewrite st_bind_ok by (by apply on_cram_ok). rewrite set_cram_same, decide_True by done.
    destruct (apply_option o c) as [[c1|]|e]; cbn [carried_out] in Hc.
    + destruct Hc as (s1 & E1 & Hr1 & Hg1 & <-). erewrite st_bind_ok by exact E1. cbv iota. rewrite Eu.
      destruct Hly as [L1 L2 L3 _ _]. unfold disjoint_blocks in L1, L2, L3. rewrite !length_line_cons in L2, L3. cbn [length] in L1, L3.
      pose proof (length_line_cons (opt_text o) (opt_text <$> os)) as En.
      specialize (IH s1 c1 lo save (argv + 4) (base + Z.of_nat (S (length (opt_text o)))) ts fuel).
      cbv zeta in IH. unfold n. rewrite En.
      assert (Hargs : arguments (cram s1) (argv + 4) (base + Z.of_nat (S (length (opt_text o)))) ((opt_text <$> os) ++ ts)).
      { eapply arguments_agree; [exact Ha'|intros a Hx; apply Hout; lia..]. }
      specialize (IH Hargs Hos Hts Hl').
      assert (Hm1 : mapped (cram s1) save 4).
      { destruct Hsv as [Hr0 Hm]. split; [done|]. intros i Hi. by apply Hsome, Hm. }
      assert (Hlo1 : lo ≤ base + Z.of_nat (S (length (opt_text o)))) by lia.
      assert (Hsl1 : save + 4 ≤ lo ∨ base + Z.of_nat (S (length (opt_text o))) ≤ save) by lia.
      specialize (IH Hm1 Hly' Hr1 Hg1 Hlo1 Hsl1 ltac:(cbn in Hf; lia)).
      destruct (apply_options os c1) as [[c2|]|e]; [|done|done]. destruct IH as (s2 & E2 & Hr2 & Hg2 & Ha2 & Hout2).
      exists s2. cbn [length].
      replace (argv + 4 * Z.of_nat (S (length os))) with (argv + 4 + 4 * Z.of_nat (length os)) by lia.
      replace (base + Z.of_nat (S (length (opt_text o)) + length (line (opt_text <$> os))))
        with (base + Z.of_nat (S (length (opt_text o))) + Z.of_nat (length (line (opt_text <$> os)))) by lia.
      split_and!; [done..|]. intros a Hx Hx'. rewrite Hout2 by (done || lia). apply Hout; [lia|done].
    + destruct Hc as (s1 & E1). exists s1. by erewrite st_bind_ok by exact E1.
    + by apply st_bind_err.
Qed.
End options.

(** ** Actions *)

Definition lookup_action (w : list Z) : option action :=
  if decide (w = str "run") then Some run_task
  else if decide (w = str "ls") then Some fsutil_ls
  else if decide (w = str "cat") then Some fsutil_cat
  else if decide (w = str "rm") then Some fsutil_rm
  else if decide (w = str "extract") then Some fsutil_extract
  else if decide (w = str "append") then Some fsutil_append
  else None.

(** ls and extract stand alone; the other actions have one argument. *)
Definition takes_argument (a : action) : bool := match a with fsutil_ls | fsutil_extract => false | _ => true end.

Definition action_literals : list string := ["run"; "ls"; "cat"; "rm"; "extract"; "append"]%string.

Section perform.
Context {X : Type} (act : action → list (list Z) → X → res X).

(** The actions that the words [ts] stand for, one after the other. *)
Fixpoint perform (ts : list (list Z)) (x : X) : res X :=
  match ts with
  | [] => Ok x
  | t :: ts =>
      match lookup_action t with
      | None => Err EPanic
      | Some a =>
          if takes_argument a then
            match ts with [] => Err EPanic | u :: ts => x ← act a [t; u] x; perform ts x end
          else x ← act a [t] x; perform ts x
      end
  end.

Context (lit : list Z → Z) (function : action → Z → ST (mem * X) ()).

(** The routines for the actions do what [act] says, given their words, and
    leave the command line and the literals alone. *)
Definition carries_out : Prop := ∀ a argv base us ts m x,
  arguments m argv base (us ++ ts) → length us = (if takes_argument a then 2 else 1)%nat →
  match act a us x with
  | Ok x' => ∃ m', function a argv (m, x) = Ok ((), (m', x')) ∧
      (∀ argv base ts, arguments m argv base ts → arguments m' argv base ts) ∧
      (literals_at lit m action_literals → literals_at lit m' action_literals)
  | Err e => function a argv (m, x) = Err e
  end.

Lemma on_memory_ok {A} (c : MM A) m (x : X) a m' : c m = Ok (a, m') → on_mem c (m, x) = Ok (a, (m', x)).
Proof. intros E. unfold on_mem. cbn. by rewrite E. Qed.

Lemma find_action_ok m (x : X) name w :
  cstr m name w → literals_at lit m action_literals →
  find_action lit actions name (m, x) =
    match lookup_action w with
    | Some a => Ok ((if takes_argument a then 2 else 1, a), (m, x))
    | None => Err EPanic
    end.
Proof.
  intros Hw Hl. unfold literals_at in Hl. rewrite Forall_forall in Hl.
  assert (H : ∀ s l argc a (P : res (Z * action * (mem * X))), s ∈ action_literals →
    (w = str s → Ok ((argc, a), (m, x)) = P) → (w ≠ str s → find_action lit l name (m, x) = P) →
    find_action lit ((s, argc, a) :: l) name (m, x) = P).
  { intros s l argc a P Hs H1 H2. cbn [find_action]. pose proof (Hl s Hs) as Hc.
    erewrite st_bind_ok by (by apply on_memory_ok, strcmp_ok). pose proof (lex_strings w (str s) (proj2 Hw) (proj2 Hc)).
    case_decide; [apply H1|apply H2]; tauto. }
  assert (Hin : ∀ s, s ∈ action_literals → s ∈ action_literals) by done. unfold action_literals in Hin at 1.
  unfold actions, lookup_action.
  do 6 (apply H; [apply Hin; rewrite !elem_of_cons; tauto|intros ->; reflexivity|
    intros Hne; rewrite decide_False by exact Hne; clear Hne]). done.
Qed.

Lemma actions_loop_ok (Hact : carries_out) fuel : ∀ argv base ts m x,
  arguments m argv base ts → literals_at lit m action_literals → (length ts < fuel)%nat →
  match perform ts x with
  | Ok x' => ∃ m', actions_loop lit function fuel argv (m, x) = Ok ((), (m', x'))
  | Err e => actions_loop lit function fuel argv (m, x) = Err e
  end.
Proof.
  induction fuel as [|fuel IH]; intros argv base ts m x Ha Hl Hf; [lia|]. cbn [actions_loop]. destruct ts as [|t ts].
  { exists m. erewrite st_bind_ok by (by apply on_memory_ok, (arguments_nil m argv base)). done. }
  destruct (arguments_cons _ _ _ _ _ Ha) as (E & Hne & Hs & Eu & Ha'). erewrite st_bind_ok by (by apply on_memory_ok).
  rewrite decide_False by done. cbn [perform]. pose proof (find_action_ok m x base t Hs Hl) as Ef.
  destruct (lookup_action t) as [a|]; [|by apply st_bind_err]. erewrite st_bind_ok by exact Ef. cbn [fst snd length] in *.
  destruct (takes_argument a) eqn:Et.
  - change (Z.to_nat (2 - 1)) with 1%nat. cbn [check_arguments]. change (4 * 1) with 4. rewrite Eu. destruct ts as [|u ts].
    { apply st_bind_err. erewrite st_bind_ok by (apply on_memory_ok; by eapply arguments_nil). done. }
    destruct (arguments_cons _ _ _ _ _ Ha') as (E' & Hne' & _ & Eu' & Ha''). cbn [length] in Hf.
    erewrite st_bind_ok by (erewrite st_bind_ok by (by apply on_memory_ok); by rewrite decide_False).
    specialize (Hact a argv base [t; u] ts m x Ha). rewrite Et in Hact. specialize (Hact eq_refl).
    cbn [mbind res_bind]. destruct (act a [t; u] x) as [x'|e]; [|by apply st_bind_err].
    destruct Hact as (m' & E2 & Hk & Hk'). erewrite st_bind_ok by exact E2. change (4 * 2) with 8.
    replace (argv + 8) with (argv + 4 + 4) by lia. rewrite Eu'. eapply IH; [by apply Hk|by apply Hk'|lia].
  - change (Z.to_nat (1 - 1)) with 0%nat. cbn [check_arguments]. erewrite st_bind_ok by done.
    specialize (Hact a argv base [t] ts m x Ha). rewrite Et in Hact. specialize (Hact eq_refl).
    cbn [mbind res_bind]. destruct (act a [t] x) as [x'|e]; [|by apply st_bind_err].
    destruct Hact as (m' & E2 & Hk & Hk'). erewrite st_bind_ok by exact E2. change (4 * 1) with 4. rewrite Eu.
    eapply IH; [by apply Hk|by apply Hk'|lia].
Qed.
End perform.
