(* ===== verification/InitTheorems.v ===== *)
(** * Theorems on booting

    The kernel's page directory and the kernel command line. *)

From Stdlib Require Import String.
From S2P Require Import Prelude Bitmap Inode Memory CString Random CStdlib Vaddr Palloc Pagedir.
From S2P Require Import MemTheorems Stdio StdioSpec Ustar Block BlockSpec Partition Paging Init InitSpec.

Local Open Scope Z_scope.

(** ** The kernel's page directory *)

(** The page tables that [n] pages of memory take. *)
Definition tables_for (n : Z) : Z := (n + 1023) / 1024.

(** C20: with one free page for the directory and one for each page table,
    paging_init builds and loads a directory that maps every byte of physical memory at
    PHYS_BASE, the kernel's code read-only and the rest writable, nothing of it
    for user programs, and that maps nothing else; it is a directory that
    pagedir_create can start from.  With fewer free pages it panics. *)
Theorem paging_init_maps start end_kernel_text s :
  pages_ok (vm s) → bytes_ok (mem_of s) → PHYS_BASE ≤ Palloc.base (kernel_pool (vm s)) → 0 ≤ init_ram_pages s ≤ 2^18 →
  if decide (tables_for (init_ram_pages s) < Z.of_nat (free_pages (vm s))) then
    ∃ s', paging_init start end_kernel_text s = Ok ((), s') ∧ kernel_dir s' ∧ tlb s' = ∅ ∧
      cr3 s' = init_page_dir s' - PHYS_BASE ∧
      ∀ v, 0 ≤ v < 2^32 → translate (mem_of s') (cr3 s') v =
        if decide (PHYS_BASE ≤ v < PHYS_BASE + 4096 * init_ram_pages s)
        then Some (v - PHYS_BASE, bool_decide (¬ start ≤ v - v `mod` 4096 < end_kernel_text), false) else None
  else paging_init start end_kernel_text s = Err EPanic.
Proof.
  intros Hp Hb Hh Hn. unfold paging_init. set (n := init_ram_pages s) in *.
  assert (Ht : 0 ≤ tables_for n) by (unfold tables_for; clear - Hn; dlia).
  destruct (palloc_zeroed_assert (vm s) Hp) as (zs & Hzs & [(i & b & Hal & Eg)|[Hf Eg]]).
  2: { rewrite (full_free (vm s)), decide_False by (apply Hp || done || lia). apply st_bind_err. unfold on_vm. by rewrite Eg. }
  erewrite st_bind_ok by (unfold on_vm; by rewrite Eg). erewrite st_bind_ok by done.
  change (st_get ≫= ?k) with (λ s, k s s). cbn beta.
  pose proof (start_building start end_kernel_text s i b zs Hp Hb Hh Hzs Hal n (cr3 s) (tlb s)) as Hs.
  set (pd := Palloc.base (kernel_pool (vm s)) + 4096 * i) in *.
  cbn [with_vm vm init_ram_pages cr3 tlb]. fold n. set (s1 := Machine _ _ _ _ _) in *.
  assert (Hfree : free_pages (vm s) = S (free_pages (vm s1))) by (by apply (allocates_free _ _ i b Hal)).
  destruct (paging_loop_ok start end_kernel_text (Z.to_nat n) s1 pd [] 0 NULL Hs) as
    [(s2 & ts & E & Hb2 & Hl & Hf & Hi & Hr)|[E Hf]]; try done; try lia.
  - rewrite Z2Nat.id, Z.add_0_l in * by lia. fold (tables_for n) in Hl. cbn [length] in Hf. rewrite decide_True by lia.
    erewrite st_bind_ok by exact E. erewrite st_bind_ok by done. rewrite Hi. cbn [s1 init_page_dir].
    destruct (building_page _ _ _ _ _ _ pd Hb2 ltac:(left)) as (_ & Hph & Hpr & _).
    erewrite st_bind_ok by (apply st_res_ok; unfold vtop, is_kernel_vaddr; rewrite bool_decide_true by done; reflexivity).
    rewrite u32_id by (unfold in_u32, PHYS_BASE in *; lia). eexists. split; [reflexivity|].
    assert (Hk : building start end_kernel_text (Machine (vm s2) (init_page_dir s2) (init_ram_pages s2) (pd - PHYS_BASE) ∅) pd ts n)
      by (destruct Hb2; by split).
    cbn [tlb cr3 init_page_dir]. rewrite Hi in Hk |- *. split_and!; [|done|done|].
    + split; [by eapply building_dir|]. intros j Hj. by apply Hk.
    + intros v Hv. by apply (translate_built start end_kernel_text _ pd ts n).
  - rewrite Z2Nat.id, Z.add_0_l in Hf by lia. fold (tables_for n) in Hf. cbn [length] in Hf. rewrite decide_False by lia. by apply st_bind_err.
Qed.

Definition demo_boot : machine := Machine (demo_pages 0) NULL 1024 0 ∅.

Lemma demo_free : Z.of_nat (free_pages (vm demo_boot)) = 2.
Proof. reflexivity. Qed.

Lemma paging_init_maps_witness :
  ∃ s', paging_init 3221356544 3221422080 demo_boot = Ok ((), s') ∧
    translate (mem_of s') (cr3 s') 3222274339 = Some (1048867, true, false) ∧
    translate (mem_of s') (cr3 s') 3221356644 = Some (131172, false, false) ∧
    translate (mem_of s') (cr3 s') 134512640 = None.
Proof.
  pose proof (paging_init_maps 3221356544 3221422080 demo_boot) as H.
  destruct (decide (tables_for (init_ram_pages demo_boot) < Z.of_nat (free_pages (vm demo_boot)))) as [Hf|Hf];
    [|exfalso; apply Hf; rewrite demo_free; reflexivity].
  destruct H as (s' & E & _ & _ & _ & Ht).
  - apply demo_pages_ok. unfold in_u32. lia.
  - exact demo_bytes.
  - cbn. unfold PHYS_BASE. lia.
  - cbn. lia.
  - exists s'. split; [exact E|]. rewrite !Ht by lia. split_and!; reflexivity.
Defined.

(** ** The command line *)

(** The command line, the array and the variable do not overlap, and are apart
    from the literals. *)
Record memory_layout (lit : list Z → Z) (m : mem) (save argv : Z) : Prop := {
  ml_save : mapped m save 4;
  ml_argv : mapped m argv 260;
  ml_options : literals_at lit m option_literals;
  ml_actions : literals_at lit m action_literals;
  ml_save_argv : disjoint_blocks save 4 argv 260;
  ml_save_args : disjoint_blocks save 4 loader_args 128;
  ml_argv_args : disjoint_blocks argv 260 loader_args 128;
  ml_lit_save : literals_apart lit (option_literals ++ action_literals) save 4;
  ml_lit_argv : literals_apart lit (option_literals ++ action_literals) argv 260;
  ml_lit_args : literals_apart lit (option_literals ++ action_literals) loader_args 128;
}.

Lemma layout_ok lit m save argv ts :
  memory_layout lit m save argv → (2 * length ts ≤ length (line ts))%nat → Z.of_nat (length (line ts)) ≤ 128 →
  layout lit save argv loader_args ts.
Proof.
  intros [_ _ _ _ H1 H2 H3 H4 H5 H6] Hn Hl. unfold disjoint_blocks in *. split; unfold disjoint_blocks; [lia..| |].
  - by apply Forall_app in H4 as [? _].
  - apply Forall_app in H6 as [H _]. eapply Forall_impl; [exact H|]. unfold disjoint_blocks. intros x Hx. lia.
Qed.

(** Literals that are not touched. *)
Lemma literals_kept lit m m' l p n :
  literals_at lit m l → literals_apart lit l p n → (∀ a, ¬ p ≤ a < p + Z.of_nat n → m' !! a = m !! a) → literals_at lit m' l.
Proof.
  intros H Hp Ha. eapply literals_agree; [done|]. intros x a Hx Hr. unfold literals_apart in Hp. rewrite Forall_forall in Hp.
  pose proof (Hp x Hx) as Hd. unfold disjoint_blocks in Hd. apply Ha. lia.
Qed.

(** parse_options, as main calls it. *)
Lemma command_line_ok lit now save argv s os ts :
  loaded (cram s) ((opt_text <$> os) ++ ts) → memory_layout lit (cram s) save argv → Forall opt_ok os → not_option ts →
  rng_ok (generator s) → filesys_bdev_name s = NULL → scratch_bdev_name s = NULL →
  match apply_options os (Config (how s) (format_filesys s) None None (thread_mlfqs s) (user_page_limit s)) with
  | Err e => command_line lit now save argv s = Err e
  | Ok None => ∃ s', command_line lit now save argv s = Ok (None, s')
  | Ok (Some c) => ∃ argv' s' hi, command_line lit now save argv s = Ok (Some argv', s') ∧
      represents loader_args hi s' c ∧ (∀ r, rng_ok r → random_init (u32 now) r = Ok ((), generator s')) ∧
      arguments (cram s') argv' hi ts ∧ literals_at lit (cram s') action_literals ∧ (length ts < steps (cram s'))%nat
  end.
Proof.
  intros Hld Hly Hos Hts Hg Hf Hsc. set (c0 := Config _ _ _ _ _ _). pose proof (line_length _ (ld_words _ _ Hld)) as Hn.
  pose proof (ld_fit _ _ Hld) as Hfit. change LOADER_ARGS_LEN with 128 in Hfit.
  destruct (read_command_line_ok (cram s) argv _ Hld (ml_argv _ _ _ _ Hly) (ml_argv_args _ _ _ _ Hly)) as (m1 & E1 & Ha1 & Hout1).
  pose proof (layout_ok _ _ _ _ _ Hly Hn Hfit) as Hlay.
  destruct Hly as [Hsv Hav Ho Hac D1 D2 D3 D4 D5 D6]. apply Forall_app in D4 as [D4o D4a], D5 as [D5o D5a], D6 as [D6o D6a].
  unfold command_line. erewrite (st_bind_ok _ _ s) by (by apply on_cram_ok).
  set (s1 := set_cram m1 s). unfold parse_options. change (st_get ≫= ?k) with (λ s, k s s). cbn beta.
  assert (Hsv1 : mapped m1 save 4).
  { destruct Hsv as [Hr Hm]. split; [done|]. intros i Hi. unfold disjoint_blocks in D1. rewrite Hout1 by lia. by apply Hm. }
  assert (Hr1 : represents loader_args loader_args s1 c0) by (split; cbn; done).
  assert (Hsize : (length ((opt_text <$> os) ++ ts) < steps m1)%nat).
  { destruct Ha1 as [Hh _ _]. apply holds_size in Hh. rewrite length_arr, length_app, length_addrs in Hh. cbn [length] in Hh. unfold steps. lia. }
  rewrite length_app, length_fmap in Hsize.
  pose proof (options_loop_ok lit os s1 c0 loader_args save argv loader_args ts (steps m1) Ha1 Hos Hts
    (literals_kept _ _ _ _ _ 260 Ho D5o Hout1) Hsv1 Hlay Hr1 Hg ltac:(lia) ltac:(unfold disjoint_blocks in D2; lia) ltac:(lia)) as HL.
  change (cram s1) with m1. destruct (apply_options os c0) as [[c|]|e].
  - destruct HL as (s2 & E2 & Hr2 & Hg2 & Ha2 & Hout2). cbv zeta in *.
    destruct (random_init_state (u32 now)) as (g & _ & _ & Eg).
    eexists _, (set_generator g s2), _. split_and!.
    + erewrite st_bind_ok by exact E2. cbv iota. erewrite st_bind_ok by (unfold on_generator; rewrite (Eg _ Hg2); reflexivity). reflexivity.
    + destruct Hr2. by split.
    + done.
    + exact Ha2.
    + cbn [cram set_generator]. rewrite line_app, length_app in Hfit.
      eapply literals_agree; [exact (literals_kept _ _ _ _ _ 260 Hac D5a Hout1)|]. intros x a Hx Hr.
      unfold literals_apart in D4a, D6a. rewrite Forall_forall in D4a, D6a.
      pose proof (D4a x Hx). pose proof (D6a x Hx). unfold disjoint_blocks in *. apply Hout2; lia.
    + destruct Ha2 as [Hh _ _]. apply holds_size in Hh. rewrite length_arr, length_app, length_addrs in Hh. cbn [length] in Hh.
      unfold steps. cbn [cram set_generator]. lia.
  - destruct HL as (s2 & E2). exists s2. by erewrite st_bind_ok by exact E2.
  - by apply st_bind_err.
Qed.

(** C21: the kernel command line that the loader leaves, a number of options followed by
    the words of actions, is carried out as written: the options set the
    kernel's configuration in order, an unknown option or a missing number
    panics and -h powers the machine off; then run_actions performs the actions
    in order, and panics at an unknown one or at one whose argument is missing.
    The random generator ends up seeded with the time of day, whatever -rs says. *)
Theorem command_line_carried_out {X} (act : action → list (list Z) → X → res X) lit function now save argv s os ts :
  loaded (cram s) ((opt_text <$> os) ++ ts) → memory_layout lit (cram s) save argv → Forall opt_ok os → not_option ts →
  rng_ok (generator s) → filesys_bdev_name s = NULL → scratch_bdev_name s = NULL → carries_out act lit function →
  match apply_options os (Config (how s) (format_filesys s) None None (thread_mlfqs s) (user_page_limit s)) with
  | Err e => command_line lit now save argv s = Err e
  | Ok None => ∃ s', command_line lit now save argv s = Ok (None, s')
  | Ok (Some c) => ∃ argv' s' hi, command_line lit now save argv s = Ok (Some argv', s') ∧
      represents loader_args hi s' c ∧ (∀ r, rng_ok r → random_init (u32 now) r = Ok ((), generator s')) ∧
      ∀ x, match perform act ts x with
           | Ok x' => ∃ m', run_actions lit function argv' (cram s', x) = Ok ((), (m', x'))
           | Err e => run_actions lit function argv' (cram s', x) = Err e
           end
  end.
Proof.
  intros Hld Hly Hos Hts Hg Hf Hsc Hact. pose proof (command_line_ok lit now save argv s os ts Hld Hly Hos Hts Hg Hf Hsc) as H.
  destruct (apply_options _ _) as [[c|]|e]; [|done|done]. destruct H as (argv' & s' & hi & E & Hr & Hgen & Ha & Hl & Hst).
  exists argv', s', hi. split_and!; [done..|]. intros x. unfold run_actions. change (st_get ≫= ?k) with (λ s, k s s). cbn beta. cbn [fst].
  by apply (actions_loop_ok act lit function Hact _ argv' hi).
Qed.

(** Example: the options -f, -filesys=hd1 and -ul=20 and the actions ls and run. *)
Definition demo_lit (t : list Z) : Z :=
  let i := from_option fst 0%nat (list_find (λ x, str x = t) (option_literals ++ action_literals)) in 4096 + 16 * Z.of_nat i.
Definition demo_options : list opt :=
  [Opt (str "-f") NoValue; Opt (str "-filesys") (Text (str "hd1")); Opt (str "-ul") (Number 20)].
Definition demo_words : list (list Z) := [str "ls"; str "run"; str "alarm"].
Definition demo_line : list (list Z) := (opt_text <$> demo_options) ++ demo_words.
Definition demo_command : mem :=
  write (PHYS_BASE + LOADER_ARG_CNT) (le_bytes 4 (Z.of_nat (length demo_line)))
    (write loader_args (line demo_line)
       (write 8192 (replicate 260 0)
          (write 9216 (replicate 4 0)
             (foldr (λ x m, write (demo_lit (str x)) (str x ++ [0]) m) ∅ (option_literals ++ action_literals))))).
Definition demo_booting : booting := Booting demo_command SHUTDOWN_NONE false NULL NULL false 4294967295 (Rng (replicate 256 0) 0 0 false).
Definition demo_act (a : action) (us : list (list Z)) (done : list action) : res (list action) := Ok (done ++ [a]).
Definition demo_function (a : action) (argv : Z) : ST (mem * list action) () := st_modify (λ s, (s.1, s.2 ++ [a])).

Lemma demo_layout : memory_layout demo_lit demo_command 9216 8192.
Proof. split; compute_hyp. Qed.

Lemma command_line_carried_out_witness :
  ∃ argv' s' hi, command_line demo_lit 0 9216 8192 demo_booting = Ok (Some argv', s') ∧
    represents loader_args hi s' (Config SHUTDOWN_NONE true (Some (str "hd1")) None false 20) ∧
    ∃ m', run_actions demo_lit demo_function argv' (cram s', []) = Ok ((), (m', [fsutil_ls; run_task])).
Proof.
  pose proof (command_line_carried_out demo_act demo_lit demo_function 0 9216 8192 demo_booting demo_options demo_words) as H.
  destruct H as (argv' & s' & hi & E & Hr & _ & H).
  - split; compute_hyp.
  - exact demo_layout.
  - repeat constructor; cbn; try compute_hyp; intros [H|H]; try discriminate H; intros t Ht; discriminate Ht.
  - compute_hyp.
  - split; [reflexivity|discriminate].
  - reflexivity.
  - reflexivity.
  - intros a argv base us ts m x _ _. exists m. split_and!; [reflexivity|auto|auto].
  - exists argv', s', hi. split; [exact E|]. split; [exact Hr|]. exact (H []).
Defined.

(** ** The block devices at boot *)

Definition first_device (s : blocks) (P : block → bool) : option Z :=
  head (filter (λ b, from_option P false (block_of s !! b) = true) (all_blocks s)).

Definition of_type (t : block_type) (x : block) : bool := bool_decide (type x = t).

Lemma after_middle pre b suf : NoDup (pre ++ b :: suf) → after b (pre ++ b :: suf) = head suf.
Proof.
  induction pre as [|x pre IH]; cbn [app after]; intros Hn; [by rewrite decide_True|].
  apply NoDup_cons in Hn as [Hx Hn]. rewrite decide_False; [by apply IH|]. intros ->. apply Hx, elem_of_app. right. left.
Qed.

Lemma locate_loop_ok s role : registry s → ∀ suf pre fuel,
  all_blocks s = pre ++ suf → (length suf < fuel)%nat →
  locate_loop fuel role (default NULL (head suf)) s =
    Ok (default NULL (head (filter (λ b, from_option (of_type role) false (block_of s !! b) = true) suf)), s).
Proof.
  intros (_ & Hn & Hv). induction suf as [|b suf IH]; intros pre fuel E Hf; (destruct fuel as [|fuel]; [lia|]); [done|].
  change (default NULL (head (b :: suf))) with b. cbn [locate_loop length] in *. rewrite E in Hn, Hv. apply Forall_app in Hv as [_ [[Hb [x Ex]] _]%Forall_cons].
  rewrite decide_False by (unfold NULL; lia).
  erewrite st_bind_ok by (unfold block_type_of; by erewrite st_bind_ok by (by apply get_block_ok)).
  rewrite filter_cons, Ex. cbn [from_option].
  destruct (decide (type x = role)) as [Et|Et].
  - assert (of_type role x = true) as -> by (unfold of_type; by rewrite bool_decide_true). rewrite (decide_True (P := true = true)) by done. done.
  - assert (of_type role x = false) as -> by (unfold of_type; by rewrite bool_decide_false). rewrite (decide_False (P := false = true)) by done.
    erewrite st_bind_ok by (unfold block_next; erewrite st_bind_ok by reflexivity; rewrite E, after_middle by done; reflexivity).
    apply (IH (pre ++ [b])); [by rewrite <- app_assoc|lia].
Qed.

(** The device of each role, when no names are given. *)
Definition assign (s : blocks) (role : block_type) : Z := default (block_by_role s role) (first_device s (of_type role)).

Lemma locate_default s role :
  registry s → is_role role = true →
  ∃ s', locate_block_device role None s = Ok ((), s') ∧
    all_blocks s' = all_blocks s ∧ block_of s' = block_of s ∧ disks s' = disks s ∧ brk s' = brk s ∧
    ∀ r, block_by_role s' r = if decide (r = role) then assign s role else block_by_role s r.
Proof.
  intros Hr Hrole. unfold locate_block_device. erewrite st_bind_ok.
  2: { unfold block_first. erewrite st_bind_ok by reflexivity. erewrite st_bind_ok by reflexivity.
       apply (locate_loop_ok s role Hr (all_blocks s) []); [done|lia]. }
  unfold assign, first_device. destruct Hr as (_ & _ & Hv).
  destruct (filter _ (all_blocks s)) as [|b l] eqn:El; cbn [head from_option id].
  - exists s. split_and!; try done. intros r. by destruct (decide (r = role)) as [->|].
  - assert (Hb : b ∈ all_blocks s) by (eapply (list_elem_of_filter _ _ b); rewrite El; left).
    apply (proj1 (Forall_forall _ _) Hv) in Hb as [Hb _]. rewrite decide_True by (unfold NULL; lia).
    unfold block_set_role. erewrite st_bind_ok by (by apply assert_ok). eexists. split; [reflexivity|]. done.
Qed.

Lemma assign_same s s' role :
  all_blocks s' = all_blocks s → block_of s' = block_of s → block_by_role s' role = block_by_role s role →
  assign s' role = assign s role.
Proof. intros E1 E2 E3. unfold assign, first_device. by rewrite E1, E2, E3. Qed.


