(* ===== verification/Descriptors.v ===== *)
(** * userprog/gdt.c, userprog/tss.c and threads/interrupt.c: descriptor tables

    Segment descriptors and interrupt gates as the processor reads them, the
    tables they are stored in, and the registration of interrupt handlers by the
    kernel's parts.  Descriptors are 64-bit numbers.  [ports] is the list of
    bytes written to I/O ports, in order.  The addresses of the interrupt stubs
    (assembly code) and of the tables are arguments. *)

From Stdlib Require Import String.
From S2P Require Import Kernel.
From S2P Require Import Prelude Bitmap Memory CString CStdlib Vaddr Palloc Stdio StdioSpec Ustar.

Local Open Scope Z_scope.

(** ** userprog/gdt.c *)

(** threads/loader.h and userprog/gdt.h. *)
Definition SEL_NULL : Z := 0.
Definition SEL_KCSEG : Z := 8.
Definition SEL_KDSEG : Z := 16.
Definition SEL_UCSEG : Z := 27.
Definition SEL_UDSEG : Z := 35.
Definition SEL_TSS : Z := 40.
Definition SEL_CNT : Z := 6.

(** enum seg_class and enum seg_granularity. *)
Definition CLS_SYSTEM : Z := 0.
Definition CLS_CODE_DATA : Z := 1.
Definition GRAN_BYTE : Z := 0.
Definition GRAN_PAGE : Z := 1.

Definition make_seg_desc (base limit class type dpl granularity : Z) : res Z :=
  _ ← assert (bool_decide (limit ≤ 1048575));
  _ ← assert (bool_decide (class = CLS_SYSTEM) || bool_decide (class = CLS_CODE_DATA));
  _ ← assert (bool_decide (0 ≤ type) && bool_decide (type ≤ 15));
  _ ← assert (bool_decide (0 ≤ dpl) && bool_decide (dpl ≤ 3));
  _ ← assert (bool_decide (granularity = GRAN_BYTE) || bool_decide (granularity = GRAN_PAGE));
  let e0 := Z.lor (Z.land limit 65535) (u32 (Z.shiftl base 16)) in
  let e1 := Z.lor (Z.lor (Z.lor (Z.lor (Z.lor (Z.lor (Z.lor (Z.lor
              (Z.land (Z.shiftr base 16) 255)
              (Z.shiftl type 8)) (Z.shiftl class 12)) (Z.shiftl dpl 13)) (Z.shiftl 1 15)) (Z.land limit 983040))
              (Z.shiftl 1 22)) (Z.shiftl granularity 23)) (Z.land base 4278190080) in
  mret (Z.lor e0 (Z.shiftl e1 32)).

Definition make_code_desc (dpl : Z) : res Z := make_seg_desc 0 1048575 CLS_CODE_DATA 10 dpl GRAN_PAGE.
Definition make_data_desc (dpl : Z) : res Z := make_seg_desc 0 1048575 CLS_CODE_DATA 2 dpl GRAN_PAGE.
Definition make_tss_desc (laddr : Z) : res Z := make_seg_desc laddr 103 CLS_SYSTEM 9 0 GRAN_BYTE.
Definition make_gdtr_operand (limit base : Z) : Z := Z.lor limit (Z.shiftl base 16).

(** ** threads/interrupt.c: gates *)

Definition make_gate (function dpl type : Z) : res Z :=
  _ ← assert (bool_decide (function ≠ NULL));
  _ ← assert (bool_decide (0 ≤ dpl) && bool_decide (dpl ≤ 3));
  _ ← assert (bool_decide (0 ≤ type) && bool_decide (type ≤ 15));
  let e0 := Z.lor (Z.land function 65535) (Z.shiftl SEL_KCSEG 16) in
  let e1 := Z.lor (Z.lor (Z.lor (Z.lor (Z.land function 4294901760) (Z.shiftl 1 15)) (Z.shiftl dpl 13)) (Z.shiftl 0 12))
              (Z.shiftl type 8) in
  mret (Z.lor e0 (Z.shiftl e1 32)).

Definition make_intr_gate (function dpl : Z) : res Z := make_gate function dpl 14.
Definition make_trap_gate (function dpl : Z) : res Z := make_gate function dpl 15.
Definition make_idtr_operand (limit base : Z) : Z := Z.lor limit (Z.shiftl base 16).

(** ** The tables *)

(** The handlers that the kernel registers. *)
Inductive handler :=
  kill | page_fault | syscall_handler | timer_interrupt | keyboard_interrupt | serial_interrupt | ide_interrupt.

Record tables := Tables {
  gdt : list Z;
  gdtr : Z;
  tr : Z;
  idt : list Z;
  idtr : Z;
  intr_handlers : list (option handler);
  intr_names : list (list Z);
  ports : list (Z * Z);
}.

Abbreviation TM := (ST tables).

Definition outb (port data : Z) : TM () :=
  st_modify (λ t, Tables (gdt t) (gdtr t) (tr t) (idt t) (idtr t) (intr_handlers t) (intr_names t) (ports t ++ [(port, data `mod` 256)])).

(** gdt[i], idt[i], intr_handlers[i] and intr_names[i] assigned. *)
Definition set_gdt (i v : Z) : TM () :=
  st_modify (λ t, Tables (<[Z.to_nat i := v]> (gdt t)) (gdtr t) (tr t) (idt t) (idtr t) (intr_handlers t) (intr_names t) (ports t)).
Definition set_idt (i v : Z) : TM () :=
  st_modify (λ t, Tables (gdt t) (gdtr t) (tr t) (<[Z.to_nat i := v]> (idt t)) (idtr t) (intr_handlers t) (intr_names t) (ports t)).
Definition set_handler (i : Z) (h : handler) : TM () :=
  st_modify (λ t, Tables (gdt t) (gdtr t) (tr t) (idt t) (idtr t) (<[Z.to_nat i := Some h]> (intr_handlers t)) (intr_names t) (ports t)).
Definition set_intr_name (i : Z) (n : list Z) : TM () :=
  st_modify (λ t, Tables (gdt t) (gdtr t) (tr t) (idt t) (idtr t) (intr_handlers t) (<[Z.to_nat i := n]> (intr_names t)) (ports t)).

(** gdt_init, given what tss_get returns; [gdt_addr] is the address of [gdt]. *)
Definition gdt_init (gdt_addr tss : Z) : TM () :=
  set_gdt (SEL_NULL / 8) 0;;
  kc ← st_res (make_code_desc 0); set_gdt (SEL_KCSEG / 8) kc;;
  kd ← st_res (make_data_desc 0); set_gdt (SEL_KDSEG / 8) kd;;
  uc ← st_res (make_code_desc 3); set_gdt (SEL_UCSEG / 8) uc;;
  ud ← st_res (make_data_desc 3); set_gdt (SEL_UDSEG / 8) ud;;
  ts ← st_res (make_tss_desc tss); set_gdt (SEL_TSS / 8) ts;;
  let gdtr_operand := make_gdtr_operand (8 * SEL_CNT - 1) gdt_addr in
  st_modify (λ t, Tables (gdt t) gdtr_operand SEL_TSS (idt t) (idtr t) (intr_handlers t) (intr_names t) (ports t)).

(** ** userprog/tss.c *)

(** Offsets in struct tss, and a 16-bit store. *)
Definition o_esp0 : Z := 4.
Definition o_ss0 : Z := 8.
Definition o_bitmap : Z := 102.
Definition storeh (p w : Z) : MM () := store_bytes p (le_bytes 2 w).

(** [tss] is the kernel's TSS and [cur] the running thread. *)
Definition tss_get (tss : Z) : PM Z := ASSERT (bool_decide (tss ≠ NULL));; mret tss.

Definition tss_update (tss cur : Z) : PM () :=
  ASSERT (bool_decide (tss ≠ NULL));; on_ram (storew (u32 (tss + o_esp0)) (u32 (cur + PGSIZE))).

Definition tss_init (cur : Z) : PM Z :=
  tss ← palloc_get_page (Z.lor PAL_ASSERT PAL_ZERO);
  on_ram (storeh (u32 (tss + o_ss0)) SEL_KDSEG);;
  on_ram (storeh (u32 (tss + o_bitmap)) 57343);;
  tss_update tss cur;;
  mret tss.

(** ** The interrupt controller *)

Definition PIC0_CTRL : Z := 32.
Definition PIC0_DATA : Z := 33.
Definition PIC1_CTRL : Z := 160.
Definition PIC1_DATA : Z := 161.

Definition pic_init : TM () :=
  outb PIC0_DATA 255;; outb PIC1_DATA 255;;
  outb PIC0_CTRL 17;; outb PIC0_DATA 32;; outb PIC0_DATA 4;; outb PIC0_DATA 1;;
  outb PIC1_CTRL 17;; outb PIC1_DATA 40;; outb PIC1_DATA 2;; outb PIC1_DATA 1;;
  outb PIC0_DATA 0;; outb PIC1_DATA 0.

Definition pic_end_of_interrupt (irq : Z) : TM () :=
  ASSERT (bool_decide (32 ≤ irq) && bool_decide (irq < 48));;
  outb 32 32;;
  if decide (40 ≤ irq) then outb 160 32 else mret tt.

(** ** devices/pit.c: the timer chip *)

Definition PIT_PORT_CONTROL : Z := 67.
Definition PIT_PORT_COUNTER (channel : Z) : Z := 64 + channel.
Definition PIT_HZ : Z := 1193180.

Definition pit_count (frequency : Z) : Z :=
  if decide (frequency < 19) then 0
  else if decide (PIT_HZ < frequency) then 2
  else ((PIT_HZ + frequency / 2) / frequency) `mod` 65536.

Definition pit_configure_channel (channel mode frequency : Z) : TM () :=
  ASSERT (bool_decide (channel = 0) || bool_decide (channel = 2));;
  ASSERT (bool_decide (mode = 2) || bool_decide (mode = 3));;
  let count := pit_count frequency in
  outb PIT_PORT_CONTROL (Z.lor (Z.lor (Z.shiftl channel 6) 48) (Z.shiftl mode 1));;
  outb (PIT_PORT_COUNTER channel) count;;
  outb (PIT_PORT_COUNTER channel) (Z.shiftr count 8).

(** ** Initialisation and registration *)

Definition INTR_CNT : Z := 256.

Definition exception_names : list (Z * string) :=
  [(0, "#DE Divide Error"); (1, "#DB Debug Exception"); (2, "NMI Interrupt"); (3, "#BP Breakpoint Exception");
   (4, "#OF Overflow Exception"); (5, "#BR BOUND Range Exceeded Exception"); (6, "#UD Invalid Opcode Exception");
   (7, "#NM Device Not Available Exception"); (8, "#DF Double Fault Exception"); (9, "Coprocessor Segment Overrun");
   (10, "#TS Invalid TSS Exception"); (11, "#NP Segment Not Present"); (12, "#SS Stack Fault Exception");
   (13, "#GP General Protection Exception"); (14, "#PF Page-Fault Exception"); (16, "#MF x87 FPU Floating-Point Error");
   (17, "#AC Alignment Check Exception"); (18, "#MC Machine-Check Exception"); (19, "#XF SIMD Floating-Point Exception")]%string.

Section stubs.
Context (intr_stubs : Z → Z).

(** The loop that fills the table: [n] gates are left. *)
Fixpoint gate_loop (n : nat) (i : Z) : TM () :=
  match n with
  | O => mret tt
  | S n => g ← st_res (make_intr_gate (intr_stubs i) 0); set_idt i g;; gate_loop n (i + 1)
  end.

Fixpoint unknown_loop (n : nat) (i : Z) : TM () :=
  match n with O => mret tt | S n => set_intr_name i (str "unknown");; unknown_loop n (i + 1) end.

Fixpoint names_loop (l : list (Z * string)) : TM () :=
  match l with [] => mret tt | (i, n) :: l => set_intr_name i (str n);; names_loop l end.

Definition intr_init (idt_addr : Z) : TM () :=
  pic_init;;
  gate_loop (Z.to_nat INTR_CNT) 0;;
  let idtr_operand := make_idtr_operand (8 * INTR_CNT - 1) idt_addr in
  st_modify (λ t, Tables (gdt t) (gdtr t) (tr t) (idt t) idtr_operand (intr_handlers t) (intr_names t) (ports t));;
  unknown_loop (Z.to_nat INTR_CNT) 0;;
  names_loop exception_names.

Definition register_handler (vec_no dpl : Z) (level : bool) (h : handler) (n : string) : TM () :=
  t ← st_get;
  old ← st_opt EFault (intr_handlers t !! Z.to_nat vec_no);
  ASSERT (bool_decide (old = None));;
  g ← st_res (if level then make_trap_gate (intr_stubs vec_no) dpl else make_intr_gate (intr_stubs vec_no) dpl);
  set_idt vec_no g;;
  set_handler vec_no h;;
  set_intr_name vec_no (str n).

Definition intr_register_ext (vec_no : Z) (h : handler) (n : string) : TM () :=
  ASSERT (bool_decide (32 ≤ vec_no) && bool_decide (vec_no ≤ 47));;
  register_handler vec_no 0 false h n.

Definition intr_register_int (vec_no dpl : Z) (level : bool) (h : handler) (n : string) : TM () :=
  ASSERT (bool_decide (vec_no < 32) || bool_decide (47 < vec_no));;
  register_handler vec_no dpl level h n.

(** userprog/exception.c. *)
Definition exception_init : TM () :=
  intr_register_int 3 3 true kill "#BP Breakpoint Exception";;
  intr_register_int 4 3 true kill "#OF Overflow Exception";;
  intr_register_int 5 3 true kill "#BR BOUND Range Exceeded Exception";;
  intr_register_int 0 0 true kill "#DE Divide Error";;
  intr_register_int 1 0 true kill "#DB Debug Exception";;
  intr_register_int 6 0 true kill "#UD Invalid Opcode Exception";;
  intr_register_int 7 0 true kill "#NM Device Not Available Exception";;
  intr_register_int 11 0 true kill "#NP Segment Not Present";;
  intr_register_int 12 0 true kill "#SS Stack Fault Exception";;
  intr_register_int 13 0 true kill "#GP General Protection Exception";;
  intr_register_int 16 0 true kill "#MF x87 FPU Floating-Point Error";;
  intr_register_int 19 0 true kill "#XF SIMD Floating-Point Exception";;
  intr_register_int 14 0 false page_fault "#PF Page-Fault Exception".

(** userprog/syscall.c; devices/timer.c, without the list of sleeping threads;
    devices/kbd.c. *)
Definition syscall_init : TM () := intr_register_int 48 3 true syscall_handler "syscall".
Definition timer_init : TM () := pit_configure_channel 0 2 TIMER_FREQ;; intr_register_ext 32 timer_interrupt "8254 Timer".
Definition kbd_init : TM () := intr_register_ext 33 keyboard_interrupt "8042 Keyboard".

(** The registrations of serial_init_queue (devices/serial.c) and, for one
    channel, of ide_init (devices/ide.c). *)
Definition serial_register : TM () := intr_register_ext (32 + 4) serial_interrupt "serial".
Definition ide_register (irq : Z) (name : string) : TM () := intr_register_ext irq ide_interrupt name.

(** The calls of main in threads/init.c, in order. *)
Definition interrupts_init (idt_addr : Z) : TM () :=
  intr_init idt_addr;;
  timer_init;;
  kbd_init;;
  exception_init;;
  syscall_init;;
  serial_register;;
  ide_register (14 + 32) "ide0";;
  ide_register (15 + 32) "ide1".
End stubs.
