(* ===== verification/DescriptorTheorems.v ===== *)
(** * Theorems on descriptor tables

    The fields of descriptors as the processor decodes them, and the interrupt
    table as a map from vectors to registrations. *)

From Stdlib Require Import String.
From S2P Require Import Prelude Bitmap Memory CString CStdlib Vaddr Palloc Pagedir Paging Stdio StdioSpec Ustar Descriptors.

Local Open Scope Z_scope.

(** [n] bits of [d] from bit [i]. *)
Definition bits (d i n : Z) : Z := (d / 2^i) `mod` 2^n.

(** ** Disjoint bit fields *)

Lemma lor_high a b n : 0 ≤ a < 2^n → 0 ≤ n → Z.lor a (b * 2^n) = a + b * 2^n.
Proof.
  intros Ha Hn. assert (E : Z.land a (b * 2^n) = 0).
  { destruct (decide (a = 0)) as [->|]; [apply Z.land_0_l|].
    apply Z.bits_inj'. intros i Hi. rewrite Z.land_spec, Z.testbit_0_l. destruct (decide (i < n)).
    - rewrite Z.mul_pow2_bits_low by lia. apply andb_false_r.
    - rewrite (Z.bits_above_log2 a i); [done|lia|].
      apply Z.lt_le_trans with n; [|lia]. apply Z.log2_lt_pow2; lia. }
  rewrite <- Z.lxor_lor, Z.add_nocarry_lxor; done.
Qed.

Lemma land_low a n : 0 ≤ n → Z.land a (2^n - 1) = a `mod` 2^n.
Proof. intros Hn. rewrite <- Z.land_ones by done. by rewrite Z.ones_equiv, Z.sub_1_r. Qed.

(** The bits from [n] to [n + k - 1], in place. *)
Lemma land_field a n k : 0 ≤ n → 0 ≤ k → Z.land a ((2^k - 1) * 2^n) = ((a / 2^n) `mod` 2^k) * 2^n.
Proof.
  intros Hn Hk. apply Z.bits_inj'. intros i Hi. rewrite Z.land_spec. destruct (decide (i < n)).
  - by rewrite !Z.mul_pow2_bits_low, andb_false_r by lia.
  - rewrite !Z.mul_pow2_bits by lia. rewrite Z.sub_1_r, <- Z.ones_equiv, Z.testbit_ones_nonneg by lia.
    destruct (Z.ltb_spec (i - n) k) as [Hk'|Hk'].
    + rewrite Z.mod_pow2_bits_low, Z.div_pow2_bits, andb_true_r by lia. f_equal. lia.
    + by rewrite Z.mod_pow2_bits_high, andb_false_r by lia.
Qed.

(** ** Segment descriptors *)

(** What the processor reads from a segment descriptor. *)
Record segment := Segment {
  sg_base : Z; sg_limit : Z; sg_type : Z; sg_class : Z; sg_dpl : Z; sg_present : Z; sg_big : Z; sg_granularity : Z; sg_other : Z;
}.

Definition decode_segment (d : Z) : segment :=
  Segment (bits d 16 24 + bits d 56 8 * 2^24) (bits d 0 16 + bits d 48 4 * 2^16) (bits d 40 4) (bits d 44 1) (bits d 45 2)
    (bits d 47 1) (bits d 54 1) (bits d 55 1) (bits d 52 2).

Lemma make_seg_desc_value base limit class type dpl granularity :
  in_u32 base → 0 ≤ limit ≤ 1048575 → class = 0 ∨ class = 1 → 0 ≤ type ≤ 15 → 0 ≤ dpl ≤ 3 → granularity = 0 ∨ granularity = 1 →
  make_seg_desc base limit class type dpl granularity = Ok
    (limit `mod` 2^16 + (base `mod` 2^16) * 2^16 +
     ((base / 2^16) `mod` 2^8 + type * 2^8 + class * 2^12 + dpl * 2^13 + 1 * 2^15 + (limit / 2^16) * 2^16 + 1 * 2^22 +
      granularity * 2^23 + (base / 2^24) * 2^24) * 2^32).
Proof.
  intros Hb Hl Hc Ht Hd Hg. unfold in_u32 in Hb. unfold make_seg_desc, CLS_SYSTEM, CLS_CODE_DATA, GRAN_BYTE, GRAN_PAGE.
  rewrite (bool_decide_true (limit ≤ _)) by lia.
  assert (bool_decide (class = 0) || bool_decide (class = 1) = true) as -> by (destruct Hc as [-> | ->]; done).
  rewrite !(bool_decide_true (0 ≤ _)), (bool_decide_true (type ≤ 15)), (bool_decide_true (dpl ≤ 3)) by lia.
  assert (bool_decide (granularity = 0) || bool_decide (granularity = 1) = true) as -> by (destruct Hg as [-> | ->]; done).
  cbn [assert mbind res_bind andb]. rewrite !Z.shiftl_mul_pow2, Z.shiftr_div_pow2 by lia.
  change 65535 with (2^16 - 1). change 255 with (2^8 - 1). change 983040 with ((2^4 - 1) * 2^16). change 4278190080 with ((2^8 - 1) * 2^24).
  rewrite !land_field, !land_low by lia.
  assert (E1 : u32 (base * 2^16) = (base `mod` 2^16) * 2^16) by (unfold u32; dlia).
  assert (E2 : (limit / 2^16) `mod` 2^4 = limit / 2^16) by dlia.
  assert (E3 : (base / 2^24) `mod` 2^8 = base / 2^24) by dlia.
  rewrite E1, E2, E3. clear E1 E2 E3.
  assert (H0 : 0 ≤ limit `mod` 2^16 < 2^16) by dlia. assert (H1 : 0 ≤ limit / 2^16 < 16) by dlia.
  assert (H2 : 0 ≤ base `mod` 2^16 < 2^16) by dlia. assert (H3 : 0 ≤ (base / 2^16) `mod` 2^8 < 2^8) by dlia.
  revert H0 H1 H2 H3. generalize (limit `mod` 2^16) (limit / 2^16) (base `mod` 2^16) ((base / 2^16) `mod` 2^8) (base / 2^24).
  clear Hb Hl. intros l0 l1 b0 b1 b2 H0 H1 H2 H3.
  rewrite (lor_high _ _ 8), (lor_high _ _ 12), (lor_high _ _ 13), (lor_high _ _ 15), (lor_high _ _ 16), (lor_high _ _ 16),
    (lor_high _ _ 22), (lor_high _ _ 23), (lor_high _ _ 24), (lor_high _ _ 32) by lia. done.
Qed.

Lemma decode_segment_value base limit class type dpl granularity :
  in_u32 base → 0 ≤ limit ≤ 1048575 → class = 0 ∨ class = 1 → 0 ≤ type ≤ 15 → 0 ≤ dpl ≤ 3 → granularity = 0 ∨ granularity = 1 →
  decode_segment (limit `mod` 2^16 + (base `mod` 2^16) * 2^16 +
     ((base / 2^16) `mod` 2^8 + type * 2^8 + class * 2^12 + dpl * 2^13 + 1 * 2^15 + (limit / 2^16) * 2^16 + 1 * 2^22 +
      granularity * 2^23 + (base / 2^24) * 2^24) * 2^32) = Segment base limit type class dpl 1 1 granularity 0.
Proof.
  intros Hb Hl Hc Ht Hd Hg. unfold in_u32 in Hb.
  assert (El : limit = limit `mod` 2^16 + (limit / 2^16) * 2^16) by dlia.
  assert (Eb : base = base `mod` 2^16 + ((base / 2^16) `mod` 2^8) * 2^16 + (base / 2^24) * 2^24) by dlia.
  assert (H0 : 0 ≤ limit `mod` 2^16 < 2^16) by dlia. assert (H1 : 0 ≤ limit / 2^16 < 2^4) by dlia.
  assert (H2 : 0 ≤ base `mod` 2^16 < 2^16) by dlia. assert (H3 : 0 ≤ (base / 2^16) `mod` 2^8 < 2^8) by dlia.
  assert (H4 : 0 ≤ base / 2^24 < 2^8) by dlia. revert El Eb H0 H1 H2 H3 H4.
  generalize (limit `mod` 2^16) (limit / 2^16) (base `mod` 2^16) ((base / 2^16) `mod` 2^8) (base / 2^24).
  intros l0 l1 b0 b1 b2 El Eb H0 H1 H2 H3 H4. set (d := l0 + _ + _). unfold decode_segment.
  rewrite El, Eb. clear El Eb Hb Hl. f_equal; unfold bits, d; dlia.
Qed.

(** ** Gates *)

Record gate := Gate {
  gt_offset : Z; gt_selector : Z; gt_type : Z; gt_class : Z; gt_dpl : Z; gt_present : Z; gt_other : Z;
}.

Definition decode_gate (d : Z) : gate :=
  Gate (bits d 0 16 + bits d 48 16 * 2^16) (bits d 16 16) (bits d 40 4) (bits d 44 1) (bits d 45 2) (bits d 47 1) (bits d 32 8).

Lemma lor_low hi lo n : 0 ≤ n → hi `mod` 2^n = 0 → 0 ≤ lo < 2^n → Z.lor hi lo = hi + lo.
Proof.
  intros Hn Hh Hl. assert (hi = hi / 2^n * 2^n) as E by (rewrite (Z.div_mod hi (2^n)) at 1; lia).
  rewrite E, Z.lor_comm, lor_high by done. lia.
Qed.

Lemma make_gate_ok function dpl type :
  0 < function < 2^32 → 0 ≤ dpl ≤ 3 → 0 ≤ type ≤ 15 →
  ∃ g, make_gate function dpl type = Ok g ∧ decode_gate g = Gate function SEL_KCSEG type 0 dpl 1 0.
Proof.
  intros Hf Hd Ht. unfold make_gate, SEL_KCSEG.
  rewrite (bool_decide_true (function ≠ NULL)), !(bool_decide_true (0 ≤ _)), (bool_decide_true (dpl ≤ 3)), (bool_decide_true (type ≤ 15)) by (unfold NULL; lia).
  cbn [assert mbind res_bind andb]. rewrite !Z.shiftl_mul_pow2 by lia.
  change 65535 with (2^16 - 1). change 4294901760 with ((2^16 - 1) * 2^16). rewrite land_field, land_low by lia.
  assert (Hf1 : 0 ≤ function / 2^16 < 2^16) by dlia. rewrite (Z.mod_small (function / 2^16)) by done.
  assert (Hf0 : 0 ≤ function `mod` 2^16 < 2^16) by dlia.
  assert (Ef : function = function `mod` 2^16 + function / 2^16 * 2^16) by dlia. revert Hf1 Hf0 Ef.
  generalize (function `mod` 2^16) (function / 2^16). intros f0 f1 Hf1 Hf0 Ef.
  rewrite (lor_high f0 8 16) by lia. rewrite (lor_low (f1 * 2^16) _ 16) by (lia || dlia).
  rewrite (lor_low _ (dpl * 2^13) 15) by (lia || dlia). rewrite Z.mul_0_l, Z.lor_0_r.
  rewrite (lor_low _ (type * 2^8) 13) by (lia || dlia). rewrite (lor_high _ _ 32) by lia.
  eexists. split; [reflexivity|]. rewrite Ef. clear Ef Hf. unfold decode_gate. f_equal; unfold bits; dlia.
Qed.

(** A segment descriptor made from a 32-bit base, a 20-bit limit, a class, a
    type, a privilege level and a granularity is decoded by the processor to
    exactly these, as a present 32-bit segment; any other argument panics. *)
Theorem make_seg_desc_decodes base limit class type dpl granularity :
  in_u32 base → in_u32 limit →
  if decide (limit ≤ 1048575 ∧ (class = CLS_SYSTEM ∨ class = CLS_CODE_DATA) ∧ 0 ≤ type ≤ 15 ∧ 0 ≤ dpl ≤ 3 ∧
             (granularity = GRAN_BYTE ∨ granularity = GRAN_PAGE))
  then ∃ d, make_seg_desc base limit class type dpl granularity = Ok d ∧
         decode_segment d = Segment base limit type class dpl 1 1 granularity 0
  else make_seg_desc base limit class type dpl granularity = Err EPanic.
Proof.
  unfold CLS_SYSTEM, CLS_CODE_DATA, GRAN_BYTE, GRAN_PAGE. intros Hb Hl. case_decide as H.
  - destruct H as (H1 & H2 & H3 & H4 & H5). unfold in_u32 in Hl. eexists.
    split; [apply make_seg_desc_value; (done || lia)|by apply decode_segment_value; (done || lia)].
  - unfold make_seg_desc, CLS_SYSTEM, CLS_CODE_DATA, GRAN_BYTE, GRAN_PAGE.
    repeat (case_bool_decide; cbn [assert mbind res_bind andb orb]; try reflexivity); exfalso; apply H; split_and!; (tauto || lia).
Qed.

Lemma make_seg_desc_decodes_witness :
  (∃ d, make_seg_desc 3222274048 103 CLS_SYSTEM 9 0 GRAN_BYTE = Ok d ∧
     decode_segment d = Segment 3222274048 103 9 CLS_SYSTEM 0 1 1 GRAN_BYTE 0) ∧
  make_seg_desc 0 1048576 CLS_CODE_DATA 10 0 GRAN_PAGE = Err EPanic.
Proof.
  split.
  - apply (make_seg_desc_decodes 3222274048 103 CLS_SYSTEM 9 0 GRAN_BYTE); unfold in_u32; lia.
  - apply (make_seg_desc_decodes 0 1048576 CLS_CODE_DATA 10 0 GRAN_PAGE); unfold in_u32; lia.
Defined.

(** ** The segments of the kernel *)

(** gdt_init with the TSS at [tss]: flat code and data segments for the kernel
    (level 0) and for user programs (level 3), and the TSS. *)
Lemma gdt_init_ok t gdt_addr tss :
  length (gdt t) = 6%nat → in_u32 tss →
  ∃ t', gdt_init gdt_addr tss t = Ok ((), t') ∧ tr t' = SEL_TSS ∧ gdtr t' = make_gdtr_operand 47 gdt_addr ∧
    decode_segment <$> gdt t' =
      [decode_segment 0; Segment 0 1048575 10 1 0 1 1 1 0; Segment 0 1048575 2 1 0 1 1 1 0;
       Segment 0 1048575 10 1 3 1 1 1 0; Segment 0 1048575 2 1 3 1 1 1 0; Segment tss 103 9 0 0 1 1 0 0].
Proof.
  intros Hl Ht. destruct t as [g gr tr0 id ir hs ns ps]. cbn [gdt] in Hl.
  destruct g as [|g0 [|g1 [|g2 [|g3 [|g4 [|g5 [|]]]]]]]; try discriminate Hl. unfold gdt_init.
  pose proof (make_seg_desc_value tss 103 0 9 0 0 Ht ltac:(lia) ltac:(lia) ltac:(lia) ltac:(lia) ltac:(lia)) as E.
  pose proof (decode_segment_value tss 103 0 9 0 0 Ht ltac:(lia) ltac:(lia) ltac:(lia) ltac:(lia) ltac:(lia)) as D.
  revert E D. match goal with |- _ = Ok ?x → _ => generalize x end. intros d E D.
  assert (Ekc : make_code_desc 0 = Ok 58434644969848831) by reflexivity.
  assert (Ekd : make_data_desc 0 = Ok 58425848876826623) by reflexivity.
  assert (Euc : make_code_desc 3 = Ok 58540198086115327) by reflexivity.
  assert (Eud : make_data_desc 3 = Ok 58531401993093119) by reflexivity.
  exists (Tables [0; 58434644969848831; 58425848876826623; 58540198086115327; 58531401993093119; d] (make_gdtr_operand 47 gdt_addr)
    SEL_TSS id ir hs ns ps).
  split; [|split; [done|split; [done|]]].
  - rewrite Ekc, Ekd, Euc, Eud. change (make_tss_desc tss) with (make_seg_desc tss 103 0 9 0 0). rewrite E. reflexivity.
  - cbn [gdt fmap list_fmap]. rewrite D. reflexivity.
Qed.

(** tss_init: the page holds the kernel stack's segment and its top, the end of the
    running thread's page, or there is no memory. *)
Lemma tss_init_ok p cur :
  pages_ok p → PHYS_BASE ≤ Palloc.base (kernel_pool p) →
  (∃ tss p', tss_init cur p = Ok (tss, p') ∧ holds (ram p') (tss + o_esp0) (le_bytes 4 (u32 (cur + PGSIZE)) ++ le_bytes 2 SEL_KDSEG) ∧
     tss ≠ NULL ∧ in_u32 tss) ∨
  full false p 1 ∧ tss_init cur p = Err EPanic.
Proof.
  intros Hp Hh. unfold tss_init. destruct (palloc_zeroed_assert p Hp) as (zs & Hzs & [(i & b & Hal & Eg)|[Hf Eg]]).
  2: { right. split; [done|]. by apply st_bind_err. }
  left. set (t := Palloc.base (kernel_pool p) + 4096 * i) in *.
  destruct Hal as (Hi & _). cbn [pool_of] in Hi. destruct (pages_mapped _ _ i 1 (pk_kernel _ Hp)) as ([Hr Hm] & _); [lia..|]. fold t in Hr, Hm.
  unfold PHYS_BASE, page_bytes in *. assert (Hlen : length zs = 4096%nat) by (by rewrite Hzs, length_replicate).
  assert (Hmap : ∀ m k n, mapped m t 4096 → 0 ≤ k → k + Z.of_nat n ≤ 4096 → mapped m (t + k) n).
  { intros m k n [_ Hm'] Hk Hn. split; [lia|]. intros j Hj. replace (t + k + Z.of_nat j) with (t + Z.of_nat (Z.to_nat k + j)) by lia. apply Hm'. lia. }
  erewrite st_bind_ok by exact Eg. clear Eg. unfold o_ss0, o_bitmap, tss_update, o_esp0, storeh.
  rewrite !(u32_id (t + _)) by (unfold in_u32; lia). set (m0 := write t zs (ram p)).
  assert (H0 : mapped m0 t 4096) by (apply mapped_write; by split).
  erewrite st_bind_ok by (apply on_ram_ok, store_bytes_ok; rewrite length_le_bytes; apply Hmap; [exact H0|lia|lia]). cbn [kernel_pool user_pool ram].
  set (m1 := write (t + 8) (le_bytes 2 SEL_KDSEG) _). change (ram _) with m0 in m1.
  assert (H1 : mapped m1 t 4096) by (by apply mapped_write).
  erewrite st_bind_ok by (apply on_ram_ok, store_bytes_ok; rewrite length_le_bytes; apply Hmap; [exact H1|lia|lia]). cbn [kernel_pool user_pool ram].
  set (m2 := write (t + 102) (le_bytes 2 57343) _). change (ram _) with m1 in m2.
  assert (H2 : mapped m2 t 4096) by (by apply mapped_write).
  erewrite st_bind_ok.
  2: { erewrite st_bind_ok by (apply assert_ok, bool_decide_eq_true; unfold NULL; lia).
       apply on_ram_ok, storew_ok. apply Hmap; [exact H2|lia|lia]. }
  eexists t, _. split; [reflexivity|]. cbn [ram]. split; [|unfold NULL, in_u32; lia].
  split; [rewrite length_app, !length_le_bytes; lia|]. intros k Hk. rewrite length_app, !length_le_bytes in Hk.
  rewrite lookup_write, length_le_bytes. case_decide as Hx.
  - rewrite lookup_app_l by (rewrite length_le_bytes; lia). f_equal. lia.
  - rewrite lookup_app_r, length_le_bytes by (rewrite length_le_bytes; lia). unfold m2, m1.
    rewrite lookup_write, length_le_bytes, decide_False by lia. rewrite lookup_write, length_le_bytes, decide_True by lia. f_equal. lia.
Qed.

(** ** The interrupt table as a map *)

(** A registration: privilege level, interrupts on, handler. *)
Abbreviation registration := (Z * bool * handler)%type.

(** The gate for a vector. *)
Definition gate_for (stub : Z) (r : option registration) : gate :=
  match r with
  | Some (dpl, level, _) => Gate stub SEL_KCSEG (if level then 15 else 14) 0 dpl 1 0
  | None => Gate stub SEL_KCSEG 14 0 0 1 0
  end.

Section table.
Context (stubs : Z → Z) (Hstubs : ∀ v, 0 ≤ v < 256 → 0 < stubs v < 2^32).

(** The table holds the registrations [M]; external interrupts run in the kernel
    with interrupts off. *)
Record implements (t : tables) (M : gmap Z registration) : Prop := {
  im_idt : length (idt t) = 256%nat;
  im_handlers : length (intr_handlers t) = 256%nat;
  im_gate : ∀ v, 0 ≤ v < 256 → decode_gate <$> idt t !! Z.to_nat v = Some (gate_for (stubs v) (M !! v));
  im_handler : ∀ v, 0 ≤ v < 256 → intr_handlers t !! Z.to_nat v = Some (snd <$> M !! v);
  im_external : ∀ v d l h, 32 ≤ v ≤ 47 → M !! v = Some (d, l, h) → d = 0 ∧ l = false;
}.

Lemma gate_made v dpl (level : bool) :
  0 ≤ v < 256 → 0 ≤ dpl ≤ 3 →
  ∃ g, (if level then make_trap_gate (stubs v) dpl else make_intr_gate (stubs v) dpl) = Ok g ∧
    decode_gate g = Gate (stubs v) SEL_KCSEG (if level then 15 else 14) 0 dpl 1 0.
Proof using Hstubs.
  intros Hv Hd. unfold make_trap_gate, make_intr_gate. destruct level; apply make_gate_ok; (by apply Hstubs) || lia.
Qed.

Lemma register_handler_ok t M v dpl level h n :
  implements t M → 0 ≤ v < 256 → 0 ≤ dpl ≤ 3 → (32 ≤ v ≤ 47 → dpl = 0 ∧ level = false) →
  if decide (M !! v = None) then
    ∃ t', register_handler stubs v dpl level h n t = Ok ((), t') ∧ implements t' (<[v := (dpl, level, h)]> M) ∧
      gdt t' = gdt t ∧ gdtr t' = gdtr t ∧ idtr t' = idtr t ∧ ports t' = ports t
  else register_handler stubs v dpl level h n t = Err EPanic.
Proof using Hstubs.
  intros [Hi Hh Hg Hhd He] Hv Hd Hext. unfold register_handler. change (st_get ≫= ?k) with (λ s, k s s). cbn beta.
  erewrite st_bind_ok by (rewrite (Hhd v Hv); reflexivity).
  destruct (M !! v) as [r|] eqn:Em; cbn [fmap option_fmap option_map].
  { rewrite decide_False by done. by apply st_bind_err. }
  rewrite decide_True by done. erewrite st_bind_ok by done.
  destruct (gate_made v dpl level Hv Hd) as (g & Eg & Dg). erewrite st_bind_ok by (by apply st_res_ok).
  eexists. split; [reflexivity|]. split; [|done].
  assert (Hne : ∀ w, 0 ≤ w → w ≠ v → Z.to_nat v ≠ Z.to_nat w) by lia.
  split; cbn [idt intr_handlers]; rewrite ?length_insert; try done.
  - intros w Hw. destruct (decide (w = v)) as [->|Hwv].
    + rewrite lookup_insert_eq, list_lookup_insert_eq by lia. cbn. by rewrite Dg.
    + rewrite lookup_insert_ne, list_lookup_insert_ne by (apply Hne || done; lia || done). by apply Hg.
  - intros w Hw. destruct (decide (w = v)) as [->|Hwv].
    + rewrite lookup_insert_eq, list_lookup_insert_eq by lia. done.
    + rewrite lookup_insert_ne, list_lookup_insert_ne by (apply Hne || done; lia || done). by apply Hhd.
  - intros w d l h' Hw. destruct (decide (w = v)) as [->|Hwv].
    + rewrite lookup_insert_eq. intros [= <- <- <-]. by apply Hext.
    + rewrite lookup_insert_ne by done. by apply He.
Qed.

Lemma gate_loop_ok n : ∀ i t,
  0 ≤ i → i + Z.of_nat n = 256 → length (idt t) = 256%nat →
  ∃ gs, gate_loop stubs n i t = Ok ((), Tables (gdt t) (gdtr t) (tr t) gs (idtr t) (intr_handlers t) (intr_names t) (ports t)) ∧
    length gs = 256%nat ∧
    ∀ v, 0 ≤ v < 256 → if decide (i ≤ v) then decode_gate <$> gs !! Z.to_nat v = Some (gate_for (stubs v) None)
                       else gs !! Z.to_nat v = idt t !! Z.to_nat v.
Proof using Hstubs.
  induction n as [|n IH]; intros i t Hi Hn Hl; cbn [gate_loop].
  { exists (idt t). split; [by destruct t|]. split; [done|]. intros v Hv. by rewrite decide_False by lia. }
  destruct (gate_made i 0 false) as (g & Eg & Dg); [lia..|]. erewrite st_bind_ok by (by apply st_res_ok).
  erewrite st_bind_ok by done.
  destruct (IH (i + 1) (Tables (gdt t) (gdtr t) (tr t) (<[Z.to_nat i := g]> (idt t)) (idtr t) (intr_handlers t) (intr_names t) (ports t)))
    as (gs & E & Hgs & Hv); [lia|lia|by cbn; rewrite length_insert|].
  exists gs. split; [exact E|]. split; [done|]. intros v Hr. specialize (Hv v Hr). cbn [idt] in Hv.
  destruct (decide (i ≤ v)) as [Hiv|Hiv].
  - case_decide as H; [done|]. assert (v = i) as -> by lia. rewrite Hv, list_lookup_insert_eq by lia. cbn. by rewrite Dg.
  - rewrite decide_False, list_lookup_insert_ne in Hv by lia. done.
Qed.
End table.

(** Tables that differ in the names of interrupts only. *)
Definition with_names (ns : list (list Z)) (t : tables) : tables :=
  Tables (gdt t) (gdtr t) (tr t) (idt t) (idtr t) (intr_handlers t) ns (ports t).

Lemma unknown_loop_ok n : ∀ i t, ∃ ns, unknown_loop n i t = Ok ((), with_names ns t).
Proof.
  induction n as [|n IH]; intros i t; cbn [unknown_loop]; [exists (intr_names t); by destruct t|].
  destruct (IH (i + 1) (with_names (<[Z.to_nat i := str "unknown"]> (intr_names t)) t)) as (ns & E). exists ns.
  erewrite st_bind_ok by done. exact E.
Qed.

Lemma names_loop_ok l : ∀ t, ∃ ns, names_loop l t = Ok ((), with_names ns t).
Proof.
  induction l as [|[i n] l IH]; intros t; cbn [names_loop]; [exists (intr_names t); by destruct t|].
  destruct (IH (with_names (<[Z.to_nat i := str n]> (intr_names t)) t)) as (ns & E). exists ns.
  erewrite st_bind_ok by done. exact E.
Qed.

(** What pic_init writes: interrupts 0 to 15 go to vectors 32 to 47. *)
Definition pic_setup : list (Z * Z) :=
  [(33, 255); (161, 255); (32, 17); (33, 32); (33, 4); (33, 1); (160, 17); (161, 40); (161, 2); (161, 1); (33, 0); (161, 0)].

Section boot.
Context (stubs : Z → Z) (Hstubs : ∀ v, 0 ≤ v < 256 → 0 < stubs v < 2^32).

Lemma intr_init_ok t idt_addr :
  length (idt t) = 256%nat → intr_handlers t = replicate 256 None →
  ∃ t', intr_init stubs idt_addr t = Ok ((), t') ∧ implements stubs t' ∅ ∧
    idtr t' = make_idtr_operand 2047 idt_addr ∧ ports t' = ports t ++ pic_setup.
Proof using Hstubs.
  intros Hl Hh. unfold intr_init.
  set (t1 := Tables (gdt t) (gdtr t) (tr t) (idt t) (idtr t) (intr_handlers t) (intr_names t) (ports t ++ pic_setup)).
  erewrite (st_bind_ok _ _ t () t1).
  2: { lazy -[app]. rewrite <- !app_assoc. reflexivity. }
  destruct (gate_loop_ok stubs Hstubs (Z.to_nat INTR_CNT) 0 t1) as (gs & E & Hgs & Hv); [lia|done|done|].
  erewrite st_bind_ok by exact E. erewrite st_bind_ok by done.
  match goal with |- context [unknown_loop ?n ?i] => set (k := n); set (i0 := i) end.
  match goal with |- context [(unknown_loop k i0 ≫= _) ?t] => destruct (unknown_loop_ok k i0 t) as (ns & En) end.
  erewrite st_bind_ok by exact En.
  match goal with |- context [names_loop ?l ?t] => destruct (names_loop_ok l t) as (ns' & En') end.
  eexists. split; [exact En'|]. split; [|done]. split; cbn [idt intr_handlers with_names t1].
  - done.
  - by rewrite Hh, length_replicate.
  - intros v Hr. specialize (Hv v Hr). rewrite decide_True in Hv by lia. by rewrite Hv, lookup_empty.
  - intros v Hr. rewrite Hh, lookup_replicate_2, lookup_empty by lia. done.
  - intros v d l h _. by rewrite lookup_empty.
Qed.

Lemma register_ext_ok t M v h n :
  implements stubs t M → 32 ≤ v ≤ 47 → M !! v = None →
  ∃ t', intr_register_ext stubs v h n t = Ok ((), t') ∧ implements stubs t' (<[v := (0, false, h)]> M) ∧
    idtr t' = idtr t ∧ ports t' = ports t.
Proof using Hstubs.
  intros Hi Hv Hm. unfold intr_register_ext. erewrite st_bind_ok by (apply assert_ok; by rewrite !bool_decide_true by lia).
  pose proof (register_handler_ok stubs Hstubs t M v 0 false h n Hi ltac:(lia) ltac:(lia) ltac:(done)) as H.
  rewrite decide_True in H by done. destruct H as (t' & E & Hi' & _ & _ & Ei & Ep). by exists t'.
Qed.

Lemma register_int_ok t M v dpl level h n :
  implements stubs t M → 0 ≤ v < 256 → (v < 32 ∨ 47 < v) → 0 ≤ dpl ≤ 3 → M !! v = None →
  ∃ t', intr_register_int stubs v dpl level h n t = Ok ((), t') ∧ implements stubs t' (<[v := (dpl, level, h)]> M) ∧
    idtr t' = idtr t ∧ ports t' = ports t.
Proof using Hstubs.
  intros Hi Hv Hr Hd Hm. unfold intr_register_int.
  erewrite st_bind_ok by (apply assert_ok, orb_true_iff; rewrite !bool_decide_eq_true; lia).
  pose proof (register_handler_ok stubs Hstubs t M v dpl level h n Hi Hv Hd ltac:(lia)) as H.
  rewrite decide_True in H by done. destruct H as (t' & E & Hi' & _ & _ & Ei & Ep). by exists t'.
Qed.

(** C26: the interrupt table is a map from vectors to registrations, with a
    gate to its own stub in the kernel's code segment for every vector.  An
    external interrupt's handler gets a gate that turns interrupts off and that user
    programs cannot call; registering a vector twice, outside its range, or
    with a privilege level that does not exist panics. *)
Theorem registrations_refine_map t M v dpl level h n :
  implements stubs t M → 0 ≤ v < 256 →
  (if decide (32 ≤ v ≤ 47 ∧ M !! v = None)
   then ∃ t', intr_register_ext stubs v h n t = Ok ((), t') ∧ implements stubs t' (<[v := (0, false, h)]> M)
   else intr_register_ext stubs v h n t = Err EPanic) ∧
  (if decide ((v < 32 ∨ 47 < v) ∧ M !! v = None ∧ 0 ≤ dpl ≤ 3)
   then ∃ t', intr_register_int stubs v dpl level h n t = Ok ((), t') ∧ implements stubs t' (<[v := (dpl, level, h)]> M)
   else intr_register_int stubs v dpl level h n t = Err EPanic).
Proof using Hstubs.
  intros Hi Hv. split; case_decide as H.
  - destruct (register_ext_ok t M v h n) as (t' & E & Hi' & _); [done|lia|tauto|]. by exists t'.
  - unfold intr_register_ext. destruct (decide (32 ≤ v ≤ 47)) as [Hr|Hr].
    + erewrite st_bind_ok by (apply assert_ok; by rewrite !bool_decide_true by lia).
      pose proof (register_handler_ok stubs Hstubs t M v 0 false h n Hi Hv ltac:(lia) ltac:(done)) as Hp.
      by rewrite decide_False in Hp by tauto.
    + apply st_bind_err. do 2 case_bool_decide; try done. lia.
  - destruct (register_int_ok t M v dpl level h n) as (t' & E & Hi' & _); try tauto; try lia. by exists t'.
  - unfold intr_register_int. destruct (decide (v < 32 ∨ 47 < v)) as [Hr|Hr].
    2: { apply st_bind_err. do 2 case_bool_decide; try done; lia. }
    erewrite st_bind_ok by (apply assert_ok, orb_true_iff; rewrite !bool_decide_eq_true; lia).
    unfold register_handler. change (st_get ≫= ?k) with (λ s, k s s). cbn beta.
    erewrite st_bind_ok by (rewrite (im_handler _ _ _ Hi v Hv); reflexivity).
    destruct (M !! v) as [r|]; cbn [fmap option_fmap option_map]; [by apply st_bind_err|]. erewrite st_bind_ok by done.
    apply st_bind_err. unfold make_trap_gate, make_intr_gate, make_gate.
    pose proof (Hstubs v Hv). rewrite (bool_decide_true (stubs v ≠ NULL)) by (unfold NULL; lia).
    assert (bool_decide (0 ≤ dpl) && bool_decide (dpl ≤ 3) = false) as ->.
    { apply andb_false_iff. rewrite !bool_decide_eq_false. destruct (decide (0 ≤ dpl)); [right|by left]. intros Hd. apply H. done. }
    by destruct level.
Qed.

(** [c] makes the registrations that lead from [M] to [M'], and writes [l] to ports. *)
Definition registers (M M' : gmap Z registration) (l : list (Z * Z)) (c : TM ()) : Prop :=
  ∀ t, implements stubs t M → ∃ t', c t = Ok ((), t') ∧ implements stubs t' M' ∧ idtr t' = idtr t ∧ ports t' = ports t ++ l.

Lemma registers_bind M M1 M2 l1 l2 c d :
  registers M M1 l1 c → registers M1 M2 l2 d → registers M M2 (l1 ++ l2) (c;; d).
Proof.
  intros Hc Hd t Ht. destruct (Hc t Ht) as (t1 & E1 & H1 & I1 & P1), (Hd t1 H1) as (t2 & E2 & H2 & I2 & P2).
  exists t2. erewrite st_bind_ok by exact E1. split_and!; [done|done|congruence|]. by rewrite P2, P1, app_assoc.
Qed.

Lemma registers_ext M v h n :
  32 ≤ v ≤ 47 → M !! v = None → registers M (<[v := (0, false, h)]> M) [] (intr_register_ext stubs v h n).
Proof using Hstubs.
  intros Hv Hm t Ht. destruct (register_ext_ok t M v h n Ht Hv Hm) as (t' & E & Hi & I & P). exists t'. by rewrite app_nil_r.
Qed.

Lemma registers_int M v dpl level h n :
  0 ≤ v < 256 → v < 32 ∨ 47 < v → 0 ≤ dpl ≤ 3 → M !! v = None →
  registers M (<[v := (dpl, level, h)]> M) [] (intr_register_int stubs v dpl level h n).
Proof using Hstubs.
  intros Hv Hr Hd Hm t Ht. destruct (register_int_ok t M v dpl level h n Ht Hv Hr Hd Hm) as (t' & E & Hi & I & P). exists t'. by rewrite app_nil_r.
Qed.

(** The timer at 100 Hz: 11932 cycles of 1193180 Hz. *)
Lemma registers_pit M : registers M M [(67, 52); (64, 156); (64, 46)] (pit_configure_channel 0 2 100).
Proof.
  intros t [H1 H2 H3 H4 H5].
  exists (Tables (gdt t) (gdtr t) (tr t) (idt t) (idtr t) (intr_handlers t) (intr_names t) (ports t ++ [(67, 52); (64, 156); (64, 46)])).
  split_and!; [|by split|done|done]. unfold pit_configure_channel. erewrite st_bind_ok by reflexivity. erewrite st_bind_ok by reflexivity.
  lazy -[app]. by rewrite <- !app_assoc.
Qed.
End boot.

(** The registrations of the kernel. *)
Definition boot_registrations : gmap Z registration := list_to_map
  [(32, (0, false, timer_interrupt)); (33, (0, false, keyboard_interrupt)); (3, (3, true, kill)); (4, (3, true, kill));
   (5, (3, true, kill)); (0, (0, true, kill)); (1, (0, true, kill)); (6, (0, true, kill)); (7, (0, true, kill));
   (11, (0, true, kill)); (12, (0, true, kill)); (13, (0, true, kill)); (16, (0, true, kill)); (19, (0, true, kill));
   (14, (0, false, page_fault)); (48, (3, true, syscall_handler)); (36, (0, false, serial_interrupt));
   (46, (0, false, ide_interrupt)); (47, (0, false, ide_interrupt))].

(** C25: after the initialisation of interrupts at boot, every vector has a gate
    to its own stub, with the kernel's registrations.  The vectors that user
    programs can call with the INT instruction are exactly 3, 4, 5 and 48 (the
    system call).  Devices' interrupts and page faults, and nothing else that
    is handled, start with interrupts off. *)
Theorem boot_interrupts stubs idt_addr t :
  (∀ v, 0 ≤ v < 256 → 0 < stubs v < 2^32) → length (idt t) = 256%nat → intr_handlers t = replicate 256 None →
  ∃ t', interrupts_init stubs idt_addr t = Ok ((), t') ∧ implements stubs t' boot_registrations ∧
    ports t' = ports t ++ pic_setup ++ [(67, 52); (64, 156); (64, 46)] ∧
    ∀ v g, 0 ≤ v < 256 → idt t' !! Z.to_nat v = Some g →
      (gt_dpl (decode_gate g) = 3 ↔ v = 3 ∨ v = 4 ∨ v = 5 ∨ v = 48) ∧
      (is_Some (boot_registrations !! v) → (gt_type (decode_gate g) = 14 ↔ v = 14 ∨ 32 ≤ v ≤ 47)).
Proof.
  intros Hs Hl Hh. destruct (intr_init_ok stubs Hs t idt_addr Hl Hh) as (t1 & E1 & H1 & I1 & P1). unfold interrupts_init.
  erewrite st_bind_ok by exact E1.
  assert (Hr : ∃ M l, registers stubs ∅ M l (timer_init stubs;; kbd_init stubs;; exception_init stubs;; syscall_init stubs;;
    serial_register stubs;; ide_register stubs (14 + 32) "ide0";; ide_register stubs (15 + 32) "ide1") ∧
    M = boot_registrations ∧ l = [(67, 52); (64, 156); (64, 46)]).
  { eexists _, _. split.
    - unfold timer_init, kbd_init, exception_init, syscall_init, serial_register, ide_register.
      repeat first [apply (registers_pit stubs) | apply registers_ext; [done|lia|reflexivity]
        | apply registers_int; [done|lia|lia|lia|reflexivity] | eapply registers_bind].
    - split; [|reflexivity]. vm_compute. reflexivity. }
  destruct Hr as (M & l & Hr & -> & ->). destruct (Hr t1 H1) as (t2 & E2 & H2 & _ & P2). exists t2. split_and!; [done|done|by rewrite P2, P1, <- app_assoc|].
  intros v g Hv Eg. pose proof (im_gate _ _ _ H2 v Hv) as Hg. rewrite Eg in Hg. apply (inj Some) in Hg. rewrite Hg.
  assert (Hall : Forall (λ v, (gt_dpl (gate_for 0 (boot_registrations !! v)) = 3 ↔ v = 3 ∨ v = 4 ∨ v = 5 ∨ v = 48) ∧
    (is_Some (boot_registrations !! v) → (gt_type (gate_for 0 (boot_registrations !! v)) = 14 ↔ v = 14 ∨ 32 ≤ v ≤ 47))) (seqZ 0 256)) by compute_hyp.
  rewrite Forall_forall in Hall. specialize (Hall v (proj2 (elem_of_seqZ 0 256 v) ltac:(lia))).
  by destruct (boot_registrations !! v) as [[[d l] h]|].
Qed.

(** Stubs of 16 bytes each. *)
Definition demo_stubs (v : Z) : Z := 3221360640 + 16 * v.
Definition demo_tables : tables := Tables (replicate 6 0) 0 0 (replicate 256 0) 0 (replicate 256 None) (replicate 256 []) [].

Lemma boot_interrupts_witness :
  ∃ t', interrupts_init demo_stubs 3222011904 demo_tables = Ok ((), t') ∧ implements demo_stubs t' boot_registrations.
Proof.
  destruct (boot_interrupts demo_stubs 3222011904 demo_tables) as (t' & E & H & _).
  - unfold demo_stubs. lia.
  - reflexivity.
  - reflexivity.
  - exists t'. split; [exact E|exact H].
Defined.

Definition demo_empty : tables :=
  Tables [] 0 0 ((λ v, default 0 (match make_intr_gate (demo_stubs v) 0 with Ok g => Some g | Err _ => None end)) <$> seqZ 0 256) 0
    (replicate 256 None) [] [].

Lemma demo_empty_implements : implements demo_stubs demo_empty ∅.
Proof.
  assert (H : Forall (λ v, decode_gate <$> idt demo_empty !! Z.to_nat v = Some (gate_for (demo_stubs v) None)) (seqZ 0 256)).
  { apply Forall_forall. intros v Hv. apply elem_of_seqZ in Hv. cbn [idt demo_empty].
    rewrite list_lookup_fmap, lookup_seqZ_lt by lia. cbn [fmap option_fmap option_map].
    destruct (make_gate_ok (demo_stubs v) 0 14) as (g & E & D); [unfold demo_stubs; lia|lia|lia|].
    replace (0 + Z.of_nat (Z.to_nat v)) with v by lia. unfold make_intr_gate. rewrite E. cbn. by rewrite D. }
  rewrite Forall_forall in H. split; [reflexivity|reflexivity| | |].
  - intros v Hv. apply H, elem_of_seqZ. lia.
  - intros v Hv. cbn [intr_handlers demo_empty]. rewrite lookup_replicate_2 by lia. done.
  - intros v d l h _. by rewrite lookup_empty.
Qed.

Lemma registrations_refine_map_witness :
  (∃ t', intr_register_ext demo_stubs 33 keyboard_interrupt "8042 Keyboard" demo_empty = Ok ((), t') ∧
     implements demo_stubs t' {[33 := (0, false, keyboard_interrupt)]}) ∧
  intr_register_int demo_stubs 33 0 true kill "x" demo_empty = Err EPanic.
Proof.
  destruct (registrations_refine_map demo_stubs ltac:(unfold demo_stubs; lia) demo_empty ∅ 33 0 true keyboard_interrupt "8042 Keyboard"
    demo_empty_implements ltac:(lia)) as [H1 _].
  destruct (registrations_refine_map demo_stubs ltac:(unfold demo_stubs; lia) demo_empty ∅ 33 0 true kill "x"
    demo_empty_implements ltac:(lia)) as [_ H2].
  split; [exact H1|exact H2].
Defined.
