(* ===== verification/Trap.v ===== *)
(** * userprog/syscall.c and userprog/exception.c: traps from user programs

    The system call handler and the exception handlers.  The words of the user's
    stack are read through the page tables of Paging.v; a page fault in the
    kernel goes to page_fault.  The routines of other parts that a system call uses are
    logged, in order, and [reply] gives their results; [junk] is the value of a
    function that returns without one.  Console output is left out. *)

From S2P Require Import Prelude Bitmap Memory CString Vaddr Palloc Pagedir MemTheorems Paging Descriptors.

Local Open Scope Z_scope.

(** The members of struct intr_frame that the handlers use. *)
Record intr_frame := IntrFrame { eax : Z; error_code : Z; cs : Z; esp : Z }.

(** lib/syscall-nr.h. *)
Definition SYS_HALT : Z := 0.
Definition SYS_EXIT : Z := 1.
Definition SYS_EXEC : Z := 2.
Definition SYS_WAIT : Z := 3.
Definition SYS_CREATE : Z := 4.
Definition SYS_REMOVE : Z := 5.
Definition SYS_OPEN : Z := 6.
Definition SYS_FILESIZE : Z := 7.
Definition SYS_READ : Z := 8.
Definition SYS_WRITE : Z := 9.
Definition SYS_SEEK : Z := 10.
Definition SYS_TELL : Z := 11.
Definition SYS_CLOSE : Z := 12.

Definition STDOUT_FILENO : Z := 1.

(** Calls of routines of other parts. *)
Inductive call :=
  | process_execute (cmd_line : Z)
  | process_wait (pid : Z)
  | filesys_create (file initial_size : Z)
  | filesys_remove (file : Z)
  | putbuf (buffer size : Z).

(** [ret] is the running thread's exit status, [frame] its interrupt frame. *)
Record trap := Trap {
  mach : machine;
  frame : intr_frame;
  ret : Z;
  page_fault_cnt : Z;
  calls : list call;
}.

Abbreviation TR := (ST trap).

(** How a handler ends: thread_exit, power off, or a return to the program. *)
Inductive ending := Exits | PowersOff | Resumes.

Definition add_call (c : call) : TR () :=
  st_modify (λ s, Trap (mach s) (frame s) (ret s) (page_fault_cnt s) (calls s ++ [c])).
Definition set_eax (v : Z) : TR () :=
  st_modify (λ s, Trap (mach s) (IntrFrame v (error_code (frame s)) (cs (frame s)) (esp (frame s))) (ret s) (page_fault_cnt s) (calls s)).

(** ** Exceptions *)

Definition kill (f : intr_frame) : TR ending :=
  if decide (cs f = SEL_UCSEG) then mret Exits
  else if decide (cs f = SEL_KCSEG) then st_fail EPanic
  else mret Exits.

Definition page_fault (f : intr_frame) : TR ending :=
  st_modify (λ s, Trap (mach s) (frame s) (ret s) (s64 (page_fault_cnt s + 1)) (calls s));;
  kill f.

(** ** Reading the user's memory in the kernel *)

Definition peek (s : machine) (v : Z) : option Z :=
  match translate (mem_of s) (cr3 s) v with
  | Some (p, _, _) => mem_of s !! (PHYS_BASE + p)
  | None => None
  end.

Definition peekw (s : machine) (v : Z) : option Z :=
  a ← peek s v; b ← peek s (u32 (v + 1)); c ← peek s (u32 (v + 2)); d ← peek s (u32 (v + 3)); Some (le_word [a; b; c; d]).

(** [*p] for an [int *]: a fault is one of the kernel's. *)
Definition deref (p : Z) : TR Z :=
  s ← st_get;
  match peekw (mach s) p with
  | Some w => mret (s32 w)
  | None => _ ← page_fault (IntrFrame 0 0 SEL_KCSEG 0); st_fail EFault
  end.

(** ** System calls *)

Definition _halt_ : TR ending := mret PowersOff.
Definition _exit_ (status : Z) : TR ending :=
  st_modify (λ s, Trap (mach s) (frame s) status (page_fault_cnt s) (calls s));; mret Exits.

Section syscalls.
Context (reply : call → Z) (junk : Z).

Definition run_call (c : call) : TR Z := add_call c;; mret (reply c).

Definition _exec_ (cmd_line : Z) : TR Z := _ ← run_call (process_execute cmd_line); mret junk.
Definition _wait_ (pid : Z) : TR Z := run_call (process_wait pid).
Definition _create_ (file initial_size : Z) : TR Z := run_call (filesys_create file initial_size).
Definition _remove_ (file : Z) : TR Z := run_call (filesys_remove file).
Definition _write_ (fd buffer size : Z) : TR Z :=
  if decide (fd = STDOUT_FILENO) then _ ← run_call (putbuf buffer size); mret (s32 size) else mret junk.

(** The branches of the handler; None continues behind them. *)
Definition syscall_branch (call sp : Z) : TR (option ending) :=
  if decide (call = SYS_HALT) then e ← _halt_; mret (Some e)
  else if decide (call = SYS_EXIT) then e ← _exit_ 0; mret (Some e)
  else if decide (call = SYS_EXEC) then
    a ← deref (u32 (sp + 4)); v ← _exec_ (u32 a); set_eax (u32 v);; mret None
  else if decide (call = SYS_WAIT) then
    a ← deref (u32 (sp + 4)); _ ← _wait_ a; mret None
  else if decide (call = SYS_CREATE) then
    a ← deref (u32 (sp + 4)); b ← deref (u32 (sp + 8)); v ← _create_ (u32 a) (u32 b); set_eax (u32 v);; mret None
  else if decide (call = SYS_REMOVE) then
    a ← deref (u32 (sp + 4)); v ← _remove_ (u32 a); set_eax (u32 v);; mret None
  else if decide (call = SYS_WRITE) then
    a ← deref (u32 (sp + 4)); b ← deref (u32 (sp + 8)); c ← deref (u32 (sp + 12));
    v ← _write_ a (u32 b) (u32 c); set_eax (u32 v);; mret None
  else mret None.

Definition syscall_handler : TR ending :=
  s ← st_get;
  let sp := esp (frame s) in
  call ← deref sp;
  if decide (u32 (sp + 4) = NULL) then _exit_ (-1)
  else if is_user_vaddr (u32 (sp + 4)) then
    e ← syscall_branch call sp;
    match e with Some e => mret e | None => mret Exits end
  else _exit_ (-1).
End syscalls.

(** The exceptions and the system call, as the gates of Descriptors.v deliver
    them to their handlers. *)
Definition deliver (reply : call → Z) (junk : Z) (h : handler) : TR ending :=
  s ← st_get;
  match h with
  | Descriptors.kill => kill (frame s)
  | Descriptors.page_fault => page_fault (frame s)
  | Descriptors.syscall_handler => syscall_handler reply junk
  | _ => mret Resumes
  end.

(** * Theorems *)

(** The call a system call makes, with the words of the user's stack. *)
Definition call_of (call a b c : Z) : list Trap.call :=
  if decide (call = SYS_EXEC) then [process_execute (u32 a)]
  else if decide (call = SYS_WAIT) then [process_wait a]
  else if decide (call = SYS_CREATE) then [filesys_create (u32 a) (u32 b)]
  else if decide (call = SYS_REMOVE) then [filesys_remove (u32 a)]
  else if decide (call = SYS_WRITE) then if decide (a = STDOUT_FILENO) then [putbuf (u32 b) (u32 c)] else []
  else [].

Lemma deref_ok s p w : peekw (mach s) p = Some w → deref p s = Ok (s32 w, s).
Proof. intros E. unfold deref. change (st_get ≫= ?k) with (λ s, k s s). cbn beta. by rewrite E. Qed.

(** A bad pointer in the kernel. *)
Lemma deref_fault s p : peekw (mach s) p = None → deref p s = Err EPanic.
Proof. intros E. unfold deref. change (st_get ≫= ?k) with (λ s, k s s). cbn beta. by rewrite E. Qed.

Lemma syscall_branch_ok reply junk call sp s a b c :
  deref (u32 (sp + 4)) s = Ok (a, s) → deref (u32 (sp + 8)) s = Ok (b, s) → deref (u32 (sp + 12)) s = Ok (c, s) →
  ∃ r s', syscall_branch reply junk call sp s = Ok (r, s') ∧ mach s' = mach s ∧ r ≠ Some Resumes ∧
    (r = Some PowersOff ↔ call = SYS_HALT) ∧ ret s' = (if decide (call = SYS_EXIT) then 0 else ret s) ∧
    calls s' = calls s ++ call_of call a b c.
Proof.
  intros Da Db Dc. unfold syscall_branch, call_of.
  destruct (decide (call = SYS_HALT)) as [->|H0]; [eexists _, _; split; [reflexivity|]; cbn; by rewrite app_nil_r|].
  destruct (decide (call = SYS_EXIT)) as [->|H1]; [eexists _, _; split; [reflexivity|]; cbn; by rewrite app_nil_r|].
  destruct (decide (call = SYS_EXEC)) as [->|H2]; [eexists _, _; split; [by erewrite st_bind_ok by exact Da|done]|].
  destruct (decide (call = SYS_WAIT)) as [->|H3]; [eexists _, _; split; [by erewrite st_bind_ok by exact Da|done]|].
  destruct (decide (call = SYS_CREATE)) as [->|H4];
    [eexists _, _; split; [erewrite st_bind_ok by exact Da; by erewrite st_bind_ok by exact Db|done]|].
  destruct (decide (call = SYS_REMOVE)) as [->|H5]; [eexists _, _; split; [by erewrite st_bind_ok by exact Da|done]|].
  destruct (decide (call = SYS_WRITE)) as [->|H6]; [|eexists _, _; split; [reflexivity|]; by rewrite app_nil_r].
  destruct (decide (a = STDOUT_FILENO)) as [Hfd|Hfd]; (eexists _, _; split;
    [erewrite st_bind_ok by exact Da; erewrite st_bind_ok by exact Db; erewrite st_bind_ok by exact Dc; unfold _write_;
     first [rewrite (decide_True _ _ Hfd)|rewrite (decide_False _ _ Hfd)]; reflexivity|]); [done|]. cbn. by rewrite app_nil_r.
Qed.

(** C27: a system call never returns to the program.  The handler panics the kernel
    when the stack pointer is not mapped; otherwise it carries out the call
    (halt; exit, whose status becomes 0 whatever the program asked for;
    execute, wait, create, remove, or write to the console; nothing for
    the other numbers) and the program ends, with status -1 if
    the first argument's address is not the user's. *)
Theorem system_call_ends_program reply junk s a b c :
  let sp := esp (frame s) in
  0 ≤ sp < 2^32 →
  (is_Some (peekw (mach s) sp) → is_user_vaddr (u32 (sp + 4)) = true →
   peekw (mach s) (u32 (sp + 4)) = Some a ∧ peekw (mach s) (u32 (sp + 8)) = Some b ∧ peekw (mach s) (u32 (sp + 12)) = Some c) →
  match peekw (mach s) sp with
  | None => syscall_handler reply junk s = Err EPanic
  | Some n =>
      ∃ e s', syscall_handler reply junk s = Ok (e, s') ∧ e ≠ Resumes ∧ mach s' = mach s ∧
        if decide (u32 (sp + 4) ≠ NULL ∧ is_user_vaddr (u32 (sp + 4)) = true) then
          (e = PowersOff ↔ s32 n = SYS_HALT) ∧ ret s' = (if decide (s32 n = SYS_EXIT) then 0 else ret s) ∧
          calls s' = calls s ++ call_of (s32 n) (s32 a) (s32 b) (s32 c)
        else e = Exits ∧ ret s' = -1 ∧ calls s' = calls s
  end.
Proof.
  intros sp Hsp Hargs. unfold syscall_handler. change (st_get ≫= ?k) with (λ s, k s s). cbn beta. fold sp.
  destruct (peekw (mach s) sp) as [n|] eqn:En; [|by apply st_bind_err, deref_fault]. specialize (Hargs ltac:(done)).
  erewrite st_bind_ok by (by apply deref_ok).
  destruct (decide (u32 (sp + 4) ≠ NULL ∧ is_user_vaddr (u32 (sp + 4)) = true)) as [[Hn Hu]|Hx].
  - rewrite decide_False by done. rewrite Hu. destruct (Hargs Hu) as (Ea & Eb & Ec).
    destruct (syscall_branch_ok reply junk (s32 n) sp s (s32 a) (s32 b) (s32 c)) as (r & s' & E & Hm & Hr & Hp & Ht & Hc);
      [by apply deref_ok..|]. erewrite st_bind_ok by exact E.
    destruct r as [e|]; eexists _, s'; (split; [reflexivity|]); split_and!; try done; naive_solver.
  - destruct (decide (u32 (sp + 4) = NULL)); [by eexists _, _|].
    destruct (is_user_vaddr (u32 (sp + 4))); [tauto|by eexists _, _].
Qed.

(** A program that writes 5 bytes to the console: its stack is the page below
    PHYS_BASE, in the frame at 12288. *)
Definition demo_stack : mem :=
  write 3221232636 (le_bytes 4 8199) (write 3221237756 (le_bytes 4 12295)
    (write 3221241824 (concat (le_bytes 4 <$> [9; 1; 134512640; 5])) ∅)).
Definition demo_call (esp : Z) : trap :=
  Trap (Machine (Pages (Pool (Bitmap 0 []) 3221225472) (Pool (Bitmap 0 []) 3221225472) demo_stack) 0 1024 4096 ∅) (IntrFrame 0 0 SEL_UCSEG esp) 7 0 [].

Lemma system_call_ends_program_witness :
  (∃ e s', syscall_handler (λ _, 0) 0 (demo_call 3221225440) = Ok (e, s') ∧ e ≠ Resumes ∧ ret s' = 7 ∧ calls s' = [putbuf 134512640 5]) ∧
  syscall_handler (λ _, 0) 0 (demo_call 4096) = Err EPanic.
Proof.
  split.
  - pose proof (system_call_ends_program (λ _, 0) 0 (demo_call 3221225440) 1 134512640 5 ltac:(cbn; lia)) as H.
    cbn [demo_call frame esp] in H. fold (demo_call 3221225440) in H.
    assert (Hn : peekw (mach (demo_call 3221225440)) 3221225440 = Some 9) by (vm_compute; reflexivity). rewrite Hn in H.
    destruct H as (e & s' & E & He & _ & _ & Hr & Hc).
    + intros _ _. split; [vm_compute; reflexivity|]. split; vm_compute; reflexivity.
    + exists e, s'. split; [exact E|]. split; [exact He|]. split; [rewrite Hr; reflexivity|]. rewrite Hc. reflexivity.
  - assert (Hn : peekw (mach (demo_call 4096)) 4096 = None) by (vm_compute; reflexivity).
    pose proof (system_call_ends_program (λ _, 0) 0 (demo_call 4096) 0 0 0 ltac:(cbn; lia)) as H.
    cbn [demo_call frame esp] in H. fold (demo_call 4096) in H. rewrite Hn in H. apply H. intros [x Hx]. discriminate Hx.
Defined.
