(* ===== verification/Intq.v ===== *)
(** * devices/intq.c: queues between interrupt handlers and threads

    The ring buffer, and the two waiting protocols of intq_getc and intq_putc as a
    step relation: threads run in any order, a step runs to the next point
    where the thread blocks or lets others run, and interrupt handlers put and
    take bytes between steps.  The queue's lock is its holder; a thread that
    finds it taken waits until it is free.  [sent] and [received] record the bytes put
    and taken, in order. *)

From S2P Require Import Prelude.

Local Open Scope Z_scope.

Definition INTQ_BUFSIZE : Z := 64.

(** struct intq; waiters and the lock's holder are threads or NULL. *)
Record intq := Intq {
  lock : Z;
  not_full : Z;
  not_empty : Z;
  buf : list Z;
  qhead : Z;
  qtail : Z;
}.

(** What a thread is doing: testing the condition, waiting for the lock, blocked
    on the condition, or about to release the lock. *)
Inductive phase := Test | Locking | Blocked | Ready.
Inductive tstate := Idle | Get (p : phase) | Put (b : Z) (p : phase).

#[export] Instance phase_eq_dec : EqDecision phase.
Proof. solve_decision. Defined.
#[export] Instance tstate_eq_dec : EqDecision tstate.
Proof. solve_decision. Defined.

Record qsys := Qsys {
  queue : intq;
  threads : gmap Z tstate;
  sent : list Z;
  received : list Z;
}.

Abbreviation QM := (ST qsys).

Definition set_queue (q : intq) (s : qsys) : qsys := Qsys q (threads s) (sent s) (received s).
Definition set_thread (t : Z) (x : tstate) (s : qsys) : qsys := Qsys (queue s) (<[t := x]> (threads s)) (sent s) (received s).

Definition intq_init (elems : list Z) : intq := Intq NULL NULL NULL elems 0 0.

Definition next (pos : Z) : Z := (pos + 1) `mod` INTQ_BUFSIZE.
Definition intq_empty (q : intq) : bool := bool_decide (qhead q = qtail q).
Definition intq_full (q : intq) : bool := bool_decide (next (qhead q) = qtail q).

(** thread_unblock, for a thread blocked in wait. *)
Definition unblock (t : Z) : QM () :=
  s ← st_get;
  match threads s !! t with
  | Some (Get Blocked) => st_modify (set_thread t (Get Ready))
  | Some (Put b Blocked) => st_modify (set_thread t (Put b Ready))
  | _ => st_fail EPanic
  end.

(** signal (q, &q->not_empty) and signal (q, &q->not_full). *)
Definition signal_not_empty : QM () :=
  s ← st_get;
  ASSERT (negb (intq_empty (queue s)));;
  if decide (not_empty (queue s) ≠ NULL) then
    unblock (not_empty (queue s));;
    st_modify (λ s, let q := queue s in set_queue (Intq (lock q) (not_full q) NULL (buf q) (qhead q) (qtail q)) s)
  else mret tt.

Definition signal_not_full : QM () :=
  s ← st_get;
  ASSERT (negb (intq_full (queue s)));;
  if decide (not_full (queue s) ≠ NULL) then
    unblock (not_full (queue s));;
    st_modify (λ s, let q := queue s in set_queue (Intq (lock q) NULL (not_empty q) (buf q) (qhead q) (qtail q)) s)
  else mret tt.

(** The end of intq_getc: take a byte. *)
Definition take_byte : QM Z :=
  s ← st_get;
  let q := queue s in
  byte ← st_opt EFault (buf q !! Z.to_nat (qtail q));
  st_modify (λ s, Qsys (Intq (lock q) (not_full q) (not_empty q) (buf q) (qhead q) (next (qtail q))) (threads s) (sent s) (received s ++ [byte]));;
  signal_not_full;;
  mret byte.

(** The end of intq_putc: add a byte. *)
Definition add_byte (byte : Z) : QM () :=
  s ← st_get;
  let q := queue s in
  _ ← st_opt EFault (buf q !! Z.to_nat (qhead q));
  st_modify (λ s, Qsys (Intq (lock q) (not_full q) (not_empty q) (<[Z.to_nat (qhead q) := byte]> (buf q)) (next (qhead q)) (qtail q))
    (threads s) (sent s ++ [byte]) (received s));;
  signal_not_empty.

(** wait (q, &q->not_empty) and wait (q, &q->not_full) by [t], up to the switch
    to another thread; the lock has just been acquired. *)
Definition wait_not_empty (t : Z) : QM () :=
  s ← st_get;
  ASSERT (intq_empty (queue s));;
  st_modify (λ s, let q := queue s in set_queue (Intq t (not_full q) t (buf q) (qhead q) (qtail q)) s);;
  st_modify (set_thread t (Get Blocked)).

Definition wait_not_full (t b : Z) : QM () :=
  s ← st_get;
  ASSERT (intq_full (queue s));;
  st_modify (λ s, let q := queue s in set_queue (Intq t t (not_empty q) (buf q) (qhead q) (qtail q)) s);;
  st_modify (set_thread t (Put b Blocked)).

(** lock_release. *)
Definition release (t : Z) : QM () :=
  s ← st_get;
  ASSERT (bool_decide (lock (queue s) = t));;
  st_modify (λ s, let q := queue s in set_queue (Intq NULL (not_full q) (not_empty q) (buf q) (qhead q) (qtail q)) s).

(** intq_getc: a step of thread [t]. *)
Definition intq_getc (t : Z) (p : phase) : QM () :=
  s ← st_get;
  match p with
  | Test =>
      if intq_empty (queue s) then
        if decide (lock (queue s) = NULL) then wait_not_empty t else st_modify (set_thread t (Get Locking))
      else _ ← take_byte; st_modify (set_thread t Idle)
  | Locking => wait_not_empty t
  | Blocked => mret tt
  | Ready => release t;; st_modify (set_thread t (Get Test))
  end.

Definition intq_putc (t b : Z) (p : phase) : QM () :=
  s ← st_get;
  match p with
  | Test =>
      if intq_full (queue s) then
        if decide (lock (queue s) = NULL) then wait_not_full t b else st_modify (set_thread t (Put b Locking))
      else add_byte b;; st_modify (set_thread t Idle)
  | Locking => wait_not_full t b
  | Blocked => mret tt
  | Ready => release t;; st_modify (set_thread t (Put b Test))
  end.

(** A thread in phase [p] can run. *)
Definition runnable (s : qsys) (p : phase) : Prop :=
  match p with Test | Ready => True | Locking => lock (queue s) = NULL | Blocked => False end.

Inductive qstep (s : qsys) : res (() * qsys) → Prop :=
  | step_call_get t : threads s !! t = Some Idle → qstep s (Ok ((), set_thread t (Get Test) s))
  | step_call_put t b : threads s !! t = Some Idle → qstep s (Ok ((), set_thread t (Put b Test) s))
  | step_get t p : threads s !! t = Some (Get p) → runnable s p → qstep s (intq_getc t p s)
  | step_put t b p : threads s !! t = Some (Put b p) → runnable s p → qstep s (intq_putc t b p s)
  | step_intr_get : intq_empty (queue s) = false → qstep s ((_ ← take_byte; mret tt) s)
  | step_intr_put b : intq_full (queue s) = false → qstep s (add_byte b s).

Definition qnext (s s' : qsys) : Prop := qstep s (Ok ((), s')).

(** The queue after intq_init, and threads that have not called it yet. *)
Definition qinit (elems : list Z) (ts : list Z) : qsys := Qsys (intq_init elems) (list_to_map ((λ t, (t, Idle)) <$> ts)) [] [].
