(* ===== verification/IntqTheorems.v ===== *)
(** * Theorems on interrupt queues *)

From S2P Require Import Prelude Intq.

Local Open Scope Z_scope.

(** The bytes in the queue, oldest first. *)
Definition used (q : intq) : nat := Z.to_nat ((qhead q - qtail q) `mod` 64).
Definition contents (q : intq) : list Z := (λ i, default 0 (buf q !! Z.to_nat ((qtail q + Z.of_nat i) `mod` 64))) <$> seq 0 (used q).

Record queue_ok (q : intq) : Prop := {
  qo_buf : length (buf q) = 64%nat;
  qo_head : 0 ≤ qhead q < 64;
  qo_tail : 0 ≤ qtail q < 64;
}.

Lemma length_contents q : length (contents q) = used q.
Proof. unfold contents. by rewrite length_fmap, length_seq. Qed.

Lemma used_bound q : (used q < 64)%nat.
Proof. unfold used. pose proof (Z.mod_pos_bound (qhead q - qtail q) 64). lia. Qed.

Lemma empty_used q : queue_ok q → intq_empty q = true ↔ contents q = [].
Proof.
  intros [_ Hh Ht]. rewrite <- length_zero_iff_nil, length_contents. unfold intq_empty, used. rewrite bool_decide_eq_true. dlia.
Qed.

Lemma full_used q : queue_ok q → intq_full q = true ↔ length (contents q) = 63%nat.
Proof.
  intros [_ Hh Ht]. rewrite length_contents. unfold intq_full, used, next, INTQ_BUFSIZE. rewrite bool_decide_eq_true. dlia.
Qed.

Lemma next_range p : 0 ≤ next p < 64.
Proof. apply Z.mod_pos_bound. done. Qed.

(** Taking the oldest byte. *)
Lemma contents_take q b l nf ne :
  queue_ok q → buf q !! Z.to_nat (qtail q) = Some b → intq_empty q = false →
  contents q = b :: contents (Intq l nf ne (buf q) (qhead q) (next (qtail q))).
Proof.
  intros Hq Eb He. pose proof Hq as [_ Hh Ht]. unfold contents. cbn [qhead qtail buf]. set (q' := Intq _ _ _ _ _ _).
  assert (Hu : used q = S (used q')).
  { unfold intq_empty in He. apply bool_decide_eq_false in He. unfold used, q', next, INTQ_BUFSIZE. cbn [qhead qtail]. dlia. }
  rewrite Hu. cbn [seq fmap list_fmap]. f_equal.
  - replace ((qtail q + Z.of_nat 0) `mod` 64) with (qtail q) by dlia. by rewrite Eb.
  - rewrite <- fmap_S_seq, <- list_fmap_compose. apply list_fmap_ext. intros _ i _. cbn. unfold next, INTQ_BUFSIZE. do 3 f_equal. dlia.
Qed.

(** Adding a byte. *)
Lemma contents_add q b l nf ne :
  queue_ok q → intq_full q = false →
  contents (Intq l nf ne (<[Z.to_nat (qhead q) := b]> (buf q)) (next (qhead q)) (qtail q)) = contents q ++ [b].
Proof.
  intros Hq Hf. pose proof Hq as [Hb Hh Ht]. unfold contents. cbn [qhead qtail buf]. set (q' := Intq _ _ _ _ _ _).
  assert (Hu : used q' = S (used q)).
  { unfold intq_full in Hf. apply bool_decide_eq_false in Hf. revert Hf. unfold used, q', next, INTQ_BUFSIZE. cbn [qhead qtail]. dlia. }
  rewrite Hu, seq_S, fmap_app. cbn [fmap list_fmap]. f_equal.
  - apply list_fmap_ext. intros k i Hi. apply lookup_seq in Hi as [-> Hi]. cbn. f_equal. apply list_lookup_insert_ne.
    unfold used in Hi. clear Hu Hf. dlia.
  - f_equal. cbn. assert (E : (qtail q + Z.of_nat (used q)) `mod` 64 = qhead q) by (unfold used; dlia).
    rewrite E, list_lookup_insert_eq by lia. done.
Qed.

(** ** The invariant *)

(** The thread holds the lock. *)
Definition holds_lock (x : tstate) : bool :=
  match x with Get Blocked | Get Ready | Put _ Blocked | Put _ Ready => true | _ => false end.

Record qinv (s : qsys) : Prop := {
  qi_ok : queue_ok (queue s);
  qi_fifo : sent s = received s ++ contents (queue s);
  qi_null : threads s !! NULL = None;
  qi_empty : not_empty (queue s) ≠ NULL → threads s !! not_empty (queue s) = Some (Get Blocked) ∧ contents (queue s) = [];
  qi_full : not_full (queue s) ≠ NULL →
    (∃ b, threads s !! not_full (queue s) = Some (Put b Blocked)) ∧ length (contents (queue s)) = 63%nat;
  qi_get : ∀ t, threads s !! t = Some (Get Blocked) → not_empty (queue s) = t;
  qi_put : ∀ t b, threads s !! t = Some (Put b Blocked) → not_full (queue s) = t;
  qi_lock : ∀ t x, threads s !! t = Some x → holds_lock x = true → lock (queue s) = t;
  qi_holder : lock (queue s) ≠ NULL → ∃ x, threads s !! lock (queue s) = Some x ∧ holds_lock x = true;
}.

(** A thread that does not hold the lock moves. *)
Lemma set_thread_inv s t x y :
  qinv s → threads s !! t = Some x → holds_lock x = false → holds_lock y = false → qinv (set_thread t y s).
Proof.
  intros [H1 H2 H3 H4 H5 H6 H7 H8 H9] Ht Hx Hy. assert (Hn : t ≠ NULL) by congruence.
  assert (Hb : y ≠ Get Blocked ∧ ∀ b, y ≠ Put b Blocked) by (split; [|intros b]; intros ->; done).
  split; cbn [set_thread queue threads sent received]; try done.
  - by rewrite lookup_insert_ne.
  - intros E. destruct (H4 E) as [E1 E2]. split; [|done]. rewrite lookup_insert_ne; [done|]. intros Et. rewrite <- Et, Ht in E1. by injection E1 as ->.
  - intros E. destruct (H5 E) as [[b E1] E2]. split; [|done]. exists b. rewrite lookup_insert_ne; [done|]. intros Et. rewrite <- Et, Ht in E1. by injection E1 as ->.
  - intros u Hu. apply H6. destruct (decide (u = t)) as [->|Hne]; [rewrite lookup_insert_eq in Hu|by rewrite lookup_insert_ne in Hu].
    exfalso. apply (proj1 Hb). congruence.
  - intros u b Hu. apply (H7 _ b). destruct (decide (u = t)) as [->|Hne]; [rewrite lookup_insert_eq in Hu|by rewrite lookup_insert_ne in Hu].
    exfalso. apply (proj2 Hb b). congruence.
  - intros u z Hu Hz. destruct (decide (u = t)) as [->|Hne]; [rewrite lookup_insert_eq in Hu; congruence|rewrite lookup_insert_ne in Hu by done; eauto].
  - intros E. destruct (H9 E) as (z & Ez & Hz). exists z. rewrite lookup_insert_ne; [done|]. intros Et. rewrite <- Et in Ez. congruence.
Qed.

(** The queue's bytes change, and the waiter that they concern has been woken. *)
Lemma take_byte_ok s :
  qinv s → intq_empty (queue s) = false →
  ∃ b s', take_byte s = Ok (b, s') ∧ qinv s' ∧
    (∀ t x, threads s !! t = Some x → holds_lock x = false → threads s' !! t = Some x) ∧
    ∀ t x, threads s' !! t = Some x → ∃ y, threads s !! t = Some y ∧ (x = y ∨ holds_lock x = true).
Proof.
  intros [H1 H2 H3 H4 H5 H6 H7 H8 H9] He. pose proof H1 as [Hb Hh Ht]. set (q := queue s) in *.
  destruct (lookup_lt_is_Some_2 (buf q) (Z.to_nat (qtail q))) as [b Eb]; [lia|].
  pose proof (contents_take q b (lock q) (not_full q) (not_empty q) H1 Eb He) as Ec.
  pose proof (contents_take q b (lock q) NULL (not_empty q) H1 Eb He) as Ec0.
  set (q1 := Intq (lock q) (not_full q) (not_empty q) (buf q) (qhead q) (next (qtail q))) in *.
  assert (Hq1 : queue_ok q1) by (split; cbn; [done|done|apply next_range]).
  assert (Hnf : intq_full q1 = false).
  { destruct (intq_full q1) eqn:E; [|done]. apply full_used in E; [|done]. pose proof (used_bound q). rewrite <- length_contents, Ec in H. cbn in H. lia. }
  assert (Hne : not_empty q = NULL).
  { destruct (decide (not_empty q = NULL)) as [|Hx]; [done|]. destruct (H4 Hx) as [_ E]. congruence. }
  unfold take_byte. change (st_get ≫= ?k) with (λ s, k s s). cbn beta zeta. fold q.
  erewrite st_bind_ok by (rewrite Eb; reflexivity). erewrite st_bind_ok by reflexivity.
  unfold signal_not_full. cbn [threads sent received].
  destruct (decide (not_full q = NULL)) as [Hw|Hw].
  - exists b, (Qsys q1 (threads s) (sent s) (received s ++ [b])). split_and!; [|split; cbn|naive_solver|naive_solver]; try done.
    + erewrite st_bind_ok; [reflexivity|]. change (st_get ≫= ?k) with (λ s, k s s). cbn beta. cbn [queue].
      change (intq_full _) with (intq_full q1). rewrite Hnf. erewrite st_bind_ok by reflexivity. by rewrite decide_False by tauto.
    + rewrite H2, Ec, <- app_assoc. done.
  - destruct (H5 Hw) as [[c Eput] Hlen]. set (w := not_full q) in *.
    exists b, (Qsys (Intq (lock q) NULL (not_empty q) (buf q) (qhead q) (next (qtail q))) (<[w := Put c Ready]> (threads s)) (sent s) (received s ++ [b])).
    split_and!.
    + erewrite st_bind_ok; [reflexivity|]. change (st_get ≫= ?k) with (λ s, k s s). cbn beta. cbn [queue].
      change (intq_full _) with (intq_full q1). rewrite Hnf. erewrite st_bind_ok by reflexivity. rewrite decide_True by done.
      change (not_full _) with w. unfold unblock. erewrite st_bind_ok.
      2: { change (st_get ≫= ?k) with (λ s, k s s). cbn beta. cbn [threads]. rewrite Eput. reflexivity. }
      reflexivity.
    + split; cbn [queue threads sent received lock not_full not_empty qhead qtail buf].
      * by destruct Hq1.
      * rewrite H2, Ec0, <- app_assoc. done.
      * by rewrite lookup_insert_ne.
      * done.
      * done.
      * intros t Et. destruct (decide (t = w)) as [->|]; [rewrite lookup_insert_eq in Et|rewrite lookup_insert_ne in Et by done]; [done|by apply H6].
      * intros t c' Et. destruct (decide (t = w)) as [->|Hx]; [rewrite lookup_insert_eq in Et; done|rewrite lookup_insert_ne in Et by done].
        exfalso. apply Hx. symmetry. by eapply H7.
      * intros t x Et Hx. destruct (decide (t = w)) as [->|]; [by eapply H8|rewrite lookup_insert_ne in Et by done; eauto].
      * intros Hl. destruct (decide (lock q = w)) as [->|Hx]; [exists (Put c Ready); by rewrite lookup_insert_eq|].
        rewrite lookup_insert_ne by done. by apply H9.
    + intros t x Et Hx. cbn [threads]. rewrite lookup_insert_ne; [done|]. intros <-. rewrite Eput in Et. by injection Et as <-.
    + intros t x. cbn [threads]. destruct (decide (t = w)) as [->|]; [rewrite lookup_insert_eq; intros [= <-]; eauto|].
      rewrite lookup_insert_ne by done. eauto.
Qed.

Lemma add_byte_ok s b :
  qinv s → intq_full (queue s) = false →
  ∃ s', add_byte b s = Ok ((), s') ∧ qinv s' ∧
    (∀ t x, threads s !! t = Some x → holds_lock x = false → threads s' !! t = Some x) ∧
    ∀ t x, threads s' !! t = Some x → ∃ y, threads s !! t = Some y ∧ (x = y ∨ holds_lock x = true).
Proof.
  intros [H1 H2 H3 H4 H5 H6 H7 H8 H9] He. pose proof H1 as [Hb Hh Ht]. set (q := queue s) in *.
  destruct (lookup_lt_is_Some_2 (buf q) (Z.to_nat (qhead q))) as [o Eo]; [lia|].
  pose proof (contents_add q b (lock q) (not_full q) (not_empty q) H1 He) as Ec.
  pose proof (contents_add q b (lock q) (not_full q) NULL H1 He) as Ec0.
  set (q1 := Intq (lock q) (not_full q) (not_empty q) (<[Z.to_nat (qhead q) := b]> (buf q)) (next (qhead q)) (qtail q)) in *.
  assert (Hq1 : queue_ok q1) by (split; cbn; [by rewrite length_insert|apply next_range|done]).
  assert (Hne : intq_empty q1 = false).
  { destruct (intq_empty q1) eqn:E; [|done]. apply empty_used in E; [|done]. rewrite Ec in E. by destruct (contents q). }
  assert (Hnf : not_full q = NULL).
  { destruct (decide (not_full q = NULL)) as [|Hx]; [done|]. destruct (H5 Hx) as [_ E]. apply full_used in E; [congruence|done]. }
  unfold add_byte. change (st_get ≫= ?k) with (λ s, k s s). cbn beta zeta. fold q.
  erewrite st_bind_ok by (rewrite Eo; reflexivity). erewrite st_bind_ok by reflexivity.
  unfold signal_not_empty. cbn [threads sent received]. change (st_get ≫= ?k) with (λ s, k s s). cbn beta. cbn [queue].
  change (intq_empty _) with (intq_empty q1). rewrite Hne. erewrite st_bind_ok by reflexivity.
  change (not_empty (Intq _ _ _ _ _ _)) with (not_empty q). destruct (decide (not_empty q = NULL)) as [Hw|Hw].
  - rewrite decide_False by tauto. exists (Qsys q1 (threads s) (sent s ++ [b]) (received s)). split_and!; [done|split; cbn|naive_solver|naive_solver]; try done.
    rewrite H2, Ec, <- app_assoc. done.
  - rewrite decide_True by done. destruct (H4 Hw) as [Eget Hc]. set (w := not_empty q) in *.
    exists (Qsys (Intq (lock q) (not_full q) NULL (<[Z.to_nat (qhead q) := b]> (buf q)) (next (qhead q)) (qtail q))
      (<[w := Get Ready]> (threads s)) (sent s ++ [b]) (received s)).
    split_and!.
    + unfold unblock. erewrite st_bind_ok.
      2: { change (st_get ≫= ?k) with (λ s, k s s). cbn beta. cbn [threads]. rewrite Eget. reflexivity. }
      reflexivity.
    + split; cbn [queue threads sent received lock not_full not_empty qhead qtail buf].
      * by destruct Hq1.
      * rewrite H2, Ec0, <- app_assoc. done.
      * by rewrite lookup_insert_ne.
      * done.
      * done.
      * intros t Et. destruct (decide (t = w)) as [->|Hx]; [rewrite lookup_insert_eq in Et; done|rewrite lookup_insert_ne in Et by done].
        exfalso. apply Hx. symmetry. by apply H6.
      * intros t c' Et. destruct (decide (t = w)) as [->|]; [rewrite lookup_insert_eq in Et; done|rewrite lookup_insert_ne in Et by done; by eapply H7].
      * intros t x Et Hx. destruct (decide (t = w)) as [->|]; [by eapply H8|rewrite lookup_insert_ne in Et by done; eauto].
      * intros Hl. destruct (decide (lock q = w)) as [->|Hx]; [exists (Get Ready); by rewrite lookup_insert_eq|].
        rewrite lookup_insert_ne by done. by apply H9.
    + intros t x Et Hx. cbn [threads]. rewrite lookup_insert_ne; [done|]. intros <-. rewrite Eget in Et. by injection Et as <-.
    + intros t x. cbn [threads]. destruct (decide (t = w)) as [->|]; [rewrite lookup_insert_eq; intros [= <-]; eauto|].
      rewrite lookup_insert_ne by done. eauto.
Qed.

(** No thread is blocked while the lock is free. *)
Lemma lock_free s : qinv s → lock (queue s) = NULL → not_empty (queue s) = NULL ∧ not_full (queue s) = NULL ∧
  ∀ t x, threads s !! t = Some x → holds_lock x = false.
Proof.
  intros H Hl. assert (Hx : ∀ t x, threads s !! t = Some x → holds_lock x = false).
  { intros t x Et. destruct (holds_lock x) eqn:E; [|done]. pose proof (qi_lock _ H t x Et E) as E'. rewrite Hl in E'. subst t.
    pose proof (qi_null _ H). congruence. }
  split_and!; [| |done].
  - destruct (decide (not_empty (queue s) = NULL)) as [|Hn]; [done|]. destruct (qi_empty _ H Hn) as [E _]. by apply Hx in E.
  - destruct (decide (not_full (queue s) = NULL)) as [|Hn]; [done|]. destruct (qi_full _ H Hn) as [[b E] _]. by apply Hx in E.
Qed.

Lemma wait_ok s t x (b : option Z) :
  qinv s → threads s !! t = Some x → lock (queue s) = NULL →
  let ready := match b with None => intq_empty (queue s) | Some _ => intq_full (queue s) end in
  let wait := match b with None => wait_not_empty t | Some b => wait_not_full t b end in
  if ready then ∃ s', wait s = Ok ((), s') ∧ qinv s' ∧ ∃ y, threads s' = <[t := y]> (threads s) ∧ holds_lock y = true
  else wait s = Err EPanic.
Proof.
  intros H Et Hl. destruct (lock_free s H Hl) as (He & Hf & Hx). destruct H as [H1 H2 H3 H4 H5 H6 H7 H8 H9].
  assert (Hn : t ≠ NULL) by congruence.
  assert (Hgen : ∀ y, holds_lock y = true → ∀ u z, <[t := y]> (threads s) !! u = Some z → holds_lock z = true → u = t ∧ z = y).
  { intros y Hy u z Eu Hz. destruct (decide (u = t)) as [->|Hne]; [rewrite lookup_insert_eq in Eu; by injection Eu as <-|].
    rewrite lookup_insert_ne in Eu by done. apply Hx in Eu. congruence. }
  destruct b as [b|]; cbv zeta.
  - destruct (intq_full (queue s)) eqn:Er.
    2: { unfold wait_not_full. change (st_get ≫= ?k) with (λ s, k s s). cbn beta. rewrite Er. by apply st_bind_err. }
    eexists. split.
    { unfold wait_not_full. change (st_get ≫= ?k) with (λ s, k s s). cbn beta. rewrite Er. erewrite st_bind_ok by done. reflexivity. }
    specialize (Hgen (Put b Blocked) eq_refl). apply full_used in Er as El; [|done]. split; [|by eexists].
    split; cbn [set_thread set_queue queue threads sent received lock not_full not_empty]; try done.
    + by destruct H1.
    + by rewrite lookup_insert_ne.
    + intros _. split; [exists b; by rewrite lookup_insert_eq|done].
    + intros u Eu. by destruct (Hgen u _ Eu eq_refl).
    + intros u c Eu. by destruct (Hgen u _ Eu eq_refl) as [-> _].
    + intros u z Eu Hz. by destruct (Hgen u _ Eu Hz) as [-> _].
    + intros _. exists (Put b Blocked). by rewrite lookup_insert_eq.
  - destruct (intq_empty (queue s)) eqn:Er.
    2: { unfold wait_not_empty. change (st_get ≫= ?k) with (λ s, k s s). cbn beta. rewrite Er. by apply st_bind_err. }
    eexists. split.
    { unfold wait_not_empty. change (st_get ≫= ?k) with (λ s, k s s). cbn beta. rewrite Er. erewrite st_bind_ok by done. reflexivity. }
    specialize (Hgen (Get Blocked) eq_refl). apply empty_used in Er as El; [|done]. split; [|by eexists].
    split; cbn [set_thread set_queue queue threads sent received lock not_full not_empty]; try done.
    + by destruct H1.
    + by rewrite lookup_insert_ne.
    + intros _. split; [by rewrite lookup_insert_eq|done].
    + intros u Eu. by destruct (Hgen u _ Eu eq_refl) as [-> _].
    + intros u c Eu. by destruct (Hgen u _ Eu eq_refl).
    + intros u z Eu Hz. by destruct (Hgen u _ Eu Hz) as [-> _].
    + intros _. exists (Get Blocked). by rewrite lookup_insert_eq.
Qed.

Lemma release_ok s t x y :
  qinv s → threads s !! t = Some x → (x = Get Ready ∨ ∃ b, x = Put b Ready) → holds_lock y = false →
  ∃ s', (release t;; st_modify (set_thread t y)) s = Ok ((), s') ∧ qinv s' ∧ threads s' = <[t := y]> (threads s).
Proof.
  intros [H1 H2 H3 H4 H5 H6 H7 H8 H9] Et Hx Hy. assert (Hh : holds_lock x = true) by (by destruct Hx as [->|[b ->]]).
  pose proof (H8 t x Et Hh) as Hl. assert (Hn : t ≠ NULL) by congruence. eexists. split.
  { erewrite st_bind_ok; [reflexivity|]. unfold release. change (st_get ≫= ?k) with (λ s, k s s). cbn beta.
    rewrite bool_decide_true by done. reflexivity. }
  assert (Hothers : ∀ u z, <[t := y]> (threads s) !! u = Some z → holds_lock z = true → False).
  { intros u z Eu Hz. destruct (decide (u = t)) as [->|Hne]; [rewrite lookup_insert_eq in Eu; congruence|].
    rewrite lookup_insert_ne in Eu by done. apply Hne. by rewrite <- (H8 u z Eu Hz). }
  assert (Hblk : ∀ u z, threads s !! u = Some z → holds_lock z = true → u = t) by (intros u z Eu Hz; by rewrite <- (H8 u z Eu Hz)).
  split; [|done]. split; cbn [set_thread set_queue queue threads sent received lock not_full not_empty]; try done.
  - by destruct H1.
  - by rewrite lookup_insert_ne.
  - intros E. destruct (H4 E) as [E1 _]. pose proof (Hblk _ _ E1 eq_refl) as E2. rewrite E2, Et in E1. destruct Hx as [->|[b ->]]; done.
  - intros E. destruct (H5 E) as [[b E1] _]. pose proof (Hblk _ _ E1 eq_refl) as E2. rewrite E2, Et in E1. destruct Hx as [->|[c ->]]; done.
  - intros u Eu. by destruct (Hothers _ _ Eu).
  - intros u b Eu. by destruct (Hothers _ _ Eu).
  - intros u z Eu Hz. by destruct (Hothers _ _ Eu).
Qed.

(** ** Steps *)

(** A thread that waits for the lock although its condition has come true. *)
Definition late (s : qsys) : Prop :=
  (∃ t, threads s !! t = Some (Get Locking) ∧ contents (queue s) ≠ []) ∨
  (∃ t b, threads s !! t = Some (Put b Locking) ∧ length (contents (queue s)) ≠ 63%nat).

(** Threads that neither existed before nor wait for the lock anew. *)
Definition calm (s s' : qsys) : Prop :=
  ∀ t x, threads s' !! t = Some x → ∃ y, threads s !! t = Some y ∧ (x = y ∨ (x ≠ Get Locking ∧ ∀ b, x ≠ Put b Locking)).

Lemma calm_set s s' t x y : threads s !! t = Some x → threads s' = <[t := y]> (threads s) → y ≠ Get Locking → (∀ b, y ≠ Put b Locking) → calm s s'.
Proof.
  intros Et E H1 H2 u z. rewrite E. destruct (decide (u = t)) as [->|]; [rewrite lookup_insert_eq; intros [= <-]; eauto|].
  rewrite lookup_insert_ne by done. eauto.
Qed.

Lemma holds_calm y : holds_lock y = true → y ≠ Get Locking ∧ ∀ b, y ≠ Put b Locking.
Proof. destruct y as [|[]|b []]; done. Qed.

Lemma calm_bytes s s1 :
  (∀ t x, threads s1 !! t = Some x → ∃ y, threads s !! t = Some y ∧ (x = y ∨ holds_lock x = true)) → calm s s1.
Proof. intros H t x Et. destruct (H t x Et) as (y & Ey & [->|Hx]); exists y; [tauto|]. pose proof (holds_calm x Hx). tauto. Qed.

Lemma calm_trans s1 s2 s3 : calm s1 s2 → calm s2 s3 → calm s1 s3.
Proof.
  intros H1 H2 t x Et. destruct (H2 t x Et) as (y & Ey & [->|Hx]); [by apply H1|]. destruct (H1 t y Ey) as (z & Ez & _). exists z. tauto.
Qed.

(** A step keeps the invariant; it panics only if a thread is late.  A thread
    starts to wait for the lock only if another one holds it. *)
Lemma qstep_inv s r : qinv s → qstep s r →
  (∃ s', r = Ok ((), s') ∧ qinv s' ∧ (calm s s' ∨ ∃ t x, threads s !! t = Some x ∧ holds_lock x = false ∧ lock (queue s) ≠ NULL)) ∨
  r = Err EPanic ∧ late s.
Proof.
  intros H Hs. pose proof (qi_ok _ H) as Hq. destruct Hs as [t Et|t b Et|t p Et Hr|t b p Et Hr|He|b Hf].
  - left. eexists. split; [done|]. split; [by eapply set_thread_inv|left; by eapply calm_set].
  - left. eexists. split; [done|]. split; [by eapply set_thread_inv|left; by eapply calm_set].
  - unfold intq_getc. change (st_get ≫= ?k) with (λ s, k s s). cbn beta. destruct p; cbn in Hr.
    + destruct (intq_empty (queue s)) eqn:He.
      * destruct (decide (lock (queue s) = NULL)) as [Hl|Hl]; [|left; eexists; split; [done|]; split; [by eapply set_thread_inv|right; by eexists _, _]].
        pose proof (wait_ok s t _ None H Et Hl) as Hw. cbv zeta in Hw. rewrite He in Hw. destruct Hw as (s' & E & Hi & y & Ey & Hy).
        left. exists s'. split_and!; [done..|]. left. eapply calm_set; [done|done|by apply holds_calm..].
      * destruct (take_byte_ok s H He) as (b & s1 & E & H1 & Hk & Hk'). left. erewrite st_bind_ok by exact E.
        eexists. split; [done|]. split; [by eapply set_thread_inv; [|apply Hk| |]|]. left. eapply calm_trans; [apply calm_bytes, Hk'|].
        by eapply calm_set; [apply Hk| | |].
    + pose proof (wait_ok s t _ None H Et Hr) as Hw. cbv zeta in Hw. destruct (intq_empty (queue s)) eqn:He;
        [destruct Hw as (s' & E & Hi & y & Ey & Hy); left; exists s'; split_and!; [done..|]; left; eapply calm_set; [done|done|by apply holds_calm..]|].
      right. split; [done|]. left. exists t. split; [done|]. intros E. apply empty_used in E; [congruence|done].
    + done.
    + left. destruct (release_ok s t (Get Ready) (Get Test) H Et) as (s' & E & Hi & Ey); [eauto|done|]. exists s'. split_and!; [done..|].
      left. by eapply calm_set.
  - unfold intq_putc. change (st_get ≫= ?k) with (λ s, k s s). cbn beta. destruct p; cbn in Hr.
    + destruct (intq_full (queue s)) eqn:He.
      * destruct (decide (lock (queue s) = NULL)) as [Hl|Hl]; [|left; eexists; split; [done|]; split; [by eapply set_thread_inv|right; by eexists _, _]].
        pose proof (wait_ok s t _ (Some b) H Et Hl) as Hw. cbv zeta in Hw. rewrite He in Hw. destruct Hw as (s' & E & Hi & y & Ey & Hy).
        left. exists s'. split_and!; [done..|]. left. eapply calm_set; [done|done|by apply holds_calm..].
      * destruct (add_byte_ok s b H He) as (s1 & E & H1 & Hk & Hk'). left. erewrite st_bind_ok by exact E.
        eexists. split; [done|]. split; [by eapply set_thread_inv; [|apply Hk| |]|]. left. eapply calm_trans; [apply calm_bytes, Hk'|].
        by eapply calm_set; [apply Hk| | |].
    + pose proof (wait_ok s t _ (Some b) H Et Hr) as Hw. cbv zeta in Hw. destruct (intq_full (queue s)) eqn:He;
        [destruct Hw as (s' & E & Hi & y & Ey & Hy); left; exists s'; split_and!; [done..|]; left; eapply calm_set; [done|done|by apply holds_calm..]|].
      right. split; [done|]. right. exists t, b. split; [done|]. intros E. apply full_used in E; [congruence|done].
    + done.
    + left. destruct (release_ok s t (Put b Ready) (Put b Test) H Et) as (s' & E & Hi & Ey); [eauto|done|]. exists s'. split_and!; [done..|].
      left. by eapply calm_set.
  - left. destruct (take_byte_ok s H He) as (b & s1 & E & H1 & _ & Hk). exists s1. erewrite st_bind_ok by exact E.
    split_and!; [done..|]. left. by apply calm_bytes.
  - left. destruct (add_byte_ok s b H Hf) as (s1 & E & H1 & _ & Hk). exists s1. split_and!; [done..|]. left. by apply calm_bytes.
Qed.

Lemma list_to_map_idle (ts : list Z) t x : (list_to_map ((λ t, (t, Idle)) <$> ts) : gmap Z tstate) !! t = Some x → t ∈ ts ∧ x = Idle.
Proof.
  intros E. apply elem_of_list_to_map_2, list_elem_of_fmap in E as (u & [= -> ->] & Hu). done.
Qed.

Lemma qinit_inv elems ts : length elems = 64%nat → NULL ∉ ts → qinv (qinit elems ts).
Proof.
  intros Hl Hn. split; cbn.
  - split; cbn; [done|lia|lia].
  - done.
  - destruct (list_to_map _ !! NULL) as [x|] eqn:E; [|done]. by apply list_to_map_idle in E as [? _].
  - done.
  - done.
  - intros t E. by apply list_to_map_idle in E as [_ ?].
  - intros t b E. by apply list_to_map_idle in E as [_ ?].
  - intros t x E Hx. by apply list_to_map_idle in E as [_ ->].
  - done.
Qed.

(** C22: whatever threads and interrupt handlers use an interrupt queue, in any
    interleaving, the bytes taken and the bytes still in the queue are the bytes
    that were put, in order: none is lost, repeated or reordered, and at most 63
    wait.  No wakeup is lost: a thread blocked in intq_getc (intq_putc) is
    registered as the queue's waiter, which is empty (full). *)
Theorem intq_fifo elems ts s :
  length elems = 64%nat → NULL ∉ ts → rtc qnext (qinit elems ts) s →
  sent s = received s ++ contents (queue s) ∧ (length (contents (queue s)) ≤ 63)%nat ∧
  (∀ t, threads s !! t = Some (Get Blocked) → not_empty (queue s) = t ∧ contents (queue s) = []) ∧
  (∀ t b, threads s !! t = Some (Put b Blocked) → not_full (queue s) = t ∧ length (contents (queue s)) = 63%nat).
Proof.
  intros Hl Hn Hr. assert (H : qinv s).
  { pose proof (qinit_inv elems ts Hl Hn) as H. revert H. induction Hr as [|s1 s2 s3 Hs _ IH]; [done|]. intros H1. apply IH.
    destruct (qstep_inv s1 _ H1 Hs) as [(s' & [= ->] & H2 & _)|[? _]]; done. }
  pose proof (used_bound (queue s)). split_and!; [apply H|rewrite length_contents; lia| |].
  - intros t Et. pose proof (qi_get _ H t Et) as E. split; [done|]. apply (qi_empty _ H). rewrite E. intros ->. pose proof (qi_null _ H). congruence.
  - intros t b Et. pose proof (qi_put _ H t b Et) as E. split; [done|]. apply (qi_full _ H). rewrite E. intros ->. pose proof (qi_null _ H). congruence.
Qed.


Lemma intq_fifo_witness :
  let s := Qsys (Intq NULL NULL NULL (65 :: replicate 63 0) 1 0) {[1 := Idle]} [65] [] in
  rtc qnext (qinit (replicate 64 0) [1]) s ∧ sent s = received s ++ contents (queue s).
Proof.
  intros s. assert (Hr : rtc qnext (qinit (replicate 64 0) [1]) s).
  { eapply rtc_l; [|apply rtc_refl]. unfold qnext. change (Ok ((), s)) with (add_byte 65 (qinit (replicate 64 0) [1])).
    apply step_intr_put. reflexivity. }
  split; [exact Hr|]. apply (intq_fifo (replicate 64 0) [1] s).
  - reflexivity.
  - intros H. apply list_elem_of_singleton in H. discriminate H.
  - exact Hr.
Defined.

(** ** One thread, and two *)

(** Only thread [t], which never waits for the lock. *)
Definition only (t : Z) (s : qsys) : Prop :=
  ∀ u x, threads s !! u = Some x → u = t ∧ x ≠ Get Locking ∧ ∀ b, x ≠ Put b Locking.

Lemma only_step t s s' : qinv s → only t s → qnext s s' → qinv s' ∧ only t s'.
Proof.
  intros H Ho Hs. destruct (qstep_inv s _ H Hs) as [(s1 & [= <-] & Hi & [Hc|(u & x & Eu & Hx & Hl)])|[? _]]; [| |done].
  - split; [done|]. intros u x Eu. destruct (Hc u x Eu) as (y & Ey & [->|Hx]); [by apply Ho|]. split; [by destruct (Ho u y Ey)|done].
  - exfalso. destruct (qi_holder _ H Hl) as (y & Ey & Hy). destruct (Ho _ _ Eu) as [-> _], (Ho _ _ Ey) as [E _]. rewrite E in Ey. congruence.
Qed.

Lemma run_get s t p s' :
  threads s !! t = Some (Get p) → runnable s p → intq_getc t p s = Ok ((), s') → qnext s s'.
Proof. intros Et Hr E. unfold qnext. rewrite <- E. by apply step_get. Qed.

Lemma run_interrupt s b s' : intq_full (queue s) = false → add_byte b s = Ok ((), s') → qnext s s'.
Proof. intros Hf E. unfold qnext. rewrite <- E. by apply step_intr_put. Qed.

(** A queue that one thread uses, with interrupt handlers on the other end,
    never panics: every step of it succeeds.  With two threads reading, it can:
    the second one, which waits for the lock when two bytes arrive, does not
    test the condition again and fails the assertion of wait. *)
Theorem intq_waiting :
  (∀ elems t s r, length elems = 64%nat → t ≠ NULL → rtc qnext (qinit elems [t]) s → qstep s r → ∃ s', r = Ok ((), s')) ∧
  ∃ s, rtc qnext (qinit (replicate 64 0) [1; 2]) s ∧ qstep s (Err EPanic).
Proof.
  split.
  - intros elems t s r Hl Ht Hr Hs. assert (H : qinv s ∧ only t s).
    { assert (H0 : qinv (qinit elems [t]) ∧ only t (qinit elems [t])).
      { split; [apply qinit_inv; [done|]; by intros ?%list_elem_of_singleton|].
        intros u x Eu. apply list_to_map_idle in Eu as [->%list_elem_of_singleton ->]. done. }
      clear Hs. revert H0. induction Hr as [|s1 s2 s3 Hstep _ IH]; [done|]. intros [H1 H2]. apply IH. by eapply only_step. }
    destruct H as [H Ho]. destruct (qstep_inv s r H Hs) as [(s' & E & _)|[_ [(u & Eu & _)|(u & b & Eu & _)]]]; [by exists s'|..];
      destruct (Ho _ _ Eu) as (_ & H1 & H2); [done|by destruct (H2 b)].
  - eexists. split.
    + eapply rtc_l; [eapply (step_call_get _ 1); reflexivity|]. eapply rtc_l; [eapply (step_call_get _ 2); reflexivity|].
      eapply rtc_l; [eapply (run_get _ 1 Test); [reflexivity|exact I|vm_compute; reflexivity]|].
      eapply rtc_l; [eapply (run_get _ 2 Test); [reflexivity|exact I|vm_compute; reflexivity]|].
      eapply rtc_l; [eapply (run_interrupt _ 65); [reflexivity|vm_compute; reflexivity]|].
      eapply rtc_l; [eapply (run_interrupt _ 66); [reflexivity|vm_compute; reflexivity]|].
      eapply rtc_l; [eapply (run_get _ 1 Ready); [reflexivity|exact I|vm_compute; reflexivity]|].
      eapply rtc_l; [eapply (run_get _ 1 Test); [reflexivity|exact I|vm_compute; reflexivity]|].
      apply rtc_refl.
    + match goal with |- qstep ?s _ => change (Err EPanic) with (intq_getc 2 Locking s) end. apply step_get; reflexivity.
Qed.

(** ** What the steps of a queue do to its bytes *)

Lemma unblock_received t s s' : unblock t s = Ok ((), s') → queue s' = queue s ∧ sent s' = sent s ∧ received s' = received s.
Proof.
  unfold unblock. intros E. apply st_bind_inv in E as (s1 & s2 & [= <- <-] & E).
  destruct (threads s !! t) as [[|[]|? []]|]; try done; by injection E as <-.
Qed.

Lemma signal_full_received s s' : signal_not_full s = Ok ((), s') → sent s' = sent s ∧ received s' = received s.
Proof.
  unfold signal_not_full. intros E. apply st_bind_inv in E as (s1 & s2 & [= <- <-] & E). apply st_bind_inv in E as ([] & s2 & E1 & E).
  destruct (negb _); [|done]. injection E1 as <-. case_decide; [|by injection E as <-].
  apply st_bind_inv in E as ([] & s2 & E1 & [= <-]). by apply unblock_received in E1 as (_ & ? & ?).
Qed.

Lemma signal_empty_received s s' : signal_not_empty s = Ok ((), s') → sent s' = sent s ∧ received s' = received s.
Proof.
  unfold signal_not_empty. intros E. apply st_bind_inv in E as (s1 & s2 & [= <- <-] & E). apply st_bind_inv in E as ([] & s2 & E1 & E).
  destruct (negb _); [|done]. injection E1 as <-. case_decide; [|by injection E as <-].
  apply st_bind_inv in E as ([] & s2 & E1 & [= <-]). by apply unblock_received in E1 as (_ & ? & ?).
Qed.

Lemma take_byte_received s b s' : take_byte s = Ok (b, s') → sent s' = sent s ∧ received s' = received s ++ [b].
Proof.
  unfold take_byte. intros E. apply st_bind_inv in E as (s1 & s2 & [= <- <-] & E). apply st_bind_inv in E as (x & s2 & E1 & E).
  destruct (buf (queue s) !! _); [|done]. injection E1 as <- <-. apply st_bind_inv in E as ([] & s2 & [= <-] & E).
  apply st_bind_inv in E as ([] & s2 & E1 & [= <- <-]). by apply signal_full_received in E1 as [-> ->].
Qed.

Lemma add_byte_sent b s s' : add_byte b s = Ok ((), s') → sent s' = sent s ++ [b] ∧ received s' = received s.
Proof.
  unfold add_byte. intros E. apply st_bind_inv in E as (s1 & s2 & [= <- <-] & E). apply st_bind_inv in E as (x & s2 & E1 & E).
  destruct (buf (queue s) !! _); [|done]. injection E1 as <- <-. apply st_bind_inv in E as ([] & s2 & [= <-] & E).
  by apply signal_empty_received in E as [-> ->].
Qed.

Lemma add_byte_appends q b :
  qinv q → intq_full (queue q) = false →
  ∃ q', add_byte b q = Ok ((), q') ∧ qinv q' ∧ sent q' = sent q ++ [b] ∧ received q' = received q ∧
    contents (queue q') = contents (queue q) ++ [b].
Proof.
  intros Hq Hf. destruct (add_byte_ok q b Hq Hf) as (q' & E & Hq' & _). exists q'. destruct (add_byte_sent _ _ _ E) as [Es Er].
  split_and!; try done. pose proof (qi_fifo _ Hq') as H. rewrite Es, Er, (qi_fifo _ Hq), <- app_assoc in H. by apply app_inv_head in H.
Qed.

Lemma take_byte_takes q :
  qinv q → intq_empty (queue q) = false →
  ∃ b q', take_byte q = Ok (b, q') ∧ qinv q' ∧ sent q' = sent q ∧ received q' = received q ++ [b] ∧
    contents (queue q) = b :: contents (queue q').
Proof.
  intros Hq He. destruct (take_byte_ok q Hq He) as (b & q' & E & Hq' & _). exists b, q'. destruct (take_byte_received _ _ _ E) as [Es Er].
  split_and!; try done. pose proof (qi_fifo _ Hq') as H. rewrite Es, Er, (qi_fifo _ Hq), <- app_assoc in H. by apply app_inv_head in H.
Qed.

(** The bytes of two queues are the same. *)
Definition same_bytes (s s' : qsys) : Prop :=
  buf (queue s') = buf (queue s) ∧ qhead (queue s') = qhead (queue s) ∧ qtail (queue s') = qtail (queue s).

Lemma same_bytes_contents s s' : same_bytes s s' → contents (queue s') = contents (queue s) ∧
  intq_empty (queue s') = intq_empty (queue s) ∧ intq_full (queue s') = intq_full (queue s).
Proof. intros (H1 & H2 & H3). unfold contents, used, intq_empty, intq_full. by rewrite H1, H2, H3. Qed.

(** Waiting and releasing the lock leave the bytes as they are. *)
Lemma wait_full_bytes t b s s' : wait_not_full t b s = Ok ((), s') → received s' = received s ∧ same_bytes s s'.
Proof.
  unfold wait_not_full. intros E. apply st_bind_inv in E as (s1 & s2 & [= <- <-] & E). apply st_bind_inv in E as ([] & s2 & E1 & E).
  destruct (intq_full _); [|done]. injection E1 as <-. by injection E as <-.
Qed.

Lemma wait_empty_bytes t s s' : wait_not_empty t s = Ok ((), s') → same_bytes s s'.
Proof.
  unfold wait_not_empty. intros E. apply st_bind_inv in E as (s1 & s2 & [= <- <-] & E). apply st_bind_inv in E as ([] & s2 & E1 & E).
  destruct (intq_empty _); [|done]. injection E1 as <-. by injection E as <-.
Qed.

Lemma release_bytes t s s' : release t s = Ok ((), s') → received s' = received s ∧ same_bytes s s'.
Proof.
  unfold release. intros E. apply st_bind_inv in E as (s2 & s3 & [= <- <-] & E). apply st_bind_inv in E as ([] & s3 & E2 & [= <-]).
  destruct (bool_decide _); [|done]. by injection E2 as <-.
Qed.

(** A thread's step ends its call, or leaves the bytes as they are. *)
Lemma intq_putc_bytes t b p s s' : intq_putc t b p s = Ok ((), s') →
  received s' = received s ∧ (threads s' !! t = Some Idle ∨ same_bytes s s').
Proof.
  unfold intq_putc. intros E. apply st_bind_inv in E as (s1 & s2 & [= <- <-] & E). destruct p.
  - destruct (intq_full _).
    + case_decide; [apply wait_full_bytes in E; tauto|injection E as <-; split; [done|by right]].
    + apply st_bind_inv in E as ([] & s1 & E1 & [= <-]). split; [by apply add_byte_sent in E1 as [_ ?]|]. left. cbn. by rewrite lookup_insert_eq.
  - apply wait_full_bytes in E. tauto.
  - injection E as <-. split; [done|by right].
  - apply st_bind_inv in E as ([] & s1 & E1 & [= <-]). apply release_bytes in E1 as [? ?]. split; [done|by right].
Qed.

Lemma intq_getc_bytes t p s s' : intq_getc t p s = Ok ((), s') → threads s' !! t = Some Idle ∨ same_bytes s s'.
Proof.
  unfold intq_getc. intros E. apply st_bind_inv in E as (s1 & s2 & [= <- <-] & E). destruct p.
  - destruct (intq_empty _).
    + case_decide; [right; by apply wait_empty_bytes in E|injection E as <-; by right].
    + apply st_bind_inv in E as (x & s1 & E1 & [= <-]). left. cbn. by rewrite lookup_insert_eq.
  - right. by apply wait_empty_bytes in E.
  - injection E as <-. by right.
  - apply st_bind_inv in E as ([] & s1 & E1 & [= <-]). apply release_bytes in E1 as [? ?]. by right.
Qed.
