(* ===== verification/Kbd.v ===== *)
(** * devices/kbd.c and devices/input.c: the keyboard

    The handler of the keyboard's interrupts: the state of the shift keys, the
    key maps, and the bytes put in the input buffer, an interrupt queue of
    Intq.v.  The bytes read from the keyboard's port are arguments.  The
    serial port's notification in input_putc is left out. *)

From Stdlib Require Import String.
From S2P Require Import Prelude Intq IntqTheorems.

Local Open Scope Z_scope.

Record keyboard := Keyboard {
  left_shift : bool;
  right_shift : bool;
  left_alt : bool;
  right_alt : bool;
  left_ctrl : bool;
  right_ctrl : bool;
  caps_lock : bool;
  key_cnt : Z;
  input : qsys;
}.

Abbreviation KB := (ST keyboard).

(** ** devices/input.c *)

Definition set_input (q : qsys) (k : keyboard) : keyboard :=
  Keyboard (left_shift k) (right_shift k) (left_alt k) (right_alt k) (left_ctrl k) (right_ctrl k) (caps_lock k) (key_cnt k) q.

Definition on_input {A} (c : QM A) : KB A := λ k,
  match c (input k) with Ok (a, q) => Ok (a, set_input q k) | Err e => Err e end.

Definition input_full : KB bool := k ← st_get; mret (intq_full (queue (input k))).

Definition input_putc (key : Z) : KB () :=
  k ← st_get; ASSERT (negb (intq_full (queue (input k))));; on_input (add_byte key).

(** ** Key maps *)

(** struct keymap: the first scancode and the characters from it on. *)
Abbreviation keymap := (list (Z * list Z)).

Definition chars (s : string) : list Z := (λ a, Z.of_nat (Ascii.nat_of_ascii a)) <$> list_ascii_of_string s.

Definition invariant_keymap : keymap :=
  [(1, [27]); (14, [8]); (15, 9 :: chars "QWERTYUIOP"); (28, [13]); (30, chars "ASDFGHJKL"); (44, chars "ZXCVBNM");
   (55, chars "*"); (57, chars " "); (83, [127])].

Definition unshifted_keymap : keymap :=
  [(2, chars "1234567890-="); (26, chars "[]"); (39, chars ";'`"); (43, [92]); (51, chars ",./")].

Definition shifted_keymap : keymap :=
  [(2, chars "!@#$%^&*()_+"); (26, chars "{}"); (39, [58; 34; 126]); (43, chars "|"); (51, chars "<>?")].

Fixpoint map_key (k : keymap) (scancode : Z) : option Z :=
  match k with
  | [] => None
  | (first, cs) :: k =>
      if decide (first ≤ scancode ∧ scancode < first + Z.of_nat (length cs)) then cs !! Z.to_nat (scancode - first)
      else map_key k scancode
  end.

(** tolower of lib/ctype.h. *)
Definition tolower (c : Z) : Z := if decide (65 ≤ c ≤ 90) then c - 65 + 97 else c.

(** ** The interrupt handler *)

(** The table of shift keys: the variable of scancode [code] set to [v]. *)
Definition set_shift_key (code : Z) (v : bool) (k : keyboard) : keyboard :=
  let '(Keyboard ls rs la ra lc rc cl n q) := k in
  if decide (code = 42) then Keyboard v rs la ra lc rc cl n q
  else if decide (code = 54) then Keyboard ls v la ra lc rc cl n q
  else if decide (code = 56) then Keyboard ls rs v ra lc rc cl n q
  else if decide (code = 57400) then Keyboard ls rs la v lc rc cl n q
  else if decide (code = 29) then Keyboard ls rs la ra v rc cl n q
  else if decide (code = 57373) then Keyboard ls rs la ra lc v cl n q
  else k.

(** The scancode in the port's first byte, or in two bytes after a prefix. *)
Definition read_code (first second : Z) : Z := if decide (first = 224) then Z.lor (Z.shiftl first 8) second else first.

(** An ordinary character; the result is true when the machine reboots. *)
Definition ordinary (c : Z) (shift alt ctrl : bool) : KB bool :=
  if decide (c = 127 ∧ ctrl ∧ alt) then mret true else
  k ← st_get;
  let c := if decide (ctrl ∧ 64 ≤ c ∧ c < 96) then c - 64
           else if bool_decide (shift = caps_lock k) then tolower c else c in
  let c := if alt then (c + 128) `mod` 256 else c in
  full ← input_full;
  if (full : bool) then mret false
  else
    st_modify (λ k, Keyboard (left_shift k) (right_shift k) (left_alt k) (right_alt k) (left_ctrl k) (right_ctrl k) (caps_lock k)
      (s64 (key_cnt k + 1)) (input k));;
    input_putc c;;
    mret false.

Definition keyboard_interrupt (first second : Z) : KB bool :=
  k ← st_get;
  let shift := left_shift k || right_shift k in
  let alt := left_alt k || right_alt k in
  let ctrl := left_ctrl k || right_ctrl k in
  let code := read_code first second in
  let release := bool_decide (Z.land code 128 ≠ 0) in
  let code := Z.land code (u32 (Z.lnot 128)) in
  if decide (code = 58) then
    (if release then mret tt
     else st_modify (λ k, Keyboard (left_shift k) (right_shift k) (left_alt k) (right_alt k) (left_ctrl k) (right_ctrl k) (negb (caps_lock k))
       (key_cnt k) (input k)));;
    mret false
  else
    match (match map_key invariant_keymap code with
           | Some c => Some c
           | None => if shift then map_key shifted_keymap code else map_key unshifted_keymap code
           end) with
    | Some c => if release then mret false else ordinary c shift alt ctrl
    | None => st_modify (set_shift_key code (negb release));; mret false
    end.

(** * Theorems *)

(** The key map's character for [code]. *)
Definition key_char (shift : bool) (code : Z) : option Z :=
  match map_key invariant_keymap code with
  | Some c => Some c
  | None => if shift then map_key shifted_keymap code else map_key unshifted_keymap code
  end.

(** The character typed without Ctrl and Alt. *)
Definition typed (shift caps : bool) (code : Z) : option Z :=
  (λ c, if bool_decide (shift = caps) then tolower c else c) <$> key_char shift code.

(** A key and whether Shift is needed for [c]. *)
Definition key_for (c : Z) : option (Z * bool) :=
  head (filter (λ p : Z * bool, typed p.2 false p.1 = Some c) (p ← [false; true]; (λ code, (code, p)) <$> seqZ 1 83)).

(** The interrupts of typing [c]: Shift down if needed, key down and up, Shift up. *)
Definition strokes (c : Z) : list Z :=
  match key_for c with
  | Some (code, false) => [code; code + 128]
  | Some (code, true) => [42; code; code + 128; 170]
  | None => []
  end.

(** One interrupt after the other; true when the machine reboots. *)
Fixpoint interrupts (codes : list Z) : KB bool :=
  match codes with
  | [] => mret false
  | code :: codes => r ← keyboard_interrupt code 0; if (r : bool) then mret true else interrupts codes
  end.

(** No shift key is down. *)
Definition at_rest (caps : bool) (n : Z) (q : qsys) : keyboard := Keyboard false false false false false false caps n q.

Definition printable (c : Z) : Prop := 32 ≤ c ≤ 126.

(** The case of a letter changed. *)
Definition swap_case (c : Z) : Z :=
  if decide (97 ≤ c ≤ 122) then c - 32 else if decide (65 ≤ c ≤ 90) then c + 32 else c.

(** ** Single interrupts *)

(** A key goes down and up with left Shift as [ls]. *)
Lemma press_ok ls caps n q code x :
  1 ≤ code ≤ 83 → code ≠ 58 → key_char ls code = Some x → x ≠ 127 → qinv q → intq_full (queue q) = false →
  let c := if bool_decide (ls = caps) then tolower x else x in
  ∃ q', keyboard_interrupt code 0 (Keyboard ls false false false false false caps n q) =
          Ok (false, Keyboard ls false false false false false caps (s64 (n + 1)) q') ∧
    qinv q' ∧ sent q' = sent q ++ [c] ∧ received q' = received q ∧ contents (queue q') = contents (queue q) ++ [c].
Proof.
  intros Hc H58 Hk Hx Hq Hf c. destruct (add_byte_appends q c Hq Hf) as (q' & E & Hq' & Hs). exists q'. split; [|done].
  assert (Hcode : Forall (λ code, read_code code 0 = code ∧ Z.land code 128 = 0 ∧ Z.land code (u32 (Z.lnot 128)) = code) (seqZ 1 83)) by compute_hyp.
  rewrite Forall_forall in Hcode. destruct (Hcode code) as (E1 & E2 & E3); [apply elem_of_seqZ; lia|].
  unfold keyboard_interrupt. change (st_get ≫= ?k) with (λ s, k s s). cbn beta. cbn [left_shift right_shift left_alt right_alt left_ctrl right_ctrl].
  rewrite E1, E2, E3. rewrite decide_False by done. rewrite orb_false_r. fold (key_char ls code). rewrite Hk.
  change (bool_decide (0 ≠ 0)) with false. cbv iota. unfold ordinary. rewrite decide_False by tauto.
  change (st_get ≫= ?k) with (λ s, k s s). cbn beta. cbn [caps_lock orb].
  rewrite (decide_False (P := Is_true false ∧ _)) by (intros [[] _]). fold c.
  unfold input_full. erewrite st_bind_ok by reflexivity. cbn [input]. rewrite Hf. erewrite st_bind_ok by reflexivity.
  erewrite st_bind_ok.
  2: { unfold input_putc. change (st_get ≫= ?k) with (λ s, k s s). cbn beta. cbn [input]. rewrite Hf. erewrite st_bind_ok by reflexivity.
       unfold on_input. cbn [input]. rewrite E. reflexivity. }
  reflexivity.
Qed.

Lemma release_key_ok ls caps n q code x :
  1 ≤ code ≤ 83 → code ≠ 58 → key_char ls code = Some x →
  keyboard_interrupt (code + 128) 0 (Keyboard ls false false false false false caps n q) =
    Ok (false, Keyboard ls false false false false false caps n q).
Proof.
  intros Hc H58 Hk.
  assert (Hcode : Forall (λ code, read_code (code + 128) 0 = code + 128 ∧ bool_decide (Z.land (code + 128) 128 ≠ 0) = true ∧
    Z.land (code + 128) (u32 (Z.lnot 128)) = code) (seqZ 1 83)) by compute_hyp.
  rewrite Forall_forall in Hcode. destruct (Hcode code) as (E1 & E2 & E3); [apply elem_of_seqZ; lia|].
  unfold keyboard_interrupt. change (st_get ≫= ?k) with (λ s, k s s). cbn beta. cbn [left_shift right_shift left_alt right_alt left_ctrl right_ctrl].
  rewrite E1, E2, E3. rewrite decide_False by done. rewrite orb_false_r. fold (key_char ls code). by rewrite Hk.
Qed.

(** Left Shift goes down and up. *)
Lemma shift_ok (b caps : bool) n q :
  keyboard_interrupt (if b then 42 else 170) 0 (Keyboard (negb b) false false false false false caps n q) =
    Ok (false, Keyboard b false false false false false caps n q).
Proof. by destruct b. Qed.

(** ** Characters *)

(** There is a key for [c], which gives [c], or the other case with Caps Lock. *)
Definition has_key (c : Z) : bool :=
  match key_for c with
  | Some (code, sh) =>
      let x := default 0 (key_char sh code) in
      bool_decide (1 ≤ code ≤ 83 ∧ code ≠ 58 ∧ key_char sh code = Some x ∧ x ≠ 127 ∧
        (if bool_decide (sh = false) then tolower x else x) = c ∧ (if bool_decide (sh = true) then tolower x else x) = swap_case c)
  | None => false
  end.

Lemma printable_key c : printable c → has_key c = true.
Proof.
  intros Hc. assert (H : Forall (λ c, has_key c = true) (seqZ 32 95)) by compute_hyp.
  rewrite Forall_forall in H. apply H, elem_of_seqZ. unfold printable in Hc. lia.
Qed.

Lemma type_char c caps n q rest :
  printable c → qinv q → (length (contents (queue q)) < 63)%nat →
  let b := if (caps : bool) then swap_case c else c in
  ∃ q', interrupts (strokes c ++ rest) (at_rest caps n q) = interrupts rest (at_rest caps (s64 (n + 1)) q') ∧
    qinv q' ∧ sent q' = sent q ++ [b] ∧ received q' = received q ∧ contents (queue q') = contents (queue q) ++ [b].
Proof.
  intros Hc Hq Hl b. apply printable_key in Hc. unfold has_key in Hc. unfold strokes.
  destruct (key_for c) as [[code sh]|]; [|done]. apply bool_decide_eq_true in Hc as (H1 & H2 & H3 & H4 & H5 & H6).
  set (x := default 0 (key_char sh code)) in *.
  assert (Hf : intq_full (queue q) = false).
  { destruct (intq_full (queue q)) eqn:E; [|done]. apply full_used in E; [lia|apply Hq]. }
  assert (Eb : b = if bool_decide (sh = caps) then tolower x else x) by (unfold b; destruct caps; congruence).
  destruct (press_ok sh caps n q code x H1 H2 H3 H4 Hq Hf) as (q' & E & Hq'). cbv zeta in E, Hq'. rewrite <- Eb in Hq'.
  exists q'. split; [|done]. unfold at_rest. destruct sh; cbn [app interrupts].
  - erewrite st_bind_ok by exact (shift_ok true caps n q). cbv iota. erewrite st_bind_ok by exact E. cbv iota.
    erewrite st_bind_ok by (by eapply release_key_ok). cbv iota. by erewrite st_bind_ok by exact (shift_ok false caps _ q').
  - erewrite st_bind_ok by exact E. cbv iota. by erewrite st_bind_ok by (by eapply release_key_ok).
Qed.

(** Every printable ASCII character can be typed, with Shift or without, and
    what is typed arrives: the interrupts of typing a text, from any state with no shift key
    down and room for it, put exactly the text behind what is in the input
    buffer (with Caps Lock, in the other case), count its keys, and leave no
    shift key down. *)
Theorem typing_arrives text caps n q :
  Forall printable text → qinv q → (length (contents (queue q)) + length text ≤ 63)%nat →
  ∃ n' q', interrupts (text ≫= strokes) (at_rest caps n q) = Ok (false, at_rest caps n' q') ∧
    n' = Nat.iter (length text) (λ n, s64 (n + 1)) n ∧ qinv q' ∧ received q' = received q ∧
    contents (queue q') = contents (queue q) ++ (if (caps : bool) then swap_case <$> text else text).
Proof.
  intros Ht. revert n q. induction Ht as [|c text Hc Ht IH]; intros n q Hq Hl.
  { exists n, q. split_and!; try done. cbn. destruct caps; cbn; by rewrite app_nil_r. }
  cbn [length mbind list_bind] in *.
  destruct (type_char c caps n q (text ≫= strokes) Hc Hq) as (q1 & E1 & Hq1 & _ & Hr1 & Hc1); [lia|].
  destruct (IH (s64 (n + 1)) q1 Hq1) as (n2 & q2 & E2 & Hn2 & Hq2 & Hr2 & Hc2); [rewrite Hc1, length_app; cbn; lia|].
  exists n2, q2. split_and!; [by rewrite E1|by rewrite Nat.iter_succ_r|done|congruence|].
  rewrite Hc2, Hc1, <- app_assoc. by destruct caps.
Qed.

Lemma typing_arrives_witness :
  ∃ n' q', interrupts (chars "Hi!" ≫= strokes) (at_rest true 0 (qinit (replicate 64 0) [])) = Ok (false, at_rest true n' q') ∧
    contents (queue q') = chars "hI!".
Proof.
  destruct (typing_arrives (chars "Hi!") true 0 (qinit (replicate 64 0) [])) as (n' & q' & E & _ & _ & _ & Hc).
  - unfold printable. repeat constructor; vm_compute; discriminate.
  - apply qinit_inv; [reflexivity|]. intros H. inversion H.
  - vm_compute. repeat constructor.
  - exists n', q'. split; [exact E|]. rewrite Hc. vm_compute. reflexivity.
Defined.
