(* ===== verification/Vga.v ===== *)
(** * devices/vga.c: the text display

    The frame buffer is a block of memory with two bytes for each cell, and the
    display's own cursor is in registers 14 and 15 of its controller, which are
    read and written through an index port and a data port.  The interrupt level
    ([level], true when on) only matters for the beep; beeps are counted. *)

From S2P Require Import Prelude Bitmap Memory CString Vaddr.

Local Open Scope Z_scope.

Definition COL_CNT : Z := 80.
Definition ROW_CNT : Z := 25.
Definition GRAY_ON_BLACK : Z := 7.

(** The variables of the source, memory, the controller's index port and its
    registers. *)
Record display := Display {
  vram : mem;
  cx : Z;
  cy : Z;
  fb : Z;
  inited : bool;
  crtc_index : Z;
  crtc : Z → Z;
  beeps : Z;
}.

Abbreviation VGA := (ST display).

Definition on_vram {A} (c : MM A) : VGA A := λ d,
  match c (vram d) with
  | Ok (a, m) => Ok (a, Display m (cx d) (cy d) (fb d) (inited d) (crtc_index d) (crtc d) (beeps d))
  | Err e => Err e
  end.

Definition set_cursor (x y : Z) : VGA () :=
  st_modify (λ d, Display (vram d) x y (fb d) (inited d) (crtc_index d) (crtc d) (beeps d)).

(** Ports 0x3d4 and 0x3d5.  A 16-bit write to the first writes both. *)
Definition outb_index (v : Z) : VGA () :=
  st_modify (λ d, Display (vram d) (cx d) (cy d) (fb d) (inited d) (v `mod` 256) (crtc d) (beeps d)).
Definition inb_data : VGA Z := d ← st_get; mret (crtc d (crtc_index d)).
Definition outb_data (v : Z) : VGA () :=
  st_modify (λ d, Display (vram d) (cx d) (cy d) (fb d) (inited d) (crtc_index d)
    (λ i, if decide (i = crtc_index d) then v `mod` 256 else crtc d i) (beeps d)).
Definition outw_index (v : Z) : VGA () := outb_index v;; outb_data ((v / 256) `mod` 256).

Definition move_cursor : VGA () :=
  d ← st_get;
  let cp := (cx d + COL_CNT * cy d) `mod` 65536 in
  outw_index (Z.lor 14 (Z.land cp 65280));;
  outw_index (Z.lor 15 (Z.shiftl cp 8) `mod` 65536).

Definition find_cursor : VGA (Z * Z) :=
  outb_index 14;;
  hi ← inb_data;
  let cp := Z.shiftl hi 8 `mod` 65536 in
  outb_index 15;;
  lo ← inb_data;
  let cp := Z.lor cp lo in
  mret (cp `mod` COL_CNT, cp / COL_CNT).

Definition init : VGA () :=
  d ← st_get;
  if inited d then mret tt else
  p ← st_res (ptov 753664);
  st_modify (λ d, Display (vram d) (cx d) (cy d) p (inited d) (crtc_index d) (crtc d) (beeps d));;
  xy ← find_cursor;
  set_cursor xy.1 xy.2;;
  st_modify (λ d, Display (vram d) (cx d) (cy d) (fb d) true (crtc_index d) (crtc d) (beeps d)).

(** fb[y][x][i] assigned. *)
Definition set_cell (y x i c : Z) : VGA () :=
  d ← st_get; on_vram (store (u32 (fb d + 2 * COL_CNT * y + 2 * x + i)) (c `mod` 256)).

(** [n] columns are left. *)
Fixpoint clear_row_loop (n : nat) (y x : Z) : VGA () :=
  match n with
  | O => mret tt
  | S n => set_cell y x 0 32;; set_cell y x 1 GRAY_ON_BLACK;; clear_row_loop n y (x + 1)
  end.

Definition clear_row (y : Z) : VGA () := clear_row_loop (Z.to_nat COL_CNT) y 0.

Fixpoint cls_loop (n : nat) (y : Z) : VGA () :=
  match n with O => mret tt | S n => clear_row y;; cls_loop n (y + 1) end.

Definition cls : VGA () := cls_loop (Z.to_nat ROW_CNT) 0;; set_cursor 0 0;; move_cursor.

Definition newline : VGA () :=
  d ← st_get;
  let y := u32 (cy d + 1) in
  set_cursor 0 y;;
  if decide (ROW_CNT ≤ y) then
    set_cursor 0 (ROW_CNT - 1);;
    _ ← on_vram (memmove (fb d) (u32 (fb d + 2 * COL_CNT)) (2 * COL_CNT * (ROW_CNT - 1)));
    clear_row (ROW_CNT - 1)
  else mret tt.

Definition speaker_beep (level : bool) : VGA () :=
  st_modify (λ d, Display (vram d) (cx d) (cy d) (fb d) (inited d) (crtc_index d) (crtc d) (if level then beeps d + 1 else beeps d)).

Definition vga_putc (level : bool) (c : Z) : VGA () :=
  init;;
  d ← st_get;
  (if decide (c = 10) then newline
   else if decide (c = 12) then cls
   else if decide (c = 8) then (if decide (0 < cx d) then set_cursor (cx d - 1) (cy d) else mret tt)
   else if decide (c = 13) then set_cursor 0 (cy d)
   else if decide (c = 9) then
     let x := ROUND_UP (u32 (cx d + 1)) 8 in
     set_cursor x (cy d);;
     if decide (COL_CNT ≤ x) then newline else mret tt
   else if decide (c = 7) then speaker_beep level
   else
     set_cell (cy d) (cx d) 0 c;;
     set_cell (cy d) (cx d) 1 GRAY_ON_BLACK;;
     let x := u32 (cx d + 1) in
     set_cursor x (cy d);;
     if decide (COL_CNT ≤ x) then newline else mret tt);;
  move_cursor.

(** * Theorems

    The display shows the end of an endless roll of paper, on which a text is
    typed row by row. *)

(** ** Paper *)

(** The finished rows, the row that is typed on, and the column. *)
Record paper := Paper { above : list (list Z); line : list Z; col : nat }.

Definition blank : list Z := replicate 80 32.

Definition feed (p : paper) : paper := Paper (above p ++ [line p]) blank 0.
Definition move_to (x : nat) (p : paper) : paper := if decide (80 ≤ x)%nat then feed p else Paper (above p) (line p) x.

(** One character typed: line feed, form feed, backspace, carriage return, tab,
    bell, or a character in its column. *)
Definition type_on (p : paper) (c : Z) : paper :=
  if decide (c = 10) then feed p
  else if decide (c = 12) then Paper [] blank 0
  else if decide (c = 8) then Paper (above p) (line p) (col p - 1)
  else if decide (c = 13) then Paper (above p) (line p) 0
  else if decide (c = 9) then move_to (8 * (col p / 8 + 1)) p
  else if decide (c = 7) then p
  else move_to (col p + 1) (Paper (above p) (<[col p := c]> (line p)) (col p)).

(** The 25 rows on the display: at most 24 rows above the current one, and
    blank rows below. *)
Definition window (p : paper) : list Z :=
  concat (drop (length (above p) - 24) (above p)) ++ line p ++ replicate (80 * (24 - length (above p))) 32.

Definition row_of (p : paper) : nat := Nat.min 24 (length (above p)).

Definition paper_ok (p : paper) : Prop :=
  Forall (λ r, length r = 80%nat) (above p) ∧ length (line p) = 80%nat ∧ (col p < 80)%nat.

Lemma paper_ok_feed p : paper_ok p → paper_ok (feed p).
Proof.
  intros (H1 & H2 & H3). split_and!; cbn [above line col feed]; [|done|lia]. apply Forall_app. split; [done|by apply Forall_singleton].
Qed.

Lemma paper_ok_move x p : paper_ok p → paper_ok (move_to x p).
Proof. intros Hp. unfold move_to. case_decide; [by apply paper_ok_feed|]. destruct Hp as (? & ? & ?). split_and!; cbn; [done..|lia]. Qed.

Lemma paper_ok_type p c : paper_ok p → paper_ok (type_on p c).
Proof.
  intros Hp. pose proof Hp as (H1 & H2 & H3). unfold type_on. repeat case_decide; auto using paper_ok_feed, paper_ok_move.
  1-3: split_and!; cbn; (done || lia || auto).
  apply paper_ok_move. split_and!; cbn [above line col]; [done|by rewrite length_insert|done].
Qed.

Lemma length_rows (l : list (list Z)) : Forall (λ r, length r = 80%nat) l → length (concat l) = (80 * length l)%nat.
Proof. induction 1 as [|r l Hr _ IH]; [done|]. cbn [concat length]. rewrite length_app, IH, Hr. lia. Qed.

Lemma drop_rows p : paper_ok p → length (concat (drop (length (above p) - 24) (above p))) = (80 * row_of p)%nat.
Proof.
  intros (H & _). rewrite length_rows by (by apply Forall_drop). rewrite length_drop. unfold row_of. lia.
Qed.

Lemma length_window p : paper_ok p → length (window p) = 2000%nat.
Proof.
  intros Hp. unfold window. rewrite !length_app, drop_rows, length_replicate by done. destruct Hp as (_ & -> & _). unfold row_of. lia.
Qed.

(** A line feed moves the cursor down, or the rows up. *)
Lemma window_feed p : paper_ok p →
  window (feed p) = if decide (length (above p) < 24)%nat then window p else drop 80 (window p) ++ blank.
Proof.
  intros (H1 & H2 & _). unfold window, feed. cbn [above line]. rewrite length_app. cbn [length]. unfold blank.
  replace (concat (drop (length (above p) + 1 - 24) (above p ++ [line p]))) with
    (concat (drop (length (above p) + 1 - 24) (above p)) ++ line p).
  2: { rewrite drop_app_le by lia. rewrite concat_app. cbn [concat]. by rewrite app_nil_r. }
  case_decide as Hl.
  - replace (length (above p) + 1 - 24)%nat with 0%nat by lia. replace (length (above p) - 24)%nat with 0%nat by lia.
    rewrite <- app_assoc, <- replicate_add. do 3 f_equal. lia.
  - replace (24 - length (above p))%nat with 0%nat by lia. replace (24 - (length (above p) + 1))%nat with 0%nat by lia.
    rewrite !Nat.mul_0_r. cbn [replicate]. rewrite !app_nil_r. f_equal.
    destruct (lookup_lt_is_Some_2 (above p) (length (above p) - 24)) as [r Hr]; [lia|].
    rewrite (drop_S (above p) r (length (above p) - 24) Hr). cbn [concat]. rewrite <- app_assoc.
    rewrite drop_app_length' by (by eapply Forall_lookup_1 in H1). do 3 f_equal. lia.
Qed.

(** The current column of the current row. *)
Lemma window_insert p c : paper_ok p →
  window (Paper (above p) (<[col p := c]> (line p)) (col p)) = <[80 * row_of p + col p := c]>%nat (window p).
Proof.
  intros Hp. pose proof Hp as (H1 & H2 & H3). unfold window. cbn [above line]. pose proof (drop_rows p Hp) as Hd.
  rewrite insert_app_r_alt by lia. f_equal. rewrite Hd. rewrite insert_app_l by lia. f_equal. f_equal. lia.
Qed.

(** ** The frame buffer *)

Definition FB : Z := 3221979136.

(** Characters in gray on black. *)
Definition cells (l : list Z) : list Z := l ≫= λ c, [c; 7].

Lemma length_cells l : length (cells l) = (2 * length l)%nat.
Proof. unfold cells. induction l as [|c l IH]; [done|]. cbn [mbind list_bind app length] in *. rewrite IH. lia. Qed.

Lemma cells_app l k : cells (l ++ k) = cells l ++ cells k.
Proof. apply bind_app. Qed.

Lemma write_over p a b b' c m :
  length b = length b' → write (p + Z.of_nat (length a)) b (write p (a ++ b' ++ c) m) = write p (a ++ b ++ c) m.
Proof.
  intros Hl. rewrite !write_app. rewrite write_comm by (unfold disjoint_blocks; lia). f_equal.
  by rewrite write_write, Hl by done.
Qed.

Lemma write_cell l k c m : (k < length l)%nat →
  write (FB + 2 * Z.of_nat k) [c; 7] (write FB (cells l) m) = write FB (cells (<[k := c]> l)) m.
Proof.
  intros Hk. destruct (lookup_lt_is_Some_2 l k Hk) as [x Hx].
  rewrite <- (take_drop_middle l k x Hx) at 1. rewrite (insert_take_drop l k c Hk). rewrite !cells_app.
  change (cells (x :: drop (S k) l)) with ([x; 7] ++ cells (drop (S k) l)).
  change (cells (c :: drop (S k) l)) with ([c; 7] ++ cells (drop (S k) l)).
  rewrite <- (write_over FB (cells (take k l)) [c; 7] [x; 7] _ m eq_refl). f_equal.
  rewrite length_cells, length_take. lia.
Qed.

(** [d] with other memory. *)
Definition with_vram (m : mem) (d : display) : display := Display m (cx d) (cy d) (fb d) (inited d) (crtc_index d) (crtc d) (beeps d).

Definition framed (d : display) : Prop := fb d = FB ∧ mapped (vram d) FB 4000.

Lemma framed_write q bs d : framed d → framed (with_vram (write q bs (vram d)) d).
Proof. intros [H1 H2]. split; [done|]. cbn [vram with_vram]. by apply mapped_write. Qed.

Lemma set_cell_ok y x i c d :
  framed d → 0 ≤ y < 25 → 0 ≤ x < 80 → 0 ≤ i < 2 →
  set_cell y x i c d = Ok ((), with_vram (write (FB + 2 * (80 * y + x) + i) [c `mod` 256] (vram d)) d).
Proof.
  intros [Hf [_ Hd]] Hy Hx Hi. unfold set_cell. change (st_get ≫= ?k) with (λ s, k s s). cbn beta. rewrite Hf. unfold on_vram, COL_CNT.
  replace (FB + 2 * 80 * y + 2 * x + i) with (FB + Z.of_nat (Z.to_nat (160 * y + 2 * x + i))) by lia.
  rewrite u32_id by (unfold in_u32, FB; lia). rewrite store_ok by (apply Hd; lia).
  replace (FB + 2 * (80 * y + x) + i) with (FB + Z.of_nat (Z.to_nat (160 * y + 2 * x + i))) by lia. done.
Qed.

Lemma set_cells_ok y x c d :
  framed d → 0 ≤ y < 25 → 0 ≤ x < 80 →
  (set_cell y x 0 c;; set_cell y x 1 GRAY_ON_BLACK) d =
    Ok ((), with_vram (write (FB + 2 * (80 * y + x)) [c `mod` 256; 7] (vram d)) d).
Proof.
  intros Hf Hy Hx. erewrite st_bind_ok by (apply set_cell_ok; (done || lia)).
  rewrite set_cell_ok by (by apply framed_write || lia). unfold with_vram. cbn [vram cx cy fb inited crtc_index crtc beeps].
  do 3 f_equal. rewrite Z.add_0_r. rewrite write_comm by (unfold disjoint_blocks; cbn; lia). done.
Qed.

Lemma clear_row_loop_ok n y x d :
  framed d → 0 ≤ y < 25 → 0 ≤ x → x + Z.of_nat n ≤ 80 →
  clear_row_loop n y x d = Ok ((), with_vram (write (FB + 2 * (80 * y + x)) (cells (replicate n 32)) (vram d)) d).
Proof.
  revert x d. induction n as [|n IH]; intros x d Hf Hy Hx Hn; cbn [clear_row_loop]; [by destruct d|].
  rewrite st_bind_assoc. erewrite st_bind_ok by (apply set_cells_ok; (done || lia)).
  rewrite IH by (by apply framed_write || lia). unfold with_vram. cbn [vram cx cy fb inited crtc_index crtc beeps]. do 3 f_equal.
  change (cells (replicate (S n) 32)) with ([32; 7] ++ cells (replicate n 32)). rewrite write_app.
  rewrite write_comm by (unfold disjoint_blocks; cbn [length]; lia). cbn [length]. f_equal. f_equal. lia.
Qed.

Lemma clear_row_ok y d :
  framed d → 0 ≤ y < 25 → clear_row y d = Ok ((), with_vram (write (FB + 160 * y) (cells blank) (vram d)) d).
Proof. intros Hf Hy. unfold clear_row. rewrite clear_row_loop_ok by (done || lia || (cbn; lia)). do 4 f_equal. lia. Qed.

Lemma cls_loop_ok n y d :
  framed d → 0 ≤ y → y + Z.of_nat n ≤ 25 →
  cls_loop n y d = Ok ((), with_vram (write (FB + 160 * y) (cells (replicate (80 * n) 32)) (vram d)) d).
Proof.
  revert y d. induction n as [|n IH]; intros y d Hf Hy Hn; cbn [cls_loop]; [by destruct d|].
  erewrite st_bind_ok by (apply clear_row_ok; (done || lia)).
  rewrite IH by (by apply framed_write || lia). unfold with_vram. cbn [vram cx cy fb inited crtc_index crtc beeps]. do 3 f_equal.
  replace (80 * S n)%nat with (80 + 80 * n)%nat by lia. rewrite replicate_add, cells_app. fold blank. rewrite write_app.
  assert (El : length (cells blank) = 160%nat) by reflexivity.
  rewrite write_comm by (unfold disjoint_blocks; rewrite El; lia). rewrite El. f_equal. f_equal. lia.
Qed.

(** ** The display and the paper *)

(** [d] is the display of [p]; memory outside of the frame buffer is that of [m]. *)
Record drawn (m : mem) (d : display) (p : paper) : Prop := {
  dr_vram : vram d = write FB (cells (window p)) m;
  dr_fb : fb d = FB;
  dr_inited : inited d = true;
  dr_cx : cx d = Z.of_nat (col p);
  dr_cy : cy d = Z.of_nat (row_of p);
}.

(** The display's own cursor is at column [x] of row [y]. *)
Definition cursor_at (d : display) (x y : nat) : Prop :=
  crtc d 14 = (80 * Z.of_nat y + Z.of_nat x) / 256 ∧ crtc d 15 = (80 * Z.of_nat y + Z.of_nat x) `mod` 256.

Lemma drawn_framed m d p : mapped m FB 4000 → paper_ok p → drawn m d p → framed d.
Proof. intros Hm Hp []. split; [done|]. rewrite dr_vram0. by apply mapped_write. Qed.

Definition cursor_ports (cp : Z) : bool :=
  bool_decide (Z.lor 14 (Z.land cp 65280) `mod` 256 = 14 ∧ (Z.lor 14 (Z.land cp 65280) / 256) `mod` 256 = cp / 256 ∧
    (Z.lor 15 (Z.shiftl cp 8) `mod` 65536) `mod` 256 = 15 ∧ ((Z.lor 15 (Z.shiftl cp 8) `mod` 65536) / 256) `mod` 256 = cp `mod` 256 ∧
    Z.lor (Z.shiftl (cp / 256) 8 `mod` 65536) (cp `mod` 256) = cp).

Lemma cursor_ports_ok cp : 0 ≤ cp < 2000 → cursor_ports cp = true.
Proof.
  intros H. assert (Hf : Forall (λ cp, cursor_ports cp = true) (seqZ 0 2000)) by compute_hyp.
  rewrite Forall_forall in Hf. apply Hf, elem_of_seqZ. lia.
Qed.

Lemma row_of_le p : (row_of p ≤ 24)%nat.
Proof. unfold row_of. lia. Qed.

Lemma move_cursor_ok m d p : paper_ok p → drawn m d p →
  ∃ d', move_cursor d = Ok ((), d') ∧ drawn m d' p ∧ cursor_at d' (col p) (row_of p).
Proof.
  intros (_ & _ & Hc) []. pose proof (row_of_le p) as Hr. unfold move_cursor. change (st_get ≫= ?k) with (λ s, k s s). cbn beta.
  rewrite dr_cx0, dr_cy0. unfold COL_CNT. rewrite (Z.mod_small (Z.of_nat (col p) + 80 * Z.of_nat (row_of p)) 65536) by lia.
  set (cp := Z.of_nat (col p) + 80 * Z.of_nat (row_of p)). pose proof (cursor_ports_ok cp ltac:(lia)) as E.
  apply bool_decide_eq_true in E as (E1 & E2 & E3 & E4 & _). unfold outw_index. unfold outb_index, outb_data, st_modify.
  eexists. split; [reflexivity|]. split; [by split|]. unfold cursor_at. cbn [crtc crtc_index].
  rewrite E1, E2, E3, E4. replace (80 * Z.of_nat (row_of p) + Z.of_nat (col p)) with cp by lia.
  rewrite (decide_False (P := 14 = 15)), (decide_True (P := 14 = 14)), (decide_True (P := 15 = 15)) by done.
  unfold cp. clear - Hc Hr. split; dlia.
Qed.

Lemma find_cursor_ok m d p : paper_ok p → drawn m d p → cursor_at d (col p) (row_of p) →
  ∃ d', find_cursor d = Ok ((Z.of_nat (col p), Z.of_nat (row_of p)), d').
Proof.
  intros (_ & _ & Hc) Hd [H1 H2]. pose proof (row_of_le p) as Hr. unfold find_cursor, outb_index, inb_data, st_modify.
  set (cp := 80 * Z.of_nat (row_of p) + Z.of_nat (col p)) in *. pose proof (cursor_ports_ok cp ltac:(lia)) as E.
  apply bool_decide_eq_true in E as (_ & _ & _ & _ & E5). eexists. unfold mbind, ST_bind, st_get, mret, ST_ret. cbn [crtc crtc_index].
  change (14 `mod` 256) with 14. change (15 `mod` 256) with 15. rewrite H1, H2, E5. unfold COL_CNT.
  do 2 f_equal. f_equal; subst cp; clear - Hc; dlia.
Qed.

Lemma cls_ok m d bs :
  mapped m FB 4000 → fb d = FB → inited d = true → vram d = write FB bs m → length bs = 4000%nat ∨ bs = [] →
  ∃ d', cls d = Ok ((), d') ∧ drawn m d' (Paper [] blank 0) ∧ cursor_at d' 0 0.
Proof.
  intros Hm Hf Hi Hv Hb. unfold cls. assert (Hd : framed d) by (split; [done|]; rewrite Hv; by apply mapped_write).
  erewrite st_bind_ok by (apply cls_loop_ok; (done || lia || (cbn; lia))). erewrite st_bind_ok by reflexivity.
  apply move_cursor_ok; [by split_and!; [constructor|..|cbn; lia]|]. split; [|exact Hf|exact Hi|reflexivity|reflexivity].
  cbn [vram with_vram]. rewrite Hv, Z.add_0_r. change (window (Paper [] blank 0)) with (replicate 2000 32).
  change (80 * Z.to_nat ROW_CNT)%nat with 2000%nat. destruct Hb as [Hb| ->]; [|reflexivity].
  apply write_write. by rewrite length_cells, length_replicate.
Qed.

Lemma write_scroll a b w m :
  length a = 3840%nat → length w = length (a ++ b) →
  write (FB + 160 * (25 - 1)) b (write FB a (write FB w m)) = write FB (a ++ b) m.
Proof.
  intros Ha Hw. rewrite <- (write_write FB (a ++ b) w m) by done. rewrite (write_app FB a b), Ha.
  by rewrite write_comm by (unfold disjoint_blocks; rewrite Ha; lia).
Qed.

Lemma newline_ok m d p x :
  mapped m FB 4000 → paper_ok p → vram d = write FB (cells (window p)) m → fb d = FB → inited d = true →
  cy d = Z.of_nat (row_of p) → cx d = x → ∃ d', newline d = Ok ((), d') ∧ drawn m d' (feed p).
Proof.
  intros Hm Hp Hv Hf Hi Hy _. unfold newline. change (st_get ≫= ?k) with (λ s, k s s). cbn beta. pose proof (row_of_le p) as Hr.
  rewrite Hy, Hf, u32_id by (unfold in_u32; lia). erewrite st_bind_ok by reflexivity. unfold ROW_CNT, COL_CNT.
  assert (Ef : row_of (feed p) = Nat.min 24 (S (row_of p))).
  { unfold row_of, feed. cbn [above]. rewrite length_app. cbn [length]. lia. }
  pose proof (window_feed p Hp) as Hw. destruct (decide (25 ≤ Z.of_nat (row_of p) + 1)) as [H25|H25].
  - rewrite decide_False in Hw by (unfold row_of in H25; lia). erewrite st_bind_ok by reflexivity.
    assert (El : length (cells (drop 80 (window p))) = 3840%nat) by (rewrite length_cells, length_drop, length_window by done; lia).
    assert (Es : window p = take 80 (window p) ++ drop 80 (window p)) by (by rewrite take_drop).
    assert (Hh : holds (vram d) (FB + 160) (cells (drop 80 (window p)))).
    { rewrite Hv. replace (FB + 160) with (FB + Z.of_nat (length (cells (take 80 (window p))))).
      2: { rewrite length_cells, length_take, length_window by done. done. }
      apply holds_suffix. rewrite <- cells_app, <- Es. apply holds_write; [done|]. rewrite length_cells, length_window by done. done. }
    erewrite st_bind_ok.
    2: { unfold on_vram. cbn [vram]. rewrite u32_id by (vm_compute; split; [discriminate|reflexivity]).
         change (2 * 80 * (25 - 1)) with (Z.of_nat 3840). rewrite <- El. rewrite memmove_ok.
         - reflexivity.
         - exact Hh.
         - rewrite Hv. destruct (mapped_write m FB 4000 FB (cells (window p)) Hm) as [H1 H2]. rewrite El. split; [lia|]. intros i Hi'. apply H2. lia. }
    rewrite clear_row_ok; [|split; [done|]; cbn [vram]; rewrite Hv; by repeat apply mapped_write|lia].
    eexists. split; [reflexivity|]. split; try done; cbn [vram with_vram cx cy].
    + rewrite Hw, cells_app, Hv. apply write_scroll; [done|]. by rewrite length_cells, length_window, length_app, El by done.
    + rewrite Ef. lia.
  - rewrite decide_True in Hw by (unfold row_of in H25; lia). eexists. split; [reflexivity|]. split; cbn [vram cx cy]; try done.
    + by rewrite Hw.
    + rewrite Ef. lia.
Qed.

(** ** Typing *)

Lemma init_done d : inited d = true → init d = Ok ((), d).
Proof. intros Hi. unfold init. change (st_get ≫= ?k) with (λ s, k s s). cbn beta. by rewrite Hi. Qed.

Lemma init_ok d :
  (inited d = true → fb d = FB) → ∃ d', init d = Ok ((), d') ∧ vram d' = vram d ∧ fb d' = FB ∧ inited d' = true.
Proof.
  intros Hf. destruct (inited d) eqn:Hi; [exists d; split; [by apply init_done|]; auto|].
  unfold init. change (st_get ≫= ?k) with (λ s, k s s). cbn beta. rewrite Hi. by eexists.
Qed.

Lemma tab_stop x : (x < 80)%nat → ROUND_UP (u32 (Z.of_nat x + 1)) 8 = Z.of_nat (8 * (x / 8 + 1)).
Proof.
  intros Hx. assert (H : Forall (λ x, ROUND_UP (u32 (Z.of_nat x + 1)) 8 = Z.of_nat (8 * (x / 8 + 1))) (seq 0 80)) by compute_hyp.
  rewrite Forall_forall in H. apply H, elem_of_seq. lia.
Qed.

Lemma move_col_ok m d p x :
  mapped m FB 4000 → paper_ok p → vram d = write FB (cells (window p)) m → fb d = FB → inited d = true →
  cy d = Z.of_nat (row_of p) → (x ≤ 80)%nat →
  ∃ d', (set_cursor (Z.of_nat x) (cy d);; if decide (COL_CNT ≤ Z.of_nat x) then newline else mret tt) d = Ok ((), d') ∧ drawn m d' (move_to x p).
Proof.
  intros Hm Hp Hv Hf Hi Hy Hx. erewrite st_bind_ok by reflexivity. unfold COL_CNT, move_to.
  destruct (decide (80 ≤ x)%nat) as [H80|H80].
  - rewrite decide_True by lia. by apply (newline_ok m _ p (Z.of_nat x)).
  - rewrite decide_False by lia. eexists. split; [reflexivity|]. by split.
Qed.

Lemma vga_putc_ok m level d p c :
  mapped m FB 4000 → paper_ok p → drawn m d p → 0 ≤ c < 256 →
  ∃ d', vga_putc level c d = Ok ((), d') ∧ drawn m d' (type_on p c) ∧ cursor_at d' (col (type_on p c)) (row_of (type_on p c)).
Proof.
  intros Hm Hp Hd Hc. pose proof Hd as []. pose proof Hp as (H1 & H2 & H3). pose proof (row_of_le p) as Hr.
  unfold vga_putc. erewrite st_bind_ok by (by apply init_done). change (st_get ≫= ?k) with (λ s, k s s). cbn beta.
  match goal with |- ∃ d', (?body;; _) d = _ ∧ _ => enough (Hb : ∃ d1, body d = Ok ((), d1) ∧ drawn m d1 (type_on p c)) end.
  { destruct Hb as (d1 & E & Hd1). erewrite st_bind_ok by exact E. apply move_cursor_ok; [by apply paper_ok_type|done]. }
  unfold type_on. rewrite dr_cx0. destruct (decide (c = 10)); [by eapply newline_ok|].
  destruct (decide (c = 12)).
  { destruct (cls_ok m d (cells (window p))) as (d1 & E & Hd1 & _); try done; [|by exists d1].
    left. by rewrite length_cells, length_window. }
  destruct (decide (c = 8)).
  { destruct (decide (0 < Z.of_nat (col p))); eexists; (split; [reflexivity|]); split; try done; cbn [col cx]; lia. }
  destruct (decide (c = 13)); [eexists; split; [reflexivity|]; by split|].
  destruct (decide (c = 9)).
  { rewrite tab_stop by done. apply move_col_ok; try done. pose proof (Nat.Div0.div_lt_upper_bound (col p) 8 10). lia. }
  destruct (decide (c = 7)); [eexists; split; [reflexivity|]; by destruct level|].
  rewrite st_bind_assoc. erewrite st_bind_ok by (apply set_cells_ok; [by eapply drawn_framed|lia|lia]).
  cbn zeta. rewrite dr_cy0. replace (u32 (Z.of_nat (col p) + 1)) with (Z.of_nat (col p + 1)) by (rewrite u32_id by (unfold in_u32; lia); lia).
  rewrite <- dr_cy0. change (cy d) with (cy (with_vram (write (FB + 2 * (80 * cy d + Z.of_nat (col p))) [c `mod` 256; 7] (vram d)) d)).
  apply move_col_ok; [done| | |done..|lia]; cbn [vram with_vram cy].
  { split_and!; cbn [above line col]; [done|by rewrite length_insert|done]. }
  rewrite dr_vram0, dr_cy0, window_insert by done.
  rewrite Z.mod_small by done. rewrite <- write_cell by (rewrite length_window by done; lia). f_equal. lia.
Qed.

(** A text is printed, one character after the other. *)
Fixpoint print (level : bool) (text : list Z) : VGA () :=
  match text with [] => mret tt | c :: text => vga_putc level c;; print level text end.

Lemma print_ok m level text d p :
  mapped m FB 4000 → paper_ok p → drawn m d p → cursor_at d (col p) (row_of p) → Forall (λ c, 0 ≤ c < 256) text →
  ∃ d', print level text d = Ok ((), d') ∧ paper_ok (foldl type_on p text) ∧ drawn m d' (foldl type_on p text) ∧
    cursor_at d' (col (foldl type_on p text)) (row_of (foldl type_on p text)).
Proof.
  intros Hm Hp Hd Hcur Ht. revert d p Hp Hd Hcur. induction Ht as [|c text Hc _ IH]; intros d p Hp Hd Hcur; [by exists d|].
  destruct (vga_putc_ok m level d p c Hm Hp Hd Hc) as (d1 & E & Hd1 & Hc1). cbn [print foldl]. erewrite st_bind_ok by exact E.
  apply IH; [by apply paper_ok_type|done..].
Qed.

(** C32: the display shows the end of an endless roll of paper.  After a form
    feed and any text, control characters included, the frame buffer holds the
    row that is typed on, the last 24 rows above it and blank rows below, in
    gray on black; no other memory changes.  The display's own cursor is at the
    next column, where a later initialisation finds it. *)
Theorem display_shows_text level text d :
  mapped (vram d) FB 4000 → (inited d = true → fb d = FB) → Forall (λ c, 0 ≤ c < 256) text →
  let p := foldl type_on (Paper [] blank 0) text in
  ∃ d' d'', print level (12 :: text) d = Ok ((), d') ∧ vram d' = write FB (cells (window p)) (vram d) ∧
    length (window p) = 2000%nat ∧ find_cursor d' = Ok ((Z.of_nat (col p), Z.of_nat (row_of p)), d'').
Proof.
  intros Hm Hf Ht p. destruct (init_ok d Hf) as (d0 & E0 & V0 & F0 & I0).
  destruct (cls_ok (vram d) d0 [] Hm F0 I0 V0) as (d1 & E1 & Hd1 & _); [by right|].
  assert (Hp0 : paper_ok (Paper [] blank 0)) by (by split_and!; [constructor|..|cbn; lia]).
  destruct (move_cursor_ok (vram d) d1 _ Hp0 Hd1) as (d2 & E2 & Hd2 & Hc2).
  destruct (print_ok (vram d) level text d2 _ Hm Hp0 Hd2 Hc2 Ht) as (d' & E & Hp & Hd & Hc). fold p in Hp, Hd, Hc.
  destruct (find_cursor_ok _ _ _ Hp Hd Hc) as (d'' & Ef). exists d', d''. split_and!; [|apply Hd|by apply length_window|done].
  cbn [print]. unfold vga_putc at 1. rewrite <- E. erewrite st_bind_ok; [reflexivity|].
  erewrite st_bind_ok by exact E0. change (st_get ≫= ?k) with (λ s, k s s). cbn beta.
  rewrite decide_False, decide_True by done. by erewrite st_bind_ok by exact E1.
Qed.

(** A screen full of garbage. *)
Definition demo_display : display :=
  Display (write FB (replicate 4000 85) ∅) 0 0 0 false 0 (λ _, 0) 0.

Lemma display_shows_text_witness :
  let p := foldl type_on (Paper [] blank 0) [72; 105; 10; 33] in
  ∃ d', print true [12; 72; 105; 10; 33] demo_display = Ok ((), d') ∧ take 80 (window p) = [72; 105] ++ replicate 78 32 ∧
    vram d' = write FB (cells (window p)) (vram demo_display).
Proof.
  destruct (display_shows_text true [72; 105; 10; 33] demo_display) as (d' & d'' & E & Hv & _).
  - apply (holds_mapped _ FB (replicate 4000 85)). apply holds_write; [reflexivity|]. rewrite length_replicate. reflexivity.
  - discriminate.
  - repeat constructor; lia.
  - exists d'. split_and!; [exact E|vm_compute; reflexivity|exact Hv].
Defined.
