(* ===== verification/Rtc.v ===== *)
(** * devices/rtc.c: the real-time clock

    The clock's registers are read through two ports, one at a time, while the
    clock runs: [cmos n i] is what the [n]th read finds in register [i], and the
    state is the number of reads.  [time_t] is an unsigned 32-bit integer. *)

From S2P Require Import Prelude.

Local Open Scope Z_scope.

Definition RTC_REG_SEC : Z := 0.
Definition RTC_REG_MIN : Z := 2.
Definition RTC_REG_HOUR : Z := 4.
Definition RTC_REG_MDAY : Z := 7.
Definition RTC_REG_MON : Z := 8.
Definition RTC_REG_YEAR : Z := 9.

Definition bcd_to_bin (x : Z) : Z := Z.land x 15 + Z.shiftr x 4 * 10.

(** The local variables of rtc_get_time. *)
Record clock := Clock { sec : Z; min : Z; hour : Z; mday : Z; mon : Z; year : Z }.

Definition days_per_month : list Z := [31; 28; 31; 30; 31; 30; 31; 31; 30; 31; 30; 31].

(** The loop over the months: [n] are left, from [i] on. *)
Fixpoint month_loop (n : nat) (i time : Z) : res Z :=
  match n with
  | O => mret time
  | S n =>
      match days_per_month !! Z.to_nat (i - 1) with
      | Some d => month_loop n (i + 1) (u32 (time + d * 24 * 60 * 60))
      | None => Err EFault
      end
  end.

(** The components in seconds. *)
Definition seconds (c : clock) : res Z :=
  let year := if decide (year c < 70) then year c + 100 else year c in
  let year := year - 70 in
  let time := u32 ((year * 365 + Z.quot (year - 1) 4) * 24 * 60 * 60) in
  time ← month_loop (Z.to_nat (mon c)) 1 time;
  let time := if decide (2 < mon c ∧ Z.rem year 4 = 0) then u32 (time + 24 * 60 * 60) else time in
  let time := u32 (time + (mday c - 1) * 24 * 60 * 60) in
  let time := u32 (time + hour c * 60 * 60) in
  let time := u32 (time + min c * 60) in
  mret (u32 (time + sec c)).

Section cmos.
Context (cmos : nat → Z → Z).

Definition cmos_read (index : Z) : ST nat Z := n ← st_get; st_modify S;; mret (cmos n index).

(** The loop that reads the clock until its seconds are stable; [fuel] bounds
    the turns, which only the clock does. *)
Fixpoint read_clock (fuel : nat) : ST nat clock :=
  match fuel with
  | O => st_fail EFuel
  | S fuel =>
      s ← cmos_read RTC_REG_SEC;
      m ← cmos_read RTC_REG_MIN;
      h ← cmos_read RTC_REG_HOUR;
      d ← cmos_read RTC_REG_MDAY;
      mo ← cmos_read RTC_REG_MON;
      y ← cmos_read RTC_REG_YEAR;
      s' ← cmos_read RTC_REG_SEC;
      if decide (bcd_to_bin s ≠ bcd_to_bin s') then read_clock fuel
      else mret (Clock (bcd_to_bin s) (bcd_to_bin m) (bcd_to_bin h) (bcd_to_bin d) (bcd_to_bin mo) (bcd_to_bin y))
  end.

Definition rtc_get_time (fuel : nat) : ST nat Z := c ← read_clock fuel; st_res (seconds c).
End cmos.

(** * Theorems *)

(** ** Dates and Unix time *)

Definition leap (y : Z) : bool := bool_decide (y `mod` 4 = 0 ∧ (y `mod` 100 ≠ 0 ∨ y `mod` 400 = 0)).

Definition days_in (y : Z) (m : nat) : Z :=
  if decide (m = 2%nat) then (if leap y then 29 else 28) else default 0 (days_per_month !! (m - 1)%nat).

Record date := Date { d_year : Z; d_month : nat; d_day : Z; d_hour : Z; d_min : Z; d_sec : Z }.

Definition date_ok (d : date) : Prop :=
  1970 ≤ d_year d ≤ 2069 ∧ (1 ≤ d_month d ≤ 12)%nat ∧ 1 ≤ d_day d ≤ days_in (d_year d) (d_month d) ∧
  0 ≤ d_hour d ≤ 23 ∧ 0 ≤ d_min d ≤ 59 ∧ 0 ≤ d_sec d ≤ 59.

(** Days from January 1, 1970 to the first of the month. *)
Definition days_before (y : Z) (m : nat) : Z :=
  foldr Z.add 0 ((λ i, if leap (1970 + i) then 366 else 365) <$> seqZ 0 (y - 1970)) +
  foldr Z.add 0 (days_in y <$> seq 1 (m - 1)).

Definition unix_time (d : date) : Z :=
  ((days_before (d_year d) (d_month d) + d_day d - 1) * 24 + d_hour d) * 3600 + d_min d * 60 + d_sec d.

(** The days that the source counts too many. *)
Definition days_ahead (y : Z) (m : nat) : Z :=
  default 0 (days_per_month !! (m - 1)%nat) +
  (if decide ((y - 1970) `mod` 4 = 3) then -1
   else if decide ((y - 1970) `mod` 4 = 0) then (if decide (y = 1970) then 0 else -1) + (if decide (2 < m)%nat then 1 else 0)
   else if decide ((y - 1970) `mod` 4 = 2) then (if decide (2 < m)%nat then -1 else 0) else 0).

(** Binary-coded decimal, and a clock that shows [d] from the [n]th read on. *)
Definition bcd (x : Z) : Z := 16 * (x / 10) + x `mod` 10.

Definition register (d : date) (i : Z) : Z :=
  if decide (i = RTC_REG_SEC) then bcd (d_sec d) else if decide (i = RTC_REG_MIN) then bcd (d_min d)
  else if decide (i = RTC_REG_HOUR) then bcd (d_hour d) else if decide (i = RTC_REG_MDAY) then bcd (d_day d)
  else if decide (i = RTC_REG_MON) then bcd (Z.of_nat (d_month d)) else bcd (d_year d `mod` 100).

Definition clock_shows (cmos : nat → Z → Z) (n : nat) (d : date) : Prop :=
  ∀ k i, (n ≤ k < n + 7)%nat → i ∈ [RTC_REG_SEC; RTC_REG_MIN; RTC_REG_HOUR; RTC_REG_MDAY; RTC_REG_MON; RTC_REG_YEAR] →
    cmos k i = register d i.

Lemma bcd_ok x : 0 ≤ x < 100 → bcd_to_bin (bcd x) = x.
Proof.
  intros Hx. assert (H : Forall (λ x, bcd_to_bin (bcd x) = x) (seqZ 0 100)) by compute_hyp.
  rewrite Forall_forall in H. apply H, elem_of_seqZ. lia.
Qed.

Lemma month_loop_ok n i t : (1 ≤ i)%nat → (i + n ≤ 13)%nat →
  month_loop n (Z.of_nat i) (u32 t) = Ok (u32 (t + 86400 * foldr Z.add 0 (take n (drop (i - 1) days_per_month)))).
Proof.
  revert i t. induction n as [|n IH]; intros i t Hi Hn; cbn [month_loop].
  { cbn [take foldr]. by rewrite Z.mul_0_r, Z.add_0_r. }
  destruct (lookup_lt_is_Some_2 days_per_month (i - 1)) as [x Hx]; [cbn; lia|].
  replace (Z.to_nat (Z.of_nat i - 1)) with (i - 1)%nat by lia. rewrite Hx, u32_add_l.
  replace (Z.of_nat i + 1) with (Z.of_nat (S i)) by lia. rewrite IH by lia.
  rewrite (drop_S _ _ _ Hx). cbn [take foldr]. replace (S i - 1)%nat with (S (i - 1)) by lia. f_equal. f_equal. lia.
Qed.

(** The source's count of days, for all years and months. *)
Definition source_days (y : Z) (m : nat) : Z :=
  let k := y - 1970 in
  k * 365 + Z.quot (k - 1) 4 + foldr Z.add 0 (take m days_per_month) + (if decide (2 < Z.of_nat m ∧ Z.rem k 4 = 0) then 1 else 0).

Lemma source_days_ok y m : 1970 ≤ y ≤ 2069 → (1 ≤ m ≤ 12)%nat → source_days y m = days_before y m + days_ahead y m.
Proof.
  intros Hy Hm.
  assert (H : Forall (λ y, Forall (λ m, source_days y m = days_before y m + days_ahead y m) (seq 1 12)) (seqZ 1970 100)) by compute_hyp.
  rewrite Forall_forall in H. specialize (H y ltac:(apply elem_of_seqZ; lia)). rewrite Forall_forall in H. apply H, elem_of_seq. lia.
Qed.

Lemma seconds_ok d : date_ok d →
  seconds (Clock (d_sec d) (d_min d) (d_hour d) (d_day d) (Z.of_nat (d_month d)) (d_year d `mod` 100)) =
    Ok (u32 (unix_time d + 86400 * days_ahead (d_year d) (d_month d))).
Proof.
  intros (Hy & Hm & _). unfold seconds. cbn [year mon mday hour min sec].
  assert (Ey : (if decide (d_year d `mod` 100 < 70) then d_year d `mod` 100 + 100 else d_year d `mod` 100) - 70 = d_year d - 1970).
  { case_decide; dlia. }
  rewrite Ey, Nat2Z.id. pose proof (month_loop_ok (d_month d) 1) as El. change (drop (1 - 1) days_per_month) with days_per_month in El. change (Z.of_nat 1) with 1 in El.
  rewrite El by lia. unfold mbind, res_bind, mret, res_ret. pose proof (source_days_ok (d_year d) (d_month d) Hy Hm) as Es.
  unfold source_days in Es. unfold unix_time. f_equal. destruct (decide (2 < Z.of_nat (d_month d) ∧ Z.rem (d_year d - 1970) 4 = 0)); repeat (rewrite <- ?Z.add_assoc, u32_add_l); f_equal; lia.
Qed.

Lemma days_in_le y m : (1 ≤ m ≤ 12)%nat → days_in y m ≤ 31.
Proof.
  intros Hm. assert (H : Forall (λ m, default 0 (days_per_month !! (m - 1)%nat) ≤ 31) (seq 1 12)) by compute_hyp.
  rewrite Forall_forall in H. specialize (H m ltac:(apply elem_of_seq; lia)). unfold days_in.
  case_decide; [destruct (leap y)|]; [lia..|done].
Qed.

Lemma days_ahead_range y m : 1970 ≤ y ≤ 2069 → (1 ≤ m ≤ 12)%nat → 27 ≤ days_ahead y m ≤ 32.
Proof.
  intros Hy Hm.
  assert (H : Forall (λ y, Forall (λ m, 27 ≤ days_ahead y m ≤ 32) (seq 1 12)) (seqZ 1970 100)) by compute_hyp.
  rewrite Forall_forall in H. specialize (H y ltac:(apply elem_of_seqZ; lia)). rewrite Forall_forall in H. apply H, elem_of_seq. lia.
Qed.

Lemma read_clock_ok cmos n d fuel : date_ok d → clock_shows cmos n d →
  read_clock cmos (S fuel) n =
    Ok (Clock (d_sec d) (d_min d) (d_hour d) (d_day d) (Z.of_nat (d_month d)) (d_year d `mod` 100), (n + 7)%nat).
Proof.
  intros Hd Hc. pose proof Hd as (Hy & Hm & Hday & Hh & Hmin & Hs). pose proof (days_in_le (d_year d) (d_month d) Hm).
  assert (Hr : ∀ k i, (n ≤ k < n + 7)%nat → i ∈ [RTC_REG_SEC; RTC_REG_MIN; RTC_REG_HOUR; RTC_REG_MDAY; RTC_REG_MON; RTC_REG_YEAR] →
    cmos_read cmos i k = Ok (register d i, S k)) by (intros k i Hk Hi; unfold cmos_read; by rewrite <- (Hc k i Hk Hi)).
  cbn [read_clock]. do 7 (erewrite st_bind_ok by (apply Hr; [lia|]; repeat first [by left | right])).
  rewrite decide_False by (intros []; done). unfold mret, ST_ret. f_equal. f_equal; [|lia].
  change (register d RTC_REG_SEC) with (bcd (d_sec d)). change (register d RTC_REG_MIN) with (bcd (d_min d)).
  change (register d RTC_REG_HOUR) with (bcd (d_hour d)). change (register d RTC_REG_MDAY) with (bcd (d_day d)).
  change (register d RTC_REG_MON) with (bcd (Z.of_nat (d_month d))). change (register d RTC_REG_YEAR) with (bcd (d_year d `mod` 100)).
  by rewrite !bcd_ok by dlia.
Qed.

(** Rtc_get_time returns as soon as the clock stands still for one turn of its
    reads, and the time returned is not Unix time but 27 to 32 days ahead of it, by
    a number that depends on the year and the month: the source counts the days
    of the current month as well, and leap years from 1970 on.  Within a month,
    differences of times are exact. *)
Theorem rtc_time_ahead cmos n d fuel :
  date_ok d → clock_shows cmos n d →
  rtc_get_time cmos (S fuel) n = Ok (u32 (unix_time d + 86400 * days_ahead (d_year d) (d_month d)), (n + 7)%nat) ∧
  27 ≤ days_ahead (d_year d) (d_month d) ≤ 32.
Proof.
  intros Hd Hc. split; [|apply days_ahead_range; apply Hd]. unfold rtc_get_time.
  erewrite st_bind_ok by (by apply read_clock_ok). unfold st_res. by rewrite seconds_ok.
Qed.

(** February 1, 2026 comes before January 31 for rtc_get_time. *)
Definition jan31 : date := Date 2026 1 31 12 0 0.
Definition feb1 : date := Date 2026 2 1 12 0 0.

Lemma rtc_time_ahead_witness :
  ∃ t t', rtc_get_time (λ _, register jan31) 1 0%nat = Ok (t, 7%nat) ∧ rtc_get_time (λ _, register feb1) 1 0%nat = Ok (t', 7%nat) ∧
    unix_time jan31 < unix_time feb1 ∧ t' < t.
Proof.
  destruct (rtc_time_ahead (λ _, register jan31) 0 jan31 0) as [E _]; [compute_hyp|by intros k i _ _|].
  destruct (rtc_time_ahead (λ _, register feb1) 0 feb1 0) as [E' _]; [compute_hyp|by intros k i _ _|].
  do 2 eexists. split_and!; [exact E|exact E'|vm_compute; reflexivity..].
Defined.
