(* ===== verification/Serial.v ===== *)
(** * devices/serial.c and devices/input.c: the serial port

    The 16550A chip is its registers and the bytes sent on the wire; bit 7 of the line
    control register says what the first two ports mean.  [lsr n] and [rbr n]
    are what the [n]th read of the line status register and of the receiver
    buffer finds.  The transmit queue and the input buffer are interrupt queues
    of Intq.v, with the threads that wait in them.  Registering the handler is part of
    Descriptors.v. *)

From S2P Require Import Prelude Intq IntqTheorems.

Local Open Scope Z_scope.

Definition IO_BASE : Z := 1016.
Definition THR_REG : Z := IO_BASE + 0.
Definition IER_REG : Z := IO_BASE + 1.
Definition LS_REG : Z := IO_BASE + 0.
Definition MS_REG : Z := IO_BASE + 1.
Definition FCR_REG : Z := IO_BASE + 2.
Definition LCR_REG : Z := IO_BASE + 3.
Definition MCR_REG : Z := IO_BASE + 4.

Definition IER_RECV : Z := 1.
Definition IER_XMIT : Z := 2.
Definition LCR_N81 : Z := 3.
Definition LCR_DLAB : Z := 128.
Definition MCR_OUT2 : Z := 8.
Definition LSR_DR : Z := 1.
Definition LSR_THRE : Z := 32.

(** The chip's registers that are written, and the bytes transmitted. *)
Record uart := Uart { ier : Z; fcr : Z; lcr : Z; mcr : Z; dll : Z; dlm : Z; wire : list Z }.

Definition uart_write (port data : Z) (u : uart) : uart :=
  let '(Uart i f l m lo hi w) := u in
  let dlab := Z.testbit l 7 in
  if decide (port = IO_BASE) then (if dlab then Uart i f l m data hi w else Uart i f l m lo hi (w ++ [data]))
  else if decide (port = IO_BASE + 1) then (if dlab then Uart i f l m lo data w else Uart data f l m lo hi w)
  else if decide (port = IO_BASE + 2) then Uart i data l m lo hi w
  else if decide (port = IO_BASE + 3) then Uart i f data m lo hi w
  else if decide (port = IO_BASE + 4) then Uart i f l data lo hi w
  else u.

Inductive serial_mode := UNINIT | POLL | QUEUE.

#[export] Instance serial_mode_eq_dec : EqDecision serial_mode.
Proof. solve_decision. Defined.

Record serial := Serial {
  mode : serial_mode;
  txq : qsys;
  buffer : qsys;         (** of devices/input.c *)
  chip : uart;
  lsr_reads : nat;
  rbr_reads : nat;
}.

Abbreviation SM := (ST serial).

Definition set_mode (m : serial_mode) : SM () := st_modify (λ s, Serial m (txq s) (buffer s) (chip s) (lsr_reads s) (rbr_reads s)).

Definition on_txq {A} (c : QM A) : SM A := λ s,
  match c (txq s) with Ok (a, q) => Ok (a, Serial (mode s) q (buffer s) (chip s) (lsr_reads s) (rbr_reads s)) | Err e => Err e end.
Definition on_buffer {A} (c : QM A) : SM A := λ s,
  match c (buffer s) with Ok (a, q) => Ok (a, Serial (mode s) (txq s) q (chip s) (lsr_reads s) (rbr_reads s)) | Err e => Err e end.

(** [data] is a byte. *)
Definition outb (port data : Z) : SM () :=
  st_modify (λ s, Serial (mode s) (txq s) (buffer s) (uart_write port data (chip s)) (lsr_reads s) (rbr_reads s)).

Definition set_serial (bps : Z) : SM () :=
  let base_rate := 1843200 / 16 in
  let divisor := Z.quot base_rate bps `mod` 65536 in
  ASSERT (bool_decide (300 ≤ bps) && bool_decide (bps ≤ 115200));;
  outb LCR_REG (Z.lor LCR_N81 LCR_DLAB);;
  outb LS_REG (Z.land divisor 255);;
  outb MS_REG (Z.shiftr divisor 8);;
  outb LCR_REG LCR_N81.

Definition init_poll : SM () :=
  s ← st_get;
  ASSERT (bool_decide (mode s = UNINIT));;
  outb IER_REG 0;;
  outb FCR_REG 0;;
  set_serial 9600;;
  outb MCR_REG MCR_OUT2;;
  st_modify (λ s, Serial (mode s) (Qsys (intq_init (buf (queue (txq s)))) (threads (txq s)) [] []) (buffer s) (chip s) (lsr_reads s) (rbr_reads s));;
  set_mode POLL.

Definition write_ier : SM () :=
  s ← st_get;
  let ier := 0 in
  let ier := if intq_empty (queue (txq s)) then ier else Z.lor ier IER_XMIT in
  let ier := if intq_full (queue (buffer s)) then ier else Z.lor ier IER_RECV in
  outb IER_REG ier.

Definition serial_init_queue : SM () :=
  s ← st_get;
  (if decide (mode s = UNINIT) then init_poll else mret tt);;
  s ← st_get;
  ASSERT (bool_decide (mode s = POLL));;
  set_mode QUEUE;;
  write_ier.

Definition serial_notify : SM () := s ← st_get; if decide (mode s = QUEUE) then write_ier else mret tt.

(** ** devices/input.c *)

Definition input_full : SM bool := s ← st_get; mret (intq_full (queue (buffer s))).

Definition input_putc (key : Z) : SM () :=
  full ← input_full; ASSERT (negb full);; on_buffer (add_byte key);; serial_notify.

(** A step of thread [t] in input_getc, which ends with the notification when
    the thread has its byte. *)
Definition input_getc (t : Z) (p : phase) : SM () :=
  on_buffer (intq_getc t p);;
  s ← st_get;
  match threads (buffer s) !! t with Some Idle => serial_notify | _ => mret tt end.

(** ** Transmission and reception *)

Section hardware.
Context (lsr rbr : nat → Z).

Definition inb_lsr : SM Z :=
  s ← st_get; st_modify (λ s, Serial (mode s) (txq s) (buffer s) (chip s) (S (lsr_reads s)) (rbr_reads s));; mret (lsr (lsr_reads s)).
Definition inb_rbr : SM Z :=
  s ← st_get; st_modify (λ s, Serial (mode s) (txq s) (buffer s) (chip s) (lsr_reads s) (S (rbr_reads s)));; mret (rbr (rbr_reads s)).

(** [fuel] bounds the turns until the chip is ready. *)
Fixpoint putc_poll (fuel : nat) (byte : Z) : SM () :=
  match fuel with
  | O => st_fail EFuel
  | S fuel => st ← inb_lsr; if decide (Z.land st LSR_THRE = 0) then putc_poll fuel byte else outb THR_REG byte
  end.

(** serial_putc with interrupts off, or before the queue is in use: it does not
    wait for room in the queue. *)
Definition serial_putc (fuel : nat) (byte : Z) : SM () :=
  s ← st_get;
  if decide (mode s ≠ QUEUE) then
    (if decide (mode s = UNINIT) then init_poll else mret tt);;
    putc_poll fuel byte
  else
    (if intq_full (queue (txq s)) then b ← on_txq take_byte; putc_poll fuel b else mret tt);;
    on_txq (add_byte byte);;
    write_ier.

(** A step of thread [t] in serial_putc with interrupts on and the queue in use. *)
Definition serial_putc_thread (t byte : Z) (p : phase) : SM () :=
  on_txq (intq_putc t byte p);;
  s ← st_get;
  match threads (txq s) !! t with Some Idle => write_ier | _ => mret tt end.

Fixpoint flush_loop (fuel n : nat) : SM () :=
  match n with
  | O => st_fail EFuel
  | S n =>
      s ← st_get;
      if intq_empty (queue (txq s)) then mret tt
      else b ← on_txq take_byte; putc_poll fuel b;; flush_loop fuel n
  end.

(** A queue holds at most 63 bytes. *)
Definition serial_flush (fuel : nat) : SM () := flush_loop fuel 64.

Fixpoint receive_loop (n : nat) : SM () :=
  match n with
  | O => st_fail EFuel
  | S n =>
      full ← input_full;
      if (full : bool) then mret tt else
      st ← inb_lsr;
      if decide (Z.land st LSR_DR ≠ 0) then b ← inb_rbr; input_putc b;; receive_loop n else mret tt
  end.

Fixpoint transmit_loop (n : nat) : SM () :=
  match n with
  | O => st_fail EFuel
  | S n =>
      s ← st_get;
      if intq_empty (queue (txq s)) then mret tt else
      st ← inb_lsr;
      if decide (Z.land st LSR_THRE ≠ 0) then b ← on_txq take_byte; outb THR_REG b;; transmit_loop n else mret tt
  end.

(** Each turn fills the input buffer or empties the transmit queue, which hold
    at most 63 bytes. *)
Definition serial_interrupt : SM () := receive_loop 64;; transmit_loop 64;; write_ier.

(** ** The port in use *)

Inductive sstep (s : serial) : res (() * serial) → Prop :=
  | serial_call t b : threads (txq s) !! t = Some Idle → sstep s (on_txq (st_modify (set_thread t (Put b Test))) s)
  | serial_run t b p : threads (txq s) !! t = Some (Put b p) → runnable (txq s) p → sstep s (serial_putc_thread t b p s)
  | serial_off fuel b : sstep s (serial_putc fuel b s)
  | serial_intr : sstep s (serial_interrupt s)
  | serial_flushes fuel : sstep s (serial_flush fuel s)
  | serial_key b : intq_full (queue (buffer s)) = false → sstep s (input_putc b s)
  | serial_read_call t : threads (buffer s) !! t = Some Idle → sstep s (on_buffer (st_modify (set_thread t (Get Test))) s)
  | serial_read t p : threads (buffer s) !! t = Some (Get p) → runnable (buffer s) p → sstep s (input_getc t p s).

Definition snext (s s' : serial) : Prop := sstep s (Ok ((), s')).
End hardware.

(** * Theorems *)

(** ** The invariant *)

(** The queues are well formed, the chip is set up, and what was sent on the
    wire is what was taken from the queue, after [w]. *)
Record running (w : list Z) (s : serial) : Prop := {
  rn_mode : mode s = QUEUE;
  rn_txq : qinv (txq s);
  rn_buffer : qinv (buffer s);
  rn_lcr : lcr (chip s) = LCR_N81;
  rn_wire : wire (chip s) = w ++ received (txq s);
}.

(** The interrupts that are needed are on. *)
Definition interrupts_on (s : serial) : Prop :=
  (intq_empty (queue (txq s)) = false → Z.testbit (ier (chip s)) 1 = true) ∧
  (intq_full (queue (buffer s)) = false → Z.testbit (ier (chip s)) 0 = true).

Lemma write_ier_ok w s : running w s →
  ∃ s', write_ier s = Ok ((), s') ∧ running w s' ∧ interrupts_on s' ∧ txq s' = txq s ∧ buffer s' = buffer s ∧
    lsr_reads s' = lsr_reads s ∧ rbr_reads s' = rbr_reads s.
Proof.
  intros [H1 H2 H3 H4 H5]. unfold write_ier, outb. change (st_get ≫= ?k) with (λ s, k s s). cbn beta. eexists. split; [reflexivity|].
  destruct (chip s) as [i f l m lo hi wr] eqn:Ec. cbn [lcr wire] in H4, H5. subst l.
  split; [by split|]. split; [|done]. split; cbn; intros ->; [by destruct (intq_full _)|by destruct (intq_empty _)].
Qed.

(** ** Bytes from the queue to the wire *)

(** [s'] is [s] with the oldest byte of the queue sent. *)
Definition sends (w : list Z) (s s' : serial) : Prop :=
  running w s' ∧ buffer s' = buffer s ∧ ier (chip s') = ier (chip s) ∧ sent (txq s') = sent (txq s) ∧
  length (contents (queue (txq s))) = S (length (contents (queue (txq s')))).

Lemma take_ok w s : running w s → intq_empty (queue (txq s)) = false →
  ∃ b s1, on_txq take_byte s = Ok (b, s1) ∧ lsr_reads s1 = lsr_reads s ∧
    ∀ n k, sends w s (Serial (mode s1) (txq s1) (buffer s1) (uart_write THR_REG b (chip s1)) n k).
Proof.
  intros [H1 H2 H3 H4 H5] He. destruct (take_byte_takes (txq s) H2 He) as (b & q & E & Hq & Es & Er & Ec).
  exists b, (Serial (mode s) q (buffer s) (chip s) (lsr_reads s) (rbr_reads s)). unfold on_txq. rewrite E. split; [done|]. split; [done|].
  intros n k. unfold sends. destruct (chip s) as [i f l m lo hi wr]. cbn [lcr wire] in H4, H5. subst l.
  split; [split; try done; cbn; by rewrite H5, Er, app_assoc|]. split; [done|]. split; [done|]. split; [done|]. cbn [txq]. by rewrite Ec.
Qed.

Section hardware.
Context (lsr rbr : nat → Z).

Lemma putc_poll_inv fuel b s s' : putc_poll lsr fuel b s = Ok ((), s') →
  ∃ n, s' = Serial (mode s) (txq s) (buffer s) (uart_write THR_REG b (chip s)) n (rbr_reads s).
Proof.
  revert s. induction fuel as [|fuel IH]; intros s E; cbn [putc_poll] in E; [done|].
  apply st_bind_inv in E as (st & s1 & E1 & E). unfold inb_lsr in E1. injection E1 as <- <-. case_decide.
  - apply IH in E as [n ->]. by exists n.
  - injection E as <-. by eexists.
Qed.

(** It returns once the chip is ready. *)
Lemma putc_poll_returns k fuel b s :
  Z.land (lsr (lsr_reads s + k)) LSR_THRE ≠ 0 → (k < fuel)%nat → ∃ s', putc_poll lsr fuel b s = Ok ((), s').
Proof.
  revert s k. induction fuel as [|fuel IH]; intros s k Hk Hf; [lia|]. cbn [putc_poll]. erewrite st_bind_ok by reflexivity.
  case_decide as Hz; [|by eexists]. destruct k as [|k]; [rewrite Nat.add_0_r in Hk; done|]. apply (IH _ k); cbn [lsr_reads]; [|lia].
  by rewrite Nat.add_succ_r in Hk.
Qed.

Lemma send_inv w fuel s s' : running w s → intq_empty (queue (txq s)) = false →
  (b ← on_txq take_byte; putc_poll lsr fuel b) s = Ok ((), s') → sends w s s'.
Proof.
  intros Hr He E. destruct (take_ok w s Hr He) as (b & s1 & E1 & _ & Hs). erewrite st_bind_ok in E by exact E1.
  apply putc_poll_inv in E as [n ->]. apply Hs.
Qed.

Lemma flush_inv w fuel n s s' : running w s → flush_loop lsr fuel n s = Ok ((), s') →
  running w s' ∧ buffer s' = buffer s ∧ ier (chip s') = ier (chip s) ∧ intq_empty (queue (txq s')) = true.
Proof.
  revert s. induction n as [|n IH]; intros s Hr E; cbn [flush_loop] in E; [done|].
  apply st_bind_inv in E as (s0 & s1 & [= <- <-] & E). destruct (intq_empty (queue (txq s))) eqn:He; [by injection E as <-|].
  rewrite st_bind_assoc in E. apply st_bind_inv in E as ([] & s1 & E1 & E). apply (send_inv w) in E1 as (H1 & H2 & H3 & _); [|done..].
  destruct (IH s1 H1 E) as (? & ? & ? & ?). split_and!; congruence || done.
Qed.

(** ** The operations *)

Lemma input_putc_ok w s b : running w s → intq_full (queue (buffer s)) = false →
  ∃ s', input_putc b s = Ok ((), s') ∧ running w s' ∧ interrupts_on s' ∧ txq s' = txq s ∧
    length (contents (queue (buffer s'))) = S (length (contents (queue (buffer s)))).
Proof using.
  intros Hr Hf. pose proof Hr as [H1 H2 H3 H4 H5]. destruct (add_byte_appends (buffer s) b H3 Hf) as (q & E & Hq & _ & _ & Ec).
  unfold input_putc, input_full. erewrite st_bind_ok by reflexivity. rewrite Hf. erewrite st_bind_ok by reflexivity.
  erewrite st_bind_ok by (unfold on_buffer; by rewrite E). unfold serial_notify. change (st_get ≫= ?k) with (λ s, k s s). cbn beta.
  cbn [mode]. rewrite decide_True by done. destruct (write_ier_ok w (Serial (mode s) (txq s) q (chip s) (lsr_reads s) (rbr_reads s))) as (s' & E' & Hr' & Hi & Et & Eb & _).
  { by split. }
  exists s'. split; [done|]. split; [done|]. split; [done|]. split; [done|]. rewrite Eb. cbn [buffer]. rewrite Ec, length_app. cbn. lia.
Qed.

Lemma receive_loop_ok w n s : running w s → (64 ≤ n + length (contents (queue (buffer s))))%nat →
  ∃ s', receive_loop lsr rbr n s = Ok ((), s') ∧ running w s' ∧ txq s' = txq s.
Proof.
  revert s. induction n as [|n IH]; intros s Hr Hn.
  { pose proof (used_bound (queue (buffer s))) as Hu. rewrite <- length_contents in Hu. lia. }
  cbn [receive_loop]. unfold input_full. erewrite st_bind_ok by reflexivity.
  destruct (intq_full (queue (buffer s))) eqn:Hf; [by exists s|]. erewrite st_bind_ok by reflexivity.
  case_decide; [|eexists; split; [reflexivity|]; split; [by destruct Hr|done]]. erewrite st_bind_ok by reflexivity.
  match goal with |- ∃ s', (input_putc ?b;; _) ?s0 = _ ∧ _ => assert (Hr0 : running w s0) by (by destruct Hr);
    destruct (input_putc_ok w s0 b Hr0 Hf) as (s1 & E1 & Hr1 & _ & Et & El) end. erewrite st_bind_ok by exact E1.
  destruct (IH s1 Hr1) as (s' & E' & Hr' & Et'); [cbn [buffer] in El; lia|]. exists s'. split; [done|]. split; [done|]. by rewrite Et', Et.
Qed.

Lemma transmit_loop_ok w n s : running w s → (length (contents (queue (txq s))) < n)%nat →
  ∃ s', transmit_loop lsr n s = Ok ((), s') ∧ running w s' ∧ buffer s' = buffer s.
Proof.
  revert s. induction n as [|n IH]; intros s Hr Hn; [lia|]. cbn [transmit_loop]. change (st_get ≫= ?k) with (λ s, k s s). cbn beta.
  destruct (intq_empty (queue (txq s))) eqn:He; [by exists s|]. erewrite st_bind_ok by reflexivity.
  match goal with |- ∃ s', (if _ then _ else _) ?s0 = _ ∧ _ => assert (Hr0 : running w s0) by (by destruct Hr) end.
  case_decide; [|by eexists]. destruct (take_ok w _ Hr0 He) as (b & s1 & E1 & _ & Hs). erewrite st_bind_ok by exact E1.
  unfold outb. erewrite st_bind_ok by reflexivity. destruct (Hs (lsr_reads s1) (rbr_reads s1)) as (Hr1 & Eb & _ & _ & El).
  edestruct (IH _ Hr1) as (s' & E' & Hr' & Eb'); [cbn [txq] in El |- *; lia|]. exists s'. split; [done|]. split; [done|]. by rewrite Eb', Eb.
Qed.

Lemma interrupt_ok w s : running w s → ∃ s', serial_interrupt lsr rbr s = Ok ((), s') ∧ running w s' ∧ interrupts_on s'.
Proof.
  intros Hr. unfold serial_interrupt. destruct (receive_loop_ok w 64 s Hr) as (s1 & E1 & Hr1 & _); [lia|].
  erewrite st_bind_ok by exact E1. pose proof (used_bound (queue (txq s1))) as Hu. rewrite <- length_contents in Hu.
  destruct (transmit_loop_ok w 64 s1 Hr1 Hu) as (s2 & E2 & Hr2 & _). erewrite st_bind_ok by exact E2.
  destruct (write_ier_ok w s2 Hr2) as (s3 & E3 & Hr3 & Hi & _). by exists s3.
Qed.

(** ** The steps *)

Lemma qnext_inv q q' : qinv q → qnext q q' → qinv q'.
Proof using. intros H Hs. by destruct (qstep_inv q _ H Hs) as [(? & [= <-] & ? & _)|[? _]]. Qed.

Lemma putc_thread_inv w s t b p s' :
  running w s → interrupts_on s → threads (txq s) !! t = Some (Put b p) → runnable (txq s) p →
  serial_putc_thread t b p s = Ok ((), s') → running w s' ∧ interrupts_on s'.
Proof using.
  intros [H1 H2 H3 H4 H5] [Hi1 Hi2] Et Hr E. unfold serial_putc_thread in E. apply st_bind_inv in E as ([] & s1 & E1 & E).
  unfold on_txq in E1. destruct (intq_putc t b p (txq s)) as [[[] q]|] eqn:Eq; [|done]. injection E1 as <-.
  assert (Hq : qinv q) by (eapply qnext_inv; [exact H2|]; unfold qnext; rewrite <- Eq; by apply step_put).
  apply intq_putc_bytes in Eq as [Er Hb]. apply st_bind_inv in E as (s1 & s2 & [= <- <-] & E). cbn [txq] in E.
  assert (Hrun : running w (Serial (mode s) q (buffer s) (chip s) (lsr_reads s) (rbr_reads s))).
  { split; try done. cbn. by rewrite Er. }
  destruct (decide (threads q !! t = Some Idle)) as [Ei|Ei].
  - rewrite Ei in E. destruct (write_ier_ok w _ Hrun) as (s2 & E2 & Hr2 & Hi & _). rewrite E2 in E. by injection E as <-.
  - destruct Hb as [?|Hb]; [done|]. apply same_bytes_contents in Hb as (_ & Hb & _).
    assert (s' = Serial (mode s) q (buffer s) (chip s) (lsr_reads s) (rbr_reads s)) as -> by (destruct (threads q !! t) as [[]|]; by inversion E).
    split; [done|]. split; cbn; [by rewrite Hb|done].
Qed.

Lemma getc_thread_inv w s t p s' :
  running w s → interrupts_on s → threads (buffer s) !! t = Some (Get p) → runnable (buffer s) p →
  input_getc t p s = Ok ((), s') → running w s' ∧ interrupts_on s'.
Proof using.
  intros [H1 H2 H3 H4 H5] [Hi1 Hi2] Et Hr E. unfold input_getc in E. apply st_bind_inv in E as ([] & s1 & E1 & E).
  unfold on_buffer in E1. destruct (intq_getc t p (buffer s)) as [[[] q]|] eqn:Eq; [|done]. injection E1 as <-.
  assert (Hq : qinv q) by (eapply qnext_inv; [exact H3|]; unfold qnext; rewrite <- Eq; by apply step_get).
  apply intq_getc_bytes in Eq. apply st_bind_inv in E as (s1 & s2 & [= <- <-] & E). cbn [buffer] in E.
  assert (Hrun : running w (Serial (mode s) (txq s) q (chip s) (lsr_reads s) (rbr_reads s))) by (by split).
  destruct (decide (threads q !! t = Some Idle)) as [Ei|Ei].
  - rewrite Ei in E. unfold serial_notify in E. apply st_bind_inv in E as (s1 & s2 & [= <- <-] & E). cbn [mode] in E. rewrite decide_True in E by done.
    destruct (write_ier_ok w _ Hrun) as (s2 & E2 & Hr2 & Hi & _). rewrite E2 in E. by injection E as <-.
  - destruct Eq as [?|Hb]; [done|]. apply same_bytes_contents in Hb as (_ & _ & Hb).
    assert (s' = Serial (mode s) (txq s) q (chip s) (lsr_reads s) (rbr_reads s)) as -> by (destruct (threads q !! t) as [[]|]; by inversion E).
    split; [done|]. split; cbn; [done|by rewrite Hb].
Qed.

Lemma putc_off_inv w fuel b s s' : running w s → serial_putc lsr fuel b s = Ok ((), s') → running w s' ∧ interrupts_on s'.
Proof.
  intros Hr E. unfold serial_putc in E. apply st_bind_inv in E as (s0 & s1 & [= <- <-] & E).
  rewrite decide_False in E by (rewrite (rn_mode _ _ Hr); tauto). apply st_bind_inv in E as ([] & s1 & E1 & E).
  assert (H1 : running w s1 ∧ intq_full (queue (txq s1)) = false).
  { destruct (intq_full (queue (txq s))) eqn:Hf; [|by injection E1 as <-]. pose proof (rn_txq _ _ Hr) as Hq.
    apply full_used in Hf; [|apply Hq]. apply (send_inv w) in E1 as (H1 & _ & _ & _ & El); [|done|].
    - split; [done|]. destruct (intq_full (queue (txq s1))) eqn:Hf1; [|done]. apply full_used in Hf1; [lia|apply H1].
    - destruct (intq_empty (queue (txq s))) eqn:He; [|done]. apply empty_used in He; [|apply Hq]. by rewrite He in Hf. }
  destruct H1 as [H1 Hf]. apply st_bind_inv in E as ([] & s2 & E2 & E). unfold on_txq in E2.
  destruct (add_byte_appends (txq s1) b (rn_txq _ _ H1) Hf) as (q & Eq & Hq & _ & Er & _). rewrite Eq in E2. injection E2 as <-.
  assert (H2 : running w (Serial (mode s1) q (buffer s1) (chip s1) (lsr_reads s1) (rbr_reads s1))).
  { destruct H1. split; try done. cbn. by rewrite Er. }
  destruct (write_ier_ok w _ H2) as (s3 & E3 & Hr3 & Hi & _). rewrite E3 in E. by injection E as <-.
Qed.

(** With a chip that is ready again and again, it returns. *)
Lemma putc_off_ok w fuel b s :
  running w s → (∀ n, ∃ k, (k < fuel)%nat ∧ Z.land (lsr (n + k)) LSR_THRE ≠ 0) →
  ∃ s', serial_putc lsr fuel b s = Ok ((), s') ∧ running w s' ∧ sent (txq s') = sent (txq s) ++ [b].
Proof.
  intros Hr Hrdy. unfold serial_putc. change (st_get ≫= ?k) with (λ s, k s s). cbn beta.
  rewrite decide_False by (rewrite (rn_mode _ _ Hr); tauto).
  assert (H1 : ∃ s1, (if intq_full (queue (txq s)) then b ← on_txq take_byte; putc_poll lsr fuel b else mret tt) s = Ok ((), s1) ∧
    running w s1 ∧ intq_full (queue (txq s1)) = false ∧ sent (txq s1) = sent (txq s)).
  { destruct (intq_full (queue (txq s))) eqn:Hf; [|by exists s]. pose proof (rn_txq _ _ Hr) as Hq.
    apply full_used in Hf; [|apply Hq]. assert (He : intq_empty (queue (txq s)) = false).
    { destruct (intq_empty (queue (txq s))) eqn:He; [|done]. apply empty_used in He; [|apply Hq]. by rewrite He in Hf. }
    destruct (take_ok w s Hr He) as (x & s1 & E1 & _ & Hs). destruct (Hrdy (lsr_reads s1)) as (k & Hk & Hk').
    destruct (putc_poll_returns k fuel x s1 Hk' Hk) as (s2 & E2). exists s2. erewrite st_bind_ok by exact E1. split; [exact E2|].
    apply putc_poll_inv in E2 as [n ->]. destruct (Hs n (rbr_reads s1)) as (H1 & _ & _ & H4 & H5). split; [exact H1|]. split; [|exact H4].
    match goal with |- ?x = false => destruct x eqn:Hf1 end; [|done]. apply full_used in Hf1; [lia|apply H1]. }
  destruct H1 as (s1 & E1 & Hr1 & Hf1 & Es1). erewrite st_bind_ok by exact E1.
  destruct (add_byte_appends (txq s1) b (rn_txq _ _ Hr1) Hf1) as (q & Eq & Hq & Es & Er & _).
  erewrite st_bind_ok by (unfold on_txq; rewrite Eq; reflexivity).
  assert (H2 : running w (Serial (mode s1) q (buffer s1) (chip s1) (lsr_reads s1) (rbr_reads s1))).
  { destruct Hr1. split; try done. cbn. by rewrite Er. }
  destruct (write_ier_ok w _ H2) as (s3 & E3 & Hr3 & _ & Et & _). exists s3. split; [done|]. split; [done|]. rewrite Et. cbn. by rewrite Es, Es1.
Qed.

Lemma sstep_inv w s s' : running w s → interrupts_on s → snext lsr rbr s s' → running w s' ∧ interrupts_on s'.
Proof.
  intros Hr Hi Hs. unfold snext in Hs. remember (Ok ((), s')) as r eqn:Er. destruct Hs as [t b Et|t b p Et Hp|fuel b| |fuel|b Hf|t Et|t p Et Hp].
  - injection Er as <-. destruct Hr as [H1 H2 H3 H4 H5]. split; [|exact Hi]. split; try done. by eapply set_thread_inv.
  - by eapply putc_thread_inv.
  - by eapply putc_off_inv.
  - destruct (interrupt_ok w s Hr) as (s1 & E & ? & ?). rewrite E in Er. by injection Er as <-.
  - apply (flush_inv w) in Er as (H1 & Eb & Ei & He); [|done]. split; [done|]. destruct Hi as [Hi1 Hi2]. split; [congruence|]. by rewrite Eb, Ei.
  - destruct (input_putc_ok w s b Hr Hf) as (s1 & E & ? & ? & _). rewrite E in Er. by injection Er as <-.
  - injection Er as <-. destruct Hr as [H1 H2 H3 H4 H5]. split; [|exact Hi]. split; try done. by eapply set_thread_inv.
  - by eapply getc_thread_inv.
Qed.
End hardware.

(** ** From initialisation on *)

(** The port before it is used: a queue's array, and no thread in a call. *)
Definition unused (s : serial) : Prop :=
  mode s = UNINIT ∧ length (buf (queue (txq s))) = 64%nat ∧ threads (txq s) !! NULL = None ∧
  map_Forall (λ _ x, x = Idle) (threads (txq s)) ∧ qinv (buffer s).

Lemma init_poll_ok s : mode s = UNINIT →
  ∃ i, init_poll s = Ok ((), Serial POLL (Qsys (intq_init (buf (queue (txq s)))) (threads (txq s)) [] []) (buffer s)
    (Uart i 0 LCR_N81 MCR_OUT2 12 0 (wire (chip s))) (lsr_reads s) (rbr_reads s)).
Proof.
  intros Hm. destruct s as [m q b u n k]. cbn in Hm. subst m. unfold init_poll. change (st_get ≫= ?k) with (λ s, k s s). cbn beta.
  erewrite st_bind_ok by reflexivity. destruct u as [i f l mc lo hi w]. unfold outb.
  erewrite st_bind_ok by reflexivity. cbn [mode txq buffer chip lsr_reads rbr_reads uart_write].
  destruct (Z.testbit l 7); eexists; reflexivity.
Qed.

Lemma serial_init_ok s : unused s →
  ∃ s0, serial_init_queue s = Ok ((), s0) ∧ running (wire (chip s)) s0 ∧ interrupts_on s0 ∧
    dll (chip s0) = 12 ∧ dlm (chip s0) = 0 ∧ sent (txq s0) = [].
Proof.
  intros (Hm & Hl & Hn & Ht & Hb). destruct (init_poll_ok s Hm) as [i Ei]. unfold serial_init_queue.
  change (st_get ≫= ?k) with (λ s, k s s). cbn beta. rewrite decide_True by done. erewrite st_bind_ok by exact Ei.
  change (st_get ≫= ?k) with (λ s, k s s). cbn beta. erewrite st_bind_ok by reflexivity. erewrite st_bind_ok by reflexivity.
  match goal with |- ∃ s0, write_ier ?s1 = _ ∧ _ => assert (Hr : running (wire (chip s)) s1) end.
  { split; try done; [|cbn; by rewrite app_nil_r]. split; cbn; try done.
    - intros t E. by apply Ht in E.
    - intros t b E. by apply Ht in E.
    - intros t x E Hx. apply Ht in E as ->. done. }
  destruct (write_ier_ok _ _ Hr) as (s0 & E & Hr0 & Hi & Et & _). exists s0. split; [done|]. split; [done|]. split; [done|].
  rewrite Et. clear - E. unfold write_ier, outb in E. injection E as <-. done.
Qed.


Definition demo_port : serial :=
  Serial UNINIT (qinit (replicate 64 0) [1]) (qinit (replicate 64 0) [1]) (Uart 0 0 0 0 0 0 []) 0 0.

