(* ===== verification/Console.v ===== *)
(** * lib/kernel/console.c: the console

    Output to the serial port and the display, under the console's lock.  The two
    devices are behind an interface: [Device] is what the console uses, and
    [DeviceLaws] what it relies on, that a device puts out the characters it is
    given.  The lock is its holder; a thread that finds it taken waits, and its
    call does not return before the lock is free.  The frame buffer is the
    display's, and not part of [cmem]. *)

From S2P Require Import Prelude Bitmap Memory CString CStdlib Stdio StdioSpec.

Local Open Scope Z_scope.

(** A device that characters are put out to. *)
Class Device (D : Type) := putc : Z → ST D ().

(** [text d t]: [d] has put out [t]. *)
Class DeviceLaws (D : Type) `{!Device D} (text : D → list Z → Prop) :=
  putc_ok d t c : text d t → 0 ≤ c < 256 → ∃ d', putc c d = Ok ((), d') ∧ text d' (t ++ [c]).

Section console.
Context {P V : Type} `{!Device P, !Device V}.

Record console := Console {
  cmem : mem;
  in_intr : bool;             (** intr_context () *)
  lock_holder : Z;            (** of console_lock *)
  use_console_lock : bool;
  console_lock_depth : Z;
  write_cnt : Z;
  port : P;
  screen : V;
}.

Abbreviation CM := (ST console).

Definition set_lock (h : Z) (use : bool) (depth : Z) : CM () :=
  st_modify (λ s, Console (cmem s) (in_intr s) h use depth (write_cnt s) (port s) (screen s)).

Definition on_port (c : ST P ()) : CM () := λ s,
  match c (port s) with
  | Ok (a, d) => Ok (a, Console (cmem s) (in_intr s) (lock_holder s) (use_console_lock s) (console_lock_depth s) (write_cnt s) d (screen s))
  | Err e => Err e
  end.
Definition on_screen (c : ST V ()) : CM () := λ s,
  match c (screen s) with
  | Ok (a, d) => Ok (a, Console (cmem s) (in_intr s) (lock_holder s) (use_console_lock s) (console_lock_depth s) (write_cnt s) (port s) d)
  | Err e => Err e
  end.

Definition rd_console (a : Z) : CM Z := λ s, match load a (cmem s) with Ok (b, _) => Ok (b, s) | Err e => Err e end.

Definition console_init : CM () := s ← st_get; set_lock NULL true (console_lock_depth s).
Definition console_panic : CM () := s ← st_get; set_lock (lock_holder s) false (console_lock_depth s).

(** [cur] is the running thread. *)
Section thread.
Context (cur : Z).

Definition lock_held_by_current_thread : CM bool := s ← st_get; mret (bool_decide (lock_holder s = cur)).

Definition acquire_console : CM () :=
  s ← st_get;
  if decide (in_intr s = false ∧ use_console_lock s = true) then
    held ← lock_held_by_current_thread;
    if (held : bool) then set_lock (lock_holder s) (use_console_lock s) (s32 (console_lock_depth s + 1))
    else if decide (lock_holder s = NULL) then set_lock cur (use_console_lock s) (console_lock_depth s)
    else st_fail EFuel
  else mret tt.

Definition release_console : CM () :=
  s ← st_get;
  if decide (in_intr s = false ∧ use_console_lock s = true) then
    if decide (0 < console_lock_depth s) then set_lock (lock_holder s) (use_console_lock s) (console_lock_depth s - 1)
    else
      ASSERT (bool_decide (lock_holder s = cur));;
      set_lock NULL (use_console_lock s) (console_lock_depth s)
  else mret tt.

Definition console_locked_by_current_thread : CM bool :=
  s ← st_get; held ← lock_held_by_current_thread; mret (in_intr s || negb (use_console_lock s) || held).

(** The parameter is a byte. *)
Definition putchar_have_lock (c : Z) : CM () :=
  let c := c `mod` 256 in
  ok ← console_locked_by_current_thread;
  ASSERT ok;;
  st_modify (λ s, Console (cmem s) (in_intr s) (lock_holder s) (use_console_lock s) (console_lock_depth s) (s64 (write_cnt s + 1)) (port s) (screen s));;
  on_port (putc c);;
  on_screen (putc c).

(** vprintf with its local variable [char_cnt]. *)
Definition with_count {A} (c : CM A) : ST (console * Z) A := λ s,
  match c s.1 with Ok (a, t) => Ok (a, (t, s.2)) | Err e => Err e end.

Definition vprintf_helper (c : Z) : ST (console * Z) () :=
  st_modify (λ s, (s.1, s32 (s.2 + 1)));; with_count (putchar_have_lock c).

Definition vprintf (fuel : nat) (format : Z) (args : list Z) : CM Z := λ s,
  match (with_count acquire_console;;
         __vprintf (λ a, with_count (rd_console a)) vprintf_helper fuel format args;;
         with_count release_console) (s, 0) with
  | Ok (_, (s, char_cnt)) => Ok (char_cnt, s)
  | Err e => Err e
  end.

Fixpoint puts_loop (fuel : nat) (s : Z) : CM () :=
  match fuel with
  | O => st_fail EFuel
  | S fuel => c ← rd_console s; if decide (c = 0) then mret tt else putchar_have_lock c;; puts_loop fuel (u32 (s + 1))
  end.

Definition puts (s : Z) : CM Z :=
  acquire_console;;
  st ← st_get;
  puts_loop (steps (cmem st)) s;;
  putchar_have_lock 10;;
  release_console;;
  mret 0.

Fixpoint putbuf_loop (n : nat) (buffer : Z) : CM () :=
  match n with O => mret tt | S n => c ← rd_console buffer; putchar_have_lock c;; putbuf_loop n (u32 (buffer + 1)) end.

Definition putbuf (buffer n : Z) : CM () := acquire_console;; putbuf_loop (Z.to_nat n) buffer;; release_console.

Definition putchar (c : Z) : CM Z := acquire_console;; putchar_have_lock c;; release_console;; mret c.
End thread.
End console.
Arguments console : clear implicits.

(** * Theorems *)

Section console.
Context {P V : Type} `{!Device P, !Device V} (ptext : P → list Z → Prop) (vtext : V → list Z → Prop).
Context `{!DeviceLaws P ptext, !DeviceLaws V vtext}.
Context (cur : Z).

Local Abbreviation console := (console P V).

(** The thread does not have to wait for the lock. *)
Definition may_print (s : console) : Prop :=
  in_intr s = true ∨ use_console_lock s = false ∨ lock_holder s = NULL ∧ console_lock_depth s = 0 ∨
  lock_holder s = cur ∧ 0 ≤ console_lock_depth s < 2^31 - 1.

(** [s] with other values of the lock, the count and the devices. *)
Definition with_lock (h d : Z) (s : console) : console :=
  Console (cmem s) (in_intr s) h (use_console_lock s) d (write_cnt s) (port s) (screen s).
Definition with_output (n : Z) (p : P) (v : V) (s : console) : console :=
  Console (cmem s) (in_intr s) (lock_holder s) (use_console_lock s) (console_lock_depth s) n p v.

Definition can_put (s : console) : bool := in_intr s || negb (use_console_lock s) || bool_decide (lock_holder s = cur).

(** The lock is taken and given back as it was. *)
Lemma console_bracket s : may_print s →
  ∃ h d, acquire_console cur s = Ok ((), with_lock h d s) ∧ can_put (with_lock h d s) = true ∧
    ∀ n p v, release_console cur (with_output n p v (with_lock h d s)) = Ok ((), with_output n p v s).
Proof using.
  intros Hm. destruct s as [m i h u d n p v]. unfold may_print in Hm. cbn in Hm. unfold acquire_console, release_console, can_put.
  destruct (decide (i = false ∧ u = true)) as [[-> ->]|Hiu].
  - destruct (decide (h = cur)) as [->|Hh].
    + exists cur, (d + 1). assert (Hd : 0 ≤ d < 2^31 - 1 ∨ cur = NULL ∧ d = 0) by naive_solver.
      split_and!.
      * change (st_get ≫= ?k) with (λ s, k s s). cbn beta. cbn [in_intr use_console_lock]. rewrite decide_True by done.
        unfold lock_held_by_current_thread. erewrite st_bind_ok by reflexivity. cbn [lock_holder]. rewrite bool_decide_true by done.
        unfold set_lock, st_modify, with_lock. cbn. rewrite s32_id by (unfold in_s32; lia). done.
      * cbn. by rewrite bool_decide_true.
      * intros n' p' v'. change (st_get ≫= ?k) with (λ s, k s s). cbn beta. cbn. rewrite (decide_True (P := 0 < d + 1)) by lia.
        unfold set_lock, st_modify, with_output. cbn. by replace (d + 1 - 1) with d by lia.
    + destruct Hm as [?|[?|[[-> ->]|[? _]]]]; try done. exists cur, 0. split_and!.
      * change (st_get ≫= ?k) with (λ s, k s s). cbn beta. cbn [in_intr use_console_lock]. rewrite decide_True by done.
        unfold lock_held_by_current_thread. erewrite st_bind_ok by reflexivity. cbn [lock_holder]. rewrite bool_decide_false by done.
        by rewrite decide_True by done.
      * cbn. by rewrite bool_decide_true.
      * intros n' p' v'. change (st_get ≫= ?k) with (λ s, k s s). cbn beta. cbn.
        rewrite (decide_True (P := false = false ∧ true = true)), (decide_False (P := 0 < 0)) by (done || lia).
        erewrite st_bind_ok by (apply assert_ok; by rewrite bool_decide_true). done.
  - exists h, d. assert (Hc : i = true ∨ u = false) by (destruct i, u; tauto). split_and!.
    + change (st_get ≫= ?k) with (λ s, k s s). cbn beta. cbn [in_intr use_console_lock]. by rewrite decide_False by done.
    + cbn. destruct Hc as [->| ->]; [done|]. by destruct i.
    + intros n' p' v'. change (st_get ≫= ?k) with (λ s, k s s). cbn beta. cbn. by rewrite decide_False by done.
Qed.

Lemma s64_add_l x y : s64 (s64 x + y) = s64 (x + y).
Proof using.
  unfold s64. f_equal. replace ((x + 2^63) `mod` 2^64 - 2^63 + y + 2^63) with ((x + 2^63) `mod` 2^64 + y) by lia.
  rewrite Z.add_mod_idemp_l by done. f_equal. lia.
Qed.

(** Bytes. *)
Abbreviation bytes := (fmap (λ c, c `mod` 256)).

(** [s] after the output of [out], from [s0], whose devices have put out [tp] and [tv]. *)
Definition printed_from (s0 : console) (tp tv out : list Z) (s : console) : Prop :=
  ∃ p v, s = with_output (s64 (write_cnt s0 + Z.of_nat (length out))) p v s0 ∧ ptext p (tp ++ bytes out) ∧ vtext v (tv ++ bytes out).

Lemma printed_none s0 tp tv : in_s64 (write_cnt s0) → ptext (port s0) tp → vtext (screen s0) tv → printed_from s0 tp tv [] s0.
Proof using.
  intros Hw Hp Hv. exists (port s0), (screen s0). cbn. rewrite !app_nil_r, Z.add_0_r, s64_id by done. by destruct s0.
Qed.

Lemma putchar_ok s0 tp tv out s c : can_put s0 = true → printed_from s0 tp tv out s →
  ∃ s', putchar_have_lock cur c s = Ok ((), s') ∧ printed_from s0 tp tv (out ++ [c]) s'.
Proof using All.
  intros Hc (p & v & -> & Hp & Hv). unfold putchar_have_lock.
  assert (Hb : 0 ≤ c `mod` 256 < 256) by (apply Z.mod_pos_bound; done).
  destruct (putc_ok p _ _ Hp Hb) as (p' & Ep & Hp'), (putc_ok v _ _ Hv Hb) as (v' & Ev & Hv').
  erewrite st_bind_ok by reflexivity. unfold can_put in Hc. cbn [in_intr use_console_lock lock_holder with_output]. rewrite Hc.
  erewrite st_bind_ok by reflexivity. erewrite st_bind_ok by reflexivity.
  erewrite st_bind_ok by (unfold on_port; cbn [port with_output]; rewrite Ep; reflexivity).
  unfold on_screen. cbn [screen with_output]. rewrite Ev. eexists. split; [reflexivity|]. exists p', v'.
  rewrite fmap_app, !app_assoc. split; [|done]. unfold with_output. cbn. rewrite s64_add_l, length_app. cbn. do 2 f_equal. lia.
Qed.

(** ** Whole texts *)

Lemma sim_console_rd s0 tp tv a :
  sim length (2^31) (λ out s, printed_from s0 tp tv out s.1 ∧ s.2 = Z.of_nat (length out)) (rd_from (cmem s0) a) (with_count (rd_console a)).
Proof using.
  intros out b out' H. unfold rd_from in H. destruct (load a (cmem s0)) as [[x m]|] eqn:E; [|done]. injection H as <- <-.
  split; [done|]. intros _ [s n] Hs. exists (s, n). split; [|done]. destruct Hs as [(p & v & Es & _) _]. cbn [fst] in Es. subst s.
  unfold with_count, rd_console. cbn [fst snd cmem with_output]. by rewrite E.
Qed.

Lemma sim_console_out s0 tp tv ch : can_put s0 = true →
  sim length (2^31) (λ out s, printed_from s0 tp tv out s.1 ∧ s.2 = Z.of_nat (length out)) (record ch) (vprintf_helper cur ch).
Proof using All.
  intros Hc out [] out' H. injection H as <-. rewrite length_app. cbn [length]. split; [lia|]. intros Hb [s n] [Hs Hn]. cbn [fst snd] in *.
  destruct (putchar_ok s0 tp tv out s ch Hc Hs) as (s' & E & Hs'). exists (s', s32 (n + 1)). unfold vprintf_helper.
  erewrite st_bind_ok by reflexivity. unfold with_count. cbn [fst snd]. rewrite E. split; [done|]. split; [done|].
  cbn. rewrite s32_id by (unfold in_s32; lia). lia.
Qed.

Lemma vprintf_ok s tp tv fuel format args out :
  may_print s → in_s64 (write_cnt s) → ptext (port s) tp → vtext (screen s) tv →
  printed (cmem s) fuel format args = Ok out → Z.of_nat (length out) < 2^31 →
  ∃ s', vprintf cur fuel format args s = Ok (Z.of_nat (length out), s') ∧ printed_from s tp tv out s'.
Proof using All.
  intros Hm Hw Hp Hv Hpr Hl. destruct (console_bracket s Hm) as (h & d & Ea & Hc & Er). set (s0 := with_lock h d s) in *.
  unfold printed in Hpr. destruct (__vprintf _ record fuel format args []) as [[[] o]|e] eqn:E; [|done]. injection Hpr as ->.
  change (cmem s) with (cmem s0) in E.
  destruct (sim_vprintf _ _ _ _ _ _ _ (sim_console_rd s0 tp tv) (λ ch, sim_console_out s0 tp tv ch Hc) fuel format args [] () out E) as [_ Hs].
  destruct (Hs Hl (s0, 0)) as ([s1 n1] & E1 & (p & v & E2 & Hp1 & Hv1) & Hn1).
  { split; [|done]. by apply printed_none. }
  cbn [fst snd] in *. unfold vprintf. erewrite st_bind_ok by (unfold with_count; cbn [fst snd]; rewrite Ea; reflexivity).
  erewrite st_bind_ok by exact E1. unfold with_count at 1. cbn [fst snd]. rewrite E2, Er, Hn1. eexists. split; [reflexivity|].
  by exists p, v.
Qed.

(** putbuf and puts. *)
Lemma putbuf_loop_ok s0 tp tv buffer cs out s :
  can_put s0 = true → holds (cmem s0) buffer cs → printed_from s0 tp tv out s →
  ∃ s', putbuf_loop cur (length cs) buffer s = Ok ((), s') ∧ printed_from s0 tp tv (out ++ cs) s'.
Proof using All.
  intros Hc. revert buffer out s. induction cs as [|c cs IH]; intros buffer out s Hh Hs; cbn [putbuf_loop length].
  { exists s. split; [done|]. by rewrite app_nil_r. }
  assert (Em : cmem s = cmem s0) by (by destruct Hs as (? & ? & -> & _)).
  erewrite st_bind_ok by (unfold rd_console; rewrite Em, (load_holds _ _ _ _ Hh); reflexivity).
  destruct (putchar_ok s0 tp tv out s c Hc Hs) as (s1 & E1 & H1). erewrite st_bind_ok by exact E1.
  pose proof Hh as [[Hr1 Hr2] _]. cbn [length] in Hr2. rewrite u32_id by (unfold in_u32; lia).
  destruct (IH (buffer + 1) (out ++ [c]) s1) as (s' & E' & H'); [by eapply holds_tail|done|]. exists s'. split; [done|]. by rewrite <- app_assoc in H'.
Qed.

Lemma putbuf_ok s tp tv buffer cs :
  may_print s → in_s64 (write_cnt s) → ptext (port s) tp → vtext (screen s) tv → holds (cmem s) buffer cs →
  ∃ s', putbuf cur buffer (Z.of_nat (length cs)) s = Ok ((), s') ∧ printed_from s tp tv cs s'.
Proof using All.
  intros Hm Hw Hp Hv Hh. destruct (console_bracket s Hm) as (h & d & Ea & Hc & Er). set (s0 := with_lock h d s) in *.
  destruct (putbuf_loop_ok s0 tp tv buffer cs [] s0 Hc Hh) as (s1 & E1 & p & v & -> & Hp1 & Hv1); [by apply printed_none|].
  unfold putbuf. erewrite st_bind_ok by exact Ea. rewrite Nat2Z.id. erewrite st_bind_ok by exact E1. rewrite Er. eexists. split; [reflexivity|].
  by exists p, v.
Qed.

Lemma puts_loop_ok s0 tp tv a cs out s fuel :
  can_put s0 = true → cstr (cmem s0) a cs → printed_from s0 tp tv out s → (length cs < fuel)%nat →
  ∃ s', puts_loop cur fuel a s = Ok ((), s') ∧ printed_from s0 tp tv (out ++ cs) s'.
Proof using All.
  intros Hc. revert a out s fuel. induction cs as [|c cs IH]; intros a out s fuel Ha Hs Hf; (destruct fuel as [|fuel]; [cbn in Hf; lia|]); cbn [puts_loop];
    (assert (Em : cmem s = cmem s0) by (by destruct Hs as (? & ? & -> & _))).
  - erewrite st_bind_ok by (unfold rd_console; rewrite Em, (cstr_nil _ _ Ha); reflexivity).
    exists s. rewrite app_nil_r. by split.
  - destruct (cstr_cons _ _ _ _ Ha) as (El & Hz & _ & Eu & Ha'). erewrite st_bind_ok by (unfold rd_console; rewrite Em, El; reflexivity).
    rewrite decide_False by done. destruct (putchar_ok s0 tp tv out s c Hc Hs) as (s1 & E1 & H1). erewrite st_bind_ok by exact E1.
    cbn [length] in Hf. rewrite Eu. destruct (IH (a + 1) (out ++ [c]) s1 fuel Ha' H1) as (s' & E' & H'); [lia|].
    exists s'. split; [done|]. by rewrite <- app_assoc in H'.
Qed.

Lemma puts_ok s tp tv a cs :
  may_print s → in_s64 (write_cnt s) → ptext (port s) tp → vtext (screen s) tv → cstr (cmem s) a cs →
  ∃ s', puts cur a s = Ok (0, s') ∧ printed_from s tp tv (cs ++ [10]) s'.
Proof using All.
  intros Hm Hw Hp Hv Hh. destruct (console_bracket s Hm) as (h & d & Ea & Hc & Er). set (s0 := with_lock h d s) in *.
  unfold puts. erewrite st_bind_ok by exact Ea. change (st_get ≫= ?k) with (λ s, k s s). cbn beta.
  destruct (puts_loop_ok s0 tp tv a cs [] s0 (steps (cmem s0)) Hc Hh) as (s1 & E1 & H1); [by apply printed_none|by eapply cstr_steps|].
  erewrite st_bind_ok by exact E1. destruct (putchar_ok s0 tp tv _ s1 10 Hc H1) as (s2 & E2 & p & v & -> & Hp2 & Hv2).
  erewrite st_bind_ok by exact E2. erewrite st_bind_ok by apply Er. eexists. split; [reflexivity|]. by exists p, v.
Qed.
End console.
