(* ===== verification/PrintTheorems.v ===== *)
(** * Printing on the serial port and the display

    The two devices implement the console's interface, and so a formatted text
    reaches both of them. *)

From S2P Require Import Prelude Bitmap Memory CString CStdlib Stdio StdioSpec.
From S2P Require Import Intq IntqTheorems Vga Serial Console.

Local Open Scope Z_scope.

(** ** The devices *)

(** The display, over memory [m] and with [p] on its paper before. *)
#[export] Instance display_device : Device display := vga_putc false.

Definition display_text (m : mem) (p : paper) (d : display) (t : list Z) : Prop :=
  mapped m FB 4000 ∧ paper_ok p ∧ drawn m d (foldl type_on p t).

Lemma paper_ok_text p t : paper_ok p → paper_ok (foldl type_on p t).
Proof. revert p. induction t as [|c t IH]; intros p Hp; [done|]. by apply IH, paper_ok_type. Qed.

#[export] Instance display_laws m p : DeviceLaws display (display_text m p).
Proof.
  intros d t c (Hm & Hp & Hd) Hc. destruct (vga_putc_ok m false d _ c Hm (paper_ok_text p t Hp) Hd Hc) as (d' & E & Hd' & _).
  exists d'. split; [exact E|]. split; [done|]. split; [done|]. by rewrite foldl_app.
Qed.

(** The serial port with interrupts off, its chip ready at least once in [fuel] reads. *)
Section port.
Context (lsr : nat → Z) (fuel : nat) (Hready : ∀ n, ∃ k, (k < fuel)%nat ∧ Z.land (lsr (n + k)%nat) LSR_THRE ≠ 0).

#[local] Instance port_device : Device serial := serial_putc lsr fuel.

Definition port_text (w t0 : list Z) (s : serial) (t : list Z) : Prop := running w s ∧ sent (txq s) = t0 ++ t.

#[local] Instance port_laws w t0 : DeviceLaws serial (port_text w t0).
Proof using Hready.
  intros s t c [Hr Hs] Hc. destruct (putc_off_ok lsr (λ _, 0) w fuel c s Hr Hready) as (s' & E & Hr' & Hs'). exists s'. split; [exact E|].
  split; [done|]. by rewrite Hs', Hs, app_assoc.
Qed.

End port.

(** Memory with the format "n=%d\n". *)
Definition demo_format : mem := write 1000 [110; 61; 37; 100; 10; 0] ∅.

