(* ===== verification/Ata.v ===== *)
(** * An ATA channel

    The disks that devices/ide.c drives, as the ATA-3 standard describes them: two
    drives, of which one is selected, with a file of registers that both share.
    A command keeps the channel busy for some reads of its status
    ([delay], by the number of the command); data moves in words of 16 bits.  A register that is
    read while no drive is selected has the value [floating].  Registers are
    named by their offset from the channel's first port. *)

From S2P Require Import Prelude.

Local Open Scope Z_scope.

(** A drive: its sectors of 512 bytes, and what it says of itself. *)
Record drive := Drive { sectors : gmap Z (list Z); identity : list Z }.

(** The data that the channel is ready to move, and to which sector. *)
Inductive transfer := NoData | FromDisk (words : list Z) | ToDisk (sector : Z) (words : list Z).

Record ata := Ata {
  error : Z;
  nsect : Z;
  lbal : Z;
  lbam : Z;
  lbah : Z;
  device : Z;
  busy : nat;                   (** reads of the status that will find it busy *)
  xfer : transfer;
  irq : bool;                   (** an interrupt follows the end of the command *)
  drives : Z → option drive;
  commands : nat;
}.

Abbreviation HW := (ST ata).

(** 512 bytes as words, and back. *)
Fixpoint to_words (bs : list Z) : list Z :=
  match bs with lo :: hi :: bs => lo + 256 * hi :: to_words bs | _ => [] end.
Definition to_bytes (ws : list Z) : list Z := ws ≫= λ w, [w `mod` 256; w / 256].

Definition selected (h : ata) : Z := (device h / 16) `mod` 2.
Definition lba (h : ata) : Z := lbal h + 256 * lbam h + 65536 * lbah h + 16777216 * (device h `mod` 16).

Section channel.
Context (delay : nat → nat) (floating : Z).

Definition status (h : ata) : Z :=
  match drives h (selected h) with
  | None => floating
  | Some _ => if decide (busy h ≠ 0%nat) then 128 else 64 + match xfer h with NoData => 0 | _ => 8 end
  end.

(** Registers 1 to 5 are read back; 7 and 0x206 are the status, and reading it
    passes time.  Reading 7 after the end of a command takes its interrupt back. *)
Definition inb (r : Z) : HW Z :=
  h ← st_get;
  if decide (r = 7 ∨ r = 518) then
    st_modify (λ h, Ata (error h) (nsect h) (lbal h) (lbam h) (lbah h) (device h) (pred (busy h)) (xfer h)
      (if decide (r = 7 ∧ busy h = 0%nat) then false else irq h) (drives h) (commands h));;
    mret (status h)
  else
    match drives h (selected h) with
    | None => mret floating
    | Some _ =>
        mret (if decide (r = 1) then error h else if decide (r = 2) then nsect h else if decide (r = 3) then lbal h
              else if decide (r = 4) then lbam h else if decide (r = 5) then lbah h else 0)
    end.

(** A command is taken by the drive that is selected. *)
Definition command (c : Z) (h : ata) : ata :=
  let start x i := Ata (error h) (nsect h) (lbal h) (lbam h) (lbah h) (device h) (delay (commands h)) x i (drives h) (S (commands h)) in
  match drives h (selected h) with
  | None => h
  | Some d =>
      if decide (c = 32) then
        match sectors d !! lba h with Some bs => start (FromDisk (to_words bs)) true | None => start NoData true end
      else if decide (c = 48) then
        match sectors d !! lba h with Some _ => start (ToDisk (lba h) []) false | None => start NoData true end
      else if decide (c = 236) then start (FromDisk (to_words (identity d))) true
      else h
  end.

Definition outb (r v : Z) : HW () :=
  st_modify (λ h,
    let '(Ata e n l m hi d b x i dr c) := h in
    if decide (r = 2) then Ata e v l m hi d b x i dr c
    else if decide (r = 3) then Ata e n v m hi d b x i dr c
    else if decide (r = 4) then Ata e n l v hi d b x i dr c
    else if decide (r = 5) then Ata e n l m v d b x i dr c
    else if decide (r = 6) then Ata e n l m hi v b x i dr c
    else if decide (r = 7) then command v h
    else if decide (r = 518) then
      (if Z.testbit v 2 then Ata 1 1 1 0 0 0 (delay c) NoData false dr (S c) else h)
    else h).

(** The data register, one word. *)
Definition inw : HW Z :=
  h ← st_get;
  match xfer h with
  | FromDisk (w :: ws) =>
      st_modify (λ h, Ata (error h) (nsect h) (lbal h) (lbam h) (lbah h) (device h) (busy h)
        (match ws with [] => NoData | _ => FromDisk ws end) (irq h) (drives h) (commands h));;
      mret w
  | _ => mret floating
  end.

Definition store_sector (d sector : Z) (bs : list Z) (drives : Z → option drive) : Z → option drive := λ i,
  if decide (i = d) then (λ x, Drive (<[sector := bs]> (sectors x)) (identity x)) <$> drives i else drives i.

Definition outw (w : Z) : HW () :=
  st_modify (λ h,
    match xfer h with
    | ToDisk s ws =>
        if decide (length ws = 255%nat) then
          Ata (error h) (nsect h) (lbal h) (lbam h) (lbah h) (device h) (delay (commands h)) NoData true
            (store_sector (selected h) s (to_bytes (ws ++ [w])) (drives h)) (S (commands h))
        else Ata (error h) (nsect h) (lbal h) (lbam h) (lbah h) (device h) (busy h) (ToDisk s (ws ++ [w])) (irq h) (drives h) (commands h)
    | _ => h
    end).

(** Time passes until the command that is running ends and interrupts; false if
    none will. *)
Definition interrupt : HW bool :=
  h ← st_get;
  if irq h then
    st_modify (λ h, Ata (error h) (nsect h) (lbal h) (lbam h) (lbah h) (device h) 0 (xfer h) false (drives h) (commands h));;
    mret true
  else mret false.
End channel.
