(* ===== verification/Ide.v ===== *)
(** * devices/ide.c: the disk driver

    One channel with its two disks, on the hardware of Ata.v: detecting and
    identifying disks, and reading and writing sectors.  A sector is a list of 512
    bytes.  The thread that waits for the completion semaphore is woken by the
    interrupt handler, which runs when the hardware interrupts.  The pauses
    (timer_usleep and the like) only let time pass.  Console output is left
    out. *)

From Stdlib Require Import String.
From S2P Require Import Prelude Bitmap Inode Memory CStdlib Stdio StdioSpec Ustar Block Partition Ata.

Local Open Scope Z_scope.

(** Registers, by their offset. *)
Definition reg_data : Z := 0.
Definition reg_error : Z := 1.
Definition reg_nsect : Z := 2.
Definition reg_lbal : Z := 3.
Definition reg_lbam : Z := 4.
Definition reg_lbah : Z := 5.
Definition reg_device : Z := 6.
Definition reg_status : Z := 7.
Definition reg_command : Z := reg_status.
Definition reg_ctl : Z := 518.
Definition reg_alt_status : Z := reg_ctl.

Definition STA_BSY : Z := 128.
Definition STA_DRDY : Z := 64.
Definition STA_DRQ : Z := 8.
Definition CTL_SRST : Z := 4.
Definition DEV_MBS : Z := 160.
Definition DEV_LBA : Z := 64.
Definition DEV_DEV : Z := 16.
Definition CMD_IDENTIFY_DEVICE : Z := 236.
Definition CMD_READ_SECTOR_RETRY : Z := 32.
Definition CMD_WRITE_SECTOR_RETRY : Z := 48.

(** struct channel with the is_ata members of its devices. *)
Record channel := Channel {
  hw : ata;
  chan_lock : Z;                 (** the holder *)
  expecting_interrupt : bool;
  completion_wait : Z;
  is_ata : Z → bool;
}.

Abbreviation IDE := (ST channel).

Definition on_hw {A} (c : HW A) : IDE A := λ s,
  match c (hw s) with
  | Ok (a, h) => Ok (a, Channel h (chan_lock s) (expecting_interrupt s) (completion_wait s) (is_ata s))
  | Err e => Err e
  end.

Definition set_is_ata (dev_no : Z) (v : bool) : IDE () :=
  st_modify (λ s, Channel (hw s) (chan_lock s) (expecting_interrupt s) (completion_wait s)
    (λ i, if decide (i = dev_no) then v else is_ata s i)).

Section driver.
Context (delay : nat → nat) (floating : Z).

Definition inb (r : Z) : IDE Z := on_hw (Ata.inb floating r).
Definition outb (r v : Z) : IDE () := on_hw (Ata.outb delay r (v `mod` 256)).

(** [n] turns are left. *)
Fixpoint wait_until_idle_loop (n : nat) : IDE () :=
  match n with
  | O => mret tt
  | S n => st ← inb reg_status; if decide (Z.land st (Z.lor STA_BSY STA_DRQ) = 0) then mret tt else wait_until_idle_loop n
  end.
Definition wait_until_idle : IDE () := wait_until_idle_loop 1000.

Fixpoint wait_while_busy_loop (n : nat) : IDE bool :=
  match n with
  | O => mret false
  | S n =>
      st ← inb reg_alt_status;
      if decide (Z.land st STA_BSY = 0) then st ← inb reg_alt_status; mret (bool_decide (Z.land st STA_DRQ ≠ 0))
      else wait_while_busy_loop n
  end.
Definition wait_while_busy : IDE bool := wait_while_busy_loop 3000.

Definition select_device (dev_no : Z) : IDE () :=
  let dev := DEV_MBS in
  let dev := if decide (dev_no = 1) then Z.lor dev DEV_DEV else dev in
  outb reg_device dev;;
  _ ← inb reg_alt_status;
  mret tt.

Definition select_device_wait (dev_no : Z) : IDE () := wait_until_idle;; select_device dev_no;; wait_until_idle.

Definition select_sector (dev_no sec_no : Z) : IDE () :=
  ASSERT (bool_decide (sec_no < Z.shiftl 1 28));;
  select_device_wait dev_no;;
  outb reg_nsect 1;;
  outb reg_lbal sec_no;;
  outb reg_lbam (Z.shiftr sec_no 8);;
  outb reg_lbah (Z.shiftr sec_no 16);;
  outb reg_device (Z.lor (Z.lor (Z.lor DEV_MBS DEV_LBA) (if decide (dev_no = 1) then DEV_DEV else 0)) (Z.shiftr sec_no 24)).

(** [level] is true when interrupts are on. *)
Definition issue_pio_command (level : bool) (command : Z) : IDE () :=
  ASSERT level;;
  st_modify (λ s, Channel (hw s) (chan_lock s) true (completion_wait s) (is_ata s));;
  outb reg_command command.

Fixpoint insw (n : nat) : IDE (list Z) :=
  match n with O => mret [] | S n => w ← on_hw (inw floating); ws ← insw n; mret (w :: ws) end.
Fixpoint outsw (ws : list Z) : IDE () :=
  match ws with [] => mret tt | w :: ws => on_hw (outw delay w);; outsw ws end.

Definition input_sector : IDE (list Z) := ws ← insw (Z.to_nat (BLOCK_SECTOR_SIZE / 2)); mret (to_bytes ws).
Definition output_sector (sector : list Z) : IDE () := outsw (to_words sector).

(** The branch of interrupt_handler for this channel's vector. *)
Definition interrupt_handler : IDE () :=
  s ← st_get;
  if expecting_interrupt s then
    _ ← inb reg_status;
    st_modify (λ s, Channel (hw s) (chan_lock s) (expecting_interrupt s) (completion_wait s + 1) (is_ata s))
  else mret tt.

(** sema_down (&c->completion_wait): the thread waits for the interrupt; without
    one it never returns. *)
Definition sema_down : IDE () :=
  s ← st_get;
  (if decide (completion_wait s = 0) then
     i ← on_hw interrupt;
     if (i : bool) then interrupt_handler else st_fail EFuel
   else mret tt);;
  st_modify (λ s, Channel (hw s) (chan_lock s) (expecting_interrupt s) (completion_wait s - 1) (is_ata s)).

(** The lock, taken when it is free. *)
Definition lock_acquire (cur : Z) : IDE () :=
  s ← st_get;
  if decide (chan_lock s = NULL) then st_modify (λ s, Channel (hw s) cur (expecting_interrupt s) (completion_wait s) (is_ata s))
  else st_fail EFuel.
Definition lock_release (cur : Z) : IDE () :=
  s ← st_get;
  ASSERT (bool_decide (chan_lock s = cur));;
  st_modify (λ s, Channel (hw s) NULL (expecting_interrupt s) (completion_wait s) (is_ata s)).

Definition ide_read (cur dev_no sec_no : Z) : IDE (list Z) :=
  lock_acquire cur;;
  select_sector dev_no sec_no;;
  issue_pio_command true CMD_READ_SECTOR_RETRY;;
  sema_down;;
  ok ← wait_while_busy;
  if (ok : bool) then
    buffer ← input_sector;
    lock_release cur;;
    mret buffer
  else st_fail EPanic.

Definition ide_write (cur dev_no sec_no : Z) (buffer : list Z) : IDE () :=
  lock_acquire cur;;
  select_sector dev_no sec_no;;
  issue_pio_command true CMD_WRITE_SECTOR_RETRY;;
  ok ← wait_while_busy;
  if (ok : bool) then
    output_sector buffer;;
    sema_down;;
    lock_release cur
  else st_fail EPanic.

(** ** Detection *)

(** The pattern that a drive that is present keeps. *)
Definition detect (dev_no : Z) : IDE bool :=
  select_device dev_no;;
  outb reg_nsect 85;; outb reg_lbal 170;;
  outb reg_nsect 170;; outb reg_lbal 85;;
  outb reg_nsect 85;; outb reg_lbal 170;;
  n ← inb reg_nsect;
  if decide (n = 85) then l ← inb reg_lbal; mret (bool_decide (l = 170)) else mret false.

Fixpoint signature_loop (n : nat) : IDE () :=
  match n with
  | O => mret tt
  | S n =>
      ns ← inb reg_nsect;
      if decide (ns = 1) then l ← inb reg_lbal; if decide (l = 1) then mret tt else signature_loop n
      else signature_loop n
  end.

Definition reset_channel : IDE () :=
  present0 ← detect 0;
  present1 ← detect 1;
  outb reg_ctl 0;;
  outb reg_ctl CTL_SRST;;
  outb reg_ctl 0;;
  (if (present0 : bool) then select_device 0;; _ ← wait_while_busy; mret tt else mret tt);;
  (if (present1 : bool) then select_device 1;; signature_loop 3000;; _ ← wait_while_busy; mret tt else mret tt).

Definition check_device_type (dev_no : Z) : IDE bool :=
  select_device dev_no;;
  error ← inb reg_error;
  lbam ← inb reg_lbam;
  lbah ← inb reg_lbah;
  status ← inb reg_status;
  if decide ((error ≠ 1 ∧ (error ≠ 129 ∨ dev_no = 1)) ∨ Z.land status STA_DRDY = 0 ∨ Z.land status STA_BSY ≠ 0) then
    set_is_ata dev_no false;; mret (bool_decide (error ≠ 129))
  else
    set_is_ata dev_no (bool_decide (lbam = 0 ∧ lbah = 0 ∨ lbam = 60 ∧ lbah = 195));; mret true.

(** identify_ata_device, up to the registration: the capacity of a disk to
    register. *)
Definition identify_ata_device (dev_no : Z) : IDE (option Z) :=
  s ← st_get;
  ASSERT (is_ata s dev_no);;
  select_device_wait dev_no;;
  issue_pio_command true CMD_IDENTIFY_DEVICE;;
  sema_down;;
  ok ← wait_while_busy;
  if (ok : bool) then
    id ← input_sector;
    let capacity := le_word (slice 120 4 id) in
    if decide (1024 * 1024 * 1024 / BLOCK_SECTOR_SIZE ≤ capacity) then set_is_ata dev_no false;; mret None
    else mret (Some capacity)
  else set_is_ata dev_no false;; mret None.

(** The part of ide_init for one channel: the capacity of each disk. *)
Definition init_channel : IDE (list (option Z)) :=
  reset_channel;;
  slave ← check_device_type 0;
  (if (slave : bool) then _ ← check_device_type 1; mret tt else mret tt);;
  s ← st_get;
  c0 ← (if is_ata s 0 then identify_ata_device 0 else mret None);
  s ← st_get;
  c1 ← (if is_ata s 1 then identify_ata_device 1 else mret None);
  mret [c0; c1].
End driver.

(** ** Registration *)

(** The end of identify_ata_device: the disk and its partitions become block
    devices. *)
Definition register_disk (fuel : nat) (name : string) (disk capacity : Z) : BM () :=
  b ← block_register (str name) BLOCK_RAW capacity (Disk disk);
  partition_scan fuel b.

(** ** Strings *)

Fixpoint swap_pairs (s : list Z) : list Z :=
  match s with a :: b :: s => b :: a :: swap_pairs s | _ => s end.

(** The loop that looks for the end: [n] is the length that is left. *)
Fixpoint trim_loop (n : nat) (s : list Z) : nat :=
  match n with
  | O => 0
  | S n' =>
      match s !! n' with
      | Some c => if decide (c ≠ 0 ∧ isspace c = false) then n else trim_loop n' s
      | None => trim_loop n' s
      end
  end.

Definition descramble_ata_string (s : list Z) : list Z :=
  let s := swap_pairs s in
  take (trim_loop (length s - 1) s) s.
