(* ===== verification/IdeTheorems.v ===== *)
(** * Theorems on the disk driver *)

From S2P Require Import Prelude Bitmap Inode Memory CStdlib Stdio StdioSpec Ustar Block Partition Ata Ide.

Local Open Scope Z_scope.

(** ** Words and bytes *)

Lemma words_bytes ws : Forall (λ w, 0 ≤ w < 65536) ws → to_words (to_bytes ws) = ws.
Proof. induction 1 as [|w ws Hw _ IH]; [done|]. unfold to_bytes in *. cbn. rewrite IH. f_equal. dlia. Qed.

Lemma bytes_words n bs : length bs = (2 * n)%nat → Forall (λ b, 0 ≤ b < 256) bs →
  to_bytes (to_words bs) = bs ∧ length (to_words bs) = n ∧ Forall (λ w, 0 ≤ w < 65536) (to_words bs).
Proof.
  revert bs. induction n as [|n IH]; intros bs Hl Hb.
  { apply length_zero_iff_nil in Hl as ->. done. }
  destruct bs as [|lo [|hi bs]]; [done|cbn in Hl; lia|]. inversion Hb as [|?? Hlo Hb1]; subst. inversion Hb1 as [|?? Hhi Hb2]; subst.
  destruct (IH bs) as (E & El & Hf); [cbn in Hl; lia|done|]. unfold to_bytes in *. cbn [to_words mbind list_bind app length]. rewrite E, El.
  split_and!; [|done|constructor; [lia|done]]. f_equal; [dlia|f_equal; dlia].
Qed.

(** ** The channel at rest *)

Record at_rest (s : channel) : Prop := {
  ar_busy : busy (hw s) = 0%nat;
  ar_xfer : xfer (hw s) = NoData;
  ar_irq : irq (hw s) = false;
  ar_wait : completion_wait s = 0;
  ar_lock : chan_lock s = NULL;
}.

Definition with_hw (h : ata) (s : channel) : channel := Channel h (chan_lock s) (expecting_interrupt s) (completion_wait s) (is_ata s).

(** [h] with other values of the registers that select a sector. *)
Definition with_regs (n l m hi d : Z) (h : ata) : ata :=
  Ata (error h) n l m hi d (busy h) (xfer h) (irq h) (drives h) (commands h).

Section driver.
Context (delay : nat → nat) (floating : Z).

(** Reading the status of an idle channel changes nothing. *)
Lemma inb_idle r s : busy (hw s) = 0%nat → irq (hw s) = false → r = 7 ∨ r = 518 →
  inb floating r s = Ok (status floating (hw s), s).
Proof.
  intros Hb Hi Hr. unfold inb, on_hw, Ata.inb. change (st_get ≫= ?k) with (λ s, k s s). cbn beta. rewrite decide_True by done.
  destruct s as [h l e c a], h. cbn in *. subst. unfold mbind, ST_bind, st_modify, mret, ST_ret. cbn. by case_decide.
Qed.

Lemma wait_idle_ok n s : busy (hw s) = 0%nat → irq (hw s) = false → wait_until_idle_loop floating n s = Ok ((), s).
Proof.
  intros Hb Hi. induction n as [|n IH]; [done|]. cbn [wait_until_idle_loop]. erewrite st_bind_ok by (apply inb_idle; auto). by case_decide.
Qed.

Lemma outb_nsect v s : outb delay reg_nsect v s =
  Ok ((), with_hw (with_regs (v `mod` 256) (lbal (hw s)) (lbam (hw s)) (lbah (hw s)) (device (hw s)) (hw s)) s).
Proof. by destruct s as [[] ? ? ? ?]. Qed.
Lemma outb_lbal v s : outb delay reg_lbal v s =
  Ok ((), with_hw (with_regs (nsect (hw s)) (v `mod` 256) (lbam (hw s)) (lbah (hw s)) (device (hw s)) (hw s)) s).
Proof. by destruct s as [[] ? ? ? ?]. Qed.
Lemma outb_lbam v s : outb delay reg_lbam v s =
  Ok ((), with_hw (with_regs (nsect (hw s)) (lbal (hw s)) (v `mod` 256) (lbah (hw s)) (device (hw s)) (hw s)) s).
Proof. by destruct s as [[] ? ? ? ?]. Qed.
Lemma outb_lbah v s : outb delay reg_lbah v s =
  Ok ((), with_hw (with_regs (nsect (hw s)) (lbal (hw s)) (lbam (hw s)) (v `mod` 256) (device (hw s)) (hw s)) s).
Proof. by destruct s as [[] ? ? ? ?]. Qed.
Lemma outb_device v s : outb delay reg_device v s =
  Ok ((), with_hw (with_regs (nsect (hw s)) (lbal (hw s)) (lbam (hw s)) (lbah (hw s)) (v `mod` 256) (hw s)) s).
Proof. by destruct s as [[] ? ? ? ?]. Qed.

Definition select_byte (d : Z) : Z := if decide (d = 1) then 176 else 160.

Lemma select_device_ok d s : busy (hw s) = 0%nat → irq (hw s) = false →
  select_device delay floating d s =
    Ok ((), with_hw (with_regs (nsect (hw s)) (lbal (hw s)) (lbam (hw s)) (lbah (hw s)) (select_byte d) (hw s)) s).
Proof.
  intros Hb Hi. unfold select_device. erewrite st_bind_ok by apply outb_device.
  erewrite st_bind_ok by (apply inb_idle; auto). unfold select_byte. by case_decide.
Qed.

(** The bytes of a sector's number, and the drive, in the registers. *)
Lemma sector_bytes d i : 0 ≤ i < 2^28 → 0 ≤ d < 2 →
  let dv := Z.lor (Z.lor (Z.lor DEV_MBS DEV_LBA) (if decide (d = 1) then DEV_DEV else 0)) (Z.shiftr i 24) `mod` 256 in
  i `mod` 256 + 256 * (Z.shiftr i 8 `mod` 256) + 65536 * (Z.shiftr i 16 `mod` 256) + 16777216 * (dv `mod` 16) = i ∧ (dv / 16) `mod` 2 = d.
Proof.
  intros Hi Hd. rewrite !Z.shiftr_div_pow2 by lia. change (2^8) with 256. change (2^16) with 65536. change (2^24) with 16777216.
  assert (H : Forall (λ x, Forall (λ d, Z.lor (Z.lor (Z.lor DEV_MBS DEV_LBA) (if decide (d = 1) then DEV_DEV else 0)) x = 224 + 16 * d + x) [0; 1])
    (seqZ 0 16)) by compute_hyp.
  rewrite Forall_forall in H. specialize (H (i / 16777216) ltac:(apply elem_of_seqZ; dlia)). rewrite Forall_forall in H.
  rewrite H by (assert (d = 0 ∨ d = 1) as [->| ->] by lia; [by left|right; by left]). cbv zeta. clear H. split; dlia.
Qed.

(** Sector [i] of drive [d] is selected. *)
Lemma select_sector_ok d i s : busy (hw s) = 0%nat → irq (hw s) = false → 0 ≤ i < 2^28 → 0 ≤ d < 2 →
  ∃ h, select_sector delay floating d i s = Ok ((), with_hw h s) ∧ lba h = i ∧ selected h = d ∧
    busy h = 0%nat ∧ xfer h = xfer (hw s) ∧ irq h = false ∧ drives h = drives (hw s).
Proof.
  intros Hb Hirq Hi Hd. unfold select_sector.
  erewrite st_bind_ok by (apply assert_ok; rewrite bool_decide_true; [done|]; change (Z.shiftl 1 28) with (2^28); lia).
  unfold select_device_wait, wait_until_idle. erewrite st_bind_ok.
  2: { erewrite st_bind_ok by (by apply wait_idle_ok). erewrite st_bind_ok by (by apply select_device_ok). by apply wait_idle_ok. }
  erewrite st_bind_ok by apply outb_nsect. erewrite st_bind_ok by apply outb_lbal.
  erewrite st_bind_ok by apply outb_lbam. erewrite st_bind_ok by apply outb_lbah. rewrite outb_device.
  eexists. split; [reflexivity|]. unfold lba, selected. cbn [lbal lbam lbah device with_regs busy xfer irq drives hw with_hw].
  destruct (sector_bytes d i Hi Hd) as [E1 E2]. cbv zeta in E1, E2. rewrite E1, E2. done.
Qed.

(** ** Commands *)

(** The commands of a read and of a write. *)
Lemma sema_down_ok s h : hw s = h → irq h = true → expecting_interrupt s = true → completion_wait s = 0 →
  sema_down floating s = Ok ((), with_hw (Ata (error h) (nsect h) (lbal h) (lbam h) (lbah h) (device h) 0 (xfer h) false (drives h) (commands h)) s).
Proof.
  intros <- Hi He Hc. unfold sema_down. change (st_get ≫= ?k) with (λ s, k s s). cbn beta. rewrite decide_True by done.
  erewrite st_bind_ok.
  2: { erewrite st_bind_ok.
       2: { unfold on_hw, interrupt. change (st_get ≫= ?k) with (λ s, k s s). cbn beta. rewrite Hi. reflexivity. }
       cbv iota. unfold interrupt_handler. change (st_get ≫= ?k) with (λ s, k s s). cbn beta. cbn [expecting_interrupt]. rewrite He.
       erewrite st_bind_ok by (by apply inb_idle; [..|left]). reflexivity. }
  unfold st_modify, with_hw. cbn. by rewrite Hc, He.
Qed.

Definition with_busy (b : nat) (h : ata) : ata :=
  Ata (error h) (nsect h) (lbal h) (lbam h) (lbah h) (device h) b (xfer h) (irq h) (drives h) (commands h).

Lemma inb_alt s : inb floating reg_alt_status s = Ok (status floating (hw s), with_hw (with_busy (pred (busy (hw s))) (hw s)) s).
Proof. by destruct s as [[] ? ? ? ?]. Qed.

Lemma status_busy h : busy h ≠ 0%nat → is_Some (drives h (selected h)) → status floating h = 128.
Proof. intros Hb [dr Hd]. unfold status. rewrite Hd. by case_decide. Qed.

Lemma status_ready h : busy h = 0%nat → is_Some (drives h (selected h)) →
  status floating h = match xfer h with NoData => 64 | _ => 72 end.
Proof. intros Hb [dr Hd]. unfold status. rewrite Hd, Hb. case_decide; [done|]. by destruct (xfer h). Qed.

(** The status is read until the channel is not busy. *)
Lemma wait_busy_ok n s : (busy (hw s) < n)%nat → is_Some (drives (hw s) (selected (hw s))) →
  wait_while_busy_loop floating n s = Ok (match xfer (hw s) with NoData => false | _ => true end, with_hw (with_busy 0 (hw s)) s).
Proof.
  revert s. induction n as [|n IH]; intros s Hn Hd; [lia|]. cbn [wait_while_busy_loop]. erewrite st_bind_ok by apply inb_alt.
  destruct (decide (busy (hw s) = 0%nat)) as [Eb|Eb].
  - rewrite decide_True by (rewrite status_ready by done; by destruct (xfer (hw s))).
    erewrite st_bind_ok by apply inb_alt. cbn [hw with_hw]. rewrite status_ready by (cbn; try rewrite Eb; done).
    rewrite Eb. cbn. by destruct (xfer (hw s)).
  - rewrite decide_False by (by rewrite status_busy). rewrite IH; [done|cbn; lia|done].
Qed.

(** A channel that stays busy. *)
Lemma wait_busy_timeout n s : (n ≤ busy (hw s))%nat → is_Some (drives (hw s) (selected (hw s))) →
  ∃ s', wait_while_busy_loop floating n s = Ok (false, s').
Proof.
  revert s. induction n as [|n IH]; intros s Hn Hd; [by eexists|]. cbn [wait_while_busy_loop]. erewrite st_bind_ok by apply inb_alt.
  rewrite decide_False by (rewrite status_busy by (done || lia); done). apply IH; [cbn; lia|done].
Qed.

Lemma outb_command v s : outb delay reg_command v s = Ok ((), with_hw (command delay (v `mod` 256) (hw s)) s).
Proof. by destruct s as [[] ? ? ? ?]. Qed.

(** ** Data *)

Lemma insw_ok ws s : xfer (hw s) = match ws with [] => NoData | _ => FromDisk ws end →
  insw floating (length ws) s =
    Ok (ws, with_hw (Ata (error (hw s)) (nsect (hw s)) (lbal (hw s)) (lbam (hw s)) (lbah (hw s)) (device (hw s)) (busy (hw s)) NoData
      (irq (hw s)) (drives (hw s)) (commands (hw s))) s).
Proof.
  revert s. induction ws as [|w ws IH]; intros s Hx; cbn [insw length].
  { destruct s as [[] ? ? ? ?]. cbn in *. by subst. }
  erewrite st_bind_ok.
  2: { unfold on_hw, inw. change (st_get ≫= ?k) with (λ s, k s s). cbn beta. rewrite Hx. reflexivity. }
  erewrite st_bind_ok by (by apply IH). reflexivity.
Qed.

Lemma outsw_ok i ws got s : xfer (hw s) = ToDisk i got → (length got + length ws = 256)%nat → ws ≠ [] →
  outsw delay ws s =
    Ok ((), with_hw (Ata (error (hw s)) (nsect (hw s)) (lbal (hw s)) (lbam (hw s)) (lbah (hw s)) (device (hw s)) (delay (commands (hw s))) NoData
      true (store_sector (selected (hw s)) i (to_bytes (got ++ ws)) (drives (hw s))) (S (commands (hw s)))) s).
Proof.
  revert got s. induction ws as [|w ws IH]; intros got s Hx Hl Hne; [done|]. cbn [outsw length] in *.
  destruct (decide (length got = 255%nat)) as [E|E].
  - assert (ws = []) as -> by (apply length_zero_iff_nil; lia).
    erewrite st_bind_ok by (unfold on_hw, outw, st_modify; rewrite Hx, decide_True by done; reflexivity). reflexivity.
  - erewrite st_bind_ok by (unfold on_hw, outw, st_modify; rewrite Hx, decide_False by done; reflexivity).
    rewrite (IH (got ++ [w])); [|done|rewrite length_app; cbn; lia|intros ->; cbn in Hl; lia]. by rewrite <- app_assoc.
Qed.

(** ** Sectors *)

(** The part that a read and a write share: the lock is taken, the sector
    selected and the command issued. *)
Lemma issue_ok c cur d i s : at_rest s → 0 ≤ i < 2^28 → 0 ≤ d < 2 →
  ∃ h, (∀ A (k : IDE A), (lock_acquire cur;; select_sector delay floating d i;; issue_pio_command delay true c;; k) s =
      k (Channel (command delay (c `mod` 256) h) cur true 0 (is_ata s))) ∧
    lba h = i ∧ selected h = d ∧ busy h = 0%nat ∧ xfer h = NoData ∧ irq h = false ∧ drives h = drives (hw s).
Proof.
  intros [Hb Hx Hi Hw Hl] Hr Hd.
  destruct (select_sector_ok d i (Channel (hw s) cur (expecting_interrupt s) (completion_wait s) (is_ata s)) Hb Hi Hr Hd) as (h & E & Hh).
  exists h. split; [intros A k|destruct Hh as (?&?&?&Ex&?&?); rewrite Ex; done].
  erewrite st_bind_ok.
  2: { unfold lock_acquire. change (st_get ≫= ?k) with (λ s, k s s). cbn beta. rewrite decide_True by done. reflexivity. }
  erewrite st_bind_ok by exact E. erewrite st_bind_ok.
  2: { unfold issue_pio_command. erewrite st_bind_ok by (by apply assert_ok). erewrite st_bind_ok by reflexivity. apply outb_command. }
  cbn. by rewrite Hw.
Qed.

Lemma lock_release_ok cur s : chan_lock s = cur →
  lock_release cur s = Ok ((), Channel (hw s) NULL (expecting_interrupt s) (completion_wait s) (is_ata s)).
Proof.
  intros E. unfold lock_release. change (st_get ≫= ?k) with (λ s, k s s). cbn beta.
  erewrite st_bind_ok by (apply assert_ok; by rewrite bool_decide_true). reflexivity.
Qed.

(** [h] with a command that has just been taken. *)
Definition started (x : transfer) (i : bool) (h : ata) : ata :=
  Ata (error h) (nsect h) (lbal h) (lbam h) (lbah h) (device h) (delay (commands h)) x i (drives h) (S (commands h)).

Lemma command_read h dr : drives h (selected h) = Some dr →
  command delay (CMD_READ_SECTOR_RETRY `mod` 256) h =
    started (match sectors dr !! lba h with Some bs => FromDisk (to_words bs) | None => NoData end) true h.
Proof. intros E. unfold command. rewrite E, decide_True by done. by destruct (sectors dr !! lba h). Qed.

Lemma command_write h dr : drives h (selected h) = Some dr →
  command delay (CMD_WRITE_SECTOR_RETRY `mod` 256) h =
    match sectors dr !! lba h with Some _ => started (ToDisk (lba h) []) false h | None => started NoData true h end.
Proof. intros E. unfold command. rewrite E, decide_False, decide_True by done. by destruct (sectors dr !! lba h). Qed.

(** A sector that is there is read, and the drives keep their contents. *)
Lemma ide_read_ok cur d i s dr bs : at_rest s → 0 ≤ i < 2^28 → 0 ≤ d < 2 →
  drives (hw s) d = Some dr → sectors dr !! i = Some bs → length bs = 512%nat → Forall (λ b, 0 ≤ b < 256) bs →
  ∃ s', ide_read delay floating cur d i s = Ok (bs, s') ∧ at_rest s' ∧ drives (hw s') = drives (hw s).
Proof.
  intros Hs Hi Hd Hdr Hbs Hl Hf. destruct (bytes_words 256 bs Hl Hf) as (Eb & Ew & _).
  destruct (issue_ok CMD_READ_SECTOR_RETRY cur d i s) as (h & E & <- & <- & Hb & Hx & Hirq & Hds); [done..|].
  unfold ide_read. rewrite E. rewrite <- Hds in Hdr |- *. rewrite (command_read _ _ Hdr), Hbs.
  erewrite st_bind_ok by (by eapply sema_down_ok). unfold wait_while_busy.
  erewrite st_bind_ok by (apply wait_busy_ok; [cbn; lia|by exists dr]).
  cbn [hw with_hw xfer started]. unfold input_sector. erewrite st_bind_ok.
  2: { erewrite st_bind_ok; [reflexivity|]. change (Z.to_nat (BLOCK_SECTOR_SIZE / 2)) with 256%nat. rewrite <- Ew.
       apply insw_ok. cbn. destruct (to_words bs); [cbn in Ew; lia|done]. }
  erewrite st_bind_ok by (by apply lock_release_ok). rewrite Eb. eexists. split; [reflexivity|]. done.
Qed.

(** A sector that is there is written. *)
Lemma ide_write_ok cur d i s dr buffer : at_rest s → 0 ≤ i < 2^28 → 0 ≤ d < 2 → (∀ n, delay n < 3000)%nat →
  drives (hw s) d = Some dr → is_Some (sectors dr !! i) → length buffer = 512%nat → Forall (λ b, 0 ≤ b < 256) buffer →
  ∃ s', ide_write delay floating cur d i buffer s = Ok ((), s') ∧ at_rest s' ∧
    drives (hw s') = store_sector d i buffer (drives (hw s)).
Proof.
  intros Hs Hi Hd Hdel Hdr [bs Hbs] Hl Hf. destruct (bytes_words 256 buffer Hl Hf) as (Eb & Ew & _).
  destruct (issue_ok CMD_WRITE_SECTOR_RETRY cur d i s) as (h & E & <- & <- & Hb & Hx & Hirq & Hds); [done..|].
  unfold ide_write. rewrite E. rewrite <- Hds in Hdr |- *. rewrite (command_write _ _ Hdr), Hbs. unfold wait_while_busy.
  erewrite st_bind_ok by (apply wait_busy_ok; [cbn [hw started busy]; apply Hdel|by exists dr]).
  cbn [hw with_hw xfer started]. unfold output_sector. erewrite st_bind_ok.
  2: { apply (outsw_ok (lba h) _ []); [done|by rewrite Ew|]. intros En. by rewrite En in Ew. }
  erewrite st_bind_ok by (by eapply sema_down_ok). rewrite lock_release_ok by done. eexists. split; [reflexivity|].
  cbn [app]. rewrite Eb. done.
Qed.

(** A wait for data that will not come. *)
Lemma wait_no_data n s : xfer (hw s) = NoData → is_Some (drives (hw s) (selected (hw s))) →
  ∃ s', wait_while_busy_loop floating n s = Ok (false, s').
Proof.
  intros Hx Hd. destruct (decide (busy (hw s) < n)%nat) as [Hlt|Hge].
  - rewrite wait_busy_ok, Hx by done. by eexists.
  - apply wait_busy_timeout; [lia|done].
Qed.

Lemma no_data_panics {A} (k : IDE A) s : xfer (hw s) = NoData → is_Some (drives (hw s) (selected (hw s))) →
  (wait_while_busy floating ≫= λ ok : bool, if ok then k else st_fail EPanic) s = Err EPanic.
Proof. intros Hx Hd. destruct (wait_no_data 3000 s Hx Hd) as [s' E]. by erewrite st_bind_ok by exact E. Qed.

(** A sector that is not there, or whose number has more than 28 bits, stops the
    kernel. *)
Lemma select_sector_far d i s : 2^28 ≤ i → select_sector delay floating d i s = Err EPanic.
Proof.
  intros Hi. unfold select_sector. apply st_bind_err. rewrite bool_decide_false; [done|].
  change (Z.shiftl 1 28) with (2^28). lia.
Qed.

Lemma ide_read_missing cur d i s dr : at_rest s → 0 ≤ i → 0 ≤ d < 2 →
  drives (hw s) d = Some dr → (i < 2^28 → sectors dr !! i = None) → ide_read delay floating cur d i s = Err EPanic.
Proof.
  intros Hs Hi Hd Hdr Hn. unfold ide_read. destruct (decide (i < 2^28)) as [Hlt|Hge].
  - destruct (issue_ok CMD_READ_SECTOR_RETRY cur d i s) as (h & E & <- & <- & Hb & Hx & Hirq & Hds); [done..|].
    rewrite E. rewrite <- Hds in Hdr. rewrite (command_read _ _ Hdr), (Hn Hlt).
    erewrite st_bind_ok by (by eapply sema_down_ok).
    apply no_data_panics; [done|by exists dr].
  - erewrite st_bind_ok.
    2: { unfold lock_acquire. change (st_get ≫= ?k) with (λ s, k s s). cbn beta. rewrite decide_True by apply Hs. reflexivity. }
    apply st_bind_err, select_sector_far. lia.
Qed.

Lemma ide_write_missing cur d i s dr buffer : at_rest s → 0 ≤ i → 0 ≤ d < 2 →
  drives (hw s) d = Some dr → (i < 2^28 → sectors dr !! i = None) → ide_write delay floating cur d i buffer s = Err EPanic.
Proof.
  intros Hs Hi Hd Hdr Hn. unfold ide_write. destruct (decide (i < 2^28)) as [Hlt|Hge].
  - destruct (issue_ok CMD_WRITE_SECTOR_RETRY cur d i s) as (h & E & <- & <- & Hb & Hx & Hirq & Hds); [done..|].
    rewrite E. rewrite <- Hds in Hdr. rewrite (command_write _ _ Hdr), (Hn Hlt).
    apply no_data_panics; [done|by exists dr].
  - erewrite st_bind_ok.
    2: { unfold lock_acquire. change (st_get ≫= ?k) with (λ s, k s s). cbn beta. rewrite decide_True by apply Hs. reflexivity. }
    apply st_bind_err, select_sector_far. lia.
Qed.

(** ** The driver and the block layer's disks *)

(** The two drives of the channel are disks [base] and [base + 1] of the block
    layer, with sectors of 512 bytes. *)
Record attached (base : Z) (s : channel) (m : blocks) : Prop := {
  att_disks : ∀ d, 0 ≤ d < 2 → sectors <$> drives (hw s) d = disks m !! (base + d);
  att_sectors : ∀ d ss i bs, 0 ≤ d < 2 → disks m !! (base + d) = Some ss → ss !! i = Some bs →
    0 ≤ i < 2^28 ∧ length bs = 512%nat ∧ Forall (λ b, 0 ≤ b < 256) bs;
}.

(** What a caller may ask of one drive. *)
Inductive request := ReadSector (d i : Z) | WriteSector (d i : Z) (buffer : list Z).

(** Any sector may be read; a sector of the disk may be written. *)
Definition valid_request (base : Z) (m : blocks) (r : request) : Prop :=
  match r with
  | ReadSector d i => 0 ≤ d < 2 ∧ 0 ≤ i ∧ is_Some (disks m !! (base + d))
  | WriteSector d i buffer =>
      0 ≤ d < 2 ∧ is_Some (disks m !! (base + d) ≫= (.!! i)) ∧ length buffer = 512%nat ∧ Forall (λ b, 0 ≤ b < 256) buffer
  end.

Definition driver_step (cur : Z) (r : request) : IDE (list Z) :=
  match r with
  | ReadSector d i => ide_read delay floating cur d i
  | WriteSector d i buffer => ide_write delay floating cur d i buffer;; mret []
  end.
Definition disk_step (base : Z) (r : request) : BM (list Z) :=
  match r with
  | ReadSector d i => disk_read (base + d) i
  | WriteSector d i buffer => disk_write (base + d) i buffer;; mret []
  end.

Fixpoint driver_run (cur : Z) (rs : list request) : IDE (list (list Z)) :=
  match rs with [] => mret [] | r :: rs => o ← driver_step cur r; os ← driver_run cur rs; mret (o :: os) end.
Fixpoint disk_run (base : Z) (rs : list request) : BM (list (list Z)) :=
  match rs with [] => mret [] | r :: rs => o ← disk_step base r; os ← disk_run base rs; mret (o :: os) end.

Lemma attached_write base s s' m m' d i buffer ss : attached base s m → 0 ≤ d < 2 → disks m !! (base + d) = Some ss → is_Some (ss !! i) →
  length buffer = 512%nat → Forall (λ b, 0 ≤ b < 256) buffer →
  drives (hw s') = store_sector d i buffer (drives (hw s)) → disks m' = <[base + d := <[i := buffer]> ss]> (disks m) →
  attached base s' m'.
Proof.
  intros [Ha Hw] Hd Hss [bs Hbs] Hl Hf Es Em. split.
  - intros e He. rewrite Es, Em. unfold store_sector. case_decide as Ee.
    + subst e. rewrite lookup_insert_eq. specialize (Ha d Hd). rewrite Hss in Ha. destruct (drives (hw s) d); [|done].
      cbn in *. by injection Ha as ->.
    + rewrite lookup_insert_ne by lia. by apply Ha.
  - intros e ss' j bs' He. rewrite Em. destruct (decide (e = d)) as [->|Hne].
    + rewrite lookup_insert_eq. intros [= <-]. destruct (decide (j = i)) as [->|Hj].
      * rewrite lookup_insert_eq. intros [= <-]. split; [by eapply Hw|done].
      * rewrite lookup_insert_ne by done. by eapply Hw.
    + rewrite lookup_insert_ne by lia. by apply Hw.
Qed.

Lemma valid_request_write base m m' d i buffer ss r : disks m !! (base + d) = Some ss → is_Some (ss !! i) →
  disks m' = <[base + d := <[i := buffer]> ss]> (disks m) → valid_request base m r → valid_request base m' r.
Proof.
  intros Hss Hi Em. assert (Hk : ∀ e, is_Some (disks m !! e) → is_Some (disks m' !! e)).
  { intros e He. rewrite Em. destruct (decide (e = base + d)) as [->|]; [by rewrite lookup_insert_eq|by rewrite lookup_insert_ne]. }
  assert (Hs : ∀ e j, is_Some (disks m !! e ≫= (.!! j)) → is_Some (disks m' !! e ≫= (.!! j))).
  { intros e j. rewrite Em. destruct (decide (e = base + d)) as [->|]; [|by rewrite lookup_insert_ne].
    rewrite lookup_insert_eq, Hss. cbn. destruct (decide (j = i)) as [->|]; [by rewrite lookup_insert_eq|by rewrite lookup_insert_ne]. }
  destruct r; cbn; naive_solver.
Qed.

(** One request. *)
Lemma step_refines base cur r s m : (∀ n, delay n < 3000)%nat → at_rest s → attached base s m → valid_request base m r →
  match disk_step base r m with
  | Ok (o, m') => ∃ s', driver_step cur r s = Ok (o, s') ∧ at_rest s' ∧ attached base s' m' ∧
      ∀ r', valid_request base m r' → valid_request base m' r'
  | Err _ => driver_step cur r s = Err EPanic
  end.
Proof.
  intros Hdel Hs Ha Hv. destruct r as [d i|d i buffer]; cbn [disk_step driver_step].
  - destruct Hv as (Hd & Hi & [ss Hss]). pose proof (att_disks _ _ _ Ha d Hd) as Hx. rewrite Hss in Hx.
    destruct (drives (hw s) d) as [dr|] eqn:Hdr; [|done]. cbn in Hx. injection Hx as Hx. subst ss.
    unfold disk_read. change (st_get ≫= ?k) with (λ s, k s s). cbn beta. rewrite Hss. cbn [mbind option_bind].
    destruct (sectors dr !! i) as [bs|] eqn:Hbs; cbn.
    + destruct (att_sectors _ _ _ Ha d _ i bs Hd Hss Hbs) as (? & ? & ?).
      destruct (ide_read_ok cur d i s dr bs) as (s' & E & Hr & Eds); [done..|]. exists s'. split_and!; [done..| |done].
      destruct Ha as [Ha Hw]. split; [by rewrite Eds|done].
    + by apply (ide_read_missing cur d i s dr).
  - destruct Hv as (Hd & Hi & Hl & Hf). destruct (disks m !! (base + d)) as [ss|] eqn:Hss; [|by destruct Hi].
    pose proof (att_disks _ _ _ Ha d Hd) as Hx. rewrite Hss in Hx.
    destruct (drives (hw s) d) as [dr|] eqn:Hdr; [|done]. cbn in Hx. injection Hx as Hx. subst ss. cbn in Hi. destruct Hi as [bs Hbs].
    destruct (att_sectors _ _ _ Ha d _ i bs Hd Hss Hbs) as (? & _ & _).
    destruct (ide_write_ok cur d i s dr buffer) as (s' & E & Hr & Eds); [done..|].
    erewrite st_bind_ok.
    2: { unfold disk_write. change (st_get ≫= ?k) with (λ s, k s s). cbn beta. rewrite Hss. reflexivity. }
    cbn. exists s'. erewrite st_bind_ok by exact E. split_and!; [done..| |].
    + by eapply attached_write.
    + intros r'. by eapply valid_request_write.
Qed.

(** C29: the disk driver implements the disks of the block layer: for any sequence of
    reads and writes of sectors on the two drives of a channel at rest, on hardware
    whose commands take fewer than 3000 polls, ide_read and ide_write give the
    results that the block layer's disk_read and disk_write give, and leave the
    channel at rest, its lock free and its drives with the contents of the
    block layer's disks; a read of a sector that the disk does not have stops the kernel, also when the sector's
    number has more than 28 bits. *)
Theorem ide_implements_disk base cur rs s m :
  (∀ n, delay n < 3000)%nat → at_rest s → attached base s m → Forall (valid_request base m) rs →
  match disk_run base rs m with
  | Ok (os, m') => ∃ s', driver_run cur rs s = Ok (os, s') ∧ at_rest s' ∧ attached base s' m'
  | Err _ => driver_run cur rs s = Err EPanic
  end.
Proof.
  intros Hdel. revert s m. induction rs as [|r rs IH]; intros s m Hs Ha Hrs; [by exists s|].
  inversion Hrs as [|?? Hr Hrs']; subst. cbn [disk_run driver_run]. pose proof (step_refines base cur r s m Hdel Hs Ha Hr) as Hstep.
  destruct (disk_step base r m) as [[o m']|e] eqn:E1.
  - destruct Hstep as (s' & E & Hs' & Ha' & Hmon). rewrite (st_bind_ok _ _ _ _ _ E1), (st_bind_ok _ _ _ _ _ E).
    specialize (IH s' m' Hs' Ha' ltac:(eapply Forall_impl; [exact Hrs'|done])).
    destruct (disk_run base rs m') as [[os m'']|e] eqn:E2.
    + destruct IH as (s'' & E' & ? & ?). rewrite (st_bind_ok _ _ _ _ _ E2), (st_bind_ok _ _ _ _ _ E'). by exists s''.
    + rewrite (st_bind_err _ _ _ _ E2). by apply st_bind_err.
  - rewrite (st_bind_err _ _ _ _ E1). by apply st_bind_err.
Qed.
End driver.

(** A master drive of one sector, number 5, and no slave. *)
Definition demo_disk : gmap Z (list Z) := {[ 5 := replicate 512 0 ]}.
Definition demo_channel : channel :=
  Channel (Ata 1 1 1 0 0 0 0 NoData false (λ d, if decide (d = 0) then Some (Drive demo_disk []) else None) 0) NULL false 0 (λ d, bool_decide (d = 0)).
Definition demo_blocks : blocks := Blocks [] ∅ (λ _, NULL) {[ 8 := demo_disk ]} 1 0.

Lemma demo_attached : attached 8 demo_channel demo_blocks.
Proof.
  split.
  - intros d Hd. assert (d = 0 ∨ d = 1) as [->| ->] by lia; by vm_compute.
  - intros d ss i bs Hd. cbn [disks demo_blocks]. intros [_ <-]%lookup_singleton_Some. unfold demo_disk. intros [<- <-]%lookup_singleton_Some.
    split; [lia|]. split; [done|]. by apply Forall_replicate.
Qed.

Lemma ide_implements_disk_witness :
  ∃ s', driver_run (λ _, 12%nat) 255 77 [WriteSector 0 5 (replicate 512 7); ReadSector 0 5] demo_channel = Ok ([[]; replicate 512 7], s') ∧ at_rest s'.
Proof.
  pose proof (ide_implements_disk (λ _, 12%nat) 255 8 77 [WriteSector 0 5 (replicate 512 7); ReadSector 0 5] demo_channel demo_blocks) as H.
  specialize (H ltac:(intros ?; cbn beta; lia) ltac:(by split) demo_attached).
  assert (Hv : Forall (valid_request 8 demo_blocks) [WriteSector 0 5 (replicate 512 7); ReadSector 0 5]).
  { constructor; [|constructor; [|constructor]]; cbn [valid_request].
    - split; [lia|]. split; [by eexists|]. split; [done|]. by apply Forall_replicate.
    - split; [lia|]. split; [lia|by eexists]. }
  specialize (H Hv).
  assert (E : ∃ m', disk_run 8 [WriteSector 0 5 (replicate 512 7); ReadSector 0 5] demo_blocks = Ok ([[]; replicate 512 7], m')) by (by eexists).
  destruct E as [m' E]. rewrite E in H. destruct H as (s' & E' & Hr & _). exact (ex_intro _ s' (conj E' Hr)).
Defined.
