(* ===== verification/X86.v ===== *)
(** * The processor

    The part of an 80x86 processor that the kernel's assembly code uses: the
    general registers, the segment registers, the instruction pointer, the flags
    and memory, as the processor's manual describes them.  A routine of an assembly file is a
    computation on this state, an instruction after another; [ret], [call], [jmp] and
    [iret] set the instruction pointer.  Memory is a byte for every address;
    words are little-endian. *)

From S2P Require Import Prelude.

Local Open Scope Z_scope.

Inductive reg := EAX | ECX | EDX | EBX | ESP | EBP | ESI | EDI.
Inductive sreg := CS | DS | ES | FS | GS | SS.

Record regs := Regs { eax : Z; ecx : Z; edx : Z; ebx : Z; esp : Z; ebp : Z; esi : Z; edi : Z }.
Record sregs := Sregs { cs : Z; ds : Z; es : Z; fs : Z; gs : Z; ss : Z }.

Record cpu := Cpu { gpr : regs; seg : sregs; eip : Z; eflags : Z; ram : Z → Z }.

Abbreviation X := (ST cpu).

(** ** Registers *)

Definition getr (r : reg) (g : regs) : Z :=
  match r with
  | EAX => eax g | ECX => ecx g | EDX => edx g | EBX => ebx g
  | ESP => esp g | EBP => ebp g | ESI => esi g | EDI => edi g
  end.
Definition setr (r : reg) (v : Z) (g : regs) : regs :=
  let '(Regs a c d b sp bp si di) := g in
  match r with
  | EAX => Regs v c d b sp bp si di | ECX => Regs a v d b sp bp si di
  | EDX => Regs a c v b sp bp si di | EBX => Regs a c d v sp bp si di
  | ESP => Regs a c d b v bp si di | EBP => Regs a c d b sp v si di
  | ESI => Regs a c d b sp bp v di | EDI => Regs a c d b sp bp si v
  end.

Definition gets (r : sreg) (g : sregs) : Z :=
  match r with CS => cs g | DS => ds g | ES => es g | FS => fs g | GS => gs g | SS => ss g end.
Definition sets (r : sreg) (v : Z) (g : sregs) : sregs :=
  let '(Sregs c d e f g s) := g in
  match r with
  | CS => Sregs v d e f g s | DS => Sregs c v e f g s | ES => Sregs c d v f g s
  | FS => Sregs c d e v g s | GS => Sregs c d e f v s | SS => Sregs c d e f g v
  end.

Definition with_gpr (f : regs → regs) (c : cpu) : cpu := Cpu (f (gpr c)) (seg c) (eip c) (eflags c) (ram c).
Definition with_seg (f : sregs → sregs) (c : cpu) : cpu := Cpu (gpr c) (f (seg c)) (eip c) (eflags c) (ram c).
Definition with_eip (a : Z) (c : cpu) : cpu := Cpu (gpr c) (seg c) a (eflags c) (ram c).
Definition with_eflags (f : Z → Z) (c : cpu) : cpu := Cpu (gpr c) (seg c) (eip c) (f (eflags c)) (ram c).
Definition with_ram (f : (Z → Z) → Z → Z) (c : cpu) : cpu := Cpu (gpr c) (seg c) (eip c) (eflags c) (f (ram c)).

(** ** Memory *)

Definition stb (a b : Z) (m : Z → Z) : Z → Z := λ x, if decide (x = a) then b else m x.
Definition ldl (m : Z → Z) (a : Z) : Z := m a + 256 * m (a + 1) + 65536 * m (a + 2) + 16777216 * m (a + 3).
Definition stl (a v : Z) (m : Z → Z) : Z → Z :=
  stb a (v `mod` 256) (stb (a + 1) ((v / 256) `mod` 256) (stb (a + 2) ((v / 65536) `mod` 256) (stb (a + 3) ((v / 16777216) `mod` 256) m))).

(** The [n] bytes from [a] on. *)
Definition bytes (m : Z → Z) (a n : Z) : list Z := m <$> seqZ a n.

Definition is_ram (m : Z → Z) : Prop := ∀ a, 0 ≤ m a < 256.

Lemma ldl_same m a v : in_u32 v → ldl (stl a v m) a = v.
Proof.
  unfold in_u32, ldl, stl, stb. intros. repeat (case_decide; try lia). dlia.
Qed.

Lemma stl_other m a v x : x < a ∨ a + 4 ≤ x → stl a v m x = m x.
Proof. unfold stl, stb. intros. repeat (case_decide; try lia). Qed.

Lemma ldl_other m a v b : b + 4 ≤ a ∨ a + 4 ≤ b → ldl (stl a v m) b = ldl m b.
Proof. intros. unfold ldl. by rewrite !stl_other by lia. Qed.

Lemma ldl_ext m m' a : (∀ x, a ≤ x < a + 4 → m' x = m x) → ldl m' a = ldl m a.
Proof. intros H. unfold ldl. by rewrite !H by lia. Qed.

Lemma bytes_ext m m' a n : (∀ x, a ≤ x < a + n → m' x = m x) → bytes m' a n = bytes m a n.
Proof. intros H. unfold bytes. apply list_fmap_ext. intros i x Hi. apply H. apply lookup_seqZ in Hi as [-> ?]. lia. Qed.

Lemma stl_ram m a v : is_ram m → is_ram (stl a v m).
Proof. intros H x. unfold stl, stb. repeat case_decide; try apply Z.mod_pos_bound; try lia; apply H. Qed.

Lemma ldl_range m a : is_ram m → in_u32 (ldl m a).
Proof. intros H. unfold in_u32, ldl. pose proof (H a). pose proof (H (a + 1)). pose proof (H (a + 2)). pose proof (H (a + 3)). lia. Qed.

(** ** Instructions *)

Definition rd (r : reg) : X Z := st_gets (λ c, getr r (gpr c)).
Definition mov (r : reg) (v : Z) : X () := st_modify (with_gpr (setr r v)).
Definition rds (r : sreg) : X Z := st_gets (λ c, gets r (seg c)).
(** Loading a segment register; selectors have 16 bits. *)
Definition movs (r : sreg) (v : Z) : X () := st_modify (with_seg (sets r (v `mod` 65536))).
Definition load (a : Z) : X Z := st_gets (λ c, ldl (ram c) (u32 a)).
Definition store (a v : Z) : X () := st_modify (with_ram (stl (u32 a) v)).

Definition pushl (v : Z) : X () := sp ← rd ESP; mov ESP (u32 (sp - 4));; store (sp - 4) v.
Definition pushr (r : reg) : X () := v ← rd r; pushl v.
Definition pushs (r : sreg) : X () := v ← rds r; pushl v.
Definition pop : X Z := sp ← rd ESP; v ← load sp; mov ESP (u32 (sp + 4));; mret v.
Definition popl (r : reg) : X () := v ← pop; mov r v.
Definition pops (r : sreg) : X () := v ← pop; movs r v.

(** The flags of an addition besides CF and ZF are not kept. *)
Definition CF : Z := 0.
Definition ZF : Z := 6.
Definition IF : Z := 9.
Definition DF : Z := 10.
Definition set_flag (n : Z) (b : bool) (f : Z) : Z := if b then Z.setbit f n else Z.clearbit f n.
Definition arith_flags (carry zero : bool) : X () := st_modify (with_eflags (λ f, set_flag ZF zero (set_flag CF carry f))).

Definition addl (n : Z) (r : reg) : X () :=
  v ← rd r; mov r (u32 (v + n));; arith_flags (bool_decide (2^32 ≤ v + n)) (bool_decide (u32 (v + n) = 0)).

Definition cld : X () := st_modify (with_eflags (λ f, Z.clearbit f DF)).
Definition cli : X () := st_modify (with_eflags (λ f, Z.clearbit f IF)).

Definition jmp (a : Z) : X () := st_modify (with_eip a).
Definition ret : X () := a ← pop; jmp a.

(** A call of routine [f] from the instruction before [next]: the routine ends
    with a return to [next]. *)
Definition call (next : Z) (f : X ()) : X () := pushl next;; f.

(** All general registers, with the stack pointer as it was before. *)
Definition pushal : X () :=
  sp ← rd ESP;
  pushr EAX;; pushr ECX;; pushr EDX;; pushr EBX;; pushl sp;; pushr EBP;; pushr ESI;; pushr EDI.
(** The saved stack pointer is dropped. *)
Definition popal : X () :=
  popl EDI;; popl ESI;; popl EBP;; _ ← pop; popl EBX;; popl EDX;; popl ECX;; popl EAX.

(** A routine of C code, called with its arguments above the return address: it
    returns, keeps the registers that a routine has to keep, and writes below
    its arguments' end [args] bytes above the return address, or outside of
    [keep], only. *)
Definition cdecl (args : Z) (keep : Z → Prop) (f : X ()) : Prop := ∀ c, ∃ c',
  f c = Ok ((), c') ∧
  esp (gpr c') = u32 (esp (gpr c) + 4) ∧ eip c' = ldl (ram c) (u32 (esp (gpr c))) ∧
  ebx (gpr c') = ebx (gpr c) ∧ ebp (gpr c') = ebp (gpr c) ∧ esi (gpr c') = esi (gpr c) ∧ edi (gpr c') = edi (gpr c) ∧
  ∀ x, keep x → esp (gpr c) + 4 + args ≤ x → ram c' x = ram c x.

Lemma ret_cdecl args keep : cdecl args keep ret.
Proof. intros []. eexists. by destruct gpr0. Qed.

(** ** Running code *)

Arguments ldl : simpl never.
Arguments stl : simpl never.
Arguments u32 : simpl never.

(** Offsets from one address, added up. *)
Ltac addr := repeat match goal with
  | |- context[?x - Zpos ?a - Zpos ?b] => let c := eval cbv in (Zpos a + Zpos b) in replace (x - Zpos a - Zpos b) with (x - c) by lia
  | |- context[?x + Zpos ?a + Zpos ?b] => let c := eval cbv in (Zpos a + Zpos b) in replace (x + Zpos a + Zpos b) with (x + c) by lia
  | |- context[?x - Zpos ?a + Zpos ?b] =>
      let c := eval cbv in (Zpos a - Zpos b) in
      match c with
      | Zpos ?q => replace (x - Zpos a + Zpos b) with (x - c) by lia
      | Z0 => replace (x - Zpos a + Zpos b) with x by lia
      | Zneg ?q => replace (x - Zpos a + Zpos b) with (x + Zpos q) by lia
      end
  | |- context[?x + Zpos ?a - Zpos ?b] =>
      let c := eval cbv in (Zpos a - Zpos b) in
      match c with
      | Zpos ?q => replace (x + Zpos a - Zpos b) with (x + c) by lia
      | Z0 => replace (x + Zpos a - Zpos b) with x by lia
      | Zneg ?q => replace (x + Zpos a - Zpos b) with (x - Zpos q) by lia
      end
  end.

(** Addresses that do not wrap around, and words that are read after they were written. *)
Ltac wrap := repeat match goal with |- context[u32 ?x] => rewrite (u32_id x) by (unfold in_u32 in *; lia) end.
Ltac words := repeat first [rewrite ldl_same by (unfold in_u32 in *; lia) | rewrite ldl_other by lia].

(** One instruction. *)
Ltac x_step :=
  erewrite st_bind_ok by reflexivity;
  cbv beta iota zeta delta [rd mov rds movs load store getr setr gets sets with_gpr with_seg with_eip with_eflags with_ram gpr seg eip eflags ram
    eax ecx edx ebx esp ebp esi edi cs ds es fs gs ss]; wrap; addr; words.

(** The same for a goal about one run, leaving the code that follows as it is. *)
Ltac x_go :=
  erewrite st_bind_ok by reflexivity; cbv beta;
  lazymatch goal with |- ?f ?s = _ =>
    let s' := eval cbv beta iota zeta delta [rd mov rds movs load store getr setr gets sets with_gpr with_seg with_eip with_eflags with_ram
      gpr seg eip eflags ram eax ecx edx ebx esp ebp esi edi cs ds es fs gs ss] in s in change s with s' end;
  cbn [getr gets gpr seg eip eflags ram eax ecx edx ebx esp ebp esi edi cs ds es fs gs ss]; wrap; addr; words.
