(* ===== verification/Switch.v ===== *)
(** * threads/switch.S and the stacks of threads/thread.c

    A thread's page holds struct thread at its start and the thread's kernel stack at its
    end.  [switch_threads] and [switch_entry] are the two routines of
    switch.S; [alloc_frame] and [create_frames] are the part of thread_create that makes the
    first stack of a thread.  The C routine that switch_entry calls is a parameter. *)

From S2P Require Import Prelude Bitmap Vaddr X86.

Local Open Scope Z_scope.

(** Offsets in struct thread, and its size. *)
Definition thread_stack_ofs : Z := 24.
Definition magic_ofs : Z := 336.
Definition thread_size : Z := 340.
Definition THREAD_MAGIC : Z := 3446325067.

Definition SWITCH_CUR : Z := 20.
Definition SWITCH_NEXT : Z := 24.

Definition switch_threads : X () :=
  pushr EBX;;
  pushr EBP;;
  pushr ESI;;
  pushr EDI;;
  mov EDX thread_stack_ofs;;
  (sp ← rd ESP; a ← load (sp + SWITCH_CUR); mov EAX a);;
  (sp ← rd ESP; a ← rd EAX; d ← rd EDX; store (a + d) sp);;
  (sp ← rd ESP; a ← load (sp + SWITCH_NEXT); mov ECX a);;
  (n ← rd ECX; d ← rd EDX; sp ← load (n + d); mov ESP sp);;
  popl EDI;;
  popl ESI;;
  popl EBP;;
  popl EBX;;
  ret.

(** [tail] is thread_schedule_tail, [after] the address behind its call. *)
Definition switch_entry (tail : X ()) (after : Z) : X () :=
  addl 8 ESP;;
  pushr EAX;;
  call after tail;;
  addl 4 ESP;;
  ret.

(** running_thread. *)
Definition running_thread : X Z := sp ← rd ESP; mret (pg_round_down sp).

(** ** The first stack of a thread *)

Definition is_thread (t : Z) (m : Z → Z) : bool := bool_decide (t ≠ NULL ∧ ldl m (t + magic_ofs) = THREAD_MAGIC).

(** The part of init_thread that sets the page up: [t] is a page of zeros. *)
Definition init_stack (t : Z) : X () :=
  store (t + thread_stack_ofs) (t + PGSIZE);;
  store (t + magic_ofs) THREAD_MAGIC.

Definition alloc_frame (t size : Z) : X Z :=
  c ← st_get;
  ASSERT (is_thread t (ram c));;
  ASSERT (bool_decide (size `mod` 4 = 0));;
  sp ← load (t + thread_stack_ofs);
  store (t + thread_stack_ofs) (u32 (sp - size));;
  load (t + thread_stack_ofs).

(** The sizes of struct kernel_thread_frame, switch_entry_frame and
    switch_threads_frame are 12, 4 and 28; [kernel_thread] and [entry] are the addresses of
    kernel_thread and switch_entry. *)
Definition create_frames (kernel_thread entry t function aux : Z) : X () :=
  kf ← alloc_frame t 12;
  store kf NULL;;
  store (kf + 4) function;;
  store (kf + 8) aux;;
  ef ← alloc_frame t 4;
  store ef kernel_thread;;
  sf ← alloc_frame t 28;
  store (sf + 16) entry;;
  store (sf + 8) 0.

(** ** The threads of a system

    A thread that is not running is inside a call of switch_threads: [saved]
    records what it had when it called, which is what it has to find again. *)
Record context := Context {
  k_ebx : Z; k_ebp : Z; k_esi : Z; k_edi : Z;
  k_eip : Z;                (** the address it returns to *)
  k_esp : Z;                (** the stack pointer after the return *)
  k_stack : list Z;         (** the bytes from there to the end of its page *)
}.

Record system := System { core : cpu; current : Z; saved : gmap Z context }.

(** What the caller of switch_threads has at the call, with [t] running. *)
Definition context_of (t : Z) (c : cpu) : context :=
  let g := gpr c in
  Context (ebx g) (ebp g) (esi g) (edi g) (ldl (ram c) (esp g)) (esp g + 4)
    (bytes (ram c) (esp g + 4) (t + PGSIZE - (esp g + 4))).

(** The address of a thread's page. *)
Definition thread_page (t : Z) : Prop := 0 < t ∧ t + PGSIZE < 2^32 ∧ t `mod` PGSIZE = 0.

Definition regs_ok (g : regs) : Prop := in_u32 (ebx g) ∧ in_u32 (ebp g) ∧ in_u32 (esi g) ∧ in_u32 (edi g).

(** The running thread is about to call switch_threads (cur, next): the
    arguments and the return address are on its stack, which has room for the
    registers. *)
Record calls_switch (t next : Z) (c : cpu) : Prop := {
  cs_room : t + thread_size ≤ esp (gpr c) - 16;
  cs_top : esp (gpr c) + 12 ≤ t + PGSIZE;
  cs_cur : ldl (ram c) (esp (gpr c) + 4) = t;
  cs_next : ldl (ram c) (esp (gpr c) + 8) = next;
  cs_regs : regs_ok (gpr c);
}.

(** The bytes that belong to a thread that is not running: the saved stack
    pointer in its struct thread, and its stack. *)
Definition owned (t : Z) (k : context) (x : Z) : Prop :=
  t + thread_stack_ofs ≤ x < t + thread_stack_ofs + 4 ∨ k_esp k - 20 ≤ x < t + PGSIZE.

Definition context_new (kernel_thread entry t function aux : Z) : context :=
  Context 0 0 0 0 entry (t + PGSIZE - 24)
    (bytes (stl (t + PGSIZE - 4) aux (stl (t + PGSIZE - 8) function (stl (t + PGSIZE - 12) NULL (stl (t + PGSIZE - 16) kernel_thread (λ _, 0)))))
      (t + PGSIZE - 24) 24).

(** Steps: the running thread runs any code that leaves the others' bytes
    alone; it switches to another thread; it makes a thread in a new page of
    zeros; a thread that will not run again is forgotten. *)
Inductive kstep (kernel_thread entry : Z) : system → system → Prop :=
| step_run s c' :
    is_ram (ram c') →
    (∀ t k x, saved s !! t = Some k → owned t k x → ram c' x = ram (core s) x) →
    kstep kernel_thread entry s (System c' (current s) (saved s))
| step_switch s next c' :
    is_Some (saved s !! next) → calls_switch (current s) next (core s) →
    switch_threads (core s) = Ok ((), c') →
    kstep kernel_thread entry s (System c' next (<[current s := context_of (current s) (core s)]> (delete next (saved s))))
| step_create s t function aux c' :
    thread_page t → t ≠ current s → saved s !! t = None →
    (∀ x, t ≤ x < t + PGSIZE → ram (core s) x = 0) → in_u32 function → in_u32 aux →
    (init_stack t;; create_frames kernel_thread entry t function aux) (core s) = Ok ((), c') →
    kstep kernel_thread entry s (System c' (current s) (<[t := context_new kernel_thread entry t function aux]> (saved s)))
| step_forget s t :
    kstep kernel_thread entry s (System (core s) (current s) (delete t (saved s))).

(** * Theorems *)

(** ** One switch *)

(** The state of [switch_threads] at its end: the stack pointer it saved, and the
    memory. *)
Definition switched_ram (t : Z) (c : cpu) : Z → Z :=
  let g := gpr c in let p := esp g in
  stl (t + thread_stack_ofs) (p - 16)
    (stl (p - 16) (edi g) (stl (p - 12) (esi g) (stl (p - 8) (ebp g) (stl (p - 4) (ebx g) (ram c))))).

(** The constants of a thread's page. *)
Ltac layout := unfold THREAD_MAGIC, thread_size, thread_stack_ofs, magic_ofs, SWITCH_CUR, SWITCH_NEXT, PGSIZE, NULL in *.

(** Memory that a suspended thread finds its context in. *)
Record saved_in (m : Z → Z) (t : Z) (k : context) : Prop := {
  si_page : thread_page t;
  si_room : t + thread_size ≤ k_esp k - 20;
  si_top : k_esp k + 8 ≤ t + PGSIZE;
  si_sp : ldl m (t + thread_stack_ofs) = k_esp k - 20;
  si_edi : ldl m (k_esp k - 20) = k_edi k;
  si_esi : ldl m (k_esp k - 16) = k_esi k;
  si_ebp : ldl m (k_esp k - 12) = k_ebp k;
  si_ebx : ldl m (k_esp k - 8) = k_ebx k;
  si_eip : ldl m (k_esp k - 4) = k_eip k;
  si_stack : bytes m (k_esp k) (t + PGSIZE - k_esp k) = k_stack k;
}.

Lemma saved_in_ext m m' t k : (∀ x, owned t k x → m' x = m x) → saved_in m t k → saved_in m' t k.
Proof.
  intros H [[Hp1 Hp2] Hr Ht]. unfold owned in *. layout.
  split; try done; [rewrite (ldl_ext m m')..|rewrite (bytes_ext m m')]; try done; intros x Hx; apply H; layout; lia.
Qed.

Lemma switch_ok t next k c : thread_page t → calls_switch t next c → saved_in (switched_ram t c) next k →
  ∃ g, switch_threads c = Ok ((), Cpu g (seg c) (k_eip k) (eflags c) (switched_ram t c)) ∧
    ebx g = k_ebx k ∧ ebp g = k_ebp k ∧ esi g = k_esi k ∧ edi g = k_edi k ∧ esp g = k_esp k ∧ eax g = t.
Proof.
  intros [Hp1 [Hp2 _]] [Hroom Htop Hcur Hnext _] [[Hn1 [Hn2 _]] Hr Ht Hsp Hdi Hsi Hbp Hbx Hip _].
  destruct c as [[a cc d b p bp si di] sg ip fl m]. unfold switched_ram, switch_threads in *. layout. cbn in *.
  eexists. split.
  { do 8 x_step. rewrite Hcur, Hnext. x_step. rewrite Hsp. do 4 x_step. unfold ret. x_step. rewrite Hip. reflexivity. }
  cbn. rewrite Hdi, Hsi, Hbp, Hbx. done.
Qed.

(** ** Pages *)

Lemma pages_apart t u x : thread_page t → thread_page u → t ≠ u → t ≤ x < t + PGSIZE → ¬ u ≤ x < u + PGSIZE.
Proof. unfold thread_page, PGSIZE. intros (? & ? & ?) (? & ? & ?) ? ? ?. dlia. Qed.

Lemma owned_page m t k x : saved_in m t k → owned t k x → t ≤ x < t + PGSIZE.
Proof. intros [] Ho. unfold owned in Ho. layout. lia. Qed.

Lemma switched_ram_other t c x :
  (x < t + thread_stack_ofs ∨ t + thread_stack_ofs + 4 ≤ x) → (x < esp (gpr c) - 16 ∨ esp (gpr c) ≤ x) → switched_ram t c x = ram c x.
Proof. intros. unfold switched_ram. by rewrite !stl_other by lia. Qed.

Lemma switch_keeps t next c u k : thread_page t → calls_switch t next c → u ≠ t →
  saved_in (ram c) u k → saved_in (switched_ram t c) u k.
Proof.
  intros Ht [Hroom Htop _ _ _] Hne Hk. eapply saved_in_ext; [|exact Hk]. intros x Hx.
  pose proof (pages_apart u t x (si_page _ _ _ Hk) Ht Hne (owned_page _ _ _ _ Hk Hx)). apply switched_ram_other; layout; lia.
Qed.

Lemma switch_saves t next c : thread_page t → calls_switch t next c →
  saved_in (switched_ram t c) t (context_of t c).
Proof.
  intros Ht [Hroom Htop _ _ (? & ? & ? & ?)]. pose proof Ht as (Hp1 & Hp2 & _).
  destruct c as [[a cc d b p bp si di] sg ip fl m]. cbn in *.
  split; cbn [k_esp k_edi k_esi k_ebp k_ebx k_eip k_stack context_of gpr esp ebx ebp esi edi]; unfold switched_ram; layout; cbn; addr; try done; try lia;
    try (by words); by apply bytes_ext; intros x Hx; rewrite !stl_other by lia.
Qed.

(** ** New threads *)

Definition new_ram (kernel_thread entry t function aux : Z) (m : Z → Z) : Z → Z :=
  stl (t + 4060) 0 (stl (t + 4068) entry (stl (t + 24) (t + 4052) (stl (t + 4080) kernel_thread (stl (t + 24) (t + 4080)
    (stl (t + 4092) aux (stl (t + 4088) function (stl (t + 4084) 0 (stl (t + 24) (t + 4084)
      (stl (t + 336) 3446325067 (stl (t + 24) (t + 4096) m)))))))))).

Lemma alloc_frame_ok t size sp c : 0 < t → t + PGSIZE < 2^32 → ldl (ram c) (t + magic_ofs) = THREAD_MAGIC → size `mod` 4 = 0 →
  ldl (ram c) (t + thread_stack_ofs) = sp → 0 ≤ size ≤ sp → sp ≤ t + PGSIZE →
  alloc_frame t size c = Ok (sp - size, with_ram (stl (t + thread_stack_ofs) (sp - size)) c).
Proof.
  intros H1 H2 Hm Hs Hsp Hr Hr2. destruct c as [g sg ip fl m]. cbn [ram] in *. unfold alloc_frame. layout. change (st_get ≫= ?k) with (λ s, k s s). cbn beta.
  erewrite st_bind_ok by (apply assert_ok; unfold is_thread; rewrite bool_decide_true; [done|layout; split; [lia|done]]).
  erewrite st_bind_ok by (apply assert_ok; by rewrite bool_decide_true).
  x_step. rewrite Hsp. x_step. unfold load, st_gets. cbn. wrap. by words.
Qed.

Lemma create_ok kernel_thread entry t function aux c : thread_page t → in_u32 function → in_u32 aux →
  (init_stack t;; create_frames kernel_thread entry t function aux) c = Ok ((), with_ram (new_ram kernel_thread entry t function aux) c).
Proof.
  intros (H1 & H2 & _) Hf Ha. destruct c as [g sg ip fl m]. layout. unfold in_u32, init_stack, create_frames in *. layout.
  erewrite st_bind_ok by (x_step; reflexivity).
  repeat (first [erewrite st_bind_ok by (apply alloc_frame_ok; layout; cbn; wrap; words; (lia || reflexivity)) | x_step]).
  reflexivity.
Qed.

Lemma new_ram_other kernel_thread entry t function aux m x : x < t ∨ t + PGSIZE ≤ x → new_ram kernel_thread entry t function aux m x = m x.
Proof. layout. intros. unfold new_ram. by rewrite !stl_other by lia. Qed.

(** A page of zeros has the context of a new thread. *)
Lemma create_saves kernel_thread entry t function aux m : thread_page t →
  in_u32 kernel_thread → in_u32 entry → in_u32 function → in_u32 aux → (∀ x, t ≤ x < t + PGSIZE → m x = 0) →
  saved_in (new_ram kernel_thread entry t function aux m) t (context_new kernel_thread entry t function aux).
Proof.
  intros Ht ? ? ? ? Hz. pose proof Ht as (Hp1 & Hp2 & _). unfold in_u32 in *. layout.
  assert (Hl : ∀ a, t ≤ a → a + 4 ≤ t + 4096 → ldl m a = 0) by (intros; unfold ldl; by rewrite !Hz by lia).
  split; cbn [k_esp k_edi k_esi k_ebp k_ebx k_eip k_stack context_new]; unfold new_ram; layout; addr; try done; try lia;
    try (words; (done || apply Hl; lia)).
  replace (t + 4096 - (t + 4072)) with 24 by lia. apply list_fmap_ext. intros i x Hx. apply lookup_seqZ in Hx as [-> Hi].
  unfold stl, stb. repeat (case_decide; try lia). apply Hz. lia.
Qed.

(** ** The system *)

#[local] Opaque switch_threads create_frames init_stack.

Record inv (s : system) : Prop := {
  i_page : thread_page (current s);
  i_ram : is_ram (ram (core s));
  i_out : saved s !! current s = None;
  i_saved : ∀ t k, saved s !! t = Some k → saved_in (ram (core s)) t k;
}.

(** Only one thread, which is running. *)
Definition initial (s : system) : Prop := thread_page (current s) ∧ is_ram (ram (core s)) ∧ saved s = ∅.

Lemma initial_inv s : initial s → inv s.
Proof. intros (? & ? & E). split; try done; rewrite E; [done|]. intros t k. by rewrite lookup_empty. Qed.

Lemma switched_ram_ram t c : is_ram (ram c) → is_ram (switched_ram t c).
Proof. intros. unfold switched_ram. by repeat apply stl_ram. Qed.

Lemma kstep_inv kernel_thread entry s s' : in_u32 kernel_thread → in_u32 entry → kstep kernel_thread entry s s' → inv s → inv s'.
Proof.
  intros Hkt He Hst [Hp Hr Ho Hs]. destruct Hst as [s c' Hr' Hsame|s next c' [k Hk] Hc E|s t f aux c' Ht Hne Hnone Hz Hf Ha E|s t].
  - split; cbn; try done. intros t k Hk. eapply saved_in_ext; [|by apply Hs]. intros x. by apply Hsame.
  - assert (Hne : next ≠ current s) by (intros ->; rewrite Ho in Hk; discriminate Hk).
    pose proof (switch_keeps _ _ _ _ _ Hp Hc Hne (Hs _ _ Hk)) as Hk'. destruct (switch_ok _ _ _ _ Hp Hc Hk') as (g & E' & _).
    rewrite E in E'. injection E' as ->. split; cbn.
    + apply (si_page _ _ _ (Hs _ _ Hk)).
    + by apply switched_ram_ram.
    + by rewrite lookup_insert_ne, lookup_delete_eq by done.
    + intros t k'. destruct (decide (t = current s)) as [->|Ht].
      * rewrite lookup_insert_eq. intros [= <-]. by eapply switch_saves.
      * rewrite lookup_insert_ne by done. intros [_ ?]%lookup_delete_Some. by eapply switch_keeps; [..|apply Hs].
  - rewrite create_ok in E by done. injection E as <-. split; cbn.
    + done.
    + unfold new_ram. by repeat apply stl_ram.
    + by rewrite lookup_insert_ne.
    + intros u k. destruct (decide (u = t)) as [->|Hu].
      * rewrite lookup_insert_eq. intros [= <-]. by apply create_saves.
      * rewrite lookup_insert_ne by done. intros Hk. eapply saved_in_ext; [|by apply Hs]. intros x Hx. apply new_ram_other.
        pose proof (pages_apart u t x (si_page _ _ _ (Hs _ _ Hk)) Ht Hu (owned_page _ _ _ _ (Hs _ _ Hk) Hx)). lia.
  - split; cbn; try done.
    + rewrite lookup_delete. by case_decide.
    + intros u k [_ ?]%lookup_delete_Some. by apply Hs.
Qed.

Lemma reachable_inv kernel_thread entry s0 s : in_u32 kernel_thread → in_u32 entry →
  initial s0 → rtc (kstep kernel_thread entry) s0 s → inv s.
Proof. intros ? ? Hi. revert s. apply rtc_ind_r; [by apply initial_inv|]. intros y z _ Hst. by apply (kstep_inv kernel_thread entry y z). Qed.

Lemma page_of_stack t p : thread_page t → t ≤ p < t + PGSIZE → pg_round_down p = t.
Proof.
  intros (? & ? & ?) ?. layout. rewrite pg_round_down_eq by (unfold in_u32; lia). dlia.
Qed.

(** C33: switch_threads is a switch between coroutines.  From boot on, whatever the
    running threads do to memory other than the stacks of the others, whatever
    threads are made or die: when the running thread calls switch_threads to
    run a thread that is not running, the routine ends in that thread, with the registers that
    a routine has to keep, the return address and the stack pointer that the thread had when it
    last called switch_threads itself, with the same bytes on its stack, and with
    the thread switched from as its result; running_thread finds the new thread. *)
Theorem switch_resumes kernel_thread entry s0 s next k :
  in_u32 kernel_thread → in_u32 entry → initial s0 → rtc (kstep kernel_thread entry) s0 s →
  saved s !! next = Some k → calls_switch (current s) next (core s) →
  ∃ c, switch_threads (core s) = Ok ((), c) ∧
    ebx (gpr c) = k_ebx k ∧ ebp (gpr c) = k_ebp k ∧ esi (gpr c) = k_esi k ∧ edi (gpr c) = k_edi k ∧
    eip c = k_eip k ∧ esp (gpr c) = k_esp k ∧ bytes (ram c) (k_esp k) (next + PGSIZE - k_esp k) = k_stack k ∧
    eax (gpr c) = current s ∧ running_thread c = Ok (next, c).
Proof.
  intros Hkt He Hi Hreach Hk Hc. pose proof (reachable_inv _ _ _ _ Hkt He Hi Hreach) as [Hp Hr Ho Hs].
  assert (Hne : next ≠ current s) by (intros ->; rewrite Ho in Hk; discriminate Hk).
  pose proof (switch_keeps _ _ _ _ _ Hp Hc Hne (Hs _ _ Hk)) as Hk'.
  destruct (switch_ok _ _ _ _ Hp Hc Hk') as (g & E & Hb & Hbp & Hsi & Hdi & Hsp & Ha). destruct Hk' as [Hnp Hroom Htop _ _ _ _ _ _ Hst].
  eexists. split; [exact E|]. cbn. repeat (split; [first [assumption|reflexivity]|]).
  unfold running_thread, rd. st_unfold. cbn. rewrite Hsp, (page_of_stack next); [done|done|]. layout. lia.
Qed.

(** ** The first run of a thread *)

Lemma bytes_eq m m' a n x : bytes m a n = bytes m' a n → a ≤ x < a + n → m x = m' x.
Proof.
  intros E Hx. assert (Hl : ∀ f : Z → Z, bytes f a n !! Z.to_nat (x - a) = Some (f x)).
  { intros f. unfold bytes. rewrite list_lookup_fmap, lookup_seqZ_lt by lia. cbn. do 2 f_equal. lia. }
  pose proof (Hl m) as H1. rewrite E, Hl in H1. by injection H1.
Qed.

Lemma switch_entry_ok kernel_thread entry t function aux prev tail after c :
  thread_page t → in_u32 kernel_thread → in_u32 function → in_u32 aux → in_u32 prev → in_u32 after →
  esp (gpr c) = t + PGSIZE - 24 → eax (gpr c) = prev →
  bytes (ram c) (t + PGSIZE - 24) 24 = k_stack (context_new kernel_thread entry t function aux) →
  cdecl 4 (λ x, t ≤ x < t + PGSIZE) tail →
  ∃ c1 c2 c3, tail c1 = Ok ((), c2) ∧ ldl (ram c1) (esp (gpr c1) + 4) = prev ∧ esp (gpr c1) = t + PGSIZE - 24 ∧
    switch_entry tail after c = (tail;; addl 4 ESP;; ret) c1 ∧ switch_entry tail after c = Ok ((), c3) ∧
    eip c3 = kernel_thread ∧ esp (gpr c3) = t + PGSIZE - 12 ∧
    ldl (ram c3) (esp (gpr c3)) = NULL ∧ ldl (ram c3) (esp (gpr c3) + 4) = function ∧ ldl (ram c3) (esp (gpr c3) + 8) = aux.
Proof.
  intros (Hp1 & Hp2 & _) Hkt Hf Ha Hpr Haf Hsp Hax Hst Htail. destruct c as [[a cc d b p bp si di] sg ip fl m]. cbn in *. subst p a.
  set (m0 := stl (t + PGSIZE - 4) aux (stl (t + PGSIZE - 8) function (stl (t + PGSIZE - 12) NULL (stl (t + PGSIZE - 16) kernel_thread (λ _, 0))))) in Hst.
  assert (Hw : ∀ x, t + 4072 ≤ x < t + 4096 → m x = m0 x) by (intros x Hx; eapply bytes_eq; [exact Hst|layout; lia]).
  unfold in_u32 in *. layout. replace (t + 4096 - 24) with (t + 4072) by lia.
  set (m1 := stl (t + 4072) after (stl (t + 4076) prev m)).
  set (c1 := Cpu (Regs prev cc d b (t + 4072) bp si di) sg ip (set_flag ZF (bool_decide (t + 4080 = 0)) (set_flag CF (bool_decide (2 ^ 32 ≤ t + 4080)) fl)) m1).
  destruct (Htail c1) as ([[a' cc' d' b' p' bp' si' di'] sg' ip' fl' m'] & E & Hsp & Hip & _ & _ & _ & _ & Hkeep). cbn in Hsp, Hip, Hkeep.
  rewrite u32_id in Hsp by (unfold in_u32; lia). replace (t + 4072 + 4) with (t + 4076) in Hsp by lia. subst p'.
  assert (Hm : ∀ a, t + 4080 ≤ a → a + 4 ≤ t + 4096 → ldl m' a = ldl m0 a).
  { intros a H1 H2. apply ldl_ext. intros x Hx. rewrite Hkeep by lia. unfold m1. rewrite !stl_other by lia. apply Hw. lia. }
  assert (E0 : switch_entry tail after (Cpu (Regs prev cc d b (t + 4072) bp si di) sg ip fl m) = (tail;; addl 4 ESP;; ret) c1).
  { unfold switch_entry. unfold addl at 1. do 2 x_step. unfold call. rewrite <- st_bind_assoc. x_step. reflexivity. }
  exists c1. eexists. exists (Cpu (Regs a' cc' d' b' (t + 4084) bp' si' di') sg' kernel_thread (set_flag ZF (bool_decide (t + 4080 = 0)) (set_flag CF (bool_decide (2 ^ 32 ≤ t + 4080)) fl')) m').
  split; [exact E|]. cbn [ram esp gpr eip c1]. replace (t + 4096 - 12) with (t + 4084) by lia. addr.
  split; [by unfold m1; words|]. split; [done|]. split; [exact E0|]. split; [|split; [done|split; [done|]]].
  - rewrite E0, (st_bind_ok _ _ _ _ _ E). unfold addl, ret. do 2 x_step.
    rewrite Hm by lia. unfold m0. addr. words. reflexivity.
  - rewrite !Hm by lia. unfold m0. addr. words. done.
Qed.

(** The first run of a thread.  When a thread made by thread_create is switched to for
    the first time, the processor continues in switch_entry, which calls
    thread_schedule_tail with the thread switched from and then enters kernel_thread with
    the function and the argument that were given to thread_create as its arguments, on an
    otherwise empty stack without a return address; thread_schedule_tail is
    any C routine that keeps the stack of its caller. *)
Theorem new_thread_starts kernel_thread entry s0 s t function aux tail after :
  in_u32 kernel_thread → in_u32 entry → in_u32 function → in_u32 aux → in_u32 after → initial s0 → rtc (kstep kernel_thread entry) s0 s →
  saved s !! t = Some (context_new kernel_thread entry t function aux) → calls_switch (current s) t (core s) →
  cdecl 4 (λ x, t ≤ x < t + PGSIZE) tail →
  ∃ c c1 c2 c3, switch_threads (core s) = Ok ((), c) ∧ eip c = entry ∧
    switch_entry tail after c = (tail;; addl 4 ESP;; ret) c1 ∧ ldl (ram c1) (esp (gpr c1) + 4) = current s ∧
    tail c1 = Ok ((), c2) ∧ switch_entry tail after c = Ok ((), c3) ∧
    eip c3 = kernel_thread ∧ esp (gpr c3) + 12 = t + PGSIZE ∧
    ldl (ram c3) (esp (gpr c3)) = NULL ∧ ldl (ram c3) (esp (gpr c3) + 4) = function ∧ ldl (ram c3) (esp (gpr c3) + 8) = aux.
Proof.
  intros Hkt He Hf Ha Haf Hi Hreach Hk Hc Htail. pose proof (reachable_inv _ _ _ _ Hkt He Hi Hreach) as [Hp Hr Ho Hs].
  assert (Hne : t ≠ current s) by (intros ->; rewrite Ho in Hk; discriminate Hk).
  pose proof (switch_keeps _ _ _ _ _ Hp Hc Hne (Hs _ _ Hk)) as Hk'.
  destruct (switch_ok _ _ _ _ Hp Hc Hk') as (g & E & _ & _ & _ & _ & Hsp & Hax). destruct Hk' as [Hnp _ _ _ _ _ _ _ _ Hst].
  assert (Hcur : in_u32 (current s)) by (destruct Hp as (? & ? & _); unfold in_u32; layout; lia).
  destruct (switch_entry_ok kernel_thread entry t function aux (current s) tail after (Cpu g (seg (core s)) entry (eflags (core s)) (switched_ram (current s) (core s)))) as (c1 & c2 & c3 & E1 & Hprev & _ & E0 & E3 & Hip & Hsp3 & Hargs);
    [done..|exact Hsp|exact Hax| |done|].
  { cbn [ram]. cbn [k_esp context_new] in Hst. by replace (t + PGSIZE - (t + PGSIZE - 24)) with 24 in Hst by lia. }
  eexists _, c1, c2, c3. split; [exact E|]. split; [reflexivity|]. split; [exact E0|]. split; [exact Hprev|]. split; [exact E1|]. split; [exact E3|].
  split; [exact Hip|]. split; [lia|exact Hargs].
Qed.

(** ** An example: the initial thread makes a thread, and calls switch_threads. *)

Definition demo_start : system := System (Cpu (Regs 0 0 0 0 0 0 0 0) (Sregs 8 16 16 16 16 16) 0 0 (λ _, 0)) 40960 ∅.
Definition demo_context : context := context_new 100 200 81920 300 400.
Definition demo_ram : Z → Z := new_ram 100 200 81920 300 400 (λ _, 0).
Definition demo_made : system := System (with_ram (new_ram 100 200 81920 300 400) (core demo_start)) 40960 (<[81920 := demo_context]> ∅).
Definition demo_calls : system :=
  System (Cpu (Regs 0 0 0 1 45000 2 3 4) (Sregs 8 16 16 16 16 16) 0 0 (stl 45004 40960 (stl 45008 81920 demo_ram))) 40960 (<[81920 := demo_context]> ∅).

Lemma demo_initial : initial demo_start.
Proof. split; [done|]. split; [|done]. intros a. cbn. lia. Qed.

Lemma demo_reachable : rtc (kstep 100 200) demo_start demo_calls.
Proof.
  apply (rtc_l _ _ demo_made).
  { refine (step_create 100 200 demo_start 81920 300 400 (core demo_made) _ _ _ _ _ _ _); done. }
  apply rtc_once. refine (step_run 100 200 demo_made (core demo_calls) _ _).
  - cbn [core demo_calls ram]. do 2 apply stl_ram. unfold demo_ram, new_ram. repeat apply stl_ram. intros a. lia.
  - cbn [core demo_calls demo_made demo_start ram with_ram saved]. intros t k x [[<- <-]|[_ ?]]%lookup_insert_Some Ho; [|done]. unfold owned in Ho. cbn in Ho. layout.
    by rewrite !stl_other by lia.
Qed.

Lemma demo_calls_switch : calls_switch 40960 81920 (core demo_calls).
Proof. by vm_compute. Qed.

Lemma switch_resumes_witness : ∃ c, switch_threads (core demo_calls) = Ok ((), c) ∧ eip c = 200 ∧ esp (gpr c) = 85992 ∧ eax (gpr c) = 40960.
Proof.
  destruct (switch_resumes 100 200 demo_start demo_calls 81920 demo_context) as (c & E & _ & _ & _ & _ & Hip & Hsp & _ & Ha & _);
    [done|done|exact demo_initial|exact demo_reachable|by vm_compute|exact demo_calls_switch|].
  exists c. split; [exact E|]. split; [exact Hip|]. split; [exact Hsp|exact Ha].
Defined.

Lemma new_thread_starts_witness : ∃ c c3, switch_threads (core demo_calls) = Ok ((), c) ∧ switch_entry ret 250 c = Ok ((), c3) ∧ eip c3 = 100 ∧
  ldl (ram c3) (esp (gpr c3) + 4) = 300 ∧ ldl (ram c3) (esp (gpr c3) + 8) = 400.
Proof.
  destruct (new_thread_starts 100 200 demo_start demo_calls 81920 300 400 ret 250) as (c & c1 & c2 & c3 & E & _ & _ & _ & _ & E3 & Hip & _ & _ & Hf & Ha);
    [done|done|done|done|done|exact demo_initial|exact demo_reachable|by vm_compute|exact demo_calls_switch|apply ret_cdecl|].
  exists c, c3. split; [exact E|]. split; [exact E3|]. split; [exact Hip|]. split; [exact Hf|exact Ha].
Defined.
