(* ===== verification/Stubs.v ===== *)
(** * threads/intr-stubs.S: the way into an interrupt handler and back

    [interrupt] is what the processor does when an interrupt with a vector
    arrives, [iret] its return instruction; the other routines are those of
    intr-stubs.S.  The handler, intr_handler of threads/interrupt.c, is a parameter.
    A frame is struct intr_frame, the words that the processor and the stubs push. *)

From S2P Require Import Prelude Bitmap Vaddr Descriptors X86.

Local Open Scope Z_scope.

(** The privilege level that a code selector gives. *)
Definition level (sel : Z) : Z := Z.land sel 3.

(** ** The processor *)

(** The vectors for which it pushes an error code. *)
Definition pushes_error (vec : Z) : bool := bool_decide (vec ∈ [8; 10; 11; 12; 13; 14; 17]).

(** An interrupt with its error code: from user mode the kernel's stack is taken from
    the task state ([esp0], [ss0]).  [off] is true for a gate that turns interrupts off,
    [handler] the address in the gate. *)
Definition interrupt (esp0 ss0 handler : Z) (off : bool) (vec error : Z) : X () :=
  c ← st_get;
  (if decide (level (cs (seg c)) = 3) then
     mov ESP esp0;; movs SS ss0;; pushl (ss (seg c));; pushl (esp (gpr c))
   else mret tt);;
  pushl (eflags c);;
  pushl (cs (seg c));;
  pushl (eip c);;
  (if pushes_error vec then pushl error else mret tt);;
  (if off then cli else mret tt);;
  movs CS SEL_KCSEG;;
  jmp handler.

(** A return to user mode takes the stack from the frame too. *)
Definition iret : X () :=
  ip ← pop;
  sel ← pop;
  fl ← pop;
  st_modify (with_eflags (λ _, fl));;
  jmp ip;;
  movs CS sel;;
  if decide (level sel = 3) then sp ← pop; s ← pop; mov ESP sp;; movs SS s else mret tt.

(** ** Stubs *)

(** [zero] and [REAL]. *)
Definition zero : X () := pushr EBP;; pushl 0.
Definition REAL : X () :=
  (sp ← rd ESP; v ← load sp; pushl v);;
  (sp ← rd ESP; v ← rd EBP; store (sp + 4) v).

(** The stubs that are made with [REAL]. *)
Definition real_stubs : list Z := [8; 10; 11; 13; 14; 17; 24; 26; 27; 29; 30].

(** [entry] is the address of intr_entry. *)
Definition stub (entry vec : Z) : X () :=
  (if bool_decide (vec ∈ real_stubs) then REAL else zero);;
  pushl vec;;
  jmp entry.

Definition intr_exit : X () :=
  popal;;
  pops GS;;
  pops FS;;
  pops ES;;
  pops DS;;
  addl 12 ESP;;
  iret.

(** intr_entry up to the call of the handler. *)
Definition intr_save : X () :=
  pushs DS;;
  pushs ES;;
  pushs FS;;
  pushs GS;;
  pushal;;
  cld;;
  mov EAX SEL_KDSEG;;
  (v ← rd EAX; movs DS v);;
  (v ← rd EAX; movs ES v);;
  (sp ← rd ESP; mov EBP (u32 (sp + 56)));;
  pushr ESP.

(** [after] is the address behind the call; intr_exit follows. *)
Definition intr_entry (intr_handler : X ()) (after : Z) : X () :=
  intr_save;;
  call after intr_handler;;
  addl 4 ESP;;
  intr_exit.

(** ** Frames *)

(** struct intr_frame, without the dummy and without the stack of the outer level. *)
Record iframe := Iframe {
  f_edi : Z; f_esi : Z; f_ebp : Z; f_ebx : Z; f_edx : Z; f_ecx : Z; f_eax : Z;
  f_gs : Z; f_fs : Z; f_es : Z; f_ds : Z;
  f_vec_no : Z; f_error_code : Z; f_frame_pointer : Z; f_eip : Z; f_cs : Z; f_eflags : Z;
}.

Definition frame_at (m : Z → Z) (f : Z) : iframe :=
  Iframe (ldl m f) (ldl m (f + 4)) (ldl m (f + 8)) (ldl m (f + 16)) (ldl m (f + 20)) (ldl m (f + 24)) (ldl m (f + 28))
    (ldl m (f + 32)) (ldl m (f + 36)) (ldl m (f + 40)) (ldl m (f + 44))
    (ldl m (f + 48)) (ldl m (f + 52)) (ldl m (f + 56)) (ldl m (f + 60)) (ldl m (f + 64)) (ldl m (f + 68)).

(** The frame of a program that is interrupted. *)
Definition frame_of (vec error : Z) (c : cpu) : iframe :=
  let g := gpr c in let s := seg c in
  Iframe (edi g) (esi g) (ebp g) (ebx g) (edx g) (ecx g) (eax g) (gs s) (fs s) (es s) (ds s)
    vec error (ebp g) (eip c) (cs s) (eflags c).

(** The registers that a frame gives, with a stack. *)
Definition regs_of (fr : iframe) (sp : Z) : regs :=
  Regs (f_eax fr) (f_ecx fr) (f_edx fr) (f_ebx fr) sp (f_ebp fr) (f_esi fr) (f_edi fr).
Definition sregs_of (fr : iframe) (s : Z) : sregs :=
  Sregs (f_cs fr `mod` 65536) (f_ds fr `mod` 65536) (f_es fr `mod` 65536) (f_fs fr `mod` 65536) (f_gs fr `mod` 65536) s.

(** The whole way: the processor, the stub, the handler and the return. *)
Definition take_interrupt (esp0 ss0 : Z) (stub_address : Z → Z) (entry after : Z) (intr_handler : X ()) (off : bool) (vec error : Z) : X () :=
  interrupt esp0 ss0 (stub_address vec) off vec error;;
  stub entry vec;;
  intr_entry intr_handler after.

(** * Theorems *)

(** The registers of a program have their widths. *)
Record cpu_ok (c : cpu) : Prop := {
  co_gpr : ∀ r, in_u32 (getr r (gpr c));
  co_seg : ∀ r, 0 ≤ gets r (seg c) < 65536;
  co_eip : in_u32 (eip c);
  co_eflags : in_u32 (eflags c);
}.

(** Where the processor pushes the instruction pointer of an interrupted program:
    on the kernel's stack, or on the stack that it uses. *)
Definition base (esp0 : Z) (c : cpu) : Z := if decide (level (cs (seg c)) = 3) then esp0 - 20 else esp (gpr c) - 12.

(** The end of what it pushes. *)
Definition top (esp0 : Z) (c : cpu) : Z := if decide (level (cs (seg c)) = 3) then esp0 else esp (gpr c).

Lemma interrupt_pushes esp0 ss0 handler off vec error c : cpu_ok c → is_ram (ram c) → in_u32 error →
  100 ≤ base esp0 c → base esp0 c + 24 < 2^32 →
  let b := base esp0 c in
  ∃ sg fl m, interrupt esp0 ss0 handler off vec error c =
      Ok ((), Cpu (setr ESP (b - (if pushes_error vec then 4 else 0)) (gpr c)) sg handler fl m) ∧
    ds sg = ds (seg c) ∧ es sg = es (seg c) ∧ fs sg = fs (seg c) ∧ gs sg = gs (seg c) ∧
    ldl m b = eip c ∧ ldl m (b + 4) = cs (seg c) ∧ ldl m (b + 8) = eflags c ∧
    (pushes_error vec = true → ldl m (b - 4) = error) ∧ (level (cs (seg c)) ≠ 3 → ss sg = ss (seg c)) ∧ is_ram m ∧
    (∀ r, 0 ≤ gets r sg < 65536) ∧
    (level (cs (seg c)) = 3 → ldl m (b + 12) = esp (gpr c) ∧ ldl m (b + 16) = ss (seg c)) ∧
    ∀ x, x < b - 4 ∨ top esp0 c ≤ x → m x = ram c x.
Proof.
  intros [Hg Hs Hip Hfl] Hm Her. unfold base, top.
  pose proof (Hg ESP) as H1. pose proof (Hs CS) as H2. pose proof (Hs SS) as H3.
  destruct c as [[a cc d b p bp si di] [cs0 ds0 es0 fs0 gs0 ss1] ip fl m]. cbn in *. unfold in_u32 in *.
  unfold interrupt. change (st_get ≫= ?k) with (λ s, k s s). cbn beta. cbn [seg cs gpr esp eflags eip ss].
  assert (Hcl : ∀ f, ∃ f', (if off then cli else mret tt) f = Ok ((), Cpu (gpr f) (seg f) (eip f) f' (ram f))) by (intros []; destruct off; by eexists).
  destruct (decide (level cs0 = 3)) as [Hu|Hu]; intros Hlo Hhi; destruct (pushes_error vec);
    rewrite ?Z.sub_0_r; (x_step; do 4 try x_step;
     match goal with |- context[(?m ≫= ?k) ?s] => destruct (Hcl s) as [f' Ef] end; eexists _, f', _;
     split; [erewrite st_bind_ok by exact Ef; x_step; reflexivity|];
     cbn [ds es fs gs ss ram]; addr; split_and!; intros; try done; try (words; done); try (by repeat apply stl_ram);
     try (by destruct r; cbn; first [apply (Hs DS)|apply (Hs ES)|apply (Hs FS)|apply (Hs GS)|apply (Hs SS)|apply Z.mod_pos_bound; lia]); try (split; words; done); by rewrite !stl_other by lia).
Qed.

(** A stub on a stack with an error code where it expects one. *)
Lemma stub_ok entry vec b c : let real := bool_decide (vec ∈ real_stubs) in in_u32 vec → in_u32 (ebp (gpr c)) →
  96 ≤ b → b + 24 < 2^32 → esp (gpr c) = b - (if real then 4 else 0) → is_ram (ram c) →
  ∃ m, stub entry vec c = Ok ((), Cpu (setr ESP (b - 12) (gpr c)) (seg c) entry (eflags c) m) ∧
    ldl m (b - 12) = vec ∧ ldl m (b - 8) = (if real then ldl (ram c) (b - 4) else 0) ∧ ldl m (b - 4) = ebp (gpr c) ∧
    is_ram m ∧ ∀ x, x < b - 12 ∨ b ≤ x → m x = ram c x.
Proof.
  intros real Hv Hbp Hlo Hhi Hsp Hm. pose proof (ldl_range _ (b - 4) Hm) as Her.
  destruct c as [[a cc d bb p bp si di] sg ip fl m]. cbn in *. unfold in_u32, stub in *. change (bool_decide (vec ∈ real_stubs)) with real. clearbody real.
  destruct real; subst p; rewrite ?Z.sub_0_r; unfold REAL, zero; x_step; x_step; eexists; (split; [reflexivity|]); cbn; addr;
    (split_and!; [words..|repeat apply stl_ram; done|intros; by rewrite !stl_other by lia]; done).
Qed.

Lemma save_ok b c : (∀ r, in_u32 (getr r (gpr c))) → (∀ r, 0 ≤ gets r (seg c) < 65536) →
  96 ≤ b → b + 24 < 2^32 → esp (gpr c) = b - 12 → is_ram (ram c) →
  ∃ g sg fl m, intr_save c = Ok ((), Cpu g sg (eip c) fl m) ∧ esp g = b - 64 ∧ ebp g = b - 4 ∧ ldl m (b - 64) = b - 60 ∧ ss sg = ss (seg c) ∧
    frame_at m (b - 60) =
      Iframe (edi (gpr c)) (esi (gpr c)) (ebp (gpr c)) (ebx (gpr c)) (edx (gpr c)) (ecx (gpr c)) (eax (gpr c))
        (gs (seg c)) (fs (seg c)) (es (seg c)) (ds (seg c))
        (ldl (ram c) (b - 12)) (ldl (ram c) (b - 8)) (ldl (ram c) (b - 4)) (ldl (ram c) b) (ldl (ram c) (b + 4)) (ldl (ram c) (b + 8)) ∧
    is_ram m ∧ ∀ x, x < b - 64 ∨ b - 12 ≤ x → m x = ram c x.
Proof.
  intros Hg Hs Hlo Hhi Hsp Hm.
  pose proof (Hg EAX) as H1. pose proof (Hg ECX) as H2. pose proof (Hg EDX) as H3. pose proof (Hg EBX) as H4.
  pose proof (Hg EBP) as H5. pose proof (Hg ESI) as H6. pose proof (Hg EDI) as H7.
  pose proof (Hs DS) as H8. pose proof (Hs ES) as H9. pose proof (Hs FS) as H10. pose proof (Hs GS) as H11. clear Hg Hs.
  destruct c as [[a cc d bb p bp si di] [cs0 ds0 es0 fs0 gs0 ss1] ip fl m]. cbn in *. unfold in_u32 in *. subst p.
  unfold intr_save, pushal. eexists _, _, _, _. split; [do 4 x_step; x_step; do 5 x_step; reflexivity|].
  cbn [getr esp ebp ss seg gpr with_gpr setr with_ram ram]. wrap. addr. split; [done|]. split; [done|]. split; [by words|]. split; [done|]. split; [|split].
  - unfold frame_at. addr. words. done.
  - by repeat apply stl_ram.
  - intros x Hx. by rewrite !stl_other by lia.
Qed.

(** intr_exit continues with the registers of the frame on the stack. *)
Lemma exit_ok f c : 0 ≤ f → f + 84 < 2^32 → esp (gpr c) = f →
  let fr := frame_at (ram c) f in
  let user := level (f_cs fr) in
  intr_exit c = Ok ((), Cpu (regs_of fr (if decide (user = 3) then ldl (ram c) (f + 72) else f + 72))
    (sregs_of fr (if decide (user = 3) then ldl (ram c) (f + 76) `mod` 65536 else ss (seg c))) (f_eip fr) (f_eflags fr) (ram c)).
Proof.
  intros Hlo Hhi Hsp. destruct c as [[a cc d bb p bp si di] [cs0 ds0 es0 fs0 gs0 ss1] ip fl m]. cbn in *. subst p.
  unfold intr_exit, popal, iret. x_step. do 4 x_step. unfold addl at 1. x_step. do 5 x_step. x_step. 
  destruct (decide (level (ldl m (f + 64)) = 3)) as [Hu|Hu].
  - do 2 x_step. x_step. unfold regs_of, sregs_of, frame_at. cbn. addr. reflexivity.
  - reflexivity.
Qed.

Lemma frame_ext m m' f : (∀ x, f ≤ x < f + 72 → m' x = m x) → frame_at m' f = frame_at m f.
Proof. intros H. unfold frame_at. by rewrite !(ldl_ext m m') by (intros; apply H; lia). Qed.

(** The way up to the handler. *)
Lemma enter_ok esp0 ss0 stub_address entry after h off vec error c :
  cpu_ok c → is_ram (ram c) → in_u32 vec → in_u32 error → in_u32 after → 100 ≤ base esp0 c → base esp0 c + 24 < 2^32 →
  bool_decide (vec ∈ real_stubs) = pushes_error vec →
  ∃ c1, let f := base esp0 c - 60 in
    take_interrupt esp0 ss0 stub_address entry after h off vec error c = (h;; addl 4 ESP;; intr_exit) c1 ∧
    is_ram (ram c1) ∧ esp (gpr c1) = f - 8 ∧ ldl (ram c1) (f - 4) = f ∧
    frame_at (ram c1) f = frame_of vec (if pushes_error vec then error else 0) c ∧
    (level (cs (seg c)) = 3 → ldl (ram c1) (f + 72) = esp (gpr c) ∧ ldl (ram c1) (f + 76) = ss (seg c)) ∧
    (level (cs (seg c)) ≠ 3 → ss (seg c1) = ss (seg c)) ∧
    (∀ x, x < f - 8 ∨ top esp0 c ≤ x → ram c1 x = ram c x).
Proof.
  intros Hc Hm Hv Her Haf Hlo Hhi Hreal. unfold take_interrupt.
  destruct (interrupt_pushes esp0 ss0 (stub_address vec) off vec error c Hc Hm Her Hlo Hhi)
    as (sg & fl & m & E & Hds & Hes & Hfs & Hgs & Hip & Hcs & Hfl & Herr & Hss & Hmr & Hsr & Hu & Hsame).
  pose proof (co_gpr _ Hc) as Hg. set (b := base esp0 c) in *. rewrite (st_bind_ok _ _ _ _ _ E).
  assert (Hg' : ∀ r p, 0 ≤ p < 2^32 → in_u32 (getr r (setr ESP p (gpr c)))).
  { intros r p Hp. specialize (Hg r). destruct (gpr c), r; done. }
  assert (Htop : b + 12 ≤ top esp0 c) by (unfold b, base, top; destruct (decide (level (cs (seg c)) = 3)); lia).
  destruct (stub_ok entry vec b (Cpu (setr ESP (b - (if pushes_error vec then 4 else 0)) (gpr c)) sg (stub_address vec) fl m))
    as (m1 & E1 & Hvec & Herr1 & Hbp1 & Hmr1 & Hsame1); [done|apply (Hg' EBP); destruct (pushes_error vec); lia|lia|done|rewrite Hreal; by destruct (gpr c)|done|].
  rewrite Hreal in Herr1.
  cbn [gpr seg ram eflags] in *. rewrite (st_bind_ok _ _ _ _ _ E1).
  destruct (save_ok b (Cpu (setr ESP (b - 12) (setr ESP (b - (if pushes_error vec then 4 else 0)) (gpr c))) sg entry fl m1))
    as (g2 & sg2 & fl2 & m2 & E2 & Hsp2 & _ & Hf2 & Hss2 & Hfr2 & Hmr2 & Hsame2);
    [intros r; specialize (Hg' r (b - 12) ltac:(lia)); destruct (gpr c), r; done|done|lia|done|by destruct (gpr c)|done|].
  cbn [gpr seg ram eflags eip] in *. unfold intr_entry. rewrite (st_bind_ok _ _ _ _ _ E2).
  exists (Cpu (setr ESP (b - 68) g2) sg2 entry fl2 (stl (b - 68) after m2)). cbn [gpr seg ram].
  assert (Hm2 : ∀ a, b ≤ a → ldl (stl (b - 68) after m2) a = ldl m a).
  { intros a Ha. rewrite ldl_other by lia. apply ldl_ext. intros x Hx. rewrite Hsame2, Hsame1 by lia. done. }
  split; [|split; [|split; [|split; [|split; [|split; [|split]]]]]].
  - unfold call. rewrite <- st_bind_assoc. destruct g2. cbn in Hsp2. subst. x_step. reflexivity.
  - by apply stl_ram.
  - destruct g2. cbn. lia.
  - rewrite ldl_other by lia. by replace (b - 60 - 4) with (b - 64) by lia.
  - rewrite (frame_ext m2) by (intros; rewrite stl_other by lia; done). rewrite Hfr2. unfold frame_of.
    rewrite Hvec, Herr1, Hbp1, Hgs, Hfs, Hes, Hds, !(ldl_ext m m1) by (intros; apply Hsame1; lia). rewrite Hip, Hcs, Hfl.
    destruct (gpr c). cbn. f_equal. destruct (pushes_error vec); auto.
  - intros Hl. replace (b - 60 + 72) with (b + 12) by lia. replace (b - 60 + 76) with (b + 16) by lia. rewrite !Hm2 by lia. by apply Hu.
  - intros Hl. rewrite Hss2. by apply Hss.
  - intros x Hx. rewrite stl_other, Hsame2, Hsame1, Hsame by lia. done.
Qed.

(** A handler that returns to its caller. *)
Definition returns (h : X ()) : Prop := ∀ c, is_ram (ram c) → ∃ c',
  h c = Ok ((), c') ∧ esp (gpr c') = u32 (esp (gpr c) + 4) ∧ ss (seg c') = ss (seg c).


(** ** Vectors *)

(** The vectors of the processor's exceptions and of devices whose stubs fit. *)
Lemma stubs_fit vec : 0 ≤ vec < 256 → vec ∉ [12; 24; 26; 27; 29; 30] → bool_decide (vec ∈ real_stubs) = pushes_error vec.
Proof.
  intros Hv Hn. assert (H : Forall (λ v, v ∈ [12; 24; 26; 27; 29; 30] ∨ bool_decide (v ∈ real_stubs) = pushes_error v) (seqZ 0 256)) by compute_hyp.
  rewrite Forall_forall in H. destruct (H vec) as [?|?]; [apply elem_of_seqZ; lia|done|done].
Qed.

(** A stack fault, vector 12, has an error code that its stub does not expect: the
    handler sees the error code as the address of the instruction, the address as the selector and
    the selector as the flags. *)
Theorem stack_fault_frame_shifted esp0 ss0 stub_address entry off error c :
  cpu_ok c → is_ram (ram c) → in_u32 error → 100 ≤ base esp0 c → base esp0 c + 24 < 2^32 →
  ∃ c1, (interrupt esp0 ss0 (stub_address 12) off 12 error;; stub entry 12;; intr_save) c = Ok ((), c1) ∧
    let f := base esp0 c - 64 in
    ldl (ram c1) (esp (gpr c1)) = f ∧ f_vec_no (frame_at (ram c1) f) = 12 ∧ f_error_code (frame_at (ram c1) f) = 0 ∧
    f_eip (frame_at (ram c1) f) = error ∧ f_cs (frame_at (ram c1) f) = eip c ∧ f_eflags (frame_at (ram c1) f) = cs (seg c).
Proof.
  intros Hc Hm Her Hlo Hhi.
  destruct (interrupt_pushes esp0 ss0 (stub_address 12) off 12 error c Hc Hm Her Hlo Hhi)
    as (sg & fl & m & E & _ & _ & _ & _ & Hip & Hcs & Hfl & Herr & _ & Hmr & Hsr & _ & _). change (pushes_error 12) with true in E, Herr.
  pose proof (co_gpr _ Hc) as Hg. set (b := base esp0 c) in *. rewrite (st_bind_ok _ _ _ _ _ E). cbv iota.
  assert (Hg' : ∀ r p, 0 ≤ p < 2^32 → in_u32 (getr r (setr ESP p (gpr c)))).
  { intros r p Hp. specialize (Hg r). destruct (gpr c), r; done. }
  destruct (stub_ok entry 12 (b - 4) (Cpu (setr ESP (b - 4) (gpr c)) sg (stub_address 12) fl m))
    as (m1 & E1 & Hvec & Herr1 & Hbp1 & Hmr1 & Hsame1);
    [done|apply (Hg' EBP); lia|lia|lia|change (bool_decide (12 ∈ real_stubs)) with false; destruct (gpr c); cbn; lia|done|].
  cbn [gpr seg ram eflags] in *. rewrite (st_bind_ok _ _ _ _ _ E1).
  destruct (save_ok (b - 4) (Cpu (setr ESP (b - 4 - 12) (setr ESP (b - 4) (gpr c))) sg entry fl m1))
    as (g2 & sg2 & fl2 & m2 & E2 & Hsp2 & _ & Hf2 & _ & Hfr2 & _ & _);
    [intros r; specialize (Hg' r (b - 4 - 12) ltac:(lia)); destruct (gpr c), r; done|done|lia|lia|by destruct (gpr c)|done|].
  eexists. split; [exact E2|]. cbn [ram gpr]. rewrite Hsp2. replace (b - 64) with (b - 4 - 60) by lia.
  rewrite Hfr2. cbn [f_vec_no f_error_code f_eip f_cs f_eflags ram]. split; [done|]. split; [done|]. split; [done|].
  rewrite !(ldl_ext m m1) by (intros; apply Hsame1; lia). addr.
  split; [exact (Herr eq_refl)|]. split; [exact Hip|exact Hcs].
Qed.

(** A program in user mode, whose registers hold different values, and a handler
    that returns at once. *)
Definition demo_program : cpu := Cpu (Regs 1 2 3 4 3221225000 6 7 8) (Sregs 27 35 35 35 35 35) 134512640 514 (λ _, 0).

Lemma demo_program_ok : cpu_ok demo_program.
Proof. split; [intros []..| |]; by vm_compute. Qed.

