(* ===== verification/Start.v ===== *)
(** * threads/start.S: from real mode to main

    The kernel's startup code on the processor of X86.v with its control registers, the
    keyboard controller behind which address line 20 hides, and the
    interrupt 15h of the BIOS.  In real mode an address is 16 times a segment
    register plus an offset of 16 bits.  [translate] is the processor's walk
    through the page tables. *)

From S2P Require Import Prelude Bitmap Vaddr Descriptors X86.

Local Open Scope Z_scope.

(** [status] is what the keyboard controller's status register will read, the [n]-th
    time; [ports] are the bytes written to ports. *)
Record boot := Boot {
  core : cpu;
  cr0 : Z;
  cr3 : Z;
  gdtr : Z * Z;
  reads : nat;
  ports : list (Z * Z);
}.

Abbreviation B := (ST boot).

Definition on_cpu {A} (m : X A) : B A := λ s,
  match m (core s) with
  | Ok (a, c) => Ok (a, Boot c (cr0 s) (cr3 s) (gdtr s) (reads s) (ports s))
  | Err e => Err e
  end.

Definition CR0_PE : Z := 1.
Definition CR0_EM : Z := 4.
Definition CR0_PG : Z := 2147483648.
Definition CR0_WP : Z := 65536.

Definition LOADER_PHYS_BASE : Z := PHYS_BASE.
Definition SEL_KCSEG : Z := 8.
Definition SEL_KDSEG : Z := 16.

(** ** Instructions of real mode *)

(** A 16-bit register is the low half of a 32-bit one. *)
Definition low (v : Z) : Z := v `mod` 65536.
Definition movw (r : reg) (v : Z) : X () := x ← rd r; mov r (x - low x + low v).
(** %ah, the second byte of %eax, and %al. *)
Definition movb_ah (v : Z) : X () := x ← rd EAX; mov EAX (x - low x + 256 * (v `mod` 256) + x `mod` 256).
Definition movb_al (v : Z) : X () := x ← rd EAX; mov EAX (x - x `mod` 256 + v `mod` 256).
Definition movs_ax (r : sreg) : X () := v ← rd EAX; movs r (low v).
Definition addw (n : Z) (r : reg) : X () :=
  v ← rd r; movw r (low v + n);; arith_flags (bool_decide (65536 ≤ low v + n)) (bool_decide (low (low v + n) = 0)).
Definition subr (r : reg) : X () := mov r 0;; arith_flags false true.

(** A word at an offset in a segment. *)
Definition far_store (s : sreg) (off v : Z) : X () := b ← rds s; store (16 * b + off) v.

(** [loop]: counts %cx down; true if it jumps. *)
Definition loop : X bool := v ← rd ECX; movw ECX (low v - 1);; v ← rd ECX; mret (bool_decide (low v ≠ 0)).

(** ** start *)

Section start.
Context (status : nat → Z).
(** The value that interrupt 15h function 88h returns in %ax. *)
Context (extended_kb : Z).
(** Addresses of variables, of the descriptor, of main, of the instruction
    after its call and of the instruction after the far jump. *)
Context (init_ram_pages gdtdesc main after protected : Z).

Definition inb_status : B Z := s ← st_get; st_modify (λ s, Boot (core s) (cr0 s) (cr3 s) (gdtr s) (S (reads s)) (ports s));; mret (status (reads s)).
Definition outb (port v : Z) : B () := st_modify (λ s, Boot (core s) (cr0 s) (cr3 s) (gdtr s) (reads s) (ports s ++ [(port, v)])).

(** Polls the status register while it is busy. *)
Fixpoint poll (fuel : nat) : B () :=
  match fuel with
  | O => st_fail EFuel
  | S fuel =>
      v ← inb_status; on_cpu (movb_al v);;
      if Z.testbit v 1 then poll fuel else mret tt
  end.

Definition segments : B () := on_cpu (movw EAX 8192;; movs_ax DS;; movs_ax ES;; cld).

Definition memory_size : B () :=
  on_cpu (
    movb_ah 136;;
    movw EAX extended_kb;;
    addl 1024 EAX;;
    (v ← rd EAX; if decide (v ≤ 65536) then mret tt else mov EAX 65536);;
    (v ← rd EAX; mov EAX (Z.shiftr v 2));;
    (v ← rd EAX; far_store DS (init_ram_pages - LOADER_PHYS_BASE - 131072) v)).

Definition enable_a20 (fuel : nat) : B () :=
  poll fuel;;
  on_cpu (movb_al 209);; outb 100 209;;
  poll fuel;;
  on_cpu (movb_al 223);; outb 96 223;;
  poll fuel.

(** rep stosl, with the count that is in %cx. *)
Fixpoint rep_stosl (n : nat) : X () :=
  match n with
  | O => mret tt
  | S n =>
      (v ← rd EAX; d ← rd EDI; far_store ES (low d) v);;
      (d ← rd EDI; movw EDI (low d + 4));;
      (v ← rd ECX; movw ECX (low v - 1));;
      rep_stosl n
  end.

Definition clear_directory : B () :=
  on_cpu (movw EAX 3840;; movs_ax ES;; subr EAX;; subr EDI;; mov ECX 1024;; (v ← rd ECX; rep_stosl (Z.to_nat (low v)))).

Definition pde_body : X () :=
  (v ← rd EAX; d ← rd EDI; far_store ES (low d) v);;
  (v ← rd EAX; d ← rd EDI; far_store ES (low (Z.shiftr LOADER_PHYS_BASE 20 + low d)) v);;
  addw 4 EDI;;
  addl 4096 EAX.
Definition pte_body : X () :=
  (v ← rd EAX; d ← rd EDI; far_store ES (low d) v);;
  addw 4 EDI;;
  addl 4096 EAX.

(** A body and [loop]; %cx counts at most 65536 turns. *)
Fixpoint looped (body : X ()) (fuel : nat) : X () :=
  match fuel with
  | O => st_fail EFuel
  | S fuel => body;; again ← loop; if (again : bool) then looped body fuel else mret tt
  end.

Definition make_pdes : B () := on_cpu (mov EAX 65543;; mov ECX 17;; subr EDI;; looped pde_body (Z.to_nat 65536)).
Definition make_ptes : B () := on_cpu (movw EAX 4096;; movs_ax ES;; mov EAX 7;; mov ECX 16384;; subr EDI;; looped pte_body (Z.to_nat 65536)).

Definition set_cr3 : B () :=
  on_cpu (mov EAX 61440);;
  v ← on_cpu (rd EAX);
  st_modify (λ s, Boot (core s) (cr0 s) v (gdtr s) (reads s) (ports s)).

(** lgdt: a limit of 16 bits and a base of 32. *)
Definition lgdt : B () :=
  d ← on_cpu (rds DS);
  let p := 16 * d + (gdtdesc - LOADER_PHYS_BASE - 131072) in
  st_modify (λ s, Boot (core s) (cr0 s) (cr3 s) (low (ldl (ram (core s)) p), ldl (ram (core s)) (p + 2)) (reads s) (ports s)).

Definition set_cr0 : B () :=
  s ← st_get;
  on_cpu (mov EAX (cr0 s));;
  on_cpu (v ← rd EAX; mov EAX (Z.lor v (Z.lor (Z.lor (Z.lor CR0_PE CR0_PG) CR0_WP) CR0_EM)));;
  v ← on_cpu (rd EAX);
  st_modify (λ s, Boot (core s) v (cr3 s) (gdtr s) (reads s) (ports s)).

(** ** Paging *)

(** The physical address of a virtual one, through the directory at [dir]. *)
Definition translate (m : Z → Z) (dir va : Z) : option Z :=
  let pde := ldl m (dir + 4 * (va / 4194304)) in
  if Z.testbit pde 0 then
    let pte := ldl m (pde / 4096 * 4096 + 4 * ((va / 4096) `mod` 1024)) in
    if Z.testbit pte 0 then Some (pte / 4096 * 4096 + va `mod` 4096) else None
  else None.

(** A push after paging is on. *)
Definition vpushl (v : Z) : B () :=
  s ← st_get;
  on_cpu (sp ← rd ESP; mov ESP (u32 (sp - 4)));;
  match translate (ram (core s)) (cr3 s) (u32 (esp (gpr (core s)) - 4)) with
  | Some pa => on_cpu (store pa v)
  | None => st_fail EFault
  end.

(** The far jump to protected mode, and the code there. *)
Definition protected_mode : B () :=
  on_cpu (movs CS SEL_KCSEG;; jmp protected);;
  on_cpu (movw EAX SEL_KDSEG;; movs_ax DS;; movs_ax ES;; movs_ax FS;; movs_ax GS;; movs_ax SS);;
  on_cpu (addl LOADER_PHYS_BASE ESP;; mov EBP 0);;
  vpushl after;;
  on_cpu (jmp main).

Definition start (fuel : nat) : B () :=
  segments;;
  memory_size;;
  enable_a20 fuel;;
  clear_directory;;
  make_pdes;;
  make_ptes;;
  set_cr3;;
  on_cpu cli;;
  lgdt;;
  set_cr0;;
  protected_mode.
End start.

(** The descriptors at [gdt], and the descriptor of the table. *)
Definition gdt_entries : list Z := [0; 58434644969848831; 58425848876826623].
Definition gdt_limit : Z := 23.

(** * Theorems *)

(** ** Tables of words *)

(** [n] words [f i] from address [a] on. *)
Fixpoint fill (a : Z) (f : Z → Z) (n : nat) (m : Z → Z) : Z → Z :=
  match n with O => m | S n => stl (a + 4 * Z.of_nat n) (f (Z.of_nat n)) (fill a f n m) end.

Lemma fill_other a f n m x : x < a ∨ a + 4 * Z.of_nat n ≤ x → fill a f n m x = m x.
Proof. induction n as [|n IH]; intros H; [done|]. cbn [fill]. rewrite stl_other, IH by lia. done. Qed.

Lemma fill_same a f n m i : 0 ≤ i < Z.of_nat n → in_u32 (f i) → ldl (fill a f n m) (a + 4 * i) = f i.
Proof.
  induction n as [|n IH]; intros Hi Hf; [lia|]. cbn [fill]. destruct (decide (i = Z.of_nat n)) as [->|Hne].
  - by rewrite ldl_same.
  - rewrite ldl_other by lia. apply IH; [lia|done].
Qed.

Lemma fill_ram a f n m : is_ram m → is_ram (fill a f n m).
Proof. intros H. induction n; [done|]. by apply stl_ram. Qed.

(** The entries of the directory: each one twice. *)
Fixpoint pdes (n : nat) (m : Z → Z) : Z → Z :=
  match n with
  | O => m
  | S n => let v := 65543 + 4096 * Z.of_nat n in stl (64512 + 4 * Z.of_nat n) v (stl (61440 + 4 * Z.of_nat n) v (pdes n m))
  end.

Lemma pdes_other n m x : (n ≤ 17)%nat → x < 61440 ∨ 61440 + 4 * Z.of_nat n ≤ x < 64512 ∨ 64512 + 4 * Z.of_nat n ≤ x → pdes n m x = m x.
Proof. induction n as [|n IH]; intros Hn H; [done|]. cbn [pdes]. rewrite !stl_other, IH by lia. done. Qed.

Lemma pdes_same n m i : (n ≤ 17)%nat → 0 ≤ i < Z.of_nat n →
  ldl (pdes n m) (61440 + 4 * i) = 65543 + 4096 * i ∧ ldl (pdes n m) (64512 + 4 * i) = 65543 + 4096 * i.
Proof.
  induction n as [|n IH]; intros Hn Hi; [lia|]. cbn [pdes]. destruct (decide (i = Z.of_nat n)) as [->|Hne].
  - rewrite ldl_other, ldl_same by (unfold in_u32; lia). by rewrite ldl_same by (unfold in_u32; lia).
  - rewrite !ldl_other by lia. apply IH; lia.
Qed.

Lemma pdes_ram n m : is_ram m → is_ram (pdes n m).
Proof. intros H. induction n; [done|]. by do 2 apply stl_ram. Qed.

(** ** Loops *)

Lemma low_id v : 0 ≤ v < 65536 → low v = v.
Proof. apply Z.mod_small. Qed.

(** An instruction of 16-bit code. *)
Ltac x16 := x_go; repeat match goal with |- context[low ?x] => rewrite (low_id x) by lia end; wrap.

Lemma stosl_ok n k a d b sp bp si sg ip fl m : es sg = 3840 → (n + k = 1024)%nat →
  rep_stosl n (Cpu (Regs a (Z.of_nat n) d b sp bp si (4 * Z.of_nat k)) sg ip fl (fill 61440 (λ _, a) k m)) =
    Ok ((), Cpu (Regs a 0 d b sp bp si 4096) sg ip fl (fill 61440 (λ _, a) 1024 m)).
Proof.
  intros He. revert k. destruct sg as [cs0 ds0 es0 fs0 gs0 ss0]. cbn in He. subst es0. induction n as [|n IH]; intros k Hk.
  { cbn in Hk. subst k. reflexivity. }
  cbn [rep_stosl]. do 3 x16.
  replace (4 * Z.of_nat k - 4 * Z.of_nat k + (4 * Z.of_nat k + 4)) with (4 * Z.of_nat (S k)) by lia.
  replace (Z.of_nat (S n) - Z.of_nat (S n) + (Z.of_nat (S n) - 1)) with (Z.of_nat n) by lia.
  apply (IH (S k)). lia.
Qed.

(** A body and [loop], on states that are given by the number of turns, the
    counter and the flags. *)
Section looped.
Context (body : X ()) (n : nat) (state : nat → Z → Z → cpu).
Hypothesis body_ok : ∀ k c fl, (k < n)%nat → ∃ fl', body (state k c fl) = Ok ((), state (S k) c fl').
Hypothesis loop_ok : ∀ k c fl, 1 ≤ c < 65536 → loop (state k c fl) = Ok (bool_decide (c ≠ 1), state k (c - 1) fl).

Lemma looped_ok r k fl fuel : (S r + k = n)%nat → Z.of_nat n < 65536 → (r < fuel)%nat →
  ∃ fl', looped body fuel (state k (Z.of_nat (S r)) fl) = Ok ((), state n 0 fl').
Proof.
  revert k fl fuel. induction r as [|r IH]; intros k fl fuel Hk Hn Hf; (destruct fuel as [|fuel]; [lia|]); cbn [looped].
  - destruct (body_ok k 1 fl ltac:(lia)) as [fl1 E]. change (Z.of_nat 1) with 1. rewrite (st_bind_ok _ _ _ _ _ E).
    rewrite (st_bind_ok _ _ _ _ _ (loop_ok (S k) 1 fl1 ltac:(lia))). cbn. exists fl1. by replace (S k) with n by lia.
  - destruct (body_ok k (Z.of_nat (S (S r))) fl ltac:(lia)) as [fl1 E]. rewrite (st_bind_ok _ _ _ _ _ E).
    rewrite (st_bind_ok _ _ _ _ _ (loop_ok (S k) (Z.of_nat (S (S r))) fl1 ltac:(lia))).
    rewrite bool_decide_true by lia. replace (Z.of_nat (S (S r)) - 1) with (Z.of_nat (S r)) by lia. apply IH; lia.
Qed.
End looped.

(** [loop] on registers. *)
Lemma loop_regs a c d b sp bp si di sg ip fl m : 1 ≤ c < 65536 →
  loop (Cpu (Regs a c d b sp bp si di) sg ip fl m) = Ok (bool_decide (c ≠ 1), Cpu (Regs a (c - 1) d b sp bp si di) sg ip fl m).
Proof.
  intros Hc. unfold loop. do 3 x16. replace (c - c + (c - 1)) with (c - 1) by lia.
  replace (bool_decide (c - 1 ≠ 0)) with (bool_decide (c ≠ 1)); [done|]. apply bool_decide_ext. lia.
Qed.

Lemma pde_loop_ok fuel d b sp bp si sg ip fl m : (17 ≤ fuel)%nat → es sg = 3840 →
  ∃ fl', looped pde_body fuel (Cpu (Regs 65543 17 d b sp bp si 0) sg ip fl m) = Ok ((), Cpu (Regs 135175 0 d b sp bp si 68) sg ip fl' (pdes 17 m)).
Proof.
  intros Hfuel He. destruct sg as [cs0 ds0 es0 fs0 gs0 ss0]. cbn in He. subst es0.
  assert (Hb : ∀ k c fl, (k < 17)%nat → ∃ fl',
    pde_body (Cpu (Regs (65543 + 4096 * Z.of_nat k) c d b sp bp si (4 * Z.of_nat k)) (Sregs cs0 ds0 3840 fs0 gs0 ss0) ip fl (pdes k m)) =
    Ok ((), Cpu (Regs (65543 + 4096 * Z.of_nat (S k)) c d b sp bp si (4 * Z.of_nat (S k))) (Sregs cs0 ds0 3840 fs0 gs0 ss0) ip fl' (pdes (S k) m))).
  { intros k c f Hk. unfold pde_body, addw, addl, LOADER_PHYS_BASE. change (Z.shiftr PHYS_BASE 20) with 3072. eexists.
    do 3 x16. do 2 x16. cbn [pdes].
    replace (16 * 3840 + (3072 + 4 * Z.of_nat k)) with (64512 + 4 * Z.of_nat k) by lia.
    replace (4 * Z.of_nat k - 4 * Z.of_nat k + (4 * Z.of_nat k + 4)) with (4 * Z.of_nat (S k)) by lia.
    replace (65543 + 4096 * Z.of_nat k + 4096) with (65543 + 4096 * Z.of_nat (S k)) by lia. reflexivity. }
  exact (looped_ok pde_body 17 _ Hb (λ k c fl Hc, loop_regs _ c _ _ _ _ _ _ _ _ fl _ Hc) 16 0 fl fuel eq_refl ltac:(lia) Hfuel).
Qed.

(** Entry [i] of the page tables. *)
Definition pte (i : Z) : Z := 7 + 4096 * i.

Lemma pte_loop_ok fuel d b sp bp si sg ip fl m : (Z.to_nat 16384 ≤ fuel)%nat → es sg = 4096 →
  ∃ fl' a di, looped pte_body fuel (Cpu (Regs 7 16384 d b sp bp si 0) sg ip fl m) =
    Ok ((), Cpu (Regs a 0 d b sp bp si di) sg ip fl' (fill 65536 pte (Z.to_nat 16384) m)) ∧ in_u32 a.
Proof.
  intros Hfuel He. destruct sg as [cs0 ds0 es0 fs0 gs0 ss0]. cbn in He. subst es0.
  assert (Hb : ∀ k c fl, (k < Z.to_nat 16384)%nat → ∃ fl',
    pte_body (Cpu (Regs (7 + 4096 * Z.of_nat k) c d b sp bp si (low (4 * Z.of_nat k))) (Sregs cs0 ds0 4096 fs0 gs0 ss0) ip fl (fill 65536 pte k m)) =
    Ok ((), Cpu (Regs (7 + 4096 * Z.of_nat (S k)) c d b sp bp si (low (4 * Z.of_nat (S k)))) (Sregs cs0 ds0 4096 fs0 gs0 ss0) ip fl' (fill 65536 pte (S k) m))).
  { intros k c f Hk. unfold pte_body, addw, addl. eexists. rewrite (low_id (4 * Z.of_nat k)) by lia.
    do 3 x16. cbn [fill].
    replace (4 * Z.of_nat k - 4 * Z.of_nat k + low (4 * Z.of_nat k + 4)) with (low (4 * Z.of_nat (S k))) by (replace (4 * Z.of_nat (S k)) with (4 * Z.of_nat k + 4) by lia; lia).
    replace (7 + 4096 * Z.of_nat k + 4096) with (7 + 4096 * Z.of_nat (S k)) by lia. reflexivity. }
  destruct (looped_ok pte_body (Z.to_nat 16384) _ Hb (λ k c fl Hc, loop_regs _ c _ _ _ _ _ _ _ _ fl _ Hc) (Z.to_nat 16383) 0 fl fuel) as [fl' E]; [lia..|].
  exists fl', (7 + 4096 * Z.of_nat (Z.to_nat 16384)), (low (4 * Z.of_nat (Z.to_nat 16384))).
  split; [|unfold in_u32; lia]. replace (Z.of_nat (S (Z.to_nat 16383))) with 16384 in E by lia. exact E.
Qed.

(** ** The tables *)

Lemma odd_bit v : v `mod` 2 = 1 → Z.testbit v 0 = true.
Proof. intros H. pose proof (Z.bit0_mod v) as E. rewrite H in E. by destruct (Z.testbit v 0). Qed.

(** Memory with the directory and the tables of the first 64 MB. *)
Record tables_in (m : Z → Z) : Prop := {
  ti_low : ∀ i, 0 ≤ i < 17 → ldl m (61440 + 4 * i) = 65543 + 4096 * i;
  ti_high : ∀ i, 0 ≤ i < 17 → ldl m (64512 + 4 * i) = 65543 + 4096 * i;
  ti_pte : ∀ i, 0 ≤ i < 16384 → ldl m (65536 + 4 * i) = pte i;
}.

Lemma tables_made m : tables_in (fill 65536 pte (Z.to_nat 16384) (pdes 17 m)).
Proof.
  split; intros i Hi.
  1, 2: rewrite (ldl_ext (pdes 17 m)) by (intros; apply fill_other; lia); apply pdes_same; lia.
  apply fill_same; [lia|]. unfold pte, in_u32. lia.
Qed.

Lemma tables_ext m m' : (∀ x, 61440 ≤ x < 131072 → m' x = m x) → tables_in m → tables_in m'.
Proof. intros H [H1 H2 H3]. split; intros i Hi; rewrite (ldl_ext m m') by (intros; apply H; lia); auto. Qed.

Lemma translate_ok m va pa : tables_in m → 0 ≤ pa < 67108864 → va = pa ∨ va = PHYS_BASE + pa → translate m 61440 va = Some pa.
Proof.
  intros Ht Hpa Hva. unfold translate.
  set (i := pa / 4194304). assert (Hi : 0 ≤ i < 16) by (unfold i; dlia).
  assert (Hpde : ldl m (61440 + 4 * (va / 4194304)) = 65543 + 4096 * i).
  { unfold PHYS_BASE in Hva. destruct Hva as [->| ->]; [by rewrite (ti_low _ Ht) by lia|].
    replace (61440 + 4 * ((3221225472 + pa) / 4194304)) with (64512 + 4 * i) by (unfold i; dlia). by rewrite (ti_high _ Ht) by lia. }
  rewrite Hpde, odd_bit by dlia.
  assert (Hpte : ldl m ((65543 + 4096 * i) / 4096 * 4096 + 4 * ((va / 4096) `mod` 1024)) = pte (pa / 4096)).
  { rewrite <- (ti_pte _ Ht) by dlia. f_equal. unfold PHYS_BASE, i in *. destruct Hva as [->| ->]; dlia. }
  rewrite Hpte, odd_bit by (unfold pte; dlia). f_equal. unfold PHYS_BASE, pte in *. destruct Hva as [->| ->]; dlia.
Qed.

(** ** The parts of start *)

Lemma on_cpu_ok {A} (m : X A) s a c : m (core s) = Ok (a, c) → on_cpu m s = Ok (a, Boot c (cr0 s) (cr3 s) (gdtr s) (reads s) (ports s)).
Proof. intros E. unfold on_cpu. by rewrite E. Qed.

Definition with_cpu (c : cpu) (s : boot) : boot := Boot c (cr0 s) (cr3 s) (gdtr s) (reads s) (ports s).

(** The pages of a machine with [kb] kB behind the first megabyte. *)
Definition pages (kb : Z) : Z := Z.min (kb + 1024) 65536 / 4.

Lemma segments_memory_ok kb irp a c d b sp bp si di sg ip fl m :
  0 ≤ kb < 65536 → 0 ≤ a < 65536 → PHYS_BASE + 131072 ≤ irp → irp + 4 < 2^32 →
  ∃ fl', (movw EAX 8192;; movs_ax DS;; movs_ax ES;; cld) (Cpu (Regs a c d b sp bp si di) sg ip fl m) =
      Ok ((), Cpu (Regs 8192 c d b sp bp si di) (sets ES 8192 (sets DS 8192 sg)) ip fl' m) ∧
    ∀ fl, ∃ fl', (movb_ah 136;; movw EAX kb;; addl 1024 EAX;;
      (v ← rd EAX; if decide (v ≤ 65536) then mret tt else mov EAX 65536);;
      (v ← rd EAX; mov EAX (Z.shiftr v 2));;
      (v ← rd EAX; far_store DS (irp - LOADER_PHYS_BASE - 131072) v))
      (Cpu (Regs 8192 c d b sp bp si di) (sets ES 8192 (sets DS 8192 sg)) ip fl m) =
      Ok ((), Cpu (Regs (pages kb) c d b sp bp si di) (sets ES 8192 (sets DS 8192 sg)) ip fl' (stl (irp - PHYS_BASE) (pages kb) m)).
Proof.
  intros Hkb Ha Hirp Hi2. destruct sg as [cs0 ds0 es0 fs0 gs0 ss0]. unfold LOADER_PHYS_BASE, PHYS_BASE in *. eexists. split.
  - x16. do 2 x16. unfold cld. replace (a - a + 8192) with 8192 by lia. reflexivity.
  - intros f. eexists. do 2 x16.
    match goal with |- _ (Cpu (Regs ?x _ _ _ _ _ _ _) _ _ _ _) = _ => replace x with kb by (change (136 `mod` 256) with 136; change (8192 `mod` 256) with 0; rewrite low_id; lia) end.
    unfold addl. x16. rewrite (st_bind_ok _ _ _ () (Cpu (Regs (Z.min (kb + 1024) 65536) c d b sp bp si di) (Sregs cs0 8192 8192 fs0 gs0 ss0) ip
      (set_flag ZF (bool_decide (kb + 1024 = 0)) (set_flag CF (bool_decide (2 ^ 32 ≤ kb + 1024)) f)) m)).
    + x16. rewrite Z.shiftr_div_pow2 by lia. change (2^2) with 4. change (Z.min (kb + 1024) 65536 / 4) with (pages kb). unfold far_store. do 2 x16.
      unfold store, st_modify, with_ram. cbn [gpr seg eip eflags ram]. wrap. replace (16 * 8192 + (irp - 3221356544)) with (irp - 3221225472) by lia. reflexivity.
    + x16. case_decide; [rewrite Z.min_l by lia|rewrite Z.min_r by lia]; reflexivity.
Qed.

(** The keyboard controller is not busy at some time within [fuel] reads. *)
Definition answers (status : nat → Z) (fuel : nat) : Prop := ∀ n, ∃ i, (i < fuel)%nat ∧ Z.testbit (status (n + i)%nat) 1 = false.

Lemma poll_ok status fuel a c d b sp bp si di sg ip fl m r0 r3 g n ps : 
  (∃ i, (i < fuel)%nat ∧ Z.testbit (status (n + i)%nat) 1 = false) → in_u32 a →
  ∃ a' n', poll status fuel (Boot (Cpu (Regs a c d b sp bp si di) sg ip fl m) r0 r3 g n ps) =
    Ok ((), Boot (Cpu (Regs a' c d b sp bp si di) sg ip fl m) r0 r3 g n' ps) ∧ in_u32 a'.
Proof.
  revert a n. induction fuel as [|fuel IH]; intros a n (i & Hi & Hb) Ha; [lia|]. cbn [poll].
  set (a1 := a - a `mod` 256 + status n `mod` 256). assert (Ha1 : in_u32 a1) by (unfold a1, in_u32 in *; dlia).
  assert (E : (v ← inb_status status; on_cpu (movb_al v);; if Z.testbit v 1 then poll status fuel else mret tt)
    (Boot (Cpu (Regs a c d b sp bp si di) sg ip fl m) r0 r3 g n ps) =
    (if Z.testbit (status n) 1 then poll status fuel else mret tt) (Boot (Cpu (Regs a1 c d b sp bp si di) sg ip fl m) r0 r3 g (S n) ps)) by reflexivity.
  rewrite E. destruct (Z.testbit (status n) 1) eqn:Et.
  - destruct i as [|i]; [rewrite Nat.add_0_r in Hb; congruence|]. apply IH; [|done]. exists i. split; [lia|]. by replace (S n + i)%nat with (n + S i)%nat by lia.
  - by exists a1, (S n).
Qed.

Lemma a20_ok status fuel a c d b sp bp si di sg ip fl m r0 r3 g n ps : answers status fuel → in_u32 a →
  ∃ a' n', enable_a20 status fuel (Boot (Cpu (Regs a c d b sp bp si di) sg ip fl m) r0 r3 g n ps) =
    Ok ((), Boot (Cpu (Regs a' c d b sp bp si di) sg ip fl m) r0 r3 g n' (ps ++ [(100, 209); (96, 223)])) ∧ in_u32 a'.
Proof.
  intros Hs Ha. unfold enable_a20.
  destruct (poll_ok status fuel a c d b sp bp si di sg ip fl m r0 r3 g n ps (Hs n) Ha) as (a1 & n1 & E1 & Ha1). rewrite (st_bind_ok _ _ _ _ _ E1).
  do 2 erewrite st_bind_ok by reflexivity. cbn [core cr0 cr3 gdtr reads ports].
  edestruct (poll_ok status fuel (a1 - a1 `mod` 256 + 209 `mod` 256) c d b sp bp si di sg ip fl m r0 r3 g n1 (ps ++ [(100, 209)]) (Hs n1)) as (a2 & n2 & E2 & Ha2).
  { unfold in_u32 in *. change (209 `mod` 256) with 209. dlia. }
  rewrite (st_bind_ok _ _ _ _ _ E2). do 2 erewrite st_bind_ok by reflexivity. cbn [core cr0 cr3 gdtr reads ports].
  edestruct (poll_ok status fuel (a2 - a2 `mod` 256 + 223 `mod` 256) c d b sp bp si di sg ip fl m r0 r3 g n2 (ps ++ [(100, 209); (96, 223)]) (Hs n2)) as (a3 & n3 & E3 & Ha3).
  { unfold in_u32 in *. change (223 `mod` 256) with 223. dlia. }
  exists a3, n3. split; [|done]. rewrite <- E3. by rewrite <- app_assoc.
Qed.

(** A segment register that is loaded through %ax. *)
Lemma segment_ok r v a c d b sp bp si di sg ip fl m : 0 ≤ v < 65536 → in_u32 a →
  ∃ a', (movw EAX v;; movs_ax r) (Cpu (Regs a c d b sp bp si di) sg ip fl m) = Ok ((), Cpu (Regs a' c d b sp bp si di) (sets r v sg) ip fl m) ∧ in_u32 a'.
Proof.
  intros Hv Ha. exists (a - low a + v). split; [|unfold low, in_u32 in *; dlia]. x16. unfold movs_ax. x16.
  unfold movs, st_modify, with_seg. cbn [gpr seg eip eflags ram].
  replace (low (a - low a + v)) with v by (unfold low; dlia). by rewrite Z.mod_small.
Qed.

Lemma directory_ok a c d b sp bp si di sg ip fl m : in_u32 a →
  ∃ fl', (movw EAX 3840;; movs_ax ES;; subr EAX;; subr EDI;; mov ECX 1024;; (v ← rd ECX; rep_stosl (Z.to_nat (low v))))
      (Cpu (Regs a c d b sp bp si di) sg ip fl m) =
    Ok ((), Cpu (Regs 0 0 d b sp bp si 4096) (sets ES 3840 sg) ip fl' (fill 61440 (λ _, 0) 1024 m)).
Proof.
  intros Ha. destruct (segment_ok ES 3840 a c d b sp bp si di sg ip fl m) as (a' & E & Ha'); [lia|done|].
  rewrite st_bind_assoc, (st_bind_ok _ _ _ _ _ E). eexists. do 4 x_go. rewrite (low_id 1024) by lia. 
  apply (stosl_ok 1024 0 0 d b sp bp si _ ip _ m); by destruct sg.
Qed.

Lemma pdes_ok fuel d b sp bp si sg ip fl m di c a : (17 ≤ fuel)%nat → es sg = 3840 →
  ∃ fl', (mov EAX 65543;; mov ECX 17;; subr EDI;; looped pde_body fuel) (Cpu (Regs a c d b sp bp si di) sg ip fl m) =
    Ok ((), Cpu (Regs 135175 0 d b sp bp si 68) sg ip fl' (pdes 17 m)).
Proof.
  intros Hf He. destruct (pde_loop_ok fuel d b sp bp si sg ip (set_flag ZF true (set_flag CF false fl)) m Hf He) as [fl' E].
  exists fl'. do 3 x_go. exact E.
Qed.

Lemma ptes_ok fuel a c d b sp bp si di sg ip fl m : (Z.to_nat 16384 ≤ fuel)%nat → in_u32 a →
  ∃ fl' a' di', (movw EAX 4096;; movs_ax ES;; mov EAX 7;; mov ECX 16384;; subr EDI;; looped pte_body fuel) (Cpu (Regs a c d b sp bp si di) sg ip fl m) =
    Ok ((), Cpu (Regs a' 0 d b sp bp si di') (sets ES 4096 sg) ip fl' (fill 65536 pte (Z.to_nat 16384) m)) ∧ in_u32 a'.
Proof.
  intros Hf Ha. destruct (segment_ok ES 4096 a c d b sp bp si di sg ip fl m) as (a1 & E & Ha1); [lia|done|].
  destruct (pte_loop_ok fuel d b sp bp si (sets ES 4096 sg) ip (set_flag ZF true (set_flag CF false fl)) m Hf) as (fl' & a' & di' & E' & Ha'); [by destruct sg|].
  exists fl', a', di'. split; [|done]. rewrite st_bind_assoc, (st_bind_ok _ _ _ _ _ E). do 3 x_go. exact E'.
Qed.

(** ** The whole *)

(** The kernel's data that start uses, where the loader put the kernel; addresses are
    those that the kernel was linked for. *)
Record image (m : Z → Z) (init_ram_pages gdtdesc gdt : Z) : Prop := {
  im_pages : PHYS_BASE + 131072 ≤ init_ram_pages ∧ init_ram_pages + 4 ≤ PHYS_BASE + 2^26;
  im_gdtdesc : PHYS_BASE + 131072 ≤ gdtdesc ∧ gdtdesc + 6 ≤ PHYS_BASE + 2^26;
  im_gdt : PHYS_BASE + 131072 ≤ gdt ∧ gdt + 24 ≤ PHYS_BASE + 2^26;
  im_apart : init_ram_pages + 4 ≤ gdtdesc ∨ gdtdesc + 6 ≤ init_ram_pages;
  im_apart2 : init_ram_pages + 4 ≤ gdt ∨ gdt + 24 ≤ init_ram_pages;
  im_limit : low (ldl m (gdtdesc - PHYS_BASE)) = gdt_limit;
  im_base : ldl m (gdtdesc - PHYS_BASE + 2) = gdt;
  im_entries : ∀ i e, gdt_entries !! i = Some e →
    ldl m (gdt - PHYS_BASE + 8 * Z.of_nat i) + 2^32 * ldl m (gdt - PHYS_BASE + 8 * Z.of_nat i + 4) = e;
}.

(** The 8 bytes at a virtual address. *)
Definition vquad (m : Z → Z) (dir va : Z) : option Z :=
  a ← translate m dir va; b ← translate m dir (va + 4); Some (ldl m a + 2^32 * ldl m b).

Lemma flag_other n k b f : 0 ≤ n → 0 ≤ k → n ≠ k → Z.testbit (set_flag n b f) k = Z.testbit f k.
Proof. intros. unfold set_flag. destruct b; [by rewrite Z.setbit_neq|by rewrite Z.clearbit_neq]. Qed.

#[local] Opaque fill pdes looped.

Lemma low_movw x v : 0 ≤ v < 65536 → low (x - low x + v) = v.
Proof. intros. unfold low. dlia. Qed.

(** The segment registers of protected mode. *)
Lemma data_segments_ok a c d b sp bp si di sg ip fl m :
  (movw EAX SEL_KDSEG;; movs_ax DS;; movs_ax ES;; movs_ax FS;; movs_ax GS;; movs_ax SS) (Cpu (Regs a c d b sp bp si di) sg ip fl m) =
    Ok ((), Cpu (Regs (a - low a + 16) c d b sp bp si di) (Sregs (cs sg) 16 16 16 16 16) ip fl m).
Proof.
  destruct sg as [cs0 ds0 es0 fs0 gs0 ss0]. unfold movs_ax, SEL_KDSEG. do 5 (x_go; rewrite ?(low_id 16), ?low_movw by lia; change (16 `mod` 65536) with 16).
  x_go. rewrite ?low_movw by lia. reflexivity.
Qed.

Section whole.
Context (status : nat → Z) (kb irp gdtdesc gdt main after protected : Z) (fuel : nat).
Context (a c d b sp bp si di : Z) (sg : sregs) (ip fl : Z) (m : Z → Z) (r0 r3 : Z) (g : Z * Z) (n : nat) (ps : list (Z * Z)).

(** Memory with the tables, and the number of pages. *)
Definition start_ram : Z → Z := fill 65536 pte (Z.to_nat 16384) (pdes 17 (fill 61440 (λ _, 0) 1024 (stl (irp - PHYS_BASE) (pages kb) m))).

Lemma start_ram_kernel x : 131072 ≤ x → (x < irp - PHYS_BASE ∨ irp - PHYS_BASE + 4 ≤ x) → start_ram x = m x.
Proof. intros H1 H2. unfold start_ram. by rewrite fill_other, pdes_other, fill_other, stl_other by lia. Qed.

(** Up to the page tables. *)
Lemma tables_ok : answers status fuel → 0 ≤ kb < 65536 → 0 ≤ a < 65536 → PHYS_BASE + 131072 ≤ irp → irp + 4 < 2^32 →
  ∃ a' di' fl' n', ∀ A (k : B A),
    (segments;; memory_size kb irp;; enable_a20 status fuel;; clear_directory;; make_pdes;; make_ptes;; k)
      (Boot (Cpu (Regs a c d b sp bp si di) sg ip fl m) r0 r3 g n ps) =
    k (Boot (Cpu (Regs a' 0 d b sp bp si di') (sets ES 4096 (sets ES 3840 (sets ES 8192 (sets DS 8192 sg)))) ip fl' start_ram) r0 r3 g n' (ps ++ [(100, 209); (96, 223)])).
Proof.
  intros Hst Hkb Ha Hi1 Hi2. unfold segments, memory_size, clear_directory, make_pdes, make_ptes.
  destruct (segments_memory_ok kb irp a c d b sp bp si di sg ip fl m Hkb Ha Hi1 Hi2) as (f1 & E1 & E2'). destruct (E2' f1) as [f2 E2].
  set (sg1 := sets ES 8192 (sets DS 8192 sg)) in *. set (m1 := stl (irp - PHYS_BASE) (pages kb) m) in *.
  assert (Hp : in_u32 (pages kb)) by (unfold pages, in_u32; dlia).
  destruct (a20_ok status fuel (pages kb) c d b sp bp si di sg1 ip f2 m1 r0 r3 g n ps Hst Hp) as (a3 & n3 & E3 & Ha3).
  destruct (directory_ok a3 c d b sp bp si di sg1 ip f2 m1 Ha3) as (f4 & E4).
  assert (He : es (sets ES 3840 sg1) = 3840) by (by destruct sg).
  destruct (pdes_ok (Z.to_nat 65536) d b sp bp si (sets ES 3840 sg1) ip f4 (fill 61440 (λ _, 0) 1024 m1) 4096 0 0 ltac:(lia) He) as (f5 & E5).
  assert (Hfuel : (Z.to_nat 16384 ≤ Z.to_nat 65536)%nat) by (apply Z2Nat.inj_le; lia). assert (Hu : in_u32 135175) by (unfold in_u32; lia).
  destruct (ptes_ok (Z.to_nat 65536) 135175 0 d b sp bp si 68 (sets ES 3840 sg1) ip f5 (pdes 17 (fill 61440 (λ _, 0) 1024 m1)) Hfuel Hu) as (f6 & a6 & di6 & E6 & _).
  exists a6, di6, f6, n3. intros A k.
  rewrite (st_bind_ok _ _ _ _ _ (on_cpu_ok _ (Boot _ r0 r3 g n ps) _ _ E1)). cbn [cr0 cr3 gdtr reads ports].
  rewrite (st_bind_ok _ _ _ _ _ (on_cpu_ok _ (Boot _ r0 r3 g n ps) _ _ E2)). cbn [cr0 cr3 gdtr reads ports].
  rewrite (st_bind_ok _ _ _ _ _ E3).
  rewrite (st_bind_ok _ _ _ _ _ (on_cpu_ok _ (Boot _ r0 r3 g n3 _) _ _ E4)). cbn [cr0 cr3 gdtr reads ports].
  rewrite (st_bind_ok _ _ _ _ _ (on_cpu_ok _ (Boot _ r0 r3 g n3 _) _ _ E5)). cbn [cr0 cr3 gdtr reads ports].
  rewrite (st_bind_ok _ _ _ _ _ (on_cpu_ok _ (Boot _ r0 r3 g n3 _) _ _ E6)). reflexivity.
Qed.

Lemma start_ram_tables : PHYS_BASE + 131072 ≤ irp → tables_in start_ram.
Proof. intros. apply tables_made. Qed.

(** From the page tables to main. *)
Lemma protected_ok a' di' sg' fl' n' ps' : ds sg' = 8192 → 4 ≤ sp ≤ 61440 → PHYS_BASE + 131072 ≤ irp → in_u32 after → in_u32 r0 →
  ∃ a'' fl'', (set_cr3;; on_cpu cli;; lgdt gdtdesc;; set_cr0;; protected_mode main after protected)
      (Boot (Cpu (Regs a' 0 d b sp bp si di') sg' ip fl' start_ram) r0 r3 g n' ps') =
    Ok ((), Boot (Cpu (Regs a'' 0 d b (PHYS_BASE + sp - 4) 0 si di') (Sregs 8 16 16 16 16 16) main fl'' (stl (sp - 4) after start_ram))
      (Z.lor r0 2147549189) 61440 (low (ldl start_ram (gdtdesc - PHYS_BASE)), ldl start_ram (gdtdesc - PHYS_BASE + 2)) n' ps') ∧
    Z.testbit fl'' IF = false.
Proof.
  intros Hds Hsp Hirp Haf Hr0. destruct sg' as [cs0 ds0 es0 fs0 gs0 ss0]. cbn in Hds. subst ds0.
  set (r0' := Z.lor r0 2147549189).
  unfold protected_mode. set (gd := (low (ldl start_ram (gdtdesc - PHYS_BASE)), ldl start_ram (gdtdesc - PHYS_BASE + 2))).
  assert (E1 : ∀ A (k : B A), (set_cr3;; on_cpu cli;; lgdt gdtdesc;; set_cr0;; k) (Boot (Cpu (Regs a' 0 d b sp bp si di') (Sregs cs0 8192 es0 fs0 gs0 ss0) ip fl' start_ram) r0 r3 g n' ps') =
    k (Boot (Cpu (Regs r0' 0 d b sp bp si di') (Sregs cs0 8192 es0 fs0 gs0 ss0) ip (Z.clearbit fl' IF) start_ram) r0' 61440 gd n' ps')).
  { intros A k. unfold gd. replace (gdtdesc - PHYS_BASE) with (16 * 8192 + (gdtdesc - LOADER_PHYS_BASE - 131072)) by (unfold LOADER_PHYS_BASE; lia). reflexivity. }
  rewrite E1. set (f1 := Z.clearbit fl' IF).
  rewrite (st_bind_ok _ _ _ () (Boot (Cpu (Regs r0' 0 d b sp bp si di') (Sregs 8 8192 es0 fs0 gs0 ss0) protected f1 start_ram) r0' 61440 gd n' ps')) by reflexivity.
  rewrite (st_bind_ok _ _ _ _ _ (on_cpu_ok _ (Boot _ r0' 61440 gd n' ps') _ _ (data_segments_ok _ _ _ _ _ _ _ _ _ _ _ _))).
  cbn [cr0 cr3 gdtr reads ports cs]. set (a'' := r0' - low r0' + 16).
  set (f2 := set_flag ZF (bool_decide (PHYS_BASE + sp = 0)) (set_flag CF (bool_decide (2^32 ≤ PHYS_BASE + sp)) f1)).
  assert (E2 : (addl LOADER_PHYS_BASE ESP;; mov EBP 0) (Cpu (Regs a'' 0 d b sp bp si di') (Sregs 8 16 16 16 16 16) protected f1 start_ram) =
    Ok ((), Cpu (Regs a'' 0 d b (PHYS_BASE + sp) 0 si di') (Sregs 8 16 16 16 16 16) protected f2 start_ram)).
  { unfold addl, LOADER_PHYS_BASE, f2. unfold PHYS_BASE in *. x_go. replace (sp + 3221225472) with (3221225472 + sp) by lia. reflexivity. }
  rewrite (st_bind_ok _ _ _ _ _ (on_cpu_ok _ (Boot _ r0' 61440 gd n' ps') _ _ E2)). cbn [cr0 cr3 gdtr reads ports].
  assert (E3 : vpushl after (Boot (Cpu (Regs a'' 0 d b (PHYS_BASE + sp) 0 si di') (Sregs 8 16 16 16 16 16) protected f2 start_ram) r0' 61440 gd n' ps') =
    Ok ((), Boot (Cpu (Regs a'' 0 d b (PHYS_BASE + sp - 4) 0 si di') (Sregs 8 16 16 16 16 16) protected f2 (stl (sp - 4) after start_ram)) r0' 61440 gd n' ps')).
  { unfold vpushl. change (st_get ≫= ?k) with (λ s, k s s). cbn beta. cbn [core ram gpr esp cr3].
    erewrite st_bind_ok by reflexivity. unfold PHYS_BASE in *. rewrite u32_id by (unfold in_u32; lia).
    rewrite (translate_ok _ _ (sp - 4)); [|by apply start_ram_tables|lia|right; unfold PHYS_BASE; lia].
    unfold on_cpu, store, st_modify, with_ram. cbn. wrap. reflexivity. }
  rewrite (st_bind_ok _ _ _ _ _ E3). exists a'', f2. split; [reflexivity|].
  unfold f2, f1. rewrite !flag_other by done. by apply Z.clearbit_eq.
Qed.
End whole.

(** C35: the startup code reaches main in protected mode.  On a machine whose keyboard controller answers, with
    the kernel in memory from 128 kB on, a stack below 60 kB and the upper half of %eax
    clear, start ends in main with paging, write protection and the code and
    data segments of the kernel in force and interrupts off; the first 64 MB of memory are mapped both one-to-one and from PHYS_BASE on;
    init_ram_pages is the number of pages, at most those of 64 MB; the stack is the loader's, at its virtual address; the
    descriptor table that the processor finds at its virtual address is the kernel's, and its entries are those that
    gdt_init makes for the kernel. *)
Theorem start_reaches_main status kb init_ram_pages gdtdesc gdt main after protected fuel s :
  answers status fuel → 0 ≤ kb < 65536 → image (ram (core s)) init_ram_pages gdtdesc gdt →
  0 ≤ eax (gpr (core s)) < 65536 → 4 ≤ esp (gpr (core s)) ≤ 61440 → in_u32 after → in_u32 (cr0 s) →
  ∃ s', start status kb init_ram_pages gdtdesc main after protected fuel s = Ok ((), s') ∧
    eip (core s') = main ∧ seg (core s') = Sregs 8 16 16 16 16 16 ∧ Z.testbit (eflags (core s')) IF = false ∧
    Forall (λ n, Z.testbit (cr0 s') n = true) [0; 2; 16; 31] ∧
    (∀ pa, 0 ≤ pa < 2^26 → translate (ram (core s')) (cr3 s') pa = Some pa ∧ translate (ram (core s')) (cr3 s') (PHYS_BASE + pa) = Some pa) ∧
    ldl (ram (core s')) (init_ram_pages - PHYS_BASE) = Z.min (kb + 1024) 65536 / 4 ∧
    esp (gpr (core s')) = PHYS_BASE + esp (gpr (core s)) - 4 ∧ ebp (gpr (core s')) = 0 ∧
    gdtr s' = (8 * 3 - 1, gdt) ∧ vquad (ram (core s')) (cr3 s') gdt = Some 0 ∧
    (kc ← vquad (ram (core s')) (cr3 s') (gdt + SEL_KCSEG); Some (Ok kc)) = Some (make_code_desc 0) ∧
    (kd ← vquad (ram (core s')) (cr3 s') (gdt + SEL_KDSEG); Some (Ok kd)) = Some (make_data_desc 0).
Proof.
  intros Hst Hkb [Hp1 [Hd1 Hd2] [Hg1 Hg2] Ha1 Ha2 Hlim Hbase Hent] Ha Hsp Haf Hr0. assert (HPB : PHYS_BASE = 3221225472) by reflexivity.
  destruct s as [[[a c d b sp bp si di] sg ip fl m] r0 r3 g n ps]. cbn [core gpr eax esp ram cr0] in *.
  destruct (tables_ok status kb init_ram_pages fuel a c d b sp bp si di sg ip fl m r0 r3 g n ps Hst Hkb Ha) as (a1 & di1 & fl1 & n1 & E1); [lia..|].
  edestruct (protected_ok kb init_ram_pages gdtdesc main after protected d b sp bp si ip m r0 r3 g a1 di1
    (sets ES 4096 (sets ES 3840 (sets ES 8192 (sets DS 8192 sg)))) fl1 n1 (ps ++ [(100, 209); (96, 223)])) as (a2 & fl2 & E2 & Hif);
    [by destruct sg|lia|lia|done|done|].
  set (m' := stl (sp - 4) after (start_ram kb init_ram_pages m)) in *.
  assert (Hm : ∀ x, 131072 ≤ x → (x < init_ram_pages - PHYS_BASE ∨ init_ram_pages - PHYS_BASE + 4 ≤ x) → m' x = m x).
  { intros x Hx Hy. unfold m'. rewrite stl_other by lia. by apply start_ram_kernel. }
  assert (Ht : tables_in m'). { apply (tables_ext (start_ram kb init_ram_pages m)); [intros; unfold m'; by rewrite stl_other by lia|]. apply start_ram_tables. lia. }
  eexists. split; [unfold start; rewrite E1; exact E2|]. cbn [core eip seg eflags ram gpr esp ebp cr0 cr3 gdtr].
  assert (Hl : ∀ x, 131072 ≤ x → (x + 4 ≤ init_ram_pages - PHYS_BASE ∨ init_ram_pages - PHYS_BASE + 4 ≤ x) → ldl m' x = ldl m x).
  { intros x Hx Hy. apply ldl_ext. intros; apply Hm; lia. }
  assert (Hq : ∀ i e, gdt_entries !! i = Some e → (i < 3)%nat → vquad m' 61440 (gdt + 8 * Z.of_nat i) = Some e).
  { intros i e He Hi. unfold vquad. rewrite (translate_ok m' (gdt + 8 * Z.of_nat i) (gdt + 8 * Z.of_nat i - PHYS_BASE)); [|exact Ht|lia|right; lia].
    cbn [mbind option_bind]. rewrite (translate_ok m' (gdt + 8 * Z.of_nat i + 4) (gdt + 8 * Z.of_nat i + 4 - PHYS_BASE)); [|exact Ht|lia|right; lia].
    cbn [mbind option_bind]. rewrite !Hl by lia. rewrite <- (Hent i e He). 
    replace (gdt + 8 * Z.of_nat i - PHYS_BASE) with (gdt - PHYS_BASE + 8 * Z.of_nat i) by lia.
    replace (gdt + 8 * Z.of_nat i + 4 - PHYS_BASE) with (gdt - PHYS_BASE + 8 * Z.of_nat i + 4) by lia. reflexivity. }
  split; [reflexivity|]. split; [reflexivity|]. split; [exact Hif|]. split; [|split; [|split; [|split; [|split; [|split; [|split; [|split]]]]]]].
  - repeat constructor; rewrite Z.lor_spec; apply orb_true_r.
  - intros pa Hpa. split; apply translate_ok; (exact Ht || lia || tauto).
  - unfold m', start_ram. rewrite ldl_other by lia. 
    rewrite (ldl_ext (stl (init_ram_pages - PHYS_BASE) (pages kb) m)) by (intros; rewrite fill_other, pdes_other, fill_other by lia; reflexivity).
    apply ldl_same. unfold pages, in_u32. dlia.
  - reflexivity.
  - reflexivity.
  - rewrite (ldl_ext m), Hlim, (ldl_ext m), Hbase by (intros; apply start_ram_kernel; lia). reflexivity.
  - pose proof (Hq 0%nat 0 eq_refl ltac:(lia)) as H. by rewrite Z.add_0_r in H.
  - by rewrite (Hq 1%nat 58434644969848831 eq_refl ltac:(lia) : vquad m' 61440 (gdt + SEL_KCSEG) = _).
  - by rewrite (Hq 2%nat 58425848876826623 eq_refl ltac:(lia) : vquad m' 61440 (gdt + SEL_KDSEG) = _).
Qed.

(** The directory has one entry more than the 16 that 64 MB need: its page table would be
    the page at 128 kB, the first page of the kernel itself. *)
Lemma extra_directory_entry kb irp m : PHYS_BASE + 131072 ≤ irp →
  ldl (start_ram kb irp m) (61440 + 4 * (2^26 / 4194304)) / 4096 * 4096 = 131072 ∧ Z.testbit (ldl (start_ram kb irp m) (61440 + 4 * 16)) 0 = true.
Proof.
  intros H. pose proof (ti_low _ (start_ram_tables kb irp m H) 16 ltac:(lia)) as E. change (2^26 / 4194304) with 16. rewrite E. split; reflexivity.
Qed.

Definition demo_image : Z → Z :=
  stl 141002 3221367472 (stl 141000 23
    (stl 142008 65535 (stl 142012 13605376 (stl 142016 65535 (stl 142020 13603328 (λ _, 0)))))).
Definition demo_boot : boot := Boot (Cpu (Regs 0 0 0 0 61440 0 0 0) (Sregs 8192 0 0 0 0 0) 0 2 demo_image) 16 0 (0, 0) 0 [].

Lemma demo_image_ok : image demo_image (PHYS_BASE + 140000) (PHYS_BASE + 141000) (PHYS_BASE + 142000).
Proof.
  split; [unfold PHYS_BASE; lia..|by vm_compute|by vm_compute|].
  intros [|[|[|i]]] e He; [by injection He as <-..|done].
Qed.

Lemma start_reaches_main_witness : ∃ s', start (λ n, if decide (n = 0%nat) then 2 else 0) 3072 (PHYS_BASE + 140000) (PHYS_BASE + 141000) 3221370000 5 6 2 demo_boot = Ok ((), s') ∧
  eip (core s') = 3221370000 ∧ ldl (ram (core s')) 140000 = 1024.
Proof.
  destruct (start_reaches_main (λ n, if decide (n = 0%nat) then 2 else 0) 3072 (PHYS_BASE + 140000) (PHYS_BASE + 141000) (PHYS_BASE + 142000) 3221370000 5 6 2 demo_boot)
    as (s' & E & Hip & _ & _ & _ & _ & Hp & _).
  - intros n. exists 1%nat. split; [lia|]. rewrite decide_False by lia. done.
  - lia.
  - exact demo_image_ok.
  - by vm_compute.
  - by vm_compute.
  - by vm_compute.
  - by vm_compute.
  - exists s'. split; [exact E|]. split; [exact Hip|]. exact Hp.
Defined.
