(* ===== verification/Loader.v ===== *)
(** * threads/loader.S: finding the kernel on a disk

    The boot loader.  Each label of loader.S is a definition whose arguments are the registers that are in
    use there; [cf] is the carry flag where a jump depends on an earlier
    instruction.  The BIOS's services are: reading a sector (interrupt 13h), printing
    a character (10h) and sending one to the serial port (14h). *)

From S2P Require Import Prelude Bitmap Memory CString CStdlib Stdio Ustar X86.

Local Open Scope Z_scope.

(** A register of 8 or 16 bits. *)
Definition b8 (v : Z) : Z := v `mod` 256.
Definition w16 (v : Z) : Z := v `mod` 65536.

(** [screen] and [line] are the characters printed and sent; [sends] counts the uses of interrupt
    14h, and [patched] is true once its instruction is overwritten. *)
Record loader := Loader {
  memory : Z → Z;
  screen : list Z;
  line : list Z;
  sends : nat;
  patched : bool;
}.

Abbreviation LM := (ST loader).

(** How the loader ends: a jump to a segment and an offset, or interrupt 18h after a
    message. *)
Inductive ending := Jumps (segment offset : Z) | NotFound | BadRead.

Definition ldw (m : Z → Z) (a : Z) : Z := m a + 256 * m (a + 1).

Section loader.
(** The sectors of each drive: a drive that is not there has none; and whether the
    [n]-th character sent over the serial line times out. *)
Context (disk : Z → Z → option (list Z)) (timed_out : nat → bool).

(** ** Output *)

Definition int10 (al : Z) : LM () := st_modify (λ s, Loader (memory s) (screen s ++ [al]) (line s) (sends s) (patched s)).
(** Interrupt 14h, which leaves its status in %ah. *)
Definition int14 (al : Z) : LM bool :=
  s ← st_get;
  st_modify (λ s, Loader (memory s) (screen s) (if timed_out (sends s) then line s else line s ++ [al]) (S (sends s)) (patched s));;
  mret (timed_out (sends s)).
Definition patch : LM () := st_modify (λ s, Loader (memory s) (screen s) (line s) (sends s) true).

(** One turn of putc. *)
Definition putc_one (al : Z) : LM () :=
  int10 al;;
  s ← st_get;
  if patched s then mret tt
  else t ← int14 al; if (t : bool) then patch else mret tt.

Definition putc (al : Z) : LM () :=
  putc_one al;;
  if decide (al = 13) then putc_one 10 else mret tt.

Fixpoint puts (text : list Z) : LM () :=
  match text with [] => mret tt | c :: text => putc c;; puts text end.

(** ** Sectors *)

Fixpoint put_bytes (a : Z) (bs : list Z) (m : Z → Z) : Z → Z :=
  match bs with [] => m | b :: bs => put_bytes (a + 1) bs (stb a b m) end.

(** read_sector: sector [ebx] of drive [dl] goes to [es]:0; true if the carry flag is set. *)
Definition read_sector (dl ebx es : Z) : LM bool :=
  match disk dl ebx with
  | Some bs =>
      st_modify (λ s, Loader (put_bytes (16 * es) bs (memory s)) (screen s) (line s) (sends s) (patched s));;
      mret false
  | None => mret true
  end.

(** A byte, a word and a long word at an offset from 0x20000. *)
Definition byte_at (off : Z) : LM Z := st_gets (λ s, memory s (131072 + off)).
Definition word_at (off : Z) : LM Z := st_gets (λ s, ldw (memory s) (131072 + off)).
Definition long_at (off : Z) : LM Z := st_gets (λ s, ldl (memory s) (131072 + off)).

(** ** Loading *)

(** The loop at next_sector, with the low half of %ecx as its counter. *)
Fixpoint next_sector (fuel : nat) (dl ebx cx ax : Z) : LM bool :=
  match fuel with
  | O => st_fail EFuel
  | S fuel =>
      cf ← read_sector dl ebx ax;
      if (cf : bool) then mret true
      else
        (if decide (Z.land ebx 15 = 0) then puts (str ".") else mret tt);;
        let ax := w16 (ax + 32) in
        let ebx := ebx - w16 ebx + w16 (ebx + 1) in
        let cx := w16 (cx - 1) in
        if decide (cx = 0) then mret false else next_sector fuel dl ebx cx ax
  end.

Definition load_kernel (dl si : Z) : LM ending :=
  puts (13 :: str "Loading");;
  ecx ← long_at (si + 12);
  let cx := if decide (ecx ≤ 1024) then w16 ecx else 1024 in
  ebx ← long_at (si + 8);
  failed ← next_sector (Z.to_nat 65536) dl ebx cx 8192;
  if (failed : bool) then puts (13 :: str "Bad read" ++ [13]);; mret BadRead
  else
    puts [13];;
    dx ← word_at 24;
    mret (Jumps 8192 dx).

(** ** Searching *)

(** [cf] is the carry flag at next_drive: inc does not change it. *)
Inductive verdict := Load (si : Z) | NextDrive (cf : bool).

(** check_partition and next_partition: [n] entries are left. *)
Fixpoint check_partition (n : nat) (si al : Z) : LM verdict :=
  match n with
  | O => mret (NextDrive false)
  | S n =>
      l ← long_at si;
      let next := check_partition n (si + 16) (b8 (al + 1)) in
      if decide (l = 0) then next
      else
        putc al;;
        t ← byte_at (si + 4);
        if decide (t ≠ 32) then next
        else
          f ← byte_at si;
          if decide (f = 128) then mret (Load si) else next
  end.

(** read_mbr, up to the next drive. *)
Definition read_mbr_one (dl : Z) : LM (option verdict) :=
  cf ← read_sector dl 0 8192;
  if (cf : bool) then mret None
  else
    puts (str " hd");;
    putc (b8 (dl + 97 - 128));;
    sig ← word_at 510;
    if decide (sig ≠ 43605) then mret (Some (NextDrive (bool_decide (sig < 43605))))
    else v ← check_partition 4 446 49; mret (Some v).

Definition no_boot_partition : LM ending := puts (13 :: str "Not found" ++ [13]);; mret NotFound.

Fixpoint read_mbr (fuel : nat) (dl : Z) : LM ending :=
  match fuel with
  | O => st_fail EFuel
  | S fuel =>
      v ← read_mbr_one dl;
      match v with
      | None => no_boot_partition
      | Some (Load si) => load_kernel dl si
      | Some (NextDrive cf) => if (cf : bool) then no_boot_partition else read_mbr fuel (b8 (dl + 1))
      end
  end.

(** The whole loader; [fuel] bounds the number of drives. *)
Definition boot (fuel : nat) : LM ending := puts (str "PiLo");; read_mbr fuel 128.
End loader.

(** * Theorems *)

(** ** Sectors in memory *)

Definition sector_ok (bs : list Z) : Prop := length bs = 512%nat ∧ Forall (λ b, 0 ≤ b < 256) bs.

Lemma put_bytes_other a bs m x : x < a ∨ a + Z.of_nat (length bs) ≤ x → put_bytes a bs m x = m x.
Proof.
  revert a m. induction bs as [|b bs IH]; intros a m H; [done|]. cbn [put_bytes length] in *. rewrite IH by lia. unfold stb. by rewrite decide_False by lia.
Qed.

Lemma put_bytes_same a bs m i b : bs !! i = Some b → put_bytes a bs m (a + Z.of_nat i) = b.
Proof.
  revert a m i. induction bs as [|b' bs IH]; intros a m i H; [done|]. cbn [put_bytes]. destruct i as [|i].
  - injection H as ->. rewrite put_bytes_other by lia. unfold stb. by rewrite decide_True by lia.
  - replace (a + Z.of_nat (S i)) with (a + 1 + Z.of_nat i) by lia. by apply IH.
Qed.

(** [m] holds the block [bs] at [a]. *)
Definition block_at (m : Z → Z) (a : Z) (bs : list Z) : Prop := bytes m a (Z.of_nat (length bs)) = bs.

Lemma block_at_lookup m a bs i b : block_at m a bs → bs !! i = Some b → m (a + Z.of_nat i) = b.
Proof.
  intros H Hi. unfold block_at, bytes in H. pose proof (lookup_lt_Some _ _ _ Hi).
  assert (E : (m <$> seqZ a (Z.of_nat (length bs))) !! i = Some (m (a + Z.of_nat i))).
  { rewrite list_lookup_fmap, lookup_seqZ_lt by lia. done. }
  rewrite H in E. congruence.
Qed.

Lemma block_at_put a bs m : block_at (put_bytes a bs m) a bs.
Proof.
  unfold block_at, bytes. apply list_eq. intros i. rewrite list_lookup_fmap. destruct (decide (i < length bs)%nat) as [Hi|Hi].
  - rewrite lookup_seqZ_lt by lia. destruct (lookup_lt_is_Some_2 _ _ Hi) as [b Hb]. rewrite Hb. cbn. f_equal. by apply put_bytes_same.
  - rewrite lookup_seqZ_ge, lookup_ge_None_2 by lia. done.
Qed.

Lemma block_at_other a bs m c cs : block_at m a bs → a + Z.of_nat (length bs) ≤ c ∨ c + Z.of_nat (length cs) ≤ a → block_at (put_bytes c cs m) a bs.
Proof. intros H Hd. unfold block_at. rewrite (bytes_ext m); [done|]. intros x Hx. apply put_bytes_other. lia. Qed.

(** ** Output changes only the output *)

Lemma putc_one_ok timed_out al s : ∃ s', putc_one timed_out al s = Ok ((), s') ∧ memory s' = memory s.
Proof.
  destruct s as [m sc ln n p]. unfold putc_one, int10, int14, patch. st_unfold. cbn. destruct p; [by eexists|]. cbn.
  destruct (timed_out n); by eexists.
Qed.

Lemma putc_ok timed_out al s : ∃ s', putc timed_out al s = Ok ((), s') ∧ memory s' = memory s.
Proof.
  unfold putc. destruct (putc_one_ok timed_out al s) as (s1 & E & Hm). rewrite (st_bind_ok _ _ _ _ _ E). case_decide; [|by exists s1].
  destruct (putc_one_ok timed_out 10 s1) as (s2 & E2 & Hm2). exists s2. by rewrite Hm2.
Qed.

Lemma puts_text timed_out t s : ∃ s', puts timed_out t s = Ok ((), s') ∧ memory s' = memory s.
Proof.
  revert s. induction t as [|c t IH]; intros s; [by exists s|]. cbn [puts]. destruct (putc_ok timed_out c s) as (s1 & E & Hm).
  rewrite (st_bind_ok _ _ _ _ _ E). destruct (IH s1) as (s2 & E2 & Hm2). exists s2. by rewrite Hm2.
Qed.

(** Skips a statement that prints. *)
Lemma after_puts {A} timed_out t s (k : LM A) (P : res (A * loader) → Prop) : (∀ s1, memory s1 = memory s → P (k s1)) → P ((puts timed_out t;; k) s).
Proof. intros H. destruct (puts_text timed_out t s) as (s1 & E & Hm). rewrite (st_bind_ok _ _ _ _ _ E). by apply H. Qed.
Lemma after_putc {A} timed_out al s (k : LM A) (P : res (A * loader) → Prop) : (∀ s1, memory s1 = memory s → P (k s1)) → P ((putc timed_out al;; k) s).
Proof. intros H. destruct (putc_ok timed_out al s) as (s1 & E & Hm). rewrite (st_bind_ok _ _ _ _ _ E). by apply H. Qed.

(** ** Partition tables *)

Definition at8 (bs : list Z) (i : Z) : Z := default 0 (bs !! Z.to_nat i).
Definition at16 (bs : list Z) (i : Z) : Z := at8 bs i + 256 * at8 bs (i + 1).
Definition at32 (bs : list Z) (i : Z) : Z := at16 bs i + 65536 * at16 bs (i + 2).

(** Entry [k] is a bootable partition with a Pintos kernel. *)
Definition is_kernel (bs : list Z) (k : Z) : Prop := at8 bs (446 + 16 * k) = 128 ∧ at8 bs (446 + 16 * k + 4) = 32.
#[export] Instance is_kernel_dec bs k : Decision (is_kernel bs k).
Proof. unfold is_kernel. apply _. Defined.
Definition find_kernel (bs : list Z) (ks : list Z) : option Z := snd <$> list_find (is_kernel bs) ks.

Section table.
Context (timed_out : nat → bool) (bs : list Z) (Hbs : sector_ok bs).

Lemma read8 m i : block_at m 131072 bs → 0 ≤ i < 512 → m (131072 + i) = at8 bs i.
Proof.
  intros H Hi. destruct Hbs as [Hl _]. destruct (lookup_lt_is_Some_2 bs (Z.to_nat i)) as [b Hb]; [lia|]. unfold at8. rewrite Hb. cbn.
  rewrite <- (block_at_lookup _ _ _ _ _ H Hb). f_equal. lia.
Qed.

Lemma read32 m i : block_at m 131072 bs → 0 ≤ i → i + 4 ≤ 512 → ldl m (131072 + i) = at32 bs i.
Proof.
  intros H Hi Hi2. unfold ldl, at32, at16. replace (131072 + i + 1) with (131072 + (i + 1)) by lia.
  replace (131072 + i + 2) with (131072 + (i + 2)) by lia. replace (131072 + i + 3) with (131072 + (i + 3)) by lia.
  rewrite !read8 by (done || lia). replace (i + 2 + 1) with (i + 3) by lia. lia.
Qed.

Lemma at8_range i : 0 ≤ at8 bs i < 256.
Proof. unfold at8. destruct (bs !! Z.to_nat i) as [b|] eqn:E; [|cbn; lia]. destruct Hbs as [_ Hf]. rewrite Forall_lookup in Hf. apply (Hf _ _ E). Qed.

(** The scan of the table stops at the first kernel. *)
Lemma check_partition_ok n k al s : block_at (memory s) 131072 bs → 0 ≤ k → k + Z.of_nat n = 4 →
  ∃ s', check_partition timed_out n (446 + 16 * k) al s =
    Ok (match find_kernel bs (seqZ k (Z.of_nat n)) with Some j => Load (446 + 16 * j) | None => NextDrive false end, s') ∧ memory s' = memory s.
Proof.
  revert k al s. induction n as [|n IH]; intros k al s Hm Hk Hn; [by exists s|]. cbn [check_partition].
  unfold find_kernel. rewrite seqZ_cons by lia. replace (Z.succ k) with (k + 1) by lia. replace (Z.pred (Z.of_nat (S n))) with (Z.of_nat n) by lia.
  assert (Hnext : ∀ s1 al', memory s1 = memory s → ¬ is_kernel bs k → ∃ s',
    check_partition timed_out n (446 + 16 * k + 16) al' s1 =
    Ok (match snd <$> list_find (is_kernel bs) (k :: seqZ (k + 1) (Z.of_nat n)) with Some j => Load (446 + 16 * j) | None => NextDrive false end, s') ∧ memory s' = memory s).
  { intros s1 al' Hs1 Hno. replace (446 + 16 * k + 16) with (446 + 16 * (k + 1)) by lia.
    destruct (IH (k + 1) al' s1) as (s' & E & Hs'); [by rewrite Hs1|lia|lia|]. exists s'. rewrite E, Hs', Hs1. split; [|done]. unfold find_kernel. cbn.
    rewrite decide_False by done. by destruct (list_find (is_kernel bs) (seqZ (k + 1) (Z.of_nat n))) as [[? ?]|]. }
  erewrite st_bind_ok by reflexivity. rewrite read32 by (done || lia). case_decide as H0.
  { apply Hnext; [done|]. unfold is_kernel. intros [Hb _]. unfold at32, at16 in H0. pose proof (at8_range (446 + 16 * k + 1)).
    pose proof (at8_range (446 + 16 * k + 2)). pose proof (at8_range (446 + 16 * k + 2 + 1)). lia. }
  apply (after_putc _ _ _ _ (λ r, ∃ s', r = Ok (_, s') ∧ memory s' = memory s)). intros s1 Hs1. unfold byte_at.
  erewrite st_bind_ok by reflexivity. rewrite Hs1, <- Z.add_assoc. replace (16 * k + 4) with (16 * k + 4) by done.
  rewrite read8 by (done || lia). case_decide as H1.
  { apply Hnext; [done|]. unfold is_kernel. rewrite <- Z.add_assoc. tauto. }
  erewrite st_bind_ok by reflexivity. rewrite Hs1, read8 by (done || lia). case_decide as H2.
  - exists s1. split; [|done]. cbn. rewrite decide_True; [done|]. unfold is_kernel. rewrite <- Z.add_assoc. split; [done|]. lia.
  - apply Hnext; [done|]. unfold is_kernel. tauto.
Qed.
End table.

(** ** Loading *)

Section load.
Context (disk : Z → Z → option (list Z)) (timed_out : nat → bool) (dl first n : Z) (sec : Z → list Z).
Hypothesis n_range : 1 ≤ n ≤ 1024.
Hypothesis first_range : 0 ≤ first ∧ first `mod` 65536 + n ≤ 65536.
Hypothesis sectors : ∀ i, 0 ≤ i < n → disk dl (first + i) = Some (sec i) ∧ sector_ok (sec i).

Lemma next_sector_ok fuel r i s : (Z.of_nat r + i = n) → (0 < r ≤ fuel)%nat → 0 ≤ i →
  (∀ j, 0 ≤ j < i → block_at (memory s) (131072 + 512 * j) (sec j)) →
  ∃ s', next_sector disk timed_out fuel dl (first + i) (Z.of_nat r) (8192 + 32 * i) s = Ok (false, s') ∧
    ∀ j, 0 ≤ j < n → block_at (memory s') (131072 + 512 * j) (sec j).
Proof.
  revert fuel i s. induction r as [|r IH]; intros fuel i s Hr Hf Hi Hs; [lia|]. destruct fuel as [|fuel]; [lia|]. cbn [next_sector].
  destruct (sectors i ltac:(lia)) as [Hd [Hl _]]. unfold read_sector. rewrite Hd.
  erewrite (st_bind_ok _ _ _ false) by reflexivity. cbv iota.
  set (s1 := Loader _ _ _ _ _).
  assert (H1 : ∀ j, 0 ≤ j < i + 1 → block_at (memory s1) (131072 + 512 * j) (sec j)).
  { intros j Hj. unfold s1. cbn [memory]. replace (16 * (8192 + 32 * i)) with (131072 + 512 * i) by lia.
    destruct (decide (j = i)) as [->|Hne]; [apply block_at_put|]. destruct (sectors j ltac:(lia)) as [_ [Hlj _]]. apply block_at_other; [apply Hs; lia|lia]. }
  assert (Hk : ∀ s2, memory s2 = memory s1 → ∃ s', 
    (if decide (w16 (Z.of_nat (S r) - 1) = 0) then mret false
     else next_sector disk timed_out fuel dl (first + i - w16 (first + i) + w16 (first + i + 1)) (w16 (Z.of_nat (S r) - 1)) (w16 (8192 + 32 * i + 32))) s2 = Ok (false, s') ∧
    ∀ j, 0 ≤ j < n → block_at (memory s') (131072 + 512 * j) (sec j)).
  { intros s2 Hs2. unfold w16. case_decide as Hc.
    - exists s2. split; [done|]. rewrite Hs2. intros j Hj. apply H1. assert (r = 0%nat) by dlia. lia.
    - replace ((first + i) - (first + i) `mod` 65536 + (first + i + 1) `mod` 65536) with (first + (i + 1)) by dlia.
      replace ((Z.of_nat (S r) - 1) `mod` 65536) with (Z.of_nat r) by dlia.
      replace ((8192 + 32 * i + 32) `mod` 65536) with (8192 + 32 * (i + 1)) by dlia.
      apply IH; [lia|dlia|lia|by rewrite Hs2]. }
  destruct (decide (Z.land (first + i) 15 = 0)).
  - apply (after_puts _ _ _ _ (λ r, ∃ s', r = Ok (false, s') ∧ ∀ j, 0 ≤ j < n → block_at (memory s') (131072 + 512 * j) (sec j))). exact Hk.
  - by apply Hk.
Qed.

Lemma load_kernel_ok bs k s : sector_ok bs → block_at (memory s) 131072 bs → 0 ≤ k < 4 →
  at32 bs (446 + 16 * k + 8) = first → n = Z.min (at32 bs (446 + 16 * k + 12)) 1024 →
  ∃ s', load_kernel disk timed_out dl (446 + 16 * k) s = Ok (Jumps 8192 (at16 (sec 0) 24), s') ∧
    ∀ j, 0 ≤ j < n → block_at (memory s') (131072 + 512 * j) (sec j).
Proof.
  intros Hbs Hm Hk Hfirst Hn. unfold load_kernel.
  apply (after_puts _ _ _ _ (λ r, ∃ s', r = Ok (_, s') ∧ _)). intros s1 Hs1. rewrite <- Hs1 in Hm.
  erewrite st_bind_ok by reflexivity. rewrite (read32 bs Hbs) by (done || lia).
  erewrite st_bind_ok by reflexivity. rewrite (read32 bs Hbs) by (done || lia). rewrite Hfirst.
  replace (if decide (at32 bs (446 + 16 * k + 12) ≤ 1024) then w16 (at32 bs (446 + 16 * k + 12)) else 1024) with (Z.of_nat (Z.to_nat n))
    by (unfold w16; case_decide; [rewrite Z.mod_small by lia|]; lia).
  destruct (next_sector_ok (Z.to_nat 65536) (Z.to_nat n) 0 s1) as (s2 & E & Hs2); [lia..|].
  rewrite !Z.add_0_r in E. rewrite (st_bind_ok _ _ _ _ _ E). cbv iota.
  apply (after_puts _ _ _ _ (λ r, ∃ s', r = Ok (_, s') ∧ _)). intros s3 Hs3. erewrite st_bind_ok by reflexivity. exists s3.
  rewrite Hs3. split; [|done]. destruct (sectors 0 ltac:(lia)) as [_ H0]. pose proof (Hs2 0 ltac:(lia)) as Hb. rewrite Z.mul_0_r, Z.add_0_r in Hb.
  unfold ldw, at16. replace (131072 + 24 + 1) with (131072 + (24 + 1)) by lia. by rewrite !(read8 _ H0 _ _ Hb) by lia.
Qed.
End load.

(** ** Searching *)

(** A drive that the loader passes over: its first sector has the signature of a partition
    table but no kernel, or a signature that is larger. *)
Definition passed_over (bs : list Z) : Prop :=
  sector_ok bs ∧ (43605 < at16 bs 510 ∨ at16 bs 510 = 43605 ∧ find_kernel bs (seqZ 0 4) = None).

Section search.
Context (disk : Z → Z → option (list Z)) (timed_out : nat → bool).

Lemma read_mbr_one_ok dl bs s : disk dl 0 = Some bs → sector_ok bs →
  ∃ s', read_mbr_one disk timed_out dl s =
    Ok (Some (if decide (at16 bs 510 = 43605) then match find_kernel bs (seqZ 0 4) with Some j => Load (446 + 16 * j) | None => NextDrive false end
              else NextDrive (bool_decide (at16 bs 510 < 43605))), s') ∧ block_at (memory s') 131072 bs.
Proof.
  intros Hd Hbs. unfold read_mbr_one, read_sector. rewrite Hd. erewrite (st_bind_ok _ _ _ false) by reflexivity. cbv iota. set (s1 := Loader _ _ _ _ _).
  assert (Hm : block_at (memory s1) 131072 bs) by apply block_at_put.
  apply (after_puts _ _ _ _ (λ r, ∃ s', r = Ok (_, s') ∧ _)). intros s2 Hs2.
  apply (after_putc _ _ _ _ (λ r, ∃ s', r = Ok (_, s') ∧ _)). intros s3 Hs3. rewrite <- Hs2, <- Hs3 in Hm.
  erewrite st_bind_ok by reflexivity. unfold ldw. replace (131072 + 510 + 1) with (131072 + (510 + 1)) by lia. rewrite !(read8 _ Hbs _ _ Hm) by lia.
  change (at8 bs 510 + 256 * at8 bs (510 + 1)) with (at16 bs 510). destruct (decide (at16 bs 510 = 43605)) as [E|E].
  - rewrite decide_False by tauto. destruct (check_partition_ok timed_out bs Hbs 4 0 49 s3 Hm) as (s4 & E4 & Hs4); [lia|done|].
    rewrite (st_bind_ok _ _ _ _ _ E4). exists s4. by rewrite Hs4.
  - rewrite decide_True by done. by exists s3.
Qed.

(** The drives in [ds] are passed over. *)
Lemma pass_over_ok ds dl fuel s : (∀ i bs, ds !! i = Some bs → disk (dl + Z.of_nat i) 0 = Some bs ∧ passed_over bs) →
  0 ≤ dl → dl + Z.of_nat (length ds) < 256 →
  ∃ s', read_mbr disk timed_out (length ds + fuel) dl s = read_mbr disk timed_out fuel (dl + Z.of_nat (length ds)) s'.
Proof.
  revert dl s. induction ds as [|bs ds IH]; intros dl s Hds H1 H2; cbn [length plus].
  { exists s. by rewrite Z.add_0_r. }
  cbn [read_mbr]. destruct (Hds 0%nat bs eq_refl) as [Hd [Hbs Hp]]. rewrite Z.add_0_r in Hd.
  destruct (read_mbr_one_ok dl bs s Hd Hbs) as (s1 & E & _). rewrite (st_bind_ok _ _ _ _ _ E).
  assert (Hv : (if decide (at16 bs 510 = 43605) then match find_kernel bs (seqZ 0 4) with Some j => Load (446 + 16 * j) | None => NextDrive false end
              else NextDrive (bool_decide (at16 bs 510 < 43605))) = NextDrive false).
  { case_decide as Hsig; [by destruct Hp as [?|[_ ->]]; [lia|]|]. rewrite bool_decide_false; [done|]. destruct Hp as [?|[? _]]; lia. }
  rewrite Hv. cbv iota. unfold b8. rewrite Z.mod_small by (cbn in H2; lia).
  destruct (IH (dl + 1) s1) as (s2 & E2); [|lia|cbn in H2; lia|].
  - intros i b Hi. replace (dl + 1 + Z.of_nat i) with (dl + Z.of_nat (S i)) by lia. by apply (Hds (S i)).
  - exists s2. rewrite E2. f_equal. cbn. lia.
Qed.
End search.


(** ** Two limits of the loader *)

(** A first disk without a partition table, whose signature is smaller than that of one,
    ends the search: the carry flag is left from the comparison. *)
Theorem small_signature_stops disk timed_out bs fuel s : disk 128 0 = Some bs → sector_ok bs → at16 bs 510 < 43605 →
  ∃ s', boot disk timed_out (S fuel) s = Ok (NotFound, s').
Proof.
  intros Hd Hbs Hsig. unfold boot. apply (after_puts _ _ _ _ (λ r, ∃ s', r = Ok (_, s'))). intros s1 _. cbn [read_mbr].
  destruct (read_mbr_one_ok disk timed_out 128 bs s1 Hd Hbs) as (s2 & E & _). rewrite (st_bind_ok _ _ _ _ _ E).
  rewrite decide_False, bool_decide_true by lia. cbv iota. unfold no_boot_partition. apply (after_puts _ _ _ _ (λ r, ∃ s', r = Ok (_, s'))). intros s3 _. by exists s3.
Qed.

(** A partition from sector 65535 on: its second sector is read from sector 0. *)
Theorem sector_number_wraps disk timed_out dl b0 b1 fuel s : disk dl 65535 = Some b1 → disk dl 0 = Some b0 → sector_ok b0 →
  ∃ s', next_sector disk timed_out (S (S fuel)) dl 65535 2 8192 s = Ok (false, s') ∧ bytes (memory s') (131072 + 512) 512 = b0.
Proof.
  intros H1 H0 [Hl _]. remember (S fuel) as f1 eqn:Ef. cbn [next_sector]. unfold read_sector. rewrite H1. erewrite (st_bind_ok _ _ _ false) by reflexivity. cbv iota.
  rewrite decide_False by done. erewrite st_bind_ok by reflexivity. cbv beta. subst f1. cbn [next_sector]. unfold read_sector.
  match goal with |- context[disk dl ?x] => change x with 0 end. rewrite H0. erewrite (st_bind_ok _ _ _ false) by reflexivity. cbv iota.
  rewrite decide_True by done. apply (after_puts _ _ _ _ (λ r, ∃ s', r = Ok (_, s') ∧ _)). intros s1 Hs1.
  exists s1. split; [done|]. rewrite Hs1. cbn [memory]. match goal with |- context[put_bytes ?x b0] => change x with (131072 + 512) end.
  pose proof (block_at_put (131072 + 512) b0 (put_bytes (16 * 8192) b1 (memory s))) as H. unfold block_at in H. by rewrite Hl in H.
Qed.

(** A disk with a kernel of two sectors. *)
Definition demo_mbr : list Z := replicate 446 0 ++ [128; 0; 0; 0; 32; 0; 0; 0; 1; 0; 0; 0; 2; 0; 0; 0] ++ replicate 48 0 ++ [85; 170].
Definition demo_drive (dl sector : Z) : option (list Z) :=
  if decide (dl = 128) then if decide (sector = 0) then Some demo_mbr else Some (replicate 512 (sector `mod` 256)) else None.

