(* ===== verification/FsUtil.v ===== *)
(** * filesys/fsutil.c: the actions on the file system

    cat, rm, extract and append of the kernel's command line (ls is in
    FileSys).  The state has the file system, memory for the buffers, the block devices
    with the scratch device, and the static variables of the two archive
    actions.  What malloc returned for a buffer is an argument; the messages printed
    are left out. *)

From S2P Require Import Prelude Bitmap Inode FileSys Memory CString Stdio Ustar Vaddr Block.

Local Open Scope Z_scope.

Record util := Util {
  files_of : fs;
  ram : mem;
  devices : blocks;
  extract_pos : Z;         (** sector of fsutil_extract *)
  append_pos : Z;          (** sector of fsutil_append *)
}.

Abbreviation UM := (ST util).

Definition on_fs {A} (c : FM A) : UM A := λ s,
  match c (files_of s) with Ok (a, f) => Ok (a, Util f (ram s) (devices s) (extract_pos s) (append_pos s)) | Err e => Err e end.
Definition on_mem {A} (c : MM A) : UM A := λ s,
  match c (ram s) with Ok (a, m) => Ok (a, Util (files_of s) m (devices s) (extract_pos s) (append_pos s)) | Err e => Err e end.
Definition on_blocks {A} (c : BM A) : UM A := λ s,
  match c (devices s) with Ok (a, b) => Ok (a, Util (files_of s) (ram s) b (extract_pos s) (append_pos s)) | Err e => Err e end.

Definition BLOCK_SECTOR_SIZE : Z := 512.

(** The string at [p], for a routine that is given its address. *)
Definition c_string (p : Z) : UM (list Z) := n ← on_mem (strlen p); on_mem (load_bytes (Z.to_nat n) p).

(** The conditional expression for chunk_size. *)
Definition chunk (size : Z) : Z := if decide (BLOCK_SECTOR_SIZE < size) then BLOCK_SECTOR_SIZE else size.

Section fsutil.
(** The addresses of string literals, what is on the stack where
    dir_add has its entry, and a bound for partitions of partitions. *)
Context (lit : list Z → Z) (stale : list Z) (depth : nat).

(** block_read and block_write with a buffer in memory. *)
Definition read_sector (b sector p : Z) : UM () :=
  bs ← on_blocks (block_read depth b sector); on_mem (store_bytes p bs).
Definition write_sector (b sector p : Z) : UM () :=
  bs ← on_mem (load_bytes (Z.to_nat BLOCK_SECTOR_SIZE) p); on_blocks (block_write depth b sector bs).

(** ** cat and rm *)

(** The arguments of each call of hex_dump: a position and the bytes.  [fuel]
    bounds the reads: enough is the number of pages of the file, and one. *)
Fixpoint cat_loop (fuel : nat) (file : Z) : UM (list (Z * list Z)) :=
  match fuel with
  | O => st_fail EFuel
  | S fuel =>
      pos ← on_fs (file_tell file);
      bs ← on_fs (file_read file PGSIZE);
      if decide (Z.of_nat (length bs) = 0) then mret [] else
      dumps ← cat_loop fuel file;
      mret ((pos, bs) :: dumps)
  end.

Definition fsutil_cat (fuel : nat) (file_name : Z) : UM (list (Z * list Z)) :=
  name ← c_string file_name;
  file ← on_fs (filesys_open name);
  if decide (file = NULL) then st_fail EPanic else
  dumps ← cat_loop fuel file;
  on_fs (file_close file);;
  mret dumps.

Definition fsutil_rm (file_name : Z) : UM () :=
  name ← c_string file_name;
  ok ← on_fs (filesys_remove name);
  if negb ok then st_fail EPanic else mret tt.

(** ** extract *)

(** sector++ *)
Definition extract_next : UM Z :=
  s ← st_get;
  st_modify (λ s, Util (files_of s) (ram s) (devices s) (u32 (extract_pos s + 1)) (append_pos s));;
  mret (extract_pos s).

(** [fuel] bounds the sectors of a file. *)
Fixpoint put_loop (fuel : nat) (src dst data size : Z) : UM () :=
  if decide (0 < size) then
    match fuel with
    | O => st_fail EFuel
    | S fuel =>
        let chunk_size := chunk size in
        sector ← extract_next;
        read_sector src sector data;;
        bs ← on_mem (load_bytes (Z.to_nat chunk_size) data);
        n ← on_fs (file_write dst bs chunk_size);
        if decide (n ≠ chunk_size) then st_fail EPanic else put_loop fuel src dst data (size - chunk_size)
    end
  else mret tt.

(** A regular file of the archive. *)
Definition put_regular (file_name size src data : Z) : UM () :=
  name ← c_string file_name;
  ok ← on_fs (filesys_create stale name size);
  if negb ok then st_fail EPanic else
  name ← c_string file_name;
  dst ← on_fs (filesys_open name);
  if decide (dst = NULL) then st_fail EPanic else
  put_loop (Z.to_nat size) src dst data size;;
  on_fs (file_close dst).

(** [fuel] bounds the headers: enough is the number of files and one. *)
Fixpoint extract_loop (fuel : nat) (src header data : Z) : UM () :=
  match fuel with
  | O => st_fail EFuel
  | S fuel =>
      sector ← extract_next;
      read_sector src sector header;;
      r ← on_mem (ustar_parse_header lit header);
      match r with
      | Failed _ => st_fail EPanic
      | Parsed file_name type size =>
          if decide (type = USTAR_EOF) then mret tt
          else if decide (type = USTAR_DIRECTORY) then extract_loop fuel src header data
          else
            (if decide (type = USTAR_REGULAR) then put_regular file_name size src data else mret tt);;
            extract_loop fuel src header data
      end
  end.

Definition fsutil_extract (fuel : nat) (header data : Z) : UM () :=
  if decide (header = NULL ∨ data = NULL) then st_fail EPanic else
  src ← on_blocks (block_get_role BLOCK_SCRATCH);
  if decide (src = NULL) then st_fail EPanic else
  extract_loop fuel src header data;;
  _ ← on_mem (memset header 0 BLOCK_SECTOR_SIZE);
  write_sector src 0 header;;
  write_sector src 1 header.

(** ** append *)

Definition append_next : UM Z :=
  s ← st_get;
  st_modify (λ s, Util (files_of s) (ram s) (devices s) (extract_pos s) (u32 (append_pos s + 1)));;
  mret (append_pos s).

Fixpoint append_loop (fuel : nat) (src dst buffer size : Z) : UM () :=
  if decide (0 < size) then
    match fuel with
    | O => st_fail EFuel
    | S fuel =>
        let chunk_size := chunk size in
        sector ← st_gets append_pos;
        n ← on_blocks (block_size dst);
        if decide (n ≤ sector) then st_fail EPanic else
        bs ← on_fs (file_read src chunk_size);
        on_mem (store_bytes buffer bs);;
        if decide (Z.of_nat (length bs) ≠ chunk_size) then st_fail EPanic else
        _ ← on_mem (memset (u32 (buffer + chunk_size)) 0 (BLOCK_SECTOR_SIZE - chunk_size));
        sector ← append_next;
        write_sector dst sector buffer;;
        append_loop fuel src dst buffer (size - chunk_size)
    end
  else mret tt.

Definition fsutil_append (file_name buffer : Z) : UM () :=
  if decide (buffer = NULL) then st_fail EPanic else
  name ← c_string file_name;
  src ← on_fs (filesys_open name);
  if decide (src = NULL) then st_fail EPanic else
  size ← on_fs (file_length src);
  dst ← on_blocks (block_get_role BLOCK_SCRATCH);
  if decide (dst = NULL) then st_fail EPanic else
  ok ← on_mem (ustar_make_header lit file_name USTAR_REGULAR size buffer);
  if negb ok then st_fail EPanic else
  sector ← append_next;
  write_sector dst sector buffer;;
  append_loop (Z.to_nat size) src dst buffer size;;
  _ ← on_mem (memset buffer 0 BLOCK_SECTOR_SIZE);
  sector ← st_gets append_pos;
  write_sector dst sector buffer;;
  write_sector dst sector (u32 (buffer + 1));;
  on_fs (file_close src).
End fsutil.
