(* ===== verification/FsUtilTheorems.v ===== *)
(** * Theorems on the actions on the file system

    Archives on the scratch device: extract stores the files of an archive in
    the file system one after the other, append adds a file to an archive.
    [acts] relates an action to the calls of the file system that it makes. *)

From Stdlib Require Import String.
From S2P Require Import Prelude Bitmap Inode FileSys FileSpec DirSpec FileTheorems Memory CString Stdio StdioSpec Ustar UstarSpec UstarTheorems Vaddr Block BlockSpec FsUtil.

Local Open Scope Z_scope.

Implicit Types (s : util) (m : mem) (B : blocks).

(** ** Actions and the calls of the file system *)

(** [c] does to the file system what [f] does, with the same result, and ends in a
    state in [Q]. *)
Definition acts {A} (c : UM A) (f : FM A) (s : util) (Q : util → Prop) : Prop :=
  match f (files_of s) with
  | Ok (a, x) => ∃ s', c s = Ok (a, s') ∧ files_of s' = x ∧ Q s'
  | Err e => c s = Err e
  end.

Lemma acts_run {A} (c : UM A) (f : FM A) s Q a x :
  acts c f s Q → f (files_of s) = Ok (a, x) → ∃ s', c s = Ok (a, s') ∧ files_of s' = x ∧ Q s'.
Proof. unfold acts. intros H E. by rewrite E in H. Qed.

Lemma acts_bind {A A'} (c : UM A) (f : FM A) (k : A → UM A') (g : A → FM A') s Q R :
  acts c f s Q → (∀ a s', Q s' → acts (k a) (g a) s' R) → acts (c ≫= k) (f ≫= g) s R.
Proof.
  unfold acts, mbind, ST_bind. intros H Hk. destruct (f (files_of s)) as [[a x]|e]; [|by rewrite H].
  destruct H as (s' & -> & <- & HQ). apply Hk, HQ.
Qed.

Lemma acts_silent {A A'} (c : UM A) (k : A → UM A') (g : FM A') s a s' R :
  c s = Ok (a, s') → files_of s' = files_of s → acts (k a) g s' R → acts (c ≫= k) g s R.
Proof. unfold acts, mbind, ST_bind. intros -> ->. done. Qed.

Lemma acts_step {A} (c k : UM A) (g : FM A) s s' R : c s = k s' → files_of s' = files_of s → acts k g s' R → acts c g s R.
Proof. unfold acts. by intros -> ->. Qed.

Lemma acts_fs {A} (f : FM A) s :
  acts (on_fs f) f s (λ s', ram s' = ram s ∧ devices s' = devices s ∧ extract_pos s' = extract_pos s ∧ append_pos s' = append_pos s).
Proof. unfold acts, on_fs. destruct (f (files_of s)) as [[a x]|e]; [|done]. eexists. split; [done|]. done. Qed.

Lemma acts_ret {A} (a : A) s (Q : util → Prop) : Q s → acts (mret a) (mret a) s Q.
Proof. intros H. exists s. done. Qed.

Lemma acts_fail {A} e s (Q : util → Prop) : acts (st_fail e : UM A) (st_fail e) s Q.
Proof. done. Qed.

Lemma on_mem_step {A} (c : MM A) s a m :
  c (ram s) = Ok (a, m) → on_mem c s = Ok (a, Util (files_of s) m (devices s) (extract_pos s) (append_pos s)).
Proof. unfold on_mem. by intros ->. Qed.

Lemma on_mem_read {A} (c : MM A) s a : c (ram s) = Ok (a, ram s) → on_mem c s = Ok (a, s).
Proof. intros H. rewrite (on_mem_step _ _ _ _ H). by destruct s. Qed.

Lemma on_blocks_ok {A} (c : BM A) s a B :
  c (devices s) = Ok (a, B) → on_blocks c s = Ok (a, Util (files_of s) (ram s) B (extract_pos s) (append_pos s)).
Proof. unfold on_blocks. by intros ->. Qed.

Lemma c_string_ok p t s : cstr (ram s) p t → c_string p s = Ok (t, s).
Proof.
  intros H. unfold c_string. erewrite st_bind_ok by (by apply on_mem_read, strlen_ok). rewrite Nat2Z.id.
  apply on_mem_read, load_bytes_ok. destruct H as [H _]. by eapply holds_prefix.
Qed.

(** ** The scratch device *)

Section scratch.
(** The device [b] has [N] sectors, those of disk [d] from [base] on. *)
Context (depth n : nat) (b d base N : Z) (Hdepth : (n ≤ depth)%nat).

Definition on_device B : Prop := located B n true b d base ∧ ∃ x, block_of B !! b = Some x ∧ size x = N.

Definition sector_at B (i : Z) : option (list Z) := disks B !! d ≫= (.!! (base + i)).

(** Only the counters differ. *)
Definition counted B B' : Prop := same B B' ∧ disks B' = disks B.

#[export] Instance counted_preorder : PreOrder counted.
Proof. split; [by split|]. intros B1 B2 B3 [H1 E1] [H2 E2]. split; [by etrans|congruence]. Qed.

Lemma on_device_same B B' :
  same B B' → (∀ e, (λ ss : gmap Z (list Z), dom ss) <$> disks B' !! e = (λ ss : gmap Z (list Z), dom ss) <$> disks B !! e) →
  on_device B → on_device B'.
Proof.
  intros Hs Hd (Hl & x & Ex & Hx). split; [by eapply located_same|]. destruct (device_lookup B B' b x Hs Ex) as (x' & E' & _ & _ & Hz & _).
  exists x'. by rewrite Hz.
Qed.

Lemma on_device_counted B B' : counted B B' → on_device B → on_device B'.
Proof. intros [Hs Hd]. apply on_device_same; [done|]. intros e. by rewrite Hd. Qed.

Lemma sector_at_counted B B' i : counted B B' → sector_at B' i = sector_at B i.
Proof. intros [_ Hd]. unfold sector_at. by rewrite Hd. Qed.

Lemma read_sector_ok s i p bs :
  on_device (devices s) → 0 ≤ i < N → sector_at (devices s) i = Some bs → mapped (ram s) p (length bs) →
  ∃ B, read_sector depth b i p s = Ok ((), Util (files_of s) (write p bs (ram s)) B (extract_pos s) (append_pos s)) ∧
    counted (devices s) B.
Proof using Hdepth.
  intros (Hl & x & Ex & Hx) Hi Hs Hm. destruct (device_read_ok _ _ _ _ _ _ x i depth Hl Hdepth Ex) as (bs' & B & E & Hbs & Hsm & Hd); [lia|].
  assert (bs' = bs) as -> by (unfold sector_at in Hs; congruence). exists B. split; [|done]. unfold read_sector.
  erewrite st_bind_ok by (by apply on_blocks_ok). erewrite on_mem_step; [done|]. by apply store_bytes_ok.
Qed.

Lemma write_sector_ok s i p bs :
  on_device (devices s) → 0 ≤ i < N → holds (ram s) p bs → length bs = 512%nat →
  ∃ B, write_sector depth b i p s = Ok ((), Util (files_of s) (ram s) B (extract_pos s) (append_pos s)) ∧
    on_device B ∧ same (devices s) B ∧ ∀ j, sector_at B j = if decide (j = i) then Some bs else sector_at (devices s) j.
Proof using Hdepth.
  intros (Hl & x & Ex & Hx) Hi Hm Hlen.
  destruct (device_write_ok _ _ _ _ _ _ x i bs depth Hl Hdepth Ex) as (B & ss & E & Ess & Hd & Hsm); [lia|].
  destruct (located_range _ _ _ _ _ _ Hl) as (x' & Ex' & _ & _ & ss' & Ess' & Hin). assert (x' = x) as -> by congruence. assert (ss' = ss) as -> by congruence.
  exists B. split.
  { unfold write_sector. change (Z.to_nat BLOCK_SECTOR_SIZE) with 512%nat. rewrite <- Hlen.
    erewrite st_bind_ok by (by apply on_mem_read, load_bytes_ok). by erewrite on_blocks_ok by exact E. }
  split; [|split; [done|]].
  - apply (on_device_same (devices s)); [done| |split; [done|by exists x]]. intros e. rewrite Hd. destruct (decide (e = d)) as [->|Hne]; [|by rewrite lookup_insert_ne].
    rewrite lookup_insert_eq, Ess. cbn. f_equal. destruct (Hin i) as [y Hy]; [lia|]. rewrite dom_insert_L. apply subseteq_union_1_L, singleton_subseteq_l, elem_of_dom. by exists y.
  - intros j. unfold sector_at. rewrite Hd, lookup_insert_eq, Ess. cbn. destruct (decide (j = i)) as [->|Hne]; [by rewrite lookup_insert_eq|].
    by rewrite lookup_insert_ne by lia.
Qed.
End scratch.

(** ** Archives *)

(** A header and the sectors behind it. *)
Record member := Member { m_header : list Z; m_data : list (list Z) }.

(** The name, the type and the size in the header. *)
Definition m_name (x : member) : list Z := strip (field_name (m_header x)).

Definition sector_cnt (size : Z) : nat := Z.to_nat ((size + 511) / 512).

Record member_ok (x : member) (type size : Z) : Prop := {
  mo_length : length (m_header x) = 512%nat;
  mo_bytes : Forall (λ c, 0 ≤ c < 256) (m_header x);
  mo_parse : parse_spec (m_header x) = inr (type, size);
  mo_size : 0 ≤ size;
  mo_count : length (m_data x) = if decide (type = USTAR_REGULAR) then sector_cnt size else 0%nat;
  mo_sectors : Forall (λ bs, length bs = 512%nat) (m_data x);
}.

(** What extracting a member does to the file system. *)
Fixpoint store_data (dst : Z) (data : list (list Z)) (size : Z) : FM () :=
  match data with
  | [] => mret tt
  | bs :: data =>
      n ← file_write dst (take (Z.to_nat (chunk size)) bs) (chunk size);
      if decide (n ≠ chunk size) then st_fail EPanic else store_data dst data (size - chunk size)
  end.

Definition store_file (stale name : list Z) (size : Z) (data : list (list Z)) : FM () :=
  ok ← filesys_create stale name size;
  if negb ok then st_fail EPanic else
  dst ← filesys_open name;
  if decide (dst = NULL) then st_fail EPanic else
  store_data dst data size;;
  file_close dst.

Fixpoint store_members (stale : list Z) (xs : list member) : FM () :=
  match xs with
  | [] => mret tt
  | x :: xs =>
      match parse_spec (m_header x) with
      | inr (type, size) =>
          (if decide (type = USTAR_REGULAR) then store_file stale (m_name x) size (m_data x) else mret tt);;
          store_members stale xs
      | inl _ => st_fail EPanic
      end
  end.

(** The end of an archive. *)
Definition zero_sector : list Z := replicate 512 0.

Lemma zero_sector_ok : length zero_sector = 512%nat ∧ Forall (λ c, 0 ≤ c < 256) zero_sector ∧ Forall (λ c, c = 0) zero_sector.
Proof. split; [by apply length_replicate|]. split; apply Forall_replicate; lia. Qed.
#[local] Opaque zero_sector.

Definition m_sectors (x : member) : list (list Z) := m_header x :: m_data x.

Lemma chunk_bounds size : 0 < size → 0 < chunk size ≤ 512 ∧ chunk size ≤ size ∧ sector_cnt size = S (sector_cnt (size - chunk size)).
Proof. intros H. unfold chunk, sector_cnt, BLOCK_SECTOR_SIZE. case_decide; dlia. Qed.

Section extract.
Context (lit : list Z → Z) (depth n : nat) (b d base N header data : Z).
Context (Hdepth : (n ≤ depth)%nat) (HN : N < 2^32).

(** The buffers are apart, also from the literals. *)
Record buffers_ok m : Prop := {
  bo_lits : lits_ok lit m;
  bo_header : mapped m header 512;
  bo_data : mapped m data 512;
  bo_apart : disjoint_blocks header 512 data 512;
  bo_lits_header : Forall (λ t, disjoint_blocks (lit t) (S (length t)) header 512) literals;
  bo_lits_data : Forall (λ t, disjoint_blocks (lit t) (S (length t)) data 512) literals;
}.

Lemma buffers_write m p bs : p = header ∨ p = data → length bs = 512%nat → buffers_ok m → buffers_ok (write p bs m).
Proof.
  intros Hp Hl [H1 H2 H3 H4 H5 H6]. split; [|by apply mapped_write|by apply mapped_write|done|done|done].
  apply Forall_forall. intros t Ht. apply cstr_write; [by apply lits_lookup|]. rewrite Hl.
  destruct Hp as [->| ->]; [by apply (proj1 (Forall_forall _ _) H5)|by apply (proj1 (Forall_forall _ _) H6)].
Qed.

(** The state at sector [pos], of a run that began in [s0] with the header [h] in memory. *)
Record extracting (s0 : util) (pos : Z) (s : util) : Prop := {
  ex_buffers : buffers_ok (ram s);
  ex_devices : counted (devices s0) (devices s);
  ex_device : on_device n b d base N (devices s);
  ex_pos : extract_pos s = pos;
  ex_append : append_pos s = append_pos s0;
}.

(** The next sector in a buffer. *)
Lemma next_block_ok s0 pos s p bs :
  extracting s0 pos s → p = header ∨ p = data → 0 ≤ pos < N → sector_at d base (devices s0) pos = Some bs → length bs = 512%nat →
  ∃ s', (∀ A (k : UM A), (sector ← extract_next; read_sector depth b sector p;; k) s = k s') ∧
    files_of s' = files_of s ∧ ram s' = write p bs (ram s) ∧ extracting s0 (pos + 1) s'.
Proof using Hdepth HN.
  intros [H1 H2 H3 H4 H5] Hp Hpos Hs Hl.
  destruct (read_sector_ok depth n b d base N Hdepth (Util (files_of s) (ram s) (devices s) (pos + 1) (append_pos s)) pos p bs) as (B & E & Hc);
    [done|done|by rewrite (sector_at_counted d base _ _ _ H2)|rewrite Hl; destruct H1, Hp as [->| ->]; done|].
  cbn [files_of ram devices extract_pos append_pos] in E, Hc.
  exists (Util (files_of s) (write p bs (ram s)) B (pos + 1) (append_pos s)).
  split; [|split; [|split; [|split; [| | |reflexivity|exact H5]]]]; cbn [files_of ram devices].
  - intros A k. unfold extract_next. change (st_get ≫= ?f) with (λ s, f s s). cbn beta. erewrite st_bind_ok; [|reflexivity].
    cbn beta. rewrite H4, u32_id by (unfold in_u32; lia). by erewrite st_bind_ok by exact E.
  - done.
  - done.
  - by apply buffers_write.
  - by etrans.
  - by eapply on_device_counted.
Qed.

(** [data] at [pos] of the device. *)
Definition stored (s0 : util) (pos : Z) (xs : list (list Z)) : Prop :=
  ∀ i bs, xs !! i = Some bs → sector_at d base (devices s0) (pos + Z.of_nat i) = Some bs.

Lemma stored_app s0 pos xs ys : stored s0 pos (xs ++ ys) → stored s0 pos xs ∧ stored s0 (pos + Z.of_nat (length xs)) ys.
Proof.
  intros H. split; intros i bs Hi; [apply H; by rewrite lookup_app_l by (by eapply lookup_lt_Some)|].
  replace (pos + Z.of_nat (length xs) + Z.of_nat i) with (pos + Z.of_nat (length xs + i)) by lia. apply H. rewrite lookup_app_r by lia. by replace (length xs + i - length xs)%nat with i by lia.
Qed.

Lemma stored_cons s0 pos x xs : stored s0 pos (x :: xs) → sector_at d base (devices s0) pos = Some x ∧ stored s0 (pos + 1) xs.
Proof. intros [H1 H2]%(stored_app s0 pos [x]). split; [|done]. rewrite <- (Z.add_0_r pos). by apply (H1 0%nat). Qed.

Lemma put_loop_ok s0 dst xs : ∀ fuel size pos s,
  extracting s0 pos s → length xs = sector_cnt size → 0 ≤ size → (length xs ≤ fuel)%nat → Forall (λ bs, length bs = 512%nat) xs →
  stored s0 pos xs → 0 ≤ pos → pos + Z.of_nat (length xs) ≤ N →
  acts (put_loop depth fuel b dst data size) (store_data dst xs size) s (extracting s0 (pos + Z.of_nat (length xs))).
Proof using Hdepth HN.
  induction xs as [|bs xs IH]; intros fuel size pos s Hs Hl Hsz Hf Hb Hst Hp HpN.
  { assert (size = 0) as -> by (unfold sector_cnt in Hl; cbn in Hl; dlia). destruct fuel; cbn [put_loop store_data]; (rewrite decide_False by lia; apply acts_ret; by rewrite Z.add_0_r). }
  assert (H0 : 0 < size) by (unfold sector_cnt in Hl; cbn in Hl; dlia). destruct (chunk_bounds size H0) as (Hc & Hcs & Ec). cbn [length] in *.
  destruct fuel as [|fuel]; [lia|]. cbn [put_loop store_data]. rewrite decide_True by done.
  apply stored_cons in Hst as [Hst1 Hst2]. apply Forall_cons in Hb as [Hb1 Hb2].
  destruct (next_block_ok s0 pos s data bs Hs) as (s1 & E & Ef & Er & Hs1); [by right|lia|done|done|].
  eapply acts_step; [apply E|done|]. pose proof (bo_data _ (ex_buffers _ _ _ Hs1)) as [Hr _].
  eapply acts_silent; [|reflexivity|].
  { apply on_mem_read. rewrite <- (length_take_le bs (Z.to_nat (chunk size))) at 1 by lia. apply load_bytes_ok.
    apply (holds_prefix _ _ _ (drop (Z.to_nat (chunk size)) bs)). rewrite take_drop, Er. apply holds_write; lia. }
  eapply acts_bind; [apply acts_fs|]. intros k s2 (A1 & A2 & A3 & A4). destruct (decide (k ≠ chunk size)); [done|].
  replace (pos + Z.of_nat (S (length xs))) with (pos + 1 + Z.of_nat (length xs)) by lia. apply IH; [|lia..|done|done|lia|lia].
  destruct Hs1. split; rewrite ?A1, ?A2, ?A3, ?A4; done.
Qed.

Context (stale : list Z).

Lemma put_regular_ok s0 pos s q name size xs :
  extracting s0 pos s → cstr (ram s) q name → length xs = sector_cnt size → 0 ≤ size → Forall (λ bs, length bs = 512%nat) xs →
  stored s0 pos xs → 0 ≤ pos → pos + Z.of_nat (length xs) ≤ N →
  acts (put_regular stale depth q size b data) (store_file stale name size xs) s (extracting s0 (pos + Z.of_nat (length xs))).
Proof using Hdepth HN.
  intros Hs Hq Hl Hsz Hb Hst Hp HpN.
  assert (Hx : ∀ s1 s2 p, extracting s0 p s1 → ram s2 = ram s1 ∧ devices s2 = devices s1 ∧ extract_pos s2 = extract_pos s1 ∧ append_pos s2 = append_pos s1 →
    extracting s0 p s2) by (intros s1 s2 p [] (A1 & A2 & A3 & A4); split; rewrite ?A1, ?A2, ?A3, ?A4; done).
  unfold put_regular, store_file. eapply acts_silent; [by apply c_string_ok|reflexivity|].
  eapply acts_bind; [apply acts_fs|]. intros ok s1 H1. pose proof (Hx _ _ _ Hs H1) as Hs1. destruct ok; [|done]. cbn [negb].
  eapply acts_silent; [apply (c_string_ok _ name); by rewrite (proj1 H1)|reflexivity|].
  eapply acts_bind; [apply acts_fs|]. intros dst s2 H2. pose proof (Hx _ _ _ Hs1 H2) as Hs2. destruct (decide (dst = NULL)); [done|].
  eapply acts_bind; [apply (put_loop_ok s0 dst xs); [done|done|done| |done..]|].
  - rewrite Hl. unfold sector_cnt. apply Z2Nat.inj_le; dlia.
  - intros [] s3 Hs3. pose proof (acts_fs (file_close dst) s3) as Hc. unfold acts in *. destruct (file_close dst (files_of s3)) as [[u f]|e]; [|done].
    destruct Hc as (s4 & E & Ef & H4). exists s4. split; [done|]. split; [done|]. by apply (Hx s3).
Qed.

Lemma parse_ok_facts h type size :
  parse_spec h = inr (type, size) → byte h 99 = 0 ∧ (type = USTAR_REGULAR ∨ type = USTAR_DIRECTORY) ∧ ¬ Forall (λ c, c = 0) h.
Proof.
  intros H. destruct (spec_magic h _ H) as [Hm _]. split; [|split; [|by apply not_all_zeros]].
  all: unfold parse_spec, entry_spec in H; repeat case_decide; try done; repeat destruct (negb _); repeat case_decide; try done; try lia.
  all: injection H as <- _; destruct (decide (byte h 156 = USTAR_REGULAR)), (decide (byte h 156 = USTAR_DIRECTORY)); tauto.
Qed.

(** The loop over an archive that ends in a sector of zeros. *)
Lemma extract_loop_ok s0 xs : ∀ fuel pos s,
  extracting s0 pos s → (length xs < fuel)%nat → Forall (λ x, ∃ type size, member_ok x type size) xs →
  stored s0 pos (concat (m_sectors <$> xs) ++ [zero_sector]) → 0 ≤ pos →
  pos + Z.of_nat (length (concat (m_sectors <$> xs))) + 1 ≤ N →
  acts (extract_loop lit stale depth fuel b header data) (store_members stale xs) s
    (extracting s0 (pos + Z.of_nat (length (concat (m_sectors <$> xs))) + 1)).
Proof using Hdepth HN.
  induction xs as [|x xs IH]; intros fuel pos s Hs Hf Hok Hst Hp HpN; (destruct fuel as [|fuel]; [cbn in Hf; lia|]); cbn [extract_loop store_members].
  - cbn [fmap list_fmap concat app length] in Hst, HpN. apply stored_cons in Hst as [Hst _]. destruct zero_sector_ok as (Z1 & Z2 & Z3).
    destruct (next_block_ok s0 pos s header zero_sector Hs) as (s1 & E & Ef & Er & Hs1); [by left|lia|exact Hst|done|].
    eapply acts_step; [apply E|done|]. pose proof (ex_buffers _ _ _ Hs1) as Hb. pose proof (bo_header _ Hb) as [Hr _].
    destruct (parse_refines lit (ram s1) header zero_sector (bo_lits _ Hb)) as (q & Eq & _); [rewrite Er; apply holds_write; lia|done|done|].
    rewrite decide_True in Eq by done. eapply acts_silent; [by apply on_mem_read|reflexivity|].
    cbn beta iota. rewrite decide_True by done. apply acts_ret. cbn [fmap list_fmap concat length]. by rewrite Z.add_0_r.
  - apply Forall_cons in Hok as [(type & size & [H1 H2 H3 H4 H5 H6]) Hok]. cbn [fmap list_fmap concat] in *.
    rewrite <- app_assoc in Hst. apply stored_app in Hst as [Hx Hst]. apply stored_cons in Hx as [Hx Hd].
    rewrite length_app in HpN |- *. cbn [m_sectors length] in *.
    destruct (next_block_ok s0 pos s header (m_header x) Hs) as (s1 & E & Ef & Er & Hs1); [by left|lia|exact Hx|done|].
    eapply acts_step; [apply E|done|]. pose proof (ex_buffers _ _ _ Hs1) as Hb. pose proof (bo_header _ Hb) as [Hr _].
    destruct (parse_ok_facts _ _ _ H3) as (H99 & Hty & Hnz).
    destruct (parse_refines lit (ram s1) header (m_header x) (bo_lits _ Hb)) as (q & Eq & Hq); [rewrite Er; apply holds_write; lia|done|done|].
    rewrite decide_False in Eq by done. rewrite H3 in Eq |- *. destruct (Hq H99) as [Hname _]. cbv iota in Eq. cbv iota.
    eapply acts_silent; [by apply on_mem_read|reflexivity|]. cbn beta iota. rewrite decide_False by (destruct Hty as [->| ->]; done).
    replace (pos + Z.of_nat (S (length (m_data x)) + length (concat (m_sectors <$> xs))) + 1)
      with (pos + 1 + Z.of_nat (length (m_data x)) + Z.of_nat (length (concat (m_sectors <$> xs))) + 1) by lia.
    assert (Hst' : stored s0 (pos + 1 + Z.of_nat (length (m_data x))) (concat (m_sectors <$> xs) ++ [zero_sector])).
    { by replace (pos + 1 + Z.of_nat (length (m_data x))) with (pos + Z.of_nat (S (length (m_data x)))) by lia. }
    destruct Hty as [->| ->].
    + rewrite (decide_False (P := USTAR_REGULAR = USTAR_DIRECTORY)) by done. rewrite !decide_True by done. rewrite decide_True in H5 by done.
      eapply acts_bind; [apply (put_regular_ok s0 (pos + 1) s1 q (m_name x) size (m_data x)); done || lia|].
      intros [] s2 Hs2. apply IH; [done|lia|done|done|lia|lia].
    + rewrite decide_True by done. rewrite decide_False in H5 by done. rewrite decide_False by done. rewrite H5 in *.
      apply (acts_step _ (mret tt;; extract_loop lit stale depth fuel b header data) _ _ s1); [done|done|].
      eapply acts_bind; [by apply (acts_ret tt s1 (λ s, s = s1))|]. intros [] s2 ->. apply IH; [by rewrite Z.add_0_r|lia|done|done|lia|lia].
Qed.
End extract.

Lemma scratch_ok s b : block_by_role (devices s) BLOCK_SCRATCH = b → on_blocks (block_get_role BLOCK_SCRATCH) s = Ok (b, s).
Proof. intros <-. by destruct s. Qed.

Lemma clear_sectors_ok depth n b d base N header s :
  (n ≤ depth)%nat → on_device n b d base N (devices s) → 2 ≤ N → mapped (ram s) header 512 →
  ∃ s', (_ ← on_mem (memset header 0 BLOCK_SECTOR_SIZE); write_sector depth b 0 header;; write_sector depth b 1 header) s = Ok ((), s') ∧
    files_of s' = files_of s ∧ extract_pos s' = extract_pos s ∧ append_pos s' = append_pos s ∧
    ∀ i, sector_at d base (devices s') i = if decide (i = 0 ∨ i = 1) then Some zero_sector else sector_at d base (devices s) i.
Proof.
  intros Hn Hd HN Hm. erewrite st_bind_ok by (apply on_mem_step, (memset_ok _ _ _ 512), Hm). change (replicate 512 (0 `mod` 256)) with zero_sector.
  destruct zero_sector_ok as [Hz _]. pose proof Hm as [Hr _].
  assert (Hh : holds (write header zero_sector (ram s)) header zero_sector) by (apply holds_write; lia).
  edestruct (write_sector_ok depth n b d base N Hn (Util (files_of s) (write header zero_sector (ram s)) (devices s) (extract_pos s) (append_pos s)) 0 header zero_sector)
    as (B1 & E1 & Hd1 & _ & Hs1); [done|lia|done|done|].
  edestruct (write_sector_ok depth n b d base N Hn (Util (files_of s) (write header zero_sector (ram s)) B1 (extract_pos s) (append_pos s)) 1 header zero_sector)
    as (B2 & E2 & Hd2 & _ & Hs2); [done|lia|done|done|].
  cbn [files_of ram devices extract_pos append_pos] in *. eexists. rewrite (st_bind_ok _ _ _ _ _ E1). split; [exact E2|].
  split; [done|]. split; [done|]. split; [done|]. intros i. cbn [devices]. rewrite Hs2, Hs1. repeat case_decide; done || lia.
Qed.

(** C37: extract stores the files of an archive.  If the scratch device holds an archive from the position of extract on, that is,
    headers of regular files and directories, each file's header followed by the
    sectors of its data, and a sector of zeros, then extract does to the file system exactly
    what it does to create the regular files, in order, under their names without dangerous
    prefixes and with their sizes, and to write their data to them; it panics or fails exactly if that does.  At the end the position is behind the archive, and
    the first two sectors of the device are erased and no others. *)
Theorem extract_stores_archive lit stale depth n b d base N header data xs fuel s :
  let cnt := Z.of_nat (length (concat (m_sectors <$> xs))) in
  block_by_role (devices s) BLOCK_SCRATCH = b → b ≠ NULL → (n ≤ depth)%nat → on_device n b d base N (devices s) → 2 ≤ N < 2^32 →
  buffers_ok lit header data (ram s) → Forall (λ x, ∃ type size, member_ok x type size) xs →
  stored d base s (extract_pos s) (concat (m_sectors <$> xs) ++ [zero_sector]) →
  0 ≤ extract_pos s → extract_pos s + cnt + 1 ≤ N → (length xs < fuel)%nat →
  acts (fsutil_extract lit stale depth fuel header data) (store_members stale xs) s (λ s',
    extract_pos s' = extract_pos s + cnt + 1 ∧ append_pos s' = append_pos s ∧
    ∀ i, sector_at d base (devices s') i = if decide (i = 0 ∨ i = 1) then Some zero_sector else sector_at d base (devices s) i).
Proof.
  intros cnt Hb Hb0 Hn Hd [HN2 HN] Hbuf Hok Hst Hp HpN Hf. pose proof (bo_header _ _ _ _ Hbuf) as [Hr _]. pose proof (bo_data _ _ _ _ Hbuf) as [Hr' _].
  unfold fsutil_extract. rewrite decide_False by (unfold NULL; lia).
  eapply acts_silent; [by apply scratch_ok|reflexivity|]. rewrite decide_False by done.
  pose proof (extract_loop_ok lit depth n b d base N header data Hn HN stale s xs fuel (extract_pos s) s) as H.
  assert (Hs : extracting lit n b d base N header data s (extract_pos s) s) by (by split). specialize (H Hs Hf Hok Hst Hp HpN).
  unfold acts in *. destruct (store_members stale xs (files_of s)) as [[[] f]|e]; [|by apply st_bind_err].
  destruct H as (s1 & E & Ef & [H1 H2 H3 H4 H5]).
  destruct (clear_sectors_ok depth n b d base N header s1 Hn H3 HN2 (bo_header _ _ _ _ H1)) as (s2 & E2 & Ef2 & Ex & Ea & Hsec).
  exists s2. rewrite (st_bind_ok _ _ _ _ _ E). split; [exact E2|]. split; [congruence|]. split; [unfold cnt; congruence|]. split; [congruence|].
  intros i. by rewrite Hsec, (sector_at_counted d base _ _ i H2).
Qed.

(** ** Reading an open file *)

Section open_file.
(** The file system with the file [f] open at its start. *)
Context (fs1 : fs) (f i : Z) (ino : inode).

Record opened : Prop := {
  op_file : files fs1 !! f = Some (File i 0 false);
  op_inode : inodes fs1 !! i = Some ino;
  op_extent : extent_ok fs1 (Inode.data ino);
  op_memory : oom fs1 = [];
  op_kept : removed ino = false;
  op_null : f ≠ NULL;
}.

Context (Ho : opened).
Let L : Z := Inode.length_ (Inode.data ino).
Let c : list Z := content fs1 (Inode.data ino).

Definition at_pos (o : Z) : fs := set_files (<[f := File i o false]> (files fs1)) fs1.

Lemma at_start : at_pos 0 = fs1.
Proof using Ho. unfold at_pos. rewrite insert_id by apply Ho. by destruct fs1. Qed.

Lemma file_at o : files (at_pos o) !! f = Some (File i o false).
Proof. cbn. by rewrite lookup_insert_eq. Qed.

Lemma content_size : Z.of_nat (length c) = L ∧ 0 ≤ L ≤ 2^31 - 512.
Proof using Ho. destruct Ho as [_ _ He _ _ _]. split; [by apply content_length|]. by destruct He. Qed.

Lemma file_read_pos o k : 0 ≤ o ≤ L → 0 ≤ k →
  file_read f k (at_pos o) = Ok (slice o k c, at_pos (o + Z.of_nat (length (slice o k c)))) ∧ Z.of_nat (length (slice o k c)) = Z.min k (L - o).
Proof using Ho.
  intros Hr Hk. destruct content_size as [Hl Hb]. assert (Es : Z.of_nat (length (slice o k c)) = Z.min k (L - o)).
  { unfold slice. rewrite length_take, length_drop. lia. }
  split; [|done]. unfold file_read. erewrite st_bind_ok by (apply get_file_ok, file_at). cbn [file_inode file_pos deny_write].
  erewrite st_bind_ok.
  2:{ apply (inode_read_at_ok (at_pos o) i ino k o); [by apply Ho| |by apply Ho|lia]. destruct Ho as [_ _ [] _ _ _]. by split. }
  change (content (at_pos o) (Inode.data ino)) with c. rewrite s32_id by (unfold in_s32; lia).
  unfold put_file, at_pos. st_unfold. unfold set_files. cbn [disk dev_size inodes open_inodes files dirs free_map free_map_file Inode.brk oom]. by rewrite insert_insert_eq.
Qed.

Lemma file_tell_pos o : file_tell f (at_pos o) = Ok (o, at_pos o).
Proof using Ho.
  unfold file_tell. erewrite st_bind_ok by (apply assert_ok, bool_decide_eq_true, Ho). by erewrite st_bind_ok by (apply get_file_ok, file_at).
Qed.

Lemma file_close_pos o : ∃ fs2, file_close f (at_pos o) = Ok ((), fs2) ∧ disk fs2 = disk fs1.
Proof using Ho.
  unfold file_close. rewrite decide_False by apply Ho. unfold file_allow_write.
  erewrite st_bind_ok; [|erewrite st_bind_ok by (apply assert_ok, bool_decide_eq_true, Ho); by erewrite st_bind_ok by (apply get_file_ok, file_at)].
  erewrite st_bind_ok by (apply get_file_ok, file_at). cbn [file_inode]. unfold inode_close. destruct (decide (i = NULL)); [eexists; split; [reflexivity|done]|].
  rewrite <- st_bind_assoc. erewrite st_bind_ok by (apply get_inode_ok, Ho). destruct Ho as [_ _ _ _ -> _].
  rewrite <- st_bind_assoc. erewrite st_bind_ok by reflexivity. case_decide; (eexists; split; [reflexivity|done]).
Qed.
End open_file.

(** cat prints the content of the file in pages, each with its position. *)
Lemma cat_loop_ok fs1 f i ino s : opened fs1 f i ino → ∀ fuel o,
  let L := Inode.length_ (Inode.data ino) in let c := content fs1 (Inode.data ino) in
  files_of s = at_pos fs1 f i o → 0 ≤ o ≤ L → (L - o < PGSIZE * (Z.of_nat fuel - 1) ∨ L = o) → (0 < fuel)%nat →
  ∃ dumps, cat_loop fuel f s = Ok (dumps, Util (at_pos fs1 f i L) (ram s) (devices s) (extract_pos s) (append_pos s)) ∧
    concat dumps.*2 = drop (Z.to_nat o) c ∧ Forall (λ x, x.2 = slice x.1 PGSIZE c) dumps.
Proof.
  intros Ho fuel. revert s. induction fuel as [|fuel IH]; intros s o L c Hs Hr Hf Hp; [lia|]. cbn [cat_loop]. change PGSIZE with 4096 in *.
  destruct (content_size fs1 f i ino Ho) as [Hl Hb]. fold L c in Hl, Hb.
  assert (On : ∀ A (q : FM A) a x, q (files_of s) = Ok (a, x) → on_fs q s = Ok (a, Util x (ram s) (devices s) (extract_pos s) (append_pos s)))
    by (unfold on_fs; intros A q a x ->; done).
  erewrite st_bind_ok by (apply On; rewrite Hs; by apply (file_tell_pos fs1 f i ino)).
  destruct (file_read_pos fs1 f i ino Ho o 4096 ltac:(lia) ltac:(lia)) as [Er El]. fold L c in Er, El.
  erewrite st_bind_ok.
  2:{ unfold on_fs at 1. cbn [files_of]. rewrite Er. reflexivity. }
  cbn [ram devices extract_pos append_pos]. destruct (decide (Z.of_nat (length (slice o 4096 c)) = 0)) as [E0|E0].
  { assert (o = L) as -> by lia. rewrite El. replace (L + Z.min 4096 (L - L)) with L by lia. exists []. split; [done|]. split; [|done].
    cbn. symmetry. apply drop_ge. lia. }
  assert (Hlo : o < L) by lia. rewrite El. 
  destruct (IH (Util (at_pos fs1 f i (o + Z.min 4096 (L - o))) (ram s) (devices s) (extract_pos s) (append_pos s)) (o + Z.min 4096 (L - o))) as (dumps & E & Hc & Hk);
    [done|lia|lia|lia|]. fold L c in E, Hc. erewrite st_bind_ok by exact E. eexists. split; [done|]. split.
  - cbn [fmap list_fmap concat snd]. rewrite Hc. unfold slice.
    replace (drop (Z.to_nat (o + Z.min 4096 (L - o))) c) with (drop (Z.to_nat 4096) (drop (Z.to_nat o) c)); [by rewrite take_drop|].
    rewrite drop_drop. destruct (decide (4096 ≤ L - o)); [f_equal; lia|]. rewrite !drop_ge by lia. done.
  - by constructor.
Qed.

Lemma on_fs_ok {A} (q : FM A) s a x :
  q (files_of s) = Ok (a, x) → on_fs q s = Ok (a, Util x (ram s) (devices s) (extract_pos s) (append_pos s)).
Proof. unfold on_fs. by intros ->. Qed.

(** cat prints the content of the file, page by page and each with its position, and
    changes nothing on the disk. *)
Theorem cat_prints_file s p t f fs1 i ino fuel :
  cstr (ram s) p t → filesys_open t (files_of s) = Ok (f, fs1) → opened fs1 f i ino →
  Inode.length_ (Inode.data ino) < PGSIZE * (Z.of_nat fuel - 1) →
  ∃ dumps s', fsutil_cat fuel p s = Ok (dumps, s') ∧ disk (files_of s') = disk fs1 ∧
    concat dumps.*2 = content fs1 (Inode.data ino) ∧ Forall (λ x, x.2 = slice x.1 PGSIZE (content fs1 (Inode.data ino))) dumps.
Proof.
  intros Hp Hf Ho HL. unfold fsutil_cat. erewrite st_bind_ok by (by apply c_string_ok). erewrite st_bind_ok by (by apply on_fs_ok).
  rewrite decide_False by apply Ho. destruct (content_size fs1 f i ino Ho) as [_ Hb]. change PGSIZE with 4096 in HL |- *.
  destruct (cat_loop_ok fs1 f i ino (Util fs1 (ram s) (devices s) (extract_pos s) (append_pos s)) Ho fuel 0) as (dumps & E & Hc & Hall);
    [symmetry; by apply (at_start fs1 f i ino)|lia|left; change PGSIZE with 4096; lia|lia|].
  cbn [ram devices extract_pos append_pos] in E. rewrite (st_bind_ok _ _ _ _ _ E).
  destruct (file_close_pos fs1 f i ino Ho (Inode.length_ (Inode.data ino))) as (fs2 & Ec & Hd).
  erewrite st_bind_ok by (by apply on_fs_ok). by eexists dumps, _.
Qed.

(** ** Appending to an archive *)

(** The data of a file in [k] sectors, the last filled with zeros. *)
Fixpoint data_sectors (k : nat) (c : list Z) : list (list Z) :=
  match k with
  | O => []
  | S k => (take 512 c ++ replicate (512 - length c) 0) :: data_sectors k (drop 512 c)
  end.

Lemma length_data_sectors k c : length (data_sectors k c) = k.
Proof. revert c. induction k as [|k IH]; intros c; cbn; [done|]. by rewrite IH. Qed.

Lemma data_sectors_512 k c : Forall (λ bs, length bs = 512%nat) (data_sectors k c).
Proof. revert c. induction k as [|k IH]; intros c; constructor; [|apply IH]. rewrite length_app, length_take, length_replicate. lia. Qed.

Lemma data_sectors_content k c : (length c ≤ 512 * k)%nat → take (length c) (concat (data_sectors k c)) = c.
Proof.
  revert c. induction k as [|k IH]; intros c Hc; [by destruct c; [|cbn in Hc; lia]|]. cbn [data_sectors concat].
  destruct (decide (512 ≤ length c)%nat) as [Hl|Hl].
  - replace (512 - length c)%nat with 0%nat by lia. cbn [replicate]. rewrite app_nil_r.
    rewrite take_app_ge by (rewrite length_take; lia). rewrite length_take_le by lia. specialize (IH (drop 512 c)). rewrite length_drop in IH.
    rewrite IH by lia. apply take_drop.
  - rewrite (take_ge c 512) by lia. by rewrite <- app_assoc, take_app_length.
Qed.

Section append.
Context (depth n : nat) (b d base N buffer : Z) (Hdepth : (n ≤ depth)%nat) (HN : N < 2^32).

(** What a step changes: bytes in the buffer and the sectors [xs] from the position on. *)
Record appended (s s' : util) (xs : list (list Z)) : Prop := {
  ap_buffer : mapped (ram s') buffer 512;
  ap_ram : ∀ a, a < buffer ∨ buffer + 512 ≤ a → ram s' !! a = ram s !! a;
  ap_device : on_device n b d base N (devices s');
  ap_same : same (devices s) (devices s');
  ap_pos : append_pos s' = append_pos s + Z.of_nat (length xs);
  ap_extract : extract_pos s' = extract_pos s;
  ap_sectors : ∀ j, sector_at d base (devices s') j =
    if decide (append_pos s ≤ j < append_pos s + Z.of_nat (length xs)) then xs !! Z.to_nat (j - append_pos s) else sector_at d base (devices s) j;
}.

Lemma appended_trans s1 s2 s3 xs ys : appended s1 s2 xs → appended s2 s3 ys → appended s1 s3 (xs ++ ys).
Proof.
  intros [A1 A2 A3 A4 A5 A6 A7] [B1 B2 B3 B4 B5 B6 B7]. split; [done| |done|by etrans| |congruence|].
  - intros a Ha. by rewrite B2, A2.
  - rewrite length_app. lia.
  - intros j. rewrite B7, A7, A5, length_app. repeat case_decide; try lia; [|by rewrite lookup_app_l by lia|done].
    rewrite lookup_app_r by lia. f_equal. lia.
Qed.

(** One sector: [bs] is in the buffer of [s1], which differs from [s] there and in its file system. *)
Lemma append_sector_ok s s1 bs :
  on_device n b d base N (devices s) → holds (ram s1) buffer bs → length bs = 512%nat →
  (∀ a, a < buffer ∨ buffer + 512 ≤ a → ram s1 !! a = ram s !! a) →
  devices s1 = devices s → append_pos s1 = append_pos s → extract_pos s1 = extract_pos s → 0 ≤ append_pos s < N →
  ∃ s2, (∀ A (k : UM A), (sector ← append_next; write_sector depth b sector buffer;; k) s1 = k s2) ∧
    files_of s2 = files_of s1 ∧ appended s s2 [bs].
Proof using Hdepth HN.
  intros Hd Hh Hl Hm E1 E2 E3 Hp.
  destruct (write_sector_ok depth n b d base N Hdepth (Util (files_of s1) (ram s1) (devices s1) (extract_pos s1) (append_pos s + 1)) (append_pos s) buffer bs) as (B & E & HB & Hs & Hsec);
    [cbn; by rewrite E1|done|done|done|]. cbn [files_of ram devices extract_pos append_pos] in *.
  exists (Util (files_of s1) (ram s1) B (extract_pos s1) (append_pos s + 1)). split; [|split; [done|split; cbn [files_of ram devices extract_pos append_pos length]]].
  - intros A k. unfold append_next. change (st_get ≫= ?g) with (λ s, g s s). cbn beta. erewrite st_bind_ok; [|reflexivity]. cbn beta.
    rewrite E2, u32_id by (unfold in_u32; lia). by erewrite st_bind_ok by exact E.
  - rewrite <- Hl. by apply holds_mapped.
  - done.
  - done.
  - by rewrite <- E1.
  - lia.
  - done.
  - intros j. rewrite Hsec, E1. repeat case_decide; try lia; [|done]. subst j. by rewrite Z.sub_diag.
Qed.

Context (fs1 : fs) (f i : Z) (ino : inode) (Ho : opened fs1 f i ino).
Let L : Z := Inode.length_ (Inode.data ino).
Let c : list Z := content fs1 (Inode.data ino).

Lemma append_loop_ok k : ∀ fuel o s,
  files_of s = at_pos fs1 f i o → on_device n b d base N (devices s) → mapped (ram s) buffer 512 → 0 ≤ o ≤ L → k = sector_cnt (L - o) → (k ≤ fuel)%nat →
  0 ≤ append_pos s → append_pos s + Z.of_nat k < N →
  ∃ s', append_loop depth fuel f b buffer (L - o) s = Ok ((), s') ∧ files_of s' = at_pos fs1 f i L ∧
    appended s s' (data_sectors k (drop (Z.to_nat o) c)).
Proof using Hdepth HN Ho.
  destruct (content_size fs1 f i ino Ho) as [Hl Hb]. fold L c in Hl, Hb.
  induction k as [|k IH]; intros fuel o s Hs Hd Hm Hr Hk Hf Hp HpN.
  { assert (o = L) as -> by (unfold sector_cnt in Hk; dlia). exists s. rewrite Z.sub_diag. split; [by destruct fuel|]. split; [done|].
    split; [done|done|done|done|cbn; lia|done|]. intros j. cbn. by rewrite decide_False by lia. }
  assert (H0 : 0 < L - o) by (unfold sector_cnt in Hk; dlia). destruct (chunk_bounds (L - o) H0) as (Hc & Hcs & Ec).
  destruct fuel as [|fuel]; [lia|]. cbn [append_loop]. rewrite decide_True by done. set (z := chunk (L - o)) in *.
  assert (Hz : z = Z.min 512 (L - o)) by (unfold z, chunk, BLOCK_SECTOR_SIZE; case_decide; lia).
  erewrite st_bind_ok by reflexivity. destruct Hd as (Hloc & x & Ex & Hx).
  erewrite st_bind_ok by (apply on_blocks_ok; unfold block_size; by erewrite st_bind_ok by (by apply get_block_ok)). rewrite decide_False by lia.
  destruct (file_read_pos fs1 f i ino Ho o z) as [Er El]; [fold L; lia|lia|]. fold L c in Er, El.
  erewrite st_bind_ok by (apply on_fs_ok; cbn [files_of]; rewrite Hs; exact Er). cbn [files_of ram devices extract_pos append_pos].
  pose proof Hm as [Hmr Hmm].
  erewrite st_bind_ok by (apply on_mem_step, store_bytes_ok; split; [cbn; lia|intros a Ha; apply Hmm; lia]). rewrite decide_False by lia.
  rewrite (u32_id (buffer + z)) by (unfold in_u32; lia). cbn [files_of ram devices extract_pos append_pos].
  assert (Hm2 : mapped (write buffer (slice o z c) (ram s)) (buffer + z) (Z.to_nat (512 - z))).
  { apply mapped_write. split; [lia|]. intros a Ha. replace (buffer + z + Z.of_nat a) with (buffer + Z.of_nat (Z.to_nat z + a)) by lia. apply Hmm. lia. }
  pose proof (memset_ok _ _ 0 _ Hm2) as Ems. rewrite Z2Nat.id in Ems by lia.
  erewrite st_bind_ok by (apply on_mem_step; exact Ems). cbn [files_of ram devices extract_pos append_pos].
  assert (Ew : write (buffer + z) (replicate (Z.to_nat (512 - z)) (0 `mod` 256)) (write buffer (slice o z c) (ram s)) =
    write buffer (slice o z c ++ replicate (Z.to_nat (512 - z)) 0) (ram s)).
  { rewrite write_app. replace (Z.of_nat (length (slice o z c))) with z by lia. apply write_comm. unfold disjoint_blocks. lia. }
  assert (Eb : slice o z c ++ replicate (Z.to_nat (512 - z)) 0 = take 512 (drop (Z.to_nat o) c) ++ replicate (512 - length (drop (Z.to_nat o) c)) 0).
  { unfold slice. rewrite length_drop. destruct (decide (512 ≤ L - o)); [f_equal; f_equal; lia|]. rewrite !take_ge by (rewrite length_drop; lia). f_equal. f_equal. lia. }
  rewrite Ew, Eb. set (bs := take 512 (drop (Z.to_nat o) c) ++ _) in *. assert (Hbs : length bs = 512%nat).
  { unfold bs. rewrite length_app, length_take, length_replicate. lia. }
  destruct (append_sector_ok s (Util (at_pos fs1 f i (o + Z.of_nat (length (slice o z c)))) (write buffer bs (ram s)) (devices s) (extract_pos s) (append_pos s)) bs)
    as (s2 & E2 & Ef2 & Ha2); [split; [done|by exists x]|cbn; apply holds_write; lia|done| |done|done|done|lia|].
  { intros a Ha. cbn. rewrite lookup_write. by rewrite decide_False by lia. }
  rewrite E2. replace (L - o - z) with (L - (o + z)) by lia.
  destruct (IH fuel (o + z) s2) as (s3 & E3 & Ef3 & Ha3); [rewrite Ef2; cbn; f_equal; lia|apply Ha2|apply Ha2|lia| |lia| | |].
  - replace (L - (o + z)) with (L - o - z) by lia. lia.
  - rewrite (ap_pos _ _ _ Ha2). cbn. lia.
  - rewrite (ap_pos _ _ _ Ha2). cbn. lia.
  - exists s3. split; [exact E3|]. split; [done|]. cbn [data_sectors]. fold bs. apply (appended_trans _ s2 _ [bs]); [done|].
    rewrite drop_drop. destruct (decide (512 ≤ L - o)); [by replace (Z.to_nat o + 512)%nat with (Z.to_nat (o + z)) by lia|].
    rewrite !drop_ge in Ha3 |- * by lia. done.
Qed.
End append.

(** The member of an archive with the name and the content of a file. *)
Definition member_of (t c : list Z) : member :=
  let L := Z.of_nat (length c) in Member (concat (header_for (strip t) USTAR_REGULAR L)) (data_sectors (sector_cnt L) c).

Lemma member_of_ok t c :
  Forall (λ b, 0 < b < 256) (strip t) → (length (strip t) ≤ 99)%nat → Z.of_nat (length c) < 2^31 →
  member_ok (member_of t c) USTAR_REGULAR (Z.of_nat (length c)) ∧ m_name (member_of t c) = strip t ∧
  take (length c) (concat (m_data (member_of t c))) = c.
Proof.
  intros Ht Hl Hc. set (L := Z.of_nat (length c)) in *.
  destruct (composed_sum (strip t) USTAR_REGULAR L Ht Hl) as (_ & H1 & H2 & _); [by left|].
  destruct (composed_name (strip t) USTAR_REGULAR L Ht Hl) as [_ H3]; [by left|].
  pose proof (composed_parse (strip t) USTAR_REGULAR L Ht Hl) as H4. unfold member_of. fold L. cbv zeta.
  split; [split; cbn [m_header m_data]|split; cbn [m_data]].
  - exact H1.
  - exact H2.
  - rewrite H4; [|by left|unfold in_s32; lia]. rewrite decide_False by lia. by rewrite decide_True.
  - lia.
  - rewrite decide_True by done. apply length_data_sectors.
  - apply data_sectors_512.
  - unfold m_name. cbn [m_header]. rewrite H3. apply strip_idemp.
  - apply data_sectors_content. unfold sector_cnt, L. dlia.
Qed.

(** The end of append: the marker is written twice to the same sector, the second
    time from one byte further on. *)
Lemma end_marker_ok depth n b d base N buffer f z s x1 :
  (n ≤ depth)%nat → on_device n b d base N (devices s) → 0 ≤ append_pos s < N →
  mapped (ram s) buffer 512 → ram s !! (buffer + 512) = Some z → buffer + 513 < 2^32 → file_close f (files_of s) = Ok ((), x1) →
  ∃ s', (_ ← on_mem (memset buffer 0 BLOCK_SECTOR_SIZE); sector ← st_gets append_pos; write_sector depth b sector buffer;;
      write_sector depth b sector (u32 (buffer + 1));; on_fs (file_close f)) s = Ok ((), s') ∧
    files_of s' = x1 ∧ extract_pos s' = extract_pos s ∧ append_pos s' = append_pos s ∧ same (devices s) (devices s') ∧
    ∀ j, sector_at d base (devices s') j = if decide (j = append_pos s) then Some (replicate 511 0 ++ [z]) else sector_at d base (devices s) j.
Proof.
  intros Hn Hd Hp Hm Hz Hr Hc. erewrite st_bind_ok by (apply on_mem_step, (memset_ok _ _ _ 512), Hm). change (replicate 512 (0 `mod` 256)) with zero_sector.
  destruct zero_sector_ok as [Hlen _]. pose proof Hm as [Hmr _]. set (m1 := write buffer zero_sector (ram s)).
  assert (Hh : holds m1 buffer (zero_sector ++ [z])).
  { split; [rewrite length_app, Hlen; cbn [length]; lia|]. intros j Hj. rewrite length_app, Hlen in Hj. cbn [length] in Hj. unfold m1. rewrite lookup_write, Hlen.
    destruct (decide (j < 512)%nat) as [Hj'|Hj']; [rewrite decide_True, lookup_app_l by lia; f_equal; lia|].
    rewrite decide_False, lookup_app_r by lia. assert (j = 512%nat) as -> by lia. rewrite Hlen. cbn. exact Hz. }
  assert (Hh2 : holds m1 (buffer + 1) (replicate 511 0 ++ [z])) by (apply (holds_tail m1 buffer 0); exact Hh).
  change (st_gets append_pos ≫= ?k) with (λ s : util, k (append_pos s) s). cbn beta. cbn [append_pos].
  destruct (write_sector_ok depth n b d base N Hn (Util (files_of s) m1 (devices s) (extract_pos s) (append_pos s)) (append_pos s) buffer zero_sector)
    as (B1 & E1 & Hd1 & Hs1 & Hx1); [done|done|by eapply holds_prefix|done|].
  destruct (write_sector_ok depth n b d base N Hn (Util (files_of s) m1 B1 (extract_pos s) (append_pos s)) (append_pos s) (buffer + 1) (replicate 511 0 ++ [z]))
    as (B2 & E2 & Hd2 & Hs2 & Hx2); [done|done|done|by rewrite length_app, length_replicate|].
  cbn [files_of ram devices extract_pos append_pos] in *. rewrite (st_bind_ok _ _ _ _ _ E1), u32_id by (unfold in_u32; lia). rewrite (st_bind_ok _ _ _ _ _ E2).
  eexists. split; [apply on_fs_ok; exact Hc|]. cbn [files_of ram devices extract_pos append_pos]. split; [done|]. split; [done|]. split; [done|].
  split; [by etrans|]. intros j. rewrite Hx2, Hx1. by repeat case_decide.
Qed.

Lemma opened_length fs1 f i ino : opened fs1 f i ino → file_length f fs1 = Ok (Inode.length_ (Inode.data ino), fs1).
Proof.
  intros []. unfold file_length. erewrite st_bind_ok by (by apply assert_ok, bool_decide_eq_true).
  erewrite st_bind_ok by (by apply get_file_ok). by erewrite st_bind_ok by (by apply get_inode_ok).
Qed.

(** Append adds a file to the archive on the scratch device.  Appending an existing file whose stripped
    name has at most 99 bytes writes, from the position of append on, a header that parses to the stripped name and
    the size of the file, the sectors of its content, the last filled up with zeros, and a sector that ends the
    archive; the position is then that of the last sector, so that the next file
    takes its place.  All other sectors, so the members before it, and the file system's disk are unchanged.
    The last sector has 511 zeros and the byte that
    is behind the buffer in memory: only if that is zero the archive is well formed. *)
Theorem append_adds_member lit depth n b d base N buffer file_name t f fs1 i ino z s :
  let c := content fs1 (Inode.data ino) in let x := member_of t c in let cnt := Z.of_nat (length (m_sectors x)) in
  block_by_role (devices s) BLOCK_SCRATCH = b → b ≠ NULL → (n ≤ depth)%nat → on_device n b d base N (devices s) → N < 2^32 →
  lits_ok lit (ram s) → Forall (λ l, disjoint_blocks buffer 512 (lit l) (S (length l))) literals →
  mapped (ram s) buffer 512 → ram s !! (buffer + 512) = Some z → buffer + 513 < 2^32 →
  cstr (ram s) file_name t → disjoint_blocks buffer 512 file_name (S (length t)) → (length (strip t) ≤ 99)%nat →
  filesys_open t (files_of s) = Ok (f, fs1) → opened fs1 f i ino →
  0 ≤ append_pos s → append_pos s + cnt < N →
  ∃ s', fsutil_append lit depth file_name buffer s = Ok ((), s') ∧
    append_pos s' = append_pos s + cnt ∧ extract_pos s' = extract_pos s ∧ disk (files_of s') = disk fs1 ∧
    stored d base s' (append_pos s) (m_sectors x ++ [replicate 511 0 ++ [z]]) ∧
    (∀ j, j < append_pos s ∨ append_pos s + cnt < j → sector_at d base (devices s') j = sector_at d base (devices s) j) ∧
    member_ok x USTAR_REGULAR (Inode.length_ (Inode.data ino)) ∧ m_name x = strip t ∧ take (length c) (concat (m_data x)) = c.
Proof.
  intros c x cnt Hb Hb0 Hn Hd HN Hl Hld Hm Hz Hzr Ht Htd Hlen Hf Ho Hp HpN.
  destruct (content_size fs1 f i ino Ho) as [Hc Hcr]. fold c in Hc. set (L := Inode.length_ (Inode.data ino)) in *.
  assert (Hst : Forall (λ b, 0 < b < 256) (strip t)) by (by destruct (strip_ok lit (ram s) file_name t Hl Ht) as (q & _ & [_ ?] & _)).
  destruct (member_of_ok t c Hst Hlen) as (Hx & Hname & Hcont); [lia|]. fold x in Hx, Hname, Hcont. rewrite Hc in Hx.
  pose proof (mo_length _ _ _ Hx) as Hh. pose proof (mo_count _ _ _ Hx) as Hcnt. rewrite decide_True in Hcnt by done.
  unfold m_sectors in cnt. cbn [length] in cnt. pose proof Hm as [Hmr _].
  unfold fsutil_append. rewrite decide_False by (unfold NULL; lia). erewrite st_bind_ok by (by apply c_string_ok). erewrite st_bind_ok by (by apply on_fs_ok).
  rewrite decide_False by apply Ho. erewrite st_bind_ok by (apply on_fs_ok; by eapply opened_length). fold L. cbn [ram devices extract_pos append_pos].
  erewrite st_bind_ok by (by apply scratch_ok). rewrite decide_False by done.
  pose proof (make_header_ok lit (ram s) buffer Hl Hm Hld file_name t USTAR_REGULAR L Ht Htd (or_introl eq_refl)) as Emk.
  rewrite decide_False in Emk by lia. erewrite st_bind_ok by (apply on_mem_step; exact Emk). cbn [negb files_of ram devices extract_pos append_pos].
  change (filled_with (ram s) buffer (header_for (strip t) USTAR_REGULAR L)) with (write buffer (concat (header_for (strip t) USTAR_REGULAR L)) (ram s)).
  assert (Ehd : concat (header_for (strip t) USTAR_REGULAR L) = m_header x) by (unfold x, member_of; by rewrite Hc). rewrite Ehd. clear Emk Ehd.
  destruct (append_sector_ok depth n b d base N buffer Hn HN s (Util fs1 (write buffer (m_header x) (ram s)) (devices s) (extract_pos s) (append_pos s)) (m_header x))
    as (s1 & E1 & Ef1 & Ha1); [done|cbn [ram]; apply holds_write; [lia|rewrite Hh; lia]|done| |done|done|done|lia|].
  { intros a Ha. cbn [ram]. rewrite lookup_write. by rewrite decide_False by (rewrite Hh; lia). }
  rewrite E1. clear E1. pose proof (ap_pos _ _ _ _ _ _ _ _ _ Ha1) as P1. cbn in P1.
  destruct (append_loop_ok depth n b d base N buffer Hn HN fs1 f i ino Ho (sector_cnt L) (Z.to_nat L) 0 s1) as (s2 & E2 & Ef2 & Ha2);
    [rewrite Ef1; symmetry; by apply (at_start fs1 f i ino)|apply Ha1|apply Ha1|fold L; lia|fold L; by rewrite Z.sub_0_r|unfold sector_cnt; apply Z2Nat.inj_le; dlia|lia|lia|].
  fold L in E2. rewrite Z.sub_0_r in E2. rewrite (st_bind_ok _ _ _ _ _ E2). clear E2. fold c L in Ha2. cbn [drop Z.to_nat] in Ha2.
  assert (Ha : appended n b d base N buffer s s2 ([m_header x] ++ data_sectors (sector_cnt L) c)) by (by eapply appended_trans). clear Ha1 Ha2 P1.
  assert (Ex : [m_header x] ++ data_sectors (sector_cnt L) c = m_sectors x) by (unfold m_sectors, x, member_of; rewrite Hc; done). rewrite Ex in Ha. clear Ex.
  destruct Ha as [A1 A2 A3 A4 A5 A6 A7]. unfold m_sectors in A5, A7. cbn [length] in A5, A7.
  destruct (file_close_pos fs1 f i ino Ho L) as (fs2 & Ec & Hdisk).
  destruct (end_marker_ok depth n b d base N buffer f z s2 fs2) as (s3 & E3 & F1 & F2 & F3 & F4 & F5); [done|done|lia|done|by rewrite A2 by lia|done|by rewrite Ef2|].
  exists s3. split; [exact E3|]. split; [unfold cnt; lia|]. split; [congruence|]. split; [congruence|]. split; [|split; [|done]].
  - intros j bs Hj. rewrite F5, A7. unfold m_sectors in Hj. destruct (decide (j < S (length (m_data x)))%nat) as [Hlt|Hge].
    + rewrite lookup_app_l in Hj by done. rewrite decide_False, decide_True by lia. rewrite <- Hj. f_equal. lia.
    + rewrite lookup_app_r in Hj by (cbn [length]; lia). cbn [length] in Hj. destruct (j - S (length (m_data x)))%nat eqn:Ej; [|done]. injection Hj as <-. by rewrite decide_True by lia.
  - intros j Hj. rewrite F5, A7. unfold cnt in Hj. by rewrite !decide_False by lia.
Qed.

(** If the byte behind the buffer is not zero, the end of the archive is not one: extract
    reads it as a bad header and panics. *)
Theorem damaged_end_panics lit stale depth n b d base N header data fuel z s :
  block_by_role (devices s) BLOCK_SCRATCH = b → b ≠ NULL → (n ≤ depth)%nat → on_device n b d base N (devices s) → N < 2^32 →
  buffers_ok lit header data (ram s) → 0 < z < 256 → 0 ≤ extract_pos s < N →
  sector_at d base (devices s) (extract_pos s) = Some (replicate 511 0 ++ [z]) →
  fsutil_extract lit stale depth (S fuel) header data s = Err EPanic.
Proof.
  intros Hb Hb0 Hn Hd HN Hbuf Hz Hp Hs. pose proof (bo_header _ _ _ _ Hbuf) as [Hr _]. pose proof (bo_data _ _ _ _ Hbuf) as [Hr' _].
  unfold fsutil_extract. rewrite decide_False by (unfold NULL; lia). erewrite st_bind_ok by (by apply scratch_ok). rewrite decide_False by done.
  apply st_bind_err. cbn [extract_loop]. set (h := replicate 511 0 ++ [z]) in *. assert (Hh : length h = 512%nat) by done.
  destruct (next_block_ok lit depth n b d base N header data Hn HN s (extract_pos s) s header h) as (s1 & E & Ef & Er & Hs1); [by split|by left|done|done|done|].
  rewrite E. pose proof (ex_buffers _ _ _ _ _ _ _ _ _ _ _ Hs1) as Hb1.
  destruct (parse_refines lit (ram s1) header h (bo_lits _ _ _ _ Hb1)) as (q & Eq & _);
    [rewrite Er; apply holds_write; lia|done|apply Forall_app; split; [by apply Forall_replicate|by repeat constructor; lia]|].
  rewrite decide_False in Eq.
  2:{ intros [_ Ha]%Forall_app. inversion Ha. lia. }
  assert (Hps : parse_spec h = inl NotUstar) by (unfold parse_spec; rewrite decide_True; [done|]; change (bytes_at h 257 6) with [0; 0; 0; 0; 0; 0]; done).
  rewrite Hps in Eq. by erewrite st_bind_ok by (by apply on_mem_read).
Qed.

(** ** An example: a scratch disk of ten sectors, two buffers and a name. *)

Definition demo_sectors (xs : list (list Z)) : gmap Z (list Z) :=
  list_to_map (zip (seqZ 0 10) (xs ++ replicate 10 zero_sector)).
Definition demo_scratch (xs : list (list Z)) : blocks :=
  Blocks [100] {[100 := Block (str "hdb1") BLOCK_SCRATCH 10 (Disk 7) 0 0]} (λ r, if decide (r = BLOCK_SCRATCH) then 100 else NULL)
    {[7 := demo_sectors xs]} 101 0.
Definition demo_buffers : mem :=
  write 4000 (str "ab" ++ [0]) (write 3000 (replicate 520 0) (write 2000 (replicate 520 0) (foldr (λ l, write (demo_lit l) (l ++ [0])) ∅ literals))).
Definition demo_util (x : fs) (xs : list (list Z)) : util := Util x demo_buffers (demo_scratch xs) 0 0.

Lemma demo_on_device xs : on_device 1 100 7 0 10 (demo_scratch xs).
Proof.
  split; [|eexists; by split]. apply (located_disk (demo_scratch xs) 100 (Block (str "hdb1") BLOCK_SCRATCH 10 (Disk 7) 0 0) 7 (demo_sectors xs)); [done|done|done| |done].
  intros i Hi. cbn in Hi. apply elem_of_dom. unfold demo_sectors. rewrite dom_list_to_map_L, elem_of_list_to_set, fst_zip; [by apply elem_of_seqZ; lia|].
  rewrite length_seqZ, length_app, length_replicate. lia.
Qed.

Lemma demo_stored x xs : (length xs < 10)%nat → stored 7 0 (demo_util x xs) 0 (xs ++ [zero_sector]).
Proof.
  intros Hl i bs Hi. assert (Hlt : (i < 10)%nat) by (apply lookup_lt_Some in Hi; rewrite length_app in Hi; cbn [length] in Hi; lia).
  unfold sector_at. cbn [devices demo_util demo_scratch disks]. rewrite lookup_singleton_eq. cbn [mbind option_bind]. unfold demo_sectors.
  apply elem_of_list_to_map_1.
  - rewrite fst_zip; [apply NoDup_seqZ|]. rewrite length_seqZ, length_app, length_replicate. lia.
  - apply list_elem_of_lookup. exists i. apply lookup_zip_with_Some. exists (Z.of_nat i), bs. split; [done|].
    split; [rewrite lookup_seqZ_lt by lia; f_equal; lia|]. change (xs ++ replicate 10 zero_sector) with (xs ++ [zero_sector] ++ replicate 9 zero_sector).
    rewrite app_assoc. by apply lookup_app_l_Some.
Qed.

Lemma demo_buffers_ok : buffers_ok demo_lit 2000 3000 demo_buffers.
Proof. split; compute_hyp. Qed.

(** What the file system has after the file cd with three bytes has been stored. *)
Definition demo_member : member := member_of (str "cd") [1; 2; 3].

Lemma demo_member_ok : member_ok demo_member USTAR_REGULAR 3.
Proof. apply (member_of_ok (str "cd") [1; 2; 3]); [compute_hyp|compute_hyp|done]. Qed.

Lemma demo_all_ok : Forall (λ x, ∃ type size, member_ok x type size) [demo_member].
Proof. constructor; [|done]. eexists _, _. exact demo_member_ok. Qed.

Definition demo_extract : util := demo_util formatted (m_sectors demo_member).

Lemma demo_extract_stored : stored 7 0 demo_extract 0 (concat (m_sectors <$> [demo_member]) ++ [zero_sector]).
Proof. apply (demo_stored formatted (m_sectors demo_member)). vm_compute. lia. Qed.

Lemma result_ok (q : FM ()) x : is_Some (FileTheorems.result q x) → ∃ f, q x = Ok ((), f).
Proof. unfold FileTheorems.result. destruct (q x) as [[[] f]|e]; [by exists f|by intros []]. Qed.

Lemma demo_stores : ∃ f, store_members (replicate 20 7) [demo_member] (files_of demo_extract) = Ok ((), f).
Proof. apply result_ok. vm_compute. by eexists. Qed.

Lemma demo_extract_ready :
  block_by_role (devices demo_extract) BLOCK_SCRATCH = 100 ∧ on_device 1 100 7 0 10 (devices demo_extract) ∧
  buffers_ok demo_lit 2000 3000 (ram demo_extract) ∧ extract_pos demo_extract = 0.
Proof. split; [done|]. split; [apply (demo_on_device (m_sectors demo_member))|]. split; [exact demo_buffers_ok|done]. Qed.

Lemma demo_count : Z.of_nat (length (concat (m_sectors <$> [demo_member]))) = 2.
Proof. by vm_compute. Qed.

Lemma extract_stores_archive_witness :
  ∃ s', fsutil_extract demo_lit (replicate 20 7) 1 2 2000 3000 demo_extract = Ok ((), s') ∧
    store_members (replicate 20 7) [demo_member] (files_of demo_extract) = Ok ((), files_of s') ∧ extract_pos s' = 3.
Proof.
  destruct demo_stores as [f Ef]. destruct demo_extract_ready as (Hb & Hd & Hm & Hp0).
  pose proof (extract_stores_archive demo_lit (replicate 20 7) 1 1 100 7 0 10 2000 3000 [demo_member] 2 demo_extract
    Hb ltac:(discriminate) ltac:(lia) Hd ltac:(lia) Hm) as H. rewrite demo_count, Hp0 in H.
  destruct (acts_run _ _ _ _ _ _ (H demo_all_ok demo_extract_stored ltac:(lia) ltac:(lia) ltac:(cbn; lia)) Ef) as (s' & Es & Ef' & Hp & _).
  exists s'. split; [exact Es|]. split; [rewrite Ef'; exact Ef|exact Hp].
Defined.

(** The file ab, 600 bytes of zeros, is appended. *)
Definition demo_append : util := demo_util one_file [].

Lemma run_ok {A} (q : FM A) x a : FileTheorems.result q x = Some a → q x = Ok (a, FileTheorems.after q x).
Proof. unfold FileTheorems.result, FileTheorems.after. destruct (q x) as [[a' y]|e]; [|done]. by intros [= ->]. Qed.

Lemma demo_open : filesys_open ab (files_of demo_append) = Ok (10, file_opened).
Proof. apply (run_ok (filesys_open ab) one_file 10). by vm_compute. Qed.

Lemma demo_opened : opened file_opened 10 9 (inode_at file_opened 9).
Proof. split; [by vm_compute|by vm_compute|compute_hyp|by vm_compute|by vm_compute|done]. Qed.

Lemma demo_append_ready :
  lits_ok demo_lit (ram demo_append) ∧ Forall (λ l, disjoint_blocks 2000 512 (demo_lit l) (S (length l))) literals ∧
  mapped (ram demo_append) 2000 512 ∧ ram demo_append !! 2512 = Some 0 ∧ cstr (ram demo_append) 4000 ab.
Proof. split; [apply (bo_lits _ _ _ _ demo_buffers_ok)|]. split; [compute_hyp|]. split; [apply (bo_header _ _ _ _ demo_buffers_ok)|]. split; compute_hyp. Qed.

Lemma demo_append_count : Z.of_nat (length (m_sectors (member_of ab (content file_opened (Inode.data (inode_at file_opened 9)))))) = 3.
Proof. by vm_compute. Qed.

Lemma append_adds_member_witness :
  ∃ s', fsutil_append demo_lit 1 4000 2000 demo_append = Ok ((), s') ∧ append_pos s' = 3 ∧
    stored 7 0 s' 0 (m_sectors (member_of ab (content file_opened (Inode.data (inode_at file_opened 9)))) ++ [zero_sector]).
Proof.
  destruct demo_append_ready as (Hl & Hld & Hm & Hz & Ht).
  pose proof (append_adds_member demo_lit 1 1 100 7 0 10 2000 4000 ab 10 file_opened 9 (inode_at file_opened 9) 0 demo_append
    eq_refl ltac:(discriminate) ltac:(lia) (demo_on_device []) ltac:(lia) Hl Hld Hm Hz ltac:(lia) Ht ltac:(left; lia) ltac:(vm_compute; lia) demo_open demo_opened) as H.
  rewrite demo_append_count in H. destruct (H ltac:(cbn; lia) ltac:(cbn; lia)) as (s' & E & Hp & _ & _ & Hs & _).
  exists s'. split; [exact E|]. split; [exact Hp|exact Hs].
Defined.
