(* ===== verification/Timer.v ===== *)
(** * devices/timer.c: calibration and short waits

    The part of the timer that measures time by counting turns of a loop; sleeping
    threads and the interrupt handler are in Kernel.  The state has a clock that counts turns of the
    waiting loops: each call of barrier is one unit of time, and every [period]
    units the timer interrupt adds a tick. *)

From S2P Require Import Prelude.

Local Open Scope Z_scope.

Definition TIMER_FREQ : Z := 100.

Record clock := Clock {
  now : Z;                 (** units of time since boot *)
  loops_per_tick : Z;
  intr_on : bool;          (** the interrupt level *)
}.

Abbreviation CM := (ST clock).

Section timer.
(** The time between two ticks. *)
Context (period : Z).

(** The variable ticks, which the interrupt handler counts up. *)
Definition ticks (s : clock) : Z := s64 (now s / period).

Definition timer_ticks : CM Z := st_gets ticks.
Definition timer_elapsed (start : Z) : CM Z := t ← timer_ticks; mret (s64 (t - start)).

Definition barrier : CM () := st_modify (λ s, Clock (now s + 1) (loops_per_tick s) (intr_on s)).

Fixpoint busy_loop (n : nat) : CM () := match n with O => mret tt | S n => barrier;; busy_loop n end.
Definition busy_wait (loops : Z) : CM () := busy_loop (Z.to_nat loops).

(** while (ticks == start); [fuel] is enough if it is the period. *)
Fixpoint wait_tick (fuel : nat) (start : Z) : CM () :=
  t ← st_gets ticks;
  if decide (t = start) then match fuel with O => st_fail EFuel | S fuel => barrier;; wait_tick fuel start end
  else mret tt.

Definition too_many_loops (loops : Z) : CM bool :=
  start ← st_gets ticks;
  wait_tick (Z.to_nat period) start;;
  start ← st_gets ticks;
  busy_wait loops;;
  t ← st_gets ticks;
  mret (bool_decide (start ≠ t)).

Definition set_loops (n : Z) : CM () := st_modify (λ s, Clock (now s) n (intr_on s)).

(** The two loops of timer_calibrate.  A double turn of the first one
    is at most one for each bit of the variable. *)
Fixpoint double_loop (fuel : nat) : CM () :=
  match fuel with
  | O => st_fail EFuel
  | S fuel =>
      n ← st_gets loops_per_tick;
      too_many ← too_many_loops (u32 (n * 2));
      if (too_many : bool) then mret tt else
      set_loops (u32 (n * 2));;
      ASSERT (bool_decide (u32 (n * 2) ≠ 0));;
      double_loop fuel
  end.

Fixpoint refine_loop (fuel : nat) (test_bit high_bit : Z) : CM () :=
  if decide (test_bit ≠ Z.shiftr high_bit 10) then
    match fuel with
    | O => st_fail EFuel
    | S fuel =>
        n ← st_gets loops_per_tick;
        too_many ← too_many_loops (Z.lor n test_bit);
        (if negb too_many then set_loops (Z.lor n test_bit) else mret tt);;
        refine_loop fuel (Z.shiftr test_bit 1) high_bit
    end
  else mret tt.

Definition timer_calibrate : CM () :=
  s ← st_get;
  ASSERT (intr_on s);;
  set_loops 1024;;
  double_loop 32;;
  high_bit ← st_gets loops_per_tick;
  refine_loop 32 (Z.shiftr high_bit 1) high_bit.

(** The product is computed in 64 bits; division rounds toward zero. *)
Definition real_time_delay (num denom : Z) : CM () :=
  ASSERT (bool_decide (Z.rem denom 1000 = 0));;
  n ← st_gets loops_per_tick;
  busy_wait (Z.quot (s64 (Z.quot (s64 (n * num)) 1000 * TIMER_FREQ)) (Z.quot denom 1000)).

(** [timer_sleep] is that of Kernel. *)
Definition real_time_sleep (timer_sleep : Z → CM ()) (num denom : Z) : CM () :=
  let t := Z.quot (s64 (num * TIMER_FREQ)) denom in
  s ← st_get;
  ASSERT (intr_on s);;
  if decide (0 < t) then timer_sleep t else real_time_delay num denom.

Definition timer_msleep (timer_sleep : Z → CM ()) (ms : Z) : CM () := real_time_sleep timer_sleep ms 1000.
Definition timer_usleep (timer_sleep : Z → CM ()) (us : Z) : CM () := real_time_sleep timer_sleep us 1000000.
Definition timer_nsleep (timer_sleep : Z → CM ()) (ns : Z) : CM () := real_time_sleep timer_sleep ns 1000000000.
Definition timer_mdelay (ms : Z) : CM () := real_time_delay ms 1000.
Definition timer_udelay (us : Z) : CM () := real_time_delay us 1000000.
Definition timer_ndelay (ns : Z) : CM () := real_time_delay ns 1000000000.
End timer.

(** * Theorems *)

Lemma gets_bind {A B} (f : clock → A) (k : A → ST clock B) s : (st_gets f ≫= k) s = k (f s) s.
Proof. done. Qed.

Lemma s64_eq x y : s64 x = s64 y → -2^63 < x - y < 2^63 → x = y.
Proof. unfold s64. intros H Hd. assert (E : (x + 2^63) `mod` 2^64 = (y + 2^63) `mod` 2^64) by lia. dlia. Qed.

Section timer.
Context (period : Z) (Hp : 0 < period).

Lemma busy_loop_ok n s : busy_loop n s = Ok ((), Clock (now s + Z.of_nat n) (loops_per_tick s) (intr_on s)).
Proof.
  revert s. induction n as [|n IH]; intros s; [cbn [busy_loop]; rewrite Z.add_0_r; by destruct s|].
  cbn [busy_loop]. erewrite st_bind_ok by reflexivity. rewrite IH. cbn. do 3 f_equal. lia.
Qed.

Lemma busy_wait_ok loops s : busy_wait loops s = Ok ((), Clock (now s + Z.max 0 loops) (loops_per_tick s) (intr_on s)).
Proof. unfold busy_wait. rewrite busy_loop_ok. do 3 f_equal. lia. Qed.

Lemma ticks_eq k s : k * period ≤ now s < (k + 1) * period → ticks period s = s64 k.
Proof using Hp. intros H. unfold ticks. f_equal. symmetry. apply (Z.div_unique_pos _ _ _ (now s - k * period)); lia. Qed.

(** The wait ends at the next tick. *)
Lemma wait_tick_ok k fuel s :
  k * period ≤ now s ≤ (k + 1) * period → (k + 1) * period - now s ≤ Z.of_nat fuel →
  wait_tick period fuel (s64 k) s = Ok ((), Clock ((k + 1) * period) (loops_per_tick s) (intr_on s)).
Proof using Hp.
  revert s. induction fuel as [|fuel IH]; intros s Hn Hf; cbn [wait_tick];
    rewrite gets_bind;
    (destruct (decide (now s = (k + 1) * period)) as [E|E];
      [rewrite (ticks_eq (k + 1)) by lia; rewrite decide_False by (intros H%s64_eq; lia); rewrite <- E; by destruct s|]).
  - lia.
  - rewrite (ticks_eq k), decide_True by (done || lia). erewrite st_bind_ok by reflexivity. by rewrite IH by (cbn; lia).
Qed.

(** The test is exact: a tick passes during so many loops or not. *)
Lemma too_many_ok loops s :
  0 ≤ loops < 2^32 →
  ∃ t, too_many_loops period loops s = Ok (bool_decide (period ≤ loops), Clock t (loops_per_tick s) (intr_on s)).
Proof using Hp.
  intros Hl. set (k := now s / period).
  assert (Hn : k * period ≤ now s < (k + 1) * period) by (unfold k; pose proof (Z.div_mod (now s) period); pose proof (Z.mod_pos_bound (now s) period); lia).
  unfold too_many_loops. rewrite gets_bind, (ticks_eq k) by lia.
  erewrite st_bind_ok by (apply wait_tick_ok; lia). rewrite gets_bind, (ticks_eq (k + 1)) by (cbn; lia). erewrite st_bind_ok by apply busy_wait_ok. cbn [now loops_per_tick intr_on].
  rewrite Z.max_r by lia. set (s' := Clock _ _ _). exists ((k + 1) * period + loops).
  assert (E : bool_decide (s64 (k + 1) ≠ ticks period s') = bool_decide (period ≤ loops)); [|rewrite gets_bind; by rewrite E].
  apply bool_decide_ext. set (j := loops / period). assert (Hj : j * period ≤ loops < (j + 1) * period).
  { unfold j. pose proof (Z.div_mod loops period); pose proof (Z.mod_pos_bound loops period). lia. }
  rewrite (ticks_eq (k + 1 + j)) by (cbn; lia). assert (Hjr : 0 ≤ j ≤ loops) by nia.
  destruct (decide (j = 0)) as [->|Hj0]; [rewrite Z.add_0_r; split; [done|lia]|]. split; [nia|]. intros _ H%s64_eq; lia.
Qed.

(** Doubling ends at the largest power of two that is less than a tick, or overflows. *)
Lemma double_loop_ok j : ∀ k fuel s,
  10 ≤ k → k + Z.of_nat j = 31 → (j < fuel)%nat → loops_per_tick s = 2^k → k = 10 ∨ 2^k < period →
  if decide (period ≤ 2^31) then
    ∃ t i, double_loop period fuel s = Ok ((), Clock t (2^i) (intr_on s)) ∧ 10 ≤ i ≤ 30 ∧ period ≤ 2^(i+1) ∧ (i = 10 ∨ 2^i < period)
  else double_loop period fuel s = Err EPanic.
Proof using Hp.
  induction j as [|j IH]; intros k fuel s Hk Hkj Hf Hs Hlo; (destruct fuel as [|fuel]; [lia|]); cbn [double_loop];
    rewrite gets_bind, Hs.
  - assert (k = 31) as -> by lia. rewrite decide_False by (destruct Hlo; lia). change (u32 (2^31 * 2)) with 0.
    destruct (too_many_ok 0 s ltac:(lia)) as (t & E). erewrite st_bind_ok by exact E. rewrite bool_decide_eq_false_2 by lia. by erewrite st_bind_ok by reflexivity.
  - assert (Hk2 : 2^k * 2 = 2^(k+1)) by (rewrite Z.pow_add_r by lia; lia). assert (Hr : 2^(k+1) ≤ 2^31) by (apply Z.pow_le_mono_r; lia).
    assert (Hpos : 0 < 2^(k+1)) by (apply Z.pow_pos_nonneg; lia). rewrite Hk2, u32_id by (unfold in_u32; lia).
    destruct (too_many_ok (2^(k+1)) s ltac:(lia)) as (t & E). erewrite st_bind_ok by exact E. case_bool_decide as Hc.
    + rewrite decide_True by lia. exists t, k. rewrite Hs. split; [done|]. split; [lia|]. split; [lia|done].
    + erewrite st_bind_ok by reflexivity. erewrite st_bind_ok by (apply assert_ok, bool_decide_eq_true; lia). cbn [now intr_on].
      apply (IH (k + 1) fuel (Clock t (2^(k+1)) (intr_on s))); [lia|lia|lia|done|right; lia].
Qed.

Lemma lor_bit n i : 0 ≤ i → (2^(i+1) | n) → Z.lor n (2^i) = n + 2^i.
Proof.
  intros Hi [q ->]. assert (H : Z.land (q * 2^(i+1)) (2^i) = 0).
  { apply Z.bits_inj'. intros m Hm. rewrite Z.land_spec, Z.bits_0. destruct (decide (m = i)) as [->|Hne].
    - rewrite Z.mul_pow2_bits_low by lia. done.
    - by rewrite Z.pow2_bits_false, andb_false_r by lia. }
  rewrite <- Z.lxor_lor by done. symmetry. by apply Z.add_nocarry_lxor.
Qed.

(** Nine bits are refined. *)
Lemma refine_loop_ok j : ∀ k i fuel s,
  10 ≤ k ≤ 30 → i = k - 10 + Z.of_nat j → (j ≤ fuel)%nat → (2^(i+1) | loops_per_tick s) → 0 ≤ loops_per_tick s → loops_per_tick s + 2^(i+1) ≤ 2^31 →
  ∃ t n, refine_loop period fuel (2^i) (2^k) s = Ok ((), Clock t n (intr_on s)) ∧ loops_per_tick s ≤ n ∧
    (loops_per_tick s < period ≤ loops_per_tick s + 2^(i+1) → n < period ≤ n + 2^(k-9)) ∧ (period ≤ loops_per_tick s → n = loops_per_tick s).
Proof using Hp.
  induction j as [|j IH]; intros k i fuel s Hk Hi Hf Hdiv Hn Hb.
  { assert (i = k - 10) as -> by lia. exists (now s), (loops_per_tick s). split; [|split; [lia|split; [|done]]].
    - destruct fuel; cbn [refine_loop]; (rewrite decide_False; [by destruct s|]; rewrite Z.shiftr_div_pow2, Z.pow_sub_r by lia; tauto).
    - replace (k - 10 + 1) with (k - 9) by lia. done. }
  destruct fuel as [|fuel]; [lia|]. cbn [refine_loop]. rewrite decide_True.
  2:{ rewrite Z.shiftr_div_pow2, <- Z.pow_sub_r by lia. intros H%Z.pow_inj_r; lia. }
  rewrite gets_bind, lor_bit by (done || lia).
  assert (H2 : 2^(i+1) = 2 * 2^i) by (rewrite Z.pow_add_r by lia; lia). assert (Hpos : 0 < 2^i) by (apply Z.pow_pos_nonneg; lia).
  destruct (too_many_ok (loops_per_tick s + 2^i) s ltac:(lia)) as (t & E). erewrite st_bind_ok by exact E.
  assert (Hsh : Z.shiftr (2^i) 1 = 2^(i-1)) by (rewrite Z.shiftr_div_pow2, <- Z.pow_sub_r by lia; done). rewrite Hsh.
  case_bool_decide as Hc; cbn [negb]; (erewrite st_bind_ok by reflexivity); cbn [now intr_on].
  - destruct (IH k (i - 1) fuel (Clock t (loops_per_tick s) (intr_on s))) as (t' & n & E' & H1 & H3 & H4);
      [lia|lia|lia|cbn; replace (i - 1 + 1) with i by lia; destruct Hdiv as [q ->]; exists (2 * q); lia|cbn; lia|cbn; replace (i - 1 + 1) with i by lia; lia|].
    cbn [loops_per_tick intr_on] in *. exists t', n. split; [exact E'|]. split; [done|]. split; [|done]. intros. apply H3. replace (i - 1 + 1) with i by lia. lia.
  - destruct (IH k (i - 1) fuel (Clock t (loops_per_tick s + 2^i) (intr_on s))) as (t' & n & E' & H1 & H3 & H4);
      [lia|lia|lia|cbn; replace (i - 1 + 1) with i by lia; destruct Hdiv as [q ->]; exists (2 * q + 1); lia|cbn; lia|cbn; replace (i - 1 + 1) with i by lia; lia|].
    cbn [loops_per_tick intr_on] in *. exists t', n. split; [exact E'|]. split; [lia|]. split; [|lia]. intros. apply H3. replace (i - 1 + 1) with i by lia. lia.
Qed.
End timer.

(** ** Theorems *)

Lemma calibrate_ok period s :
  0 < period → intr_on s = true →
  if decide (period ≤ 2^31) then
    ∃ t n, timer_calibrate period s = Ok ((), Clock t n true) ∧ 1024 ≤ n < 2^31 ∧
      (1024 < period → n < period ∧ 512 * (period - n) ≤ n) ∧ (period ≤ 1024 → n = 1024)
  else timer_calibrate period s = Err EPanic.
Proof.
  intros Hp Hon. unfold timer_calibrate. change (st_get ≫= ?k) with (λ s : clock, k s s). cbn beta.
  erewrite st_bind_ok by (by apply assert_ok). erewrite st_bind_ok by reflexivity. rewrite Hon.
  pose proof (double_loop_ok period Hp 21 10 32 (Clock (now s) 1024 true)) as Hd. cbn [intr_on loops_per_tick] in Hd.
  specialize (Hd ltac:(lia) ltac:(lia) ltac:(lia) eq_refl (or_introl eq_refl)).
  destruct (decide (period ≤ 2^31)) as [Hle|Hgt]; [|by apply st_bind_err].
  destruct Hd as (t & i & E & Hi & Hup & Hlo). rewrite (st_bind_ok _ _ _ _ _ E), gets_bind. cbn [loops_per_tick].
  rewrite Z.shiftr_div_pow2, <- Z.pow_sub_r by lia. assert (H1 : 2^(i+1) = 2 * 2^i) by (rewrite Z.pow_add_r by lia; lia).
  assert (H31 : 2^(i+1) ≤ 2^31) by (apply Z.pow_le_mono_r; lia).
  assert (H10 : 2^10 ≤ 2^i) by (apply Z.pow_le_mono_r; lia). change (2^10) with 1024 in H10.
  destruct (refine_loop_ok period Hp 9 i (i - 1) 32 (Clock t (2^i) true)) as (t' & n & E' & Hn & Hin & Hout);
    [lia|lia|lia|cbn [loops_per_tick]; replace (i - 1 + 1) with i by lia; by exists 1; lia|cbn [loops_per_tick]; lia|cbn [loops_per_tick]; replace (i - 1 + 1) with i by lia; lia|].
  cbn [loops_per_tick intr_on] in *. replace (i - 1 + 1) with i in Hin by lia. exists t', n. split; [exact E'|].
  assert (H9 : 512 * 2^(i-9) = 2^i) by (replace i with (9 + (i - 9)) at 2 by lia; rewrite Z.pow_add_r by lia; lia).
  destruct (decide (period ≤ 2^i)) as [Hs|Hs].
  - rewrite (Hout Hs) in *. assert (i = 10) as -> by lia. change (2^10) with 1024 in *. split; [lia|]. split; [lia|done].
  - destruct Hin as [Hn1 Hn2]; [lia|]. split; [lia|]. split; lia.
Qed.

(** The loops of a delay: at most the time asked for, and less by less than two
    small terms that come from rounding. *)
Lemma delay_ok n num denom s :
  loops_per_tick s = n → 0 ≤ n < 2^31 → 0 ≤ num ≤ 2^31 → 1000 ≤ denom → (1000 | denom) →
  ∃ d, real_time_delay num denom s = Ok ((), Clock (now s + d) n (intr_on s)) ∧
    0 ≤ d ∧ d * denom ≤ TIMER_FREQ * n * num < (d + 1) * denom + 100000.
Proof.
  intros Hn Hr Hnum Hden [D ->]. unfold real_time_delay. erewrite st_bind_ok by (apply assert_ok, bool_decide_eq_true, Z.rem_mul; lia).
  rewrite gets_bind, Hn. assert (Hprod : 0 ≤ n * num < 2^62) by nia. rewrite (s64_id (n * num)) by (unfold in_s64; lia).
  rewrite (Z.quot_div_nonneg (n * num) 1000) by lia. set (a := n * num / 1000).
  assert (Ha : 1000 * a ≤ n * num < 1000 * a + 1000) by (unfold a; dlia). unfold TIMER_FREQ. rewrite s64_id by (unfold in_s64; lia).
  rewrite Z.quot_mul by lia. rewrite Z.quot_div_nonneg by lia. set (d := a * 100 / D).
  assert (Hd : D * d ≤ a * 100 < D * d + D) by (unfold d; pose proof (Z.div_mod (a * 100) D); pose proof (Z.mod_pos_bound (a * 100) D); lia).
  assert (0 ≤ d) by (apply Z.div_pos; lia). exists d. rewrite busy_wait_ok, Z.max_r, Hn by lia. split; [done|]. split; [done|]. nia.
Qed.



(** A sleep of a tick or more goes to timer_sleep with the whole ticks of the time; a shorter one is a
    delay. *)
Theorem sleep_or_delay timer_sleep num denom s :
  intr_on s = true → 0 ≤ num ≤ 2^56 → 0 < denom →
  real_time_sleep timer_sleep num denom s =
    if decide (denom ≤ TIMER_FREQ * num) then timer_sleep (TIMER_FREQ * num / denom) s else real_time_delay num denom s.
Proof.
  intros Hon Hnum Hd. unfold real_time_sleep. change (st_get ≫= ?k) with (λ s : clock, k s s). cbn beta zeta.
  erewrite st_bind_ok by (by apply assert_ok). unfold TIMER_FREQ. rewrite s64_id by (unfold in_s64; lia). rewrite Z.quot_div_nonneg by lia.
  rewrite Z.mul_comm. destruct (decide (denom ≤ 100 * num)) as [H|H].
  - rewrite decide_True; [done|]. apply Z.div_str_pos. lia.
  - rewrite decide_False; [done|]. rewrite Z.div_small by lia. lia.
Qed.
