(* ===== verification/UserLib.v ===== *)
(** * lib/user: the library of user programs

    The system call stubs of lib/user/syscall.c on the processor of X86, with the interrupt
    of Stubs between the program and the kernel, and the console of
    lib/user/console.c, whose output is the list of the calls of write. *)

From S2P Require Import Prelude Memory CString CStdlib Stdio StdioSpec Vaddr Descriptors Trap X86 Stubs.

Local Open Scope Z_scope.

(** ** lib/user/syscall.c *)

(** lib/syscall-nr.h; the other numbers are in Trap. *)
Definition SYS_MMAP : Z := 13.
Definition SYS_MUNMAP : Z := 14.
Definition SYS_CHDIR : Z := 15.
Definition SYS_MKDIR : Z := 16.
Definition SYS_READDIR : Z := 17.
Definition SYS_ISDIR : Z := 18.
Definition SYS_INUMBER : Z := 19.

Section syscall.
(** The kernel's stack, its stubs and its handler, as in Stubs. *)
Context (esp0 ss0 : Z) (stub_address : Z → Z) (entry after : Z) (handler : X ()).

(** int $0x30: the gate leaves interrupts on, and there is no error code. *)
Definition int30 : X () := take_interrupt esp0 ss0 stub_address entry after handler false 48 0.

Definition syscall0 (number : Z) : X Z :=
  pushl number;; int30;; addl 4 ESP;; rd EAX.
Definition syscall1 (number arg0 : Z) : X Z :=
  pushl arg0;; pushl number;; int30;; addl 8 ESP;; rd EAX.
Definition syscall2 (number arg0 arg1 : Z) : X Z :=
  pushl arg1;; pushl arg0;; pushl number;; int30;; addl 12 ESP;; rd EAX.
Definition syscall3 (number arg0 arg1 arg2 : Z) : X Z :=
  pushl arg2;; pushl arg1;; pushl arg0;; pushl number;; int30;; addl 16 ESP;; rd EAX.

(** The result as an int, and as a bool. *)
Definition as_int (c : X Z) : X Z := v ← c; mret (s32 v).
Definition as_bool (c : X Z) : X bool := v ← c; mret (bool_decide (v ≠ 0)).

(** NOT_REACHED. *)
Definition halt : X () := _ ← syscall0 SYS_HALT; st_fail EPanic.
Definition exit (status : Z) : X () := _ ← syscall1 SYS_EXIT status; st_fail EPanic.
Definition exec (file : Z) : X Z := as_int (syscall1 SYS_EXEC file).
Definition wait (pid : Z) : X Z := as_int (syscall1 SYS_WAIT pid).
Definition create (file initial_size : Z) : X bool := as_bool (syscall2 SYS_CREATE file initial_size).
Definition remove (file : Z) : X bool := as_bool (syscall1 SYS_REMOVE file).
Definition open (file : Z) : X Z := as_int (syscall1 SYS_OPEN file).
Definition filesize (fd : Z) : X Z := as_int (syscall1 SYS_FILESIZE fd).
Definition read (fd buffer size : Z) : X Z := as_int (syscall3 SYS_READ fd buffer size).
Definition write (fd buffer size : Z) : X Z := as_int (syscall3 SYS_WRITE fd buffer size).
Definition seek (fd position : Z) : X () := _ ← syscall2 SYS_SEEK fd position; mret tt.
Definition tell (fd : Z) : X Z := syscall1 SYS_TELL fd.
Definition close (fd : Z) : X () := _ ← syscall1 SYS_CLOSE fd; mret tt.
Definition mmap (fd addr : Z) : X Z := as_int (syscall2 SYS_MMAP fd addr).
Definition munmap (mapid : Z) : X () := _ ← syscall1 SYS_MUNMAP mapid; mret tt.
Definition chdir (dir : Z) : X bool := as_bool (syscall1 SYS_CHDIR dir).
Definition mkdir (dir : Z) : X bool := as_bool (syscall1 SYS_MKDIR dir).
Definition readdir (fd name : Z) : X bool := as_bool (syscall2 SYS_READDIR fd name).
Definition isdir (fd : Z) : X bool := as_bool (syscall1 SYS_ISDIR fd).
Definition inumber (fd : Z) : X Z := as_int (syscall1 SYS_INUMBER fd).

(** lib/user/entry.c: [main] returns the status. *)
Definition _start (main : Z → Z → X Z) (argc argv : Z) : X () := status ← main argc argv; exit status.
End syscall.

(** ** lib/user/console.c *)

(** The program's memory, and the calls of write: a handle and the bytes. *)
Record program := Program { pmem : mem; writes : list (Z * list Z) }.

Abbreviation GM := (ST program).

Definition write_call (handle : Z) (bytes : list Z) : GM () := st_modify (λ s, Program (pmem s) (writes s ++ [(handle, bytes)])).
Definition on_pmem {A} (c : MM A) : GM A := λ s, match c (pmem s) with Ok (a, m) => Ok (a, Program m (writes s)) | Err e => Err e end.

Definition putchar (c : Z) : GM Z := write_call STDOUT_FILENO [c `mod` 256];; mret c.

Definition puts (s : Z) : GM Z :=
  n ← on_pmem (strlen s);
  bytes ← on_pmem (load_bytes (Z.to_nat n) s);
  write_call STDOUT_FILENO bytes;;
  _ ← putchar 10;
  mret 0.

(** struct vhprintf_aux; [buf] is the part of the buffer before [p]. *)
Record vhprintf_aux := VhAux { buf : list Z; char_cnt : Z; handle : Z }.

Definition flush : ST (program * vhprintf_aux) () := λ s,
  let aux := s.2 in
  let p := if decide (0 < Z.of_nat (length (buf aux))) then Program (pmem s.1) (writes s.1 ++ [(handle aux, buf aux)]) else s.1 in
  Ok ((), (p, VhAux [] (char_cnt aux) (handle aux))).

Definition add_char (c : Z) : ST (program * vhprintf_aux) () :=
  st_modify (λ s, (s.1, VhAux (buf s.2 ++ [c `mod` 256]) (char_cnt s.2) (handle s.2)));;
  s ← st_get;
  (if decide (64 ≤ Z.of_nat (length (buf s.2))) then flush else mret tt);;
  st_modify (λ s, (s.1, VhAux (buf s.2) (s32 (char_cnt s.2 + 1)) (handle s.2))).

Definition rd_program (a : Z) : ST (program * vhprintf_aux) Z := λ s, match Memory.load a (pmem s.1) with Ok (b, _) => Ok (b, s) | Err e => Err e end.

Definition vhprintf (fuel : nat) (handle format : Z) (args : list Z) : GM Z := λ s,
  match (__vprintf rd_program add_char fuel format args;; flush) (s, VhAux [] 0 handle) with
  | Ok (_, (s, aux)) => Ok (char_cnt aux, s)
  | Err e => Err e
  end.

Definition hprintf (fuel : nat) (handle format : Z) (args : list Z) : GM Z := vhprintf fuel handle format args.
Definition vprintf (fuel : nat) (format : Z) (args : list Z) : GM Z := vhprintf fuel STDOUT_FILENO format args.

(** * Theorems *)

(** ** System calls *)

(** The stubs are one: the arguments from the last to the first, and the number. *)
Fixpoint pushes {A} (ws : list Z) (k : X A) : X A := match ws with [] => k | w :: ws => pushl w;; pushes ws k end.

Lemma pushes_ok {A} ws (k : X A) c :
  4 * Z.of_nat (length ws) ≤ esp (gpr c) → esp (gpr c) < 2^32 → is_ram (ram c) → Forall in_u32 ws →
  ∃ m, pushes ws k c = k (Cpu (setr ESP (esp (gpr c) - 4 * Z.of_nat (length ws)) (gpr c)) (seg c) (eip c) (eflags c) m) ∧ is_ram m ∧
    (∀ i w, ws !! i = Some w → ldl m (esp (gpr c) - 4 * (Z.of_nat i + 1)) = w) ∧
    ∀ x, x < esp (gpr c) - 4 * Z.of_nat (length ws) ∨ esp (gpr c) ≤ x → m x = ram c x.
Proof.
  revert c. induction ws as [|w ws IH]; intros c Hlo Hhi Hm Hw.
  { exists (ram c). cbn [pushes length]. split; [|done]. destruct c as [[] ? ? ? ?]. cbn. by rewrite Z.sub_0_r. }
  apply Forall_cons in Hw as [Hw1 Hw]. cbn [length] in *. cbn [pushes]. destruct c as [[a cc d b p bp si di] sg ip fl m]. cbn [gpr esp ram seg eip eflags] in *.
  assert (E0 : pushl w (Cpu (Regs a cc d b p bp si di) sg ip fl m) = Ok ((), Cpu (Regs a cc d b (p - 4) bp si di) sg ip fl (stl (p - 4) w m))).
  { unfold pushl. x_step. x_step. unfold store. st_unfold. cbn. by wrap. }
  rewrite (st_bind_ok _ _ _ _ _ E0).
  edestruct (IH (Cpu (Regs a cc d b (p - 4) bp si di) sg ip fl (stl (p - 4) w m))) as (m' & E & Hm' & Hin & Hout); cbn [gpr esp ram]; [lia|lia|by apply stl_ram|done|].
  cbn [gpr esp ram seg eip eflags setr] in *. exists m'. split; [|split; [done|split]].
  - rewrite E. cbn [setr]. by replace (p - 4 - 4 * Z.of_nat (length ws)) with (p - 4 * Z.of_nat (S (length ws))) by lia.
  - intros [|i] v Hv.
    + injection Hv as <-. rewrite (ldl_ext (stl (p - 4) w m) m') by (intros; apply Hout; lia). replace (p - 4 * (Z.of_nat 0 + 1)) with (p - 4) by lia. by words.
    + rewrite <- (Hin i v Hv). f_equal. lia.
  - intros x Hx. rewrite Hout by lia. by rewrite stl_other by lia.
Qed.

Lemma bind_run {A B} (c c' : X A) (k : A → X B) s s' : c s = c' s' → (c ≫= k) s = (c' ≫= k) s'.
Proof. unfold mbind, ST_bind. by intros ->. Qed.

Section protocol.
Context (esp0 ss0 : Z) (stub_address : Z → Z) (entry after : Z) (h : X ()).

(** The stub for a number of arguments. *)
Definition syscall (number : Z) (args : list Z) : X Z :=
  match args with
  | [] => syscall0 esp0 ss0 stub_address entry after h number
  | [a] => syscall1 esp0 ss0 stub_address entry after h number a
  | [a; b] => syscall2 esp0 ss0 stub_address entry after h number a b
  | [a; b; c] => syscall3 esp0 ss0 stub_address entry after h number a b c
  | _ => st_fail EFault
  end.

Lemma syscall_pushes number args :
  (length args ≤ 3)%nat →
  syscall number args =
    pushes (reverse (number :: args)) (int30 esp0 ss0 stub_address entry after h;; addl (4 * (1 + Z.of_nat (length args))) ESP;; rd EAX).
Proof. destruct args as [|? [|? [|? [|? ?]]]]; cbn; (done || lia). Qed.

(** The frame with another value of eax. *)
Lemma frame_eax m m' f :
  (∀ x, f ≤ x < f + 72 → x < f + 28 ∨ f + 32 ≤ x → m' x = m x) →
  frame_at m' f = let fr := frame_at m f in
    Iframe (f_edi fr) (f_esi fr) (f_ebp fr) (f_ebx fr) (f_edx fr) (f_ecx fr) (ldl m' (f + 28)) (f_gs fr) (f_fs fr) (f_es fr) (f_ds fr)
      (f_vec_no fr) (f_error_code fr) (f_frame_pointer fr) (f_eip fr) (f_cs fr) (f_eflags fr).
Proof. intros H. unfold frame_at. cbn. f_equal; apply ldl_ext; intros; apply H; lia. Qed.

(** The trap and the return from it. *)
Lemma trap_ok c :
  cpu_ok c → is_ram (ram c) → level (cs (seg c)) = 3 → in_u32 after → 120 ≤ esp0 → esp0 + 4 < 2^32 →
  ∃ c1, let f := esp0 - 80 in
    int30 esp0 ss0 stub_address entry after h c = (h;; addl 4 ESP;; intr_exit) c1 ∧ is_ram (ram c1) ∧ esp (gpr c1) = f - 8 ∧
    ldl (ram c1) (f - 4) = f ∧ frame_at (ram c1) f = frame_of 48 0 c ∧ ldl (ram c1) (f + 72) = esp (gpr c) ∧
    (∀ x, x < f - 8 ∨ esp0 ≤ x → ram c1 x = ram c x) ∧
    ∀ c2, h c1 = Ok ((), c2) → esp (gpr c2) = f - 4 →
      (∀ x, f ≤ x < esp0 → x < f + 28 ∨ f + 32 ≤ x → ram c2 x = ram c1 x) →
      int30 esp0 ss0 stub_address entry after h c =
        Ok ((), Cpu (setr EAX (ldl (ram c2) (f + 28)) (gpr c)) (seg c) (eip c) (eflags c) (ram c2)).
Proof.
  intros Hc Hm Hl Haf Hlo Hhi. assert (Hbase : base esp0 c = esp0 - 20) by (unfold base; rewrite decide_True by exact Hl; reflexivity).
  assert (Htop : top esp0 c = esp0) by (unfold top; rewrite decide_True by exact Hl; reflexivity).
  destruct (enter_ok esp0 ss0 stub_address entry after h false 48 0 c Hc Hm) as (c1 & E & Hmr & Hsp & Hf & Hfr & Hu & _ & Hsame);
    [by vm_compute|by vm_compute|done|lia|lia|by vm_compute|].
  rewrite Hbase in *. rewrite Htop in Hsame. replace (esp0 - 20 - 60) with (esp0 - 80) in * by lia. change (pushes_error 48) with false in Hfr. cbv iota in Hfr.
  destruct (Hu Hl) as [Hu1 Hu2]. exists c1. cbv zeta. split; [exact E|]. split; [done|]. split; [done|]. split; [done|]. split; [done|]. split; [done|]. split; [done|].
  intros c2 E2 Hsp2 Hkeep. unfold int30. rewrite E, (st_bind_ok _ _ _ _ _ E2). set (f := esp0 - 80) in *.
  destruct c2 as [[a cc d bb p bp si di] sg ip fl m2]. cbn [gpr esp ram] in *. subst p. unfold addl. x_step.
  replace (f - 4 + 4) with f by lia. rewrite (exit_ok f); [|cbn; lia|cbn; lia|cbn; lia]. cbn [ram seg ss].
  rewrite (frame_eax (ram c1) m2) by (intros; apply Hkeep; lia). rewrite Hfr. unfold frame_of. cbn [f_cs f_eip f_eflags].
  pose proof (co_seg _ Hc) as Hseg. pose proof (Hseg CS). pose proof (Hseg DS). pose proof (Hseg ES). pose proof (Hseg FS). pose proof (Hseg GS). pose proof (Hseg SS).
  rewrite !decide_True by done. rewrite !(ldl_ext (ram c1) m2 (f + 72)), !(ldl_ext (ram c1) m2 (f + 76)) by (intros; apply Hkeep; lia). rewrite Hu1, Hu2.
  unfold regs_of, sregs_of. destruct c as [[] [] ? ? ?]. cbn in *. by rewrite ?Z.mod_small by lia.
Qed.
End protocol.



(** ** The console *)

(** What has been written and is pending after the output [out]. *)
Definition buffered (s0 : program) (hd : Z) (out : list Z) (s : program * vhprintf_aux) : Prop :=
  ∃ cs, s.1 = Program (pmem s0) (writes s0 ++ ((λ c, (hd, c)) <$> cs)) ∧ handle s.2 = hd ∧ char_cnt s.2 = Z.of_nat (length out) ∧
    concat cs ++ buf s.2 = (λ c, c `mod` 256) <$> out ∧ Forall (λ c, (0 < length c ≤ 64)%nat) cs ∧ (length (buf s.2) < 64)%nat.

Lemma sim_add_char s0 hd ch : sim length (2^31) (buffered s0 hd) (record ch) (add_char ch).
Proof.
  intros out [] out' H. injection H as <-. rewrite length_app. cbn [length]. split; [lia|]. intros Hb [p [bf n h]] (cs & E1 & E2 & E3 & E4 & E5 & E6). cbn [fst snd buf char_cnt handle] in *. subst p h n.
  unfold add_char. erewrite st_bind_ok by reflexivity. cbn [fst snd buf char_cnt handle]. change (st_get ≫= ?k) with (λ s : program * vhprintf_aux, k s s). cbn beta. cbn [fst snd buf].
  assert (E7 : Z.of_nat (length out) + 1 = Z.of_nat (length (out ++ [ch]))) by (rewrite length_app; cbn; lia).
  destruct (decide (64 ≤ Z.of_nat (length (bf ++ [ch `mod` 256])))) as [Hf|Hf].
  - erewrite st_bind_ok by reflexivity. eexists. split; [reflexivity|]. unfold buffered. cbn [fst snd buf char_cnt handle].
    rewrite decide_True by lia. rewrite s32_id by (unfold in_s32; lia). exists (cs ++ [bf ++ [ch `mod` 256]]). rewrite length_app in Hf. cbn [length] in Hf.
    split; [by rewrite fmap_app, app_assoc|]. split; [done|]. split; [done|]. split; [|split; [|cbn; lia]].
    + rewrite concat_app, fmap_app, <- E4. cbn. by rewrite !app_nil_r, app_assoc.
    + apply Forall_app. split; [done|]. constructor; [|done]. rewrite length_app. cbn. lia.
  - erewrite st_bind_ok by reflexivity. eexists. split; [reflexivity|]. unfold buffered. cbn [fst snd buf char_cnt handle].
    rewrite s32_id by (unfold in_s32; lia). exists cs. split; [done|]. split; [done|]. split; [done|]. split; [|split; [done|lia]].
    by rewrite app_assoc, E4, fmap_app.
Qed.

Lemma sim_rd_program s0 hd a : sim length (2^31) (buffered s0 hd) (rd_from (pmem s0) a) (rd_program a).
Proof.
  intros out b out' H. unfold rd_from in H. destruct (Memory.load a (pmem s0)) as [[x m]|] eqn:E; [|done]. injection H as <- <-.
  split; [done|]. intros _ [p aux] Hs. exists (p, aux). split; [|done]. destruct Hs as (cs & Es & _). cbn [fst] in Es. subst p. unfold rd_program. cbn [fst pmem]. by rewrite E.
Qed.

(** Printf of a user program.  For a format with any directives, vhprintf writes exactly the text of the format to the
    handle, in pieces of at most 64 bytes, and returns its length. *)
Theorem user_printf_writes s hd fmt ds args fuel :
  let out := concat (text_of <$> ds) in
  cstr (pmem s) fmt (concat (format_of <$> ds)) → Forall (directive_ok (pmem s)) ds →
  Forall (λ c, 0 ≤ c < 256) out → Z.of_nat (length out) < 2^31 → (length (concat (format_of <$> ds)) + length out + 1 < fuel)%nat →
  ∃ cs, vhprintf fuel hd fmt (concat (words_of <$> ds) ++ args) s =
      Ok (Z.of_nat (length out), Program (pmem s) (writes s ++ ((λ c, (hd, c)) <$> cs))) ∧
    concat cs = out ∧ Forall (λ c, (0 < length c ≤ 64)%nat) cs.
Proof.
  intros out Hf Hd Hb Hl Hfu. pose proof (printed_directives (pmem s) ds fuel fmt args Hf Hd Hfu) as Hp. fold out in Hp.
  unfold printed in Hp. destruct (__vprintf _ record fuel fmt _ []) as [[[] o]|e] eqn:E; [|done]. injection Hp as ->.
  destruct (sim_vprintf _ _ _ _ _ _ _ (sim_rd_program s hd) (sim_add_char s hd) fuel fmt _ [] () out E) as [_ Hs].
  destruct (Hs Hl (s, VhAux [] 0 hd)) as ([p [bf n h]] & E1 & (cs & E2 & E3 & E4 & E5 & E6 & E7)).
  { exists []. cbn. rewrite app_nil_r. split; [by destruct s|]. split; [done|]. split; [done|]. split; [done|]. split; [done|lia]. }
  cbn [fst snd buf char_cnt handle] in *. subst p h n.
  assert (Eb : (λ c, c `mod` 256) <$> out = out) by (clear - Hb; induction Hb as [|c l Hc _ IH]; [done|]; cbn; by rewrite IH, Z.mod_small). rewrite Eb in E5.
  unfold vhprintf. erewrite st_bind_ok by exact E1. unfold flush. cbn [fst snd buf char_cnt handle]. destruct (decide (0 < Z.of_nat (length bf))) as [Hn|Hn].
  - exists (cs ++ [bf]). split; [by rewrite fmap_app, app_assoc|]. split; [rewrite concat_app; cbn; by rewrite app_nil_r|]. apply Forall_app. split; [done|]. constructor; [lia|done].
  - exists cs. split; [done|]. destruct bf; [|cbn in Hn; lia]. by rewrite app_nil_r in E5.
Qed.

Lemma user_printf_writes_witness :
  ∃ cs, vhprintf 20 1 1000 [u32 (-42)] (Program (Memory.write 1000 [110; 61; 37; 100; 10; 0] ∅) []) =
      Ok (6, Program (Memory.write 1000 [110; 61; 37; 100; 10; 0] ∅) ((λ c, (1, c)) <$> cs)) ∧ concat cs = [110; 61; 45; 52; 50; 10].
Proof.
  destruct (user_printf_writes (Program (Memory.write 1000 [110; 61; 37; 100; 10; 0] ∅) []) 1 1000 [Text 110; Text 61; Conv Right 0 (Dec (-42)); Text 10] [] 20)
    as (cs & E & Hc & _); [compute_hyp|compute_hyp|compute_hyp|vm_compute; reflexivity|vm_compute; lia|].
  exists cs. split; [exact E|exact Hc].
Defined.
