(* ===== verification/Examples.v ===== *)
(** * examples: user programs

    The example programs, over an interface of system calls.  [Sys] is
    what the programs call, [SysLaws] what the project's manual promises of the calls that they
    rely on: files of fixed size by name, handles with positions, the console and
    the keyboard.  Strings are lists of bytes; printf puts its text on the console, as
    lib/user/console.c does. *)

From Stdlib Require Import String.
From S2P Require Import Prelude Bitmap Inode Memory CString CStdlib Stdio StdioSpec Ustar.

Local Open Scope Z_scope.

(** ** System calls *)

Class Sys (K : Type) := {
  sys_open : list Z → ST K Z;
  sys_close : Z → ST K ();
  sys_read : Z → Z → ST K (Z * list Z);        (** the result, and the bytes stored *)
  sys_write : Z → list Z → ST K Z;
  sys_create : list Z → Z → ST K bool;
  sys_remove : list Z → ST K bool;
  sys_filesize : Z → ST K Z;
  sys_seek : Z → Z → ST K ();
  sys_tell : Z → ST K Z;
  sys_mkdir : list Z → ST K bool;
  sys_chdir : list Z → ST K bool;
  sys_exec : list Z → ST K Z;
  sys_wait : Z → ST K Z;
}.

Definition STDIN_FILENO : Z := 0.
Definition STDOUT_FILENO : Z := 1.
Definition EXIT_SUCCESS : Z := 0.
Definition EXIT_FAILURE : Z := 1.
Definition PID_ERROR : Z := -1.

(** The string in an array of bytes. *)
Fixpoint c_text (l : list Z) : list Z := match l with [] => [] | b :: l => if decide (b = 0) then [] else b :: c_text l end.

Section programs.
Context {K : Type} `{!Sys K}.

(** printf and putchar: the result is not used. *)
Definition print (text : list Z) : ST K () := _ ← sys_write STDOUT_FILENO text; mret tt.

(** The first [n] bytes of a buffer of [size] bytes, of which [bs] were stored; more than the
    size are not the program's. *)
Definition part (size : Z) (bs : list Z) (n : Z) : ST K (list Z) :=
  if decide (0 ≤ n ≤ Z.min size (Z.of_nat (length bs))) then mret (take (Z.to_nat n) bs) else st_fail EFault.

(** *** cat.c.  [fuel] bounds the reads of a file: enough is its length over 1024, and two. *)

Fixpoint cat_file (fuel : nat) (fd : Z) : ST K () :=
  match fuel with
  | O => st_fail EFuel
  | S fuel =>
      r ← sys_read fd 1024;
      if decide (r.1 = 0) then mret tt else
      bs ← part 1024 r.2 r.1;
      _ ← sys_write STDOUT_FILENO bs;
      cat_file fuel fd
  end.

Fixpoint cat_loop (fuel : nat) (success : bool) (args : list (list Z)) : ST K bool :=
  match args with
  | [] => mret success
  | a :: args =>
      fd ← sys_open a;
      if decide (fd < 0) then print (a ++ str ": open failed" ++ [10]);; cat_loop fuel false args
      else cat_file fuel fd;; sys_close fd;; cat_loop fuel success args
  end.

Definition cat_main (fuel : nat) (argv : list (list Z)) : ST K Z :=
  success ← cat_loop fuel true (drop 1 argv); mret (if (success : bool) then EXIT_SUCCESS else EXIT_FAILURE).

(** *** cp.c *)

Fixpoint copy_loop (fuel : nat) (name : list Z) (in_fd out_fd : Z) : ST K Z :=
  match fuel with
  | O => st_fail EFuel
  | S fuel =>
      r ← sys_read in_fd 1024;
      if decide (r.1 = 0) then mret EXIT_SUCCESS else
      bs ← part 1024 r.2 r.1;
      n ← sys_write out_fd bs;
      if decide (n ≠ r.1) then print (name ++ str ": write failed" ++ [10]);; mret EXIT_FAILURE
      else copy_loop fuel name in_fd out_fd
  end.

Definition cp_main (fuel : nat) (argv : list (list Z)) : ST K Z :=
  match argv with
  | [_; old; new] =>
      in_fd ← sys_open old;
      if decide (in_fd < 0) then print (old ++ str ": open failed" ++ [10]);; mret EXIT_FAILURE else
      size ← sys_filesize in_fd;
      ok ← sys_create new size;
      if negb ok then print (new ++ str ": create failed" ++ [10]);; mret EXIT_FAILURE else
      out_fd ← sys_open new;
      if decide (out_fd < 0) then print (new ++ str ": open failed" ++ [10]);; mret EXIT_FAILURE else
      copy_loop fuel new in_fd out_fd
  | _ => print (str "usage: cp OLD NEW" ++ [10]);; mret EXIT_FAILURE
  end.

(** *** cmp.c *)

(** The index of the first of [n] bytes that differ. *)
Fixpoint first_difference (n : nat) (i : Z) (b0 b1 : list Z) : option (Z * Z * Z) :=
  match n, b0, b1 with
  | S n, x :: b0, y :: b1 => if decide (x ≠ y) then Some (i, x, y) else first_difference n (i + 1) b0 b1
  | _, _, _ => None
  end.

(** The message for a difference; [%02hhx] of a char and the char itself. *)
Definition hex_byte (b : Z) : list Z := pad Zeros 2 [] (numeral base_x (b `mod` 256)).
Definition difference_text (pos x y : Z) (a b : list Z) : list Z :=
  str "Byte " ++ show_int pos ++ str " is " ++ hex_byte x ++ str " ('" ++ [x] ++ str "') in " ++ a ++
  str " but " ++ hex_byte y ++ str " ('" ++ [y] ++ str "') in " ++ b ++ [10].

Fixpoint cmp_loop (fuel : nat) (a b : list Z) (fd0 fd1 : Z) : ST K Z :=
  match fuel with
  | O => st_fail EFuel
  | S fuel =>
      pos ← sys_tell fd0;
      r0 ← sys_read fd0 1024;
      r1 ← sys_read fd1 1024;
      let min_read := Z.min r0.1 r1.1 in
      if decide (min_read = 0) then print (a ++ str " and " ++ b ++ str " are identical" ++ [10]);; mret EXIT_SUCCESS else
      match first_difference (Z.to_nat min_read) 0 r0.2 r1.2 with
      | Some (i, x, y) => print (difference_text (pos + i) x y a b);; mret EXIT_FAILURE
      | None =>
          (if decide (min_read < r1.1) then print (a ++ str " is shorter than " ++ b ++ [10])
           else if decide (min_read < r0.1) then print (b ++ str " is shorter than " ++ a ++ [10])
           else mret tt);;
          cmp_loop fuel a b fd0 fd1
      end
  end.

Definition cmp_main (fuel : nat) (argv : list (list Z)) : ST K Z :=
  match argv with
  | [_; a; b] =>
      fd0 ← sys_open a;
      if decide (fd0 < 0) then print (a ++ str ": open failed" ++ [10]);; mret EXIT_FAILURE else
      fd1 ← sys_open b;
      if decide (fd1 < 0) then print (a ++ str ": open failed" ++ [10]);; mret EXIT_FAILURE else
      cmp_loop fuel a b fd0 fd1
  | _ => print (str "usage: cmp A B" ++ [10]);; mret EXIT_FAILURE
  end.

(** *** lineup.c *)

(** lib/ctype.h. *)
Definition toupper (c : Z) : Z := if decide (97 ≤ c ∧ c ≤ 122) then c - 32 else c.

Fixpoint lineup_loop (fuel : nat) (handle : Z) : ST K () :=
  match fuel with
  | O => st_fail EFuel
  | S fuel =>
      r ← sys_read handle 1024;
      if decide (r.1 ≤ 0) then mret tt else
      bs ← part 1024 r.2 r.1;
      pos ← sys_tell handle;
      sys_seek handle (u32 (pos - r.1));;
      n ← sys_write handle (toupper <$> bs);
      (if decide (n ≠ r.1) then print (str "write failed" ++ [10]) else mret tt);;
      lineup_loop fuel handle
  end.

Definition lineup_main (fuel : nat) (argv : list (list Z)) : ST K Z :=
  match argv with
  | [_; name] =>
      handle ← sys_open name;
      if decide (handle < 0) then mret 2 else
      lineup_loop fuel handle;;
      sys_close handle;;
      mret EXIT_SUCCESS
  | _ => mret 1
  end.

(** *** rm.c, mkdir.c and echo.c *)

Fixpoint rm_loop (success : bool) (args : list (list Z)) : ST K bool :=
  match args with
  | [] => mret success
  | a :: args =>
      ok ← sys_remove a;
      if negb ok then print (a ++ str ": remove failed" ++ [10]);; rm_loop false args else rm_loop success args
  end.

Definition rm_main (argv : list (list Z)) : ST K Z :=
  success ← rm_loop true (drop 1 argv); mret (if (success : bool) then EXIT_SUCCESS else EXIT_FAILURE).

Definition mkdir_main (argv : list (list Z)) : ST K Z :=
  match argv with
  | [_; dir] =>
      ok ← sys_mkdir dir;
      if negb ok then print (dir ++ str ": mkdir failed" ++ [10]);; mret EXIT_FAILURE else mret EXIT_SUCCESS
  | _ => print (str "usage: " ++ default [] (head argv) ++ str " DIRECTORY" ++ [10]);; mret EXIT_FAILURE
  end.

Fixpoint echo_loop (argv : list (list Z)) : ST K () :=
  match argv with [] => mret tt | a :: argv => print (a ++ [32]);; echo_loop argv end.
Definition echo_main (argv : list (list Z)) : ST K Z := echo_loop argv;; print [10];; mret EXIT_SUCCESS.

(** *** shell.c.  The line is the part of the array before [pos]; [size] its size. *)

Definition backspace (line : list Z) : ST K (bool * list Z) :=
  if decide (0 < Z.of_nat (length line)) then print [8; 32; 8];; mret (true, removelast line) else mret (false, line).

(** Ctrl+U. *)
Fixpoint erase_loop (fuel : nat) (line : list Z) : ST K (list Z) :=
  match fuel with
  | O => st_fail EFuel
  | S fuel => r ← backspace line; if (r.1 : bool) then erase_loop fuel r.2 else mret r.2
  end.

(** [fuel] bounds the keys that are read. *)
Fixpoint read_line (fuel : nat) (size : Z) (line : list Z) : ST K (list Z) :=
  match fuel with
  | O => st_fail EFuel
  | S fuel =>
      r ← sys_read STDIN_FILENO 1;
      c ← match r.2 with c :: _ => mret c | [] => st_fail EFault end;
      if decide (c = 13) then print [10];; mret line
      else if decide (c = 8) then r ← backspace line; read_line fuel size r.2
      else if decide (c = 21) then line ← erase_loop (S (length line)) line; read_line fuel size line
      else if decide (Z.of_nat (length line) < size - 1) then print [c];; read_line fuel size (line ++ [c])
      else read_line fuel size line
  end.

(** A command; false ends the shell.  The string ends at the first null byte. *)
Definition command (raw : list Z) : ST K bool :=
  let line := c_text raw in
  if decide (line = str "exit") then mret false
  else if decide (take 3 raw = str "cd ") then
    ok ← sys_chdir (c_text (drop 3 raw));
    (if negb ok then print ([34] ++ c_text (drop 3 raw) ++ [34] ++ str ": chdir failed" ++ [10]) else mret tt);; mret true
  else if decide (line = []) then mret true
  else
    pid ← sys_exec line;
    (if decide (pid ≠ PID_ERROR) then status ← sys_wait pid; print ([34] ++ line ++ [34] ++ str ": exit code " ++ show_int status ++ [10])
     else print (str "exec failed" ++ [10]));;
    mret true.

Fixpoint shell_loop (fuel keys : nat) : ST K () :=
  match fuel with
  | O => st_fail EFuel
  | S fuel =>
      print (str "--");;
      line ← read_line keys 80 [];
      go ← command line;
      if (go : bool) then shell_loop fuel keys else mret tt
  end.

Definition shell_main (fuel keys : nat) : ST K Z :=
  print (str "Shell starting..." ++ [10]);; shell_loop fuel keys;; print (str "Shell exiting.");; mret EXIT_SUCCESS.
End programs.

(** *** bubsort.c and matmult.c *)

Definition SORT_SIZE : nat := 128.

(** if (array[j] > array[j + 1]): the two are exchanged. *)
Definition bubble_step (array : list Z) (j : nat) : list Z :=
  match array !! j, array !! S j with
  | Some x, Some y => if decide (y < x) then <[j := y]> (<[S j := x]> array) else array
  | _, _ => array
  end.
Definition bubble_pass (array : list Z) (n : nat) : list Z := foldl bubble_step array (seq 0 n).
Definition bubble_sort (array : list Z) : list Z :=
  foldl (λ a i, bubble_pass a (length array - 1 - i)) array (seq 0 (length array - 1)).

Definition bubsort_main : Z := default 0 (head (bubble_sort ((λ i, Z.of_nat SORT_SIZE - i - 1) <$> seqZ 0 (Z.of_nat SORT_SIZE)))).

Definition DIM : nat := 128.

(** One element of the product, in ints. *)
Definition dot (A B : nat → nat → Z) (i j : nat) (n : nat) : Z := foldl (λ c k, s32 (c + s32 (A i k * B k j))) 0 (seq 0 n).
Definition matmult_main : Z := dot (λ i _, Z.of_nat i) (λ _ j, Z.of_nat j) (DIM - 1) (DIM - 1) DIM.
