(* ===== verification/ExampleTheorems.v ===== *)
(** * Theorems on the example programs *)

From Stdlib Require Import String Sorted.
From S2P Require Import Prelude Bitmap Inode Memory CString CStdlib Stdio StdioSpec Ustar Examples.

Local Open Scope Z_scope.

(** ** What a program relies on *)

(** The files, the handles with their files and positions, what is on the
    console, and the keys that will be typed. *)
Record view := View {
  v_files : gmap (list Z) (list Z);
  v_open : gmap Z (list Z * Z);
  v_console : list Z;
  v_keys : list Z;
}.

Definition with_files f v : view := View f (v_open v) (v_console v) (v_keys v).
Definition with_open o v : view := View (v_files v) o (v_console v) (v_keys v).
Definition with_console t v : view := View (v_files v) (v_open v) (v_console v ++ t) (v_keys v).
Definition with_keys k v : view := View (v_files v) (v_open v) (v_console v) k.

(** [fd] is a handle of the file [name], with content [c], at position [pos]. *)
Definition handle (v : view) (fd : Z) (name : list Z) (pos : Z) (c : list Z) : Prop :=
  v_open v !! fd = Some (name, pos) ∧ v_files v !! name = Some c ∧ 0 ≤ pos ≤ Z.of_nat (length c).

(** The system calls, as the manual describes them. *)
Class SysLaws (K : Type) `{!Sys K} (sees : K → view → Prop) := {
  open_ok k v name : sees k v →
    match v_files v !! name with
    | Some _ => ∃ fd k', sys_open name k = Ok (fd, k') ∧ 2 ≤ fd ∧ v_open v !! fd = None ∧
        sees k' (with_open (<[fd := (name, 0)]> (v_open v)) v)
    | None => ∃ k', sys_open name k = Ok (-1, k') ∧ sees k' v
    end;
  close_ok k v fd : sees k v → is_Some (v_open v !! fd) →
    ∃ k', sys_close fd k = Ok ((), k') ∧ sees k' (with_open (delete fd (v_open v)) v);
  read_ok k v fd name pos c n : sees k v → handle v fd name pos c → 0 ≤ n →
    let bs := slice pos n c in
    ∃ k', sys_read fd n k = Ok ((Z.of_nat (length bs), bs), k') ∧
      sees k' (with_open (<[fd := (name, pos + Z.of_nat (length bs))]> (v_open v)) v);
  write_ok k v fd name pos c bs : sees k v → handle v fd name pos c →
    let n := Z.min (Z.of_nat (length bs)) (Z.of_nat (length c) - pos) in
    ∃ k', sys_write fd bs k = Ok (n, k') ∧
      sees k' (with_files (<[name := splice pos (take (Z.to_nat n) bs) c]> (v_files v)) (with_open (<[fd := (name, pos + n)]> (v_open v)) v));
  console_ok k v bs : sees k v → ∃ k', sys_write STDOUT_FILENO bs k = Ok (Z.of_nat (length bs), k') ∧ sees k' (with_console bs v);
  key_ok k v c cs : sees k v → v_keys v = c :: cs → ∃ k', sys_read STDIN_FILENO 1 k = Ok ((1, [c]), k') ∧ sees k' (with_keys cs v);
  create_ok k v name n : sees k v → 0 ≤ n →
    match v_files v !! name with
    | Some _ => ∃ k', sys_create name n k = Ok (false, k') ∧ sees k' v
    | None => ∃ k', sys_create name n k = Ok (true, k') ∧ sees k' (with_files (<[name := replicate (Z.to_nat n) 0]> (v_files v)) v)
    end;
  filesize_ok k v fd name pos c : sees k v → handle v fd name pos c →
    ∃ k', sys_filesize fd k = Ok (Z.of_nat (length c), k') ∧ sees k' v;
  seek_ok k v fd name pos c p : sees k v → handle v fd name pos c → 0 ≤ p ≤ Z.of_nat (length c) →
    ∃ k', sys_seek fd p k = Ok ((), k') ∧ sees k' (with_open (<[fd := (name, p)]> (v_open v)) v);
  tell_ok k v fd name pos c : sees k v → handle v fd name pos c →
    ∃ k', sys_tell fd k = Ok (pos, k') ∧ sees k' v;
}.

Section programs.
Context {K : Type} `{!Sys K} {sees : K → view → Prop} `{!SysLaws K sees}.
Implicit Types (k : K) (v : view).

Lemma print_text k v t : sees k v → ∃ k', print t k = Ok ((), k') ∧ sees k' (with_console t v).
Proof. intros H. destruct (console_ok k v t H) as (k' & E & H'). exists k'. split; [|done]. unfold print. by rewrite (st_bind_ok _ _ _ _ _ E). Qed.

Lemma part_ok k n bs : Z.of_nat (length bs) ≤ n → part n bs (Z.of_nat (length bs)) k = Ok (bs, k).
Proof. intros H. unfold part. rewrite decide_True by lia. by rewrite Nat2Z.id, take_ge. Qed.

Lemma slice_length_min pos n (c : list Z) : 0 ≤ pos ≤ Z.of_nat (length c) → 0 ≤ n → Z.of_nat (length (slice pos n c)) = Z.min n (Z.of_nat (length c) - pos).
Proof. intros H1 H2. unfold slice. rewrite length_take, length_drop. lia. Qed.

Lemma slice_rest pos n (c : list Z) : 0 ≤ pos → 0 ≤ n → slice pos n c ++ drop (Z.to_nat (pos + n)) c = drop (Z.to_nat pos) c.
Proof. intros. unfold slice. rewrite Z2Nat.inj_add by lia. rewrite <- drop_drop. apply take_drop. Qed.

(** *** cat *)

Lemma cat_file_ok fuel : ∀ k v fd name pos c,
  sees k v → handle v fd name pos c → Z.of_nat (length c) - pos ≤ 1024 * (Z.of_nat fuel - 1) → (0 < fuel)%nat →
  ∃ k', cat_file fuel fd k = Ok ((), k') ∧
    sees k' (with_console (drop (Z.to_nat pos) c) (with_open (<[fd := (name, Z.of_nat (length c))]> (v_open v)) v)).
Proof using Type*.
  induction fuel as [|fuel IH]; intros k v fd name pos c Hk Hh Hf Hp; [lia|]. cbn [cat_file]. pose proof Hh as (Ho & Hc & Hr).
  pose proof (slice_length_min pos 1024 c Hr ltac:(lia)) as Hl. destruct (read_ok k v fd name pos c 1024 Hk Hh ltac:(lia)) as (k1 & E1 & H1).
  erewrite st_bind_ok by exact E1. cbn [fst snd]. destruct (decide (Z.of_nat (length (slice pos 1024 c)) = 0)) as [E0|E0].
  { exists k1. split; [done|]. assert (pos = Z.of_nat (length c)) as -> by lia. rewrite drop_ge by lia. rewrite E0, Z.add_0_r in H1.
    unfold with_console. cbn. rewrite app_nil_r. by destruct v. }
  erewrite st_bind_ok by (apply part_ok; lia). destruct (console_ok k1 _ (slice pos 1024 c) H1) as (k2 & E2 & H2). erewrite st_bind_ok by exact E2.
  set (n := Z.of_nat (length (slice pos 1024 c))) in *.
  destruct (IH k2 _ fd name (pos + n) c H2) as (k3 & E3 & H3); [|lia|lia|].
  { split; [cbn; by rewrite lookup_insert_eq|]. split; [done|lia]. }
  exists k3. split; [exact E3|]. unfold with_console, with_open in *. cbn [v_files v_open v_console v_keys] in *.
  rewrite insert_insert_eq, <- app_assoc in H3. assert (Ed : drop (Z.to_nat (pos + n)) c = drop (Z.to_nat (pos + 1024)) c).
  { destruct (decide (n = 1024)) as [->|]; [done|]. rewrite !drop_ge by lia. done. }
  rewrite Ed, slice_rest in H3 by lia. done.
Qed.

(** What cat prints for an argument. *)
Definition cat_text (f : gmap (list Z) (list Z)) (a : list Z) : list Z := match f !! a with Some c => c | None => a ++ str ": open failed" ++ [10] end.

Lemma cat_args_ok fuel args : ∀ k v success,
  sees k v → (∀ a c, a ∈ args → v_files v !! a = Some c → Z.of_nat (length c) ≤ 1024 * (Z.of_nat fuel - 1)) →
  ∃ k', cat_loop fuel success args k = Ok (success && bool_decide (Forall (λ a, is_Some (v_files v !! a)) args), k') ∧
    sees k' (with_console (concat (cat_text (v_files v) <$> args)) v).
Proof using Type*.
  induction args as [|a args IH]; intros k v success Hk Hf.
  { exists k. cbn [cat_loop fmap list_fmap concat]. rewrite bool_decide_eq_true_2, andb_true_r by done. split; [done|]. unfold with_console. rewrite app_nil_r. by destruct v. }
  cbn [cat_loop fmap list_fmap concat]. pose proof (open_ok k v a Hk) as Ho. unfold cat_text at 1. destruct (v_files v !! a) as [c|] eqn:Ec.
  - destruct Ho as (fd & k1 & E1 & Hfd & Hnew & H1). erewrite st_bind_ok by exact E1. rewrite decide_False by lia.
    assert (Hlen : Z.of_nat (length c) ≤ 1024 * (Z.of_nat fuel - 1)) by (apply (Hf a); [by left|done]).
    destruct (cat_file_ok fuel k1 _ fd a 0 c H1) as (k2 & E2 & H2); [|lia|lia|].
    { split; [cbn; by rewrite lookup_insert_eq|]. split; [done|lia]. }
    erewrite st_bind_ok by exact E2. destruct (close_ok k2 _ fd H2) as (k3 & E3 & H3); [cbn; rewrite lookup_insert_eq; by eexists|].
    erewrite st_bind_ok by exact E3. unfold with_console, with_open in H3. cbn [v_files v_open v_console v_keys] in H3.
    rewrite insert_insert_eq, delete_insert_id in H3 by done. destruct (IH k3 _ success H3) as (k4 & E4 & H4); [intros; eapply Hf; [by right|done]|]. cbn [v_files] in E4, H4.
    exists k4. split.
    + rewrite E4. do 2 f_equal. f_equal. apply bool_decide_ext. rewrite Forall_cons. split; [|tauto]. intros. split; [by rewrite Ec|done].
    + unfold with_console in *. cbn [v_files v_open v_console v_keys] in H4. by rewrite app_assoc.
  - destruct Ho as (k1 & E1 & H1). erewrite st_bind_ok by exact E1. rewrite decide_True by lia.
    destruct (print_text k1 v (a ++ str ": open failed" ++ [10]) H1) as (k2 & E2 & H2). erewrite st_bind_ok by exact E2.
    destruct (IH k2 _ false H2) as (k3 & E3 & H3); [intros; eapply Hf; [by right|done]|]. exists k3. split.
    + rewrite E3. cbn [andb]. rewrite bool_decide_eq_false_2, andb_false_r; [done|]. rewrite Forall_cons, Ec. by intros [[? ?] _].
    + unfold with_console in *. cbn [v_files v_open v_console v_keys] in H3. by rewrite app_assoc.
Qed.

(** cat prints the contents of the files, in order, and says which could not be opened. *)
Theorem cat_prints k v fuel prog args :
  sees k v → (∀ a c, a ∈ args → v_files v !! a = Some c → Z.of_nat (length c) ≤ 1024 * (Z.of_nat fuel - 1)) →
  ∃ k', cat_main fuel (prog :: args) k = Ok (if decide (Forall (λ a, is_Some (v_files v !! a)) args) then EXIT_SUCCESS else EXIT_FAILURE, k') ∧
    sees k' (with_console (concat (cat_text (v_files v) <$> args)) v).
Proof using Type*.
  intros Hk Hf. destruct (cat_args_ok fuel args k v true Hk Hf) as (k' & E & H). exists k'. split; [|done]. unfold cat_main. cbn [drop].
  rewrite (st_bind_ok _ _ _ _ _ E). cbn [andb]. case_decide; [by rewrite bool_decide_eq_true_2|by rewrite bool_decide_eq_false_2].
Qed.

(** *** cp *)

Lemma splice_copy pos n (c d : list Z) :
  length d = length c → 0 ≤ pos → pos + n ≤ Z.of_nat (length c) → take (Z.to_nat pos) d = take (Z.to_nat pos) c → 0 ≤ n →
  take (Z.to_nat (pos + n)) (splice pos (slice pos n c) d) = take (Z.to_nat (pos + n)) c ∧ length (splice pos (slice pos n c) d) = length d.
Proof.
  intros Hl Hp Hn Ht H0. assert (Ls : length (slice pos n c) = Z.to_nat n) by (unfold slice; rewrite length_take, length_drop; lia).
  split; [|apply splice_length; lia]. unfold splice. rewrite Ht, Ls, app_assoc. rewrite take_app_le by (rewrite length_app, length_take, Ls; lia).
  rewrite take_ge by (rewrite length_app, length_take, Ls; lia). unfold slice. rewrite Z2Nat.inj_add by lia. apply take_take_drop.
Qed.

Lemma copy_loop_ok fuel : ∀ k v new old in_fd out_fd pos c d,
  sees k v → handle v in_fd old pos c → handle v out_fd new pos d → in_fd ≠ out_fd → old ≠ new →
  length d = length c → take (Z.to_nat pos) d = take (Z.to_nat pos) c →
  Z.of_nat (length c) - pos ≤ 1024 * (Z.of_nat fuel - 1) → (0 < fuel)%nat →
  ∃ k' o, copy_loop fuel new in_fd out_fd k = Ok (EXIT_SUCCESS, k') ∧ sees k' (with_files (<[new := c]> (v_files v)) (with_open o v)).
Proof using Type*.
  induction fuel as [|fuel IH]; intros k v new old in_fd out_fd pos c d Hk Hi Ho Hfd Hne Hl Ht Hf Hp; [lia|]. cbn [copy_loop]. pose proof Hi as (Hi1 & Hi2 & Hr). pose proof Ho as (Ho1 & Ho2 & Hr').
  pose proof (slice_length_min pos 1024 c Hr ltac:(lia)) as Hsl. destruct (read_ok k v in_fd old pos c 1024 Hk Hi ltac:(lia)) as (k1 & E1 & H1).
  erewrite st_bind_ok by exact E1. cbn [fst snd]. destruct (decide (Z.of_nat (length (slice pos 1024 c)) = 0)) as [E0|E0].
  { eexists k1, (<[in_fd := _]> (v_open v)). split; [done|]. assert (pos = Z.of_nat (length c)) as -> by lia. rewrite Nat2Z.id in Ht. rewrite !take_ge in Ht by lia. subst d.
    rewrite insert_id by done. exact H1. }
  erewrite st_bind_ok by (apply part_ok; lia). set (bs := slice pos 1024 c) in *. set (n := Z.of_nat (length bs)) in *.
  assert (Ho' : handle (with_open (<[in_fd := (old, pos + n)]> (v_open v)) v) out_fd new pos d) by (split; [cbn; by rewrite lookup_insert_ne|done]).
  destruct (write_ok k1 _ out_fd new pos d bs H1 Ho') as (k2 & E2 & H2). replace (Z.min (Z.of_nat (length bs)) (Z.of_nat (length d) - pos)) with n in E2, H2 by lia.
  erewrite st_bind_ok by exact E2. rewrite decide_False by tauto. rewrite take_ge in H2 by lia.
  assert (Eb : bs = slice pos n c). { unfold bs, slice. destruct (decide (n = 1024)) as [->|]; [done|]. rewrite !take_ge; [done|rewrite length_drop; lia..]. }
  rewrite Eb in H2. destruct (splice_copy pos n c d Hl ltac:(lia) ltac:(lia) Ht ltac:(lia)) as [Ht' Hl'].
  destruct (IH k2 _ new old in_fd out_fd (pos + n) c (splice pos (slice pos n c) d) H2) as (k3 & o & E3 & H3); [..|done|done|lia|done|lia|lia|].
  - split; [cbn; by rewrite lookup_insert_ne, lookup_insert_eq|]. split; [cbn; by rewrite lookup_insert_ne|lia].
  - split; [cbn; by rewrite lookup_insert_eq|]. split; [cbn; by rewrite lookup_insert_eq|lia].
  - exists k3, o. split; [exact E3|]. unfold with_files, with_open in *. cbn [v_files v_open v_console v_keys] in *. by rewrite insert_insert_eq in H3.
Qed.


(** *** lineup *)

Lemma lineup_loop_ok fuel : ∀ k v fd name pos c0 c,
  sees k v → handle v fd name pos c → length c = length c0 → take (Z.to_nat pos) c = toupper <$> take (Z.to_nat pos) c0 → drop (Z.to_nat pos) c = drop (Z.to_nat pos) c0 →
  Z.of_nat (length c) < 2^31 → Z.of_nat (length c) - pos ≤ 1024 * (Z.of_nat fuel - 1) → (0 < fuel)%nat →
  ∃ k' p, lineup_loop fuel fd k = Ok ((), k') ∧
    sees k' (with_files (<[name := toupper <$> c0]> (v_files v)) (with_open (<[fd := (name, p)]> (v_open v)) v)).
Proof using Type*.
  induction fuel as [|fuel IH]; intros k v fd name pos c0 c Hk Hh Hl Ht Hd H31 Hf Hp; [lia|]. cbn [lineup_loop]. pose proof Hh as (Ho & Hc & Hr).
  pose proof (slice_length_min pos 1024 c Hr ltac:(lia)) as Hsl. destruct (read_ok k v fd name pos c 1024 Hk Hh ltac:(lia)) as (k1 & E1 & H1).
  erewrite st_bind_ok by exact E1. cbn [fst snd]. set (bs := slice pos 1024 c) in *. set (n := Z.of_nat (length bs)) in *. destruct (decide (n ≤ 0)) as [E0|E0].
  { eexists k1, _. split; [done|]. assert (pos = Z.of_nat (length c)) as -> by lia. rewrite Nat2Z.id in Ht. rewrite Hl in Ht at 2. rewrite !take_ge in Ht by lia.
    rewrite <- Ht, insert_id by done. exact H1. }
  erewrite st_bind_ok by (apply part_ok; lia). set (v1 := with_open _ v) in H1.
  assert (Hh1 : handle v1 fd name (pos + n) c) by (split; [cbn; by rewrite lookup_insert_eq|split; [done|lia]]).
  destruct (tell_ok k1 v1 fd name (pos + n) c H1 Hh1) as (k2 & E2 & H2). erewrite st_bind_ok by exact E2. rewrite u32_id by (unfold in_u32; lia).
  replace (pos + n - n) with pos by lia. destruct (seek_ok k2 v1 fd name (pos + n) c pos H2 Hh1 ltac:(lia)) as (k3 & E3 & H3). erewrite st_bind_ok by exact E3.
  set (v2 := with_open _ v1) in H3. assert (Hh2 : handle v2 fd name pos c) by (split; [cbn; by rewrite lookup_insert_eq|split; [done|lia]]).
  destruct (write_ok k3 v2 fd name pos c (toupper <$> bs) H3 Hh2) as (k4 & E4 & H4). rewrite length_fmap in E4, H4.
  replace (Z.min (Z.of_nat (length bs)) (Z.of_nat (length c) - pos)) with n in E4, H4 by lia. erewrite st_bind_ok by exact E4. rewrite decide_False by tauto.
  erewrite st_bind_ok by reflexivity. rewrite take_ge in H4 by (rewrite length_fmap; lia).
  assert (Lc : length (splice pos (toupper <$> bs) c) = length c) by (apply splice_length; rewrite ?length_fmap; lia).
  assert (Hlen : length (take (Z.to_nat pos) c) = Z.to_nat pos) by (rewrite length_take; lia).
  assert (Esp : splice pos (toupper <$> bs) c = (toupper <$> take (Z.to_nat (pos + n)) c0) ++ drop (Z.to_nat (pos + n)) c0).
  { unfold splice. rewrite length_fmap, Ht. rewrite Z2Nat.inj_add by lia. rewrite <- drop_drop. replace (Z.to_nat n) with (length bs) by lia.
    rewrite <- drop_drop, Hd. rewrite app_assoc. f_equal. rewrite <- fmap_app. f_equal. unfold bs, slice. rewrite Hd.
    rewrite <- take_take_drop. f_equal. unfold n, bs, slice in *. rewrite Hd in *. rewrite length_take, length_drop.
    destruct (decide (1024 ≤ length c0 - Z.to_nat pos)%nat); [f_equal; lia|]. rewrite !take_ge by (rewrite length_drop; lia). done. }
  assert (Ltk : length (toupper <$> take (Z.to_nat (pos + n)) c0) = Z.to_nat (pos + n)) by (rewrite length_fmap, length_take; lia).
  destruct (IH k4 _ fd name (pos + n) c0 (splice pos (toupper <$> bs) c) H4) as (k5 & p & E5 & H5); [|lia| | |lia|lia|lia|].
  - split; [cbn; by rewrite lookup_insert_eq|]. split; [cbn; by rewrite lookup_insert_eq|lia].
  - rewrite Esp. rewrite <- Ltk at 1. by rewrite take_app_length.
  - rewrite Esp. rewrite <- Ltk at 1. by rewrite drop_app_length.
  - exists k5, p. split; [exact E5|]. unfold v2, v1, with_files, with_open in *. cbn [v_files v_open v_console v_keys] in *. by rewrite !insert_insert_eq in H5.
Qed.

(** lineup converts the file to upper case, in place. *)
Theorem lineup_converts k v fuel prog name c :
  sees k v → v_files v !! name = Some c → Z.of_nat (length c) < 2^31 → Z.of_nat (length c) ≤ 1024 * (Z.of_nat fuel - 1) →
  ∃ k', lineup_main fuel [prog; name] k = Ok (EXIT_SUCCESS, k') ∧ sees k' (with_files (<[name := toupper <$> c]> (v_files v)) v).
Proof using Type*.
  intros Hk Hc H31 Hf. unfold lineup_main. pose proof (open_ok k v name Hk) as Ho. rewrite Hc in Ho. destruct Ho as (fd & k1 & E1 & Hfd & Hnone & H1).
  erewrite st_bind_ok by exact E1. rewrite decide_False by lia.
  destruct (lineup_loop_ok fuel k1 _ fd name 0 c c H1) as (k2 & p & E2 & H2); [|done|done|done|lia|lia|lia|].
  { split; [cbn; by rewrite lookup_insert_eq|]. split; [done|lia]. }
  erewrite st_bind_ok by exact E2. destruct (close_ok k2 _ fd H2) as (k3 & E3 & H3); [cbn; rewrite lookup_insert_eq; by eexists|].
  erewrite st_bind_ok by exact E3. exists k3. split; [done|]. unfold with_files, with_open in *. cbn [v_files v_open v_console v_keys] in *.
  by rewrite insert_insert_eq, delete_insert_id in H3.
Qed.

(** *** cmp *)

Lemma first_difference_add n m i (b0 b1 : list Z) : (n ≤ length b0)%nat → (n ≤ length b1)%nat →
  first_difference (n + m) i b0 b1 =
    match first_difference n i b0 b1 with Some d => Some d | None => first_difference m (i + Z.of_nat n) (drop n b0) (drop n b1) end.
Proof.
  revert i b0 b1. induction n as [|n IH]; intros i b0 b1 H0 H1; [cbn; by rewrite Z.add_0_r, !drop_0|].
  destruct b0 as [|x b0]; [cbn in H0; lia|]. destruct b1 as [|y b1]; [cbn in H1; lia|]. cbn [first_difference plus drop length] in *.
  case_decide; [done|]. rewrite IH by lia. by replace (i + 1 + Z.of_nat n) with (i + Z.of_nat (S n)) by lia.
Qed.

Lemma first_difference_take n i (b0 b1 : list Z) j l : (n ≤ j)%nat → (n ≤ l)%nat → first_difference n i (take j b0) (take l b1) = first_difference n i b0 b1.
Proof.
  revert i b0 b1 j l. induction n as [|n IH]; intros i b0 b1 j l Hj Hl; [done|]. destruct j as [|j]; [lia|]. destruct l as [|l]; [lia|].
  destruct b0 as [|x b0], b1 as [|y b1]; try done. cbn [first_difference take]. case_decide; [done|]. apply IH; lia.
Qed.

Lemma first_difference_shift n i (b0 b1 : list Z) :
  first_difference n i b0 b1 = (λ d, (i + d.1.1, d.1.2, d.2)) <$> first_difference n 0 b0 b1.
Proof.
  revert i b0 b1. assert (H : ∀ n i j (b0 b1 : list Z), first_difference n (i + j) b0 b1 = (λ d, (i + d.1.1, d.1.2, d.2)) <$> first_difference n j b0 b1).
  { clear n. induction n as [|n IH]; intros i j [|x b0] [|y b1]; try done. cbn [first_difference]. case_decide; [done|]. rewrite <- Z.add_assoc. apply IH. }
  intros i b0 b1. rewrite <- (Z.add_0_r i) at 1. apply H.
Qed.

Definition identical_text (a b : list Z) : list Z := a ++ str " and " ++ b ++ str " are identical" ++ [10].

(** What cmp says and returns for the contents from a position on. *)
Definition cmp_result (a b c0 c1 : list Z) (pos : Z) (t : list Z) (status : Z) : Prop :=
  match first_difference (Nat.min (length c0) (length c1) - Z.to_nat pos) pos (drop (Z.to_nat pos) c0) (drop (Z.to_nat pos) c1) with
  | Some (i, x, y) => t = difference_text i x y a b ∧ status = EXIT_FAILURE
  | None => (∃ t', t = t' ++ identical_text a b) ∧ status = EXIT_SUCCESS
  end.

(** One file is at its end. *)
Lemma cmp_end fuel k v a b fd0 fd1 na nb p0 p1 c0 c1 :
  sees k v → handle v fd0 na p0 c0 → handle v fd1 nb p1 c1 → fd0 ≠ fd1 → p0 = Z.of_nat (length c0) ∨ p1 = Z.of_nat (length c1) →
  ∃ k' o, cmp_loop (S fuel) a b fd0 fd1 k = Ok (EXIT_SUCCESS, k') ∧ sees k' (with_console (identical_text a b) (with_open o v)).
Proof using Type*.
  intros Hk H0 H1 Hne Hend. cbn [cmp_loop]. destruct (tell_ok k v fd0 na p0 c0 Hk H0) as (k1 & E1 & Hk1). erewrite st_bind_ok by exact E1.
  pose proof H0 as (H01 & H02 & H03). pose proof H1 as (H11 & H12 & H13).
  destruct (read_ok k1 v fd0 na p0 c0 1024 Hk1 H0 ltac:(lia)) as (k2 & E2 & Hk2). erewrite st_bind_ok by exact E2.
  destruct (read_ok k2 _ fd1 nb p1 c1 1024 Hk2) as (k3 & E3 & Hk3); [split; [cbn; by rewrite lookup_insert_ne|done]|lia|]. erewrite st_bind_ok by exact E3.
  pose proof (slice_length_min p0 1024 c0 H03 ltac:(lia)). pose proof (slice_length_min p1 1024 c1 H13 ltac:(lia)).
  cbn [fst snd]. rewrite decide_True by lia. destruct (print_text k3 _ (identical_text a b) Hk3) as (k4 & E4 & Hk4). fold (identical_text a b). erewrite st_bind_ok by exact E4.
  eexists k4, _. split; [done|]. exact Hk4.
Qed.

Lemma cmp_loop_ok fuel : ∀ k v a b fd0 fd1 na nb pos c0 c1,
  sees k v → handle v fd0 na pos c0 → handle v fd1 nb pos c1 → fd0 ≠ fd1 →
  Z.of_nat (Nat.min (length c0) (length c1)) - pos ≤ 1024 * (Z.of_nat fuel - 2) → (1 < fuel)%nat →
  ∃ k' o t status, cmp_loop fuel a b fd0 fd1 k = Ok (status, k') ∧ sees k' (with_console t (with_open o v)) ∧ cmp_result a b c0 c1 pos t status.
Proof using Type*.
  induction fuel as [|fuel IH]; intros k v a b fd0 fd1 na nb pos c0 c1 Hk H0 H1 Hne Hf Hp; [lia|]. pose proof H0 as (H01 & H02 & H03). pose proof H1 as (H11 & H12 & H13).
  unfold cmp_result. destruct (decide (pos = Z.of_nat (length c0) ∨ pos = Z.of_nat (length c1))) as [Hend|Hend].
  { destruct (cmp_end fuel k v a b fd0 fd1 na nb pos pos c0 c1 Hk H0 H1 Hne Hend) as (k' & o & E & H'). exists k', o, (identical_text a b), EXIT_SUCCESS.
    split; [exact E|]. split; [exact H'|]. replace (Nat.min (length c0) (length c1) - Z.to_nat pos)%nat with 0%nat by lia. cbn. split; [by exists []|done]. }
  cbn [cmp_loop]. destruct (tell_ok k v fd0 na pos c0 Hk H0) as (k1 & E1 & Hk1). erewrite st_bind_ok by exact E1.
  destruct (read_ok k1 v fd0 na pos c0 1024 Hk1 H0 ltac:(lia)) as (k2 & E2 & Hk2). erewrite st_bind_ok by exact E2.
  destruct (read_ok k2 _ fd1 nb pos c1 1024 Hk2) as (k3 & E3 & Hk3); [split; [cbn; by rewrite lookup_insert_ne|done]|lia|]. erewrite st_bind_ok by exact E3.
  pose proof (slice_length_min pos 1024 c0 H03 ltac:(lia)) as L0. pose proof (slice_length_min pos 1024 c1 H13 ltac:(lia)) as L1. cbn [fst snd].
  set (m := Z.min (Z.of_nat (length (slice pos 1024 c0))) (Z.of_nat (length (slice pos 1024 c1)))). rewrite decide_False by lia.
  assert (Em : m = Z.min 1024 (Z.of_nat (Nat.min (length c0) (length c1)) - pos)) by lia.
  assert (Efd : first_difference (Z.to_nat m) 0 (slice pos 1024 c0) (slice pos 1024 c1) = first_difference (Z.to_nat m) 0 (drop (Z.to_nat pos) c0) (drop (Z.to_nat pos) c1)).
  { unfold slice. apply first_difference_take; lia. }
  rewrite Efd. replace (Nat.min (length c0) (length c1) - Z.to_nat pos)%nat with (Z.to_nat m + (Nat.min (length c0) (length c1) - Z.to_nat pos - Z.to_nat m))%nat by lia.
  rewrite first_difference_add by (rewrite length_drop; lia). rewrite (first_difference_shift _ pos).
  clear Efd. set (fd := first_difference (Z.to_nat m) 0 (drop (Z.to_nat pos) c0) (drop (Z.to_nat pos) c1)). clearbody fd.
  destruct fd as [[[i x] y]|]; cbn [fmap option_fmap option_map fst snd].
  { destruct (print_text k3 _ (difference_text (pos + i) x y a b) Hk3) as (k4 & E4 & Hk4). erewrite st_bind_ok by exact E4. eexists k4, _, _, _. split; [done|]. split; [exact Hk4|done]. }
  set (v3 := with_open _ (with_open _ v)) in Hk3.
  assert (Hh0 : ∀ t, handle (with_console t v3) fd0 na (pos + Z.of_nat (length (slice pos 1024 c0))) c0).
  { intros t. split; [cbn; by rewrite lookup_insert_ne, lookup_insert_eq|]. split; [done|lia]. }
  assert (Hh1 : ∀ t, handle (with_console t v3) fd1 nb (pos + Z.of_nat (length (slice pos 1024 c1))) c1).
  { intros t. split; [cbn; by rewrite lookup_insert_eq|]. split; [done|lia]. }
  destruct (decide (m = 1024)) as [E1024|Hshort].
  - rewrite !decide_False by lia. erewrite st_bind_ok by reflexivity.
    replace (pos + Z.of_nat (length (slice pos 1024 c0))) with (pos + m) in Hh0 by lia. replace (pos + Z.of_nat (length (slice pos 1024 c1))) with (pos + m) in Hh1 by lia.
    assert (Ev : with_console [] v3 = v3) by (unfold with_console; rewrite app_nil_r; done).
    destruct (IH k3 v3 a b fd0 fd1 na nb (pos + m) c0 c1 Hk3) as (k5 & o & t' & status & E5 & Hk5 & Hres); [rewrite <- Ev; apply Hh0|rewrite <- Ev; apply Hh1|done|lia|lia|].
    exists k5, o, t', status. split; [exact E5|]. split; [exact Hk5|]. unfold cmp_result in Hres.
    rewrite Z2Nat.inj_add in Hres by lia. rewrite <- !drop_drop in Hres. rewrite Z2Nat.id by lia.
    by replace (Nat.min (length c0) (length c1) - (Z.to_nat pos + Z.to_nat m))%nat with (Nat.min (length c0) (length c1) - Z.to_nat pos - Z.to_nat m)%nat in Hres by lia.
  - set (msg := if decide (m < _) then _ else _).
    assert (Hmsg : ∃ k4 t, msg k3 = Ok ((), k4) ∧ sees k4 (with_console t v3)).
    { unfold msg. repeat case_decide.
      - destruct (print_text k3 v3 (a ++ str " is shorter than " ++ b ++ [10]) Hk3) as (k4 & ? & ?). by eexists k4, _.
      - destruct (print_text k3 v3 (b ++ str " is shorter than " ++ a ++ [10]) Hk3) as (k4 & ? & ?). by eexists k4, _.
      - exists k3, []. split; [done|]. unfold with_console. by rewrite app_nil_r. }
    destruct Hmsg as (k4 & t & E4 & Hk4). erewrite st_bind_ok by exact E4. destruct fuel as [|fuel]; [lia|].
    destruct (cmp_end fuel k4 _ a b fd0 fd1 na nb _ _ c0 c1 Hk4 (Hh0 t) (Hh1 t) Hne) as (k5 & o & E5 & Hk5); [lia|].
    exists k5, o, (t ++ identical_text a b), EXIT_SUCCESS. split; [exact E5|]. split.
    + unfold with_console, with_open, v3 in *. cbn [v_files v_open v_console v_keys] in *. by rewrite app_assoc.
    + replace (Nat.min (length c0) (length c1) - Z.to_nat pos - Z.to_nat m)%nat with 0%nat by lia. cbn [first_difference]. split; [by exists t|done].
Qed.

(** cmp compares the files as far as both go: it reports the first byte that differs and fails, and says
    that the files are identical and succeeds if there is none, also if one is longer. *)
Theorem cmp_compares k v fuel prog a b c0 c1 :
  sees k v → v_files v !! a = Some c0 → v_files v !! b = Some c1 →
  Z.of_nat (Nat.min (length c0) (length c1)) ≤ 1024 * (Z.of_nat fuel - 2) → (1 < fuel)%nat →
  ∃ k' o t status, cmp_main fuel [prog; a; b] k = Ok (status, k') ∧ sees k' (with_console t (with_open o v)) ∧
    match first_difference (Nat.min (length c0) (length c1)) 0 c0 c1 with
    | Some (i, x, y) => t = difference_text i x y a b ∧ status = EXIT_FAILURE
    | None => (∃ t', t = t' ++ identical_text a b) ∧ status = EXIT_SUCCESS
    end.
Proof using Type*.
  intros Hk Ha Hb Hf Hf1. unfold cmp_main. pose proof (open_ok k v a Hk) as Ho. rewrite Ha in Ho. destruct Ho as (fd & k1 & E1 & Hfd & Hnone & H1).
  erewrite st_bind_ok by exact E1. rewrite decide_False by lia. set (v1 := with_open _ v) in H1.
  pose proof (open_ok k1 v1 b H1) as Ho. change (v_files v1) with (v_files v) in Ho. rewrite Hb in Ho. destruct Ho as (fd' & k2 & E2 & Hfd' & Hnone' & H2).
  erewrite st_bind_ok by exact E2. rewrite decide_False by lia.
  assert (fd ≠ fd') by (intros <-; cbn in Hnone'; by rewrite lookup_insert_eq in Hnone').
  destruct (cmp_loop_ok fuel k2 _ a b fd fd' a b 0 c0 c1 H2) as (k3 & o & t & status & E3 & H3 & Hres); [..|done|lia|done|].
  - split; [cbn; by rewrite lookup_insert_ne, lookup_insert_eq|]. split; [done|lia].
  - split; [cbn; by rewrite lookup_insert_eq|]. split; [done|lia].
  - exists k3, o, t, status. split; [exact E3|]. split; [exact H3|]. unfold cmp_result in Hres. change (Z.to_nat 0) with 0%nat in Hres. rewrite Nat.sub_0_r, !drop_0 in Hres. exact Hres.
Qed.

(** *** The line editor of the shell *)

(** The line that keys make, up to the return key, and the keys behind it. *)
Fixpoint edited (size : Z) (line ks : list Z) : option (list Z * list Z) :=
  match ks with
  | [] => None
  | c :: ks =>
      if decide (c = 13) then Some (line, ks)
      else if decide (c = 8) then edited size (removelast line) ks
      else if decide (c = 21) then edited size [] ks
      else edited size (if decide (Z.of_nat (length line) < size - 1) then line ++ [c] else line) ks
  end.

(** A line of a terminal: its cells and the cursor.  Backspace moves the cursor. *)
Definition type_char (t : list Z * nat) (c : Z) : list Z * nat :=
  if decide (c = 8) then (t.1, pred t.2) else (take t.2 t.1 ++ [c] ++ drop (S t.2) t.1, S t.2).

(** The terminal shows [line] before the cursor and blanks behind it. *)
Definition shows (line : list Z) (t : list Z * nat) : Prop := ∃ n, t = (line ++ replicate n 32, length line).

Lemma type_back a n : type_char (a, n) 8 = (a, pred n).
Proof. done. Qed.

Lemma type_put a n c : c ≠ 8 → type_char (a, n) c = (take n a ++ [c] ++ drop (S n) a, S n).
Proof. intros H. unfold type_char. by rewrite decide_False. Qed.

Lemma shows_char line t c : shows line t → c ≠ 8 → shows (line ++ [c]) (type_char t c).
Proof.
  intros [n ->] Hc. unfold type_char. rewrite decide_False by done. cbn [fst snd]. exists (pred n). rewrite take_app_length, length_app. cbn [length]. f_equal; [|lia].
  rewrite drop_app_ge by lia. replace (S (length line) - length line)%nat with 1%nat by lia. rewrite <- app_assoc. do 2 f_equal. by destruct n.
Qed.

Lemma shows_backspace line t : line ≠ [] → shows line t → shows (removelast line) (foldl type_char t [8; 32; 8]).
Proof.
  intros Hne [n ->]. destruct (exists_last Hne) as (l & x & ->). rewrite removelast_last. exists (S n). cbn [foldl]. rewrite type_back.
  rewrite length_app. cbn [length]. replace (pred (length l + 1)) with (length l) by lia. rewrite type_put by done. rewrite type_back. cbn [pred]. f_equal.
  rewrite <- app_assoc, take_app_length. rewrite drop_app_ge by lia. replace (S (length l) - length l)%nat with 1%nat by lia. done.
Qed.

Lemma backspace_ok k v line : sees k v →
  ∃ k' t, backspace line k = Ok ((bool_decide (line ≠ []), removelast line), k') ∧ sees k' (with_console t v) ∧
    ∀ s, shows line s → shows (removelast line) (foldl type_char s t).
Proof using Type*.
  intros Hk. unfold backspace. destruct line as [|x line].
  - exists k, []. rewrite decide_False by (cbn; lia). split; [done|]. split; [unfold with_console; rewrite app_nil_r; by destruct v|done].
  - rewrite decide_True by (cbn; lia). destruct (print_text k v [8; 32; 8] Hk) as (k1 & E & H). erewrite st_bind_ok by exact E. eexists k1, _.
    split; [rewrite bool_decide_eq_true_2 by done; done|]. split; [exact H|]. intros s Hs. by apply shows_backspace.
Qed.

Lemma with_console_app t t' v : with_console t' (with_console t v) = with_console (t ++ t') v.
Proof. unfold with_console. cbn. by rewrite app_assoc. Qed.

Lemma erase_loop_ok fuel : ∀ k v line, sees k v → (length line < fuel)%nat →
  ∃ k' t, erase_loop fuel line k = Ok ([], k') ∧ sees k' (with_console t v) ∧ ∀ s, shows line s → shows [] (foldl type_char s t).
Proof using Type*.
  induction fuel as [|fuel IH]; intros k v line Hk Hf; [lia|]. cbn [erase_loop]. destruct (backspace_ok k v line Hk) as (k1 & t1 & E1 & H1 & Hs1).
  erewrite st_bind_ok by exact E1. cbn [fst snd]. destruct line as [|x line].
  - rewrite bool_decide_eq_false_2 by tauto. by exists k1, t1.
  - rewrite bool_decide_eq_true_2 by done. destruct (IH k1 _ (removelast (x :: line)) H1) as (k2 & t2 & E2 & H2 & Hs2).
    { pose proof (app_removelast_last 0 (l := x :: line) ltac:(done)) as El. apply (f_equal length) in El. rewrite length_app in El. cbn [length] in *. lia. }
    exists k2, (t1 ++ t2). split; [exact E2|]. split; [by rewrite <- with_console_app|]. intros s Hs. rewrite foldl_app. by apply Hs2, Hs1.
Qed.

(** The line editor of the shell.  Given the keys of a line, read_line ends at the return key, with the
    line as edited by backspace and Ctrl+U and cut at the size of the array, one byte left for its end, and
    what it has put out makes a terminal show exactly that line, blanks behind it. *)
Theorem read_line_edits size ks : ∀ k v line line' rest fuel,
  sees k v → v_keys v = ks → edited size line ks = Some (line', rest) → (length ks ≤ fuel)%nat → Z.of_nat (length line) < size →
  ∃ k' t, read_line fuel size line k = Ok (line', k') ∧ sees k' (with_console (t ++ [10]) (with_keys rest v)) ∧
    Z.of_nat (length line') < size ∧ ∀ s, shows line s → shows line' (foldl type_char s t).
Proof using Type*.
  induction ks as [|c ks IH]; intros k v line line' rest fuel Hk Hks He Hf Hl; [done|]. destruct fuel as [|fuel]; [cbn in Hf; lia|]. cbn [length edited read_line] in *.
  destruct (key_ok k v c ks Hk Hks) as (k1 & E1 & H1). erewrite st_bind_ok by exact E1. cbn [snd]. erewrite st_bind_ok by reflexivity.
  assert (Hw : ∀ k2 t1 line1, sees k2 (with_console t1 (with_keys ks v)) → edited size line1 ks = Some (line', rest) → Z.of_nat (length line1) < size →
    (∀ s, shows line s → shows line1 (foldl type_char s t1)) →
    ∃ k' t, read_line fuel size line1 k2 = Ok (line', k') ∧ sees k' (with_console (t ++ [10]) (with_keys rest v)) ∧
      Z.of_nat (length line') < size ∧ ∀ s, shows line s → shows line' (foldl type_char s t)).
  { intros k2 t1 line1 H2 He1 Hl1 Hs1. destruct (IH k2 _ line1 line' rest fuel H2 eq_refl He1) as (k3 & t2 & E3 & H3 & Hl3 & Hs3); [lia|lia|].
    exists k3, (t1 ++ t2). split; [exact E3|]. split; [|split; [done|]]; [|intros s Hs; rewrite foldl_app; by apply Hs3, Hs1].
    unfold with_console, with_keys in *. cbn [v_files v_open v_console v_keys] in *. by rewrite <- !app_assoc in H3 |- *. }
  destruct (decide (c = 13)) as [->|H13].
  { injection He as <- <-. destruct (print_text k1 _ [10] H1) as (k2 & E2 & H2). erewrite st_bind_ok by exact E2. by exists k2, []. }
  destruct (decide (c = 8)) as [->|H8].
  { destruct (backspace_ok k1 _ line H1) as (k2 & t & E2 & H2 & Hs). erewrite st_bind_ok by exact E2. cbn [snd]. apply (Hw k2 t); [done|done| |done].
    destruct line as [|x line]; [done|]. pose proof (app_removelast_last 0 (l := x :: line) ltac:(done)) as El. apply (f_equal length) in El. rewrite length_app in El. cbn [length] in *. lia. }
  destruct (decide (c = 21)) as [->|H21].
  { destruct (erase_loop_ok (S (length line)) k1 _ line H1 ltac:(lia)) as (k2 & t & E2 & H2 & Hs). erewrite st_bind_ok by exact E2. apply (Hw k2 t); [done|done|cbn; lia|done]. }
  destruct (decide (Z.of_nat (length line) < size - 1)) as [Hr|Hr].
  - destruct (print_text k1 _ [c] H1) as (k2 & E2 & H2). erewrite st_bind_ok by exact E2. apply (Hw k2 [c]); [done|done|rewrite length_app; cbn; lia|].
    intros s Hs. cbn [foldl]. by apply shows_char.
  - apply (Hw k1 []); [|done|done|done]. unfold with_console. rewrite app_nil_r. by destruct v.
Qed.
End programs.

(** ** bubsort and matmult *)

Lemma bubble_step_perm a j : bubble_step a j ≡ₚ a ∧ length (bubble_step a j) = length a.
Proof.
  unfold bubble_step. destruct (a !! j) as [x|] eqn:Ex; [|done]. destruct (a !! S j) as [y|] eqn:Ey; [|done]. case_decide; [|done].
  split; [|by rewrite !length_insert]. assert (E : a = take j a ++ x :: y :: drop (S (S j)) a).
  { rewrite <- (take_drop j a) at 1. f_equal. rewrite (drop_S _ x) by done. f_equal. by apply drop_S. }
  assert (Hj : (length (take j a) = j)%nat) by (apply length_take_le; apply lookup_lt_Some in Ex; lia).
  revert Hj E. generalize (take j a) (drop (S (S j)) a). intros p d <- ->.
  replace (S (length p)) with (length p + 1)%nat by lia. rewrite insert_app_r. replace (length p) with (length p + 0)%nat at 1 by lia. rewrite insert_app_r.
  apply Permutation_app_head, perm_swap.
Qed.

Lemma bubble_pass_S a n : bubble_pass a (S n) = bubble_step (bubble_pass a n) n.
Proof. unfold bubble_pass. by rewrite seq_S, foldl_app. Qed.

Lemma bubble_pass_perm a n : bubble_pass a n ≡ₚ a ∧ length (bubble_pass a n) = length a.
Proof.
  induction n as [|n [IH1 IH2]]; [done|]. rewrite bubble_pass_S. destruct (bubble_step_perm (bubble_pass a n) n) as [H1 H2]. split; [by etrans|congruence].
Qed.

Lemma perm_take (l l' : list Z) n : l ≡ₚ l' → drop n l = drop n l' → take n l ≡ₚ take n l'.
Proof. intros Hp Hd. apply (Permutation_app_inv_r (drop n l)). rewrite take_drop, Hd, take_drop. done. Qed.

(** A pass carries the largest of the first elements to their end, and leaves the others. *)
Lemma bubble_pass_ok a n : (n < length a)%nat →
  drop (S n) (bubble_pass a n) = drop (S n) a ∧ take (S n) (bubble_pass a n) ≡ₚ take (S n) a ∧
  ∃ m, bubble_pass a n !! n = Some m ∧ Forall (λ z, z ≤ m) (take (S n) a).
Proof.
  induction n as [|n IH]; intros Hn.
  { split; [done|]. split; [done|]. destruct a as [|x a]; [cbn in Hn; lia|]. exists x. split; [done|]. by repeat constructor. }
  destruct IH as (Hd & Ht & m & Hm & Hall); [lia|]. rewrite bubble_pass_S. set (b := bubble_pass a n) in *.
  assert (Lb : length b = length a) by apply bubble_pass_perm. destruct (lookup_lt_is_Some_2 a (S n) Hn) as [y Hy].
  assert (Hyb : b !! S n = Some y).
  { rewrite <- (Nat.add_0_r (S n)), <- lookup_drop, Hd, lookup_drop, Nat.add_0_r. done. }
  assert (Hts : take (S (S n)) a = take (S n) a ++ [y]) by (by apply take_S_r).
  destruct (bubble_step_perm b n) as [Hperm _]. assert (Hstep : bubble_step b n = if decide (y < m) then <[n := y]> (<[S n := m]> b) else b) by (unfold bubble_step; by rewrite Hm, Hyb).
  rewrite Hstep in *. assert (Hdrop : drop (S (S n)) (if decide (y < m) then <[n := y]> (<[S n := m]> b) else b) = drop (S (S n)) a).
  { transitivity (drop (S (S n)) b); [case_decide; [by rewrite !drop_insert_lt by lia|done]|].
    replace (S (S n)) with (S n + 1)%nat by lia. by rewrite <- !drop_drop, Hd. }
  split; [done|]. split.
  - apply perm_take; [|done]. etrans; [exact Hperm|apply bubble_pass_perm].
  - rewrite Hts. case_decide as Hlt.
    + exists m. split; [rewrite list_lookup_insert_ne by lia; apply list_lookup_insert_eq; lia|]. apply Forall_app. split; [done|]. constructor; [lia|done].
    + exists y. split; [done|]. apply Forall_app. split; [|by repeat constructor]. eapply Forall_impl; [done|]. cbn. lia.
Qed.

(** The sort after some passes: a sorted end, above the rest. *)
Lemma bubble_passes a j : (j < length a)%nat →
  let b := foldl (λ b i, bubble_pass b (length a - 1 - i)) a (seq 0 j) in
  b ≡ₚ a ∧ StronglySorted Z.le (drop (length a - j) b) ∧
  Forall (λ x, Forall (λ y, x ≤ y) (drop (length a - j) b)) (take (length a - j) b).
Proof.
  induction j as [|j IH]; intros Hj b.
  { unfold b. cbn [seq foldl]. rewrite Nat.sub_0_r. rewrite drop_ge by lia. split; [done|]. split; [constructor|]. by apply Forall_true. }
  destruct IH as (Hp & Hs & Hb); [lia|]. unfold b. rewrite seq_S, foldl_app. cbn [foldl plus]. set (c := foldl _ a (seq 0 j)) in *.
  assert (Lc : length c = length a) by (by apply Permutation_length). set (n := (length a - 1 - j)%nat).
  destruct (bubble_pass_ok c n) as (Hd & Ht & m & Hm & Hmax); [lia|]. destruct (bubble_pass_perm c n) as [Hpp Hll]. set (e := bubble_pass c n) in *.
  replace (length a - j)%nat with (S n) in * by lia. replace (length a - S j)%nat with n by lia.
  assert (Ed : drop n e = m :: drop (S n) c) by (rewrite (drop_S _ m) by done; by rewrite Hd).
  assert (Et : take (S n) e = take n e ++ [m]) by (by apply take_S_r). rewrite Et in Ht.
  assert (Hin : ∀ x, x ∈ take n e ++ [m] → x ∈ take (S n) c) by (intros x; by rewrite Ht).
  rewrite Forall_forall in Hb, Hmax. split; [by etrans|]. rewrite Ed. split.
  - constructor; [done|]. apply Hb, Hin, elem_of_app. right. by apply list_elem_of_singleton.
  - apply Forall_forall. intros x Hx. assert (Hxc : x ∈ take (S n) c) by (apply Hin, elem_of_app; by left). constructor; [by apply Hmax|by apply Hb].
Qed.

(** bubsort sorts any array. *)
Theorem bubble_sort_sorts a : bubble_sort a ≡ₚ a ∧ StronglySorted Z.le (bubble_sort a).
Proof.
  destruct a as [|x a]; [by split; [|constructor]|]. destruct (bubble_passes (x :: a) (length a)) as (Hp & Hs & Hb); [cbn; lia|].
  assert (E : bubble_sort (x :: a) = foldl (λ b i, bubble_pass b (length (x :: a) - 1 - i)) (x :: a) (seq 0 (length a))).
  { unfold bubble_sort. do 2 f_equal. cbn [length]. lia. }
  rewrite E.
  set (b := foldl _ _ _) in *. replace (length (x :: a) - length a)%nat with 1%nat in * by (cbn; lia). split; [done|].
  destruct b as [|y b]; [constructor|]. cbn in Hs, Hb. constructor; [done|]. by inversion Hb.
Qed.

Theorem bubsort_returns_zero : bubsort_main = 0.
Proof. by vm_compute. Qed.

Lemma sum_from l z : foldr Z.add z l = foldr Z.add 0 l + z.
Proof. induction l as [|x l IH]; cbn; [done|]. lia. Qed.

(** An element of the product, if no partial sum leaves the range of an int. *)
Theorem dot_sum A B i j n :
  (∀ k, (k < n)%nat → in_s32 (A i k * B k j)) → (∀ k, (k ≤ n)%nat → in_s32 (foldr Z.add 0 ((λ l, A i l * B l j) <$> seq 0 k))) →
  dot A B i j n = foldr Z.add 0 ((λ l, A i l * B l j) <$> seq 0 n).
Proof.
  intros Hp Hs. unfold dot. induction n as [|n IH]; [done|]. rewrite seq_S, foldl_app. cbn [foldl plus]. rewrite IH; [|auto with lia..].
  rewrite (s32_id (A i n * B n j)) by (apply Hp; lia). specialize (Hs (S n) ltac:(lia)). rewrite seq_S in Hs. 
  assert (E : foldr Z.add 0 ((λ l, A i l * B l j) <$> seq 0 n ++ [(0 + n)%nat]) = foldr Z.add 0 ((λ l, A i l * B l j) <$> seq 0 n) + A i n * B n j).
  { rewrite fmap_app, foldr_app. cbn. rewrite Z.add_0_r. apply sum_from. }
  rewrite E in Hs. cbn [plus] in E. rewrite E. by apply s32_id.
Qed.

Theorem matmult_exit_code : matmult_main = 127 * 127 * 128.
Proof. by vm_compute. Qed.

(** ** A kernel that keeps the promises *)

(** The next handle: above all that are open. *)
Definition next_handle (v : view) : Z := 1 + foldr Z.max 1 (map_to_list (v_open v)).*1.

Lemma next_handle_new v : 2 ≤ next_handle v ∧ v_open v !! next_handle v = None.
Proof.
  assert (H : ∀ l x, x ∈ l → x ≤ foldr Z.max 1 l) by (intros l x; induction 1 as [|y x' l _ IH]; cbn; lia).
  assert (H1 : ∀ l, 1 ≤ foldr Z.max 1 l) by (induction l; cbn; lia). unfold next_handle. split; [specialize (H1 (map_to_list (v_open v)).*1); lia|].
  destruct (v_open v !! _) as [y|] eqn:E; [|done]. exfalso. assert (Hin : 1 + foldr Z.max 1 (map_to_list (v_open v)).*1 ∈ (map_to_list (v_open v)).*1).
  { apply list_elem_of_fmap. eexists (_, y). split; [done|]. by apply elem_of_map_to_list. }
  apply H in Hin. lia.
Qed.

Definition on_handle {A} (fd : Z) (bad : A) (f : list Z → Z → list Z → view → A * view) : ST view A := λ v,
  match v_open v !! fd with
  | Some (name, pos) => match v_files v !! name with Some c => Ok (f name pos c v) | None => Ok (bad, v) end
  | None => Ok (bad, v)
  end.

#[export] Instance model_sys : Sys view := {|
  sys_open name := λ v,
    match v_files v !! name with
    | Some _ => Ok (next_handle v, with_open (<[next_handle v := (name, 0)]> (v_open v)) v)
    | None => Ok (-1, v)
    end;
  sys_close fd := λ v, Ok ((), with_open (delete fd (v_open v)) v);
  sys_read fd n := λ v,
    if decide (fd = STDIN_FILENO) then match v_keys v with c :: cs => Ok ((1, [c]), with_keys cs v) | [] => Err EFuel end
    else on_handle fd (-1, []) (λ name pos c v, let bs := slice pos n c in
      ((Z.of_nat (length bs), bs), with_open (<[fd := (name, pos + Z.of_nat (length bs))]> (v_open v)) v)) v;
  sys_write fd bs := λ v,
    if decide (fd = STDOUT_FILENO) then Ok (Z.of_nat (length bs), with_console bs v)
    else on_handle fd (-1) (λ name pos c v, let n := Z.min (Z.of_nat (length bs)) (Z.of_nat (length c) - pos) in
      (n, with_files (<[name := splice pos (take (Z.to_nat n) bs) c]> (v_files v)) (with_open (<[fd := (name, pos + n)]> (v_open v)) v))) v;
  sys_create name n := λ v,
    match v_files v !! name with
    | Some _ => Ok (false, v)
    | None => Ok (true, with_files (<[name := replicate (Z.to_nat n) 0]> (v_files v)) v)
    end;
  sys_remove name := λ v, Ok (bool_decide (is_Some (v_files v !! name)), with_files (delete name (v_files v)) v);
  sys_filesize fd := on_handle fd (-1) (λ _ _ c v, (Z.of_nat (length c), v));
  sys_seek fd p := on_handle fd tt (λ name _ _ v, (tt, with_open (<[fd := (name, p)]> (v_open v)) v));
  sys_tell fd := on_handle fd (-1) (λ _ pos _ v, (pos, v));
  sys_mkdir _ := mret false;
  sys_chdir _ := mret false;
  sys_exec _ := mret PID_ERROR;
  sys_wait _ := mret (-1);
|}.

(** Handles are above those of the console. *)
Definition model_sees (k v : view) : Prop := k = v ∧ ∀ fd, is_Some (v_open v !! fd) → 2 ≤ fd.

#[export] Instance model_laws : SysLaws view model_sees.
Proof.
  assert (Hins : ∀ v fd x, (∀ fd, is_Some (v_open v !! fd) → 2 ≤ fd) → 2 ≤ fd → ∀ fd', is_Some (<[fd := x]> (v_open v) !! fd') → 2 ≤ fd').
  { intros v fd x H Hfd fd' H'. destruct (decide (fd = fd')) as [<-|Hne]; [done|]. rewrite lookup_insert_ne in H' by done. by apply H. }
  split.
  - intros k v name [-> H]. cbn. destruct (v_files v !! name) as [c|]; [|by exists v]. destruct (next_handle_new v) as [H1 H2].
    eexists _, _. split; [done|]. split; [done|]. split; [done|]. split; [done|]. by apply Hins.
  - intros k v fd [-> H] _. eexists. split; [done|]. split; [done|]. intros fd' H'. cbn in H'. apply H. destruct H' as [x [_ H']%lookup_delete_Some]. by exists x.
  - intros k v fd name pos c n [-> H] (H1 & H2 & _) Hn. cbn. assert (Hfd : 2 ≤ fd) by (apply H; by eexists). rewrite decide_False by (unfold STDIN_FILENO; lia).
    unfold on_handle. rewrite H1, H2. eexists. split; [done|]. split; [done|]. by apply Hins.
  - intros k v fd name pos c bs [-> H] (H1 & H2 & _). cbn. assert (Hfd : 2 ≤ fd) by (apply H; by eexists). rewrite decide_False by (unfold STDOUT_FILENO; lia).
    unfold on_handle. rewrite H1, H2. eexists. split; [done|]. split; [done|]. by apply Hins.
  - intros k v bs [-> H]. by eexists.
  - intros k v c cs [-> H] Hk. cbn. rewrite Hk. by eexists.
  - intros k v name n [-> H] _. cbn. destruct (v_files v !! name); by eexists.
  - intros k v fd name pos c [-> H] (H1 & H2 & _). cbn. unfold on_handle. rewrite H1, H2. by eexists.
  - intros k v fd name pos c p [-> H] (H1 & H2 & _) _. cbn. unfold on_handle. rewrite H1, H2. eexists. split; [done|]. split; [done|]. apply Hins; [done|]. apply H. by eexists.
  - intros k v fd name pos c [-> H] (H1 & H2 & _). cbn. unfold on_handle. rewrite H1, H2. by eexists.
Qed.

(** A kernel with one file, and keys: a, b, backspace, c, return. *)
Definition demo_view : view := View {[ str "a" := [1; 2; 3] ]} ∅ [] [97; 98; 8; 99; 13].

Lemma demo_sees : model_sees demo_view demo_view.
Proof. split; [done|]. intros fd [x Hx]. change (v_open demo_view) with (∅ : gmap Z (list Z * Z)) in Hx. by rewrite lookup_empty in Hx. Qed.


Lemma read_line_edits_witness : ∃ v' t, read_line 5 80 [] demo_view = Ok ([97; 99], v') ∧ shows [97; 99] (foldl type_char ([], 0%nat) t).
Proof.
  destruct (read_line_edits (sees := model_sees) 80 [97; 98; 8; 99; 13] demo_view demo_view [] [97; 99] [] 5) as (k' & t & E & _ & _ & Hs).
  - exact demo_sees.
  - reflexivity.
  - reflexivity.
  - cbn. lia.
  - cbn. lia.
  - exists k', t. split; [exact E|]. apply Hs. exists 0%nat. reflexivity.
Defined.

(** Files of different lengths are called identical if the shorter is a prefix. *)
Theorem cmp_ignores_length :
  ∃ v' t, cmp_main 3 [str "cmp"; str "a"; str "b"] (View (<[str "b" := [1; 2; 3; 4]]> {[str "a" := [1; 2; 3]]}) ∅ [] []) = Ok (EXIT_SUCCESS, v') ∧
    v_console v' = t ++ identical_text (str "a") (str "b").
Proof. eexists _, (str "a" ++ str " is shorter than " ++ str "b" ++ [10]). split; [vm_compute; reflexivity|by vm_compute]. Qed.
