(* ===== verification/Dump.v ===== *)
(** * lib/stdio.c: hex_dump and print_human_readable_size

    The text that the two routines print, printf by printf, and that a dump can be read
    back. *)

From Stdlib Require Import String.
From S2P Require Import Prelude Memory CString CStdlib Stdio StdioSpec Ustar.

Local Open Scope Z_scope.

(** The conversions %08jx and %02hhx of the formats. *)
Definition hex8 (v : Z) : list Z := pad Zeros 8 [] (numeral base_x v).
Definition hex2 (b : Z) : list Z := pad Zeros 2 [] (numeral base_x (b `mod` 256)).

(** lib/ctype.h. *)
Definition isprint (c : Z) : bool := bool_decide (32 ≤ c ∧ c < 127).

(** A loop over i from [i] that prints for each i below [n]. *)
Definition repeat_text (i n : Z) (t : list Z) : list Z := concat (replicate (Z.to_nat (n - i)) t).

(** The bytes from column [i] on. *)
Fixpoint hex_columns (i : Z) (bs : list Z) : list Z :=
  match bs with [] => [] | b :: bs => hex2 b ++ [if decide (i = 16 / 2 - 1) then 45 else 32] ++ hex_columns (i + 1) bs end.

(** One turn of the loop, with the bytes of the line. *)
Definition dump_line (ofs : Z) (bs : list Z) (ascii : bool) : list Z :=
  let start := ofs `mod` 16 in
  let end_ := start + Z.of_nat (length bs) in
  hex8 (ofs - ofs `mod` 16) ++ [32; 32] ++
  repeat_text 0 start [32; 32; 32] ++
  hex_columns start bs ++
  (if ascii then
     repeat_text end_ 16 [32; 32; 32] ++ [124] ++
     repeat_text 0 start [32] ++
     ((λ b, if isprint b then b else 46) <$> bs) ++
     repeat_text end_ 16 [32] ++ [124]
   else []) ++
  [10].

(** The number of bytes on the next line. *)
Definition line_count (ofs size : Z) : Z :=
  let start := ofs `mod` 16 in
  let end_ := if decide (size < 16 - start) then start + size else 16 in
  end_ - start.

(** The lines.  Each has a byte at least, so that [fuel] is enough if it is the size. *)
Fixpoint dump_lines (fuel : nat) (ofs : Z) (bs : list Z) (ascii : bool) : list (list Z) :=
  match bs, fuel with
  | [], _ | _, O => []
  | _, S fuel =>
      let n := Z.to_nat (line_count ofs (Z.of_nat (length bs))) in
      dump_line ofs (take n bs) ascii :: dump_lines fuel (u32 (ofs + Z.of_nat n)) (drop n bs) ascii
  end.

Definition hex_dump (ofs : Z) (bs : list Z) (ascii : bool) : list Z := concat (dump_lines (length bs) ofs bs ascii).

(** *** print_human_readable_size *)

Definition factors : list (list Z) := [str "bytes"; str "kB"; str "MB"; str "GB"; str "TB"].

(** The loop: [k] is the position in the array. *)
Fixpoint scale (n : nat) (k : nat) (size : Z) : Z * nat :=
  match n with
  | O => (size, k)
  | S n => if decide (1024 ≤ size ∧ is_Some (factors !! S k)) then scale n (S k) (size / 1024) else (size, k)
  end.

Definition print_human_readable_size (size : Z) : list Z :=
  if decide (size = 1) then str "1 byte"
  else let '(v, k) := scale (length factors) 0 size in
    numeral base_d v ++ [32] ++ default [] (factors !! k).

(** ** Reading a dump back *)

Definition digit (c : Z) : Z := if decide (c < 58) then c - 48 else c - 87.

(** The byte at a column of a line. *)
Definition byte_at (line : list Z) (col : Z) : Z :=
  let c i := default 0 (line !! Z.to_nat (10 + 3 * col + i)) in 16 * digit (c 0) + digit (c 1).

Lemma hex2_ok b : 0 ≤ b < 256 → ∃ x y, hex2 b = [x; y] ∧ 16 * digit x + digit y = b.
Proof.
  intros Hb. assert (H : Forall (λ b, length (hex2 b) = 2%nat ∧ 16 * digit (default 0 (hex2 b !! 0%nat)) + digit (default 0 (hex2 b !! 1%nat)) = b) (seqZ 0 256)) by compute_hyp.
  rewrite Forall_forall in H. destruct (H b ltac:(apply elem_of_seqZ; lia)) as [Hl Hd]. destruct (hex2 b) as [|x [|y []]]; try done. by exists x, y.
Qed.

Lemma hex8_length v : 0 ≤ v < 2^32 → length (hex8 v) = 8%nat.
Proof.
  intros Hv. unfold hex8. assert (Hn : (length (numeral base_x v) ≤ 8)%nat).
  { unfold numeral. case_decide; [cbn; lia|]. rewrite length_fmap, length_reverse. apply low_digits_bound; [done|]. change (base base_x) with 16. lia. }
  unfold pad. cbn [app]. rewrite length_app, length_replicate. lia.
Qed.

Lemma repeat_text_length i n t : length (repeat_text i n t) = (Z.to_nat (n - i) * length t)%nat.
Proof. unfold repeat_text. induction (Z.to_nat (n - i)) as [|k IH]; cbn; [done|]. rewrite length_app. lia. Qed.

Lemma hex_columns_length i bs : Forall (λ b, 0 ≤ b < 256) bs → length (hex_columns i bs) = (3 * length bs)%nat.
Proof.
  intros Hb. revert i. induction Hb as [|b bs H _ IH]; intros i; [done|]. cbn [hex_columns]. destruct (hex2_ok b H) as (x & y & -> & _). cbn. rewrite IH. lia.
Qed.

Lemma hex_columns_lookup i bs k b rest : Forall (λ b, 0 ≤ b < 256) bs → bs !! k = Some b →
  16 * digit (default 0 ((hex_columns i bs ++ rest) !! (3 * k)%nat)) + digit (default 0 ((hex_columns i bs ++ rest) !! (3 * k + 1)%nat)) = b.
Proof.
  intros Hb. revert i k. induction Hb as [|c bs H _ IH]; intros i k Hk; [done|]. cbn [hex_columns]. destruct (hex2_ok c H) as (x & y & -> & Hd).
  destruct k as [|k]; [injection Hk as <-; exact Hd|]. replace (3 * S k)%nat with (S (S (S (3 * k)))) by lia. cbn [app]. apply (IH (i + 1) k Hk).
Qed.

(** A line: its length, and its bytes by column. *)
Lemma dump_line_ok ofs bs ascii :
  in_u32 ofs → Forall (λ b, 0 ≤ b < 256) bs → ofs `mod` 16 + Z.of_nat (length bs) ≤ 16 →
  (ascii = true → length (dump_line ofs bs ascii) = 77%nat) ∧
  ∀ k b, bs !! k = Some b → byte_at (dump_line ofs bs ascii) (ofs `mod` 16 + Z.of_nat k) = b.
Proof.
  intros Ho Hb Hl. unfold in_u32 in Ho. assert (Hs : 0 ≤ ofs `mod` 16 < 16) by (apply Z.mod_pos_bound; lia). set (start := ofs `mod` 16) in *.
  assert (H8 : length (hex8 (ofs - start)) = 8%nat) by (apply hex8_length; unfold start; dlia). split.
  - intros ->. unfold dump_line. fold start. rewrite !length_app, !repeat_text_length, hex_columns_length, length_fmap, H8 by done. cbn [length]. lia.
  - intros k b Hk. pose proof (lookup_lt_Some _ _ _ Hk) as Hlt. unfold byte_at, dump_line. fold start. cbv zeta.
    set (rest := (if ascii then _ else _) ++ _). set (pre := hex8 (ofs - start) ++ [32; 32] ++ repeat_text 0 start [32; 32; 32]).
    assert (Lp : length pre = Z.to_nat (10 + 3 * start)) by (unfold pre; rewrite !length_app, H8, repeat_text_length; cbn [length]; lia).
    replace (hex8 (ofs - start) ++ [32; 32] ++ repeat_text 0 start [32; 32; 32] ++ hex_columns start bs ++ rest) with (pre ++ hex_columns start bs ++ rest) by (unfold pre; by rewrite <- !app_assoc).
    rewrite !(lookup_app_r pre) by (rewrite Lp; lia). rewrite Lp.
    replace (Z.to_nat (10 + 3 * (start + Z.of_nat k) + 0) - Z.to_nat (10 + 3 * start))%nat with (3 * k)%nat by lia.
    replace (Z.to_nat (10 + 3 * (start + Z.of_nat k) + 1) - Z.to_nat (10 + 3 * start))%nat with (3 * k + 1)%nat by lia. by apply hex_columns_lookup.
Qed.

(** The lines read back: as many bytes as each line has, by column. *)
Fixpoint undump (ofs size : Z) (lines : list (list Z)) : list Z :=
  match lines with
  | [] => []
  | l :: lines =>
      let n := line_count ofs size in
      ((λ i, byte_at l (ofs `mod` 16 + i)) <$> seqZ 0 n) ++ undump (u32 (ofs + n)) (size - n) lines
  end.

Lemma line_count_ok ofs size : 0 < size → 1 ≤ line_count ofs size ≤ size ∧ ofs `mod` 16 + line_count ofs size ≤ 16.
Proof. intros H. unfold line_count. assert (0 ≤ ofs `mod` 16 < 16) by (apply Z.mod_pos_bound; lia). case_decide; lia. Qed.

(** A hex dump can be read back: its lines have the bytes, in the columns of their
    addresses; with characters, each line has 76 characters and a newline. *)
Theorem hex_dump_roundtrip ofs bs ascii :
  in_u32 ofs → Forall (λ b, 0 ≤ b < 256) bs →
  ∃ lines, hex_dump ofs bs ascii = concat lines ∧ undump ofs (Z.of_nat (length bs)) lines = bs ∧
    (ascii = true → Forall (λ l, length l = 77%nat) lines).
Proof.
  intros Ho Hb. exists (dump_lines (length bs) ofs bs ascii). split; [done|].
  assert (H : ∀ fuel ofs bs, in_u32 ofs → Forall (λ b, 0 ≤ b < 256) bs → (length bs ≤ fuel)%nat →
    undump ofs (Z.of_nat (length bs)) (dump_lines fuel ofs bs ascii) = bs ∧ (ascii = true → Forall (λ l, length l = 77%nat) (dump_lines fuel ofs bs ascii))); [|by apply H].
  clear ofs bs Ho Hb. induction fuel as [|fuel IH]; intros ofs bs Ho Hb Hf; [destruct bs; [by split; [|constructor]|cbn in Hf; lia]|].
  destruct bs as [|b0 bs0]; [by split; [|constructor]|]. set (bs := b0 :: bs0) in *. change (dump_lines (S fuel) ofs bs ascii) with
    (dump_line ofs (take (Z.to_nat (line_count ofs (Z.of_nat (length bs)))) bs) ascii ::
     dump_lines fuel (u32 (ofs + Z.of_nat (Z.to_nat (line_count ofs (Z.of_nat (length bs)))))) (drop (Z.to_nat (line_count ofs (Z.of_nat (length bs)))) bs) ascii).
  assert (Hlen : (0 < length bs)%nat) by (cbn; lia). clearbody bs. destruct (line_count_ok ofs (Z.of_nat (length bs))) as [Hn Hend]; [lia|]. set (n := line_count ofs (Z.of_nat (length bs))) in *.
  rewrite Z2Nat.id by lia. assert (Ht : length (take (Z.to_nat n) bs) = Z.to_nat n) by (apply length_take_le; lia).
  destruct (dump_line_ok ofs (take (Z.to_nat n) bs) ascii Ho) as [H77 Hby]; [by apply Forall_take|lia|].
  destruct (IH (u32 (ofs + n)) (drop (Z.to_nat n) bs)) as [IH1 IH2]; [apply u32_range|by apply Forall_drop|rewrite length_drop; lia|]. split; [|intros ->; constructor; [by apply H77|by apply IH2]].
  cbn [undump]. fold n. rewrite length_drop in IH1. replace (Z.of_nat (length bs) - n) with (Z.of_nat (length bs - Z.to_nat n)) by lia. rewrite IH1.
  rewrite <- (take_drop (Z.to_nat n) bs) at 2. f_equal. apply list_eq. intros i. rewrite list_lookup_fmap. destruct (decide (i < Z.to_nat n)%nat) as [Hi|Hi].
  - rewrite lookup_seqZ_lt by lia. cbn. rewrite Z.add_0_l. destruct (lookup_lt_is_Some_2 (take (Z.to_nat n) bs) i) as [x Hx]; [lia|]. rewrite Hx. f_equal. by apply Hby.
  - rewrite lookup_seqZ_ge by lia. cbn. symmetry. apply lookup_ge_None. lia.
Qed.

(** A size is printed in the largest unit in which it is not less than one, up to
    terabytes, rounded down. *)
Theorem human_readable_scale size v k :
  0 ≤ size → scale (length factors) 0 size = (v, k) →
  (k ≤ 4)%nat ∧ v * 1024 ^ Z.of_nat k ≤ size < (v + 1) * 1024 ^ Z.of_nat k ∧ (k ≠ 0%nat → 1 ≤ v) ∧ (v < 1024 ∨ k = 4%nat).
Proof.
  intros Hs. assert (H : ∀ n j s, (j ≤ 4)%nat → 0 ≤ s → (5 ≤ n + j)%nat → scale n j s = (v, k) →
    (j ≤ k ≤ 4)%nat ∧ v * 1024 ^ Z.of_nat (k - j) ≤ s < (v + 1) * 1024 ^ Z.of_nat (k - j) ∧ (k ≠ j → 1 ≤ v) ∧ (v < 1024 ∨ k = 4%nat)).
  { induction n as [|n IH]; intros j s Hj Hs' Hn E; [lia|]. cbn [scale] in E. case_decide as Hc.
    - destruct Hc as [Hc [x Hx]]. assert (Hj' : (S j ≤ 4)%nat) by (apply lookup_lt_Some in Hx; cbn in Hx; lia).
      destruct (IH (S j) (s / 1024) Hj') as (H1 & H2 & H3 & H4); [dlia|lia|done|]. assert (Ek : (k - j = S (k - S j))%nat) by lia.
      split; [lia|]. rewrite Ek, Nat2Z.inj_succ, Z.pow_succ_r by lia. split; [|split; [|done]].
      + set (p := 1024 ^ Z.of_nat (k - S j)) in *. pose proof (Z.div_mod s 1024). pose proof (Z.mod_pos_bound s 1024). lia.
      + intros _. destruct (decide (k = S j)) as [->|Hne]; [|by apply H3]. rewrite Nat.sub_diag in H2. cbn in H2. dlia.
    - injection E as <- <-. rewrite Nat.sub_diag. cbn [Z.of_nat]. rewrite Z.pow_0_r. split; [lia|]. split; [lia|]. split; [done|].
      destruct (decide (1024 ≤ s)) as [Hb|Hb]; [right|left; lia]. destruct (decide (j = 4%nat)) as [|Hne]; [done|]. exfalso. apply Hc. split; [done|].
      apply lookup_lt_is_Some_2. cbn. lia. }
  intros E. destruct (H 5%nat 0%nat size ltac:(lia) Hs ltac:(lia) E) as (H1 & H2 & H3 & H4). rewrite Nat.sub_0_r in H2. split; [lia|]. split; [done|]. done.
Qed.
