(* ===== verification/Execute.v ===== *)
(** * userprog/process.c: process_execute and start_process

    The start of a process, on the state of Process.v.  thread_create is a
    parameter: its last argument, fn_copy, is given to start_process in the new thread.
    [if_] is the address of the local variable of start_process, [save_ptr] that of the
    variables of the two routines.  The jump to intr_exit is code of the processor model. *)

From S2P Require Import Prelude Bitmap Inode FileSys Memory CString Vaddr Palloc Pagedir Thread Process ProcessSpec Descriptors X86 Stubs.

Local Open Scope Z_scope.

(** threads/flags.h. *)
Definition FLAG_MBS : Z := 2.
Definition FLAG_IF : Z := 512.

(** The fields of struct intr_frame, and its size. *)
Definition o_gs : Z := 32.
Definition o_fs : Z := 36.
Definition o_es : Z := 40.
Definition o_ds : Z := 44.
Definition o_eip : Z := 60.
Definition o_cs : Z := 64.
Definition o_eflags : Z := 68.
Definition o_esp : Z := 72.
Definition o_ss : Z := 76.
Definition INTR_FRAME_SIZE : Z := 80.

Section execute.
Context (delimiters : Z) (thread_create : Z → Z → Z → PR Z).

Definition process_execute (file_name save_ptr : Z) : PR Z :=
  fn_copy ← on_pages (palloc_get_page 0);
  if decide (fn_copy = NULL) then mret TID_ERROR else
  _ ← on_mem (strlcpy fn_copy file_name PGSIZE);
  on_mem (storew save_ptr NULL);;
  prog_name ← on_mem (strtok_r file_name delimiters save_ptr);
  tid ← thread_create prog_name PRI_DEFAULT fn_copy;
  (if decide (tid = TID_ERROR) then on_pages (palloc_free_page fn_copy) else mret tt);;
  mret tid.

(** A selector is 16 bits wide. *)
Definition store_sel (p sel : Z) : MM () := store_bytes p (le_bytes 2 sel).

Definition init_frame (if_ : Z) : MM () :=
  _ ← memset if_ 0 INTR_FRAME_SIZE;
  store_sel (if_ + o_ss) SEL_UDSEG;;
  store_sel (if_ + o_ds) SEL_UDSEG;;
  store_sel (if_ + o_es) SEL_UDSEG;;
  store_sel (if_ + o_fs) SEL_UDSEG;;
  store_sel (if_ + o_gs) SEL_UDSEG;;
  store_sel (if_ + o_cs) SEL_UCSEG;;
  storew (if_ + o_eflags) (Z.lor FLAG_IF FLAG_MBS).

(** Up to the jump; the result false is thread_exit. *)
Definition start_process (if_ save_ptr file_name : Z) : PR bool :=
  on_mem (init_frame if_);;
  success ← load_program file_name (if_ + o_eip) (if_ + o_esp) delimiters save_ptr;
  on_pages (palloc_free_page file_name);;
  mret success.
End execute.

(** movl %0, %%esp; jmp intr_exit. *)
Definition enter_user (if_ : Z) : X () := mov ESP if_;; intr_exit.

(** * Theorems *)

(** ** The frame of a new process *)

Lemma write_inside p k xs ys m : (k + length xs ≤ length ys)%nat →
  write (p + Z.of_nat k) xs (write p ys m) = write p (take k ys ++ xs ++ drop (k + length xs) ys) m.
Proof.
  intros H. apply map_eq. intros a. rewrite !lookup_write, !length_app, length_take, length_drop.
  replace (k `min` length ys + (length xs + (length ys - (k + length xs))))%nat with (length ys) by lia.
  case_decide as H1.
  - rewrite (decide_True (P := p ≤ a < p + Z.of_nat (length ys))) by lia. rewrite lookup_app_r, length_take by (rewrite length_take; lia).
    rewrite lookup_app_l by lia. f_equal. lia.
  - case_decide as H2; [|done]. destruct (decide (a < p + Z.of_nat k)) as [H3|H3].
    + rewrite lookup_app_l by (rewrite length_take; lia). by rewrite lookup_take_lt by lia.
    + rewrite lookup_app_r, length_take by (rewrite length_take; lia). rewrite lookup_app_r by lia. rewrite lookup_drop. f_equal. lia.
Qed.

(** What init_frame leaves in memory. *)
Definition frame_bytes : list Z :=
  replicate 32 0 ++ [35; 0; 0; 0] ++ [35; 0; 0; 0] ++ [35; 0; 0; 0] ++ [35; 0; 0; 0] ++ replicate 16 0 ++ [27; 0; 0; 0] ++ [2; 2; 0; 0] ++ replicate 4 0 ++ [35; 0; 0; 0].

Lemma init_frame_ok if_ m : mapped m if_ 80 → init_frame if_ m = Ok ((), write if_ frame_bytes m).
Proof.
  intros Hm. unfold init_frame. erewrite st_bind_ok by (exact (memset_ok m if_ 0 80 Hm)). unfold store_sel.
  assert (Hst : ∀ (o : nat) bs ys, (o + length bs ≤ 80)%nat → length ys = 80%nat →
    store_bytes (if_ + Z.of_nat o) bs (write if_ ys m) = Ok ((), write if_ (take o ys ++ bs ++ drop (o + length bs) ys) m)).
  { intros o bs ys Hl Hy. rewrite store_bytes_ok; [by rewrite write_inside by lia|]. destruct (mapped_write m if_ 80 if_ ys Hm) as [Hr Hs]. split; [lia|].
    intros i Hi. replace (if_ + Z.of_nat o + Z.of_nat i) with (if_ + Z.of_nat (o + i)) by lia. apply Hs. lia. }
  do 6 (erewrite st_bind_ok by (first [apply (Hst 76%nat)|apply (Hst 44%nat)|apply (Hst 40%nat)|apply (Hst 36%nat)|apply (Hst 32%nat)|apply (Hst 64%nat)]; cbn; lia)).
  unfold storew. etransitivity; [apply (Hst 68%nat); cbn; lia|]. reflexivity.
Qed.

(** The memory as the processor model has it. *)
Definition view (m : mem) (a : Z) : Z := default 0 (m !! a).

Lemma ldl_view m a : ldl (view m) a = word m a.
Proof. unfold ldl, view, word. cbn [fmap list_fmap le_word foldr]. rewrite Z.add_0_r. cbn. lia. Qed.

Lemma word_in p k ys m : (k + 4 ≤ length ys)%nat → word (write p ys m) (p + Z.of_nat k) = le_word (take 4 (drop k ys)).
Proof.
  intros H. apply word_bytes; [rewrite length_take, length_drop; lia|]. intros i b E. rewrite lookup_take_Some, lookup_drop in E. destruct E as [E Hi].
  rewrite lookup_write, decide_True by lia. replace (Z.to_nat _) with (k + i)%nat by lia. done.
Qed.

(** The frame that start_process prepares, completed by load with the entry point and the
    stack pointer, makes intr_exit continue in user mode there, with interrupts on, all other registers zero
    and the segments of user programs. *)
Theorem frame_enters_user if_ entry sp m c :
  mapped m if_ 80 → if_ + 84 < 2^32 → in_u32 entry → in_u32 sp →
  ram c = view (write (if_ + o_eip) (le_bytes 4 entry) (write (if_ + o_esp) (le_bytes 4 sp) (write if_ frame_bytes m))) →
  init_frame if_ m = Ok ((), write if_ frame_bytes m) ∧
  enter_user if_ c = Ok ((), Cpu (Regs 0 0 0 0 sp 0 0 0) (Sregs SEL_UCSEG SEL_UDSEG SEL_UDSEG SEL_UDSEG SEL_UDSEG SEL_UDSEG) entry (Z.lor FLAG_IF FLAG_MBS) (ram c)) ∧
  level SEL_UCSEG = 3.
Proof.
  intros Hm H84 He Hsp Hr. split; [by apply init_frame_ok|]. split; [|done]. destruct Hm as [[H0 H1] _].
  unfold enter_user. destruct c as [[] sg ip fl m0]. cbn [ram] in Hr. subst m0. set (m' := write (if_ + o_eip) _ _).
  assert (Hw : ∀ k, 0 ≤ k → k + 4 ≤ 60 ∨ 64 ≤ k ∧ k + 4 ≤ 72 ∨ k = 76 → ldl (view m') (if_ + k) = le_word (take 4 (drop (Z.to_nat k) frame_bytes))).
  { intros k Hk0 Hk. rewrite ldl_view. unfold m', o_eip, o_esp. rewrite !word_write_other by (unfold disjoint_blocks; rewrite length_le_bytes; lia).
    replace (if_ + k) with (if_ + Z.of_nat (Z.to_nat k)) by lia. apply word_in. cbn. lia. }
  assert (Hip : ldl (view m') (if_ + 60) = entry) by (rewrite ldl_view; by apply word_write).
  assert (Hs : ldl (view m') (if_ + 72) = sp).
  { rewrite ldl_view. unfold m'. rewrite word_write_other by (unfold disjoint_blocks, o_eip; rewrite length_le_bytes; lia). by apply word_write. }
  assert (Hf : frame_at (view m') if_ = Iframe 0 0 0 0 0 0 0 35 35 35 35 0 0 0 entry 27 514).
  { unfold frame_at. rewrite Hip. pose proof (Hw 0) as H. rewrite Z.add_0_r in H. rewrite H by lia.
    rewrite !Hw by lia. done. }
  erewrite st_bind_ok by reflexivity. rewrite (exit_ok if_) by (cbn; lia || done). cbn [ram with_gpr]. rewrite Hf. cbn [f_cs]. change (level 27) with 3. rewrite !decide_True by done.
  rewrite Hs. rewrite (Hw 76) by lia. done.
Qed.

(** ** The arguments *)

(** After a byte is pushed, memory from [sp] on is as before. *)
Lemma after_push {A} x sp s f pd (k : Z → PR A) (P : res (A * process) → Prop) : 4 < sp < 2^32 → is_Some (mem_of s !! (sp - 4)) →
  (∀ s1, (∀ a, a ≠ sp - 4 → mem_of s1 !! a = mem_of s !! a) → (∀ a, is_Some (mem_of s !! a) → is_Some (mem_of s1 !! a)) →
    (bytes_ok (mem_of s) → bytes_ok (mem_of s1)) → P (k (sp - 4) (Process s1 f pd))) →
  P ((push_char x sp ≫= k) (Process s f pd)).
Proof.
  intros Hsp Hm Hk. unfold push_char. rewrite u32_id by (unfold in_u32; lia). rewrite <- st_bind_assoc. erewrite st_bind_ok by (apply on_mem_ok, store_ok, Hm).
  erewrite st_bind_ok by reflexivity. apply Hk; cbn.
  - intros a Ha. by rewrite lookup_insert_ne.
  - intros a Ha. destruct (decide (a = sp - 4)) as [->|]; [by rewrite lookup_insert_eq|by rewrite lookup_insert_ne].
  - intros Hb a b [[_ <-]|[_ H]]%lookup_insert_Some; [apply Z.mod_pos_bound; lia|by eapply Hb].
Qed.

Lemma align_down_ok fuel sp : in_u32 sp → Z.of_nat fuel ≤ sp → ∃ k, align_down fuel sp = sp - k ∧ 0 ≤ k ≤ Z.of_nat fuel.
Proof.
  revert sp. induction fuel as [|fuel IH]; intros sp Hi Hf; [exists 0; cbn; lia|]. cbn [align_down]. case_decide; [|exists 0; lia].
  unfold in_u32 in Hi. rewrite u32_id by (unfold in_u32; lia). destruct (IH (sp - 1)) as (k & -> & Hk); [unfold in_u32; lia|lia|]. exists (k + 1). lia.
Qed.

(** What pass_arguments does after the strings, for one argument. *)
Lemma push_words_ok sp arg s f pd : 40 ≤ sp < 2^32 → (∀ a, sp - 24 ≤ a < sp → is_Some (mem_of s !! a)) →
  ∃ s', (sp ← push_char 0 (align_down 4 sp); sp ← push_pointers [arg] sp; sp ← push_char sp sp; sp ← push_char 1 sp; _ ← push_char 0 sp; mret true) (Process s f pd) =
      Ok (true, Process s' f pd) ∧ (∀ a, sp ≤ a → mem_of s' !! a = mem_of s !! a) ∧ (bytes_ok (mem_of s) → bytes_ok (mem_of s')).
Proof.
  intros Hsp Hm. destruct (align_down_ok 4 sp) as (k & -> & Hk); [unfold in_u32; lia|lia|].
  apply after_push; [lia|apply Hm; lia|]. intros s1 H1 M1 B1. cbn [push_pointers]. rewrite <- st_bind_assoc.
  apply after_push; [lia|apply M1, Hm; lia|]. intros s2 H2 M2 B2. erewrite st_bind_ok by reflexivity.
  apply after_push; [lia|apply M2, M1, Hm; lia|]. intros s3 H3 M3 B3.
  apply after_push; [lia|apply M3, M2, M1, Hm; lia|]. intros s4 H4 M4 B4.
  apply after_push; [lia|apply M4, M3, M2, M1, Hm; lia|]. intros s5 H5 _ B5.
  exists s5. split; [done|]. split; [|intros Hb; by apply B5, B4, B3, B2, B1]. intros a Ha. by rewrite H5, H4, H3, H2, H1 by lia.
Qed.

(** The loop over the arguments, for the last one. *)
Lemma push_strings_one fuel s f pd d sv token e sp t :
  cstr (mem_of s) token t → tokenizing (mem_of s) NULL e d sv [] [32] → (length t ≤ 4000)%nat →
  let n := S (length t) in let dst := sp - Z.of_nat n in
  mapped (mem_of s) dst n → disjoint_blocks dst n token n → disjoint_blocks dst n sv 4 → disjoint_blocks dst n d 2 → disjoint_blocks dst n e 1 →
  push_strings (S (S fuel)) d sv token sp (4 + 4 + 4 + 4) [] (Process s f pd) =
    Ok (Some (dst, [dst]), Process (with_mem (write sv (le_bytes 4 (e + 0)) (write dst (t ++ [0]) (mem_of s))) s) f pd).
Proof.
  intros Ht Htk Hlen n dst Hm D1 D2 D3 D4. set (m := mem_of s) in *. pose proof (cstr_range _ _ _ Ht) as Hrg. destruct Hm as [Hr Hm].
  cbn [push_strings]. rewrite decide_False by (unfold NULL; lia). erewrite st_bind_ok by (apply on_mem_ok, strlen_ok, Ht).
  cbv zeta. rewrite decide_False by (rewrite s32_id by (unfold in_s32; lia); unfold PGSIZE; cbn [length]; lia).
  replace (u32 (sp - (Z.of_nat (length t) + 1))) with dst by (rewrite u32_id; unfold in_u32, dst, n in *; lia).
  assert (E2 : strlcpy dst token (Z.of_nat (length t) + 1) m = Ok (Z.of_nat (length t), write dst (t ++ [0]) m)).
  { replace (Z.of_nat (length t) + 1) with (Z.of_nat n) by (unfold n; lia). rewrite (strlcpy_ok m dst token t) by (rewrite ?Nat2Z.id; done || lia). do 4 f_equal. rewrite take_ge; [done|unfold n; lia]. }
  erewrite st_bind_ok by (apply on_mem_ok; exact E2). set (m2 := write dst (t ++ [0]) m).
  assert (Htk2 : tokenizing m2 NULL e d sv [] [32]).
  { assert (Hl : length (t ++ [0]) = n) by (rewrite length_app; cbn; unfold n; lia). unfold disjoint_blocks in *. destruct Htk as [H1 H2 H3 H4 H5 H6 H7]. unfold m2. split; try done.
    - apply cstr_write; [done|]. unfold disjoint_blocks. rewrite Hl. cbn [length]. lia.
    - apply cstr_write; [done|]. unfold disjoint_blocks. rewrite Hl. cbn [length]. lia.
    - by apply mapped_write.
    - destruct H7 as [H7|[H7 H8]]; [by left|right; split; [done|]]. apply holds_write_other; [done|]. unfold disjoint_blocks. rewrite Hl, length_le_bytes. lia. }
  erewrite st_bind_ok by (apply on_mem_ok; exact (strtok_r_none m2 NULL e d sv [32] [] Htk2 ltac:(constructor))).
  by rewrite decide_True by done.
Qed.

(** load destroys the frame of the process: it pushes the arguments below the variable with the stack pointer of the process,
    esp of struct intr_frame, and not below the stack pointer in it, so that the program's name is
    copied over the flags in the frame.  load succeeds, but for no name the flags are those that start_process has set; the byte with the virtual-8086
    flag is the last character of the name. *)
Theorem name_overwrites_flags s f pd if_ file_name d sv t :
  let n := (length t + 40)%nat in let esp := if_ + o_esp in
  bytes_ok (mem_of s) → tokenizing (mem_of s) file_name file_name d sv t [32] → t ≠ [] → Forall (.∉ [32]) t → (length t ≤ 4000)%nat →
  mapped (mem_of s) (esp - Z.of_nat n) n → disjoint_blocks (esp - Z.of_nat n) n file_name (S (length t)) →
  disjoint_blocks (esp - Z.of_nat n) n sv 4 → disjoint_blocks (esp - Z.of_nat n) n d 2 →
  ∃ s', pass_arguments esp file_name d sv (Process s f pd) = Ok (true, Process s' f pd) ∧
    mem_of s' !! (if_ + o_eflags + 2) = last t ∧ f_eflags (frame_at (view (mem_of s')) if_) ≠ Z.lor FLAG_IF FLAG_MBS.
Proof.
  intros n esp Hby Htk Hne Hnd Hlen Hm D1 D2 D3. set (m := mem_of s) in *. pose proof (cstr_range _ _ _ (tk_str _ _ _ _ _ _ _ Htk)) as Hrg. unfold disjoint_blocks in *.
  unfold pass_arguments. pose proof (strtok_r_some m file_name file_name d sv [32] t [] t [] Htk) as E1. rewrite app_nil_r in E1. specialize (E1 eq_refl ltac:(constructor) Hnd Hne ltac:(done)).
  cbn [length] in E1. rewrite Z.add_0_r in E1. cbn [Nat.add] in E1. set (e := file_name + Z.of_nat (length t)) in *.
  assert (Htk' : tokenizing m file_name file_name d sv ([] ++ t ++ []) [32]) by (cbn; by rewrite app_nil_r). pose proof (cut_tokenizing _ _ _ _ _ _ _ _ _ Htk') as H2. cbn [length Nat.add resume tail cut] in H2. fold e in H2.
  erewrite st_bind_ok by (apply on_mem_ok; exact E1). set (m1 := write sv (le_bytes 4 e) m) in *.
  assert (Hag : ∀ a, ¬ (sv ≤ a < sv + 4) → m1 !! a = m !! a) by (intros a Ha; unfold m1; rewrite lookup_write, length_le_bytes; by rewrite decide_False by lia).
  assert (Hs1 : cstr m1 file_name t).
  { eapply cstr_agree; [apply Htk|]. intros a Ha. apply Hag. pose proof (tk_sv_s _ _ _ _ _ _ _ Htk) as D. unfold disjoint_blocks in D. lia. }
  assert (Hl : length (t ++ [0]) = S (length t)) by (rewrite length_app; cbn; lia). destruct Hm as [Hr Hm]. unfold o_esp in *. destruct Htk as [_ _ _ T1 T2 T3 _]. unfold disjoint_blocks in *. cbn [length] in *.
  set (s1 := with_mem m1 s). assert (Hm1 : ∀ a, esp - Z.of_nat n ≤ a < esp → is_Some (m1 !! a)).
  { intros a Ha. rewrite Hag by lia. replace a with (esp - Z.of_nat n + Z.of_nat (Z.to_nat (a - (esp - Z.of_nat n)))) by lia. apply Hm. lia. }
  pose proof (push_strings_one 255 s1 f pd d sv file_name e esp t Hs1 H2 Hlen) as E3. cbv zeta in E3. set (dst := esp - Z.of_nat (S (length t))) in *.
  erewrite st_bind_ok by (apply E3; [split; [lia|intros i Hi; apply Hm1; lia]|unfold disjoint_blocks; lia..]). set (m3 := write sv _ _).
  destruct (push_words_ok dst dst (with_mem m3 s1) f pd) as (s' & E & Hs' & Hbs); [lia|intros a Ha; apply write_some, write_some, Hm1; lia|].
  exists s'. split; [exact E|].
  assert (Hb : ∀ i b, (t ++ [0]) !! i = Some b → mem_of s' !! (dst + Z.of_nat i) = Some b).
  { intros i b Hi. pose proof (lookup_lt_Some _ _ _ Hi) as Hlt. rewrite Hl in Hlt. rewrite Hs' by lia. change (mem_of (with_mem m3 s1)) with m3. unfold m3. change (mem_of s1) with m1. rewrite !lookup_write, length_le_bytes, Hl. rewrite decide_False by lia. rewrite decide_True by lia.
    replace (Z.to_nat _) with i by lia. done. }
  rewrite last_lookup. destruct (lookup_lt_is_Some_2 t (pred (length t))) as [c Hc]; [destruct t; [done|cbn; lia]|]. rewrite Hc.
  assert (Hc' : mem_of s' !! (if_ + o_eflags + 2) = Some c).
  { rewrite <- (Hb (pred (length t)) c); [|by apply lookup_app_l_Some]. f_equal. unfold dst, esp, o_eflags. destruct t; [done|cbn [length pred]; lia]. }
  split; [exact Hc'|]. unfold frame_at. cbn [f_eflags].
  assert (Hok : bytes_ok (mem_of s')).
  { apply Hbs. change (bytes_ok m3). unfold m3. apply bytes_ok_write; [apply bytes_ok_write; [apply bytes_ok_write; [done|apply le_bytes_range]|]|apply le_bytes_range].
    apply Forall_app. split; [|repeat constructor; lia]. destruct Hs1 as [_ Hs1]. eapply Forall_impl; [exact Hs1|]. cbn. lia. }
  assert (Hv : ∀ a, 0 ≤ view (mem_of s') a).
  { intros a. unfold view. destruct (mem_of s' !! a) as [b|] eqn:Eb; [|done]. cbn. apply Hok in Eb. lia. }
  assert (0 < view (mem_of s') (if_ + 68 + 2)).
  { unfold view. change (if_ + 68) with (if_ + o_eflags). rewrite Hc'. cbn. destruct Hs1 as [_ Hs1]. apply (Forall_lookup_1 _ _ _ _ Hs1) in Hc. lia. }
  pose proof (Hv (if_ + 68)). pose proof (Hv (if_ + 68 + 1)). pose proof (Hv (if_ + 68 + 3)). unfold ldl. change (Z.lor FLAG_IF FLAG_MBS) with 514. lia.
Qed.

(** ** process_execute *)

(** A block that is in no free page of the kernel's pool. *)
Definition in_use (s : pages) (p : Z) (n : nat) : Prop :=
  ∀ i, 0 ≤ i < bit_cnt (used_map (kernel_pool s)) → bit_at (used_map (kernel_pool s)) i = false →
    disjoint_blocks (Palloc.base (kernel_pool s) + 4096 * i) 4096 p n.

Lemma tokenizing_write m s d sv t ds q bs :
  tokenizing m s s d sv t ds → disjoint_blocks q (length bs) s (S (length t)) → disjoint_blocks q (length bs) d (S (length ds)) →
  tokenizing (write q bs m) s s d sv t ds.
Proof.
  intros [H1 H2 H3 H4 H5 H6 H7] D1 D2. unfold disjoint_blocks in *. split; try done; [| |by apply mapped_write|by left].
  all: apply cstr_write; [done|]; unfold disjoint_blocks; lia.
Qed.

(** process_execute gives the new thread a copy of the command, at most 4095 bytes of it, in a page that was free, and the first word
    as its name; without a free page it fails and changes nothing.  If there is a second word, the caller's own string ends behind the first one
    afterwards, although it is constant. *)
Theorem process_execute_copies s f pd file_name d sv t skip tok r thread_create :
  pages_ok (vm s) → tokenizing (mem_of s) file_name file_name d sv t [32] →
  t = skip ++ tok ++ r → Forall (.∈ [32]) skip → Forall (.∉ [32]) tok → tok ≠ [] → (∀ b r', r = b :: r' → b ∈ [32]) →
  in_use (vm s) file_name (S (length t)) → in_use (vm s) sv 4 → in_use (vm s) d 2 →
  let name := file_name + Z.of_nat (length skip) in
  full false (vm s) 1 ∧ process_execute d thread_create file_name sv (Process s f pd) = Ok (TID_ERROR, Process s f pd) ∨
  ∃ i s1, let p := Palloc.base (kernel_pool (vm s)) + 4096 * i in
    process_execute d thread_create file_name sv (Process s f pd) =
      (tid ← thread_create name PRI_DEFAULT p;
       (if decide (tid = TID_ERROR) then on_pages (palloc_free_page p) else mret tt);; mret tid) (Process s1 f pd) ∧
    bit_at (used_map (kernel_pool (vm s))) i = false ∧ bit_at (used_map (kernel_pool (vm s1))) i = true ∧
    cstr (mem_of s1) p (take 4095 t) ∧ cstr (mem_of s1) name tok ∧
    cstr (mem_of s1) file_name (skip ++ tok).
Proof.
  intros Hp Htk -> Hsk Htok Hne Hr U1 U2 U3 name. set (t := skip ++ tok ++ r) in *.
  pose proof (palloc_get_ok 0 1 (vm s) Hp ltac:(lia)) as Hg. change (wants 0 PAL_USER) with false in Hg. change (wants 0 PAL_ZERO) with false in Hg. change (wants 0 PAL_ASSERT) with false in Hg.
  cbn [pool_of set_pool] in Hg. unfold process_execute, palloc_get_page.
  destruct Hg as [(i & b & Hal & Eg)|[Hf Eg]]; [right|left; split; [done|]].
  2: { erewrite st_bind_ok by (unfold on_pages, on_cpu, on_vm; cbn [Process.cpu fsys pagedir]; rewrite Eg; reflexivity). rewrite decide_True by done. by destruct s as [[] ? ? ? ?]. }
  set (p := Palloc.base (kernel_pool (vm s)) + 4096 * i) in *. destruct Hal as (Hi & Hall & _ & Hb & Hcnt & Hbits). cbn [pool_of] in *.
  set (sa := with_vm (Pages (Pool b (Palloc.base (kernel_pool (vm s)))) (user_pool (vm s)) (Palloc.ram (vm s))) s).
  erewrite st_bind_ok by (unfold on_pages, on_cpu, on_vm; cbn [Process.cpu fsys pagedir]; rewrite Eg; reflexivity).
  assert (Hfree : bit_at (used_map (kernel_pool (vm s))) i = false) by (apply Hall; lia).
  destruct (pages_mapped _ _ i 1 (pk_kernel _ Hp)) as (Hm & Hz & Hb0 & Hb1); [lia|lia|lia|]. fold p in Hm. change (page_bytes 1) with 4096%nat in Hm.
  rewrite decide_False by (unfold NULL, p; lia).
  pose proof (U1 i ltac:(lia) Hfree) as D1. pose proof (U2 i ltac:(lia) Hfree) as D2. pose proof (U3 i ltac:(lia) Hfree) as D3. fold p in D1, D2, D3. set (m := mem_of s) in *.
  assert (E1 : strlcpy p file_name PGSIZE m = Ok (Z.of_nat (length t), write p (take 4095 t ++ [0]) m)) by (apply strlcpy_ok; [apply Htk|unfold PGSIZE; lia|exact Hm|exact D1]).
  erewrite st_bind_ok by (apply (on_mem_ok _ sa); exact E1). set (m1 := write p (take 4095 t ++ [0]) m).
  assert (Hl1 : (length (take 4095 t ++ [0%Z]) ≤ 4096)%nat) by (rewrite length_app, length_take; cbn [length]; lia).
  assert (Htk1 : tokenizing m1 file_name file_name d sv t [32]) by (apply tokenizing_write; [done|unfold disjoint_blocks in *; cbn [length]; lia..]).
  erewrite st_bind_ok by (apply on_mem_ok, storew_ok, Htk1). set (m2 := write sv (le_bytes 4 NULL) m1).
  assert (Htk2 : tokenizing m2 file_name file_name d sv t [32]) by (apply tokenizing_write; [done|rewrite length_le_bytes; apply Htk1..]).
  erewrite st_bind_ok by (apply on_mem_ok; exact (strtok_r_some m2 file_name file_name d sv [32] t skip tok r Htk2 eq_refl Hsk Htok Hne Hr)).
  set (e := file_name + Z.of_nat (length skip + length tok)) in *. fold (cut m2 sv e r). exists i. eexists. split; [reflexivity|]. split; [done|].
  split; [cbn; rewrite Hbits by lia; by rewrite decide_True by lia|].
  change (mem_of (with_mem (cut m2 sv e r) _)) with (cut m2 sv e r). pose proof (tk_sv_s _ _ _ _ _ _ _ Htk2) as Dv. pose proof (tk_str _ _ _ _ _ _ _ Htk2) as Hs2.
  split; [|split].
  - apply (cstr_agree m1).
    + split; [apply holds_write; destruct Hm; lia|]. apply Forall_take. apply Htk1.
    + rewrite length_take. intros a Ha. assert (Hte : (length skip + length tok ≤ length t)%nat) by (unfold t; rewrite !length_app; lia). unfold disjoint_blocks in *.
      rewrite cut_lookup by (unfold e in *; lia). unfold m2. rewrite lookup_write, length_le_bytes. by rewrite decide_False by lia.
  - by apply cut_token.
  - assert (H : cstr (cut m2 sv (file_name + Z.of_nat (0 + length (skip ++ tok))) r) (file_name + Z.of_nat 0) (skip ++ tok)).
    { apply (cut_token m2 file_name sv [] (skip ++ tok) r); cbn [app]; by rewrite <- app_assoc. }
    rewrite length_app in H. change (Z.of_nat 0) with 0 in H. rewrite Z.add_0_r in H. exact H.
Qed.
