(* ===== verification/Listing.v ===== *)
(** * examples/ls.c and examples/pwd.c

    The two programs that read directories, against an interface of the system calls
    they use.  The arrays that readdir fills have the sizes of the
    source: a name that does not fit is a fault. *)

From Stdlib Require Import String.
From S2P Require Import Prelude Bitmap Inode Memory CString CStdlib Stdio StdioSpec Ustar Examples.

Local Open Scope Z_scope.

(** ** System calls *)

Class DirSys (K : Type) := {
  ds_open : list Z → ST K Z;
  ds_close : Z → ST K ();
  ds_isdir : Z → ST K bool;
  ds_filesize : Z → ST K Z;
  ds_inumber : Z → ST K Z;
  ds_readdir : Z → ST K (option (list Z));     (** the name, if there is one *)
  ds_print : list Z → ST K ();
}.

Definition READDIR_MAX_LEN : Z := 14.

(** The text of %d. *)
Definition decimal (n : Z) : list Z := item_sign (Dec n) ++ item_body (Dec n).

Section programs.
Context {K : Type} `{DirSys K}.

(** readdir into an array of [room] bytes. *)
Definition readdir_into (fd room : Z) : ST K (option (list Z)) :=
  r ← ds_readdir fd;
  match r with
  | Some name => if decide (Z.of_nat (length name) + 1 ≤ room) then mret (Some name) else st_fail EFault
  | None => mret None
  end.

(** ** ls.c *)

(** What -l adds to an entry. *)
Definition list_entry (dir name : list Z) : ST K () :=
  let full_name := take 127 (dir ++ [47] ++ name) in
  entry_fd ← ds_open full_name;
  ds_print (str ": ");;
  (if decide (entry_fd ≠ -1) then
     d ← ds_isdir entry_fd;
     (if (d : bool) then ds_print (str "directory")
      else n ← ds_filesize entry_fd; ds_print (decimal n ++ str "-byte file"));;
     i ← ds_inumber entry_fd;
     ds_print (str ", inumber " ++ decimal i)
   else ds_print (str "open failed"));;
  ds_close entry_fd.

(** The loop over the entries; [fuel] bounds their number. *)
Fixpoint list_loop (fuel : nat) (dir : list Z) (verbose : bool) (dir_fd : Z) : ST K () :=
  match fuel with
  | O => st_fail EFuel
  | S fuel =>
      r ← readdir_into dir_fd READDIR_MAX_LEN;
      match r with
      | None => mret tt
      | Some name =>
          ds_print name;;
          (if verbose then list_entry dir name else mret tt);;
          ds_print [10];;
          list_loop fuel dir verbose dir_fd
      end
  end.

Definition list_dir (fuel : nat) (dir : list Z) (verbose : bool) : ST K bool :=
  dir_fd ← ds_open dir;
  if decide (dir_fd = -1) then ds_print (dir ++ str ": not found" ++ [10]);; mret false else
  d ← ds_isdir dir_fd;
  (if (d : bool) then
     ds_print dir;;
     (if verbose then i ← ds_inumber dir_fd; ds_print (str " (inumber " ++ decimal i ++ str ")") else mret tt);;
     ds_print (str ":" ++ [10]);;
     list_loop fuel dir verbose dir_fd
   else ds_print (dir ++ str ": not a directory" ++ [10]));;
  ds_close dir_fd;;
  mret true.

Fixpoint list_dirs (fuel : nat) (success verbose : bool) (dirs : list (list Z)) : ST K bool :=
  match dirs with
  | [] => mret success
  | dir :: dirs => ok ← list_dir fuel dir verbose; list_dirs fuel (if (ok : bool) then success else false) verbose dirs
  end.

(** [args] are argv[1] and the following ones. *)
Definition ls_main (fuel : nat) (args : list (list Z)) : ST K Z :=
  let verbose := bool_decide (head args = Some (str "-l")) in
  let args := if verbose then tail args else args in
  success ← (if decide (args = []) then list_dir fuel (str ".") verbose else list_dirs fuel true verbose args);
  mret (if (success : bool) then EXIT_SUCCESS else EXIT_FAILURE).

(** ** pwd.c *)

Definition get_inumber (file_name : list Z) : ST K (option Z) :=
  fd ← ds_open file_name;
  if decide (0 ≤ fd) then inum ← ds_inumber fd; ds_close fd;; mret (Some inum) else mret None.

(** The bytes at the end of the array, of which [dst] are in use. *)
Definition prepend (prefix dst : list Z) (dst_size : Z) : option (list Z) :=
  if decide (Z.of_nat (length prefix) + Z.of_nat (length dst) + 1 ≤ dst_size) then Some (prefix ++ dst) else None.

Definition MAX_LEVEL : Z := 20.
Definition NAME_SIZE : Z := MAX_LEVEL * 3 + 1 + READDIR_MAX_LEN + 1.

(** The search for the child; [pre] is the content of the array name up to namep. *)
Fixpoint find_child (fuel : nat) (parent_fd : Z) (pre : list Z) (child_inum : Z) : ST K (option (list Z)) :=
  match fuel with
  | O => st_fail EFuel
  | S fuel =>
      r ← readdir_into parent_fd (NAME_SIZE - Z.of_nat (length pre));
      match r with
      | None => mret None
      | Some name =>
          i ← get_inumber (pre ++ name);
          match i with
          | None => mret None
          | Some test_inum => if decide (test_inum = child_inum) then mret (Some name) else find_child fuel parent_fd pre child_inum
          end
      end
  end.

(** The climb to the root.  The array bounds the number of its turns. *)
Fixpoint climb (turns fuel : nat) (pre : list Z) (child_inum : Z) (cwd : list Z) (cwd_size : Z) : ST K (option (list Z)) :=
  match turns with
  | O => st_fail EFuel
  | S turns =>
      if decide (MAX_LEVEL * 3 < Z.of_nat (length pre)) then mret None else
      let name := pre ++ [46; 46] in
      parent_fd ← ds_open name;
      if decide (parent_fd < 0) then mret None else
      let pre := name ++ [47] in
      parent_inum ← ds_inumber parent_fd;
      if decide (parent_inum = child_inum) then mret (Some cwd) else
      r ← find_child fuel parent_fd pre child_inum;
      ds_close parent_fd;;
      match r with
      | None => mret None
      | Some name =>
          match prepend (47 :: name) cwd cwd_size with
          | None => mret None
          | Some cwd => climb turns fuel pre parent_inum cwd cwd_size
          end
      end
  end.

Definition getcwd (fuel : nat) (cwd_size : Z) : ST K (option (list Z)) :=
  if decide (cwd_size < 2) then mret None else
  c ← get_inumber (str ".");
  match c with
  | None => mret None
  | Some child_inum =>
      r ← climb 22 fuel [] child_inum [] cwd_size;
      mret (cwd ← r; Some (if decide (cwd = []) then [47] else cwd))
  end.

Definition pwd_main (fuel : nat) : ST K Z :=
  r ← getcwd fuel 128;
  match r with
  | Some cwd => ds_print (cwd ++ [10]);; mret EXIT_SUCCESS
  | None => ds_print (str "error" ++ [10]);; mret EXIT_FAILURE
  end.
End programs.

(** * Theorems

    Proved for every kernel that satisfies [DirLaws]: what is opened is what the name resolves to,
    readdir gives the entries of a directory in order, and an inumber identifies a file or directory. *)

(** ** The promises of the system calls *)

(** What programs see: the inumbers that names resolve to, the directories with their entries, the handles with
    the inumber and the position of readdir, and the console. *)
Record dview := DView {
  resolve : list Z → option Z;
  entries : Z → option (list (list Z));
  opened : gmap Z (Z * nat);
  console : list Z;
}.

Definition with_opened (o : gmap Z (Z * nat)) (v : dview) : dview := DView (resolve v) (entries v) o (console v).
Definition with_out (t : list Z) (v : dview) : dview := DView (resolve v) (entries v) (opened v) (console v ++ t).

Class DirLaws (K : Type) `{DirSys K} := {
  dsees : K → dview → Prop;
  dopen_ok k v name : dsees k v →
    match resolve v name with
    | Some i => ∃ fd k', ds_open name k = Ok (fd, k') ∧ 0 ≤ fd ∧ opened v !! fd = None ∧ dsees k' (with_opened (<[fd := (i, 0%nat)]> (opened v)) v)
    | None => ∃ k', ds_open name k = Ok (-1, k') ∧ dsees k' v
    end;
  dclose_ok k v fd : dsees k v → ∃ k', ds_close fd k = Ok ((), k') ∧ dsees k' (with_opened (delete fd (opened v)) v);
  disdir_ok k v fd i p : dsees k v → opened v !! fd = Some (i, p) → ∃ k', ds_isdir fd k = Ok (bool_decide (is_Some (entries v i)), k') ∧ dsees k' v;
  dinumber_ok k v fd i p : dsees k v → opened v !! fd = Some (i, p) → ∃ k', ds_inumber fd k = Ok (i, k') ∧ dsees k' v;
  dreaddir_ok k v fd i p es : dsees k v → opened v !! fd = Some (i, p) → entries v i = Some es →
    ∃ k', ds_readdir fd k = Ok (es !! p, k') ∧ dsees k' (with_opened (<[fd := (i, if decide (p < length es)%nat then S p else p)]> (opened v)) v);
  dprint_ok k v t : dsees k v → ∃ k', ds_print t k = Ok ((), k') ∧ dsees k' (with_out t v);
}.

(** An instance: a kernel whose state is what programs see of it. *)
Definition fresh_handle (v : dview) : Z := 2 + Z.of_nat (fresh (set_map (D := gset nat) (λ fd, Z.to_nat (fd - 2)) (dom (opened v)))).

#[export] Instance model_dirs : DirSys dview := {
  ds_open name v := match resolve v name with Some i => Ok (fresh_handle v, with_opened (<[fresh_handle v := (i, 0%nat)]> (opened v)) v) | None => Ok (-1, v) end;
  ds_close fd v := Ok ((), with_opened (delete fd (opened v)) v);
  ds_isdir fd v := Ok (match opened v !! fd with Some (i, _) => bool_decide (is_Some (entries v i)) | None => false end, v);
  ds_filesize fd v := Ok (0, v);
  ds_inumber fd v := Ok (match opened v !! fd with Some (i, _) => i | None => -1 end, v);
  ds_readdir fd v :=
    match opened v !! fd with
    | Some (i, p) => let es := default [] (entries v i) in
        Ok (es !! p, with_opened (<[fd := (i, if decide (p < length es)%nat then S p else p)]> (opened v)) v)
    | None => Ok (None, v)
    end;
  ds_print t v := Ok ((), with_out t v);
}.

#[export] Program Instance model_dir_laws : DirLaws dview := {| dsees k v := k = v |}.
Next Obligation.
  intros k v name ->. cbn. destruct (resolve v name) as [i|]; [|by eexists]. eexists _, _. split; [done|]. split; [unfold fresh_handle; lia|]. split; [|done].
  apply not_elem_of_dom. intros Hin. apply (is_fresh (set_map (D := gset nat) (λ fd, Z.to_nat (fd - 2)) (dom (opened v)))). apply elem_of_map. eexists. split; [|exact Hin]. unfold fresh_handle. lia.
Qed.
Next Obligation. intros k v fd ->. by eexists. Qed.
Next Obligation. intros k v fd i p -> E. cbn. rewrite E. by eexists. Qed.
Next Obligation. intros k v fd i p -> E. cbn. rewrite E. by eexists. Qed.
Next Obligation. intros k v fd i p es -> E1 E2. cbn. rewrite E1, E2. by eexists. Qed.
Next Obligation. intros k v t ->. by eexists. Qed.

Section laws.
Context {K : Type} `{DirLaws K}.

Lemma after_print {A} t k v (c : ST K A) (P : res (A * K) → Prop) : dsees k v → (∀ k', dsees k' (with_out t v) → P (c k')) → P ((ds_print t;; c) k).
Proof using Type*. intros Hk Hc. destruct (dprint_ok k v t Hk) as (k' & E & H'). rewrite (st_bind_ok _ _ _ _ _ E). by apply Hc. Qed.

(** ** ls *)

(** The lines of a listing. *)
Definition listing (es : list (list Z)) : list Z := concat ((λ e, e ++ [10]) <$> es).

Lemma list_loop_ok es dir fd i : ∀ n k v p, dsees k v → opened v !! fd = Some (i, p) → entries v i = Some es → (p ≤ length es)%nat → (length es - p < n)%nat →
  Forall (λ e, Z.of_nat (length e) < READDIR_MAX_LEN) es →
  ∃ k', list_loop n dir false fd k = Ok ((), k') ∧ dsees k' (with_out (listing (drop p es)) (with_opened (<[fd := (i, length es)]> (opened v)) v)).
Proof using Type*.
  induction n as [|n IH]; intros k v p Hk Hfd He Hp Hn Hl; [lia|]. cbn [list_loop]. unfold readdir_into. rewrite <- st_bind_assoc.
  destruct (dreaddir_ok k v fd i p es Hk Hfd He) as (k1 & E1 & H1). erewrite st_bind_ok by exact E1. destruct (decide (p < length es)%nat) as [Hlt|Hge].
  - destruct (lookup_lt_is_Some_2 es p Hlt) as [e Ee]. rewrite Ee. pose proof (Forall_lookup_1 _ _ _ _ Hl Ee) as Hle. cbn beta in Hle. rewrite decide_True by lia.
    erewrite st_bind_ok by reflexivity. eapply after_print; [exact H1|]. intros k2 H2. erewrite st_bind_ok by reflexivity. eapply after_print; [exact H2|]. intros k3 H3.
    destruct (IH k3 _ (S p) H3) as (k4 & E4 & H4); [cbn; by rewrite lookup_insert_eq|done|lia|lia|done|]. exists k4. split; [exact E4|].
    unfold with_out, with_opened in *. cbn [resolve entries opened console] in *. rewrite insert_insert_eq in H4. rewrite <- !app_assoc in H4.
    rewrite (drop_S es e p Ee). unfold listing in *. cbn [fmap list_fmap concat]. by rewrite <- !app_assoc.
  - rewrite lookup_ge_None_2 by lia. erewrite st_bind_ok by reflexivity. exists k1. split; [done|]. rewrite drop_ge by lia. assert (p = length es) as -> by lia.
    unfold with_out, with_opened, listing in *. cbn in *. by rewrite app_nil_r.
Qed.

(** ls of a directory with names of at most 13 characters prints the name of the directory, a colon and the entries, one on each line and in
    order, and leaves no file open.  Other names are reported, and the program fails for those that do not exist. *)
Theorem list_dir_lists n k v dir :
  dsees k v →
  (∀ i es, resolve v dir = Some i → entries v i = Some es → (length es < n)%nat ∧ Forall (λ e, Z.of_nat (length e) < READDIR_MAX_LEN) es) →
  ∃ k', let r := i ← resolve v dir; Some (entries v i) in
    list_dir n dir false k = Ok (bool_decide (is_Some r), k') ∧
    dsees k' (with_out match r with
      | None => dir ++ str ": not found" ++ [10]
      | Some None => dir ++ str ": not a directory" ++ [10]
      | Some (Some es) => dir ++ str ":" ++ [10] ++ listing es end v).
Proof using Type*.
  intros Hk Hn. unfold list_dir. pose proof (dopen_ok k v dir Hk) as Ho. destruct (resolve v dir) as [i|] eqn:Er.
  2: { destruct Ho as (k1 & E1 & H1). erewrite st_bind_ok by exact E1. rewrite decide_True by done. eapply after_print; [exact H1|]. intros k2 H2. by exists k2. }
  destruct Ho as (fd & k1 & E1 & Hfd & Hnew & H1). erewrite st_bind_ok by exact E1. rewrite decide_False by lia. set (v1 := with_opened _ v) in H1.
  assert (Hf : opened v1 !! fd = Some (i, 0%nat)) by (cbn; by rewrite lookup_insert_eq).
  destruct (disdir_ok k1 v1 fd i 0 H1 Hf) as (k2 & E2 & H2). erewrite st_bind_ok by exact E2. change (entries v1 i) with (entries v i). cbn [mbind option_bind].
  assert (Hclose : ∀ k3 t o, dsees k3 (with_out t (with_opened o v)) → delete fd o = opened v → ∃ k', (ds_close fd;; mret true) k3 = Ok (true, k') ∧ dsees k' (with_out t v)).
  { intros k3 t o H3 Hd. destruct (dclose_ok k3 _ fd H3) as (k4 & E4 & H4). erewrite st_bind_ok by exact E4. exists k4. split; [done|]. unfold with_out, with_opened in *. cbn in H4. by rewrite Hd in H4. }
  destruct (entries v i) as [es|] eqn:Ee; cbn [is_Some]; rewrite ?bool_decide_true by (by eexists).
  - destruct (Hn i es eq_refl Ee) as [Hlen Hl]. rewrite <- !st_bind_assoc. eapply after_print; [exact H2|]. intros k3 H3. rewrite <- !st_bind_assoc. erewrite st_bind_ok by reflexivity.
    rewrite <- !st_bind_assoc. eapply after_print; [exact H3|]. intros k4 H4.
    destruct (list_loop_ok es dir fd i n k4 _ 0%nat H4) as (k5 & E5 & H5); [exact Hf|exact Ee|lia|lia|done|]. erewrite st_bind_ok by exact E5.
    apply (Hclose k5 _ (<[fd := (i, length es)]> (opened v))).
    + unfold with_out, with_opened in *. cbn in H5 |- *. rewrite insert_insert_eq in H5. rewrite drop_0, <- !app_assoc in H5. exact H5.
    + by rewrite delete_insert_eq, delete_id.
  - rewrite bool_decide_false by (by intros []). eapply after_print; [exact H2|]. intros k3 H3.
    apply (Hclose k3 _ (<[fd := (i, 0%nat)]> (opened v))); [exact H3|by rewrite delete_insert_eq, delete_id].
Qed.

(** The array of ls has no room for the end of a name of 14 characters, the longest there is. *)
Theorem ls_name_overflows n k v dir i e es :
  dsees k v → resolve v dir = Some i → entries v i = Some (e :: es) → Z.of_nat (length e) = READDIR_MAX_LEN → list_dir (S n) dir false k = Err EFault.
Proof using Type*.
  intros Hk Hr He Hl. unfold list_dir. pose proof (dopen_ok k v dir Hk) as Ho. rewrite Hr in Ho. destruct Ho as (fd & k1 & E1 & Hfd & Hnew & H1).
  erewrite st_bind_ok by exact E1. rewrite decide_False by lia. destruct (disdir_ok k1 _ fd i 0 H1) as (k2 & E2 & H2); [cbn; by rewrite lookup_insert_eq|]. erewrite st_bind_ok by exact E2.
  change (entries (with_opened _ v) i) with (entries v i). rewrite He, bool_decide_true by (by eexists). apply st_bind_err. eapply after_print; [exact H2|]. intros k3 H3. erewrite st_bind_ok by reflexivity.
  eapply after_print; [exact H3|]. intros k4 H4. cbn [list_loop]. apply st_bind_err. unfold readdir_into.
  destruct (dreaddir_ok k4 _ fd i 0 (e :: es) H4) as (k5 & E5 & _); [cbn; by rewrite lookup_insert_eq|exact He|]. erewrite st_bind_ok by exact E5. cbn [lookup list_lookup]. by rewrite decide_False by lia.
Qed.

(** ** pwd *)

(** "../" [n] times. *)
Definition ups (n : nat) : list Z := concat (replicate n [46; 46; 47]).

Lemma ups_S n : ups (S n) = ups n ++ [46; 46; 47].
Proof. unfold ups. by rewrite replicate_S_end, concat_app. Qed.
Lemma ups_length n : length (ups n) = (3 * n)%nat.
Proof. unfold ups. induction n as [|n IH]; [done|]. cbn [replicate concat]. rewrite length_app, IH. cbn. lia. Qed.

(** The way from the current directory to the root: the inumber of the directory that is reached with [n] times "..", and for each
    directory below the root its name, its parent's inumber and the entries of the parent that
    are before it. *)
Fixpoint way_up (v : dview) (n : nat) (child : Z) (names : list (list Z)) (inos : list Z) : Prop :=
  match names, inos with
  | [], [] => resolve v (ups n ++ [46; 46]) = Some child
  | name :: names, parent :: inos =>
      resolve v (ups n ++ [46; 46]) = Some parent ∧ parent ≠ child ∧
      (∃ before after, entries v parent = Some (before ++ name :: after) ∧
        Forall (λ e, ∃ i, resolve v (ups (S n) ++ e) = Some i ∧ i ≠ child) before) ∧
      resolve v (ups (S n) ++ name) = Some child ∧ way_up v (S n) parent names inos
  | _, _ => False
  end.

(** All entries of the parents have at most 14 characters, and there are less than [m] in each. *)
Definition short_entries (v : dview) (m : nat) (inos : list Z) : Prop :=
  Forall (λ i, ∀ es, entries v i = Some es → (length es < m)%nat ∧ Forall (λ e, Z.of_nat (length e) ≤ READDIR_MAX_LEN) es) inos.

Definition path_of (names : list (list Z)) : list Z := concat ((λ n, 47 :: n) <$> reverse names).

Lemma path_of_cons name names : path_of (name :: names) = path_of names ++ 47 :: name.
Proof. unfold path_of. rewrite reverse_cons, fmap_app, concat_app. cbn. by rewrite app_nil_r. Qed.

(** A name that exists: its handle is closed again. *)
Lemma get_inumber_ok k v name i : dsees k v → resolve v name = Some i → ∃ k', get_inumber name k = Ok (Some i, k') ∧ dsees k' v.
Proof using Type*.
  intros Hk Hr. unfold get_inumber. pose proof (dopen_ok k v name Hk) as Ho. rewrite Hr in Ho. destruct Ho as (fd & k1 & E1 & Hfd & Hnew & H1).
  erewrite st_bind_ok by exact E1. rewrite decide_True by done. destruct (dinumber_ok k1 _ fd i 0 H1) as (k2 & E2 & H2); [cbn; by rewrite lookup_insert_eq|].
  erewrite st_bind_ok by exact E2. destruct (dclose_ok k2 _ fd H2) as (k3 & E3 & H3). erewrite st_bind_ok by exact E3. exists k3. split; [done|].
  unfold with_opened in *. cbn in H3. rewrite delete_insert_eq, delete_id in H3 by done. by destruct v.
Qed.

Lemma find_child_ok fd i child pre name after before : ∀ n k v done, dsees k v → opened v !! fd = Some (i, length done) → entries v i = Some (done ++ before ++ name :: after) →
  (length before < n)%nat → Forall (λ e, ∃ i, resolve v (pre ++ e) = Some i ∧ i ≠ child) before → resolve v (pre ++ name) = Some child →
  Forall (λ e, Z.of_nat (length e) + 1 ≤ NAME_SIZE - Z.of_nat (length pre)) (before ++ [name]) →
  ∃ k' o, find_child n fd pre child k = Ok (Some name, k') ∧ dsees k' (with_opened o v) ∧ delete fd o = delete fd (opened v).
Proof using Type*.
  induction before as [|e before IH]; intros n k v dn Hk Hfd He Hn Hb Hr Hl; (destruct n as [|n]; [cbn in Hn; lia|]); cbn [find_child app] in *; unfold readdir_into; rewrite <- st_bind_assoc;
    destruct (dreaddir_ok k v fd i _ _ Hk Hfd He) as (k1 & E1 & H1); erewrite st_bind_ok by exact E1; rewrite list_lookup_middle by done; rewrite (decide_True (P := _ < _)%nat) in H1 by (rewrite length_app; cbn; lia);
    inversion Hl as [|? ? Hle Hl']; subst; rewrite decide_True by done; erewrite st_bind_ok by reflexivity.
  - destruct (get_inumber_ok k1 _ (pre ++ name) child H1 Hr) as (k2 & E2 & H2). erewrite st_bind_ok by exact E2. cbn beta iota. rewrite decide_True by done. eexists k2, _. split; [done|]. split; [exact H2|].
    by rewrite delete_insert_eq.
  - inversion Hb as [|? ? (j & Hj & Hne) Hb']; subst. destruct (get_inumber_ok k1 _ (pre ++ e) j H1 Hj) as (k2 & E2 & H2). erewrite st_bind_ok by exact E2. cbn beta iota. rewrite decide_False by done.
    destruct (IH n k2 _ (dn ++ [e]) H2) as (k3 & o & E3 & H3 & Ho); [..|done|done|done|].
    + cbn. rewrite lookup_insert_eq, length_app. do 2 f_equal. cbn. lia.
    + cbn. rewrite <- app_assoc. done.
    + cbn in Hn. lia.
    + exists k3, o. split; [exact E3|]. split; [exact H3|]. cbn in Ho. by rewrite Ho, delete_insert_eq.
Qed.

(** One turn of the climb below the root. *)
Lemma climb_turn turns fuel n k v child name parent before after cwd size :
  dsees k v → (n < 20)%nat → resolve v (ups n ++ [46; 46]) = Some parent → parent ≠ child →
  entries v parent = Some (before ++ name :: after) → Forall (λ e, ∃ i, resolve v (ups (S n) ++ e) = Some i ∧ i ≠ child) before → resolve v (ups (S n) ++ name) = Some child →
  short_entries v fuel [parent] → Z.of_nat (length (47 :: name ++ cwd)) + 1 ≤ size →
  ∃ k', climb (S turns) fuel (ups n) child cwd size k = climb turns fuel (ups (S n)) parent (47 :: name ++ cwd) size k' ∧ dsees k' v.
Proof using Type*.
  intros Hk Hn Hp Hne He Hb Hr Hsh Hsz. cbn [climb]. rewrite decide_False by (rewrite ups_length; unfold MAX_LEVEL; lia).
  pose proof (dopen_ok k v (ups n ++ [46; 46]) Hk) as Ho. rewrite Hp in Ho. destruct Ho as (fd & k1 & E1 & Hfd & Hnew & H1). erewrite st_bind_ok by exact E1. rewrite decide_False by lia.
  set (v1 := with_opened _ v) in H1. assert (Hf : opened v1 !! fd = Some (parent, 0%nat)) by (cbn; by rewrite lookup_insert_eq).
  destruct (dinumber_ok k1 v1 fd parent 0 H1 Hf) as (k2 & E2 & H2). erewrite st_bind_ok by exact E2. rewrite decide_False by done.
  assert (Eu : (ups n ++ [46; 46]) ++ [47] = ups (S n)) by (by rewrite ups_S, <- app_assoc). rewrite Eu.
  unfold short_entries in Hsh. rewrite Forall_singleton in Hsh. destruct (Hsh _ He) as [Hlen Hle]. rewrite length_app in Hlen. cbn [length] in Hlen.
  destruct (find_child_ok fd parent child (ups (S n)) name after before fuel k2 v1 [] H2 Hf He) as (k3 & o & E3 & H3 & Hd); [lia|exact Hb|exact Hr| |].
  { apply (Forall_impl (λ e, Z.of_nat (length e) ≤ READDIR_MAX_LEN)); [|intros e He'; rewrite ups_length; unfold NAME_SIZE, MAX_LEVEL, READDIR_MAX_LEN in *; lia].
    change (name :: after) with ([name] ++ after) in Hle. rewrite app_assoc in Hle. by apply Forall_app in Hle as [Hle _]. }
  erewrite st_bind_ok by exact E3. destruct (dclose_ok k3 _ fd H3) as (k4 & E4 & H4). erewrite st_bind_ok by exact E4. cbn beta iota.
  exists k4. split.
  - unfold prepend. rewrite decide_True; [done|]. cbn [length app] in *. rewrite length_app in Hsz. lia.
  - unfold with_opened in *. cbn in H4, Hd. rewrite Hd, delete_insert_eq, delete_id in H4 by done. by destruct v.
Qed.

Lemma climb_ok names : ∀ turns fuel n k v child inos cwd size, dsees k v → way_up v n child names inos → short_entries v fuel inos → (n + length names ≤ 20)%nat → (length names < turns)%nat →
  Z.of_nat (length (path_of names ++ cwd)) + 1 ≤ size →
  ∃ k' o, climb turns fuel (ups n) child cwd size k = Ok (Some (path_of names ++ cwd), k') ∧ dsees k' (with_opened o v).
Proof using Type*.
  induction names as [|name names IH]; intros turns fuel n k v child inos cwd size Hk Hw Hsh Hn Ht Hsz; destruct inos as [|parent inos]; try done; (destruct turns as [|turns]; [lia|]).
  - cbn [climb way_up] in *. rewrite decide_False by (rewrite ups_length; cbn in Hn; unfold MAX_LEVEL; lia).
    pose proof (dopen_ok k v (ups n ++ [46; 46]) Hk) as Ho. rewrite Hw in Ho. destruct Ho as (fd & k1 & E1 & Hfd & Hnew & H1). erewrite st_bind_ok by exact E1. rewrite decide_False by lia.
    destruct (dinumber_ok k1 _ fd child 0 H1) as (k2 & E2 & H2); [cbn; by rewrite lookup_insert_eq|]. erewrite st_bind_ok by exact E2. rewrite decide_True by done. eexists k2, _. split; [done|exact H2].
  - cbn [way_up] in Hw. destruct Hw as (Hp & Hne & (before & after & He & Hb) & Hr & Hw). inversion Hsh as [|? ? Hs1 Hs2]; subst. cbn [length] in Hn, Ht.
    rewrite path_of_cons, <- app_assoc in Hsz |- *. cbn [app] in *.
    destruct (climb_turn turns fuel n k v child name parent before after cwd size Hk) as (k1 & -> & H1); try done; [lia|by constructor|rewrite length_app in Hsz; lia|].
    apply (IH turns fuel (S n) k1 v parent inos (47 :: name ++ cwd) size); [done|done|done|lia|lia|done].
Qed.

(** getcwd finds the name of the current directory: in a tree of directories with distinct inumbers, not more than
    20 levels below the root and with names of at most 14 characters, it is the path from the root to the current directory, if that fits in
    the array, and "/" in the root. *)
Theorem getcwd_names_directory fuel size k v child names inos :
  dsees k v → resolve v (str ".") = Some child → way_up v 0 child names inos → short_entries v fuel inos → (length names ≤ 20)%nat → 2 ≤ size →
  Z.of_nat (length (path_of names)) + 1 ≤ size →
  ∃ k' o, getcwd fuel size k = Ok (Some (if decide (names = []) then [47] else path_of names), k') ∧ dsees k' (with_opened o v).
Proof using Type*.
  intros Hk Hc Hw Hsh Hn H2 Hsz. unfold getcwd. rewrite decide_False by lia. destruct (get_inumber_ok k v _ child Hk Hc) as (k1 & E1 & H1). erewrite st_bind_ok by exact E1. cbn beta iota.
  destruct (climb_ok names 22 fuel 0 k1 v child inos [] size H1 Hw Hsh) as (k2 & o & E2 & H3); [lia|lia|by rewrite app_nil_r|]. rewrite app_nil_r in E2. change (ups 0) with (@nil Z) in E2.
  erewrite st_bind_ok by exact E2. exists k2, o. split; [|done]. cbn. do 3 f_equal. destruct names as [|name names]; [done|]. rewrite !decide_False; [done|done|]. rewrite path_of_cons. by destruct (path_of names).
Qed.

Lemma climb_overflows names : ∀ turns fuel n k v child inos cwd size p e es, dsees k v → way_up v n child names inos → short_entries v fuel inos → (n ≤ 20 < n + length names)%nat →
  (20 - n < turns)%nat → Z.of_nat (length (path_of (take (20 - n) names) ++ cwd)) + 1 ≤ size →
  inos !! (20 - n)%nat = Some p → entries v p = Some (e :: es) → 13 ≤ Z.of_nat (length e) →
  climb turns fuel (ups n) child cwd size k = Err EFault.
Proof using Type*.
  induction names as [|name names IH]; intros turns fuel n k v child inos cwd size p e es Hk Hw Hsh Hn Ht Hsz Hp Hes He; [cbn in Hn; lia|]. destruct inos as [|parent inos]; [done|]. destruct turns as [|turns]; [lia|].
  cbn [way_up] in Hw. destruct Hw as (Hpa & Hne & (before & after & Hent & Hb) & Hr & Hw). inversion Hsh as [|? ? Hs1 Hs2]; subst. cbn [length] in Hn. destruct (decide (n = 20%nat)) as [->|Hlt].
  - injection Hp as ->. cbn [climb]. rewrite decide_False by (rewrite ups_length; unfold MAX_LEVEL; lia).
    pose proof (dopen_ok k v (ups 20 ++ [46; 46]) Hk) as Ho. rewrite Hpa in Ho. destruct Ho as (fd & k1 & E1 & Hfd & Hnew & H1). erewrite st_bind_ok by exact E1. rewrite decide_False by lia.
    destruct (dinumber_ok k1 _ fd p 0 H1) as (k2 & E2 & H2); [cbn; by rewrite lookup_insert_eq|]. erewrite st_bind_ok by exact E2. rewrite decide_False by done.
    destruct (dreaddir_ok k2 _ fd p 0 (e :: es) H2) as (k3 & E3 & _); [cbn; by rewrite lookup_insert_eq|exact Hes|]. destruct (Hs1 _ Hes) as [Hlen _].
    destruct fuel as [|fuel]; [cbn in Hlen; lia|]. apply st_bind_err. cbn [find_child]. apply st_bind_err. unfold readdir_into. erewrite st_bind_ok by exact E3. cbn [lookup list_lookup].
    rewrite decide_False; [done|]. rewrite !length_app, ups_length. unfold NAME_SIZE, MAX_LEVEL, READDIR_MAX_LEN. cbn [length]. lia.
  - replace (20 - n)%nat with (S (20 - S n)) in Hsz, Hp by lia. cbn [take lookup list_lookup] in Hsz, Hp. rewrite path_of_cons, <- app_assoc in Hsz. cbn [app] in Hsz.
    destruct (climb_turn turns fuel n k v child name parent before after cwd size Hk) as (k1 & -> & H1); try done; [lia|by constructor|rewrite length_app in Hsz; lia|].
    eapply (IH turns fuel (S n) k1 v parent inos); try done; lia.
Qed.

(** The array for the names of ancestors is too short: from 21 levels below the root on, where getcwd should fail, the name
    of an entry of the 21st ancestor with 13 or 14 characters is stored behind the array. *)
Theorem deep_directory_overflows fuel size k v child names inos p e es :
  dsees k v → resolve v (str ".") = Some child → way_up v 0 child names inos → short_entries v fuel inos → (20 < length names)%nat →
  2 ≤ size → Z.of_nat (length (path_of (take 20 names))) + 1 ≤ size → inos !! 20%nat = Some p → entries v p = Some (e :: es) → 13 ≤ Z.of_nat (length e) →
  getcwd fuel size k = Err EFault.
Proof using Type*.
  intros Hk Hc Hw Hsh Hn H2 Hsz Hp Hes He. unfold getcwd. rewrite decide_False by lia. destruct (get_inumber_ok k v _ child Hk Hc) as (k1 & E1 & H1). erewrite st_bind_ok by exact E1. cbn beta iota.
  apply st_bind_err. change (@nil Z) with (ups 0) at 1. eapply (climb_overflows names 22 fuel 0); try done; [lia|lia|by rewrite app_nil_r].
Qed.
End laws.

(** The root directory and one below it, with the entries "." and "x" of the root. *)
Definition demo_dirs : dview :=
  DView (λ t, if decide (t = [46]) then Some 7 else if decide (t = [46; 46] ∨ t = [46; 46; 47; 46] ∨ t = [46; 46; 47; 46; 46]) then Some 1 else if decide (t = [46; 46; 47; 120]) then Some 7 else None)
    (λ i, if decide (i = 1) then Some [[46]; [120]] else if decide (i = 7) then Some [] else None) ∅ [].

Lemma getcwd_names_directory_witness : ∃ k o, getcwd 3 128 demo_dirs = Ok (Some (str "/x"), k) ∧ k = with_opened o demo_dirs.
Proof.
  destruct (getcwd_names_directory 3 128 demo_dirs demo_dirs 7 [[120]] [1]) as (k & o & E & Hk); [done|done| | |cbn; lia|lia|cbn; lia|exists k, o; split; [exact E|exact Hk]].
  - split; [done|]. split; [done|]. split; [|done]. exists [[46]], []. split; [done|]. constructor; [|done]. by exists 1.
  - constructor; [|done]. intros es [= <-]. split; [cbn; lia|]. repeat constructor; cbn; unfold READDIR_MAX_LEN; lia.
Defined.
