(* ===== verification/Debug.v ===== *)
(** * lib/debug.c and lib/kernel/debug.c: backtraces

    The text of a backtrace, on the memory of the processor model: frame pointers are chained
    through the first words of the frames, with the return addresses in the second words. *)

From Stdlib Require Import String.
From S2P Require Import Prelude Bitmap Vaddr Memory CString CStdlib Stdio StdioSpec Ustar Thread X86 Switch.

Local Open Scope Z_scope.

(** The text of %p. *)
Definition pointer_text (v : Z) : list Z := (if decide (v = 0) then [] else [48; 120]) ++ numeral base_x v.

(** The loop over the frames: the return addresses that it prints. *)
Fixpoint walk (fuel : nat) (m : Z → Z) (frame : Z) : res (list Z) :=
  if decide (4096 ≤ frame ∧ ldl m frame ≠ NULL) then
    match fuel with
    | O => Err EFuel
    | S fuel => match walk fuel m (ldl m frame) with Ok rest => Ok (ldl m (frame + 4) :: rest) | Err e => Err e end
    end
  else Ok [].

Definition addresses_text (l : list Z) : list Z := concat ((λ a, 32 :: pointer_text a) <$> l) ++ str "." ++ [10].

Definition explanation : list Z :=
  str "The `backtrace' program can make call stacks useful." ++ [10] ++
  str "Read " ++ [34] ++ str "Backtraces" ++ [34] ++ str " in the " ++ [34] ++ str "Debugging Tools" ++ [34] ++ str " chapter" ++ [10] ++
  str "of the Pintos documentation for more information." ++ [10].

(** [retaddr] and [frame] are the return address and the caller's frame; the flag is
    the static variable. *)
Definition debug_backtrace (fuel : nat) (m : Z → Z) (retaddr frame : Z) (explained : bool) : res (list Z * bool) :=
  match walk fuel m frame with
  | Ok l => Ok (str "Call stack:" ++ addresses_text (retaddr :: l) ++ (if explained then [] else explanation), true)
  | Err e => Err e
  end.

Definition status_text (s : thread_status) : list Z :=
  match s with THREAD_RUNNING => str "RUNNING" | THREAD_READY => str "READY" | THREAD_BLOCKED => str "BLOCKED" | THREAD_DYING => str "UNKNOWN" end.

(** [entry] is the address of switch_entry; [retaddr] and [frame] are those of
    the running thread. *)
Definition print_stacktrace (fuel : nat) (m : Z → Z) (entry current retaddr frame t : Z) (name : list Z) (status : thread_status) : res (list Z) :=
  let head := str "Call stack of thread `" ++ name ++ str "' (status " ++ status_text status ++ str "):" in
  let trace retaddr frame := match walk fuel m frame with Ok l => Ok (head ++ addresses_text (retaddr :: l)) | Err e => Err e end in
  if decide (t = current) then trace retaddr frame
  else
    let stack := ldl m (t + thread_stack_ofs) in
    if decide (stack = t + PGSIZE ∨ ldl m (stack + 16) = entry) then Ok (head ++ str " thread was never scheduled." ++ [10])
    else trace (ldl m (stack + 16)) (ldl m (stack + 8)).

(** [ts] are the threads in the order of thread_foreach. *)
Fixpoint debug_backtrace_all (fuel : nat) (m : Z → Z) (entry current retaddr frame : Z) (ts : list (Z * list Z * thread_status)) : res (list Z) :=
  match ts with
  | [] => Ok []
  | (t, name, status) :: ts =>
      match print_stacktrace fuel m entry current retaddr frame t name status with
      | Ok text => match debug_backtrace_all fuel m entry current retaddr frame ts with Ok rest => Ok (text ++ rest) | Err e => Err e end
      | Err e => Err e
      end
  end.

(** ** Theorems *)

(** The frames of nested calls from [frame] outwards, with the addresses they return to; the outermost frame has no
    caller. *)
Fixpoint frames (m : Z → Z) (frame : Z) (rets : list Z) : Prop :=
  4096 ≤ frame ∧
  match rets with
  | [] => ldl m frame = NULL
  | r :: rets => ldl m frame ≠ NULL ∧ ldl m (frame + 4) = r ∧ frames m (ldl m frame) rets
  end.

Lemma walk_frames rets : ∀ fuel m frame, frames m frame rets → (length rets ≤ fuel)%nat → walk fuel m frame = Ok rets.
Proof.
  induction rets as [|r rets IH]; intros fuel m frame [Hf H] Hl.
  - destruct fuel; cbn [walk]; by rewrite decide_False by (rewrite H; tauto).
  - destruct H as (Hn & Hr & H). destruct fuel as [|fuel]; [cbn in Hl; lia|]. cbn [walk]. rewrite decide_True by done. rewrite (IH fuel m (ldl m frame) H) by (cbn in Hl; lia). by rewrite Hr.
Qed.

(** A backtrace prints the address that debug_backtrace returns to and those of its callers, in order. *)
Theorem backtrace_prints_callers fuel m retaddr frame rets explained :
  frames m frame rets → (length rets ≤ fuel)%nat →
  debug_backtrace fuel m retaddr frame explained =
    Ok (str "Call stack:" ++ addresses_text (retaddr :: rets) ++ (if explained then [] else explanation), true).
Proof. intros Hf Hl. unfold debug_backtrace. by rewrite (walk_frames rets). Qed.

(** The backtrace of a thread that is not running: it is found where switch_threads has left the thread, that is, from the address to which it
    will return on.  For a thread that thread_create has just made it says so. *)
Theorem suspended_backtrace fuel m entry current retaddr frame t name status k :
  let head := str "Call stack of thread `" ++ name ++ str "' (status " ++ status_text status ++ str "):" in
  saved_in m t k → t ≠ current →
  (k_eip k = entry → print_stacktrace fuel m entry current retaddr frame t name status = Ok (head ++ str " thread was never scheduled." ++ [10])) ∧
  (∀ rets, k_eip k ≠ entry → frames m (k_ebp k) rets → (length rets ≤ fuel)%nat →
    print_stacktrace fuel m entry current retaddr frame t name status = Ok (head ++ addresses_text (k_eip k :: rets))).
Proof.
  intros head [_ _ Htop Hsp _ _ Hbp _ Hip _] Hne. unfold print_stacktrace. rewrite (decide_False (P := t = current)) by done. rewrite Hsp. unfold PGSIZE in *.
  replace (k_esp k - 20 + 16) with (k_esp k - 4) by lia. replace (k_esp k - 20 + 8) with (k_esp k - 12) by lia. rewrite Hip, Hbp. split.
  - intros He. by rewrite decide_True by tauto.
  - intros rets He Hf Hl. rewrite decide_False by lia. by rewrite (walk_frames rets).
Qed.

Theorem new_thread_backtrace fuel m kernel_thread entry t function aux current retaddr frame name status :
  thread_page t → in_u32 kernel_thread → in_u32 entry → in_u32 function → in_u32 aux → (∀ x, t ≤ x < t + PGSIZE → m x = 0) → t ≠ current →
  print_stacktrace fuel (new_ram kernel_thread entry t function aux m) entry current retaddr frame t name status =
    Ok (str "Call stack of thread `" ++ name ++ str "' (status " ++ status_text status ++ str "): thread was never scheduled." ++ [10]).
Proof.
  intros Ht H1 H2 H3 H4 Hz Hne. destruct (suspended_backtrace fuel (new_ram kernel_thread entry t function aux m) entry current retaddr frame t name status
    (context_new kernel_thread entry t function aux)) as [H _]; [by apply create_saves|done|]. rewrite H by done. by rewrite <- !app_assoc.
Qed.
